(* ===== verification/_CoqProject ===== *)
-Q . S2P
Prelude.v
Text.v
Regex.v
Effects.v
JsValue.v
JsDate.v
JsCollections.v
Digest.v
Json.v
JsonParse.v
AssetRegistry.v
ChainObservation.v
Valuation.v
ValuationRecovery.v
DepegLatch.v
DepegLatchDatabase.v
DepegLatchRepository.v
BuyingPower.v
Ledger.v
LedgerLifecycle.v
LedgerIdempotency.v
LogContext.v
LedgerCapability.v
LedgerPorts.v
PostgresLedger.v
LedgerService.v
AccountProfile.v
AccountTables.v
AccountEmail.v
AccountRepository.v
AccountHttp.v
YieldOperation.v
YieldService.v
JobEnvelope.v
JobMessage.v
Jsonb.v
BalanceSync.v
ReviewedJob.v
OutboxTable.v
OutboxDispatcher.v
OutboxSystem.v
OutboxPass.v
JobQueue.v
JobAdmission.v
RoutingFee.v
FeeAwareReturn.v
FeeAwareRequest.v
FeeAwareAllocation.v
