(* ===== verification/Prelude.v ===== *)
(** * Verification of the Crypto Lending back end: root of the development

    The program is a TypeScript back end (apps/api) for a platform that lends
    stablecoins.  Its core keeps a double-entry ledger, a state machine for
    every financial transaction, fee rules, an allocation recommendation, and
    the controls that stop the platform when a stablecoin loses its peg.  This
    library translates that core into executable definitions and proves what
    each part promises.  File names below are those of this library; the source
    of each is named at its top, and paths are relative to apps/api/src.

    ** Parts and how they interact

    Journals (ledger/domain/ledger.ts) are validated, bound to an idempotency
    key (idempotency.ts), authorised by a capability
    (application/ledger-capability-resolver.port.ts) and stored by a repository
    (infrastructure/postgres-ledger.repository.ts) inside one transaction; the
    service (application/ledger.service.ts) is the sequence of these steps.  A
    transaction's state (transaction-lifecycle.ts) moves along a rule table,
    which yield operations (yield-operations/) reuse.  A quote's fees
    (routing-fees/domain/routing-fee.ts) come from versioned rules; a lending
    recommendation (smart-lending/domain/) compares returns after all fees
    within exposure limits.

    The asset registry (blockchain/domain/supported-asset-registry.ts) says
    which tokens exist.  The valuation policy
    (valuation/domain/stablecoin-valuation-policy.ts) turns price observations
    of two sources into a conservative dollar value and judges whether an asset
    has lost its peg or recovered.  A depeg latch
    (valuation/domain/stablecoin-depeg-latch.ts) is recorded on such evidence
    and cleared by a second person; its state lives in two PostgreSQL tables
    with functions, constraints and a trigger
    (infrastructure/database/migrations/0019-...), which an adapter
    (valuation/infrastructure/postgres/postgres-stablecoin-depeg-latch.repository.ts)
    calls and reads back.  Buying power (buying-power/) adds a user's
    contributions up, conservatively, from such values.

    Work that follows a committed change travels as a job
    (infrastructure/outbox/).  Its envelope (job-envelope.ts) carries the
    correlation of the operation, its message has hard limits
    (job-message-policy.ts), its kind is one of three reviewed contracts
    (reviewed-job-contract-policy.ts).  The publisher
    (transactional-job-publisher.service.ts) admits it through the repository and
    a database function (migration 0018), which check it in turn.  The outbox
    table (job-outbox.repository.ts) leases jobs to dispatchers
    (outbox-dispatcher.service.ts), whose transport
    (postgres-outbox-transport.service.ts) inserts them into a queue table
    (migration 9001), from which a consumer
    (postgres-job-queue-consumer.service.ts) claims, checks and settles them.
    One kind of job reads a wallet's balances
    (blockchain-sync/domain/balance-sync.ts) under the observation policy of
    its network (blockchain/domain/chain-observation-policy.ts).

    An account declares a profile (accounts/domain/account-profile.ts).  Its
    versions live in three tables that two functions write (migration 0004); a
    repository (accounts/infrastructure/) and a service (accounts/application/)
    call them, and the routes accounts/me (accounts/auth/, accounts/http/) let the
    authenticated account read its profile and update the version it has seen.

    ** Files

    - Prelude: results of computations that throw, guards ([reject]), automation
      and generic lemmas.  Text, JsValue, JsDate, JsCollections, Json: the parts
      of JavaScript the code uses: strings and patterns, values seen through
      reflection, dates, Map, Set and sort, JSON.stringify; JsonParse:
      JSON.parse; Jsonb: PostgreSQL's jsonb columns.  Regex: regular expressions
      by derivatives.  Digest: framed hashing.  Effects: asynchronous code as a
      tree of calls ([io]), with [executes] for every environment and [run] for a
      given one.
    - AssetRegistry, Valuation, ValuationRecovery, DepegLatch,
      DepegLatchDatabase, DepegLatchRepository: the registry, the two
      classifiers, the latch commands, their tables and their adapter.
    - Ledger, LedgerLifecycle, LedgerIdempotency, LogContext, LedgerCapability,
      LedgerPorts, PostgresLedger, LedgerService: the ledger from its domain to
      its service.  LedgerPorts states the repository's interface as a class
      with laws; PostgresLedger is an instance and LedgerService is proved
      against the class.
    - ChainObservation, BalanceSync: observation policies and the jobs that read
      balances.  BuyingPower: mantissas and the calculator.
    - JobEnvelope, JobMessage, ReviewedJob: a job, its message, its contract.
      OutboxTable: the rows and statements of job_outbox.  OutboxDispatcher: a
      dispatch pass as trees of calls.  OutboxSystem: passes of any number of
      processes interleaved over the table, and the [delivery] machine they
      implement.  OutboxPass: how a pass runs and ends.  JobQueue: the queue
      table, its transport and its consumers, interleaved the same way.
      JobAdmission: the publisher, the repository's insert and the function.
    - AccountProfile, AccountTables, AccountEmail: profiles, their tables, and the
      agreement of the two on what a profile is.  AccountRepository: the
      repository and the service over the tables, and the store of versioned
      profiles they implement.  AccountHttp: the routes, from guard to response.
    - YieldOperation, YieldService: yield operations, on the ledger's tables.
    - RoutingFee; FeeAwareReturn, FeeAwareRequest, FeeAwareAllocation: fees and
      the recommendation.

    Definitions keep the names of the source; a record's fields carry a prefix
    where two records share a name.  An input of type [unknown] is a [jsval];
    a numeral in a string is a [string] with its [BigInt] in Z; an instant is a
    canonical text or its milliseconds in Z; a [Map] is an association list in
    insertion order; shared mutable objects (capabilities, the assessments of a
    recommendation) are stores indexed by identity.

    ** What the theorems show

    - Validation: accepted journals, transitions, routes, snapshots and latch
      commands are exactly those the rules describe ([*_iff], [*_range]).  The
      timestamps of a journal are compared as texts, which is the order of the
      instants in the years 0 to 9999 only.
    - Ledger: an accepted journal balances per asset and spans two accounts; the
      fingerprint binds the whole request; posting and reversing make exactly
      the calls of one transaction, and every failure is one of the documented
      errors; the service adds authorisation and replay, and telemetry never
      changes a result.  Lifecycles are finite.
    - Fees: amounts are exact roundings, resolution finds the rule that
      covers the instant whenever there is one, and there is never a second,
      snapshots are sound and their fingerprint identifies them.
    - Allocation: candidates are eligible exactly when every rule holds, the
      selection is greedy in the preference order and stays within capacity and
      exposure limits, cross-chain moves must beat the same-chain baseline, and
      the recommendation accounts for every position.
    - Registry and valuation: identification finds exactly the registered asset
      in its canonical form; a source is used exactly when its series is
      monotonic, new, timely and narrow; values are half-even roundings of the
      lowest conservative rate, capped at one dollar, and never authorise a
      financial use; recovery needs exactly the four samples and the clear the
      policy names.
    - Depeg latches: a latch needs evidence of a depeg and a clear needs
      evidence of recovery and a second person, within fifteen minutes; the
      command fingerprints identify commands.  The tables implement an event
      log: a state is the fold of an asset's events, the trigger, checks and
      foreign keys never fire, authorisations are spent once, commands are
      idempotent, and a latch whose revision did not change can always be
      cleared by a matching fresh command.  The adapter is a refinement of the
      table functions, except that it refuses a latch dated after its own
      recording, which the tables accept for thirty seconds.

    - Buying power: on a request without holes only the clock and the size of the
      total can make it fail; its parts add up, a value counts only under a quote
      that names it and is live, and the estimate never exceeds what the eligible
      contributions are worth.
    - Outbox: the table, the dispatchers and their crashes implement [delivery]: a
      job is sent at least once and only as enqueued, marked sent only after it
      was accepted, and dead after its last failure; every claimed job of a pass
      can still be delivered, passes end.  A message is refused exactly outside
      its limits, by the count kept while it is copied, and reads back as the
      envelope it was.
    - Admission: an enqueued job is stored under the envelope its caller gets, with
      the payload, attributes and link of the request, is claimed with them and
      passes review again; the database function
      refuses nothing the repository lets through but years outside 1 to 9999
      and jobs whose rows are missing.
    - Queue: publishing is idempotent, rows are always in a lawful state, batches
      settle what they claimed, and a reviewed job is never found invalid after
      its way through message, columns, claims and retries.  A job whose worker
      dies on its last attempt is lost ([lost_last_attempt_stuck]).
    - Synchronisation: a stalled head never becomes current by being read again,
      accepted blocks form one chain, retries carry the job on and are bounded,
      and an observation's identifier stands for its content in any order.

    - Accounts: the tables accept exactly the normal forms of the application; the
      audit of an account is the gapless history of its versions; the repository
      is a store with a conditional update, and so is the route: it changes the
      profile exactly when the request names its current version, by the one tag
      each version has.

    ** Bounds and fuel

    Recursion is structural everywhere but in the printing of numerals, whose
    fuel is the binary logarithm of the number plus one ([toString_fuel] shows
    it is enough), and in canonical JSON, whose depth (13 levels) and node count
    (512) are the source's own limits and whose exhaustion is the source's own
    error; so are the depth (64) and nodes (100000) of a job's payload.  The JSON
    parser has two steps of fuel per character ([parse_json_complete]); a
    dispatch pass takes at most fifteen steps per job
    ([dispatch_pass_terminates]).  Amounts are unbounded integers with the source's
    digit limits; safe-integer checks are written out, and a version that
    overflows its column is an error.  Histories are unbounded; their length
    is what the termination theorems bound.

    ** Parameters and hypotheses

    SHA-256 (node:crypto) is a function from bytes to hexadecimal text; a
    theorem that identifies something by its digest assumes that it does not
    collide on the messages involved ([collision_free]), and where the shipped
    registry is compared with literals of the database, that the digest of the
    registry is its reviewed fingerprint.  The WHATWG URL parser is a function.
    The resolvers of actors, capabilities and idempotency keys, telemetry, and
    the ledger's SQL functions are calls with any answer.  The database clock is
    an argument, read twice by a function and not going back between the two
    readings, or, where rows are leased, any function of the row and the reading.
    The collation only breaks ties.  What an outside transport accepts and
    answers is any choice consistent with its confirmations; claim tokens and
    consumer identifiers are fresh.  The conversion of a numeral that is no safe
    integer to a double, and the input, output and equality of [numeric] are
    functions ([numeric_ok]: integers print as themselves); so are the cast to a
    timestamp, its printing ([casts_times]: four-digit years but 0) and the order
    of digits under the collation ([collates_digits]).  Numbers in payloads print
    as they were read ([as_printed]).  The conversion of an instant of the
    database to a Date is a function; identifiers that the database draws are
    fresh.  Nest runs a route's guard, interceptors, pipes and handler in this
    order.  Strings are sequences of code units below 256; texts the validators
    accept are ASCII.  Freezing an object and error messages have no
    effect on values and are left out.  An array handed to the buying power
    calculator that owns a function or an accessor named map would run it in
    place of the inherited method; the inherited one is modelled.

    ** Not modelled

    The outbox worker's polling loop and the grants of the migrations; the balance
    synchronisation orchestrator and its store; price evidence, transcripts and
    the ingestion plan; portfolios; wallets; the yield repository; mainnet
    actions: they follow the same patterns and were left out.  Authentication,
    configuration, SQS, caches and telemetry are adapters of external services;
    the other migrations are SQL whose functions are calls here; the web client,
    the onchain package, and the infrastructure code, scripts and tools are not
    part of the core. *)

From stdpp Require Import base list sets.
From Stdlib Require Import ZArith Lia.

(** ** Results: a JavaScript computation that returns or throws *)

(** [result E A] is a computation that returns an [A] or throws an [E]. *)
Inductive result (E A : Type) : Type :=
| Ok (a : A)
| Err (e : E).

Arguments Ok {E A} a.
Arguments Err {E A} e.

Definition rbind {E A B} (m : result E A) (f : A -> result E B) : result E B :=
  match m with
  | Ok a => f a
  | Err e => Err e
  end.

Definition rmap {E A B} (f : A -> B) (m : result E A) : result E B :=
  match m with
  | Ok a => Ok (f a)
  | Err e => Err e
  end.

(** [rcatch m h] is [try { m } catch (e) { h e }]. *)
Definition rcatch {E F A} (m : result E A) (h : E -> result F A) : result F A :=
  match m with
  | Ok a => Ok a
  | Err e => h e
  end.

(** A reflection that throws a [TypeError] ([None]) inside a [try] whose
    [catch] raises the error [e]. *)
Definition or_throw {E A} (m : option A) (e : E) : result E A :=
  match m with
  | Some a => Ok a
  | None => Err e
  end.

(** The same computation seen from a caller with more kinds of errors. *)
Definition rlift {E F A} (f : E -> F) (m : result E A) : result F A :=
  rcatch m (fun e => Err (f e)).

Definition is_ok {E A} (m : result E A) : bool :=
  match m with
  | Ok _ => true
  | Err _ => false
  end.

Definition to_option {E A} (m : result E A) : option A :=
  match m with
  | Ok a => Some a
  | Err _ => None
  end.

(** [mapr f l] is [l.map(f)] for an [f] that may throw: left to right, the
    first error aborts. *)
Fixpoint mapr {E A B} (f : A -> result E B) (l : list A) : result E (list B) :=
  match l with
  | [] => Ok []
  | a :: l => rbind (f a) (fun b => rbind (mapr f l) (fun bs => Ok (b :: bs)))
  end.

Declare Scope result_scope.
Delimit Scope result_scope with result.

Notation "'let*' x ':=' m 'in' k" := (rbind m (fun x => k))
  (at level 10, x name, m at level 200, k at level 200)
  : result_scope.

(** [reject e when b in k] is [if (b) throw e; k]. *)
Notation "'reject' e 'when' b 'in' k" := (if b then Err e else k)
  (at level 10, e at level 9, b at level 100, k at level 200)
  : result_scope.

Open Scope result_scope.

(** ** Lemmas on results *)

Section results.
Context {E A B : Type}.
Implicit Types (m : result E A) (f : A -> result E B).

Lemma rbind_ok m f b : rbind m f = Ok b <-> exists a, m = Ok a /\ f a = Ok b.
Proof.
  split.
  - destruct m as [a|e]; simpl; [eauto | discriminate].
  - intros (a & -> & H). exact H.
Qed.

Lemma rbind_err m f e :
  rbind m f = Err e <-> m = Err e \/ exists a, m = Ok a /\ f a = Err e.
Proof.
  split.
  - destruct m as [a|e']; simpl; intros H; [eauto|]. left. congruence.
  - intros [-> | (a & -> & H)]; [reflexivity | exact H].
Qed.

Lemma or_throw_ok (o : option A) (e : E) a : or_throw o e = Ok a <-> o = Some a.
Proof. destruct o; simpl; split; congruence. Qed.

Lemma rlift_ok {F} (g : E -> F) m a : rlift g m = Ok a <-> m = Ok a.
Proof. destruct m; simpl; split; congruence. Qed.

Lemma rlift_err {F} (g : E -> F) m e : rlift g m = Err e -> exists e', m = Err e' /\ g e' = e.
Proof. destruct m as [a|e']; simpl; [discriminate|]. intros [= <-]. eauto. Qed.

Lemma is_ok_true m : is_ok m = true <-> exists a, m = Ok a.
Proof. destruct m; simpl; split; eauto; try congruence. intros (? & ?); congruence. Qed.

End results.

Lemma or_throw_err {E A} (m : option A) (e e' : E) : or_throw m e = Err e' -> e' = e.
Proof. destruct m; cbn; congruence. Qed.

Lemma mapr_ok {E A B} (f : A -> result E B) l bs :
  mapr f l = Ok bs <-> Forall2 (fun a b => f a = Ok b) l bs.
Proof.
  revert bs. induction l as [|a l IH]; intros bs; simpl; split.
  - intros [= <-]. constructor.
  - intros H. inversion H. reflexivity.
  - intros (b & Hb & H)%rbind_ok. apply rbind_ok in H as (bs' & Hbs & [= <-]).
    constructor; [exact Hb | by apply IH].
  - intros H. inversion H as [|? b ? bs' Hb Hbs]; subst.
    rewrite Hb. simpl. apply IH in Hbs. by rewrite Hbs.
Qed.

Lemma mapr_length {E A B} (f : A -> result E B) l bs :
  mapr f l = Ok bs -> length bs = length l.
Proof. intros H%mapr_ok. by apply Forall2_length in H. Qed.

(** What [f] guarantees holds of every element. *)
Lemma mapr_forall {E A B} (f : A -> result E B) (P : B -> Prop) l bs :
  (forall a b, a ∈ l -> f a = Ok b -> P b) -> mapr f l = Ok bs -> Forall P bs.
Proof.
  intros Hf H%mapr_ok. induction H; constructor; [by eapply Hf; [left|]|].
  apply IHForall2. intros a b Ha. apply Hf. by right.
Qed.

Lemma mapr_ext {E A B} (f g : A -> result E B) l :
  (forall a, f a = g a) -> mapr f l = mapr g l.
Proof. intros H. induction l as [|a l IH]; simpl; [done|]. by rewrite H, IH. Qed.

(** Mapping a list in another order gives the results in another order. *)
Lemma mapr_perm {E A B} (f : A -> result E B) l l' bs :
  l ≡ₚ l' -> mapr f l = Ok bs -> exists bs', mapr f l' = Ok bs' /\ bs ≡ₚ bs'.
Proof.
  intros Hp H%mapr_ok. destruct (Permutation_Forall2 Hp H) as (bs' & Hp' & H').
  exists bs'. split; [by apply mapr_ok | done].
Qed.

(** Replaying a total function through [mapr]. *)
Lemma mapr_pure {E A B} (f : A -> result E B) (g : A -> B) l :
  (forall a, a ∈ l -> f a = Ok (g a)) -> mapr f l = Ok (g <$> l).
Proof.
  induction l as [|a l IH]; intros H; simpl; [done|].
  rewrite (H a) by set_solver. simpl. by rewrite IH by set_solver.
Qed.

(** Decoding a list of encoded values gives the values back. *)
Lemma mapr_decode {E A J} (enc : A -> J) (dec : J -> result E A) (l : list A) :
  (forall a, a ∈ l -> dec (enc a) = Ok a) -> mapr dec (enc <$> l) = Ok l.
Proof.
  induction l as [|a l IH]; intros H; [done|].
  rewrite fmap_cons. cbn [mapr]. rewrite (H a) by set_solver. simpl. by rewrite IH by set_solver.
Qed.

(** ** Lists *)

Lemma Forall2_elem_r {A B} (R : A -> B -> Prop) l k b : Forall2 R l k -> b ∈ k -> exists a, a ∈ l /\ R a b.
Proof.
  induction 1 as [|a b' l k Hab _ IH]; intros Hb; [by apply not_elem_of_nil in Hb|].
  apply elem_of_cons in Hb as [->|Hb]; [exists a; split; [left | done]|].
  destruct (IH Hb) as (x & Hx & Hr). exists x. split; [by right | done].
Qed.

Lemma Forall2_elem {A B} (P Q : A -> B -> Prop) l k :
  Forall2 P l k -> (forall a b, a ∈ l -> P a b -> Q a b) -> Forall2 Q l k.
Proof.
  induction 1 as [|a b l k Hab _ IH]; intros H; constructor; [apply H; [left | done]|].
  apply IH. intros x y Hx. apply H. by right.
Qed.

Lemma filter_perm {A} (f : A -> bool) l l' : l ≡ₚ l' -> List.filter f l ≡ₚ List.filter f l'.
Proof.
  induction 1 as [|x l l' _ IH|x y l|l l' l'' _ IH _ IH']; cbn [List.filter].
  - done.
  - destruct (f x); [by constructor | done].
  - destruct (f x), (f y); try done. apply Permutation_swap.
  - by rewrite IH.
Qed.

Lemma existsb_false {A} (f : A -> bool) l : existsb f l = false <-> forall a, a ∈ l -> f a = false.
Proof.
  rewrite <- not_true_iff_false, existsb_exists. split.
  - intros H a Ha. apply not_true_iff_false. intros Hf. apply H. exists a. by rewrite <- list_elem_of_In.
  - intros H (a & Ha%list_elem_of_In & Hf). by rewrite (H a Ha) in Hf.
Qed.

Lemma concat_nil {A} (ls : list (list A)) : concat ls = [] <-> Forall (fun l => l = []) ls.
Proof.
  induction ls as [|l ls IH]; cbn [concat]; [split; constructor|].
  by rewrite app_nil, Forall_cons, IH.
Qed.

Lemma ForallOrdPairs_snoc {A} (R : A -> A -> Prop) l a :
  ForallOrdPairs R l -> (forall b, b ∈ l -> R b a) -> ForallOrdPairs R (l ++ [a]).
Proof.
  induction 1 as [|b l Hb Hl IH]; cbn [app]; intros Ha; [repeat constructor|].
  constructor; [|apply IH; intros; apply Ha; by right].
  apply Forall_app. split; [done|]. constructor; [apply Ha; left | constructor].
Qed.

(** ** Automation shared by the components *)

(** [inv_ok] takes a hypothesis saying that a computation returned normally
    apart: binds, guards and reflections, leaving one equation per step. *)
Ltac inv_ok_step :=
  match goal with
  | H : Ok _ = Ok _ |- _ => injection H; clear H; intros
  | H : Err _ = Ok _ |- _ => discriminate H
  | H : Ok _ = Err _ |- _ => discriminate H
  | H : rbind _ _ = Ok _ |- _ =>
      let a := fresh "r" in let Ha := fresh "Hr" in
      apply rbind_ok in H as (a & Ha & H)
  | H : or_throw _ _ = Ok _ |- _ => apply or_throw_ok in H
  | H : rlift _ _ = Ok _ |- _ => apply rlift_ok in H
  | H : (if ?b then Err _ else _) = Ok _ |- _ =>
      let Hb := fresh "Hg" in destruct b eqn:Hb; [discriminate H|]
  end.
Ltac inv_ok := repeat inv_ok_step.

(** Boolean guards to propositions. *)
Ltac bsimpl :=
  repeat match goal with
  | H : andb _ _ = true |- _ => apply andb_true_iff in H as [? ?]
  | H : orb _ _ = false |- _ => apply orb_false_iff in H as [? ?]
  | H : negb _ = true |- _ => apply negb_true_iff in H
  | H : negb _ = false |- _ => apply negb_false_iff in H
  | H : Z.leb _ _ = true |- _ => apply Z.leb_le in H
  | H : Z.leb _ _ = false |- _ => apply Z.leb_gt in H
  | H : Z.ltb _ _ = true |- _ => apply Z.ltb_lt in H
  | H : Z.ltb _ _ = false |- _ => apply Z.ltb_ge in H
  | H : Z.eqb _ _ = true |- _ => apply Z.eqb_eq in H
  | H : Z.eqb _ _ = false |- _ => apply Z.eqb_neq in H
  end.

(** Membership in a list written out. *)
Ltac solve_elem := first [apply list_elem_of_here | apply list_elem_of_further; solve_elem].

Create HintDb lending discriminated.
#[export] Hint Constants Opaque : lending.
#[export] Hint Constructors Forall Forall2 NoDup : lending.

(** ** Integers *)

Definition MAX_UINT256 : Z := 2 ^ 256 - 1.

Lemma pow10_pos n : (0 <= n -> 0 < 10 ^ n)%Z.
Proof. intros. apply Z.pow_pos_nonneg; lia. Qed.

#[export] Hint Resolve pow10_pos : lending.

(** [n] is [x / d] rounded to the nearest, ties to the even neighbour. *)
Definition half_even (x d n : Z) : Prop :=
  (2 * Z.abs (n * d - x) <= d /\ (2 * Z.abs (n * d - x) = d -> Z.even n = true))%Z.

Lemma half_even_unique x d n n' : (0 < d)%Z -> half_even x d n -> half_even x d n' -> n = n'.
Proof.
  intros Hd [H1 H2] [H1' H2'].
  assert (n * d - n' * d <= d /\ n' * d - n * d <= d)%Z as [Ha Hb] by lia.
  assert (n - n' <= 1 /\ n' - n <= 1)%Z as [Hc Hc'] by nia.
  destruct (Z.eq_dec n n') as [|Hne]; [done|]. exfalso.
  assert (2 * Z.abs (n * d - x) = d /\ 2 * Z.abs (n' * d - x) = d)%Z as [E E'].
  { destruct (Z.lt_trichotomy n n') as [L|[L|L]]; [|lia|].
    - assert (n' * d = n * d + d)%Z by (replace n' with (n + 1)%Z by lia; ring). lia.
    - assert (n * d = n' * d + d)%Z by (replace n with (n' + 1)%Z by lia; ring). lia. }
  specialize (H2 E). specialize (H2' E').
  apply Z.even_spec in H2 as [k ->], H2' as [k' ->]. lia.
Qed.

(** The rounding the code computes from quotient and remainder. *)
Lemma half_even_division x d :
  (0 < d)%Z ->
  half_even x d (if (x mod d * 2 <? d)%Z then x / d
                 else if (d <? x mod d * 2)%Z then x / d + 1
                 else if (x / d mod 2 =? 0)%Z then x / d else x / d + 1)%Z.
Proof.
  intros Hd. unfold half_even.
  pose proof (Z.div_mod x d ltac:(lia)) as E. pose proof (Z.mod_pos_bound x d Hd) as B.
  set (q := (x / d)%Z) in *. set (m := (x mod d)%Z) in *.
  destruct (Z.ltb_spec (m * 2) d) as [H1|H1]; [split; [nia | intros; nia]|].
  destruct (Z.ltb_spec d (m * 2)) as [H2|H2]; [split; [nia | intros; nia]|].
  rewrite Zmod_even. destruct (Z.even q) eqn:Hq; cbn [Z.eqb Pos.eqb].
  - replace (q * d - x)%Z with (- m)%Z by lia. split; [lia | done].
  - replace ((q + 1) * d - x)%Z with (d - m)%Z by lia. split; [lia|]. intros _. by rewrite Z.even_add, Hq.
Qed.
