(* ===== verification/Text.v ===== *)
(** * Strings: character classes, patterns, ordering and decimal numerals

    JavaScript strings are modelled by [string], one [ascii] per UTF-16 code
    unit (code units up to 255; every string the validators accept is made of
    printable ASCII).  This file holds the regular expressions of the code as
    boolean predicates, the code-unit order behind [<] on strings, and
    [BigInt(s)] / [n.toString()] on decimal numerals. *)

From stdpp Require Import base list strings.
From Stdlib Require Import ZArith Lia Ascii.
From S2P Require Import Prelude.

Open Scope Z_scope.

(** ** Character classes *)

Definition code (c : ascii) : Z := Z.of_N (N_of_ascii c).

Definition in_range (lo hi : Z) (c : ascii) : bool := (lo <=? code c) && (code c <=? hi).

Definition is_char (c d : ascii) : bool := Ascii.eqb c d.
(** [[0-9]] *)
Definition is_digit : ascii -> bool := in_range 48 57.
(** [[1-9]] *)
Definition is_digit19 : ascii -> bool := in_range 49 57.
(** [[0-9a-f]] *)
Definition is_hex (c : ascii) : bool := is_digit c || in_range 97 102 c.
(** [[89ab]] *)
Definition is_variant (c : ascii) : bool := in_range 56 57 c || in_range 97 98 c.
(** [[A-Za-z0-9]] *)
Definition is_alnum (c : ascii) : bool :=
  is_digit c || in_range 65 90 c || in_range 97 122 c.
(** [[\x21-\x7e]] *)
Definition is_visible : ascii -> bool := in_range 33 126.
(** [[A-Za-z0-9._:/-]] *)
Definition is_reference_char (c : ascii) : bool :=
  is_alnum c || (code c =? 46) || (code c =? 95) || (code c =? 58)
  || (code c =? 47) || (code c =? 45).

(** ** Patterns *)

Fixpoint all_chars (p : ascii -> bool) (s : string) : bool :=
  match s with
  | EmptyString => true
  | String c s => p c && all_chars p s
  end.

(** A concatenation of single-character classes, anchored at both ends. *)
Fixpoint matches (ps : list (ascii -> bool)) (s : string) : bool :=
  match ps, s with
  | [], EmptyString => true
  | p :: ps, String c s => p c && matches ps s
  | _, _ => false
  end.

Definition strlen (s : string) : Z := Z.of_nat (String.length s).

(** [/^[0-9a-f]{8}-[0-9a-f]{4}-4[0-9a-f]{3}-[89ab][0-9a-f]{3}-[0-9a-f]{12}$/u] *)
Definition UUID_V4_PATTERN (s : string) : bool :=
  matches (replicate 8 is_hex ++ [is_char "-"] ++ replicate 4 is_hex ++ [is_char "-"]
           ++ [is_char "4"] ++ replicate 3 is_hex ++ [is_char "-"]
           ++ [is_variant] ++ replicate 3 is_hex ++ [is_char "-"]
           ++ replicate 12 is_hex) s.

(** [/^[0-9a-f]{64}$/u] *)
Definition HEX64_PATTERN (s : string) : bool := matches (replicate 64 is_hex) s.

(** [/^[1-9][0-9]*$/u] *)
Definition POSITIVE_INTEGER_PATTERN (s : string) : bool :=
  match s with
  | EmptyString => false
  | String c s => is_digit19 c && all_chars is_digit s
  end.

(** Either [0] alone, or a digit [1-9] followed by digits [0-9]. *)
Definition UNSIGNED_INTEGER_PATTERN (s : string) : bool :=
  String.eqb s "0" || POSITIVE_INTEGER_PATTERN s.

(** [/^[\x21-\x7e]+$/u] *)
Definition VISIBLE_PATTERN (s : string) : bool :=
  negb (String.eqb s "") && all_chars is_visible s.

(** [/^[A-Za-z0-9][A-Za-z0-9._:/-]*$/u] *)
Definition REFERENCE_PATTERN (s : string) : bool :=
  match s with
  | EmptyString => false
  | String c s => is_alnum c && all_chars is_reference_char s
  end.

(** [/^\d{4}-\d{2}-\d{2}T\d{2}:\d{2}:\d{2}\.\d{3}Z$/u] *)
Definition TIMESTAMP_PATTERN (s : string) : bool :=
  matches (replicate 4 is_digit ++ [is_char "-"] ++ replicate 2 is_digit ++ [is_char "-"]
           ++ replicate 2 is_digit ++ [is_char "T"] ++ replicate 2 is_digit ++ [is_char ":"]
           ++ replicate 2 is_digit ++ [is_char ":"] ++ replicate 2 is_digit ++ [is_char "."]
           ++ replicate 3 is_digit ++ [is_char "Z"]) s.

(** [Buffer.byteLength(s, 'utf8')]: one byte up to U+007F, two bytes for the
    remaining code units of the model. *)
Fixpoint utf8_bytes (s : string) : Z :=
  match s with
  | EmptyString => 0
  | String c s => (if code c <=? 127 then 1 else 2) + utf8_bytes s
  end.

(** ** Ordering: [a < b] on strings *)

Definition str_lt (a b : string) : bool := String.ltb a b.

(** Lexicographic combination of two comparisons. *)
Definition lex (c d : comparison) : comparison :=
  match c with
  | Eq => d
  | _ => c
  end.

(** ** Decimal numerals *)

Definition digit_val (c : ascii) : Z := code c - 48.

Fixpoint dec_acc (acc : Z) (s : string) : Z :=
  match s with
  | EmptyString => acc
  | String c s => dec_acc (10 * acc + digit_val c) s
  end.

(** [BigInt(s)] on a string of decimal digits. *)
Definition BigInt (s : string) : Z := dec_acc 0 s.

Definition digit_char (d : Z) : ascii := ascii_of_N (Z.to_N (48 + d)).

Fixpoint dec_digits (fuel : nat) (n : Z) (acc : string) : string :=
  match fuel with
  | O => acc
  | S fuel =>
      let acc := String (digit_char (n mod 10)) acc in
      if n <? 10 then acc else dec_digits fuel (n / 10) acc
  end.

(** [n.toString()] for a non-negative bigint; one digit per step, and a
    number has no more decimal than binary digits. *)
Definition toString (n : Z) : string := dec_digits (S (Z.to_nat (Z.log2 n))) n "".

(** The zero-padded numeral of width [w]. *)
Fixpoint pad (w : nat) (n : Z) : string :=
  match w with
  | O => ""
  | S w => String.append (pad w (n / 10)) (String (digit_char (n mod 10)) "")
  end.

(** ** Letter case and substrings *)

(** [s.toLowerCase()] and PostgreSQL's [lower] on ASCII text. *)
Definition lower (c : ascii) : ascii := if in_range 65 90 c then ascii_of_N (Z.to_N (code c + 32)) else c.

Fixpoint toLowerCase (s : string) : string :=
  match s with
  | EmptyString => EmptyString
  | String c s => String (lower c) (toLowerCase s)
  end.

(** [s.endsWith(suffix)] for a single character. *)
Fixpoint ends_with (suffix : ascii) (s : string) : bool :=
  match s with
  | EmptyString => false
  | String c EmptyString => Ascii.eqb c suffix
  | String _ s => ends_with suffix s
  end.

(** [s.includes(sub)] *)
Fixpoint includes (sub s : string) : bool :=
  String.prefix sub s
  || match s with
     | EmptyString => false
     | String _ s => includes sub s
     end.

(** [s.split(c)] for a single character; [String.concat] joins. *)
Fixpoint split_on (c : ascii) (s : string) : list string :=
  match s with
  | EmptyString => [""]
  | String d s =>
      if Ascii.eqb d c then "" :: split_on c s
      else match split_on c s with
           | [] => [String d ""]
           | part :: parts => String d part :: parts
           end
  end.

(** ** Trimming: [s.trim()] *)

(** JavaScript white space and line terminators below U+0100. *)
Definition is_js_space (c : ascii) : bool :=
  in_range 9 13 c || in_range 32 32 c || in_range 160 160 c.

Fixpoint trim_start (s : string) : string :=
  match s with
  | EmptyString => EmptyString
  | String c s' => if is_js_space c then trim_start s' else s
  end.

Fixpoint trim_end (s : string) : string :=
  match s with
  | EmptyString => EmptyString
  | String c s' =>
      match trim_end s' with
      | EmptyString => if is_js_space c then EmptyString else String c EmptyString
      | s' => String c s'
      end
  end.

Definition trim (s : string) : string := trim_end (trim_start s).

(** ** Lemmas: classes and lengths *)

Lemma code_bounds c : 0 <= code c < 256.
Proof.
  unfold code. pose proof (N_ascii_bounded c). lia.
Qed.

Lemma code_inj c d : code c = code d -> c = d.
Proof.
  unfold code. intros H. apply N2Z.inj in H.
  rewrite <- (ascii_N_embedding c), <- (ascii_N_embedding d). by f_equal.
Qed.

Lemma is_digit_spec c : is_digit c = true <-> 0 <= digit_val c <= 9.
Proof.
  unfold is_digit, in_range, digit_val. rewrite andb_true_iff, !Z.leb_le. lia.
Qed.

Lemma is_digit19_spec c : is_digit19 c = true <-> 1 <= digit_val c <= 9.
Proof.
  unfold is_digit19, in_range, digit_val. rewrite andb_true_iff, !Z.leb_le. lia.
Qed.

Lemma digit19_digit c : is_digit19 c = true -> is_digit c = true.
Proof. rewrite is_digit19_spec, is_digit_spec. lia. Qed.

Lemma digit_char_val d : 0 <= d <= 9 -> digit_val (digit_char d) = d.
Proof.
  intros H. unfold digit_val, digit_char, code.
  rewrite N_ascii_embedding; lia.
Qed.

Lemma digit_char_digit d : 0 <= d <= 9 -> is_digit (digit_char d) = true.
Proof. intros. rewrite is_digit_spec, digit_char_val; lia. Qed.

Lemma ascii_compare_code c d : Ascii.compare c d = Z.compare (code c) (code d).
Proof. unfold Ascii.compare, code. by rewrite N2Z.inj_compare. Qed.

Lemma append_nil_l r : "" +:+ r = r.
Proof. done. Qed.

Lemma append_cons c s r : String c s +:+ r = String c (s +:+ r).
Proof. done. Qed.

Lemma append_nil_r s : s +:+ "" = s.
Proof. induction s as [|c s IH]; [done|]. by rewrite append_cons, IH. Qed.

Lemma append_assoc a b c : (a +:+ b) +:+ c = a +:+ (b +:+ c).
Proof. induction a as [|x a IH]; [done|]. by rewrite !append_cons, IH. Qed.

Lemma length_append a b : String.length (a +:+ b) = (String.length a + String.length b)%nat.
Proof. induction a as [|c a IH]; simpl; [done | by rewrite IH]. Qed.

Lemma all_chars_append p a b : all_chars p (a +:+ b) = all_chars p a && all_chars p b.
Proof. induction a as [|c a IH]; simpl; [done | by rewrite IH, andb_assoc]. Qed.

Lemma all_chars_impl (p q : ascii -> bool) s :
  (forall c, p c = true -> q c = true) -> all_chars p s = true -> all_chars q s = true.
Proof.
  intros H. induction s as [|c s IH]; simpl; [done|].
  rewrite !andb_true_iff. intros [Hc Hs]. auto.
Qed.

Lemma matches_length ps s : matches ps s = true -> String.length s = length ps.
Proof.
  revert s. induction ps as [|p ps IH]; intros [|c s]; simpl; try done.
  intros [_ H]%andb_true_iff. by rewrite (IH s H).
Qed.

Lemma matches_app ps qs a b :
  String.length a = length ps ->
  matches (ps ++ qs) (a +:+ b) = matches ps a && matches qs b.
Proof.
  revert a. induction ps as [|p ps IH]; intros [|c a]; simpl; try done.
  intros [= H]. by rewrite IH, andb_assoc.
Qed.

Lemma matches_all p n s :
  matches (replicate n p) s = true <-> String.length s = n /\ all_chars p s = true.
Proof.
  revert n. induction s as [|c s IH]; intros [|n]; simpl; split;
    try (intros [? ?]; discriminate); try done.
  - intros [Hc H]%andb_true_iff. apply IH in H as [H1 H2]. by rewrite H1, Hc.
  - intros [[= H1] [Hc H2]%andb_true_iff]. rewrite Hc. simpl. by apply IH.
Qed.

(** ** Lemmas: letter case *)

Lemma lower_idem c : lower (lower c) = lower c.
Proof. destruct c as [[] [] [] [] [] [] [] []]; by vm_compute. Qed.

Lemma toLowerCase_idem s : toLowerCase (toLowerCase s) = toLowerCase s.
Proof.
  induction s as [|c s IH]; cbn [toLowerCase]; [done|].
  by rewrite lower_idem, IH.
Qed.

(** ** Lemmas: splitting and joining *)

Definition free_of (c : ascii) : string -> bool := all_chars (fun d => negb (Ascii.eqb d c)).

Lemma split_on_cons c s : exists part parts, split_on c s = part :: parts.
Proof.
  induction s as [|d s (part & parts & E)]; cbn [split_on]; [by eexists _, _|].
  rewrite E. by destruct (Ascii.eqb d c); eexists _, _.
Qed.

Lemma concat_cons sep a b l : String.concat sep (a :: b :: l) = a +:+ sep +:+ String.concat sep (b :: l).
Proof. done. Qed.

Lemma concat_head sep d part parts :
  String.concat sep (String d part :: parts) = String d (String.concat sep (part :: parts)).
Proof. by destruct parts. Qed.

Lemma concat_split_on c s : String.concat (String c "") (split_on c s) = s.
Proof.
  induction s as [|d s IH]; [done|]. cbn [split_on].
  destruct (split_on_cons c s) as (part & parts & E). rewrite E in *.
  destruct (Ascii.eqb_spec d c) as [->|Hd].
  - by rewrite concat_cons, IH.
  - by rewrite concat_head, IH.
Qed.

Lemma split_on_free c s : Forall (fun part => free_of c part = true) (split_on c s).
Proof.
  induction s as [|d s IH]; cbn [split_on]; [by repeat constructor|].
  destruct (Ascii.eqb_spec d c) as [->|Hd]; [by constructor|].
  destruct (split_on_cons c s) as (part & parts & E). rewrite E in *.
  apply Forall_cons in IH as [Hp IH]. constructor; [|done].
  cbn. by destruct (Ascii.eqb_spec d c).
Qed.

Lemma split_on_append c a s : free_of c a = true ->
  split_on c (a +:+ String c s) = a :: split_on c s.
Proof.
  induction a as [|d a IH]; intros Ha.
  - rewrite append_nil_l. cbn [split_on]. by rewrite Ascii.eqb_refl.
  - apply andb_true_iff in Ha as [Hd Ha]. rewrite append_cons. cbn [split_on]. rewrite IH by done.
    by destruct (Ascii.eqb d c).
Qed.

Lemma split_on_one c a : free_of c a = true -> split_on c a = [a].
Proof.
  induction a as [|d a IH]; intros Ha; [done|].
  apply andb_true_iff in Ha as [Hd Ha]. cbn [split_on]. rewrite IH by done. by destruct (Ascii.eqb d c).
Qed.

Lemma split_on_concat c parts : parts <> [] -> Forall (fun part => free_of c part = true) parts ->
  split_on c (String.concat (String c "") parts) = parts.
Proof.
  induction parts as [|a [|b parts] IH]; intros Hne H; [done| |]; apply Forall_cons in H as [Ha H].
  - by apply split_on_one.
  - rewrite concat_cons, append_cons, append_nil_l, split_on_append by done. by rewrite IH.
Qed.

(** ** Lemmas: ordering *)

Lemma str_compare_append a a' b b' :
  String.length a = String.length a' ->
  String.compare (a +:+ b) (a' +:+ b') = lex (String.compare a a') (String.compare b b').
Proof.
  revert a'. induction a as [|c a IH]; intros [|c' a']; simpl; try done.
  intros [= H]. destruct (Ascii.compare c c'); simpl; auto.
Qed.

Lemma str_compare_refl a : String.compare a a = Eq.
Proof.
  induction a as [|c a IH]; simpl; [done|].
  rewrite ascii_compare_code, Z.compare_refl. exact IH.
Qed.

Lemma str_lt_compare a b : str_lt a b = true <-> String.compare a b = Lt.
Proof. unfold str_lt, String.ltb. destruct (String.compare a b); split; congruence. Qed.

Lemma str_compare_trans a b c :
  String.compare a b = Lt -> String.compare b c = Lt -> String.compare a c = Lt.
Proof.
  revert b c. induction a as [|x a IH]; intros [|y b] [|z c]; simpl; try done.
  rewrite !ascii_compare_code.
  destruct (Z.compare_spec (code x) (code y)), (Z.compare_spec (code y) (code z));
    try discriminate; intros H1 H2; destruct (Z.compare_spec (code x) (code z));
    try lia; eauto.
Qed.

Lemma str_lt_irrefl a : str_lt a a = false.
Proof. unfold str_lt, String.ltb. by rewrite str_compare_refl. Qed.

Lemma str_lt_trans a b c : str_lt a b = true -> str_lt b c = true -> str_lt a c = true.
Proof. rewrite !str_lt_compare. apply str_compare_trans. Qed.

Lemma str_lt_total a b : str_lt a b = false -> str_lt b a = false -> a = b.
Proof.
  unfold str_lt, String.ltb. rewrite (String.compare_antisym b a).
  destruct (String.compare a b) eqn:E; simpl; try done.
  intros _ _. by apply String.compare_eq_iff.
Qed.

Lemma str_lt_asym a b : str_lt a b = true -> str_lt b a = false.
Proof.
  intros H. destruct (str_lt b a) eqn:E; [|done].
  pose proof (str_lt_trans _ _ _ H E) as Hc. by rewrite str_lt_irrefl in Hc.
Qed.

(** ** Lemmas: decimal numerals *)

Lemma dec_acc_split a s : dec_acc a s = a * 10 ^ strlen s + BigInt s.
Proof.
  unfold BigInt, strlen. revert a. induction s as [|c s IH]; intros a; simpl.
  - lia.
  - rewrite (IH (10 * a + digit_val c)), (IH (10 * 0 + digit_val c)).
    rewrite Nat2Z.inj_succ, Z.pow_succ_r by lia. lia.
Qed.

Lemma strlen_nonneg s : 0 <= strlen s.
Proof. unfold strlen. lia. Qed.
#[export] Hint Resolve strlen_nonneg : lending.

Lemma strlen_cons c s : strlen (String c s) = 1 + strlen s.
Proof. unfold strlen. simpl String.length. lia. Qed.

Lemma strlen_append a b : strlen (a +:+ b) = strlen a + strlen b.
Proof. unfold strlen. rewrite length_append. lia. Qed.

Lemma BigInt_cons c s : BigInt (String c s) = digit_val c * 10 ^ strlen s + BigInt s.
Proof. unfold BigInt at 1. simpl. rewrite dec_acc_split. lia. Qed.

Lemma BigInt_append a b : BigInt (a +:+ b) = BigInt a * 10 ^ strlen b + BigInt b.
Proof.
  induction a as [|c a IH].
  { change (BigInt b = 0 * 10 ^ strlen b + BigInt b). lia. }
  change (String c a +:+ b) with (String c (a +:+ b)).
  rewrite !BigInt_cons, IH, strlen_append, Z.pow_add_r by auto with lending. lia.
Qed.

Lemma BigInt_bounds s : all_chars is_digit s = true -> 0 <= BigInt s < 10 ^ strlen s.
Proof.
  induction s as [|c s IH]; simpl all_chars.
  - intros _. by vm_compute.
  - intros [Hc Hs]%andb_true_iff. apply is_digit_spec in Hc. specialize (IH Hs).
    rewrite BigInt_cons, strlen_cons, Z.pow_add_r by (pose proof (strlen_nonneg s); lia).
    change (10 ^ 1) with 10. nia.
Qed.

(** On digit strings of the same length the code-unit order is the numeric
    order: the fact behind every string comparison of amounts in the code. *)
Lemma compare_digits a b :
  String.length a = String.length b ->
  all_chars is_digit a = true -> all_chars is_digit b = true ->
  String.compare a b = Z.compare (BigInt a) (BigInt b).
Proof.
  revert b. induction a as [|c a IH]; intros [|d b]; simpl; try done.
  intros [= Hlen] [Hc Ha]%andb_true_iff [Hd Hb]%andb_true_iff.
  rewrite ascii_compare_code, (IH b Hlen Ha Hb), !BigInt_cons.
  apply BigInt_bounds in Ha, Hb.
  assert (strlen a = strlen b) as Hl by (unfold strlen; lia). rewrite <- Hl in *.
  apply is_digit_spec in Hc, Hd. unfold digit_val in *.
  destruct (Z.compare_spec (code c) (code d)) as [E|E|E]; symmetry.
  - rewrite E. destruct (Z.compare_spec (BigInt a) (BigInt b));
      [apply Z.compare_eq_iff | apply Z.compare_lt_iff | apply Z.compare_gt_iff]; lia.
  - apply Z.compare_lt_iff. nia.
  - apply Z.compare_gt_iff. nia.
Qed.

Lemma positive_integer_spec s :
  POSITIVE_INTEGER_PATTERN s = true <->
  all_chars is_digit s = true /\ 10 ^ (strlen s - 1) <= BigInt s /\ s <> "".
Proof.
  destruct s as [|c s]; simpl; [split; [done | intros (_ & _ & ?); done]|].
  rewrite !andb_true_iff, strlen_cons, BigInt_cons.
  replace (1 + strlen s - 1) with (strlen s) by lia.
  pose proof (pow10_pos (strlen s) (strlen_nonneg s)) as Hp. split.
  - intros [Hc Hs]. split; [auto using digit19_digit|].
    apply is_digit19_spec in Hc. apply BigInt_bounds in Hs. split; [nia | done].
  - intros [[Hc Hs] [H _]]. split; [|done].
    apply is_digit_spec in Hc. apply is_digit19_spec. apply BigInt_bounds in Hs.
    assert (digit_val c <> 0) by (intros E; rewrite E in H; lia). lia.
Qed.

Lemma positive_integer_digits s :
  POSITIVE_INTEGER_PATTERN s = true -> all_chars is_digit s = true.
Proof. rewrite positive_integer_spec. tauto. Qed.

Lemma positive_integer_length s :
  POSITIVE_INTEGER_PATTERN s = true -> 1 <= strlen s.
Proof.
  destruct s as [|c s]; [done|]. intros _. rewrite strlen_cons.
  pose proof (strlen_nonneg s). lia.
Qed.

Lemma positive_integer_bounds s :
  POSITIVE_INTEGER_PATTERN s = true -> 10 ^ (strlen s - 1) <= BigInt s < 10 ^ strlen s.
Proof.
  intros H. pose proof (positive_integer_digits s H) as Hd%BigInt_bounds.
  apply positive_integer_spec in H as (_ & H & _). lia.
Qed.

Lemma positive_integer_pos s : POSITIVE_INTEGER_PATTERN s = true -> 0 < BigInt s.
Proof.
  intros H. pose proof (positive_integer_length s H).
  apply positive_integer_bounds in H.
  pose proof (pow10_pos (strlen s - 1)). lia.
Qed.

(** A shorter canonical numeral denotes a smaller number. *)
Lemma positive_integer_shorter a b :
  POSITIVE_INTEGER_PATTERN a = true -> POSITIVE_INTEGER_PATTERN b = true ->
  strlen a < strlen b -> BigInt a < BigInt b.
Proof.
  intros Ha%positive_integer_bounds Hb%positive_integer_bounds Hl.
  assert (10 ^ strlen a <= 10 ^ (strlen b - 1)) by (apply Z.pow_le_mono_r; lia). lia.
Qed.

Lemma positive_integer_inj a b :
  POSITIVE_INTEGER_PATTERN a = true -> POSITIVE_INTEGER_PATTERN b = true ->
  BigInt a = BigInt b -> a = b.
Proof.
  intros Ha Hb H.
  assert (strlen a = strlen b) as Hl.
  { destruct (Z.lt_trichotomy (strlen a) (strlen b)) as [L|[L|L]]; [|done|].
    - pose proof (positive_integer_shorter a b Ha Hb L). lia.
    - pose proof (positive_integer_shorter b a Hb Ha L). lia. }
  apply String.compare_eq_iff.
  rewrite compare_digits by (auto using positive_integer_digits; unfold strlen in Hl; lia).
  by apply Z.compare_eq_iff.
Qed.

Lemma unsigned_integer_digits s :
  UNSIGNED_INTEGER_PATTERN s = true -> all_chars is_digit s = true.
Proof.
  unfold UNSIGNED_INTEGER_PATTERN. intros [H|H]%orb_true_iff.
  - apply String.eqb_eq in H. by subst.
  - by apply positive_integer_digits.
Qed.

Lemma unsigned_integer_nonneg s : UNSIGNED_INTEGER_PATTERN s = true -> 0 <= BigInt s.
Proof. intros H%unsigned_integer_digits%BigInt_bounds. lia. Qed.

Lemma unsigned_integer_zero s :
  UNSIGNED_INTEGER_PATTERN s = true -> BigInt s = 0 <-> s = "0".
Proof.
  unfold UNSIGNED_INTEGER_PATTERN. intros [H|H]%orb_true_iff.
  - apply String.eqb_eq in H. by subst.
  - apply positive_integer_pos in H as Hp. split; [lia|]. intros ->. done.
Qed.

(** The bound check of the code: reject a canonical numeral that is longer
    than [max], or as long and greater as a string. *)
Definition exceeds_decimal (max s : string) : bool :=
  (strlen max <? strlen s) || ((strlen s =? strlen max) && str_lt max s).

Lemma exceeds_decimal_spec max s :
  POSITIVE_INTEGER_PATTERN max = true -> UNSIGNED_INTEGER_PATTERN s = true ->
  exceeds_decimal max s = false <-> BigInt s <= BigInt max.
Proof.
  intros Hm Hs. unfold exceeds_decimal.
  pose proof (unsigned_integer_digits s Hs) as Hds.
  pose proof (positive_integer_digits max Hm) as Hdm.
  rewrite orb_false_iff, Z.ltb_ge, andb_false_iff, Z.eqb_neq.
  assert (BigInt s = 0 /\ strlen s = 1 \/ POSITIVE_INTEGER_PATTERN s = true) as [[H0 H1]|Hp].
  { unfold UNSIGNED_INTEGER_PATTERN in Hs. apply orb_true_iff in Hs as [H|H]; [|by right].
    apply String.eqb_eq in H. subst. by left. }
  - pose proof (positive_integer_pos _ Hm). pose proof (positive_integer_length _ Hm).
    split; [lia|]. intros _. split; [lia|].
    destruct (Z.eq_dec (strlen s) (strlen max)) as [E|E]; [right | by left].
    destruct (str_lt max s) eqn:L; [|done]. apply str_lt_compare in L.
    rewrite compare_digits in L by (auto; unfold strlen in E; lia).
    rewrite Z.compare_lt_iff in L. lia.
  - destruct (Z.lt_trichotomy (strlen s) (strlen max)) as [L|[E|L]].
    + pose proof (positive_integer_shorter _ _ Hp Hm L). split; [lia|]. intros _. lia.
    + assert (String.compare max s = Z.compare (BigInt max) (BigInt s)) as Hc.
      { apply compare_digits; auto. unfold strlen in E. lia. }
      unfold str_lt, String.ltb. rewrite Hc.
      destruct (Z.compare_spec (BigInt max) (BigInt s)); (split; [intros [_ [?|?]] | intros ?]);
        try lia; try done; (split; [lia | by right]).
    + pose proof (positive_integer_shorter _ _ Hm Hp L). split; lia.
Qed.

(** ** Lemmas: printing numbers *)

Lemma dec_digits_value fuel n acc :
  0 <= n -> n < 2 ^ Z.of_nat fuel -> BigInt (dec_digits fuel n acc) = dec_acc n acc.
Proof.
  revert n acc. induction fuel as [|fuel IH]; intros n acc Hn Hf; simpl.
  - assert (n = 0) as -> by lia. done.
  - rewrite Nat2Z.inj_succ, Z.pow_succ_r in Hf by lia.
    pose proof (Z.mod_pos_bound n 10). pose proof (Z.div_mod n 10).
    destruct (Z.ltb_spec n 10) as [L|L].
    + unfold BigInt. simpl. rewrite digit_char_val by lia. f_equal.
      rewrite Z.mod_small; lia.
    + rewrite IH by (try apply Z.div_pos; nia). simpl.
      rewrite digit_char_val by lia. f_equal. lia.
Qed.

Lemma dec_digits_canonical fuel n acc :
  0 < n -> n < 2 ^ Z.of_nat fuel -> all_chars is_digit acc = true ->
  POSITIVE_INTEGER_PATTERN (dec_digits fuel n acc) = true.
Proof.
  revert n acc. induction fuel as [|fuel IH]; intros n acc Hn Hf Ha; simpl.
  - simpl in Hf. lia.
  - rewrite Nat2Z.inj_succ, Z.pow_succ_r in Hf by lia.
    pose proof (Z.mod_pos_bound n 10). pose proof (Z.div_mod n 10).
    destruct (Z.ltb_spec n 10) as [L|L].
    + simpl. rewrite Ha, andb_true_r. apply is_digit19_spec.
      rewrite digit_char_val by lia. rewrite Z.mod_small; lia.
    + apply IH; [nia | nia |]. simpl. rewrite Ha, andb_true_r.
      apply digit_char_digit. lia.
Qed.

Lemma toString_fuel n : 0 <= n -> n < 2 ^ Z.of_nat (S (Z.to_nat (Z.log2 n))).
Proof.
  intros H. pose proof (Z.log2_nonneg n).
  rewrite Nat2Z.inj_succ, Z2Nat.id by lia.
  destruct (Z.eq_dec n 0) as [->|]; [done|]. apply Z.log2_spec. lia.
Qed.

(** [BigInt(n.toString()) === n] *)
Lemma BigInt_toString n : 0 <= n -> BigInt (toString n) = n.
Proof. intros H. unfold toString. rewrite dec_digits_value; auto using toString_fuel. Qed.

Lemma toString_positive n : 0 < n -> POSITIVE_INTEGER_PATTERN (toString n) = true.
Proof. intros H. apply dec_digits_canonical; [lia | apply toString_fuel; lia | done]. Qed.

Lemma toString_unsigned n : 0 <= n -> UNSIGNED_INTEGER_PATTERN (toString n) = true.
Proof.
  intros H. destruct (Z.eq_dec n 0) as [->|]; [done|].
  unfold UNSIGNED_INTEGER_PATTERN. rewrite toString_positive by lia. by rewrite orb_true_r.
Qed.

(** [BigInt(s).toString() === s] on a canonical numeral. *)
Lemma toString_BigInt s : UNSIGNED_INTEGER_PATTERN s = true -> toString (BigInt s) = s.
Proof.
  intros H. unfold UNSIGNED_INTEGER_PATTERN in H. apply orb_true_iff in H as [H|H].
  - apply String.eqb_eq in H. by subst.
  - pose proof (positive_integer_pos s H).
    apply positive_integer_inj; [by apply toString_positive | done |].
    apply BigInt_toString. lia.
Qed.

Lemma toString_inj a b : 0 <= a -> 0 <= b -> toString a = toString b -> a = b.
Proof.
  intros Ha Hb H. rewrite <- (BigInt_toString a Ha), <- (BigInt_toString b Hb). by rewrite H.
Qed.

Lemma pad_length w n : String.length (pad w n) = w.
Proof.
  revert n. induction w as [|w IH]; intros n; simpl; [done|].
  rewrite length_append, IH. simpl. lia.
Qed.

Lemma pad_digits w n : all_chars is_digit (pad w n) = true.
Proof.
  revert n. induction w as [|w IH]; intros n; simpl; [done|].
  rewrite all_chars_append, IH. simpl. rewrite digit_char_digit; [done|].
  pose proof (Z.mod_pos_bound n 10). lia.
Qed.

Lemma pad_value w n : 0 <= n < 10 ^ Z.of_nat w -> BigInt (pad w n) = n.
Proof.
  revert n. induction w as [|w IH]; intros n Hn.
  - simpl in Hn. assert (n = 0) as -> by lia. done.
  - rewrite Nat2Z.inj_succ, Z.pow_succ_r in Hn by lia. simpl.
    pose proof (Z.mod_pos_bound n 10). pose proof (Z.div_mod n 10).
    rewrite BigInt_append, IH by (split; [apply Z.div_pos; lia | nia]).
    rewrite BigInt_cons, digit_char_val by lia.
    change (BigInt "") with 0. rewrite strlen_cons. change (strlen "") with 0.
    change (10 ^ 0) with 1. change (10 ^ (1 + 0)) with 10. lia.
Qed.

(** Zero-padded numerals of one width compare as their values. *)
Lemma pad_compare w a b :
  0 <= a < 10 ^ Z.of_nat w -> 0 <= b < 10 ^ Z.of_nat w ->
  String.compare (pad w a) (pad w b) = Z.compare a b.
Proof.
  intros Ha Hb. rewrite compare_digits; auto using pad_digits.
  - by rewrite !pad_value.
  - by rewrite !pad_length.
Qed.

(** A numeral has at most [k] digits exactly below [10 ^ k]. *)
Lemma toString_length_iff n k : 0 <= n -> 1 <= k -> strlen (toString n) <= k <-> n < 10 ^ k.
Proof.
  intros H0 Hk. destruct (Z.eq_dec n 0) as [->|Hne].
  { split; intros _; [by apply pow10_pos; lia | exact Hk]. }
  pose proof (toString_positive n ltac:(lia)) as Hp.
  pose proof (positive_integer_bounds _ Hp) as [Hl Hu]. rewrite BigInt_toString in Hl, Hu by done.
  pose proof (positive_integer_length _ Hp). split; intros H'.
  - eapply Z.lt_le_trans; [exact Hu|]. apply Z.pow_le_mono_r; lia.
  - assert (strlen (toString n) - 1 < k) as Hlt; [|lia]. apply (Z.pow_lt_mono_r_iff 10); lia.
Qed.

(** ** Lemmas: trimming *)

Lemma trim_end_idem s : trim_end (trim_end s) = trim_end s.
Proof.
  induction s as [|c s IH]; [done|]. cbn [trim_end]. destruct (trim_end s) as [|d r] eqn:E.
  - destruct (is_js_space c) eqn:Ec; [done|]. cbn [trim_end]. by rewrite Ec.
  - cbn [trim_end] in IH |- *. by rewrite IH.
Qed.

Lemma trim_end_start s : trim_start s = s -> trim_start (trim_end s) = trim_end s.
Proof.
  destruct s as [|c s]; [done|]. cbn [trim_start]. destruct (is_js_space c) eqn:Ec.
  - intros H. exfalso. assert (forall r, String.length (trim_start r) <= String.length r)%nat as Hl.
    { induction r as [|d r IH]; cbn; [lia|]. destruct (is_js_space d); cbn; lia. }
    specialize (Hl s). rewrite H in Hl. cbn in Hl. lia.
  - intros _. cbn [trim_end]. destruct (trim_end s); [rewrite Ec; cbn [trim_start]; by rewrite Ec|].
    cbn [trim_start]. by rewrite Ec.
Qed.

Lemma trim_start_idem s : trim_start (trim_start s) = trim_start s.
Proof.
  induction s as [|c s IH]; [done|]. cbn [trim_start]. destruct (is_js_space c) eqn:Ec; [done|].
  cbn [trim_start]. by rewrite Ec.
Qed.

(** Trimming twice is trimming once. *)
Lemma trim_idem s : trim (trim s) = trim s.
Proof. unfold trim. rewrite trim_end_start by apply trim_start_idem. apply trim_end_idem. Qed.
