(* ===== verification/Regex.v ===== *)
(** * Regular expressions

    The patterns that a list of character classes cannot express, as terms: the
    ones of the email addresses, which the code writes in JavaScript and a table
    constraint writes again in PostgreSQL's dialect.  [regex_test] decides a
    whole-string match ([/^...$/u.test(s)], [s ~ '^...$']) by Brzozowski's
    derivatives; [matched] is its meaning. *)

From stdpp Require Import base list strings.
From Stdlib Require Import ZArith Lia Ascii.
From S2P Require Import Prelude Text.

(** ** Expressions and their meaning *)

Inductive regex : Type :=
| Nothing
| Eps
| Class (p : ascii -> bool)
| Seq (r s : regex)
| Alt (r s : regex)
| Star (r : regex).

Inductive matched : regex -> string -> Prop :=
| matched_eps : matched Eps ""
| matched_class p c : p c = true -> matched (Class p) (String c "")
| matched_seq r s a b : matched r a -> matched s b -> matched (Seq r s) (a +:+ b)
| matched_left r s a : matched r a -> matched (Alt r s) a
| matched_right r s a : matched s a -> matched (Alt r s) a
| matched_none r : matched (Star r) ""
| matched_more r a b : matched r a -> matched (Star r) b -> matched (Star r) (a +:+ b).

(** [r?], [r{0,n}], [r{m,n}], [r+], and the text [s] itself. *)
Definition optional (r : regex) : regex := Alt Eps r.

Fixpoint upto (n : nat) (r : regex) : regex :=
  match n with
  | O => Eps
  | S n => optional (Seq r (upto n r))
  end.

Fixpoint copies (n : nat) (r rest : regex) : regex :=
  match n with
  | O => rest
  | S n => Seq r (copies n r rest)
  end.

Definition between (m n : nat) (r : regex) : regex := copies m r (upto (n - m) r).

Definition plus (r : regex) : regex := Seq r (Star r).

Fixpoint text (s : string) : regex :=
  match s with
  | EmptyString => Eps
  | String c s => Seq (Class (is_char c)) (text s)
  end.

(** A concatenation of classes, as in [matches]. *)
Fixpoint classes (ps : list (ascii -> bool)) : regex :=
  match ps with
  | [] => Eps
  | p :: ps => Seq (Class p) (classes ps)
  end.

(** ** The decision procedure *)

Fixpoint accepts_empty (r : regex) : bool :=
  match r with
  | Nothing | Class _ => false
  | Eps | Star _ => true
  | Seq r s => accepts_empty r && accepts_empty s
  | Alt r s => accepts_empty r || accepts_empty s
  end.

Definition seq (r s : regex) : regex :=
  match r with
  | Nothing => Nothing
  | Eps => s
  | r => Seq r s
  end.

Definition alt (r s : regex) : regex :=
  match r, s with
  | Nothing, s => s
  | r, Nothing => r
  | r, s => Alt r s
  end.

Fixpoint derive (c : ascii) (r : regex) : regex :=
  match r with
  | Nothing | Eps => Nothing
  | Class p => if p c then Eps else Nothing
  | Seq r s =>
      let rest := seq (derive c r) s in
      if accepts_empty r then alt rest (derive c s) else rest
  | Alt r s => alt (derive c r) (derive c s)
  | Star r => seq (derive c r) (Star r)
  end.

Fixpoint regex_test (r : regex) (s : string) : bool :=
  match s with
  | EmptyString => accepts_empty r
  | String c s => regex_test (derive c r) s
  end.

(** ** Lemmas: the meaning of each constructor *)

#[export] Hint Constructors matched : lending.

Lemma matched_Nothing s : ~ matched Nothing s.
Proof. inversion 1. Qed.

Lemma matched_Eps s : matched Eps s <-> s = "".
Proof. split; [by inversion 1 | intros ->; constructor]. Qed.

Lemma matched_Class p s : matched (Class p) s <-> exists c, s = String c "" /\ p c = true.
Proof. split; [inversion 1; eauto | intros (c & -> & H); by constructor]. Qed.

Lemma matched_Seq r s w : matched (Seq r s) w <-> exists a b, w = a +:+ b /\ matched r a /\ matched s b.
Proof. split; [inversion 1; eauto | intros (a & b & -> & Ha & Hb); by constructor]. Qed.

Lemma matched_Alt r s w : matched (Alt r s) w <-> matched r w \/ matched s w.
Proof. split; [inversion 1; auto | intros [H|H]; by constructor]. Qed.

Lemma matched_Star r w : matched (Star r) w <-> exists l, w = String.concat "" l /\ Forall (matched r) l.
Proof.
  split.
  - remember (Star r) as s eqn:E. intros H.
    induction H as [| | | | | |r' a b Ha _ Hb IH]; inversion E; subst; [by exists []|].
    destruct IH as (l & -> & Hl); [done|]. exists (a :: l). split; [|by constructor].
    destruct l as [|b l]; [by rewrite append_nil_r | by rewrite concat_cons].
  - intros (l & -> & Hl). induction Hl as [|a l Ha _ IH]; [constructor|].
    destruct l as [|b l]; [|by apply (matched_more r a)].
    cbn [String.concat] in *. rewrite <- (append_nil_r a). by constructor.
Qed.

Lemma seq_spec r s w : matched (seq r s) w <-> matched (Seq r s) w.
Proof.
  destruct r; cbn [seq]; try done; rewrite matched_Seq.
  - split; [intros H; by apply matched_Nothing in H | intros (a & b & _ & H & _); by apply matched_Nothing in H].
  - split; [intros H; exists "", w; auto with lending|].
    by intros (a & b & -> & ->%matched_Eps & H).
Qed.

Lemma alt_spec r s w : matched (alt r s) w <-> matched (Alt r s) w.
Proof.
  rewrite matched_Alt. pose proof (matched_Nothing w).
  destruct r, s; cbn [alt]; rewrite 1?matched_Alt; tauto.
Qed.

(** ** Lemmas: the decision procedure is right *)

Lemma append_is_nil a b : a +:+ b = "" <-> a = "" /\ b = "".
Proof. destruct a; [by split; [|intros [_ ?]] | by split; [|intros [? _]]]. Qed.

Lemma accepts_empty_spec r : accepts_empty r = true <-> matched r "".
Proof.
  induction r as [| |p|r IHr s IHs|r IHr s IHs|r _]; cbn [accepts_empty].
  - split; [done | by intros H%matched_Nothing].
  - by rewrite matched_Eps.
  - rewrite matched_Class. split; [done | by intros (c & H & _)].
  - rewrite andb_true_iff, IHr, IHs, matched_Seq. split; [intros []; by exists "", ""|].
    by intros (a & b & [-> ->]%eq_sym%append_is_nil & H).
  - by rewrite orb_true_iff, IHr, IHs, matched_Alt.
  - split; [intros _; constructor | done].
Qed.

Lemma star_head r c w : matched (Star r) (String c w) <->
  exists a b, w = a +:+ b /\ matched r (String c a) /\ matched (Star r) b.
Proof.
  split.
  - remember (Star r) as s eqn:E. remember (String c w) as v eqn:Ev. intros H.
    induction H as [| | | | | |r' a b Ha _ Hb IH]; inversion E; subst; try done.
    destruct a as [|d a]; [by apply IH|]. rewrite append_cons in Ev. injection Ev as -> <-. eauto.
  - intros (a & b & -> & Ha & Hb). rewrite <- append_cons. by constructor.
Qed.

Lemma derive_spec c r w : matched (derive c r) w <-> matched r (String c w).
Proof.
  revert w. induction r as [| |p|r IHr s IHs|r IHr s IHs|r IH]; intros w; cbn [derive].
  - split; by intros H%matched_Nothing.
  - rewrite matched_Eps. split; [by intros H%matched_Nothing | done].
  - rewrite matched_Class. destruct (p c) eqn:Ep.
    + rewrite matched_Eps. split; [intros ->; eauto | by intros (d & [= _ ->] & _)].
    + split; [by intros H%matched_Nothing|]. intros (d & [= <- _] & H). congruence.
  - assert (matched (Seq r s) (String c w) <->
            matched (Seq (derive c r) s) w \/ matched r "" /\ matched s (String c w)) as ->.
    { rewrite !matched_Seq. setoid_rewrite IHr. split.
      - intros ([|d a] & b & E & Ha & Hb); [right; cbn in E; by rewrite E|].
        rewrite append_cons in E. injection E as <- ->. left. eauto.
      - intros [(a & b & -> & Ha & Hb)|[Hr Hs]]; [by exists (String c a), b | by exists "", (String c w)]. }
    pose proof (accepts_empty_spec r) as He. destruct (accepts_empty r).
    + rewrite alt_spec, matched_Alt, seq_spec, IHs. tauto.
    + rewrite seq_spec. intuition congruence.
  - by rewrite alt_spec, !matched_Alt, IHr, IHs.
  - rewrite seq_spec, matched_Seq, star_head. by setoid_rewrite IH.
Qed.

Lemma regex_test_spec r s : regex_test r s = true <-> matched r s.
Proof.
  revert r. induction s as [|c s IH]; intros r; cbn [regex_test]; [apply accepts_empty_spec|].
  by rewrite IH, derive_spec.
Qed.

#[export] Instance matched_dec r s : Decision (matched r s).
Proof.
  destruct (regex_test r s) eqn:E; [left; by apply regex_test_spec|].
  right. rewrite <- regex_test_spec. by rewrite E.
Defined.

(** ** Lemmas: the derived forms *)

Lemma matched_optional r s : matched (optional r) s <-> s = "" \/ matched r s.
Proof. unfold optional. by rewrite matched_Alt, matched_Eps. Qed.

Lemma matched_one p r s :
  matched (Seq (Class p) r) s <-> exists c w, s = String c w /\ p c = true /\ matched r w.
Proof.
  rewrite matched_Seq. setoid_rewrite matched_Class. split.
  - intros (? & w & -> & (c & -> & Hc) & Hw). eauto.
  - intros (c & w & -> & Hc & Hw). by exists (String c ""), w; eauto.
Qed.

Lemma matched_classes ps s : matched (classes ps) s <-> matches ps s = true.
Proof.
  revert s. induction ps as [|p ps IH]; intros s; cbn [classes].
  - rewrite matched_Eps. destruct s; cbn; split; congruence.
  - rewrite matched_one. destruct s as [|c s]; cbn [matches].
    + split; [by intros (? & ? & ? & _) | done].
    + rewrite andb_true_iff, <- IH. split; [by intros (? & ? & [= -> ->] & H) | eauto].
Qed.

Lemma matched_text t s : matched (text t) s <-> s = t.
Proof.
  revert s. induction t as [|c t IH]; intros s; cbn [text]; [apply matched_Eps|].
  rewrite matched_one. setoid_rewrite IH. unfold is_char. split.
  - by intros (d & w & -> & ->%Ascii.eqb_eq & ->).
  - intros ->. exists c, t. by rewrite Ascii.eqb_refl.
Qed.

Lemma matched_upto n p s :
  matched (upto n (Class p)) s <-> all_chars p s = true /\ (String.length s <= n)%nat.
Proof.
  revert s. induction n as [|n IH]; intros s; cbn [upto].
  - rewrite matched_Eps. destruct s; cbn; split; [done.. | |]; intros; naive_solver lia.
  - rewrite matched_optional, matched_one. setoid_rewrite IH. destruct s as [|c s]; cbn.
    + split; [intros _; split; [done | lia] | by left].
    + rewrite andb_true_iff. split.
      * intros [?|(d & w & [= <- <-] & H)]; [done|]. split; [naive_solver | naive_solver lia].
      * intros [[Hc Hs] Hn]. right. exists c, s. split_and!; try done. lia.
Qed.

Lemma matched_copies m k p s :
  matched (copies m (Class p) (upto k (Class p))) s <->
  all_chars p s = true /\ (m <= String.length s <= m + k)%nat.
Proof.
  revert s. induction m as [|m IH]; intros s; cbn [copies].
  - rewrite matched_upto. naive_solver lia.
  - rewrite matched_one. setoid_rewrite IH. destruct s as [|c s]; cbn [all_chars String.length].
    + split; [by intros (? & ? & ? & _) | intros [_ ?]; lia].
    + rewrite andb_true_iff. split.
      * intros (d & w & [= <- <-] & Hc & Hw & Hl). split; [done | lia].
      * intros [[Hc Hw] Hl]. exists c, s. split_and!; try done; lia.
Qed.

Lemma matched_between m n p s : (m <= n)%nat ->
  matched (between m n (Class p)) s <-> all_chars p s = true /\ (m <= String.length s <= n)%nat.
Proof.
  intros Hmn. unfold between. rewrite matched_copies. by replace (m + (n - m))%nat with n by lia.
Qed.

Lemma matched_star_class p s : matched (Star (Class p)) s <-> all_chars p s = true.
Proof.
  induction s as [|c s IH]; [split; [done | constructor]|].
  rewrite star_head. cbn [all_chars]. rewrite andb_true_iff, <- IH. setoid_rewrite matched_Class. split.
  - by intros (a & b & -> & (d & [= <- ->] & Hd) & Hb).
  - intros [Hc Hs]. exists "", s. eauto.
Qed.

Lemma matched_plus_class p s : matched (plus (Class p)) s <-> s <> "" /\ all_chars p s = true.
Proof.
  unfold plus. rewrite matched_one. setoid_rewrite matched_star_class. destruct s as [|c s]; cbn [all_chars].
  - split; [by intros (? & ? & ? & _) | by intros []].
  - rewrite andb_true_iff. split; [by intros (d & w & [= <- <-] & H) | intros [_ H]; by exists c, s].
Qed.

(** A non-empty list, separated. *)
Lemma matched_separated r c s :
  (forall part, matched r part -> free_of c part = true) ->
  matched (Seq r (Star (Seq (Class (is_char c)) r))) s <-> Forall (matched r) (split_on c s).
Proof.
  intros Hr. split.
  - intros (a & b & -> & Ha & (l & -> & Hl)%matched_Star)%matched_Seq.
    assert (exists parts, Forall (matched r) parts /\
              a +:+ String.concat "" l = String.concat (String c "") (a :: parts)) as (parts & Hp & ->).
    { clear Ha. revert a. induction Hl as [|w l Hw _ IH]; intros a; [exists []; by rewrite append_nil_r|].
      apply matched_one in Hw as (d & part & -> & ->%Ascii.eqb_eq & Hpart).
      destruct (IH part) as (parts & Hp & E). exists (part :: parts). split; [by constructor|].
      rewrite concat_cons, <- E. destruct l; [by rewrite append_nil_r | done]. }
    rewrite split_on_concat; [by constructor | done|].
    constructor; [by apply Hr | by eapply Forall_impl].
  - intros H. rewrite <- (concat_split_on c s). destruct (split_on_cons c s) as (a & parts & E). rewrite E in *.
    apply Forall_cons in H as [Ha Hp]. clear E. revert a Ha. induction Hp as [|b parts Hb _ IH]; intros a Ha.
    + rewrite <- (append_nil_r (String.concat _ _)). by repeat constructor.
    + rewrite concat_cons. constructor; [done|].
      specialize (IH b Hb). apply matched_Seq in IH as (b' & rest & -> & Hb' & Hrest).
      rewrite <- append_assoc. constructor; [|done]. apply matched_one. exists c, b'.
      unfold is_char. by rewrite Ascii.eqb_refl.
Qed.
