(* ===== verification/Effects.v ===== *)
(** * Effects: asynchronous code as a tree of calls

    An [async] function of the application layer awaits calls to ports (the
    database, the resolvers, telemetry) and continues with each answer.  [io]
    is that tree; [executes m t r] says that [m] can run to the result [r]
    while making exactly the calls, with exactly the answers, of the trace
    [t].  Nothing is assumed of the answers, so a statement about every
    execution holds for every environment, concurrent ones included. *)

From stdpp Require Import base list.
From S2P Require Import Prelude.

(** ** Trees *)

Section io.
(** Calls, the type of a call's answer, and what is thrown. *)
Context {C : Type} {ans : C -> Type} {X : Type}.

Inductive io (A : Type) : Type :=
| Done (r : result X A)
| Ask (c : C) (k : result X (ans c) -> io A).

Arguments Done {A} r.
Arguments Ask {A} c k.

(** [await c] *)
Definition call (c : C) : io (ans c) := Ask c (fun a => Done a).

Fixpoint io_bind {A B} (m : io A) (f : A -> io B) : io B :=
  match m with
  | Done (Ok a) => f a
  | Done (Err e) => Done (Err e)
  | Ask c k => Ask c (fun a => io_bind (k a) f)
  end.

(** [try { return await m } catch (e) { h e }] *)
Fixpoint io_try {A} (m : io A) (h : X -> io A) : io A :=
  match m with
  | Done (Ok a) => Done (Ok a)
  | Done (Err e) => h e
  | Ask c k => Ask c (fun a => io_try (k a) h)
  end.

(** The outcome of [m] as a value, for a [catch] that does not rejoin the
    normal flow. *)
Definition attempt {A} (m : io A) : io (result X A) :=
  io_try (io_bind m (fun a => Done (Ok (Ok a)))) (fun e => Done (Ok (Err e))).

(** An awaited call with its answer: a value, or a rejection. *)
Inductive event : Type := Event (c : C) (a : result X (ans c)).

Definition event_call (ev : event) : C := match ev with Event c _ => c end.

Fixpoint executes {A} (m : io A) (t : list event) (r : result X A) : Prop :=
  match m with
  | Done r' => t = [] /\ r = r'
  | Ask c k =>
      match t with
      | [] => False
      | ev :: t' => exists a, ev = Event c a /\ executes (k a) t' r
      end
  end.

(** Runs the tree against an environment with a state. *)
Fixpoint run {W A} (env : forall c, W -> result X (ans c) * W) (w : W) (m : io A)
    : result X A * list event * W :=
  match m with
  | Done r => (r, [], w)
  | Ask c k =>
      let '(a, w) := env c w in
      let '(r, t, w) := run env w (k a) in
      (r, Event c a :: t, w)
  end.
End io.

Arguments io {C} ans X A.
Arguments event {C} ans X.
Arguments Done {C ans X A} r.
Arguments Ask {C ans X A} c k.
Arguments Event {C ans X} c a.

Declare Scope io_scope.
Delimit Scope io_scope with io.

Notation "'await*' x ':=' m 'in' k" := (io_bind m (fun x => k))
  (at level 10, x name, m at level 200, k at level 200)
  : io_scope.

Open Scope io_scope.

(** ** Lemmas *)

Section executes_lemmas.
Context {C : Type} {ans : C -> Type} {X : Type}.
Notation io := (io ans X).
Notation event := (event ans X).

(** Every run is an execution; every tree runs to a result. *)
Lemma run_executes {W A} (env : forall c, W -> result X (ans c) * W) (m : io A) w :
  let '(r, t, _) := run env w m in executes m t r.
Proof.
  revert w. induction m as [r|c k IH]; intros w; simpl; [done|].
  destruct (env c w) as [a w']. specialize (IH a w').
  destruct (run env w' (k a)) as [[r t] w'']. simpl. eauto.
Qed.

Lemma run_executes_eq {W A} (env : forall c, W -> result X (ans c) * W) (m : io A) w r t w' :
  run env w m = (r, t, w') -> executes m t r.
Proof. pose proof (run_executes env m w) as H. intros E. by rewrite E in H. Qed.

Lemma executes_bind {A B} (m : io A) (f : A -> io B) t r :
  executes (io_bind m f) t r <->
  (exists e, executes m t (Err e) /\ r = Err e) \/
  (exists a t1 t2, t = t1 ++ t2 /\ executes m t1 (Ok a) /\ executes (f a) t2 r).
Proof.
  revert t. induction m as [[a|e]|c k IH]; intros t; simpl.
  - split.
    + intros H. right. exists a, [], t. auto.
    + intros [(e & [_ He] & _)|(a' & t1 & t2 & -> & [-> Ha] & Hf)]; [done|].
      by injection Ha as ->.
  - split.
    + intros [-> ->]. left. eauto.
    + intros [(e' & [-> He] & ->)|(a' & t1 & t2 & -> & [_ Ha] & _)]; [|done].
      by injection He as ->.
  - destruct t as [|ev t].
    + split; [done|]. intros [(e & [] & _)|(a & t1 & t2 & E & H & _)].
      symmetry in E. by apply app_nil in E as [-> ->].
    + setoid_rewrite IH. split.
      * intros (a & -> & [(e & H & ->)|(b & t1 & t2 & -> & H1 & H2)]).
        -- left. eauto.
        -- right. exists b, (Event c a :: t1), t2. simpl. eauto.
      * intros [(e & (a & -> & H) & ->)|(b & [|ev1 t1] & t2 & E & H1 & H2)]; [eauto 6|done|].
        injection E as -> ->. destruct H1 as (a & -> & H1). eauto 10.
Qed.

Lemma executes_try {A} (m : io A) (h : X -> io A) t r :
  executes (io_try m h) t r <->
  (exists a, executes m t (Ok a) /\ r = Ok a) \/
  (exists e t1 t2, t = t1 ++ t2 /\ executes m t1 (Err e) /\ executes (h e) t2 r).
Proof.
  revert t. induction m as [[a|e]|c k IH]; intros t; simpl.
  - split.
    + intros [-> ->]. left. eauto.
    + intros [(a' & [-> Ha] & ->)|(e' & t1 & t2 & -> & [_ He] & _)]; [|done].
      by injection Ha as ->.
  - split.
    + intros H. right. exists e, [], t. auto.
    + intros [(a & [_ Ha] & _)|(e' & t1 & t2 & -> & [-> He] & Hf)]; [done|].
      by injection He as ->.
  - destruct t as [|ev t].
    + split; [done|]. intros [(a & [] & _)|(e & t1 & t2 & E & H & _)].
      symmetry in E. by apply app_nil in E as [-> ->].
    + setoid_rewrite IH. split.
      * intros (a & -> & [(b & H & ->)|(e & t1 & t2 & -> & H1 & H2)]).
        -- left. eauto.
        -- right. exists e, (Event c a :: t1), t2. simpl. eauto.
      * intros [(b & (a & -> & H) & ->)|(e & [|ev1 t1] & t2 & E & H1 & H2)]; [eauto 6|done|].
        injection E as -> ->. destruct H1 as (a & -> & H1). eauto 10.
Qed.

Lemma executes_call (c : C) (t : list event) r :
  executes (call c) t r <-> t = [Event c r].
Proof.
  unfold call. simpl. destruct t as [|ev t]; [done|]. split.
  - by intros (a & -> & -> & ->).
  - intros [= -> ->]. eauto.
Qed.

Lemma executes_done {A} (r' r : result X A) (t : list event) :
  executes (Done r') t r <-> t = [] /\ r = r'.
Proof. done. Qed.

(** Success of a sequence: every step succeeds. *)
Lemma executes_bind_ok {A B} (m : io A) (f : A -> io B) t b :
  executes (io_bind m f) t (Ok b) <->
  exists a t1 t2, t = t1 ++ t2 /\ executes m t1 (Ok a) /\ executes (f a) t2 (Ok b).
Proof.
  rewrite executes_bind. split; [|by right]. by intros [(e & _ & [=])|?].
Qed.

Lemma executes_call_ok {B} (c : C) (f : ans c -> io B) t b :
  executes (io_bind (call c) f) t (Ok b) <->
  exists a t', t = Event c (Ok a) :: t' /\ executes (f a) t' (Ok b).
Proof.
  rewrite executes_bind_ok. split.
  - intros (a & t1 & t2 & -> & ->%executes_call & H). eauto.
  - intros (a & t' & -> & H). exists a, [Event c (Ok a)], t'.
    split; [done|]. split; [by apply executes_call | done].
Qed.

Lemma executes_pure_ok {A B} (m : result X A) (f : A -> io B) t b :
  executes (io_bind (Done m) f) t (Ok b) <-> exists a, m = Ok a /\ executes (f a) t (Ok b).
Proof.
  rewrite executes_bind_ok. split.
  - intros (a & t1 & t2 & -> & [-> <-] & H). eauto.
  - intros (a & -> & H). exists a, [], t. done.
Qed.

(** A handler that never returns normally leaves the successes alone. *)
Lemma executes_try_ok {A} (m : io A) (h : X -> io A) t a :
  (forall e t a, ~ executes (h e) t (Ok a)) ->
  executes (io_try m h) t (Ok a) <-> executes m t (Ok a).
Proof.
  intros Hh. rewrite executes_try. split.
  - intros [(b & H & [= ->])|(e & t1 & t2 & _ & _ & H)]; [done|]. by destruct (Hh e t2 a).
  - intros H. left. eauto.
Qed.

(** The calls a tree may make, whatever the answers. *)
Definition only_calls {A} (P : C -> Prop) (m : io A) : Prop :=
  forall t r, executes m t r -> Forall (fun ev : event => P (event_call ev)) t.

Lemma only_calls_done {A} P (r : result X A) : only_calls P (Done r).
Proof. intros t r' [-> _]. constructor. Qed.

Lemma only_calls_call (P : C -> Prop) c : P c -> only_calls P (call c).
Proof. intros Hc t r ->%executes_call. by repeat constructor. Qed.

Lemma only_calls_bind {A B} P (m : io A) (f : A -> io B) :
  only_calls P m -> (forall a, only_calls P (f a)) -> only_calls P (io_bind m f).
Proof.
  intros Hm Hf t r [(e & H & _)|(a & t1 & t2 & -> & H1 & H2)]%executes_bind; [by eapply Hm|].
  apply Forall_app. split; [by eapply Hm | by eapply Hf].
Qed.

Lemma only_calls_try {A} P (m : io A) (h : X -> io A) :
  only_calls P m -> (forall e, only_calls P (h e)) -> only_calls P (io_try m h).
Proof.
  intros Hm Hf t r [(a & H & _)|(a & t1 & t2 & -> & H1 & H2)]%executes_try; [by eapply Hm|].
  apply Forall_app. split; [by eapply Hm | by eapply Hf].
Qed.

(** The errors of a tree: its own, or those of its calls. *)
Definition raises {A} (own : X -> Prop) (m : io A) : Prop :=
  forall t e, executes m t (Err e) -> own e \/ exists c, Event c (Err e) ∈ t.

Lemma raises_done {A} own (r : result X A) :
  match r with Err e => own e | Ok _ => True end -> raises own (Done r).
Proof. intros Hr t e [-> <-]. by left. Qed.

Lemma raises_call own (c : C) : raises own (call c).
Proof. intros t e ->%executes_call. right. exists c. left. Qed.

Lemma raises_bind {A B} own (m : io A) (f : A -> io B) :
  raises own m -> (forall a, raises own (f a)) -> raises own (io_bind m f).
Proof.
  intros Hm Hf t e [(e' & H & [= <-])|(a & t1 & t2 & -> & H1 & H2)]%executes_bind; [by apply Hm|].
  apply Hf in H2 as [?|(c & Hc)]; [by left|]. right. exists c. apply elem_of_app. by right.
Qed.

(** A handler may also throw what it caught. *)
Lemma raises_try {A} own (m : io A) (h : X -> io A) :
  raises own m -> (forall e, raises (fun e' => own e' \/ e' = e) (h e)) -> raises own (io_try m h).
Proof.
  intros Hm Hh t e [(a & _ & [=])|(e' & t1 & t2 & -> & H1 & H2)]%executes_try.
  apply Hh in H2 as [[?|<-]|(c & Hc)]; [by left| |].
  - apply Hm in H1 as [?|(c & Hc)]; [by left|]. right. exists c. apply elem_of_app. by left.
  - right. exists c. apply elem_of_app. by right.
Qed.

Lemma raises_weaken {A} (own own' : X -> Prop) (m : io A) :
  (forall e, own e -> own' e) -> raises own m -> raises own' m.
Proof. intros Ho Hm t e H. destruct (Hm t e H); auto. Qed.
End executes_lemmas.

#[export] Hint Resolve only_calls_done only_calls_call only_calls_bind only_calls_try
  raises_call raises_bind raises_try : lending.

(** Splits a tree into its steps, deciding its conditions. *)
Ltac only_calls_step :=
  match goal with
  | |- only_calls _ (io_bind _ _) => apply only_calls_bind
  | |- only_calls _ (io_try _ _) => apply only_calls_try
  | |- only_calls _ (call _) => apply only_calls_call
  | |- only_calls _ (Done _) => apply only_calls_done
  | |- only_calls _ (match ?x with _ => _ end) => destruct x
  | |- forall _, only_calls _ _ => intros
  end.
Ltac only_calls_tac := repeat only_calls_step; try exact I.

Ltac raises_step :=
  match goal with
  | |- raises _ (io_bind _ _) => apply raises_bind
  | |- raises _ (io_try _ _) => apply raises_try
  | |- raises _ (call _) => apply raises_call
  | |- raises _ (Done _) => apply raises_done
  | |- raises _ (match ?x with _ => _ end) => destruct x
  | |- forall _, raises _ _ => intros
  end.

(** ** Programs that follow a protocol

    [G] is what a proof remembers of the run so far: each call must satisfy
    [pre], and an answer moves the memory along [R]. *)

Section protocol.
Context {C : Type} {ans : C -> Type} {X G : Type}.
Context (pre : G -> C -> Prop) (R : forall c, G -> result X (ans c) -> G -> Prop).
Notation io := (io ans X).

Fixpoint obeys {A} (post : G -> result X A -> Prop) (g : G) (m : io A) : Prop :=
  match m with
  | Done r => post g r
  | Ask c k => pre g c /\ forall a g', R c g a g' -> obeys post g' (k a)
  end.

Lemma obeys_mono {A} (post post' : G -> result X A -> Prop) g m :
  (forall g r, post g r -> post' g r) -> obeys post g m -> obeys post' g m.
Proof.
  intros Hp. revert g. induction m as [r|c k IH]; intros g; cbn; [apply Hp|].
  intros [Hc Hk]. split; [done|]. intros a g' Ha. apply IH. by apply Hk.
Qed.

Lemma obeys_bind {A B} (post : G -> result X B -> Prop) g (m : io A) (f : A -> io B) :
  obeys (fun g r => match r with Ok a => obeys post g (f a) | Err e => post g (Err e) end) g m ->
  obeys post g (io_bind m f).
Proof.
  revert g. induction m as [[a|e]|c k IH]; intros g; cbn; [done..|].
  intros [Hc Hk]. split; [done|]. intros a g' Ha. apply IH. by apply Hk.
Qed.

Lemma obeys_try {A} (post : G -> result X A -> Prop) g (m : io A) (h : X -> io A) :
  obeys (fun g r => match r with Ok a => post g (Ok a) | Err e => obeys post g (h e) end) g m ->
  obeys post g (io_try m h).
Proof.
  revert g. induction m as [[a|e]|c k IH]; intros g; cbn; [done..|].
  intros [Hc Hk]. split; [done|]. intros a g' Ha. apply IH. by apply Hk.
Qed.

Lemma obeys_attempt {A} (post : G -> result X (result X A) -> Prop) g (m : io A) :
  obeys (fun g r => post g (Ok r)) g m -> obeys post g (attempt m).
Proof.
  intros H. apply obeys_try, obeys_bind. eapply obeys_mono; [|exact H]. by intros g' [a|e].
Qed.

(** One step of a program that obeys. *)
Lemma obeys_ask {A} (post : G -> result X A -> Prop) g c k a g' :
  obeys post g (Ask c k) -> R c g a g' -> pre g c /\ obeys post g' (k a).
Proof. intros [Hc Hk] Ha. split; [done | by apply Hk]. Qed.
End protocol.
