(* ===== verification/JsValue.v ===== *)
(** * JavaScript values as the validators see them

    Every entry point of the modelled components takes [value: unknown] and
    looks at it only through reflection: [typeof], [Array.isArray],
    [Object.getPrototypeOf], [Object.getOwnPropertyDescriptors] and
    [Reflect.ownKeys].  [jsval] has exactly what those observations can see.
    A revoked proxy ([VRevoked]) is the object on which every reflection
    throws; a [None] result of a reflection is that [TypeError]. *)

From stdpp Require Import base list strings.
From Stdlib Require Import ZArith Lia.
From S2P Require Import Prelude Text.

Open Scope Z_scope.

(** ** Values *)

(** A number: a safe integer, another finite double by the text [String] gives
    for it, or [NaN] or an infinity. *)
Inductive jsnum : Type :=
| JInt (z : Z)
| JDouble (text : string)
| JNonFinite.

(** Property keys: strings and symbols. *)
Inductive jskey : Type :=
| KStr (s : string)
| KSym (n : nat).

(** Prototypes the code compares against. *)
Inductive jsproto : Type :=
| PNull
| PObject
| PArray
| PDate
| POther.

Inductive jsval : Type :=
| VUndef
| VNull
| VBool (b : bool)
| VNum (n : jsnum)
| VBig (z : Z)
| VStr (s : string)
| VSym (n : nat)
| VFun
| VDate (p : jsproto) (time : option Z)
| VArr (p : jsproto) (len : Z) (props : list (jskey * jsdesc))
| VObj (p : jsproto) (props : list (jskey * jsdesc))
| VRevoked
with jsdesc : Type :=
| DData (v : jsval) (enumerable : bool)
| DAccessor (enumerable : bool).

Definition jsprops : Type := list (jskey * jsdesc).

(** ** Reflection *)

(** [value && typeof value === 'object'] *)
Definition is_object (v : jsval) : bool :=
  match v with
  | VDate _ _ | VArr _ _ _ | VObj _ _ | VRevoked => true
  | _ => false
  end.

(** [Array.isArray(value)] *)
Definition is_array (v : jsval) : option bool :=
  match v with
  | VArr _ _ _ => Some true
  | VRevoked => None
  | _ => Some false
  end.

(** [Object.getPrototypeOf(value)] on an object *)
Definition get_prototype_of (v : jsval) : option jsproto :=
  match v with
  | VDate p _ | VArr p _ _ | VObj p _ => Some p
  | VRevoked => None
  | _ => Some POther
  end.

(** [Object.getOwnPropertyDescriptors(value)]: the own properties with their
    descriptors; an array also owns the non-enumerable [length]. *)
Definition own_property_descriptors (v : jsval) : option jsprops :=
  match v with
  | VObj _ ps => Some ps
  | VArr _ len ps => Some (ps ++ [(KStr "length", DData (VNum (JInt len)) false)])
  | VRevoked => None
  | _ => Some []
  end.

Definition key_eqb (a b : jskey) : bool :=
  match a, b with
  | KStr s, KStr t => String.eqb s t
  | KSym m, KSym n => Nat.eqb m n
  | _, _ => false
  end.

(** [descriptors[key]] *)
Fixpoint descriptor (ds : jsprops) (k : string) : option jsdesc :=
  match ds with
  | [] => None
  | (k', d) :: ds => if key_eqb (KStr k) k' then Some d else descriptor ds k
  end.

Definition is_enumerable (d : jsdesc) : bool :=
  match d with
  | DData _ e | DAccessor e => e
  end.

(** The value read from [descriptors[key]] when it is an enumerable data
    property: [descriptor && 'value' in descriptor && descriptor.enumerable]. *)
Definition data_property (ds : jsprops) (k : string) : option jsval :=
  match descriptor ds k with
  | Some (DData v true) => Some v
  | _ => None
  end.

Definition key_in (keys : list string) (k : jskey) : bool :=
  match k with
  | KStr s => existsb (String.eqb s) keys
  | KSym _ => false
  end.

(** [Number.isSafeInteger(n)] *)
Definition MAX_SAFE_INTEGER : Z := 2 ^ 53 - 1.
Definition safe_integer (v : jsval) : option Z :=
  match v with
  | VNum (JInt z) => if Z.abs z <=? MAX_SAFE_INTEGER then Some z else None
  | _ => None
  end.

(** [value === n] for an integer literal [n] *)
Definition is_int (v : jsval) (n : Z) : bool :=
  match v with
  | VNum (JInt z) => z =? n
  | _ => false
  end.

Definition is_null (v : jsval) : bool :=
  match v with
  | VNull => true
  | _ => false
  end.

(** ** Records read from untrusted objects *)

(** The null-prototype copy the validators build: own string keys with their
    values; reading an absent key gives [undefined]. *)
Definition jsrec : Type := list (string * jsval).

Fixpoint field (r : jsrec) (k : string) : jsval :=
  match r with
  | [] => VUndef
  | (k', v) :: r => if String.eqb k k' then v else field r k
  end.

Notation "r '.:' k" := (field r k) (at level 1, k at level 1, format "r .: k").

(** Reads the listed keys as enumerable data properties, in order. *)
Fixpoint read_keys (ds : jsprops) (keys : list string) : option jsrec :=
  match keys with
  | [] => Some []
  | k :: keys =>
      match data_property ds k with
      | None => None
      | Some v =>
          match read_keys ds keys with
          | None => None
          | Some r => Some ((k, v) :: r)
          end
      end
  end.

(** The guards every record validator starts with: a non-array object whose
    prototype is [Object.prototype] or [null]; returns its descriptors. *)
Definition plain_descriptors (v : jsval) : option jsprops :=
  if negb (is_object v) then None
  else match is_array v with
       | None | Some true => None
       | Some false =>
           match get_prototype_of v with
           | Some PObject | Some PNull => own_property_descriptors v
           | _ => None
           end
       end.

(** Exactly the expected keys, each an enumerable data property. *)
Definition exact_data_record (keys : list string) (v : jsval) : option jsrec :=
  match plain_descriptors v with
  | None => None
  | Some ds =>
      if negb (length ds =? length keys)%nat
         || existsb (fun kd => negb (key_in keys kd.1)) ds
      then None
      else read_keys ds keys
  end.

(** The string keys of an object, in its own order; [None] on a symbol. *)
Fixpoint string_keys (ds : jsprops) : option (list string) :=
  match ds with
  | [] => Some []
  | (KStr s, _) :: ds => (cons s) <$> string_keys ds
  | (KSym _, _) :: _ => None
  end.

(** Every required key, no key outside required and optional ones, each own
    key an enumerable data property. *)
Definition data_record (required optional : list string) (v : jsval) : option jsrec :=
  match plain_descriptors v with
  | None => None
  | Some ds =>
      if existsb (fun k => negb (bool_decide (is_Some (descriptor ds k)))) required
         || existsb (fun kd => negb (key_in (required ++ optional) kd.1)) ds
      then None
      else match string_keys ds with
           | None => None
           | Some ks => read_keys ds ks
           end
  end.

(** A genuine array of between [min] and [max] elements with no other own
    property; each element an enumerable data property. *)
Definition index_keys (n : Z) : list string :=
  (fun i => toString (Z.of_nat i)) <$> seq 0 (Z.to_nat n).

Definition data_array (min max : Z) (v : jsval) : option (list jsval) :=
  match is_array v, get_prototype_of v, own_property_descriptors v with
  | Some true, Some PArray, Some ds =>
      match descriptor ds "length" with
      | Some (DData n _) =>
          match safe_integer n with
          | None => None
          | Some len =>
              if (len <? min) || (max <? len) then None
              else
                let allowed := "length" :: index_keys len in
                if negb (length ds =? length allowed)%nat
                   || existsb (fun kd => negb (key_in allowed kd.1)) ds
                then None
                else (fun r => r.*2) <$> read_keys ds (index_keys len)
          end
      | _ => None
      end
  | _, _, _ => None
  end.

(** [value instanceof Date && Object.getPrototypeOf(value) === Date.prototype],
    then [value.getTime()] if it is finite; an object that only inherits from
    [Date.prototype] has no time value and [getTime] throws. *)
Definition date_time (v : jsval) : option Z :=
  match v with
  | VDate PDate (Some t) => Some t
  | _ => None
  end.

(** ** Values the code itself builds *)

(** An object literal. *)
Definition js_object (fields : list (string * jsval)) : jsval :=
  VObj PObject ((fun kv => (KStr kv.1, DData kv.2 true)) <$> fields).

(** An array literal. *)
Definition js_array (vs : list jsval) : jsval :=
  VArr PArray (Z.of_nat (length vs))
    (imap (fun i v => (KStr (toString (Z.of_nat i)), DData v true)) vs).

Definition js_date (ms : Z) : jsval := VDate PDate (Some ms).

Definition js_nullable (s : option string) : jsval :=
  match s with
  | None => VNull
  | Some s => VStr s
  end.

(** ** String enumerations *)

(** A TypeScript union of string literals: its members and their literals. *)
Class JsEnum (A : Type) : Type := {
  enum_values : list A;
  enum_str : A -> string;
  enum_values_all : forall a, a ∈ enum_values;
  enum_str_inj : forall a b, enum_str a = enum_str b -> a = b;
}.

(** [typeof value === 'string' && allowed.includes(value)] *)
Definition enum_member {A} `{JsEnum A} (allowed : list A) (v : jsval) : option A :=
  match v with
  | VStr s => List.find (fun a => String.eqb (enum_str a) s) allowed
  | _ => None
  end.

(** ** Lemmas: enumerations *)

Section enums.
Context {A : Type} `{JsEnum A}.

Lemma enum_member_spec (allowed : list A) v a :
  enum_member allowed v = Some a <-> a ∈ allowed /\ v = VStr (enum_str a).
Proof.
  split.
  - destruct v; simpl; try discriminate. intros Hf.
    apply List.find_some in Hf as [Hin He]. apply String.eqb_eq in He. subst.
    by rewrite list_elem_of_In.
  - intros [Hin ->]. simpl. destruct (List.find _ allowed) as [b|] eqn:E.
    + apply List.find_some in E as [_ He]. apply String.eqb_eq in He.
      apply enum_str_inj in He. by subst.
    + apply list_elem_of_In in Hin. apply (List.find_none _ _ E) in Hin.
      by rewrite String.eqb_refl in Hin.
Qed.

Lemma enum_member_str (a : A) : enum_member enum_values (VStr (enum_str a)) = Some a.
Proof. apply enum_member_spec. split; [apply enum_values_all | done]. Qed.

#[export] Instance enum_eq_dec : EqDecision A.
Proof.
  intros a b. destruct (decide (enum_str a = enum_str b)) as [E|E].
  - left. by apply enum_str_inj.
  - right. congruence.
Defined.
End enums.

(** Discharges the two laws of a literal enumeration. *)
Ltac solve_enum_all := intros []; simpl; repeat (apply list_elem_of_here || apply list_elem_of_further).
Ltac solve_enum_inj := intros [] []; simpl; (reflexivity || discriminate).

(** ** Lemmas: records *)

Lemma key_eqb_str a b : key_eqb (KStr a) (KStr b) = String.eqb a b.
Proof. done. Qed.

Lemma key_in_spec keys s : key_in keys (KStr s) = true <-> s ∈ keys.
Proof.
  simpl. rewrite existsb_exists. split.
  - intros (k & Hin & He). apply String.eqb_eq in He. subst. by apply list_elem_of_In.
  - intros Hin. exists s. rewrite String.eqb_refl. by rewrite <- list_elem_of_In.
Qed.

Lemma descriptor_app_r pre ds k :
  (forall kd, kd ∈ pre -> key_eqb (KStr k) kd.1 = false) ->
  descriptor (pre ++ ds) k = descriptor ds k.
Proof.
  induction pre as [|[k' d] pre IH]; intros H; simpl; [done|].
  assert (key_eqb (KStr k) k' = false) as E by (apply (H (k', d)); left).
  simpl in E. rewrite E. apply IH. intros kd Hin. apply H. by right.
Qed.

Lemma read_keys_keys ds keys r : read_keys ds keys = Some r -> r.*1 = keys.
Proof.
  revert r. induction keys as [|k keys IH]; intros r; simpl; [by intros [= <-]|].
  destruct (data_property ds k); [|done].
  destruct (read_keys ds keys); [|done]. intros [= <-]. simpl. by rewrite IH.
Qed.

Lemma read_keys_literal pre kvs :
  NoDup kvs.*1 ->
  (forall kd k, kd ∈ pre -> k ∈ kvs.*1 -> key_eqb (KStr k) kd.1 = false) ->
  read_keys (pre ++ ((fun kv => (KStr kv.1, DData kv.2 true)) <$> kvs)) kvs.*1 = Some kvs.
Proof.
  revert pre. induction kvs as [|[k v] kvs IH]; intros pre Hnd Hpre; [done|].
  rewrite !fmap_cons in *. apply NoDup_cons in Hnd as [Hk Hnd]. cbn [read_keys fst].
  unfold data_property. rewrite descriptor_app_r.
  2:{ intros kd Hin. apply Hpre; [done | left]. }
  cbn [descriptor fst snd]. rewrite key_eqb_str, String.eqb_refl.
  rewrite cons_middle, app_assoc, IH; [done | done |].
  intros kd k' [Hin|Hin]%elem_of_app Hk'.
  - apply Hpre; [done | by right].
  - apply list_elem_of_singleton in Hin. subst. simpl.
    apply String.eqb_neq. intros ->. done.
Qed.

Lemma descriptor_app_l ds post k d :
  descriptor ds k = Some d -> descriptor (ds ++ post) k = Some d.
Proof.
  induction ds as [|[k' d'] ds IH]; simpl; [done|]. destruct k'; [|exact IH].
  by destruct (String.eqb k s).
Qed.

Lemma read_keys_app ds post keys r :
  read_keys ds keys = Some r -> read_keys (ds ++ post) keys = Some r.
Proof.
  revert r. induction keys as [|k keys IH]; intros r; simpl; [done|].
  unfold data_property. destruct (descriptor ds k) as [d|] eqn:E; [|done].
  rewrite (descriptor_app_l _ post _ _ E). destruct d as [v []|]; try done.
  destruct (read_keys ds keys) as [r'|]; [|done]. by rewrite (IH r' eq_refl).
Qed.

(** Reading an object literal with the validator that expects its keys. *)
Lemma exact_data_record_literal kvs :
  NoDup kvs.*1 -> exact_data_record kvs.*1 (js_object kvs) = Some kvs.
Proof.
  intros Hnd. unfold exact_data_record, js_object, plain_descriptors. cbn [is_object negb is_array get_prototype_of own_property_descriptors].
  rewrite !length_fmap, Nat.eqb_refl. cbn [negb orb].
  destruct (existsb _ _) eqn:E.
  - apply existsb_exists in E as ([k d] & Hin & Hk).
    apply list_elem_of_In, list_elem_of_fmap in Hin as ([k' v] & [= -> ->] & Hin).
    simpl fst in Hk. apply negb_true_iff in Hk.
    assert (key_in kvs.*1 (KStr k') = true) as E; [|congruence].
    apply key_in_spec. by apply (list_elem_of_fmap_2 fst) in Hin.
  - apply (read_keys_literal []); [done|]. intros kd k Hin. inversion Hin.
Qed.

(** The same for a validator with optional keys. *)
Lemma data_record_literal required optional kvs :
  NoDup kvs.*1 -> Forall (fun k => k ∈ kvs.*1) required ->
  Forall (fun k => k ∈ required ++ optional) kvs.*1 ->
  data_record required optional (js_object kvs) = Some kvs.
Proof.
  intros Hnd Hreq Hkeys. unfold data_record, js_object, plain_descriptors.
  cbn [is_object negb is_array get_prototype_of own_property_descriptors].
  set (ds := (fun kv : string * jsval => (KStr kv.1, DData kv.2 true)) <$> kvs).
  assert (forall k, k ∈ kvs.*1 -> is_Some (descriptor ds k)) as Hd.
  { intros k (kv & -> & Hkv)%list_elem_of_fmap. unfold ds. clear -Hkv.
    induction kvs as [|kv' kvs IH]; [by apply not_elem_of_nil in Hkv|].
    rewrite fmap_cons. simpl. destruct (String.eqb_spec kv.1 kv'.1); [eauto|].
    apply elem_of_cons in Hkv as [->|Hkv]; [done | by apply IH]. }
  assert (string_keys ds = Some kvs.*1) as ->.
  { unfold ds. clear. induction kvs as [|kv kvs IH]; [done|].
    rewrite fmap_cons. simpl. by rewrite IH. }
  assert (read_keys ds kvs.*1 = Some kvs) as ->.
  { apply (read_keys_literal []); [done|]. intros kd k Hin. inversion Hin. }
  destruct (_ || _) eqn:E; [|done]. exfalso. apply orb_true_iff in E as [E|E].
  - apply existsb_exists in E as (k & Hin & Hk). apply list_elem_of_In in Hin.
    rewrite Forall_forall in Hreq. apply negb_true_iff, bool_decide_eq_false in Hk. eauto.
  - apply existsb_exists in E as ([k d] & Hin & Hk). apply list_elem_of_In in Hin.
    unfold ds in Hin. apply list_elem_of_fmap in Hin as (kv & [= -> ->] & Hkv).
    apply negb_true_iff in Hk. cbn [fst] in Hk. rewrite Forall_forall in Hkeys.
    rewrite (proj2 (key_in_spec _ _)) in Hk; [done|]. apply Hkeys.
    by apply list_elem_of_fmap_2.
Qed.

Lemma exact_data_record_keys keys v r : exact_data_record keys v = Some r -> r.*1 = keys.
Proof.
  unfold exact_data_record. destruct (plain_descriptors v); [|done].
  destruct (_ || _); [done|]. apply read_keys_keys.
Qed.

(** Arrays, dates, primitives and revoked proxies are never records. *)
Lemma exact_data_record_plain keys v r :
  keys <> [] -> exact_data_record keys v = Some r ->
  exists p ds, v = VObj p ds /\ (p = PObject \/ p = PNull) /\ length ds = length keys.
Proof.
  intros Hk. destruct keys as [|k keys]; [done|].
  unfold exact_data_record, plain_descriptors.
  destruct v as [| | | | | | | |p t|p n ps|p ps|]; simpl; try done; destruct p; simpl; try done;
    destruct (_ || _) eqn:E; try done; intros _;
    apply orb_false_iff in E as [E _]; apply negb_false_iff, Nat.eqb_eq in E; eauto 10.
Qed.

(** ** Lemmas: arrays *)

Lemma index_keys_S n : index_keys (Z.of_nat (S n)) = index_keys (Z.of_nat n) ++ [toString (Z.of_nat n)].
Proof. unfold index_keys. rewrite !Nat2Z.id, seq_S, fmap_app. done. Qed.

Lemma index_keys_length n : 0 <= n -> Z.of_nat (length (index_keys n)) = n.
Proof. intros H. unfold index_keys. rewrite length_fmap, length_seq. lia. Qed.

Lemma index_keys_digits n k : k ∈ index_keys n -> UNSIGNED_INTEGER_PATTERN k = true.
Proof. intros (i & -> & _)%list_elem_of_fmap. apply toString_unsigned. lia. Qed.

Lemma index_keys_not_length n : "length" ∉ index_keys n.
Proof. intros H%index_keys_digits. discriminate. Qed.

Lemma index_keys_NoDup n : NoDup (index_keys n).
Proof.
  unfold index_keys. apply NoDup_fmap_2_strong; [|apply NoDup_seq].
  intros x y _ _ H. apply toString_inj in H; lia.
Qed.

Lemma js_array_props vs :
  imap (fun i v => (KStr (toString (Z.of_nat i)), DData v true)) vs
  = (fun kv => (KStr kv.1, DData kv.2 true)) <$> zip (index_keys (Z.of_nat (length vs))) vs.
Proof.
  induction vs as [|v vs IH] using rev_ind; [done|].
  rewrite imap_app, length_app, Nat.add_1_r, index_keys_S, zip_with_app, fmap_app, IH.
  - simpl. by rewrite Nat.add_0_r.
  - unfold index_keys. rewrite length_fmap, length_seq. lia.
Qed.

(** The own [length] of an array literal. *)
Lemma js_array_length vs :
  descriptor (imap (fun i v => (KStr (toString (Z.of_nat i)), DData v true)) vs
              ++ [(KStr "length", DData (VNum (JInt (Z.of_nat (length vs)))) false)]) "length"
  = Some (DData (VNum (JInt (Z.of_nat (length vs)))) false).
Proof.
  rewrite js_array_props. set (kvs := zip (index_keys _) vs).
  assert (kvs.*1 = index_keys (Z.of_nat (length vs))) as Hk.
  { apply fst_zip. unfold index_keys. rewrite length_fmap, length_seq. lia. }
  rewrite descriptor_app_r; [done|].
  intros kd ([k v] & -> & Hin)%list_elem_of_fmap. simpl fst. rewrite key_eqb_str.
  apply String.eqb_neq. intros Hl. apply (index_keys_not_length (Z.of_nat (length vs))).
  rewrite <- Hk, Hl. by apply (list_elem_of_fmap_2 fst) in Hin.
Qed.

(** A JavaScript array literal read back by the array validator. *)
Lemma data_array_literal min max vs :
  min <= Z.of_nat (length vs) <= max -> max <= MAX_SAFE_INTEGER ->
  data_array min max (js_array vs) = Some vs.
Proof.
  intros Hb Hm. unfold data_array, js_array. cbn [is_array get_prototype_of own_property_descriptors].
  rewrite js_array_length, js_array_props. set (n := Z.of_nat (length vs)).
  set (kvs := zip (index_keys n) vs).
  assert (kvs.*1 = index_keys n) as Hk.
  { apply fst_zip. unfold index_keys. rewrite length_fmap, length_seq. lia. }
  unfold safe_integer.
  rewrite (proj2 (Z.leb_le _ _)) by lia.
  rewrite (proj2 (Z.ltb_ge _ _)), (proj2 (Z.ltb_ge _ _)) by lia. cbn [orb].
  rewrite length_app, length_fmap, <- (length_fmap fst kvs), Hk.
  rewrite (Nat.add_comm (length _)). cbn [length Nat.add]. rewrite Nat.eqb_refl. cbn [negb orb].
  destruct (existsb _ _) eqn:E.
  - exfalso. apply existsb_exists in E as ([k d] & Hin & Hc). apply negb_true_iff in Hc. simpl fst in Hc.
    assert (key_in ("length" :: index_keys n) k = true) as E; [|congruence].
    apply list_elem_of_In, elem_of_app in Hin as [Hin|Hin].
    + apply list_elem_of_fmap in Hin as ([k' v] & [= -> ->] & Hin). apply key_in_spec. right.
      rewrite <- Hk. by apply (list_elem_of_fmap_2 fst) in Hin.
    + apply list_elem_of_singleton in Hin as [= -> ->]. apply key_in_spec. left.
  - assert (read_keys ((fun kv => (KStr kv.1, DData kv.2 true)) <$> kvs) kvs.*1 = Some kvs) as Hr.
    { apply (read_keys_literal []); [rewrite Hk; apply index_keys_NoDup|].
      intros kd k Hin. inversion Hin. }
    rewrite <- Hk, (read_keys_app _ _ _ _ Hr). simpl. f_equal. apply snd_zip.
    unfold index_keys. rewrite length_fmap, length_seq. lia.
Qed.

Lemma read_keys_length ds keys r : read_keys ds keys = Some r -> length r = length keys.
Proof. intros H%read_keys_keys. by rewrite <- H, length_fmap. Qed.

(** An accepted array has a length between the bounds. *)
Lemma data_array_bounds min max v vs :
  0 <= min -> data_array min max v = Some vs -> min <= Z.of_nat (length vs) <= max.
Proof.
  intros Hmin. unfold data_array. destruct (is_array v) as [[]|]; try done.
  destruct (get_prototype_of v) as [[]|]; try done.
  destruct (own_property_descriptors v) as [ds|]; [|done].
  destruct (descriptor ds "length") as [[n e|]|]; try done.
  destruct (safe_integer n) as [len|]; [|done].
  destruct (_ || _) eqn:Hb; [done|]. apply orb_false_iff in Hb as [H1 H2].
  apply Z.ltb_ge in H1, H2.
  destruct (_ || _); [done|]. intros Hv.
  destruct (read_keys _ _) as [r|] eqn:Hr; [|done]. injection Hv as <-.
  apply read_keys_length in Hr. rewrite length_fmap, Hr.
  rewrite index_keys_length; lia.
Qed.

(** A literal array is accepted only as itself. *)
Lemma data_array_js_array min max vs vs' :
  max <= MAX_SAFE_INTEGER -> data_array min max (js_array vs) = Some vs' ->
  vs' = vs /\ min <= Z.of_nat (length vs) <= max.
Proof.
  intros Hm H. assert (min <= Z.of_nat (length vs) <= max) as Hb.
  { revert H. unfold data_array, js_array. cbn [is_array get_prototype_of own_property_descriptors].
    rewrite js_array_length. destruct (safe_integer _) as [n|] eqn:E; [|done].
    unfold safe_integer in E. destruct (_ <=? _); [|done]. injection E as <-.
    destruct (_ || _) eqn:E; [done|]. intros _. bsimpl. lia. }
  rewrite data_array_literal in H by done. by injection H.
Qed.

(** Reads an object literal: replaces the validator by its fields and the
    field accesses by their values. *)
Ltac read_fields :=
  cbn [or_throw rbind rlift rcatch field String.eqb Ascii.eqb Bool.eqb andb].
Ltac read_record :=
  match goal with
  | |- context [exact_data_record ?ks (js_object ?kvs)] =>
      replace (exact_data_record ks (js_object kvs)) with (Some kvs)
        by (symmetry; apply (exact_data_record_literal kvs);
            apply (bool_decide_eq_true_1 _); vm_compute; reflexivity)
  end; read_fields.

Ltac read_data_record :=
  match goal with
  | |- context [data_record ?req ?opt (js_object ?kvs)] =>
      replace (data_record req opt (js_object kvs)) with (Some kvs)
        by (symmetry; apply (data_record_literal req opt kvs);
            apply (bool_decide_eq_true_1 _); vm_compute; reflexivity)
  end; read_fields.
