(* ===== verification/JsDate.v ===== *)
(** * Dates: ISO timestamps, their parsing and their order

    [Date.prototype.toISOString] and the part of the [Date] constructor that
    parses its output, with the calendar arithmetic of ECMAScript (21.4.1):
    the proleptic Gregorian calendar, milliseconds since 1970, years outside
    0..9999 printed with a sign and six digits. *)

From stdpp Require Import base list strings.
From Stdlib Require Import ZArith Lia Ascii.
From S2P Require Import Prelude Text JsValue.

Open Scope Z_scope.

(** ** Calendar *)

Definition MS_PER_DAY : Z := 86400000.

(** [DayFromYear(y)]: the day number of the first day of year [y]. *)
Definition day_from_year (y : Z) : Z :=
  365 * (y - 1970) + (y - 1969) / 4 - (y - 1901) / 100 + (y - 1601) / 400.

Definition leap_year (y : Z) : bool :=
  (y mod 4 =? 0) && (negb (y mod 100 =? 0) || (y mod 400 =? 0)).

(** [YearFromTime]: the year whose days contain [day]; the mean year length
    gives an estimate that is off by at most one. *)
Definition year_of_day (day : Z) : Z :=
  let y := 1970 + 400 * day / 146097 in
  if day <? day_from_year y then y - 1
  else if day_from_year (y + 1) <=? day then y + 1
  else y.

(** The first day of month [m] (0 = January) within its year. *)
Definition month_start (leap : bool) (m : Z) : Z :=
  let cumulative := [0; 31; 59; 90; 120; 151; 181; 212; 243; 273; 304; 334; 365] in
  nth (Z.to_nat m) cumulative 365 + (if leap && (2 <=? m) then 1 else 0).

(** [MonthFromTime]: the month that contains day [doy] of the year. *)
Fixpoint month_scan (leap : bool) (doy m : Z) (later : list Z) : Z :=
  match later with
  | [] => m
  | next :: later =>
      if doy <? month_start leap next then m else month_scan leap doy next later
  end.
Definition month_of (leap : bool) (doy : Z) : Z :=
  month_scan leap doy 0 [1; 2; 3; 4; 5; 6; 7; 8; 9; 10; 11].

Record civil : Type := Civil {
  c_year : Z; c_month : Z; c_date : Z;
  c_hour : Z; c_minute : Z; c_second : Z; c_ms : Z;
}.

Definition civil_of_time (t : Z) : civil :=
  let day := t / MS_PER_DAY in
  let ms := t mod MS_PER_DAY in
  let y := year_of_day day in
  let doy := day - day_from_year y in
  let m := month_of (leap_year y) doy in
  {| c_year := y; c_month := m; c_date := doy - month_start (leap_year y) m + 1;
     c_hour := ms / 3600000; c_minute := ms / 60000 mod 60;
     c_second := ms / 1000 mod 60; c_ms := ms mod 1000 |}.

(** [MakeDate(MakeDay(...), MakeTime(...))] *)
Definition time_of_civil (c : civil) : Z :=
  (day_from_year (c_year c) + month_start (leap_year (c_year c)) (c_month c) + c_date c - 1)
    * MS_PER_DAY
  + (((c_hour c * 60 + c_minute c) * 60 + c_second c) * 1000 + c_ms c).

(** [TimeClip]: the time values a [Date] can hold. *)
Definition MAX_TIME : Z := 8640000000000000.
Definition valid_time (t : Z) : bool := Z.abs t <=? MAX_TIME.

(** ** Printing *)

Definition year_str (y : Z) : string :=
  if (0 <=? y) && (y <=? 9999) then pad 4 y
  else String (if y <? 0 then "-"%char else "+"%char) (pad 6 (Z.abs y)).

Definition civil_str (c : civil) : string :=
  year_str (c_year c)
  +:+ "-" +:+ pad 2 (c_month c + 1) +:+ "-" +:+ pad 2 (c_date c)
  +:+ "T" +:+ pad 2 (c_hour c) +:+ ":" +:+ pad 2 (c_minute c)
  +:+ ":" +:+ pad 2 (c_second c) +:+ "." +:+ pad 3 (c_ms c) +:+ "Z".

(** [new Date(t).toISOString()] *)
Definition toISOString (t : Z) : string := civil_str (civil_of_time t).

(** ** Parsing *)

Fixpoint take_digits (w : nat) (acc : Z) (s : string) : option (Z * string) :=
  match w, s with
  | O, _ => Some (acc, s)
  | S w, String c s =>
      if is_digit c then take_digits w (10 * acc + digit_val c) s else None
  | S _, EmptyString => None
  end.

Definition eat (c : ascii) (s : string) : option string :=
  match s with
  | String d s => if Ascii.eqb c d then Some s else None
  | EmptyString => None
  end.

Definition parse_year (s : string) : option (Z * string) :=
  match s with
  | String c r =>
      if Ascii.eqb c "+" then take_digits 6 0 r
      else if Ascii.eqb c "-" then
        '(y, r) ← take_digits 6 0 r; if y =? 0 then None else Some (- y, r)
      else take_digits 4 0 s
  | EmptyString => None
  end.

Definition parse_civil (s : string) : option civil :=
  '(y, s) ← parse_year s; s ← eat "-" s;
  '(mo, s) ← take_digits 2 0 s; s ← eat "-" s;
  '(d, s) ← take_digits 2 0 s; s ← eat "T" s;
  '(h, s) ← take_digits 2 0 s; s ← eat ":" s;
  '(mi, s) ← take_digits 2 0 s; s ← eat ":" s;
  '(sec, s) ← take_digits 2 0 s; s ← eat "." s;
  '(ms, s) ← take_digits 3 0 s; s ← eat "Z" s;
  if String.eqb s "" then Some (Civil y (mo - 1) d h mi sec ms) else None.

Definition valid_civil (c : civil) : bool :=
  (0 <=? c_month c) && (c_month c <=? 11) && (1 <=? c_date c) && (c_date c <=? 31)
  && (c_hour c <=? 23) && (c_minute c <=? 59) && (c_second c <=? 59).

(** [new Date(s).getTime()] on a string in the date-time format of the
    language; [None] is [NaN].  Every use in the code compares the result's
    [toISOString()] with [s], so only strings in this format matter
    ([canonical_time_any_parser]). *)
Definition date_parse (s : string) : option Z :=
  c ← parse_civil s;
  if valid_civil c && valid_time (time_of_civil c) then Some (time_of_civil c) else None.

(** [new Date(s)] followed by the check [toISOString() === s]. *)
Definition canonical_time (s : string) : option Z :=
  match date_parse s with
  | None => None
  | Some t => if String.eqb (toISOString t) s then Some t else None
  end.

(** The same check behind [TIMESTAMP_PATTERN], which leaves four-digit years. *)
Definition canonical_timestamp (s : string) : option Z :=
  if TIMESTAMP_PATTERN s then canonical_time s else None.

(** ** Lemmas: the calendar *)

Ltac divlia := Z.to_euclidean_division_equations; lia.

Definition year_length (y : Z) : Z := if leap_year y then 366 else 365.

Lemma day_from_year_succ y : day_from_year (y + 1) = day_from_year y + year_length y.
Proof.
  unfold day_from_year, year_length, leap_year.
  assert ((y + 1 - 1969) / 4 = (y - 1969) / 4 + (if y mod 4 =? 0 then 1 else 0)) as ->.
  { destruct (Z.eqb_spec (y mod 4) 0); divlia. }
  assert ((y + 1 - 1901) / 100 = (y - 1901) / 100 + (if y mod 100 =? 0 then 1 else 0)) as ->.
  { destruct (Z.eqb_spec (y mod 100) 0); divlia. }
  assert ((y + 1 - 1601) / 400 = (y - 1601) / 400 + (if y mod 400 =? 0 then 1 else 0)) as ->.
  { destruct (Z.eqb_spec (y mod 400) 0); divlia. }
  destruct (Z.eqb_spec (y mod 4) 0), (Z.eqb_spec (y mod 100) 0), (Z.eqb_spec (y mod 400) 0);
    simpl; try lia; exfalso; divlia.
Qed.

Lemma year_length_bounds y : 365 <= year_length y <= 366.
Proof. unfold year_length. destruct (leap_year y); lia. Qed.

Lemma year_of_day_spec d :
  day_from_year (year_of_day d) <= d < day_from_year (year_of_day d + 1).
Proof.
  unfold year_of_day. set (y := 1970 + 400 * d / 146097).
  assert (day_from_year (y - 1) <= d < day_from_year (y + 2)) as H.
  { subst y. unfold day_from_year. divlia. }
  destruct (Z.ltb_spec d (day_from_year y)).
  { replace (y - 1 + 1) with y by lia. lia. }
  destruct (Z.leb_spec (day_from_year (y + 1)) d); [|lia].
  replace (y + 1 + 1) with (y + 2) by lia. lia.
Qed.

Lemma day_from_year_mono y1 y2 : y1 < y2 -> day_from_year (y1 + 1) <= day_from_year y2.
Proof. unfold day_from_year. intros. divlia. Qed.

(** A day belongs to one year only. *)
Lemma year_of_day_unique d y :
  day_from_year y <= d < day_from_year (y + 1) -> year_of_day d = y.
Proof.
  intros H. pose proof (year_of_day_spec d) as H'.
  destruct (Z.lt_trichotomy (year_of_day d) y) as [L|[E|L]]; [|done|].
  - pose proof (day_from_year_mono _ _ L). lia.
  - pose proof (day_from_year_mono _ _ L). lia.
Qed.

Ltac month_cases m :=
  let H := fresh in
  assert (m = 0 \/ m = 1 \/ m = 2 \/ m = 3 \/ m = 4 \/ m = 5 \/ m = 6 \/ m = 7 \/ m = 8
          \/ m = 9 \/ m = 10 \/ m = 11) as H by lia;
  destruct H as [->|[->|[->|[->|[->|[->|[->|[->|[->|[->|[->| ->]]]]]]]]]]].

Lemma month_of_spec (leap : bool) (doy : Z) :
  0 <= doy < (if leap then 366 else 365)%Z ->
  0 <= month_of leap doy <= 11 /\
  month_start leap (month_of leap doy) <= doy < month_start leap (month_of leap doy + 1).
Proof.
  intros H. unfold month_of, month_scan.
  destruct leap; repeat (case_match; [bsimpl; cbv [month_start] in *; simpl in *; lia|]);
    bsimpl; cbv [month_start] in *; simpl in *; lia.
Qed.

Lemma month_start_mono leap m1 m2 :
  0 <= m1 < m2 -> m2 <= 11 -> month_start leap (m1 + 1) <= month_start leap m2.
Proof.
  intros H1 H2. assert (0 <= m1 <= 10) as H by lia.
  month_cases m1; month_cases m2; try lia; destruct leap; cbv; congruence.
Qed.

Lemma month_length_bounds leap m :
  0 <= m <= 11 -> month_start leap (m + 1) - month_start leap m <= 31.
Proof. intros H. month_cases m; destruct leap; cbv; congruence. Qed.

(** Everything the fields of a time satisfy. *)
Record civil_wf (c : civil) : Prop := {
  wf_month : 0 <= c_month c <= 11;
  wf_date : 1 <= c_date c <= 31;
  wf_doy : 0 <= month_start (leap_year (c_year c)) (c_month c) + c_date c - 1
           < year_length (c_year c);
  wf_in_month : month_start (leap_year (c_year c)) (c_month c) + c_date c - 1
                < month_start (leap_year (c_year c)) (c_month c + 1);
  wf_hour : 0 <= c_hour c <= 23;
  wf_minute : 0 <= c_minute c <= 59;
  wf_second : 0 <= c_second c <= 59;
  wf_ms : 0 <= c_ms c <= 999;
}.

Lemma civil_of_time_wf t : civil_wf (civil_of_time t).
Proof.
  pose proof (year_of_day_spec (t / MS_PER_DAY)) as Hy.
  rewrite day_from_year_succ in Hy.
  set (y := year_of_day (t / MS_PER_DAY)) in *.
  set (doy := t / MS_PER_DAY - day_from_year y).
  assert (0 <= doy < year_length y) as Hd by lia.
  pose proof (month_of_spec (leap_year y) doy Hd) as [Hm Hs].
  pose proof (month_length_bounds (leap_year y) _ Hm) as Hl.
  constructor; unfold civil_of_time; cbn [c_year c_month c_date c_hour c_minute c_second c_ms];
    fold y; fold doy; unfold MS_PER_DAY; try lia; divlia.
Qed.

Lemma time_of_civil_of_time t : time_of_civil (civil_of_time t) = t.
Proof.
  unfold time_of_civil, civil_of_time. cbn [c_year c_month c_date c_hour c_minute c_second c_ms].
  unfold MS_PER_DAY. divlia.
Qed.

(** Times within [TimeClip] have years of at most six digits. *)
Lemma year_bounds t : valid_time t = true -> -271821 <= c_year (civil_of_time t) <= 275760.
Proof.
  unfold valid_time, MAX_TIME. intros H%Z.leb_le. cbn.
  pose proof (year_of_day_spec (t / MS_PER_DAY)) as Hy.
  set (y := year_of_day (t / MS_PER_DAY)) in *.
  unfold MS_PER_DAY, day_from_year in Hy. divlia.
Qed.

(** ** Lemmas: parsing what was printed *)

Lemma take_digits_append w acc a r :
  String.length a = w -> all_chars is_digit a = true ->
  take_digits w acc (a +:+ r) = Some (dec_acc acc a, r).
Proof.
  revert acc w. induction a as [|c a IH]; intros acc w <-; simpl; [done|].
  intros [Hc Ha]%andb_true_iff. rewrite Hc. by apply IH.
Qed.

Lemma take_digits_pad w n r :
  0 <= n < 10 ^ Z.of_nat w -> take_digits w 0 (pad w n +:+ r) = Some (n, r).
Proof.
  intros H. rewrite take_digits_append by (apply pad_length || apply pad_digits).
  change (dec_acc 0 (pad w n)) with (BigInt (pad w n)). by rewrite pad_value.
Qed.

Lemma eat_char c r : eat c (String c "" +:+ r) = Some r.
Proof. simpl. by rewrite Ascii.eqb_refl. Qed.

Lemma pad_first w n r :
  exists c s, pad (S w) n +:+ r = String c s /\ is_digit c = true.
Proof.
  pose proof (pad_length (S w) n) as Hl. pose proof (pad_digits (S w) n) as Hd.
  destruct (pad (S w) n) as [|c s]; [done|]. simpl in Hd. apply andb_true_iff in Hd as [Hc _].
  exists c, (s +:+ r). done.
Qed.

Lemma digit_not_sign c : is_digit c = true -> Ascii.eqb c "+" = false /\ Ascii.eqb c "-" = false.
Proof. intros H. split; apply Ascii.eqb_neq; intros ->; discriminate. Qed.

Lemma parse_year_str y r :
  -999999 <= y <= 999999 -> parse_year (year_str y +:+ r) = Some (y, r).
Proof.
  intros H. unfold year_str. destruct (Z.leb_spec 0 y); cbn [andb];
    [destruct (Z.leb_spec y 9999); [|destruct (Z.ltb_spec y 0); [lia|]]
    |destruct (Z.ltb_spec y 0); [|lia]].
  - destruct (pad_first 3 y r) as (c & s & E & Hc).
    pose proof (take_digits_pad 4 y r ltac:(simpl; lia)) as Ht. rewrite E in *.
    unfold parse_year. destruct (digit_not_sign c Hc) as [-> ->]. exact Ht.
  - unfold parse_year. rewrite append_cons.
    change (Ascii.eqb "+" "+") with true. cbv beta iota.
    rewrite take_digits_pad by (simpl; lia). by rewrite Z.abs_eq by lia.
  - unfold parse_year. rewrite append_cons.
    change (Ascii.eqb "-" "+") with false. change (Ascii.eqb "-" "-") with true. cbv beta iota.
    rewrite take_digits_pad by (simpl; lia). cbn [mbind option_bind].
    destruct (Z.eqb_spec (Z.abs y) 0); [lia|]. by replace (- Z.abs y) with y by lia.
Qed.

Lemma parse_civil_str c :
  civil_wf c -> -999999 <= c_year c <= 999999 -> parse_civil (civil_str c) = Some c.
Proof.
  intros [Hmo Hd _ _ Hh Hmi Hs Hms] Hy. unfold parse_civil, civil_str.
  rewrite parse_year_str by lia. cbn [mbind option_bind].
  repeat (rewrite (eat_char _ _); cbn [mbind option_bind]; try rewrite take_digits_pad by (simpl; lia);
          cbn [mbind option_bind]).
  change "Z" with ("Z" +:+ ""). rewrite (eat_char "Z" ""). cbn.
  replace (c_month c + 1 - 1) with (c_month c) by lia. by destruct c.
Qed.

Lemma civil_wf_valid c : civil_wf c -> valid_civil c = true.
Proof.
  intros [Hmo Hd _ _ Hh Hmi Hs Hms]. unfold valid_civil.
  rewrite !andb_true_iff, !Z.leb_le. lia.
Qed.

(** [new Date(new Date(t).toISOString()).getTime() === t] *)
Lemma date_parse_toISOString t :
  valid_time t = true -> date_parse (toISOString t) = Some t.
Proof.
  intros Ht. pose proof (civil_of_time_wf t) as Hwf. pose proof (year_bounds t Ht).
  unfold date_parse, toISOString. rewrite parse_civil_str by (auto; lia). cbn [mbind option_bind].
  by rewrite (civil_wf_valid _ Hwf), time_of_civil_of_time, Ht.
Qed.

Lemma date_parse_valid s t : date_parse s = Some t -> valid_time t = true.
Proof.
  unfold date_parse. destruct (parse_civil s); cbn [mbind option_bind]; [|done].
  destruct (_ && _) eqn:E; [|done]. intros [= <-]. by apply andb_true_iff in E as [_ ?].
Qed.

Lemma canonical_time_spec s t :
  canonical_time s = Some t <-> valid_time t = true /\ s = toISOString t.
Proof.
  unfold canonical_time. split.
  - destruct (date_parse s) as [t'|] eqn:E; [|done].
    destruct (String.eqb_spec (toISOString t') s) as [E'|]; [|done]. intros [= <-].
    split; [by eapply date_parse_valid | done].
  - intros [Ht ->]. rewrite date_parse_toISOString by done. by rewrite String.eqb_refl.
Qed.

Lemma toISOString_inj t1 t2 :
  valid_time t1 = true -> valid_time t2 = true -> toISOString t1 = toISOString t2 -> t1 = t2.
Proof.
  intros H1 H2 E. apply date_parse_toISOString in H1, H2. rewrite E in H1. congruence.
Qed.

(** Whatever a [Date] parser does outside the date-time format, the code's
    check has one outcome: any parser that reads back [toISOString] and only
    returns time values gives the same accepted strings and times. *)
Lemma canonical_time_any_parser (parser : string -> option Z) s :
  (forall t, valid_time t = true -> parser (toISOString t) = Some t) ->
  (forall s t, parser s = Some t -> valid_time t = true) ->
  match parser s with
  | None => None
  | Some t => if String.eqb (toISOString t) s then Some t else None
  end = canonical_time s.
Proof.
  intros Hp Hv. destruct (canonical_time s) as [t|] eqn:E.
  - apply canonical_time_spec in E as [Ht ->]. rewrite Hp by done. by rewrite String.eqb_refl.
  - destruct (parser s) as [t|] eqn:P; [|done].
    destruct (String.eqb_spec (toISOString t) s) as [E'|]; [|done].
    assert (canonical_time s = Some t); [|congruence].
    apply canonical_time_spec. split; [by eapply Hv | done].
Qed.

(** ** Lemmas: timestamps compared as strings *)

Lemma lex_eq_l c d : lex Eq c = d <-> c = d.
Proof. done. Qed.

Lemma lex_scale q1 r1 q2 r2 k :
  0 <= r1 < k -> 0 <= r2 < k ->
  lex (q1 ?= q2) (r1 ?= r2) = (q1 * k + r1 ?= q2 * k + r2).
Proof.
  intros H1 H2. destruct (Z.compare_spec q1 q2) as [->|L|L]; simpl; symmetry.
  - destruct (Z.compare_spec r1 r2);
      [apply Z.compare_eq_iff | apply Z.compare_lt_iff | apply Z.compare_gt_iff]; lia.
  - apply Z.compare_lt_iff. nia.
  - apply Z.compare_gt_iff. nia.
Qed.

Lemma lex_same c1 d d' : (c1 = Eq -> d = d') -> lex c1 d = lex c1 d'.
Proof. destruct c1; simpl; auto. Qed.

Lemma lex_assoc c1 c2 c3 : lex c1 (lex c2 c3) = lex (lex c1 c2) c3.
Proof. by destruct c1. Qed.

Definition doy_of (c : civil) : Z :=
  month_start (leap_year (c_year c)) (c_month c) + c_date c - 1.

Lemma compare_month_date c1 c2 :
  civil_wf c1 -> civil_wf c2 -> c_year c1 = c_year c2 ->
  lex (c_month c1 ?= c_month c2) (c_date c1 ?= c_date c2) = (doy_of c1 ?= doy_of c2).
Proof.
  intros [? ? _ ? _ _ _ _] [? ? _ ? _ _ _ _] E. unfold doy_of. rewrite E in *.
  set (leap := leap_year _) in *.
  destruct (Z.compare_spec (c_month c1) (c_month c2)) as [Em|L|L]; simpl; symmetry.
  - rewrite Em in *. destruct (Z.compare_spec (c_date c1) (c_date c2));
      [apply Z.compare_eq_iff | apply Z.compare_lt_iff | apply Z.compare_gt_iff]; lia.
  - pose proof (month_start_mono leap _ _ (conj (proj1 wf_month0) L)). apply Z.compare_lt_iff. lia.
  - pose proof (month_start_mono leap (c_month c2) (c_month c1)). apply Z.compare_gt_iff. lia.
Qed.

Lemma compare_year_doy c1 c2 :
  civil_wf c1 -> civil_wf c2 ->
  lex (c_year c1 ?= c_year c2) (doy_of c1 ?= doy_of c2)
  = (day_from_year (c_year c1) + doy_of c1 ?= day_from_year (c_year c2) + doy_of c2).
Proof.
  intros [_ _ H1 _ _ _ _ _] [_ _ H2 _ _ _ _ _]. fold (doy_of c1) in H1. fold (doy_of c2) in H2.
  destruct (Z.compare_spec (c_year c1) (c_year c2)) as [E|L|L]; simpl; symmetry.
  - rewrite E. destruct (Z.compare_spec (doy_of c1) (doy_of c2));
      [apply Z.compare_eq_iff | apply Z.compare_lt_iff | apply Z.compare_gt_iff]; lia.
  - apply day_from_year_mono in L. rewrite day_from_year_succ in L. apply Z.compare_lt_iff. lia.
  - apply day_from_year_mono in L. rewrite day_from_year_succ in L. apply Z.compare_gt_iff. lia.
Qed.

Definition civil_compare (c1 c2 : civil) : comparison :=
  lex (c_year c1 ?= c_year c2) (lex (c_month c1 ?= c_month c2) (lex (c_date c1 ?= c_date c2)
    (lex (c_hour c1 ?= c_hour c2) (lex (c_minute c1 ?= c_minute c2)
      (lex (c_second c1 ?= c_second c2) (c_ms c1 ?= c_ms c2)))))).

(** Comparing the fields in order compares the times. *)
Lemma civil_compare_time c1 c2 :
  civil_wf c1 -> civil_wf c2 ->
  civil_compare c1 c2 = (time_of_civil c1 ?= time_of_civil c2).
Proof.
  intros W1 W2. unfold civil_compare.
  pose proof W1 as [_ _ _ _ ? ? ? ?]. pose proof W2 as [_ _ _ _ ? ? ? ?].
  rewrite (lex_scale (c_second c1) _ (c_second c2) _ 1000) by lia.
  rewrite (lex_scale (c_minute c1) _ (c_minute c2) _ 60000) by lia.
  rewrite (lex_scale (c_hour c1) _ (c_hour c2) _ 3600000) by lia.
  rewrite (lex_assoc (c_month c1 ?= c_month c2)), lex_assoc.
  rewrite (lex_same (c_year c1 ?= c_year c2) _ (doy_of c1 ?= doy_of c2)).
  2:{ intros E%Z.compare_eq_iff. by apply compare_month_date. }
  rewrite compare_year_doy by done.
  rewrite (lex_scale _ _ _ _ MS_PER_DAY) by (unfold MS_PER_DAY; lia).
  unfold time_of_civil, doy_of, MS_PER_DAY. f_equal; lia.
Qed.

(** The times whose printed year has four digits: years 0 to 9999. *)
Definition four_digit_time (t : Z) : Prop := -62167219200000 <= t <= 253402300799999.

Lemma four_digit_year t : four_digit_time t <-> 0 <= c_year (civil_of_time t) <= 9999.
Proof.
  unfold four_digit_time. cbn. pose proof (year_of_day_spec (t / MS_PER_DAY)) as Hy.
  set (y := year_of_day _) in *. unfold MS_PER_DAY, day_from_year in Hy. split; intros; divlia.
Qed.

Lemma four_digit_valid t : four_digit_time t -> valid_time t = true.
Proof. unfold four_digit_time, valid_time, MAX_TIME. intros. apply Z.leb_le. lia. Qed.

Lemma year_str_four y : 0 <= y <= 9999 -> year_str y = pad 4 y.
Proof.
  intros. unfold year_str.
  destruct (Z.leb_spec 0 y), (Z.leb_spec y 9999); try lia. done.
Qed.

Lemma str_compare_cons c a b : String.compare (String c a) (String c b) = String.compare a b.
Proof. simpl. by rewrite ascii_compare_code, Z.compare_refl. Qed.

Lemma civil_str_compare c1 c2 :
  civil_wf c1 -> civil_wf c2 -> 0 <= c_year c1 <= 9999 -> 0 <= c_year c2 <= 9999 ->
  String.compare (civil_str c1) (civil_str c2) = civil_compare c1 c2.
Proof.
  intros [? ? _ _ ? ? ? ?] [? ? _ _ ? ? ? ?] H1 H2.
  unfold civil_str, civil_compare. rewrite !year_str_four by done.
  repeat (rewrite str_compare_append by (by rewrite ?pad_length);
          rewrite ?pad_compare by (simpl; lia); rewrite ?str_compare_refl; cbn [lex]).
  assert (forall a b, (a + 1 ?= b + 1) = (a ?= b)) as ->.
  { intros a b. destruct (Z.compare_spec a b);
      [apply Z.compare_eq_iff | apply Z.compare_lt_iff | apply Z.compare_gt_iff]; lia. }
  assert (forall c, lex c Eq = c) as Hr by (by intros []). by rewrite Hr.
Qed.

(** For four-digit years, the code's [<] on ISO timestamps is the order of
    the instants. *)
Lemma toISOString_compare t1 t2 :
  four_digit_time t1 -> four_digit_time t2 ->
  String.compare (toISOString t1) (toISOString t2) = (t1 ?= t2).
Proof.
  intros H1%four_digit_year H2%four_digit_year. unfold toISOString.
  rewrite civil_str_compare by auto using civil_of_time_wf.
  rewrite civil_compare_time by auto using civil_of_time_wf.
  by rewrite !time_of_civil_of_time.
Qed.

Lemma toISOString_lt t1 t2 :
  four_digit_time t1 -> four_digit_time t2 ->
  str_lt (toISOString t1) (toISOString t2) = (t1 <? t2).
Proof.
  intros. unfold str_lt, String.ltb, Z.ltb. rewrite toISOString_compare by done. by destruct (_ ?= _).
Qed.

Lemma matches_pad w n : matches (replicate w is_digit) (pad w n) = true.
Proof. apply matches_all. split; [apply pad_length | apply pad_digits]. Qed.

Lemma timestamp_pattern_civil c : 0 <= c_year c <= 9999 -> TIMESTAMP_PATTERN (civil_str c) = true.
Proof.
  intros H. unfold TIMESTAMP_PATTERN, civil_str. rewrite year_str_four by done.
  repeat (rewrite matches_app by (rewrite ?pad_length, ?length_replicate; done);
          rewrite ?matches_pad; cbn [andb]).
  done.
Qed.

Lemma timestamp_pattern_sign c s :
  TIMESTAMP_PATTERN (String c s) = true -> is_digit c = true.
Proof.
  unfold TIMESTAMP_PATTERN. cbn [replicate app matches]. intros H. by apply andb_true_iff in H as [? _].
Qed.

Lemma canonical_timestamp_spec s t :
  canonical_timestamp s = Some t <-> four_digit_time t /\ s = toISOString t.
Proof.
  unfold canonical_timestamp. split.
  - destruct (TIMESTAMP_PATTERN s) eqn:P; [|done].
    intros [Hv ->]%canonical_time_spec. split; [|done].
    apply four_digit_year. unfold toISOString, civil_str, year_str in P.
    destruct (Z.leb_spec 0 (c_year (civil_of_time t))), (Z.leb_spec (c_year (civil_of_time t)) 9999);
      cbn [andb] in P; try lia; rewrite append_cons in P; apply timestamp_pattern_sign in P;
      destruct (Z.ltb_spec (c_year (civil_of_time t)) 0); try lia; discriminate.
  - intros [Hf ->]. pose proof Hf as Hy%four_digit_year.
    unfold toISOString at 1. rewrite timestamp_pattern_civil by done.
    apply canonical_time_spec. split; [by apply four_digit_valid | done].
Qed.
