(* ===== verification/JsCollections.v ===== *)
(** * Map, Set and Array.prototype.sort

    A [Map] iterates in insertion order and [set] on a present key keeps its
    place; [new Set(xs).size] counts distinct elements; [sort] is stable.  A
    comparator must be consistent for [sort] to be specified at all, which is
    what the class [Comparator] states. *)

From stdpp Require Import base list strings sets sorting.
From Stdlib Require Import ZArith Lia Sorted.
From S2P Require Import Prelude Text.

Open Scope Z_scope.

(** ** Map *)

Section maps.
Context {K V : Type} `{EqDecision K}.
Implicit Types m : list (K * V).

(** [m.get(k)] *)
Fixpoint mget (k : K) m : option V :=
  match m with
  | [] => None
  | (k', v) :: m => if decide (k = k') then Some v else mget k m
  end.

(** [m.set(k, v)] *)
Fixpoint mset (k : K) (v : V) m : list (K * V) :=
  match m with
  | [] => [(k, v)]
  | (k', v') :: m =>
      if decide (k = k') then (k', v) :: m else (k', v') :: mset k v m
  end.

(** [new Map(entries)] *)
Definition mofl (entries : list (K * V)) : list (K * V) :=
  foldl (fun m kv => mset kv.1 kv.2 m) [] entries.

Lemma mget_mset k k' v m :
  mget k (mset k' v m) = if decide (k = k') then Some v else mget k m.
Proof.
  induction m as [|[k'' v''] m IH]; simpl; [done|].
  repeat case_decide; simpl; repeat case_decide; subst; try done; congruence.
Qed.

Lemma mget_mset_eq k v m : mget k (mset k v m) = Some v.
Proof. rewrite mget_mset. by case_decide. Qed.

Lemma mget_mset_ne k k' v m : k <> k' -> mget k (mset k' v m) = mget k m.
Proof. intros. rewrite mget_mset. by case_decide. Qed.

Lemma mset_keys k v m x : x ∈ (mset k v m).*1 <-> x = k \/ x ∈ m.*1.
Proof.
  induction m as [|[k' v'] m IH]; simpl; [set_solver|].
  case_decide; subst; simpl; set_solver.
Qed.

Lemma mset_NoDup k v m : NoDup m.*1 -> NoDup (mset k v m).*1.
Proof.
  induction m as [|[k' v'] m IH]; simpl; intros H; [constructor; [set_solver | constructor]|].
  apply NoDup_cons in H as [H1 H2].
  case_decide; simpl; apply NoDup_cons; split; auto.
  rewrite mset_keys. intros [->|?]; auto.
Qed.

Lemma mset_Forall (Q : K * V -> Prop) k v m :
  (forall k, Q (k, v)) -> Forall Q m -> Forall Q (mset k v m).
Proof.
  intros Hv. induction 1 as [|[k' v'] m Hx Hm IH]; simpl; [by repeat constructor|].
  case_decide; constructor; auto.
Qed.

Lemma mget_Some_elem k v m : mget k m = Some v -> (k, v) ∈ m.
Proof.
  induction m as [|[k' v'] m IH]; simpl; [done|].
  case_decide; [intros [= ->]; subst; left | intros H'; right; auto].
Qed.

Lemma elem_mget k v m : NoDup m.*1 -> (k, v) ∈ m -> mget k m = Some v.
Proof.
  induction m as [|[k' v'] m IH]; simpl; intros Hnd Hin; [by apply not_elem_of_nil in Hin|].
  apply NoDup_cons in Hnd as [Hk Hnd]. apply elem_of_cons in Hin as [[= <- <-]|Hin].
  - by rewrite decide_True.
  - rewrite decide_False; auto. intros ->. apply Hk. by apply (list_elem_of_fmap_2 fst) in Hin.
Qed.

Lemma mget_None k m : mget k m = None <-> k ∉ m.*1.
Proof.
  induction m as [|[k' v'] m IH]; simpl; [split; set_solver|].
  case_decide; subst; [split; [done | set_solver] | rewrite IH; set_solver].
Qed.

(** A new key goes last. *)
Lemma mset_absent k v m : k ∉ m.*1 -> mset k v m = m ++ [(k, v)].
Proof.
  induction m as [|[k' v'] m IH]; simpl; intros Hk; [done|].
  rewrite decide_False by set_solver. rewrite IH by set_solver. done.
Qed.

Lemma foldl_mset_NoDup entries m :
  NoDup m.*1 -> NoDup (foldl (fun m kv => mset kv.1 kv.2 m) m entries).*1.
Proof.
  revert m. induction entries as [|[k v] es IH]; intros m H; simpl; [done|].
  apply IH. by apply mset_NoDup.
Qed.

Lemma mofl_app entries e : mofl (entries ++ [e]) = mset e.1 e.2 (mofl entries).
Proof. unfold mofl. by rewrite foldl_app. Qed.

(** With distinct keys, looking up in [new Map(entries)] finds the entry. *)
Lemma mget_mofl entries k v :
  NoDup entries.*1 -> mget k (mofl entries) = Some v <-> (k, v) ∈ entries.
Proof.
  induction entries as [|[k' v'] es IH] using rev_ind; intros Hnd.
  - split; [done | intros H; by apply not_elem_of_nil in H].
  - rewrite fmap_app in Hnd. apply NoDup_app in Hnd as (H1 & H2 & _).
    rewrite mofl_app, mget_mset, elem_of_app, list_elem_of_singleton. simpl.
    case_decide as E.
    + subst. split; [intros [= ->]; by right |]. intros [Hin|[= <-]]; [|done].
      exfalso. apply (H2 k'); [by apply (list_elem_of_fmap_2 fst) in Hin | simpl; left].
    + rewrite (IH H1). split; [by left|]. intros [?|[= ? ?]]; [done | congruence].
Qed.
End maps.

(** ** Set *)

(** [new Set(xs).size] *)
Definition set_size {A} `{EqDecision A} (xs : list A) : nat := length (remove_dups xs).

(** [[...new Set(xs)]]: first occurrences in order. *)
Fixpoint dedup {A} `{EqDecision A} (xs : list A) : list A :=
  match xs with
  | [] => []
  | x :: xs => x :: filter (fun y => y <> x) (dedup xs)
  end.

Section set_lemmas.
Context {A : Type} `{EqDecision A}.

Lemma set_size_NoDup (xs : list A) : set_size xs = length xs <-> NoDup xs.
Proof.
  unfold set_size. induction xs as [|x xs IH]; simpl; [split; [constructor | done]|].
  assert (length (remove_dups xs) <= length xs)%nat as Hle.
  { clear. induction xs as [|x xs IH]; simpl; [done|]. case_decide; simpl; lia. }
  rewrite NoDup_cons. case_decide; simpl; [split; [lia | tauto]|].
  rewrite <- IH. split; [intros [= ->]; done | intros [_ ->]; done].
Qed.

Lemma set_size_ge2 (xs : list A) x y : x ∈ xs -> y ∈ xs -> x <> y -> (2 <= set_size xs)%nat.
Proof.
  intros Hx Hy Hne. unfold set_size.
  assert (NoDup [x; y]) as Hnd by (constructor; [set_solver | constructor; [set_solver | constructor]]).
  apply (submseteq_length [x; y]). apply NoDup_submseteq; [done|].
  intros z Hz. apply elem_of_remove_dups. set_solver.
Qed.

Lemma set_size_le1 (xs : list A) :
  (set_size xs < 2)%nat -> forall x y, x ∈ xs -> y ∈ xs -> x = y.
Proof.
  intros H x y Hx Hy. destruct (decide (x = y)) as [|Hne]; [done|].
  pose proof (set_size_ge2 xs x y Hx Hy Hne). lia.
Qed.
End set_lemmas.

(** ** Array.prototype.sort *)

Section sort.
Context {A : Type}.

(** Inserts before the first element that does not precede it, so equal
    elements keep their order. *)
Fixpoint sort_insert (cmp : A -> A -> Z) (x : A) (l : list A) : list A :=
  match l with
  | [] => [x]
  | y :: l' => if cmp x y <=? 0 then x :: l else y :: sort_insert cmp x l'
  end.

(** [xs.sort(cmp)] *)
Definition js_sort (cmp : A -> A -> Z) (xs : list A) : list A :=
  foldr (sort_insert cmp) [] xs.
End sort.

(** A consistent comparator on the elements that satisfy [P]. *)
Class Comparator {A} (P : A -> Prop) (cmp : A -> A -> Z) : Prop := {
  cmp_sym : forall a b, P a -> P b -> cmp a b < 0 <-> 0 < cmp b a;
  cmp_trans : forall a b c, P a -> P b -> P c -> cmp a b <= 0 -> cmp b c <= 0 -> cmp a c <= 0;
}.

Section sort_lemmas.
Context {A : Type} (P : A -> Prop) (cmp : A -> A -> Z).

Lemma sort_insert_perm x l : sort_insert cmp x l ≡ₚ x :: l.
Proof.
  induction l as [|y l IH]; simpl; [done|].
  destruct (_ <=? 0); [done|]. rewrite IH. apply Permutation_swap.
Qed.

Lemma js_sort_perm xs : js_sort cmp xs ≡ₚ xs.
Proof.
  induction xs as [|x xs IH]; simpl; [done|]. by rewrite sort_insert_perm, IH.
Qed.

Lemma js_sort_length xs : length (js_sort cmp xs) = length xs.
Proof. by rewrite js_sort_perm. Qed.

Lemma elem_of_js_sort x xs : x ∈ js_sort cmp xs <-> x ∈ xs.
Proof. by rewrite js_sort_perm. Qed.

Context `{Comparator A P cmp}.

Lemma sort_insert_sorted x l :
  P x -> Forall P l -> StronglySorted (fun a b => cmp a b <= 0) l ->
  StronglySorted (fun a b => cmp a b <= 0) (sort_insert cmp x l).
Proof.
  intros Px. induction l as [|y l IH]; simpl; intros HP Hs; [repeat constructor|].
  apply Forall_cons in HP as [Py HP]. apply StronglySorted_inv in Hs as [Hs Hy].
  destruct (Z.leb_spec (cmp x y) 0) as [L|L].
  - constructor; [by constructor|]. constructor; [done|].
    rewrite Forall_forall in *. intros z Hz. eapply cmp_trans with (b := y); eauto.
  - constructor; [by apply IH|]. rewrite Forall_forall in *. intros z Hz.
    rewrite sort_insert_perm in Hz. apply elem_of_cons in Hz as [->|Hz]; [|by apply Hy].
    apply Z.lt_le_incl. by apply cmp_sym.
Qed.

(** The result is sorted when the comparator is consistent on the elements. *)
Lemma js_sort_sorted xs :
  Forall P xs -> StronglySorted (fun a b => cmp a b <= 0) (js_sort cmp xs).
Proof.
  induction xs as [|x xs IH]; simpl; intros HP; [constructor|].
  apply Forall_cons in HP as [Px HP]. apply sort_insert_sorted; auto.
  by rewrite js_sort_perm.
Qed.

(** Its first element precedes or equals every other one. *)
Lemma js_sort_head xs x rest :
  Forall P xs -> js_sort cmp xs = x :: rest -> forall y, y ∈ xs -> y = x \/ cmp x y <= 0.
Proof.
  intros HP E y Hy. pose proof (js_sort_sorted xs HP) as Hs. rewrite E in Hs.
  apply StronglySorted_inv in Hs as [_ Hs]. rewrite Forall_forall in Hs.
  rewrite <- (js_sort_perm xs), E in Hy. apply elem_of_cons in Hy as [->|Hy]; auto.
Qed.
End sort_lemmas.

(** Sorting by a string key, ties broken by another consistent comparator. *)
Lemma lexical_comparator {A} (P : A -> Prop) (key : A -> string) (tie : A -> A -> Z) :
  Comparator P tie ->
  Comparator P (fun a b => if String.eqb (key a) (key b) then tie a b
                           else if str_lt (key a) (key b) then -1 else 1).
Proof.
  intros [Hsym Htrans]. split.
  - intros a b Pa Pb. rewrite (String.eqb_sym (key b)).
    destruct (String.eqb_spec (key a) (key b)); [by apply Hsym|].
    destruct (str_lt (key a) (key b)) eqn:E1, (str_lt (key b) (key a)) eqn:E2; try lia.
    + by rewrite (str_lt_asym _ _ E1) in E2.
    + by apply str_lt_total in E2.
  - intros a b c Pa Pb Pc.
    destruct (String.eqb_spec (key a) (key b)) as [->|Hab].
    { destruct (String.eqb_spec (key b) (key c)); [by apply Htrans | done]. }
    destruct (str_lt (key a) (key b)) eqn:E1; [|lia]. intros _.
    destruct (String.eqb_spec (key b) (key c)) as [E|Hbc].
    { rewrite E in Hab, E1. by rewrite (proj2 (String.eqb_neq _ _) Hab), E1. }
    destruct (str_lt (key b) (key c)) eqn:E2; [|lia]. intros _.
    pose proof (str_lt_trans _ _ _ E1 E2) as E3. rewrite E3.
    destruct (String.eqb_spec (key a) (key c)) as [E|]; [|lia].
    rewrite E, str_lt_irrefl in E3. discriminate.
Qed.

(** With distinct keys a sorted list is strictly sorted. *)
Lemma sorted_distinct {A B} (key : A -> B) (R S : A -> A -> Prop) l :
  NoDup (key <$> l) -> (forall a b, key a <> key b -> R a b -> S a b) ->
  StronglySorted R l -> StronglySorted S l.
Proof.
  intros Hnd HS Hl. induction Hl as [|a l Hl IH Ha]; [constructor|].
  rewrite fmap_cons in Hnd. apply NoDup_cons in Hnd as [Hx Hnd]. constructor; [by apply IH|].
  rewrite Forall_forall in *. intros b Hb. apply HS; [|by apply Ha].
  intros E. apply Hx. rewrite E. by apply list_elem_of_fmap_2.
Qed.

Lemma NoDup_fmap_inj {A B} (f : A -> B) l a b :
  NoDup (f <$> l) -> a ∈ l -> b ∈ l -> f a = f b -> a = b.
Proof.
  induction l as [|x l IH]; intros Hnd Ha Hb E; [by apply not_elem_of_nil in Ha|].
  rewrite fmap_cons in Hnd. apply NoDup_cons in Hnd as [Hx Hnd].
  apply elem_of_cons in Ha as [->|Ha], Hb as [->|Hb]; auto; exfalso; apply Hx.
  - rewrite E. by apply list_elem_of_fmap_2.
  - rewrite <- E. by apply list_elem_of_fmap_2.
Qed.

(** Sorting permuted lists gives one list when no two of their elements tie. *)
Lemma js_sort_unique {A} (P : A -> Prop) (cmp : A -> A -> Z) `{!Comparator P cmp} l l' :
  Forall P l -> l ≡ₚ l' ->
  (forall a b, a ∈ l -> b ∈ l -> cmp a b <= 0 -> cmp b a <= 0 -> a = b) ->
  js_sort cmp l = js_sort cmp l'.
Proof.
  intros HP Hp Hu. apply (StronglySorted_unique_strong (fun a b => cmp a b <= 0)).
  - intros a b Ha Hb. rewrite js_sort_perm in Ha, Hb. rewrite <- Hp in Hb. by apply Hu.
  - by apply (js_sort_sorted P).
  - refine (js_sort_sorted P cmp _ _). by rewrite <- Hp.
  - by rewrite !js_sort_perm.
Qed.
