(* ===== verification/Digest.v ===== *)
(** * Length-prefixed digests

    The idempotency modules hash a list of strings as a sequence of frames
    [<byte length>:<bytes>] under a domain string.  SHA-256 itself is Node's
    [createHash], a parameter here; what the code adds is the framing, which
    is shown to be injective: two different field lists never feed the hash
    the same bytes. *)

From stdpp Require Import base list strings.
From Stdlib Require Import ZArith Lia Ascii.
From S2P Require Import Prelude Text.

Open Scope Z_scope.

(** ** Encoding *)

Definition byte (z : Z) : ascii := ascii_of_N (Z.to_N z).

(** [Buffer.from(s, 'utf8')] on the code units of the model. *)
Fixpoint utf8 (s : string) : string :=
  match s with
  | EmptyString => EmptyString
  | String c s =>
      if code c <=? 127 then String c (utf8 s)
      else String (byte (192 + code c / 64)) (String (byte (128 + code c mod 64)) (utf8 s))
  end.

(** [updateField]: the bytes one field contributes. *)
Definition frame (field : string) : string :=
  toString (strlen (utf8 field)) +:+ ":" +:+ utf8 field.

(** Everything the hash is updated with. *)
Fixpoint frames (fields : list string) : string :=
  match fields with
  | [] => ""
  | f :: fields => frame f +:+ frames fields
  end.

(** The hash tells the given messages apart.  (No hash tells all messages
    apart, so the statements name the ones they compare.) *)
Definition collision_free (sha256 : string -> string) (messages : list string) : Prop :=
  forall m n, m ∈ messages -> n ∈ messages -> sha256 m = sha256 n -> m = n.

(** ** Injectivity *)

Lemma code_byte z : 0 <= z < 256 -> code (byte z) = z.
Proof. intros H. unfold code, byte. rewrite N_ascii_embedding by lia. lia. Qed.

Lemma utf8_bytes_length s : utf8_bytes s = strlen (utf8 s).
Proof.
  induction s as [|c s IH]; [done|]. simpl. destruct (_ <=? _); rewrite ?strlen_cons, IH; lia.
Qed.

Lemma utf8_byte_cases c :
  (code c <=? 127) = true /\ code c <= 127 \/
  (code c <=? 127) = false /\ code (byte (192 + code c / 64)) = 192 + code c / 64
  /\ code (byte (128 + code c mod 64)) = 128 + code c mod 64 /\ 2 <= code c / 64.
Proof.
  pose proof (code_bounds c). destruct (Z.leb_spec (code c) 127); [by left|]. right.
  split; [done|]. rewrite !code_byte; Z.to_euclidean_division_equations; lia.
Qed.

Lemma utf8_inj a b : utf8 a = utf8 b -> a = b.
Proof.
  revert b. induction a as [|c a IH]; intros [|d b]; simpl; try done;
    try (destruct (_ <=? _); discriminate).
  destruct (utf8_byte_cases c) as [[-> Hc]|(-> & Hc1 & Hc2 & Hc3)],
    (utf8_byte_cases d) as [[-> Hd]|(-> & Hd1 & Hd2 & Hd3)].
  - intros [= -> H]. by rewrite (IH b).
  - intros [= E _]. rewrite E in Hc. lia.
  - intros [= E _]. rewrite <- E in Hd. lia.
  - intros [= E1 E2 H]. rewrite (IH b) by done. f_equal. apply code_inj.
    rewrite E1 in Hc1. rewrite E2 in Hc2. Z.to_euclidean_division_equations; lia.
Qed.

Lemma string_app_inj a b r r' :
  strlen a = strlen b -> a +:+ r = b +:+ r' -> a = b /\ r = r'.
Proof.
  unfold strlen. revert b. induction a as [|c a IH]; intros [|d b]; simpl.
  - done.
  - lia.
  - lia.
  - intros Hl [= -> H]. destruct (IH b) as [-> ->]; [lia | done | done].
Qed.

(** The length prefix ends at the first colon. *)
Lemma digits_colon_inj a b r r' :
  all_chars is_digit a = true -> all_chars is_digit b = true ->
  a +:+ String ":" r = b +:+ String ":" r' -> a = b /\ r = r'.
Proof.
  revert b. induction a as [|c a IH]; intros [|d b] Ha Hb; simpl in *.
  - by intros [= ->].
  - intros [= <- _]. discriminate.
  - intros [= -> _]. discriminate.
  - apply andb_true_iff in Ha as [_ Ha], Hb as [_ Hb]. intros [= -> H].
    by destruct (IH b Ha Hb H) as [-> ->].
Qed.

Lemma toString_digits n : 0 <= n -> all_chars is_digit (toString n) = true.
Proof. intros H. apply unsigned_integer_digits. by apply toString_unsigned. Qed.

Lemma frame_inj f g r r' : frame f +:+ r = frame g +:+ r' -> f = g /\ r = r'.
Proof.
  unfold frame. rewrite !append_assoc. simpl. intros H.
  apply digits_colon_inj in H as [Hl H]; [|apply toString_digits, strlen_nonneg ..].
  apply toString_inj in Hl; [|apply strlen_nonneg ..].
  apply string_app_inj in H as [H ->]; [|done]. by apply utf8_inj in H.
Qed.

(** The framing is injective on field lists. *)
Lemma frames_inj fs gs : frames fs = frames gs -> fs = gs.
Proof.
  assert (forall f r, frame f +:+ r <> "") as Hne.
  { intros f r. unfold frame. destruct (toString _) eqn:E; [|done].
    pose proof (toString_unsigned (strlen (utf8 f)) (strlen_nonneg _)) as H. by rewrite E in H. }
  revert gs. induction fs as [|f fs IH]; intros [|g gs]; simpl; intros H; [done| | |].
  - by destruct (Hne g (frames gs)).
  - by destruct (Hne f (frames fs)).
  - apply frame_inj in H as [-> H]. by rewrite (IH gs).
Qed.

(** Equal digests of messages the hash tells apart: the same fields. *)
Lemma digest_binds (sha256 : string -> string) messages fs gs :
  collision_free sha256 messages -> frames fs ∈ messages -> frames gs ∈ messages ->
  sha256 (frames fs) = sha256 (frames gs) -> fs = gs.
Proof. intros Hc Hf Hg H. by apply frames_inj, Hc. Qed.

Lemma collision_free_id messages : collision_free id messages.
Proof. by intros m n _ _. Qed.

Lemma collision_free_pair sha256 m n : sha256 m <> sha256 n -> collision_free sha256 [m; n].
Proof.
  intros Hne a b. rewrite !elem_of_cons.
  intros [-> | [-> | Ha%elem_of_nil]] [-> | [-> | Hb%elem_of_nil]]; by try intros E.
Qed.
