(* ===== verification/Json.v ===== *)
(** * JSON.stringify

    The text [JSON.stringify] prints for plain data (null, booleans, numbers,
    strings, arrays and objects in insertion order).  The code hashes the text as
    a fingerprint when its numbers are non-negative integers; then the text
    determines the value. *)

From stdpp Require Import base list strings.
From Stdlib Require Import ZArith Lia Ascii.
From S2P Require Import Prelude Text Digest.

Open Scope Z_scope.

(** ** Values and text *)

Inductive json : Type :=
| JNull
| JBool (b : bool)
| JNumber (n : Z)
| JNumeral (text : string)
| JString (s : string)
| JArray (l : list json)
| JObject (l : list (string * json)).

Definition dquote : ascii := ascii_of_nat 34.
Definition backslash : ascii := ascii_of_nat 92.

Definition hex_digit (z : Z) : ascii := byte (if z <? 10 then 48 + z else 87 + z).

(** [QuoteJSONString] on one code unit. *)
Definition escape_char (c : ascii) : string :=
  let two (d : ascii) := String backslash (String d "") in
  if Ascii.eqb c dquote then two dquote
  else if Ascii.eqb c backslash then two backslash
  else if code c =? 8 then two "b"%char
  else if code c =? 9 then two "t"%char
  else if code c =? 10 then two "n"%char
  else if code c =? 12 then two "f"%char
  else if code c =? 13 then two "r"%char
  else if code c <? 32
  then String backslash (String "u" (String "0" (String "0"
         (String (hex_digit (code c / 16)) (String (hex_digit (code c mod 16)) "")))))
  else String c "".

Fixpoint escape (s : string) : string :=
  match s with
  | EmptyString => EmptyString
  | String c s => escape_char c +:+ escape s
  end.

Definition quoted (s : string) : string :=
  String dquote (escape s +:+ String dquote "").

Fixpoint stringify (j : json) : string :=
  match j with
  | JNull => "null"
  | JBool true => "true"
  | JBool false => "false"
  | JNumber n => toString n
  | JNumeral text => text
  | JString s => quoted s
  | JArray l =>
      String "[" ((fix elements l :=
        match l with
        | [] => "]"
        | [v] => stringify v +:+ "]"
        | v :: l => stringify v +:+ "," +:+ elements l
        end) l)
  | JObject l =>
      String "{" ((fix members l :=
        match l with
        | [] => "}"
        | [(k, v)] => quoted k +:+ ":" +:+ stringify v +:+ "}"
        | (k, v) :: l => quoted k +:+ ":" +:+ stringify v +:+ "," +:+ members l
        end) l)
  end.

(** The values of fingerprints: numbers are non-negative integers. *)
Fixpoint json_wf (j : json) : Prop :=
  match j with
  | JNumber n => 0 <= n
  | JNumeral _ => False
  | JArray l => (fix all l := match l with [] => True | v :: l => json_wf v /\ all l end) l
  | JObject l =>
      (fix all l := match l with [] => True | (_, v) :: l => json_wf v /\ all l end) l
  | _ => True
  end.

(** What can follow a number. *)
Definition no_digit (r : string) : Prop :=
  match r with
  | EmptyString => True
  | String c _ => is_digit c = false
  end.

(** ** Induction on nested values *)

Section json_induction.
Variable P : json -> Prop.
Hypothesis Pnull : P JNull.
Hypothesis Pbool : forall b, P (JBool b).
Hypothesis Pnumber : forall n, P (JNumber n).
Hypothesis Pnumeral : forall text, P (JNumeral text).
Hypothesis Pstring : forall s, P (JString s).
Hypothesis Parray : forall l, Forall P l -> P (JArray l).
Hypothesis Pobject : forall l, Forall (fun kv => P kv.2) l -> P (JObject l).

Fixpoint json_nested_ind (j : json) : P j :=
  match j with
  | JNull => Pnull
  | JBool b => Pbool b
  | JNumber n => Pnumber n
  | JNumeral text => Pnumeral text
  | JString s => Pstring s
  | JArray l => Parray l ((fix all l : Forall P l :=
      match l with
      | [] => Forall_nil_2 _
      | v :: l => Forall_cons_2 _ _ _ (json_nested_ind v) (all l)
      end) l)
  | JObject l => Pobject l ((fix all l : Forall (fun kv => P kv.2) l :=
      match l with
      | [] => Forall_nil_2 _
      | kv :: l => Forall_cons_2 _ _ _ (json_nested_ind kv.2) (all l)
      end) l)
  end.
End json_induction.

(** ** Strings *)

Definition all_codes : list ascii := ascii_of_nat <$> seq 0 256.

Lemma all_codes_complete c : c ∈ all_codes.
Proof.
  unfold all_codes. apply list_elem_of_fmap. exists (nat_of_ascii c).
  split; [by rewrite ascii_nat_embedding|]. apply elem_of_seq. pose proof (nat_ascii_bounded c). lia.
Qed.

Definition no_prefix (a b : string) : bool := negb (String.prefix a b).

(** Escapes form a prefix code, and none starts with the quote or is empty. *)
Definition escape_ok (c d : ascii) : bool :=
  no_prefix (String dquote "") (escape_char c) && no_prefix (escape_char c) ""
  && (Ascii.eqb c d || no_prefix (escape_char c) (escape_char d)).

Lemma escape_code_checked : forallb (fun c => forallb (escape_ok c) all_codes) all_codes = true.
Proof. vm_compute. reflexivity. Qed.

Lemma escape_code_ok c d : escape_ok c d = true.
Proof.
  pose proof (proj1 (forallb_forall _ _) escape_code_checked c
    (proj1 (list_elem_of_In _ _) (all_codes_complete c))) as H.
  exact (proj1 (forallb_forall _ _) H d (proj1 (list_elem_of_In _ _) (all_codes_complete d))).
Qed.

Lemma prefix_of_app a b r r' : a +:+ r = b +:+ r' ->
  String.prefix a b = true \/ String.prefix b a = true.
Proof.
  revert b. induction a as [|c a IH]; intros [|d b]; simpl; auto.
  intros [= -> H]. destruct (ascii_dec d d) as [_|]; [by apply IH | done].
Qed.

Lemma append_inj_l a r r' : a +:+ r = a +:+ r' -> r = r'.
Proof. induction a as [|c a IH]; [done|]. rewrite !append_cons. intros [= H]. auto. Qed.

Lemma escape_char_inj c d r r' : escape_char c +:+ r = escape_char d +:+ r' -> c = d /\ r = r'.
Proof.
  intros H. assert (c = d) as ->; [|split; [done | by apply append_inj_l in H]].
  assert (forall x y, String.prefix (escape_char x) (escape_char y) = true -> x = y) as Hp.
  { intros x y Hp. pose proof (escape_code_ok x y) as Hc. unfold escape_ok in Hc.
    apply andb_true_iff in Hc as [_ [E|E]%orb_true_iff]; [by apply Ascii.eqb_eq|].
    unfold no_prefix in E. by rewrite Hp in E. }
  apply prefix_of_app in H as [H|H]; [by apply Hp | symmetry; by apply Hp].
Qed.

Lemma escape_char_not_quote c r : exists x y, escape_char c +:+ r = String x y /\ x <> dquote.
Proof.
  pose proof (escape_code_ok c c) as Hc. unfold escape_ok, no_prefix in Hc.
  destruct (escape_char c) as [|x e].
  - simpl in Hc. discriminate.
  - exists x, (e +:+ r). split; [done|]. intros ->. simpl in Hc.
    by destruct e.
Qed.

Lemma quoted_inj s t r r' : quoted s +:+ r = quoted t +:+ r' -> s = t /\ r = r'.
Proof.
  assert (forall x r, escape x +:+ String dquote "" +:+ r = escape x +:+ String dquote r) as Hq by done.
  unfold quoted. rewrite !append_cons, !append_assoc, !Hq. intros [= H]. revert t H.
  induction s as [|c s IH]; intros [|d t] H; cbn [escape] in H; rewrite ?append_assoc in H.
  - injection H as H. by subst.
  - destruct (escape_char_not_quote d (escape t +:+ String dquote r')) as (x & y & E & Hx).
    rewrite E in H. by injection H.
  - destruct (escape_char_not_quote c (escape s +:+ String dquote r)) as (x & y & E & Hx).
    rewrite E in H. by injection H.
  - apply escape_char_inj in H as [-> H]. by destruct (IH _ H) as [-> ->].
Qed.

(** ** Values *)

Fixpoint elements (l : list json) : string :=
  match l with
  | [] => "]"
  | [v] => stringify v +:+ "]"
  | v :: l => stringify v +:+ "," +:+ elements l
  end.

Fixpoint members (l : list (string * json)) : string :=
  match l with
  | [] => "}"
  | [(k, v)] => quoted k +:+ ":" +:+ stringify v +:+ "}"
  | (k, v) :: l => quoted k +:+ ":" +:+ stringify v +:+ "," +:+ members l
  end.

Lemma stringify_array l : stringify (JArray l) = String "[" (elements l).
Proof. done. Qed.

Lemma stringify_object l : stringify (JObject l) = String "{" (members l).
Proof. done. Qed.

Lemma json_wf_array l : json_wf (JArray l) <-> Forall json_wf l.
Proof.
  induction l as [|v l IH]; [split; [constructor | done]|].
  rewrite Forall_cons, <- IH. done.
Qed.

Lemma json_wf_object l : json_wf (JObject l) <-> Forall (fun kv => json_wf kv.2) l.
Proof.
  induction l as [|[k v] l IH]; [split; [constructor | done]|].
  rewrite Forall_cons, <- IH. done.
Qed.

(** The first character of a text tells the kind of its value. *)
Definition first_char (j : json) (c : ascii) : bool :=
  match j with
  | JNull => Ascii.eqb c "n"
  | JBool b => Ascii.eqb c (if b then "t" else "f")
  | JNumber _ => is_digit c
  | JNumeral _ => false
  | JString _ => Ascii.eqb c dquote
  | JArray _ => Ascii.eqb c "["
  | JObject _ => Ascii.eqb c "{"
  end.

Lemma stringify_first j : json_wf j -> exists c s, stringify j = String c s /\ first_char j c = true.
Proof.
  destruct j as [|[]|n|text|s|l|l]; intros H; try (eexists _, _; split; reflexivity); [|by destruct H].
  simpl in *. pose proof (toString_unsigned n H) as Hu. destruct (toString n) as [|c s]; [done|].
  exists c, s. split; [done|]. apply unsigned_integer_digits in Hu. simpl in Hu.
  by apply andb_true_iff in Hu as [? _].
Qed.

Definition kind (j : json) : nat :=
  match j with
  | JNull => 0
  | JBool true => 1
  | JBool false => 2
  | JNumber _ => 3
  | JString _ => 4
  | JArray _ => 5
  | JObject _ => 6
  | JNumeral _ => 7
  end.

Lemma first_char_kind a b c :
  first_char a c = true -> first_char b c = true -> kind a = kind b.
Proof.
  destruct a as [|[]|m|u|s|l|l], b as [|[]|n|v|t|l'|l']; cbn [first_char]; intros H1 H2; try reflexivity;
    first [discriminate | apply Ascii.eqb_eq in H1; subst c; discriminate
          | apply Ascii.eqb_eq in H2; subst c; discriminate].
Qed.

(** Texts that continue to equal strings start values of one kind. *)
Lemma stringify_same_kind a b r r' :
  json_wf a -> json_wf b -> stringify a +:+ r = stringify b +:+ r' -> kind a = kind b.
Proof.
  intros (c & s & Ha & Hc)%stringify_first (d & t & Hb & Hd)%stringify_first H.
  rewrite Ha, Hb, !append_cons in H. injection H as -> _. by eapply first_char_kind.
Qed.

Lemma digits_end_inj a b r r' :
  all_chars is_digit a = true -> all_chars is_digit b = true -> no_digit r -> no_digit r' ->
  a +:+ r = b +:+ r' -> a = b /\ r = r'.
Proof.
  intros Ha Hb Hr Hr'. revert b Hb.
  induction a as [|c a IH]; intros [|d b] Hb H; rewrite ?append_nil_l, ?append_cons in H; simpl in Ha, Hb.
  - done.
  - subst r. simpl in Hr. apply andb_true_iff in Hb as [Hd _]. congruence.
  - subst r'. simpl in Hr'. apply andb_true_iff in Ha as [Hd _]. congruence.
  - apply andb_true_iff in Ha as [_ Ha], Hb as [_ Hb]. injection H as -> H.
    by destruct (IH Ha b Hb H) as [-> ->].
Qed.

Definition text_inj (a : json) : Prop := forall b r r',
  json_wf a -> json_wf b -> no_digit r -> no_digit r' ->
  stringify a +:+ r = stringify b +:+ r' -> a = b /\ r = r'.

Lemma elements_inj l m r r' :
  Forall text_inj l -> Forall json_wf l -> Forall json_wf m ->
  elements l +:+ r = elements m +:+ r' -> l = m /\ r = r'.
Proof.
  intros Hl. revert m. induction Hl as [|v l Hv Hl IH]; intros m Hw Hm H.
  - destruct m as [|w m]; [by injection H|]. exfalso.
    apply Forall_cons in Hm as [Hw' _]. destruct (stringify_first w Hw') as (c & s & E & Hc).
    destruct m; cbn [elements] in H; rewrite E in H; injection H as <- _;
      by destruct w as [|[]| | | | |].
  - apply Forall_cons in Hw as [Hwv Hw]. destruct m as [|w m].
    { exfalso. destruct (stringify_first v Hwv) as (c & s & E & Hc).
      destruct l; cbn [elements] in H; rewrite E in H; injection H as -> _;
        by destruct v as [|[]| | | | |]. }
    apply Forall_cons in Hm as [Hwm Hm].
    destruct l as [|v' l], m as [|w' m]; cbn [elements] in H; rewrite !append_assoc in H;
      apply Hv in H as [-> H]; try done; injection H as H; try discriminate; [by subst|].
    by destruct (IH _ Hw Hm H) as [-> ->].
Qed.

Lemma members_inj l m r r' :
  Forall (fun kv => text_inj kv.2) l -> Forall (fun kv => json_wf kv.2) l ->
  Forall (fun kv => json_wf kv.2) m ->
  members l +:+ r = members m +:+ r' -> l = m /\ r = r'.
Proof.
  intros Hl. revert m. induction Hl as [|[k v] l Hv Hl IH]; intros m Hw Hm H.
  - destruct m as [|[k w] [|]]; [by injection H | |]; exfalso; by injection H.
  - apply Forall_cons in Hw as [Hwv Hw]. destruct m as [|[k' w] m].
    { exfalso. destruct l; by injection H. }
    apply Forall_cons in Hm as [Hwm Hm]. cbn [snd] in *.
    destruct l as [|v' l], m as [|w' m]; cbn [members] in H; rewrite !append_assoc in H;
      repeat match type of H with context [match ?x with (_, _) => _ end] => destruct x end;
      apply quoted_inj in H as [-> H]; injection H as H;
      apply Hv in H as [-> H]; try done; injection H as H; try discriminate; [by subst|].
    by destruct (IH _ Hw Hm H) as [-> ->].
Qed.

Lemma stringify_text_inj a : text_inj a.
Proof.
  induction a as [|x|n|u|s|l IH|l IH] using json_nested_ind; intros b r r' Ha Hb Hr Hr' H;
    pose proof (stringify_same_kind _ _ _ _ Ha Hb H) as Hk;
    destruct b as [|y|n'|u'|s'|l'|l']; try (by destruct x); try (by destruct y); try discriminate.
  - simpl in H. by injection H.
  - destruct x, y; try discriminate; simpl in H; by injection H.
  - simpl in *. apply digits_end_inj in H as [E ->]; [|by apply unsigned_integer_digits, toString_unsigned ..| done | done].
    by apply toString_inj in E as ->.
  - by destruct Ha.
  - simpl in H. by apply quoted_inj in H as [-> ->].
  - rewrite !stringify_array, !append_cons in H. injection H as H.
    apply elements_inj in H as [-> ->]; [done | done | by apply json_wf_array ..].
  - rewrite !stringify_object, !append_cons in H. injection H as H.
    apply members_inj in H as [-> ->]; [done | done | by apply json_wf_object ..].
Qed.

(** The text determines the value. *)
Lemma stringify_inj a b : json_wf a -> json_wf b -> stringify a = stringify b -> a = b.
Proof.
  intros Ha Hb H. destruct (stringify_text_inj a b "" "" Ha Hb I I) as [-> _]; [|done]. by rewrite H.
Qed.
