(* ===== verification/JsonParse.v ===== *)
(** * JSON.parse

    A parser from text to [json] trees, as the grammar of JSON says: numerals
    stay text and the members of an object stay in the order of the text,
    because JavaScript and PostgreSQL read them differently.  [js_of_json] is
    the JavaScript value: the last member of a name wins, and array indices
    come first.  The conversion of a numeral that is not a safe integer to a
    double is a parameter.

    Strings are sequences of code units below 256, so a [\u] escape above
    [\u00ff] is outside the model and fails to parse. *)

From stdpp Require Import base list strings.
From Stdlib Require Import ZArith Lia Ascii.
From S2P Require Import Prelude Text JsValue Digest Json.

Open Scope Z_scope.

(** ** Tokens *)

Definition is_json_space (c : ascii) : bool :=
  (code c =? 9) || (code c =? 10) || (code c =? 13) || (code c =? 32).

Fixpoint skip_spaces (s : string) : string :=
  match s with
  | String c s' => if is_json_space c then skip_spaces s' else s
  | EmptyString => EmptyString
  end.

(** The longest prefix of characters that satisfy [p], and the rest. *)
Fixpoint span (p : ascii -> bool) (s : string) : string * string :=
  match s with
  | EmptyString => (EmptyString, EmptyString)
  | String c s' =>
      if p c then let '(a, r) := span p s' in (String c a, r) else (EmptyString, s)
  end.

Definition is_numeral_char (c : ascii) : bool :=
  is_digit c || is_char "+" c || is_char "-" c || is_char "." c || is_char "e" c || is_char "E" c.

Definition digits1 (s : string) : option string :=
  match s with
  | String c s => if is_digit c then Some (span is_digit s).2 else None
  | EmptyString => None
  end.

Definition minus_part (s : string) : string :=
  match s with
  | String c s' => if is_char "-" c then s' else s
  | EmptyString => EmptyString
  end.

Definition integer_part (s : string) : option string :=
  match s with
  | String c s => if is_char "0" c then Some s else if is_digit19 c then Some (span is_digit s).2 else None
  | EmptyString => None
  end.

Definition fraction_part (s : string) : option string :=
  match s with
  | String c s' => if is_char "." c then digits1 s' else Some s
  | EmptyString => Some EmptyString
  end.

Definition exponent_part (s : string) : option string :=
  match s with
  | String c s' =>
      if is_char "e" c || is_char "E" c
      then match s' with
           | String d s'' => if is_char "+" d || is_char "-" d then digits1 s'' else digits1 s'
           | EmptyString => None
           end
      else Some s
  | EmptyString => Some EmptyString
  end.

(** A sign, an integer without leading zeros, a fraction, an exponent. *)
Definition numeral_end (s : string) : option string :=
  s ← integer_part (minus_part s);
  s ← fraction_part s;
  exponent_part s.

Definition json_numeral (s : string) : bool :=
  match numeral_end s with
  | Some EmptyString => true
  | _ => false
  end.

Definition hex_val (c : ascii) : option Z :=
  if is_digit c then Some (digit_val c)
  else if in_range 97 102 c then Some (code c - 87)
  else if in_range 65 70 c then Some (code c - 55)
  else None.

Definition hex4 (a b c d : ascii) : option Z :=
  a ← hex_val a; b ← hex_val b; c ← hex_val c; d ← hex_val d;
  Some (((a * 16 + b) * 16 + c) * 16 + d).

(** The escapes of one letter. *)
Definition unescape (c : ascii) : option ascii :=
  if Ascii.eqb c dquote || Ascii.eqb c backslash || Ascii.eqb c "/" then Some c
  else if Ascii.eqb c "b" then Some (byte 8)
  else if Ascii.eqb c "f" then Some (byte 12)
  else if Ascii.eqb c "n" then Some (byte 10)
  else if Ascii.eqb c "r" then Some (byte 13)
  else if Ascii.eqb c "t" then Some (byte 9)
  else None.

Definition with_char (c : ascii) (r : string * string) : string * string := (String c r.1, r.2).

(** The rest of a string literal after its opening quote. *)
Fixpoint parse_string (s : string) : option (string * string) :=
  match s with
  | EmptyString => None
  | String c s =>
      if Ascii.eqb c dquote then Some (EmptyString, s)
      else if Ascii.eqb c backslash then
        match s with
        | EmptyString => None
        | String e s =>
            if Ascii.eqb e "u" then
              match s with
              | String h3 (String h2 (String h1 (String h0 s))) =>
                  match hex4 h3 h2 h1 h0 with
                  | Some z => if z <? 256 then with_char (byte z) <$> parse_string s else None
                  | None => None
                  end
              | _ => None
              end
            else match unescape e with
                 | Some d => with_char d <$> parse_string s
                 | None => None
                 end
        end
      else if code c <? 32 then None
      else with_char c <$> parse_string s
  end.

(** ** Values *)

Definition literal (word : string) (j : json) (s : string) : option (json * string) :=
  if String.prefix word s then Some (j, String.substring (String.length word) (String.length s) s) else None.

Definition parse_token (s : string) : option (json * string) :=
  match s with
  | EmptyString => None
  | String c s' =>
      if Ascii.eqb c dquote then (fun r => (JString r.1, r.2)) <$> parse_string s'
      else if is_digit c || is_char "-" c then
        let '(text, r) := span is_numeral_char s in
        if json_numeral text then Some (JNumeral text, r) else None
      else if Ascii.eqb c "n" then literal "null" JNull s
      else if Ascii.eqb c "t" then literal "true" (JBool true) s
      else if Ascii.eqb c "f" then literal "false" (JBool false) s
      else None
  end.

Definition expect (c : ascii) (s : string) : option string :=
  match skip_spaces s with
  | String d s => if Ascii.eqb c d then Some s else None
  | EmptyString => None
  end.

(** An array or object whose opening bracket is read, up to its first element. *)
Fixpoint parse_value (fuel : nat) (s : string) : option (json * string) :=
  match fuel with
  | O => None
  | S fuel =>
      match skip_spaces s with
      | EmptyString => None
      | String c s =>
          if Ascii.eqb c "[" then
            match expect "]" s with
            | Some s => Some (JArray [], s)
            | None => '(vs, s) ← parse_elements fuel s; Some (JArray vs, s)
            end
          else if Ascii.eqb c "{" then
            match expect "}" s with
            | Some s => Some (JObject [], s)
            | None => '(kvs, s) ← parse_members fuel s; Some (JObject kvs, s)
            end
          else parse_token (String c s)
      end
  end
with parse_elements (fuel : nat) (s : string) : option (list json * string) :=
  match fuel with
  | O => None
  | S fuel =>
      '(v, s) ← parse_value fuel s;
      match expect "," s with
      | Some s => '(vs, s) ← parse_elements fuel s; Some (v :: vs, s)
      | None => s ← expect "]" s; Some ([v], s)
      end
  end
with parse_members (fuel : nat) (s : string) : option (list (string * json) * string) :=
  match fuel with
  | O => None
  | S fuel =>
      s ← expect dquote s;
      '(k, s) ← parse_string s;
      s ← expect ":" s;
      '(v, s) ← parse_value fuel s;
      match expect "," s with
      | Some s => '(kvs, s) ← parse_members fuel s; Some ((k, v) :: kvs, s)
      | None => s ← expect "}" s; Some ([(k, v)], s)
      end
  end.

(** Two steps per character are enough: every step but the one that enters an
    element reads a character. *)
Definition parse_json (s : string) : option json :=
  match parse_value (S (2 * String.length s)) s with
  | Some (j, r) => if String.eqb (skip_spaces r) "" then Some j else None
  | None => None
  end.

(** ** The JavaScript value *)

(** An array index, the keys an object lists first and in ascending order. *)
Definition array_index (k : string) : option Z :=
  if UNSIGNED_INTEGER_PATTERN k && (BigInt k <? 2 ^ 32 - 1) then Some (BigInt k) else None.

Definition key_before (k : string) (k' : jskey) : bool :=
  match array_index k, k' with
  | None, _ => false
  | Some _, KSym _ => true
  | Some i, KStr s => match array_index s with Some j => i <? j | None => true end
  end.

(** [object[k] = v] on an object without accessors. *)
Fixpoint set_property (k : string) (d : jsdesc) (ps : jsprops) : jsprops :=
  match ps with
  | [] => [(KStr k, d)]
  | (k', d') :: ps' =>
      if key_eqb (KStr k) k' then (k', d) :: ps'
      else if key_before k k' then (KStr k, d) :: ps
      else (k', d') :: set_property k d ps'
  end.

Definition set_properties (kvs : list (string * jsval)) : jsprops :=
  foldl (fun ps kv => set_property kv.1 (DData kv.2 true) ps) [] kvs.

(** A numeral for a safe integer. *)
Definition integer_text (s : string) : option Z :=
  let digits := minus_part s in
  if UNSIGNED_INTEGER_PATTERN digits && (BigInt digits <=? MAX_SAFE_INTEGER)
  then Some (if String.eqb digits s then BigInt digits else - BigInt digits) else None.

Section javascript.
(** The double nearest to a numeral. *)
Context (double_of : string -> jsnum).

Definition number_of_text (s : string) : jsnum :=
  match integer_text s with
  | Some z => JInt z
  | None => double_of s
  end.

Fixpoint js_of_json (j : json) : jsval :=
  match j with
  | JNull => VNull
  | JBool b => VBool b
  | JNumber n => VNum (JInt n)
  | JNumeral text => VNum (number_of_text text)
  | JString s => VStr s
  | JArray l => js_array (js_of_json <$> l)
  | JObject l => VObj PObject (set_properties ((fun kv => (kv.1, js_of_json kv.2)) <$> l))
  end.

Definition JSON_PARSE (s : string) : option jsval := js_of_json <$> parse_json s.
End javascript.

(** ** Parsing what is printed *)

(** Values whose numbers print as numerals. *)
Fixpoint printable (j : json) : Prop :=
  match j with
  | JNumber n => 0 <= n
  | JNumeral text => json_numeral text = true
  | JArray l => (fix all l := match l with [] => True | v :: l => printable v /\ all l end) l
  | JObject l => (fix all l := match l with [] => True | (_, v) :: l => printable v /\ all l end) l
  | _ => True
  end.

(** The parser reads every number as a numeral. *)
Fixpoint numerals (j : json) : json :=
  match j with
  | JNumber n => JNumeral (toString n)
  | JArray l => JArray (numerals <$> l)
  | JObject l => JObject ((fun kv => (kv.1, numerals kv.2)) <$> l)
  | _ => j
  end.

Lemma printable_array l : printable (JArray l) <-> Forall printable l.
Proof. induction l as [|v l IH]; [by split|]. rewrite Forall_cons, <- IH. done. Qed.

Lemma printable_object l : printable (JObject l) <-> Forall (fun kv => printable kv.2) l.
Proof. induction l as [|[k v] l IH]; [by split|]. rewrite Forall_cons, <- IH. done. Qed.

(** *** Tokens *)

Lemma span_app p a r : all_chars p a = true ->
  match r with String c _ => p c = false | EmptyString => True end -> span p (a +:+ r) = (a, r).
Proof.
  intros Ha Hr. induction a as [|c a IH].
  - rewrite append_nil_l. destruct r as [|c r]; [done|]. cbn. by rewrite Hr.
  - rewrite append_cons. cbn in *. apply andb_true_iff in Ha as [-> Ha]. by rewrite IH.
Qed.

Lemma span_split p s : s = (span p s).1 +:+ (span p s).2 /\ all_chars p (span p s).1 = true /\
  match (span p s).2 with String c _ => p c = false | EmptyString => True end.
Proof.
  induction s as [|c s IH]; [done|]. cbn. destruct (p c) eqn:E; [|cbn; by rewrite E].
  destruct (span p s) as [a r]. cbn in *. destruct IH as (-> & Ha & Hr). by rewrite E, Ha.
Qed.

Lemma all_digits_span s : all_chars is_digit s = true -> (span is_digit s).2 = "".
Proof.
  intros H. rewrite <- (append_nil_r s). by rewrite span_app.
Qed.

Lemma digit_no_numeral_mark c : is_digit c = true ->
  is_char "-" c = false /\ is_char "." c = false /\ is_char "e" c = false /\ is_char "E" c = false.
Proof.
  intros H. unfold is_char. repeat split; apply Ascii.eqb_neq; intros <-; discriminate.
Qed.

Lemma numeral_integer s : UNSIGNED_INTEGER_PATTERN s = true -> json_numeral s = true.
Proof.
  intros H. unfold json_numeral, numeral_end.
  assert (integer_part (minus_part s) = Some "") as ->; [|done].
  pose proof (unsigned_integer_digits s H) as Hd. destruct s as [|c s]; [done|].
  apply andb_true_iff in Hd as [Hc Hd]. unfold minus_part.
  rewrite (proj1 (digit_no_numeral_mark c Hc)). unfold integer_part.
  apply orb_true_iff in H as [H|H].
  - apply String.eqb_eq in H. injection H as -> ->. done.
  - apply andb_true_iff in H as [H _]. destruct (is_char "0" c) eqn:E.
    + apply Ascii.eqb_eq in E as <-. discriminate.
    + by rewrite H, all_digits_span.
Qed.

(** An escaped character reads back as itself. *)
Lemma parse_escape_char c r : parse_string (escape_char c +:+ r) = with_char c <$> parse_string r.
Proof. destruct c as [[] [] [] [] [] [] [] []]; reflexivity. Qed.

Lemma parse_escape s r : parse_string (escape s +:+ String dquote r) = Some (s, r).
Proof.
  induction s as [|c s IH]; [done|]. cbn [escape]. rewrite append_assoc, parse_escape_char, IH. done.
Qed.

(** What may follow a value. *)
Definition value_end (r : string) : Prop :=
  match r with
  | EmptyString => True
  | String c _ => is_numeral_char c = false
  end.

(** Each part of a numeral reads numeral characters. *)
Definition reads (f : string -> option string) : Prop :=
  forall s r, f s = Some r -> exists a, s = a +:+ r /\ all_chars is_numeral_char a = true.

Lemma digit_numeral_char c : is_digit c = true -> is_numeral_char c = true.
Proof. intros H. unfold is_numeral_char. by rewrite H. Qed.

Lemma span_reads s : exists a, s = a +:+ (span is_digit s).2 /\ all_chars is_numeral_char a = true.
Proof.
  destruct (span_split is_digit s) as (E & H & _). exists (span is_digit s).1. split; [done|].
  eapply all_chars_impl; [|exact H]. apply digit_numeral_char.
Qed.

Lemma reads_char c s r :
  is_numeral_char c = true -> (exists a, s = a +:+ r /\ all_chars is_numeral_char a = true) ->
  exists a, String c s = a +:+ r /\ all_chars is_numeral_char a = true.
Proof. intros Hc (a & -> & Ha). exists (String c a). split; [done|]. cbn. by rewrite Hc. Qed.

Lemma digits1_reads : reads digits1.
Proof.
  intros [|c s] r; [done|]. unfold digits1. destruct (is_digit c) eqn:E; [|done]. intros [= <-].
  apply reads_char; [by apply digit_numeral_char | apply span_reads].
Qed.

Lemma mark_numeral_char (m c : ascii) : is_char m c = true -> is_numeral_char m = true -> is_numeral_char c = true.
Proof. by intros <-%Ascii.eqb_eq. Qed.

Lemma no_read r : exists a, r = a +:+ r /\ all_chars is_numeral_char a = true.
Proof. by exists "". Qed.

Lemma minus_reads : reads (fun s => Some (minus_part s)).
Proof.
  intros s r H. apply (inj Some) in H as <-. destruct s as [|c s]; [apply no_read|]. unfold minus_part.
  destruct (is_char "-" c) eqn:E; [|apply no_read].
  apply reads_char; [by eapply mark_numeral_char | apply no_read].
Qed.

Lemma integer_reads : reads integer_part.
Proof.
  intros [|c s] r; [done|]. unfold integer_part. destruct (is_char "0" c) eqn:E.
  { intros [= <-]. apply reads_char; [by eapply mark_numeral_char | apply no_read]. }
  destruct (is_digit19 c) eqn:E'; [|done]. intros [= <-].
  apply reads_char; [by apply digit_numeral_char, digit19_digit | apply span_reads].
Qed.

Lemma fraction_reads : reads fraction_part.
Proof.
  intros [|c s] r; [intros [= <-]; apply no_read|]. unfold fraction_part.
  destruct (is_char "." c) eqn:E; [|intros [= <-]; apply no_read]. intros H%digits1_reads.
  apply reads_char; [by eapply mark_numeral_char | done].
Qed.

Lemma exponent_reads : reads exponent_part.
Proof.
  intros [|c s] r; [intros [= <-]; apply no_read|]. unfold exponent_part.
  destruct (is_char "e" c || is_char "E" c) eqn:E; [|intros [= <-]; apply no_read].
  destruct s as [|d s]; [done|]. intros H.
  apply reads_char; [apply orb_true_iff in E as [E|E]; by eapply mark_numeral_char|].
  destruct (is_char "+" d || is_char "-" d) eqn:E'; apply digits1_reads in H; [|done].
  apply reads_char; [apply orb_true_iff in E' as [E'|E']; by eapply mark_numeral_char | done].
Qed.

Lemma reads_bind (f g : string -> option string) : reads f -> reads g -> reads (fun s => r ← f s; g r).
Proof.
  intros Hf Hg s r H. apply bind_Some in H as (m & Hm & H).
  apply Hf in Hm as (a & -> & Ha). apply Hg in H as (b & -> & Hb).
  exists (a +:+ b). by rewrite append_assoc, all_chars_append, Ha, Hb.
Qed.

Lemma numeral_chars s : json_numeral s = true -> all_chars is_numeral_char s = true.
Proof.
  unfold json_numeral. destruct (numeral_end s) as [[|]|] eqn:E; [|done..]. intros _.
  assert (reads numeral_end) as H.
  { intros x r Hx. unfold numeral_end in Hx.
    apply (reads_bind (fun s => Some (minus_part s)) (fun s => s ← integer_part s; s ← fraction_part s; exponent_part s));
      [apply minus_reads | | done].
    apply (reads_bind integer_part (fun s => s ← fraction_part s; exponent_part s)); [apply integer_reads|].
    apply reads_bind; [apply fraction_reads | apply exponent_reads]. }
  apply H in E as (a & -> & Ha). by rewrite append_nil_r.
Qed.

Lemma numeral_first s : json_numeral s = true ->
  exists c s', s = String c s' /\ (is_digit c || is_char "-" c) = true.
Proof.
  unfold json_numeral, numeral_end. destruct s as [|c s]; [done|]. intros H. exists c, s. split; [done|].
  unfold minus_part in H. destruct (is_char "-" c) eqn:E; [by rewrite orb_true_r|]. rewrite orb_false_r.
  unfold integer_part in H. destruct (is_char "0" c) eqn:E0; [by apply Ascii.eqb_eq in E0 as <-|].
  destruct (is_digit19 c) eqn:E1; [by apply digit19_digit|]. done.
Qed.

(** *** Values *)

Lemma expect_here c s : is_json_space c = false -> expect c (String c s) = Some s.
Proof. intros H. unfold expect. cbn [skip_spaces]. by rewrite H, Ascii.eqb_refl. Qed.

Lemma expect_other c d s : is_json_space d = false -> c <> d -> expect c (String d s) = None.
Proof.
  intros H Hne. unfold expect. cbn [skip_spaces]. rewrite H.
  by rewrite (proj2 (Ascii.eqb_neq c d) Hne).
Qed.

(** The first character of a printed value. *)
Definition value_head (c : ascii) : bool :=
  is_digit c || is_char "-" c || Ascii.eqb c dquote || Ascii.eqb c "n" || Ascii.eqb c "t" || Ascii.eqb c "f"
  || Ascii.eqb c "[" || Ascii.eqb c "{".

Lemma value_head_plain c : value_head c = true ->
  is_json_space c = false /\ Ascii.eqb c "]" = false /\ Ascii.eqb c "}" = false.
Proof. destruct c as [[] [] [] [] [] [] [] []]; done. Qed.

Lemma numeral_head c : is_digit c || is_char "-" c = true ->
  is_json_space c = false /\ Ascii.eqb c "[" = false /\ Ascii.eqb c "{" = false /\ Ascii.eqb c dquote = false.
Proof. destruct c as [[] [] [] [] [] [] [] []]; done. Qed.

Lemma stringify_head j : printable j -> exists c s, stringify j = String c s /\ value_head c = true.
Proof.
  assert (forall text, json_numeral text = true -> exists c s, text = String c s /\ value_head c = true) as Hn.
  { intros text (c & s & -> & H)%numeral_first. exists c, s. split; [done|]. unfold value_head. by rewrite H. }
  destruct j as [|[]|n|text|s|l|l]; intros H; try (eexists _, _; split; reflexivity); apply Hn.
  - by apply numeral_integer, toString_unsigned.
  - done.
Qed.

Lemma parse_numeral fuel text r : json_numeral text = true -> value_end r ->
  parse_value (S fuel) (text +:+ r) = Some (JNumeral text, r).
Proof.
  intros H Hr. pose proof (numeral_chars text H) as Hc. destruct (numeral_first text H) as (c & s & E & Hh).
  destruct (numeral_head c Hh) as (H1 & H2 & H3 & H4).
  pose proof (span_app is_numeral_char text r Hc Hr) as Hs. rewrite E, append_cons in Hs |- *.
  cbn [parse_value skip_spaces]. rewrite H1, H2, H3. unfold parse_token. rewrite H4, Hh, Hs.
  by rewrite <- E, H.
Qed.

Lemma parse_string_value fuel s r : parse_value (S fuel) (quoted s +:+ r) = Some (JString s, r).
Proof.
  unfold quoted. rewrite append_cons, append_assoc.
  change (String dquote "" +:+ r) with (String dquote r). cbn [parse_value skip_spaces].
  change (is_json_space dquote) with false. change (Ascii.eqb dquote "[") with false.
  change (Ascii.eqb dquote "{") with false. cbn [parse_token].
  unfold parse_token. rewrite Ascii.eqb_refl, parse_escape. done.
Qed.

Lemma substring_all n s : (String.length s <= n)%nat -> String.substring 0 n s = s.
Proof.
  revert n. induction s as [|c s IH]; intros [|n] H; cbn in *; [done | done | lia | by rewrite IH by lia].
Qed.

Lemma literal_here word j r : literal word j (word +:+ r) = Some (j, r).
Proof.
  assert (String.prefix word (word +:+ r) = true) as Hp.
  { induction word as [|c word IH]; [by destruct r|]. rewrite append_cons. cbn.
    destruct (ascii_dec c c); [done | done]. }
  unfold literal. rewrite Hp. f_equal. f_equal. rewrite length_append. clear Hp.
  assert (forall n, (String.length r <= n)%nat -> String.substring (String.length word) n (word +:+ r) = r) as H.
  { induction word as [|c word IH]; intros n Hn.
    - by apply substring_all.
    - rewrite append_cons. destruct n as [|n]; cbn; by rewrite IH. }
  apply H. lia.
Qed.

Definition parses_back (j : json) : Prop := forall fuel r,
  printable j -> (2 * String.length (stringify j) < fuel)%nat -> value_end r ->
  parse_value fuel (stringify j +:+ r) = Some (numerals j, r).

Lemma parse_elements_back l : l <> [] -> Forall parses_back l -> Forall printable l -> forall fuel r,
  (2 * String.length (elements l) <= fuel)%nat ->
  parse_elements fuel (elements l +:+ r) = Some (numerals <$> l, r).
Proof.
  intros Hne Hl. induction Hl as [|v l Hv Hl IH]; [done|]. clear Hne.
  intros [Hpv Hpl]%Forall_cons fuel r Hf. destruct fuel as [|fuel].
  { exfalso. destruct (stringify_head v Hpv) as (c & s & E & _).
    destruct l; cbn [elements] in Hf; rewrite E, append_cons in Hf; cbn in Hf; lia. }
  destruct l as [|w l].
  - cbn [elements] in *. rewrite length_append in Hf. cbn in Hf. rewrite append_assoc.
    change ("]" +:+ r) with (String "]" r). cbn [parse_elements].
    rewrite Hv by (done || lia). cbn [mbind option_bind].
    by rewrite expect_other, expect_here by done.
  - change (elements (v :: w :: l)) with (stringify v +:+ "," +:+ elements (w :: l)) in *.
    rewrite !length_append in Hf. cbn [String.length] in Hf. rewrite !append_assoc, append_cons, append_nil_l.
    cbn [parse_elements]. rewrite Hv by (done || lia). cbn [mbind option_bind].
    rewrite expect_here by done. rewrite IH by (done || lia). done.
Qed.

Lemma parse_members_back l : l <> [] -> Forall (fun kv => parses_back kv.2) l ->
  Forall (fun kv => printable kv.2) l -> forall fuel r,
  (2 * String.length (members l) <= fuel)%nat ->
  parse_members fuel (members l +:+ r) = Some ((fun kv => (kv.1, numerals kv.2)) <$> l, r).
Proof.
  intros Hne Hl. induction Hl as [|[k v] l Hv Hl IH]; [done|]. clear Hne.
  intros [Hpv Hpl]%Forall_cons fuel r Hf. cbn [snd] in *. destruct fuel as [|fuel]; [destruct l as [|[? ?] ?]; cbn [members] in Hf; rewrite !length_append in Hf; cbn in Hf; lia|].
  assert (forall rest, parse_members (S fuel) (quoted k +:+ ":" +:+ stringify v +:+ rest) =
    ('(v, s) ← parse_value fuel (stringify v +:+ rest);
     match expect "," s with
     | Some s => '(kvs, s) ← parse_members fuel s; Some ((k, v) :: kvs, s)
     | None => s ← expect "}" s; Some ([(k, v)], s)
     end)) as E.
  { intros rest. unfold quoted. rewrite append_cons, append_assoc.
    change (String dquote "" +:+ ?x) with (String dquote x). cbn [parse_members].
    rewrite expect_here by done. cbn [mbind option_bind]. rewrite parse_escape. cbn [mbind option_bind].
    rewrite append_cons, append_nil_l, expect_here by done. done. }
  destruct l as [|[k' w] l].
  - cbn [members] in *. rewrite !length_append in Hf. cbn [String.length] in Hf. rewrite !append_assoc, E.
    change ("}" +:+ r) with (String "}" r).
    rewrite Hv by (done || lia). cbn [mbind option_bind].
    by rewrite expect_other, expect_here by done.
  - change (members ((k, v) :: (k', w) :: l))
      with (quoted k +:+ ":" +:+ stringify v +:+ "," +:+ members ((k', w) :: l)) in *.
    rewrite !length_append in Hf. cbn [String.length] in Hf. rewrite !append_assoc, E.
    change ("," +:+ ?x) with (String "," x).
    rewrite Hv by (done || lia). cbn [mbind option_bind].
    rewrite expect_here by done. rewrite IH by (done || lia). done.
Qed.

Lemma stringify_parses_back j : parses_back j.
Proof.
  induction j as [|[]|n|text|s|l IH|l IH] using json_nested_ind; intros fuel r Hp Hf Hr;
    (destruct fuel as [|fuel]; [lia|]).
  - cbn [parse_value stringify skip_spaces]. change (parse_value (S fuel) ("null" +:+ r) = Some (JNull, r)).
    cbn [parse_value]. change (literal "null" JNull ("null" +:+ r) = Some (JNull, r)). apply literal_here.
  - change (literal "true" (JBool true) ("true" +:+ r) = Some (JBool true, r)). apply literal_here.
  - change (literal "false" (JBool false) ("false" +:+ r) = Some (JBool false, r)). apply literal_here.
  - apply parse_numeral; [by apply numeral_integer, toString_unsigned | done].
  - by apply parse_numeral.
  - apply parse_string_value.
  - rewrite stringify_array, append_cons. cbn [parse_value skip_spaces].
    change (is_json_space "[") with false. change (Ascii.eqb "[" "[") with true. cbn [numerals].
    destruct l as [|v l]; [done|]. apply printable_array in Hp.
    destruct (stringify_head v) as (c & s & E & Hc); [exact (Forall_inv Hp)|].
    apply value_head_plain in Hc as (Hc & Hne & _). apply Ascii.eqb_neq in Hne.
    assert (expect "]" (elements (v :: l) +:+ r) = None) as ->.
    { destruct l; cbn [elements]; rewrite E, !append_cons; by apply expect_other. }
    rewrite parse_elements_back; [done..|]. rewrite stringify_array in Hf. cbn [String.length] in Hf. lia.
  - rewrite stringify_object, append_cons. cbn [parse_value skip_spaces].
    change (is_json_space "{") with false. change (Ascii.eqb "{" "[") with false.
    change (Ascii.eqb "{" "{") with true. cbn [numerals].
    destruct l as [|[k v] l]; [done|]. apply printable_object in Hp.
    assert (expect "}" (members ((k, v) :: l) +:+ r) = None) as ->.
    { destruct l as [|[? ?] ?]; by apply expect_other. }
    rewrite parse_members_back; [done..|]. rewrite stringify_object in Hf. cbn [String.length] in Hf. lia.
Qed.

(** Parsing what is printed gives the value back. *)
Lemma parse_stringify j : printable j -> parse_json (stringify j) = Some (numerals j).
Proof.
  intros H. unfold parse_json. rewrite <- (append_nil_r (stringify j)) at 2.
  rewrite stringify_parses_back; [done | done | lia | done].
Qed.

(** ** The fuel is enough for every text *)

Lemma skip_spaces_shorter s : (String.length (skip_spaces s) <= String.length s)%nat.
Proof. induction s as [|c s IH]; [done|]. cbn. destruct (is_json_space c); cbn; lia. Qed.

Lemma expect_shorter c s r : expect c s = Some r -> (String.length r < String.length s)%nat.
Proof.
  unfold expect. pose proof (skip_spaces_shorter s) as H. destruct (skip_spaces s) as [|d s']; [done|].
  destruct (Ascii.eqb c d); [|done]. intros [= <-]. cbn in H. lia.
Qed.

Lemma parse_string_shorter s t r : parse_string s = Some (t, r) -> (String.length r < String.length s)%nat.
Proof.
  remember (String.length s) as n eqn:En. assert (String.length s <= n)%nat as Hn by lia. clear En.
  assert (forall s, (String.length s <= n)%nat -> forall t r, parse_string s = Some (t, r) ->
    (String.length r < String.length s)%nat) as H; [|intros Hs; specialize (H s Hn t r Hs); lia].
  clear s t r Hn. induction n as [|n IH]; intros [|c s] Hn t r; cbn in *; try lia; [done..|].
  assert (forall d s', (String.length s' <= n)%nat -> with_char d <$> parse_string s' = Some (t, r) ->
    (String.length r < String.length s')%nat) as Hw.
  { intros d s' Hs' ([t' r'] & H & [= -> ->])%fmap_Some. by eapply IH. }
  destruct (Ascii.eqb c dquote); [intros E; injection E as _ ->; lia|]. destruct (Ascii.eqb c backslash).
  - destruct s as [|e s]; [done|]. cbn in Hn. destruct (Ascii.eqb e "u").
    + do 4 (destruct s as [|? s]; [done|]). cbn in Hn. destruct (hex4 _ _ _ _) as [z|]; [|done].
      destruct (z <? 256); [|done]. intros H%Hw; cbn; lia.
    + destruct (unescape e); [|done]. intros H%Hw; cbn; lia.
  - destruct (code c <? 32); [done|]. intros H%Hw; lia.
Qed.

Lemma literal_shorter c word j s v r :
  literal (String c word) j s = Some (v, r) -> (String.length r < String.length s)%nat.
Proof.
  unfold literal. destruct s as [|d s]; [done|]. destruct (String.prefix _ _); [|done]. intros [= _ <-].
  assert (forall a n s, (String.length (String.substring a n s) <= String.length s)%nat) as H.
  { clear. intros a n s. revert a n. induction s as [|c s IH]; intros [|a] [|n]; cbn; try lia.
    - pose proof (IH 0%nat n). lia. - pose proof (IH a 0%nat). lia. - pose proof (IH a (S n)). lia. }
  cbn [String.length String.substring]. pose proof (H (String.length word) (S (String.length s)) s). lia.
Qed.

Lemma parse_token_shorter s v r : parse_token s = Some (v, r) -> (String.length r < String.length s)%nat.
Proof.
  destruct s as [|c s]; [done|]. unfold parse_token. destruct (Ascii.eqb c dquote).
  { intros (x & H & E)%fmap_Some. destruct x as [t r']. apply parse_string_shorter in H.
    injection E as _ ->. cbn. lia. }
  destruct (is_digit c || is_char "-" c) eqn:E.
  { assert (is_numeral_char c = true) as Hc.
    { unfold is_numeral_char. apply orb_true_iff in E as [-> | ->]; [done | by rewrite !orb_true_r]. }
    cbn [span]. rewrite Hc. pose proof (span_split is_numeral_char s) as [Hs _].
    destruct (span is_numeral_char s) as [a r']. cbn in Hs. destruct (json_numeral _); [|done].
    intros [= _ <-]. rewrite Hs. cbn. rewrite length_append. lia. }
  destruct (Ascii.eqb c "n"); [apply literal_shorter|].
  destruct (Ascii.eqb c "t"); [apply literal_shorter|].
  destruct (Ascii.eqb c "f"); [apply literal_shorter | done].
Qed.

(** Takes a step of the parser apart. *)
Ltac parse_step :=
  match goal with
  | H : _ ≫= _ = Some _ |- _ =>
      let x := fresh "x" in let Hx := fresh "Hx" in apply bind_Some in H as (x & Hx & H)
  | x : _ * _ |- _ => destruct x
  | H : match expect ?c ?s with _ => _ end = Some _ |- _ =>
      let Hx := fresh "Hx" in destruct (expect c s) eqn:Hx
  | H : Some _ = Some _ |- _ => injection H as ?; subst
  | H : expect _ _ = Some _ |- _ => apply expect_shorter in H
  | H : parse_string _ = Some _ |- _ => apply parse_string_shorter in H
  end.

Lemma parse_shorter fuel :
  (forall s v r, parse_value fuel s = Some (v, r) -> (String.length r < String.length s)%nat) /\
  (forall s v r, parse_elements fuel s = Some (v, r) -> (String.length r < String.length s)%nat) /\
  (forall s v r, parse_members fuel s = Some (v, r) -> (String.length r < String.length s)%nat).
Proof.
  induction fuel as [|fuel (IHv & IHe & IHm)]; [done|]. split_and!; intros s v r H.
  - cbn [parse_value] in H. pose proof (skip_spaces_shorter s) as Hs.
    destruct (skip_spaces s) as [|c s']; [done|]. cbn in Hs.
    destruct (Ascii.eqb c "["); [|destruct (Ascii.eqb c "{"); [|apply parse_token_shorter in H; cbn in H; lia]];
      repeat parse_step; try lia; [apply IHe in Hx0 | apply IHm in Hx0]; lia.
  - cbn [parse_elements] in H. repeat parse_step; apply IHv in Hx; try lia. apply IHe in Hx1. lia.
  - cbn [parse_members] in H. repeat parse_step; apply IHv in Hx2; try lia. apply IHm in Hx4. lia.
Qed.

(** More fuel than two steps per character changes nothing. *)
Lemma parse_fuel_enough fuel :
  (forall s k, (2 * String.length s < fuel)%nat -> parse_value (fuel + k) s = parse_value fuel s) /\
  (forall s k, (2 * String.length s + 1 < fuel)%nat -> parse_elements (fuel + k) s = parse_elements fuel s) /\
  (forall s k, (2 * String.length s + 1 < fuel)%nat -> parse_members (fuel + k) s = parse_members fuel s).
Proof.
  induction fuel as [|fuel (IHv & IHe & IHm)]; [split_and!; intros; lia|].
  split_and!; intros s k Hf; cbn [Nat.add].
  - cbn [parse_value]. pose proof (skip_spaces_shorter s) as Hs.
    destruct (skip_spaces s) as [|c s']; [done|]. cbn [String.length] in Hs. rewrite IHe, IHm by lia. done.
  - cbn [parse_elements]. rewrite IHv by lia. destruct (parse_value fuel s) as [[v r]|] eqn:Ev; [|done].
    apply parse_shorter in Ev. cbn [mbind option_bind]. destruct (expect "," r) as [r'|] eqn:Ex; [|done].
    apply expect_shorter in Ex. by rewrite IHe by lia.
  - cbn [parse_members]. destruct (expect dquote s) as [s1|] eqn:E1; [|done].
    apply expect_shorter in E1. cbn [mbind option_bind].
    destruct (parse_string s1) as [[t s2]|] eqn:E2; [|done]. apply parse_string_shorter in E2.
    cbn [mbind option_bind]. destruct (expect ":" s2) as [s3|] eqn:E3; [|done].
    apply expect_shorter in E3. cbn [mbind option_bind]. rewrite IHv by lia.
    destruct (parse_value fuel s3) as [[v r]|] eqn:Ev; [|done].
    apply parse_shorter in Ev. cbn [mbind option_bind]. destruct (expect "," r) as [r'|] eqn:Ex; [|done].
    apply expect_shorter in Ex. by rewrite IHm by lia.
Qed.

(** [parse_json] accepts a text exactly when some fuel reads all of it. *)
Lemma parse_json_complete fuel s j r :
  parse_value fuel s = Some (j, r) -> skip_spaces r = "" -> parse_json s = Some j.
Proof.
  intros H Hr. unfold parse_json. set (n := S (2 * String.length s)).
  assert (parse_value n s = parse_value (n + fuel) s) as ->.
  { symmetry. apply parse_fuel_enough. lia. }
  assert (forall f k, (forall s x, parse_value f s = Some x -> parse_value (f + k) s = Some x) /\
    (forall s x, parse_elements f s = Some x -> parse_elements (f + k) s = Some x) /\
    (forall s x, parse_members f s = Some x -> parse_members (f + k) s = Some x)) as Hmono.
  { clear. intros f k. induction f as [|f (IHv & IHe & IHm)]; [by split_and!|]. cbn [Nat.add].
    split_and!; intros s x H.
    - cbn [parse_value] in *. destruct (skip_spaces s) as [|c s']; [done|].
      destruct (Ascii.eqb c "["); [|destruct (Ascii.eqb c "{"); [|done]];
        (destruct (expect _ _); [done|]); apply bind_Some in H as (y & Hy & H);
        [apply IHe in Hy | apply IHm in Hy]; by rewrite Hy.
    - cbn [parse_elements] in *. apply bind_Some in H as (y & Hy & H). apply IHv in Hy. rewrite Hy.
      cbn [mbind option_bind]. destruct y as [v s']. destruct (expect "," s'); [|done].
      apply bind_Some in H as (z & Hz & H). apply IHe in Hz. by rewrite Hz.
    - cbn [parse_members] in *. destruct (expect dquote s); [|done]. cbn [mbind option_bind] in *.
      destruct (parse_string s0) as [[t s1]|]; [|done]. cbn [mbind option_bind] in *.
      destruct (expect ":" s1); [|done]. cbn [mbind option_bind] in *.
      apply bind_Some in H as (y & Hy & H). apply IHv in Hy. rewrite Hy. cbn [mbind option_bind].
      destruct y as [v s']. destruct (expect "," s'); [|done].
      apply bind_Some in H as (z & Hz & H). apply IHm in Hz. by rewrite Hz. }
  destruct (Hmono fuel n) as [Hv _]. rewrite Nat.add_comm, (Hv s _ H), Hr. done.
Qed.

Example parse_json_example :
  parse_json (" {" +:+ quoted "a" +:+ " : [1, true ,null], " +:+ quoted "b" +:+ ":-2.5e3} ") =
  Some (JObject [("a", JArray [JNumeral "1"; JBool true; JNull]); ("b", JNumeral "-2.5e3")]).
Proof. vm_compute. reflexivity. Qed.
