(* ===== verification/AssetRegistry.v ===== *)
(** * Supported assets (apps/api/src/blockchain/domain/supported-asset-registry.ts)

    The reviewed networks, the issuer-verified identities, the validation that
    turns definitions into an immutable registry snapshot, and the versioned
    registries that are shipped. *)

From stdpp Require Import base list strings sets sorting.
From Stdlib Require Import ZArith Lia Sorted Ascii.
From S2P Require Import Prelude Text JsValue JsCollections Digest Json.

Open Scope Z_scope.

(** ** Data *)

Inductive SupportedChain : Type := ETHEREUM | BASE | ARBITRUM | SOLANA.
Inductive SupportedStablecoin : Type := USDC | USDT | PYUSD.
Inductive AssetRegistryEnvironment : Type := MAINNET | TESTNET.
Inductive RegistryActivationState : Type := ACTIVE | INACTIVE.
Inductive AssetIdentityKind : Type := EVM_CONTRACT | SOLANA_MINT.
Inductive StablecoinIssuer : Type := CIRCLE | TETHER | PAXOS.

#[export] Program Instance SUPPORTED_CHAINS : JsEnum SupportedChain := {
  enum_values := [ETHEREUM; BASE; ARBITRUM; SOLANA];
  enum_str := fun c => match c with
    | ETHEREUM => "ETHEREUM" | BASE => "BASE" | ARBITRUM => "ARBITRUM" | SOLANA => "SOLANA" end;
}.
Next Obligation. solve_enum_all. Qed.
Next Obligation. solve_enum_inj. Qed.

#[export] Program Instance SUPPORTED_STABLECOINS : JsEnum SupportedStablecoin := {
  enum_values := [USDC; USDT; PYUSD];
  enum_str := fun s => match s with USDC => "USDC" | USDT => "USDT" | PYUSD => "PYUSD" end;
}.
Next Obligation. solve_enum_all. Qed.
Next Obligation. solve_enum_inj. Qed.

#[export] Program Instance ASSET_REGISTRY_ENVIRONMENTS : JsEnum AssetRegistryEnvironment := {
  enum_values := [MAINNET; TESTNET];
  enum_str := fun e => match e with MAINNET => "MAINNET" | TESTNET => "TESTNET" end;
}.
Next Obligation. solve_enum_all. Qed.
Next Obligation. solve_enum_inj. Qed.

#[export] Program Instance REGISTRY_ACTIVATION_STATES : JsEnum RegistryActivationState := {
  enum_values := [ACTIVE; INACTIVE];
  enum_str := fun a => match a with ACTIVE => "ACTIVE" | INACTIVE => "INACTIVE" end;
}.
Next Obligation. solve_enum_all. Qed.
Next Obligation. solve_enum_inj. Qed.

#[export] Program Instance ASSET_IDENTITY_KINDS : JsEnum AssetIdentityKind := {
  enum_values := [EVM_CONTRACT; SOLANA_MINT];
  enum_str := fun k => match k with
    | EVM_CONTRACT => "EVM_CONTRACT" | SOLANA_MINT => "SOLANA_MINT" end;
}.
Next Obligation. solve_enum_all. Qed.
Next Obligation. solve_enum_inj. Qed.

#[export] Program Instance STABLECOIN_ISSUERS : JsEnum StablecoinIssuer := {
  enum_values := [CIRCLE; TETHER; PAXOS];
  enum_str := fun i => match i with CIRCLE => "CIRCLE" | TETHER => "TETHER" | PAXOS => "PAXOS" end;
}.
Next Obligation. solve_enum_all. Qed.
Next Obligation. solve_enum_inj. Qed.

Inductive SupportedAssetRegistryValidationCode : Type :=
| INVALID_REGISTRY_VERSION | INVALID_REGISTRY_ENVIRONMENT | INVALID_CHAIN | INVALID_NETWORK_ID
| WRONG_NETWORK | DUPLICATE_NETWORK | MISSING_TARGET_NETWORK | INVALID_STABLECOIN
| INVALID_IDENTITY | UNVERIFIED_IDENTITY | IDENTITY_STABLECOIN_MISMATCH | INVALID_DECIMALS
| INVALID_ACTIVATION_STATE | ACTIVE_ASSET_ON_INACTIVE_NETWORK | DUPLICATE_ASSET
| EMPTY_REGISTRY_HISTORY | MIXED_REGISTRY_ENVIRONMENTS | NON_SEQUENTIAL_REGISTRY_VERSION
| UNKNOWN_REGISTRY_VERSION.

Notation registry_result := (result SupportedAssetRegistryValidationCode).

(** Definitions arrive as data whose fields are validated one by one. *)
Record SupportedNetworkDefinition : Type := {
  nd_chain : jsval;
  nd_networkId : jsval;
  nd_activationState : jsval;
}.

Record StablecoinAssetDefinition : Type := {
  ad_stablecoin : jsval;
  ad_chain : jsval;
  ad_networkId : jsval;
  ad_identity : jsval;
  ad_decimals : jsval;
  ad_activationState : jsval;
}.

Record SupportedAssetRegistrySnapshotDefinition : Type := {
  sd_version : jsval;
  sd_environment : jsval;
  sd_networks : list SupportedNetworkDefinition;
  sd_assets : list StablecoinAssetDefinition;
}.

Record SupportedNetwork : Type := {
  net_chain : SupportedChain;
  net_networkId : string;
  net_activationState : RegistryActivationState;
  net_environment : AssetRegistryEnvironment;
  net_displayName : string;
  net_identityKind : AssetIdentityKind;
}.

Record SupportedStablecoinAsset : Type := {
  asset_registryVersion : Z;
  asset_stablecoin : SupportedStablecoin;
  asset_issuer : StablecoinIssuer;
  asset_chain : SupportedChain;
  asset_networkId : string;
  asset_identityKind : AssetIdentityKind;
  asset_identity : string;
  asset_qualifiedIdentity : string;
  asset_decimals : Z;
  asset_activationState : RegistryActivationState;
  asset_verificationSource : string;
}.

Record ReviewedNetwork : Type := {
  rn_environment : AssetRegistryEnvironment;
  rn_chain : SupportedChain;
  rn_networkId : string;
  rn_displayName : string;
  rn_identityKind : AssetIdentityKind;
}.

Record VerifiedStablecoinIdentity : Type := {
  vi_environment : AssetRegistryEnvironment;
  vi_stablecoin : SupportedStablecoin;
  vi_issuer : StablecoinIssuer;
  vi_chain : SupportedChain;
  vi_networkId : string;
  vi_identity : string;
  vi_decimals : Z;
  vi_verificationSource : string;
}.

(** The maps a snapshot's [identifyAsset] closes over are part of it. *)
Record SupportedAssetRegistrySnapshot : Type := {
  snap_version : Z;
  snap_environment : AssetRegistryEnvironment;
  snap_fingerprintSha256 : string;
  snap_networks : list SupportedNetwork;
  snap_assets : list SupportedStablecoinAsset;
  snap_byNetworkId : list (string * SupportedNetwork);
  snap_assetByIdentity : list (string * SupportedStablecoinAsset);
}.

Record VersionedSupportedAssetRegistry : Type := {
  reg_environment : AssetRegistryEnvironment;
  reg_versions : list Z;
  reg_latest : SupportedAssetRegistrySnapshot;
  reg_byVersion : list (Z * SupportedAssetRegistrySnapshot);
}.

Record RegistryAssetManifestEntry : Type := {
  me_stablecoin : SupportedStablecoin;
  me_issuer : StablecoinIssuer;
  me_chain : SupportedChain;
  me_networkId : string;
  me_identity : string;
  me_decimals : Z;
  me_activationState : RegistryActivationState;
  me_verificationSource : string;
}.

(** ** The reviewed networks and the verified identities *)

Definition CIRCLE_USDC_SOURCE : string :=
  "https://developers.circle.com/stablecoins/usdc-contract-addresses".
Definition TETHER_SOURCE : string := "https://tether.to/en/supported-protocols/".
Definition PAXOS_PYUSD_MAINNET_SOURCE : string :=
  "https://docs.paxos.com/guides/stablecoin/pyusd/mainnet".
Definition PAXOS_PYUSD_TESTNET_SOURCE : string :=
  "https://docs.paxos.com/guides/stablecoin/pyusd/testnet".

Definition REVIEWED_NETWORKS : list ReviewedNetwork := [
  Build_ReviewedNetwork MAINNET ETHEREUM "eip155:1" "Ethereum Mainnet" EVM_CONTRACT;
  Build_ReviewedNetwork MAINNET BASE "eip155:8453" "Base Mainnet" EVM_CONTRACT;
  Build_ReviewedNetwork MAINNET ARBITRUM "eip155:42161" "Arbitrum One" EVM_CONTRACT;
  Build_ReviewedNetwork MAINNET SOLANA "solana:5eykt4UsFv8P8NJdTREpY1vzqKqZKvdp"
    "Solana Mainnet Beta" SOLANA_MINT;
  Build_ReviewedNetwork TESTNET ETHEREUM "eip155:11155111" "Ethereum Sepolia" EVM_CONTRACT;
  Build_ReviewedNetwork TESTNET BASE "eip155:84532" "Base Sepolia" EVM_CONTRACT;
  Build_ReviewedNetwork TESTNET ARBITRUM "eip155:421614" "Arbitrum Sepolia" EVM_CONTRACT;
  Build_ReviewedNetwork TESTNET SOLANA "solana:EtWTRABZaYq6iMfeYKouRu166VU2xqa1"
    "Solana Devnet" SOLANA_MINT].

Definition verifiedIdentity := Build_VerifiedStablecoinIdentity.

Definition VERIFIED_STABLECOIN_IDENTITIES : list VerifiedStablecoinIdentity := [
  verifiedIdentity MAINNET USDC CIRCLE ETHEREUM "eip155:1"
    "0xa0b86991c6218b36c1d19d4a2e9eb0ce3606eb48" 6 CIRCLE_USDC_SOURCE;
  verifiedIdentity MAINNET USDC CIRCLE BASE "eip155:8453"
    "0x833589fcd6edb6e08f4c7c32d4f71b54bda02913" 6 CIRCLE_USDC_SOURCE;
  verifiedIdentity MAINNET USDC CIRCLE ARBITRUM "eip155:42161"
    "0xaf88d065e77c8cc2239327c5edb3a432268e5831" 6 CIRCLE_USDC_SOURCE;
  verifiedIdentity MAINNET USDC CIRCLE SOLANA "solana:5eykt4UsFv8P8NJdTREpY1vzqKqZKvdp"
    "EPjFWdd5AufqSSqeM2qN1xzybapC8G4wEGGkZwyTDt1v" 6 CIRCLE_USDC_SOURCE;
  verifiedIdentity MAINNET USDT TETHER ETHEREUM "eip155:1"
    "0xdac17f958d2ee523a2206206994597c13d831ec7" 6 TETHER_SOURCE;
  verifiedIdentity MAINNET USDT TETHER SOLANA "solana:5eykt4UsFv8P8NJdTREpY1vzqKqZKvdp"
    "Es9vMFrzaCERmJfrF4H2FYD4KCoNkY11McCe8BenwNYB" 6 TETHER_SOURCE;
  verifiedIdentity MAINNET PYUSD PAXOS ETHEREUM "eip155:1"
    "0x6c3ea9036406852006290770bedfcaba0e23a0e8" 6 PAXOS_PYUSD_MAINNET_SOURCE;
  verifiedIdentity MAINNET PYUSD PAXOS ARBITRUM "eip155:42161"
    "0x46850ad61c2b7d64d08c9c754f45254596696984" 6 PAXOS_PYUSD_MAINNET_SOURCE;
  verifiedIdentity MAINNET PYUSD PAXOS SOLANA "solana:5eykt4UsFv8P8NJdTREpY1vzqKqZKvdp"
    "2b1kV6DkPAnxd5ixfnxCpjxmKwqjjaYmCZfHsFu24GXo" 6 PAXOS_PYUSD_MAINNET_SOURCE;
  verifiedIdentity TESTNET USDC CIRCLE ETHEREUM "eip155:11155111"
    "0x1c7d4b196cb0c7b01d743fbc6116a902379c7238" 6 CIRCLE_USDC_SOURCE;
  verifiedIdentity TESTNET USDC CIRCLE BASE "eip155:84532"
    "0x036cbd53842c5426634e7929541ec2318f3dcf7e" 6 CIRCLE_USDC_SOURCE;
  verifiedIdentity TESTNET USDC CIRCLE ARBITRUM "eip155:421614"
    "0x75faf114eafb1bdbe2f0316df893fd58ce46aa4d" 6 CIRCLE_USDC_SOURCE;
  verifiedIdentity TESTNET USDC CIRCLE SOLANA "solana:EtWTRABZaYq6iMfeYKouRu166VU2xqa1"
    "4zMMC9srt5Ri5X14GAgXhaHii3GnPAEERYPJgZJDncDU" 6 CIRCLE_USDC_SOURCE;
  verifiedIdentity TESTNET PYUSD PAXOS ETHEREUM "eip155:11155111"
    "0xcac524bca292aaade2df8a05cc58f0a65b1b3bb9" 6 PAXOS_PYUSD_TESTNET_SOURCE;
  verifiedIdentity TESTNET PYUSD PAXOS ARBITRUM "eip155:421614"
    "0x637a1259c6afd7e3adf63993ca7e58bb438ab1b1" 6 PAXOS_PYUSD_TESTNET_SOURCE;
  verifiedIdentity TESTNET PYUSD PAXOS SOLANA "solana:EtWTRABZaYq6iMfeYKouRu166VU2xqa1"
    "CXk2AMBfi3TwaEL2468s6zP8xq9NxTXjp9gjMgzeUynM" 6 PAXOS_PYUSD_TESTNET_SOURCE].

(** ** Parsers *)

Definition parseEnvironment (value : jsval) : registry_result AssetRegistryEnvironment :=
  or_throw (enum_member enum_values value) INVALID_REGISTRY_ENVIRONMENT.
Definition parseChain (value : jsval) : registry_result SupportedChain :=
  or_throw (enum_member enum_values value) INVALID_CHAIN.
Definition parseStablecoin (value : jsval) : registry_result SupportedStablecoin :=
  or_throw (enum_member enum_values value) INVALID_STABLECOIN.
Definition parseActivationState (value : jsval) : registry_result RegistryActivationState :=
  or_throw (enum_member enum_values value) INVALID_ACTIVATION_STATE.

Definition parseVersion (value : jsval) : registry_result Z :=
  let* version := or_throw (safe_integer value) INVALID_REGISTRY_VERSION in
  reject INVALID_REGISTRY_VERSION when version <? 1 in
  Ok version.

(** [[a-z0-9]] *)
Definition is_lower_alnum (c : ascii) : bool := is_digit c || in_range 97 122 c.

(** One or more of the first class, a colon, one or more of the second. *)
Fixpoint colon_pair (p q : ascii -> bool) (started : bool) (s : string) : bool :=
  match s with
  | EmptyString => false
  | String c s' =>
      (started && is_char ":" c && negb (String.eqb s' "") && all_chars q s')
      || (p c && colon_pair p q true s')
  end.

(** [/^[a-z0-9]+:[A-Za-z0-9]+$/u] *)
Definition NETWORK_ID_PATTERN : string -> bool := colon_pair is_lower_alnum is_alnum false.

Definition parseNetworkId (value : jsval) : registry_result string :=
  match value with
  | VStr s =>
      if (strlen s <? 3) || (64 <? strlen s) || negb (NETWORK_ID_PATTERN s)
      then Err INVALID_NETWORK_ID else Ok s
  | _ => Err INVALID_NETWORK_ID
  end.

(** [[0-9a-fA-F]] *)
Definition is_hex_any (c : ascii) : bool := is_hex c || in_range 65 70 c.

(** [/^0x[0-9a-fA-F]{40}$/u] *)
Definition EVM_CONTRACT_PATTERN (s : string) : bool :=
  matches ([is_char "0"; is_char "x"] ++ replicate 40 is_hex_any) s.

(** [/^0x0{40}$/u] *)
Definition EVM_ZERO_PATTERN (s : string) : bool :=
  matches ([is_char "0"; is_char "x"] ++ replicate 40 (is_char "0")) s.

(** [[1-9A-HJ-NP-Za-km-z]] *)
Definition is_base58 (c : ascii) : bool :=
  is_digit19 c || in_range 65 72 c || in_range 74 78 c || in_range 80 90 c
  || in_range 97 107 c || in_range 109 122 c.

(** [/^[1-9A-HJ-NP-Za-km-z]{32,44}$/u] *)
Definition SOLANA_BASE58_PATTERN (s : string) : bool :=
  (32 <=? strlen s) && (strlen s <=? 44) && all_chars is_base58 s.

Definition SOLANA_ZERO_PUBLIC_KEY : string := "11111111111111111111111111111111".
Definition BASE58_ALPHABET : string := "123456789ABCDEFGHJKLMNPQRSTUVWXYZabcdefghijkmnopqrstuvwxyz".

(** [s.indexOf(c)], -1 when absent. *)
Fixpoint index_of (c : ascii) (s : string) : Z :=
  match s with
  | EmptyString => -1
  | String d s =>
      if Ascii.eqb c d then 0
      else let i := index_of c s in if i <? 0 then -1 else i + 1
  end.

(** The loop over the characters; [None] is the early return of -1. *)
Fixpoint base58_value (acc : Z) (s : string) : option Z :=
  match s with
  | EmptyString => Some acc
  | String c s =>
      let digit := index_of c BASE58_ALPHABET in
      if digit <? 0 then None else base58_value (acc * 58 + digit) s
  end.

(** [value.match(/^1*/u)[0].length] *)
Fixpoint leading_ones (s : string) : Z :=
  match s with
  | EmptyString => 0
  | String c s => if is_char "1" c then 1 + leading_ones s else 0
  end.

(** [n.toString(16).length] of a positive [n]. *)
Definition hex_length (n : Z) : Z := Z.log2 n / 4 + 1.

Definition solanaPublicKeyByteLength (value : string) : Z :=
  match base58_value 0 value with
  | None => -1
  | Some numericValue =>
      leading_ones value + (if numericValue =? 0 then 0 else (hex_length numericValue + 1) / 2)
  end.

Definition normalizeIdentity (kind : AssetIdentityKind) (value : jsval) : registry_result string :=
  match value with
  | VStr s =>
      match kind with
      | EVM_CONTRACT =>
          if negb (EVM_CONTRACT_PATTERN s) || EVM_ZERO_PATTERN s then Err INVALID_IDENTITY
          else Ok (toLowerCase s)
      | SOLANA_MINT =>
          if negb (SOLANA_BASE58_PATTERN s) || String.eqb s SOLANA_ZERO_PUBLIC_KEY
             || negb (solanaPublicKeyByteLength s =? 32)
          then Err INVALID_IDENTITY
          else Ok s
      end
  | _ => Err INVALID_IDENTITY
  end.

Definition expectedIssuerFor (stablecoin : SupportedStablecoin) : StablecoinIssuer :=
  match stablecoin with USDC => CIRCLE | USDT => TETHER | PYUSD => PAXOS end.

(** ** Compound keys *)

Definition NUL : string := String Ascii.zero "".
Definition key2 (a b : string) : string := a +:+ NUL +:+ b.

(** ** Snapshots *)

Definition reviewedNetworksFor (environment : AssetRegistryEnvironment) : list ReviewedNetwork :=
  List.filter (fun n => bool_decide (rn_environment n = environment)) REVIEWED_NETWORKS.

(** [xs.filter(p)] for a [p] that may throw. *)
Fixpoint filterr {E A} (p : A -> result E bool) (l : list A) : result E (list A) :=
  match l with
  | [] => Ok []
  | a :: l =>
      let* keep := p a in
      let* rest := filterr p l in
      Ok (if keep : bool then a :: rest else rest)
  end.

Definition same_place (environment : AssetRegistryEnvironment) (chain : SupportedChain)
    (networkId : string) (n : ReviewedNetwork) : bool :=
  bool_decide (rn_environment n = environment) && bool_decide (rn_chain n = chain)
  && String.eqb (rn_networkId n) networkId.

Definition verifiedIdentityCandidates (kind : AssetIdentityKind) (identity : string)
    : registry_result (list VerifiedStablecoinIdentity) :=
  filterr (fun candidate =>
    match List.find (same_place (vi_environment candidate) (vi_chain candidate) (vi_networkId candidate))
            REVIEWED_NETWORKS with
    | Some candidateNetwork =>
        if bool_decide (rn_identityKind candidateNetwork = kind)
        then let* normalized := normalizeIdentity kind (VStr (vi_identity candidate)) in
             Ok (String.eqb normalized identity)
        else Ok false
    | None => Ok false
    end) VERIFIED_STABLECOIN_IDENTITIES.

Record NetworkMaps : Type := {
  nm_networks : list SupportedNetwork;
  nm_byChain : list (SupportedChain * SupportedNetwork);
  nm_byNetworkId : list (string * SupportedNetwork);
}.

(** One turn of the loop over the network definitions. *)
Definition add_network (environment : AssetRegistryEnvironment) (m : NetworkMaps)
    (definition : SupportedNetworkDefinition) : registry_result NetworkMaps :=
  let* chain := parseChain (nd_chain definition) in
  let* networkId := parseNetworkId (nd_networkId definition) in
  let* activationState := parseActivationState (nd_activationState definition) in
  let* expected := or_throw
    (List.find (fun n => bool_decide (rn_chain n = chain) && String.eqb (rn_networkId n) networkId)
       (reviewedNetworksFor environment)) WRONG_NETWORK in
  reject DUPLICATE_NETWORK when
    bool_decide (is_Some (mget chain (nm_byChain m)))
    || bool_decide (is_Some (mget networkId (nm_byNetworkId m))) in
  let network := {| net_chain := chain; net_networkId := networkId;
    net_activationState := activationState; net_environment := environment;
    net_displayName := rn_displayName expected; net_identityKind := rn_identityKind expected |} in
  Ok {| nm_networks := nm_networks m ++ [network]; nm_byChain := mset chain network (nm_byChain m);
        nm_byNetworkId := mset networkId network (nm_byNetworkId m) |}.

(** A loop whose body may throw. *)
Fixpoint foldl_err {E A B} (f : B -> A -> result E B) (l : list A) (b : B) : result E B :=
  match l with
  | [] => Ok b
  | a :: l => let* b' := f b a in foldl_err f l b'
  end.

Definition validateNetworkDefinitions (environment : AssetRegistryEnvironment)
    (definitions : list SupportedNetworkDefinition) : registry_result NetworkMaps :=
  let* m := foldl_err (add_network environment) definitions
              {| nm_networks := []; nm_byChain := []; nm_byNetworkId := [] |} in
  reject MISSING_TARGET_NETWORK when
    negb (length (nm_networks m) =? length (enum_values (A := SupportedChain)))%nat
    || existsb (fun chain => negb (bool_decide (is_Some (mget chain (nm_byChain m)))))
         (enum_values (A := SupportedChain)) in
  Ok m.

Definition validateAssetDefinition (version : Z) (environment : AssetRegistryEnvironment)
    (definition : StablecoinAssetDefinition)
    (networkByChain : list (SupportedChain * SupportedNetwork))
    : registry_result SupportedStablecoinAsset :=
  let* stablecoin := parseStablecoin (ad_stablecoin definition) in
  let* chain := parseChain (ad_chain definition) in
  let* networkId := parseNetworkId (ad_networkId definition) in
  let* activationState := parseActivationState (ad_activationState definition) in
  let* network := or_throw (mget chain networkByChain) WRONG_NETWORK in
  reject WRONG_NETWORK when negb (String.eqb (net_networkId network) networkId) in
  reject ACTIVE_ASSET_ON_INACTIVE_NETWORK when
    bool_decide (activationState = ACTIVE) && negb (bool_decide (net_activationState network = ACTIVE)) in
  let* identity := normalizeIdentity (net_identityKind network) (ad_identity definition) in
  let* candidates := verifiedIdentityCandidates (net_identityKind network) identity in
  reject UNVERIFIED_IDENTITY when (length candidates =? 0)%nat in
  let* networkCandidate := or_throw
    (List.find (fun c => bool_decide (vi_environment c = environment)
                         && bool_decide (vi_chain c = chain) && String.eqb (vi_networkId c) networkId)
       candidates) WRONG_NETWORK in
  reject IDENTITY_STABLECOIN_MISMATCH when negb (bool_decide (vi_stablecoin networkCandidate = stablecoin)) in
  let* decimals := or_throw (safe_integer (ad_decimals definition)) INVALID_DECIMALS in
  reject INVALID_DECIMALS when negb (decimals =? vi_decimals networkCandidate) in
  Ok {| asset_registryVersion := version; asset_stablecoin := stablecoin;
        asset_issuer := vi_issuer networkCandidate; asset_chain := chain;
        asset_networkId := networkId; asset_identityKind := net_identityKind network;
        asset_identity := identity;
        asset_qualifiedIdentity :=
          networkId +:+ "/" +:+ toLowerCase (enum_str (net_identityKind network)) +:+ ":" +:+ identity;
        asset_decimals := vi_decimals networkCandidate;
        asset_activationState := activationState;
        asset_verificationSource := vi_verificationSource networkCandidate |}.

Definition compareCanonical (left right : string) : Z :=
  if str_lt left right then -1 else if str_lt right left then 1 else 0.

Definition network_sort_key (n : SupportedNetwork) : string :=
  key2 (net_networkId n) (enum_str (net_chain n)).
Definition asset_sort_key (a : SupportedStablecoinAsset) : string :=
  asset_networkId a +:+ NUL +:+ key2 (enum_str (asset_stablecoin a)) (asset_identity a).

Definition network_json (n : SupportedNetwork) : json :=
  JArray [JString (enum_str (net_chain n)); JString (net_networkId n);
          JString (enum_str (net_activationState n)); JString (enum_str (net_environment n));
          JString (net_displayName n); JString (enum_str (net_identityKind n))].

Definition asset_json (a : SupportedStablecoinAsset) : json :=
  JArray [JNumber (asset_registryVersion a); JString (enum_str (asset_stablecoin a));
          JString (enum_str (asset_issuer a)); JString (enum_str (asset_chain a));
          JString (asset_networkId a); JString (enum_str (asset_identityKind a));
          JString (asset_identity a); JString (asset_qualifiedIdentity a);
          JNumber (asset_decimals a); JString (enum_str (asset_activationState a));
          JString (asset_verificationSource a)].

(** What [fingerprintSnapshot] hashes. *)
Definition snapshot_json (version : Z) (environment : AssetRegistryEnvironment)
    (networks : list SupportedNetwork) (assets : list SupportedStablecoinAsset) : json :=
  JArray [JString "crypto-lending:supported-asset-registry-snapshot:v1"; JNumber version;
          JString (enum_str environment);
          JArray (network_json <$> js_sort (fun l r => compareCanonical (network_sort_key l)
                                                         (network_sort_key r)) networks);
          JArray (asset_json <$> js_sort (fun l r => compareCanonical (asset_sort_key l)
                                                       (asset_sort_key r)) assets)].

Definition identity_key (a : SupportedStablecoinAsset) : string :=
  key2 (asset_networkId a) (asset_identity a).
Definition asset_key (a : SupportedStablecoinAsset) : string :=
  key2 (asset_networkId a) (enum_str (asset_stablecoin a)).

(** The loop over the asset definitions with its two sets of keys. *)
Fixpoint validate_assets (version : Z) (environment : AssetRegistryEnvironment)
    (byChain : list (SupportedChain * SupportedNetwork)) (identityKeys assetKeys : list string)
    (definitions : list StablecoinAssetDefinition)
    : registry_result (list SupportedStablecoinAsset) :=
  match definitions with
  | [] => Ok []
  | definition :: definitions =>
      let* asset := validateAssetDefinition version environment definition byChain in
      reject DUPLICATE_ASSET when
        existsb (String.eqb (asset_key asset)) assetKeys
        || existsb (String.eqb (identity_key asset)) identityKeys in
      let* assets := validate_assets version environment byChain
        (identity_key asset :: identityKeys) (asset_key asset :: assetKeys) definitions in
      Ok (asset :: assets)
  end.

Definition identifyAsset (snapshot : SupportedAssetRegistrySnapshot)
    (networkIdInput identityInput : string) : option SupportedStablecoinAsset :=
  match mget networkIdInput (snap_byNetworkId snapshot) with
  | None => None
  | Some network =>
      match normalizeIdentity (net_identityKind network) (VStr identityInput) with
      | Err _ => None
      | Ok identity => mget (key2 (net_networkId network) identity) (snap_assetByIdentity snapshot)
      end
  end.

Definition network_of (snapshot : SupportedAssetRegistrySnapshot) (networkId : string)
    : option SupportedNetwork :=
  List.find (fun n => String.eqb (net_networkId n) networkId) (snap_networks snapshot).

Section fingerprints.
(** [createHash('sha256')] from bytes to a lower-case hexadecimal digest. *)
Variable sha256 : string -> string.

Definition fingerprintSnapshot (version : Z) (environment : AssetRegistryEnvironment)
    (networks : list SupportedNetwork) (assets : list SupportedStablecoinAsset) : string :=
  sha256 (utf8 (stringify (snapshot_json version environment networks assets))).

Definition createSupportedAssetRegistrySnapshot
    (definition : SupportedAssetRegistrySnapshotDefinition)
    : registry_result SupportedAssetRegistrySnapshot :=
  let* version := parseVersion (sd_version definition) in
  let* environment := parseEnvironment (sd_environment definition) in
  let* validatedNetworks := validateNetworkDefinitions environment (sd_networks definition) in
  let* assets := validate_assets version environment (nm_byChain validatedNetworks) [] []
                   (sd_assets definition) in
  Ok {| snap_version := version; snap_environment := environment;
        snap_fingerprintSha256 :=
          fingerprintSnapshot version environment (nm_networks validatedNetworks) assets;
        snap_networks := nm_networks validatedNetworks; snap_assets := assets;
        snap_byNetworkId := nm_byNetworkId validatedNetworks;
        snap_assetByIdentity := mofl ((fun a => (identity_key a, a)) <$> assets) |}.

Definition createVersionedSupportedAssetRegistry
    (definitions : list SupportedAssetRegistrySnapshotDefinition)
    : registry_result VersionedSupportedAssetRegistry :=
  reject EMPTY_REGISTRY_HISTORY when (length definitions =? 0)%nat in
  let* snapshots := mapr createSupportedAssetRegistrySnapshot definitions in
  let* first := or_throw (head snapshots) EMPTY_REGISTRY_HISTORY in
  let environment := snap_environment first in
  reject MIXED_REGISTRY_ENVIRONMENTS when
    existsb (fun s => negb (bool_decide (snap_environment s = environment))) snapshots in
  reject NON_SEQUENTIAL_REGISTRY_VERSION when
    existsb (fun iv => negb (iv.2 =? Z.of_nat iv.1 + 1))
      (imap (fun i s => (i, snap_version s)) snapshots) in
  let* latest := or_throw (last snapshots) EMPTY_REGISTRY_HISTORY in
  Ok {| reg_environment := environment; reg_versions := snap_version <$> snapshots;
        reg_latest := latest;
        reg_byVersion := mofl ((fun s => (snap_version s, s)) <$> snapshots) |}.
End fingerprints.

Definition atVersion (registry : VersionedSupportedAssetRegistry) (version : Z)
    : option SupportedAssetRegistrySnapshot :=
  mget version (reg_byVersion registry).

Definition identifyAssetAtVersion (registry : VersionedSupportedAssetRegistry) (versionInput : jsval)
    (networkId identity : string) : registry_result (option SupportedStablecoinAsset) :=
  let* version := parseVersion versionInput in
  let* snapshot := or_throw (atVersion registry version) UNKNOWN_REGISTRY_VERSION in
  Ok (identifyAsset snapshot networkId identity).

Definition normalizeAsset (registry : VersionedSupportedAssetRegistry) (networkId identity : string)
    : option SupportedStablecoinAsset :=
  match identifyAsset (reg_latest registry) networkId identity,
        network_of (reg_latest registry) networkId with
  | Some asset, Some network =>
      if bool_decide (asset_activationState asset = ACTIVE)
         && bool_decide (net_activationState network = ACTIVE)
      then Some asset else None
  | _, _ => None
  end.

(** ** The shipped registries *)

Definition manifest_matches (environment : AssetRegistryEnvironment)
    (entry : RegistryAssetManifestEntry) (candidate : VerifiedStablecoinIdentity) : bool :=
  bool_decide (vi_environment candidate = environment)
  && bool_decide (vi_stablecoin candidate = me_stablecoin entry)
  && bool_decide (vi_issuer candidate = me_issuer entry)
  && bool_decide (vi_chain candidate = me_chain entry)
  && String.eqb (vi_networkId candidate) (me_networkId entry)
  && String.eqb (vi_identity candidate) (me_identity entry)
  && (vi_decimals candidate =? me_decimals entry)
  && String.eqb (vi_verificationSource candidate) (me_verificationSource entry).

Definition assetDefinitionsFromManifest (environment : AssetRegistryEnvironment)
    (manifest : list RegistryAssetManifestEntry) : registry_result (list StablecoinAssetDefinition) :=
  mapr (fun entry =>
    let matches := List.filter (manifest_matches environment entry) VERIFIED_STABLECOIN_IDENTITIES in
    reject UNVERIFIED_IDENTITY when (length matches =? 0)%nat in
    reject DUPLICATE_ASSET when negb (length matches =? 1)%nat in
    Ok {| ad_stablecoin := VStr (enum_str (me_stablecoin entry));
          ad_chain := VStr (enum_str (me_chain entry));
          ad_networkId := VStr (me_networkId entry);
          ad_identity := VStr (me_identity entry);
          ad_decimals := VNum (JInt (me_decimals entry));
          ad_activationState := VStr (enum_str (me_activationState entry)) |}) manifest.

Definition network_definition (chain : SupportedChain) (networkId : string) : SupportedNetworkDefinition :=
  {| nd_chain := VStr (enum_str chain); nd_networkId := VStr networkId;
     nd_activationState := VStr "ACTIVE" |}.

Definition MAINNET_V1_NETWORK_DEFINITIONS : list SupportedNetworkDefinition := [
  network_definition ETHEREUM "eip155:1"; network_definition BASE "eip155:8453";
  network_definition ARBITRUM "eip155:42161";
  network_definition SOLANA "solana:5eykt4UsFv8P8NJdTREpY1vzqKqZKvdp"].

Definition TESTNET_V1_NETWORK_DEFINITIONS : list SupportedNetworkDefinition := [
  network_definition ETHEREUM "eip155:11155111"; network_definition BASE "eip155:84532";
  network_definition ARBITRUM "eip155:421614";
  network_definition SOLANA "solana:EtWTRABZaYq6iMfeYKouRu166VU2xqa1"].

Definition manifest_entry stablecoin issuer chain networkId identity source :=
  {| me_stablecoin := stablecoin; me_issuer := issuer; me_chain := chain;
     me_networkId := networkId; me_identity := identity; me_decimals := 6;
     me_activationState := ACTIVE; me_verificationSource := source |}.

Definition MAINNET_V1_ASSET_MANIFEST : list RegistryAssetManifestEntry := [
  manifest_entry USDC CIRCLE ETHEREUM "eip155:1"
    "0xa0b86991c6218b36c1d19d4a2e9eb0ce3606eb48" CIRCLE_USDC_SOURCE;
  manifest_entry USDC CIRCLE BASE "eip155:8453"
    "0x833589fcd6edb6e08f4c7c32d4f71b54bda02913" CIRCLE_USDC_SOURCE;
  manifest_entry USDC CIRCLE ARBITRUM "eip155:42161"
    "0xaf88d065e77c8cc2239327c5edb3a432268e5831" CIRCLE_USDC_SOURCE;
  manifest_entry USDC CIRCLE SOLANA "solana:5eykt4UsFv8P8NJdTREpY1vzqKqZKvdp"
    "EPjFWdd5AufqSSqeM2qN1xzybapC8G4wEGGkZwyTDt1v" CIRCLE_USDC_SOURCE;
  manifest_entry USDT TETHER ETHEREUM "eip155:1"
    "0xdac17f958d2ee523a2206206994597c13d831ec7" TETHER_SOURCE;
  manifest_entry USDT TETHER SOLANA "solana:5eykt4UsFv8P8NJdTREpY1vzqKqZKvdp"
    "Es9vMFrzaCERmJfrF4H2FYD4KCoNkY11McCe8BenwNYB" TETHER_SOURCE;
  manifest_entry PYUSD PAXOS ETHEREUM "eip155:1"
    "0x6c3ea9036406852006290770bedfcaba0e23a0e8" PAXOS_PYUSD_MAINNET_SOURCE;
  manifest_entry PYUSD PAXOS ARBITRUM "eip155:42161"
    "0x46850ad61c2b7d64d08c9c754f45254596696984" PAXOS_PYUSD_MAINNET_SOURCE;
  manifest_entry PYUSD PAXOS SOLANA "solana:5eykt4UsFv8P8NJdTREpY1vzqKqZKvdp"
    "2b1kV6DkPAnxd5ixfnxCpjxmKwqjjaYmCZfHsFu24GXo" PAXOS_PYUSD_MAINNET_SOURCE].

Definition TESTNET_V1_ASSET_MANIFEST : list RegistryAssetManifestEntry := [
  manifest_entry USDC CIRCLE ETHEREUM "eip155:11155111"
    "0x1c7d4b196cb0c7b01d743fbc6116a902379c7238" CIRCLE_USDC_SOURCE;
  manifest_entry USDC CIRCLE BASE "eip155:84532"
    "0x036cbd53842c5426634e7929541ec2318f3dcf7e" CIRCLE_USDC_SOURCE;
  manifest_entry USDC CIRCLE ARBITRUM "eip155:421614"
    "0x75faf114eafb1bdbe2f0316df893fd58ce46aa4d" CIRCLE_USDC_SOURCE;
  manifest_entry USDC CIRCLE SOLANA "solana:EtWTRABZaYq6iMfeYKouRu166VU2xqa1"
    "4zMMC9srt5Ri5X14GAgXhaHii3GnPAEERYPJgZJDncDU" CIRCLE_USDC_SOURCE;
  manifest_entry PYUSD PAXOS ETHEREUM "eip155:11155111"
    "0xcac524bca292aaade2df8a05cc58f0a65b1b3bb9" PAXOS_PYUSD_TESTNET_SOURCE;
  manifest_entry PYUSD PAXOS ARBITRUM "eip155:421614"
    "0x637a1259c6afd7e3adf63993ca7e58bb438ab1b1" PAXOS_PYUSD_TESTNET_SOURCE;
  manifest_entry PYUSD PAXOS SOLANA "solana:EtWTRABZaYq6iMfeYKouRu166VU2xqa1"
    "CXk2AMBfi3TwaEL2468s6zP8xq9NxTXjp9gjMgzeUynM" PAXOS_PYUSD_TESTNET_SOURCE].

Definition first_version (environment : AssetRegistryEnvironment)
    (networks : list SupportedNetworkDefinition) (assets : list StablecoinAssetDefinition)
    : SupportedAssetRegistrySnapshotDefinition :=
  {| sd_version := VNum (JInt 1); sd_environment := VStr (enum_str environment);
     sd_networks := networks; sd_assets := assets |}.

(** Evaluated when the module is loaded: an error aborts the process. *)
Definition MAINNET_SUPPORTED_ASSET_REGISTRY (sha256 : string -> string)
    : registry_result VersionedSupportedAssetRegistry :=
  let* assets := assetDefinitionsFromManifest MAINNET MAINNET_V1_ASSET_MANIFEST in
  createVersionedSupportedAssetRegistry sha256
    [first_version MAINNET MAINNET_V1_NETWORK_DEFINITIONS assets].

Definition TESTNET_SUPPORTED_ASSET_REGISTRY (sha256 : string -> string)
    : registry_result VersionedSupportedAssetRegistry :=
  let* assets := assetDefinitionsFromManifest TESTNET TESTNET_V1_ASSET_MANIFEST in
  createVersionedSupportedAssetRegistry sha256
    [first_version TESTNET TESTNET_V1_NETWORK_DEFINITIONS assets].

Definition supportedAssetRegistryForEnvironment (sha256 : string -> string)
    (environmentInput : jsval) : registry_result VersionedSupportedAssetRegistry :=
  let* environment := parseEnvironment environmentInput in
  match environment with
  | MAINNET => MAINNET_SUPPORTED_ASSET_REGISTRY sha256
  | TESTNET => TESTNET_SUPPORTED_ASSET_REGISTRY sha256
  end.

(** ** The closed verification catalogue *)

(** The catalogue as the check sees it: data whose fields are re-validated. *)
Record CatalogNetwork : Type := {
  cn_environment : jsval;
  cn_chain : jsval;
  cn_networkId : jsval;
  cn_displayName : string;
  cn_identityKind : jsval;
}.

Record CatalogIdentity : Type := {
  ci_environment : jsval;
  ci_stablecoin : jsval;
  ci_issuer : jsval;
  ci_chain : jsval;
  ci_networkId : jsval;
  ci_identity : jsval;
  ci_decimals : jsval;
  ci_verificationSource : jsval;
}.

(** [new URL(value)]: the parts the check reads, [None] when it throws. *)
Record url : Type := {
  protocol : string;
  hostname : string;
  username : string;
  password : string;
}.

Record CatalogState : Type := {
  cs_networkByCandidateKey : list (string * CatalogNetwork);
  cs_networkIds : list string;
  cs_environmentChainSlots : list string;
}.

Definition has (keys : list string) (k : string) : bool := existsb (String.eqb k) keys.

(** A character [trim] removes. *)
Definition is_space (c : ascii) : bool := in_range 9 13 c || (code c =? 32) || (code c =? 160).

Definition add_catalog_network (st : CatalogState) (network : CatalogNetwork)
    : registry_result CatalogState :=
  let* environment := parseEnvironment (cn_environment network) in
  let* chain := parseChain (cn_chain network) in
  let* networkId := parseNetworkId (cn_networkId network) in
  let environmentChainKey := key2 (enum_str environment) (enum_str chain) in
  let candidateKey := key2 environmentChainKey networkId in
  reject DUPLICATE_NETWORK when
    bool_decide (is_Some (mget candidateKey (cs_networkByCandidateKey st)))
    || has (cs_networkIds st) networkId in
  let expectedIdentityKind := match chain with SOLANA => SOLANA_MINT | _ => EVM_CONTRACT end in
  reject WRONG_NETWORK when
    negb (bool_decide (enum_member enum_values (cn_identityKind network) = Some expectedIdentityKind))
    || all_chars is_space (cn_displayName network) in
  Ok {| cs_networkByCandidateKey := mset candidateKey network (cs_networkByCandidateKey st);
        cs_networkIds := networkId :: cs_networkIds st;
        cs_environmentChainSlots := environmentChainKey :: cs_environmentChainSlots st |}.

Section catalog.
Variable URL : string -> option url.

Definition isHttpsVerificationSource (value : jsval) : bool :=
  match value with
  | VStr s =>
      match URL s with
      | None => false
      | Some source =>
          String.eqb (protocol source) "https:" && negb (String.eqb (hostname source) "")
          && String.eqb (username source) "" && String.eqb (password source) ""
      end
  | _ => false
  end.

Definition add_catalog_identity (networks : list (string * CatalogNetwork))
    (identityKeys : list string) (candidate : CatalogIdentity) : registry_result (list string) :=
  let* environment := parseEnvironment (ci_environment candidate) in
  let* stablecoin := parseStablecoin (ci_stablecoin candidate) in
  let* chain := parseChain (ci_chain candidate) in
  let* networkId := parseNetworkId (ci_networkId candidate) in
  let* network := or_throw
    (mget (key2 (key2 (enum_str environment) (enum_str chain)) networkId) networks) WRONG_NETWORK in
  reject IDENTITY_STABLECOIN_MISMATCH when
    negb (bool_decide (enum_member enum_values (ci_issuer candidate) = Some (expectedIssuerFor stablecoin))) in
  let* kind := or_throw (enum_member enum_values (cn_identityKind network)) INVALID_IDENTITY in
  let* identity := normalizeIdentity kind (ci_identity candidate) in
  reject INVALID_IDENTITY when
    negb (match ci_identity candidate with VStr s => String.eqb identity s | _ => false end) in
  let* decimals := or_throw (safe_integer (ci_decimals candidate)) INVALID_DECIMALS in
  reject INVALID_DECIMALS when (decimals <? 0) || (36 <? decimals) in
  reject UNVERIFIED_IDENTITY when negb (isHttpsVerificationSource (ci_verificationSource candidate)) in
  let identityKey := enum_str environment +:+ NUL +:+ key2 networkId identity in
  reject DUPLICATE_ASSET when has identityKeys identityKey in
  Ok (identityKey :: identityKeys).

Definition validateClosedVerificationCatalog (networks : list CatalogNetwork)
    (identities : list CatalogIdentity) : registry_result unit :=
  let* st := foldl_err add_catalog_network networks
    {| cs_networkByCandidateKey := []; cs_networkIds := []; cs_environmentChainSlots := [] |} in
  reject MISSING_TARGET_NETWORK when
    existsb (fun environment =>
      existsb (fun chain => negb (has (cs_environmentChainSlots st)
                                      (key2 (enum_str environment) (enum_str chain))))
        (enum_values (A := SupportedChain))) (enum_values (A := AssetRegistryEnvironment)) in
  let* _ := foldl_err (add_catalog_identity (cs_networkByCandidateKey st)) identities [] in
  Ok tt.
End catalog.

Definition catalog_network (n : ReviewedNetwork) : CatalogNetwork :=
  {| cn_environment := VStr (enum_str (rn_environment n)); cn_chain := VStr (enum_str (rn_chain n));
     cn_networkId := VStr (rn_networkId n); cn_displayName := rn_displayName n;
     cn_identityKind := VStr (enum_str (rn_identityKind n)) |}.

Definition catalog_identity (i : VerifiedStablecoinIdentity) : CatalogIdentity :=
  {| ci_environment := VStr (enum_str (vi_environment i));
     ci_stablecoin := VStr (enum_str (vi_stablecoin i));
     ci_issuer := VStr (enum_str (vi_issuer i)); ci_chain := VStr (enum_str (vi_chain i));
     ci_networkId := VStr (vi_networkId i); ci_identity := VStr (vi_identity i);
     ci_decimals := VNum (JInt (vi_decimals i));
     ci_verificationSource := VStr (vi_verificationSource i) |}.

(** ** Specification *)

(** An issuer-verified identity of the catalogue. *)
Definition verified_asset (environment : AssetRegistryEnvironment) (a : SupportedStablecoinAsset)
    : Prop :=
  exists v, v ∈ VERIFIED_STABLECOIN_IDENTITIES /\ vi_environment v = environment /\
    vi_stablecoin v = asset_stablecoin a /\ vi_issuer v = asset_issuer a /\
    vi_chain v = asset_chain a /\ vi_networkId v = asset_networkId a /\
    vi_decimals v = asset_decimals a /\ vi_verificationSource v = asset_verificationSource a /\
    normalizeIdentity (asset_identityKind a) (VStr (vi_identity v)) = Ok (asset_identity a).

Definition reviewed_network (environment : AssetRegistryEnvironment) (n : SupportedNetwork) : Prop :=
  net_environment n = environment /\
  exists r, r ∈ REVIEWED_NETWORKS /\ rn_environment r = environment /\ rn_chain r = net_chain n /\
    rn_networkId r = net_networkId n /\ rn_displayName r = net_displayName n /\
    rn_identityKind r = net_identityKind n.

Record snapshot_wf (s : SupportedAssetRegistrySnapshot) : Prop := {
  (** One reviewed network per supported chain, with distinct ids. *)
  sw_chains : (net_chain <$> snap_networks s) ≡ₚ enum_values (A := SupportedChain);
  sw_networkIds : NoDup (net_networkId <$> snap_networks s);
  sw_networks : Forall (reviewed_network (snap_environment s)) (snap_networks s);
  (** Verified assets on their network, active only where the network is. *)
  sw_assets : forall a, a ∈ snap_assets s ->
    verified_asset (snap_environment s) a /\ asset_registryVersion a = snap_version s /\
    exists n, n ∈ snap_networks s /\ net_chain n = asset_chain a /\
      net_networkId n = asset_networkId a /\ net_identityKind n = asset_identityKind a /\
      (asset_activationState a = ACTIVE -> net_activationState n = ACTIVE);
  (** No identity twice on a network, and no stablecoin twice. *)
  sw_identities : NoDup ((fun a => (asset_networkId a, asset_identity a)) <$> snap_assets s);
  sw_stablecoins : NoDup ((fun a => (asset_networkId a, asset_stablecoin a)) <$> snap_assets s);
}.

(** ** Lemmas: strings *)

Definition nul_free (s : string) : bool := all_chars (fun c => negb (Ascii.eqb c Ascii.zero)) s.

Lemma nul_split a b r r' :
  nul_free a = true -> nul_free b = true -> a +:+ NUL +:+ r = b +:+ NUL +:+ r' -> a = b /\ r = r'.
Proof.
  unfold nul_free, NUL. revert b. induction a as [|c a IH]; intros [|d b]; simpl.
  - intros _ _ [= H]. by split.
  - intros _ [H _]%andb_true_iff [= <- _]. discriminate.
  - intros [H _]%andb_true_iff _ [= -> _]. discriminate.
  - intros [_ Ha]%andb_true_iff [_ Hb]%andb_true_iff [= -> H].
    by destruct (IH b Ha Hb H) as [-> ->].
Qed.

Lemma key2_inj a b a' b' :
  nul_free a = true -> nul_free a' = true -> key2 a b = key2 a' b' -> a = a' /\ b = b'.
Proof. apply nul_split. Qed.

Lemma colon_pair_chars p q b s :
  colon_pair p q b s = true -> all_chars (fun c => p c || is_char ":" c || q c) s = true.
Proof.
  revert b. induction s as [|c s IH]; intros b; cbn [colon_pair all_chars]; [done|].
  intros [[[[_ Hc]%andb_true_iff _]%andb_true_iff Hs]%andb_true_iff
         |[Hc Hs]%andb_true_iff]%orb_true_iff.
  - rewrite Hc, orb_true_r. cbn [andb orb]. eapply all_chars_impl; [|exact Hs].
    intros d ->. by rewrite orb_true_r.
  - rewrite Hc. cbn [andb orb]. eauto.
Qed.

Lemma parseNetworkId_ok v s : parseNetworkId v = Ok s -> v = VStr s /\ nul_free s = true.
Proof.
  unfold parseNetworkId. destruct v; try done. destruct (_ || _) eqn:E; [done|]. intros [= <-].
  split; [done|]. bsimpl. apply colon_pair_chars in H0. eapply all_chars_impl; [|exact H0].
  intros c Hc. destruct (Ascii.eqb_spec c Ascii.zero) as [->|]; [discriminate Hc | done].
Qed.

Lemma chain_nul_free (c : SupportedChain) : nul_free (enum_str c) = true.
Proof. by destruct c. Qed.
Lemma stablecoin_nul_free (c : SupportedStablecoin) : nul_free (enum_str c) = true.
Proof. by destruct c. Qed.

(** ** Lemmas: networks *)

Lemma foldl_err_inv {E A B} (P : B -> Prop) (f : B -> A -> result E B) l b b' :
  (forall b a b', P b -> f b a = Ok b' -> P b') -> P b -> foldl_err f l b = Ok b' -> P b'.
Proof.
  intros Hf. revert b. induction l as [|a l IH]; intros b Hb; simpl; [by intros [= <-]|].
  intros (b1 & H1 & H)%rbind_ok. eauto.
Qed.

(** The maps hold the listed networks, each under its chain and its id. *)
Record maps_ok (environment : AssetRegistryEnvironment) (m : NetworkMaps) : Prop := {
  mo_chain : nm_byChain m = (fun n => (net_chain n, n)) <$> nm_networks m;
  mo_id : nm_byNetworkId m = (fun n => (net_networkId n, n)) <$> nm_networks m;
  mo_chains : NoDup (net_chain <$> nm_networks m);
  mo_ids : NoDup (net_networkId <$> nm_networks m);
  mo_reviewed : Forall (reviewed_network environment) (nm_networks m);
  mo_nul : Forall (fun n => nul_free (net_networkId n) = true) (nm_networks m);
}.

Lemma not_some {A} (o : option A) : bool_decide (is_Some o) = false -> o = None.
Proof. intros H%bool_decide_eq_false. destruct o; [|done]. exfalso. apply H. eauto. Qed.

Lemma keys_fst {A K} (f : A -> K) (l : list A) : ((fun a => (f a, a)) <$> l).*1 = f <$> l.
Proof. rewrite <- list_fmap_compose. done. Qed.

Lemma NoDup_snoc {A} (l : list A) a : NoDup l -> a ∉ l -> NoDup (l ++ [a]).
Proof.
  intros Hl Ha. apply NoDup_app. split; [done|]. split; [|apply NoDup_singleton].
  intros x Hx ->%list_elem_of_singleton. done.
Qed.

Lemma add_network_ok environment m d m' :
  maps_ok environment m -> add_network environment m d = Ok m' -> maps_ok environment m'.
Proof.
  intros [Hc Hi Hcs His Hr Hn] H. unfold add_network in H. inv_ok. subst m'.
  apply orb_false_iff in Hg as [Hg1%not_some Hg2%not_some].
  rewrite Hc in Hg1. rewrite Hi in Hg2. apply mget_None in Hg1, Hg2. rewrite keys_fst in Hg1. rewrite keys_fst in Hg2.
  apply parseNetworkId_ok in Hr1 as [_ Hnul].
  apply List.find_some in Hr3 as [Hin Hr3]. apply andb_true_iff in Hr3 as [Hr3 Hr4%String.eqb_eq].
  apply bool_decide_eq_true in Hr3. apply List.filter_In in Hin as [Hin He%bool_decide_eq_true].
  assert (reviewed_network environment
            {| net_chain := r; net_networkId := r0; net_activationState := r1;
               net_environment := environment; net_displayName := rn_displayName r2;
               net_identityKind := rn_identityKind r2 |}) as Hnew.
  { split; [done|]. exists r2. apply list_elem_of_In in Hin. eauto 10. }
  split; cbn [nm_networks nm_byChain nm_byNetworkId].
  - rewrite Hc, mset_absent, fmap_app by (by rewrite keys_fst). done.
  - rewrite Hi, mset_absent, fmap_app by (by rewrite keys_fst). done.
  - rewrite fmap_app. by apply NoDup_snoc.
  - rewrite fmap_app. by apply NoDup_snoc.
  - apply Forall_app. split; [done | by apply Forall_singleton].
  - apply Forall_app. split; [done | by apply Forall_singleton].
Qed.

Lemma validateNetworks_ok environment ds m :
  validateNetworkDefinitions environment ds = Ok m ->
  maps_ok environment m /\ (net_chain <$> nm_networks m) ≡ₚ enum_values (A := SupportedChain).
Proof.
  unfold validateNetworkDefinitions. intros H. inv_ok. subst m.
  assert (maps_ok environment r) as Hm.
  { eapply (foldl_err_inv (maps_ok environment)); [apply add_network_ok| |exact Hr].
    split; repeat constructor. }
  split; [done|]. apply orb_false_iff in Hg as [Hl%negb_false_iff%Nat.eqb_eq Hc].
  symmetry. apply submseteq_length_Permutation; [|by rewrite length_fmap, Hl].
  apply NoDup_submseteq; [repeat constructor; set_solver|]. intros c Hin.
  destruct (decide (c ∈ net_chain <$> nm_networks r)) as [|Hno]; [done|]. exfalso.
  assert (mget c (nm_byChain r) = None) as Hnone.
  { apply mget_None. rewrite (mo_chain _ _ Hm), keys_fst. done. }
  cbn [enum_values SUPPORTED_CHAINS existsb] in Hc. rewrite !orb_false_iff in Hc.
  destruct Hc as (H1 & H2 & H3 & H4 & _).
  destruct c; rewrite Hnone in *; discriminate.
Qed.

(** ** Lemmas: assets *)

Lemma filterr_ok {E A} (p : A -> result E bool) l l' a :
  filterr p l = Ok l' -> a ∈ l' -> a ∈ l /\ p a = Ok true.
Proof.
  revert l'. induction l as [|x l IH]; simpl; intros l' H Ha.
  - injection H as <-. by apply elem_of_nil in Ha.
  - inv_ok. subst l'. destruct r; [apply elem_of_cons in Ha as [->|Ha]; [by split; [left|]|]|];
      destruct (IH _ Hr0 Ha) as [? ?]; split; [by right | done | by right | done].
Qed.

Lemma candidates_ok kind identity cs c :
  verifiedIdentityCandidates kind identity = Ok cs -> c ∈ cs ->
  c ∈ VERIFIED_STABLECOIN_IDENTITIES /\ normalizeIdentity kind (VStr (vi_identity c)) = Ok identity.
Proof.
  intros H Hc. destruct (filterr_ok _ _ _ _ H Hc) as [Hin Hp]. split; [done|].
  destruct (List.find _ _); [|done]. case_bool_decide; [|done]. inv_ok.
  by match goal with E : String.eqb _ _ = true |- _ => apply String.eqb_eq in E; subst end.
Qed.

(** What a validated asset is, given the networks by chain. *)
Definition asset_ok (version : Z) (environment : AssetRegistryEnvironment)
    (byChain : list (SupportedChain * SupportedNetwork)) (a : SupportedStablecoinAsset) : Prop :=
  verified_asset environment a /\ asset_registryVersion a = version /\
  nul_free (asset_networkId a) = true /\
  (exists v, normalizeIdentity (asset_identityKind a) v = Ok (asset_identity a)) /\
  exists n, mget (asset_chain a) byChain = Some n /\ net_networkId n = asset_networkId a /\
    net_identityKind n = asset_identityKind a /\
    (asset_activationState a = ACTIVE -> net_activationState n = ACTIVE).

Lemma validateAsset_ok version environment d byChain a :
  validateAssetDefinition version environment d byChain = Ok a ->
  asset_ok version environment byChain a.
Proof.
  unfold validateAssetDefinition. intros H. inv_ok. subst a. unfold asset_ok.
  cbn [asset_registryVersion asset_networkId asset_identityKind asset_identity asset_chain
       asset_activationState].
  apply List.find_some in Hr6 as [Hin Hb]. apply andb_true_iff in Hb as [Hb Hid%String.eqb_eq].
  apply andb_true_iff in Hb as [He%bool_decide_eq_true Hc%bool_decide_eq_true].
  apply list_elem_of_In in Hin. destruct (candidates_ok _ _ _ _ Hr5 Hin) as [Hv Hn].
  apply negb_false_iff in Hg. apply String.eqb_eq in Hg.
  apply negb_false_iff, bool_decide_eq_true in Hg2.
  split; [exists r6; eauto 10|]. split; [done|]. apply parseNetworkId_ok in Hr1 as [_ ?].
  split; [done|]. split; [eauto|]. exists r3. split; [done|]. split; [done|]. split; [done|].
  intros ->. apply andb_false_iff in Hg0 as [Hg0|Hg0]; [by apply bool_decide_eq_false in Hg0|].
  by apply negb_false_iff, bool_decide_eq_true in Hg0.
Qed.

Lemma has_elem keys k : existsb (String.eqb k) keys = false -> k ∉ keys.
Proof.
  intros H Hin. apply list_elem_of_In in Hin. apply not_true_iff_false in H. apply H.
  apply existsb_exists. exists k. split; [done|]. by apply String.eqb_eq.
Qed.

Lemma validate_assets_ok version environment byChain ik ak ds assets :
  NoDup ik -> NoDup ak -> validate_assets version environment byChain ik ak ds = Ok assets ->
  Forall (asset_ok version environment byChain) assets /\
  NoDup ((identity_key <$> assets) ++ ik) /\ NoDup ((asset_key <$> assets) ++ ak).
Proof.
  revert ik ak assets. induction ds as [|d ds IH]; intros ik ak assets Hi Ha; cbn [validate_assets].
  - by intros [= <-].
  - intros H. inv_ok. subst assets. apply orb_false_iff in Hg as [Hg1%has_elem Hg2%has_elem].
    apply IH in Hr0 as (Hf & Hni & Hna); [|by constructor ..].
    split; [constructor; [by apply validateAsset_ok in Hr|done]|].
    rewrite !fmap_cons. cbn [app]. by rewrite !Permutation_middle.
Qed.

(** Looking up under a key computed from the values. *)
Lemma mget_keyed {A K} `{EqDecision K} (f : A -> K) (l : list A) k a :
  NoDup (f <$> l) -> mget k ((fun a => (f a, a)) <$> l) = Some a <-> a ∈ l /\ f a = k.
Proof.
  intros Hnd. split.
  - intros H%mget_Some_elem. apply list_elem_of_fmap in H as (b & [= -> ->] & Hb). done.
  - intros [Ha <-]. apply elem_mget; [by rewrite keys_fst|].
    by apply (list_elem_of_fmap_2 (fun a => (f a, a))).
Qed.

Record snapshot_maps (s : SupportedAssetRegistrySnapshot) : Prop := {
  sm_id : snap_byNetworkId s = (fun n => (net_networkId n, n)) <$> snap_networks s;
  sm_identity : snap_assetByIdentity s = mofl ((fun a => (identity_key a, a)) <$> snap_assets s);
  sm_keys : NoDup (identity_key <$> snap_assets s);
  sm_nul : Forall (fun n => nul_free (net_networkId n) = true) (snap_networks s);
  sm_normal : forall a, a ∈ snap_assets s ->
    exists v, normalizeIdentity (asset_identityKind a) v = Ok (asset_identity a);
}.

Lemma createSnapshot_ok sha256 d s :
  createSupportedAssetRegistrySnapshot sha256 d = Ok s ->
  snapshot_wf s /\ snapshot_maps s /\
  snap_fingerprintSha256 s = fingerprintSnapshot sha256 (snap_version s) (snap_environment s)
                               (snap_networks s) (snap_assets s).
Proof.
  unfold createSupportedAssetRegistrySnapshot. intros H. inv_ok. subst s.
  apply validateNetworks_ok in Hr1 as [[Hc Hi Hcs His Hrev Hnul] Hp].
  apply validate_assets_ok in Hr2 as (Hf & Hni & Hna); [|constructor ..].
  rewrite app_nil_r in Hni, Hna. rewrite Forall_forall in Hf.
  split; [|split]; [| |done].
  - split; cbn [snap_networks snap_assets snap_environment snap_version]; try done.
    + intros a Ha. destruct (Hf a Ha) as (Hv & Hver & _ & _ & n & Hn & Hid & Hk & Hact).
      split; [done|]. split; [done|]. exists n. rewrite Hc in Hn.
      apply mget_keyed in Hn as [Hn Hch]; done.
    + apply (NoDup_fmap_1 (fun p => key2 p.1 p.2)). by rewrite <- list_fmap_compose.
    + apply (NoDup_fmap_1 (fun p : string * SupportedStablecoin => key2 p.1 (enum_str p.2))).
      by rewrite <- list_fmap_compose.
  - split; cbn [snap_networks snap_assets snap_byNetworkId snap_assetByIdentity]; try done.
    intros a Ha. by destruct (Hf a Ha) as (_ & _ & _ & ? & _).
Qed.

Lemma identity_entry s key a :
  snapshot_maps s -> mget key (snap_assetByIdentity s) = Some a <-> a ∈ snap_assets s /\ identity_key a = key.
Proof.
  intros [_ Hi Hk _ _]. rewrite Hi, mget_mofl by (by rewrite keys_fst).
  rewrite list_elem_of_fmap. split.
  - by intros (b & [= -> ->] & ?).
  - intros [? <-]. eauto.
Qed.

(** The kind of an identity is its network's, and networks have distinct ids. *)
Lemma network_by_id s a networkId n :
  snapshot_wf s -> snapshot_maps s -> a ∈ snap_assets s -> asset_networkId a = networkId ->
  mget networkId (snap_byNetworkId s) = Some n ->
  net_identityKind n = asset_identityKind a.
Proof.
  intros Hw [Hi _ _ _ _] Ha <- Hn. rewrite Hi in Hn. apply mget_keyed in Hn as [Hn E]; [|apply Hw].
  destruct (sw_assets s Hw a Ha) as (_ & _ & n' & Hn' & _ & Hid & Hk & _).
  assert (n = n') as -> by (eapply NoDup_fmap_inj; [apply (sw_networkIds s Hw) | done | done | congruence]).
  done.
Qed.

Lemma identifyAsset_iff s networkId identity a :
  snapshot_wf s -> snapshot_maps s ->
  identifyAsset s networkId identity = Some a <->
  a ∈ snap_assets s /\ asset_networkId a = networkId /\
  normalizeIdentity (asset_identityKind a) (VStr identity) = Ok (asset_identity a).
Proof.
  intros Hw Hm. unfold identifyAsset.
  assert (forall n b id, mget networkId (snap_byNetworkId s) = Some n -> b ∈ snap_assets s ->
            identity_key b = key2 (net_networkId n) id <->
            asset_networkId b = networkId /\ asset_identity b = id) as Hkey.
  { intros n b id Hn Hb. rewrite (sm_id s Hm) in Hn.
    apply mget_keyed in Hn as [Hn <-]; [|apply Hw].
    destruct (sw_assets s Hw b Hb) as (_ & _ & n' & Hn' & _ & Hid & _).
    pose proof (sm_nul s Hm) as Hnul. rewrite Forall_forall in Hnul.
    unfold identity_key. rewrite <- Hid. split.
    - intros [-> ->]%key2_inj; [done | by apply Hnul ..].
    - by intros [-> ->]. }
  destruct (mget networkId (snap_byNetworkId s)) as [n|] eqn:En; cycle 1.
  { split; [done|]. intros (Ha & <- & _). destruct (sw_assets s Hw a Ha) as (_ & _ & n & Hn & _ & Hid & _).
    rewrite (sm_id s Hm) in En. apply mget_None in En. rewrite keys_fst in En.
    destruct En. rewrite <- Hid. by apply list_elem_of_fmap_2. }
  destruct (normalizeIdentity (net_identityKind n) (VStr identity)) as [id|e] eqn:Ei.
  - rewrite (identity_entry s _ a Hm). split.
    + intros [Ha [Hna <-]%(Hkey n)]; [|done|done]. split; [done|]. split; [done|].
      by rewrite <- (network_by_id s a networkId n).
    + intros (Ha & Hna & Hn). split; [done|]. apply (Hkey n); [done | done |]. split; [done|].
      rewrite <- (network_by_id s a networkId n), Ei in Hn by done. by injection Hn.
  - split; [done|]. intros (Ha & Hna & Hn).
    rewrite <- (network_by_id s a networkId n), Ei in Hn by done. discriminate.
Qed.

(** ** Lemmas: letter case *)

Lemma lower_classes c :
  is_hex_any (lower c) = is_hex_any c /\ is_char "0" (lower c) = is_char "0" c.
Proof. destruct c as [[] [] [] [] [] [] [] []]; by vm_compute. Qed.

Lemma matches_lower ps s :
  Forall (fun p => forall c, p (lower c) = p c) ps -> matches ps (toLowerCase s) = matches ps s.
Proof.
  intros H. revert s. induction H as [|p ps Hp _ IH]; intros [|c s]; cbn [matches toLowerCase]; try done.
  by rewrite Hp, IH.
Qed.

Lemma evm_cons p s :
  matches ([is_char "0"; is_char "x"] ++ p) s = true ->
  exists r, s = String "0" (String "x" r) /\ matches p r = true.
Proof.
  destruct s as [|a [|b s]]; cbn [app matches]; rewrite ?andb_false_r; try done.
  intros [Ha [Hb Hs]%andb_true_iff]%andb_true_iff. unfold is_char in Ha, Hb.
  apply Ascii.eqb_eq in Ha, Hb. subst. eauto.
Qed.

Lemma normalizeIdentity_lower kind s :
  EVM_CONTRACT_PATTERN s = true ->
  normalizeIdentity kind (VStr (toLowerCase s)) = normalizeIdentity kind (VStr s).
Proof.
  intros H. pose proof H as (r & -> & Hr)%evm_cons.
  change (toLowerCase (String "0" (String "x" r))) with (String "0" (String "x" (toLowerCase r))).
  destruct kind; cbn [normalizeIdentity].
  - change (EVM_CONTRACT_PATTERN (String "0" (String "x" (toLowerCase r))))
      with (matches (replicate 40 is_hex_any) (toLowerCase r)).
    change (EVM_ZERO_PATTERN (String "0" (String "x" (toLowerCase r))))
      with (matches (replicate 40 (is_char "0")) (toLowerCase r)).
    change (EVM_ZERO_PATTERN (String "0" (String "x" r)))
      with (matches (replicate 40 (is_char "0")) r).
    rewrite !matches_lower, Hr, H
      by (apply Forall_replicate; intros c; apply lower_classes).
    destruct (_ || _); [done|].
    change (toLowerCase (String "0" (String "x" r))) with (String "0" (String "x" (toLowerCase r))).
    change (toLowerCase (String "0" (String "x" (toLowerCase r))))
      with (String "0" (String "x" (toLowerCase (toLowerCase r)))).
    by rewrite toLowerCase_idem.
  - unfold SOLANA_BASE58_PATTERN. cbn [all_chars].
    change (is_base58 "0") with false. cbn [andb]. by rewrite !andb_false_r.
Qed.

(** ** Lemmas: canonical order *)

Lemma compareCanonical_lex a b :
  compareCanonical a b = if String.eqb a b then 0 else if str_lt a b then -1 else 1.
Proof.
  unfold compareCanonical. destruct (String.eqb_spec a b) as [->|Hne]; [by rewrite str_lt_irrefl|].
  destruct (str_lt a b) eqn:E; [done|]. destruct (str_lt b a) eqn:E'; [done|].
  by destruct Hne; apply str_lt_total.
Qed.

Lemma canonical_comparator {A} (key : A -> string) :
  Comparator (fun _ => True) (fun l r => compareCanonical (key l) (key r)).
Proof.
  assert (Comparator (fun _ : A => True) (fun _ _ => 0)) as H0 by (split; lia).
  destruct (lexical_comparator _ key _ H0) as [Hs Ht].
  split; intros; rewrite ?compareCanonical_lex in *; [by apply Hs | by eapply Ht; eauto].
Qed.

Lemma compareCanonical_tie a b : compareCanonical a b <= 0 -> compareCanonical b a <= 0 -> a = b.
Proof.
  rewrite !compareCanonical_lex, (String.eqb_sym b). destruct (String.eqb_spec a b); [done|].
  destruct (str_lt a b) eqn:E1, (str_lt b a) eqn:E2; try lia.
  by rewrite (str_lt_asym _ _ E1) in E2.
Qed.

(** Sorting by a key that tells the elements apart forgets their order. *)
Lemma canonical_sort_perm {A} (key : A -> string) l l' :
  l ≡ₚ l' -> (forall a b, a ∈ l -> b ∈ l -> key a = key b -> a = b) ->
  js_sort (fun l r => compareCanonical (key l) (key r)) l
  = js_sort (fun l r => compareCanonical (key l) (key r)) l'.
Proof.
  intros Hp Hk. pose proof (canonical_comparator key) as Hc.
  apply (js_sort_unique (fun _ => True)); [done | by apply Forall_true | done|].
  intros a b Ha Hb H1 H2. apply Hk; [done | done |]. by apply compareCanonical_tie.
Qed.

Lemma fingerprint_perm sha256 s version environment networks assets :
  snapshot_wf s -> snapshot_maps s -> snap_networks s ≡ₚ networks -> snap_assets s ≡ₚ assets ->
  fingerprintSnapshot sha256 version environment (snap_networks s) (snap_assets s)
  = fingerprintSnapshot sha256 version environment networks assets.
Proof.
  intros Hw Hm Hn Ha. unfold fingerprintSnapshot, snapshot_json.
  rewrite (canonical_sort_perm network_sort_key _ _ Hn), (canonical_sort_perm asset_sort_key _ _ Ha);
    [done| |].
  - intros a b Hin Hin' E. apply nul_split in E as [E1 E2].
    + apply key2_inj in E2 as [_ E2]; [|apply stablecoin_nul_free ..].
      eapply NoDup_fmap_inj; [apply (sw_identities s Hw)|done|done|]. simpl. congruence.
    + destruct (sw_assets s Hw a Hin) as (_ & _ & n & Hn' & _ & <- & _).
      pose proof (sm_nul s Hm) as Hf. rewrite Forall_forall in Hf. by apply Hf.
    + destruct (sw_assets s Hw b Hin') as (_ & _ & n & Hn' & _ & <- & _).
      pose proof (sm_nul s Hm) as Hf. rewrite Forall_forall in Hf. by apply Hf.
  - pose proof (sm_nul s Hm) as Hf. rewrite Forall_forall in Hf.
    intros a b Hin Hin' E. apply key2_inj in E as [E _]; [|by apply Hf ..].
    by eapply NoDup_fmap_inj; [apply (sw_networkIds s Hw)| | |].
Qed.

(** ** Lemmas: definitions in another order *)

(** What one definition contributes, duplicates aside. *)
Definition network_from (environment : AssetRegistryEnvironment) (d : SupportedNetworkDefinition)
    : registry_result SupportedNetwork :=
  let* m := add_network environment {| nm_networks := []; nm_byChain := []; nm_byNetworkId := [] |} d in
  or_throw (head (nm_networks m)) WRONG_NETWORK.

Lemma add_network_from environment m d m' :
  add_network environment m d = Ok m' ->
  exists n, network_from environment d = Ok n /\ nm_networks m' = nm_networks m ++ [n].
Proof.
  unfold network_from, add_network. intros H. inv_ok. subst m'.
  rewrite Hr. cbn [rbind]. rewrite Hr0. cbn [rbind]. rewrite Hr1. cbn [rbind]. rewrite Hr2.
  cbn. eauto.
Qed.

Lemma networks_from environment ds m m' :
  foldl_err (add_network environment) ds m = Ok m' ->
  exists ns, mapr (network_from environment) ds = Ok ns /\ nm_networks m' = nm_networks m ++ ns.
Proof.
  revert m. induction ds as [|d ds IH]; intros m; cbn [foldl_err mapr].
  - intros [= <-]. exists []. by rewrite app_nil_r.
  - intros (m1 & (n & Hn & E)%add_network_from & (ns & Hns & E')%IH)%rbind_ok.
    exists (n :: ns). rewrite Hn. cbn [rbind]. rewrite Hns, E', E, <- app_assoc. done.
Qed.

Lemma assets_from version environment byChain ik ak ds assets :
  validate_assets version environment byChain ik ak ds = Ok assets ->
  mapr (fun d => validateAssetDefinition version environment d byChain) ds = Ok assets.
Proof.
  revert ik ak assets. induction ds as [|d ds IH]; intros ik ak assets; cbn [validate_assets mapr]; [done|].
  intros H. inv_ok. subst assets. rewrite Hr. cbn [rbind]. by rewrite (IH _ _ _ Hr0).
Qed.

Lemma validateAsset_ext version environment d b b' :
  (forall c, mget c b = mget c b') ->
  validateAssetDefinition version environment d b = validateAssetDefinition version environment d b'.
Proof.
  intros H. unfold validateAssetDefinition.
  destruct (parseStablecoin _); cbn [rbind]; [|done]. destruct (parseChain _); cbn [rbind]; [|done].
  by rewrite H.
Qed.

Lemma keyed_perm {A K} `{EqDecision K} (f : A -> K) l l' k :
  NoDup (f <$> l) -> l ≡ₚ l' ->
  mget k ((fun a => (f a, a)) <$> l) = mget k ((fun a => (f a, a)) <$> l').
Proof.
  intros Hnd Hp. apply option_eq. intros a. rewrite !mget_keyed by (by rewrite <- ?Hp). by rewrite Hp.
Qed.

Lemma createSnapshot_from sha256 d s :
  createSupportedAssetRegistrySnapshot sha256 d = Ok s ->
  exists byChain, byChain = (fun n => (net_chain n, n)) <$> snap_networks s /\
    parseVersion (sd_version d) = Ok (snap_version s) /\
    parseEnvironment (sd_environment d) = Ok (snap_environment s) /\
    mapr (network_from (snap_environment s)) (sd_networks d) = Ok (snap_networks s) /\
    mapr (fun a => validateAssetDefinition (snap_version s) (snap_environment s) a byChain) (sd_assets d)
      = Ok (snap_assets s).
Proof.
  unfold createSupportedAssetRegistrySnapshot. intros H. inv_ok. subst s.
  cbn [snap_networks snap_assets snap_environment snap_version].
  pose proof (validateNetworks_ok _ _ _ Hr1) as [Hm _]. exists (nm_byChain r1).
  split; [apply Hm|]. split; [done|]. split; [done|].
  split; [|by eapply assets_from].
  unfold validateNetworkDefinitions in Hr1. inv_ok. subst r1.
  by apply networks_from in Hr3 as (ns & Hns & ->).
Qed.

(** ** Properties *)

(** What the validation guarantees: an accepted snapshot has one reviewed
    network per supported chain, and assets that are issuer-verified for
    exactly that environment, chain, network and number of decimals, no
    identity and no stablecoin twice on a network, and none active on an
    inactive network. *)
Theorem accepted_snapshot_wf sha256 d s :
  createSupportedAssetRegistrySnapshot sha256 d = Ok s -> snapshot_wf s.
Proof. by intros [? _]%createSnapshot_ok. Qed.

(** Looking up an identity in an accepted snapshot finds exactly the asset of
    that network with that canonical identity (there is at most one), and the
    letter case of a contract address does not matter. *)
Theorem identify_asset_iff sha256 d s networkId identity :
  createSupportedAssetRegistrySnapshot sha256 d = Ok s ->
  (forall a, identifyAsset s networkId identity = Some a <->
     a ∈ snap_assets s /\ asset_networkId a = networkId /\
     normalizeIdentity (asset_identityKind a) (VStr identity) = Ok (asset_identity a)) /\
  (EVM_CONTRACT_PATTERN identity = true ->
   identifyAsset s networkId (toLowerCase identity) = identifyAsset s networkId identity).
Proof.
  intros (Hw & Hm & _)%createSnapshot_ok. split; [intros a; by apply identifyAsset_iff|].
  intros He. unfold identifyAsset. destruct (mget _ _); [|done]. by rewrite normalizeIdentity_lower.
Qed.

(** The fingerprint of a snapshot does not depend on the order in which its
    definition lists networks and assets. *)
Theorem fingerprint_order_irrelevant sha256 d d' s s' :
  createSupportedAssetRegistrySnapshot sha256 d = Ok s ->
  createSupportedAssetRegistrySnapshot sha256 d' = Ok s' ->
  sd_version d = sd_version d' -> sd_environment d = sd_environment d' ->
  sd_networks d ≡ₚ sd_networks d' -> sd_assets d ≡ₚ sd_assets d' ->
  snap_fingerprintSha256 s = snap_fingerprintSha256 s'.
Proof.
  intros H H' Ev Ee Hn Ha.
  pose proof (createSnapshot_ok _ _ _ H) as (Hw & Hm & ->).
  pose proof (createSnapshot_ok _ _ _ H') as (Hw' & Hm' & ->).
  apply createSnapshot_from in H as (b & -> & Hv & He & Hns & Has).
  apply createSnapshot_from in H' as (b' & -> & Hv' & He' & Hns' & Has').
  assert (snap_version s = snap_version s') as EV by congruence.
  assert (snap_environment s = snap_environment s') as EE by congruence.
  rewrite <- EV, <- EE in *.
  assert (snap_networks s ≡ₚ snap_networks s') as Hp.
  { apply (mapr_perm _ _ _ _ Hn) in Hns as (ns & Hns & ?). congruence. }
  apply fingerprint_perm; [done | done | done |].
  apply (mapr_perm _ _ _ _ Ha) in Has as (assets & Has & ->).
  rewrite (mapr_ext _ (fun a => validateAssetDefinition (snap_version s) (snap_environment s) a
             ((fun n => (net_chain n, n)) <$> snap_networks s'))) in Has.
  - rewrite Has in Has'. by injection Has' as ->.
  - intros a. apply validateAsset_ext. intros c. apply keyed_perm; [|done].
    rewrite (sw_chains s Hw). repeat constructor; set_solver.
Qed.

(** The shipped registries load, whatever the hash: nine assets on four active
    networks, six decimals each, and version 1 is the latest. *)
Theorem shipped_registries sha256 :
  exists mainnet testnet,
    MAINNET_SUPPORTED_ASSET_REGISTRY sha256 = Ok mainnet /\
    TESTNET_SUPPORTED_ASSET_REGISTRY sha256 = Ok testnet /\
    atVersion mainnet 1 = Some (reg_latest mainnet) /\
    atVersion testnet 1 = Some (reg_latest testnet) /\
    length (snap_assets (reg_latest mainnet)) = 9%nat /\
    length (snap_assets (reg_latest testnet)) = 7%nat /\
    Forall (fun a => asset_decimals a = 6 /\ asset_activationState a = ACTIVE)
      (snap_assets (reg_latest mainnet)) /\
    Forall (fun n => net_activationState n = ACTIVE) (snap_networks (reg_latest mainnet)).
Proof.
  eexists _, _. split; [vm_compute; reflexivity|]. split; [vm_compute; reflexivity|].
  split; [vm_compute; reflexivity|]. split; [vm_compute; reflexivity|].
  split; [vm_compute; reflexivity|]. split; [vm_compute; reflexivity|].
  split; repeat constructor.
Qed.

(** The catalogue check sees the addresses only through the https test. *)
Lemma catalog_url_ext URL URL' networks identities :
  (forall i, i ∈ identities -> isHttpsVerificationSource URL (ci_verificationSource i)
                               = isHttpsVerificationSource URL' (ci_verificationSource i)) ->
  validateClosedVerificationCatalog URL networks identities
  = validateClosedVerificationCatalog URL' networks identities.
Proof.
  intros H. unfold validateClosedVerificationCatalog.
  destruct (foldl_err _ _ _) as [st|]; cbn [rbind]; [|done]. destruct (existsb _ _); [done|].
  f_equal. generalize (nil (A := string)) as keys.
  induction identities as [|i l IH]; intros keys; cbn [foldl_err]; [done|].
  assert (add_catalog_identity URL (cs_networkByCandidateKey st) keys i
          = add_catalog_identity URL' (cs_networkByCandidateKey st) keys i) as ->
    by (unfold add_catalog_identity; by rewrite (H i) by left).
  destruct (add_catalog_identity URL' _ _ _) as [ks|]; cbn [rbind]; [|done].
  apply IH. intros j Hj. apply H. by right.
Qed.

(** An address that parses as plain https, whatever it is. *)
Definition https_url (_ : string) : option url :=
  Some {| protocol := "https:"; hostname := "example.org"; username := ""; password := "" |}.

(** The check of the closed catalogue accepts the shipped catalogue, given that
    the four documentation addresses parse as plain https addresses. *)
Theorem shipped_catalog_valid URL :
  Forall (fun source => isHttpsVerificationSource URL (VStr source) = true)
    [CIRCLE_USDC_SOURCE; TETHER_SOURCE; PAXOS_PYUSD_MAINNET_SOURCE; PAXOS_PYUSD_TESTNET_SOURCE] ->
  validateClosedVerificationCatalog URL (catalog_network <$> REVIEWED_NETWORKS)
    (catalog_identity <$> VERIFIED_STABLECOIN_IDENTITIES) = Ok tt.
Proof.
  intros H. rewrite (catalog_url_ext URL https_url); [vm_compute; reflexivity|].
  apply Forall_forall. rewrite !Forall_cons in H. destruct H as (H1 & H2 & H3 & H4 & _).
  unfold VERIFIED_STABLECOIN_IDENTITIES. cbn [fmap list_fmap].
  repeat constructor; assumption.
Qed.

(** ** Examples *)

Definition mainnet_definition_example : SupportedAssetRegistrySnapshotDefinition :=
  first_version MAINNET MAINNET_V1_NETWORK_DEFINITIONS
    (default [] (to_option (assetDefinitionsFromManifest MAINNET MAINNET_V1_ASSET_MANIFEST))).

Definition reversed_definition_example : SupportedAssetRegistrySnapshotDefinition :=
  first_version MAINNET (reverse MAINNET_V1_NETWORK_DEFINITIONS)
    (reverse (sd_assets mainnet_definition_example)).

Lemma accepted_snapshot_wf_witness :
  exists s, createSupportedAssetRegistrySnapshot id mainnet_definition_example = Ok s /\ snapshot_wf s.
Proof.
  eexists. split; [vm_compute; reflexivity|].
  apply (accepted_snapshot_wf id mainnet_definition_example). vm_compute. reflexivity.
Defined.

Lemma identify_asset_iff_witness :
  exists s, createSupportedAssetRegistrySnapshot id mainnet_definition_example = Ok s /\
    identifyAsset s "eip155:1" (toLowerCase "0xDAC17F958D2ee523a2206206994597C13D831ec7")
    = identifyAsset s "eip155:1" "0xDAC17F958D2ee523a2206206994597C13D831ec7".
Proof.
  eexists. split; [vm_compute; reflexivity|].
  apply (identify_asset_iff id mainnet_definition_example); [vm_compute; reflexivity | reflexivity].
Defined.

Lemma fingerprint_order_irrelevant_witness :
  exists s s', createSupportedAssetRegistrySnapshot id mainnet_definition_example = Ok s /\
    createSupportedAssetRegistrySnapshot id reversed_definition_example = Ok s' /\
    snap_fingerprintSha256 s = snap_fingerprintSha256 s'.
Proof.
  eexists _, _. split; [vm_compute; reflexivity|]. split; [vm_compute; reflexivity|].
  apply (fingerprint_order_irrelevant id mainnet_definition_example reversed_definition_example);
    [vm_compute; reflexivity | vm_compute; reflexivity | reflexivity | reflexivity
    | symmetry; apply reverse_Permutation | symmetry; apply reverse_Permutation].
Defined.
