(* ===== verification/ChainObservation.v ===== *)
(** * Chain observation policy
    (apps/api/src/blockchain/domain/chain-observation-policy.ts)

    What a reading of a chain may be used for: the networks that are observed
    and their tiers, how old a head may be, when finality has stalled, whether a
    block continues the last one, whether two sources agree, and when a fallback
    provider may answer.  Everything fails closed.

    The classifiers read plain objects: [prop v k] is an own data property.
    Accessors and inherited properties are not modelled here. *)

From stdpp Require Import base list strings.
From Stdlib Require Import ZArith Lia Ascii.
From S2P Require Import Prelude Text JsValue AssetRegistry.

Open Scope Z_scope.

(** ** Data *)

Inductive ChainObservationTier : Type := PROVISIONAL | CANONICAL | FINANCIAL.

#[export] Program Instance CHAIN_OBSERVATION_TIERS : JsEnum ChainObservationTier := {
  enum_values := [PROVISIONAL; CANONICAL; FINANCIAL];
  enum_str := fun t => match t with
    | PROVISIONAL => "PROVISIONAL" | CANONICAL => "CANONICAL" | FINANCIAL => "FINANCIAL" end;
}.
Next Obligation. solve_enum_all. Qed.
Next Obligation. solve_enum_inj. Qed.

Inductive ChainObservationEnvironment : Type := Registry (e : AssetRegistryEnvironment) | LOCAL.

#[export] Instance ChainObservationEnvironment_eq_dec : EqDecision ChainObservationEnvironment.
Proof. solve_decision. Defined.

Inductive ChainObservationSelector : Type := latest | safe | finalized | processed | confirmed.

#[export] Program Instance CHAIN_OBSERVATION_SELECTORS : JsEnum ChainObservationSelector := {
  enum_values := [latest; safe; finalized; processed; confirmed];
  enum_str := fun s => match s with
    | latest => "latest" | safe => "safe" | finalized => "finalized"
    | processed => "processed" | confirmed => "confirmed" end;
}.
Next Obligation. solve_enum_all. Qed.
Next Obligation. solve_enum_inj. Qed.

Inductive ChainObservationTierState : Type := ALLOWED | REQUIRES_LIVE_PROOF | TIER_BLOCKED_PENDING_LIVE_PROOF.

Inductive TierAuthority : Type := DISPLAY_ONLY | CANONICAL_INDEXING | FINANCIAL_AND_LEDGER.

Inductive ChainIdentityProbe : Type :=
| EVM_CHAIN_ID (expectedResult : string)
| SOLANA_GENESIS_HASH (expectedResult expectedCaipReference : string).

Record ChainObservationTierRule : Type := {
  rule_tier : ChainObservationTier;
  rule_selector : ChainObservationSelector;
  rule_state : ChainObservationTierState;
  rule_authority : TierAuthority;
}.

Inductive hint_invocation : Type := ETH_SUBSCRIBE_WITH_ALLOWLISTED_NAME | DIRECT_SOLANA_SUBSCRIPTION_METHOD.

(** Polling is authoritative; a notification is only a hint. *)
Record TransportPolicy : Type := {
  hint_allowedMethods : list string;
  hint_allowedSubscriptions : list string;
  hint_invocation_kind : hint_invocation;
}.

Inductive read_constraint : Type := PIN_BLOCK_NUMBER_AND_HASH | MIN_CONTEXT_SLOT_REQUIRED.

Record ChainObservationNetworkPolicy : Type := {
  pol_chain : SupportedChain;
  pol_environment : ChainObservationEnvironment;
  pol_networkId : string;
  pol_registryVersion : Z;
  pol_registryFingerprintSha256 : string;
  pol_identityProbe : ChainIdentityProbe;
  pol_allowedMethods : list string;
  pol_tiers : list ChainObservationTierRule;
  pol_currentWithinMs : Z;
  pol_unavailableAfterMs : Z;
  pol_stallAfterMs : Z;
  pol_liveCapabilityProofRequired : bool;
  pol_transport : TransportPolicy;
  pol_monotonicReadConstraint : read_constraint;
}.

(** ** The policies *)

Record RegistryBinding : Type := {
  bind_registryVersion : Z;
  bind_fingerprintSha256 : string;
  bind_networkIds : list string;
}.

Definition CHAIN_OBSERVATION_REGISTRY_BINDINGS (environment : AssetRegistryEnvironment) : RegistryBinding :=
  match environment with
  | MAINNET =>
      {| bind_registryVersion := 1;
         bind_fingerprintSha256 := "5058b141479f114c1e5f87ed8798fbb7a7ffcce7b502aa7e0794dc53ca1f767d";
         bind_networkIds := ["eip155:1"; "eip155:8453"; "eip155:42161"; "solana:5eykt4UsFv8P8NJdTREpY1vzqKqZKvdp"] |}
  | TESTNET =>
      {| bind_registryVersion := 1;
         bind_fingerprintSha256 := "89c158de188fcde7d01642aadef226f3c93724bfe5b53a7f3fcce096180d5ca7";
         bind_networkIds := ["eip155:11155111"; "eip155:84532"; "eip155:421614";
                             "solana:EtWTRABZaYq6iMfeYKouRu166VU2xqa1"] |}
  end.

(** From local-evm-development-manifest.json. *)
Definition LOCAL_REGISTRY_FINGERPRINT : string :=
  "3584658754837a75ca0bcb727035c38e382db89641e55311f57f862dee3278dc".

Definition EVM_ALLOWED_METHODS : list string :=
  ["eth_blockNumber"; "eth_call"; "eth_chainId"; "eth_getBalance"; "eth_getBlockByHash"; "eth_getBlockByNumber";
   "eth_getCode"; "eth_getLogs"; "eth_getTransactionByHash"; "eth_getTransactionReceipt"].

Definition EVM_HINT_METHODS : list string := ["eth_subscribe"].
Definition EVM_HINT_SUBSCRIPTIONS : list string := ["logs"; "newHeads"].

Definition SOLANA_ALLOWED_METHODS : list string :=
  ["getAccountInfo"; "getBlock"; "getBlockHeight"; "getGenesisHash"; "getHealth"; "getLatestBlockhash";
   "getMultipleAccounts"; "getSignatureStatuses"; "getSignaturesForAddress"; "getSlot"; "getTokenAccountBalance";
   "getTokenAccountsByOwner"; "getTransaction"; "getVersion"].

Definition SOLANA_HINT_METHODS : list string :=
  ["accountSubscribe"; "logsSubscribe"; "programSubscribe"; "rootSubscribe"; "signatureSubscribe"; "slotSubscribe"].
Definition SOLANA_HINT_SUBSCRIPTIONS : list string := SOLANA_HINT_METHODS.

Definition tier (t : ChainObservationTier) (s : ChainObservationSelector) (st : ChainObservationTierState)
    (a : TierAuthority) : ChainObservationTierRule :=
  {| rule_tier := t; rule_selector := s; rule_state := st; rule_authority := a |}.

Definition EVM_TIER_RULES : list ChainObservationTierRule :=
  [tier PROVISIONAL latest ALLOWED DISPLAY_ONLY;
   tier CANONICAL safe REQUIRES_LIVE_PROOF CANONICAL_INDEXING;
   tier FINANCIAL finalized ALLOWED FINANCIAL_AND_LEDGER].

Definition ARBITRUM_TIER_RULES : list ChainObservationTierRule :=
  [tier PROVISIONAL latest ALLOWED DISPLAY_ONLY;
   tier CANONICAL safe TIER_BLOCKED_PENDING_LIVE_PROOF CANONICAL_INDEXING;
   tier FINANCIAL finalized TIER_BLOCKED_PENDING_LIVE_PROOF FINANCIAL_AND_LEDGER].

Definition LOCAL_EVM_TIER_RULES : list ChainObservationTierRule :=
  [tier PROVISIONAL latest ALLOWED DISPLAY_ONLY;
   tier CANONICAL safe TIER_BLOCKED_PENDING_LIVE_PROOF CANONICAL_INDEXING;
   tier FINANCIAL finalized TIER_BLOCKED_PENDING_LIVE_PROOF FINANCIAL_AND_LEDGER].

Definition SOLANA_TIER_RULES : list ChainObservationTierRule :=
  [tier PROVISIONAL confirmed ALLOWED DISPLAY_ONLY;
   tier CANONICAL confirmed REQUIRES_LIVE_PROOF CANONICAL_INDEXING;
   tier FINANCIAL finalized ALLOWED FINANCIAL_AND_LEDGER].

(** The reads of [CHAIN_OBSERVATION_RESILIENCE_POLICY] the modelled code uses. *)
Definition READS_MAX_ATTEMPTS : Z := 3.
Definition MAX_READ_UNITS_PER_JOB : Z := 2048.

Definition transportPolicy (methods subscriptions : list string) (kind : hint_invocation) : TransportPolicy :=
  {| hint_allowedMethods := methods; hint_allowedSubscriptions := subscriptions; hint_invocation_kind := kind |}.

Definition evmPolicy (chain : SupportedChain) (environment : ChainObservationEnvironment)
    (networkId expectedChainId : string) (currentWithinMs unavailableAfterMs finalityStallAfterMs : Z)
    : ChainObservationNetworkPolicy :=
  {| pol_chain := chain; pol_environment := environment; pol_networkId := networkId; pol_registryVersion := 1;
     pol_registryFingerprintSha256 :=
       match environment with
       | LOCAL => LOCAL_REGISTRY_FINGERPRINT
       | Registry e => bind_fingerprintSha256 (CHAIN_OBSERVATION_REGISTRY_BINDINGS e)
       end;
     pol_identityProbe := EVM_CHAIN_ID expectedChainId;
     pol_allowedMethods := EVM_ALLOWED_METHODS;
     pol_tiers :=
       match environment with
       | LOCAL => LOCAL_EVM_TIER_RULES
       | Registry _ => match chain with ARBITRUM => ARBITRUM_TIER_RULES | _ => EVM_TIER_RULES end
       end;
     pol_currentWithinMs := currentWithinMs; pol_unavailableAfterMs := unavailableAfterMs;
     pol_stallAfterMs := finalityStallAfterMs; pol_liveCapabilityProofRequired := true;
     pol_transport := transportPolicy EVM_HINT_METHODS EVM_HINT_SUBSCRIPTIONS ETH_SUBSCRIBE_WITH_ALLOWLISTED_NAME;
     pol_monotonicReadConstraint := PIN_BLOCK_NUMBER_AND_HASH |}.

Definition slice_from (n : nat) (s : string) : string := String.substring n (String.length s - n) s.

Definition solanaPolicy (environment : AssetRegistryEnvironment) (networkId expectedGenesisHash : string)
    (currentWithinMs unavailableAfterMs finalityStallAfterMs : Z) : ChainObservationNetworkPolicy :=
  {| pol_chain := SOLANA; pol_environment := Registry environment; pol_networkId := networkId;
     pol_registryVersion := 1;
     pol_registryFingerprintSha256 := bind_fingerprintSha256 (CHAIN_OBSERVATION_REGISTRY_BINDINGS environment);
     pol_identityProbe := SOLANA_GENESIS_HASH expectedGenesisHash (slice_from 7 networkId);
     pol_allowedMethods := SOLANA_ALLOWED_METHODS; pol_tiers := SOLANA_TIER_RULES;
     pol_currentWithinMs := currentWithinMs; pol_unavailableAfterMs := unavailableAfterMs;
     pol_stallAfterMs := finalityStallAfterMs; pol_liveCapabilityProofRequired := true;
     pol_transport :=
       transportPolicy SOLANA_HINT_METHODS SOLANA_HINT_SUBSCRIPTIONS DIRECT_SOLANA_SUBSCRIPTION_METHOD;
     pol_monotonicReadConstraint := MIN_CONTEXT_SLOT_REQUIRED |}.

Definition CHAIN_OBSERVATION_NETWORK_POLICIES : list ChainObservationNetworkPolicy :=
  [evmPolicy ETHEREUM (Registry MAINNET) "eip155:1" "0x1" 60000 900000 1800000;
   evmPolicy ETHEREUM LOCAL "eip155:31337" "0x7a69" 60000 300000 300000;
   evmPolicy ETHEREUM (Registry TESTNET) "eip155:11155111" "0xaa36a7" 60000 900000 1800000;
   evmPolicy BASE (Registry MAINNET) "eip155:8453" "0x2105" 30000 300000 2700000;
   evmPolicy BASE (Registry TESTNET) "eip155:84532" "0x14a34" 30000 300000 2700000;
   evmPolicy ARBITRUM (Registry MAINNET) "eip155:42161" "0xa4b1" 30000 300000 2700000;
   evmPolicy ARBITRUM (Registry TESTNET) "eip155:421614" "0x66eee" 30000 300000 2700000;
   solanaPolicy MAINNET "solana:5eykt4UsFv8P8NJdTREpY1vzqKqZKvdp"
     "5eykt4UsFv8P8NJdTREpY1vzqKqZKvdpKuc147dw2N9d" 15000 120000 90000;
   solanaPolicy TESTNET "solana:EtWTRABZaYq6iMfeYKouRu166VU2xqa1"
     "EtWTRABZaYq6iMfeYKouRu166VU2xqa1wcaWoxPkrZBG" 15000 120000 90000].

(** The check made when the module is loaded. *)
Definition assertRegistryBinding (environment : AssetRegistryEnvironment)
    (registry : VersionedSupportedAssetRegistry) : bool :=
  let expected := CHAIN_OBSERVATION_REGISTRY_BINDINGS environment in
  let actual := net_networkId <$> snap_networks (reg_latest registry) in
  String.eqb (enum_str (reg_environment registry)) (enum_str environment)
  && (snap_version (reg_latest registry) =? bind_registryVersion expected)
  && String.eqb (snap_fingerprintSha256 (reg_latest registry)) (bind_fingerprintSha256 expected)
  && (length actual =? length (bind_networkIds expected))%nat
  && negb (existsb (fun networkId => negb (existsb (String.eqb networkId) actual)) (bind_networkIds expected)).

(** ** Lookups *)

Definition chainObservationPolicyForNetwork (networkId : string) : option ChainObservationNetworkPolicy :=
  List.find (fun policy => String.eqb (pol_networkId policy) networkId) CHAIN_OBSERVATION_NETWORK_POLICIES.

Definition isAllowedChainObservationMethod (networkId method : string) : bool :=
  match chainObservationPolicyForNetwork networkId with
  | Some policy => existsb (String.eqb method) (pol_allowedMethods policy)
  | None => false
  end.

Definition expected_result (probe : ChainIdentityProbe) : string :=
  match probe with
  | EVM_CHAIN_ID expected | SOLANA_GENESIS_HASH expected _ => expected
  end.

Definition isExpectedChainIdentity (networkId : string) (observedResult : jsval) : bool :=
  match chainObservationPolicyForNetwork networkId, observedResult with
  | Some policy, VStr observed => String.eqb (expected_result (pol_identityProbe policy)) observed
  | _, _ => false
  end.

Definition observationTierRule (networkId requestedTier : string) : option ChainObservationTierRule :=
  policy ← chainObservationPolicyForNetwork networkId;
  List.find (fun rule => String.eqb (enum_str (rule_tier rule)) requestedTier) (pol_tiers policy).

(** ** Reading inputs *)

Definition isRecord (v : jsval) : bool :=
  match v with
  | VObj _ _ | VDate _ _ => true
  | _ => false
  end.

(** [value.key] of a plain object *)
Definition prop (v : jsval) (k : string) : jsval :=
  match v with
  | VObj _ ps => match descriptor ps k with Some (DData w _) => w | _ => VUndef end
  | _ => VUndef
  end.

Definition is_true (v : jsval) : bool :=
  match v with
  | VBool b => b
  | _ => false
  end.

Definition is_false (v : jsval) : bool :=
  match v with
  | VBool b => negb b
  | _ => false
  end.

Definition is_text (v : jsval) (s : string) : bool :=
  match v with
  | VStr t => String.eqb t s
  | _ => false
  end.

(** A non-negative safe integer. *)
Definition validTime (v : jsval) : option Z :=
  match safe_integer v with
  | Some t => if 0 <=? t then Some t else None
  | None => None
  end.

Definition position_of (v : jsval) : option Z :=
  match prop v "position" with
  | VBig p => if 0 <=? p then Some p else None
  | _ => None
  end.

(** A head: its position and when it was retrieved. *)
Definition validHeadCandidate (v : jsval) : option (Z * Z) :=
  if isRecord v then
    position ← position_of v;
    retrievedAtMs ← validTime (prop v "retrievedAtMs");
    Some (position, retrievedAtMs)
  else None.

Definition validHeadProgress (v : jsval) : option (Z * Z) :=
  if isRecord v then
    position ← position_of v;
    advancedAtMs ← validTime (prop v "advancedAtMs");
    Some (position, advancedAtMs)
  else None.

(** [input.previous]: none, or valid progress. *)
Definition previous_progress (v : jsval) : option (option (Z * Z)) :=
  match v with
  | VNull => Some None
  | _ => Some <$> validHeadProgress v
  end.

(** ** Freshness *)

Inductive ChainObservationFreshness : Type := CURRENT | STALE | UNAVAILABLE | QUARANTINED.

#[export] Program Instance CHAIN_OBSERVATION_FRESHNESS : JsEnum ChainObservationFreshness := {
  enum_values := [CURRENT; STALE; UNAVAILABLE; QUARANTINED];
  enum_str := fun f => match f with
    | CURRENT => "CURRENT" | STALE => "STALE" | UNAVAILABLE => "UNAVAILABLE" | QUARANTINED => "QUARANTINED" end;
}.
Next Obligation. solve_enum_all. Qed.
Next Obligation. solve_enum_inj. Qed.

Inductive freshness_reason : Type :=
| VALIDATED_AND_ADVANCING | VALIDATED_BUT_STALE | VALIDATED_BUT_EXPIRED | IDENTITY_NOT_VALIDATED
| HEAD_REGRESSION | INVALID_PROGRESS.

Record ChainObservationFreshnessDecision : Type := freshnessDecision {
  fd_freshness : ChainObservationFreshness;
  fd_effectiveHeadAdvancedAtMs : option Z;
  fd_retrievalAgeMs : option Z;
  fd_headAdvanceAgeMs : option Z;
  fd_reason : freshness_reason;
}.

(** What follows the checks of the input: [previous] is the last head with the
    instant it advanced. *)
Definition classify_head (policy : ChainObservationNetworkPolicy) (nowMs : Z)
    (previous : option (Z * Z)) (position retrievedAtMs : Z) : ChainObservationFreshnessDecision :=
  let invalid := freshnessDecision UNAVAILABLE None None None INVALID_PROGRESS in
  let classify (advancedAtMs : Z) :=
    let retrievalAgeMs := nowMs - retrievedAtMs in
    let headAdvanceAgeMs := nowMs - advancedAtMs in
    let effectiveAgeMs := Z.max retrievalAgeMs headAdvanceAgeMs in
    let decide freshness := freshnessDecision freshness (Some advancedAtMs) (Some retrievalAgeMs)
      (Some headAdvanceAgeMs) in
    if effectiveAgeMs <=? pol_currentWithinMs policy then decide CURRENT VALIDATED_AND_ADVANCING
    else if effectiveAgeMs <=? pol_unavailableAfterMs policy then decide STALE VALIDATED_BUT_STALE
    else decide UNAVAILABLE VALIDATED_BUT_EXPIRED in
  if nowMs <? retrievedAtMs then invalid
  else
    match previous with
    | None => classify retrievedAtMs
    | Some (previousPosition, advancedAtMs) =>
        if (nowMs <? advancedAtMs) || (retrievedAtMs <? advancedAtMs) then invalid
        else if position <? previousPosition then
          freshnessDecision QUARANTINED (Some advancedAtMs) (Some (nowMs - retrievedAtMs))
            (Some (nowMs - advancedAtMs)) HEAD_REGRESSION
        else if position =? previousPosition then classify advancedAtMs
        else classify retrievedAtMs
    end.

Definition classifyChainObservationFreshness (input : jsval) : ChainObservationFreshnessDecision :=
  match isRecord input, prop input "networkId" with
  | true, VStr networkId =>
      match chainObservationPolicyForNetwork networkId with
      | None => freshnessDecision UNAVAILABLE None None None IDENTITY_NOT_VALIDATED
      | Some policy =>
          if negb (is_true (prop input "identityValidated"))
          then freshnessDecision UNAVAILABLE None None None IDENTITY_NOT_VALIDATED
          else
            match validTime (prop input "nowMs"), validHeadCandidate (prop input "candidate"),
                  previous_progress (prop input "previous") with
            | Some nowMs, Some (position, retrievedAtMs), Some previous =>
                classify_head policy nowMs previous position retrievedAtMs
            | _, _, _ => freshnessDecision UNAVAILABLE None None None INVALID_PROGRESS
            end
      end
  | _, _ => freshnessDecision UNAVAILABLE None None None INVALID_PROGRESS
  end.

(** ** Finality *)

Inductive FinalityProgressStatus : Type :=
| HEALTHY | STALLED | FINALITY_UNAVAILABLE | FINALITY_QUARANTINED | BLOCKED_PENDING_LIVE_PROOF.

#[export] Program Instance FINALITY_PROGRESS_STATUSES : JsEnum FinalityProgressStatus := {
  enum_values := [HEALTHY; STALLED; FINALITY_UNAVAILABLE; FINALITY_QUARANTINED; BLOCKED_PENDING_LIVE_PROOF];
  enum_str := fun s => match s with
    | HEALTHY => "HEALTHY" | STALLED => "STALLED" | FINALITY_UNAVAILABLE => "UNAVAILABLE"
    | FINALITY_QUARANTINED => "QUARANTINED" | BLOCKED_PENDING_LIVE_PROOF => "BLOCKED_PENDING_LIVE_PROOF" end;
}.
Next Obligation. solve_enum_all. Qed.
Next Obligation. solve_enum_inj. Qed.

Inductive finality_reason : Type :=
| FINALITY_ADVANCING | FINALITY_STALLED | FINALIZED_HEAD_REGRESSION | LIVE_CAPABILITY_PROOF_REQUIRED
| INVALID_FINALITY_PROGRESS.

Record FinalityProgressDecision : Type := finalityDecision {
  fin_status : FinalityProgressStatus;
  fin_effectiveFinalizedAdvancedAtMs : option Z;
  fin_reason : finality_reason;
}.

Definition classify_finalized (policy : ChainObservationNetworkPolicy) (nowMs : Z)
    (previous : option (Z * Z)) (position retrievedAtMs : Z) : FinalityProgressDecision :=
  let classify (advancedAtMs : Z) :=
    if pol_stallAfterMs policy <? nowMs - advancedAtMs
    then finalityDecision STALLED (Some advancedAtMs) FINALITY_STALLED
    else finalityDecision HEALTHY (Some advancedAtMs) FINALITY_ADVANCING in
  match previous with
  | None => classify retrievedAtMs
  | Some (previousPosition, advancedAtMs) =>
      if (nowMs <? advancedAtMs) || (retrievedAtMs <? advancedAtMs)
      then finalityDecision FINALITY_UNAVAILABLE None INVALID_FINALITY_PROGRESS
      else if position <? previousPosition
      then finalityDecision FINALITY_QUARANTINED (Some advancedAtMs) FINALIZED_HEAD_REGRESSION
      else if position =? previousPosition then classify advancedAtMs
      else classify retrievedAtMs
  end.

Definition as_bool (v : jsval) : option bool :=
  match v with
  | VBool b => Some b
  | _ => None
  end.

Definition classifyFinalityProgress (input : jsval) : FinalityProgressDecision :=
  let invalid := finalityDecision FINALITY_UNAVAILABLE None INVALID_FINALITY_PROGRESS in
  match isRecord input, prop input "networkId" with
  | true, VStr networkId =>
      match chainObservationPolicyForNetwork networkId with
      | None => invalid
      | Some policy =>
          match is_true (prop input "identityValidated"), as_bool (prop input "liveCapabilityProofValidated"),
                validTime (prop input "nowMs"), validHeadCandidate (prop input "candidate"),
                previous_progress (prop input "previous") with
          | true, Some proof, Some nowMs, Some (position, retrievedAtMs), Some previous =>
              if nowMs <? retrievedAtMs then invalid
              else if pol_liveCapabilityProofRequired policy && negb proof
              then finalityDecision BLOCKED_PENDING_LIVE_PROOF None LIVE_CAPABILITY_PROOF_REQUIRED
              else classify_finalized policy nowMs previous position retrievedAtMs
          | _, _, _, _, _ => invalid
          end
      end
  | _, _ => invalid
  end.

(** ** Financial use *)

Definition FINANCIAL_APPROVALS : list string :=
  ["providerSelectionApproved"; "exactHostEgressApproved"; "liveCapabilityProofValidated";
   "registryBindingValidated"; "independentFinalizedSourcesAgree"; "identityValidated"].

Definition canObservationAuthorizeFinancialUse (networkId requestedTier : string) (approvals : jsval) : bool :=
  String.eqb requestedTier "FINANCIAL"
  && match observationTierRule networkId requestedTier with
     | Some rule => match rule_state rule with ALLOWED => true | _ => false end
     | None => false
     end
  && isRecord approvals
  && forallb (fun key => is_true (prop approvals key)) FINANCIAL_APPROVALS
  && is_text (prop approvals "freshness") (enum_str CURRENT)
  && is_text (prop approvals "finalityStatus") (enum_str HEALTHY)
  && is_true (prop approvals "lineageValidated")
  && is_true (prop approvals "quarantineClear").

(** ** Continuity *)

Inductive ChainContinuityAction : Type :=
| ACCEPT_APPEND
| ACCEPT_NO_CHANGE
| VERIFY_BOUNDED_CONTINUITY_FROM_LAST_FINALIZED_CHECKPOINT
| RECOVER_PROVISIONAL_FROM_LAST_FINALIZED_COMMON_ANCESTOR
| QUARANTINE_FINALIZED_DISAGREEMENT
| FAIL_CLOSED_BLOCKED_TIER.

(** The decision carries the read budget and never lets finalized facts change. *)
Record ChainContinuityDecision : Type := {
  cc_action : ChainContinuityAction;
  cc_maxReadUnits : Z;
  cc_mayMutateFinalizedFacts : bool;
}.

Definition continuityDecision (action : ChainContinuityAction) : ChainContinuityDecision :=
  {| cc_action := action; cc_maxReadUnits := MAX_READ_UNITS_PER_JOB; cc_mayMutateFinalizedFacts := false |}.

Record ChainBlockReference : Type := {
  block_position : Z;
  block_hash : string;
  block_parentHash : string;
}.

Definition validOpaqueHash (value : string) : bool :=
  (3 <=? strlen value) && (strlen value <=? 128) && all_chars (fun c => negb (is_js_space c)) value.

Definition opaque_hash (v : jsval) : option string :=
  match v with
  | VStr s => if validOpaqueHash s then Some s else None
  | _ => None
  end.

Definition validBlockReference (v : jsval) : option ChainBlockReference :=
  if isRecord v then
    position ← position_of v;
    hash ← opaque_hash (prop v "hash");
    parentHash ← opaque_hash (prop v "parentHash");
    Some {| block_position := position; block_hash := hash; block_parentHash := parentHash |}
  else None.

(** How a block that does not continue the last one is handled. *)
Definition disagreement (t : string) : ChainContinuityDecision :=
  continuityDecision
    (if String.eqb t "FINANCIAL" then QUARANTINE_FINALIZED_DISAGREEMENT
     else RECOVER_PROVISIONAL_FROM_LAST_FINALIZED_COMMON_ANCESTOR).

Definition continue_block (t : string) (previous candidate : ChainBlockReference) : ChainContinuityDecision :=
  if (block_position candidate =? block_position previous)
     && String.eqb (block_hash candidate) (block_hash previous)
     && String.eqb (block_parentHash candidate) (block_parentHash previous)
  then continuityDecision ACCEPT_NO_CHANGE
  else if block_position candidate <=? block_position previous then disagreement t
  else if block_position candidate =? block_position previous + 1 then
    if String.eqb (block_parentHash candidate) (block_hash previous)
    then continuityDecision ACCEPT_APPEND else disagreement t
  else continuityDecision VERIFY_BOUNDED_CONTINUITY_FROM_LAST_FINALIZED_CHECKPOINT.

Definition decideChainContinuity (input : jsval) : ChainContinuityDecision :=
  match isRecord input, prop input "networkId", prop input "tier" with
  | true, VStr networkId, VStr t =>
      match observationTierRule networkId t with
      | None => continuityDecision FAIL_CLOSED_BLOCKED_TIER
      | Some rule =>
          if match rule_state rule with TIER_BLOCKED_PENDING_LIVE_PROOF => true | _ => false end
             || (negb (String.eqb t "PROVISIONAL") && negb (is_true (prop input "liveCapabilityProofValidated")))
          then continuityDecision FAIL_CLOSED_BLOCKED_TIER
          else
            match validBlockReference (prop input "previous"), validBlockReference (prop input "candidate") with
            | Some previous, Some candidate => continue_block t previous candidate
            | _, _ => disagreement t
            end
      end
  | _, _, _ => continuityDecision FAIL_CLOSED_BLOCKED_TIER
  end.

(** ** Agreement of sources, and fallback *)

Inductive FinalizedSourceAgreement : Type :=
| AGREED | BLOCKED_NOT_ALIGNED | QUARANTINE_SOURCES.

Definition validFinalizedCheckpoint (v : jsval) : option (string * ChainBlockReference) :=
  block ← validBlockReference v;
  match prop v "networkId" with
  | VStr networkId =>
      _ ← chainObservationPolicyForNetwork networkId;
      Some (networkId, block)
  | _ => None
  end.

Definition compareFinalizedSourceCheckpoints (primary fallback : jsval) : FinalizedSourceAgreement :=
  match validFinalizedCheckpoint primary, validFinalizedCheckpoint fallback with
  | Some (network, a), Some (network', b) =>
      if negb (String.eqb network network') then BLOCKED_NOT_ALIGNED
      else if negb (block_position a =? block_position b) then BLOCKED_NOT_ALIGNED
      else if String.eqb (block_hash a) (block_hash b) && String.eqb (block_parentHash a) (block_parentHash b)
      then AGREED else QUARANTINE_SOURCES
  | _, _ => QUARANTINE_SOURCES
  end.

Inductive ChainFallbackAction : Type :=
| USE_PRIMARY | USE_EXACT_APPROVED_FALLBACK | FAIL_CLOSED_RETAIN_LAST_GOOD.

Definition decideChainObservationFallback (input : jsval) : ChainFallbackAction :=
  if negb (isRecord input) then FAIL_CLOSED_RETAIN_LAST_GOOD
  else if is_true (prop input "primaryAvailable") && is_false (prop input "primaryCircuitOpen") then USE_PRIMARY
  else if is_true (prop input "primaryCircuitOpen") && is_true (prop input "alternateApproved")
          && is_true (prop input "alternateFailureDomainIndependent")
          && is_true (prop input "alternateIdentityValidated")
          && is_true (prop input "alternateFinalizedCheckpointCompatible")
  then USE_EXACT_APPROVED_FALLBACK
  else FAIL_CLOSED_RETAIN_LAST_GOOD.

(** ** Lemmas: policies *)

Lemma policy_of_network networkId policy :
  chainObservationPolicyForNetwork networkId = Some policy ->
  pol_networkId policy = networkId /\ policy ∈ CHAIN_OBSERVATION_NETWORK_POLICIES.
Proof.
  unfold chainObservationPolicyForNetwork. intros H. apply find_some in H as [Hin E].
  apply String.eqb_eq in E. by rewrite list_elem_of_In.
Qed.

(** Every network of the policy table has each tier exactly once, and its own policy. *)
Lemma policies_closed : Forall (fun policy =>
  (rule_tier <$> pol_tiers policy) = enum_values (A := ChainObservationTier) /\
  chainObservationPolicyForNetwork (pol_networkId policy) = Some policy /\
  0 < pol_currentWithinMs policy < pol_unavailableAfterMs policy)
  CHAIN_OBSERVATION_NETWORK_POLICIES.
Proof. repeat constructor. Qed.

Lemma is_true_spec v : is_true v = true <-> v = VBool true.
Proof. destruct v; try done. cbn. by destruct b; split; intros; congruence. Qed.

Lemma is_text_spec v s : is_text v s = true <-> v = VStr s.
Proof.
  destruct v; try done. cbn. rewrite String.eqb_eq. split; [by intros -> | by intros [= ->]].
Qed.

Lemma validTime_spec v t : validTime v = Some t <-> v = VNum (JInt t) /\ 0 <= t <= MAX_SAFE_INTEGER.
Proof.
  unfold validTime, safe_integer. split.
  - destruct v as [| | |[z| |]| | | | | | | |]; try done. destruct (Z.leb_spec (Z.abs z) MAX_SAFE_INTEGER); [|done].
    destruct (Z.leb_spec 0 z); [|done]. intros [= <-]. split; [done | lia].
  - intros [-> H]. rewrite (proj2 (Z.leb_le (Z.abs t) _)) by lia. by rewrite (proj2 (Z.leb_le 0 t)) by lia.
Qed.

(** ** Heads over time *)

(** A specification of readings in sequence; no code keeps this state as it is
    written here.  Remembered between readings are the head and the instant it
    advanced, unless the reading was not usable.  The synchronisation
    orchestrator, which calls the classification, stores less: only the heads it
    found current, and it passes no previous head after a reorganisation. *)
Definition next_head (previous : option (Z * Z)) (position : Z) (d : ChainObservationFreshnessDecision)
    : option (Z * Z) :=
  match fd_freshness d, fd_effectiveHeadAdvancedAtMs d with
  | QUARANTINED, _ | _, None => previous
  | _, Some advancedAtMs => Some (position, advancedAtMs)
  end.

(** A reading: the clock, the position and when it was retrieved. *)
Notation reading := (Z * Z * Z)%type.

Fixpoint observe_head (policy : ChainObservationNetworkPolicy) (previous : option (Z * Z)) (readings : list reading)
    : option (Z * Z) :=
  match readings with
  | [] => previous
  | (nowMs, position, retrievedAtMs) :: readings =>
      observe_head policy
        (next_head previous position (classify_head policy nowMs previous position retrievedAtMs)) readings
  end.

Lemma classify_head_cases policy nowMs previous position retrievedAtMs :
  let d := classify_head policy nowMs previous position retrievedAtMs in
  fd_freshness d = QUARANTINED /\ fd_reason d = HEAD_REGRESSION /\
    (exists p a, previous = Some (p, a) /\ position < p /\ a <= retrievedAtMs) \/
  fd_freshness d = UNAVAILABLE /\ fd_effectiveHeadAdvancedAtMs d = None /\ fd_reason d = INVALID_PROGRESS \/
  exists advancedAtMs, fd_effectiveHeadAdvancedAtMs d = Some advancedAtMs /\
    advancedAtMs <= retrievedAtMs <= nowMs /\
    (advancedAtMs = retrievedAtMs /\ (forall p a, previous = Some (p, a) -> p < position /\ a <= retrievedAtMs) \/
     previous = Some (position, advancedAtMs)) /\
    fd_freshness d =
      (if nowMs - advancedAtMs <=? pol_currentWithinMs policy then CURRENT
       else if nowMs - advancedAtMs <=? pol_unavailableAfterMs policy then STALE else UNAVAILABLE).
Proof.
  unfold classify_head. destruct (Z.ltb_spec nowMs retrievedAtMs); [by right; left|].
  assert (forall a, a <= retrievedAtMs -> Z.max (nowMs - retrievedAtMs) (nowMs - a) = nowMs - a) as Hmax by lia.
  destruct previous as [[p a]|].
  - destruct ((nowMs <? a) || (retrievedAtMs <? a)) eqn:E; [by right; left|]. bsimpl.
    destruct (Z.ltb_spec position p); [left; split_and!; try done; by exists p, a|].
    destruct (Z.eqb_spec position p) as [->|Hne]; right; right.
    + exists a. rewrite Hmax by done.
      split; [by destruct (_ <=? _); [|destruct (_ <=? _)]|]. split; [lia|]. split; [by right|].
      by destruct (_ <=? _); [|destruct (_ <=? _)].
    + exists retrievedAtMs. rewrite Hmax by lia.
      split; [by destruct (_ <=? _); [|destruct (_ <=? _)]|]. split; [lia|].
      split; [left; split; [done|]; intros ? ? [= <- <-]; lia|].
      by destruct (_ <=? _); [|destruct (_ <=? _)].
  - right; right. exists retrievedAtMs. rewrite Hmax by lia.
    split; [by destruct (_ <=? _); [|destruct (_ <=? _)]|]. split; [lia|]. split; [by left|].
    by destruct (_ <=? _); [|destruct (_ <=? _)].
Qed.

(** A reading that does not show a higher position leaves the head alone. *)
Lemma next_head_same policy nowMs p a position retrievedAtMs : position <= p ->
  next_head (Some (p, a)) position (classify_head policy nowMs (Some (p, a)) position retrievedAtMs) = Some (p, a).
Proof.
  intros Hle. unfold next_head.
  destruct (classify_head_cases policy nowMs (Some (p, a)) position retrievedAtMs)
    as [(-> & _)|[(-> & -> & _)|(adv & -> & _ & [[_ H]|[= -> ->]] & ->)]]; [done | done | |].
  - destruct (H p a eq_refl). lia.
  - by destruct (_ <=? _); [|destruct (_ <=? _)].
Qed.

Lemma observe_head_same policy p a readings : Forall (fun r : reading => r.1.2 <= p) readings ->
  observe_head policy (Some (p, a)) readings = Some (p, a).
Proof.
  induction 1 as [|[[n q] r] l Hq _ IH]; [done|]. cbn [observe_head fst snd] in *.
  by rewrite next_head_same.
Qed.

(** What is remembered was read. *)
Lemma observe_head_read policy previous readings p a :
  observe_head policy previous readings = Some (p, a) ->
  previous = Some (p, a) \/ exists nowMs, (nowMs, p, a) ∈ readings /\ a <= nowMs.
Proof.
  revert previous. induction readings as [|[[n q] r] l IH]; intros previous; cbn [observe_head]; [by left|].
  intros [H|(nowMs & Hin & Hle)]%IH; [|right; exists nowMs; split; [by right | done]].
  unfold next_head in H. destruct (classify_head_cases policy n previous q r)
    as [(E & _)|[(E & E' & _)|(adv & E' & Hr & Hp & _)]].
  - left. by rewrite E in H.
  - left. rewrite E, E' in H. done.
  - rewrite E' in H. destruct (fd_freshness _) eqn:Ef; [| | |left; done];
      injection H as <- <-; (destruct Hp as [[-> _]|Hp]; [right; exists n; split; [left | lia] | by left]).
Qed.

(** *** Blocks *)

(** [b] directly follows [a]. *)
Definition follows (a b : ChainBlockReference) : Prop :=
  block_position b = block_position a + 1 /\ block_parentHash b = block_hash a.

(** A tier's index takes the candidates it accepts. *)
Fixpoint index_blocks (t : string) (head : ChainBlockReference) (candidates : list ChainBlockReference)
    : list ChainBlockReference :=
  match candidates with
  | [] => []
  | candidate :: candidates =>
      match cc_action (continue_block t head candidate) with
      | ACCEPT_APPEND => candidate :: index_blocks t candidate candidates
      | _ => index_blocks t head candidates
      end
  end.

Fixpoint linked (a : ChainBlockReference) (bs : list ChainBlockReference) : Prop :=
  match bs with
  | [] => True
  | b :: bs => follows a b /\ linked b bs
  end.

Lemma continue_block_append t a b :
  cc_action (continue_block t a b) = ACCEPT_APPEND <-> follows a b.
Proof.
  unfold continue_block, follows, disagreement.
  destruct (Z.eqb_spec (block_position b) (block_position a)) as [E|E]; cbn [andb].
  - rewrite E, (proj2 (Z.leb_le _ _)) by lia.
    split; [|lia]. destruct (_ && _); [done|]. by destruct (String.eqb t "FINANCIAL").
  - destruct (Z.leb_spec (block_position b) (block_position a)).
    { split; [by destruct (String.eqb t "FINANCIAL") | lia]. }
    destruct (Z.eqb_spec (block_position b) (block_position a + 1)); [|split; [done | lia]].
    destruct (String.eqb_spec (block_parentHash b) (block_hash a)); [by split|].
    split; [by destruct (String.eqb t "FINANCIAL") | by intros [_ ?]].
Qed.

Lemma index_blocks_linked t head candidates : linked head (index_blocks t head candidates).
Proof.
  revert head. induction candidates as [|c cs IH]; intros head; cbn [index_blocks]; [done|].
  destruct (cc_action (continue_block t head c)) eqn:E; try apply IH.
  split; [by apply (continue_block_append t) | apply IH].
Qed.

(** ** Theorems *)

(** C19: a head that stopped advancing is never reported current again, however
    often it is read: as long as no reading shows a higher position, what is
    remembered does not change, and once the policy's limit has passed since the
    head advanced every reading is stale, unavailable or quarantined.  And
    whenever a reading is current, its position was first retrieved, in this
    reading or an earlier one, within the limit. *)
Theorem stale_head_not_refreshed policy readings p a more nowMs position retrievedAtMs :
  observe_head policy None readings = Some (p, a) ->
  Forall (fun r : reading => r.1.2 <= p) more ->
  let head := observe_head policy None (readings ++ more) in
  let d := classify_head policy nowMs head position retrievedAtMs in
  head = Some (p, a) /\
  (position <= p -> pol_currentWithinMs policy < nowMs - a -> fd_freshness d <> CURRENT) /\
  (fd_freshness d = CURRENT -> exists advancedAtMs,
     fd_effectiveHeadAdvancedAtMs d = Some advancedAtMs /\ nowMs - advancedAtMs <= pol_currentWithinMs policy /\
     ((position > p /\ advancedAtMs = retrievedAtMs) \/ (position = p /\ advancedAtMs = a)) /\
     exists n, (n, position, advancedAtMs) ∈ readings ++ [(nowMs, position, retrievedAtMs)]).
Proof.
  intros Hr Hm.
  assert (observe_head policy None (readings ++ more) = Some (p, a)) as Hh.
  { assert (forall previous, observe_head policy previous (readings ++ more) =
      observe_head policy (observe_head policy previous readings) more) as ->.
    { clear. induction readings as [|[[n q] r] l IH]; intros previous; [done|]. cbn [app observe_head]. apply IH. }
    rewrite Hr. by apply observe_head_same. }
  rewrite Hh. cbn zeta. split; [done|].
  destruct (classify_head_cases policy nowMs (Some (p, a)) position retrievedAtMs)
    as [(-> & _)|[(-> & _ & _)|(adv & Ea & Hle & Hp & ->)]]; [by split | by split|].
  split.
  - intros Hpos Hold. destruct Hp as [[_ Hp]|[= <- <-]]; [destruct (Hp p a eq_refl); lia|].
    rewrite (proj2 (Z.leb_gt _ _)) by done. by destruct (_ <=? _).
  - destruct (Z.leb_spec (nowMs - adv) (pol_currentWithinMs policy)); [|by destruct (_ <=? _)].
    intros _. exists adv. split; [done|]. split; [done|]. destruct Hp as [[-> Hp]|[= -> ->]].
    + destruct (Hp p a eq_refl). split; [left; split; [lia | done]|].
      exists nowMs. apply elem_of_app. right. left.
    + split; [by right|]. apply observe_head_read in Hr as [|(n & Hin & _)]; [done|].
      exists n. apply elem_of_app. by left.
Qed.

(** An observation may authorise financial use only for the financial tier
    of a network where that tier is allowed (never Arbitrum or the local
    network, never an unknown one), with every approval given, a current head
    and healthy finality. *)
Theorem financial_use_iff networkId requestedTier approvals :
  canObservationAuthorizeFinancialUse networkId requestedTier approvals = true <->
  requestedTier = "FINANCIAL" /\
  networkId ∈ ["eip155:1"; "eip155:11155111"; "eip155:8453"; "eip155:84532";
    "solana:5eykt4UsFv8P8NJdTREpY1vzqKqZKvdp"; "solana:EtWTRABZaYq6iMfeYKouRu166VU2xqa1"] /\
  isRecord approvals = true /\
  Forall (fun key => prop approvals key = VBool true)
    (FINANCIAL_APPROVALS ++ ["lineageValidated"; "quarantineClear"]) /\
  prop approvals "freshness" = VStr "CURRENT" /\ prop approvals "finalityStatus" = VStr "HEALTHY".
Proof.
  assert (forall n, match observationTierRule n "FINANCIAL" with
      | Some rule => match rule_state rule with ALLOWED => true | _ => false end | None => false end = true <->
    n ∈ ["eip155:1"; "eip155:11155111"; "eip155:8453"; "eip155:84532";
      "solana:5eykt4UsFv8P8NJdTREpY1vzqKqZKvdp"; "solana:EtWTRABZaYq6iMfeYKouRu166VU2xqa1"]) as Hrule.
  { intros n. split.
    - unfold observationTierRule. destruct (chainObservationPolicyForNetwork n) as [policy|] eqn:E; [|done].
      apply policy_of_network in E as [<- Hin]. cbn [mbind option_bind].
      repeat (apply elem_of_cons in Hin as [->|Hin]; [vm_compute; intros H; solve [done | solve_elem]|]).
      by apply not_elem_of_nil in Hin.
    - intros Hin. repeat (apply elem_of_cons in Hin as [->|Hin]; [reflexivity|]). by apply not_elem_of_nil in Hin. }
  unfold canObservationAuthorizeFinancialUse. rewrite !andb_true_iff, !is_true_spec, !is_text_spec, String.eqb_eq.
  rewrite Forall_app, !Forall_cons, Forall_nil.
  assert (forallb (fun key => is_true (prop approvals key)) FINANCIAL_APPROVALS = true <->
    Forall (fun key => prop approvals key = VBool true) FINANCIAL_APPROVALS) as ->.
  { rewrite forallb_forall, Forall_forall. by setoid_rewrite is_true_spec; setoid_rewrite list_elem_of_In. }
  split.
  - intros (((((((-> & Hr%Hrule) & ?) & ?) & ?) & ?) & ?) & ?). done.
  - intros (-> & Hr%Hrule & ? & (? & ? & ? & _) & ? & ?). done.
Qed.

(** The blocks an index accepts form one chain: each appended block has the
    next position and names its predecessor's hash.  An accepted input is for an
    observed network and a tier that is not blocked, with a live proof above the
    provisional tier; a disagreement of finalized blocks is quarantined and
    never recovered from; and no decision lets finalized facts change. *)
Theorem continuity_sound input :
  (forall t head candidates, linked head (index_blocks t head candidates)) /\
  (cc_action (decideChainContinuity input) = ACCEPT_APPEND ->
     exists networkId t rule previous candidate,
       prop input "networkId" = VStr networkId /\ prop input "tier" = VStr t /\
       observationTierRule networkId t = Some rule /\ rule_state rule <> TIER_BLOCKED_PENDING_LIVE_PROOF /\
       (t = "PROVISIONAL" \/ prop input "liveCapabilityProofValidated" = VBool true) /\
       validBlockReference (prop input "previous") = Some previous /\
       validBlockReference (prop input "candidate") = Some candidate /\ follows previous candidate) /\
  (prop input "tier" = VStr "FINANCIAL" ->
     cc_action (decideChainContinuity input) <> RECOVER_PROVISIONAL_FROM_LAST_FINALIZED_COMMON_ANCESTOR) /\
  cc_mayMutateFinalizedFacts (decideChainContinuity input) = false /\
  cc_maxReadUnits (decideChainContinuity input) = MAX_READ_UNITS_PER_JOB.
Proof.
  assert (forall action, cc_mayMutateFinalizedFacts (continuityDecision action) = false) as Hf by done.
  assert (exists action, decideChainContinuity input = continuityDecision action) as [action Ed].
  { unfold decideChainContinuity. destruct (isRecord input); [|eauto].
    destruct (prop input "networkId"); eauto. destruct (prop input "tier"); eauto.
    destruct (observationTierRule _ _); [|eauto]. destruct (_ || _); [eauto|].
    destruct (validBlockReference (prop input "previous")), (validBlockReference (prop input "candidate"));
      unfold continue_block, disagreement;
      repeat match goal with |- context [if ?b then continuityDecision _ else _] => destruct b end; eauto. }
  split; [apply index_blocks_linked|]. split; [|split; [|by rewrite Ed]].
  - unfold decideChainContinuity. destruct (isRecord input); [|done].
    destruct (prop input "networkId") as [| | | | |networkId| | | | | |]; try done.
    destruct (prop input "tier") as [| | | | |t| | | | | |]; try done.
    destruct (observationTierRule networkId t) as [rule|] eqn:Er; [|done].
    destruct (_ || _) eqn:Eb; [done|]. apply orb_false_iff in Eb as [Eb1 Eb2].
    assert (cc_action (disagreement t) <> ACCEPT_APPEND) as Hd
      by (unfold disagreement; destruct (String.eqb t "FINANCIAL"); discriminate).
    destruct (validBlockReference (prop input "previous")) as [previous|] eqn:Ep; [|done].
    destruct (validBlockReference (prop input "candidate")) as [candidate|] eqn:Ec; [|done].
    intros H%continue_block_append. exists networkId, t, rule, previous, candidate.
    split_and!; try done.
    + by destruct (rule_state rule).
    + apply andb_false_iff in Eb2 as [E|E]; apply negb_false_iff in E; [left; by apply String.eqb_eq | right; by apply is_true_spec].
  - intros Ht. unfold decideChainContinuity. rewrite Ht. destruct (isRecord input); [|done].
    destruct (prop input "networkId") as [| | | | |networkId| | | | | |]; try done.
    destruct (observationTierRule networkId _) as [rule|]; [|done]. destruct (_ || _); [done|].
    destruct (validBlockReference (prop input "previous")) as [a|], (validBlockReference (prop input "candidate")) as [b|]; try done.
    unfold continue_block, disagreement. rewrite String.eqb_refl.
    repeat match goal with |- context [if ?b then _ else _] => destruct b end; done.
Qed.

(** The shipped registries pass the check made at load time, if their digests are
    the reviewed ones. *)
Lemma registry_bindings_hold sha256 mainnet testnet :
  MAINNET_SUPPORTED_ASSET_REGISTRY sha256 = Ok mainnet -> TESTNET_SUPPORTED_ASSET_REGISTRY sha256 = Ok testnet ->
  snap_fingerprintSha256 (reg_latest mainnet) = bind_fingerprintSha256 (CHAIN_OBSERVATION_REGISTRY_BINDINGS MAINNET) ->
  snap_fingerprintSha256 (reg_latest testnet) = bind_fingerprintSha256 (CHAIN_OBSERVATION_REGISTRY_BINDINGS TESTNET) ->
  assertRegistryBinding MAINNET mainnet = true /\ assertRegistryBinding TESTNET testnet = true.
Proof.
  intros Hm Ht Em Et. unfold assertRegistryBinding. rewrite Em, Et, !String.eqb_refl. vm_compute in Hm, Ht.
  injection Hm as <-. injection Ht as <-. split; reflexivity.
Qed.

(** ** Examples *)

Definition ethereum_policy_example : ChainObservationNetworkPolicy :=
  evmPolicy ETHEREUM (Registry MAINNET) "eip155:1" "0x1" 60000 900000 1800000.

Definition freshness_input_example : jsval :=
  js_object [("networkId", VStr "eip155:1"); ("nowMs", VNum (JInt 100000)); ("identityValidated", VBool true);
    ("previous", js_object [("position", VBig 7); ("advancedAtMs", VNum (JInt 30000))]);
    ("candidate", js_object [("position", VBig 7); ("retrievedAtMs", VNum (JInt 99000))])].

(** The same head read again a minute later is stale although the reading is new. *)
Example freshness_example :
  fd_freshness (classifyChainObservationFreshness freshness_input_example) = STALE.
Proof. vm_compute. reflexivity. Qed.

Definition approvals_example : jsval :=
  js_object (((fun k => (k, VBool true)) <$> FINANCIAL_APPROVALS) ++
    [("freshness", VStr "CURRENT"); ("finalityStatus", VStr "HEALTHY"); ("lineageValidated", VBool true);
     ("quarantineClear", VBool true)]).

Example financial_use_example :
  canObservationAuthorizeFinancialUse "eip155:1" "FINANCIAL" approvals_example = true /\
  canObservationAuthorizeFinancialUse "eip155:42161" "FINANCIAL" approvals_example = false.
Proof. vm_compute. done. Qed.

Lemma stale_head_not_refreshed_witness :
  fd_freshness (classify_head ethereum_policy_example 100000
    (observe_head ethereum_policy_example None ([(30500, 7, 30000)] ++ [(60500, 7, 60000)])) 7 99000) <> CURRENT.
Proof.
  destruct (stale_head_not_refreshed ethereum_policy_example [(30500, 7, 30000)] 7 30000 [(60500, 7, 60000)]
    100000 7 99000 ltac:(vm_compute; reflexivity) ltac:(repeat constructor; cbn; lia)) as (_ & H & _).
  apply H; [lia | vm_compute; reflexivity].
Defined.
