(* ===== verification/Valuation.v ===== *)
(** * Stablecoin valuation (apps/api/src/valuation/domain/stablecoin-valuation-policy.ts)

    The classifier of price observations from two sources and the exact dollar
    arithmetic; the recovery classifier of the same source is in
    ValuationRecovery.v.  Inputs are
    untrusted values; parsing failures become the [INVALID_INPUT] result. *)

From stdpp Require Import base list strings sets sorting.
From Stdlib Require Import ZArith Lia Sorted Ascii.
From S2P Require Import Prelude Text JsValue JsDate JsCollections AssetRegistry.

Open Scope Z_scope.

(** ** Data *)

Inductive StablecoinValuationSourceId : Type := PYTH_CORE | CHAINLINK_DATA_FEEDS.

#[export] Program Instance STABLECOIN_VALUATION_SOURCES : JsEnum StablecoinValuationSourceId := {
  enum_values := [PYTH_CORE; CHAINLINK_DATA_FEEDS];
  enum_str := fun s => match s with
    | PYTH_CORE => "PYTH_CORE" | CHAINLINK_DATA_FEEDS => "CHAINLINK_DATA_FEEDS" end;
}.
Next Obligation. solve_enum_all. Qed.
Next Obligation. solve_enum_inj. Qed.

Inductive StablecoinValuationAvailability : Type := AVAILABLE | UNAVAILABLE.
Inductive StablecoinValuationFreshness : Type := CURRENT | STALE | FRESHNESS_UNAVAILABLE.
Inductive StablecoinValuationConfidenceClass : Type := MEDIUM | LOW | CONFIDENCE_UNAVAILABLE.
Inductive StablecoinValuationDepegClass : Type := DEPEG_NOT_ASSESSED | WITHIN_POLICY | OUTSIDE_POLICY.
Inductive StablecoinDownsideBand : Type := NORMAL | WATCH | DEPEGGED | DOWNSIDE_NOT_ASSESSED.
Inductive StablecoinSourceAgreement : Type :=
| CORROBORATED | SOFT_DISAGREEMENT | CONFLICT | SINGLE_SOURCE_AGREEMENT | AGREEMENT_NOT_AVAILABLE.
Inductive StablecoinValuationSelection : Type := PRIMARY | FALLBACK | CONSERVATIVE_MINIMUM | NO_SELECTION.

Inductive StablecoinValuationReason : Type :=
| INVALID_INPUT | NO_ELIGIBLE_SOURCE | SOURCE_CONFLICT | SINGLE_SOURCE | FALLBACK_SOURCE_SELECTED
| SOFT_SOURCE_DISAGREEMENT | PUBLISHED_CONFIDENCE_LOWER_BOUND | UPSIDE_CAPPED_AT_PEG
| WATCH_DOWNSIDE | DEPEG_DETECTED | NUMERIC_LIMIT_EXCEEDED.

Inductive StablecoinSourceEligibility : Type :=
| ELIGIBLE_CURRENT | STALE_SOURCE | MISSING | EXPIRED | FUTURE_TIMESTAMP
| NON_MONOTONIC_SEQUENCE | REPLAYED_OR_REGRESSED | WIDE_CONFIDENCE.

Inductive StablecoinSourceRole : Type := PRIMARY_SOURCE | FALLBACK_AND_CROSS_CHECK.
Inductive StablecoinReportingUse : Type := CONSERVATIVE_REPORTING_ONLY | BLOCKED.

#[export] Instance reason_eq_dec : EqDecision StablecoinValuationReason.
Proof. solve_decision. Defined.
#[export] Instance eligibility_eq_dec : EqDecision StablecoinSourceEligibility.
Proof. solve_decision. Defined.
#[export] Instance freshness_eq_dec : EqDecision StablecoinValuationFreshness.
Proof. solve_decision. Defined.
#[export] Instance agreement_eq_dec : EqDecision StablecoinSourceAgreement.
Proof. solve_decision. Defined.
#[export] Instance downside_eq_dec : EqDecision StablecoinDownsideBand.
Proof. solve_decision. Defined.
#[export] Instance depeg_eq_dec : EqDecision StablecoinValuationDepegClass.
Proof. solve_decision. Defined.
#[export] Instance availability_eq_dec : EqDecision StablecoinValuationAvailability.
Proof. solve_decision. Defined.
#[export] Instance confidence_class_eq_dec : EqDecision StablecoinValuationConfidenceClass.
Proof. solve_decision. Defined.

Record StablecoinValuationAssetReference : Type := {
  ref_registryEnvironment : AssetRegistryEnvironment;
  ref_registryVersion : Z;
  ref_registryFingerprintSha256 : string;
  ref_stablecoin : SupportedStablecoin;
  ref_networkId : string;
  ref_identity : string;
  ref_decimals : Z;
}.

Definition STABLECOIN_VALUATION_FEED_REFERENCES (s : SupportedStablecoin)
    (source : StablecoinValuationSourceId) : string :=
  match s, source with
  | USDC, PYTH_CORE => "eaa020c61cc479712813461ce153894a96a6c00b21ed0cfc2798d1f9a9e9c94a"
  | USDC, CHAINLINK_DATA_FEEDS => "usdc-usd.data.eth"
  | USDT, PYTH_CORE => "2b89b9dc8fdf9f34709a5b106b472f0f39bb6ca9ce04b0fd7f2e971688e2e53b"
  | USDT, CHAINLINK_DATA_FEEDS => "usdt-usd.data.eth"
  | PYUSD, PYTH_CORE => "c1da1b73d7f01e7ddd54b3766cf7fcd644395ad14f70aa706ec5384c59e76692"
  | PYUSD, CHAINLINK_DATA_FEEDS => "pyusd-usd.data.eth"
  end.

Inductive StablecoinPriceConfidence : Type :=
| PUBLISHED_ABSOLUTE_USD (mantissa : string) (scale : Z)
| NOT_PUBLISHED.

Record StablecoinPriceObservation : Type := {
  obs_asset : StablecoinValuationAssetReference;
  obs_sourceId : StablecoinValuationSourceId;
  obs_sourceReference : string;
  obs_sourceSequence : string;
  obs_sourceUpdateId : string;
  obs_pricedAt : string;
  obs_observedAt : string;
  obs_usdRateMantissa : string;
  obs_usdRateScale : Z;
  obs_confidence : StablecoinPriceConfidence;
}.

Record FixedDecimal : Type := { mantissa : Z; scale : Z }.

Record ParsedObservation : Type := {
  po_public : StablecoinPriceObservation;
  po_pricedAtMs : Z;
  po_observedAtMs : Z;
  po_rate : FixedDecimal;
  po_confidenceAmount : option FixedDecimal;
}.

(** A source accepted before: its last sequence, instants and update. *)
Record AcceptedWatermark : Type := {
  lastAcceptedSequence : string;
  lastAcceptedPricedAt : string;
  lastAcceptedObservedAt : string;
  lastAcceptedUpdateId : string;
  lastAcceptedPricedAtMs : Z;
  lastAcceptedObservedAtMs : Z;
}.

Record ParsedSourceWatermark : Type := {
  wm_sourceId : StablecoinValuationSourceId;
  wm_lastAccepted : option AcceptedWatermark;
}.

Record ParsedRequest : Type := {
  pr_asset : StablecoinValuationAssetReference;
  pr_amountAtomic : string;
  pr_amount : Z;
  pr_evaluatedAt : string;
  pr_evaluatedAtMs : Z;
  pr_sourceWatermarks : list ParsedSourceWatermark;
  pr_observations : list ParsedObservation;
}.

Record StablecoinSourceAssessment : Type := {
  sa_sourceId : StablecoinValuationSourceId;
  sa_role : StablecoinSourceRole;
  sa_eligibility : StablecoinSourceEligibility;
  sa_observation : option StablecoinPriceObservation;
  sa_conservativeUsdRateMantissa : option string;
  sa_conservativeUsdRateScale : option Z;
}.

Record SourceCandidate : Type := {
  cand_assessment : StablecoinSourceAssessment;
  cand_observation : ParsedObservation;
  cand_conservativeRate : FixedDecimal;
  cand_freshness : StablecoinValuationFreshness;
  cand_confidenceLowerBoundApplied : bool;
}.

Record InternalAssessment : Type := {
  ia_publicAssessment : StablecoinSourceAssessment;
  ia_candidate : option SourceCandidate;
}.

Record StablecoinValuationResult : Type := {
  val_availability : StablecoinValuationAvailability;
  val_asset : option StablecoinValuationAssetReference;
  val_amountAtomic : option string;
  val_evaluatedAt : option string;
  val_selection : StablecoinValuationSelection;
  val_selectedSourceId : option StablecoinValuationSourceId;
  val_selectedSourceReference : option string;
  val_selectedSourceSequence : option string;
  val_pricedAt : option string;
  val_observedAt : option string;
  val_usdRateMantissa : option string;
  val_usdRateScale : option Z;
  val_usdValueMantissa : option string;
  val_freshnessClass : StablecoinValuationFreshness;
  val_confidenceClass : StablecoinValuationConfidenceClass;
  val_depegClass : StablecoinValuationDepegClass;
  val_downsideBand : StablecoinDownsideBand;
  val_sourceAgreement : StablecoinSourceAgreement;
  val_reasons : list StablecoinValuationReason;
  val_sourceAssessments : list StablecoinSourceAssessment;
  val_reportingUse : StablecoinReportingUse;
  val_mayIncreaseBuyingPower : bool;
  val_mayAuthorizeFinancialUse : bool;
}.

(** The bounds of [STABLECOIN_VALUATION_POLICY]. *)
Definition maxObservations : Z := 8.
Definition maxAmountDigits : Z := 78.
Definition maxRateDigits : Z := 78.
Definition maxRateScale : Z := 36.
Definition maxAssetDecimals : Z := 36.
Definition maxProductDigits : Z := 156.
Definition maxUsdValueDigits : Z := 96.
Definition usdValueScale : Z := 18.
Definition normalizedUsdRateScale : Z := 8.
Definition currentWithinMs : Z := 60000.
Definition unavailableAfterMs : Z := 300000.
Definition publishedWidthEligibleAtOrBelowBps : Z := 50.
Definition mediumPublishedWidthAtOrBelowBps : Z := 25.
Definition corroboratedAtOrBelowBps : Z := 25.
Definition softDisagreementAtOrBelowBps : Z := 50.
Definition normalAtOrBelowBps : Z := 50.
Definition depeggedAtOrAboveBps : Z := 200.
Definition consecutiveDualCorroboratedObservations : Z := 4.
Definition withinPegBps : Z := 25.
Definition minimumSpanMs : Z := 1800000.

Definition sourceOrder : list (StablecoinValuationSourceId * StablecoinSourceRole) :=
  [(PYTH_CORE, PRIMARY_SOURCE); (CHAINLINK_DATA_FEEDS, FALLBACK_AND_CROSS_CHECK)].

(** [throw new InvalidValuationInput()] *)
Inductive InvalidValuationInput : Type := invalidInput.
Notation parsed := (result InvalidValuationInput).

(** ** Fixed-point arithmetic (no operand is negative) *)

Definition powerOfTen (exponent : Z) : Z := 10 ^ exponent.

Definition compareBigInt (left right : Z) : Z :=
  if left <? right then -1 else if right <? left then 1 else 0.

Definition compareFixed (first second : FixedDecimal) : Z :=
  compareBigInt (mantissa first * powerOfTen (scale second)) (mantissa second * powerOfTen (scale first)).

(** The loop drops one trailing zero per turn, at most [scale] of them. *)
Fixpoint drop_zeros (scale : nat) (m : Z) : FixedDecimal :=
  match scale with
  | O => {| mantissa := m; scale := 0 |}
  | S n => if m mod 10 =? 0 then drop_zeros n (m / 10)
           else {| mantissa := m; scale := Z.of_nat scale |}
  end.

Definition canonicalFixed (value : FixedDecimal) : FixedDecimal :=
  drop_zeros (Z.to_nat (scale value)) (mantissa value).

Definition minimumFixed (first second : FixedDecimal) : FixedDecimal :=
  if compareFixed first second <=? 0 then first else second.

Definition absoluteDifference (first second : FixedDecimal) : FixedDecimal :=
  let s := if scale second <=? scale first then scale first else scale second in
  let firstMantissa := mantissa first * powerOfTen (s - scale first) in
  let secondMantissa := mantissa second * powerOfTen (s - scale second) in
  canonicalFixed {| mantissa := if secondMantissa <=? firstMantissa
                                then firstMantissa - secondMantissa
                                else secondMantissa - firstMantissa;
                    scale := s |}.

Definition subtractFixedFloorZero (minuend subtrahend : FixedDecimal) : FixedDecimal :=
  let s := if scale subtrahend <=? scale minuend then scale minuend else scale subtrahend in
  let minuendMantissa := mantissa minuend * powerOfTen (s - scale minuend) in
  let subtrahendMantissa := mantissa subtrahend * powerOfTen (s - scale subtrahend) in
  {| mantissa := if subtrahendMantissa <? minuendMantissa
                 then minuendMantissa - subtrahendMantissa else 0;
     scale := s |}.

Definition absoluteUsdAmountExceedsBps (amount : FixedDecimal) (thresholdBps : Z) : bool :=
  let canonical := canonicalFixed amount in
  thresholdBps * powerOfTen (scale canonical) <? mantissa canonical * 10000.

Definition absoluteUsdAmountAtOrAboveBps (amount : FixedDecimal) (thresholdBps : Z) : bool :=
  let canonical := canonicalFixed amount in
  thresholdBps * powerOfTen (scale canonical) <=? mantissa canonical * 10000.

Definition divideRoundHalfEven (numerator denominator : Z) : Z :=
  let quotient := numerator / denominator in
  let doubledRemainder := numerator mod denominator * 2 in
  if doubledRemainder <? denominator then quotient
  else if denominator <? doubledRemainder then quotient + 1
  else if quotient mod 2 =? 0 then quotient else quotient + 1.

Definition calculateUsdValue (amountAtomic assetDecimals : Z) (rate : FixedDecimal) : option Z :=
  let product := amountAtomic * mantissa rate in
  if maxProductDigits <? strlen (toString product) then None
  else
    let numerator := product * powerOfTen usdValueScale in
    let denominator := powerOfTen (assetDecimals + scale rate) in
    let value := divideRoundHalfEven numerator denominator in
    if strlen (toString value) <=? maxUsdValueDigits then Some value else None.

Definition classifySourceAgreement (first second : FixedDecimal) : StablecoinSourceAgreement :=
  let difference := absoluteDifference first second in
  if negb (absoluteUsdAmountExceedsBps difference corroboratedAtOrBelowBps) then CORROBORATED
  else if negb (absoluteUsdAmountExceedsBps difference softDisagreementAtOrBelowBps)
  then SOFT_DISAGREEMENT
  else CONFLICT.

Definition classifyDownside (rate : FixedDecimal) : StablecoinDownsideBand :=
  let peg := {| mantissa := 1; scale := 0 |} in
  if 0 <=? compareFixed rate peg then NORMAL
  else
    let downside := subtractFixedFloorZero peg rate in
    if negb (absoluteUsdAmountExceedsBps downside normalAtOrBelowBps) then NORMAL
    else if absoluteUsdAmountAtOrAboveBps downside depeggedAtOrAboveBps then DEPEGGED
    else WATCH.

Definition mostSevereDownsideBand (bands : list StablecoinDownsideBand) : StablecoinDownsideBand :=
  if bool_decide (DEPEGGED ∈ bands) then DEPEGGED
  else if bool_decide (WATCH ∈ bands) then WATCH
  else NORMAL.

(** ** Parsers of untrusted values *)

Definition dataRecord (input : jsval) (expectedKeys : list string) : parsed jsrec :=
  or_throw (exact_data_record expectedKeys input) invalidInput.

Definition dataArray (input : jsval) (minimum maximum : Z) : parsed (list jsval) :=
  or_throw (data_array minimum maximum input) invalidInput.

Definition MAX_ATOMIC_AMOUNT : string :=
  "115792089237316195423570985008687907853269984665640564039457584007913129639935".

Definition parseAmount (input : jsval) : parsed string :=
  match input with
  | VStr s =>
      if negb (POSITIVE_INTEGER_PATTERN s) || (maxAmountDigits <? strlen s)
         || exceeds_decimal MAX_ATOMIC_AMOUNT s
      then Err invalidInput else Ok s
  | _ => Err invalidInput
  end.

Definition parseScale (input : jsval) : parsed Z :=
  let* s := or_throw (safe_integer input) invalidInput in
  reject invalidInput when (s <? 0) || (maxRateScale <? s) in
  Ok s.

(** Canonical text with its milliseconds. *)
Definition parseTimestamp (input : jsval) : parsed (string * Z) :=
  match input with
  | VStr s =>
      match canonical_timestamp s with
      | Some milliseconds => if milliseconds <? 0 then Err invalidInput else Ok (s, milliseconds)
      | None => Err invalidInput
      end
  | _ => Err invalidInput
  end.

(** A canonical numeral of at most the given number of digits. *)
Definition parseDigits (pattern : string -> bool) (input : jsval) (digits : Z) : parsed string :=
  match input with
  | VStr s => if negb (pattern s) || (digits <? strlen s) then Err invalidInput else Ok s
  | _ => Err invalidInput
  end.

Definition parseSourceId (input : jsval) : parsed StablecoinValuationSourceId :=
  or_throw (enum_member enum_values input) invalidInput.

Definition validSourceUpdateId (source : StablecoinValuationSourceId) (updateId sequence : string)
    : bool :=
  match source with
  | PYTH_CORE => HEX64_PATTERN updateId
  | CHAINLINK_DATA_FEEDS => String.eqb updateId sequence
  end.

Definition parseConfidence (input : jsval) (source : StablecoinValuationSourceId)
    : parsed StablecoinPriceConfidence :=
  match source with
  | PYTH_CORE =>
      let* record := dataRecord input ["kind"; "mantissa"; "scale"] in
      let* s := parseScale (record .: "scale") in
      let* _ := match record .: "kind" with
                | VStr k => if String.eqb k "PUBLISHED_ABSOLUTE_USD" then Ok tt else Err invalidInput
                | _ => Err invalidInput
                end in
      let* m := parseDigits UNSIGNED_INTEGER_PATTERN (record .: "mantissa") maxRateDigits in
      reject invalidInput when negb (s =? normalizedUsdRateScale) in
      Ok (PUBLISHED_ABSOLUTE_USD m s)
  | CHAINLINK_DATA_FEEDS =>
      let* record := dataRecord input ["kind"] in
      match record .: "kind" with
      | VStr k => if String.eqb k "NOT_PUBLISHED" then Ok NOT_PUBLISHED else Err invalidInput
      | _ => Err invalidInput
      end
  end.

Definition parseSourceWatermark (input : jsval) : parsed ParsedSourceWatermark :=
  let* record := dataRecord input
    ["sourceId"; "lastAcceptedSequence"; "lastAcceptedPricedAt"; "lastAcceptedObservedAt";
     "lastAcceptedUpdateId"] in
  let* source := parseSourceId (record .: "sourceId") in
  if is_null (record .: "lastAcceptedSequence") && is_null (record .: "lastAcceptedPricedAt")
     && is_null (record .: "lastAcceptedObservedAt") && is_null (record .: "lastAcceptedUpdateId")
  then Ok {| wm_sourceId := source; wm_lastAccepted := None |}
  else
    let* sequence := parseDigits POSITIVE_INTEGER_PATTERN (record .: "lastAcceptedSequence")
                       maxAmountDigits in
    let* updateId := match record .: "lastAcceptedUpdateId" with
                     | VStr u => Ok u
                     | _ => Err invalidInput
                     end in
    reject invalidInput when negb (validSourceUpdateId source updateId sequence) in
    let* pricedAt := parseTimestamp (record .: "lastAcceptedPricedAt") in
    let* observedAt := parseTimestamp (record .: "lastAcceptedObservedAt") in
    reject invalidInput when snd observedAt <? snd pricedAt in
    Ok {| wm_sourceId := source;
          wm_lastAccepted := Some {| lastAcceptedSequence := sequence;
            lastAcceptedPricedAt := fst pricedAt; lastAcceptedObservedAt := fst observedAt;
            lastAcceptedUpdateId := updateId; lastAcceptedPricedAtMs := snd pricedAt;
            lastAcceptedObservedAtMs := snd observedAt |} |}.

(** Exactly one entry per source. *)
Definition one_per_source (sources : list StablecoinValuationSourceId) : bool :=
  forallb (fun source => (length (List.filter (fun s => bool_decide (s = source)) sources) =? 1)%nat)
    (enum_values (A := StablecoinValuationSourceId)).

Definition parseSourceWatermarks (input : jsval) : parsed (list ParsedSourceWatermark) :=
  let* inputs := dataArray input 2 2 in
  let* values := mapr parseSourceWatermark inputs in
  reject invalidInput when negb (one_per_source (wm_sourceId <$> values)) in
  Ok values.

Definition sameAsset (first second : StablecoinValuationAssetReference) : bool :=
  bool_decide (ref_registryEnvironment first = ref_registryEnvironment second)
  && (ref_registryVersion first =? ref_registryVersion second)
  && String.eqb (ref_registryFingerprintSha256 first) (ref_registryFingerprintSha256 second)
  && bool_decide (ref_stablecoin first = ref_stablecoin second)
  && String.eqb (ref_networkId first) (ref_networkId second)
  && String.eqb (ref_identity first) (ref_identity second)
  && (ref_decimals first =? ref_decimals second).

Definition publicObservation (observation : ParsedObservation) : StablecoinPriceObservation :=
  po_public observation.

(** ** The objects the classifier builds itself *)

Definition asset_js (a : StablecoinValuationAssetReference) : jsval := js_object
  [("registryEnvironment", VStr (enum_str (ref_registryEnvironment a)));
   ("registryVersion", VNum (JInt (ref_registryVersion a)));
   ("registryFingerprintSha256", VStr (ref_registryFingerprintSha256 a));
   ("stablecoin", VStr (enum_str (ref_stablecoin a))); ("networkId", VStr (ref_networkId a));
   ("identity", VStr (ref_identity a)); ("decimals", VNum (JInt (ref_decimals a)))].

Definition confidence_js (c : StablecoinPriceConfidence) : jsval :=
  match c with
  | PUBLISHED_ABSOLUTE_USD m s =>
      js_object [("kind", VStr "PUBLISHED_ABSOLUTE_USD"); ("mantissa", VStr m); ("scale", VNum (JInt s))]
  | NOT_PUBLISHED => js_object [("kind", VStr "NOT_PUBLISHED")]
  end.

Definition observation_js (o : StablecoinPriceObservation) : jsval := js_object
  [("asset", asset_js (obs_asset o)); ("sourceId", VStr (enum_str (obs_sourceId o)));
   ("sourceReference", VStr (obs_sourceReference o)); ("sourceSequence", VStr (obs_sourceSequence o));
   ("sourceUpdateId", VStr (obs_sourceUpdateId o)); ("pricedAt", VStr (obs_pricedAt o));
   ("observedAt", VStr (obs_observedAt o)); ("usdRateMantissa", VStr (obs_usdRateMantissa o));
   ("usdRateScale", VNum (JInt (obs_usdRateScale o))); ("confidence", confidence_js (obs_confidence o))].

Definition first_use_watermark (source : StablecoinValuationSourceId) : jsval := js_object
  [("sourceId", VStr (enum_str source)); ("lastAcceptedSequence", VNull);
   ("lastAcceptedPricedAt", VNull); ("lastAcceptedObservedAt", VNull);
   ("lastAcceptedUpdateId", VNull)].

Definition STABLECOIN_VALUATION_FIRST_USE_WATERMARKS : jsval :=
  js_array [first_use_watermark PYTH_CORE; first_use_watermark CHAINLINK_DATA_FEEDS].

(** ** Assessing one source *)

Definition publicAssessment source role eligibility (observation : option ParsedObservation)
    (rate : option FixedDecimal) : StablecoinSourceAssessment :=
  {| sa_sourceId := source; sa_role := role; sa_eligibility := eligibility;
     sa_observation := publicObservation <$> observation;
     sa_conservativeUsdRateMantissa := (fun r => toString (mantissa r)) <$> rate;
     sa_conservativeUsdRateScale := scale <$> rate |}.

Definition internalAssessment source role eligibility (observation : option ParsedObservation)
    (rate : option FixedDecimal) : InternalAssessment :=
  {| ia_publicAssessment := publicAssessment source role eligibility observation rate;
     ia_candidate := None |}.

Definition obs_sequence (o : ParsedObservation) : Z := BigInt (obs_sourceSequence (po_public o)).
Definition obs_update (o : ParsedObservation) : string := obs_sourceUpdateId (po_public o).
Definition obs_source (o : ParsedObservation) : StablecoinValuationSourceId :=
  obs_sourceId (po_public o).

(** The loop with its previous observation and its set of update ids. *)
Fixpoint monotonic_from (previous : option ParsedObservation) (updateIds : list string)
    (observations : list ParsedObservation) : bool :=
  match observations with
  | [] => true
  | o :: rest =>
      if has updateIds (obs_update o) then false
      else if match previous with
              | None => false
              | Some p => (obs_sequence o <=? obs_sequence p)
                          || (po_pricedAtMs o <? po_pricedAtMs p)
                          || (po_observedAtMs o <? po_observedAtMs p)
              end
      then false
      else monotonic_from (Some o) (obs_update o :: updateIds) rest
  end.

Definition hasMonotonicSequenceAndTime (observations : list ParsedObservation) : bool :=
  monotonic_from None [] observations.

Definition source_observations (request : ParsedRequest) (source : StablecoinValuationSourceId)
    : list ParsedObservation :=
  js_sort (fun l r => compareBigInt (obs_sequence l) (obs_sequence r))
    (List.filter (fun o => bool_decide (obs_source o = source)) (pr_observations request)).

Definition replayed_or_regressed (watermark : ParsedSourceWatermark) (o : ParsedObservation) : bool :=
  match wm_lastAccepted watermark with
  | None => false
  | Some w =>
      (obs_sequence o <=? BigInt (lastAcceptedSequence w))
      || (po_pricedAtMs o <? lastAcceptedPricedAtMs w)
      || (po_observedAtMs o <? lastAcceptedObservedAtMs w)
      || String.eqb (obs_update o) (lastAcceptedUpdateId w)
  end.

(** The conservative rate with whether the published bound was applied;
    [None] is too wide (or absent) a published confidence. *)
Definition conservative_rate (source : StablecoinValuationSourceId) (o : ParsedObservation)
    : option (FixedDecimal * bool) :=
  match source with
  | PYTH_CORE =>
      match po_confidenceAmount o with
      | None => None
      | Some confidence =>
          if absoluteUsdAmountExceedsBps confidence publishedWidthEligibleAtOrBelowBps then None
          else Some (subtractFixedFloorZero (po_rate o) confidence, 0 <? mantissa confidence)
      end
  | CHAINLINK_DATA_FEEDS => Some (po_rate o, false)
  end.

Definition assessSource (request : ParsedRequest) (source : StablecoinValuationSourceId)
    (role : StablecoinSourceRole) : InternalAssessment :=
  let observations := source_observations request source in
  match last observations with
  | None => internalAssessment source role MISSING None None
  | Some observation =>
      if negb (hasMonotonicSequenceAndTime observations)
      then internalAssessment source role NON_MONOTONIC_SEQUENCE (Some observation) None
      else
        match List.find (fun w => bool_decide (wm_sourceId w = source)) (pr_sourceWatermarks request) with
        | None => internalAssessment source role REPLAYED_OR_REGRESSED (Some observation) None
        | Some watermark =>
            if replayed_or_regressed watermark observation
            then internalAssessment source role REPLAYED_OR_REGRESSED (Some observation) None
            else if (pr_evaluatedAtMs request <? po_pricedAtMs observation)
                    || (pr_evaluatedAtMs request <? po_observedAtMs observation)
                    || (po_observedAtMs observation <? po_pricedAtMs observation)
            then internalAssessment source role FUTURE_TIMESTAMP (Some observation) None
            else
              let ageMs := pr_evaluatedAtMs request - po_pricedAtMs observation in
              if unavailableAfterMs <? ageMs
              then internalAssessment source role EXPIRED (Some observation) None
              else
                match conservative_rate source observation with
                | None => internalAssessment source role WIDE_CONFIDENCE (Some observation) None
                | Some (rate, lowerBoundApplied) =>
                    if maxRateDigits <? strlen (toString (mantissa rate))
                    then internalAssessment source role WIDE_CONFIDENCE (Some observation) None
                    else if currentWithinMs <? ageMs
                    then internalAssessment source role STALE_SOURCE (Some observation) (Some rate)
                    else
                      let assessment :=
                        publicAssessment source role ELIGIBLE_CURRENT (Some observation) (Some rate) in
                      {| ia_publicAssessment := assessment;
                         ia_candidate := Some {| cand_assessment := assessment;
                           cand_observation := observation; cand_conservativeRate := rate;
                           cand_freshness := CURRENT;
                           cand_confidenceLowerBoundApplied := lowerBoundApplied |} |}
                end
        end
  end.

Definition pythConfidenceAllowsMedium (candidates : list SourceCandidate) : bool :=
  match List.find (fun c => bool_decide (obs_source (cand_observation c) = PYTH_CORE)) candidates with
  | None => false
  | Some pyth =>
      match po_confidenceAmount (cand_observation pyth) with
      | None => false
      | Some confidence => negb (absoluteUsdAmountExceedsBps confidence mediumPublishedWidthAtOrBelowBps)
      end
  end.

(** ** Results *)

Definition REASON_ORDER : list StablecoinValuationReason :=
  [INVALID_INPUT; NO_ELIGIBLE_SOURCE; SOURCE_CONFLICT; NUMERIC_LIMIT_EXCEEDED; SINGLE_SOURCE;
   FALLBACK_SOURCE_SELECTED; SOFT_SOURCE_DISAGREEMENT; PUBLISHED_CONFIDENCE_LOWER_BOUND;
   UPSIDE_CAPPED_AT_PEG; WATCH_DOWNSIDE; DEPEG_DETECTED].

Definition orderedReasons (reasons : list StablecoinValuationReason) : list StablecoinValuationReason :=
  List.filter (fun reason => bool_decide (reason ∈ reasons)) REASON_ORDER.

Definition unavailableResult (asset : option StablecoinValuationAssetReference)
    (amountAtomic evaluatedAt : option string) (sourceAgreement : StablecoinSourceAgreement)
    (reasons : list StablecoinValuationReason) (sourceAssessments : list StablecoinSourceAssessment)
    (depegClass : StablecoinValuationDepegClass) (downsideBand : StablecoinDownsideBand)
    : StablecoinValuationResult :=
  {| val_availability := UNAVAILABLE; val_asset := asset; val_amountAtomic := amountAtomic;
     val_evaluatedAt := evaluatedAt; val_selection := NO_SELECTION; val_selectedSourceId := None;
     val_selectedSourceReference := None; val_selectedSourceSequence := None; val_pricedAt := None;
     val_observedAt := None; val_usdRateMantissa := None; val_usdRateScale := None;
     val_usdValueMantissa := None; val_freshnessClass := FRESHNESS_UNAVAILABLE;
     val_confidenceClass := CONFIDENCE_UNAVAILABLE; val_depegClass := depegClass;
     val_downsideBand := downsideBand; val_sourceAgreement := sourceAgreement;
     val_reasons := orderedReasons reasons; val_sourceAssessments := sourceAssessments;
     val_reportingUse := BLOCKED; val_mayIncreaseBuyingPower := false;
     val_mayAuthorizeFinancialUse := false |}.

Definition reason_when (b : bool) (r : StablecoinValuationReason) : list StablecoinValuationReason :=
  if b then [r] else [].

(** [candidates.reduce(...)]: the first of the lowest conservative rates. *)
Definition lowest_candidate (first : SourceCandidate) (rest : list SourceCandidate) : SourceCandidate :=
  foldl (fun lowest candidate =>
    if compareFixed (cand_conservativeRate candidate) (cand_conservativeRate lowest) <? 0
    then candidate else lowest) first rest.

Definition ONE_USD : FixedDecimal := {| mantissa := 100000000; scale := 8 |}.

(** On a non-empty pool of candidates. *)
Definition availableResult (request : ParsedRequest) (first : SourceCandidate)
    (rest : list SourceCandidate) (assessments : list StablecoinSourceAssessment)
    (sourceAgreement : StablecoinSourceAgreement)
    (confidenceClass : StablecoinValuationConfidenceClass) : StablecoinValuationResult :=
  let candidates := first :: rest in
  let selected := lowest_candidate first rest in
  let uncappedRate := cand_conservativeRate selected in
  let effectiveRate := minimumFixed uncappedRate ONE_USD in
  let upsideCapped := 0 <? compareFixed uncappedRate effectiveRate in
  match calculateUsdValue (pr_amount request) (ref_decimals (pr_asset request)) effectiveRate with
  | None =>
      unavailableResult (Some (pr_asset request)) (Some (pr_amountAtomic request))
        (Some (pr_evaluatedAt request)) sourceAgreement [NUMERIC_LIMIT_EXCEEDED] assessments
        DEPEG_NOT_ASSESSED DOWNSIDE_NOT_ASSESSED
  | Some usdValue =>
      let downsideBand := classifyDownside effectiveRate in
      let o := po_public (cand_observation selected) in
      let freshnessClass :=
        if forallb (fun c => bool_decide (cand_freshness c = CURRENT)) candidates
        then CURRENT else STALE in
      {| val_availability := AVAILABLE; val_asset := Some (pr_asset request);
         val_amountAtomic := Some (pr_amountAtomic request);
         val_evaluatedAt := Some (pr_evaluatedAt request);
         val_selection := if (1 <? length candidates)%nat then CONSERVATIVE_MINIMUM
                          else if bool_decide (obs_sourceId o = PYTH_CORE) then PRIMARY else FALLBACK;
         val_selectedSourceId := Some (obs_sourceId o);
         val_selectedSourceReference := Some (obs_sourceReference o);
         val_selectedSourceSequence := Some (obs_sourceSequence o);
         val_pricedAt := Some (obs_pricedAt o); val_observedAt := Some (obs_observedAt o);
         val_usdRateMantissa := Some (toString (mantissa effectiveRate));
         val_usdRateScale := Some (scale effectiveRate);
         val_usdValueMantissa := Some (toString usdValue);
         val_freshnessClass := freshnessClass;
         val_confidenceClass := match freshnessClass with STALE => LOW | _ => confidenceClass end;
         val_depegClass := if bool_decide (downsideBand = DEPEGGED) then OUTSIDE_POLICY else WITHIN_POLICY;
         val_downsideBand := downsideBand; val_sourceAgreement := sourceAgreement;
         val_reasons := orderedReasons
           (reason_when (length candidates =? 1)%nat SINGLE_SOURCE
            ++ reason_when (bool_decide (obs_sourceId o = CHAINLINK_DATA_FEEDS)) FALLBACK_SOURCE_SELECTED
            ++ reason_when (bool_decide (sourceAgreement = SOFT_DISAGREEMENT)) SOFT_SOURCE_DISAGREEMENT
            ++ reason_when (cand_confidenceLowerBoundApplied selected) PUBLISHED_CONFIDENCE_LOWER_BOUND
            ++ reason_when upsideCapped UPSIDE_CAPPED_AT_PEG
            ++ reason_when (bool_decide (downsideBand = WATCH)) WATCH_DOWNSIDE
            ++ reason_when (bool_decide (downsideBand = DEPEGGED)) DEPEG_DETECTED);
         val_sourceAssessments := assessments; val_reportingUse := CONSERVATIVE_REPORTING_ONLY;
         val_mayIncreaseBuyingPower := false; val_mayAuthorizeFinancialUse := false |}
  end.

(** The classification of a pool of candidates. *)
Definition classify_pool (request : ParsedRequest) (assessments : list StablecoinSourceAssessment)
    (pool : list SourceCandidate) : StablecoinValuationResult :=
  match pool with
  | [] =>
      unavailableResult (Some (pr_asset request)) (Some (pr_amountAtomic request))
        (Some (pr_evaluatedAt request)) AGREEMENT_NOT_AVAILABLE [NO_ELIGIBLE_SOURCE] assessments
        DEPEG_NOT_ASSESSED DOWNSIDE_NOT_ASSESSED
  | [first; second] =>
      let disagreement := classifySourceAgreement (po_rate (cand_observation first))
                            (po_rate (cand_observation second)) in
      match disagreement with
      | CONFLICT =>
          let downsideBand := mostSevereDownsideBand
            [classifyDownside (cand_conservativeRate first); classifyDownside (cand_conservativeRate second)] in
          unavailableResult (Some (pr_asset request)) (Some (pr_amountAtomic request))
            (Some (pr_evaluatedAt request)) CONFLICT
            (if bool_decide (downsideBand = DEPEGGED) then [SOURCE_CONFLICT; DEPEG_DETECTED]
             else [SOURCE_CONFLICT]) assessments
            (if bool_decide (downsideBand = DEPEGGED) then OUTSIDE_POLICY else DEPEG_NOT_ASSESSED)
            (if bool_decide (downsideBand = DEPEGGED) then DEPEGGED else DOWNSIDE_NOT_ASSESSED)
      | _ =>
          availableResult request first [second] assessments disagreement
            (if bool_decide (disagreement = CORROBORATED) && pythConfidenceAllowsMedium [first; second]
             then MEDIUM else LOW)
      end
  | first :: rest => availableResult request first rest assessments SINGLE_SOURCE_AGREEMENT LOW
  end.

Definition classify_request (request : ParsedRequest) : StablecoinValuationResult :=
  let internalAssessments := (fun sr => assessSource request sr.1 sr.2) <$> sourceOrder in
  let assessments := ia_publicAssessment <$> internalAssessments in
  let candidates := omap ia_candidate internalAssessments in
  classify_pool request assessments
    (List.filter (fun c => bool_decide (cand_freshness c = CURRENT)) candidates).

Definition calculateStablecoinUsdValueMantissa (input : jsval) : option string :=
  match
    (let* record := dataRecord input ["amountAtomic"; "assetDecimals"; "usdRateMantissa"; "usdRateScale"] in
     let* amountAtomic := parseAmount (record .: "amountAtomic") in
     let* rateScale := parseScale (record .: "usdRateScale") in
     let* assetDecimals := or_throw (safe_integer (record .: "assetDecimals")) invalidInput in
     reject invalidInput when (assetDecimals <? 0) || (maxAssetDecimals <? assetDecimals) in
     let* rateMantissa := parseDigits UNSIGNED_INTEGER_PATTERN (record .: "usdRateMantissa") maxRateDigits in
     Ok (calculateUsdValue (BigInt amountAtomic) assetDecimals
           {| mantissa := BigInt rateMantissa; scale := rateScale |}))
  with
  | Ok (Some value) => Some (toString value)
  | _ => None
  end.

(** ** The entry points, given the registry the process loaded *)

Section valuation.
(** [MAINNET_SUPPORTED_ASSET_REGISTRY] *)
Variable registry : VersionedSupportedAssetRegistry.

Definition parseAsset (input : jsval) : parsed StablecoinValuationAssetReference :=
  let* record := dataRecord input
    ["registryEnvironment"; "registryVersion"; "registryFingerprintSha256"; "stablecoin";
     "networkId"; "identity"; "decimals"] in
  match record .: "registryFingerprintSha256", record .: "networkId", record .: "identity" with
  | VStr registryFingerprintSha256, VStr networkId, VStr identity =>
      let* _ := or_throw (enum_member [MAINNET] (record .: "registryEnvironment")) invalidInput in
      reject invalidInput when negb (is_int (record .: "registryVersion") 1) in
      reject invalidInput when negb (HEX64_PATTERN registryFingerprintSha256) in
      let* stablecoin := or_throw (enum_member enum_values (record .: "stablecoin")) invalidInput in
      let* decimals := or_throw (safe_integer (record .: "decimals")) invalidInput in
      reject invalidInput when (decimals <? 0) || (maxAssetDecimals <? decimals) in
      let* snapshot := or_throw (atVersion registry 1) invalidInput in
      let* asset := or_throw (identifyAsset snapshot networkId identity) invalidInput in
      let* network := or_throw (network_of snapshot networkId) invalidInput in
      reject invalidInput when
        negb (String.eqb (snap_fingerprintSha256 snapshot) registryFingerprintSha256)
        || negb (bool_decide (asset_stablecoin asset = stablecoin))
        || negb (String.eqb (asset_identity asset) identity)
        || negb (asset_decimals asset =? decimals)
        || negb (bool_decide (asset_activationState asset = ACTIVE))
        || negb (bool_decide (net_activationState network = ACTIVE)) in
      Ok {| ref_registryEnvironment := MAINNET; ref_registryVersion := 1;
            ref_registryFingerprintSha256 := registryFingerprintSha256;
            ref_stablecoin := stablecoin; ref_networkId := networkId; ref_identity := identity;
            ref_decimals := decimals |}
  | _, _, _ => Err invalidInput
  end.

Definition parseObservation (requestedAsset : StablecoinValuationAssetReference) (input : jsval)
    : parsed ParsedObservation :=
  let* record := dataRecord input
    ["asset"; "sourceId"; "sourceReference"; "sourceSequence"; "sourceUpdateId"; "pricedAt";
     "observedAt"; "usdRateMantissa"; "usdRateScale"; "confidence"] in
  let* asset := parseAsset (record .: "asset") in
  reject invalidInput when negb (sameAsset asset requestedAsset) in
  let* source := parseSourceId (record .: "sourceId") in
  let* usdRateScale := parseScale (record .: "usdRateScale") in
  match record .: "sourceReference", record .: "sourceUpdateId" with
  | VStr sourceReference, VStr sourceUpdateId =>
      reject invalidInput when
        negb (VISIBLE_PATTERN sourceReference) || (192 <? strlen sourceReference)
        || negb (String.eqb sourceReference
                   (STABLECOIN_VALUATION_FEED_REFERENCES (ref_stablecoin asset) source)) in
      let* sourceSequence := parseDigits POSITIVE_INTEGER_PATTERN (record .: "sourceSequence")
                               maxAmountDigits in
      reject invalidInput when negb (validSourceUpdateId source sourceUpdateId sourceSequence) in
      let* usdRateMantissa := parseDigits UNSIGNED_INTEGER_PATTERN (record .: "usdRateMantissa")
                                maxRateDigits in
      reject invalidInput when negb (usdRateScale =? normalizedUsdRateScale) in
      let* pricedAt := parseTimestamp (record .: "pricedAt") in
      let* observedAt := parseTimestamp (record .: "observedAt") in
      let* confidence := parseConfidence (record .: "confidence") source in
      Ok {| po_public := {| obs_asset := asset; obs_sourceId := source;
              obs_sourceReference := sourceReference; obs_sourceSequence := sourceSequence;
              obs_sourceUpdateId := sourceUpdateId; obs_pricedAt := fst pricedAt;
              obs_observedAt := fst observedAt; obs_usdRateMantissa := usdRateMantissa;
              obs_usdRateScale := usdRateScale; obs_confidence := confidence |};
            po_pricedAtMs := snd pricedAt; po_observedAtMs := snd observedAt;
            po_rate := {| mantissa := BigInt usdRateMantissa; scale := usdRateScale |};
            po_confidenceAmount :=
              match confidence with
              | PUBLISHED_ABSOLUTE_USD m s => Some {| mantissa := BigInt m; scale := s |}
              | NOT_PUBLISHED => None
              end |}
  | _, _ => Err invalidInput
  end.

Definition parseRequest (input : jsval) : parsed ParsedRequest :=
  let* record := dataRecord input
    ["asset"; "amountAtomic"; "evaluatedAt"; "sourceWatermarks"; "observations"] in
  let* asset := parseAsset (record .: "asset") in
  let* amountAtomic := parseAmount (record .: "amountAtomic") in
  let* evaluatedAt := parseTimestamp (record .: "evaluatedAt") in
  let* sourceWatermarks := parseSourceWatermarks (record .: "sourceWatermarks") in
  let* values := dataArray (record .: "observations") 0 maxObservations in
  let* observations := mapr (parseObservation asset) values in
  Ok {| pr_asset := asset; pr_amountAtomic := amountAtomic; pr_amount := BigInt amountAtomic;
        pr_evaluatedAt := fst evaluatedAt; pr_evaluatedAtMs := snd evaluatedAt;
        pr_sourceWatermarks := sourceWatermarks; pr_observations := observations |}.

Definition evaluateStablecoinValuation (input : jsval) : StablecoinValuationResult :=
  match parseRequest input with
  | Err _ => unavailableResult None None None AGREEMENT_NOT_AVAILABLE [INVALID_INPUT] []
               DEPEG_NOT_ASSESSED DOWNSIDE_NOT_ASSESSED
  | Ok request => classify_request request
  end.

End valuation.

(** ** Specification *)

(** [a <= b] as decimal fractions. *)
Definition fixed_le (a b : FixedDecimal) : Prop :=
  mantissa a * 10 ^ scale b <= mantissa b * 10 ^ scale a.

Definition fixed_wf (a : FixedDecimal) : Prop := 0 <= mantissa a /\ 0 <= scale a.

(** ** Lemmas: fixed-point arithmetic *)

Lemma pow10_split a b : 0 <= a -> 0 <= b -> 10 ^ (a + b) = 10 ^ a * 10 ^ b.
Proof. intros. by rewrite Z.pow_add_r. Qed.

Lemma compareBigInt_spec l r :
  (compareBigInt l r <= 0 <-> l <= r) /\ (compareBigInt l r < 0 <-> l < r) /\
  (0 < compareBigInt l r <-> r < l).
Proof. unfold compareBigInt. destruct (Z.ltb_spec l r), (Z.ltb_spec r l); lia. Qed.

Lemma compareFixed_le a b : compareFixed a b <= 0 <-> fixed_le a b.
Proof. unfold compareFixed, powerOfTen. apply compareBigInt_spec. Qed.

Lemma compareFixed_lt a b : compareFixed a b < 0 <-> ~ fixed_le b a.
Proof.
  unfold compareFixed, powerOfTen, fixed_le. rewrite (proj1 (proj2 (compareBigInt_spec _ _))). lia.
Qed.

Lemma fixed_le_refl a : fixed_le a a.
Proof. unfold fixed_le. lia. Qed.

Lemma fixed_le_total a b : ~ fixed_le a b -> fixed_le b a.
Proof. unfold fixed_le. lia. Qed.

Lemma fixed_le_trans a b c :
  0 <= scale a -> 0 <= scale b -> 0 <= scale c -> fixed_le a b -> fixed_le b c -> fixed_le a c.
Proof.
  unfold fixed_le. intros Ha Hb Hc H1 H2.
  pose proof (pow10_pos _ Ha). pose proof (pow10_pos _ Hb). pose proof (pow10_pos _ Hc).
  apply (Z.mul_le_mono_pos_r _ _ (10 ^ scale b)); nia.
Qed.

Lemma drop_zeros_value n m :
  0 <= m -> let c := drop_zeros n m in
  0 <= scale c <= Z.of_nat n /\ 0 <= mantissa c /\
  mantissa c * 10 ^ Z.of_nat n = m * 10 ^ scale c.
Proof.
  revert m. induction n as [|n IH]; intros m Hm; cbn [drop_zeros].
  - cbn [mantissa scale]. change (Z.of_nat 0) with 0. lia.
  - destruct (Z.eqb_spec (m mod 10) 0) as [E|E].
    + destruct (IH (m / 10)) as (Hs & Hp & Hv); [apply Z.div_pos; lia|].
      split; [lia|]. split; [done|].
      rewrite Nat2Z.inj_succ, Z.pow_succ_r by lia.
      assert (m = 10 * (m / 10)) as Hm10 by (pose proof (Z.div_mod m 10); lia).
      rewrite Hm10 at 2. rewrite <- Z.mul_assoc, <- Hv. ring.
    + cbn [mantissa scale]. lia.
Qed.

Lemma canonicalFixed_value a :
  fixed_wf a -> let c := canonicalFixed a in
  fixed_wf c /\ mantissa c * 10 ^ scale a = mantissa a * 10 ^ scale c.
Proof.
  intros [Hm Hs]. unfold canonicalFixed.
  destruct (drop_zeros_value (Z.to_nat (scale a)) (mantissa a) Hm) as (H1 & H2 & H3).
  rewrite Z2Nat.id in * by done. split; [split; lia | done].
Qed.

(** Dropping zeros does not change which thresholds are exceeded. *)
Lemma exceedsBps_spec a t :
  fixed_wf a -> absoluteUsdAmountExceedsBps a t = true <-> t * 10 ^ scale a < mantissa a * 10000.
Proof.
  intros Ha. destruct (canonicalFixed_value a Ha) as [[Hm Hs] Hv]. destruct Ha as [_ Hsa].
  unfold absoluteUsdAmountExceedsBps, powerOfTen. rewrite Z.ltb_lt.
  pose proof (pow10_pos _ Hs). pose proof (pow10_pos _ Hsa).
  set (c := canonicalFixed a) in *. split; intros H1.
  - apply (Z.mul_lt_mono_pos_r (10 ^ scale c)); [done|]. nia.
  - apply (Z.mul_lt_mono_pos_r (10 ^ scale a)); [done|]. nia.
Qed.

Lemma atOrAboveBps_spec a t :
  fixed_wf a -> absoluteUsdAmountAtOrAboveBps a t = true <-> t * 10 ^ scale a <= mantissa a * 10000.
Proof.
  intros Ha. destruct (canonicalFixed_value a Ha) as [[Hm Hs] Hv]. destruct Ha as [_ Hsa].
  unfold absoluteUsdAmountAtOrAboveBps, powerOfTen. rewrite Z.leb_le.
  pose proof (pow10_pos _ Hs). pose proof (pow10_pos _ Hsa).
  set (c := canonicalFixed a) in *. split; intros H1.
  - apply (Z.mul_le_mono_pos_r _ _ (10 ^ scale c)); [done|]. nia.
  - apply (Z.mul_le_mono_pos_r _ _ (10 ^ scale a)); [done|]. nia.
Qed.

Lemma subtract_same_scale a b :
  scale a = scale b ->
  subtractFixedFloorZero a b
  = {| mantissa := Z.max 0 (mantissa a - mantissa b); scale := scale a |}.
Proof.
  intros E. unfold subtractFixedFloorZero, powerOfTen. rewrite E, Z.leb_refl, Z.sub_diag.
  rewrite !Z.mul_1_r. f_equal. destruct (Z.ltb_spec (mantissa b) (mantissa a)); lia.
Qed.

Lemma subtract_from_one b :
  0 <= scale b ->
  subtractFixedFloorZero {| mantissa := 1; scale := 0 |} b
  = {| mantissa := Z.max 0 (10 ^ scale b - mantissa b); scale := scale b |}.
Proof.
  intros Hb. unfold subtractFixedFloorZero, powerOfTen. cbn [mantissa scale].
  assert ((if scale b <=? 0 then 0 else scale b) = scale b) as ->
    by (destruct (Z.leb_spec (scale b) 0); lia).
  rewrite Z.sub_0_r, Z.sub_diag, Z.mul_1_r, Z.mul_1_l. f_equal.
  destruct (Z.ltb_spec (mantissa b) (10 ^ scale b)); lia.
Qed.

Lemma difference_same_scale a b t :
  fixed_wf a -> fixed_wf b -> scale a = scale b ->
  absoluteUsdAmountExceedsBps (absoluteDifference a b) t = true <->
  t * 10 ^ scale a < Z.abs (mantissa a - mantissa b) * 10000.
Proof.
  intros [Ha Hsa] [Hb Hsb] E. unfold absoluteDifference, powerOfTen.
  rewrite E, Z.leb_refl, Z.sub_diag, !Z.mul_1_r.
  set (d := {| mantissa := _; scale := _ |}).
  assert (fixed_wf d /\ mantissa d = Z.abs (mantissa a - mantissa b) /\ scale d = scale b) as (Hd & Em & Es).
  { subst d. unfold fixed_wf. cbn [mantissa scale].
    destruct (Z.leb_spec (mantissa b) (mantissa a)); lia. }
  destruct (canonicalFixed_value d Hd) as [Hc Hv].
  rewrite (exceedsBps_spec _ _ Hc), <- Em, <- Es. destruct Hc as [Hm Hs], Hd as [_ Hsd].
  pose proof (pow10_pos _ Hs). pose proof (pow10_pos _ Hsd).
  set (c := canonicalFixed d) in *. split; intros H1.
  - apply (Z.mul_lt_mono_pos_r (10 ^ scale c)); [done|]. nia.
  - apply (Z.mul_lt_mono_pos_r (10 ^ scale d)); [done|]. nia.
Qed.

Lemma divideRoundHalfEven_spec num den n :
  0 < den -> divideRoundHalfEven num den = n <-> half_even num den n.
Proof.
  intros Hd. pose proof (half_even_division num den Hd) as H. unfold divideRoundHalfEven.
  split; [by intros <-|]. by apply half_even_unique.
Qed.

(** ** Specification: what the parsers accept *)

Definition instant (s : string) (t : Z) : Prop := 0 <= t /\ four_digit_time t /\ s = toISOString t.

(** A canonical decimal below [10 ^ 78] at the normalised scale. *)
Definition rate_digits (s : string) : Prop :=
  UNSIGNED_INTEGER_PATTERN s = true /\ strlen s <= maxRateDigits.

Definition confidence_wf (source : StablecoinValuationSourceId) (c : StablecoinPriceConfidence) : Prop :=
  match source, c with
  | PYTH_CORE, PUBLISHED_ABSOLUTE_USD m s => rate_digits m /\ s = normalizedUsdRateScale
  | CHAINLINK_DATA_FEEDS, NOT_PUBLISHED => True
  | _, _ => False
  end.

Definition confidence_amount (c : StablecoinPriceConfidence) : option FixedDecimal :=
  match c with
  | PUBLISHED_ABSOLUTE_USD m s => Some {| mantissa := BigInt m; scale := s |}
  | NOT_PUBLISHED => None
  end.

Record observation_wf (asset : StablecoinValuationAssetReference) (o : ParsedObservation) : Prop := {
  ow_asset : obs_asset (po_public o) = asset;
  ow_reference : obs_sourceReference (po_public o)
                 = STABLECOIN_VALUATION_FEED_REFERENCES (ref_stablecoin asset) (obs_source o);
  ow_sequence : POSITIVE_INTEGER_PATTERN (obs_sourceSequence (po_public o)) = true /\
                strlen (obs_sourceSequence (po_public o)) <= maxAmountDigits;
  ow_update : validSourceUpdateId (obs_source o) (obs_update o) (obs_sourceSequence (po_public o)) = true;
  ow_pricedAt : instant (obs_pricedAt (po_public o)) (po_pricedAtMs o);
  ow_observedAt : instant (obs_observedAt (po_public o)) (po_observedAtMs o);
  ow_mantissa : rate_digits (obs_usdRateMantissa (po_public o));
  ow_scale : obs_usdRateScale (po_public o) = normalizedUsdRateScale;
  ow_rate : po_rate o = {| mantissa := BigInt (obs_usdRateMantissa (po_public o)); scale := normalizedUsdRateScale |};
  ow_confidence : confidence_wf (obs_source o) (obs_confidence (po_public o));
  ow_amount : po_confidenceAmount o = confidence_amount (obs_confidence (po_public o));
}.

(** ** Lemmas: parsers *)

Lemma parseTimestamp_ok v s t :
  parseTimestamp v = Ok (s, t) <-> v = VStr s /\ instant s t.
Proof.
  unfold parseTimestamp, instant. split.
  - destruct v; try done. destruct (canonical_timestamp _) as [t'|] eqn:E; [|done].
    apply canonical_timestamp_spec in E as [Hf ->].
    destruct (Z.ltb_spec t' 0); [done|]. by intros [= <- <-].
  - intros (-> & Ht & Hf & ->).
    rewrite (proj2 (canonical_timestamp_spec _ t)) by done.
    by rewrite (proj2 (Z.ltb_ge _ _)).
Qed.

Lemma parseDigits_ok pattern v digits s :
  parseDigits pattern v digits = Ok s <-> v = VStr s /\ pattern s = true /\ strlen s <= digits.
Proof.
  unfold parseDigits. split.
  - destruct v; try done. destruct (_ || _) eqn:E; [done|]. intros [= ->]. bsimpl. done.
  - intros (-> & Hp & Hl). by rewrite Hp, (proj2 (Z.ltb_ge _ _)).
Qed.

Lemma parseScale_ok v s : parseScale v = Ok s <-> safe_integer v = Some s /\ 0 <= s <= maxRateScale.
Proof.
  unfold parseScale. split.
  - intros H. inv_ok. subst. bsimpl. done.
  - intros [-> [H1 H2]]. cbn [or_throw rbind].
    rewrite (proj2 (Z.ltb_ge _ _)), (proj2 (Z.ltb_ge _ _)) by lia. done.
Qed.

Lemma rate_digits_bounds s : rate_digits s -> 0 <= BigInt s < 10 ^ 78.
Proof.
  intros [Hp Hl]. split; [by apply unsigned_integer_nonneg|].
  pose proof (BigInt_bounds s (unsigned_integer_digits s Hp)) as [_ Hb].
  eapply Z.lt_le_trans; [exact Hb|]. apply Z.pow_le_mono_r; unfold maxRateDigits in Hl; lia.
Qed.

Lemma parseConfidence_wf v source c : parseConfidence v source = Ok c -> confidence_wf source c.
Proof.
  unfold parseConfidence, dataRecord. destruct source; intros H.
  - inv_ok. subst c. apply parseDigits_ok in Hr2 as (_ & ? & ?).
    apply negb_false_iff, Z.eqb_eq in Hg. by repeat split.
  - inv_ok. destruct (_ .: _); try done. destruct (String.eqb _ _); [|done]. by injection H as <-.
Qed.

Lemma parseDigits_str pattern s digits :
  pattern s = true -> strlen s <= digits -> parseDigits pattern (VStr s) digits = Ok s.
Proof. intros. by apply parseDigits_ok. Qed.

Lemma parseScale_js s : 0 <= s <= maxRateScale -> parseScale (VNum (JInt s)) = Ok s.
Proof.
  intros H. apply parseScale_ok. split; [|done]. unfold safe_integer, maxRateScale in *.
  by rewrite (proj2 (Z.leb_le _ _)) by (unfold MAX_SAFE_INTEGER; lia).
Qed.

Lemma parseConfidence_js source c :
  confidence_wf source c -> parseConfidence (confidence_js c) source = Ok c.
Proof.
  unfold confidence_wf, parseConfidence, confidence_js, dataRecord.
  destruct source, c as [m s|]; try done.
  intros ([Hp Hl] & ->). read_record. rewrite parseScale_js by done.
  cbn [rbind String.eqb Ascii.eqb Bool.eqb]. rewrite parseDigits_str by done. done.
Qed.

Lemma feed_reference_visible s source :
  VISIBLE_PATTERN (STABLECOIN_VALUATION_FEED_REFERENCES s source) = true /\
  strlen (STABLECOIN_VALUATION_FEED_REFERENCES s source) <= 192.
Proof. destruct s, source; split; vm_compute; done. Qed.

Lemma sameAsset_eq a b : sameAsset a b = true <-> a = b.
Proof.
  unfold sameAsset. rewrite !andb_true_iff, !bool_decide_eq_true, !String.eqb_eq, !Z.eqb_eq.
  destruct a, b; cbn. split; [|intros [= -> -> -> -> -> -> ->]; tauto].
  by intros [[[[[[-> ->] ->] ->] ->] ->] ->].
Qed.

Section parsers.
Variable registry : VersionedSupportedAssetRegistry.

(** An asset the registry holds in its first version, active on an active network. *)
Definition asset_ref_wf (a : StablecoinValuationAssetReference) : Prop :=
  ref_registryEnvironment a = MAINNET /\ ref_registryVersion a = 1 /\
  HEX64_PATTERN (ref_registryFingerprintSha256 a) = true /\ 0 <= ref_decimals a <= maxAssetDecimals /\
  exists snapshot asset network,
    atVersion registry 1 = Some snapshot /\
    identifyAsset snapshot (ref_networkId a) (ref_identity a) = Some asset /\
    network_of snapshot (ref_networkId a) = Some network /\
    snap_fingerprintSha256 snapshot = ref_registryFingerprintSha256 a /\
    asset_stablecoin asset = ref_stablecoin a /\ asset_identity asset = ref_identity a /\
    asset_decimals asset = ref_decimals a /\ asset_activationState asset = ACTIVE /\
    net_activationState network = ACTIVE.

Lemma parseAsset_wf v a : parseAsset registry v = Ok a -> asset_ref_wf a.
Proof.
  unfold parseAsset, dataRecord. intros H. inv_ok. revert H.
  destruct (r .: "registryFingerprintSha256"); try done. destruct (r .: "networkId"); try done.
  destruct (r .: "identity"); try done. intros H. inv_ok. subst a.
  repeat match goal with
  | H : orb _ _ = false |- _ => apply orb_false_iff in H as [? ?]
  | H : negb _ = false |- _ => apply negb_false_iff in H
  | H : String.eqb _ _ = true |- _ => apply String.eqb_eq in H
  | H : bool_decide _ = true |- _ => apply bool_decide_eq_true in H
  end. bsimpl. unfold asset_ref_wf. cbn [ref_registryEnvironment ref_registryVersion
    ref_registryFingerprintSha256 ref_stablecoin ref_networkId ref_identity ref_decimals].
  repeat (split; [done|]). eauto 20.
Qed.

Lemma parseAsset_js a : asset_ref_wf a -> parseAsset registry (asset_js a) = Ok a.
Proof.
  intros (E1 & E2 & Hf & Hd & snapshot & asset & network & Hs & Ha & Hn & F1 & F2 & F3 & F4 & F5 & F6).
  unfold parseAsset, asset_js, dataRecord. read_record.
  rewrite E1, E2, (proj2 (enum_member_spec [MAINNET] _ MAINNET)) by (by split; [left|]).
  cbn [or_throw rbind is_int Z.eqb Pos.eqb negb]. rewrite Hf, enum_member_str. cbn [or_throw rbind negb].
  unfold safe_integer. rewrite (proj2 (Z.leb_le _ _))
    by (unfold MAX_SAFE_INTEGER, maxAssetDecimals in *; lia).
  cbn [or_throw rbind]. rewrite (proj2 (Z.ltb_ge _ _)), (proj2 (Z.ltb_ge _ _)) by lia.
  cbn [orb]. rewrite Hs. cbn [or_throw rbind]. rewrite Ha. cbn [or_throw rbind]. rewrite Hn.
  cbn [or_throw rbind].
  rewrite F1, F3, F4, !String.eqb_refl, Z.eqb_refl, !bool_decide_true by done. cbn [negb orb].
  destruct a. cbn in *. by subst.
Qed.
Lemma sameAsset_refl a : sameAsset a a = true.
Proof. by apply sameAsset_eq. Qed.

Lemma parseObservation_wf asset v o :
  parseObservation registry asset v = Ok o -> observation_wf asset o.
Proof.
  unfold parseObservation, dataRecord. intros H. inv_ok.
  destruct (r .: "sourceReference"); try done. destruct (r .: "sourceUpdateId"); try done.
  inv_ok. subst o. bsimpl. apply sameAsset_eq in Hg as ->.
  apply parseDigits_ok in Hr3 as (_ & ? & ?), Hr4 as (_ & ? & ?).
  destruct r5 as [pricedAt t], r6 as [observedAt t'].
  apply parseTimestamp_ok in Hr5 as [_ ?], Hr6 as [_ ?].
  apply parseConfidence_wf in Hr7.
  match goal with H : String.eqb _ _ = true |- _ => apply String.eqb_eq in H end.
  subst. by constructor.
Qed.

Lemma parseObservation_js asset o :
  asset_ref_wf asset -> observation_wf asset o ->
  parseObservation registry asset (observation_js (publicObservation o)) = Ok o.
Proof.
  intros Ha []. unfold parseObservation, dataRecord, observation_js, publicObservation in *. read_record.
  rewrite ow_asset0, parseAsset_js by done. cbn [rbind]. rewrite sameAsset_refl. cbn [negb].
  unfold parseSourceId. rewrite enum_member_str. cbn [or_throw rbind].
  rewrite ow_scale0, parseScale_js by done. cbn [rbind].
  unfold obs_source, obs_update in *. rewrite ow_reference0.
  destruct (feed_reference_visible (ref_stablecoin asset) (obs_sourceId (po_public o))) as [Hv Hl].
  rewrite Hv, (proj2 (Z.ltb_ge _ _)), String.eqb_refl by done. cbn [negb orb].
  destruct ow_sequence0. rewrite parseDigits_str by done. cbn [rbind].
  rewrite ow_update0. cbn [negb]. destruct ow_mantissa0. rewrite parseDigits_str by done.
  cbn [rbind Z.eqb]. rewrite Z.eqb_refl. cbn [negb].
  rewrite (proj2 (parseTimestamp_ok _ _ _) (conj eq_refl ow_pricedAt0)). cbn [rbind].
  rewrite (proj2 (parseTimestamp_ok _ _ _) (conj eq_refl ow_observedAt0)). cbn [rbind].
  rewrite parseConfidence_js by done. cbn [rbind fst snd].
  destruct o as [[] ? ? ? ?]. cbn in *. by subst.
Qed.

(** An accepted observation, published as an object, is accepted as itself. *)
(** The public form of an accepted price observation is accepted again and
    gives the same parsed observation: rate, instants, sequence, update,
    confidence bound and asset are all recovered from it. *)
Theorem observation_roundtrip asset v v' o :
  parseAsset registry v = Ok asset ->
  parseObservation registry asset v' = Ok o ->
  parseObservation registry asset (observation_js (publicObservation o)) = Ok o.
Proof.
  intros Ha%parseAsset_wf Ho%parseObservation_wf. by apply parseObservation_js.
Qed.

Lemma parseAmount_str s :
  POSITIVE_INTEGER_PATTERN s = true -> BigInt s <= MAX_UINT256 -> parseAmount (VStr s) = Ok s.
Proof.
  intros Hp Hb. unfold parseAmount. rewrite Hp. cbn [negb orb].
  pose proof (positive_integer_bounds s Hp) as [Hl _].
  assert (strlen s <= maxAmountDigits) as Hlen.
  { unfold maxAmountDigits. destruct (Z.leb_spec (strlen s) 78) as [|H]; [done|].
    assert (10 ^ 78 <= 10 ^ (strlen s - 1)) by (apply Z.pow_le_mono_r; lia).
    assert (MAX_UINT256 < 10 ^ 78) by done. lia. }
  rewrite (proj2 (Z.ltb_ge _ _)) by done. cbn [orb].
  rewrite (proj2 (exceeds_decimal_spec MAX_ATOMIC_AMOUNT s eq_refl ltac:(unfold UNSIGNED_INTEGER_PATTERN; by rewrite Hp, orb_true_r))); [done|].
  exact Hb.
Qed.

(** What an accepted request holds. *)
Record request_wf (request : ParsedRequest) : Prop := {
  rw_asset : asset_ref_wf (pr_asset request);
  rw_amount : 0 < pr_amount request <= MAX_UINT256;
  rw_instant : instant (pr_evaluatedAt request) (pr_evaluatedAtMs request);
  rw_watermarks : one_per_source (wm_sourceId <$> pr_sourceWatermarks request) = true;
  rw_observations : Forall (observation_wf (pr_asset request)) (pr_observations request);
}.

Lemma parseAmount_ok v s : parseAmount v = Ok s -> 0 < BigInt s <= MAX_UINT256.
Proof.
  unfold parseAmount. destruct v; try done. destruct (_ || _) eqn:E; [done|]. intros [= <-].
  bsimpl. split; [by apply positive_integer_pos|].
  change MAX_UINT256 with (BigInt MAX_ATOMIC_AMOUNT).
  apply exceeds_decimal_spec; [done | | done]. unfold UNSIGNED_INTEGER_PATTERN. by rewrite H, orb_true_r.
Qed.

Lemma valuation_request_wf v request : parseRequest registry v = Ok request -> request_wf request.
Proof.
  unfold parseRequest. intros H. inv_ok. subst request.
  destruct r2 as [evaluatedAt t]. apply parseTimestamp_ok in Hr2 as [_ ?].
  unfold parseSourceWatermarks in Hr3. inv_ok. subst. bsimpl.
  constructor; cbn [pr_asset pr_amount pr_evaluatedAt pr_evaluatedAtMs pr_sourceWatermarks pr_observations fst snd].
  - by eapply parseAsset_wf.
  - by eapply parseAmount_ok.
  - done.
  - done.
  - eapply mapr_forall; [|done]. intros w o _. apply parseObservation_wf.
Qed.
End parsers.

(** ** Lemmas: rates and bands *)

Definition normalized (a : FixedDecimal) : Prop := 0 <= mantissa a /\ scale a = normalizedUsdRateScale.

Lemma normalized_wf a : normalized a -> fixed_wf a.
Proof. intros [? E]. split; [done|]. rewrite E. unfold normalizedUsdRateScale. lia. Qed.

Lemma normalized_le a b : normalized a -> normalized b -> fixed_le a b <-> mantissa a <= mantissa b.
Proof. intros [_ Ea] [_ Eb]. unfold fixed_le. rewrite Ea, Eb. unfold normalizedUsdRateScale. lia. Qed.

Lemma observation_rate asset o : observation_wf asset o -> normalized (po_rate o).
Proof.
  intros H. rewrite (ow_rate _ _ H). split; [|done]. cbn [mantissa].
  apply (rate_digits_bounds _ (ow_mantissa _ _ H)).
Qed.

Lemma observation_confidence asset o c :
  observation_wf asset o -> po_confidenceAmount o = Some c -> normalized c.
Proof.
  intros H. rewrite (ow_amount _ _ H). pose proof (ow_confidence _ _ H) as Hc. unfold confidence_wf in Hc.
  destruct (obs_confidence _) as [m s|]; [|done]. intros [= <-].
  destruct (obs_source o); [|done]. destruct Hc as [Hm ->]. split; [|done]. cbn [mantissa].
  apply (rate_digits_bounds _ Hm).
Qed.

(** The rate a source contributes: Pyth's is lowered by its published
    confidence, which must be at most half a cent; Chainlink's stands. *)
Definition conservative (o : ParsedObservation) (m : Z) : Prop :=
  match obs_source o with
  | PYTH_CORE =>
      exists c, po_confidenceAmount o = Some c /\ mantissa c <= 500000 /\
                m = Z.max 0 (mantissa (po_rate o) - mantissa c)
  | CHAINLINK_DATA_FEEDS => m = mantissa (po_rate o)
  end.

Lemma conservative_rate_spec asset o :
  observation_wf asset o ->
  match conservative_rate (obs_source o) o with
  | Some (rate, _) => normalized rate /\ conservative o (mantissa rate)
  | None => forall m, ~ conservative o m
  end.
Proof.
  intros Ho. pose proof (observation_rate _ _ Ho) as Hr. unfold conservative_rate, conservative.
  destruct (obs_source o) eqn:Es; [|by split].
  destruct (po_confidenceAmount o) as [c|] eqn:Ec; [|by intros m (c & ? & _)].
  pose proof (observation_confidence _ _ _ Ho Ec) as Hc.
  destruct (absoluteUsdAmountExceedsBps c publishedWidthEligibleAtOrBelowBps) eqn:E.
  - intros m (c' & [= <-] & Hm & _). apply exceedsBps_spec in E; [|by apply normalized_wf].
    destruct Hc as [_ Hs]. rewrite Hs in E.
    unfold publishedWidthEligibleAtOrBelowBps, normalizedUsdRateScale in E. lia.
  - assert (~ publishedWidthEligibleAtOrBelowBps * 10 ^ scale c < mantissa c * 10000) as Hn.
    { rewrite <- exceedsBps_spec by (by apply normalized_wf). by rewrite E. }
    destruct Hr as [Hrm Hrs], Hc as [Hcm Hcs]. rewrite subtract_same_scale by congruence.
    rewrite Hcs in Hn. unfold publishedWidthEligibleAtOrBelowBps, normalizedUsdRateScale in Hn.
    split; [split; cbn [mantissa scale]; [lia | done]|].
    exists c. cbn [mantissa]. repeat split; lia.
Qed.

(** The bands of the downside: at most 50 bps below the dollar is normal, at
    least 200 bps is a depeg. *)
Lemma classifyDownside_thresholds (rate : FixedDecimal) :
  0 <= mantissa rate -> 0 <= scale rate ->
  (classifyDownside rate = NORMAL <-> 9950 * 10 ^ scale rate <= mantissa rate * 10000) /\
  (classifyDownside rate = DEPEGGED <-> mantissa rate * 10000 <= 9800 * 10 ^ scale rate) /\
  (classifyDownside rate = WATCH <->
     9800 * 10 ^ scale rate < mantissa rate * 10000 < 9950 * 10 ^ scale rate).
Proof.
  intros Hm Hs. pose proof (pow10_pos _ Hs) as Hp. unfold classifyDownside.
  destruct (Z.leb_spec 0 (compareFixed rate {| mantissa := 1; scale := 0 |})) as [Hc|Hc].
  - unfold compareFixed, powerOfTen in Hc. cbn [mantissa scale] in Hc.
    destruct (compareBigInt_spec (mantissa rate * 10 ^ 0) (1 * 10 ^ scale rate)) as (_ & Hlt & _).
    assert (~ mantissa rate * 10 ^ 0 < 1 * 10 ^ scale rate) as Hn by (rewrite <- Hlt; lia).
    rewrite Z.pow_0_r in Hn. repeat split; intros; (lia || done).
  - apply compareFixed_lt in Hc. unfold fixed_le in Hc. cbn [mantissa scale] in Hc. rewrite Z.pow_0_r in Hc.
    rewrite subtract_from_one by done.
    set (d := {| mantissa := _; scale := _ |}).
    assert (fixed_wf d) as Hd by (unfold fixed_wf, d; cbn [mantissa scale]; lia).
    assert (absoluteUsdAmountExceedsBps d normalAtOrBelowBps
            = (50 * 10 ^ scale rate <? (10 ^ scale rate - mantissa rate) * 10000)) as ->.
    { apply eq_iff_eq_true. rewrite exceedsBps_spec, Z.ltb_lt by done. unfold d, normalAtOrBelowBps.
      cbn [mantissa scale]. lia. }
    assert (absoluteUsdAmountAtOrAboveBps d depeggedAtOrAboveBps
            = (200 * 10 ^ scale rate <=? (10 ^ scale rate - mantissa rate) * 10000)) as ->.
    { apply eq_iff_eq_true. rewrite atOrAboveBps_spec, Z.leb_le by done. unfold d, depeggedAtOrAboveBps.
      cbn [mantissa scale]. lia. }
    destruct (Z.ltb_spec (50 * 10 ^ scale rate) ((10 ^ scale rate - mantissa rate) * 10000));
      destruct (Z.leb_spec (200 * 10 ^ scale rate) ((10 ^ scale rate - mantissa rate) * 10000));
      cbn [negb]; repeat split; intros; (lia || done).
Qed.

(** For every rate that is a non-negative decimal fraction, the downside
    band is decided exactly at the policy's thresholds, whatever the scale of
    the rate: NORMAL iff the rate is at least 0.995 dollars, DEPEGGED iff it is
    at most 0.98 dollars, WATCH in between, and never unassessed. *)
Theorem downside_band_exact (rate : FixedDecimal) :
  0 <= mantissa rate -> 0 <= scale rate ->
  (classifyDownside rate = NORMAL <-> 9950 * 10 ^ scale rate <= mantissa rate * 10000) /\
  (classifyDownside rate = DEPEGGED <-> mantissa rate * 10000 <= 9800 * 10 ^ scale rate) /\
  (classifyDownside rate = WATCH <->
     9800 * 10 ^ scale rate < mantissa rate * 10000 < 9950 * 10 ^ scale rate).
Proof. apply classifyDownside_thresholds. Qed.

(** ** Lemmas: the series of one source *)

Lemma has_spec ids u : has ids u = true <-> u ∈ ids.
Proof. apply (key_in_spec ids u). Qed.

(** A later observation of a source: a higher sequence at instants not earlier. *)
Definition newer (p o : ParsedObservation) : Prop :=
  obs_sequence p < obs_sequence o /\ po_pricedAtMs p <= po_pricedAtMs o /\
  po_observedAtMs p <= po_observedAtMs o.

#[export] Instance newer_trans : Transitive newer.
Proof. intros a b c (? & ? & ?) (? & ? & ?). unfold newer. lia. Qed.

Lemma monotonic_from_spec previous ids l :
  monotonic_from previous ids l = true <->
  (match previous with Some p => HdRel newer p l | None => True end) /\ Sorted newer l /\
  NoDup (obs_update <$> l) /\ Forall (fun o => obs_update o ∉ ids) l.
Proof.
  revert previous ids. induction l as [|o l IH]; intros previous ids.
  { split; [|done]. intros _. split; [by destruct previous|]. repeat constructor. }
  cbn [monotonic_from]. rewrite fmap_cons, NoDup_cons, Forall_cons.
  destruct (has ids (obs_update o)) eqn:Hin; [apply has_spec in Hin; split; [done | tauto]|].
  assert (obs_update o ∉ ids) as Hnew by (rewrite <- has_spec; congruence). clear Hin.
  assert (Forall (fun o' => obs_update o' ∉ obs_update o :: ids) l <->
          obs_update o ∉ obs_update <$> l /\ Forall (fun o' => obs_update o' ∉ ids) l) as Hids.
  { rewrite !Forall_forall, list_elem_of_fmap. split.
    - intros H. split; [intros (y & E & Hy); apply (H y Hy); rewrite E; left|].
      intros y Hy Hi. apply (H y Hy). by right.
    - intros [H1 H2] y Hy [E|Hi]%elem_of_cons; [apply H1; eauto | by apply (H2 y Hy)]. }
  assert (Sorted newer (o :: l) <-> HdRel newer o l /\ Sorted newer l) as Hsort.
  { split; [intros H; inversion H; done | intros [? ?]; by constructor]. }
  destruct previous as [p|].
  - assert (HdRel newer p (o :: l) <-> newer p o) as Hhd
      by (split; [intros H; by inversion H | by constructor]).
    destruct (_ || _) eqn:E.
    + split; [done|]. rewrite Hhd. intros [(H1 & H2 & H3) _].
      apply orb_true_iff in E as [E|E]; [apply orb_true_iff in E as [E|E]|];
        [apply Z.leb_le in E | apply Z.ltb_lt in E..]; lia.
    + bsimpl. rewrite IH, Hids, Hsort, Hhd. unfold newer. intuition lia.
  - rewrite IH, Hids, Hsort. tauto.
Qed.

Lemma monotonic_spec l :
  hasMonotonicSequenceAndTime l = true <-> StronglySorted newer l /\ NoDup (obs_update <$> l).
Proof.
  unfold hasMonotonicSequenceAndTime. rewrite monotonic_from_spec. split.
  - intros (_ & ? & ? & _). split; [by apply Sorted_StronglySorted; [apply newer_trans|] | done].
  - intros [? ?]. split_and!; [done | by apply StronglySorted_Sorted | done|].
    apply Forall_forall. intros o _. apply not_elem_of_nil.
Qed.

#[export] Instance sequence_comparator :
  Comparator (fun _ : ParsedObservation => True)
    (fun l r => compareBigInt (obs_sequence l) (obs_sequence r)).
Proof.
  split.
  - intros a b _ _. destruct (compareBigInt_spec (obs_sequence a) (obs_sequence b)) as (_ & -> & _).
    destruct (compareBigInt_spec (obs_sequence b) (obs_sequence a)) as (_ & _ & ->). done.
  - intros a b c _ _ _. destruct (compareBigInt_spec (obs_sequence a) (obs_sequence b)) as [-> _].
    destruct (compareBigInt_spec (obs_sequence b) (obs_sequence c)) as [-> _].
    destruct (compareBigInt_spec (obs_sequence a) (obs_sequence c)) as [-> _]. lia.
Qed.

(** The observations a request holds of one source. *)
Definition series (request : ParsedRequest) (source : StablecoinValuationSourceId) : list ParsedObservation :=
  List.filter (fun o => bool_decide (obs_source o = source)) (pr_observations request).

(** A strictly increasing arrangement of the series is the sorted one. *)
Lemma source_observations_unique request source l :
  series request source ≡ₚ l -> StronglySorted newer l -> source_observations request source = l.
Proof.
  intros Hp Hl. assert (StronglySorted (fun a b => compareBigInt (obs_sequence a) (obs_sequence b) <= 0) l) as Hs.
  { clear Hp. induction Hl as [|a l Hl IH Ha]; [constructor|]. constructor; [done|].
    eapply Forall_impl; [exact Ha|]. intros b [Hab _]. cbv beta. unfold compareBigInt.
    by rewrite (proj2 (Z.ltb_lt _ _)). }
  assert (forall a b, a ∈ l -> b ∈ l -> obs_sequence a = obs_sequence b -> a = b) as Hinj.
  { clear Hs Hp. induction Hl as [|x l Hl IH Hx]; intros a b Ha Hb E; [by apply not_elem_of_nil in Ha|].
    rewrite Forall_forall in Hx.
    apply elem_of_cons in Ha as [->|Ha], Hb as [->|Hb]; auto.
    - apply Hx in Hb as [? _]. lia.
    - apply Hx in Ha as [? _]. lia. }
  unfold source_observations. fold (series request source).
  eapply (StronglySorted_unique_strong (fun a b => compareBigInt (obs_sequence a) (obs_sequence b) <= 0)).
  - intros a b Ha Hb H1 H2. rewrite js_sort_perm, Hp in Ha. apply Hinj; [done..|].
    apply (proj1 (proj1 (compareBigInt_spec _ _))) in H1, H2. lia.
  - apply (js_sort_sorted (fun _ => True)); [apply sequence_comparator|]. by apply Forall_true.
  - done.
  - by rewrite js_sort_perm.
Qed.

(** ** Lemmas: eligible sources *)

(** A first use, or later than everything accepted of the source. *)
Definition after_watermark (w : ParsedSourceWatermark) (o : ParsedObservation) : Prop :=
  match wm_lastAccepted w with
  | None => True
  | Some a => BigInt (lastAcceptedSequence a) < obs_sequence o /\
              lastAcceptedPricedAtMs a <= po_pricedAtMs o /\
              lastAcceptedObservedAtMs a <= po_observedAtMs o /\
              obs_update o <> lastAcceptedUpdateId a
  end.

(** [o] is the current observation of a source and contributes the rate [m]:
    the last of a strictly increasing series without replays, after the
    source's watermark, not from the future, at most a minute old. *)
Definition eligible (request : ParsedRequest) (source : StablecoinValuationSourceId)
    (o : ParsedObservation) (m : Z) : Prop :=
  exists earlier w,
    series request source ≡ₚ earlier ++ [o] /\ StronglySorted newer (earlier ++ [o]) /\
    NoDup (obs_update <$> earlier ++ [o]) /\
    w ∈ pr_sourceWatermarks request /\ wm_sourceId w = source /\ after_watermark w o /\
    po_pricedAtMs o <= po_observedAtMs o <= pr_evaluatedAtMs request /\
    pr_evaluatedAtMs request - po_pricedAtMs o <= 60000 /\ conservative o m.

Lemma replayed_spec w o : replayed_or_regressed w o = false <-> after_watermark w o.
Proof.
  unfold replayed_or_regressed, after_watermark. destruct (wm_lastAccepted w) as [a|]; [|done].
  rewrite !orb_false_iff, Z.leb_gt, !Z.ltb_ge, String.eqb_neq. tauto.
Qed.

Lemma one_per_source_find ws source :
  one_per_source (wm_sourceId <$> ws) = true ->
  exists w, w ∈ ws /\ wm_sourceId w = source /\
    (forall w', w' ∈ ws -> wm_sourceId w' = source -> w' = w) /\
    List.find (fun w => bool_decide (wm_sourceId w = source)) ws = Some w.
Proof.
  intros H. unfold one_per_source in H. rewrite forallb_forall in H.
  specialize (H source (proj1 (list_elem_of_In _ _) (enum_values_all source))).
  apply Nat.eqb_eq in H. revert H. induction ws as [|w ws IH]; [done|].
  rewrite fmap_cons. cbn [List.filter List.find].
  case_bool_decide as E; intros Hl.
  - exists w. split_and!; [apply list_elem_of_here | done | | done].
    intros w' [->|Hw']%elem_of_cons E'; [done|].
    exfalso. cbn [length] in Hl. injection Hl as Hl. apply nil_length_inv in Hl.
    assert (source ∈ ([] : list StablecoinValuationSourceId)) as Hin; [|by apply not_elem_of_nil in Hin].
    rewrite <- Hl. apply list_elem_of_In, List.filter_In. split; [|by apply bool_decide_eq_true].
    apply list_elem_of_In. rewrite <- E'. by apply list_elem_of_fmap_2.
  - destruct (IH Hl) as (v & Hv & Ev & Hu & Hf). exists v. split_and!; [by right | done | | done].
    intros w' [->|Hw']%elem_of_cons E'; [done | by apply Hu].
Qed.

Lemma conservative_unique o m m' : conservative o m -> conservative o m' -> m = m'.
Proof.
  unfold conservative. destruct (obs_source o); [|congruence].
  intros (c & E & _ & ->) (c' & E' & _ & ->). congruence.
Qed.

Lemma conservative_bounds asset o m : observation_wf asset o -> conservative o m ->
  0 <= m <= mantissa (po_rate o) /\ m < 10 ^ 78.
Proof.
  intros Ho. pose proof (observation_rate _ _ Ho) as [Hr _].
  pose proof (rate_digits_bounds _ (ow_mantissa _ _ Ho)) as Hb.
  assert (mantissa (po_rate o) < 10 ^ 78) as Hm by (rewrite (ow_rate _ _ Ho); apply Hb).
  unfold conservative. destruct (obs_source o) eqn:Es; [|intros ->; lia].
  intros (c & E & _ & ->). pose proof (observation_confidence _ _ _ Ho E) as [Hc _]. lia.
Qed.

Lemma eligible_unique request source o m o' m' :
  eligible request source o m -> eligible request source o' m' -> o = o' /\ m = m'.
Proof.
  intros (e & w & Hp & Hs & _ & _ & _ & _ & _ & _ & Hm) (e' & w' & Hp' & Hs' & _ & _ & _ & _ & _ & _ & Hm').
  pose proof (source_observations_unique _ _ _ Hp Hs) as E.
  rewrite (source_observations_unique _ _ _ Hp' Hs') in E.
  apply app_inj_tail in E as [_ ->]. split; [done|]. by eapply conservative_unique.
Qed.

(** The observation [assessSource] looks at is the only one that can be eligible. *)
Lemma source_observations_last request source o :
  last (source_observations request source) = Some o ->
  exists e, source_observations request source = e ++ [o] /\ series request source ≡ₚ e ++ [o] /\
    o ∈ pr_observations request /\ obs_source o = source /\
    (forall o' m, eligible request source o' m -> o' = o).
Proof.
  intros El. pose proof El as [e E]%last_Some. exists e.
  assert (series request source ≡ₚ e ++ [o]) as Hp by (rewrite <- E; symmetry; apply js_sort_perm).
  assert (o ∈ series request source) as Hi by (rewrite Hp; set_solver).
  apply list_elem_of_In, List.filter_In in Hi as [Hi Hs]. apply bool_decide_eq_true in Hs.
  split_and!; [done.. | by apply list_elem_of_In | done |].
  intros o' m (e' & _ & Hp' & Hs' & _). rewrite (source_observations_unique _ _ _ Hp' Hs'), last_snoc in El.
  congruence.
Qed.

(** What [assessSource] decides on an accepted request. *)
Lemma assess_candidate registry request source role :
  request_wf registry request ->
  match ia_candidate (assessSource request source role) with
  | Some c =>
      eligible request source (cand_observation c) (mantissa (cand_conservativeRate c)) /\
      normalized (cand_conservativeRate c) /\ obs_source (cand_observation c) = source /\
      cand_observation c ∈ pr_observations request /\ cand_freshness c = CURRENT /\
      sa_eligibility (ia_publicAssessment (assessSource request source role)) = ELIGIBLE_CURRENT
  | None =>
      (forall o m, ~ eligible request source o m) /\
      sa_eligibility (ia_publicAssessment (assessSource request source role)) <> ELIGIBLE_CURRENT
  end.
Proof.
  intros Hwf. destruct (one_per_source_find _ source (rw_watermarks _ _ Hwf)) as (w & Hw & Ew & Hu & Hf).
  unfold assessSource. rewrite Hf.
  destruct (last (source_observations request source)) as [o|] eqn:El.
  2:{ cbn. split; [|done]. intros o m (e & _ & Hp & Hs & _).
      by rewrite (source_observations_unique _ _ _ Hp Hs), last_snoc in El. }
  apply source_observations_last in El as (e & E & Hp & Hin & Hsrc & Ho).
  pose proof (proj1 (Forall_forall _ _) (rw_observations _ _ Hwf) o Hin) as Howf.
  pose proof (conservative_rate_spec _ _ Howf) as Hrate. rewrite Hsrc in Hrate.
  assert (forall b : Prop, (forall m, eligible request source o m -> b) -> ~ b ->
    forall o' m, ~ eligible request source o' m) as Hno.
  { intros b H Hb o' m He. apply Hb. rewrite (Ho _ _ He) in He. eauto. }
  destruct (hasMonotonicSequenceAndTime (source_observations request source)) eqn:Hmono.
  2:{ cbn. split; [|done]. apply (Hno (hasMonotonicSequenceAndTime (source_observations request source) = true)); [|congruence].
      intros m (e' & _ & Hp' & Hs' & Hn' & _). rewrite (source_observations_unique _ _ _ Hp' Hs').
      by apply monotonic_spec. }
  rewrite E in Hmono. apply monotonic_spec in Hmono as [Hs Hnd].
  destruct (replayed_or_regressed w o) eqn:Hrep.
  { cbn. split; [|done]. apply (Hno (replayed_or_regressed w o = false)); [|congruence].
    intros m (_ & w' & _ & _ & _ & Hw' & Ew' & Ha & _). rewrite (Hu _ Hw' Ew') in Ha. by apply replayed_spec. }
  destruct (_ || _) eqn:Hfuture.
  { cbn. split; [|done]. apply (Hno (po_pricedAtMs o <= po_observedAtMs o <= pr_evaluatedAtMs request)).
    - by intros m (_ & _ & _ & _ & _ & _ & _ & _ & Ht & _).
    - intros Ht. apply orb_true_iff in Hfuture as [Hfuture|Hfuture];
        [apply orb_true_iff in Hfuture as [Hfuture|Hfuture]|]; apply Z.ltb_lt in Hfuture; lia. }
  bsimpl. assert (forall m, eligible request source o m ->
    pr_evaluatedAtMs request - po_pricedAtMs o <= 60000 /\ conservative o m) as Hage.
  { by intros m (_ & _ & _ & _ & _ & _ & _ & _ & _ & ? & ?). }
  destruct (Z.ltb_spec unavailableAfterMs (pr_evaluatedAtMs request - po_pricedAtMs o)) as [Hold|Hold].
  { cbn. split; [|done]. apply (Hno (pr_evaluatedAtMs request - po_pricedAtMs o <= 60000)).
    - intros m Hm. apply (Hage m Hm).
    - unfold unavailableAfterMs in Hold. lia. }
  destruct (conservative_rate source o) as [[rate b]|].
  2:{ cbn. split; [|done]. apply (Hno (exists m, conservative o m)).
      - intros m Hm. exists m. apply (Hage m Hm).
      - intros [m Hm]. by apply Hrate in Hm. }
  destruct Hrate as [Hnorm Hcons]. rewrite (proj2 (Z.ltb_ge _ _)).
  2:{ destruct (conservative_bounds _ _ _ Howf Hcons). apply (toString_length_iff _ 78); lia. }
  destruct (Z.ltb_spec currentWithinMs (pr_evaluatedAtMs request - po_pricedAtMs o)) as [Hst|Hst].
  { cbn. split; [|done]. apply (Hno (pr_evaluatedAtMs request - po_pricedAtMs o <= 60000)).
    - intros m Hm. apply (Hage m Hm).
    - unfold currentWithinMs in Hst. lia. }
  cbn. split_and!; try done; try apply Hnorm. exists e, w. split_and!; try done; try lia.
  by apply replayed_spec.
Qed.

(** For every accepted request, each source is assessed ELIGIBLE_CURRENT
    exactly when its observations form a series of strictly increasing
    sequences with non-decreasing instants and no update seen twice, whose
    last element is after the source's watermark, is neither priced nor
    observed in the future, is at most sixty seconds old, and whose published
    confidence (Pyth) is at most half a cent. *)
Theorem source_eligible_iff registry v request source role :
  parseRequest registry v = Ok request ->
  sa_eligibility (ia_publicAssessment (assessSource request source role)) = ELIGIBLE_CURRENT <->
  exists o m, eligible request source o m.
Proof.
  intros Hwf%valuation_request_wf. pose proof (assess_candidate registry request source role Hwf) as H.
  destruct (ia_candidate _).
  - split; [intros _; do 2 eexists; apply H | intros _; apply H].
  - destruct H as [Hno Hne]. split; [done|]. intros (o & m & He). by apply Hno in He.
Qed.

(** ** Lemmas: the dollar value *)

Lemma half_even_nonneg x d n : 0 <= x -> 0 < d -> half_even x d n -> 0 <= n.
Proof. intros Hx Hd [H1 H2]. destruct (Z.leb_spec 0 n); [done|]. nia. Qed.

Lemma half_even_upper x d n b : 0 < d -> half_even x d n -> x <= b * d -> n <= b.
Proof.
  intros Hd Hn Hx. destruct (Z.leb_spec n b) as [|Hlt]; [done|]. destruct Hn as [H1 H2].
  assert (d <= n * d - x) by nia. lia.
Qed.

Lemma calculateUsdValue_spec amount decimals rate n :
  0 <= amount -> 0 <= decimals -> fixed_wf rate ->
  calculateUsdValue amount decimals rate = Some n <->
  half_even (amount * mantissa rate * 10 ^ 18) (10 ^ (decimals + scale rate)) n /\
  amount * mantissa rate < 10 ^ 156 /\ n < 10 ^ 96.
Proof.
  intros Ha Hd [Hm Hs]. unfold calculateUsdValue, powerOfTen, usdValueScale.
  pose proof (pow10_pos (decimals + scale rate) ltac:(lia)) as Hden.
  pose proof (half_even_division (amount * mantissa rate * 10 ^ 18) _ Hden) as Hval.
  fold (divideRoundHalfEven (amount * mantissa rate * 10 ^ 18) (10 ^ (decimals + scale rate))) in Hval.
  set (value := divideRoundHalfEven _ _) in *.
  assert (0 <= value) as Hv by (eapply half_even_nonneg; [|exact Hden | exact Hval]; lia).
  pose proof (toString_length_iff (amount * mantissa rate) 156 ltac:(lia) ltac:(lia)) as Hp.
  pose proof (toString_length_iff value 96 Hv ltac:(lia)) as Hl.
  unfold maxProductDigits, maxUsdValueDigits.
  destruct (Z.ltb_spec 156 (strlen (toString (amount * mantissa rate)))) as [H1|H1].
  { split; [done|]. intros (_ & H & _). lia. }
  destruct (Z.leb_spec (strlen (toString value)) 96) as [H2|H2].
  - split; [intros [= <-]; tauto|]. intros (H & _ & _). f_equal. by eapply half_even_unique.
  - split; [done|]. intros (H & _ & Hn). rewrite (half_even_unique _ _ _ _ Hden H Hval) in Hn. lia.
Qed.

(** At most a dollar for each of at most [2 ^ 256 - 1] atoms always fits. *)
Lemma calculateUsdValue_fits amount decimals rate :
  0 < amount <= MAX_UINT256 -> 0 <= decimals -> normalized rate -> mantissa rate <= 10 ^ 8 ->
  exists n, calculateUsdValue amount decimals rate = Some n.
Proof.
  intros Ha Hd Hn Hm. pose proof (normalized_wf _ Hn) as Hwf. destruct Hn as [Hm0 Hs].
  pose proof (pow10_pos (decimals + scale rate)) as Hden. rewrite Hs in Hden.
  unfold normalizedUsdRateScale in *. specialize (Hden ltac:(lia)).
  pose proof (half_even_division (amount * mantissa rate * 10 ^ 18) _ Hden) as Hval.
  eexists. apply calculateUsdValue_spec; [lia | done | done |]. rewrite Hs.
  split; [exact Hval|]. assert (amount * mantissa rate <= MAX_UINT256 * 10 ^ 8) as Hprod by nia.
  split; [eapply Z.le_lt_trans; [exact Hprod | reflexivity]|].
  apply (Z.le_lt_trans _ (MAX_UINT256 * 10 ^ 18)); [|reflexivity].
  eapply half_even_upper; [exact Hden | exact Hval|].
  rewrite pow10_split by lia. pose proof (pow10_pos decimals Hd).
  apply (Z.le_trans _ (MAX_UINT256 * 10 ^ 8 * 10 ^ 18)); [nia|].
  assert (0 <= MAX_UINT256) by done. nia.
Qed.

(** For every canonical amount in [1, 2^256 - 1], asset decimals of at most
    36 and canonical rate of at most 78 digits at a scale of at most 36, the
    public calculation returns the canonical numeral of the half-even rounding
    of [amount * rate] to 18 decimals, and refuses exactly when the product has
    more than 156 digits or the value more than 96. *)
Theorem usd_value_exact amount decimals rate s value :
  0 < BigInt amount <= MAX_UINT256 -> POSITIVE_INTEGER_PATTERN amount = true ->
  0 <= decimals <= 36 -> rate_digits rate -> 0 <= s <= 36 ->
  calculateStablecoinUsdValueMantissa (js_object
    [("amountAtomic", VStr amount); ("assetDecimals", VNum (JInt decimals));
     ("usdRateMantissa", VStr rate); ("usdRateScale", VNum (JInt s))]) = Some value <->
  exists n, value = toString n /\
    half_even (BigInt amount * BigInt rate * 10 ^ 18) (10 ^ (decimals + s)) n /\
    BigInt amount * BigInt rate < 10 ^ 156 /\ n < 10 ^ 96.
Proof.
  intros Ha Hpat Hd [Hr Hl] Hs. unfold calculateStablecoinUsdValueMantissa, dataRecord. read_record.
  rewrite (parseAmount_str amount) by (done || lia). cbn [rbind]. rewrite parseScale_js by done. cbn [rbind].
  unfold safe_integer. rewrite (proj2 (Z.leb_le _ _)) by (unfold MAX_SAFE_INTEGER; lia).
  cbn [or_throw rbind]. rewrite (proj2 (Z.ltb_ge _ _)), (proj2 (Z.ltb_ge _ _))
    by (unfold maxAssetDecimals; lia). cbn [orb]. rewrite parseDigits_str by done. cbn [rbind].
  set (r := {| mantissa := BigInt rate; scale := s |}).
  assert (fixed_wf r) as Hwf by (split; [by apply unsigned_integer_nonneg | apply Hs]).
  pose proof (fun n => calculateUsdValue_spec (BigInt amount) decimals r n ltac:(lia) ltac:(lia) Hwf) as Hn.
  cbn [mantissa scale r] in Hn. split.
  - destruct (calculateUsdValue _ _ _) as [n|] eqn:E; [|done]. intros [= <-].
    exists n. split; [done | by apply Hn].
  - intros (n & -> & H). apply Hn in H. by rewrite H.
Qed.

(** ** Lemmas: the pool of candidates *)

Lemma lowest_candidate_spec first rest :
  Forall (fun c => normalized (cand_conservativeRate c)) (first :: rest) ->
  let lowest := lowest_candidate first rest in
  lowest ∈ first :: rest /\
  Forall (fun c => mantissa (cand_conservativeRate lowest) <= mantissa (cand_conservativeRate c)) (first :: rest).
Proof.
  revert first. induction rest as [|c rest IH]; intros first H; cbn [lowest_candidate foldl].
  { split; [left | repeat constructor; lia]. }
  apply Forall_cons in H as [H1 H]. apply Forall_cons in H as [H2 H]. cbv zeta.
  destruct (Z.ltb_spec (compareFixed (cand_conservativeRate c) (cand_conservativeRate first)) 0) as [Hc|Hc].
  - apply compareFixed_lt in Hc. rewrite normalized_le in Hc by done.
    destruct (IH c) as [Hin Hall]; [by constructor|]. fold (lowest_candidate c rest).
    split; [by right|]. constructor; [|exact Hall]. apply Forall_cons in Hall as [Hl _]. lia.
  - assert (~ compareFixed (cand_conservativeRate c) (cand_conservativeRate first) < 0) as Hn by lia.
    rewrite compareFixed_lt, normalized_le in Hn by done.
    destruct (IH first) as [Hin Hall]; [by constructor|]. fold (lowest_candidate first rest).
    apply Forall_cons in Hall as [Hl Hall].
    split; [apply elem_of_cons in Hin as [->|Hin]; [left | by right; right]|].
    constructor; [done|]. constructor; [lia | done].
Qed.

Lemma ONE_USD_normalized : normalized ONE_USD.
Proof. by split. Qed.

Lemma minimumFixed_one r :
  normalized r -> normalized (minimumFixed r ONE_USD) /\
  mantissa (minimumFixed r ONE_USD) = Z.min (mantissa r) (10 ^ 8).
Proof.
  intros Hr. unfold minimumFixed.
  pose proof (compareFixed_le r ONE_USD) as H. rewrite (normalized_le _ _ Hr ONE_USD_normalized) in H.
  cbn [mantissa ONE_USD] in H.
  destruct (Z.leb_spec (compareFixed r ONE_USD) 0); (split; [done || apply ONE_USD_normalized|]);
    cbn [mantissa ONE_USD]; lia.
Qed.

(** The result for a pool of normalized candidates: always available, at the
    lowest rate capped at one dollar. *)
Lemma availableResult_spec registry request first rest assessments agreement class :
  request_wf registry request ->
  Forall (fun c => normalized (cand_conservativeRate c)) (first :: rest) ->
  let res := availableResult request first rest assessments agreement class in
  exists c m n, c ∈ first :: rest /\ m = Z.min (mantissa (cand_conservativeRate c)) (10 ^ 8) /\
    Forall (fun c' => m <= mantissa (cand_conservativeRate c')) (first :: rest) /\
    val_availability res = AVAILABLE /\
    val_selectedSourceId res = Some (obs_source (cand_observation c)) /\
    val_pricedAt res = Some (obs_pricedAt (po_public (cand_observation c))) /\
    val_selectedSourceSequence res = Some (obs_sourceSequence (po_public (cand_observation c))) /\
    val_usdRateMantissa res = Some (toString m) /\ val_usdRateScale res = Some 8 /\
    val_usdValueMantissa res = Some (toString n) /\
    half_even (pr_amount request * m * 10 ^ 18) (10 ^ (ref_decimals (pr_asset request) + 8)) n /\
    val_downsideBand res = classifyDownside {| mantissa := m; scale := 8 |} /\
    val_sourceAgreement res = agreement /\ val_sourceAssessments res = assessments.
Proof.
  intros Hwf Hn. cbv zeta. destruct (lowest_candidate_spec _ _ Hn) as [Hin Hall].
  assert (normalized (cand_conservativeRate (lowest_candidate first rest))) as Hl.
  { rewrite Forall_forall in Hn. by apply Hn. }
  destruct (minimumFixed_one _ Hl) as [Hnm Em].
  assert (0 <= ref_decimals (pr_asset request)) as Hdec by apply (rw_asset _ _ Hwf).
  unfold availableResult. set (lowest := lowest_candidate first rest) in *.
  set (rate := minimumFixed _ _) in *.
  destruct (calculateUsdValue_fits (pr_amount request) (ref_decimals (pr_asset request)) rate) as [n Hv];
    [apply (rw_amount _ _ Hwf) | done | done | lia |].
  rewrite Hv. exists lowest, (mantissa rate), n.
  apply calculateUsdValue_spec in Hv as [Hv _];
    [| pose proof (rw_amount _ _ Hwf); lia | done | by apply normalized_wf].
  destruct Hnm as [_ Hs]. rewrite Hs in Hv.
  assert (rate = {| mantissa := mantissa rate; scale := 8 |}) as Erate.
  { destruct rate; cbn in *. by subst. }
  cbn. split_and!; try done; [|by rewrite Hs | by rewrite <- Erate].
  eapply Forall_impl; [exact Hall|]. intros c Hc. cbv beta in *. lia.
Qed.

Lemma agreement_spec a b :
  normalized a -> normalized b ->
  (classifySourceAgreement a b = CONFLICT <-> 500000 < Z.abs (mantissa a - mantissa b)) /\
  (classifySourceAgreement a b = CORROBORATED <-> Z.abs (mantissa a - mantissa b) <= 250000).
Proof.
  intros Ha Hb. assert (scale a = scale b) as E by (destruct Ha as [_ ->], Hb as [_ ->]; done).
  pose proof (difference_same_scale a b) as H.
  specialize (fun t => H t (normalized_wf _ Ha) (normalized_wf _ Hb) E).
  destruct Ha as [_ Hs]. rewrite Hs in H. unfold normalizedUsdRateScale in H.
  unfold classifySourceAgreement, corroboratedAtOrBelowBps, softDisagreementAtOrBelowBps.
  pose proof (H 25) as H25. pose proof (H 50) as H50.
  destruct (absoluteUsdAmountExceedsBps _ 25), (absoluteUsdAmountExceedsBps _ 50); cbn [negb];
    split; split; intros; try done; try lia; exfalso.
  all: first [assert (~ 25 * 10 ^ 8 < Z.abs (mantissa a - mantissa b) * 10000) by (rewrite <- H25; done); lia
             | assert (25 * 10 ^ 8 < Z.abs (mantissa a - mantissa b) * 10000) by (by apply H25);
               assert (~ 50 * 10 ^ 8 < Z.abs (mantissa a - mantissa b) * 10000) by (rewrite <- H50; done); lia
             | assert (50 * 10 ^ 8 < Z.abs (mantissa a - mantissa b) * 10000) by (by apply H50); lia].
Qed.

(** The candidates of a request, in source order. *)
Definition pool (request : ParsedRequest) : list SourceCandidate :=
  omap ia_candidate [assessSource request PYTH_CORE PRIMARY_SOURCE;
                     assessSource request CHAINLINK_DATA_FEEDS FALLBACK_AND_CROSS_CHECK].

Lemma pool_spec registry request c :
  request_wf registry request ->
  c ∈ pool request ->
  eligible request (obs_source (cand_observation c)) (cand_observation c)
    (mantissa (cand_conservativeRate c)) /\
  normalized (cand_conservativeRate c) /\ normalized (po_rate (cand_observation c)) /\
  cand_freshness c = CURRENT.
Proof.
  intros Hwf (i & Hi & Hc)%list_elem_of_omap.
  assert (exists source role, i = assessSource request source role) as (source & role & ->).
  { apply elem_of_cons in Hi as [->|Hi]; [eauto|]. apply list_elem_of_singleton in Hi as ->. eauto. }
  pose proof (assess_candidate registry request source role Hwf) as H. rewrite Hc in H.
  destruct H as (He & Hn & -> & Hin & Hf & _). split_and!; try done.
  eapply observation_rate, (proj1 (Forall_forall _ _) (rw_observations _ _ Hwf)), Hin.
Qed.

Lemma pool_complete registry request source o m :
  request_wf registry request -> eligible request source o m ->
  exists c, c ∈ pool request /\ cand_observation c = o /\ mantissa (cand_conservativeRate c) = m.
Proof.
  intros Hwf He. set (role := match source with PYTH_CORE => PRIMARY_SOURCE | _ => FALLBACK_AND_CROSS_CHECK end).
  pose proof (assess_candidate registry request source role Hwf) as H.
  destruct (ia_candidate (assessSource request source role)) as [c|] eqn:Ec.
  2:{ destruct H as [Hno _]. by apply Hno in He. }
  destruct H as (He' & _). destruct (eligible_unique _ _ _ _ _ _ He He') as [-> ->].
  exists c. split; [|done]. unfold pool. apply list_elem_of_omap.
  exists (assessSource request source role). split; [|done].
  destruct source; [left | right; left].
Qed.

Lemma classify_request_pool registry request :
  request_wf registry request ->
  classify_request request =
  classify_pool request
    (ia_publicAssessment <$> ((fun sr => assessSource request sr.1 sr.2) <$> sourceOrder)) (pool request).
Proof.
  intros Hwf. unfold classify_request. f_equal.
  change (omap ia_candidate ((fun sr => assessSource request sr.1 sr.2) <$> sourceOrder)) with (pool request).
  assert (Forall (fun c => cand_freshness c = CURRENT) (pool request)) as Hall.
  { apply Forall_forall. intros c Hc. by apply (pool_spec registry request c Hwf) in Hc as (_ & _ & _ & ?). }
  induction Hall as [|c l Hc Hall IH]; cbn [List.filter]; [done|]. by rewrite bool_decide_true, IH.
Qed.

(** The three shapes of a pool. *)
Lemma pool_cases registry request :
  request_wf registry request ->
  (pool request = [] /\ forall source o m, ~ eligible request source o m) \/
  (exists c, pool request = [c] /\
     forall source o m, eligible request source o m -> source = obs_source (cand_observation c)) \/
  (exists c c', pool request = [c; c'] /\ obs_source (cand_observation c) = PYTH_CORE /\
     obs_source (cand_observation c') = CHAINLINK_DATA_FEEDS).
Proof.
  intros Hwf. unfold pool.
  pose proof (assess_candidate registry request PYTH_CORE PRIMARY_SOURCE Hwf) as H1.
  pose proof (assess_candidate registry request CHAINLINK_DATA_FEEDS FALLBACK_AND_CROSS_CHECK Hwf) as H2.
  cbn [omap list_omap].
  destruct (ia_candidate (assessSource request PYTH_CORE _)) as [c|];
    destruct (ia_candidate (assessSource request CHAINLINK_DATA_FEEDS _)) as [c'|].
  - right. right. exists c, c'. split_and!; [done | apply H1 | apply H2].
  - right. left. exists c. split; [done|]. destruct H1 as (_ & _ & -> & _), H2 as [H2 _].
    intros [] o m He; [done | by apply H2 in He].
  - right. left. exists c'. split; [done|]. destruct H2 as (_ & _ & -> & _), H1 as [H1 _].
    intros [] o m He; [by apply H1 in He | done].
  - left. split; [done|]. destruct H1 as [H1 _], H2 as [H2 _]. intros [] o m He; [by apply H1 in He | by apply H2 in He].
Qed.

Lemma classify_pool_flags request assessments p :
  val_mayIncreaseBuyingPower (classify_pool request assessments p) = false /\
  val_mayAuthorizeFinancialUse (classify_pool request assessments p) = false.
Proof.
  assert (forall first rest agreement class,
    val_mayIncreaseBuyingPower (availableResult request first rest assessments agreement class) = false /\
    val_mayAuthorizeFinancialUse (availableResult request first rest assessments agreement class) = false) as H.
  { intros. unfold availableResult. by destruct (calculateUsdValue _ _ _). }
  destruct p as [|c [|c' [|c'' p]]]; cbn [classify_pool]; try apply H; [done|].
  destruct (classifySourceAgreement _ _); (apply H || done).
Qed.

Lemma classify_pool_available request assessments p :
  val_availability (classify_pool request assessments p) = AVAILABLE ->
  exists first rest agreement class, p = first :: rest /\
    classify_pool request assessments p = availableResult request first rest assessments agreement class.
Proof.
  destruct p as [|c [|c' [|c'' p]]]; cbn [classify_pool]; [done | eauto 10 | | eauto 10].
  destruct (classifySourceAgreement _ _); (done || eauto 10).
Qed.

(** An accepted request gets a valuation exactly when some source is
    eligible and, when both are, their published rates differ by at most half a
    cent; neither a number limit nor anything else makes it unavailable. *)
Theorem valuation_available_iff registry v request :
  parseRequest registry v = Ok request ->
  val_availability (evaluateStablecoinValuation registry v) = AVAILABLE <->
  (exists source o m, eligible request source o m) /\
  (forall o m o' m', eligible request PYTH_CORE o m -> eligible request CHAINLINK_DATA_FEEDS o' m' ->
     Z.abs (mantissa (po_rate o) - mantissa (po_rate o')) <= 500000).
Proof.
  intros Hp. pose proof (valuation_request_wf _ _ _ Hp) as Hwf. unfold evaluateStablecoinValuation.
  rewrite Hp, (classify_request_pool registry) by done. set (assessments := _ <$> _).
  pose proof (fun c => pool_spec registry request c Hwf) as Hpool.
  destruct (pool_cases _ _ Hwf) as [[E Hno]|[(c & E & Hone)|(c & c' & E & E1 & E2)]]; rewrite E in *; cbn [classify_pool].
  - split; [done|]. intros [(source & o & m & He) _]. by apply Hno in He.
  - destruct (Hpool c ltac:(left)) as (He & Hn & _).
    destruct (availableResult_spec registry request c [] assessments SINGLE_SOURCE_AGREEMENT LOW Hwf)
      as (_ & _ & _ & _ & _ & _ & -> & _); [by apply Forall_singleton|].
    split; [intros _ | done]. split; [eauto|]. intros o m o' m' H1%Hone H2%Hone. congruence.
  - destruct (Hpool c ltac:(left)) as (He & Hn & Hr & _), (Hpool c' ltac:(right; left)) as (He' & Hn' & Hr' & _).
    rewrite E1 in He. rewrite E2 in He'. destruct (agreement_spec _ _ Hr Hr') as [Hconf _].
    assert (classifySourceAgreement (po_rate (cand_observation c)) (po_rate (cand_observation c')) <> CONFLICT <->
            forall o m o' m', eligible request PYTH_CORE o m -> eligible request CHAINLINK_DATA_FEEDS o' m' ->
              Z.abs (mantissa (po_rate o) - mantissa (po_rate o')) <= 500000) as Hall.
    { rewrite Hconf. split; [|intros H Hlt; specialize (H _ _ _ _ He He'); lia].
      intros Hlt o m o' m' H1 H2. destruct (eligible_unique _ _ _ _ _ _ He H1) as [<- _].
      destruct (eligible_unique _ _ _ _ _ _ He' H2) as [<- _]. lia. }
    rewrite <- Hall. assert (forall agreement class,
      val_availability (availableResult request c [c'] assessments agreement class) = AVAILABLE) as Hav.
    { intros agreement class.
      destruct (availableResult_spec registry request c [c'] assessments agreement class Hwf)
        as (_ & _ & _ & _ & _ & _ & -> & _); [|done].
      apply Forall_cons. split; [done | by apply Forall_singleton]. }
    destruct (classifySourceAgreement _ _); try (split; [done | intros [_ []]; done]);
      (split; [eauto 6 | by rewrite Hav]).
Qed.

(** C27: whenever an accepted request is valued, the rate is the lowest
    conservative rate of all eligible sources, capped at one dollar; it comes
    from an eligible observation of the selected source; the value is its exact
    half-even product with the amount; and the result never claims to increase
    buying power or to authorise a financial use. *)
Theorem valuation_conservative registry v request :
  parseRequest registry v = Ok request ->
  let res := evaluateStablecoinValuation registry v in
  val_mayIncreaseBuyingPower res = false /\ val_mayAuthorizeFinancialUse res = false /\
  (val_availability res = AVAILABLE ->
   exists source o lowest m n,
     eligible request source o lowest /\ m = Z.min lowest (10 ^ 8) /\
     (forall source' o' m', eligible request source' o' m' -> m <= m') /\
     val_selectedSourceId res = Some source /\ val_pricedAt res = Some (obs_pricedAt (po_public o)) /\
     val_selectedSourceSequence res = Some (obs_sourceSequence (po_public o)) /\
     val_usdRateMantissa res = Some (toString m) /\ val_usdRateScale res = Some 8 /\
     val_usdValueMantissa res = Some (toString n) /\
     half_even (pr_amount request * m * 10 ^ 18) (10 ^ (ref_decimals (pr_asset request) + 8)) n).
Proof.
  intros Hp. pose proof (valuation_request_wf _ _ _ Hp) as Hwf. cbv zeta. unfold evaluateStablecoinValuation.
  rewrite Hp, (classify_request_pool registry) by done. set (assessments := _ <$> _).
  pose proof (fun c => pool_spec registry request c Hwf) as Hpool.
  pose proof (fun source o m => pool_complete registry request source o m Hwf) as Hcomplete.
  split; [apply classify_pool_flags|]. split; [apply classify_pool_flags|]. intros Hav.
  destruct (classify_pool_available request assessments (pool request) Hav)
    as (first & rest & agreement & class & Epool & ->).
  destruct (availableResult_spec registry request first rest assessments agreement class Hwf)
    as (c & m & n & Hin & Em & Hall & _ & Hs & Hpr & Hseq & Hr & Hsc & Hval & Hhe & _).
  { rewrite <- Epool. apply Forall_forall. intros c Hc. by apply Hpool in Hc as (_ & ? & _). }
  rewrite <- Epool in *. apply Hpool in Hin as (He & _).
  exists (obs_source (cand_observation c)), (cand_observation c), (mantissa (cand_conservativeRate c)), m, n.
  split_and!; try done. intros source' o' m' (c' & Hc' & _ & <-)%Hcomplete.
  rewrite Forall_forall in Hall. by apply Hall.
Qed.

(** ** Lemmas: depegs *)

Lemma depegged_normalized r :
  normalized r -> classifyDownside r = DEPEGGED <-> mantissa r <= 98000000.
Proof.
  intros [Hm Hs]. destruct (classifyDownside_thresholds r Hm) as (_ & -> & _).
  - rewrite Hs. done.
  - rewrite Hs. unfold normalizedUsdRateScale. lia.
Qed.

(** The result reports a depeg: class, band and reason agree. *)
Definition reports_depeg (res : StablecoinValuationResult) (b : bool) : Prop :=
  (val_depegClass res = OUTSIDE_POLICY <-> b = true) /\
  (b = true -> val_downsideBand res = DEPEGGED /\ DEPEG_DETECTED ∈ val_reasons res).

Lemma orderedReasons_elem reasons r : r ∈ reasons -> r ∈ orderedReasons reasons.
Proof.
  intros H. apply list_elem_of_In, List.filter_In. split; [|by apply bool_decide_eq_true].
  apply list_elem_of_In. destruct r; solve_elem.
Qed.

Lemma availableResult_depeg request first rest assessments agreement class :
  let res := availableResult request first rest assessments agreement class in
  val_availability res = AVAILABLE ->
  reports_depeg res (bool_decide (val_downsideBand res = DEPEGGED)).
Proof.
  cbv zeta. unfold availableResult. destruct (calculateUsdValue _ _ _); [|done]. intros _.
  unfold reports_depeg. cbn [val_depegClass val_downsideBand val_reasons].
  case_bool_decide as E; (split; [by split|]); [|done].
  intros _. split; [done|]. apply orderedReasons_elem. rewrite !elem_of_app. do 6 right. left.
Qed.

Lemma conflict_depeg request assessments c c' :
  classifySourceAgreement (po_rate (cand_observation c)) (po_rate (cand_observation c')) = CONFLICT ->
  reports_depeg (classify_pool request assessments [c; c'])
    (bool_decide (classifyDownside (cand_conservativeRate c) = DEPEGGED)
     || bool_decide (classifyDownside (cand_conservativeRate c') = DEPEGGED)).
Proof.
  intros E. cbn [classify_pool]. rewrite E.
  assert (bool_decide (mostSevereDownsideBand [classifyDownside (cand_conservativeRate c);
            classifyDownside (cand_conservativeRate c')] = DEPEGGED)
          = bool_decide (classifyDownside (cand_conservativeRate c) = DEPEGGED)
            || bool_decide (classifyDownside (cand_conservativeRate c') = DEPEGGED)) as ->
    by (destruct (classifyDownside (cand_conservativeRate c)), (classifyDownside (cand_conservativeRate c')); done).
  unfold reports_depeg. destruct (_ || _); cbn; (split; [by split|]); [|done].
  intros _. split; [done|]. apply orderedReasons_elem. right. left.
Qed.

(** A depeg is reported exactly when an eligible source is at 0.98 dollars or
    below, whether the request is valued or the sources conflict. *)
Lemma depeg_reported registry request :
  request_wf registry request ->
  exists b, reports_depeg (classify_request request) b /\
    (b = true <-> exists source o m, eligible request source o m /\ m <= 98000000).
Proof.
  intros Hwf. rewrite (classify_request_pool registry) by done. set (assessments := _ <$> _).
  pose proof (fun c => pool_spec registry request c Hwf) as Hpool.
  pose proof (fun source o m => pool_complete registry request source o m Hwf) as Hcomplete.
  assert (forall first rest agreement class, pool request = first :: rest ->
    exists b, reports_depeg (availableResult request first rest assessments agreement class) b /\
      (b = true <-> exists source o m, eligible request source o m /\ m <= 98000000)) as Hav.
  { intros first rest agreement class E. rewrite E in *.
    destruct (availableResult_spec registry request first rest assessments agreement class Hwf)
      as (c & m & n & Hin & Em & Hall & Ha & _ & _ & _ & _ & _ & _ & _ & Hband & _).
    { apply Forall_forall. intros c Hc. by apply Hpool in Hc as (_ & ? & _). }
    eexists. split; [by apply availableResult_depeg|]. rewrite bool_decide_eq_true, Hband.
    destruct (Hpool c Hin) as (He & [Hc _] & _). rewrite Forall_forall in Hall.
    rewrite depegged_normalized by (split; cbn [mantissa scale]; [lia | done]). cbn [mantissa]. split.
    - intros Hm. exists (obs_source (cand_observation c)), (cand_observation c), (mantissa (cand_conservativeRate c)).
      split; [done | lia].
    - intros (s & o & m' & (c' & Hc' & _ & <-)%Hcomplete & Hm'). apply Hall in Hc'. lia. }
  destruct (pool_cases _ _ Hwf) as [[E Hno]|[(c & E & _)|(c & c' & E & E1 & E2)]].
  - rewrite E. exists false. split; [by split|]. split; [done|]. intros (s & o & m & He & _). by apply Hno in He.
  - rewrite E. cbn [classify_pool]. by apply Hav.
  - destruct (decide (classifySourceAgreement (po_rate (cand_observation c)) (po_rate (cand_observation c')) = CONFLICT))
      as [Ec|Ec].
    + rewrite E in *. eexists. split; [by apply conflict_depeg|].
      rewrite orb_true_iff, !bool_decide_eq_true.
      destruct (Hpool c ltac:(left)) as (He & Hn & _), (Hpool c' ltac:(right; left)) as (He' & Hn' & _).
      rewrite !depegged_normalized by done. split.
      * intros [H|H]; eauto 6.
      * intros (s & o & m & (x & Hx & _ & <-)%Hcomplete & Hm).
        apply elem_of_cons in Hx as [->|Hx]; [by left|]. apply list_elem_of_singleton in Hx as ->. by right.
    + rewrite E. cbn [classify_pool].
      destruct (classifySourceAgreement (po_rate (cand_observation c)) (po_rate (cand_observation c')));
        (done || by apply Hav).
Qed.

(** ** Examples *)

(** The shipped registry under a digest that always gives the reviewed fingerprint. *)
Definition mainnet_registry_example : VersionedSupportedAssetRegistry :=
  Eval vm_compute in
  match MAINNET_SUPPORTED_ASSET_REGISTRY
          (fun _ => "5058b141479f114c1e5f87ed8798fbb7a7ffcce7b502aa7e0794dc53ca1f767d") with
  | Ok r => r
  | Err _ =>
      {| reg_environment := MAINNET; reg_versions := [];
         reg_latest := {| snap_version := 0; snap_environment := MAINNET; snap_fingerprintSha256 := "";
           snap_networks := []; snap_assets := []; snap_byNetworkId := []; snap_assetByIdentity := [] |};
         reg_byVersion := [] |}
  end.

Definition usdt_example : StablecoinValuationAssetReference :=
  {| ref_registryEnvironment := MAINNET; ref_registryVersion := 1;
     ref_registryFingerprintSha256 := "5058b141479f114c1e5f87ed8798fbb7a7ffcce7b502aa7e0794dc53ca1f767d";
     ref_stablecoin := USDT; ref_networkId := "eip155:1";
     ref_identity := "0xdac17f958d2ee523a2206206994597c13d831ec7"; ref_decimals := 6 |}.

Definition hex64_example (digit : string) : string :=
  "0123456789abcdef0123456789abcdef0123456789abcdef0123456789abcde" +:+ digit.

Definition pyth_example (at_ observed sequence digit rate : string) : StablecoinPriceObservation :=
  {| obs_asset := usdt_example; obs_sourceId := PYTH_CORE;
     obs_sourceReference := STABLECOIN_VALUATION_FEED_REFERENCES USDT PYTH_CORE;
     obs_sourceSequence := sequence; obs_sourceUpdateId := hex64_example digit; obs_pricedAt := at_;
     obs_observedAt := observed; obs_usdRateMantissa := rate; obs_usdRateScale := 8;
     obs_confidence := PUBLISHED_ABSOLUTE_USD "100000" 8 |}.

Definition chainlink_example (at_ observed sequence rate : string) : StablecoinPriceObservation :=
  {| obs_asset := usdt_example; obs_sourceId := CHAINLINK_DATA_FEEDS;
     obs_sourceReference := STABLECOIN_VALUATION_FEED_REFERENCES USDT CHAINLINK_DATA_FEEDS;
     obs_sourceSequence := sequence; obs_sourceUpdateId := sequence; obs_pricedAt := at_;
     obs_observedAt := observed; obs_usdRateMantissa := rate; obs_usdRateScale := 8;
     obs_confidence := NOT_PUBLISHED |}.

(** 1.5 USDT at 0.9990 (Pyth, confidence 0.001) and 0.9985 (Chainlink). *)
Definition valuation_example (pyth chainlink : string) : jsval := js_object
  [("asset", asset_js usdt_example); ("amountAtomic", VStr "1500000");
   ("evaluatedAt", VStr "2026-01-01T00:01:00.000Z");
   ("sourceWatermarks", STABLECOIN_VALUATION_FIRST_USE_WATERMARKS);
   ("observations", js_array
      [observation_js (pyth_example "2026-01-01T00:00:30.000Z" "2026-01-01T00:00:31.000Z" "7" "a" pyth);
       observation_js (chainlink_example "2026-01-01T00:00:20.000Z" "2026-01-01T00:00:31.000Z" "9" chainlink)])].

Example valuation_example_value :
  let res := evaluateStablecoinValuation mainnet_registry_example (valuation_example "99900000" "99850000") in
  (val_availability res, val_usdRateMantissa res, val_usdValueMantissa res, val_confidenceClass res,
   val_downsideBand res)
  = (AVAILABLE, Some "99800000", Some "1497000000000000000", MEDIUM, NORMAL).
Proof. vm_compute. reflexivity. Qed.

Example valuation_conflict_value :
  val_availability (evaluateStablecoinValuation mainnet_registry_example
                      (valuation_example "99900000" "99390000")) = UNAVAILABLE.
Proof. vm_compute. reflexivity. Qed.

Lemma observation_roundtrip_witness :
  exists o,
    parseObservation mainnet_registry_example usdt_example
      (observation_js (chainlink_example "2026-01-01T00:00:20.000Z" "2026-01-01T00:00:31.000Z" "9" "100")) = Ok o /\
    parseObservation mainnet_registry_example usdt_example (observation_js (publicObservation o)) = Ok o.
Proof.
  eexists. split; [vm_compute; reflexivity|].
  apply (observation_roundtrip mainnet_registry_example usdt_example (asset_js usdt_example)
    (observation_js (chainlink_example "2026-01-01T00:00:20.000Z" "2026-01-01T00:00:31.000Z" "9" "100")));
    vm_compute; reflexivity.
Defined.

Lemma downside_band_exact_witness :
  classifyDownside {| mantissa := 98; scale := 2 |} = DEPEGGED.
Proof. apply (downside_band_exact {| mantissa := 98; scale := 2 |}); cbn; lia. Defined.

Lemma usd_value_exact_witness :
  exists value, calculateStablecoinUsdValueMantissa (js_object
    [("amountAtomic", VStr "1"); ("assetDecimals", VNum (JInt 19));
     ("usdRateMantissa", VStr "5"); ("usdRateScale", VNum (JInt 0))]) = Some value /\ value = "0".
Proof.
  exists "0". split; [|reflexivity]. apply (usd_value_exact "1" 19 "5" 0 "0").
  - split; [reflexivity | vm_compute; discriminate].
  - reflexivity.
  - lia.
  - split; [reflexivity | vm_compute; discriminate].
  - lia.
  - exists 0. split; [reflexivity|]. split; [|split; reflexivity].
    split; [vm_compute; discriminate | reflexivity].
Defined.

Lemma source_eligible_iff_witness :
  exists request,
    parseRequest mainnet_registry_example (valuation_example "99900000" "99850000") = Ok request /\
    (exists o m, eligible request PYTH_CORE o m).
Proof.
  eexists. split; [vm_compute; reflexivity|].
  apply (source_eligible_iff mainnet_registry_example (valuation_example "99900000" "99850000") _
           PYTH_CORE PRIMARY_SOURCE); vm_compute; reflexivity.
Defined.

Lemma valuation_available_iff_witness :
  exists request,
    parseRequest mainnet_registry_example (valuation_example "99900000" "99850000") = Ok request /\
    (exists source o m, eligible request source o m).
Proof.
  eexists. split; [vm_compute; reflexivity|].
  apply (valuation_available_iff mainnet_registry_example (valuation_example "99900000" "99850000"));
    vm_compute; reflexivity.
Defined.

Lemma valuation_conservative_witness :
  val_mayAuthorizeFinancialUse
    (evaluateStablecoinValuation mainnet_registry_example (valuation_example "99900000" "99850000")) = false.
Proof.
  eapply (valuation_conservative mainnet_registry_example (valuation_example "99900000" "99850000")).
  vm_compute. reflexivity.
Defined.
