(* ===== verification/ValuationRecovery.v ===== *)
(** * Recovery after a depeg (apps/api/src/valuation/domain/stablecoin-valuation-policy.ts)

    [evaluateStablecoinRecovery]: four consecutive dual-source samples over
    half an hour, each valued by the classifier of Valuation.v, and a manual
    risk clear of the same latch. *)

From stdpp Require Import base list strings sets sorting.
From Stdlib Require Import ZArith Lia Sorted.
From S2P Require Import Prelude Text JsValue JsDate JsCollections AssetRegistry Valuation.

Open Scope Z_scope.

(** ** Data and classifier *)

Inductive StablecoinRecoveryStatus : Type :=
| RECOVERY_INVALID_INPUT | NOT_APPLICABLE | RECOVERY_PENDING | MANUAL_RISK_CLEAR_NEEDED
| RECOVERY_CANDIDATE_CLEARED.

Inductive StablecoinRecoveryReason : Type :=
| INVALID_RECOVERY_INPUT | NO_PRIOR_DEPEG_LATCH | INSUFFICIENT_DISTINCT_OBSERVATIONS
| NON_MONOTONIC_EVIDENCE | INSUFFICIENT_OBSERVATION_SPAN | DEPEG_LATCH_AFTER_RECOVERY_EVALUATION
| EVIDENCE_PRECEDES_DEPEG_LATCH | EVIDENCE_AFTER_RECOVERY_EVALUATION | OBSERVATION_NOT_CURRENT
| OBSERVATION_NOT_CORROBORATED | OBSERVATION_OUTSIDE_REPEG_BAND | MANUAL_RISK_CLEAR_REQUIRED
| MANUAL_RISK_CLEAR_LATCH_MISMATCH | MANUAL_RISK_CLEAR_PRECEDES_FINAL_SAMPLE
| MANUAL_RISK_CLEAR_AFTER_RECOVERY_EVALUATION | LOCAL_CANDIDATE_CLEAR_ONLY.

#[export] Instance recovery_reason_eq_dec : EqDecision StablecoinRecoveryReason.
Proof. solve_decision. Defined.
#[export] Instance recovery_status_eq_dec : EqDecision StablecoinRecoveryStatus.
Proof. solve_decision. Defined.

Record StablecoinDepegLatchReference : Type := {
  dl_asset : StablecoinValuationAssetReference;
  dl_latchId : string;
  dl_latchedAt : string;
}.

Record StablecoinManualRiskClearReference : Type := {
  mc_asset : StablecoinValuationAssetReference;
  mc_clearId : string;
  mc_latchId : string;
  mc_clearedAt : string;
}.

(** A parsed reference is the public one with its milliseconds. *)
Record ParsedRecoverySample : Type := {
  rs_evaluatedAt : string;
  rs_evaluatedAtMs : Z;
  rs_observations : list ParsedObservation;
  rs_valuation : StablecoinValuationResult;
}.

Record ParsedRecoveryRequest : Type := {
  rr_asset : StablecoinValuationAssetReference;
  rr_evaluatedAt : string;
  rr_evaluatedAtMs : Z;
  rr_depegLatch : option (StablecoinDepegLatchReference * Z);
  rr_manualRiskClear : option (StablecoinManualRiskClearReference * Z);
  rr_samples : list ParsedRecoverySample;
}.

Record StablecoinRecoveryResult : Type := {
  rec_status : StablecoinRecoveryStatus;
  rec_asset : option StablecoinValuationAssetReference;
  rec_evaluatedAt : option string;
  rec_depegLatch : option StablecoinDepegLatchReference;
  rec_acceptedManualRiskClear : option StablecoinManualRiskClearReference;
  rec_evidenceCount : Z;
  rec_evidenceSpanMs : option Z;
  rec_reasons : list StablecoinRecoveryReason;
  rec_manualRiskClearAccepted : bool;
  rec_mayIncreaseBuyingPower : bool;
  rec_mayAuthorizeFinancialUse : bool;
}.

Definition RECOVERY_REASON_ORDER : list StablecoinRecoveryReason :=
  [INVALID_RECOVERY_INPUT; NO_PRIOR_DEPEG_LATCH; INSUFFICIENT_DISTINCT_OBSERVATIONS;
   NON_MONOTONIC_EVIDENCE; INSUFFICIENT_OBSERVATION_SPAN; DEPEG_LATCH_AFTER_RECOVERY_EVALUATION;
   EVIDENCE_PRECEDES_DEPEG_LATCH; EVIDENCE_AFTER_RECOVERY_EVALUATION; OBSERVATION_NOT_CURRENT;
   OBSERVATION_NOT_CORROBORATED; OBSERVATION_OUTSIDE_REPEG_BAND; MANUAL_RISK_CLEAR_REQUIRED;
   MANUAL_RISK_CLEAR_LATCH_MISMATCH; MANUAL_RISK_CLEAR_PRECEDES_FINAL_SAMPLE;
   MANUAL_RISK_CLEAR_AFTER_RECOVERY_EVALUATION; LOCAL_CANDIDATE_CLEAR_ONLY].

Definition orderedRecoveryReasons (reasons : list StablecoinRecoveryReason)
    : list StablecoinRecoveryReason :=
  List.filter (fun reason => bool_decide (reason ∈ reasons)) RECOVERY_REASON_ORDER.

Definition recoveryResult status asset evaluatedAt depegLatch acceptedManualRiskClear evidenceCount
    evidenceSpanMs reasons : StablecoinRecoveryResult :=
  {| rec_status := status; rec_asset := asset; rec_evaluatedAt := evaluatedAt;
     rec_depegLatch := depegLatch; rec_acceptedManualRiskClear := acceptedManualRiskClear;
     rec_evidenceCount := evidenceCount; rec_evidenceSpanMs := evidenceSpanMs;
     rec_reasons := orderedRecoveryReasons reasons;
     rec_manualRiskClearAccepted := bool_decide (is_Some acceptedManualRiskClear);
     rec_mayIncreaseBuyingPower := false; rec_mayAuthorizeFinancialUse := false |}.

Definition recoverySpan (samples : list ParsedRecoverySample) : option Z :=
  match head samples, last samples with
  | Some first, Some final => Some (rs_evaluatedAtMs final - rs_evaluatedAtMs first)
  | _, _ => None
  end.

Definition observation_of (source : StablecoinValuationSourceId) (sample : ParsedRecoverySample)
    : option ParsedObservation :=
  List.find (fun o => bool_decide (obs_source o = source)) (rs_observations sample).

(** The update of a source must be new: the source's set of update ids with it
    added, or [None]. *)
Definition record_update (source : StablecoinValuationSourceId) (sample : ParsedRecoverySample)
    (updateIds : list string) : option (list string) :=
  match observation_of source sample with
  | None => None
  | Some o => if has updateIds (obs_update o) then None else Some (obs_update o :: updateIds)
  end.

Definition advances (source : StablecoinValuationSourceId) (previous sample : ParsedRecoverySample)
    : bool :=
  match observation_of source previous, observation_of source sample with
  | Some before, Some after =>
      negb ((obs_sequence after <=? obs_sequence before)
            || String.eqb (obs_update after) (obs_update before)
            || (po_pricedAtMs after <? po_pricedAtMs before)
            || (po_observedAtMs after <? po_observedAtMs before))
  | _, _ => false
  end.

(** The loop over the samples; [pyth] and [chainlink] are the two sets of
    update ids. *)
Fixpoint strictly_monotonic_from (previous : option ParsedRecoverySample)
    (pyth chainlink : list string) (samples : list ParsedRecoverySample) : bool :=
  match samples with
  | [] => true
  | sample :: rest =>
      match record_update PYTH_CORE sample pyth, record_update CHAINLINK_DATA_FEEDS sample chainlink with
      | Some pyth', Some chainlink' =>
          match previous with
          | None => true
          | Some p =>
              (rs_evaluatedAtMs p <? rs_evaluatedAtMs sample)
              && advances PYTH_CORE p sample && advances CHAINLINK_DATA_FEEDS p sample
          end
          && strictly_monotonic_from (Some sample) pyth' chainlink' rest
      | _, _ => false
      end
  end.

Definition recoveryEvidenceIsStrictlyMonotonic (samples : list ParsedRecoverySample) : bool :=
  strictly_monotonic_from None [] [] samples.

Definition valuationWithinRecoveryBand (valuation : StablecoinValuationResult) : bool :=
  match val_availability valuation, val_usdRateMantissa valuation, val_usdRateScale valuation with
  | AVAILABLE, Some m, Some s =>
      let rate := {| mantissa := BigInt m; scale := s |} in
      (compareFixed rate ONE_USD <=? 0)
      && negb (absoluteUsdAmountExceedsBps (subtractFixedFloorZero ONE_USD rate) withinPegBps)
  | _, _, _ => false
  end.

Definition recovery_reason_when (b : bool) (r : StablecoinRecoveryReason) : list StablecoinRecoveryReason :=
  if b then [r] else [].

(** The reasons one sample adds. *)
Definition sample_reasons (latchedAtMs evaluatedAtMs : Z) (sample : ParsedRecoverySample)
    : list StablecoinRecoveryReason :=
  recovery_reason_when
    ((rs_evaluatedAtMs sample <? latchedAtMs)
     || existsb (fun o => (po_pricedAtMs o <? latchedAtMs) || (po_observedAtMs o <? latchedAtMs))
          (rs_observations sample)) EVIDENCE_PRECEDES_DEPEG_LATCH
  ++ recovery_reason_when (evaluatedAtMs <? rs_evaluatedAtMs sample) EVIDENCE_AFTER_RECOVERY_EVALUATION
  ++ recovery_reason_when
       (existsb (fun a => negb (bool_decide (sa_eligibility a = ELIGIBLE_CURRENT)))
          (val_sourceAssessments (rs_valuation sample))) OBSERVATION_NOT_CURRENT
  ++ recovery_reason_when
       (negb (bool_decide (val_availability (rs_valuation sample) = AVAILABLE))
        || negb (bool_decide (val_sourceAgreement (rs_valuation sample) = CORROBORATED))
        || negb (bool_decide (val_confidenceClass (rs_valuation sample) = MEDIUM)))
       OBSERVATION_NOT_CORROBORATED
  ++ recovery_reason_when (negb (valuationWithinRecoveryBand (rs_valuation sample)))
       OBSERVATION_OUTSIDE_REPEG_BAND.

Definition pending_reasons (request : ParsedRecoveryRequest) (latchedAtMs : Z)
    : list StablecoinRecoveryReason :=
  orderedRecoveryReasons
    (recovery_reason_when
       (Z.of_nat (length (rr_samples request)) <? consecutiveDualCorroboratedObservations)
       INSUFFICIENT_DISTINCT_OBSERVATIONS
     ++ recovery_reason_when (negb (recoveryEvidenceIsStrictlyMonotonic (rr_samples request)))
          NON_MONOTONIC_EVIDENCE
     ++ recovery_reason_when
          match recoverySpan (rr_samples request) with
          | None => true
          | Some spanMs => spanMs <? minimumSpanMs
          end INSUFFICIENT_OBSERVATION_SPAN
     ++ recovery_reason_when (rr_evaluatedAtMs request <? latchedAtMs)
          DEPEG_LATCH_AFTER_RECOVERY_EVALUATION
     ++ concat (sample_reasons latchedAtMs (rr_evaluatedAtMs request) <$> rr_samples request)).

Definition classify_recovery (request : ParsedRecoveryRequest) : StablecoinRecoveryResult :=
  let result status latch clear := recoveryResult status (Some (rr_asset request))
    (Some (rr_evaluatedAt request)) latch clear (Z.of_nat (length (rr_samples request)))
    (recoverySpan (rr_samples request)) in
  match rr_depegLatch request with
  | None => result NOT_APPLICABLE None None [NO_PRIOR_DEPEG_LATCH]
  | Some (latch, latchedAtMs) =>
      match pending_reasons request latchedAtMs with
      | _ :: _ as reasons => result RECOVERY_PENDING (Some latch) None reasons
      | [] =>
          match rr_manualRiskClear request with
          | None => result MANUAL_RISK_CLEAR_NEEDED (Some latch) None [MANUAL_RISK_CLEAR_REQUIRED]
          | Some (clear, clearedAtMs) =>
              if negb (String.eqb (mc_latchId clear) (dl_latchId latch))
              then result MANUAL_RISK_CLEAR_NEEDED (Some latch) None [MANUAL_RISK_CLEAR_LATCH_MISMATCH]
              else if match last (rr_samples request) with
                      | None => true
                      | Some lastSample => clearedAtMs <? rs_evaluatedAtMs lastSample
                      end
              then result MANUAL_RISK_CLEAR_NEEDED (Some latch) None [MANUAL_RISK_CLEAR_PRECEDES_FINAL_SAMPLE]
              else if rr_evaluatedAtMs request <? clearedAtMs
              then result MANUAL_RISK_CLEAR_NEEDED (Some latch) None [MANUAL_RISK_CLEAR_AFTER_RECOVERY_EVALUATION]
              else result RECOVERY_CANDIDATE_CLEARED (Some latch) (Some clear) [LOCAL_CANDIDATE_CLEAR_ONLY]
          end
      end
  end.

Definition parseRecoveryEventId (input : jsval) : parsed string :=
  match input with
  | VStr s => if HEX64_PATTERN s then Ok s else Err invalidInput
  | _ => Err invalidInput
  end.

(** ** The entry point, given the registry the process loaded *)

Section recovery.
(** [MAINNET_SUPPORTED_ASSET_REGISTRY] *)
Variable registry : VersionedSupportedAssetRegistry.

Definition parseRecoverySample (asset : StablecoinValuationAssetReference) (input : jsval)
    : parsed ParsedRecoverySample :=
  let* record := dataRecord input ["evaluatedAt"; "observations"] in
  let* evaluatedAt := parseTimestamp (record .: "evaluatedAt") in
  let* values := dataArray (record .: "observations") 2 2 in
  let* observations := mapr (parseObservation registry asset) values in
  reject invalidInput when negb (one_per_source (obs_source <$> observations)) in
  let valuation := evaluateStablecoinValuation registry (js_object
    [("asset", asset_js asset); ("amountAtomic", VStr "1"); ("evaluatedAt", VStr (fst evaluatedAt));
     ("sourceWatermarks", STABLECOIN_VALUATION_FIRST_USE_WATERMARKS);
     ("observations", js_array ((fun o => observation_js (publicObservation o)) <$> observations))]) in
  Ok {| rs_evaluatedAt := fst evaluatedAt; rs_evaluatedAtMs := snd evaluatedAt;
        rs_observations := observations; rs_valuation := valuation |}.

Definition parseDepegLatchReference (input : jsval) (requestedAsset : StablecoinValuationAssetReference)
    : parsed (StablecoinDepegLatchReference * Z) :=
  let* record := dataRecord input ["asset"; "latchId"; "latchedAt"] in
  let* asset := parseAsset registry (record .: "asset") in
  reject invalidInput when negb (sameAsset asset requestedAsset) in
  let* latchId := parseRecoveryEventId (record .: "latchId") in
  let* latchedAt := parseTimestamp (record .: "latchedAt") in
  Ok ({| dl_asset := asset; dl_latchId := latchId; dl_latchedAt := fst latchedAt |}, snd latchedAt).

Definition parseManualRiskClearReference (input : jsval)
    (requestedAsset : StablecoinValuationAssetReference)
    : parsed (StablecoinManualRiskClearReference * Z) :=
  let* record := dataRecord input ["asset"; "clearId"; "latchId"; "clearedAt"] in
  let* asset := parseAsset registry (record .: "asset") in
  reject invalidInput when negb (sameAsset asset requestedAsset) in
  let* clearId := parseRecoveryEventId (record .: "clearId") in
  let* latchId := parseRecoveryEventId (record .: "latchId") in
  let* clearedAt := parseTimestamp (record .: "clearedAt") in
  Ok ({| mc_asset := asset; mc_clearId := clearId; mc_latchId := latchId;
         mc_clearedAt := fst clearedAt |}, snd clearedAt).

(** [value === null ? null : parse(value)] *)
Definition parse_nullable {A} (parse : jsval -> parsed A) (value : jsval) : parsed (option A) :=
  if is_null value then Ok None else let* a := parse value in Ok (Some a).

Definition parseRecoveryRequest (input : jsval) : parsed ParsedRecoveryRequest :=
  let* record := dataRecord input ["asset"; "evaluatedAt"; "depegLatch"; "manualRiskClear"; "samples"] in
  let* asset := parseAsset registry (record .: "asset") in
  let* evaluatedAt := parseTimestamp (record .: "evaluatedAt") in
  let* depegLatch := parse_nullable (fun v => parseDepegLatchReference v asset) (record .: "depegLatch") in
  let* manualRiskClear :=
    parse_nullable (fun v => parseManualRiskClearReference v asset) (record .: "manualRiskClear") in
  reject invalidInput when
    match depegLatch, manualRiskClear with
    | None, Some _ => true
    | Some (latch, _), Some (clear, _) => String.eqb (mc_clearId clear) (dl_latchId latch)
    | _, None => false
    end in
  let* values := dataArray (record .: "samples") 0 maxObservations in
  let* samples := mapr (parseRecoverySample asset) values in
  Ok {| rr_asset := asset; rr_evaluatedAt := fst evaluatedAt; rr_evaluatedAtMs := snd evaluatedAt;
        rr_depegLatch := depegLatch; rr_manualRiskClear := manualRiskClear; rr_samples := samples |}.

Definition evaluateStablecoinRecovery (input : jsval) : StablecoinRecoveryResult :=
  match parseRecoveryRequest input with
  | Err _ => recoveryResult RECOVERY_INVALID_INPUT None None None None 0 None [INVALID_RECOVERY_INPUT]
  | Ok request => classify_recovery request
  end.
End recovery.

(** ** Specification *)

(** A source's observation at the sample's instant: not from the future, at
    most a minute old. *)
Definition current_at (t : Z) (o : ParsedObservation) : Prop :=
  po_pricedAtMs o <= po_observedAtMs o <= t /\ t - po_pricedAtMs o <= 60000.

(** One sample of sound evidence: both sources current, their published rates
    within a quarter of a cent, Pyth's confidence at most a quarter of a cent,
    and both conservative rates at least 0.9975 dollars. *)
Definition sound_sample (sample : ParsedRecoverySample) : Prop :=
  exists p c width,
    rs_observations sample ≡ₚ [p; c] /\ obs_source p = PYTH_CORE /\ obs_source c = CHAINLINK_DATA_FEEDS /\
    current_at (rs_evaluatedAtMs sample) p /\ current_at (rs_evaluatedAtMs sample) c /\
    Z.abs (mantissa (po_rate p) - mantissa (po_rate c)) <= 250000 /\
    po_confidenceAmount p = Some width /\ mantissa width <= 250000 /\
    99750000 <= mantissa (po_rate p) - mantissa width /\ 99750000 <= mantissa (po_rate c).

(** The sample is valued on its own, as a first use of one atom. *)
Definition sample_request (asset : StablecoinValuationAssetReference) (sample : ParsedRecoverySample)
    : ParsedRequest :=
  {| pr_asset := asset; pr_amountAtomic := "1"; pr_amount := 1;
     pr_evaluatedAt := rs_evaluatedAt sample; pr_evaluatedAtMs := rs_evaluatedAtMs sample;
     pr_sourceWatermarks := (fun source => {| wm_sourceId := source; wm_lastAccepted := None |})
                            <$> [PYTH_CORE; CHAINLINK_DATA_FEEDS];
     pr_observations := rs_observations sample |}.

Record sample_wf (registry : VersionedSupportedAssetRegistry)
    (asset : StablecoinValuationAssetReference) (sample : ParsedRecoverySample) : Prop := {
  sw_instant : instant (rs_evaluatedAt sample) (rs_evaluatedAtMs sample);
  sw_observations : Forall (observation_wf asset) (rs_observations sample);
  sw_sources : exists p c, rs_observations sample ≡ₚ [p; c] /\
    obs_source p = PYTH_CORE /\ obs_source c = CHAINLINK_DATA_FEEDS;
  sw_request : request_wf registry (sample_request asset sample);
  sw_valuation : rs_valuation sample = classify_request (sample_request asset sample);
}.

(** ** Lemmas: samples *)

Lemma two_sources (l : list ParsedObservation) :
  length l = 2%nat -> one_per_source (obs_source <$> l) = true ->
  exists p c, l ≡ₚ [p; c] /\ obs_source p = PYTH_CORE /\ obs_source c = CHAINLINK_DATA_FEEDS.
Proof.
  destruct l as [|a [|b [|]]]; try done. intros _. unfold one_per_source.
  cbn [forallb enum_values STABLECOIN_VALUATION_SOURCES fmap list_fmap].
  destruct (obs_source a) eqn:Ea, (obs_source b) eqn:Eb; try done; intros _.
  - by exists a, b.
  - exists b, a. split; [apply Permutation_swap | done].
Qed.

(** Valuing a sample parses its own object back. *)
Lemma parseRequest_sample registry asset evaluatedAt t observations :
  asset_ref_wf registry asset -> instant evaluatedAt t ->
  Forall (observation_wf asset) observations -> Z.of_nat (length observations) <= 8 ->
  parseRequest registry (js_object
    [("asset", asset_js asset); ("amountAtomic", VStr "1"); ("evaluatedAt", VStr evaluatedAt);
     ("sourceWatermarks", STABLECOIN_VALUATION_FIRST_USE_WATERMARKS);
     ("observations", js_array ((fun o => observation_js (publicObservation o)) <$> observations))])
  = Ok {| pr_asset := asset; pr_amountAtomic := "1"; pr_amount := 1; pr_evaluatedAt := evaluatedAt;
          pr_evaluatedAtMs := t;
          pr_sourceWatermarks := (fun source => {| wm_sourceId := source; wm_lastAccepted := None |})
                                 <$> [PYTH_CORE; CHAINLINK_DATA_FEEDS];
          pr_observations := observations |}.
Proof.
  intros Ha Ht Ho Hl. unfold parseRequest, dataRecord. read_record. rewrite parseAsset_js by done.
  cbn [rbind]. rewrite parseAmount_str by done. cbn [rbind].
  rewrite (proj2 (parseTimestamp_ok _ _ _) (conj eq_refl Ht)). cbn [rbind].
  assert (parseSourceWatermarks STABLECOIN_VALUATION_FIRST_USE_WATERMARKS
    = Ok ((fun source => {| wm_sourceId := source; wm_lastAccepted := None |})
          <$> [PYTH_CORE; CHAINLINK_DATA_FEEDS])) as -> by (vm_compute; reflexivity).
  cbn [rbind]. unfold dataArray. rewrite data_array_literal by (try rewrite length_fmap; unfold maxObservations; (done || lia)).
  cbn [or_throw rbind].
  rewrite (mapr_decode (fun o => observation_js (publicObservation o)) (parseObservation registry asset)).
  - done.
  - intros o Hin. apply parseObservation_js; [done|]. rewrite Forall_forall in Ho. by apply Ho.
Qed.

Lemma parseRecoverySample_wf registry asset v sample :
  asset_ref_wf registry asset ->
  parseRecoverySample registry asset v = Ok sample -> sample_wf registry asset sample.
Proof.
  intros Ha. unfold parseRecoverySample. intros H. inv_ok. subst sample.
  destruct r0 as [evaluatedAt t]. apply parseTimestamp_ok in Hr0 as [_ Ht]. cbn [fst snd] in *.
  assert (Forall (observation_wf asset) r2) as Ho.
  { eapply mapr_forall; [|exact Hr2]. intros w o _. apply parseObservation_wf. }
  assert (length r2 = 2%nat) as Hlen.
  { apply mapr_length in Hr2. unfold dataArray in Hr1. apply or_throw_ok, data_array_bounds in Hr1; lia. }
  pose proof (parseRequest_sample registry asset evaluatedAt t r2 Ha Ht Ho ltac:(lia)) as Hp.
  constructor; cbn [rs_evaluatedAt rs_evaluatedAtMs rs_observations rs_valuation sample_request].
  - done.
  - done.
  - apply two_sources; [done|]. by apply negb_false_iff in Hg.
  - by eapply valuation_request_wf.
  - unfold evaluateStablecoinValuation. by rewrite Hp.
Qed.

(** ** Lemmas: two eligible sources *)

Lemma recovery_band res m :
  val_availability res = AVAILABLE -> val_usdRateMantissa res = Some (toString m) ->
  val_usdRateScale res = Some 8 -> 0 <= m <= 10 ^ 8 ->
  valuationWithinRecoveryBand res = true <-> 99750000 <= m.
Proof.
  intros Ha Hm Hs Hb. unfold valuationWithinRecoveryBand. rewrite Ha, Hm, Hs, BigInt_toString by lia.
  set (rate := {| mantissa := m; scale := 8 |}).
  assert (normalized rate) as Hn by (split; [apply Hb | done]).
  assert (compareFixed rate ONE_USD <= 0) as Hc.
  { apply compareFixed_le, normalized_le; [done | apply ONE_USD_normalized | apply Hb]. }
  rewrite (proj2 (Z.leb_le _ _)) by done. cbn [andb].
  rewrite subtract_same_scale by done. cbn [mantissa scale ONE_USD rate].
  rewrite negb_true_iff, <- not_true_iff_false, exceedsBps_spec by (split; cbn [mantissa scale]; lia).
  cbn [mantissa scale]. unfold withinPegBps. lia.
Qed.

Lemma availableResult_class request first rest assessments agreement class :
  Forall (fun c => cand_freshness c = CURRENT) (first :: rest) ->
  val_availability (availableResult request first rest assessments agreement class) = AVAILABLE ->
  val_confidenceClass (availableResult request first rest assessments agreement class) = class.
Proof.
  intros Hf. unfold availableResult. destruct (calculateUsdValue _ _ _); [|done]. intros _.
  cbn [val_confidenceClass]. destruct (forallb _ _) eqn:E; [done|]. exfalso.
  apply not_true_iff_false in E. apply E, forallb_forall. intros c Hc%list_elem_of_In.
  rewrite Forall_forall in Hf. by apply bool_decide_eq_true, Hf.
Qed.

Lemma allows_medium c c' w :
  obs_source (cand_observation c) = PYTH_CORE ->
  po_confidenceAmount (cand_observation c) = Some w -> normalized w ->
  pythConfidenceAllowsMedium [c; c'] = true <-> mantissa w <= 250000.
Proof.
  intros Hs Hw Hn. unfold pythConfidenceAllowsMedium. cbn [List.find].
  rewrite bool_decide_true by done. rewrite Hw, negb_true_iff, <- not_true_iff_false.
  rewrite exceedsBps_spec by (by apply normalized_wf). destruct Hn as [_ ->].
  unfold mediumPublishedWidthAtOrBelowBps, normalizedUsdRateScale. lia.
Qed.

(** The pool of a request both of whose sources are eligible. *)
Lemma dual_pool registry request p mp c mc :
  request_wf registry request ->
  eligible request PYTH_CORE p mp -> eligible request CHAINLINK_DATA_FEEDS c mc ->
  exists cp cc, pool request = [cp; cc] /\ cand_observation cp = p /\ cand_observation cc = c /\
    mantissa (cand_conservativeRate cp) = mp /\ mantissa (cand_conservativeRate cc) = mc.
Proof.
  intros Hwf Hp Hc.
  destruct (pool_cases _ _ Hwf) as [[E Hno]|[(x & E & Hone)|(cp & cc & E & E1 & E2)]].
  - by apply Hno in Hp.
  - apply Hone in Hp. apply Hone in Hc. congruence.
  - exists cp, cc. pose proof (fun x => pool_spec registry request x Hwf) as Hpool. rewrite E in *.
    destruct (Hpool cp ltac:(left)) as (Hep & _), (Hpool cc ltac:(right; left)) as (Hec & _).
    rewrite E1 in Hep. rewrite E2 in Hec.
    destruct (eligible_unique _ _ _ _ _ _ Hp Hep) as [-> ->].
    destruct (eligible_unique _ _ _ _ _ _ Hc Hec) as [-> ->]. done.
Qed.

Lemma dual_outcome registry request p mp c mc w :
  request_wf registry request ->
  eligible request PYTH_CORE p mp -> eligible request CHAINLINK_DATA_FEEDS c mc ->
  obs_source p = PYTH_CORE -> po_confidenceAmount p = Some w -> normalized w ->
  let res := classify_request request in
  val_availability res = AVAILABLE /\ val_sourceAgreement res = CORROBORATED /\
  val_confidenceClass res = MEDIUM /\ valuationWithinRecoveryBand res = true <->
  Z.abs (mantissa (po_rate p) - mantissa (po_rate c)) <= 250000 /\ mantissa w <= 250000 /\
  99750000 <= mp /\ 99750000 <= mc.
Proof.
  intros Hwf Hp Hc Hs Hw Hnw. destruct (dual_pool _ _ _ _ _ _ Hwf Hp Hc) as (cp & cc & E & <- & <- & <- & <-).
  cbv zeta. rewrite (classify_request_pool registry) by done. set (assessments := _ <$> _).
  pose proof (fun x => pool_spec registry request x Hwf) as Hpool. rewrite E in *.
  destruct (Hpool cp ltac:(left)) as (_ & Hnp & Hrp & Hfp), (Hpool cc ltac:(right; left)) as (_ & Hnc & Hrc & Hfc).
  destruct (agreement_spec _ _ Hrp Hrc) as [_ Hcorr]. rewrite <- Hcorr.
  rewrite <- (allows_medium cp cc w) by done. cbn [classify_pool].
  set (agreement := classifySourceAgreement _ _).
  set (class := if bool_decide (agreement = CORROBORATED) && pythConfidenceAllowsMedium [cp; cc] then MEDIUM else LOW).
  destruct (availableResult_spec registry request cp [cc] assessments agreement class Hwf)
    as (x & m & n & Hin & Em & Hall & Hav & _ & _ & _ & Hm & Hsc & _ & _ & _ & Hag & _).
  { apply Forall_cons. split; [done | by apply Forall_singleton]. }
  pose proof (availableResult_class request cp [cc] assessments agreement class
    ltac:(apply Forall_cons; split; [done | by apply Forall_singleton]) Hav) as Hcl.
  apply Forall_cons in Hall as [Hmp Hall]. apply Forall_cons in Hall as [Hmc _]. cbv beta in *.
  assert (0 <= m <= 10 ^ 8) as Hmb.
  { destruct (Hpool x Hin) as (_ & [Hx _] & _). lia. }
  assert (99750000 <= m <-> 99750000 <= mantissa (cand_conservativeRate cp) /\
          99750000 <= mantissa (cand_conservativeRate cc)) as Hboth.
  { split; [lia|]. apply elem_of_cons in Hin as [->|Hin]; [lia|].
    apply list_elem_of_singleton in Hin as ->. lia. }
  rewrite <- Hboth, <- (recovery_band _ m Hav Hm Hsc Hmb).
  destruct (decide (agreement = CORROBORATED)) as [Ea|Ea].
  - subst class. rewrite Ea in *. rewrite Hag, Hav, Hcl. rewrite bool_decide_true by done. cbn [andb].
    destruct (pythConfidenceAllowsMedium [cp; cc]); split; intros; destruct_and!; done.
  - split; [|by intros [? _]]. intros (_ & Hbad & _). exfalso. apply Ea.
    destruct agreement; try congruence; done.
Qed.

(** ** Lemmas: sound samples *)

Lemma series_pair asset sample source o other :
  rs_observations sample ≡ₚ [o; other] -> obs_source o = source -> obs_source other <> source ->
  series (sample_request asset sample) source ≡ₚ [o].
Proof.
  intros Hp Ho Hne. unfold series. cbn [sample_request pr_observations].
  rewrite (filter_perm _ _ _ Hp). cbn [List.filter].
  by rewrite bool_decide_true, bool_decide_false by done.
Qed.

Lemma eligible_sample asset sample source o o' m :
  series (sample_request asset sample) source ≡ₚ [o] ->
  eligible (sample_request asset sample) source o' m <->
  o' = o /\ current_at (rs_evaluatedAtMs sample) o /\ conservative o m.
Proof.
  intros Hs. split.
  - intros (e & w & Hp & _ & _ & _ & _ & _ & Ht & Hage & Hc).
    rewrite Hs in Hp. symmetry in Hp. apply Permutation_singleton_r in Hp.
    destruct e as [|x [|]]; [|done..]. injection Hp as ->. done.
  - intros (-> & (Ht & Hage) & Hc). exists [], {| wm_sourceId := source; wm_lastAccepted := None |}.
    split_and!; try done; try apply Ht.
    + by repeat constructor.
    + apply NoDup_singleton.
    + cbn [sample_request pr_sourceWatermarks fmap list_fmap]. destruct source; [left | right; left].
Qed.

Lemma classify_pool_assessments request assessments p :
  val_sourceAssessments (classify_pool request assessments p) = assessments.
Proof.
  assert (forall first rest agreement class,
    val_sourceAssessments (availableResult request first rest assessments agreement class) = assessments) as H.
  { intros. unfold availableResult. by destruct (calculateUsdValue _ _ _). }
  destruct p as [|c [|c' [|c'' p]]]; cbn [classify_pool]; try apply H; [done|].
  by destruct (classifySourceAgreement _ _).
Qed.

Section sound.
Context (registry : VersionedSupportedAssetRegistry) (asset : StablecoinValuationAssetReference).
Context (sample : ParsedRecoverySample) (p c : ParsedObservation).
Context (Hwf : sample_wf registry asset sample) (Hperm : rs_observations sample ≡ₚ [p; c]).
Context (Sp : obs_source p = PYTH_CORE) (Sc : obs_source c = CHAINLINK_DATA_FEEDS).

Lemma sample_pyth o m :
  eligible (sample_request asset sample) PYTH_CORE o m <->
  o = p /\ current_at (rs_evaluatedAtMs sample) p /\ conservative p m.
Proof. apply eligible_sample. eapply series_pair; [exact Hperm | done | by rewrite Sc]. Qed.

Lemma sample_chainlink o m :
  eligible (sample_request asset sample) CHAINLINK_DATA_FEEDS o m <->
  o = c /\ current_at (rs_evaluatedAtMs sample) c /\ conservative c m.
Proof.
  apply eligible_sample. eapply (series_pair _ _ _ _ p); [|done | by rewrite Sp].
  rewrite Hperm. apply Permutation_swap.
Qed.

Lemma chainlink_conservative : conservative c (mantissa (po_rate c)).
Proof. unfold conservative. by rewrite Sc. Qed.

Lemma sample_current :
  existsb (fun a => negb (bool_decide (sa_eligibility a = ELIGIBLE_CURRENT)))
    (val_sourceAssessments (rs_valuation sample)) = false <->
  current_at (rs_evaluatedAtMs sample) p /\ (exists m, conservative p m) /\
  current_at (rs_evaluatedAtMs sample) c.
Proof.
  pose proof (sw_request _ _ _ Hwf) as Hr.
  rewrite (sw_valuation _ _ _ Hwf), (classify_request_pool registry), classify_pool_assessments by done.
  pose proof (assess_candidate registry _ PYTH_CORE PRIMARY_SOURCE Hr) as H1.
  pose proof (assess_candidate registry _ CHAINLINK_DATA_FEEDS FALLBACK_AND_CROSS_CHECK Hr) as H2.
  cbn [fmap list_fmap sourceOrder fst snd existsb].
  rewrite !orb_false_iff, !negb_false_iff, !bool_decide_eq_true. split.
  - intros (Ep & Ec & _). destruct (ia_candidate (assessSource _ PYTH_CORE _)); [|by destruct H1].
    destruct (ia_candidate (assessSource _ CHAINLINK_DATA_FEEDS _)); [|by destruct H2].
    destruct H1 as (H1 & _), H2 as (H2 & _).
    apply sample_pyth in H1 as (_ & ? & ?). apply sample_chainlink in H2 as (_ & ? & _). eauto.
  - intros (Tp & [m Hm] & Tc). split_and!; [| | done].
    + destruct (ia_candidate (assessSource _ PYTH_CORE _)); [apply H1|].
      destruct H1 as [H1 _]. destruct (H1 p m). by apply sample_pyth.
    + destruct (ia_candidate (assessSource _ CHAINLINK_DATA_FEEDS _)); [apply H2|].
      destruct H2 as [H2 _]. destruct (H2 c (mantissa (po_rate c))).
      apply sample_chainlink. split_and!; [done | done | apply chainlink_conservative].
Qed.

Lemma sample_pyth_wf : observation_wf asset p.
Proof. pose proof (sw_observations _ _ _ Hwf) as Ho. rewrite Hperm in Ho. by apply Forall_cons in Ho as [? _]. Qed.

(** The outcome of the sample's valuation in terms of its two observations. *)
Lemma sample_outcome m w :
  current_at (rs_evaluatedAtMs sample) p -> current_at (rs_evaluatedAtMs sample) c ->
  conservative p m -> po_confidenceAmount p = Some w ->
  val_availability (rs_valuation sample) = AVAILABLE /\
  val_sourceAgreement (rs_valuation sample) = CORROBORATED /\
  val_confidenceClass (rs_valuation sample) = MEDIUM /\
  valuationWithinRecoveryBand (rs_valuation sample) = true <->
  Z.abs (mantissa (po_rate p) - mantissa (po_rate c)) <= 250000 /\ mantissa w <= 250000 /\
  99750000 <= m /\ 99750000 <= mantissa (po_rate c).
Proof.
  intros Tp Tc Hm Hw. rewrite (sw_valuation _ _ _ Hwf).
  apply (dual_outcome registry); [apply Hwf | by apply sample_pyth | | done | done |].
  - apply sample_chainlink. split_and!; [done | done | apply chainlink_conservative].
  - eapply observation_confidence; [apply sample_pyth_wf | done].
Qed.
End sound.

(** No reason about the quality of a sample is given exactly for sound ones. *)
Lemma sound_sample_spec registry asset sample :
  sample_wf registry asset sample ->
  existsb (fun a => negb (bool_decide (sa_eligibility a = ELIGIBLE_CURRENT)))
    (val_sourceAssessments (rs_valuation sample)) = false /\
  val_availability (rs_valuation sample) = AVAILABLE /\
  val_sourceAgreement (rs_valuation sample) = CORROBORATED /\
  val_confidenceClass (rs_valuation sample) = MEDIUM /\
  valuationWithinRecoveryBand (rs_valuation sample) = true <-> sound_sample sample.
Proof.
  intros H. destruct (sw_sources _ _ _ H) as (p & c & Hperm & Sp & Sc).
  rewrite (sample_current registry asset sample p c) by done. unfold sound_sample. split.
  - intros ((Tp & [m Hm] & Tc) & Hout). pose proof Hm as Hm'. unfold conservative in Hm'.
    rewrite Sp in Hm'. destruct Hm' as (w & Hw & _ & Em).
    apply (sample_outcome registry asset sample p c H Hperm Sp Sc m w Tp Tc Hm Hw) in Hout.
    destruct Hout as (? & ? & ? & ?). exists p, c, w. split_and!; try done; try apply Tp; try apply Tc. lia.
  - intros (p' & c' & w & Hp' & Sp' & Sc' & Tp & Tc & Hd & Hw & Hwb & Hbp & Hbc).
    assert (p' = p /\ c' = c) as [-> ->].
    { rewrite Hperm in Hp'. apply Permutation_length_2 in Hp' as [[-> ->]|[-> ->]]; [done | congruence]. }
    assert (conservative p (mantissa (po_rate p) - mantissa w)) as Hm.
    { unfold conservative. rewrite Sp. exists w. split_and!; [done | lia | lia]. }
    split; [by eauto|].
    by apply (sample_outcome registry asset sample p c H Hperm Sp Sc _ w Tp Tc Hm Hw).
Qed.

(** ** Lemmas: the series of samples *)

Definition dual (sample : ParsedRecoverySample) : Prop :=
  exists p c, rs_observations sample ≡ₚ [p; c] /\ obs_source p = PYTH_CORE /\
              obs_source c = CHAINLINK_DATA_FEEDS.

(** [b] is later evidence than [a]: a later instant, and for each source a
    newer observation with another update. *)
Definition follows (a b : ParsedRecoverySample) : Prop :=
  rs_evaluatedAtMs a < rs_evaluatedAtMs b /\
  forall o o', o ∈ rs_observations a -> o' ∈ rs_observations b -> obs_source o = obs_source o' ->
    newer o o' /\ obs_update o <> obs_update o'.

Lemma dual_observation sample source :
  dual sample ->
  exists o, observation_of source sample = Some o /\ obs_source o = source /\ o ∈ rs_observations sample /\
    forall o', o' ∈ rs_observations sample -> obs_source o' = source -> o' = o.
Proof.
  intros (p & c & Hp & Sp & Sc). unfold observation_of.
  assert (exists o, o ∈ rs_observations sample /\ obs_source o = source /\
    forall o', o' ∈ rs_observations sample -> obs_source o' = source -> o' = o) as (o & Ho & Hs & Hu).
  { assert (p ∈ rs_observations sample /\ c ∈ rs_observations sample) as [? ?] by (rewrite Hp; set_solver).
    destruct source; [exists p | exists c]; (split_and!; [done | done |]); intros o';
      rewrite Hp; intros [->|Hin]%elem_of_cons E; try apply list_elem_of_singleton in Hin as ->; congruence. }
  destruct (List.find _ _) as [x|] eqn:E.
  - apply List.find_some in E as [Hx Hb]. apply list_elem_of_In in Hx. apply bool_decide_eq_true in Hb.
    exists o. rewrite (Hu _ Hx Hb). done.
  - apply list_elem_of_In in Ho. pose proof (List.find_none _ _ E _ Ho) as Hb.
    by apply bool_decide_eq_false in Hb.
Qed.

Lemma advances_spec source a b o o' :
  observation_of source a = Some o -> observation_of source b = Some o' ->
  advances source a b = true <-> newer o o' /\ obs_update o <> obs_update o'.
Proof.
  intros Ha Hb. unfold advances. rewrite Ha, Hb, negb_true_iff, !orb_false_iff, Z.leb_gt, !Z.ltb_ge.
  rewrite String.eqb_neq. unfold newer. split; intros; destruct_and!; split_and!; congruence || lia.
Qed.

Lemma follows_advances a b :
  dual a -> dual b ->
  follows a b <-> rs_evaluatedAtMs a < rs_evaluatedAtMs b /\
    advances PYTH_CORE a b = true /\ advances CHAINLINK_DATA_FEEDS a b = true.
Proof.
  intros Ha Hb. unfold follows.
  destruct (dual_observation a PYTH_CORE Ha) as (pa & Epa & Spa & Ipa & Upa).
  destruct (dual_observation b PYTH_CORE Hb) as (pb & Epb & Spb & Ipb & Upb).
  destruct (dual_observation a CHAINLINK_DATA_FEEDS Ha) as (ca & Eca & Sca & Ica & Uca).
  destruct (dual_observation b CHAINLINK_DATA_FEEDS Hb) as (cb & Ecb & Scb & Icb & Ucb).
  rewrite (advances_spec _ _ _ _ _ Epa Epb), (advances_spec _ _ _ _ _ Eca Ecb). split.
  - intros [Ht H]. split_and!; try done; (apply H; [done | done | congruence]).
  - intros (Ht & Hp & Hc). split; [done|]. intros o o' Ho Ho' Es.
    destruct (obs_source o) eqn:E.
    + by rewrite (Upa _ Ho E), (Upb _ Ho' (eq_sym Es)).
    + by rewrite (Uca _ Ho E), (Ucb _ Ho' (eq_sym Es)).
Qed.

(** No update of a source in [samples] is among the ones seen. *)
Definition unseen (pyth chainlink : list string) (samples : list ParsedRecoverySample) : Prop :=
  forall sample o, sample ∈ samples -> o ∈ rs_observations sample ->
    obs_update o ∉ match obs_source o with PYTH_CORE => pyth | CHAINLINK_DATA_FEEDS => chainlink end.

Lemma unseen_cons pyth chainlink sample samples p c :
  dual sample -> observation_of PYTH_CORE sample = Some p ->
  observation_of CHAINLINK_DATA_FEEDS sample = Some c ->
  unseen pyth chainlink (sample :: samples) <->
  obs_update p ∉ pyth /\ obs_update c ∉ chainlink /\ unseen pyth chainlink samples.
Proof.
  intros Hd Ep Ec.
  destruct (dual_observation sample PYTH_CORE Hd) as (p' & Ep' & Sp & Ip & Up).
  destruct (dual_observation sample CHAINLINK_DATA_FEEDS Hd) as (c' & Ec' & Sc & Ic & Uc).
  assert (p' = p /\ c' = c) as [-> ->] by (split; congruence). unfold unseen. split.
  - intros H. split_and!.
    + specialize (H sample p ltac:(left) Ip). by rewrite Sp in H.
    + specialize (H sample c ltac:(left) Ic). by rewrite Sc in H.
    + intros s o Hs. apply H. by right.
  - intros (Hp & Hc & H) s o [->|Hs]%elem_of_cons Ho; [|by apply (H s)].
    destruct (obs_source o) eqn:E; [by rewrite (Up _ Ho E) | by rewrite (Uc _ Ho E)].
Qed.

Lemma record_update_spec source sample ids ids' o :
  observation_of source sample = Some o ->
  record_update source sample ids = Some ids' <-> obs_update o ∉ ids /\ ids' = obs_update o :: ids.
Proof.
  intros E. unfold record_update. rewrite E. rewrite <- has_spec.
  destruct (has ids (obs_update o)); split; intros H; destruct_and?; try congruence; try done.
  split; congruence.
Qed.

Definition seen (pyth chainlink : list string) (sample : ParsedRecoverySample) : Prop :=
  forall o, o ∈ rs_observations sample ->
    obs_update o ∈ match obs_source o with PYTH_CORE => pyth | CHAINLINK_DATA_FEEDS => chainlink end.

(** Not transitive by itself: the seen updates make it so. *)
Lemma follows_unseen pyth chainlink a b c rest :
  dual b -> follows a b -> follows b c -> seen pyth chainlink a -> unseen pyth chainlink rest -> c ∈ rest ->
  follows a c.
Proof.
  intros Hb [T1 F1] [T2 F2] Hs Hu Hc. split; [lia|]. intros o o' Ho Ho' Es.
  destruct (dual_observation b (obs_source o) Hb) as (x & _ & Sx & Ix & _).
  split.
  - transitivity x; [apply F1 | apply F2]; congruence || done.
  - intros E. specialize (Hs o Ho). specialize (Hu c o' Hc Ho'). rewrite <- Es, <- E in Hu. done.
Qed.

Lemma unseen_more pyth chainlink sample rest p c :
  dual sample -> observation_of PYTH_CORE sample = Some p ->
  observation_of CHAINLINK_DATA_FEEDS sample = Some c -> Forall (follows sample) rest ->
  unseen pyth chainlink rest -> unseen (obs_update p :: pyth) (obs_update c :: chainlink) rest.
Proof.
  intros Hd Ep Ec Hf Hu s o Hs Ho. rewrite Forall_forall in Hf. destruct (Hf s Hs) as [_ F].
  specialize (Hu s o Hs Ho).
  destruct (dual_observation sample (obs_source o) Hd) as (x & Ex & Sx & Ix & _).
  destruct (F x o Ix Ho Sx) as [_ Hne].
  destruct (obs_source o); rewrite elem_of_cons; intros [E|?]; try done; congruence.
Qed.

Lemma unseen_less pyth chainlink u v rest :
  unseen (u :: pyth) (v :: chainlink) rest -> unseen pyth chainlink rest.
Proof. intros H s o Hs Ho. specialize (H s o Hs Ho). destruct (obs_source o); set_solver. Qed.

Lemma seen_updates pyth chainlink sample p c :
  dual sample -> observation_of PYTH_CORE sample = Some p ->
  observation_of CHAINLINK_DATA_FEEDS sample = Some c ->
  seen (obs_update p :: pyth) (obs_update c :: chainlink) sample.
Proof.
  intros Hd Ep Ec o Ho.
  destruct (dual_observation sample (obs_source o) Hd) as (x & Ex & _ & _ & Ux).
  rewrite (Ux o Ho eq_refl). rewrite (Ux o Ho eq_refl) in Ex.
  destruct (obs_source x); [rewrite Ex in Ep | rewrite Ex in Ec]; simplify_eq; left.
Qed.

Lemma strictly_monotonic_step pyth chainlink sample rest previous p c :
  dual sample -> observation_of PYTH_CORE sample = Some p ->
  observation_of CHAINLINK_DATA_FEEDS sample = Some c -> dual previous ->
  seen pyth chainlink previous ->
  StronglySorted follows (previous :: sample :: rest) /\ unseen pyth chainlink (sample :: rest) <->
  obs_update p ∉ pyth /\ obs_update c ∉ chainlink /\ follows previous sample /\
  StronglySorted follows (sample :: rest) /\
  unseen (obs_update p :: pyth) (obs_update c :: chainlink) rest.
Proof.
  intros Hd Ep Ec Hpd Hseen. rewrite (unseen_cons _ _ _ _ p c) by done. split.
  - intros (Hs & Hp & Hc & Hu). apply StronglySorted_inv in Hs as [Hs Hf].
    apply Forall_cons in Hf as [Hf _]. split_and!; try done.
    apply (unseen_more _ _ sample); try done. by apply StronglySorted_inv in Hs as [_ ?].
  - intros (Hp & Hc & Hf & Hs & Hu). apply unseen_less in Hu as Hu'. split_and!; try done.
    constructor; [done|]. constructor; [done|]. apply Forall_forall. intros b Hb.
    apply StronglySorted_inv in Hs as [_ Hfs]. rewrite Forall_forall in Hfs.
    by apply (follows_unseen pyth chainlink previous sample b rest); try apply Hfs.
Qed.

Lemma strictly_monotonic_spec previous pyth chainlink samples :
  Forall dual samples -> dual previous -> seen pyth chainlink previous ->
  strictly_monotonic_from (Some previous) pyth chainlink samples = true <->
  StronglySorted follows (previous :: samples) /\ unseen pyth chainlink samples.
Proof.
  revert previous pyth chainlink. induction samples as [|s rest IH]; intros previous pyth chainlink Hall Hpd Hseen.
  { split; [intros _; split; [by repeat constructor|] | done].
    intros s o Hs. by apply not_elem_of_nil in Hs. }
  apply Forall_cons in Hall as [Hd Hall].
  destruct (dual_observation s PYTH_CORE Hd) as (p & Ep & _).
  destruct (dual_observation s CHAINLINK_DATA_FEEDS Hd) as (c & Ec & _).
  rewrite (strictly_monotonic_step _ _ _ _ _ p c) by done. cbn [strictly_monotonic_from].
  pose proof (record_update_spec PYTH_CORE s pyth (obs_update p :: pyth) p Ep) as Rp.
  pose proof (record_update_spec CHAINLINK_DATA_FEEDS s chainlink (obs_update c :: chainlink) c Ec) as Rc.
  destruct (record_update PYTH_CORE s pyth) as [ids|] eqn:E1.
  2:{ split; [done|]. intros (Hp & _). by discriminate (proj2 Rp (conj Hp eq_refl)). }
  destruct (record_update CHAINLINK_DATA_FEEDS s chainlink) as [ids'|] eqn:E2.
  2:{ split; [done|]. intros (_ & Hc & _). by discriminate (proj2 Rc (conj Hc eq_refl)). }
  apply (record_update_spec _ _ _ _ _ Ep) in E1 as [Hp ->].
  apply (record_update_spec _ _ _ _ _ Ec) in E2 as [Hc ->].
  rewrite !andb_true_iff, Z.ltb_lt. pose proof (follows_advances previous s Hpd Hd).
  rewrite IH by (done || by apply seen_updates). tauto.
Qed.

Lemma monotonic_evidence samples :
  Forall dual samples ->
  recoveryEvidenceIsStrictlyMonotonic samples = true <-> StronglySorted follows samples.
Proof.
  destruct samples as [|s rest]; [split; [constructor | done]|]. intros [Hd Hall]%Forall_cons.
  destruct (dual_observation s PYTH_CORE Hd) as (p & Ep & _).
  destruct (dual_observation s CHAINLINK_DATA_FEEDS Hd) as (c & Ec & _).
  unfold recoveryEvidenceIsStrictlyMonotonic. cbn [strictly_monotonic_from].
  rewrite (proj2 (record_update_spec _ _ [] _ _ Ep) (conj (not_elem_of_nil _) eq_refl)).
  rewrite (proj2 (record_update_spec _ _ [] _ _ Ec) (conj (not_elem_of_nil _) eq_refl)).
  cbn [andb]. rewrite strictly_monotonic_spec by (done || by apply seen_updates).
  split; [by intros [? _]|]. intros H. split; [done|]. apply (unseen_more _ _ s); try done.
  - by apply StronglySorted_inv in H as [_ ?].
  - intros x o _ _. destruct (obs_source o); apply not_elem_of_nil.
Qed.

(** ** Lemmas: the reasons *)

Lemma orderedRecoveryReasons_nil rs : orderedRecoveryReasons rs = [] <-> rs = [].
Proof.
  split; [|by intros ->]. destruct rs as [|r rs]; [done|]. intros H. exfalso.
  assert (r ∈ orderedRecoveryReasons (r :: rs)) as Hin; [|rewrite H in Hin; by apply not_elem_of_nil in Hin].
  apply list_elem_of_In, List.filter_In. split; [|apply bool_decide_eq_true; left].
  apply list_elem_of_In. destruct r; solve_elem.
Qed.

Lemma recovery_reason_when_nil b r : recovery_reason_when b r = [] <-> b = false.
Proof. by destruct b. Qed.

(** The sample lies between the latch and the evaluation and is sound. *)
Definition evidence (latchedAtMs evaluatedAtMs : Z) (sample : ParsedRecoverySample) : Prop :=
  latchedAtMs <= rs_evaluatedAtMs sample <= evaluatedAtMs /\
  (forall o, o ∈ rs_observations sample -> latchedAtMs <= po_pricedAtMs o /\ latchedAtMs <= po_observedAtMs o) /\
  sound_sample sample.

Lemma sample_reasons_nil registry asset latched evaluated sample :
  sample_wf registry asset sample ->
  sample_reasons latched evaluated sample = [] <-> evidence latched evaluated sample.
Proof.
  intros Hwf. unfold sample_reasons, evidence. rewrite <- (sound_sample_spec _ _ _ Hwf).
  rewrite !app_nil, !recovery_reason_when_nil, !orb_false_iff, !negb_false_iff, !bool_decide_eq_true.
  rewrite !existsb_false, !Z.ltb_ge.
  assert ((forall o, o ∈ rs_observations sample ->
    (po_pricedAtMs o <? latched) || (po_observedAtMs o <? latched) = false) <->
    forall o, o ∈ rs_observations sample -> latched <= po_pricedAtMs o /\ latched <= po_observedAtMs o) as ->.
  { split; intros H o Ho; specialize (H o Ho).
    - apply orb_false_iff in H. rewrite !Z.ltb_ge in H. exact H.
    - apply orb_false_iff. by rewrite !Z.ltb_ge. }
  tauto.
Qed.

Lemma pending_reasons_nil registry request latched :
  Forall (sample_wf registry (rr_asset request)) (rr_samples request) ->
  pending_reasons request latched = [] <->
  4 <= Z.of_nat (length (rr_samples request)) /\ StronglySorted follows (rr_samples request) /\
  (exists first final, head (rr_samples request) = Some first /\ last (rr_samples request) = Some final /\
     1800000 <= rs_evaluatedAtMs final - rs_evaluatedAtMs first) /\
  latched <= rr_evaluatedAtMs request /\
  Forall (evidence latched (rr_evaluatedAtMs request)) (rr_samples request).
Proof.
  intros Hwf. unfold pending_reasons.
  rewrite orderedRecoveryReasons_nil, !app_nil, !recovery_reason_when_nil, !Z.ltb_ge, negb_false_iff.
  rewrite monotonic_evidence by (eapply Forall_impl; [exact Hwf|]; intros s Hs; apply (sw_sources _ _ _ Hs)).
  assert (concat (sample_reasons latched (rr_evaluatedAtMs request) <$> rr_samples request) = [] <->
          Forall (evidence latched (rr_evaluatedAtMs request)) (rr_samples request)) as ->.
  { rewrite concat_nil, Forall_fmap. clear -Hwf. induction Hwf as [|s l Hs Hl IH]; [done|].
    rewrite !Forall_cons, IH. cbn [compose]. by rewrite sample_reasons_nil. }
  unfold recoverySpan, consecutiveDualCorroboratedObservations, minimumSpanMs.
  destruct (head (rr_samples request)) as [first|]; destruct (last (rr_samples request)) as [final|];
    split; intros; destruct_and!; try done; split_and!; try done.
  - exists first, final. split_and!; [done | done |]. by apply Z.ltb_ge.
  - match goal with H : exists _ _, _ |- _ => destruct H as (? & ? & [= <-] & [= <-] & ?) end.
    by apply Z.ltb_ge.
  - match goal with H : exists _ _, _ |- _ => destruct H as (? & ? & [=] & [=] & ?) end.
  - match goal with H : exists _ _, _ |- _ => destruct H as (? & ? & [=] & _) end.
  - match goal with H : exists _ _, _ |- _ => destruct H as (? & ? & [=] & _) end.
Qed.

Lemma parseRecoveryRequest_wf registry v request :
  parseRecoveryRequest registry v = Ok request ->
  Forall (sample_wf registry (rr_asset request)) (rr_samples request) /\
  (length (rr_samples request) <= 8)%nat.
Proof.
  unfold parseRecoveryRequest. intros H. inv_ok. subst request. cbn [rr_asset rr_samples].
  match goal with H : parseAsset registry _ = Ok _ |- _ => apply parseAsset_wf in H as Ha end.
  match goal with H : mapr _ _ = Ok _ |- _ => pose proof (mapr_length _ _ _ H) as Hlen;
    split; [eapply mapr_forall; [|exact H]; intros w s _; by apply parseRecoverySample_wf |] end.
  match goal with H : dataArray _ _ _ = Ok _ |- _ => unfold dataArray in H;
    apply or_throw_ok, data_array_bounds in H; [unfold maxObservations in H; lia | done] end.
Qed.

(** The clearing conditions, on the latch and the clear. *)
Definition cleared_by (request : ParsedRecoveryRequest)
    (latch : StablecoinDepegLatchReference) (latchedAt : Z)
    (clear : StablecoinManualRiskClearReference) (clearedAt : Z) : Prop :=
  exists first final,
    rr_depegLatch request = Some (latch, latchedAt) /\
    rr_manualRiskClear request = Some (clear, clearedAt) /\ mc_latchId clear = dl_latchId latch /\
    4 <= Z.of_nat (length (rr_samples request)) /\
    head (rr_samples request) = Some first /\ last (rr_samples request) = Some final /\
    1800000 <= rs_evaluatedAtMs final - rs_evaluatedAtMs first /\
    StronglySorted follows (rr_samples request) /\
    Forall (evidence latchedAt (rr_evaluatedAtMs request)) (rr_samples request) /\
    latchedAt <= rr_evaluatedAtMs request /\
    rs_evaluatedAtMs final <= clearedAt <= rr_evaluatedAtMs request.

Lemma classify_recovery_cleared registry request :
  Forall (sample_wf registry (rr_asset request)) (rr_samples request) ->
  rec_status (classify_recovery request) = RECOVERY_CANDIDATE_CLEARED <->
  exists latch latchedAt clear clearedAt, cleared_by request latch latchedAt clear clearedAt.
Proof.
  intros Hwf. unfold classify_recovery, cleared_by.
  destruct (rr_depegLatch request) as [[latch latchedAt]|]; [|split; [done | by intros (? & ? & ? & ? & ? & ? & [=] & _)]].
  pose proof (pending_reasons_nil _ request latchedAt Hwf) as Hpend.
  destruct (pending_reasons request latchedAt) as [|r rs].
  2:{ split; [done|]. intros (? & ? & ? & ? & first & final & [= <- <-] & H). destruct_and!.
      assert (r :: rs = []) as [=]. apply Hpend. split_and!; try done. eauto. }
  destruct (proj1 Hpend eq_refl) as (Hlen & Hs & (first & final & Eh & El & Hspan) & Hlt & Hev). clear Hpend.
  rewrite El. destruct (rr_manualRiskClear request) as [[clear clearedAt]|].
  2:{ split; [done|]. by intros (? & ? & ? & ? & ? & ? & _ & [=] & _). }
  destruct (String.eqb_spec (mc_latchId clear) (dl_latchId latch)) as [E|E]; cbn [negb].
  2:{ split; [done|]. intros (? & ? & ? & ? & ? & ? & [= <- <-] & [= <- <-] & ? & _). done. }
  destruct (Z.ltb_spec clearedAt (rs_evaluatedAtMs final)) as [H1|H1].
  { split; [done|]. intros (? & ? & ? & ? & ? & ? & [= <- <-] & [= <- <-] & H).
    destruct_and!. simplify_eq. lia. }
  destruct (Z.ltb_spec (rr_evaluatedAtMs request) clearedAt) as [H2|H2].
  { split; [done|]. intros (? & ? & ? & ? & ? & ? & [= <- <-] & [= <- <-] & H). destruct_and!. lia. }
  split; [intros _ | done]. exists latch, latchedAt, clear, clearedAt, first, final. split_and!; done || lia.
Qed.

Lemma classify_recovery_subject request :
  rec_asset (classify_recovery request) = Some (rr_asset request) /\
  rec_evaluatedAt (classify_recovery request) = Some (rr_evaluatedAt request) /\
  (forall latch, rec_depegLatch (classify_recovery request) = Some latch ->
     fst <$> rr_depegLatch request = Some latch) /\
  (forall clear, rec_acceptedManualRiskClear (classify_recovery request) = Some clear ->
     fst <$> rr_manualRiskClear request = Some clear).
Proof.
  unfold classify_recovery. destruct (rr_depegLatch request) as [[latch t]|]; [|done].
  destruct (pending_reasons request t); [|by split_and!; try intros ? [= <-]].
  destruct (rr_manualRiskClear request) as [[clear t']|]; [|by split_and!; try intros ? [= <-]].
  repeat case_match; split_and!; try done; intros ? [= <-]; done.
Qed.

(** A recovery is reported as cleared exactly when there is a depeg latch
    and a manual risk clear of that same latch, and the evidence is at least
    four samples over at least half an hour, each later than the one before for
    both sources with new updates, each between the latch and the evaluation,
    each with both sources current, corroborated within a quarter of a cent and
    at least 0.9975 dollars, the clear falling after the last sample and not
    after the evaluation. *)
Theorem recovery_cleared_iff registry v request :
  parseRecoveryRequest registry v = Ok request ->
  rec_status (evaluateStablecoinRecovery registry v) = RECOVERY_CANDIDATE_CLEARED <->
  exists latch latchedAt clear clearedAt, cleared_by request latch latchedAt clear clearedAt.
Proof.
  intros Hp. destruct (parseRecoveryRequest_wf _ _ _ Hp) as [Hwf _].
  unfold evaluateStablecoinRecovery. rewrite Hp. by apply (classify_recovery_cleared registry).
Qed.

(** ** Examples *)

Definition sample_example (instant pyth_sequence digit chainlink_sequence : string) : jsval := js_object
  [("evaluatedAt", VStr instant);
   ("observations", js_array
      [observation_js (pyth_example instant instant pyth_sequence digit "99900000");
       observation_js (chainlink_example instant instant chainlink_sequence "99850000")])].

Definition recovery_example (clear_latch_digit : string) : jsval := js_object
  [("asset", asset_js usdt_example); ("evaluatedAt", VStr "2026-01-01T01:00:00.000Z");
   ("depegLatch", js_object [("asset", asset_js usdt_example); ("latchId", VStr (hex64_example "1"));
                             ("latchedAt", VStr "2025-12-31T00:00:00.000Z")]);
   ("manualRiskClear", js_object
      [("asset", asset_js usdt_example); ("clearId", VStr (hex64_example "3"));
       ("latchId", VStr (hex64_example clear_latch_digit)); ("clearedAt", VStr "2026-01-01T00:50:00.000Z")]);
   ("samples", js_array
      [sample_example "2026-01-01T00:00:00.000Z" "1" "a" "11";
       sample_example "2026-01-01T00:10:00.000Z" "2" "b" "12";
       sample_example "2026-01-01T00:20:00.000Z" "3" "c" "13";
       sample_example "2026-01-01T00:30:00.000Z" "4" "d" "14"])].

Example recovery_example_statuses :
  rec_status (evaluateStablecoinRecovery mainnet_registry_example (recovery_example "1"))
  = RECOVERY_CANDIDATE_CLEARED /\
  rec_reasons (evaluateStablecoinRecovery mainnet_registry_example (recovery_example "2"))
  = [MANUAL_RISK_CLEAR_LATCH_MISMATCH].
Proof. split; vm_compute; reflexivity. Qed.

Lemma recovery_cleared_iff_witness :
  exists request,
    parseRecoveryRequest mainnet_registry_example (recovery_example "1") = Ok request /\
    exists latch latchedAt, rr_depegLatch request = Some (latch, latchedAt) /\
      Forall (evidence latchedAt (rr_evaluatedAtMs request)) (rr_samples request).
Proof.
  eexists. split; [vm_compute; reflexivity|].
  edestruct (proj1 (recovery_cleared_iff mainnet_registry_example (recovery_example "1") _
    ltac:(vm_compute; reflexivity))) as (latch & latchedAt & clear & clearedAt & first & final & H);
    [vm_compute; reflexivity|].
  exists latch, latchedAt. split; apply H.
Defined.
