(* ===== verification/DepegLatch.v ===== *)
(** * Depeg latch commands
    (apps/api/src/valuation/domain/stablecoin-depeg-latch.ts and
    apps/api/src/blockchain/domain/mainnet-launch-network-policy.ts)

    A latch is recorded on evidence that the valuation classifier itself judges
    a depeg, and cleared on evidence that the recovery classifier judges clear,
    under a short-lived authorization of a second person.  Commands and events
    are fingerprinted over canonical JSON. *)

From stdpp Require Import base list strings sets.
From Stdlib Require Import ZArith Lia Ascii.
From S2P Require Import Prelude Text JsValue JsDate JsCollections Digest Json AssetRegistry Valuation ValuationRecovery.

Open Scope Z_scope.

(** ** Data *)

Inductive StablecoinDepegLatchValidationCode : Type :=
| INVALID_DEPEG_LATCH_INPUT
| INVALID_DEPEG_LATCH_ASSET
| VALUATION_DID_NOT_DETECT_DEPEG
| DEPEG_EVIDENCE_FINGERPRINT_MISMATCH
| INVALID_DEPEG_RECOVERY_INPUT
| RECOVERY_NOT_CLEARED
| INVALID_DEPEG_RECOVERY_AUTHORIZATION
| DEPEG_RECOVERY_AUTHORIZATION_MISMATCH.

(** [throw new StablecoinDepegLatchValidationError(code)] *)
Notation latch_result := (result StablecoinDepegLatchValidationCode).

Record NormalizedRecordStablecoinDepegLatchCommand : Type := {
  rc_asset : StablecoinValuationAssetReference;
  rc_expectedRevision : option Z;
  rc_correlationId : string;
  rc_latchId : string;
  rc_latchedAt : string;
  rc_evidenceActorReferenceId : string;
  rc_depegEvidenceFingerprintSha256 : string;
  rc_commandFingerprintSha256 : string;
  rc_eventFingerprintSha256 : string;
}.

Record NormalizedClearStablecoinDepegLatchCommand : Type := {
  cc_asset : StablecoinValuationAssetReference;
  cc_evaluatedAt : string;
  cc_correlationId : string;
  cc_clearId : string;
  cc_latchId : string;
  cc_latchedAt : string;
  cc_expectedRevision : Z;
  cc_recoveryEvidenceFingerprintSha256 : string;
  cc_evidenceActorReferenceId : string;
  cc_riskApproverReferenceId : string;
  cc_clearedAt : string;
  cc_authorizationIssuedAt : string;
  cc_authorizationNotBefore : string;
  cc_authorizationExpiresAt : string;
  cc_authorizationNonce : string;
  cc_authorizationFingerprintSha256 : string;
  cc_authorizationId : string;
  cc_commandFingerprintSha256 : string;
  cc_eventFingerprintSha256 : string;
}.

(** The constant fields (schema version, type, scope, operation, role, and the
    refusal to authorise a financial action) are implicit. *)
Record AuthorizationMaterial : Type := {
  am_asset : StablecoinValuationAssetReference;
  am_expectedLatchId : string;
  am_expectedRevision : Z;
  am_clearId : string;
  am_recoveryEvidenceFingerprintSha256 : string;
  am_evidenceActorReferenceId : string;
  am_riskApproverReferenceId : string;
  am_issuedAt : string;
  am_notBefore : string;
  am_expiresAt : string;
  am_nonce : string;
}.

Record StablecoinDepegRecoveryAuthorization : Type := {
  auth_material : AuthorizationMaterial;
  auth_fingerprintSha256 : string;
  auth_id : string;
}.

Record DepegEvidence : Type := {
  de_asset : StablecoinValuationAssetReference;
  de_evaluatedAt : string;
  de_fingerprintSha256 : string;
}.

Record ValidatedRecoveryEvidence : Type := {
  vr_asset : StablecoinValuationAssetReference;
  vr_latchId : string;
  vr_latchedAt : string;
  vr_clearId : string;
  vr_clearedAt : string;
  vr_evaluatedAt : string;
  vr_fingerprintSha256 : string;
}.

(** ** Constants *)

Definition ASSET_KEYS : list string :=
  ["registryEnvironment"; "registryVersion"; "registryFingerprintSha256"; "stablecoin"; "networkId";
   "identity"; "decimals"].

Definition RECORD_KEYS : list string :=
  ["expectedRevision"; "correlationId"; "latchId"; "evidenceActorReferenceId";
   "depegEvidenceFingerprintSha256"; "valuationRequest"].

Definition CLEAR_KEYS : list string :=
  ["evaluatedAt"; "correlationId"; "recoveryRequest"; "authorization"].

Definition AUTHORIZATION_MATERIAL_KEYS : list string :=
  ["schemaVersion"; "authorizationType"; "scope"; "mayAuthorizeFinancialAction"; "operation"; "asset";
   "expectedLatchId"; "expectedRevision"; "clearId"; "recoveryEvidenceFingerprintSha256";
   "evidenceActorReferenceId"; "riskApproverReferenceId"; "riskApproverRole"; "issuedAt"; "notBefore";
   "expiresAt"; "nonce"].

Definition AUTHORIZATION_KEYS : list string :=
  AUTHORIZATION_MATERIAL_KEYS ++ ["authorizationFingerprintSha256"; "authorizationId"].

Definition DEPEG_EVIDENCE_FINGERPRINT_DOMAIN : string := "crypto-lending:stablecoin-depeg-evidence:v1".
Definition RECOVERY_EVIDENCE_FINGERPRINT_DOMAIN : string :=
  "crypto-lending:stablecoin-depeg-recovery-evidence:v1".
Definition LATCH_COMMAND_FINGERPRINT_DOMAIN : string := "crypto-lending:stablecoin-depeg-latch-command:v1".
Definition LATCH_EVENT_FINGERPRINT_DOMAIN : string := "crypto-lending:stablecoin-depeg-latch-event:v1".
Definition RECOVERY_AUTHORIZATION_FINGERPRINT_DOMAIN : string :=
  "crypto-lending:stablecoin-depeg-recovery-authorization:v1".
Definition CLEAR_COMMAND_FINGERPRINT_DOMAIN : string := "crypto-lending:stablecoin-depeg-clear-command:v1".
Definition CLEAR_EVENT_FINGERPRINT_DOMAIN : string := "crypto-lending:stablecoin-depeg-clear-event:v1".
Definition AUTHORIZATION_ID_PREFIX : string := "stablecoin-depeg-latch-recovery:".
Definition STABLECOIN_DEPEG_RECOVERY_AUTHORIZATION_MAXIMUM_AGE_MILLISECONDS : Z := 15 * 60 * 1000.

Definition MAINNET_LAUNCH_NETWORK_IDS : list string :=
  ["eip155:1"; "solana:5eykt4UsFv8P8NJdTREpY1vzqKqZKvdp"].

Definition isMainnetLaunchNetwork (networkId : string) : bool := has MAINNET_LAUNCH_NETWORK_IDS networkId.

(** [/^[a-z0-9][a-z0-9._:-]{2,127}$/u] *)
Definition is_lower_digit (c : ascii) : bool := is_digit c || in_range 97 122 c.
Definition is_reference_tail (c : ascii) : bool :=
  is_lower_digit c || (code c =? 46) || (code c =? 95) || (code c =? 58) || (code c =? 45).
Definition REFERENCE (s : string) : bool :=
  match s with
  | EmptyString => false
  | String c s => is_lower_digit c && all_chars is_reference_tail s && (2 <=? strlen s) && (strlen s <=? 127)
  end.

(** ** Reading untrusted values *)

Definition ownDataRecord (value : jsval) (expectedKeys : list string)
    (code : StablecoinDepegLatchValidationCode) : latch_result jsrec :=
  or_throw (exact_data_record expectedKeys value) code.

(** The null-prototype object [ownDataRecord] returns, seen as a value. *)
Definition record_object (r : jsrec) : jsval :=
  VObj PNull ((fun kv => (KStr kv.1, DData kv.2 true)) <$> r).

Definition parse_pattern (pattern : string -> bool) (value : jsval)
    (code : StablecoinDepegLatchValidationCode) : latch_result string :=
  match value with
  | VStr s => if pattern s then Ok s else Err code
  | _ => Err code
  end.

Definition parseUuid := parse_pattern UUID_V4_PATTERN.
Definition parseDigest := parse_pattern HEX64_PATTERN.
Definition parseReference := parse_pattern REFERENCE.

(** Text and milliseconds. *)
Definition latch_parseTimestamp (value : jsval) (code : StablecoinDepegLatchValidationCode)
    : latch_result (string * Z) :=
  match value with
  | VStr s =>
      match canonical_timestamp s with
      | Some milliseconds => if milliseconds <? 0 then Err code else Ok (s, milliseconds)
      | None => Err code
      end
  | _ => Err code
  end.

Definition parseRevision (value : jsval) (nullable : bool) (code : StablecoinDepegLatchValidationCode)
    : latch_result (option Z) :=
  if nullable && is_null value then Ok None
  else
    let* n := or_throw (safe_integer value) code in
    reject code when (n <? 1) || (MAX_SAFE_INTEGER <=? n) in
    Ok (Some n).

(** [value === s] *)
Definition is_str (value : jsval) (s : string) : bool :=
  match value with
  | VStr t => String.eqb t s
  | _ => false
  end.

(** ** Canonical JSON *)

(** [JSON.stringify] prints the tree ([stringify]); [encode] builds it and
    spends one of the remaining nodes per value.  The values given to it were
    read as plain data by the validators before, so its arrays are dense and
    no reflection throws. *)
Definition bad_char (c : ascii) : bool := (code c =? 0) || (code c =? 13) || (code c =? 10).

Definition key_cmp (a b : string) : Z := if String.eqb a b then 0 else if str_lt a b then -1 else 1.

Fixpoint map_nodes {A B} (f : A -> Z -> latch_result (B * Z)) (l : list A) (nodes : Z)
    : latch_result (list B * Z) :=
  match l with
  | [] => Ok ([], nodes)
  | a :: l =>
      let* b := f a nodes in
      let* bs := map_nodes f l (snd b) in
      Ok (fst b :: fst bs, snd bs)
  end.

(** [candidate[key]] of an array. *)
Definition array_element (props : jsprops) (key : string) : option jsval :=
  match descriptor props key with
  | Some (DData v _) => Some v
  | _ => None
  end.

(** [levels] counts the depths left below 12. *)
Fixpoint encode (levels : nat) (candidate : jsval) (nodes : Z) : latch_result (json * Z) :=
  let nodes := nodes - 1 in
  if nodes <? 0 then Err INVALID_DEPEG_LATCH_INPUT
  else
    match levels with
    | O => Err INVALID_DEPEG_LATCH_INPUT
    | S levels =>
        match candidate with
        | VNull => Ok (JNull, nodes)
        | VBool b => Ok (JBool b, nodes)
        | VStr s =>
            if (4096 <? strlen s) || negb (all_chars (fun c => negb (bad_char c)) s)
            then Err INVALID_DEPEG_LATCH_INPUT else Ok (JString s, nodes)
        | VNum _ =>
            match safe_integer candidate with
            | Some n => if n <? 0 then Err INVALID_DEPEG_LATCH_INPUT else Ok (JNumber n, nodes)
            | None => Err INVALID_DEPEG_LATCH_INPUT
            end
        | VArr _ len props =>
            if 32 <? len then Err INVALID_DEPEG_LATCH_INPUT
            else
              let* items := map_nodes (fun key nodes =>
                let* v := or_throw (array_element props key) INVALID_DEPEG_LATCH_INPUT in
                encode levels v nodes) (index_keys len) nodes in
              Ok (JArray (fst items), snd items)
        | _ =>
            let* descriptors := or_throw (plain_descriptors candidate) INVALID_DEPEG_LATCH_INPUT in
            reject INVALID_DEPEG_LATCH_INPUT when (64 <? length descriptors)%nat in
            let* keys := or_throw (string_keys descriptors) INVALID_DEPEG_LATCH_INPUT in
            let* entries := map_nodes (fun key nodes =>
              let* v := or_throw (data_property descriptors key) INVALID_DEPEG_LATCH_INPUT in
              let* encoded := encode levels v nodes in
              Ok ((key, fst encoded), snd encoded)) (js_sort key_cmp keys) nodes in
            Ok (JObject (fst entries), snd entries)
        end
    end.

(** Depths 0 to 12, 512 nodes. *)
Definition canonical_value (value : jsval) : latch_result json := rmap fst (encode 13 value 512).

Definition canonicalJson (value : jsval) : latch_result string := rmap stringify (canonical_value value).

Definition newline : string := String (ascii_of_nat 10) "".

(** ** Operations *)

Section latch.
(** [MAINNET_SUPPORTED_ASSET_REGISTRY]; [createHash('sha256')] from bytes to a
    hexadecimal digest. *)
Variable registry : VersionedSupportedAssetRegistry.
Variable sha256 : string -> string.

Definition normalizeStablecoinDepegLatchAsset (value : jsval)
    : latch_result StablecoinValuationAssetReference :=
  let code := INVALID_DEPEG_LATCH_ASSET in
  let* record := ownDataRecord value ASSET_KEYS code in
  match record .: "registryFingerprintSha256", record .: "stablecoin", record .: "networkId",
        record .: "identity" with
  | VStr registryFingerprintSha256, VStr stablecoin, VStr networkId, VStr identity =>
      reject code when
        negb (is_str (record .: "registryEnvironment") "MAINNET")
        || negb (is_int (record .: "registryVersion") 1)
        || negb (String.eqb registryFingerprintSha256 (snap_fingerprintSha256 (reg_latest registry)))
        || negb (isMainnetLaunchNetwork networkId) in
      let* decimals := or_throw (safe_integer (record .: "decimals")) code in
      let* snapshot := or_throw (atVersion registry 1) code in
      let* registered := or_throw (identifyAsset snapshot networkId identity) code in
      let* network := or_throw (network_of snapshot networkId) code in
      reject code when
        negb (bool_decide (net_activationState network = ACTIVE))
        || negb (bool_decide (asset_activationState registered = ACTIVE))
        || negb (String.eqb (enum_str (asset_stablecoin registered)) stablecoin)
        || negb (String.eqb (asset_identity registered) identity)
        || negb (asset_decimals registered =? decimals) in
      Ok {| ref_registryEnvironment := MAINNET; ref_registryVersion := 1;
            ref_registryFingerprintSha256 := snap_fingerprintSha256 snapshot;
            ref_stablecoin := asset_stablecoin registered; ref_networkId := asset_networkId registered;
            ref_identity := asset_identity registered; ref_decimals := asset_decimals registered |}
  | _, _, _, _ => Err code
  end.

(** What the hash is updated with: the domain and a newline, then the text. *)
Definition fingerprint_message (domain text : string) : string :=
  utf8 (domain +:+ newline) +:+ utf8 text.

Definition fingerprint (domain : string) (value : jsval) : latch_result string :=
  let* text := canonicalJson value in
  Ok (sha256 (fingerprint_message domain text)).

Definition is_some_str (o : option string) (value : jsval) : bool :=
  match o with
  | Some s => is_str value s
  | None => false
  end.

Definition validateDepegEvidence (valuationRequest : jsval) (evidenceActorReferenceId : string)
    : latch_result DepegEvidence :=
  let* request := ownDataRecord valuationRequest
    ["asset"; "amountAtomic"; "evaluatedAt"; "sourceWatermarks"; "observations"]
    INVALID_DEPEG_LATCH_INPUT in
  let* asset := normalizeStablecoinDepegLatchAsset (request .: "asset") in
  let res := evaluateStablecoinValuation registry (record_object request) in
  match val_asset res, val_evaluatedAt res with
  | Some resultAsset, Some evaluatedAt =>
      reject VALUATION_DID_NOT_DETECT_DEPEG when
        negb (sameAsset resultAsset asset)
        || negb (is_str (request .: "evaluatedAt") evaluatedAt)
        || negb (bool_decide (val_depegClass res = OUTSIDE_POLICY))
        || negb (bool_decide (val_downsideBand res = DEPEGGED))
        || negb (bool_decide (DEPEG_DETECTED ∈ val_reasons res))
        || val_mayIncreaseBuyingPower res || val_mayAuthorizeFinancialUse res in
      let* _ := latch_parseTimestamp (VStr evaluatedAt) INVALID_DEPEG_LATCH_INPUT in
      let* fingerprintSha256 := fingerprint DEPEG_EVIDENCE_FINGERPRINT_DOMAIN
        (js_array [VNum (JInt 1); VStr evidenceActorReferenceId; record_object request]) in
      Ok {| de_asset := asset; de_evaluatedAt := evaluatedAt; de_fingerprintSha256 := fingerprintSha256 |}
  | _, _ => Err VALUATION_DID_NOT_DETECT_DEPEG
  end.

Definition fingerprintStablecoinDepegEvidence (value : jsval) : latch_result string :=
  let* record := ownDataRecord value ["evidenceActorReferenceId"; "valuationRequest"]
    INVALID_DEPEG_LATCH_INPUT in
  let* actor := parseReference (record .: "evidenceActorReferenceId") INVALID_DEPEG_LATCH_INPUT in
  let* evidence := validateDepegEvidence (record .: "valuationRequest") actor in
  Ok (de_fingerprintSha256 evidence).

Definition revision_js (revision : option Z) : jsval :=
  match revision with
  | None => VNull
  | Some n => VNum (JInt n)
  end.

Definition normalizeRecordStablecoinDepegLatchCommand (value : jsval)
    : latch_result NormalizedRecordStablecoinDepegLatchCommand :=
  let* record := ownDataRecord value RECORD_KEYS INVALID_DEPEG_LATCH_INPUT in
  let* expectedRevision := parseRevision (record .: "expectedRevision") true INVALID_DEPEG_LATCH_INPUT in
  let* correlationId := parseUuid (record .: "correlationId") INVALID_DEPEG_LATCH_INPUT in
  let* latchId := parseDigest (record .: "latchId") INVALID_DEPEG_LATCH_INPUT in
  let* evidenceActorReferenceId :=
    parseReference (record .: "evidenceActorReferenceId") INVALID_DEPEG_LATCH_INPUT in
  let* requestedFingerprint :=
    parseDigest (record .: "depegEvidenceFingerprintSha256") INVALID_DEPEG_LATCH_INPUT in
  let* evidence := validateDepegEvidence (record .: "valuationRequest") evidenceActorReferenceId in
  reject DEPEG_EVIDENCE_FINGERPRINT_MISMATCH when
    negb (String.eqb requestedFingerprint (de_fingerprintSha256 evidence)) in
  let* commandFingerprintSha256 := fingerprint LATCH_COMMAND_FINGERPRINT_DOMAIN (js_array
    [VNum (JInt 1); asset_js (de_asset evidence); revision_js expectedRevision; VStr correlationId;
     VStr latchId; VStr (de_evaluatedAt evidence); VStr evidenceActorReferenceId;
     VStr requestedFingerprint]) in
  let* eventFingerprintSha256 := fingerprint LATCH_EVENT_FINGERPRINT_DOMAIN (js_array
    [VStr commandFingerprintSha256;
     VNum (JInt match expectedRevision with None => 1 | Some n => n + 1 end); VStr "LATCHED"]) in
  Ok {| rc_asset := de_asset evidence; rc_expectedRevision := expectedRevision;
        rc_correlationId := correlationId; rc_latchId := latchId; rc_latchedAt := de_evaluatedAt evidence;
        rc_evidenceActorReferenceId := evidenceActorReferenceId;
        rc_depegEvidenceFingerprintSha256 := requestedFingerprint;
        rc_commandFingerprintSha256 := commandFingerprintSha256;
        rc_eventFingerprintSha256 := eventFingerprintSha256 |}.

Definition validateRecoveryEvidence (value : jsval) : latch_result ValidatedRecoveryEvidence :=
  let* request := ownDataRecord value ["asset"; "evaluatedAt"; "depegLatch"; "manualRiskClear"; "samples"]
    INVALID_DEPEG_RECOVERY_INPUT in
  let* asset := normalizeStablecoinDepegLatchAsset (request .: "asset") in
  let res := evaluateStablecoinRecovery registry (record_object request) in
  match rec_asset res, rec_depegLatch res, rec_acceptedManualRiskClear res, rec_evaluatedAt res with
  | Some resultAsset, Some depegLatch, Some clear, Some resultEvaluatedAt =>
      reject RECOVERY_NOT_CLEARED when
        negb (bool_decide (rec_status res = RECOVERY_CANDIDATE_CLEARED))
        || negb (rec_manualRiskClearAccepted res)
        || negb (sameAsset resultAsset asset)
        || negb (is_str (request .: "evaluatedAt") resultEvaluatedAt)
        || rec_mayIncreaseBuyingPower res || rec_mayAuthorizeFinancialUse res in
      let* depegAsset := normalizeStablecoinDepegLatchAsset (asset_js (dl_asset depegLatch)) in
      let* clearAsset := normalizeStablecoinDepegLatchAsset (asset_js (mc_asset clear)) in
      reject RECOVERY_NOT_CLEARED when
        negb (sameAsset asset depegAsset) || negb (sameAsset asset clearAsset) in
      let* latchId := parseDigest (VStr (dl_latchId depegLatch)) INVALID_DEPEG_RECOVERY_INPUT in
      let* clearId := parseDigest (VStr (mc_clearId clear)) INVALID_DEPEG_RECOVERY_INPUT in
      let* latchedAt := latch_parseTimestamp (VStr (dl_latchedAt depegLatch)) INVALID_DEPEG_RECOVERY_INPUT in
      let* clearedAt := latch_parseTimestamp (VStr (mc_clearedAt clear)) INVALID_DEPEG_RECOVERY_INPUT in
      let* evaluatedAt := latch_parseTimestamp (VStr resultEvaluatedAt) INVALID_DEPEG_RECOVERY_INPUT in
      let* fingerprintSha256 := fingerprint RECOVERY_EVIDENCE_FINGERPRINT_DOMAIN
        (js_array [VNum (JInt 1); record_object request]) in
      Ok {| vr_asset := asset; vr_latchId := latchId; vr_latchedAt := fst latchedAt; vr_clearId := clearId;
            vr_clearedAt := fst clearedAt; vr_evaluatedAt := fst evaluatedAt;
            vr_fingerprintSha256 := fingerprintSha256 |}
  | _, _, _, _ => Err RECOVERY_NOT_CLEARED
  end.

Definition fingerprintStablecoinDepegRecoveryEvidence (value : jsval) : latch_result string :=
  let* evidence := validateRecoveryEvidence value in
  Ok (vr_fingerprintSha256 evidence).

Definition normalizeAuthorizationMaterial (value : jsval) : latch_result AuthorizationMaterial :=
  let code := INVALID_DEPEG_RECOVERY_AUTHORIZATION in
  let* record := ownDataRecord value AUTHORIZATION_MATERIAL_KEYS code in
  reject code when
    negb (is_int (record .: "schemaVersion") 1)
    || negb (is_str (record .: "authorizationType") "STABLECOIN_DEPEG_LATCH_RECOVERY")
    || negb (is_str (record .: "scope") "DEPEG_LATCH_CLEAR_ONLY")
    || negb (match record .: "mayAuthorizeFinancialAction" with VBool false => true | _ => false end)
    || negb (is_str (record .: "operation") "CLEAR_STABLECOIN_DEPEG_LATCH")
    || negb (is_str (record .: "riskApproverRole") "RISK_APPROVER") in
  let* asset := normalizeStablecoinDepegLatchAsset (record .: "asset") in
  let* expectedLatchId := parseDigest (record .: "expectedLatchId") code in
  let* revision := parseRevision (record .: "expectedRevision") false code in
  let* expectedRevision := or_throw revision code in
  let* clearId := parseDigest (record .: "clearId") code in
  let* recoveryEvidenceFingerprintSha256 :=
    parseDigest (record .: "recoveryEvidenceFingerprintSha256") code in
  let* evidenceActorReferenceId := parseReference (record .: "evidenceActorReferenceId") code in
  let* riskApproverReferenceId := parseReference (record .: "riskApproverReferenceId") code in
  reject code when
    String.eqb evidenceActorReferenceId riskApproverReferenceId || String.eqb expectedLatchId clearId in
  let* issuedAt := latch_parseTimestamp (record .: "issuedAt") code in
  let* notBefore := latch_parseTimestamp (record .: "notBefore") code in
  let* expiresAt := latch_parseTimestamp (record .: "expiresAt") code in
  reject code when
    (snd notBefore <? snd issuedAt) || (snd expiresAt <=? snd notBefore)
    || (STABLECOIN_DEPEG_RECOVERY_AUTHORIZATION_MAXIMUM_AGE_MILLISECONDS <? snd expiresAt - snd issuedAt) in
  let* nonce := parseUuid (record .: "nonce") code in
  Ok {| am_asset := asset; am_expectedLatchId := expectedLatchId; am_expectedRevision := expectedRevision;
        am_clearId := clearId; am_recoveryEvidenceFingerprintSha256 := recoveryEvidenceFingerprintSha256;
        am_evidenceActorReferenceId := evidenceActorReferenceId;
        am_riskApproverReferenceId := riskApproverReferenceId; am_issuedAt := fst issuedAt;
        am_notBefore := fst notBefore; am_expiresAt := fst expiresAt; am_nonce := nonce |}.

(** The frozen object literal [normalizeAuthorizationMaterial] returns. *)
Definition material_js (m : AuthorizationMaterial) : jsval := js_object
  [("schemaVersion", VNum (JInt 1)); ("authorizationType", VStr "STABLECOIN_DEPEG_LATCH_RECOVERY");
   ("scope", VStr "DEPEG_LATCH_CLEAR_ONLY"); ("mayAuthorizeFinancialAction", VBool false);
   ("operation", VStr "CLEAR_STABLECOIN_DEPEG_LATCH"); ("asset", asset_js (am_asset m));
   ("expectedLatchId", VStr (am_expectedLatchId m)); ("expectedRevision", VNum (JInt (am_expectedRevision m)));
   ("clearId", VStr (am_clearId m));
   ("recoveryEvidenceFingerprintSha256", VStr (am_recoveryEvidenceFingerprintSha256 m));
   ("evidenceActorReferenceId", VStr (am_evidenceActorReferenceId m));
   ("riskApproverReferenceId", VStr (am_riskApproverReferenceId m));
   ("riskApproverRole", VStr "RISK_APPROVER"); ("issuedAt", VStr (am_issuedAt m));
   ("notBefore", VStr (am_notBefore m)); ("expiresAt", VStr (am_expiresAt m)); ("nonce", VStr (am_nonce m))].

(** The values an authorization's fingerprint is over. *)
Definition authorization_values (m : AuthorizationMaterial) : list jsval :=
  [VNum (JInt 1); VStr "STABLECOIN_DEPEG_LATCH_RECOVERY"; VStr "DEPEG_LATCH_CLEAR_ONLY"; VBool false;
   VStr "CLEAR_STABLECOIN_DEPEG_LATCH"; asset_js (am_asset m);
   VStr (am_expectedLatchId m); VNum (JInt (am_expectedRevision m));
   VStr (am_clearId m); VStr (am_recoveryEvidenceFingerprintSha256 m);
   VStr (am_evidenceActorReferenceId m); VStr (am_riskApproverReferenceId m);
   VStr "RISK_APPROVER"; VStr (am_issuedAt m); VStr (am_notBefore m);
   VStr (am_expiresAt m); VStr (am_nonce m)].

Definition fingerprintStablecoinDepegRecoveryAuthorization (value : jsval) : latch_result string :=
  let* material := normalizeAuthorizationMaterial value in
  fingerprint RECOVERY_AUTHORIZATION_FINGERPRINT_DOMAIN (js_array (authorization_values material)).

Definition normalizeAuthorization (value : jsval) : latch_result StablecoinDepegRecoveryAuthorization :=
  let code := INVALID_DEPEG_RECOVERY_AUTHORIZATION in
  let* record := ownDataRecord value AUTHORIZATION_KEYS code in
  let materialInput := record_object ((fun key => (key, record .: key)) <$> AUTHORIZATION_MATERIAL_KEYS) in
  let* material := normalizeAuthorizationMaterial materialInput in
  let* authorizationFingerprintSha256 := parseDigest (record .: "authorizationFingerprintSha256") code in
  let* expectedFingerprint := fingerprintStablecoinDepegRecoveryAuthorization (material_js material) in
  reject code when negb (String.eqb authorizationFingerprintSha256 expectedFingerprint) in
  let authorizationId := AUTHORIZATION_ID_PREFIX +:+ authorizationFingerprintSha256 in
  reject code when negb (is_str (record .: "authorizationId") authorizationId) in
  Ok {| auth_material := material; auth_fingerprintSha256 := authorizationFingerprintSha256;
        auth_id := authorizationId |}.

Definition normalizeClearStablecoinDepegLatchCommand (value : jsval)
    : latch_result NormalizedClearStablecoinDepegLatchCommand :=
  let* record := ownDataRecord value CLEAR_KEYS INVALID_DEPEG_RECOVERY_INPUT in
  let* evaluatedAt := latch_parseTimestamp (record .: "evaluatedAt") INVALID_DEPEG_RECOVERY_INPUT in
  let* correlationId := parseUuid (record .: "correlationId") INVALID_DEPEG_RECOVERY_INPUT in
  let* recovery := validateRecoveryEvidence (record .: "recoveryRequest") in
  let* authorization := normalizeAuthorization (record .: "authorization") in
  let m := auth_material authorization in
  let* issuedAt := latch_parseTimestamp (VStr (am_issuedAt m)) INVALID_DEPEG_RECOVERY_AUTHORIZATION in
  let* notBefore := latch_parseTimestamp (VStr (am_notBefore m)) INVALID_DEPEG_RECOVERY_AUTHORIZATION in
  let* expiresAt := latch_parseTimestamp (VStr (am_expiresAt m)) INVALID_DEPEG_RECOVERY_AUTHORIZATION in
  reject DEPEG_RECOVERY_AUTHORIZATION_MISMATCH when
    negb (String.eqb (vr_evaluatedAt recovery) (fst evaluatedAt))
    || negb (sameAsset (vr_asset recovery) (am_asset m))
    || negb (String.eqb (vr_latchId recovery) (am_expectedLatchId m))
    || negb (String.eqb (vr_clearId recovery) (am_clearId m))
    || negb (String.eqb (vr_clearedAt recovery) (am_issuedAt m))
    || negb (String.eqb (vr_fingerprintSha256 recovery) (am_recoveryEvidenceFingerprintSha256 m))
    || (snd evaluatedAt <? snd notBefore) || (snd expiresAt <=? snd evaluatedAt)
    || (snd evaluatedAt <? snd issuedAt) in
  let* commandFingerprintSha256 := fingerprint CLEAR_COMMAND_FINGERPRINT_DOMAIN (js_array
    [VNum (JInt 1); asset_js (vr_asset recovery); VStr (fst evaluatedAt); VStr correlationId;
     VStr (vr_clearId recovery); VStr (vr_latchId recovery); VStr (vr_latchedAt recovery);
     VNum (JInt (am_expectedRevision m)); VStr (vr_fingerprintSha256 recovery);
     VStr (am_evidenceActorReferenceId m); VStr (am_riskApproverReferenceId m); VStr "RISK_APPROVER";
     VStr (vr_clearedAt recovery); VStr (am_issuedAt m); VStr (am_notBefore m); VStr (am_expiresAt m);
     VStr (am_nonce m); VStr (auth_fingerprintSha256 authorization); VStr (auth_id authorization)]) in
  let* eventFingerprintSha256 := fingerprint CLEAR_EVENT_FINGERPRINT_DOMAIN (js_array
    [VStr commandFingerprintSha256; VNum (JInt (am_expectedRevision m + 1)); VStr "CLEARED"]) in
  Ok {| cc_asset := vr_asset recovery; cc_evaluatedAt := fst evaluatedAt; cc_correlationId := correlationId;
        cc_clearId := vr_clearId recovery; cc_latchId := vr_latchId recovery;
        cc_latchedAt := vr_latchedAt recovery; cc_expectedRevision := am_expectedRevision m;
        cc_recoveryEvidenceFingerprintSha256 := vr_fingerprintSha256 recovery;
        cc_evidenceActorReferenceId := am_evidenceActorReferenceId m;
        cc_riskApproverReferenceId := am_riskApproverReferenceId m; cc_clearedAt := vr_clearedAt recovery;
        cc_authorizationIssuedAt := am_issuedAt m; cc_authorizationNotBefore := am_notBefore m;
        cc_authorizationExpiresAt := am_expiresAt m; cc_authorizationNonce := am_nonce m;
        cc_authorizationFingerprintSha256 := auth_fingerprintSha256 authorization;
        cc_authorizationId := auth_id authorization;
        cc_commandFingerprintSha256 := commandFingerprintSha256;
        cc_eventFingerprintSha256 := eventFingerprintSha256 |}.

Definition stablecoinDepegRecoveryAuthorizationId (fingerprintSha256 : jsval) : latch_result string :=
  let* digest := parseDigest fingerprintSha256 INVALID_DEPEG_RECOVERY_AUTHORIZATION in
  Ok (AUTHORIZATION_ID_PREFIX +:+ digest).

Definition stablecoinDepegLatchAssetKey (assetValue : jsval) : latch_result string :=
  let* asset := normalizeStablecoinDepegLatchAsset assetValue in
  fingerprint "crypto-lending:stablecoin-depeg-latch-asset-key:v1" (asset_js asset).

Definition supportedStablecoinForDepegLatch (value : jsval) : latch_result SupportedStablecoin :=
  let* asset := normalizeStablecoinDepegLatchAsset value in
  Ok (ref_stablecoin asset).
End latch.

(** ** Lemmas: fingerprints *)

Definition no_newline (domain : string) : bool := all_chars (fun c => negb (code c =? 10)) (utf8 domain).

Lemma utf8_append a b : utf8 (a +:+ b) = utf8 a +:+ utf8 b.
Proof.
  induction a as [|c a IH]; [done|]. rewrite append_cons. cbn [utf8]. rewrite IH.
  by destruct (code c <=? 127).
Qed.

Lemma until_newline a b r r' :
  all_chars (fun c => negb (code c =? 10)) a = true -> all_chars (fun c => negb (code c =? 10)) b = true ->
  a +:+ (newline +:+ r) = b +:+ (newline +:+ r') -> a = b /\ r = r'.
Proof.
  revert b. induction a as [|c a IH]; intros [|d b] Ha Hb; cbn [all_chars] in *;
    rewrite ?append_nil_l, ?append_cons; unfold newline at 1 2; rewrite !append_cons, !append_nil_l.
  - by intros [= ->].
  - apply andb_true_iff in Hb as [Hd _]. intros [= <- _]. discriminate.
  - apply andb_true_iff in Ha as [Hc _]. intros [= -> _]. discriminate.
  - apply andb_true_iff in Ha as [_ Ha], Hb as [_ Hb]. intros [= -> H].
    by destruct (IH b Ha Hb H) as [-> ->].
Qed.

(** Domains and texts do not run into each other. *)
Lemma fingerprint_message_inj d d' t t' :
  no_newline d = true -> no_newline d' = true ->
  fingerprint_message d t = fingerprint_message d' t' -> d = d' /\ t = t'.
Proof.
  unfold fingerprint_message, no_newline. intros Hd Hd'. rewrite !utf8_append, !append_assoc.
  change (utf8 newline) with newline. intros H.
  apply until_newline in H as [H1 H2]; [|done..]. by apply utf8_inj in H1, H2.
Qed.

Lemma map_nodes_ok {A B} (f : A -> Z -> latch_result (B * Z)) l n bs n' :
  map_nodes f l n = Ok (bs, n') -> Forall2 (fun a b => exists m m', f a m = Ok (b, m')) l bs.
Proof.
  revert n bs. induction l as [|a l IH]; intros n bs; cbn [map_nodes].
  - intros [= <- _]. constructor.
  - intros H. inv_ok. subst. destruct r as [b m], r0 as [bs' m']. cbn [fst snd] in *.
    constructor; [eauto | by eapply IH].
Qed.

Lemma encode_str levels s n j n' : encode levels (VStr s) n = Ok (j, n') -> j = JString s.
Proof.
  destruct levels; cbn [encode]; destruct (_ <? 0); try done.
  destruct (_ || _); [done|]. by intros [= <- _].
Qed.

Lemma encode_int levels z n j n' : encode levels (VNum (JInt z)) n = Ok (j, n') -> j = JNumber z /\ 0 <= z.
Proof.
  destruct levels; cbn [encode]; destruct (_ <? 0); try done.
  unfold safe_integer. destruct (_ <=? _); [|done]. destruct (Z.ltb_spec z 0); [done|]. by intros [= <- _].
Qed.

Lemma encode_null levels n j n' : encode levels VNull n = Ok (j, n') -> j = JNull.
Proof. destruct levels; cbn [encode]; destruct (_ <? 0); try done. by intros [= <- _]. Qed.

Lemma encode_bool levels b n j n' : encode levels (VBool b) n = Ok (j, n') -> j = JBool b.
Proof. destruct levels; cbn [encode]; destruct (_ <? 0); try done. by intros [= <- _]. Qed.

(** Every canonical tree is printable. *)
Lemma encode_wf levels v n j n' : encode levels v n = Ok (j, n') -> json_wf j.
Proof.
  revert v n j n'. induction levels as [|levels IH]; intros v n j n' H.
  { cbn [encode] in H. by destruct (_ <? 0). }
  assert (forall ds ks m es m',
    map_nodes (fun key nodes =>
      let* v := or_throw (data_property ds key) INVALID_DEPEG_LATCH_INPUT in
      let* encoded := encode levels v nodes in Ok ((key, fst encoded), snd encoded)) ks m = Ok (es, m') ->
    Forall (fun kv => json_wf kv.2) es) as Hobj.
  { intros ds ks m es m' Hm%map_nodes_ok. induction Hm as [|k [k' e] ks es (x & x' & Hf) _ IHm]; constructor; [|done].
    inv_ok. subst. destruct r0 as [e0 ?]. cbn [fst snd] in *. by eapply IH. }
  assert (forall v m, (let* descriptors := or_throw (plain_descriptors v) INVALID_DEPEG_LATCH_INPUT in
    reject INVALID_DEPEG_LATCH_INPUT when (64 <? length descriptors)%nat in
    let* keys := or_throw (string_keys descriptors) INVALID_DEPEG_LATCH_INPUT in
    let* entries := map_nodes (fun key nodes =>
      let* v := or_throw (data_property descriptors key) INVALID_DEPEG_LATCH_INPUT in
      let* encoded := encode levels v nodes in
      Ok ((key, fst encoded), snd encoded)) (js_sort key_cmp keys) m in
    Ok (JObject (fst entries), snd entries)) = Ok (j, n') -> json_wf j) as Hval.
  { intros x m Hx. inv_ok. subst. destruct r1 as [es ?]. apply json_wf_object. by eapply Hobj. }
  cbn [encode] in H. destruct (_ <? 0); [done|].
  destruct v as [| |b|num|z|s|sy| |p t|p len props|p props|]; try (by eapply Hval).
  - by injection H as <- _.
  - by injection H as <- _.
  - destruct (safe_integer _); [|done]. destruct (Z.ltb_spec z 0); [done|]. by injection H as <- _.
  - destruct (_ || _); [done|]. by injection H as <- _.
  - inv_ok. subst. destruct r as [items ?]. apply json_wf_array. apply map_nodes_ok in Hr.
    apply Forall_forall. intros e He. destruct (Forall2_elem_r _ _ _ _ Hr He) as (k & _ & x & x' & Hf).
    inv_ok. by eapply IH.
Qed.

Lemma descriptor_literal (kvs : list (string * jsval)) kv :
  NoDup kvs.*1 -> kv ∈ kvs ->
  descriptor ((fun kv => (KStr kv.1, DData kv.2 true)) <$> kvs) kv.1 = Some (DData kv.2 true).
Proof.
  induction kvs as [|kv' kvs IH]; intros Hnd Hin; [by apply not_elem_of_nil in Hin|].
  rewrite fmap_cons in *. apply NoDup_cons in Hnd as [Hk Hnd]. cbn [descriptor fst snd].
  rewrite key_eqb_str. apply elem_of_cons in Hin as [->|Hin]; [by rewrite String.eqb_refl|].
  destruct (String.eqb_spec kv.1 kv'.1) as [E|]; [|by apply IH].
  exfalso. apply Hk. rewrite <- E. by apply list_elem_of_fmap_2.
Qed.

Lemma encode_array_js levels vs n j n' :
  encode levels (js_array vs) n = Ok (j, n') ->
  exists levels' js, j = JArray js /\ Forall2 (fun v e => exists m m', encode levels' v m = Ok (e, m')) vs js.
Proof.
  destruct levels as [|levels]; cbn [encode]; [by destruct (_ <? 0)|]. unfold js_array at 1.
  destruct (_ <? 0); [done|]. intros H. inv_ok. subst. destruct r as [items ?]. cbn [fst].
  exists levels, items. split; [done|]. apply map_nodes_ok in Hr. rewrite js_array_props in Hr.
  set (kvs := zip (index_keys (Z.of_nat (length vs))) vs) in *.
  assert (kvs.*1 = index_keys (Z.of_nat (length vs))) as Hk.
  { apply fst_zip. unfold index_keys. rewrite length_fmap, length_seq. lia. }
  assert (kvs.*2 = vs) as Hv.
  { apply snd_zip. unfold index_keys. rewrite length_fmap, length_seq. lia. }
  rewrite <- Hv, Forall2_fmap_l. rewrite <- Hk, Forall2_fmap_l in Hr.
  eapply Forall2_elem; [exact Hr|]. cbv beta. intros kv e Hin (m & m' & H). unfold array_element in H.
  rewrite descriptor_literal in H; [|rewrite Hk; apply index_keys_NoDup | done].
  exists m, m'. exact H.
Qed.

Lemma string_keys_literal (kvs : list (string * jsval)) :
  string_keys ((fun kv => (KStr kv.1, DData kv.2 true)) <$> kvs) = Some kvs.*1.
Proof. induction kvs as [|kv kvs IH]; [done|]. rewrite !fmap_cons. cbn [string_keys fst]. by rewrite IH. Qed.

(** An object's tree lists its members in the order of the sorted keys. *)
Lemma encode_object_js levels (kvs : list (string * jsval)) n j n' :
  NoDup kvs.*1 ->
  encode levels (js_object kvs) n = Ok (j, n') ->
  exists levels' es, j = JObject es /\
    Forall2 (fun key e => e.1 = key /\ forall v, (key, v) ∈ kvs ->
      exists m m', encode levels' v m = Ok (e.2, m')) (js_sort key_cmp kvs.*1) es.
Proof.
  intros Hnd. destruct levels as [|levels]; cbn [encode]; [by destruct (_ <? 0)|]. unfold js_object at 1.
  destruct (_ <? 0); [done|]. intros H. inv_ok. subst. destruct r1 as [es ?]. cbn [fst].
  exists levels, es. split; [done|]. injection Hr as <-. rewrite string_keys_literal in Hr0. injection Hr0 as <-.
  apply map_nodes_ok in Hr1. eapply Forall2_elem; [exact Hr1|]. cbv beta.
  intros key [k e] _ (m & m' & H). inv_ok. subst. split; [done|]. intros v Hv.
  apply (descriptor_literal kvs (k, v)) in Hv; [|done]. cbn [fst snd] in Hv.
  unfold data_property in Hr. rewrite Hv in Hr. injection Hr as <-. destruct r0 as [e' ?]. cbn [fst snd] in *. eauto.
Qed.

Definition asset_json (a : StablecoinValuationAssetReference) : json := JObject
  [("decimals", JNumber (ref_decimals a)); ("identity", JString (ref_identity a));
   ("networkId", JString (ref_networkId a));
   ("registryEnvironment", JString (enum_str (ref_registryEnvironment a)));
   ("registryFingerprintSha256", JString (ref_registryFingerprintSha256 a));
   ("registryVersion", JNumber (ref_registryVersion a)); ("stablecoin", JString (enum_str (ref_stablecoin a)))].

Lemma asset_json_inj a b : asset_json a = asset_json b -> a = b.
Proof.
  unfold asset_json. intros [= H1 H2 H3 H4 H5 H6 H7]. 
  change (enum_str (ref_registryEnvironment a) = enum_str (ref_registryEnvironment b)) in H4.
  change (enum_str (ref_stablecoin a) = enum_str (ref_stablecoin b)) in H7.
  apply enum_str_inj in H4, H7.
  destruct a, b. cbn in *. by subst.
Qed.

Ltac encode_inv :=
  repeat match goal with
  | H : Forall2 _ [] _ |- _ => apply Forall2_nil_inv_l in H
  | H : Forall2 _ (_ :: _) _ |- _ =>
      let y := fresh "e" in let H1 := fresh in let H2 := fresh in
      apply Forall2_cons_inv_l in H as (y & ? & H1 & H2 & ->)
  | H : exists _ _, encode _ _ _ = Ok _ |- _ => destruct H as (? & ? & ?)
  | H : encode _ (VStr _) _ = Ok _ |- _ => apply encode_str in H
  | H : encode _ (VNum (JInt _)) _ = Ok _ |- _ => apply encode_int in H as [H ?]
  | H : encode _ VNull _ = Ok _ |- _ => apply encode_null in H
  | H : encode _ (VBool _) _ = Ok _ |- _ => apply encode_bool in H
  end; subst.

Lemma encode_asset levels a n j n' : encode levels (asset_js a) n = Ok (j, n') -> j = asset_json a.
Proof.
  intros H. apply encode_object_js in H as (levels' & es & -> & H);
    [|apply (bool_decide_eq_true_1 _); vm_compute; reflexivity].
  match type of H with Forall2 _ ?ks _ => replace ks with
    ["decimals"; "identity"; "networkId"; "registryEnvironment"; "registryFingerprintSha256"; "registryVersion";
     "stablecoin"] in H by (vm_compute; reflexivity) end.
  repeat match goal with
  | H : Forall2 _ (_ :: _) _ |- _ =>
      let e := fresh "e" in let k := fresh "k" in let H1 := fresh in let H2 := fresh in let E := fresh in
      apply Forall2_cons_inv_l in H as (e & k & H1 & H2 & E); destruct e, H1; subst
  end.
  match goal with H : Forall2 _ [] _ |- _ => apply Forall2_nil_inv_l in H as -> end.
  cbn [fst snd] in *. subst. unfold asset_json.
  repeat match goal with
  | H : forall v, (?k, v) ∈ _ -> _ |- _ =>
      edestruct H as (? & ? & ?); [clear; solve_elem | clear H]
  end. encode_inv. done.
Qed.

(** ** Lemmas: the registry and reread records *)

(** The first version of the registry is its latest, a validated snapshot. *)
Definition registry_wf (registry : VersionedSupportedAssetRegistry) : Prop :=
  forall s, atVersion registry 1 = Some s -> snapshot_wf s /\ snapshot_maps s /\ reg_latest registry = s.

Lemma shipped_registry_wf sha256 registry :
  MAINNET_SUPPORTED_ASSET_REGISTRY sha256 = Ok registry -> registry_wf registry.
Proof.
  intros H s. revert H.
  unfold MAINNET_SUPPORTED_ASSET_REGISTRY. intros H Hs. inv_ok. revert H.
  generalize (first_version MAINNET MAINNET_V1_NETWORK_DEFINITIONS r). intros d H.
  unfold createVersionedSupportedAssetRegistry in H. inv_ok. subst registry.
  cbn [mapr] in Hr0. inv_ok. subst.
  match goal with H : createSupportedAssetRegistrySnapshot _ _ = Ok ?x |- _ =>
    assert (s = x) as ->; [|apply createSnapshot_ok in H as (? & ? & _); cbn in Hr2; by injection Hr2 as ->] end.
  revert Hs. unfold atVersion, mofl. cbn [reg_byVersion fmap list_fmap foldl mset fst snd mget].
  case_decide; [by intros [= ->] | done].
Qed.

Lemma exact_record_object keys v r :
  NoDup keys -> exact_data_record keys v = Some r -> exact_data_record keys (record_object r) = Some r.
Proof.
  intros Hnd H. pose proof (exact_data_record_keys _ _ _ H) as Hk. subst keys.
  exact (exact_data_record_literal r Hnd).
Qed.

Lemma parseRequest_record registry v r :
  ownDataRecord v ["asset"; "amountAtomic"; "evaluatedAt"; "sourceWatermarks"; "observations"]
    INVALID_DEPEG_LATCH_INPUT = Ok r ->
  parseRequest registry (record_object r) = parseRequest registry v.
Proof.
  unfold ownDataRecord. intros H%or_throw_ok. unfold parseRequest, dataRecord.
  apply exact_record_object in H as H'; [|apply (bool_decide_eq_true_1 _); vm_compute; reflexivity].
  by rewrite H, H'.
Qed.

Lemma parseRecoveryRequest_record registry v r :
  ownDataRecord v ["asset"; "evaluatedAt"; "depegLatch"; "manualRiskClear"; "samples"]
    INVALID_DEPEG_RECOVERY_INPUT = Ok r ->
  parseRecoveryRequest registry (record_object r) = parseRecoveryRequest registry v.
Proof.
  unfold ownDataRecord. intros H%or_throw_ok. unfold parseRecoveryRequest, dataRecord.
  apply exact_record_object in H as H'; [|apply (bool_decide_eq_true_1 _); vm_compute; reflexivity].
  by rewrite H, H'.
Qed.

(** A latch asset is the valuation asset it is parsed from, on a launch network. *)
Lemma latch_asset_spec registry v a :
  registry_wf registry ->
  normalizeStablecoinDepegLatchAsset registry v = Ok a ->
  isMainnetLaunchNetwork (ref_networkId a) = true /\
  forall b, parseAsset registry v = Ok b -> a = b.
Proof.
  intros Hreg H. unfold normalizeStablecoinDepegLatchAsset, ownDataRecord in H. inv_ok.
  destruct (r .: "registryFingerprintSha256") as [| | | | |fp| | | | | |] eqn:Ef; try done.
  destruct (r .: "stablecoin") as [| | | | |stablecoin| | | | | |] eqn:Es; try done.
  destruct (r .: "networkId") as [| | | | |networkId| | | | | |] eqn:En; try done.
  destruct (r .: "identity") as [| | | | |identity| | | | | |] eqn:Ei; try done.
  inv_ok. bsimpl. destruct (Hreg _ Hr1) as (Hw & Hm & _).
  apply (identifyAsset_iff _ _ _ _ Hw Hm) in Hr2 as Hid. destruct Hid as (_ & Enet & _).
  assert (ref_networkId a = networkId) as Ea by (by subst a).
  split; [by rewrite Ea|]. intros b Hb.
  unfold parseAsset, dataRecord in Hb. fold ASSET_KEYS in Hb. rewrite Hr in Hb. cbn [or_throw rbind] in Hb.
  rewrite Ef, En, Ei in Hb. inv_ok. rewrite Hr1 in *.
  repeat match goal with H1 : ?x = Some _, H2 : ?x = Some _ |- _ => rewrite H1 in H2; injection H2 as <- end.
  repeat match goal with
  | H : orb _ _ = false |- _ => apply orb_false_iff in H as [? ?]
  | H : negb _ = false |- _ => apply negb_false_iff in H
  | H : String.eqb _ _ = true |- _ => apply String.eqb_eq in H
  | H : bool_decide _ = true |- _ => apply bool_decide_eq_true in H
  end. bsimpl. subst. simplify_eq. f_equal; congruence.
Qed.

Lemma classify_request_subject request :
  val_asset (classify_request request) = Some (pr_asset request) /\
  val_evaluatedAt (classify_request request) = Some (pr_evaluatedAt request).
Proof.
  unfold classify_request. set (p := List.filter _ _). set (assessments := _ <$> _).
  assert (forall first rest agreement class,
    val_asset (availableResult request first rest assessments agreement class) = Some (pr_asset request) /\
    val_evaluatedAt (availableResult request first rest assessments agreement class)
    = Some (pr_evaluatedAt request)) as H.
  { intros. unfold availableResult. by destruct (calculateUsdValue _ _ _). }
  destruct p as [|c [|c' [|c'' p]]]; cbn [classify_pool]; try apply H; [done|].
  destruct (classifySourceAgreement _ _); (apply H || done).
Qed.

(** A valuation asset on a launch network is a latch asset. *)
Lemma latch_asset_complete registry v a :
  registry_wf registry -> parseAsset registry v = Ok a -> isMainnetLaunchNetwork (ref_networkId a) = true ->
  normalizeStablecoinDepegLatchAsset registry v = Ok a.
Proof.
  intros Hreg H Hl. pose proof H as H0. unfold parseAsset, dataRecord in H. fold ASSET_KEYS in H. inv_ok.
  unfold normalizeStablecoinDepegLatchAsset, ownDataRecord. rewrite Hr. cbn [or_throw rbind].
  destruct (r .: "registryFingerprintSha256") as [| | | | |fp| | | | | |] eqn:Ef; try done.
  destruct (r .: "networkId") as [| | | | |networkId| | | | | |] eqn:En; try done.
  destruct (r .: "identity") as [| | | | |identity| | | | | |] eqn:Ei; try done.
  inv_ok. apply enum_member_spec in Hr0 as [Henv ->], Hr1 as [_ ->].
  apply list_elem_of_singleton in Henv as ->. destruct (Hreg _ Hr3) as (Hw & Hm & Hlatest).
  apply (identifyAsset_iff _ _ _ _ Hw Hm) in Hr4 as Hid. destruct Hid as (_ & Enet & _).
  repeat match goal with
  | H : orb _ _ = false |- _ => apply orb_false_iff in H as [? ?]
  | H : negb _ = false |- _ => apply negb_false_iff in H
  | H : String.eqb _ _ = true |- _ => apply String.eqb_eq in H
  | H : bool_decide _ = true |- _ => apply bool_decide_eq_true in H
  end. bsimpl. subst a. cbn [ref_networkId] in Hl.
  cbv beta iota zeta. cbn [is_str enum_str ASSET_REGISTRY_ENVIRONMENTS]. rewrite Hl, Hlatest.
  subst fp. rewrite !String.eqb_refl. cbn [negb orb]. rewrite Hr2. cbn [or_throw rbind]. rewrite Hr3.
  cbn [or_throw rbind]. rewrite Hr4. cbn [or_throw rbind]. rewrite Hr5. cbn [or_throw rbind].
  match goal with H : asset_stablecoin _ = _ |- _ => rewrite H end.
  match goal with H : asset_identity _ = _ |- _ => rewrite H end.
  match goal with H : asset_decimals _ = _ |- _ => rewrite H end.
  rewrite !bool_decide_true, !String.eqb_refl, Z.eqb_refl by done. cbn [negb orb]. by rewrite Enet.
Qed.

Lemma latch_asset_err registry v e :
  normalizeStablecoinDepegLatchAsset registry v = Err e -> e = INVALID_DEPEG_LATCH_ASSET.
Proof.
  unfold normalizeStablecoinDepegLatchAsset, ownDataRecord, or_throw, rbind. intros H.
  repeat (case_match; simplify_eq; try done).
Qed.

Lemma map_nodes_err {A B} (f : A -> Z -> latch_result (B * Z)) l n e code :
  (forall a m e, f a m = Err e -> e = code) -> map_nodes f l n = Err e -> e = code.
Proof.
  intros Hf. revert n. induction l as [|a l IH]; intros n; cbn [map_nodes]; [done|].
  intros [H|([b m] & _ & H)]%rbind_err; [by eapply Hf|].
  apply rbind_err in H as [H|(? & _ & H)]; [by eapply IH | done].
Qed.

Lemma encode_err levels v n e : encode levels v n = Err e -> e = INVALID_DEPEG_LATCH_INPUT.
Proof.
  revert v n e. induction levels as [|levels IH]; intros v n e; cbn [encode].
  { destruct (_ <? 0); congruence. }
  assert (forall v m e, (let* descriptors := or_throw (plain_descriptors v) INVALID_DEPEG_LATCH_INPUT in
    reject INVALID_DEPEG_LATCH_INPUT when (64 <? length descriptors)%nat in
    let* keys := or_throw (string_keys descriptors) INVALID_DEPEG_LATCH_INPUT in
    let* entries := map_nodes (fun key nodes =>
      let* v := or_throw (data_property descriptors key) INVALID_DEPEG_LATCH_INPUT in
      let* encoded := encode levels v nodes in
      Ok ((key, fst encoded), snd encoded)) (js_sort key_cmp keys) m in
    Ok (JObject (fst entries), snd entries)) = Err e -> e = INVALID_DEPEG_LATCH_INPUT) as Hval.
  { intros x m e' [H|(ds & _ & H)]%rbind_err; [by apply or_throw_err in H|].
    destruct (64 <? length ds)%nat; [congruence|].
    apply rbind_err in H as [H|(ks & _ & H)]; [by apply or_throw_err in H|].
    apply rbind_err in H as [H|(? & _ & H)]; [|done]. eapply map_nodes_err; [|exact H]. cbv beta.
    intros k m' e'' [Hk|(y & _ & Hk)]%rbind_err; [by apply or_throw_err in Hk|].
    apply rbind_err in Hk as [Hk|(? & _ & Hk)]; [by eapply IH | done]. }
  destruct (_ <? 0); [congruence|].
  destruct v as [| |b|num|z|s|sy| |p t|p len props|p props|]; try done; try apply Hval.
  - destruct (safe_integer _); [destruct (_ <? 0)|]; congruence.
  - destruct (_ || _); congruence.
  - destruct (32 <? len); [congruence|]. intros [H|(? & _ & H)]%rbind_err; [|done].
    eapply map_nodes_err; [|exact H]. cbv beta.
    intros k m e' [Hk|(y & _ & Hk)]%rbind_err; [by apply or_throw_err in Hk | by eapply IH].
Qed.

Lemma fingerprint_err sha256 domain v e :
  fingerprint sha256 domain v = Err e -> e = INVALID_DEPEG_LATCH_INPUT.
Proof.
  unfold fingerprint, canonicalJson, canonical_value. intros [H|(? & _ & H)]%rbind_err; [|done].
  destruct (encode 13 v 512) eqn:E; [done|]. injection H as <-. by apply encode_err in E.
Qed.

Lemma latch_timestamp_ok code v s t :
  latch_parseTimestamp v code = Ok (s, t) <-> v = VStr s /\ instant s t.
Proof.
  rewrite <- (parseTimestamp_ok v s t). unfold latch_parseTimestamp, parseTimestamp.
  destruct v; try done. destruct (canonical_timestamp s0) as [t'|]; [|done].
  destruct (t' <? 0); [done|]. split; congruence.
Qed.

(** For every accepted valuation request, depeg evidence is accepted only
    for an asset on a launch network that some eligible source puts at 0.98
    dollars or below, and then it names that asset and instant; it is refused
    as no depeg only when every eligible source is above 0.98 dollars, and as a
    wrong asset only off the launch networks. *)
Theorem depeg_evidence_sound registry registry_sha256 sha256 v actor request :
  MAINNET_SUPPORTED_ASSET_REGISTRY registry_sha256 = Ok registry ->
  parseRequest registry v = Ok request ->
  match validateDepegEvidence registry sha256 v actor with
  | Ok e =>
      de_asset e = pr_asset request /\ de_evaluatedAt e = pr_evaluatedAt request /\
      isMainnetLaunchNetwork (ref_networkId (pr_asset request)) = true /\
      exists source o m, eligible request source o m /\ m <= 98000000
  | Err VALUATION_DID_NOT_DETECT_DEPEG => forall source o m, eligible request source o m -> 98000000 < m
  | Err INVALID_DEPEG_LATCH_ASSET => isMainnetLaunchNetwork (ref_networkId (pr_asset request)) = false
  | Err code => code = INVALID_DEPEG_LATCH_INPUT
  end.
Proof.
  intros Hreg%shipped_registry_wf Hp. pose proof (valuation_request_wf _ _ _ Hp) as Hwf.
  destruct (depeg_reported registry request Hwf) as (b & [Hcls Hband] & Hb).
  destruct (classify_pool_flags request (ia_publicAssessment <$> ((fun sr => assessSource request sr.1 sr.2) <$> sourceOrder))
    (pool request)) as [F1 F2]. rewrite <- (classify_request_pool registry) in F1, F2 by done.
  destruct (classify_request_subject request) as [Ea Et].
  unfold validateDepegEvidence. destruct (ownDataRecord v _ _) as [r|e] eqn:Er.
  2:{ unfold ownDataRecord, or_throw in Er. destruct (exact_data_record _ _); [done|]. by injection Er as <-. }
  cbn [rbind]. unfold evaluateStablecoinValuation. rewrite (parseRequest_record _ _ _ Er), Hp, Ea, Et.
  unfold ownDataRecord in Er. apply or_throw_ok in Er. unfold parseRequest, dataRecord in Hp. rewrite Er in Hp.
  inv_ok. injection Hr as <-.
  match goal with H : parseAsset registry (r .: "asset") = Ok ?a |- _ => rename H into Hasset end.
  destruct r3 as [evaluatedAt t]. apply parseTimestamp_ok in Hr2 as [Hev Hin].
  assert (pr_asset request = r1 /\ pr_evaluatedAt request = evaluatedAt) as [-> ->] by (by subst request).
  destruct (normalizeStablecoinDepegLatchAsset registry (r .: "asset")) as [a|e] eqn:Ha; cbn [rbind].
  2:{ pose proof (latch_asset_err _ _ _ Ha) as ->.
      destruct (isMainnetLaunchNetwork (ref_networkId r1)) eqn:El; [|done].
      rewrite (latch_asset_complete _ _ _ Hreg Hasset El) in Ha. done. }
  destruct (latch_asset_spec _ _ _ Hreg Ha) as [El Eq]. apply Eq in Hasset as ->. clear Eq.
  rewrite sameAsset_refl, Hev, F1, F2. cbn [is_str negb orb]. rewrite String.eqb_refl. cbn [negb orb].
  destruct b.
  - destruct (Hband eq_refl) as [Eb Er']. rewrite !bool_decide_true by (done || by apply Hcls). cbn [negb orb].
    rewrite (proj2 (latch_timestamp_ok _ _ _ _) (conj eq_refl Hin)). cbn [rbind].
    destruct (fingerprint _ _ _) as [fp|e] eqn:Hfp; cbn [rbind].
    + split_and!; [done.. | by apply Hb].
    + by rewrite (fingerprint_err _ _ _ _ Hfp).
  - rewrite bool_decide_false by (by rewrite Hcls). cbn [negb orb].
    intros source o m He. destruct (Z.ltb_spec 98000000 m); [done|].
    assert (false = true) as [=]. apply Hb. eauto.
Qed.

(** ** Lemmas: clears *)

Lemma is_str_eq v s : is_str v s = true <-> v = VStr s.
Proof. destruct v; cbn; try done. rewrite String.eqb_eq. split; congruence. Qed.

Lemma parse_pattern_ok pattern v code s :
  parse_pattern pattern v code = Ok s <-> v = VStr s /\ pattern s = true.
Proof.
  unfold parse_pattern. split.
  - destruct v; try done. destruct (pattern s0) eqn:E; [by intros [= ->] | done].
  - by intros [-> ->].
Qed.

(** Guards that are a disjunction of refusals, as conjunctions of facts. *)
Ltac guards :=
  repeat match goal with
  | H : orb _ _ = false |- _ => apply orb_false_iff in H as [? ?]
  | H : negb _ = false |- _ => apply negb_false_iff in H
  | H : String.eqb _ _ = true |- _ => apply String.eqb_eq in H
  | H : String.eqb _ _ = false |- _ => apply String.eqb_neq in H
  | H : bool_decide _ = true |- _ => apply bool_decide_eq_true in H
  | H : sameAsset _ _ = true |- _ => apply sameAsset_eq in H
  | H : is_str _ _ = true |- _ => apply is_str_eq in H
  end; bsimpl.

Lemma recovery_evidence_sound registry sha256 v e :
  registry_wf registry -> validateRecoveryEvidence registry sha256 v = Ok e ->
  exists request latch latchedAt clear clearedAt,
    parseRecoveryRequest registry v = Ok request /\
    cleared_by request latch latchedAt clear clearedAt /\
    vr_asset e = rr_asset request /\ vr_evaluatedAt e = rr_evaluatedAt request /\
    vr_latchId e = dl_latchId latch /\ vr_latchedAt e = dl_latchedAt latch /\
    vr_clearId e = mc_clearId clear /\ vr_clearedAt e = mc_clearedAt clear /\
    isMainnetLaunchNetwork (ref_networkId (vr_asset e)) = true.
Proof.
  intros Hreg H. unfold validateRecoveryEvidence in H.
  apply rbind_ok in H as (r & Er & H). apply rbind_ok in H as (a & Ha & H).
  unfold evaluateStablecoinRecovery in H. rewrite (parseRecoveryRequest_record _ _ _ Er) in H.
  destruct (parseRecoveryRequest registry v) as [request|] eqn:Hp; [|done].
  destruct (classify_recovery_subject request) as (E1 & E2 & E3 & E4). rewrite E1, E2 in H.
  destruct (rec_depegLatch (classify_recovery request)) as [latch|]; [|done].
  destruct (rec_acceptedManualRiskClear (classify_recovery request)) as [clear|]; [|done].
  specialize (E3 latch eq_refl). specialize (E4 clear eq_refl). inv_ok. guards.
  match goal with H : rec_status _ = _ |- _ => apply (classify_recovery_cleared registry) in H as
    (latch' & latchedAt & clear' & clearedAt & Hc); [|by apply parseRecoveryRequest_wf in Hp as [? _]] end.
  destruct (latch_asset_spec _ _ _ Hreg Ha) as [Hl _].
  assert (latch' = latch /\ clear' = clear) as [-> ->].
  { destruct Hc as (? & ? & El & Ec & _). rewrite El in E3. rewrite Ec in E4. cbn in E3, E4. split; congruence. }
  exists request, latch, latchedAt, clear, clearedAt.
  repeat match goal with
  | H : parseDigest _ _ = Ok _ |- _ => apply parse_pattern_ok in H as [[= ->] _]
  | H : latch_parseTimestamp _ _ = Ok ?p |- _ => destruct p as [? ?]; apply latch_timestamp_ok in H as [[= ->] _]
  end.
  subst e. cbn [vr_asset vr_evaluatedAt vr_latchId vr_latchedAt vr_clearId vr_clearedAt fst snd].
  by split_and!.
Qed.

(** ** Lemmas: authorizations *)

Lemma latch_asset_js registry v a :
  registry_wf registry -> normalizeStablecoinDepegLatchAsset registry v = Ok a ->
  normalizeStablecoinDepegLatchAsset registry (asset_js a) = Ok a.
Proof.
  intros Hreg H. unfold normalizeStablecoinDepegLatchAsset at 1, ownDataRecord in H. inv_ok.
  destruct (r .: "registryFingerprintSha256") as [| | | | |fp| | | | | |] eqn:Ef; try done.
  destruct (r .: "stablecoin") as [| | | | |stablecoin| | | | | |] eqn:Es; try done.
  destruct (r .: "networkId") as [| | | | |networkId| | | | | |] eqn:En; try done.
  destruct (r .: "identity") as [| | | | |identity| | | | | |] eqn:Ei; try done.
  inv_ok. guards. destruct (Hreg _ Hr1) as (Hw & Hm & Hlatest).
  apply (identifyAsset_iff _ _ _ _ Hw Hm) in Hr2 as Hid. destruct Hid as (_ & Enet & _).
  subst a. unfold normalizeStablecoinDepegLatchAsset, ownDataRecord, ASSET_KEYS, asset_js. read_record.
  cbn [ref_registryEnvironment ref_registryVersion ref_registryFingerprintSha256 ref_stablecoin
       ref_networkId ref_identity ref_decimals is_str is_int enum_str ASSET_REGISTRY_ENVIRONMENTS].
  rewrite Hlatest, Enet, !String.eqb_refl. cbn [negb orb Z.eqb Pos.eqb].
  match goal with H : isMainnetLaunchNetwork _ = true |- _ => rewrite H end. cbn [negb].
  match goal with H : asset_decimals _ = _ |- _ => rewrite H end.
  assert (safe_integer (VNum (JInt r0)) = Some r0) as ->.
  { revert Hr0. unfold safe_integer. destruct (r .: "decimals") as [| | |[z| |]| | | | | | | |]; try done.
    destruct (Z.abs z <=? MAX_SAFE_INTEGER) eqn:E; [|done]. intros [= <-]. by rewrite E. }
  cbn [or_throw rbind]. rewrite Hr1. cbn [or_throw rbind].
  match goal with H : asset_identity _ = _ |- _ => rewrite H end. rewrite Hr2. cbn [or_throw rbind].
  rewrite Hr3. cbn [or_throw rbind].
  match goal with H : asset_identity _ = _ |- _ => rewrite H end.
  match goal with H : asset_decimals _ = _ |- _ => rewrite H end.
  rewrite !bool_decide_true, !String.eqb_refl, Z.eqb_refl by done. cbn [negb orb]. by rewrite Enet.
Qed.

(** What an accepted authorization's material satisfies. *)
Record material_wf (registry : VersionedSupportedAssetRegistry) (m : AuthorizationMaterial) : Prop := {
  mw_asset : normalizeStablecoinDepegLatchAsset registry (asset_js (am_asset m)) = Ok (am_asset m);
  mw_digests : HEX64_PATTERN (am_expectedLatchId m) = true /\ HEX64_PATTERN (am_clearId m) = true /\
               HEX64_PATTERN (am_recoveryEvidenceFingerprintSha256 m) = true;
  mw_revision : 1 <= am_expectedRevision m < MAX_SAFE_INTEGER;
  mw_references : REFERENCE (am_evidenceActorReferenceId m) = true /\
                  REFERENCE (am_riskApproverReferenceId m) = true;
  mw_four_eyes : am_evidenceActorReferenceId m <> am_riskApproverReferenceId m;
  mw_ids : am_expectedLatchId m <> am_clearId m;
  mw_window : exists ti tn te, instant (am_issuedAt m) ti /\ instant (am_notBefore m) tn /\
    instant (am_expiresAt m) te /\ ti <= tn < te /\ te - ti <= 900000;
  mw_nonce : UUID_V4_PATTERN (am_nonce m) = true;
}.

Lemma revision_ok v code n :
  parseRevision v false code = Ok (Some n) <-> safe_integer v = Some n /\ 1 <= n < MAX_SAFE_INTEGER.
Proof.
  unfold parseRevision. cbn [andb]. split.
  - intros H. inv_ok. subst. bsimpl. split; [done | lia].
  - intros [-> Hn]. cbn [or_throw rbind]. rewrite (proj2 (Z.ltb_ge _ _)), (proj2 (Z.leb_gt _ _)) by lia. done.
Qed.

Lemma material_sound registry v m :
  registry_wf registry -> normalizeAuthorizationMaterial registry v = Ok m -> material_wf registry m.
Proof.
  intros Hreg H. unfold normalizeAuthorizationMaterial, ownDataRecord in H. inv_ok. guards.
  repeat match goal with
  | H : parse_pattern _ _ _ = Ok _ |- _ => apply parse_pattern_ok in H as [_ ?]
  | H : parseDigest _ _ = Ok _ |- _ => apply parse_pattern_ok in H as [_ ?]
  | H : parseReference _ _ = Ok _ |- _ => apply parse_pattern_ok in H as [_ ?]
  | H : parseUuid _ _ = Ok _ |- _ => apply parse_pattern_ok in H as [_ ?]
  | H : latch_parseTimestamp _ _ = Ok ?p |- _ => destruct p as [? ?]; apply latch_timestamp_ok in H as [_ ?]
  end. cbn [fst snd] in *.
  match goal with H : ?x = Some ?n, H' : parseRevision _ _ _ = Ok ?x |- _ =>
    rewrite H in H'; apply revision_ok in H' as [_ ?] end.
  subst m. constructor; cbn [am_asset am_expectedLatchId am_expectedRevision am_clearId
    am_recoveryEvidenceFingerprintSha256 am_evidenceActorReferenceId am_riskApproverReferenceId
    am_issuedAt am_notBefore am_expiresAt am_nonce]; try done.
  - by eapply latch_asset_js.
  - unfold STABLECOIN_DEPEG_RECOVERY_AUTHORIZATION_MAXIMUM_AGE_MILLISECONDS in *.
    do 3 eexists. split_and!; try done; lia.
Qed.

Lemma parse_pattern_str (pattern : string -> bool) s code :
  pattern s = true -> parse_pattern pattern (VStr s) code = Ok s.
Proof. intros H. by apply parse_pattern_ok. Qed.

Lemma latch_timestamp_str s t code : instant s t -> latch_parseTimestamp (VStr s) code = Ok (s, t).
Proof. intros H. by apply latch_timestamp_ok. Qed.

Lemma revision_int n code : 1 <= n < MAX_SAFE_INTEGER -> parseRevision (VNum (JInt n)) false code = Ok (Some n).
Proof.
  intros H. apply revision_ok. split; [|done]. unfold safe_integer.
  by rewrite (proj2 (Z.leb_le _ _)) by lia.
Qed.

(** The authorization's own object is read back as itself. *)
Lemma material_reread registry m :
  material_wf registry m -> normalizeAuthorizationMaterial registry (material_js m) = Ok m.
Proof.
  intros [Ha (D1 & D2 & D3) Hr [R1 R2] Hfe Hids (ti & tn & te & I1 & I2 & I3 & Ho & Hage) Hn].
  unfold normalizeAuthorizationMaterial, ownDataRecord, AUTHORIZATION_MATERIAL_KEYS, material_js. read_record.
  cbn [is_int is_str Z.eqb Pos.eqb String.eqb Ascii.eqb Bool.eqb negb orb].
  rewrite Ha. cbn [rbind]. unfold parseDigest, parseReference, parseUuid.
  rewrite (parse_pattern_str _ _ _ D1). cbn [rbind]. rewrite (revision_int _ _ Hr). cbn [rbind or_throw].
  rewrite (parse_pattern_str _ _ _ D2). cbn [rbind]. rewrite (parse_pattern_str _ _ _ D3). cbn [rbind].
  rewrite (parse_pattern_str _ _ _ R1). cbn [rbind]. rewrite (parse_pattern_str _ _ _ R2). cbn [rbind].
  rewrite (proj2 (String.eqb_neq _ _) Hfe), (proj2 (String.eqb_neq _ _) Hids). cbn [orb].
  rewrite (latch_timestamp_str _ _ _ I1). cbn [rbind]. rewrite (latch_timestamp_str _ _ _ I2). cbn [rbind].
  rewrite (latch_timestamp_str _ _ _ I3). cbn [rbind fst snd].
  unfold STABLECOIN_DEPEG_RECOVERY_AUTHORIZATION_MAXIMUM_AGE_MILLISECONDS.
  rewrite (proj2 (Z.ltb_ge _ _)), (proj2 (Z.leb_gt _ _)), (proj2 (Z.ltb_ge _ _)) by lia. cbn [orb].
  rewrite (parse_pattern_str _ _ _ Hn). cbn [rbind]. by destruct m.
Qed.

Lemma authorization_sound registry sha256 v a :
  registry_wf registry -> normalizeAuthorization registry sha256 v = Ok a ->
  material_wf registry (auth_material a) /\ auth_id a = AUTHORIZATION_ID_PREFIX +:+ auth_fingerprintSha256 a /\
  fingerprint sha256 RECOVERY_AUTHORIZATION_FINGERPRINT_DOMAIN
    (js_array (authorization_values (auth_material a))) = Ok (auth_fingerprintSha256 a).
Proof.
  intros Hreg H. unfold normalizeAuthorization in H. inv_ok. guards.
  apply material_sound in Hr0; [|done].
  unfold fingerprintStablecoinDepegRecoveryAuthorization in Hr2. apply rbind_ok in Hr2 as (m & Hm & Hfp).
  rewrite material_reread in Hm by exact Hr0. injection Hm as <-. subst. cbn [auth_material auth_id auth_fingerprintSha256].
  split; [exact Hr0|]. split; [reflexivity | exact Hfp].
Qed.

(** The authorization material a clear command was made of. *)
Definition command_material (cmd : NormalizedClearStablecoinDepegLatchCommand) : AuthorizationMaterial :=
  {| am_asset := cc_asset cmd; am_expectedLatchId := cc_latchId cmd;
     am_expectedRevision := cc_expectedRevision cmd; am_clearId := cc_clearId cmd;
     am_recoveryEvidenceFingerprintSha256 := cc_recoveryEvidenceFingerprintSha256 cmd;
     am_evidenceActorReferenceId := cc_evidenceActorReferenceId cmd;
     am_riskApproverReferenceId := cc_riskApproverReferenceId cmd;
     am_issuedAt := cc_authorizationIssuedAt cmd; am_notBefore := cc_authorizationNotBefore cmd;
     am_expiresAt := cc_authorizationExpiresAt cmd; am_nonce := cc_authorizationNonce cmd |}.

(** What holds of every accepted clear command. *)
Record clear_command_wf (registry : VersionedSupportedAssetRegistry) (sha256 : string -> string)
    (cmd : NormalizedClearStablecoinDepegLatchCommand) : Prop := {
  (** The classifier judges the evidence cleared, for this latch and clear. *)
  cw_evidence : exists recoveryRequest request latch latchedAt clear clearedAt,
    parseRecoveryRequest registry recoveryRequest = Ok request /\
    cleared_by request latch latchedAt clear clearedAt /\
    cc_asset cmd = rr_asset request /\ cc_evaluatedAt cmd = rr_evaluatedAt request /\
    cc_latchId cmd = dl_latchId latch /\ cc_latchedAt cmd = dl_latchedAt latch /\
    cc_clearId cmd = mc_clearId clear /\ cc_clearedAt cmd = mc_clearedAt clear;
  (** A second person approved it, when the risk was cleared. *)
  cw_four_eyes : cc_evidenceActorReferenceId cmd <> cc_riskApproverReferenceId cmd;
  cw_ids : cc_clearId cmd <> cc_latchId cmd;
  cw_issued : cc_clearedAt cmd = cc_authorizationIssuedAt cmd;
  (** The evaluation falls inside a window of at most fifteen minutes. *)
  cw_window : exists ti tn te t,
    instant (cc_authorizationIssuedAt cmd) ti /\ instant (cc_authorizationNotBefore cmd) tn /\
    instant (cc_authorizationExpiresAt cmd) te /\ instant (cc_evaluatedAt cmd) t /\
    ti <= tn <= t /\ t < te /\ te - ti <= 900000;
  (** The authorization's id is its fingerprint, over exactly these values. *)
  cw_material : material_wf registry (command_material cmd);
  cw_id : cc_authorizationId cmd = AUTHORIZATION_ID_PREFIX +:+ cc_authorizationFingerprintSha256 cmd;
  cw_fingerprint :
    fingerprint sha256 RECOVERY_AUTHORIZATION_FINGERPRINT_DOMAIN
      (js_array (authorization_values (command_material cmd))) = Ok (cc_authorizationFingerprintSha256 cmd);
}.

Lemma instant_inj s t t' : instant s t -> instant s t' -> t = t'.
Proof.
  intros (_ & Hf & E) (_ & Hf' & E').
  pose proof (proj2 (canonical_timestamp_spec s t) (conj Hf E)) as H.
  rewrite (proj2 (canonical_timestamp_spec s t') (conj Hf' E')) in H. congruence.
Qed.

(** C23: an accepted clear command carries recovery evidence the classifier
    judges cleared, for the same asset, latch, clear and instant as its
    authorization; the authorization is of another person than the one who gave
    the evidence, was issued when the risk was cleared, is at most fifteen
    minutes long and the evaluation falls inside its window; its id is its
    fingerprint, computed over exactly these values. *)
Theorem clear_authorized registry registry_sha256 sha256 v cmd :
  MAINNET_SUPPORTED_ASSET_REGISTRY registry_sha256 = Ok registry ->
  normalizeClearStablecoinDepegLatchCommand registry sha256 v = Ok cmd ->
  clear_command_wf registry sha256 cmd.
Proof.
  intros Hreg%shipped_registry_wf H. unfold normalizeClearStablecoinDepegLatchCommand, ownDataRecord in H.
  inv_ok. guards.
  match goal with H : validateRecoveryEvidence _ _ _ = Ok _ |- _ =>
    apply recovery_evidence_sound in H as (request & latch & latchedAt & clear & clearedAt & Hp & Hc & E1 & E2 & E3 & E4 & E5 & E6 & _);
    [|exact Hreg] end.
  match goal with H : normalizeAuthorization _ _ _ = Ok ?a |- _ =>
    apply authorization_sound in H as (Hm & Hid & Hfp); [|exact Hreg]; rename a into auth end.
  pose proof (mw_window _ _ Hm) as (ti & tn & te & I1 & I2 & I3 & Ho & Hage).
  repeat match goal with
  | H : latch_parseTimestamp _ _ = Ok ?p |- _ => destruct p as [? ?]; apply latch_timestamp_ok in H as [? ?]
  end. cbn [fst snd] in *. simplify_eq.
  repeat match goal with
  | H : instant ?s ?t, H' : instant ?s ?t' |- _ =>
      first [constr_eq t t'; clear H' | pose proof (instant_inj _ _ _ H H'); subst t']
  end.
  match goal with |- clear_command_wf _ _ ?c => assert (command_material c = auth_material auth) as Em end.
  { unfold command_material. cbn. destruct (auth_material auth). cbn in *. by subst. }
  constructor; cbn [cc_asset cc_evaluatedAt cc_correlationId cc_clearId cc_latchId cc_latchedAt
    cc_expectedRevision cc_recoveryEvidenceFingerprintSha256 cc_evidenceActorReferenceId
    cc_riskApproverReferenceId cc_clearedAt cc_authorizationIssuedAt cc_authorizationNotBefore
    cc_authorizationExpiresAt cc_authorizationNonce cc_authorizationFingerprintSha256 cc_authorizationId];
    rewrite ?Em; try assumption.
  - exists (r .: "recoveryRequest"), request, latch, latchedAt, clear, clearedAt. by split_and!.
  - apply (mw_four_eyes _ _ Hm).
  - intros E. apply (mw_ids _ _ Hm). congruence.
  - do 4 eexists. split_and!; [eassumption.. | lia | lia | lia | lia].
Qed.

(** ** Lemmas: what the command fingerprints are over *)

Inductive depeg_command : Type :=
| RecordCommand (c : NormalizedRecordStablecoinDepegLatchCommand)
| ClearCommand (c : NormalizedClearStablecoinDepegLatchCommand).

Definition command_domain (c : depeg_command) : string :=
  match c with
  | RecordCommand _ => LATCH_COMMAND_FINGERPRINT_DOMAIN
  | ClearCommand _ => CLEAR_COMMAND_FINGERPRINT_DOMAIN
  end.

Definition command_fingerprint (c : depeg_command) : string :=
  match c with
  | RecordCommand c => rc_commandFingerprintSha256 c
  | ClearCommand c => cc_commandFingerprintSha256 c
  end.

Definition revision_json (revision : option Z) : json :=
  match revision with
  | None => JNull
  | Some n => JNumber n
  end.

(** The canonical tree of a command. *)
Definition command_json (c : depeg_command) : json :=
  match c with
  | RecordCommand c => JArray
      [JNumber 1; asset_json (rc_asset c); revision_json (rc_expectedRevision c);
       JString (rc_correlationId c); JString (rc_latchId c); JString (rc_latchedAt c);
       JString (rc_evidenceActorReferenceId c); JString (rc_depegEvidenceFingerprintSha256 c)]
  | ClearCommand c => JArray
      [JNumber 1; asset_json (cc_asset c); JString (cc_evaluatedAt c); JString (cc_correlationId c);
       JString (cc_clearId c); JString (cc_latchId c); JString (cc_latchedAt c);
       JNumber (cc_expectedRevision c); JString (cc_recoveryEvidenceFingerprintSha256 c);
       JString (cc_evidenceActorReferenceId c); JString (cc_riskApproverReferenceId c);
       JString "RISK_APPROVER"; JString (cc_clearedAt c); JString (cc_authorizationIssuedAt c);
       JString (cc_authorizationNotBefore c); JString (cc_authorizationExpiresAt c);
       JString (cc_authorizationNonce c); JString (cc_authorizationFingerprintSha256 c);
       JString (cc_authorizationId c)]
  end.

(** What the command's fingerprint hashes. *)
Definition command_message (c : depeg_command) : string :=
  fingerprint_message (command_domain c) (stringify (command_json c)).

Definition event_values (c : depeg_command) : list jsval :=
  match c with
  | RecordCommand c =>
      [VStr (rc_commandFingerprintSha256 c);
       VNum (JInt match rc_expectedRevision c with None => 1 | Some n => n + 1 end); VStr "LATCHED"]
  | ClearCommand c =>
      [VStr (cc_commandFingerprintSha256 c); VNum (JInt (cc_expectedRevision c + 1)); VStr "CLEARED"]
  end.

Definition event_domain (c : depeg_command) : string :=
  match c with
  | RecordCommand _ => LATCH_EVENT_FINGERPRINT_DOMAIN
  | ClearCommand _ => CLEAR_EVENT_FINGERPRINT_DOMAIN
  end.

Definition event_fingerprint (c : depeg_command) : string :=
  match c with
  | RecordCommand c => rc_eventFingerprintSha256 c
  | ClearCommand c => cc_eventFingerprintSha256 c
  end.

(** The command was accepted from [v]. *)
Definition normalizes (registry : VersionedSupportedAssetRegistry) (sha256 : string -> string)
    (v : jsval) (c : depeg_command) : Prop :=
  match c with
  | RecordCommand c => normalizeRecordStablecoinDepegLatchCommand registry sha256 v = Ok c
  | ClearCommand c => normalizeClearStablecoinDepegLatchCommand registry sha256 v = Ok c
  end.

Lemma fingerprint_ok sha256 domain v h :
  fingerprint sha256 domain v = Ok h ->
  exists j n, encode 13 v 512 = Ok (j, n) /\ json_wf j /\ h = sha256 (fingerprint_message domain (stringify j)).
Proof.
  unfold fingerprint, canonicalJson, canonical_value. intros (text & H & E)%rbind_ok.
  injection E as <-. destruct (encode 13 v 512) as [[j n]|] eqn:He; [|done].
  cbn in H. injection H as <-. exists j, n. split_and!; [done | by eapply encode_wf | done].
Qed.

Lemma encode_revision levels r n j n' : encode levels (revision_js r) n = Ok (j, n') -> j = revision_json r.
Proof. destruct r as [z|]; [by intros [-> _]%encode_int | by intros ->%encode_null]. Qed.

Lemma command_message_eq c :
  command_message c = fingerprint_message (command_domain c) (stringify (command_json c)).
Proof. reflexivity. Qed.

(** The tree of an array of the values the commands hold. *)
Ltac array_tree H :=
  let l := fresh "l" in let js := fresh "js" in let F := fresh "F" in
  apply encode_array_js in H as (l & js & -> & F); encode_inv;
  repeat match goal with
  | H : encode _ (asset_js _) _ = Ok _ |- _ => apply encode_asset in H
  | H : encode _ (revision_js _) _ = Ok _ |- _ => apply encode_revision in H
  end; subst.

Lemma command_fingerprint_message registry sha256 v c :
  normalizes registry sha256 v c ->
  command_fingerprint c = sha256 (command_message c) /\ json_wf (command_json c) /\
  fingerprint sha256 (event_domain c) (js_array (event_values c)) = Ok (event_fingerprint c).
Proof.
  destruct c as [c|c]; cbn [normalizes command_fingerprint event_domain event_values event_fingerprint]; intros H.
  - unfold normalizeRecordStablecoinDepegLatchCommand in H. inv_ok.
    apply fingerprint_ok in Hr6 as (j & n & He & Hw & Ej). array_tree He.
    cbn [rc_asset rc_expectedRevision rc_correlationId rc_latchId rc_latchedAt rc_evidenceActorReferenceId
      rc_depegEvidenceFingerprintSha256 rc_commandFingerprintSha256 rc_eventFingerprintSha256
      command_domain command_json].
    rewrite command_message_eq. split; [reflexivity|]. split; [exact Hw | exact Hr7].
  - unfold normalizeClearStablecoinDepegLatchCommand in H. inv_ok.
    apply fingerprint_ok in Hr7 as (j & n & He & Hw & Ej). array_tree He.
    cbn [cc_asset cc_evaluatedAt cc_correlationId cc_clearId cc_latchId cc_latchedAt
      cc_expectedRevision cc_recoveryEvidenceFingerprintSha256 cc_evidenceActorReferenceId
      cc_riskApproverReferenceId cc_clearedAt cc_authorizationIssuedAt cc_authorizationNotBefore
      cc_authorizationExpiresAt cc_authorizationNonce cc_authorizationFingerprintSha256 cc_authorizationId
      cc_commandFingerprintSha256 cc_eventFingerprintSha256 command_domain command_json].
    rewrite command_message_eq. split; [reflexivity|]. split; [exact Hw | exact Hr8].
Qed.

Lemma revision_json_inj r r' : revision_json r = revision_json r' -> r = r'.
Proof. destruct r, r'; cbn; congruence. Qed.

(** The item of an array's tree. *)
Definition json_item (i : nat) (j : json) : json :=
  match j with
  | JArray l => nth i l JNull
  | _ => JNull
  end.

(** A command is determined by its tree and its two fingerprints. *)
Lemma command_json_inj a b :
  command_domain a = command_domain b -> command_json a = command_json b ->
  command_fingerprint a = command_fingerprint b -> event_fingerprint a = event_fingerprint b -> a = b.
Proof.
  destruct a as [a|a], b as [b|b]; intros Hd Hj Hc He; try (by discriminate Hd);
    pose proof (f_equal (json_item 1) Hj) as HA; cbn [command_json json_item nth] in HA;
    apply asset_json_inj in HA; cbn [command_fingerprint event_fingerprint] in Hc, He.
  - pose proof (f_equal (json_item 2) Hj) as HR. cbn [command_json json_item nth] in HR.
    apply revision_json_inj in HR. f_equal. cbn [command_json] in Hj. clear Hd.
    destruct a, b. cbn in *. subst. by injection Hj as -> -> -> -> ->.
  - f_equal. cbn [command_json] in Hj. clear Hd. destruct a, b. cbn in *. subst.
    by injection Hj as -> -> -> -> -> -> -> -> -> -> -> -> -> -> -> ->.
Qed.

Lemma command_json_events a b :
  command_domain a = command_domain b -> command_json a = command_json b ->
  command_fingerprint a = command_fingerprint b ->
  event_domain a = event_domain b /\ event_values a = event_values b.
Proof.
  destruct a as [a|a], b as [b|b]; intros Hd Hj Hc; try (by discriminate Hd);
    cbn [command_fingerprint event_domain event_values] in *; (split; [done|]); rewrite Hc.
  - pose proof (f_equal (json_item 2) Hj) as HR. cbn [command_json json_item nth] in HR.
    by apply revision_json_inj in HR as ->.
  - pose proof (f_equal (json_item 7) Hj) as HR. cbn [command_json json_item nth] in HR.
    by injection HR as ->.
Qed.

Lemma command_domain_line c : no_newline (command_domain c) = true.
Proof. by destruct c. Qed.

(** The command fingerprint identifies the command: two accepted record or
    clear commands whose fingerprints are equal, under a hash that tells their
    two messages apart, are the same command; in particular a record command
    never shares a fingerprint with a clear command. *)
Theorem depeg_commands_bind registry sha256 v v' a b :
  normalizes registry sha256 v a -> normalizes registry sha256 v' b ->
  collision_free sha256 [command_message a; command_message b] ->
  command_fingerprint a = command_fingerprint b -> a = b.
Proof.
  intros (Ea & Wa & Va)%command_fingerprint_message (Eb & Wb & Vb)%command_fingerprint_message Hcf E.
  assert (command_message a = command_message b) as Hm.
  { apply Hcf; [left | right; left | congruence]. }
  rewrite !command_message_eq in Hm.
  apply fingerprint_message_inj in Hm as [Hd Hj]; [|apply command_domain_line..].
  apply stringify_inj in Hj; [|done..].
  destruct (command_json_events a b Hd Hj E) as [Hed Hev].
  rewrite Hed, Hev, Vb in Va. injection Va as Hef. by apply command_json_inj.
Qed.

(** ** Examples and witnesses *)

(** A digest that always gives the same value. *)
Definition sha256_example (message : string) : string := hex64_example "7".

Definition uuid_example (digit : string) : string := "00000000-0000-4000-8000-00000000000" +:+ digit.

(** USDT at 0.979 dollars at both sources. *)
Definition record_command_example : jsval := js_object
  [("expectedRevision", VNull); ("correlationId", VStr (uuid_example "1"));
   ("latchId", VStr (hex64_example "1")); ("evidenceActorReferenceId", VStr "desk:evidence");
   ("depegEvidenceFingerprintSha256", VStr (hex64_example "7"));
   ("valuationRequest", valuation_example "97900000" "97900000")].

Definition authorization_example (approver : string) : jsval := js_object
  [("schemaVersion", VNum (JInt 1)); ("authorizationType", VStr "STABLECOIN_DEPEG_LATCH_RECOVERY");
   ("scope", VStr "DEPEG_LATCH_CLEAR_ONLY"); ("mayAuthorizeFinancialAction", VBool false);
   ("operation", VStr "CLEAR_STABLECOIN_DEPEG_LATCH"); ("asset", asset_js usdt_example);
   ("expectedLatchId", VStr (hex64_example "1")); ("expectedRevision", VNum (JInt 1));
   ("clearId", VStr (hex64_example "3"));
   ("recoveryEvidenceFingerprintSha256", VStr (hex64_example "7"));
   ("evidenceActorReferenceId", VStr "desk:evidence");
   ("riskApproverReferenceId", VStr approver);
   ("riskApproverRole", VStr "RISK_APPROVER"); ("issuedAt", VStr "2026-01-01T00:50:00.000Z");
   ("notBefore", VStr "2026-01-01T00:50:00.000Z"); ("expiresAt", VStr "2026-01-01T01:05:00.000Z");
   ("nonce", VStr (uuid_example "3")); ("authorizationFingerprintSha256", VStr (hex64_example "7"));
   ("authorizationId", VStr (AUTHORIZATION_ID_PREFIX +:+ hex64_example "7"))].

Definition clear_command_example (approver : string) : jsval := js_object
  [("evaluatedAt", VStr "2026-01-01T01:00:00.000Z"); ("correlationId", VStr (uuid_example "2"));
   ("recoveryRequest", recovery_example "1"); ("authorization", authorization_example approver)].

Example record_command_accepted :
  is_ok (normalizeRecordStablecoinDepegLatchCommand mainnet_registry_example sha256_example record_command_example) = true.
Proof. vm_compute. reflexivity. Qed.

(** The evidence actor cannot approve the clear himself. *)
Example clear_command_cases :
  is_ok (normalizeClearStablecoinDepegLatchCommand mainnet_registry_example sha256_example
           (clear_command_example "desk:risk")) = true /\
  normalizeClearStablecoinDepegLatchCommand mainnet_registry_example sha256_example
    (clear_command_example "desk:evidence") = Err INVALID_DEPEG_RECOVERY_AUTHORIZATION.
Proof. split; vm_compute; reflexivity. Qed.

Lemma mainnet_registry_example_shipped :
  MAINNET_SUPPORTED_ASSET_REGISTRY
    (fun _ => "5058b141479f114c1e5f87ed8798fbb7a7ffcce7b502aa7e0794dc53ca1f767d") = Ok mainnet_registry_example.
Proof. vm_compute. reflexivity. Qed.

Lemma depeg_evidence_sound_witness :
  exists request,
    parseRequest mainnet_registry_example (valuation_example "97900000" "97900000") = Ok request /\
    exists source o m, eligible request source o m /\ m <= 98000000.
Proof.
  assert (exists request, parseRequest mainnet_registry_example (valuation_example "97900000" "97900000") = Ok request)
    as [request Hp] by (eexists; vm_compute; reflexivity).
  assert (exists e, validateDepegEvidence mainnet_registry_example sha256_example
    (valuation_example "97900000" "97900000") "desk:evidence" = Ok e) as [e He] by (eexists; vm_compute; reflexivity).
  exists request. split; [exact Hp|].
  pose proof (depeg_evidence_sound mainnet_registry_example _ sha256_example _ "desk:evidence" request
    mainnet_registry_example_shipped Hp) as H.
  rewrite He in H. apply H.
Defined.

Lemma clear_authorized_witness :
  exists cmd,
    normalizeClearStablecoinDepegLatchCommand mainnet_registry_example sha256_example
      (clear_command_example "desk:risk") = Ok cmd /\
    clear_command_wf mainnet_registry_example sha256_example cmd.
Proof.
  assert (exists cmd, normalizeClearStablecoinDepegLatchCommand mainnet_registry_example sha256_example
    (clear_command_example "desk:risk") = Ok cmd) as [cmd H] by (eexists; vm_compute; reflexivity).
  exists cmd. split; [exact H|].
  apply (clear_authorized mainnet_registry_example _ sha256_example (clear_command_example "desk:risk") cmd
    mainnet_registry_example_shipped H).
Defined.

Lemma depeg_commands_bind_witness :
  exists a b,
    normalizes mainnet_registry_example sha256_example record_command_example (RecordCommand a) /\
    normalizes mainnet_registry_example sha256_example record_command_example (RecordCommand b) /\
    RecordCommand a = RecordCommand b.
Proof.
  assert (exists a, normalizeRecordStablecoinDepegLatchCommand mainnet_registry_example sha256_example
    record_command_example = Ok a) as [a H] by (eexists; vm_compute; reflexivity).
  exists a, a. split_and!; [exact H | exact H|].
  apply (depeg_commands_bind mainnet_registry_example sha256_example record_command_example
    record_command_example (RecordCommand a) (RecordCommand a) H H); [|reflexivity].
  intros m m' [->|[->|[]%not_elem_of_nil]%elem_of_cons]%elem_of_cons
    [->|[->|[]%not_elem_of_nil]%elem_of_cons]%elem_of_cons _; exact eq_refl.
Defined.
