(* ===== verification/DepegLatchDatabase.v ===== *)
(** * The depeg latch tables
    (apps/api/src/infrastructure/database/migrations/
    0019-create-stablecoin-depeg-latches.migration.ts)

    The PL/pgSQL functions that record and clear latches, the append-only event
    table, the projection table with its transition trigger, and their
    constraints.  A function is one atomic step: it runs in one statement under
    advisory locks on its ids and its asset, so concurrent calls are ordered.
    An exception rolls everything back: the state is unchanged.  Instants are
    milliseconds ([recorded_at] is truncated to them and the arguments are
    millisecond texts); the two readings of [clock_timestamp()] are arguments.
    Arguments are never NULL except the expected revision, since the adapter's
    commands have no other optional field. *)

From stdpp Require Import base list strings sets relations.
From Stdlib Require Import ZArith Lia.
From S2P Require Import Prelude Text JsValue JsDate JsCollections AssetRegistry Valuation ValuationRecovery DepegLatch.

Open Scope Z_scope.

(** ** Data *)

Inductive latch_status : Type := LATCHED | CLEARED.

#[export] Instance latch_status_eq_dec : EqDecision latch_status.
Proof. solve_decision. Defined.

#[export] Instance asset_reference_eq_dec : EqDecision StablecoinValuationAssetReference.
Proof. solve_decision. Defined.

(** The columns that only a CLEARED event has; the shape constraint makes them
    all NULL or all set, and the approver's role the constant one. *)
Record clear_columns : Type := {
  cl_recoveryEvidenceFingerprint : string;
  cl_riskApproverReferenceId : string;
  cl_authorizationId : string;
  cl_authorizationNonce : string;
  cl_authorizationFingerprint : string;
  cl_issuedAt : Z;
  cl_notBefore : Z;
  cl_expiresAt : Z;
}.

(** A row of [stablecoin_depeg_latch_events]. *)
Record latch_event : Type := {
  ev_eventId : string;
  ev_correlationId : string;
  ev_type : latch_status;
  ev_asset : StablecoinValuationAssetReference;
  ev_revision : Z;
  ev_latchId : string;
  ev_depegEvidenceFingerprint : string;
  ev_evidenceActorReferenceId : string;
  ev_clear : option clear_columns;
  ev_commandFingerprint : string;
  ev_eventFingerprint : string;
  ev_effectiveAt : Z;
  ev_evaluatedAt : Z;
  ev_recordedAt : Z;
}.

(** A row of [stablecoin_depeg_latch_projections]. *)
Record latch_projection : Type := {
  pj_asset : StablecoinValuationAssetReference;
  pj_revision : Z;
  pj_status : latch_status;
  pj_latchId : string;
  pj_latchedAt : Z;
  pj_depegEvidenceFingerprint : string;
  pj_evidenceActorReferenceId : string;
  pj_clearId : option string;
  pj_clearedAt : option Z;
  pj_riskApproverReferenceId : option string;
  pj_lastEventId : string;
  pj_lastEventFingerprint : string;
  pj_updatedAt : Z;
}.

(** Events in the order of their insertion; one projection per asset. *)
Record latch_db : Type := {
  db_events : list latch_event;
  db_projections : list (StablecoinValuationAssetReference * latch_projection);
}.

Definition empty_db : latch_db := {| db_events := []; db_projections := [] |}.

(** One constructor per exception. *)
Inductive sql_error : Type :=
| INVALID_LATCH_COMMAND | LATCH_IDEMPOTENCY_CONFLICT | LATCH_PROJECTION_MISSING
| RELATCH_PREDATES_CLEAR | INVALID_RECOVERY_COMMAND | RECOVERY_IDEMPOTENCY_CONFLICT
| RECOVERY_AUTHORIZATION_REPLAY | UNIQUE_VIOLATION | CHECK_VIOLATION | FOREIGN_KEY_VIOLATION
| PROJECTION_GUARD.
Notation sql := (result sql_error).

Inductive record_outcome : Type :=
| OUT_LATCHED | OUT_RELATCHED | OUT_IDEMPOTENT_REPLAY | OUT_ALREADY_LATCHED | OUT_REVISION_CONFLICT.

Inductive clear_outcome : Type :=
| CLR_CLEARED | CLR_IDEMPOTENT_REPLAY | CLR_LATCH_NOT_FOUND | CLR_LATCH_STATUS_MISMATCH
| CLR_REVISION_CONFLICT | CLR_LATCH_BINDING_MISMATCH | CLR_AUTHORIZATION_EXPIRED.

Record record_args : Type := {
  ra_expectedRevision : option Z;
  ra_correlationId : string;
  ra_latchId : string;
  ra_asset : StablecoinValuationAssetReference;
  ra_latchedAt : Z;
  ra_evidenceActorReferenceId : string;
  ra_depegEvidenceFingerprint : string;
  ra_commandFingerprint : string;
  ra_eventFingerprint : string;
}.

Record clear_args : Type := {
  ca_correlationId : string;
  ca_asset : StablecoinValuationAssetReference;
  ca_clearId : string;
  ca_latchedAt : Z;
  ca_expectedRevision : Z;
  ca_latchId : string;
  ca_recoveryEvidenceFingerprint : string;
  ca_evidenceActorReferenceId : string;
  ca_riskApproverReferenceId : string;
  ca_clearedAt : Z;
  ca_issuedAt : Z;
  ca_notBefore : Z;
  ca_expiresAt : Z;
  ca_evaluatedAt : Z;
  ca_nonce : string;
  ca_authorizationFingerprint : string;
  ca_authorizationId : string;
  ca_commandFingerprint : string;
  ca_eventFingerprint : string;
}.

(** ** Constraints *)

Definition REGISTRY_FINGERPRINT : string :=
  "5058b141479f114c1e5f87ed8798fbb7a7ffcce7b502aa7e0794dc53ca1f767d".

Definition assetBinding (a : StablecoinValuationAssetReference) : bool :=
  bool_decide (ref_registryEnvironment a = MAINNET) && (ref_registryVersion a =? 1)
  && String.eqb (ref_registryFingerprintSha256 a) REGISTRY_FINGERPRINT && (ref_decimals a =? 6)
  && bool_decide ((ref_stablecoin a, ref_networkId a, ref_identity a) ∈
       [(USDC, "eip155:1", "0xa0b86991c6218b36c1d19d4a2e9eb0ce3606eb48");
        (USDT, "eip155:1", "0xdac17f958d2ee523a2206206994597c13d831ec7");
        (PYUSD, "eip155:1", "0x6c3ea9036406852006290770bedfcaba0e23a0e8");
        (USDC, "solana:5eykt4UsFv8P8NJdTREpY1vzqKqZKvdp", "EPjFWdd5AufqSSqeM2qN1xzybapC8G4wEGGkZwyTDt1v");
        (USDT, "solana:5eykt4UsFv8P8NJdTREpY1vzqKqZKvdp", "Es9vMFrzaCERmJfrF4H2FYD4KCoNkY11McCe8BenwNYB");
        (PYUSD, "solana:5eykt4UsFv8P8NJdTREpY1vzqKqZKvdp", "2b1kV6DkPAnxd5ixfnxCpjxmKwqjjaYmCZfHsFu24GXo")]).

Definition SKEW_MS : Z := 30000.
Definition MAX_AUTHORIZATION_MS : Z := 900000.

(** The CHECK constraints of the event table. *)
Definition event_checks (e : latch_event) : bool :=
  (1 <=? ev_revision e) && assetBinding (ev_asset e)
  && HEX64_PATTERN (ev_eventId e) && HEX64_PATTERN (ev_latchId e)
  && HEX64_PATTERN (ev_depegEvidenceFingerprint e) && HEX64_PATTERN (ev_commandFingerprint e)
  && HEX64_PATTERN (ev_eventFingerprint e) && REFERENCE (ev_evidenceActorReferenceId e)
  && (ev_effectiveAt e <=? ev_evaluatedAt e) && (ev_evaluatedAt e <=? ev_recordedAt e + SKEW_MS)
  && match ev_type e, ev_clear e with
     | LATCHED, None =>
         String.eqb (ev_eventId e) (ev_latchId e) && (ev_effectiveAt e =? ev_evaluatedAt e)
     | CLEARED, Some c =>
         HEX64_PATTERN (cl_recoveryEvidenceFingerprint c) && HEX64_PATTERN (cl_authorizationFingerprint c)
         && REFERENCE (cl_riskApproverReferenceId c)
         && negb (String.eqb (ev_eventId e) (ev_latchId e))
         && negb (String.eqb (cl_riskApproverReferenceId c) (ev_evidenceActorReferenceId e))
         && String.eqb (cl_authorizationId c) (AUTHORIZATION_ID_PREFIX +:+ cl_authorizationFingerprint c)
         && (ev_effectiveAt e =? cl_issuedAt c) && (cl_issuedAt c <=? cl_notBefore c)
         && (cl_notBefore c <=? ev_evaluatedAt e) && (ev_evaluatedAt e <? cl_expiresAt c)
         && (cl_expiresAt c - cl_issuedAt c <=? MAX_AUTHORIZATION_MS)
         && (cl_notBefore c <=? ev_recordedAt e) && (ev_recordedAt e <? cl_expiresAt c)
     | _, _ => false
     end.

(** Two rows no UNIQUE constraint lets stand together. *)
Definition collides (d e : latch_event) : bool :=
  String.eqb (ev_eventId d) (ev_eventId e) || String.eqb (ev_correlationId d) (ev_correlationId e)
  || String.eqb (ev_commandFingerprint d) (ev_commandFingerprint e)
  || String.eqb (ev_eventFingerprint d) (ev_eventFingerprint e)
  || (bool_decide (ev_asset d = ev_asset e) && (ev_revision d =? ev_revision e))
  || match ev_clear d, ev_clear e with
     | Some c, Some c' =>
         String.eqb (cl_recoveryEvidenceFingerprint c) (cl_recoveryEvidenceFingerprint c')
         || String.eqb (cl_authorizationId c) (cl_authorizationId c')
         || String.eqb (cl_authorizationNonce c) (cl_authorizationNonce c')
         || String.eqb (cl_authorizationFingerprint c) (cl_authorizationFingerprint c')
     | _, _ => false
     end.

(** [INSERT INTO stablecoin_depeg_latch_events]; the deferred foreign key of the
    latch id is looked up with the new row in place. *)
Definition insert_event (db : latch_db) (e : latch_event) : sql latch_db :=
  reject CHECK_VIOLATION when negb (event_checks e) in
  reject UNIQUE_VIOLATION when existsb (fun d => collides d e) (db_events db) in
  reject FOREIGN_KEY_VIOLATION when
    negb (existsb (fun d => String.eqb (ev_eventId d) (ev_latchId e)) (db_events db ++ [e])) in
  Ok {| db_events := db_events db ++ [e]; db_projections := db_projections db |}.

(** The CHECK constraints of the projection table. *)
Definition projection_checks (p : latch_projection) : bool :=
  (1 <=? pj_revision p) && assetBinding (pj_asset p)
  && HEX64_PATTERN (pj_latchId p) && HEX64_PATTERN (pj_depegEvidenceFingerprint p)
  && HEX64_PATTERN (pj_lastEventId p) && HEX64_PATTERN (pj_lastEventFingerprint p)
  && REFERENCE (pj_evidenceActorReferenceId p)
  && match pj_status p, pj_clearId p, pj_clearedAt p, pj_riskApproverReferenceId p with
     | LATCHED, None, None, None => String.eqb (pj_lastEventId p) (pj_latchId p)
     | CLEARED, Some clearId, Some clearedAt, Some approver =>
         HEX64_PATTERN clearId && REFERENCE approver && String.eqb (pj_lastEventId p) clearId
         && (pj_latchedAt p <=? clearedAt)
     | _, _, _, _ => false
     end.

(** The LATCHED event a LATCHED projection must come from. *)
Definition latched_by (p : latch_projection) (e : latch_event) : bool :=
  String.eqb (ev_eventId e) (pj_lastEventId p) && bool_decide (ev_type e = LATCHED)
  && (ev_revision e =? pj_revision p) && bool_decide (ev_asset e = pj_asset p)
  && String.eqb (ev_latchId e) (pj_latchId p) && (ev_effectiveAt e =? pj_latchedAt p)
  && String.eqb (ev_depegEvidenceFingerprint e) (pj_depegEvidenceFingerprint p)
  && String.eqb (ev_evidenceActorReferenceId e) (pj_evidenceActorReferenceId p)
  && String.eqb (ev_eventFingerprint e) (pj_lastEventFingerprint p)
  && (ev_recordedAt e =? pj_updatedAt p).

(** The CLEARED event a CLEARED projection must come from. *)
Definition cleared_by_event (old p : latch_projection) (e : latch_event) : bool :=
  String.eqb (ev_eventId e) (pj_lastEventId p) && bool_decide (ev_type e = CLEARED)
  && (ev_revision e =? pj_revision p) && bool_decide (ev_asset e = pj_asset p)
  && String.eqb (ev_latchId e) (pj_latchId old)
  && bool_decide (Some (ev_effectiveAt e) = pj_clearedAt p)
  && String.eqb (ev_evidenceActorReferenceId e) (pj_evidenceActorReferenceId old)
  && bool_decide (cl_riskApproverReferenceId <$> ev_clear e = pj_riskApproverReferenceId p)
  && String.eqb (ev_eventFingerprint e) (pj_lastEventFingerprint p)
  && (ev_recordedAt e =? pj_updatedAt p).

Definition no_clear (p : latch_projection) : bool :=
  bool_decide (pj_clearId p = None) && bool_decide (pj_clearedAt p = None)
  && bool_decide (pj_riskApproverReferenceId p = None).

(** The trigger, for an INSERT ([old] is [None]) or an UPDATE. *)
Definition projection_guard (events : list latch_event) (old : option latch_projection)
    (new : latch_projection) : bool :=
  match old with
  | None =>
      (pj_revision new =? 1) && bool_decide (pj_status new = LATCHED) && no_clear new
      && existsb (latched_by new) events
  | Some old =>
      bool_decide (pj_asset new = pj_asset old) && (pj_revision new =? pj_revision old + 1)
      && match pj_status old with
         | CLEARED =>
             bool_decide (pj_status new = LATCHED)
             && match pj_clearedAt old with Some t => t <=? pj_latchedAt new | None => true end
             && no_clear new && existsb (latched_by new) events
         | LATCHED =>
             bool_decide (pj_status new = CLEARED) && String.eqb (pj_latchId new) (pj_latchId old)
             && (pj_latchedAt new =? pj_latchedAt old)
             && String.eqb (pj_depegEvidenceFingerprint new) (pj_depegEvidenceFingerprint old)
             && String.eqb (pj_evidenceActorReferenceId new) (pj_evidenceActorReferenceId old)
             && negb (bool_decide (pj_clearId new = None)) && negb (bool_decide (pj_clearedAt new = None))
             && negb (bool_decide (pj_riskApproverReferenceId new = None))
             && existsb (cleared_by_event old new) events
         end
  end.

(** INSERT or UPDATE of the asset's projection: trigger, checks, foreign keys. *)
Definition write_projection (db : latch_db) (new : latch_projection) : sql latch_db :=
  reject PROJECTION_GUARD when
    negb (projection_guard (db_events db) (mget (pj_asset new) (db_projections db)) new) in
  reject CHECK_VIOLATION when negb (projection_checks new) in
  reject FOREIGN_KEY_VIOLATION when
    negb (existsb (fun d => String.eqb (ev_eventId d) (pj_latchId new)) (db_events db))
    || negb (existsb (fun d => String.eqb (ev_eventId d) (pj_lastEventId new)) (db_events db)) in
  Ok {| db_events := db_events db;
        db_projections := mset (pj_asset new) new (db_projections db) |}.

(** ** The functions *)

(** [read_stablecoin_depeg_latch] on a bound asset. *)
Definition read_stablecoin_depeg_latch (db : latch_db) (asset : StablecoinValuationAssetReference)
    : option latch_projection :=
  mget asset (db_projections db).

(** The events with this id or correlation. *)
Definition prior_events (db : latch_db) (eventId correlationId : string) : list latch_event :=
  List.filter (fun e => String.eqb (ev_eventId e) eventId || String.eqb (ev_correlationId e) correlationId)
    (db_events db).

Definition record_arguments_valid (recordedAt : Z) (a : record_args) : bool :=
  match ra_expectedRevision a with Some n => 1 <=? n | None => true end
  && UUID_V4_PATTERN (ra_correlationId a) && HEX64_PATTERN (ra_latchId a)
  && REFERENCE (ra_evidenceActorReferenceId a) && HEX64_PATTERN (ra_depegEvidenceFingerprint a)
  && HEX64_PATTERN (ra_commandFingerprint a) && HEX64_PATTERN (ra_eventFingerprint a)
  && assetBinding (ra_asset a) && (ra_latchedAt a <=? recordedAt + SKEW_MS).

Definition next_revision (expected : option Z) : Z :=
  match expected with
  | None => 1
  | Some n => n + 1
  end.

(** The event a record command inserts. *)
Definition latched_event (a : record_args) (revision recordedAt : Z) : latch_event :=
  {| ev_eventId := ra_latchId a; ev_correlationId := ra_correlationId a; ev_type := LATCHED;
     ev_asset := ra_asset a; ev_revision := revision; ev_latchId := ra_latchId a;
     ev_depegEvidenceFingerprint := ra_depegEvidenceFingerprint a;
     ev_evidenceActorReferenceId := ra_evidenceActorReferenceId a; ev_clear := None;
     ev_commandFingerprint := ra_commandFingerprint a; ev_eventFingerprint := ra_eventFingerprint a;
     ev_effectiveAt := ra_latchedAt a; ev_evaluatedAt := ra_latchedAt a; ev_recordedAt := recordedAt |}.

Definition same_record (a : record_args) (e : latch_event) : bool :=
  bool_decide (ev_type e = LATCHED) && String.eqb (ev_eventId e) (ra_latchId a)
  && String.eqb (ev_correlationId e) (ra_correlationId a)
  && (ev_revision e =? next_revision (ra_expectedRevision a))
  && String.eqb (ev_latchId e) (ra_latchId a) && (ev_effectiveAt e =? ra_latchedAt a)
  && (ev_evaluatedAt e =? ra_latchedAt a)
  && String.eqb (ev_depegEvidenceFingerprint e) (ra_depegEvidenceFingerprint a)
  && String.eqb (ev_evidenceActorReferenceId e) (ra_evidenceActorReferenceId a)
  && String.eqb (ev_commandFingerprint e) (ra_commandFingerprint a)
  && String.eqb (ev_eventFingerprint e) (ra_eventFingerprint a)
  && bool_decide (ev_asset e = ra_asset a).

(** The projection a record command writes. *)
Definition latched_projection (a : record_args) (revision recordedAt : Z) : latch_projection :=
  {| pj_asset := ra_asset a; pj_revision := revision; pj_status := LATCHED; pj_latchId := ra_latchId a;
     pj_latchedAt := ra_latchedAt a; pj_depegEvidenceFingerprint := ra_depegEvidenceFingerprint a;
     pj_evidenceActorReferenceId := ra_evidenceActorReferenceId a; pj_clearId := None;
     pj_clearedAt := None; pj_riskApproverReferenceId := None; pj_lastEventId := ra_latchId a;
     pj_lastEventFingerprint := ra_eventFingerprint a; pj_updatedAt := recordedAt |}.

(** The insertion of the event and its projection. *)
Definition append (db : latch_db) (e : latch_event) (p : latch_projection) : sql latch_db :=
  let* db := insert_event db e in
  write_projection db p.

(** [startedAt] and [recordedAt] are the two readings of the clock. *)
Definition record_stablecoin_depeg_latch (db : latch_db) (startedAt recordedAt : Z) (a : record_args)
    : sql (record_outcome * option latch_projection * latch_db) :=
  reject INVALID_LATCH_COMMAND when negb (record_arguments_valid startedAt a) in
  match prior_events db (ra_latchId a) (ra_correlationId a) with
  | _ :: _ :: _ => Err LATCH_IDEMPOTENCY_CONFLICT
  | [prior] =>
      reject LATCH_IDEMPOTENCY_CONFLICT when negb (same_record a prior) in
      match read_stablecoin_depeg_latch db (ra_asset a) with
      | None => Err LATCH_PROJECTION_MISSING
      | Some p => Ok (OUT_IDEMPOTENT_REPLAY, Some p, db)
      end
  | [] =>
      let latch outcome revision :=
        let* db' := append db (latched_event a revision recordedAt) (latched_projection a revision recordedAt) in
        Ok (outcome, read_stablecoin_depeg_latch db' (ra_asset a), db') in
      match read_stablecoin_depeg_latch db (ra_asset a), ra_expectedRevision a with
      | None, Some _ => Ok (OUT_REVISION_CONFLICT, None, db)
      | None, None => latch OUT_LATCHED 1
      | Some p, None => Ok (OUT_REVISION_CONFLICT, Some p, db)
      | Some p, Some expected =>
          if negb (expected =? pj_revision p) then Ok (OUT_REVISION_CONFLICT, Some p, db)
          else match pj_status p with
               | LATCHED => Ok (OUT_ALREADY_LATCHED, Some p, db)
               | CLEARED =>
                   reject RELATCH_PREDATES_CLEAR when
                     match pj_clearedAt p with Some t => ra_latchedAt a <? t | None => false end in
                   latch OUT_RELATCHED (pj_revision p + 1)
               end
      end
  end.

Definition clear_arguments_valid (startedAt : Z) (a : clear_args) : bool :=
  UUID_V4_PATTERN (ca_correlationId a) && (1 <=? ca_expectedRevision a)
  && HEX64_PATTERN (ca_clearId a) && HEX64_PATTERN (ca_latchId a)
  && negb (String.eqb (ca_clearId a) (ca_latchId a)) && HEX64_PATTERN (ca_recoveryEvidenceFingerprint a)
  && REFERENCE (ca_evidenceActorReferenceId a) && REFERENCE (ca_riskApproverReferenceId a)
  && negb (String.eqb (ca_evidenceActorReferenceId a) (ca_riskApproverReferenceId a))
  && UUID_V4_PATTERN (ca_nonce a) && HEX64_PATTERN (ca_authorizationFingerprint a)
  && String.eqb (ca_authorizationId a) (AUTHORIZATION_ID_PREFIX +:+ ca_authorizationFingerprint a)
  && HEX64_PATTERN (ca_commandFingerprint a) && HEX64_PATTERN (ca_eventFingerprint a)
  && assetBinding (ca_asset a) && (ca_latchedAt a <=? ca_issuedAt a) && (ca_clearedAt a =? ca_issuedAt a)
  && (ca_issuedAt a <=? ca_notBefore a) && (ca_notBefore a <=? ca_evaluatedAt a)
  && (ca_evaluatedAt a <? ca_expiresAt a) && (ca_issuedAt a <? ca_expiresAt a)
  && (ca_expiresAt a - ca_issuedAt a <=? MAX_AUTHORIZATION_MS)
  && (ca_evaluatedAt a <=? startedAt + SKEW_MS).

Definition clear_columns_of (a : clear_args) : clear_columns :=
  {| cl_recoveryEvidenceFingerprint := ca_recoveryEvidenceFingerprint a;
     cl_riskApproverReferenceId := ca_riskApproverReferenceId a;
     cl_authorizationId := ca_authorizationId a; cl_authorizationNonce := ca_nonce a;
     cl_authorizationFingerprint := ca_authorizationFingerprint a; cl_issuedAt := ca_issuedAt a;
     cl_notBefore := ca_notBefore a; cl_expiresAt := ca_expiresAt a |}.

#[export] Instance clear_columns_eq_dec : EqDecision clear_columns.
Proof. solve_decision. Defined.

(** The event a clear command inserts over the current projection. *)
Definition cleared_event (a : clear_args) (current : latch_projection) (recordedAt : Z) : latch_event :=
  {| ev_eventId := ca_clearId a; ev_correlationId := ca_correlationId a; ev_type := CLEARED;
     ev_asset := ca_asset a; ev_revision := pj_revision current + 1; ev_latchId := ca_latchId a;
     ev_depegEvidenceFingerprint := pj_depegEvidenceFingerprint current;
     ev_evidenceActorReferenceId := ca_evidenceActorReferenceId a; ev_clear := Some (clear_columns_of a);
     ev_commandFingerprint := ca_commandFingerprint a; ev_eventFingerprint := ca_eventFingerprint a;
     ev_effectiveAt := ca_clearedAt a; ev_evaluatedAt := ca_evaluatedAt a; ev_recordedAt := recordedAt |}.

Definition same_clear (a : clear_args) (e : latch_event) : bool :=
  bool_decide (ev_type e = CLEARED) && String.eqb (ev_eventId e) (ca_clearId a)
  && String.eqb (ev_correlationId e) (ca_correlationId a)
  && (ev_revision e =? ca_expectedRevision a + 1) && String.eqb (ev_latchId e) (ca_latchId a)
  && String.eqb (ev_evidenceActorReferenceId e) (ca_evidenceActorReferenceId a)
  && bool_decide (ev_clear e = Some (clear_columns_of a))
  && (ev_effectiveAt e =? ca_clearedAt a) && (ev_evaluatedAt e =? ca_evaluatedAt a)
  && String.eqb (ev_commandFingerprint e) (ca_commandFingerprint a)
  && String.eqb (ev_eventFingerprint e) (ca_eventFingerprint a)
  && bool_decide (ev_asset e = ca_asset a).

(** A CLEARED event already spent this authorization or evidence. *)
Definition authorization_used (db : latch_db) (a : clear_args) : bool :=
  existsb (fun e => match ev_clear e with
    | Some c =>
        String.eqb (cl_authorizationNonce c) (ca_nonce a)
        || String.eqb (cl_authorizationFingerprint c) (ca_authorizationFingerprint a)
        || String.eqb (cl_authorizationId c) (ca_authorizationId a)
        || String.eqb (cl_recoveryEvidenceFingerprint c) (ca_recoveryEvidenceFingerprint a)
    | None => false
    end) (db_events db).

(** The UPDATE of a clear: the latch's own columns stay. *)
Definition cleared_projection (a : clear_args) (current : latch_projection) (recordedAt : Z)
    : latch_projection :=
  {| pj_asset := pj_asset current; pj_revision := pj_revision current + 1; pj_status := CLEARED;
     pj_latchId := pj_latchId current; pj_latchedAt := pj_latchedAt current;
     pj_depegEvidenceFingerprint := pj_depegEvidenceFingerprint current;
     pj_evidenceActorReferenceId := pj_evidenceActorReferenceId current; pj_clearId := Some (ca_clearId a);
     pj_clearedAt := Some (ca_clearedAt a); pj_riskApproverReferenceId := Some (ca_riskApproverReferenceId a);
     pj_lastEventId := ca_clearId a; pj_lastEventFingerprint := ca_eventFingerprint a;
     pj_updatedAt := recordedAt |}.

Definition clear_decision (recordedAt : Z) (a : clear_args) (current : latch_projection)
    : option clear_outcome :=
  if (recordedAt <? ca_notBefore a) || (ca_expiresAt a <=? recordedAt) then Some CLR_AUTHORIZATION_EXPIRED
  else if negb (pj_revision current =? ca_expectedRevision a) then Some CLR_REVISION_CONFLICT
  else if negb (bool_decide (pj_status current = LATCHED)) then Some CLR_LATCH_STATUS_MISMATCH
  else if negb (String.eqb (pj_latchId current) (ca_latchId a))
          || negb (pj_latchedAt current =? ca_latchedAt a)
          || negb (String.eqb (pj_evidenceActorReferenceId current) (ca_evidenceActorReferenceId a))
  then Some CLR_LATCH_BINDING_MISMATCH
  else None.

Definition clear_stablecoin_depeg_latch (db : latch_db) (startedAt recordedAt : Z) (a : clear_args)
    : sql (clear_outcome * option latch_projection * latch_db) :=
  reject INVALID_RECOVERY_COMMAND when negb (clear_arguments_valid startedAt a) in
  match prior_events db (ca_clearId a) (ca_correlationId a) with
  | _ :: _ :: _ => Err RECOVERY_IDEMPOTENCY_CONFLICT
  | [prior] =>
      reject RECOVERY_IDEMPOTENCY_CONFLICT when negb (same_clear a prior) in
      match read_stablecoin_depeg_latch db (ca_asset a) with
      | None => Err LATCH_PROJECTION_MISSING
      | Some p => Ok (CLR_IDEMPOTENT_REPLAY, Some p, db)
      end
  | [] =>
      reject RECOVERY_AUTHORIZATION_REPLAY when authorization_used db a in
      match read_stablecoin_depeg_latch db (ca_asset a) with
      | None => Ok (CLR_LATCH_NOT_FOUND, None, db)
      | Some current =>
          match clear_decision recordedAt a current with
          | Some decision => Ok (decision, Some current, db)
          | None =>
              let* db' := append db (cleared_event a current recordedAt)
                            (cleared_projection a current recordedAt) in
              Ok (CLR_CLEARED, read_stablecoin_depeg_latch db' (ca_asset a), db')
          end
      end
  end.


(** ** The event log: the specification the tables implement *)

(** The projection a LATCHED event starts. *)
Definition latch_of (e : latch_event) : latch_projection :=
  {| pj_asset := ev_asset e; pj_revision := ev_revision e; pj_status := LATCHED; pj_latchId := ev_latchId e;
     pj_latchedAt := ev_effectiveAt e; pj_depegEvidenceFingerprint := ev_depegEvidenceFingerprint e;
     pj_evidenceActorReferenceId := ev_evidenceActorReferenceId e; pj_clearId := None;
     pj_clearedAt := None; pj_riskApproverReferenceId := None; pj_lastEventId := ev_eventId e;
     pj_lastEventFingerprint := ev_eventFingerprint e; pj_updatedAt := ev_recordedAt e |}.

(** What a CLEARED event makes of the latch. *)
Definition clear_of (p : latch_projection) (e : latch_event) (c : clear_columns) : latch_projection :=
  {| pj_asset := pj_asset p; pj_revision := ev_revision e; pj_status := CLEARED; pj_latchId := pj_latchId p;
     pj_latchedAt := pj_latchedAt p; pj_depegEvidenceFingerprint := pj_depegEvidenceFingerprint p;
     pj_evidenceActorReferenceId := pj_evidenceActorReferenceId p; pj_clearId := Some (ev_eventId e);
     pj_clearedAt := Some (ev_effectiveAt e); pj_riskApproverReferenceId := Some (cl_riskApproverReferenceId c);
     pj_lastEventId := ev_eventId e; pj_lastEventFingerprint := ev_eventFingerprint e;
     pj_updatedAt := ev_recordedAt e |}.

Definition apply_event (o : option latch_projection) (e : latch_event) : option latch_projection :=
  match ev_clear e with
  | None => Some (latch_of e)
  | Some c => (fun p => clear_of p e c) <$> o
  end.

Definition history (asset : StablecoinValuationAssetReference) (events : list latch_event) : list latch_event :=
  filter (fun e => ev_asset e = asset) events.

(** The state of an asset is a fold over its own events. *)
Definition replay (asset : StablecoinValuationAssetReference) (events : list latch_event)
    : option latch_projection :=
  foldl apply_event None (history asset events).

(** The events that may come next. *)
Definition follows (o : option latch_projection) (e : latch_event) : bool :=
  match o, ev_type e with
  | None, LATCHED => ev_revision e =? 1
  | Some p, LATCHED =>
      bool_decide (pj_status p = CLEARED) && (ev_revision e =? pj_revision p + 1)
      && match pj_clearedAt p with Some t => t <=? ev_effectiveAt e | None => false end
  | Some p, CLEARED =>
      bool_decide (pj_status p = LATCHED) && (ev_revision e =? pj_revision p + 1)
      && String.eqb (ev_latchId e) (pj_latchId p) && (pj_latchedAt p <=? ev_effectiveAt e)
      && String.eqb (ev_depegEvidenceFingerprint e) (pj_depegEvidenceFingerprint p)
      && String.eqb (ev_evidenceActorReferenceId e) (pj_evidenceActorReferenceId p)
  | None, CLEARED => false
  end.

(** Histories in which every event may follow the ones before it. *)
Inductive history_ok : list latch_event -> Prop :=
| history_nil : history_ok []
| history_snoc h e : history_ok h -> follows (foldl apply_event None h) e = true -> history_ok (h ++ [e]).

Definition fingerprint_reused (e d : latch_event) : bool :=
  String.eqb (ev_commandFingerprint d) (ev_commandFingerprint e)
  || String.eqb (ev_eventFingerprint d) (ev_eventFingerprint e).

(** Appending to the log: the only constraint left is that fingerprints are new. *)
Definition log_append (events : list latch_event) (e : latch_event) : sql (list latch_event) :=
  reject UNIQUE_VIOLATION when existsb (fingerprint_reused e) events in
  Ok (events ++ [e]).

Definition prior_in (events : list latch_event) (eventId correlationId : string) : list latch_event :=
  List.filter (fun e => String.eqb (ev_eventId e) eventId || String.eqb (ev_correlationId e) correlationId) events.

(** The two functions on a log, without a projection table, a trigger, CHECK
    constraints or foreign keys. *)
Definition log_record (events : list latch_event) (startedAt recordedAt : Z) (a : record_args)
    : sql (record_outcome * list latch_event) :=
  reject INVALID_LATCH_COMMAND when negb (record_arguments_valid startedAt a) in
  match prior_in events (ra_latchId a) (ra_correlationId a) with
  | _ :: _ :: _ => Err LATCH_IDEMPOTENCY_CONFLICT
  | [prior] =>
      reject LATCH_IDEMPOTENCY_CONFLICT when negb (same_record a prior) in
      Ok (OUT_IDEMPOTENT_REPLAY, events)
  | [] =>
      let current := replay (ra_asset a) events in
      if negb (bool_decide (pj_revision <$> current = ra_expectedRevision a))
      then Ok (OUT_REVISION_CONFLICT, events)
      else
        match pj_status <$> current with
        | Some LATCHED => Ok (OUT_ALREADY_LATCHED, events)
        | status =>
            reject RELATCH_PREDATES_CLEAR when
              match current ≫= pj_clearedAt with Some t => ra_latchedAt a <? t | None => false end in
            rmap (fun events => (match status with None => OUT_LATCHED | _ => OUT_RELATCHED end, events))
              (log_append events (latched_event a (next_revision (ra_expectedRevision a)) recordedAt))
        end
  end.

Definition authorization_spent (events : list latch_event) (a : clear_args) : bool :=
  authorization_used {| db_events := events; db_projections := [] |} a.

Definition log_clear (events : list latch_event) (startedAt recordedAt : Z) (a : clear_args)
    : sql (clear_outcome * list latch_event) :=
  reject INVALID_RECOVERY_COMMAND when negb (clear_arguments_valid startedAt a) in
  match prior_in events (ca_clearId a) (ca_correlationId a) with
  | _ :: _ :: _ => Err RECOVERY_IDEMPOTENCY_CONFLICT
  | [prior] =>
      reject RECOVERY_IDEMPOTENCY_CONFLICT when negb (same_clear a prior) in
      Ok (CLR_IDEMPOTENT_REPLAY, events)
  | [] =>
      reject RECOVERY_AUTHORIZATION_REPLAY when authorization_spent events a in
      match replay (ca_asset a) events with
      | None => Ok (CLR_LATCH_NOT_FOUND, events)
      | Some current =>
          match clear_decision recordedAt a current with
          | Some decision => Ok (decision, events)
          | None => rmap (pair CLR_CLEARED) (log_append events (cleared_event a current recordedAt))
          end
      end
  end.

(** What a CLEARED event spends was not spent before. *)
Definition clear_fresh (events : list latch_event) (e : latch_event) : Prop :=
  match ev_clear e with
  | Some c => forall d c', d ∈ events -> ev_clear d = Some c' ->
      cl_recoveryEvidenceFingerprint c' <> cl_recoveryEvidenceFingerprint c /\
      cl_authorizationId c' <> cl_authorizationId c /\
      cl_authorizationNonce c' <> cl_authorizationNonce c /\
      cl_authorizationFingerprint c' <> cl_authorizationFingerprint c
  | None => True
  end.

(** One call that returned; the clock does not go back during it. *)
Inductive latch_step : latch_db -> latch_db -> Prop :=
| step_record db startedAt recordedAt a o p db' :
    startedAt <= recordedAt ->
    record_stablecoin_depeg_latch db startedAt recordedAt a = Ok (o, p, db') -> latch_step db db'
| step_clear db startedAt recordedAt a o p db' :
    startedAt <= recordedAt ->
    clear_stablecoin_depeg_latch db startedAt recordedAt a = Ok (o, p, db') -> latch_step db db'.

Definition reachable : latch_db -> Prop := rtc latch_step empty_db.

(** What holds of every reachable database. *)
Record db_ok (db : latch_db) : Prop := {
  ok_projection : forall asset, read_stablecoin_depeg_latch db asset = replay asset (db_events db);
  ok_history : forall asset, history_ok (history asset (db_events db));
  ok_checks : forall e, e ∈ db_events db -> event_checks e = true;
  ok_unique : ForallOrdPairs (fun d e => collides d e = false) (db_events db);
}.

(** ** Lemmas: histories *)

#[local] Opaque HEX64_PATTERN UUID_V4_PATTERN REFERENCE assetBinding AUTHORIZATION_ID_PREFIX String.eqb.

Lemma history_snoc_eq asset events e :
  history asset (events ++ [e]) =
  history asset events ++ (if decide (ev_asset e = asset) then [e] else []).
Proof. unfold history. rewrite filter_app, filter_cons, filter_nil. by case_decide. Qed.

Lemma replay_snoc asset events e :
  replay asset (events ++ [e]) =
  if decide (ev_asset e = asset) then apply_event (replay asset events) e else replay asset events.
Proof.
  unfold replay. rewrite history_snoc_eq, foldl_app. by case_decide.
Qed.

Lemma elem_of_history asset events e :
  e ∈ history asset events <-> ev_asset e = asset /\ e ∈ events.
Proof. unfold history. by rewrite list_elem_of_filter. Qed.

(** The shape constraint. *)
Lemma event_shape e :
  event_checks e = true ->
  match ev_type e, ev_clear e with LATCHED, None | CLEARED, Some _ => True | _, _ => False end.
Proof. unfold event_checks. intros H. bsimpl. by destruct (ev_type e), (ev_clear e). Qed.

(** What a projection owes to the history it is the replay of. *)
Record replay_ok (asset : StablecoinValuationAssetReference) (h : list latch_event) (p : latch_projection)
    : Prop := {
  rp_asset : pj_asset p = asset;
  rp_revision : pj_revision p = Z.of_nat (length h);
  rp_latch : exists e, e ∈ h /\ ev_eventId e = pj_latchId p;
  rp_last : exists e, e ∈ h /\ ev_eventId e = pj_lastEventId p;
  rp_checks : projection_checks p = true;
  rp_revisions : forall e, e ∈ h -> ev_revision e <= pj_revision p;
  rp_cleared : pj_status p = CLEARED ->
    exists t approver, pj_clearedAt p = Some t /\ pj_riskApproverReferenceId p = Some approver /\
      t <= pj_updatedAt p /\ approver <> pj_evidenceActorReferenceId p;
}.

Lemma history_replay asset h :
  history_ok h -> (forall e, e ∈ h -> ev_asset e = asset /\ event_checks e = true) ->
  match foldl apply_event None h with
  | None => h = []
  | Some p => replay_ok asset h p
  end.
Proof.
  induction 1 as [|h e Hh IH Hf]; intros He; [done|].
  destruct (He e ltac:(set_solver)) as [Ha Hc]. specialize (IH ltac:(set_solver)).
  rewrite foldl_app. cbn [foldl]. revert Hf IH. generalize (foldl apply_event None h) as o. intros o Hf IH.
  pose proof (event_shape e Hc) as Hs. unfold apply_event. unfold event_checks in Hc. bsimpl.
  unfold follows in Hf. destruct (ev_type e) eqn:Et, (ev_clear e) as [c|] eqn:Ec; try done; bsimpl.
  - assert (ev_revision e = Z.of_nat (length (h ++ [e])) /\ (forall d, d ∈ h -> ev_revision d <= ev_revision e))
      as [Hr Hle].
    { rewrite length_app. cbn [length]. destruct o as [p|]; bsimpl; subst; [|set_solver].
      destruct IH as [_ E _ _ _ L _]. split; [lia|]. intros d Hd. specialize (L d Hd). lia. }
    constructor; cbn; try done; try (exists e; split; [set_solver | by apply String.eqb_eq] || done).
    + exists e. split; [set_solver | done].
    + unfold projection_checks. cbn. rewrite !andb_true_iff, Z.leb_le. split_and!; try done; try lia.
    + intros d [Hd| ->%list_elem_of_singleton]%elem_of_app; [by apply Hle | lia].
  - destruct o as [p|]; [|done]. bsimpl. destruct IH as [Ea Er (l & Hl & El) _ Hp L _]. cbn.
    constructor; cbn; try done.
    + rewrite length_app. cbn. lia.
    + exists l. split; [set_solver | done].
    + exists e. split; [set_solver | done].
    + unfold projection_checks in Hp |- *. cbn. bsimpl.
      repeat match goal with H : String.eqb _ _ = true |- _ => apply String.eqb_eq in H end.
      rewrite !andb_true_iff, !Z.leb_le, String.eqb_eq. split_and!; try done; lia.
    + intros d [Hd| ->%list_elem_of_singleton]%elem_of_app; [specialize (L d Hd)|]; lia.
    + intros _. do 2 eexists. split_and!; [done | done | lia |].
      repeat match goal with H : String.eqb _ _ = _ |- _ =>
        first [apply String.eqb_eq in H | apply String.eqb_neq in H] end. congruence.
Qed.

(** ** Lemmas: every reachable database is the log *)

Section append.
Context (db : latch_db) (Hdb : db_ok db).
Let events := db_events db.

Lemma replay_facts asset :
  match replay asset events with
  | None => history asset events = []
  | Some p => replay_ok asset (history asset events) p
  end.
Proof.
  apply history_replay; [by apply ok_history|]. intros e [Ha He]%elem_of_history.
  split; [done | by apply (ok_checks _ Hdb)].
Qed.

Lemma prior_in_nil eventId correlationId :
  prior_in events eventId correlationId = [] ->
  forall d, d ∈ events -> ev_eventId d <> eventId /\ ev_correlationId d <> correlationId.
Proof.
  intros Hp d Hd. rewrite <- !String.eqb_neq, <- orb_false_iff. apply not_true_iff_false. intros E.
  assert (d ∈ prior_in events eventId correlationId) as Hx.
  { apply list_elem_of_In, filter_In. by rewrite <- list_elem_of_In. }
  rewrite Hp in Hx. by apply not_elem_of_nil in Hx.
Qed.

(** No UNIQUE constraint but those of the fingerprints can be in the way. *)
Lemma collides_fingerprint e :
  follows (replay (ev_asset e) events) e = true ->
  prior_in events (ev_eventId e) (ev_correlationId e) = [] ->
  clear_fresh events e ->
  forall d, d ∈ events -> collides d e = fingerprint_reused e d.
Proof.
  intros Hf Hp Hc d Hd. unfold collides, fingerprint_reused, clear_fresh in *.
  assert (String.eqb (ev_eventId d) (ev_eventId e) || String.eqb (ev_correlationId d) (ev_correlationId e) = false)
    as [-> ->]%orb_false_iff.
  { rewrite orb_false_iff, !String.eqb_neq. by apply (prior_in_nil _ _ Hp). }
  assert (bool_decide (ev_asset d = ev_asset e) && (ev_revision d =? ev_revision e) = false) as ->.
  { destruct (bool_decide_reflect (ev_asset d = ev_asset e)) as [Ea|]; [|done].
    assert (d ∈ history (ev_asset e) events) as Hx by (by apply elem_of_history).
    apply Z.eqb_neq. pose proof (replay_facts (ev_asset e)) as Hr. unfold follows in Hf.
    destruct (replay (ev_asset e) events) as [p|]; [|rewrite Hr in Hx; by apply not_elem_of_nil in Hx].
    pose proof (rp_revisions _ _ _ Hr d Hx). destruct (ev_type e); bsimpl; lia. }
  assert (match ev_clear d, ev_clear e with
    | Some c, Some c' =>
        String.eqb (cl_recoveryEvidenceFingerprint c) (cl_recoveryEvidenceFingerprint c')
        || String.eqb (cl_authorizationId c) (cl_authorizationId c')
        || String.eqb (cl_authorizationNonce c) (cl_authorizationNonce c')
        || String.eqb (cl_authorizationFingerprint c) (cl_authorizationFingerprint c')
    | _, _ => false end = false) as ->.
  { destruct (ev_clear d) as [c'|] eqn:Ed, (ev_clear e) as [c|]; try done.
    destruct (Hc d c' Hd Ed) as (H1 & H2 & H3 & H4). rewrite !orb_false_iff, !String.eqb_neq. by split_and!. }
  by rewrite !orb_false_r.
Qed.

(** The projection that goes with an event. *)
Lemma projection_accepted e p :
  event_checks e = true -> follows (replay (ev_asset e) events) e = true ->
  apply_event (replay (ev_asset e) events) e = Some p ->
  pj_asset p = ev_asset e /\
  projection_guard (events ++ [e]) (read_stablecoin_depeg_latch db (ev_asset e)) p = true.
Proof.
  intros Hc Hf Ha. rewrite (ok_projection _ Hdb). fold events.
  pose proof (replay_facts (ev_asset e)) as Hr. pose proof (event_shape e Hc) as Hs.
  unfold event_checks in Hc. unfold follows in Hf. unfold apply_event in Ha. bsimpl.
  destruct (ev_type e) eqn:Et, (ev_clear e) as [c|] eqn:Ec; try done.
  - injection Ha as <-. split; [done|].
    assert (existsb (latched_by (latch_of e)) (events ++ [e]) = true) as Hl.
    { apply existsb_exists. exists e. split; [by apply in_or_app; right; left|].
      unfold latched_by. cbn. rewrite !String.eqb_refl, !Z.eqb_refl, !andb_true_iff.
      split_and!; try done; by apply bool_decide_eq_true_2. }
    unfold projection_guard. destruct (replay (ev_asset e) events) as [q|]; bsimpl.
    + rewrite Hl. case_bool_decide as Hq; [|done]. rewrite Hq. cbn.
      rewrite bool_decide_true by (symmetry; apply Hr). destruct (pj_clearedAt q) as [t|]; [|done].
      rewrite !andb_true_iff, Z.eqb_eq, Z.leb_le. bsimpl. split_and!; done || lia.
    + rewrite Hl. cbn. rewrite !andb_true_iff, Z.eqb_eq. by split_and!.
  - destruct (replay (ev_asset e) events) as [q|]; [|done]. injection Ha as <-.
    split; [by apply Hr|]. bsimpl. unfold projection_guard. cbn.
    case_bool_decide as Hq; [|done]. rewrite Hq. cbn. rewrite !String.eqb_refl, !Z.eqb_refl.
    rewrite bool_decide_true by done. cbn. rewrite andb_true_iff, Z.eqb_eq. split; [lia|].
    apply existsb_exists. exists e. split; [by apply in_or_app; right; left|].
    unfold cleared_by_event. cbn. rewrite !String.eqb_refl, !Z.eqb_refl, Ec, !andb_true_iff.
    split_and!; try done; apply bool_decide_eq_true_2; done || (symmetry; apply Hr).
Qed.

Lemma apply_follows o e :
  event_checks e = true -> follows o e = true -> exists p, apply_event o e = Some p.
Proof.
  intros Hs%event_shape Hf. unfold apply_event, follows in *.
  destruct (ev_type e), (ev_clear e); try done; [by eexists|]. destruct o; [by eexists | done].
Qed.

(** The event and its projection are written, unless a fingerprint is in use. *)
Lemma append_log e p :
  event_checks e = true -> follows (replay (ev_asset e) events) e = true ->
  apply_event (replay (ev_asset e) events) e = Some p ->
  prior_in events (ev_eventId e) (ev_correlationId e) = [] ->
  clear_fresh events e ->
  (exists db', append db e p = Ok db' /\ log_append events e = Ok (db_events db') /\ db_ok db' /\
               read_stablecoin_depeg_latch db' (ev_asset e) = Some p) \/
  (append db e p = Err UNIQUE_VIOLATION /\ log_append events e = Err UNIQUE_VIOLATION).
Proof.
  intros Hc Hf Ha Hp Hu. pose proof (collides_fingerprint e Hf Hp Hu) as Hcol.
  assert (existsb (fun d => collides d e) events = existsb (fingerprint_reused e) events) as Hex.
  { clear -Hcol. induction events as [|d l IH]; [done|]. cbn [existsb]. rewrite Hcol by left.
    f_equal. apply IH. intros x Hx. apply Hcol. by right. }
  unfold append, insert_event, log_append. rewrite Hc. cbn [negb]. fold events. rewrite Hex.
  destruct (existsb (fingerprint_reused e) events) eqn:E; [by right|]. left.
  destruct (projection_accepted e p Hc Hf Ha) as [Hpa Hg].
  assert (replay (ev_asset e) (events ++ [e]) = Some p) as Hrp by (rewrite replay_snoc; by case_decide).
  assert (history_ok (history (ev_asset e) (events ++ [e]))) as Hho.
  { rewrite history_snoc_eq, decide_True by done. constructor; [by apply ok_history | done]. }
  assert (forall d, d ∈ events ++ [e] -> event_checks d = true) as Hch.
  { intros d [Hd| ->%list_elem_of_singleton]%elem_of_app; [by apply (ok_checks _ Hdb) | done]. }
  pose proof (history_replay (ev_asset e) _ Hho) as Hr. fold (replay (ev_asset e) (events ++ [e])) in Hr.
  rewrite Hrp in Hr. specialize (Hr ltac:(intros d [? ?]%elem_of_history; split; [done | by apply Hch])).
  assert (forall id, (exists d, d ∈ history (ev_asset e) (events ++ [e]) /\ ev_eventId d = id) ->
    existsb (fun d => String.eqb (ev_eventId d) id) (events ++ [e]) = true) as Hid.
  { intros id (d & [_ Hd]%elem_of_history & <-). apply existsb_exists. exists d.
    rewrite <- list_elem_of_In, String.eqb_refl. done. }
  assert (existsb (fun d => String.eqb (ev_eventId d) (ev_latchId e)) (events ++ [e]) = true) as Hl.
  { assert (pj_latchId p = ev_latchId e) as <- by
      (unfold apply_event, follows in Ha, Hf; pose proof (event_shape e Hc);
       destruct (ev_type e), (ev_clear e), (replay (ev_asset e) events); try done;
       injection Ha as <-; bsimpl; done || (cbn; symmetry; by apply String.eqb_eq)).
    apply Hid, Hr. }
  rewrite Hl. cbn [negb rbind]. unfold write_projection. cbn [db_events db_projections]. rewrite Hpa.
  unfold read_stablecoin_depeg_latch in Hg. fold events. rewrite Hg.
  rewrite (rp_checks _ _ _ Hr), (Hid _ (rp_latch _ _ _ Hr)), (Hid _ (rp_last _ _ _ Hr)). cbn [negb orb].
  eexists. split_and!; [done | done | | apply mget_mset_eq].
  constructor; cbn [db_events db_projections]; fold events.
  - intros asset. unfold read_stablecoin_depeg_latch. cbn [db_projections]. rewrite mget_mset, replay_snoc.
    destruct (decide (asset = ev_asset e)) as [->|Hne]; [by rewrite decide_True by done; rewrite Ha|].
    rewrite decide_False by congruence. apply (ok_projection _ Hdb).
  - intros asset. rewrite history_snoc_eq. case_decide as Hd; [|rewrite app_nil_r; by apply ok_history].
    subst. by constructor; [apply ok_history|].
  - done.
  - apply ForallOrdPairs_snoc; [by apply ok_unique|]. intros d Hd.
    rewrite (Hcol d Hd). rewrite existsb_false in E. by apply E.
Qed.
End append.

Lemma empty_ok : db_ok empty_db.
Proof. constructor; [done | constructor | intros ? []%not_elem_of_nil | constructor]. Qed.

(** The result of a call and of its log counterpart. *)
Definition agrees {O} (asset : StablecoinValuationAssetReference)
    (res : sql (O * option latch_projection * latch_db)) (spec : sql (O * list latch_event)) : Prop :=
  match res, spec with
  | Ok (o, p, db'), Ok (o', events') =>
      o = o' /\ db_events db' = events' /\ p = replay asset events' /\ db_ok db'
  | Err e, Err e' => e = e'
  | _, _ => False
  end.

(** Columns compared by guards. *)
Ltac columns :=
  bsimpl; repeat match goal with
  | H : bool_decide _ = true |- _ => apply bool_decide_eq_true in H
  | H : bool_decide _ = false |- _ => apply bool_decide_eq_false in H
  | H : String.eqb _ _ = true |- _ => apply String.eqb_eq in H
  | H : String.eqb _ _ = false |- _ => apply String.eqb_neq in H
  end.

(** The columns of the events the functions insert. *)
Ltac event_fields :=
  cbn [latched_event cleared_event clear_columns_of ev_eventId ev_correlationId ev_type ev_asset ev_revision
    ev_latchId ev_depegEvidenceFingerprint ev_evidenceActorReferenceId ev_clear ev_commandFingerprint
    ev_eventFingerprint ev_effectiveAt ev_evaluatedAt ev_recordedAt cl_recoveryEvidenceFingerprint
    cl_riskApproverReferenceId cl_authorizationId cl_authorizationNonce cl_authorizationFingerprint
    cl_issuedAt cl_notBefore cl_expiresAt].

Lemma latched_event_checks a revision startedAt recordedAt :
  record_arguments_valid startedAt a = true -> startedAt <= recordedAt -> 1 <= revision ->
  event_checks (latched_event a revision recordedAt) = true.
Proof.
  unfold record_arguments_valid, event_checks. intros H Hc Hr. bsimpl. event_fields.
  rewrite !andb_true_iff, !Z.leb_le, Z.eqb_eq, String.eqb_eq. split_and!; done || lia.
Qed.

Lemma cleared_event_checks a p startedAt recordedAt :
  clear_arguments_valid startedAt a = true -> startedAt <= recordedAt ->
  clear_decision recordedAt a p = None -> projection_checks p = true ->
  event_checks (cleared_event a p recordedAt) = true.
Proof.
  unfold clear_arguments_valid, clear_decision, projection_checks, event_checks. intros H Hc Hd Hp.
  repeat (match goal with H : (if ?b then _ else _) = None |- _ => destruct b eqn:?; [discriminate H|] end).
  bsimpl. event_fields. rewrite (String.eqb_sym (ca_riskApproverReferenceId a)).
  rewrite !andb_true_iff, !negb_true_iff, !Z.leb_le, !Z.ltb_lt, Z.eqb_eq.
  split_and!; try assumption; clear Hd; lia.
Qed.

Lemma prior_not_nil events eventId correlationId d l :
  prior_in events eventId correlationId = d :: l -> d ∈ events.
Proof.
  intros H. assert (d ∈ prior_in events eventId correlationId) as Hd by (rewrite H; left).
  apply list_elem_of_In, filter_In in Hd as [Hd _]. by apply list_elem_of_In.
Qed.

(** The asset of a recorded event has a projection. *)
Lemma recorded_has_state db asset d :
  db_ok db -> d ∈ db_events db -> ev_asset d = asset -> exists p, replay asset (db_events db) = Some p.
Proof.
  intros Hdb Hd Ha. pose proof (replay_facts db Hdb asset) as Hr.
  destruct (replay asset (db_events db)) as [p|]; [by exists p|].
  assert (d ∈ history asset (db_events db)) as Hx by (by apply elem_of_history).
  rewrite Hr in Hx. by apply not_elem_of_nil in Hx.
Qed.

(** The state of an asset whose replay is [None] or has been cleared. *)
Lemma cleared_state db asset p :
  db_ok db -> replay asset (db_events db) = Some p -> pj_status p = CLEARED ->
  exists t, pj_clearedAt p = Some t.
Proof.
  intros Hdb E Hs. pose proof (replay_facts db Hdb asset) as Hr. rewrite E in Hr.
  pose proof (rp_checks _ _ _ Hr) as Hc. unfold projection_checks in Hc. bsimpl. rewrite Hs in *.
  destruct (pj_clearId p), (pj_clearedAt p), (pj_riskApproverReferenceId p); try done. by eexists.
Qed.

Lemma record_agrees db startedAt recordedAt a :
  db_ok db -> startedAt <= recordedAt ->
  agrees (ra_asset a) (record_stablecoin_depeg_latch db startedAt recordedAt a)
    (log_record (db_events db) startedAt recordedAt a).
Proof.
  intros Hdb Hclock. unfold record_stablecoin_depeg_latch, log_record.
  destruct (record_arguments_valid startedAt a) eqn:Hv; [|done]. cbn [negb].
  change (prior_events db) with (prior_in (db_events db)). rewrite (ok_projection _ Hdb).
  destruct (prior_in _ _ _) as [|d [|]] eqn:Hp; [| |done].
  2: { destruct (same_record a d) eqn:Hs; [|done]. cbn [negb].
       assert (ev_asset d = ra_asset a) as Ha.
       { unfold same_record in Hs. by columns. }
       destruct (recorded_has_state db _ d Hdb (prior_not_nil _ _ _ _ _ Hp) Ha) as [p E].
       rewrite E. by split_and!. }
  pose proof (replay_facts db Hdb (ra_asset a)) as Hr.
  assert (forall (o : record_outcome) revision, 1 <= revision ->
    follows (replay (ra_asset a) (db_events db)) (latched_event a revision recordedAt) = true ->
    agrees (ra_asset a)
      (let* db' := append db (latched_event a revision recordedAt) (latched_projection a revision recordedAt) in
       Ok (o, read_stablecoin_depeg_latch db' (ra_asset a), db'))
      (rmap (fun events => (o, events)) (log_append (db_events db) (latched_event a revision recordedAt)))) as Hlatch.
  { intros o revision Hrev Hf.
    pose proof (latched_event_checks a revision startedAt recordedAt Hv Hclock Hrev) as Hc.
    destruct (append_log db Hdb (latched_event a revision recordedAt) (latched_projection a revision recordedAt))
      as [(db' & -> & -> & Hdb' & Hread) | [-> ->]]; try done.
    cbn [rbind rmap agrees]. split_and!; try done. by rewrite (ok_projection _ Hdb'). }
  destruct (replay (ra_asset a) (db_events db)) as [p|] eqn:E; destruct (ra_expectedRevision a) as [n|] eqn:En.
  - replace (bool_decide (pj_revision <$> Some p = Some n)) with (n =? pj_revision p)
      by (apply eq_iff_eq_true; rewrite Z.eqb_eq, bool_decide_eq_true; cbn; split; congruence).
    destruct (Z.eqb_spec n (pj_revision p)) as [->|Hne]; cbn [negb fmap option_fmap option_map mbind option_bind].
    + destruct (pj_status p) eqn:Est; [by split_and!|].
      destruct (cleared_state db _ p Hdb E Est) as [t Et]. rewrite Et.
      destruct (Z.ltb_spec (ra_latchedAt a) t) as [L|L]; [done|]. cbn [next_revision].
      apply Hlatch; [pose proof (rp_revision _ _ _ Hr); lia|]. unfold follows. event_fields.
      by rewrite Est, bool_decide_true, Z.eqb_refl, Et, (proj2 (Z.leb_le _ _) L).
    + by split_and!.
  - by split_and!.
  - by split_and!.
  - cbn [fmap option_fmap option_map mbind option_bind next_revision]. rewrite bool_decide_true by done.
    by apply Hlatch.
Qed.

Lemma authorization_fresh db a p recordedAt :
  authorization_used db a = false -> clear_fresh (db_events db) (cleared_event a p recordedAt).
Proof.
  unfold authorization_used, clear_fresh. rewrite existsb_false. event_fields. intros H d c' Hd Ec.
  specialize (H d Hd). cbn beta in H. rewrite Ec in H. columns. by split_and!.
Qed.

Lemma clear_agrees db startedAt recordedAt a :
  db_ok db -> startedAt <= recordedAt ->
  agrees (ca_asset a) (clear_stablecoin_depeg_latch db startedAt recordedAt a)
    (log_clear (db_events db) startedAt recordedAt a).
Proof.
  intros Hdb Hclock. unfold clear_stablecoin_depeg_latch, log_clear.
  destruct (clear_arguments_valid startedAt a) eqn:Hv; [|done]. cbn [negb].
  change (prior_events db) with (prior_in (db_events db)). rewrite (ok_projection _ Hdb).
  change (authorization_spent (db_events db) a) with (authorization_used db a).
  destruct (prior_in _ _ _) as [|d [|]] eqn:Hp; [| |done].
  2: { destruct (same_clear a d) eqn:Hs; [|done]. cbn [negb].
       assert (ev_asset d = ca_asset a) as Ha by (unfold same_clear in Hs; by columns).
       destruct (recorded_has_state db _ d Hdb (prior_not_nil _ _ _ _ _ Hp) Ha) as [p E].
       rewrite E. by split_and!. }
  destruct (authorization_used db a) eqn:Hu; [done|].
  pose proof (replay_facts db Hdb (ca_asset a)) as Hr.
  destruct (replay (ca_asset a) (db_events db)) as [p|] eqn:E; [|by split_and!].
  destruct (clear_decision recordedAt a p) eqn:Hd; [by split_and!|].
  pose proof (cleared_event_checks a p startedAt recordedAt Hv Hclock Hd (rp_checks _ _ _ Hr)) as Hc.
  assert (follows (Some p) (cleared_event a p recordedAt) = true) as Hf.
  { unfold clear_decision in Hd. unfold clear_arguments_valid in Hv. unfold follows. event_fields.
    repeat (match goal with H : (if ?b then _ else _) = None |- _ => destruct b eqn:?; [discriminate H|] end).
    columns. rewrite !andb_true_iff, bool_decide_eq_true, Z.eqb_eq, Z.leb_le, !String.eqb_eq.
    split_and!; congruence || (clear Hd; lia). }
  destruct (append_log db Hdb (cleared_event a p recordedAt) (cleared_projection a p recordedAt) Hc)
    as [(db' & -> & -> & Hdb' & Hread) | [-> ->]];
    [by event_fields; rewrite E | by event_fields; rewrite E | done | by apply authorization_fresh | | done].
  cbn [rbind rmap agrees]. split_and!; try done. by rewrite (ok_projection _ Hdb').
Qed.

Lemma step_ok db db' : db_ok db -> latch_step db db' -> db_ok db'.
Proof.
  intros Hdb Hs. destruct Hs as [db s r a o p db' Hc H|db s r a o p db' Hc H].
  - pose proof (record_agrees db s r a Hdb Hc) as Ha. rewrite H in Ha. unfold agrees in Ha.
    destruct (log_record _ _ _ _) as [[? ?]|]; [|done]. by destruct Ha as (_ & _ & _ & ?).
  - pose proof (clear_agrees db s r a Hdb Hc) as Ha. rewrite H in Ha. unfold agrees in Ha.
    destruct (log_clear _ _ _ _) as [[? ?]|]; [|done]. by destruct Ha as (_ & _ & _ & ?).
Qed.

Lemma steps_ok db db' : db_ok db -> rtc latch_step db db' -> db_ok db'.
Proof. intros H Hs. induction Hs; eauto using step_ok. Qed.

Lemma reachable_ok db : reachable db -> db_ok db.
Proof. apply steps_ok, empty_ok. Qed.

(** The log only grows. *)
Lemma append_events db e p db' : append db e p = Ok db' -> db_events db' = db_events db ++ [e].
Proof. unfold append, insert_event, write_projection. intros H. inv_ok. by subst. Qed.

Lemma record_events db s r a o p db' :
  record_stablecoin_depeg_latch db s r a = Ok (o, p, db') ->
  match o with
  | OUT_LATCHED | OUT_RELATCHED =>
      db_events db' = db_events db ++ [latched_event a (next_revision (ra_expectedRevision a)) r]
  | _ => db' = db
  end.
Proof.
  unfold record_stablecoin_depeg_latch. intros H. inv_ok. destruct (prior_events _ _ _) as [|? [|]]; [| |done].
  - destruct (read_stablecoin_depeg_latch db _) as [q|], (ra_expectedRevision a) as [n|]; inv_ok; simplify_eq; try done.
    + destruct (Z.eqb_spec n (pj_revision q)) as [E|]; cbn [negb] in H; [|by simplify_eq].
      rewrite <- E in H. destruct (pj_status q); inv_ok; simplify_eq; [done|]. by eapply append_events.
    + by eapply append_events.
  - inv_ok. destruct (read_stablecoin_depeg_latch db _); inv_ok; simplify_eq; done.
Qed.

Lemma clear_events db s r a o p db' :
  clear_stablecoin_depeg_latch db s r a = Ok (o, p, db') ->
  match o with
  | CLR_CLEARED => exists current, clear_decision r a current = None /\
      db_events db' = db_events db ++ [cleared_event a current r]
  | _ => db' = db
  end.
Proof.
  unfold clear_stablecoin_depeg_latch. intros H. inv_ok. destruct (prior_events _ _ _) as [|? [|]]; [| |done].
  - inv_ok. destruct (read_stablecoin_depeg_latch db _) as [q|]; inv_ok; simplify_eq; [|done].
    destruct (clear_decision r a q) as [d|] eqn:Hd; inv_ok; simplify_eq.
    + unfold clear_decision in Hd. repeat (destruct (_ : bool) in Hd; simplify_eq); done.
    + exists q. split; [done|]. by eapply append_events.
  - inv_ok. destruct (read_stablecoin_depeg_latch db _); inv_ok; simplify_eq; done.
Qed.

Lemma steps_events db db' : rtc latch_step db db' -> exists l, db_events db' = db_events db ++ l.
Proof.
  induction 1 as [db|db db1 db' H _ [l IH]]; [exists []; by rewrite app_nil_r|].
  assert (exists l', db_events db1 = db_events db ++ l') as [l' E].
  { destruct H as [db s r a o p db1 _ H%record_events|db s r a o p db1 _ H%clear_events].
    - destruct o; subst; eauto using app_nil_r; by (exists []; rewrite app_nil_r).
    - destruct o; subst; try (by (exists []; rewrite app_nil_r)). destruct H as (q & _ & H). eauto. }
  exists (l' ++ l). by rewrite IH, E, app_assoc.
Qed.

(** ** Lemmas: replays *)

Lemma collides_ids d e :
  collides d e = false -> ev_eventId d <> ev_eventId e /\ ev_correlationId d <> ev_correlationId e.
Proof. unfold collides. intros H. by columns. Qed.

(** A recorded event is the only one with its id or its correlation. *)
Lemma prior_in_recorded events e :
  ForallOrdPairs (fun d e => collides d e = false) events -> e ∈ events ->
  prior_in events (ev_eventId e) (ev_correlationId e) = [e].
Proof.
  intros Hu He. unfold prior_in. set (f := fun d => _ || _).
  assert (forall l, (forall d, d ∈ l -> ev_eventId d <> ev_eventId e /\ ev_correlationId d <> ev_correlationId e) ->
    List.filter f l = []) as Hnil.
  { induction l as [|d l IH]; intros H; [done|]. cbn [List.filter]. destruct (H d ltac:(left)) as [H1 H2].
    unfold f at 1. rewrite (proj2 (String.eqb_neq _ _) H1), (proj2 (String.eqb_neq _ _) H2).
    apply IH. intros x Hx. apply H. by right. }
  induction Hu as [|d l Hd Hl IH]; [by apply not_elem_of_nil in He|]. rewrite Forall_forall in Hd. cbn [List.filter].
  apply elem_of_cons in He as [->|He].
  - unfold f at 1. rewrite String.eqb_refl. cbn [orb]. f_equal. apply Hnil. intros x Hx.
    destruct (collides_ids _ _ (Hd x Hx)) as [H1 H2]. split; congruence.
  - destruct (collides_ids _ _ (Hd e He)) as [H1 H2]. unfold f at 1.
    rewrite (proj2 (String.eqb_neq _ _) H1), (proj2 (String.eqb_neq _ _) H2). by apply IH.
Qed.

Lemma same_record_refl a r : same_record a (latched_event a (next_revision (ra_expectedRevision a)) r) = true.
Proof.
  unfold same_record. event_fields. rewrite !String.eqb_refl, !Z.eqb_refl, !andb_true_iff.
  split_and!; try done; by apply bool_decide_eq_true_2.
Qed.

Lemma same_clear_refl a p r :
  pj_revision p = ca_expectedRevision a -> same_clear a (cleared_event a p r) = true.
Proof.
  intros E. unfold same_clear. event_fields. rewrite E, !String.eqb_refl, !Z.eqb_refl, !andb_true_iff.
  split_and!; try done; by apply bool_decide_eq_true_2.
Qed.

Lemma clear_decision_none r a p :
  clear_decision r a p = None <->
  ca_notBefore a <= r < ca_expiresAt a /\ pj_revision p = ca_expectedRevision a /\ pj_status p = LATCHED /\
  pj_latchId p = ca_latchId a /\ pj_latchedAt p = ca_latchedAt a /\
  pj_evidenceActorReferenceId p = ca_evidenceActorReferenceId a.
Proof.
  unfold clear_decision. split.
  - intros H. repeat (match goal with H : (if ?b then _ else _) = None |- _ => destruct b eqn:?; [discriminate H|] end).
    columns. split_and!; done || lia.
  - intros ((H1 & H2) & -> & -> & -> & -> & ->). rewrite !String.eqb_refl, !Z.eqb_refl, bool_decide_true by done.
    by rewrite (proj2 (Z.ltb_ge _ _) H1), (proj2 (Z.leb_gt _ _) H2).
Qed.

(** Once recorded, a command finds exactly its own event, and is the same. *)
Lemma recorded_prior db e :
  db_ok db -> e ∈ db_events db -> prior_events db (ev_eventId e) (ev_correlationId e) = [e].
Proof. intros Hdb. apply prior_in_recorded. by apply ok_unique. Qed.

Lemma recorded_later db db' db'' e :
  db_events db' = db_events db ++ [e] -> rtc latch_step db' db'' -> e ∈ db_events db''.
Proof. intros E (l & ->)%steps_events. rewrite E. set_solver. Qed.

(** The revision of an asset identifies its state: a later database with the
    same revision has the same projection. *)
Lemma same_revision_same_state db db' asset p p' :
  db_ok db -> rtc latch_step db db' ->
  read_stablecoin_depeg_latch db asset = Some p -> read_stablecoin_depeg_latch db' asset = Some p' ->
  pj_revision p' = pj_revision p -> p' = p.
Proof.
  intros Hdb Hs Hp Hp' Er. pose proof (steps_ok _ _ Hdb Hs) as Hdb'.
  rewrite (ok_projection _ Hdb) in Hp. rewrite (ok_projection _ Hdb') in Hp'.
  pose proof (replay_facts db Hdb asset) as F. pose proof (replay_facts db' Hdb' asset) as F'.
  rewrite Hp in F. rewrite Hp' in F'. apply rp_revision in F, F'.
  destruct (steps_events _ _ Hs) as [l El]. unfold replay in Hp, Hp'. unfold history in *.
  rewrite El, filter_app in F', Hp'. rewrite length_app in F'.
  assert (length (filter (fun e => ev_asset e = asset) l) = 0)%nat as H0%length_zero_iff_nil by lia.
  rewrite H0, app_nil_r in Hp'. congruence.
Qed.

(** Nothing in the log stands in the way of this event. *)
Definition fresh_for (events : list latch_event) (e : latch_event) : Prop :=
  prior_in events (ev_eventId e) (ev_correlationId e) = [] /\
  existsb (fingerprint_reused e) events = false /\ clear_fresh events e.

Lemma authorization_unused db a p r :
  clear_fresh (db_events db) (cleared_event a p r) -> authorization_used db a = false.
Proof.
  unfold authorization_used, clear_fresh. rewrite existsb_false. event_fields. intros H d Hd. cbn beta.
  destruct (ev_clear d) as [c'|] eqn:Ec; [|done]. destruct (H d c' Hd Ec) as (H1 & H2 & H3 & H4).
  rewrite !orb_false_iff, !String.eqb_neq. by split_and!.
Qed.

(** ** Theorems *)

(** C2: the latch functions implement the event log: in every reachable
    database a call that records or clears a latch has exactly the outcome, the
    projection and the events of its counterpart on the bare log, where the
    state of an asset is the fold of its own events; the trigger, the CHECK
    constraints and the foreign keys of the two tables never fire, and a UNIQUE
    constraint only when a fingerprint is used twice. *)
Theorem latch_tables_refine_log db startedAt recordedAt :
  reachable db -> startedAt <= recordedAt ->
  (forall a, agrees (ra_asset a) (record_stablecoin_depeg_latch db startedAt recordedAt a)
               (log_record (db_events db) startedAt recordedAt a)) /\
  (forall a, agrees (ca_asset a) (clear_stablecoin_depeg_latch db startedAt recordedAt a)
               (log_clear (db_events db) startedAt recordedAt a)).
Proof. intros Hdb%reachable_ok Hc. split; intros a; [by apply record_agrees | by apply clear_agrees]. Qed.

(** In every reachable database each asset's projection is the fold of its
    events; these alternate between latches and clears of the latch before
    them, a relatch never predating the clear; the projection's revision is
    their number; and no two events anywhere share an id, a correlation, a
    fingerprint, an authorization, its nonce or its evidence. *)
Theorem latch_history_invariant db asset :
  reachable db ->
  read_stablecoin_depeg_latch db asset = replay asset (db_events db) /\
  history_ok (history asset (db_events db)) /\
  (forall p, read_stablecoin_depeg_latch db asset = Some p ->
     pj_revision p = Z.of_nat (length (history asset (db_events db)))) /\
  ForallOrdPairs (fun d e => collides d e = false) (db_events db).
Proof.
  intros Hdb%reachable_ok. split_and!; [by apply ok_projection | by apply ok_history | | by apply ok_unique].
  intros p. rewrite (ok_projection _ Hdb). intros E. pose proof (replay_facts db Hdb asset) as Hr.
  rewrite E in Hr. by apply rp_revision in Hr.
Qed.

(** Commands are idempotent: once a record or a clear command has taken
    effect, submitting it again in any later database reports a replay and
    changes nothing, whatever other commands ran in between. *)
Theorem latch_commands_idempotent db db' db'' startedAt recordedAt :
  reachable db -> rtc latch_step db' db'' ->
  (forall s r a o p, s <= r ->
     record_stablecoin_depeg_latch db s r a = Ok (o, p, db') -> o = OUT_LATCHED \/ o = OUT_RELATCHED ->
     record_arguments_valid startedAt a = true ->
     record_stablecoin_depeg_latch db'' startedAt recordedAt a =
       Ok (OUT_IDEMPOTENT_REPLAY, read_stablecoin_depeg_latch db'' (ra_asset a), db'')) /\
  (forall s r a p, s <= r ->
     clear_stablecoin_depeg_latch db s r a = Ok (CLR_CLEARED, p, db') ->
     clear_arguments_valid startedAt a = true ->
     clear_stablecoin_depeg_latch db'' startedAt recordedAt a =
       Ok (CLR_IDEMPOTENT_REPLAY, read_stablecoin_depeg_latch db'' (ca_asset a), db'')).
Proof.
  intros Hdb%reachable_ok Hs. split.
  - intros s r a o p Hc H Ho Hv.
    pose proof (steps_ok _ _ (step_ok _ _ Hdb (step_record _ _ _ _ _ _ _ Hc H)) Hs) as Hdb''.
    apply record_events in H. assert (latched_event a (next_revision (ra_expectedRevision a)) r ∈ db_events db'') as He.
    { destruct Ho as [-> | ->]; by eapply recorded_later. }
    pose proof (recorded_prior _ _ Hdb'' He) as Hp. destruct (recorded_has_state db'' (ra_asset a) _ Hdb'' He eq_refl) as [q Eq].
    unfold record_stablecoin_depeg_latch. rewrite Hv. cbn [negb]. revert Hp. event_fields. intros ->.
    rewrite same_record_refl, (ok_projection _ Hdb''), Eq. done.
  - intros s r a p Hc H Hv.
    pose proof (steps_ok _ _ (step_ok _ _ Hdb (step_clear _ _ _ _ _ _ _ Hc H)) Hs) as Hdb''.
    apply clear_events in H as (current & Hd & H). pose proof (recorded_later _ _ _ _ H Hs) as He.
    pose proof (recorded_prior _ _ Hdb'' He) as Hp. destruct (recorded_has_state db'' (ca_asset a) _ Hdb'' He eq_refl) as [q Eq].
    apply clear_decision_none in Hd as (_ & Hrev & _).
    unfold clear_stablecoin_depeg_latch. rewrite Hv. cbn [negb]. revert Hp. event_fields. intros ->.
    rewrite same_clear_refl by done. rewrite (ok_projection _ Hdb''), Eq. done.
Qed.

(** C31: a latch can always be cleared: whatever other calls ran since the latch
    [p] of an asset was read, while the asset's revision is unchanged a valid
    clear command for [p] with fresh ids and a fresh authorization, submitted
    inside the authorization's window, takes effect. *)
Theorem latch_can_be_cleared db db' startedAt recordedAt a p p' :
  reachable db -> read_stablecoin_depeg_latch db (ca_asset a) = Some p -> pj_status p = LATCHED ->
  rtc latch_step db db' -> read_stablecoin_depeg_latch db' (ca_asset a) = Some p' ->
  pj_revision p' = pj_revision p ->
  ca_expectedRevision a = pj_revision p -> ca_latchId a = pj_latchId p -> ca_latchedAt a = pj_latchedAt p ->
  ca_evidenceActorReferenceId a = pj_evidenceActorReferenceId p ->
  clear_arguments_valid startedAt a = true -> startedAt <= recordedAt ->
  ca_notBefore a <= recordedAt < ca_expiresAt a ->
  fresh_for (db_events db') (cleared_event a p recordedAt) ->
  exists db'', clear_stablecoin_depeg_latch db' startedAt recordedAt a =
                 Ok (CLR_CLEARED, Some (cleared_projection a p recordedAt), db'') /\
               reachable db''.
Proof.
  intros Hreach Hp Hl Hs Hp' Er Erev Eid Eat Eactor Hv Hclock Hw (Hprior & Hfp & Hcf).
  pose proof (reachable_ok _ Hreach) as Hdb.
  pose proof (same_revision_same_state _ _ _ _ _ Hdb Hs Hp Hp' Er) as ->.
  assert (reachable db') as Hreach' by (unfold reachable in *; by etrans).
  pose proof (reachable_ok _ Hreach') as Hdb'. pose proof Hp' as E. rewrite (ok_projection _ Hdb') in E.
  assert (clear_decision recordedAt a p = None) as Hd by (apply clear_decision_none; split_and!; congruence || lia).
  pose proof (clear_agrees db' startedAt recordedAt a Hdb' Hclock) as Ha.
  assert (log_clear (db_events db') startedAt recordedAt a =
    Ok (CLR_CLEARED, db_events db' ++ [cleared_event a p recordedAt])) as Hlog.
  { unfold log_clear. rewrite Hv. cbn [negb]. unfold prior_in in Hprior |- *. revert Hprior. event_fields. intros ->.
    unfold authorization_spent. rewrite (authorization_unused {| db_events := db_events db'; db_projections := [] |} a p recordedAt Hcf).
    rewrite E, Hd. unfold log_append. rewrite Hfp. done. }
  rewrite Hlog in Ha. unfold agrees in Ha.
  destruct (clear_stablecoin_depeg_latch db' startedAt recordedAt a) as [[[o q] db'']|] eqn:Hc; [|done].
  destruct Ha as (-> & He & -> & _). exists db''. split.
  - rewrite replay_snoc, decide_True, E by done. unfold apply_event. event_fields. cbn [fmap option_fmap option_map].
    unfold clear_of, cleared_projection. event_fields. done.
  - eapply rtc_r; [exact Hreach'|]. by eapply step_clear.
Qed.

(** ** Witnesses *)


(** USDT latched at one second past the epoch. *)
Definition record_example : record_args :=
  {| ra_expectedRevision := None; ra_correlationId := uuid_example "1"; ra_latchId := hex64_example "1";
     ra_asset := usdt_example; ra_latchedAt := 1000; ra_evidenceActorReferenceId := "desk:evidence";
     ra_depegEvidenceFingerprint := hex64_example "2"; ra_commandFingerprint := hex64_example "3";
     ra_eventFingerprint := hex64_example "4" |}.

(** The same, cleared four seconds later. *)
Definition clear_example : clear_args :=
  {| ca_correlationId := uuid_example "2"; ca_asset := usdt_example; ca_clearId := hex64_example "5";
     ca_latchedAt := 1000; ca_expectedRevision := 1; ca_latchId := hex64_example "1";
     ca_recoveryEvidenceFingerprint := hex64_example "6"; ca_evidenceActorReferenceId := "desk:evidence";
     ca_riskApproverReferenceId := "desk:risk"; ca_clearedAt := 3000; ca_issuedAt := 3000;
     ca_notBefore := 3000; ca_expiresAt := 60000; ca_evaluatedAt := 4000; ca_nonce := uuid_example "3";
     ca_authorizationFingerprint := hex64_example "7";
     ca_authorizationId := AUTHORIZATION_ID_PREFIX +:+ hex64_example "7";
     ca_commandFingerprint := hex64_example "8"; ca_eventFingerprint := hex64_example "9" |}.

Definition db_after {E O} (res : result E (O * option latch_projection * latch_db)) : latch_db :=
  match res with
  | Ok (_, _, db) => db
  | Err _ => empty_db
  end.

Definition latched_example : latch_db := db_after (record_stablecoin_depeg_latch empty_db 1500 1600 record_example).
Definition cleared_example : latch_db := db_after (clear_stablecoin_depeg_latch latched_example 5000 5100 clear_example).

Lemma latched_example_reachable : reachable latched_example.
Proof.
  apply rtc_once. apply (step_record empty_db 1500 1600 record_example OUT_LATCHED
    (Some (latched_projection record_example 1 1600))); [lia | vm_compute; reflexivity].
Qed.

(** A whole life: latched, refused to an unrelated second latch, cleared,
    relatched at the next revision. *)
Example latch_life :
  let relatch := {| ra_expectedRevision := Some 2; ra_correlationId := uuid_example "4";
    ra_latchId := hex64_example "a"; ra_asset := usdt_example; ra_latchedAt := 9000;
    ra_evidenceActorReferenceId := "desk:evidence"; ra_depegEvidenceFingerprint := hex64_example "b";
    ra_commandFingerprint := hex64_example "c"; ra_eventFingerprint := hex64_example "d" |} in
  (fun res => match res with Ok (o, _, _) => Some o | Err _ => None end)
    (record_stablecoin_depeg_latch cleared_example 9500 9600 relatch) = Some OUT_RELATCHED /\
  (fun res => match res with Ok (o, _, _) => Some o | Err _ => None end)
    (record_stablecoin_depeg_latch latched_example 9500 9600 relatch) = Some OUT_REVISION_CONFLICT.
Proof. vm_compute. split; reflexivity. Qed.

Lemma latch_tables_refine_log_witness :
  log_record (db_events latched_example) 5000 5100 record_example =
    Ok (OUT_IDEMPOTENT_REPLAY, db_events latched_example) /\
  agrees usdt_example (clear_stablecoin_depeg_latch latched_example 5000 5100 clear_example)
    (log_clear (db_events latched_example) 5000 5100 clear_example).
Proof.
  split; [vm_compute; reflexivity|].
  apply (latch_tables_refine_log latched_example 5000 5100); [apply latched_example_reachable | lia].
Defined.

Lemma latch_history_invariant_witness :
  read_stablecoin_depeg_latch latched_example usdt_example = replay usdt_example (db_events latched_example) /\
  length (history usdt_example (db_events latched_example)) = 1%nat.
Proof.
  split; [|vm_compute; reflexivity].
  apply (latch_history_invariant latched_example usdt_example), latched_example_reachable.
Defined.

Lemma latch_commands_idempotent_witness :
  record_stablecoin_depeg_latch cleared_example 7000 7100 record_example =
    Ok (OUT_IDEMPOTENT_REPLAY, read_stablecoin_depeg_latch cleared_example usdt_example, cleared_example).
Proof.
  assert (rtc latch_step latched_example cleared_example) as Hs.
  { apply rtc_once. apply (step_clear latched_example 5000 5100 clear_example CLR_CLEARED
      (read_stablecoin_depeg_latch cleared_example usdt_example)); [lia | vm_compute; reflexivity]. }
  apply (proj1 (latch_commands_idempotent empty_db latched_example cleared_example 7000 7100 (rtc_refl _ _) Hs)
    1500 1600 record_example OUT_LATCHED (Some (latched_projection record_example 1 1600)));
    [lia | vm_compute; reflexivity | by left | vm_compute; reflexivity].
Defined.

Lemma latch_can_be_cleared_witness :
  exists db, clear_stablecoin_depeg_latch latched_example 5000 5100 clear_example =
    Ok (CLR_CLEARED, Some (cleared_projection clear_example (latched_projection record_example 1 1600) 5100), db) /\
    reachable db.
Proof.
  apply (latch_can_be_cleared latched_example latched_example 5000 5100 clear_example
    (latched_projection record_example 1 1600) (latched_projection record_example 1 1600));
    [apply latched_example_reachable | vm_compute; reflexivity | reflexivity | apply rtc_refl
    | vm_compute; reflexivity | reflexivity.. | vm_compute; reflexivity | lia | cbn; lia |].
  split; [vm_compute; reflexivity|]. split; [vm_compute; reflexivity|].
  intros d c' ->%list_elem_of_singleton. discriminate.
Defined.
