(* ===== verification/DepegLatchRepository.v ===== *)
(** * The depeg latch repository
    (apps/api/src/valuation/infrastructure/postgres/
    postgres-stablecoin-depeg-latch.repository.ts)

    The adapter between the latch commands and the latch tables: it validates a
    request, makes one query and reads the rows back without trusting them.
    Everything that goes wrong is one error.  The queries are calls with any
    answer; [latch_tables] answers them from the tables of DepegLatchDatabase, as
    node-postgres presents their rows (bigint as text, smallint as a number,
    timestamptz as a Date).  A Date of another prototype is taken not to inherit
    from [Date.prototype]. *)

From stdpp Require Import base list strings sets relations.
From Stdlib Require Import ZArith Lia.
From S2P Require Import Prelude Text JsValue JsDate JsCollections Effects AssetRegistry Valuation ValuationRecovery.
From S2P Require Import DepegLatch DepegLatchDatabase.

Open Scope Z_scope.

(** ** Data *)

Definition PROJECTION_COLUMNS : list string :=
  ["projection_schema_version"; "projection_registry_environment"; "projection_registry_version";
   "projection_registry_fingerprint"; "projection_stablecoin"; "projection_network_id";
   "projection_asset_identity"; "projection_asset_decimals"; "projection_revision"; "projection_status";
   "projection_latch_id"; "projection_latched_at"; "projection_depeg_evidence_fingerprint";
   "projection_evidence_actor_reference_id"; "projection_clear_id"; "projection_cleared_at";
   "projection_risk_approver_reference_id"; "projection_last_event_id";
   "projection_last_event_fingerprint"; "projection_updated_at"].

Record StablecoinDepegLatch : Type := {
  sl_asset : StablecoinValuationAssetReference;
  sl_revision : Z;
  sl_status : latch_status;
  sl_latchId : string;
  sl_latchedAt : string;
  sl_depegEvidenceFingerprintSha256 : string;
  sl_evidenceActorReferenceId : string;
  sl_clearId : option string;
  sl_clearedAt : option string;
  sl_riskApproverReferenceId : option string;
  sl_lastEventId : string;
  sl_lastEventFingerprintSha256 : string;
  sl_updatedAt : string;
}.

#[export] Program Instance LATCH_STATUSES : JsEnum latch_status := {
  enum_values := [LATCHED; CLEARED];
  enum_str := fun s => match s with LATCHED => "LATCHED" | CLEARED => "CLEARED" end;
}.
Next Obligation. solve_enum_all. Qed.
Next Obligation. solve_enum_inj. Qed.

#[export] Program Instance RECORD_OUTCOMES : JsEnum record_outcome := {
  enum_values := [OUT_LATCHED; OUT_RELATCHED; OUT_IDEMPOTENT_REPLAY; OUT_ALREADY_LATCHED; OUT_REVISION_CONFLICT];
  enum_str := fun o => match o with
    | OUT_LATCHED => "LATCHED" | OUT_RELATCHED => "RELATCHED" | OUT_IDEMPOTENT_REPLAY => "IDEMPOTENT_REPLAY"
    | OUT_ALREADY_LATCHED => "ALREADY_LATCHED" | OUT_REVISION_CONFLICT => "REVISION_CONFLICT" end;
}.
Next Obligation. solve_enum_all. Qed.
Next Obligation. solve_enum_inj. Qed.

#[export] Program Instance CLEAR_OUTCOMES : JsEnum clear_outcome := {
  enum_values := [CLR_CLEARED; CLR_IDEMPOTENT_REPLAY; CLR_LATCH_NOT_FOUND; CLR_LATCH_STATUS_MISMATCH;
                  CLR_REVISION_CONFLICT; CLR_LATCH_BINDING_MISMATCH; CLR_AUTHORIZATION_EXPIRED];
  enum_str := fun o => match o with
    | CLR_CLEARED => "CLEARED" | CLR_IDEMPOTENT_REPLAY => "IDEMPOTENT_REPLAY"
    | CLR_LATCH_NOT_FOUND => "LATCH_NOT_FOUND" | CLR_LATCH_STATUS_MISMATCH => "LATCH_STATUS_MISMATCH"
    | CLR_REVISION_CONFLICT => "REVISION_CONFLICT" | CLR_LATCH_BINDING_MISMATCH => "LATCH_BINDING_MISMATCH"
    | CLR_AUTHORIZATION_EXPIRED => "AUTHORIZATION_EXPIRED" end;
}.
Next Obligation. solve_enum_all. Qed.
Next Obligation. solve_enum_inj. Qed.

(** What can be thrown inside a method; callers only ever see the first. *)
Inductive depeg_exception : Type :=
| StablecoinDepegLatchPersistenceError
| CommandRejected (code : StablecoinDepegLatchValidationCode)
| QueryRejected.

Notation persisted := (result depeg_exception).
Notation persistenceFailure := (Err StablecoinDepegLatchPersistenceError).

(** The three queries with their parameters. *)
Inductive latch_query : Type :=
| QueryRead (asset : StablecoinValuationAssetReference)
| QueryRecord (command : NormalizedRecordStablecoinDepegLatchCommand)
| QueryClear (command : NormalizedClearStablecoinDepegLatchCommand).

(** [result.rows] *)
Definition latch_rows (q : latch_query) : Type := list jsval.

Notation latch_io := (io latch_rows depeg_exception).

(** ** Reading rows *)

Definition ownRow (value : jsval) (additionalColumns : list string) : persisted jsrec :=
  or_throw (exact_data_record (additionalColumns ++ PROJECTION_COLUMNS) value)
    StablecoinDepegLatchPersistenceError.

Definition oneRow (rows : list jsval) (additionalColumns : list string) : persisted jsrec :=
  match rows with
  | [row] => ownRow row additionalColumns
  | _ => persistenceFailure
  end.

(** The milliseconds of [timestamp(value)]; the text is their [toISOString()]. *)
Definition timestamp (value : jsval) : persisted Z :=
  or_throw (date_time value) StablecoinDepegLatchPersistenceError.

Definition row_string (pattern : string -> bool) (value : jsval) : persisted string :=
  match value with
  | VStr s => if pattern s then Ok s else persistenceFailure
  | _ => persistenceFailure
  end.

Definition digest := row_string HEX64_PATTERN.
Definition reference := row_string REFERENCE.

Definition revision (value : jsval) : persisted Z :=
  match value with
  | VStr s =>
      reject StablecoinDepegLatchPersistenceError when negb (POSITIVE_INTEGER_PATTERN s) in
      reject StablecoinDepegLatchPersistenceError when MAX_SAFE_INTEGER <? BigInt s in
      Ok (BigInt s)
  | _ => persistenceFailure
  end.

Definition isNullProjection (row : jsrec) : bool :=
  forallb (fun column => is_null (row .: column)) PROJECTION_COLUMNS.

(** [value === null ? null : f(value)] *)
Definition nullable {A} (f : jsval -> persisted A) (value : jsval) : persisted (option A) :=
  if is_null value then Ok None else rmap Some (f value).

(** The columns agree with the status. *)
Definition consistent (status : latch_status) (latchId actor lastEventId : string) (latchedAt updatedAt : Z)
    (clearId clearedAt approver : jsval) : bool :=
  match status with
  | LATCHED =>
      is_null clearId && is_null clearedAt && is_null approver && String.eqb lastEventId latchId
      && (latchedAt <=? updatedAt)
  | CLEARED =>
      match clearId, date_time clearedAt, approver with
      | VStr clearId, Some clearedAt, VStr approver =>
          String.eqb lastEventId clearId && negb (String.eqb approver actor)
          && (latchedAt <=? clearedAt) && (clearedAt <=? updatedAt)
      | _, _, _ => false
      end
  end.

Section repository.
(** [MAINNET_SUPPORTED_ASSET_REGISTRY]; [createHash('sha256')]. *)
Variable registry : VersionedSupportedAssetRegistry.
Variable sha256 : string -> string.

Definition row_asset (row : jsrec) : jsval := js_object
  [("registryEnvironment", row .: "projection_registry_environment");
   ("registryVersion", row .: "projection_registry_version");
   ("registryFingerprintSha256", row .: "projection_registry_fingerprint");
   ("stablecoin", row .: "projection_stablecoin"); ("networkId", row .: "projection_network_id");
   ("identity", row .: "projection_asset_identity"); ("decimals", row .: "projection_asset_decimals")].

Definition mapProjection (row : jsrec) : persisted (option StablecoinDepegLatch) :=
  if isNullProjection row then Ok None
  else
    let* asset := rlift CommandRejected (normalizeStablecoinDepegLatchAsset registry (row_asset row)) in
    reject StablecoinDepegLatchPersistenceError when negb (is_int (row .: "projection_schema_version") 1) in
    let* status := or_throw (enum_member enum_values (row .: "projection_status"))
                     StablecoinDepegLatchPersistenceError in
    let clearId := row .: "projection_clear_id" in
    let clearedAt := row .: "projection_cleared_at" in
    let approver := row .: "projection_risk_approver_reference_id" in
    let* latchId := digest (row .: "projection_latch_id") in
    let* actor := reference (row .: "projection_evidence_actor_reference_id") in
    let* lastEventId := digest (row .: "projection_last_event_id") in
    let* latchedAt := timestamp (row .: "projection_latched_at") in
    let* updatedAt := timestamp (row .: "projection_updated_at") in
    reject StablecoinDepegLatchPersistenceError when
      negb (consistent status latchId actor lastEventId latchedAt updatedAt clearId clearedAt approver) in
    let* currentRevision := revision (row .: "projection_revision") in
    let* evidence := digest (row .: "projection_depeg_evidence_fingerprint") in
    let* clearId := nullable digest clearId in
    let* clearedAt := nullable timestamp clearedAt in
    let* approver := nullable reference approver in
    let* lastEventFingerprint := digest (row .: "projection_last_event_fingerprint") in
    Ok (Some {| sl_asset := asset; sl_revision := currentRevision; sl_status := status; sl_latchId := latchId;
                sl_latchedAt := toISOString latchedAt; sl_depegEvidenceFingerprintSha256 := evidence;
                sl_evidenceActorReferenceId := actor; sl_clearId := clearId;
                sl_clearedAt := toISOString <$> clearedAt; sl_riskApproverReferenceId := approver;
                sl_lastEventId := lastEventId; sl_lastEventFingerprintSha256 := lastEventFingerprint;
                sl_updatedAt := toISOString updatedAt |}).

Definition recordOutcome (value : jsval) : persisted record_outcome :=
  or_throw (enum_member enum_values value) StablecoinDepegLatchPersistenceError.

Definition clearOutcome (value : jsval) : persisted clear_outcome :=
  or_throw (enum_member enum_values value) StablecoinDepegLatchPersistenceError.

Definition has_status (latch : option StablecoinDepegLatch) (status : latch_status) : bool :=
  bool_decide (sl_status <$> latch = Some status).

(** The outcome a record query reports fits the latch it returns. *)
Definition record_fits (outcome : record_outcome) (latch : option StablecoinDepegLatch) : bool :=
  match outcome with
  | OUT_REVISION_CONFLICT => true
  | OUT_IDEMPOTENT_REPLAY => bool_decide (is_Some latch)
  | OUT_LATCHED | OUT_RELATCHED | OUT_ALREADY_LATCHED => has_status latch LATCHED
  end.

Definition clear_fits (outcome : clear_outcome) (latch : option StablecoinDepegLatch) : bool :=
  match outcome with
  | CLR_LATCH_NOT_FOUND => negb (bool_decide (is_Some latch))
  | CLR_CLEARED | CLR_LATCH_STATUS_MISMATCH => has_status latch CLEARED
  | CLR_LATCH_BINDING_MISMATCH => has_status latch LATCHED
  | CLR_IDEMPOTENT_REPLAY | CLR_REVISION_CONFLICT | CLR_AUTHORIZATION_EXPIRED => bool_decide (is_Some latch)
  end.

(** [catch (error) { if (error instanceof …PersistenceError) throw error; return persistenceFailure(); }] *)
Definition guarded {A} (m : latch_io A) : latch_io A := io_try m (fun _ => Done persistenceFailure).

Definition loadCurrent (assetValue : jsval) : latch_io (option StablecoinDepegLatch) := guarded (
  await* asset := Done (rlift CommandRejected (normalizeStablecoinDepegLatchAsset registry assetValue)) in
  await* rows := call (QueryRead asset) in
  match rows with
  | [] => Done (Ok None)
  | _ => Done (let* row := oneRow rows [] in mapProjection row)
  end).

Definition record_rows (rows : list jsval) : persisted (record_outcome * option StablecoinDepegLatch) :=
  let* row := oneRow rows ["record_outcome"] in
  let* outcome := recordOutcome (row .: "record_outcome") in
  let* latch := mapProjection row in
  reject StablecoinDepegLatchPersistenceError when negb (record_fits outcome latch) in
  Ok (outcome, latch).

Definition record (request : jsval) : latch_io (record_outcome * option StablecoinDepegLatch) := guarded (
  await* command := Done (rlift CommandRejected
                      (normalizeRecordStablecoinDepegLatchCommand registry sha256 request)) in
  await* rows := call (QueryRecord command) in
  Done (record_rows rows)).

Definition clear_rows (rows : list jsval) : persisted (clear_outcome * option StablecoinDepegLatch) :=
  let* row := oneRow rows ["clear_outcome"] in
  let* outcome := clearOutcome (row .: "clear_outcome") in
  let* latch := mapProjection row in
  reject StablecoinDepegLatchPersistenceError when negb (clear_fits outcome latch) in
  Ok (outcome, latch).

Definition clear (request : jsval) : latch_io (clear_outcome * option StablecoinDepegLatch) := guarded (
  await* command := Done (rlift CommandRejected
                      (normalizeClearStablecoinDepegLatchCommand registry sha256 request)) in
  await* rows := call (QueryClear command) in
  Done (clear_rows rows)).
End repository.

(** ** The tables behind the queries *)

(** node-postgres parses a canonical timestamp parameter exactly. *)
Definition ms_of (text : string) : Z := default 0 (canonical_timestamp text).

Definition record_args_of (c : NormalizedRecordStablecoinDepegLatchCommand) : record_args :=
  {| ra_expectedRevision := rc_expectedRevision c; ra_correlationId := rc_correlationId c;
     ra_latchId := rc_latchId c; ra_asset := rc_asset c; ra_latchedAt := ms_of (rc_latchedAt c);
     ra_evidenceActorReferenceId := rc_evidenceActorReferenceId c;
     ra_depegEvidenceFingerprint := rc_depegEvidenceFingerprintSha256 c;
     ra_commandFingerprint := rc_commandFingerprintSha256 c;
     ra_eventFingerprint := rc_eventFingerprintSha256 c |}.

Definition clear_args_of (c : NormalizedClearStablecoinDepegLatchCommand) : clear_args :=
  {| ca_correlationId := cc_correlationId c; ca_asset := cc_asset c; ca_clearId := cc_clearId c;
     ca_latchedAt := ms_of (cc_latchedAt c); ca_expectedRevision := cc_expectedRevision c;
     ca_latchId := cc_latchId c; ca_recoveryEvidenceFingerprint := cc_recoveryEvidenceFingerprintSha256 c;
     ca_evidenceActorReferenceId := cc_evidenceActorReferenceId c;
     ca_riskApproverReferenceId := cc_riskApproverReferenceId c; ca_clearedAt := ms_of (cc_clearedAt c);
     ca_issuedAt := ms_of (cc_authorizationIssuedAt c); ca_notBefore := ms_of (cc_authorizationNotBefore c);
     ca_expiresAt := ms_of (cc_authorizationExpiresAt c); ca_evaluatedAt := ms_of (cc_evaluatedAt c);
     ca_nonce := cc_authorizationNonce c;
     ca_authorizationFingerprint := cc_authorizationFingerprintSha256 c;
     ca_authorizationId := cc_authorizationId c; ca_commandFingerprint := cc_commandFingerprintSha256 c;
     ca_eventFingerprint := cc_eventFingerprintSha256 c |}.

(** The columns of a projection, or NULLs. *)
Definition projection_row (o : option latch_projection) : jsrec :=
  match o with
  | None => (fun column => (column, VNull)) <$> PROJECTION_COLUMNS
  | Some p =>
      [("projection_schema_version", VNum (JInt 1));
       ("projection_registry_environment", VStr (enum_str (ref_registryEnvironment (pj_asset p))));
       ("projection_registry_version", VNum (JInt (ref_registryVersion (pj_asset p))));
       ("projection_registry_fingerprint", VStr (ref_registryFingerprintSha256 (pj_asset p)));
       ("projection_stablecoin", VStr (enum_str (ref_stablecoin (pj_asset p))));
       ("projection_network_id", VStr (ref_networkId (pj_asset p)));
       ("projection_asset_identity", VStr (ref_identity (pj_asset p)));
       ("projection_asset_decimals", VNum (JInt (ref_decimals (pj_asset p))));
       ("projection_revision", VStr (toString (pj_revision p)));
       ("projection_status", VStr (enum_str (pj_status p)));
       ("projection_latch_id", VStr (pj_latchId p)); ("projection_latched_at", js_date (pj_latchedAt p));
       ("projection_depeg_evidence_fingerprint", VStr (pj_depegEvidenceFingerprint p));
       ("projection_evidence_actor_reference_id", VStr (pj_evidenceActorReferenceId p));
       ("projection_clear_id", js_nullable (pj_clearId p));
       ("projection_cleared_at", match pj_clearedAt p with None => VNull | Some t => js_date t end);
       ("projection_risk_approver_reference_id", js_nullable (pj_riskApproverReferenceId p));
       ("projection_last_event_id", VStr (pj_lastEventId p));
       ("projection_last_event_fingerprint", VStr (pj_lastEventFingerprint p));
       ("projection_updated_at", js_date (pj_updatedAt p))]
  end.

Definition outcome_row {O} `{JsEnum O} (column : string) (o : O) (p : option latch_projection) : jsval :=
  js_object ((column, VStr (enum_str o)) :: projection_row p).

(** [clock] holds the two readings a function takes. *)
Definition latch_tables (clock : Z * Z) (q : latch_query) (db : latch_db)
    : result depeg_exception (list jsval) * latch_db :=
  match q with
  | QueryRead asset =>
      if assetBinding asset then
        (Ok match read_stablecoin_depeg_latch db asset with
            | None => []
            | Some p => [js_object (projection_row (Some p))]
            end, db)
      else (Err QueryRejected, db)
  | QueryRecord command =>
      match record_stablecoin_depeg_latch db clock.1 clock.2 (record_args_of command) with
      | Ok (o, p, db') => (Ok [outcome_row "record_outcome" o p], db')
      | Err _ => (Err QueryRejected, db)
      end
  | QueryClear command =>
      match clear_stablecoin_depeg_latch db clock.1 clock.2 (clear_args_of command) with
      | Ok (o, p, db') => (Ok [outcome_row "clear_outcome" o p], db')
      | Err _ => (Err QueryRejected, db)
      end
  end.

(** The result of a method on the tables, and the tables after it. *)
Definition on_tables {A} (clock : Z * Z) (db : latch_db) (m : latch_io A) : persisted A * latch_db :=
  let '(res, _, db') := run (latch_tables clock) db m in (res, db').

(** What a caller sees of a projection. *)
Definition latch_view (p : latch_projection) : StablecoinDepegLatch :=
  {| sl_asset := pj_asset p; sl_revision := pj_revision p; sl_status := pj_status p; sl_latchId := pj_latchId p;
     sl_latchedAt := toISOString (pj_latchedAt p);
     sl_depegEvidenceFingerprintSha256 := pj_depegEvidenceFingerprint p;
     sl_evidenceActorReferenceId := pj_evidenceActorReferenceId p; sl_clearId := pj_clearId p;
     sl_clearedAt := toISOString <$> pj_clearedAt p; sl_riskApproverReferenceId := pj_riskApproverReferenceId p;
     sl_lastEventId := pj_lastEventId p; sl_lastEventFingerprintSha256 := pj_lastEventFingerprint p;
     sl_updatedAt := toISOString (pj_updatedAt p) |}.

(** The rows the adapter accepts: it refuses a latch from after its recording,
    which the tables accept for up to thirty seconds. *)
Definition readable (p : latch_projection) : bool :=
  match pj_status p with
  | LATCHED => pj_latchedAt p <=? pj_updatedAt p
  | CLEARED => true
  end && (pj_revision p <=? MAX_SAFE_INTEGER).

Definition readable_opt (o : option latch_projection) : bool :=
  match o with
  | None => true
  | Some p => readable p
  end.

(** ** Lemmas: the assets of the registry and of the tables *)

(** The shipped registry, when SHA-256 gives its reviewed fingerprint. *)
Definition reviewed_registry (registry : VersionedSupportedAssetRegistry) : Prop :=
  (exists sha256, MAINNET_SUPPORTED_ASSET_REGISTRY sha256 = Ok registry) /\
  snap_fingerprintSha256 (reg_latest registry) = REGISTRY_FINGERPRINT.

Lemma reviewed_registry_eq registry : reviewed_registry registry -> registry = mainnet_registry_example.
Proof.
  intros [[sha256 H] Hfp]. vm_compute in H. injection H as <-.
  cbn [snap_fingerprintSha256 reg_latest] in Hfp. rewrite Hfp. reflexivity.
Qed.

Lemma reviewed_registry_example : reviewed_registry mainnet_registry_example.
Proof. split; [eexists; exact mainnet_registry_example_shipped | vm_compute; reflexivity]. Qed.

Lemma reviewed_registry_wf registry : reviewed_registry registry -> registry_wf registry.
Proof. intros [[sha256 H] _]. by eapply shipped_registry_wf. Qed.

Lemma binding_accepted a :
  assetBinding a = true -> normalizeStablecoinDepegLatchAsset mainnet_registry_example (asset_js a) = Ok a.
Proof.
  unfold assetBinding. intros H. bsimpl.
  destruct a as [environment version fp stablecoin networkId identity decimals].
  cbn [ref_registryEnvironment ref_registryVersion ref_registryFingerprintSha256 ref_stablecoin
    ref_networkId ref_identity ref_decimals] in *.
  repeat match goal with H : bool_decide _ = true |- _ => apply bool_decide_eq_true in H
    | H : String.eqb _ _ = true |- _ => apply String.eqb_eq in H end. subst.
  match goal with H : _ ∈ _ |- _ => rewrite !elem_of_cons in H;
    repeat destruct H as [[= -> -> ->]|H]; [..|by apply not_elem_of_nil in H] end;
    vm_compute; reflexivity.
Qed.

Lemma binding_complete v a :
  normalizeStablecoinDepegLatchAsset mainnet_registry_example v = Ok a -> assetBinding a = true.
Proof.
  intros H. unfold normalizeStablecoinDepegLatchAsset, ownDataRecord in H. inv_ok.
  destruct (r .: "registryFingerprintSha256") as [| | | | |fp| | | | | |] eqn:Ef; try done.
  destruct (r .: "stablecoin") as [| | | | |stablecoin| | | | | |] eqn:Es; try done.
  destruct (r .: "networkId") as [| | | | |networkId| | | | | |] eqn:En; try done.
  destruct (r .: "identity") as [| | | | |identity| | | | | |] eqn:Ei; try done.
  inv_ok. bsimpl.
  destruct (reviewed_registry_wf _ reviewed_registry_example _ Hr1) as (Hw & Hm & Hlatest).
  apply (identifyAsset_iff _ _ _ _ Hw Hm) in Hr2 as Hid. destruct Hid as (Hin & Enet & _).
  match goal with H : isMainnetLaunchNetwork _ = true |- _ => rename H into Hl end.
  rewrite <- Enet in Hl. subst a r1. clear -Hin Hl.
  let l := eval vm_compute in (snap_assets (reg_latest mainnet_registry_example)) in
    change (snap_assets (reg_latest mainnet_registry_example)) with l in Hin.
  rewrite !elem_of_cons in Hin.
  repeat destruct Hin as [->|Hin]; [..|by apply not_elem_of_nil in Hin];
    vm_compute in Hl; try discriminate Hl; vm_compute; reflexivity.
Qed.

(** ** Lemmas: rows of the tables *)

Lemma mapProjection_prefix registry column v o :
  (column = "record_outcome" \/ column = "clear_outcome") ->
  mapProjection registry ((column, v) :: projection_row o) = mapProjection registry (projection_row o).
Proof. intros [-> | ->]; destruct o; reflexivity. Qed.

Lemma row_string_ok pattern s : pattern s = true -> row_string pattern (VStr s) = Ok s.
Proof. unfold row_string. by intros ->. Qed.

Lemma revision_toString n :
  1 <= n -> revision (VStr (toString n)) =
    if n <=? MAX_SAFE_INTEGER then Ok n else persistenceFailure.
Proof.
  intros Hn. unfold revision. rewrite toString_positive, BigInt_toString by lia. cbn [negb].
  destruct (Z.ltb_spec MAX_SAFE_INTEGER n), (Z.leb_spec n MAX_SAFE_INTEGER); done || lia.
Qed.

(** What the tables guarantee of a projection they return. *)
Lemma stored_projection db asset p :
  db_ok db -> read_stablecoin_depeg_latch db asset = Some p ->
  projection_checks p = true /\
  (pj_status p = CLEARED -> exists t approver, pj_clearedAt p = Some t /\
     pj_riskApproverReferenceId p = Some approver /\ t <= pj_updatedAt p /\
     approver <> pj_evidenceActorReferenceId p).
Proof.
  intros Hdb. rewrite (ok_projection _ Hdb). intros E. pose proof (replay_facts db Hdb asset) as Hr.
  rewrite E in Hr. split; apply Hr.
Qed.

(** A row of the tables is read back, or refused for what [readable] says. *)
Lemma mapProjection_row db asset p :
  db_ok db -> read_stablecoin_depeg_latch db asset = Some p ->
  mapProjection mainnet_registry_example (projection_row (Some p)) =
    if readable p then Ok (Some (latch_view p)) else persistenceFailure.
Proof.
  intros Hdb Hp. destruct (stored_projection _ _ _ Hdb Hp) as [Hc Hcl]. unfold projection_checks in Hc. bsimpl.
  match goal with H : assetBinding _ = true |- _ => apply binding_accepted in H as Hasset end.
  unfold mapProjection. change (isNullProjection (projection_row (Some p))) with false. cbv iota.
  change (row_asset (projection_row (Some p))) with (asset_js (pj_asset p)). rewrite Hasset.
  cbn [projection_row]. read_fields. cbn [rlift rcatch rbind is_int Z.eqb Pos.eqb negb].
  rewrite enum_member_str. cbn [or_throw rbind].
  unfold digest, reference. rewrite !row_string_ok by done. cbn [rbind].
  cbn [timestamp js_date date_time or_throw rbind].
  rewrite revision_toString by done. unfold readable, latch_view.
  destruct (pj_status p) eqn:Es, (pj_clearId p) as [clearId|] eqn:Ei, (pj_clearedAt p) as [clearedAt|] eqn:Et,
    (pj_riskApproverReferenceId p) as [approver|] eqn:Ea; try done.
  - cbn [consistent js_nullable is_null andb]. match goal with H : String.eqb _ _ = true |- _ => rewrite H end.
    cbn [andb]. destruct (pj_latchedAt p <=? pj_updatedAt p); [|done]. cbn [negb andb].
    destruct (pj_revision p <=? MAX_SAFE_INTEGER); [|done]. reflexivity.
  - destruct (Hcl eq_refl) as (t & approver' & [= <-] & [= <-] & Hle & Hne). bsimpl.
    cbn [consistent js_nullable is_null js_date date_time].
    match goal with H : String.eqb _ _ = true |- _ => rewrite H end.
    rewrite (proj2 (String.eqb_neq _ _) Hne), !(proj2 (Z.leb_le _ _)) by done. cbn [negb andb].
    destruct (pj_revision p <=? MAX_SAFE_INTEGER); [|done]. cbn [rbind nullable is_null].
    rewrite !row_string_ok by done. reflexivity.
Qed.

Lemma oneRow_outcome column v o :
  (column = "record_outcome" \/ column = "clear_outcome") ->
  oneRow [js_object ((column, v) :: projection_row o)] [column] = Ok ((column, v) :: projection_row o).
Proof.
  intros Hc. unfold oneRow, ownRow.
  replace ([column] ++ PROJECTION_COLUMNS) with ((column, v) :: projection_row o).*1 by by destruct o.
  rewrite exact_data_record_literal; [done|]. apply (bool_decide_eq_true_1 _).
  destruct Hc as [-> | ->], o; vm_compute; reflexivity.
Qed.

Lemma mapProjection_opt db asset o :
  db_ok db -> read_stablecoin_depeg_latch db asset = o ->
  mapProjection mainnet_registry_example (projection_row o) =
    if readable_opt o then Ok (latch_view <$> o) else persistenceFailure.
Proof. destruct o as [p|]; [by apply mapProjection_row | done]. Qed.

(** The returned projection is the one in the tables afterwards, and the outcome fits it. *)
Lemma record_returned db s r a o p db' :
  db_ok db -> s <= r -> record_stablecoin_depeg_latch db s r a = Ok (o, p, db') ->
  db_ok db' /\ read_stablecoin_depeg_latch db' (ra_asset a) = p /\ record_fits o (latch_view <$> p) = true.
Proof.
  intros Hdb Hc H. pose proof (record_agrees db s r a Hdb Hc) as Ha. pose proof H as He.
  apply record_events in He. rewrite H in Ha. unfold agrees in Ha.
  destruct (log_record (db_events db) s r a) as [[o' es]|] eqn:Hl; [|done]. destruct Ha as (-> & <- & -> & Hdb').
  split; [done|]. split; [by apply (ok_projection _ Hdb')|].
  assert (db_events db' = db_events db ++ [latched_event a (next_revision (ra_expectedRevision a)) r] ->
    has_status (latch_view <$> replay (ra_asset a) (db_events db')) LATCHED = true) as Hlatched.
  { intros ->. rewrite replay_snoc, decide_True by done. reflexivity. }
  clear Hl. unfold record_stablecoin_depeg_latch in H.
  destruct (record_arguments_valid s a); [|done]. cbn [negb] in H. rewrite (ok_projection _ Hdb) in H.
  destruct o'; cbn [record_fits]; try (by apply Hlatched); [| |done]; subst db'.
  - rewrite bool_decide_true; [done|]. destruct (prior_events _ _ _) as [|d [|]]; [| |done].
    + repeat (case_match; inv_ok; simplify_eq; try done).
    + inv_ok. destruct (replay (ra_asset a) (db_events db)); [by eexists | done].
  - destruct (prior_events _ _ _) as [|d [|]]; [| |done].
    + destruct (replay (ra_asset a) (db_events db)) as [q|] eqn:E, (ra_expectedRevision a); inv_ok; simplify_eq.
      destruct (negb _); [done|]. destruct (pj_status q) eqn:Es; inv_ok; simplify_eq.
      unfold has_status. cbn. by rewrite Es, bool_decide_true.
    + inv_ok. destruct (replay (ra_asset a) (db_events db)); done.
Qed.

Lemma clear_returned db s r a o p db' :
  db_ok db -> s <= r -> clear_stablecoin_depeg_latch db s r a = Ok (o, p, db') ->
  db_ok db' /\ read_stablecoin_depeg_latch db' (ca_asset a) = p /\ clear_fits o (latch_view <$> p) = true.
Proof.
  intros Hdb Hc H. pose proof (clear_agrees db s r a Hdb Hc) as Ha. pose proof H as He.
  rewrite H in Ha. unfold agrees in Ha.
  destruct (log_clear (db_events db) s r a) as [[o' es]|] eqn:Hl; [|done]. destruct Ha as (-> & <- & -> & Hdb').
  split; [done|]. split; [by apply (ok_projection _ Hdb')|]. clear Hl He.
  unfold clear_stablecoin_depeg_latch in H. rewrite (ok_projection _ Hdb) in H. inv_ok.
  destruct (prior_events _ _ _) as [|d [|]]; [| |done]; inv_ok.
  - destruct (replay (ca_asset a) (db_events db)) as [q|] eqn:E; [|inv_ok; simplify_eq; by rewrite E].
    destruct (clear_decision r a q) as [decision|] eqn:Hd; inv_ok; simplify_eq.
    + unfold clear_decision in Hd. rewrite E. cbn [fmap option_fmap option_map].
      repeat (case_match; simplify_eq; try done); cbn [clear_fits]; try (by apply bool_decide_eq_true_2; eexists);
        unfold has_status; cbn; destruct (pj_status q); done.
    + match goal with H : append _ _ _ = Ok _ |- _ => apply append_events in H as -> end.
      rewrite replay_snoc, decide_True, E by done. reflexivity.
  - destruct (replay (ca_asset a) (db_events db)) as [q|] eqn:E; inv_ok; simplify_eq.
    rewrite E. by apply bool_decide_eq_true_2; eexists.
Qed.

(** Whatever queries a method makes, the tables stay reachable. *)
Lemma on_tables_reachable {A} clock db (m : latch_io A) :
  reachable db -> clock.1 <= clock.2 -> reachable (snd (on_tables clock db m)).
Proof.
  intros Hdb Hc. revert db Hdb. induction m as [res|q k IH]; intros db Hdb; [exact Hdb|].
  assert (reachable (snd (latch_tables clock q db))) as Hq.
  { destruct q; cbn [latch_tables]; repeat case_match; simplify_eq; try exact Hdb;
      (eapply rtc_r; [exact Hdb|]); [by eapply step_record | by eapply step_clear]. }
  unfold on_tables in *. cbn [run]. destruct (latch_tables clock q db) as [a db']. specialize (IH a db' Hq).
  by destruct (run (latch_tables clock) db' (k a)) as [[? ?] ?].
Qed.

(** ** Theorems *)

(** The SQL constraint that lists the six assets of the latch tables and the
    TypeScript check against the registry accept exactly the same assets, when
    the shipped registry has the fingerprint it was reviewed with. *)
Theorem latch_assets_agree registry a :
  reviewed_registry registry ->
  assetBinding a = true <-> normalizeStablecoinDepegLatchAsset registry (asset_js a) = Ok a.
Proof.
  intros ->%reviewed_registry_eq. split; [apply binding_accepted | apply binding_complete].
Qed.

(** C26: on the latch tables the repository's methods are the table functions:
    a rejected command changes nothing; an accepted one leaves the tables
    exactly as the function does and returns its outcome with the latch the
    tables now hold, unless that latch is dated after its own recording. *)
Theorem repository_refines_tables registry sha256 db clock :
  reviewed_registry registry -> reachable db -> clock.1 <= clock.2 ->
  (forall request, on_tables clock db (record registry sha256 request) =
     match normalizeRecordStablecoinDepegLatchCommand registry sha256 request with
     | Err _ => (persistenceFailure, db)
     | Ok command =>
         match record_stablecoin_depeg_latch db clock.1 clock.2 (record_args_of command) with
         | Err _ => (persistenceFailure, db)
         | Ok (o, p, db') => (if readable_opt p then Ok (o, latch_view <$> p) else persistenceFailure, db')
         end
     end) /\
  (forall request, on_tables clock db (clear registry sha256 request) =
     match normalizeClearStablecoinDepegLatchCommand registry sha256 request with
     | Err _ => (persistenceFailure, db)
     | Ok command =>
         match clear_stablecoin_depeg_latch db clock.1 clock.2 (clear_args_of command) with
         | Err _ => (persistenceFailure, db)
         | Ok (o, p, db') => (if readable_opt p then Ok (o, latch_view <$> p) else persistenceFailure, db')
         end
     end) /\
  (forall value, on_tables clock db (loadCurrent registry value) =
     (match normalizeStablecoinDepegLatchAsset registry value with
      | Err _ => persistenceFailure
      | Ok asset =>
          let p := read_stablecoin_depeg_latch db asset in
          if readable_opt p then Ok (latch_view <$> p) else persistenceFailure
      end, db)).
Proof.
  intros ->%reviewed_registry_eq Hdb%reachable_ok Hclock. split_and!.
  - intros request. unfold on_tables, record, guarded.
    destruct (normalizeRecordStablecoinDepegLatchCommand _ _ _) as [c|]; [|done].
    cbn [rlift rcatch io_bind call io_try run latch_tables].
    destruct (record_stablecoin_depeg_latch _ _ _ _) as [[[o p] db']|] eqn:E; [|done].
    destruct (record_returned _ _ _ _ _ _ _ Hdb Hclock E) as (Hdb' & Hread & Hfits). cbn [io_bind].
    unfold record_rows, outcome_row. rewrite oneRow_outcome by by left. cbn [rbind].
    rewrite mapProjection_prefix by by left. rewrite (mapProjection_opt db' _ _ Hdb' Hread).
    cbn [field String.eqb Ascii.eqb Bool.eqb]. unfold recordOutcome. rewrite enum_member_str. cbn [or_throw rbind].
    destruct (readable_opt p); [|done]. cbn [rbind]. by rewrite Hfits.
  - intros request. unfold on_tables, clear, guarded.
    destruct (normalizeClearStablecoinDepegLatchCommand _ _ _) as [c|]; [|done].
    cbn [rlift rcatch io_bind call io_try run latch_tables].
    destruct (clear_stablecoin_depeg_latch _ _ _ _) as [[[o p] db']|] eqn:E; [|done].
    destruct (clear_returned _ _ _ _ _ _ _ Hdb Hclock E) as (Hdb' & Hread & Hfits). cbn [io_bind].
    unfold clear_rows, outcome_row. rewrite oneRow_outcome by by right. cbn [rbind].
    rewrite mapProjection_prefix by by right. rewrite (mapProjection_opt db' _ _ Hdb' Hread).
    cbn [field String.eqb Ascii.eqb Bool.eqb]. unfold clearOutcome. rewrite enum_member_str. cbn [or_throw rbind].
    destruct (readable_opt p); [|done]. cbn [rbind]. by rewrite Hfits.
  - intros value. unfold on_tables, loadCurrent, guarded.
    destruct (normalizeStablecoinDepegLatchAsset _ value) as [asset|] eqn:Ha; [|done].
    cbn [rlift rcatch io_bind call io_try run latch_tables]. rewrite (binding_complete _ _ Ha).
    destruct (read_stablecoin_depeg_latch db asset) as [p|] eqn:Hp; [|done]. cbn [io_bind].
    unfold oneRow, ownRow. change ([] ++ PROJECTION_COLUMNS) with (projection_row (Some p)).*1.
    rewrite exact_data_record_literal by (apply (bool_decide_eq_true_1 _); vm_compute; reflexivity).
    cbn [or_throw rbind]. rewrite (mapProjection_row db asset p Hdb Hp). unfold readable_opt.
    by destruct (readable p).
Qed.

(** C40: a latch dated after its own recording cannot be read: once the tables
    hold it, loading it fails in every later database until the asset's
    revision changes, whatever the clock. *)
Theorem early_latch_unreadable registry db db' asset p p' clock value :
  reviewed_registry registry -> reachable db ->
  read_stablecoin_depeg_latch db asset = Some p -> pj_status p = LATCHED -> pj_updatedAt p < pj_latchedAt p ->
  rtc latch_step db db' -> read_stablecoin_depeg_latch db' asset = Some p' -> pj_revision p' = pj_revision p ->
  normalizeStablecoinDepegLatchAsset registry value = Ok asset ->
  on_tables clock db' (loadCurrent registry value) = (persistenceFailure, db').
Proof.
  intros ->%reviewed_registry_eq Hdb%reachable_ok Hp Hl Ht Hs Hp' Er Hv.
  pose proof (same_revision_same_state _ _ _ _ _ Hdb Hs Hp Hp' Er) as ->.
  unfold on_tables, loadCurrent, guarded. rewrite Hv.
  cbn [rlift rcatch io_bind call io_try run latch_tables]. rewrite (binding_complete _ _ Hv), Hp'. cbn [io_bind].
  unfold oneRow, ownRow. change ([] ++ PROJECTION_COLUMNS) with (projection_row (Some p)).*1.
  rewrite exact_data_record_literal by (apply (bool_decide_eq_true_1 _); vm_compute; reflexivity).
  cbn [or_throw rbind]. rewrite (mapProjection_row db' asset p (steps_ok _ _ Hdb Hs) Hp').
  unfold readable. by rewrite Hl, (proj2 (Z.leb_gt _ _) Ht).
Qed.

(** ** Witnesses *)

(** One second before and one after the instant of the evidence. *)
Definition early_clock : Z * Z := (1767225659000, 1767225659000).
Definition late_clock : Z * Z := (1767225661000, 1767225661000).

(** The command of DepegLatch, recorded early: the latch is stored and the
    caller is told that nothing could be. *)
Definition early_db : latch_db :=
  snd (on_tables early_clock empty_db (record mainnet_registry_example sha256_example record_command_example)).

Example early_record_commits :
  fst (on_tables early_clock empty_db (record mainnet_registry_example sha256_example record_command_example))
    = persistenceFailure /\
  pj_status <$> read_stablecoin_depeg_latch early_db usdt_example = Some LATCHED.
Proof. split; vm_compute; reflexivity. Qed.

Example late_record_returns :
  rmap (fun r => (r.1, sl_revision <$> r.2))
    (fst (on_tables late_clock empty_db (record mainnet_registry_example sha256_example record_command_example)))
    = Ok (OUT_LATCHED, Some 1).
Proof. vm_compute. reflexivity. Qed.

Lemma latch_assets_agree_witness :
  normalizeStablecoinDepegLatchAsset mainnet_registry_example (asset_js usdt_example) = Ok usdt_example.
Proof.
  apply (latch_assets_agree mainnet_registry_example usdt_example reviewed_registry_example).
  vm_compute. reflexivity.
Defined.

Lemma repository_refines_tables_witness :
  on_tables late_clock latched_example (loadCurrent mainnet_registry_example (asset_js usdt_example)) =
    (Ok (Some (latch_view (latched_projection record_example 1 1600))), latched_example).
Proof.
  pose proof (repository_refines_tables mainnet_registry_example sha256_example latched_example late_clock
    reviewed_registry_example latched_example_reachable (Z.le_refl _)) as (_ & _ & H).
  rewrite H. vm_compute. reflexivity.
Defined.

Lemma early_db_reachable : reachable early_db.
Proof. apply on_tables_reachable; [apply rtc_refl | apply Z.le_refl]. Qed.

Lemma early_latch_unreadable_witness :
  on_tables late_clock early_db (loadCurrent mainnet_registry_example (asset_js usdt_example)) =
    (persistenceFailure, early_db).
Proof.
  assert (exists p, read_stablecoin_depeg_latch early_db usdt_example = Some p /\ pj_status p = LATCHED /\
    pj_updatedAt p < pj_latchedAt p) as (p & Hp & Hl & Ht) by
    (eexists; split_and!; [vm_compute; reflexivity.. | vm_compute; reflexivity]).
  apply (early_latch_unreadable mainnet_registry_example early_db early_db usdt_example p p late_clock
    (asset_js usdt_example) reviewed_registry_example early_db_reachable Hp Hl Ht (rtc_refl _ _) Hp eq_refl).
  vm_compute. reflexivity.
Defined.
