(* ===== verification/BuyingPower.v ===== *)
(** * Buying power (apps/api/src/buying-power/domain/buying-power.ts and
    application/buying-power-calculator.ts)

    A conservative estimate of what a portfolio could buy: of every supported,
    current and priced contribution, the value left after the deductions that an
    adjustment port quotes for it.  The port and the clock are calls with any
    answer; an answer that is not a well-formed quote leaves its contribution
    without buying power.

    The calculator walks [record.contributions] and [base.reasons] with
    [Array.prototype.map], which skips the holes of a sparse array and runs the
    getters of its elements: [array_elements] is that walk, with the getters as a
    parameter.  An array whose prototype is not a standard one is taken to inherit
    [map] from [Array.prototype]. *)

From stdpp Require Import base list strings.
From Stdlib Require Import ZArith Lia.
From S2P Require Import Prelude Text JsValue JsDate JsCollections Effects.

Open Scope Z_scope.

(** ** Data *)

Definition MAX_USD_MANTISSA_DIGITS : Z := 100.
Definition BUYING_POWER_USD_SCALE : Z := 18.
Definition MAX_CONTRIBUTIONS : Z := 512.
Definition MAX_IDENTIFIER_LENGTH : Z := 256.

Inductive BuyingPowerFreshness : Type := CURRENT | STALE | UNAVAILABLE_DATA.
Inductive BuyingPowerValuationUse : Type := CONSERVATIVE_REPORTING_ONLY | BLOCKED.
Inductive adjustment_status : Type := ADJUSTMENT_AVAILABLE | ADJUSTMENT_UNAVAILABLE.

Inductive BuyingPowerUnavailableReason : Type :=
| NO_ELIGIBLE_CONTRIBUTIONS | UNSUPPORTED_ASSET | UNPRICED_ASSET | STALE_DATA | SOURCE_UNAVAILABLE
| VALUATION_USE_BLOCKED | LIQUIDITY_DATA_UNAVAILABLE | CONVERSION_COST_UNAVAILABLE
| SLIPPAGE_DATA_UNAVAILABLE | NETWORK_COST_UNAVAILABLE | ROUTING_DATA_UNAVAILABLE | ROUTE_UNAVAILABLE
| ADJUSTMENT_SOURCE_FAILED | INVALID_ADJUSTMENT_RESPONSE | ADJUSTMENTS_EXCEED_VALUE.

#[export] Program Instance BUYING_POWER_FRESHNESS : JsEnum BuyingPowerFreshness := {
  enum_values := [CURRENT; STALE; UNAVAILABLE_DATA];
  enum_str := fun f => match f with
    | CURRENT => "CURRENT" | STALE => "STALE" | UNAVAILABLE_DATA => "UNAVAILABLE" end;
}.
Next Obligation. solve_enum_all. Qed.
Next Obligation. solve_enum_inj. Qed.

#[export] Program Instance BUYING_POWER_VALUATION_USES : JsEnum BuyingPowerValuationUse := {
  enum_values := [CONSERVATIVE_REPORTING_ONLY; BLOCKED];
  enum_str := fun u => match u with
    | CONSERVATIVE_REPORTING_ONLY => "CONSERVATIVE_REPORTING_ONLY" | BLOCKED => "BLOCKED" end;
}.
Next Obligation. solve_enum_all. Qed.
Next Obligation. solve_enum_inj. Qed.

#[export] Program Instance ADJUSTMENT_STATUSES : JsEnum adjustment_status := {
  enum_values := [ADJUSTMENT_AVAILABLE; ADJUSTMENT_UNAVAILABLE];
  enum_str := fun s => match s with
    | ADJUSTMENT_AVAILABLE => "AVAILABLE" | ADJUSTMENT_UNAVAILABLE => "UNAVAILABLE" end;
}.
Next Obligation. solve_enum_all. Qed.
Next Obligation. solve_enum_inj. Qed.

#[export] Program Instance BUYING_POWER_REASONS : JsEnum BuyingPowerUnavailableReason := {
  enum_values := [NO_ELIGIBLE_CONTRIBUTIONS; UNSUPPORTED_ASSET; UNPRICED_ASSET; STALE_DATA;
    SOURCE_UNAVAILABLE; VALUATION_USE_BLOCKED; LIQUIDITY_DATA_UNAVAILABLE; CONVERSION_COST_UNAVAILABLE;
    SLIPPAGE_DATA_UNAVAILABLE; NETWORK_COST_UNAVAILABLE; ROUTING_DATA_UNAVAILABLE; ROUTE_UNAVAILABLE;
    ADJUSTMENT_SOURCE_FAILED; INVALID_ADJUSTMENT_RESPONSE; ADJUSTMENTS_EXCEED_VALUE];
  enum_str := fun r => match r with
    | NO_ELIGIBLE_CONTRIBUTIONS => "NO_ELIGIBLE_CONTRIBUTIONS"
    | UNSUPPORTED_ASSET => "UNSUPPORTED_ASSET" | UNPRICED_ASSET => "UNPRICED_ASSET"
    | STALE_DATA => "STALE_DATA" | SOURCE_UNAVAILABLE => "SOURCE_UNAVAILABLE"
    | VALUATION_USE_BLOCKED => "VALUATION_USE_BLOCKED"
    | LIQUIDITY_DATA_UNAVAILABLE => "LIQUIDITY_DATA_UNAVAILABLE"
    | CONVERSION_COST_UNAVAILABLE => "CONVERSION_COST_UNAVAILABLE"
    | SLIPPAGE_DATA_UNAVAILABLE => "SLIPPAGE_DATA_UNAVAILABLE"
    | NETWORK_COST_UNAVAILABLE => "NETWORK_COST_UNAVAILABLE"
    | ROUTING_DATA_UNAVAILABLE => "ROUTING_DATA_UNAVAILABLE" | ROUTE_UNAVAILABLE => "ROUTE_UNAVAILABLE"
    | ADJUSTMENT_SOURCE_FAILED => "ADJUSTMENT_SOURCE_FAILED"
    | INVALID_ADJUSTMENT_RESPONSE => "INVALID_ADJUSTMENT_RESPONSE"
    | ADJUSTMENTS_EXCEED_VALUE => "ADJUSTMENTS_EXCEED_VALUE" end;
}.
Next Obligation. solve_enum_all. Qed.
Next Obligation. solve_enum_inj. Qed.

Definition ADJUSTMENT_UNAVAILABLE_REASONS : list BuyingPowerUnavailableReason :=
  [LIQUIDITY_DATA_UNAVAILABLE; CONVERSION_COST_UNAVAILABLE; SLIPPAGE_DATA_UNAVAILABLE;
   NETWORK_COST_UNAVAILABLE; ROUTING_DATA_UNAVAILABLE; ROUTE_UNAVAILABLE].

Inductive BuyingPowerValidationCode : Type :=
| INVALID_USD_MANTISSA | MANTISSA_LIMIT_EXCEEDED | NEGATIVE_USD_RESULT.

Inductive BuyingPowerCalculationErrorCode : Type :=
| INVALID_REQUEST | CLOCK_FAILED | NUMERIC_LIMIT_EXCEEDED.

(** What the calculator throws. *)
Inductive buying_power_exception : Type :=
| BuyingPowerCalculationError (code : BuyingPowerCalculationErrorCode)
| TypeErrorThrown
| Rejected (error : jsval).

Record ParsedContribution : Type := {
  contributionId : string;
  walletId : string;
  networkId : string;
  assetId : string;
  supported : bool;
  freshness : BuyingPowerFreshness;
  valuationUse : BuyingPowerValuationUse;
  usdValueMantissa : option string;
  asOf : string;
}.

(** The elements of a JavaScript array: [None] is a hole. *)
Record ParsedRequest : Type := {
  portfolioSnapshotId : string;
  contributions : list (option ParsedContribution);
}.

Record BuyingPowerDeductionBreakdown : Type := {
  liquidity : string;
  conversion : string;
  slippage : string;
  network : string;
  routing : string;
}.

Record AvailableAdjustment : Type := {
  quoteId : string;
  adjusted_contributionId : string;
  quotedAt : string;
  validUntil : string;
  adjusted_deductions : BuyingPowerDeductionBreakdown;
}.

(** A reason read from a hole is [undefined] ([None]). *)
Inductive adjustment : Type :=
| Available (a : AvailableAdjustment)
| Unavailable (contributionId : string) (reasons : list (option BuyingPowerUnavailableReason)).

Record BuyingPowerAdjustmentRequest : Type := {
  req_contributionId : string;
  req_walletId : string;
  req_networkId : string;
  req_assetId : string;
  req_grossUsdValueMantissa : string;
  req_evaluatedAt : string;
}.

Inductive contribution_availability : Type := AVAILABLE | UNAVAILABLE.

Record BuyingPowerContributionResult : Type := {
  res_contributionId : string;
  res_walletId : string;
  res_networkId : string;
  res_assetId : string;
  grossUsdValueMantissa : option string;
  deductions : option BuyingPowerDeductionBreakdown;
  deductionUsdMantissa : option string;
  availableUsdMantissa : string;
  availability : contribution_availability;
  unavailableReasons : list (option BuyingPowerUnavailableReason);
  res_asOf : string;
  adjustmentQuoteId : option string;
  adjustmentQuotedAt : option string;
  adjustmentValidUntil : option string;
}.

Inductive portfolio_availability : Type := ALL_AVAILABLE | PARTIAL | NONE_AVAILABLE.

Record BuyingPowerResult : Type := {
  result_portfolioSnapshotId : string;
  evaluatedAt : string;
  usdScale : Z;
  supportedPortfolioValueMantissa : string;
  eligibleGrossValueMantissa : string;
  totalDeductions : BuyingPowerDeductionBreakdown;
  totalDeductionUsdMantissa : string;
  availableBuyingPowerUsdMantissa : string;
  result_availability : portfolio_availability;
  result_unavailableReasons : list (option BuyingPowerUnavailableReason);
  result_contributions : list BuyingPowerContributionResult;
  mayAuthorizeFinancialAction : bool;
}.

#[export] Instance availability_eq_dec : EqDecision contribution_availability.
Proof. solve_decision. Defined.

Definition power_result : Type -> Type := result buying_power_exception.
Definition mantissa_result : Type -> Type := result BuyingPowerValidationCode.

(** ** Mantissas (domain/buying-power.ts) *)

Definition normalizeBuyingPowerUsdMantissa (value : jsval) : mantissa_result string :=
  match value with
  | VStr s =>
      reject INVALID_USD_MANTISSA
        when negb (UNSIGNED_INTEGER_PATTERN s) || (MAX_USD_MANTISSA_DIGITS <? strlen s) in
      Ok s
  | _ => Err INVALID_USD_MANTISSA
  end.

Definition addBuyingPowerUsdMantissas (values : list string) : mantissa_result string :=
  let sum := toString (foldl (fun total value => total + BigInt value) 0 values) in
  reject MANTISSA_LIMIT_EXCEEDED when MAX_USD_MANTISSA_DIGITS <? strlen sum in Ok sum.

Definition subtractBuyingPowerUsdMantissas (minuend subtrahend : string) : mantissa_result string :=
  let result := BigInt minuend - BigInt subtrahend in
  reject NEGATIVE_USD_RESULT when result <? 0 in Ok (toString result).

Definition zeroBuyingPowerDeductions : BuyingPowerDeductionBreakdown :=
  {| liquidity := "0"; conversion := "0"; slippage := "0"; network := "0"; routing := "0" |}.

Definition deduction_values (d : BuyingPowerDeductionBreakdown) : list string :=
  [liquidity d; conversion d; slippage d; network d; routing d].

Definition totalBuyingPowerDeductions (d : BuyingPowerDeductionBreakdown) : mantissa_result string :=
  addBuyingPowerUsdMantissas (deduction_values d).

(** ** Readers *)

Definition safeIdentifier (value : jsval) : option string :=
  match value with
  | VStr s =>
      if String.eqb s "" || (MAX_IDENTIFIER_LENGTH <? strlen s) || negb (VISIBLE_PATTERN s)
      then None else Some s
  | _ => None
  end.

Definition canonicalTimestamp (value : jsval) : option string :=
  match value with
  | VStr s => match canonical_timestamp s with Some _ => Some s | None => None end
  | _ => None
  end.

(** [Object.keys(record)] are the fields of the copy; they are own properties. *)
Definition assertExactKeys (record : jsrec) (expectedKeys : list string) : option unit :=
  if negb (length record =? length expectedKeys)%nat
     || existsb (fun key => negb (existsb (String.eqb key) record.*1)) expectedKeys
  then None else Some ().

Definition exactDataRecord (value : jsval) (expectedKeys : list string) : option jsrec :=
  record ← data_record expectedKeys [] value;
  _ ← assertExactKeys record expectedKeys;
  Some record.

Definition mantissa (value : jsval) : option string := to_option (normalizeBuyingPowerUsdMantissa value).

Definition BUYING_POWER_DEDUCTION_KINDS : list string :=
  ["liquidity"; "conversion"; "slippage"; "network"; "routing"].

Definition parseDeductions (value : jsval) : option BuyingPowerDeductionBreakdown :=
  record ← exactDataRecord value BUYING_POWER_DEDUCTION_KINDS;
  l ← mantissa (record .: "liquidity");
  c ← mantissa (record .: "conversion");
  s ← mantissa (record .: "slippage");
  n ← mantissa (record .: "network");
  r ← mantissa (record .: "routing");
  Some {| liquidity := l; conversion := c; slippage := s; network := n; routing := r |}.

Definition boolean (value : jsval) : option bool :=
  match value with
  | VBool b => Some b
  | _ => None
  end.

Definition nullable_mantissa (value : jsval) : option (option string) :=
  if is_null value then Some None else Some <$> mantissa value.

Definition parseContribution (value : jsval) : option ParsedContribution :=
  record ← exactDataRecord value
    ["contributionId"; "walletId"; "networkId"; "assetId"; "supported"; "freshness"; "valuationUse";
     "usdValueMantissa"; "asOf"];
  supported ← boolean (record .: "supported");
  freshness ← enum_member enum_values (record .: "freshness");
  valuationUse ← enum_member enum_values (record .: "valuationUse");
  contributionId ← safeIdentifier (record .: "contributionId");
  walletId ← safeIdentifier (record .: "walletId");
  networkId ← safeIdentifier (record .: "networkId");
  assetId ← safeIdentifier (record .: "assetId");
  usdValueMantissa ← nullable_mantissa (record .: "usdValueMantissa");
  asOf ← canonicalTimestamp (record .: "asOf");
  Some {| contributionId := contributionId; walletId := walletId; networkId := networkId;
          assetId := assetId; supported := supported; freshness := freshness;
          valuationUse := valuationUse; usdValueMantissa := usdValueMantissa; asOf := asOf |}.

Section calculator.
(** What the getter of an array's index returns; [None] when it throws. *)
Context (getter : jsval -> nat -> option jsval).

(** [value[i]] of an index the array owns; [None] inside for a hole. *)
Definition array_element (value : jsval) (props : jsprops) (i : nat) : option (option jsval) :=
  match descriptor props (toString (Z.of_nat i)) with
  | None => Some None
  | Some (DData v _) => Some (Some v)
  | Some (DAccessor _) => Some <$> getter value i
  end.

(** An own [map] that cannot be called. *)
Definition overridden_map (props : jsprops) : bool :=
  match descriptor props "map" with
  | Some (DData VFun _) | Some (DAccessor _) | None => false
  | Some (DData _ _) => true
  end.

(** [value.map(f)] for an [f] that throws ([None]) or returns.  An array may own
    a property [map], which then hides the inherited method: calling it throws
    when it is no function.  An array that owns a function or an accessor under
    that name runs the code of the caller, which is not modelled: the inherited
    method is run in its place. *)
Definition array_map {B} (f : jsval -> option B) (value : jsval) : option (list (option B)) :=
  match value with
  | VArr (PArray | POther) len props =>
      if overridden_map props then None
      else mapM (fun i =>
        element ← array_element value props i;
        match element with
        | None => Some None
        | Some v => Some <$> f v
        end) (seq 0 (Z.to_nat len))
  | _ => None
  end.

Definition array_length (value : jsval) : option Z :=
  match value with
  | VArr _ len _ => Some len
  | _ => None
  end.

(** The ids of the elements that are there; a hole adds [undefined] to the set. *)
Definition distinct_ids (cs : list (option ParsedContribution)) : bool :=
  (set_size (option_map contributionId <$> cs) =? length cs)%nat.

Definition parseRequest (value : jsval) : power_result ParsedRequest :=
  or_throw (
    record ← exactDataRecord value ["portfolioSnapshotId"; "contributions"];
    portfolioSnapshotId ← safeIdentifier (record .: "portfolioSnapshotId");
    length ← array_length (record .: "contributions");
    if MAX_CONTRIBUTIONS <? length then None
    else
      contributions ← array_map parseContribution (record .: "contributions");
      if negb (distinct_ids contributions) then None
      else Some {| portfolioSnapshotId := portfolioSnapshotId; contributions := contributions |})
  (BuyingPowerCalculationError INVALID_REQUEST).

Definition contributionUnavailableReasons (c : ParsedContribution) : list BuyingPowerUnavailableReason :=
  (if negb (supported c) then [UNSUPPORTED_ASSET] else [])
  ++ (match usdValueMantissa c with None => [UNPRICED_ASSET] | Some _ => [] end)
  ++ (match freshness c with STALE => [STALE_DATA] | _ => [] end)
  ++ (match freshness c with UNAVAILABLE_DATA => [SOURCE_UNAVAILABLE] | _ => [] end)
  ++ (match valuationUse c with BLOCKED => [VALUATION_USE_BLOCKED] | _ => [] end).

Definition unavailableContribution (c : ParsedContribution)
    (reasons : list (option BuyingPowerUnavailableReason)) : BuyingPowerContributionResult :=
  {| res_contributionId := contributionId c; res_walletId := walletId c; res_networkId := networkId c;
     res_assetId := assetId c; grossUsdValueMantissa := usdValueMantissa c; deductions := None;
     deductionUsdMantissa := None; availableUsdMantissa := "0"; availability := UNAVAILABLE;
     unavailableReasons := reasons; res_asOf := asOf c; adjustmentQuoteId := None;
     adjustmentQuotedAt := None; adjustmentValidUntil := None |}.

(** [new Set(reasons).size === reasons.length]: a hole counts as [undefined]. *)
Definition distinct_reasons (reasons : list (option BuyingPowerUnavailableReason)) : bool :=
  (set_size reasons =? length reasons)%nat.

Definition parseAdjustment (value : jsval) (expectedContributionId evaluatedAt : string) : option adjustment :=
  base ← data_record ["status"; "contributionId"]
    ["quoteId"; "quotedAt"; "validUntil"; "deductions"; "reasons"] value;
  status ← enum_member enum_values (base .: "status");
  contributionId ← safeIdentifier (base .: "contributionId");
  if negb (String.eqb contributionId expectedContributionId) then None
  else
    match status with
    | ADJUSTMENT_UNAVAILABLE =>
        _ ← assertExactKeys base ["status"; "contributionId"; "reasons"];
        length ← array_length (base .: "reasons");
        if length =? 0 then None
        else
          reasons ← array_map (enum_member ADJUSTMENT_UNAVAILABLE_REASONS) (base .: "reasons");
          if negb (distinct_reasons reasons) then None
          else Some (Unavailable contributionId reasons)
    | ADJUSTMENT_AVAILABLE =>
        _ ← assertExactKeys base
          ["status"; "quoteId"; "contributionId"; "quotedAt"; "validUntil"; "deductions"];
        quotedAt ← canonicalTimestamp (base .: "quotedAt");
        validUntil ← canonicalTimestamp (base .: "validUntil");
        if str_lt evaluatedAt quotedAt || str_lt validUntil evaluatedAt || str_lt validUntil quotedAt
        then None
        else
          quoteId ← safeIdentifier (base .: "quoteId");
          deductions ← parseDeductions (base .: "deductions");
          Some (Available {| quoteId := quoteId; adjusted_contributionId := contributionId;
                             quotedAt := quotedAt; validUntil := validUntil;
                             adjusted_deductions := deductions |})
    end.

(** ** The calculation *)

Inductive power_call : Type :=
| ReadClock
| Evaluate (request : BuyingPowerAdjustmentRequest).

Definition power_ans (_ : power_call) : Type := jsval.

Notation power_io := (io power_ans buying_power_exception).

Definition calculation_error {A} (code : BuyingPowerCalculationErrorCode) : power_io A :=
  Done (Err (BuyingPowerCalculationError code)).

Definition readEvaluationTime : power_io string :=
  io_try (await* value := call ReadClock in Done (or_throw (canonicalTimestamp value) TypeErrorThrown))
    (fun _ => calculation_error CLOCK_FAILED).

(** The quote turned into a result; [Err] is a failed addition or a negative
    difference. *)
Definition deducted (gross : string) (d : BuyingPowerDeductionBreakdown)
    : mantissa_result (string * string) :=
  let* total := totalBuyingPowerDeductions d in
  let* available := subtractBuyingPowerUsdMantissas gross total in
  Ok (total, available).

(** What [adjustContribution] makes of the port's answer. *)
Definition adjusted (c : ParsedContribution) (gross evaluatedAt : string)
    (response : result buying_power_exception jsval) : BuyingPowerContributionResult :=
  match response with
  | Err _ => unavailableContribution c [Some ADJUSTMENT_SOURCE_FAILED]
  | Ok response =>
      match parseAdjustment response (contributionId c) evaluatedAt with
      | None => unavailableContribution c [Some INVALID_ADJUSTMENT_RESPONSE]
      | Some (Unavailable _ reasons) => unavailableContribution c reasons
      | Some (Available a) =>
          match deducted gross (adjusted_deductions a) with
          | Err _ => unavailableContribution c [Some ADJUSTMENTS_EXCEED_VALUE]
          | Ok (total, available) =>
              {| res_contributionId := contributionId c; res_walletId := walletId c;
                 res_networkId := networkId c; res_assetId := assetId c;
                 grossUsdValueMantissa := Some gross; deductions := Some (adjusted_deductions a);
                 deductionUsdMantissa := Some total; availableUsdMantissa := available;
                 availability := AVAILABLE; unavailableReasons := []; res_asOf := asOf c;
                 adjustmentQuoteId := Some (quoteId a); adjustmentQuotedAt := Some (quotedAt a);
                 adjustmentValidUntil := Some (validUntil a) |}
          end
      end
  end.

Definition adjustment_request (c : ParsedContribution) (gross evaluatedAt : string)
    : BuyingPowerAdjustmentRequest :=
  {| req_contributionId := contributionId c; req_walletId := walletId c; req_networkId := networkId c;
     req_assetId := assetId c; req_grossUsdValueMantissa := gross; req_evaluatedAt := evaluatedAt |}.

Definition adjustContribution (c : ParsedContribution) (gross evaluatedAt : string)
    : power_io BuyingPowerContributionResult :=
  Ask (Evaluate (adjustment_request c gross evaluatedAt))
    (fun response => Done (Ok (adjusted c gross evaluatedAt response))).

(** The value that counts towards the portfolio, and the one that may be used. *)
Definition supported_value (c : ParsedContribution) : option string :=
  if supported c then usdValueMantissa c else None.

Definition eligible_value (c : ParsedContribution) : option string :=
  match contributionUnavailableReasons c with
  | [] => usdValueMantissa c
  | _ :: _ => None
  end.

Definition push (v : option string) (values : list string) : list string :=
  match v with
  | Some v => values ++ [v]
  | None => values
  end.

(** The first loop: the supported and the eligible values in order. *)
Fixpoint collect_values (evaluatedAt : string) (cs : list (option ParsedContribution))
    (supportedValues eligibleValues : list string) : power_result (list string * list string) :=
  match cs with
  | [] => Ok (supportedValues, eligibleValues)
  | None :: _ => Err TypeErrorThrown
  | Some c :: cs =>
      reject (BuyingPowerCalculationError INVALID_REQUEST) when str_lt evaluatedAt (asOf c) in
      collect_values evaluatedAt cs (push (supported_value c) supportedValues)
        (push (eligible_value c) eligibleValues)
  end.

(** The second loop. *)
Definition evaluate_contribution (evaluatedAt : string) (c : ParsedContribution)
    : power_io BuyingPowerContributionResult :=
  match contributionUnavailableReasons c, usdValueMantissa c with
  | [], Some gross => adjustContribution c gross evaluatedAt
  | reasons, _ => Done (Ok (unavailableContribution c (Some <$> reasons)))
  end.

Fixpoint evaluate_contributions (evaluatedAt : string) (cs : list (option ParsedContribution))
    : power_io (list BuyingPowerContributionResult) :=
  match cs with
  | [] => Done (Ok [])
  | None :: _ => Done (Err TypeErrorThrown)
  | Some c :: cs =>
      await* r := evaluate_contribution evaluatedAt c in
      await* rs := evaluate_contributions evaluatedAt cs in
      Done (Ok (r :: rs))
  end.

Definition sumDeductionBreakdowns (values : list BuyingPowerDeductionBreakdown)
    : mantissa_result BuyingPowerDeductionBreakdown :=
  match values with
  | [] => Ok zeroBuyingPowerDeductions
  | _ :: _ =>
      let* l := addBuyingPowerUsdMantissas (liquidity <$> values) in
      let* c := addBuyingPowerUsdMantissas (conversion <$> values) in
      let* s := addBuyingPowerUsdMantissas (slippage <$> values) in
      let* n := addBuyingPowerUsdMantissas (network <$> values) in
      let* r := addBuyingPowerUsdMantissas (routing <$> values) in
      Ok {| liquidity := l; conversion := c; slippage := s; network := n; routing := r |}
  end.

Definition limit_exceeded {A} (m : mantissa_result A) : power_result A :=
  rlift (fun _ => BuyingPowerCalculationError NUMERIC_LIMIT_EXCEEDED) m.

(** The totals over all contributions. *)
Definition summed (rs : list BuyingPowerContributionResult)
    : mantissa_result (BuyingPowerDeductionBreakdown * string * string) :=
  let* totals := sumDeductionBreakdowns (omap deductions rs) in
  let* total := totalBuyingPowerDeductions totals in
  let* values := mapr (fun r => normalizeBuyingPowerUsdMantissa (VStr (availableUsdMantissa r))) rs in
  let* available := addBuyingPowerUsdMantissas values in
  Ok (totals, total, available).

Definition all_reasons (rs : list BuyingPowerContributionResult)
    : list (option BuyingPowerUnavailableReason) :=
  dedup (concat (unavailableReasons <$> rs))
  ++ (if (length rs =? 0)%nat then [Some NO_ELIGIBLE_CONTRIBUTIONS] else []).

Definition available_count (rs : list BuyingPowerContributionResult) : nat :=
  length (List.filter (fun r => bool_decide (availability r = AVAILABLE)) rs).

Definition assemble (request : ParsedRequest) (evaluatedAt supportedValue eligibleValue : string)
    (rs : list BuyingPowerContributionResult) : power_result BuyingPowerResult :=
  let* sums := limit_exceeded (summed rs) in
  let '(totals, total, available) := sums in
  reject (BuyingPowerCalculationError NUMERIC_LIMIT_EXCEEDED)
    when (BigInt eligibleValue <? BigInt available) || (BigInt supportedValue <? BigInt available) in
  Ok {| result_portfolioSnapshotId := portfolioSnapshotId request; evaluatedAt := evaluatedAt;
        usdScale := BUYING_POWER_USD_SCALE; supportedPortfolioValueMantissa := supportedValue;
        eligibleGrossValueMantissa := eligibleValue; totalDeductions := totals;
        totalDeductionUsdMantissa := total; availableBuyingPowerUsdMantissa := available;
        result_availability :=
          if (available_count rs =? 0)%nat then NONE_AVAILABLE
          else if (available_count rs =? length rs)%nat then ALL_AVAILABLE else PARTIAL;
        result_unavailableReasons := all_reasons rs; result_contributions := rs;
        mayAuthorizeFinancialAction := false |}.

Definition calculate (input : jsval) : power_io BuyingPowerResult :=
  await* request := Done (parseRequest input) in
  await* evaluatedAt := readEvaluationTime in
  await* values := Done (collect_values evaluatedAt (contributions request) [] []) in
  await* supportedValue := Done (limit_exceeded (addBuyingPowerUsdMantissas values.1)) in
  await* eligibleValue := Done (limit_exceeded (addBuyingPowerUsdMantissas values.2)) in
  await* rs := evaluate_contributions evaluatedAt (contributions request) in
  Done (assemble request evaluatedAt supportedValue eligibleValue rs).
End calculator.

Notation power_io := (io power_ans buying_power_exception).

(** ** Specification *)

(** A canonical mantissa of at most a hundred digits. *)
Definition mantissa_wf (s : string) : Prop :=
  UNSIGNED_INTEGER_PATTERN s = true /\ strlen s <= MAX_USD_MANTISSA_DIGITS.

Definition total_of (values : list string) : Z := foldr (fun v n => BigInt v + n) 0 values.

Definition deductions_wf (d : BuyingPowerDeductionBreakdown) : Prop :=
  Forall mantissa_wf (deduction_values d).

Definition eligible (c : ParsedContribution) : Prop :=
  supported c = true /\ freshness c = CURRENT /\ valuationUse c = CONSERVATIVE_REPORTING_ONLY /\
  is_Some (usdValueMantissa c).

Definition quote_wf (q : AvailableAdjustment) : Prop :=
  safeIdentifier (VStr (quoteId q)) = Some (quoteId q) /\
  safeIdentifier (VStr (adjusted_contributionId q)) = Some (adjusted_contributionId q) /\
  deductions_wf (adjusted_deductions q).

(** A quote that is live at [now]: it was given by then and has not expired. *)
Definition live_at (now : string) (q : AvailableAdjustment) : Prop :=
  exists t quoted until,
    four_digit_time t /\ now = toISOString t /\
    four_digit_time quoted /\ quotedAt q = toISOString quoted /\
    four_digit_time until /\ validUntil q = toISOString until /\
    quoted <= t <= until.

(** A live quote for the contribution [c]. *)
Definition live_quote (now : string) (c : ParsedContribution) (q : AvailableAdjustment) : Prop :=
  quote_wf q /\ adjusted_contributionId q = contributionId c /\ live_at now q.

(** The object a port answers with to give the quote. *)
Definition quote_object (q : AvailableAdjustment) : jsval :=
  let d := adjusted_deductions q in
  js_object [("status", VStr "AVAILABLE"); ("quoteId", VStr (quoteId q));
    ("contributionId", VStr (adjusted_contributionId q)); ("quotedAt", VStr (quotedAt q));
    ("validUntil", VStr (validUntil q));
    ("deductions", js_object [("liquidity", VStr (liquidity d)); ("conversion", VStr (conversion d));
       ("slippage", VStr (slippage d)); ("network", VStr (network d)); ("routing", VStr (routing d))])].

(** What a contribution's result says given the port's answer: available
    exactly on a live quote for it whose deductions its value covers. *)
Definition outcome_of getter (now : string) (c : ParsedContribution)
    (answer : result buying_power_exception jsval) (r : BuyingPowerContributionResult) : Prop :=
  exists gross, usdValueMantissa c = Some gross /\
  ((availability r = AVAILABLE /\ unavailableReasons r = [] /\
    exists v q, answer = Ok v /\ parseAdjustment getter v (contributionId c) now = Some (Available q) /\
      live_quote now c q /\
      deductions r = Some (adjusted_deductions q) /\ adjustmentQuoteId r = Some (quoteId q) /\
      adjustmentQuotedAt r = Some (quotedAt q) /\ adjustmentValidUntil r = Some (validUntil q) /\
      total_of (deduction_values (adjusted_deductions q)) + BigInt (availableUsdMantissa r) = BigInt gross) \/
   (availability r = UNAVAILABLE /\ availableUsdMantissa r = "0" /\ deductions r = None /\
    (forall v q, answer = Ok v -> parseAdjustment getter v (contributionId c) now = Some (Available q) ->
      BigInt gross < total_of (deduction_values (adjusted_deductions q))) /\
    forall q, answer = Ok (quote_object q) -> live_quote now c q ->
      BigInt gross < total_of (deduction_values (adjusted_deductions q)))).

(** The results of the contributions with the calls made for them, in order:
    one call for an eligible contribution, none for another. *)
Inductive evaluations getter (now : string) :
    list ParsedContribution -> list BuyingPowerContributionResult ->
    list (event power_ans buying_power_exception) -> Prop :=
| evaluations_nil : evaluations getter now [] [] []
| evaluations_skip c r cs rs t :
    ~ eligible c -> availability r = UNAVAILABLE -> availableUsdMantissa r = "0" -> deductions r = None ->
    unavailableReasons r <> [] ->
    evaluations getter now cs rs t -> evaluations getter now (c :: cs) (r :: rs) t
| evaluations_ask c gross answer r cs rs t :
    eligible c -> usdValueMantissa c = Some gross -> outcome_of getter now c answer r ->
    evaluations getter now cs rs t ->
    evaluations getter now (c :: cs) (r :: rs)
      (Event (Evaluate (adjustment_request c gross now)) answer :: t).

(** ** Lemmas: mantissas *)

Lemma total_of_cons v vs : total_of (v :: vs) = BigInt v + total_of vs.
Proof. done. Qed.

Lemma total_of_omap {A} (f : A -> option string) a l :
  total_of (omap f (a :: l)) = from_option BigInt 0 (f a) + total_of (omap f l).
Proof. cbn. by destruct (f a). Qed.

Lemma total_of_app vs ws : total_of (vs ++ ws) = total_of vs + total_of ws.
Proof. unfold total_of. induction vs as [|v vs IH]; simpl; [done|]. lia. Qed.

Lemma total_of_foldl vs n : foldl (fun total value => total + BigInt value) n vs = n + total_of vs.
Proof.
  revert n. unfold total_of. induction vs as [|v vs IH]; intros n; simpl; [lia|]. rewrite IH. lia.
Qed.

Lemma mantissa_nonneg s : mantissa_wf s -> 0 <= BigInt s.
Proof. intros [H _]. by apply unsigned_integer_nonneg. Qed.

Lemma total_of_nonneg vs : Forall mantissa_wf vs -> 0 <= total_of vs.
Proof.
  unfold total_of. induction 1 as [|v vs Hv _ IH]; simpl; [lia|]. apply mantissa_nonneg in Hv. lia.
Qed.

Lemma mantissa_zero : mantissa_wf "0".
Proof. by split. Qed.

Lemma normalize_ok v s : normalizeBuyingPowerUsdMantissa v = Ok s <-> v = VStr s /\ mantissa_wf s.
Proof.
  unfold mantissa_wf. split.
  - destruct v; try discriminate. cbn [normalizeBuyingPowerUsdMantissa].
    destruct (_ || _) eqn:E; [discriminate|]. intros [= ->]. by bsimpl.
  - intros (-> & Hp & Hl). cbn [normalizeBuyingPowerUsdMantissa].
    by rewrite Hp, (proj2 (Z.ltb_ge _ _)) by lia.
Qed.

(** Below the limit an addition is exact; at the limit it fails. *)
Lemma add_spec vs : Forall mantissa_wf vs ->
  addBuyingPowerUsdMantissas vs =
  if total_of vs <? 10 ^ 100 then Ok (toString (total_of vs)) else Err MANTISSA_LIMIT_EXCEEDED.
Proof.
  intros H%total_of_nonneg. unfold addBuyingPowerUsdMantissas. rewrite total_of_foldl, Z.add_0_l.
  pose proof (toString_length_iff (total_of vs) 100 H ltac:(lia)) as Hl. unfold MAX_USD_MANTISSA_DIGITS.
  destruct (Z.ltb_spec 100 (strlen (toString (total_of vs)))), (Z.ltb_spec (total_of vs) (10 ^ 100));
    try done; lia.
Qed.

Lemma add_ok vs s : Forall mantissa_wf vs -> addBuyingPowerUsdMantissas vs = Ok s ->
  mantissa_wf s /\ BigInt s = total_of vs /\ total_of vs < 10 ^ 100.
Proof.
  intros Hvs. rewrite add_spec by done. destruct (Z.ltb_spec (total_of vs) (10 ^ 100)); [|done].
  intros [= <-]. pose proof (total_of_nonneg _ Hvs) as H0. split; [|by rewrite BigInt_toString].
  split; [by apply toString_unsigned|]. by apply toString_length_iff.
Qed.

Lemma add_fits vs : Forall mantissa_wf vs -> total_of vs < 10 ^ 100 ->
  exists s, addBuyingPowerUsdMantissas vs = Ok s.
Proof. intros Hvs H. rewrite add_spec by done. rewrite (proj2 (Z.ltb_lt _ _) H). by eexists. Qed.

(** The deductions of a quote are subtracted exactly, or exceed the value. *)
Lemma deducted_spec gross d : mantissa_wf gross -> deductions_wf d ->
  match deducted gross d with
  | Ok (total, available) =>
      mantissa_wf total /\ BigInt total = total_of (deduction_values d) /\
      mantissa_wf available /\ BigInt total + BigInt available = BigInt gross
  | Err _ => BigInt gross < total_of (deduction_values d)
  end.
Proof.
  intros Hg Hd. unfold deducted, totalBuyingPowerDeductions. rewrite add_spec by done.
  pose proof (total_of_nonneg _ Hd) as H0. pose proof (mantissa_nonneg _ Hg) as Hg0.
  assert (BigInt gross < 10 ^ 100) as Hlt.
  { destruct Hg as [Hp Hl]. apply (toString_length_iff _ 100); [done | done|]. by rewrite toString_BigInt. }
  destruct (Z.ltb_spec (total_of (deduction_values d)) (10 ^ 100)) as [H|H]; [|cbn [rbind]; apply (Z.lt_le_trans _ _ _ Hlt H)].
  cbn [rbind]. unfold subtractBuyingPowerUsdMantissas. rewrite BigInt_toString by done.
  destruct (Z.ltb_spec (BigInt gross - total_of (deduction_values d)) 0) as [Hn|Hn]; cbn [rbind]; [lia|].
  rewrite !BigInt_toString by lia.
  assert (forall n, 0 <= n < 10 ^ 100 -> mantissa_wf (toString n)) as Hwf.
  { intros n [Hn0 Hn']. split; [by apply toString_unsigned|]. by apply (toString_length_iff n 100). }
  split; [apply Hwf; lia|]. split; [done|]. split; [apply Hwf; lia | lia].
Qed.

(** ** Lemmas: parsing *)

Lemma parseDeductions_wf v d : parseDeductions v = Some d -> deductions_wf d.
Proof.
  unfold parseDeductions, mantissa, deductions_wf, deduction_values.
  intros H. repeat (apply bind_Some in H as (? & ? & H)). injection H as <-. cbn.
  repeat (apply Forall_cons; split; [|]); try apply Forall_nil; try done;
    match goal with Hm : to_option (normalizeBuyingPowerUsdMantissa ?j) = Some ?s |- mantissa_wf ?s =>
      destruct (normalizeBuyingPowerUsdMantissa j) eqn:E; [|done]; injection Hm as ->;
      by apply normalize_ok in E as [_ ?] end.
Qed.

Lemma safeIdentifier_ok v s : safeIdentifier v = Some s -> v = VStr s.
Proof. destruct v; try done. cbn [safeIdentifier]. destruct (_ || _); [done|]. by intros [= ->]. Qed.

Lemma safeIdentifier_again v s : safeIdentifier v = Some s -> safeIdentifier (VStr s) = Some s.
Proof. intros H. by rewrite <- (safeIdentifier_ok _ _ H). Qed.

Lemma canonicalTimestamp_time v s :
  canonicalTimestamp v = Some s <-> v = VStr s /\ exists t, four_digit_time t /\ s = toISOString t.
Proof.
  split.
  - destruct v; try done. cbn. destruct (canonical_timestamp _) as [t|] eqn:E; [|done]. intros [= ->].
    apply canonical_timestamp_spec in E. eauto.
  - intros (-> & t & Ht). cbn. by rewrite (proj2 (canonical_timestamp_spec s t) Ht).
Qed.

(** What [parseAdjustment] accepts as a quote is a live quote for the
    contribution, ... *)
Lemma parseAdjustment_live getter v c now q :
  is_Some (canonical_timestamp now) ->
  parseAdjustment getter v (contributionId c) now = Some (Available q) -> live_quote now c q.
Proof.
  intros [t [Ht Enow]%canonical_timestamp_spec]. unfold parseAdjustment. intros H.
  repeat (apply bind_Some in H as (? & ? & H)).
  destruct (String.eqb_spec x1 (contributionId c)) as [->|]; cbn [negb] in H; [|done].
  destruct x0.
  - repeat (apply bind_Some in H as (? & ? & H)). destruct (_ || _) eqn:E in H; [done|].
    repeat (apply bind_Some in H as (? & ? & H)). injection H as <-.
    repeat match goal with
    | H : canonicalTimestamp _ = Some _ |- _ => apply canonicalTimestamp_time in H as (_ & ? & ? & ->)
    end.
    bsimpl. subst now. rewrite toISOString_lt in * by done.
    repeat match goal with H : (_ <? _) = false |- _ => apply Z.ltb_ge in H end.
    split; [split_and!; cbn; first [by eapply safeIdentifier_again | by eapply parseDeductions_wf]|].
    split; [done|]. do 3 eexists. cbn. split_and!; try reflexivity; done.
  - repeat (apply bind_Some in H as (? & ? & H)). destruct (_ =? _) in H; [done|].
    repeat (apply bind_Some in H as (? & ? & H)). by destruct (negb _) in H.
Qed.

(** ... and every such quote is accepted. *)
Lemma parseDeductions_object d : deductions_wf d ->
  parseDeductions (js_object [("liquidity", VStr (liquidity d)); ("conversion", VStr (conversion d));
    ("slippage", VStr (slippage d)); ("network", VStr (network d)); ("routing", VStr (routing d))]) = Some d.
Proof.
  intros H. unfold parseDeductions, exactDataRecord.
  rewrite data_record_literal by (apply (bool_decide_eq_true_1 _); vm_compute; reflexivity).
  assert (forall s, mantissa_wf s -> mantissa (VStr s) = Some s) as Hm.
  { intros s Hs. unfold mantissa. by rewrite (proj2 (normalize_ok (VStr s) s)). }
  repeat (apply Forall_cons in H as [? H]). cbn -[mantissa]. rewrite !Hm by done. by destruct d.
Qed.

Lemma parseAdjustment_quote getter c now q :
  live_quote now c q -> parseAdjustment getter (quote_object q) (contributionId c) now = Some (Available q).
Proof.
  intros ((Hi & Hc & Hd) & Hid & t & t1 & t2 & Ht & En & Ht1 & E1 & Ht2 & E2 & Hle).
  unfold parseAdjustment, quote_object.
  rewrite data_record_literal by (apply (bool_decide_eq_true_1 _); vm_compute; reflexivity).
  pose proof (parseDeductions_object _ Hd) as Hp.
  cbn -[safeIdentifier canonicalTimestamp parseDeductions str_lt].
  rewrite Hc, Hid. cbn [mbind option_bind]. rewrite String.eqb_refl.
  cbn -[safeIdentifier canonicalTimestamp parseDeductions str_lt].
  rewrite (proj2 (canonicalTimestamp_time (VStr (quotedAt q)) (quotedAt q))) by eauto. cbn [mbind option_bind].
  rewrite (proj2 (canonicalTimestamp_time (VStr (validUntil q)) (validUntil q))) by eauto. cbn [mbind option_bind].
  rewrite E1, E2, En, !toISOString_lt by done. rewrite !(proj2 (Z.ltb_ge _ _)) by lia.
  cbn [orb]. rewrite Hi, Hp. cbn [mbind option_bind]. rewrite <- E1, <- E2, <- Hid. by destruct q.
Qed.

Lemma parseContribution_wf v c : parseContribution v = Some c ->
  forall s, usdValueMantissa c = Some s -> mantissa_wf s.
Proof.
  unfold parseContribution. intros H. repeat (apply bind_Some in H as (? & ? & H)). injection H as <-.
  cbn. intros s ->. unfold nullable_mantissa, mantissa in *.
  match goal with Hm : (if is_null ?j then _ else _) = _ |- _ =>
    destruct (is_null j); [done|]; destruct (normalizeBuyingPowerUsdMantissa j) eqn:E; [|done];
    injection Hm as ->; by apply normalize_ok in E as [_ ?] end.
Qed.

Definition request_wf (request : ParsedRequest) : Prop :=
  Forall (fun c => forall s, usdValueMantissa c = Some s -> mantissa_wf s) (omap id (contributions request)).

Lemma array_map_forall getter {B} (f : jsval -> option B) v bs b :
  array_map getter f v = Some bs -> Some b ∈ bs -> exists j, f j = Some b.
Proof.
  unfold array_map. destruct v; try done. destruct p; try done; destruct (overridden_map _); try done; intros H%mapM_Some Hb;
    eapply Forall2_elem_r in H as (i & _ & Hi); try exact Hb; cbn in Hi;
    apply bind_Some in Hi as (e & _ & Hi); destruct e as [j|]; try done;
    exists j; destruct (f j); [by injection Hi as -> | done | by injection Hi as -> | done].
Qed.

Lemma parseRequest_ok getter v request : parseRequest getter v = Ok request -> request_wf request.
Proof.
  unfold parseRequest. intros H%or_throw_ok. repeat (apply bind_Some in H as (? & ? & H)).
  destruct (_ <? _) in H; [done|]. apply bind_Some in H as (cs & Hcs & H).
  destruct (negb _) in H; [done|]. injection H as <-. unfold request_wf. cbn.
  apply Forall_forall. intros c Hc. apply list_elem_of_omap in Hc as (o & Ho & Hc). cbn in Hc. subst o.
  eapply array_map_forall in Hcs as (j & Hj); [|exact Ho]. by eapply parseContribution_wf.
Qed.

(** ** Lemmas: contributions *)

Lemma reasons_nil c : contributionUnavailableReasons c = [] <-> eligible c.
Proof.
  unfold contributionUnavailableReasons, eligible, is_Some.
  destruct (supported c), (usdValueMantissa c), (freshness c), (valuationUse c); cbn; split;
    (intros H; try discriminate H; eauto 10; destruct H as (? & ? & ? & ? & ?); congruence).
Qed.

(** A result that keeps the invariants the totals rely on. *)
Definition result_sound (c : ParsedContribution) (r : BuyingPowerContributionResult) : Prop :=
  mantissa_wf (availableUsdMantissa r) /\ grossUsdValueMantissa r = usdValueMantissa c /\
  match deductions r with
  | None => availability r = UNAVAILABLE /\ availableUsdMantissa r = "0"
  | Some d => availability r = AVAILABLE /\ eligible c /\ deductions_wf d /\
      exists gross, usdValueMantissa c = Some gross /\
        total_of (deduction_values d) + BigInt (availableUsdMantissa r) = BigInt gross
  end.

Lemma unavailable_sound c reasons : result_sound c (unavailableContribution c reasons).
Proof. split; [apply mantissa_zero|]. split; [done|]. by split. Qed.

Lemma adjusted_outcome getter c gross now answer :
  is_Some (canonical_timestamp now) ->
  eligible c -> usdValueMantissa c = Some gross -> mantissa_wf gross ->
  result_sound c (adjusted getter c gross now answer) /\
  outcome_of getter now c answer (adjusted getter c gross now answer).
Proof.
  intros Hnow He Hg Hw. unfold adjusted.
  assert (forall reasons,
    (forall v q, answer = Ok v -> parseAdjustment getter v (contributionId c) now = Some (Available q) ->
       BigInt gross < total_of (deduction_values (adjusted_deductions q))) ->
    result_sound c (unavailableContribution c reasons) /\
    outcome_of getter now c answer (unavailableContribution c reasons)) as Hunavailable.
  { intros reasons H. split; [apply unavailable_sound|]. exists gross. split; [done|]. right. split_and!; try done.
    intros q E Hl. by eapply H, parseAdjustment_quote. }
  destruct answer as [v|e]; [|by apply Hunavailable].
  destruct (parseAdjustment getter v (contributionId c) now) as [[q|id reasons]|] eqn:Hp;
    [|by apply Hunavailable; intros v' q' [= <-]; rewrite Hp ..].
  pose proof (parseAdjustment_live _ _ _ _ _ Hnow Hp) as Hl. pose proof Hl as ((_ & _ & Hd) & _).
  pose proof (deducted_spec gross _ Hw Hd) as Hs.
  destruct (deducted gross (adjusted_deductions q)) as [[total available]|e].
  - destruct Hs as (Ht & Htt & Ha & Hsum). rewrite Htt in Hsum. split.
    + split; [done|]. split; [by rewrite Hg|]. cbn. split_and!; try done. by exists gross.
    + exists gross. split; [done|]. left. split_and!; try done. exists v, q. by split_and!.
  - apply Hunavailable. intros v' q' [= <-] Hq. rewrite Hp in Hq. by injection Hq as <-.
Qed.

(** One contribution: no call, or the one call for it; never an error. *)
Lemma evaluate_contribution_spec getter now c t r :
  is_Some (canonical_timestamp now) ->
  (forall s, usdValueMantissa c = Some s -> mantissa_wf s) ->
  executes (evaluate_contribution getter now c) t r ->
  exists b, r = Ok b /\ result_sound c b /\
    forall cs rs t', evaluations getter now cs rs t' ->
      evaluations getter now (c :: cs) (b :: rs) (t ++ t').
Proof.
  intros Hnow Hw. unfold evaluate_contribution. destruct (contributionUnavailableReasons c) as [|x xs] eqn:E.
  - pose proof (proj1 (reasons_nil c) E) as He. destruct He as (H1 & H2 & H3 & [gross Hg]). rewrite Hg.
    assert (eligible c) as He by (split_and!; try done; by exists gross).
    unfold adjustContribution. cbn [executes]. destruct t as [|ev t]; [done|].
    intros (a & -> & -> & ->). pose proof (adjusted_outcome getter c gross now a Hnow He Hg (Hw _ Hg)) as [Hs Ho].
    eexists. split; [done|]. split; [done|]. intros cs rs t' Ht. cbn [app]. by econstructor.
  - intros [-> ->]. eexists. split; [done|]. split; [apply unavailable_sound|]. intros cs rs t' Ht.
    apply evaluations_skip; try done. by rewrite <- reasons_nil, E.
Qed.

Lemma evaluate_contributions_spec getter now cs t r :
  is_Some (canonical_timestamp now) ->
  Forall (fun c => forall s, usdValueMantissa c = Some s -> mantissa_wf s) cs ->
  executes (evaluate_contributions getter now (Some <$> cs)) t r ->
  exists rs, r = Ok rs /\ Forall2 result_sound cs rs /\ evaluations getter now cs rs t.
Proof.
  intros Hnow Hw. revert t r. induction Hw as [|c cs Hc _ IH]; intros t r.
  - intros [-> ->]. exists []. repeat split; constructor.
  - rewrite fmap_cons. cbn [evaluate_contributions].
    intros [(e & H & _)|(b & t1 & t2 & -> & H & H2)]%executes_bind.
    { apply evaluate_contribution_spec in H as (b & [=] & _); done. }
    apply evaluate_contribution_spec in H as (b' & [= <-] & Hb & Hev); [|done..].
    apply executes_bind in H2 as [(e & H & _)|(rs & t3 & t4 & -> & H & [-> ->])].
    { by apply IH in H as (rs & [=] & _). }
    apply IH in H as (rs' & [= <-] & Hrs & Hevs). exists (b :: rs). split; [done|].
    split; [by constructor|]. rewrite app_nil_r. by apply Hev.
Qed.

(** ** Lemmas: totals *)

(** The value of a contribution whose quote was taken. *)
Definition available_gross (r : BuyingPowerContributionResult) : option string :=
  match deductions r with
  | Some _ => grossUsdValueMantissa r
  | None => None
  end.

Lemma eligible_value_spec c : eligible_value c = if decide (contributionUnavailableReasons c = [])
  then usdValueMantissa c else None.
Proof. unfold eligible_value. destruct (contributionUnavailableReasons c); by case_decide. Qed.

(** A value that may be used counts towards the portfolio. *)
Lemma eligible_supported c v : eligible_value c = Some v -> supported_value c = Some v.
Proof.
  rewrite eligible_value_spec. case_decide as E; [|done]. apply reasons_nil in E as (Hs & _).
  unfold supported_value. by rewrite Hs.
Qed.

Lemma values_wf {A} (f : A -> option string) (cs : list A) :
  (forall c v, c ∈ cs -> f c = Some v -> mantissa_wf v) -> Forall mantissa_wf (omap f cs).
Proof.
  intros H. apply Forall_forall. intros v (c & Hc & Hv)%list_elem_of_omap. by eapply H.
Qed.

Lemma supported_value_usd c v : supported_value c = Some v -> usdValueMantissa c = Some v.
Proof. unfold supported_value. by destruct (supported c). Qed.

Lemma eligible_at_most_supported cs :
  Forall (fun c => forall s, usdValueMantissa c = Some s -> mantissa_wf s) cs ->
  total_of (omap eligible_value cs) <= total_of (omap supported_value cs).
Proof.
  induction 1 as [|c cs Hc _ IH]; [done|]. rewrite !total_of_omap.
  destruct (eligible_value c) as [v|] eqn:E; cbn [from_option].
  - rewrite (eligible_supported _ _ E). cbn [from_option]. lia.
  - destruct (supported_value c) as [s|] eqn:S; cbn [from_option]; [|done].
    apply supported_value_usd, Hc, mantissa_nonneg in S. unfold id. lia.
Qed.

(** Every dollar of the values taken is either available or deducted. *)
Lemma totals_conserved cs rs : Forall2 result_sound cs rs ->
  total_of (availableUsdMantissa <$> rs) + total_of (concat (deduction_values <$> omap deductions rs))
  = total_of (omap available_gross rs).
Proof.
  induction 1 as [|c r cs rs (_ & Hg & Hr) _ IH]; [done|].
  rewrite fmap_cons, total_of_cons, total_of_omap. unfold available_gross at 1.
  destruct (deductions r) as [d|] eqn:E.
  - destruct Hr as (_ & _ & _ & gross & Hu & Hsum). rewrite Hg, Hu.
    replace (omap deductions (r :: rs)) with (d :: omap deductions rs) by (cbn; by rewrite E).
    rewrite fmap_cons. cbn [concat from_option]. rewrite total_of_app. lia.
  - replace (omap deductions (r :: rs)) with (omap deductions rs) by (cbn; by rewrite E).
    destruct Hr as (_ & ->). cbn [from_option]. change (BigInt "0") with 0. lia.
Qed.

Lemma taken_at_most_eligible cs rs : Forall2 result_sound cs rs ->
  Forall (fun c => forall s, usdValueMantissa c = Some s -> mantissa_wf s) cs ->
  total_of (omap available_gross rs) <= total_of (omap eligible_value cs).
Proof.
  induction 1 as [|c r cs rs (_ & Hg & Hr) _ IH]; [done|].
  intros [Hc Hcs]%Forall_cons. specialize (IH Hcs). rewrite !total_of_omap. unfold available_gross at 1.
  destruct (deductions r) as [d|].
  - destruct Hr as (_ & He & _ & gross & Hu & _). rewrite Hg, Hu.
    rewrite eligible_value_spec, decide_True, Hu by (by apply reasons_nil). cbn [from_option]. lia.
  - destruct (eligible_value c) as [v|] eqn:E; cbn [from_option]; [|lia].
    apply eligible_supported, supported_value_usd, Hc, mantissa_nonneg in E. lia.
Qed.

Lemma sound_deductions_wf cs rs : Forall2 result_sound cs rs -> Forall deductions_wf (omap deductions rs).
Proof.
  induction 1 as [|c r cs rs (_ & _ & Hr) _ IH]; [constructor|]. cbn [omap list_omap].
  destruct (deductions r); [constructor; [apply Hr | done] | done].
Qed.

Lemma sound_available_wf cs rs : Forall2 result_sound cs rs ->
  Forall mantissa_wf (availableUsdMantissa <$> rs).
Proof. induction 1 as [|c r cs rs [Hw _] _ IH]; [constructor|]. rewrite fmap_cons. by constructor. Qed.

Definition kinds : list (BuyingPowerDeductionBreakdown -> string) :=
  [liquidity; conversion; slippage; network; routing].

Lemma kind_wf k ds : k ∈ kinds -> Forall deductions_wf ds -> Forall mantissa_wf (k <$> ds).
Proof.
  intros Hk. induction 1 as [|d ds Hd _ IH]; [constructor|]. rewrite fmap_cons. constructor; [|done].
  unfold deductions_wf in Hd. rewrite Forall_forall in Hd. apply Hd. unfold deduction_values.
  change [liquidity d; conversion d; slippage d; network d; routing d] with ((fun f => f d) <$> kinds).
  by apply (list_elem_of_fmap_2 (fun f => f d)).
Qed.

(** Summing by kind and then over the kinds is summing everything. *)
Lemma by_kind ds :
  total_of (liquidity <$> ds) + total_of (conversion <$> ds) + total_of (slippage <$> ds)
  + total_of (network <$> ds) + total_of (routing <$> ds) = total_of (concat (deduction_values <$> ds)).
Proof.
  induction ds as [|d ds IH]; [done|]. rewrite !fmap_cons. cbn [concat]. rewrite total_of_app, !total_of_cons.
  unfold deduction_values at 1. rewrite !total_of_cons. change (total_of []) with 0. lia.
Qed.

(** What the totals by kind are. *)
Definition breakdown_exact (ds : list BuyingPowerDeductionBreakdown) (totals : BuyingPowerDeductionBreakdown) : Prop :=
  Forall (fun k => BigInt (k totals) = total_of (k <$> ds)) kinds.

Lemma sum_breakdowns_spec ds : Forall deductions_wf ds ->
  total_of (concat (deduction_values <$> ds)) < 10 ^ 100 ->
  exists totals, sumDeductionBreakdowns ds = Ok totals /\ deductions_wf totals /\ breakdown_exact ds totals.
Proof.
  intros Hds Hlt. rewrite <- by_kind in Hlt. destruct ds as [|d ds'] eqn:E.
  { eexists. split; [reflexivity|]. split; repeat (constructor; [try apply mantissa_zero; done|]); constructor. }
  unfold sumDeductionBreakdowns. rewrite <- E in *.
  assert (forall k, k ∈ kinds -> 0 <= total_of (k <$> ds)) as H0.
  { intros k Hk. by apply total_of_nonneg, kind_wf. }
  pose proof (H0 liquidity ltac:(solve_elem)). pose proof (H0 conversion ltac:(solve_elem)).
  pose proof (H0 slippage ltac:(solve_elem)). pose proof (H0 network ltac:(solve_elem)).
  pose proof (H0 routing ltac:(solve_elem)).
  assert (forall k, k ∈ kinds -> total_of (k <$> ds) < 10 ^ 100 ->
    exists s, addBuyingPowerUsdMantissas (k <$> ds) = Ok s /\ mantissa_wf s /\ BigInt s = total_of (k <$> ds)) as Hadd.
  { intros k Hk Hl. destruct (add_fits (k <$> ds)) as [s Hs]; [by apply kind_wf | done|].
    exists s. split; [done|]. destruct (add_ok _ _ (kind_wf k ds Hk Hds) Hs) as (? & ? & _). done. }
  destruct (Hadd liquidity) as (l & -> & ? & ?); [solve_elem | lia|].
  destruct (Hadd conversion) as (c & -> & ? & ?); [solve_elem | lia|].
  destruct (Hadd slippage) as (s & -> & ? & ?); [solve_elem | lia|].
  destruct (Hadd network) as (n & -> & ? & ?); [solve_elem | lia|].
  destruct (Hadd routing) as (r & -> & ? & ?); [solve_elem | lia|].
  eexists. split; [reflexivity|]. split; repeat (constructor; [done|]); constructor.
Qed.

(** Once the eligible values fit, no total can fail. *)
Lemma summed_spec cs rs : Forall2 result_sound cs rs ->
  Forall (fun c => forall s, usdValueMantissa c = Some s -> mantissa_wf s) cs ->
  total_of (omap eligible_value cs) < 10 ^ 100 ->
  exists totals total available, summed rs = Ok (totals, total, available) /\
    breakdown_exact (omap deductions rs) totals /\
    BigInt total = total_of (concat (deduction_values <$> omap deductions rs)) /\
    BigInt available = total_of (availableUsdMantissa <$> rs).
Proof.
  intros Hs Hw Hlt. pose proof (totals_conserved _ _ Hs) as Hc. pose proof (taken_at_most_eligible _ _ Hs Hw) as Ht.
  pose proof (sound_deductions_wf _ _ Hs) as Hd. pose proof (sound_available_wf _ _ Hs) as Ha.
  pose proof (total_of_nonneg _ Ha) as Ha0.
  assert (0 <= total_of (concat (deduction_values <$> omap deductions rs))) as Hd0.
  { apply total_of_nonneg, Forall_concat, Forall_fmap. done. }
  unfold summed. destruct (sum_breakdowns_spec _ Hd) as (totals & -> & Htw & Hte); [lia|]. cbn [rbind].
  assert (total_of (deduction_values totals) = total_of (concat (deduction_values <$> omap deductions rs))) as Hsum.
  { rewrite <- by_kind. unfold breakdown_exact, kinds in Hte. rewrite !Forall_cons in Hte.
    destruct Hte as (E1 & E2 & E3 & E4 & E5 & _). unfold deduction_values at 1. rewrite !total_of_cons. change (total_of []) with 0. lia. }
  unfold totalBuyingPowerDeductions. destruct (add_fits (deduction_values totals)) as [total Htotal]; [done | lia|].
  rewrite Htotal. cbn [rbind]. apply add_ok in Htotal as (_ & Htotal & _); [|done].
  rewrite (mapr_pure _ availableUsdMantissa).
  2:{ intros r Hr. apply normalize_ok. split; [done|]. rewrite Forall_fmap, Forall_forall in Ha. by apply Ha. }
  cbn [rbind]. destruct (add_fits (availableUsdMantissa <$> rs)) as [available Hav]; [done | lia|].
  rewrite Hav. cbn [rbind]. apply add_ok in Hav as (_ & Hav & _); [|done].
  exists totals, total, available. split; [done|]. split; [done|]. split; [congruence | done].
Qed.

(** ** Lemmas: the calculation *)

Definition on_time (now : string) (c : ParsedContribution) : Prop := str_lt now (asOf c) = false.

#[export] Instance on_time_dec now c : Decision (on_time now c).
Proof. unfold on_time. apply _. Defined.

Lemma collect_values_spec now cs sv ev :
  (Forall (on_time now) cs /\
   collect_values now (Some <$> cs) sv ev = Ok (sv ++ omap supported_value cs, ev ++ omap eligible_value cs)) \/
  (~ Forall (on_time now) cs /\
   collect_values now (Some <$> cs) sv ev = Err (BuyingPowerCalculationError INVALID_REQUEST)).
Proof.
  revert sv ev. induction cs as [|c cs IH]; intros sv ev.
  { left. split; [constructor|]. by rewrite !app_nil_r. }
  rewrite fmap_cons. cbn [collect_values]. destruct (str_lt now (asOf c)) eqn:E.
  { right. split; [|done]. intros [H _]%Forall_cons. unfold on_time in H. congruence. }
  assert (forall (f : ParsedContribution -> option string) vs, push (f c) vs ++ omap f cs = vs ++ omap f (c :: cs)) as Hp.
  { intros f vs. unfold push. cbn. destruct (f c); [by rewrite <- app_assoc | done]. }
  destruct (IH (push (supported_value c) sv) (push (eligible_value c) ev)) as [[Hl ->]|[Hl ->]].
  - left. split; [by constructor|]. by rewrite !Hp.
  - right. split; [|done]. by intros [_ H]%Forall_cons.
Qed.

(** The values of a request without holes. *)
Lemma request_values getter input request cs :
  parseRequest getter input = Ok request -> contributions request = Some <$> cs ->
  Forall (fun c => forall s, usdValueMantissa c = Some s -> mantissa_wf s) cs.
Proof.
  intros Hw%parseRequest_ok Hcs. unfold request_wf in Hw. rewrite Hcs in Hw.
  replace (omap id (Some <$> cs)) with cs in Hw; [done|].
  clear. induction cs as [|c cs IH]; [done|]. cbn. by f_equal.
Qed.

Lemma limit_add vs : Forall mantissa_wf vs ->
  limit_exceeded (addBuyingPowerUsdMantissas vs) =
  if total_of vs <? 10 ^ 100 then Ok (toString (total_of vs))
  else Err (BuyingPowerCalculationError NUMERIC_LIMIT_EXCEEDED).
Proof. intros H. rewrite add_spec by done. by destruct (_ <? _). Qed.

(** The totals of a finished calculation. *)
Definition totals_exact (cs : list ParsedContribution) (b : BuyingPowerResult) : Prop :=
  BigInt (supportedPortfolioValueMantissa b) = total_of (omap supported_value cs) /\
  BigInt (eligibleGrossValueMantissa b) = total_of (omap eligible_value cs) /\
  breakdown_exact (omap deductions (result_contributions b)) (totalDeductions b) /\
  BigInt (totalDeductionUsdMantissa b)
    = total_of (concat (deduction_values <$> omap deductions (result_contributions b))) /\
  BigInt (availableBuyingPowerUsdMantissa b)
    = total_of (availableUsdMantissa <$> result_contributions b).

Lemma available_count_spec rs :
  Forall (fun r => availability r = AVAILABLE) rs <-> available_count rs = length rs.
Proof.
  unfold available_count. induction rs as [|r rs IH]; [split; [done | constructor]|].
  rewrite Forall_cons, IH. cbn.
  pose proof (List.filter_length_le (fun r => bool_decide (availability r = AVAILABLE)) rs).
  destruct (bool_decide_reflect (availability r = AVAILABLE)); cbn;
    (split; [intros [? ?]; (lia || done) | intros; (lia || (split; [done | lia]))]).
Qed.

Lemma all_available_spec rs :
  (if (available_count rs =? 0)%nat then NONE_AVAILABLE
   else if (available_count rs =? length rs)%nat then ALL_AVAILABLE else PARTIAL) = ALL_AVAILABLE
  <-> rs <> [] /\ Forall (fun r => availability r = AVAILABLE) rs.
Proof.
  rewrite available_count_spec.
  destruct (Nat.eqb_spec (available_count rs) 0) as [H0|H0], (Nat.eqb_spec (available_count rs) (length rs)) as [H1|H1];
    (split; [try discriminate | intros [Hne Hl]; try done]).
  - rewrite H0 in H1. by destruct rs.
  - intros _. split; [|done]. by intros ->.
Qed.

Lemma assemble_ok request now cs rs :
  Forall2 result_sound cs rs ->
  Forall (fun c => forall s, usdValueMantissa c = Some s -> mantissa_wf s) cs ->
  total_of (omap supported_value cs) < 10 ^ 100 ->
  exists b, assemble request now (toString (total_of (omap supported_value cs)))
              (toString (total_of (omap eligible_value cs))) rs = Ok b /\
    totals_exact cs b /\ result_contributions b = rs /\ evaluatedAt b = now /\
    mayAuthorizeFinancialAction b = false /\
    (result_availability b = ALL_AVAILABLE <-> rs <> [] /\ Forall (fun r => availability r = AVAILABLE) rs).
Proof.
  intros Hs Hw Hlt. pose proof (eligible_at_most_supported _ Hw) as Hes.
  pose proof (taken_at_most_eligible _ _ Hs Hw) as Hte. pose proof (totals_conserved _ _ Hs) as Hc.
  assert (Forall mantissa_wf (omap eligible_value cs)) as He.
  { apply values_wf. intros c v Hc' Hv%eligible_supported%supported_value_usd.
    rewrite Forall_forall in Hw. by eapply Hw. }
  assert (Forall mantissa_wf (omap supported_value cs)) as Hsup.
  { apply values_wf. intros c v Hc' Hv%supported_value_usd. rewrite Forall_forall in Hw. by eapply Hw. }
  pose proof (total_of_nonneg _ He) as He0.
  assert (0 <= total_of (concat (deduction_values <$> omap deductions rs))) as Hd0.
  { apply total_of_nonneg, Forall_concat, Forall_fmap. by eapply sound_deductions_wf. }
  destruct (summed_spec _ _ Hs Hw) as (totals & total & available & Hsum & Hb & Ht & Ha); [lia|].
  unfold assemble. rewrite Hsum. cbn [limit_exceeded rlift rcatch rbind]. rewrite !BigInt_toString by lia.
  rewrite (proj2 (Z.ltb_ge _ _)), (proj2 (Z.ltb_ge _ _)) by lia. cbn [orb].
  eexists. split; [reflexivity|]. split; [|split; [done|split; [done|split; [done|]]]].
  - unfold totals_exact.
    cbn [supportedPortfolioValueMantissa eligibleGrossValueMantissa totalDeductions totalDeductionUsdMantissa
         availableBuyingPowerUsdMantissa result_contributions].
    rewrite !BigInt_toString by lia. done.
  - apply all_available_spec.
Qed.

(** The value of an answer, whatever was asked. *)
Definition event_value (ev : event power_ans buying_power_exception) : result buying_power_exception jsval :=
  match ev with
  | Event _ a => a
  end.

Lemma clock_event_inj a a' (t t' : list (event power_ans buying_power_exception)) :
  Event ReadClock a :: t = Event ReadClock a' :: t' -> a = a' /\ t = t'.
Proof. intros H. split; [exact (f_equal (fun l => from_option event_value a (head l)) H) | by injection H]. Qed.

(** The five ways a calculation on an accepted request ends. *)
Lemma calculate_cases getter input request cs t r :
  parseRequest getter input = Ok request -> contributions request = Some <$> cs ->
  executes (calculate getter input) t r ->
  exists a t', t = Event ReadClock a :: t' /\
  ((r = Err (BuyingPowerCalculationError CLOCK_FAILED) /\ t' = [] /\
    forall now, a = Ok (VStr now) -> canonical_timestamp now = None) \/
   exists now, a = Ok (VStr now) /\ is_Some (canonical_timestamp now) /\
   ((r = Err (BuyingPowerCalculationError INVALID_REQUEST) /\ t' = [] /\ ~ Forall (on_time now) cs) \/
    (Forall (on_time now) cs /\
     ((r = Err (BuyingPowerCalculationError NUMERIC_LIMIT_EXCEEDED) /\ t' = [] /\
       10 ^ 100 <= total_of (omap supported_value cs)) \/
      (total_of (omap supported_value cs) < 10 ^ 100 /\
       exists b, r = Ok b /\ evaluations getter now cs (result_contributions b) t' /\
         Forall2 result_sound cs (result_contributions b) /\ totals_exact cs b /\ evaluatedAt b = now /\
         mayAuthorizeFinancialAction b = false /\
         (result_availability b = ALL_AVAILABLE <-> result_contributions b <> [] /\
            Forall (fun r => availability r = AVAILABLE) (result_contributions b))))))).
Proof.
  intros Hp Hcs H. pose proof (request_values _ _ _ _ Hp Hcs) as Hw. unfold calculate in H. rewrite Hp in H.
  cbn [io_bind] in H. destruct t as [|ev t']; [by destruct H|].
  destruct H as (a & -> & H). exists a, t'. split; [done|].
  destruct a as [v|e]; [|left; destruct H as [-> ->]; by split_and!].
  cbn [io_bind] in H. destruct (canonicalTimestamp v) as [now|] eqn:Hv.
  2:{ left. destruct H as [-> ->]. split_and!; try done. intros now [= ->]. cbn in Hv.
      by destruct (canonical_timestamp now). }
  assert (v = VStr now /\ is_Some (canonical_timestamp now)) as [-> Hnow].
  { destruct v; try done. cbn in Hv. destruct (canonical_timestamp s) eqn:E; [|done].
    injection Hv as <-. split; [done | by eexists]. }
  right. exists now. split; [done|]. split; [done|]. cbn [or_throw io_try io_bind] in H. rewrite Hcs in H.
  destruct (collect_values_spec now cs [] []) as [[Hl E]|[Hl E]]; rewrite E in H.
  2:{ left. by destruct H as [-> ->]. }
  right. split; [done|]. cbn [io_bind fst snd app] in H.
  assert (Forall mantissa_wf (omap supported_value cs)) as Hsup.
  { apply values_wf. intros c s Hc Hs%supported_value_usd. rewrite Forall_forall in Hw. by eapply Hw. }
  assert (Forall mantissa_wf (omap eligible_value cs)) as He.
  { apply values_wf. intros c s Hc Hs%eligible_supported%supported_value_usd. rewrite Forall_forall in Hw. by eapply Hw. }
  pose proof (eligible_at_most_supported _ Hw) as Hes.
  rewrite limit_add in H by done. destruct (Z.ltb_spec (total_of (omap supported_value cs)) (10 ^ 100)) as [Hlt|Hge].
  2:{ left. by destruct H as [-> ->]. }
  right. split; [done|]. cbn [io_bind] in H. rewrite limit_add in H by done.
  rewrite (proj2 (Z.ltb_lt (total_of (omap eligible_value cs)) (10 ^ 100))) in H
    by (apply (Z.le_lt_trans _ _ _ Hes Hlt)).
  cbn [io_bind] in H. apply executes_bind in H as [(e & H & _)|(rs & t1 & t2 & -> & H & [-> ->])].
  { apply evaluate_contributions_spec in H as (rs & [=] & _); done. }
  apply evaluate_contributions_spec in H as (rs' & [= <-] & Hs & Hev); [|done..].
  destruct (assemble_ok request now cs rs Hs Hw Hlt) as (b & -> & Ht & <- & Hb).
  exists b. rewrite app_nil_r. do 4 (split; [done|]). exact Hb.
Qed.

(** ** Theorems *)

(** C38: on an accepted request without holes, a calculation succeeds exactly
    when the clock reads an instant no contribution is later than and the
    supported values add up to at most a hundred digits, whatever the adjustment
    port answers; it fails with one of three codes and before any call to the
    port. *)
Theorem buying_power_total getter input request cs t r :
  parseRequest getter input = Ok request -> contributions request = Some <$> cs ->
  executes (calculate getter input) t r ->
  ((exists b, r = Ok b) <->
   exists now t', t = Event ReadClock (Ok (VStr now)) :: t' /\ is_Some (canonical_timestamp now) /\
     Forall (on_time now) cs /\ total_of (omap supported_value cs) < 10 ^ 100) /\
  (forall e, r = Err e ->
     (exists code, e = BuyingPowerCalculationError code) /\ exists a, t = [Event ReadClock a]).
Proof.
  intros Hp Hcs H.
  destruct (calculate_cases _ _ _ _ _ _ Hp Hcs H) as (a & t' & -> & [(-> & -> & Hn)|(now & -> & Hnow & [(-> & -> & Hn)|(Hl & [(-> & -> & Hn)|(Hlt & b & -> & _)])])]).
  - split; [|intros e [= <-]; eauto]. split; [by intros [b [=]]|].
    intros (now & t & [-> _]%clock_event_inj & [ms Hms] & _). by rewrite (Hn now) in Hms.
  - split; [|intros e [= <-]; eauto]. split; [by intros [b [=]]|]. by intros (now' & t & [[= <-] _]%clock_event_inj & _ & Hl & _).
  - split; [|intros e [= <-]; eauto]. split; [by intros [b [=]]|]. intros (now' & t & _ & _ & _ & Hlt). lia.
  - split; [|by intros e [=]]. split; [|by eexists]. intros _. by exists now, t'.
Qed.


(** ** Witnesses *)

Definition contribution_js (id : string) (fresh : BuyingPowerFreshness) (value : option string) : jsval :=
  js_object [("contributionId", VStr id); ("walletId", VStr "wallet-1"); ("networkId", VStr "eip155:1");
    ("assetId", VStr "usdc"); ("supported", VBool true); ("freshness", VStr (enum_str fresh));
    ("valuationUse", VStr "CONSERVATIVE_REPORTING_ONLY"); ("usdValueMantissa", js_nullable value);
    ("asOf", VStr "2026-09-01T00:00:00.000Z")].

Definition request_js (elements : jsval) : jsval :=
  js_object [("portfolioSnapshotId", VStr "snapshot-1"); ("contributions", elements)].

Definition request_example : jsval :=
  request_js (js_array [contribution_js "c1" CURRENT (Some "1000"); contribution_js "c2" STALE (Some "500");
                        contribution_js "c3" CURRENT (Some "40")]).

(** A request whose array has a hole before its only contribution. *)
Definition sparse_request_example : jsval :=
  request_js (VArr PArray 2 [(KStr "1", DData (contribution_js "c1" CURRENT (Some "1000")) true)]).

Definition quote_js (id : string) : jsval :=
  js_object [("status", VStr "AVAILABLE"); ("quoteId", VStr "quote-1"); ("contributionId", VStr id);
    ("quotedAt", VStr "2026-09-01T00:00:00.000Z"); ("validUntil", VStr "2026-09-01T00:05:00.000Z");
    ("deductions", js_object [("liquidity", VStr "10"); ("conversion", VStr "5"); ("slippage", VStr "20");
                              ("network", VStr "30"); ("routing", VStr "0")])].

(** A clock one minute later and a port that quotes 65 for everything. *)
Definition power_environment (c : power_call) (_ : unit)
    : result buying_power_exception (power_ans c) * unit :=
  (match c with
   | ReadClock => Ok (VStr "2026-09-01T00:01:00.000Z")
   | Evaluate request => Ok (quote_js (req_contributionId request))
   end, tt).

Definition no_getter (_ : jsval) (_ : nat) : option jsval := None.

(** Of 1000, 500 and 40: the first is available less 65, the second is stale and
    the third is worth less than its deductions. *)
Example power_example :
  (fun b => (availableBuyingPowerUsdMantissa b, eligibleGrossValueMantissa b,
             supportedPortfolioValueMantissa b, result_availability b)) <$>
    to_option (run power_environment tt (calculate no_getter request_example)).1.1
  = Some ("935", "1040", "1540", PARTIAL).
Proof. vm_compute. reflexivity. Qed.

(** The hole passes the validation (its [undefined] id is distinct) and the
    calculation then fails on [contribution.asOf] with a [TypeError] instead of
    the request's error code. *)
Example sparse_request_accepted :
  is_ok (parseRequest no_getter sparse_request_example) = true /\
  (run power_environment tt (calculate no_getter sparse_request_example)).1.1 = Err TypeErrorThrown.
Proof. split; vm_compute; reflexivity. Qed.

Definition parsed_example : list ParsedContribution :=
  omap id (from_option contributions [] (to_option (parseRequest no_getter request_example))).

Lemma buying_power_total_witness :
  exists t r, executes (calculate no_getter request_example) t r /\ exists b, r = Ok b.
Proof.
  destruct (run power_environment tt (calculate no_getter request_example)) as [[r t] w] eqn:E.
  pose proof (run_executes_eq _ _ _ _ _ _ E) as H. vm_compute in E. injection E as <- <- _.
  do 2 eexists. split; [exact H|].
  eapply (buying_power_total no_getter request_example _ parsed_example) in H as [Hr _];
    [|vm_compute; reflexivity | vm_compute; reflexivity].
  apply Hr. do 2 eexists. split; [reflexivity|]. split; [vm_compute; by eexists|].
  split; [|vm_compute; reflexivity].
  apply (bool_decide_eq_true_1 _). vm_compute. reflexivity.
Defined.

