(* ===== verification/Ledger.v ===== *)
(** * Ledger journals (apps/api/src/ledger/domain/ledger.ts)

    Parsing and normalisation of journal postings and reversals: every input
    is an untrusted value, every result a record of canonical strings. *)

From stdpp Require Import base list strings.
From Stdlib Require Import ZArith Lia Ascii.
From S2P Require Import Prelude Text JsValue JsDate JsCollections.

Open Scope Z_scope.

(** ** Data *)

Definition ATOMIC_AMOUNT_PATTERN (s : string) : bool :=
  POSITIVE_INTEGER_PATTERN s && (strlen s <=? 78).

Definition MAX_LEDGER_POSTINGS : Z := 64.

Definition MAX_ATOMIC_AMOUNT : string :=
  "115792089237316195423570985008687907853269984665640564039457584007913129639935".

Inductive EconomicEventType : Type :=
| SETTLEMENT | ACTUAL_FEE | ADJUSTMENT | COMPENSATION.

Inductive PostLedgerReasonCode : Type :=
| CHAIN_FINALITY_CONFIRMED | PROVIDER_SETTLEMENT_VERIFIED | ACTUAL_FEE_CONFIRMED
| ACCOUNTING_ADJUSTMENT_APPROVED | COMPENSATION_SETTLED.

Inductive ReversalLedgerReasonCode : Type :=
| RECOGNITION_INVALIDATED | CHAIN_REORGANIZATION_CONFIRMED | SOURCE_EVIDENCE_CORRECTED.

Inductive LedgerPostingSide : Type := DEBIT | CREDIT.

#[export] Program Instance POSTABLE_ECONOMIC_EVENT_TYPES : JsEnum EconomicEventType := {
  enum_values := [SETTLEMENT; ACTUAL_FEE; ADJUSTMENT; COMPENSATION];
  enum_str := fun e => match e with
    | SETTLEMENT => "SETTLEMENT" | ACTUAL_FEE => "ACTUAL_FEE"
    | ADJUSTMENT => "ADJUSTMENT" | COMPENSATION => "COMPENSATION" end;
}.
Next Obligation. solve_enum_all. Qed.
Next Obligation. solve_enum_inj. Qed.

#[export] Program Instance POST_LEDGER_REASON_CODES : JsEnum PostLedgerReasonCode := {
  enum_values := [CHAIN_FINALITY_CONFIRMED; PROVIDER_SETTLEMENT_VERIFIED; ACTUAL_FEE_CONFIRMED;
                  ACCOUNTING_ADJUSTMENT_APPROVED; COMPENSATION_SETTLED];
  enum_str := fun r => match r with
    | CHAIN_FINALITY_CONFIRMED => "CHAIN_FINALITY_CONFIRMED"
    | PROVIDER_SETTLEMENT_VERIFIED => "PROVIDER_SETTLEMENT_VERIFIED"
    | ACTUAL_FEE_CONFIRMED => "ACTUAL_FEE_CONFIRMED"
    | ACCOUNTING_ADJUSTMENT_APPROVED => "ACCOUNTING_ADJUSTMENT_APPROVED"
    | COMPENSATION_SETTLED => "COMPENSATION_SETTLED" end;
}.
Next Obligation. solve_enum_all. Qed.
Next Obligation. solve_enum_inj. Qed.

#[export] Program Instance REVERSAL_LEDGER_REASON_CODES : JsEnum ReversalLedgerReasonCode := {
  enum_values := [RECOGNITION_INVALIDATED; CHAIN_REORGANIZATION_CONFIRMED; SOURCE_EVIDENCE_CORRECTED];
  enum_str := fun r => match r with
    | RECOGNITION_INVALIDATED => "RECOGNITION_INVALIDATED"
    | CHAIN_REORGANIZATION_CONFIRMED => "CHAIN_REORGANIZATION_CONFIRMED"
    | SOURCE_EVIDENCE_CORRECTED => "SOURCE_EVIDENCE_CORRECTED" end;
}.
Next Obligation. solve_enum_all. Qed.
Next Obligation. solve_enum_inj. Qed.

#[export] Program Instance LEDGER_POSTING_SIDES : JsEnum LedgerPostingSide := {
  enum_values := [DEBIT; CREDIT];
  enum_str := fun s => match s with DEBIT => "DEBIT" | CREDIT => "CREDIT" end;
}.
Next Obligation. solve_enum_all. Qed.
Next Obligation. solve_enum_inj. Qed.

Inductive LedgerValidationCode : Type :=
| INVALID_LEDGER_ID | INVALID_ATOMIC_AMOUNT | INVALID_ECONOMIC_EVENT_TYPE | INVALID_REASON
| INVALID_LEDGER_TIMESTAMP | INVALID_LEDGER_POSTING | INVALID_LEDGER_JOURNAL
| UNBALANCED_LEDGER_JOURNAL.

Notation validated := (result LedgerValidationCode).

Record LedgerPosting : Type := {
  accountId : string;
  assetRevisionId : string;
  side : LedgerPostingSide;
  amountAtomic : string;
}.

Record ValidatedPostLedgerJournal : Type := {
  bookId : string;
  transactionId : string;
  legId : string;
  economicEventType : EconomicEventType;
  effectiveAt : string;
  observedAt : string;
  reason : PostLedgerReasonCode;
  postings : list LedgerPosting;
}.

Record ValidatedReverseLedgerJournal : Type := {
  originalJournalId : string;
  rev_reason : ReversalLedgerReasonCode;
  rev_effectiveAt : string;
  rev_observedAt : string;
}.

Record PostLedgerJournalCommand : Type := {
  correlationId : string;
  post_journal : ValidatedPostLedgerJournal;
}.

Record ReverseLedgerJournalCommand : Type := {
  rev_correlationId : string;
  rev_journal : ValidatedReverseLedgerJournal;
}.

(** ** Parsers of untrusted values *)

Definition ownDataRecord (value : jsval) (expectedKeys : list string)
    (code : LedgerValidationCode) : validated jsrec :=
  or_throw (exact_data_record expectedKeys value) code.

Definition ownDataArray (value : jsval) : validated (list jsval) :=
  or_throw (data_array 2 MAX_LEDGER_POSTINGS value) INVALID_LEDGER_JOURNAL.

Definition parseUuid (value : jsval) : validated string :=
  match value with
  | VStr s => if UUID_V4_PATTERN s then Ok s else Err INVALID_LEDGER_ID
  | _ => Err INVALID_LEDGER_ID
  end.

Definition parseLedgerBookId := parseUuid.
Definition parseLedgerAssetRevisionId := parseUuid.
Definition parseLedgerAccountId := parseUuid.
Definition parseLedgerTransactionId := parseUuid.
Definition parseLedgerLegId := parseUuid.
Definition parseLedgerJournalId := parseUuid.
Definition parseLedgerCorrelationId := parseUuid.
Definition parseLedgerActorAccountId := parseUuid.

Definition parseAtomicAmount (value : jsval) : validated string :=
  match value with
  | VStr s =>
      if negb (ATOMIC_AMOUNT_PATTERN s)
         || (strlen MAX_ATOMIC_AMOUNT <? strlen s)
         || ((strlen s =? strlen MAX_ATOMIC_AMOUNT) && str_lt MAX_ATOMIC_AMOUNT s)
      then Err INVALID_ATOMIC_AMOUNT
      else Ok s
  | _ => Err INVALID_ATOMIC_AMOUNT
  end.

Definition parseEconomicEventType (value : jsval) : validated EconomicEventType :=
  or_throw (enum_member enum_values value) INVALID_ECONOMIC_EVENT_TYPE.

Definition parsePostLedgerReason (value : jsval) : validated PostLedgerReasonCode :=
  or_throw (enum_member enum_values value) INVALID_REASON.

Definition parseReversalLedgerReason (value : jsval) : validated ReversalLedgerReasonCode :=
  or_throw (enum_member enum_values value) INVALID_REASON.

(** A genuine, finite [Date], printed in ISO format. *)
Definition parseLedgerTimestamp (value : jsval) : validated string :=
  match date_time value with
  | None => Err INVALID_LEDGER_TIMESTAMP
  | Some milliseconds =>
      if valid_time milliseconds then Ok (toISOString milliseconds)
      else Err INVALID_LEDGER_TIMESTAMP
  end.

Definition parsePosting (value : jsval) : validated LedgerPosting :=
  let* record := ownDataRecord value ["accountId"; "assetRevisionId"; "side"; "amountAtomic"]
                   INVALID_LEDGER_POSTING in
  let* side := or_throw (enum_member [DEBIT; CREDIT] (record .: "side")) INVALID_LEDGER_POSTING in
  let* accountId := parseLedgerAccountId (record .: "accountId") in
  let* assetRevisionId := parseLedgerAssetRevisionId (record .: "assetRevisionId") in
  let* amountAtomic := parseAtomicAmount (record .: "amountAtomic") in
  Ok {| accountId := accountId; assetRevisionId := assetRevisionId; side := side;
        amountAtomic := amountAtomic |}.

(** ** Balancing *)

Record balance : Type := { debit : Z; credit : Z }.

Definition add_to_balance (b : balance) (posting : LedgerPosting) : balance :=
  match side posting with
  | DEBIT => {| debit := debit b + BigInt (amountAtomic posting); credit := credit b |}
  | CREDIT => {| debit := debit b; credit := credit b + BigInt (amountAtomic posting) |}
  end.

(** One turn of the loop over the postings. *)
Definition record_posting (balances : list (string * balance)) (posting : LedgerPosting)
    : list (string * balance) :=
  let b := default {| debit := 0; credit := 0 |} (mget (assetRevisionId posting) balances) in
  mset (assetRevisionId posting) (add_to_balance b posting) balances.

Definition parseAndBalancePostings (value : jsval) : validated (list LedgerPosting) :=
  let* values := ownDataArray value in
  let* postings := mapr parsePosting values in
  let accountIds := accountId <$> postings in
  let balances := foldl record_posting [] postings in
  reject UNBALANCED_LEDGER_JOURNAL when
    (set_size accountIds <? 2)%nat
    || existsb (fun kb => (debit kb.2 =? 0) || negb (debit kb.2 =? credit kb.2)) balances in
  Ok postings.

(** ** Journals *)

Definition validReasonForEvent (e : EconomicEventType) (r : PostLedgerReasonCode) : bool :=
  match e, r with
  | SETTLEMENT, CHAIN_FINALITY_CONFIRMED | SETTLEMENT, PROVIDER_SETTLEMENT_VERIFIED => true
  | ACTUAL_FEE, ACTUAL_FEE_CONFIRMED => true
  | ADJUSTMENT, ACCOUNTING_ADJUSTMENT_APPROVED => true
  | COMPENSATION, COMPENSATION_SETTLED => true
  | _, _ => false
  end.

Definition normalizePostLedgerJournalInput (value : jsval) : validated ValidatedPostLedgerJournal :=
  let* record := ownDataRecord value
    ["bookId"; "transactionId"; "legId"; "economicEventType"; "effectiveAt"; "observedAt";
     "reason"; "postings"] INVALID_LEDGER_JOURNAL in
  let* effectiveAt := parseLedgerTimestamp (record .: "effectiveAt") in
  let* observedAt := parseLedgerTimestamp (record .: "observedAt") in
  reject INVALID_LEDGER_TIMESTAMP when str_lt observedAt effectiveAt in
  let* economicEventType := parseEconomicEventType (record .: "economicEventType") in
  let* reason := parsePostLedgerReason (record .: "reason") in
  reject INVALID_REASON when negb (validReasonForEvent economicEventType reason) in
  let* bookId := parseLedgerBookId (record .: "bookId") in
  let* transactionId := parseLedgerTransactionId (record .: "transactionId") in
  let* legId := parseLedgerLegId (record .: "legId") in
  let* postings := parseAndBalancePostings (record .: "postings") in
  Ok {| bookId := bookId; transactionId := transactionId; legId := legId;
        economicEventType := economicEventType; effectiveAt := effectiveAt;
        observedAt := observedAt; reason := reason; postings := postings |}.

Definition normalizeReverseLedgerJournalInput (value : jsval)
    : validated ValidatedReverseLedgerJournal :=
  let* record := ownDataRecord value
    ["originalJournalId"; "reason"; "effectiveAt"; "observedAt"] INVALID_LEDGER_JOURNAL in
  let* effectiveAt := parseLedgerTimestamp (record .: "effectiveAt") in
  let* observedAt := parseLedgerTimestamp (record .: "observedAt") in
  reject INVALID_LEDGER_TIMESTAMP when str_lt observedAt effectiveAt in
  let* originalJournalId := parseLedgerJournalId (record .: "originalJournalId") in
  let* reason := parseReversalLedgerReason (record .: "reason") in
  Ok {| originalJournalId := originalJournalId; rev_reason := reason;
        rev_effectiveAt := effectiveAt; rev_observedAt := observedAt |}.

(** A timestamp string back to the [Date] it denotes. *)
Definition timestampInput (value : jsval) : validated jsval :=
  match value with
  | VStr s =>
      match canonical_time s with
      | Some t => Ok (js_date t)
      | None => Err INVALID_LEDGER_TIMESTAMP
      end
  | _ => Err INVALID_LEDGER_TIMESTAMP
  end.

Definition normalizePostLedgerJournalCommand (value : jsval) : validated PostLedgerJournalCommand :=
  let* record := ownDataRecord value
    ["correlationId"; "bookId"; "transactionId"; "legId"; "economicEventType"; "effectiveAt";
     "observedAt"; "reason"; "postings"] INVALID_LEDGER_JOURNAL in
  let* effectiveAt := timestampInput (record .: "effectiveAt") in
  let* observedAt := timestampInput (record .: "observedAt") in
  let* journal := normalizePostLedgerJournalInput (js_object
    [("bookId", record .: "bookId"); ("transactionId", record .: "transactionId");
     ("legId", record .: "legId"); ("economicEventType", record .: "economicEventType");
     ("effectiveAt", effectiveAt); ("observedAt", observedAt);
     ("reason", record .: "reason"); ("postings", record .: "postings")]) in
  let* correlationId := parseLedgerCorrelationId (record .: "correlationId") in
  Ok {| correlationId := correlationId; post_journal := journal |}.

Definition normalizeReverseLedgerJournalCommand (value : jsval)
    : validated ReverseLedgerJournalCommand :=
  let* record := ownDataRecord value
    ["correlationId"; "originalJournalId"; "reason"; "effectiveAt"; "observedAt"]
    INVALID_LEDGER_JOURNAL in
  let* effectiveAt := timestampInput (record .: "effectiveAt") in
  let* observedAt := timestampInput (record .: "observedAt") in
  let* reversal := normalizeReverseLedgerJournalInput (js_object
    [("originalJournalId", record .: "originalJournalId"); ("reason", record .: "reason");
     ("effectiveAt", effectiveAt); ("observedAt", observedAt)]) in
  let* correlationId := parseLedgerCorrelationId (record .: "correlationId") in
  Ok {| rev_correlationId := correlationId; rev_journal := reversal |}.

(** ** Specification *)

(** Total of the amounts posted to one side of one asset. *)
Definition side_total (s : LedgerPostingSide) (asset : string) (ps : list LedgerPosting) : Z :=
  foldr Z.add 0 ((fun p => BigInt (amountAtomic p))
                   <$> filter (fun p => side p = s /\ assetRevisionId p = asset) ps).

(** Double entry: at least two accounts, and for every asset that occurs the
    debits equal the credits and are positive. *)
Definition balanced (ps : list LedgerPosting) : Prop :=
  (exists p q, p ∈ ps /\ q ∈ ps /\ accountId p <> accountId q) /\
  forall p, p ∈ ps ->
    0 < side_total DEBIT (assetRevisionId p) ps /\
    side_total DEBIT (assetRevisionId p) ps = side_total CREDIT (assetRevisionId p) ps.

Definition posting_wf (p : LedgerPosting) : Prop :=
  UUID_V4_PATTERN (accountId p) = true /\ UUID_V4_PATTERN (assetRevisionId p) = true /\
  exists n, 1 <= n <= MAX_UINT256 /\ amountAtomic p = toString n.

(** A printed instant.  The timestamps of a journal are compared as the code
    compares them, as texts: the order of the instants in four-digit years only. *)
Definition iso_timestamp (s : string) : Prop := exists t, valid_time t = true /\ s = toISOString t.

Definition journal_wf (j : ValidatedPostLedgerJournal) : Prop :=
  UUID_V4_PATTERN (bookId j) = true /\ UUID_V4_PATTERN (transactionId j) = true /\
  UUID_V4_PATTERN (legId j) = true /\
  iso_timestamp (effectiveAt j) /\ iso_timestamp (observedAt j) /\
  str_lt (observedAt j) (effectiveAt j) = false /\
  validReasonForEvent (economicEventType j) (reason j) = true /\
  (2 <= length (postings j) <= 64)%nat /\ Forall posting_wf (postings j) /\ balanced (postings j).

Definition reversal_wf (r : ValidatedReverseLedgerJournal) : Prop :=
  UUID_V4_PATTERN (originalJournalId r) = true /\
  iso_timestamp (rev_effectiveAt r) /\ iso_timestamp (rev_observedAt r) /\
  str_lt (rev_observedAt r) (rev_effectiveAt r) = false.

(** ** The records as the JavaScript objects handed to the next layer *)

Definition posting_js (p : LedgerPosting) : jsval := js_object
  [("accountId", VStr (accountId p)); ("assetRevisionId", VStr (assetRevisionId p));
   ("side", VStr (enum_str (side p))); ("amountAtomic", VStr (amountAtomic p))].

(** [{ correlationId, ...journal }] *)
Definition post_command_js (correlation : string) (j : ValidatedPostLedgerJournal) : jsval :=
  js_object
    [("correlationId", VStr correlation); ("bookId", VStr (bookId j));
     ("transactionId", VStr (transactionId j)); ("legId", VStr (legId j));
     ("economicEventType", VStr (enum_str (economicEventType j)));
     ("effectiveAt", VStr (effectiveAt j)); ("observedAt", VStr (observedAt j));
     ("reason", VStr (enum_str (reason j))); ("postings", js_array (posting_js <$> postings j))].

(** [{ correlationId, ...reversal }] *)
Definition reverse_command_js (correlation : string) (r : ValidatedReverseLedgerJournal) : jsval :=
  js_object
    [("correlationId", VStr correlation); ("originalJournalId", VStr (originalJournalId r));
     ("reason", VStr (enum_str (rev_reason r))); ("effectiveAt", VStr (rev_effectiveAt r));
     ("observedAt", VStr (rev_observedAt r))].

(** The input object of a journal, its timestamps as [Date]s. *)
Definition post_input_js (t1 t2 : Z) (j : ValidatedPostLedgerJournal) : jsval := js_object
  [("bookId", VStr (bookId j)); ("transactionId", VStr (transactionId j));
   ("legId", VStr (legId j)); ("economicEventType", VStr (enum_str (economicEventType j)));
   ("effectiveAt", js_date t1); ("observedAt", js_date t2);
   ("reason", VStr (enum_str (reason j))); ("postings", js_array (posting_js <$> postings j))].

(** ** Examples *)

Definition uuid_example (c : ascii) : string :=
  "0000000" +:+ String c "-0000-4000-8000-000000000000".

Definition posting_example (c : ascii) (s : LedgerPostingSide) (n : Z) : LedgerPosting :=
  {| accountId := uuid_example c; assetRevisionId := uuid_example "a"; side := s;
     amountAtomic := toString n |}.

Definition journal_example : ValidatedPostLedgerJournal :=
  {| bookId := uuid_example "1"; transactionId := uuid_example "2"; legId := uuid_example "3";
     economicEventType := SETTLEMENT; effectiveAt := "2026-09-01T00:00:00.000Z";
     observedAt := "2026-09-01T00:00:01.000Z"; reason := CHAIN_FINALITY_CONFIRMED;
     postings := [posting_example "4" DEBIT 70; posting_example "5" CREDIT 40;
                  posting_example "6" CREDIT 30] |}.

(** ** Lemmas: scalars *)

Lemma MAX_ATOMIC_AMOUNT_value : BigInt MAX_ATOMIC_AMOUNT = MAX_UINT256.
Proof. reflexivity. Qed.

Lemma parseUuid_ok v s : parseUuid v = Ok s <-> v = VStr s /\ UUID_V4_PATTERN s = true.
Proof.
  unfold parseUuid. split.
  - destruct v; try discriminate. destruct (UUID_V4_PATTERN s0) eqn:E; [|discriminate].
    by intros [= <-].
  - by intros [-> ->].
Qed.

(** An amount below the bound never has more than 78 digits. *)
Lemma amount_digits s :
  POSITIVE_INTEGER_PATTERN s = true -> BigInt s <= MAX_UINT256 -> strlen s <= 78.
Proof.
  intros Hp Hb. destruct (Z.le_gt_cases (strlen s) 78) as [|L]; [done|].
  apply positive_integer_bounds in Hp as [Hp _].
  assert (10 ^ 78 <= 10 ^ (strlen s - 1)) by (apply Z.pow_le_mono_r; lia).
  assert (MAX_UINT256 < 10 ^ 78) by reflexivity. lia.
Qed.

Lemma parseAtomicAmount_ok v s :
  parseAtomicAmount v = Ok s <->
  v = VStr s /\ POSITIVE_INTEGER_PATTERN s = true /\ BigInt s <= MAX_UINT256.
Proof.
  assert (POSITIVE_INTEGER_PATTERN MAX_ATOMIC_AMOUNT = true) as HM by reflexivity.
  assert (forall s, POSITIVE_INTEGER_PATTERN s = true -> UNSIGNED_INTEGER_PATTERN s = true) as HU.
  { intros s' H. unfold UNSIGNED_INTEGER_PATTERN. by rewrite H, orb_true_r. }
  unfold parseAtomicAmount, ATOMIC_AMOUNT_PATTERN. split.
  - destruct v as [| | | | |s'| | | | | |]; try discriminate.
    destruct (_ || _ || _) eqn:E; [discriminate|]. intros [= <-].
    rewrite <- orb_assoc in E. apply orb_false_iff in E as [E1 E2].
    apply negb_false_iff, andb_true_iff in E1 as [E1 _].
    split; [done|]. split; [done|]. rewrite <- MAX_ATOMIC_AMOUNT_value.
    by apply (exceeds_decimal_spec MAX_ATOMIC_AMOUNT s' HM); auto.
  - intros (-> & Hp & Hb). rewrite Hp, (proj2 (Z.leb_le _ _) (amount_digits s Hp Hb)).
    cbn [negb andb orb]. rewrite <- MAX_ATOMIC_AMOUNT_value in Hb.
    apply (exceeds_decimal_spec MAX_ATOMIC_AMOUNT s HM) in Hb; auto.
    unfold exceeds_decimal in Hb. by rewrite Hb.
Qed.

Lemma parseAtomicAmount_number v s :
  parseAtomicAmount v = Ok s <->
  v = VStr s /\ exists n, 1 <= n <= MAX_UINT256 /\ s = toString n.
Proof.
  rewrite parseAtomicAmount_ok. split; (intros [-> H]; split; [done|]).
  - destruct H as [Hp Hb]. exists (BigInt s). pose proof (positive_integer_pos s Hp).
    split; [lia|]. symmetry. apply toString_BigInt.
    unfold UNSIGNED_INTEGER_PATTERN. by rewrite Hp, orb_true_r.
  - destruct H as (n & Hn & ->). rewrite BigInt_toString by lia.
    split; [apply toString_positive; lia | lia].
Qed.

Lemma parseLedgerTimestamp_ok v s :
  parseLedgerTimestamp v = Ok s ->
  exists t, v = js_date t /\ valid_time t = true /\ s = toISOString t.
Proof.
  unfold parseLedgerTimestamp, date_time.
  destruct v as [| | | | | | | |[] [t|]| | |]; try discriminate.
  destruct (valid_time t) eqn:E; [|discriminate]. intros [= <-]. eauto.
Qed.

Lemma timestampInput_iso s : iso_timestamp s ->
  exists t, timestampInput (VStr s) = Ok (js_date t) /\ parseLedgerTimestamp (js_date t) = Ok s.
Proof.
  intros (t & Ht & ->). exists t. unfold timestampInput.
  rewrite (proj2 (canonical_time_spec _ t)) by done. split; [done|].
  unfold parseLedgerTimestamp, js_date, date_time. by rewrite Ht.
Qed.

(** ** Lemmas: postings *)

Lemma parsePosting_wf v p : parsePosting v = Ok p -> posting_wf p.
Proof.
  unfold parsePosting, ownDataRecord. intros H. inv_ok. subst.
  apply parseUuid_ok in Hr1 as [_ ?], Hr2 as [_ ?].
  apply parseAtomicAmount_number in Hr3 as [_ ?]. done.
Qed.

Lemma parsePosting_js p : posting_wf p -> parsePosting (posting_js p) = Ok p.
Proof.
  intros (Ha & Hs & Hn). destruct p as [acc ast sd amt].
  unfold parsePosting, ownDataRecord, posting_js, parseLedgerAccountId, parseLedgerAssetRevisionId.
  cbn [accountId assetRevisionId side amountAtomic] in *. read_record.
  rewrite (proj2 (parseUuid_ok (VStr acc) acc)) by done.
  rewrite (proj2 (parseUuid_ok (VStr ast) ast)) by done.
  rewrite (proj2 (parseAtomicAmount_number (VStr amt) amt)) by done.
  change [DEBIT; CREDIT] with (enum_values (A := LedgerPostingSide)).
  by rewrite enum_member_str.
Qed.

Lemma posting_amount_pos p : posting_wf p -> 1 <= BigInt (amountAtomic p) <= MAX_UINT256.
Proof. intros (_ & _ & n & Hn & ->). by rewrite BigInt_toString by lia. Qed.

Lemma side_total_app s a ps qs : side_total s a (ps ++ qs) = side_total s a ps + side_total s a qs.
Proof.
  unfold side_total. rewrite filter_app, fmap_app, foldr_app.
  generalize ((fun p => BigInt (amountAtomic p)) <$> filter (fun p => side p = s /\ assetRevisionId p = a) qs).
  intros l. induction (_ <$> filter _ ps) as [|x xs IH]; simpl; [lia|]. rewrite IH. lia.
Qed.

Lemma side_total_one s a p :
  side_total s a [p] =
  if decide (side p = s /\ assetRevisionId p = a) then BigInt (amountAtomic p) else 0.
Proof. unfold side_total. rewrite filter_cons. case_decide; simpl; lia. Qed.

(** The loop keeps, for every asset, its debit and credit totals. *)
Lemma balances_total ps a :
  default {| debit := 0; credit := 0 |} (mget a (foldl record_posting [] ps))
  = {| debit := side_total DEBIT a ps; credit := side_total CREDIT a ps |}.
Proof.
  induction ps as [|p ps IH] using rev_ind; [done|].
  rewrite foldl_app. cbn [foldl]. unfold record_posting at 1. rewrite mget_mset.
  rewrite !side_total_app, !side_total_one. case_decide as E.
  - subst a. cbn [default from_option]. rewrite IH. unfold add_to_balance.
    destruct (side p); simpl; repeat case_decide; simpl; try (f_equal; lia); naive_solver.
  - rewrite IH. repeat case_decide; try (f_equal; lia); naive_solver.
Qed.

Lemma balances_keys ps a : a ∈ (foldl record_posting [] ps).*1 <-> a ∈ assetRevisionId <$> ps.
Proof.
  induction ps as [|p ps IH] using rev_ind; [done|].
  rewrite foldl_app, fmap_app, elem_of_app. cbn [foldl]. unfold record_posting at 1.
  rewrite mset_keys, IH. cbn. rewrite list_elem_of_singleton. tauto.
Qed.

Lemma balances_NoDup ps : NoDup (foldl record_posting [] ps).*1.
Proof.
  induction ps as [|p ps IH] using rev_ind; [constructor|].
  rewrite foldl_app. cbn [foldl]. unfold record_posting at 1. by apply mset_NoDup.
Qed.

Lemma balances_lookup ps a b :
  (a, b) ∈ foldl record_posting [] ps ->
  b = {| debit := side_total DEBIT a ps; credit := side_total CREDIT a ps |}.
Proof.
  intros H. rewrite <- balances_total.
  by rewrite (elem_mget _ _ _ (balances_NoDup ps) H).
Qed.

Lemma unbalanced_assets ps :
  existsb (fun kb => (debit kb.2 =? 0) || negb (debit kb.2 =? credit kb.2))
    (foldl record_posting [] ps) = false <->
  forall p, p ∈ ps ->
    side_total DEBIT (assetRevisionId p) ps <> 0 /\
    side_total DEBIT (assetRevisionId p) ps = side_total CREDIT (assetRevisionId p) ps.
Proof.
  rewrite <- not_true_iff_false, existsb_exists. split.
  - intros H p Hp. assert (assetRevisionId p ∈ (foldl record_posting [] ps).*1) as Hk.
    { apply balances_keys. by apply list_elem_of_fmap_2. }
    apply list_elem_of_fmap in Hk as ([a b] & Ha & Hin). simpl in Ha. subst a.
    pose proof (balances_lookup _ _ _ Hin) as ->.
    destruct (Z.eq_dec (side_total DEBIT (assetRevisionId p) ps) 0) as [E|E];
      [|destruct (Z.eq_dec (side_total DEBIT (assetRevisionId p) ps)
                    (side_total CREDIT (assetRevisionId p) ps)) as [E'|E']; [done|]];
      destruct H; eexists; (split; [by apply list_elem_of_In|]); simpl.
    + by rewrite (proj2 (Z.eqb_eq _ _) E).
    + rewrite (proj2 (Z.eqb_neq _ _) E'). apply orb_true_r.
  - intros H ([a b] & Hin & Hb). apply list_elem_of_In in Hin.
    pose proof (balances_lookup _ _ _ Hin) as ->. simpl in Hb.
    assert (a ∈ assetRevisionId <$> ps) as Hk.
    { apply balances_keys. by apply (list_elem_of_fmap_2 fst) in Hin. }
    apply list_elem_of_fmap in Hk as (p & -> & Hp). destruct (H p Hp) as [H1 H2].
    rewrite (proj2 (Z.eqb_neq _ _) H1), (proj2 (Z.eqb_eq _ _) H2) in Hb. discriminate.
Qed.

Lemma side_total_nonneg s a ps : Forall posting_wf ps -> 0 <= side_total s a ps.
Proof.
  unfold side_total. induction 1 as [|p ps Hp _ IH]; [done|]. rewrite filter_cons.
  case_decide; [|done]. apply posting_amount_pos in Hp. cbn. cbn in IH. lia.
Qed.

Lemma accounts_distinct (ps : list LedgerPosting) :
  (set_size (accountId <$> ps) <? 2)%nat = false <->
  exists p q, p ∈ ps /\ q ∈ ps /\ accountId p <> accountId q.
Proof.
  rewrite Nat.ltb_ge. split.
  - intros H. destruct ps as [|p ps]; [simpl in H; unfold set_size in H; simpl in H; lia|].
    destruct (decide (Exists (fun q => accountId q <> accountId p) ps)) as [E|E].
    + apply Exists_exists in E as (q & Hq & Hne). exists p, q.
      split; [left|]. split; [by right | congruence].
    + exfalso. apply not_Exists_Forall in E; [|intros ?; apply _].
      assert (set_size (accountId <$> p :: ps) = 1%nat) as H1; [|lia].
      unfold set_size. assert (forall x, x ∈ accountId <$> p :: ps -> x = accountId p) as Hall.
      { intros x (q & -> & Hq)%list_elem_of_fmap. apply elem_of_cons in Hq as [->|Hq]; [done|].
        rewrite Forall_forall in E. specialize (E q Hq). by destruct (decide (accountId q = accountId p)). }
      pose proof (NoDup_remove_dups (accountId <$> p :: ps)) as Hnd.
      destruct (remove_dups (accountId <$> p :: ps)) as [|x [|y l]] eqn:R; [|done|].
      * assert (accountId p ∈ remove_dups (accountId <$> p :: ps)) as Hin.
        { apply elem_of_remove_dups. left. } rewrite R in Hin. by apply not_elem_of_nil in Hin.
      * assert (x = y); [|subst; apply NoDup_cons in Hnd as [Hx _]; destruct Hx; left].
        rewrite (Hall x), (Hall y); [done| |]; apply elem_of_remove_dups; rewrite R;
          [right; left | left].
  - intros (p & q & Hp & Hq & Hne). eapply set_size_ge2; [| |exact Hne];
      by apply list_elem_of_fmap_2.
Qed.

(** Decoded postings pass the balance check exactly when they balance. *)
Lemma balance_check ps :
  Forall posting_wf ps ->
  ((set_size (accountId <$> ps) <? 2)%nat
   || existsb (fun kb => (debit kb.2 =? 0) || negb (debit kb.2 =? credit kb.2))
        (foldl record_posting [] ps)) = false <-> balanced ps.
Proof.
  intros Hwf. rewrite orb_false_iff, accounts_distinct, unbalanced_assets. unfold balanced.
  split; intros [H1 H2]; (split; [done|]); intros p Hp; destruct (H2 p Hp) as [H3 H4];
    (split; [|done]); pose proof (side_total_nonneg DEBIT (assetRevisionId p) ps Hwf); lia.
Qed.

Lemma postings_wf vs ps : mapr parsePosting vs = Ok ps -> Forall posting_wf ps.
Proof.
  intros H%mapr_ok. induction H as [|v p vs ps Hp _ IH]; constructor; auto.
  by apply (parsePosting_wf v).
Qed.

Lemma parseAndBalancePostings_wf v ps :
  parseAndBalancePostings v = Ok ps ->
  (2 <= length ps <= 64)%nat /\ Forall posting_wf ps /\ balanced ps.
Proof.
  unfold parseAndBalancePostings, ownDataArray. intros H. inv_ok. subst.
  pose proof (postings_wf _ _ Hr0) as Hwf. apply data_array_bounds in Hr; [|done].
  apply mapr_length in Hr0. split; [unfold MAX_LEDGER_POSTINGS in Hr; lia|].
  split; [done|]. by apply balance_check.
Qed.

Lemma parseAndBalancePostings_js ps :
  (2 <= length ps <= 64)%nat -> Forall posting_wf ps -> balanced ps ->
  parseAndBalancePostings (js_array (posting_js <$> ps)) = Ok ps.
Proof.
  intros Hl Hwf Hb. unfold parseAndBalancePostings, ownDataArray.
  rewrite data_array_literal by (unfold MAX_LEDGER_POSTINGS, MAX_SAFE_INTEGER; rewrite ?length_fmap; lia).
  cbn [or_throw rbind]. rewrite mapr_decode.
  2:{ intros p Hp. apply parsePosting_js. rewrite Forall_forall in Hwf. auto. }
  cbn [rbind]. by rewrite (proj2 (balance_check ps Hwf) Hb).
Qed.

(** ** Lemmas: journals *)

Lemma enum_ok {A E} `{JsEnum A} (v : jsval) (e : E) a :
  or_throw (enum_member enum_values v) e = Ok a <-> v = VStr (enum_str a).
Proof.
  rewrite or_throw_ok, enum_member_spec. split; [tauto|]. intros ->.
  split; [apply enum_values_all | done].
Qed.

Lemma parseLedgerTimestamp_iso v s : parseLedgerTimestamp v = Ok s -> iso_timestamp s.
Proof. intros (t & _ & Ht & Hs)%parseLedgerTimestamp_ok. by exists t. Qed.

Lemma normalizePost_wf v j : normalizePostLedgerJournalInput v = Ok j -> journal_wf j.
Proof.
  unfold normalizePostLedgerJournalInput, ownDataRecord, parseLedgerBookId,
    parseLedgerTransactionId, parseLedgerLegId. intros H. inv_ok. subst j.
  apply negb_false_iff in Hg0. apply parseUuid_ok in Hr4 as [_ ?], Hr5 as [_ ?], Hr6 as [_ ?].
  apply parseLedgerTimestamp_iso in Hr0, Hr1.
  apply parseAndBalancePostings_wf in Hr7 as (? & ? & ?). unfold journal_wf. cbn. tauto.
Qed.

Lemma normalizePost_js t1 t2 j :
  journal_wf j -> parseLedgerTimestamp (js_date t1) = Ok (effectiveAt j) ->
  parseLedgerTimestamp (js_date t2) = Ok (observedAt j) ->
  normalizePostLedgerJournalInput (post_input_js t1 t2 j) = Ok j.
Proof.
  intros (Hb & Ht & Hl & _ & _ & Ho & Hv & Hn & Hwf & Hbal) H1 H2.
  unfold normalizePostLedgerJournalInput, ownDataRecord, post_input_js, parseLedgerBookId,
    parseLedgerTransactionId, parseLedgerLegId, parseEconomicEventType, parsePostLedgerReason.
  read_record. rewrite H1. cbn [rbind]. rewrite H2. cbn [rbind]. rewrite Ho.
  rewrite !enum_member_str. cbn [or_throw rbind]. rewrite Hv. cbn [negb].
  rewrite (proj2 (parseUuid_ok (VStr (bookId j)) _)) by done. cbn [rbind].
  rewrite (proj2 (parseUuid_ok (VStr (transactionId j)) _)) by done. cbn [rbind].
  rewrite (proj2 (parseUuid_ok (VStr (legId j)) _)) by done. cbn [rbind].
  rewrite parseAndBalancePostings_js by done. by destruct j.
Qed.

Lemma post_command_js_ok c j :
  journal_wf j -> UUID_V4_PATTERN c = true ->
  normalizePostLedgerJournalCommand (post_command_js c j)
  = Ok {| correlationId := c; post_journal := j |}.
Proof.
  intros Hj Hc. pose proof Hj as (_ & _ & _ & H1 & H2 & _).
  apply timestampInput_iso in H1 as (t1 & Hi1 & Hp1), H2 as (t2 & Hi2 & Hp2).
  unfold normalizePostLedgerJournalCommand, ownDataRecord, post_command_js.
  read_record. rewrite Hi1. cbn [rbind]. rewrite Hi2. cbn [rbind].
  fold (post_input_js t1 t2 j). rewrite normalizePost_js by done. cbn [rbind].
  unfold parseLedgerCorrelationId. by rewrite (proj2 (parseUuid_ok (VStr c) c)).
Qed.

Lemma normalizeReverse_wf v r : normalizeReverseLedgerJournalInput v = Ok r -> reversal_wf r.
Proof.
  unfold normalizeReverseLedgerJournalInput, ownDataRecord, parseLedgerJournalId.
  intros H. inv_ok. subst r. apply parseUuid_ok in Hr2 as [_ ?].
  apply parseLedgerTimestamp_iso in Hr0, Hr1. unfold reversal_wf. cbn. tauto.
Qed.

Lemma normalizeReverse_js t1 t2 r :
  reversal_wf r -> parseLedgerTimestamp (js_date t1) = Ok (rev_effectiveAt r) ->
  parseLedgerTimestamp (js_date t2) = Ok (rev_observedAt r) ->
  normalizeReverseLedgerJournalInput (js_object
    [("originalJournalId", VStr (originalJournalId r)); ("reason", VStr (enum_str (rev_reason r)));
     ("effectiveAt", js_date t1); ("observedAt", js_date t2)]) = Ok r.
Proof.
  intros (Ho & _ & _ & Hlt) H1 H2.
  unfold normalizeReverseLedgerJournalInput, ownDataRecord, parseLedgerJournalId, parseReversalLedgerReason.
  read_record. rewrite H1. cbn [rbind]. rewrite H2. cbn [rbind]. rewrite Hlt.
  rewrite (proj2 (parseUuid_ok (VStr (originalJournalId r)) _)) by done. cbn [rbind].
  rewrite enum_member_str. by destruct r.
Qed.

Lemma reverse_command_js_ok c r :
  reversal_wf r -> UUID_V4_PATTERN c = true ->
  normalizeReverseLedgerJournalCommand (reverse_command_js c r)
  = Ok {| rev_correlationId := c; rev_journal := r |}.
Proof.
  intros Hj Hc. pose proof Hj as (_ & H1 & H2 & _).
  apply timestampInput_iso in H1 as (t1 & Hi1 & Hp1), H2 as (t2 & Hi2 & Hp2).
  unfold normalizeReverseLedgerJournalCommand, ownDataRecord, reverse_command_js.
  read_record. rewrite Hi1. cbn [rbind]. rewrite Hi2. cbn [rbind].
  rewrite normalizeReverse_js by done. cbn [rbind].
  unfold parseLedgerCorrelationId. by rewrite (proj2 (parseUuid_ok (VStr c) c)).
Qed.

(** ** Properties *)

(** C32: the journals the post normaliser can return are exactly the
    well-formed ones: version-4 UUID identifiers, two printed ISO timestamps of
    which the observation is not the lesser text, a reason allowed for the event
    type, and 2 to 64 postings with canonical 256-bit amounts that balance per
    asset over at least two accounts.  Among the years 0 to 9999 the order of
    the texts is the order of the instants, so that nothing is observed before
    it takes effect; outside them it need not be
    ([journal_extended_year_accepted]). *)
Theorem post_journal_range j :
  ((exists v, normalizePostLedgerJournalInput v = Ok j) <-> journal_wf j) /\
  (forall t1 t2, four_digit_time t1 -> four_digit_time t2 ->
     effectiveAt j = toISOString t1 -> observedAt j = toISOString t2 ->
     (str_lt (observedAt j) (effectiveAt j) = false <-> t1 <= t2)).
Proof.
  split; [split; [intros (v & H); by apply (normalizePost_wf v)|]|].
  - intros Hj. pose proof Hj as (_ & _ & _ & H1 & H2 & _).
    apply timestampInput_iso in H1 as (t1 & _ & Hp1), H2 as (t2 & _ & Hp2).
    exists (post_input_js t1 t2 j). by apply normalizePost_js.
  - intros t1 t2 H1 H2 -> ->. rewrite toISOString_lt by done. by rewrite Z.ltb_ge.
Qed.

Lemma post_journal_range_witness :
  journal_wf journal_example /\ 1788220800000 <= 1788220801000.
Proof.
  destruct (post_journal_range journal_example) as [Hr Ht].
  assert (journal_wf journal_example) as H.
  { apply Hr. exists (post_input_js 1788220800000 1788220801000 journal_example). vm_compute. reflexivity. }
  split; [exact H|].
  apply Ht; [split; vm_compute; discriminate .. | vm_compute; reflexivity | vm_compute; reflexivity|].
  vm_compute. reflexivity.
Defined.

(** C1: the balance check is double entry: decoded postings are accepted
    unchanged exactly when at least two accounts take part and the debits of
    every asset that occurs equal its credits and are positive; otherwise the
    error is [UNBALANCED_LEDGER_JOURNAL]. *)
Theorem postings_accepted_iff_balanced v vs ps :
  ownDataArray v = Ok vs -> mapr parsePosting vs = Ok ps ->
  (balanced ps -> parseAndBalancePostings v = Ok ps) /\
  (~ balanced ps -> parseAndBalancePostings v = Err UNBALANCED_LEDGER_JOURNAL).
Proof.
  intros Ha Hp. pose proof (balance_check ps (postings_wf _ _ Hp)) as Hb.
  unfold parseAndBalancePostings. rewrite Ha. cbn [rbind]. rewrite Hp. cbn [rbind].
  destruct (_ || _); [|by rewrite <- Hb].
  split; [|done]. intros Hbal. by apply Hb in Hbal.
Qed.

Lemma postings_accepted_iff_balanced_witness :
  ~ balanced [posting_example "4" DEBIT 70; posting_example "5" CREDIT 69] /\
  parseAndBalancePostings
    (js_array (posting_js <$> [posting_example "4" DEBIT 70; posting_example "5" CREDIT 69]))
  = Err UNBALANCED_LEDGER_JOURNAL.
Proof.
  assert (~ balanced [posting_example "4" DEBIT 70; posting_example "5" CREDIT 69]) as H.
  { intros [_ Hb]. destruct (Hb (posting_example "4" DEBIT 70)) as [_ E]; [left|].
    vm_compute in E. discriminate. }
  split; [exact H|].
  apply (postings_accepted_iff_balanced _
    (posting_js <$> [posting_example "4" DEBIT 70; posting_example "5" CREDIT 69]) 
    [posting_example "4" DEBIT 70; posting_example "5" CREDIT 69]);
    [vm_compute; reflexivity | vm_compute; reflexivity | exact H].
Defined.

(** An amount is accepted exactly when it is the canonical decimal numeral
    of a number between 1 and 2^256 - 1: the length test and the string
    comparison implement the numeric bound. *)
Theorem atomic_amount_is_uint256 v s :
  parseAtomicAmount v = Ok s <->
  v = VStr s /\ exists n, 1 <= n <= MAX_UINT256 /\ s = toString n.
Proof. apply parseAtomicAmount_number. Qed.

(** A command built from a normalised journal and a correlation id is
    accepted by the command normaliser and carries the same journal: nothing
    is lost or rejected between the input and the persistence boundary. *)
Theorem post_command_roundtrip v c j :
  normalizePostLedgerJournalInput v = Ok j -> UUID_V4_PATTERN c = true ->
  normalizePostLedgerJournalCommand (post_command_js c j)
  = Ok {| correlationId := c; post_journal := j |}.
Proof. intros Hj Hc. apply post_command_js_ok; [by apply (normalizePost_wf v) | done]. Qed.

Lemma post_command_roundtrip_witness :
  normalizePostLedgerJournalCommand (post_command_js (uuid_example "7") journal_example)
  = Ok {| correlationId := uuid_example "7"; post_journal := journal_example |}.
Proof.
  apply (post_command_roundtrip (post_input_js 1788220800000 1788220801000 journal_example));
    vm_compute; reflexivity.
Defined.

(** Chronology: when both instants of an accepted journal have four-digit
    years, the observation is not earlier than the effect; the code compares
    the printed strings. *)
Theorem journal_observed_after_effective v j t1 t2 :
  normalizePostLedgerJournalInput v = Ok j ->
  effectiveAt j = toISOString t1 -> observedAt j = toISOString t2 ->
  four_digit_time t1 -> four_digit_time t2 -> t1 <= t2.
Proof.
  intros (_ & _ & _ & _ & _ & Hlt & _)%normalizePost_wf E1 E2 H1 H2.
  rewrite E1, E2, toISOString_lt in Hlt by done. by apply Z.ltb_ge.
Qed.

Lemma journal_observed_after_effective_witness : 1788220800000 <= 1788220801000.
Proof.
  apply (journal_observed_after_effective
           (post_input_js 1788220800000 1788220801000 journal_example) journal_example);
    [vm_compute; reflexivity | vm_compute; reflexivity | vm_compute; reflexivity
    | split; vm_compute; discriminate | split; vm_compute; discriminate].
Defined.

(** Outside four-digit years the comparison of printed timestamps is not
    the order of the instants: a journal observed in 2026 that takes effect in
    the year 10000 is accepted. *)
Theorem journal_extended_year_accepted :
  exists v j t1 t2,
    normalizePostLedgerJournalInput v = Ok j /\
    effectiveAt j = toISOString t1 /\ observedAt j = toISOString t2 /\ t2 < t1.
Proof.
  exists (post_input_js 253402300800000 1788220801000 journal_example). eexists.
  exists 253402300800000, 1788220801000. split; [vm_compute; reflexivity|].
  by repeat split.
Qed.
