(* ===== verification/LedgerLifecycle.v ===== *)
(** * Transaction lifecycle (apps/api/src/ledger/domain/transaction-lifecycle.ts)

    The lifecycle and recovery state machines: their rule tables, the
    normalisers of transition inputs and commands, and the histories the rules
    allow. *)

From stdpp Require Import base list strings sets.
From Stdlib Require Import ZArith Lia Ascii.
From S2P Require Import Prelude Text JsValue JsDate Ledger.

Open Scope Z_scope.

(** ** Data *)

Inductive LedgerLifecycleState : Type :=
| CREATED | QUOTED | USER_APPROVED | SUBMITTED | PENDING | SETTLED | FAILED | REVERSED.

Inductive LedgerRecoveryState : Type := NOT_REQUIRED | REQUIRED | IN_PROGRESS | RESOLVED.

Inductive LedgerLifecycleReasonCode : Type :=
| INTENT_CREATED | QUOTE_CREATED | USER_APPROVAL_RECORDED | SUBMISSION_RECORDED
| OUTCOME_PENDING | SETTLEMENT_RECORDED | PREFLIGHT_FAILED | USER_REJECTED | QUOTE_EXPIRED
| PROVIDER_REJECTED | TERMINAL_FAILURE_CONFIRMED | FULL_REVERSAL_RECORDED.

Inductive LedgerRecoveryReasonCode : Type :=
| RECOVERY_REQUIRED | RECOVERY_STARTED | RECOVERY_RESOLVED.

#[export] Program Instance LEDGER_LIFECYCLE_STATES : JsEnum LedgerLifecycleState := {
  enum_values := [CREATED; QUOTED; USER_APPROVED; SUBMITTED; PENDING; SETTLED; FAILED; REVERSED];
  enum_str := fun s => match s with
    | CREATED => "CREATED" | QUOTED => "QUOTED" | USER_APPROVED => "USER_APPROVED"
    | SUBMITTED => "SUBMITTED" | PENDING => "PENDING" | SETTLED => "SETTLED"
    | FAILED => "FAILED" | REVERSED => "REVERSED" end;
}.
Next Obligation. solve_enum_all. Qed.
Next Obligation. solve_enum_inj. Qed.

#[export] Program Instance LEDGER_RECOVERY_STATES : JsEnum LedgerRecoveryState := {
  enum_values := [NOT_REQUIRED; REQUIRED; IN_PROGRESS; RESOLVED];
  enum_str := fun s => match s with
    | NOT_REQUIRED => "NOT_REQUIRED" | REQUIRED => "REQUIRED"
    | IN_PROGRESS => "IN_PROGRESS" | RESOLVED => "RESOLVED" end;
}.
Next Obligation. solve_enum_all. Qed.
Next Obligation. solve_enum_inj. Qed.

#[export] Program Instance LEDGER_LIFECYCLE_REASON_CODES : JsEnum LedgerLifecycleReasonCode := {
  enum_values := [INTENT_CREATED; QUOTE_CREATED; USER_APPROVAL_RECORDED; SUBMISSION_RECORDED;
    OUTCOME_PENDING; SETTLEMENT_RECORDED; PREFLIGHT_FAILED; USER_REJECTED; QUOTE_EXPIRED;
    PROVIDER_REJECTED; TERMINAL_FAILURE_CONFIRMED; FULL_REVERSAL_RECORDED];
  enum_str := fun r => match r with
    | INTENT_CREATED => "INTENT_CREATED" | QUOTE_CREATED => "QUOTE_CREATED"
    | USER_APPROVAL_RECORDED => "USER_APPROVAL_RECORDED"
    | SUBMISSION_RECORDED => "SUBMISSION_RECORDED" | OUTCOME_PENDING => "OUTCOME_PENDING"
    | SETTLEMENT_RECORDED => "SETTLEMENT_RECORDED" | PREFLIGHT_FAILED => "PREFLIGHT_FAILED"
    | USER_REJECTED => "USER_REJECTED" | QUOTE_EXPIRED => "QUOTE_EXPIRED"
    | PROVIDER_REJECTED => "PROVIDER_REJECTED"
    | TERMINAL_FAILURE_CONFIRMED => "TERMINAL_FAILURE_CONFIRMED"
    | FULL_REVERSAL_RECORDED => "FULL_REVERSAL_RECORDED" end;
}.
Next Obligation. solve_enum_all. Qed.
Next Obligation. solve_enum_inj. Qed.

#[export] Program Instance LEDGER_RECOVERY_REASON_CODES : JsEnum LedgerRecoveryReasonCode := {
  enum_values := [RECOVERY_REQUIRED; RECOVERY_STARTED; RECOVERY_RESOLVED];
  enum_str := fun r => match r with
    | RECOVERY_REQUIRED => "RECOVERY_REQUIRED" | RECOVERY_STARTED => "RECOVERY_STARTED"
    | RECOVERY_RESOLVED => "RECOVERY_RESOLVED" end;
}.
Next Obligation. solve_enum_all. Qed.
Next Obligation. solve_enum_inj. Qed.

Inductive LedgerLifecycleValidationCode : Type :=
| INVALID_LIFECYCLE_INPUT | INVALID_LIFECYCLE_STATE | INVALID_LIFECYCLE_REASON
| INVALID_LIFECYCLE_TIMESTAMP | ILLEGAL_LIFECYCLE_TRANSITION.

(** What these functions throw: their own error, or the identifier parsers'
    [LedgerValidationError]. *)
Inductive LifecycleException : Type :=
| LedgerLifecycleValidationError (code : LedgerLifecycleValidationCode)
| LifecycleLedgerError (code : LedgerValidationCode).

Notation lifecycle_result := (result LifecycleException).

Record LifecycleRule : Type := {
  rule_from : option LedgerLifecycleState;
  rule_to : LedgerLifecycleState;
  rule_reasons : list LedgerLifecycleReasonCode;
}.

Record RecoveryRule : Type := {
  recovery_from : LedgerRecoveryState;
  recovery_to : LedgerRecoveryState;
  recovery_reasons : list LedgerRecoveryReasonCode;
}.

Definition LIFECYCLE_RULES : list LifecycleRule :=
  [ Build_LifecycleRule None CREATED [INTENT_CREATED];
    Build_LifecycleRule (Some CREATED) QUOTED [QUOTE_CREATED];
    Build_LifecycleRule (Some CREATED) FAILED [PREFLIGHT_FAILED];
    Build_LifecycleRule (Some QUOTED) USER_APPROVED [USER_APPROVAL_RECORDED];
    Build_LifecycleRule (Some QUOTED) FAILED [PREFLIGHT_FAILED; USER_REJECTED; QUOTE_EXPIRED];
    Build_LifecycleRule (Some USER_APPROVED) SUBMITTED [SUBMISSION_RECORDED];
    Build_LifecycleRule (Some USER_APPROVED) FAILED [PREFLIGHT_FAILED; USER_REJECTED];
    Build_LifecycleRule (Some SUBMITTED) PENDING [OUTCOME_PENDING];
    Build_LifecycleRule (Some SUBMITTED) SETTLED [SETTLEMENT_RECORDED];
    Build_LifecycleRule (Some SUBMITTED) FAILED [PROVIDER_REJECTED];
    Build_LifecycleRule (Some PENDING) SETTLED [SETTLEMENT_RECORDED];
    Build_LifecycleRule (Some PENDING) FAILED [TERMINAL_FAILURE_CONFIRMED];
    Build_LifecycleRule (Some SETTLED) REVERSED [FULL_REVERSAL_RECORDED] ].

Definition RECOVERY_RULES : list RecoveryRule :=
  [ Build_RecoveryRule NOT_REQUIRED REQUIRED [RECOVERY_REQUIRED];
    Build_RecoveryRule REQUIRED IN_PROGRESS [RECOVERY_STARTED];
    Build_RecoveryRule REQUIRED RESOLVED [RECOVERY_RESOLVED];
    Build_RecoveryRule IN_PROGRESS RESOLVED [RECOVERY_RESOLVED] ].

Record ValidatedLedgerLifecycleTransition : Type := {
  lt_transactionId : string;
  lt_legId : option string;
  lt_expectedState : option LedgerLifecycleState;
  lt_nextState : LedgerLifecycleState;
  lt_reason : LedgerLifecycleReasonCode;
  lt_effectiveAt : string;
}.

Record LedgerLifecycleTransitionCommand : Type := {
  ltc_actorAccountId : string;
  ltc_correlationId : string;
  ltc_transition : ValidatedLedgerLifecycleTransition;
}.

Record ValidatedLedgerRecoveryTransition : Type := {
  rt_transactionId : string;
  rt_legId : option string;
  rt_expectedRecoveryState : LedgerRecoveryState;
  rt_nextRecoveryState : LedgerRecoveryState;
  rt_reason : LedgerRecoveryReasonCode;
  rt_effectiveAt : string;
}.

Record LedgerRecoveryTransitionCommand : Type := {
  rtc_actorAccountId : string;
  rtc_correlationId : string;
  rtc_transition : ValidatedLedgerRecoveryTransition;
}.

(** ** Parsers *)

Definition ownDataRecord (value : jsval) (expectedKeys : list string) : lifecycle_result jsrec :=
  or_throw (exact_data_record expectedKeys value)
    (LedgerLifecycleValidationError INVALID_LIFECYCLE_INPUT).

Definition parseLifecycleState (value : jsval) : lifecycle_result LedgerLifecycleState :=
  or_throw (enum_member enum_values value) (LedgerLifecycleValidationError INVALID_LIFECYCLE_STATE).

Definition parseNullableLifecycleState (value : jsval)
    : lifecycle_result (option LedgerLifecycleState) :=
  if is_null value then Ok None else rmap Some (parseLifecycleState value).

Definition parseRecoveryState (value : jsval) : lifecycle_result LedgerRecoveryState :=
  or_throw (enum_member enum_values value) (LedgerLifecycleValidationError INVALID_LIFECYCLE_STATE).

Definition parseLifecycleReason (value : jsval) : lifecycle_result LedgerLifecycleReasonCode :=
  or_throw (enum_member enum_values value) (LedgerLifecycleValidationError INVALID_LIFECYCLE_REASON).

Definition parseRecoveryReason (value : jsval) : lifecycle_result LedgerRecoveryReasonCode :=
  or_throw (enum_member enum_values value) (LedgerLifecycleValidationError INVALID_LIFECYCLE_REASON).

Definition parseLifecycleTimestamp (value : jsval) : lifecycle_result string :=
  match date_time value with
  | None => Err (LedgerLifecycleValidationError INVALID_LIFECYCLE_TIMESTAMP)
  | Some milliseconds =>
      if valid_time milliseconds then Ok (toISOString milliseconds)
      else Err (LedgerLifecycleValidationError INVALID_LIFECYCLE_TIMESTAMP)
  end.

Definition timestampInput (value : jsval) : lifecycle_result jsval :=
  match value with
  | VStr s =>
      match canonical_time s with
      | Some t => Ok (js_date t)
      | None => Err (LedgerLifecycleValidationError INVALID_LIFECYCLE_TIMESTAMP)
      end
  | _ => Err (LedgerLifecycleValidationError INVALID_LIFECYCLE_TIMESTAMP)
  end.

Definition parseLegId (value : jsval) : lifecycle_result (option string) :=
  if is_null value then Ok None
  else rmap Some (rlift LifecycleLedgerError (parseLedgerLegId value)).

(** ** Rules *)

Definition isAllowedLedgerLifecycleTransition (from : option LedgerLifecycleState)
    (to : LedgerLifecycleState) (reason : LedgerLifecycleReasonCode) : bool :=
  existsb (fun rule => bool_decide (rule_from rule = from) && bool_decide (rule_to rule = to)
                       && bool_decide (reason ∈ rule_reasons rule)) LIFECYCLE_RULES.

Definition isAllowedLedgerRecoveryTransition (from to : LedgerRecoveryState)
    (reason : LedgerRecoveryReasonCode) : bool :=
  existsb (fun rule => bool_decide (recovery_from rule = from)
                       && bool_decide (recovery_to rule = to)
                       && bool_decide (reason ∈ recovery_reasons rule)) RECOVERY_RULES.

(** ** Normalisers *)

Definition normalizeLedgerLifecycleTransitionInput (value : jsval)
    : lifecycle_result ValidatedLedgerLifecycleTransition :=
  let* record := ownDataRecord value
    ["transactionId"; "legId"; "expectedState"; "nextState"; "reason"; "effectiveAt"] in
  let* expectedState := parseNullableLifecycleState (record .: "expectedState") in
  let* nextState := parseLifecycleState (record .: "nextState") in
  let* reason := parseLifecycleReason (record .: "reason") in
  reject (LedgerLifecycleValidationError ILLEGAL_LIFECYCLE_TRANSITION)
    when negb (isAllowedLedgerLifecycleTransition expectedState nextState reason) in
  let* transactionId := rlift LifecycleLedgerError
                          (parseLedgerTransactionId (record .: "transactionId")) in
  let* legId := parseLegId (record .: "legId") in
  let* effectiveAt := parseLifecycleTimestamp (record .: "effectiveAt") in
  Ok {| lt_transactionId := transactionId; lt_legId := legId; lt_expectedState := expectedState;
        lt_nextState := nextState; lt_reason := reason; lt_effectiveAt := effectiveAt |}.

Definition normalizeLedgerLifecycleTransitionCommand (value : jsval)
    : lifecycle_result LedgerLifecycleTransitionCommand :=
  let* record := ownDataRecord value
    ["actorAccountId"; "correlationId"; "transactionId"; "legId"; "expectedState"; "nextState";
     "reason"; "effectiveAt"] in
  let* effectiveAt := timestampInput (record .: "effectiveAt") in
  let* transition := normalizeLedgerLifecycleTransitionInput (js_object
    [("transactionId", record .: "transactionId"); ("legId", record .: "legId");
     ("expectedState", record .: "expectedState"); ("nextState", record .: "nextState");
     ("reason", record .: "reason"); ("effectiveAt", effectiveAt)]) in
  let* actorAccountId := rlift LifecycleLedgerError
                           (parseLedgerActorAccountId (record .: "actorAccountId")) in
  let* correlationId := rlift LifecycleLedgerError
                          (parseLedgerCorrelationId (record .: "correlationId")) in
  Ok {| ltc_actorAccountId := actorAccountId; ltc_correlationId := correlationId;
        ltc_transition := transition |}.

Definition normalizeLedgerRecoveryTransitionInput (value : jsval)
    : lifecycle_result ValidatedLedgerRecoveryTransition :=
  let* record := ownDataRecord value
    ["transactionId"; "legId"; "expectedRecoveryState"; "nextRecoveryState"; "reason";
     "effectiveAt"] in
  let* expectedRecoveryState := parseRecoveryState (record .: "expectedRecoveryState") in
  let* nextRecoveryState := parseRecoveryState (record .: "nextRecoveryState") in
  let* reason := parseRecoveryReason (record .: "reason") in
  reject (LedgerLifecycleValidationError ILLEGAL_LIFECYCLE_TRANSITION)
    when negb (isAllowedLedgerRecoveryTransition expectedRecoveryState nextRecoveryState reason) in
  let* transactionId := rlift LifecycleLedgerError
                          (parseLedgerTransactionId (record .: "transactionId")) in
  let* legId := parseLegId (record .: "legId") in
  let* effectiveAt := parseLifecycleTimestamp (record .: "effectiveAt") in
  Ok {| rt_transactionId := transactionId; rt_legId := legId;
        rt_expectedRecoveryState := expectedRecoveryState;
        rt_nextRecoveryState := nextRecoveryState; rt_reason := reason;
        rt_effectiveAt := effectiveAt |}.

Definition normalizeLedgerRecoveryTransitionCommand (value : jsval)
    : lifecycle_result LedgerRecoveryTransitionCommand :=
  let* record := ownDataRecord value
    ["actorAccountId"; "correlationId"; "transactionId"; "legId"; "expectedRecoveryState";
     "nextRecoveryState"; "reason"; "effectiveAt"] in
  let* effectiveAt := timestampInput (record .: "effectiveAt") in
  let* transition := normalizeLedgerRecoveryTransitionInput (js_object
    [("transactionId", record .: "transactionId"); ("legId", record .: "legId");
     ("expectedRecoveryState", record .: "expectedRecoveryState");
     ("nextRecoveryState", record .: "nextRecoveryState");
     ("reason", record .: "reason"); ("effectiveAt", effectiveAt)]) in
  let* actorAccountId := rlift LifecycleLedgerError
                           (parseLedgerActorAccountId (record .: "actorAccountId")) in
  let* correlationId := rlift LifecycleLedgerError
                          (parseLedgerCorrelationId (record .: "correlationId")) in
  Ok {| rtc_actorAccountId := actorAccountId; rtc_correlationId := correlationId;
        rtc_transition := transition |}.

(** ** Specification *)

(** Sequences of accepted transitions, each expecting the state the previous
    one reached; [None] is the state of a transaction that does not exist. *)
Inductive history : option LedgerLifecycleState -> list ValidatedLedgerLifecycleTransition ->
    option LedgerLifecycleState -> Prop :=
| history_nil s : history s [] s
| history_cons v t ts s' :
    normalizeLedgerLifecycleTransitionInput v = Ok t ->
    history (Some (lt_nextState t)) ts s' ->
    history (lt_expectedState t) (t :: ts) s'.

Inductive recovery_history : LedgerRecoveryState -> list ValidatedLedgerRecoveryTransition ->
    LedgerRecoveryState -> Prop :=
| recovery_history_nil s : recovery_history s [] s
| recovery_history_cons v t ts s' :
    normalizeLedgerRecoveryTransitionInput v = Ok t ->
    recovery_history (rt_nextRecoveryState t) ts s' ->
    recovery_history (rt_expectedRecoveryState t) (t :: ts) s'.

(** Progress through the lifecycle: every rule goes up. *)
Definition lifecycle_rank (s : option LedgerLifecycleState) : nat :=
  match s with
  | None => 0
  | Some CREATED => 1
  | Some QUOTED => 2
  | Some USER_APPROVED => 3
  | Some SUBMITTED => 4
  | Some PENDING => 5
  | Some SETTLED => 6
  | Some FAILED | Some REVERSED => 7
  end.

Definition recovery_rank (s : LedgerRecoveryState) : nat :=
  match s with NOT_REQUIRED => 0 | REQUIRED => 1 | IN_PROGRESS => 2 | RESOLVED => 3 end.

Definition optional_uuid (s : option string) : Prop :=
  match s with
  | None => True
  | Some s => UUID_V4_PATTERN s = true
  end.

Definition transition_wf (t : ValidatedLedgerLifecycleTransition) : Prop :=
  UUID_V4_PATTERN (lt_transactionId t) = true /\ optional_uuid (lt_legId t) /\
  iso_timestamp (lt_effectiveAt t) /\
  isAllowedLedgerLifecycleTransition (lt_expectedState t) (lt_nextState t) (lt_reason t) = true.

Definition recovery_wf (t : ValidatedLedgerRecoveryTransition) : Prop :=
  UUID_V4_PATTERN (rt_transactionId t) = true /\ optional_uuid (rt_legId t) /\
  iso_timestamp (rt_effectiveAt t) /\
  isAllowedLedgerRecoveryTransition (rt_expectedRecoveryState t) (rt_nextRecoveryState t)
    (rt_reason t) = true.

Definition state_js (s : option LedgerLifecycleState) : jsval :=
  js_nullable (enum_str <$> s).

Definition transition_input_js (ms : Z) (t : ValidatedLedgerLifecycleTransition) : jsval := js_object
  [("transactionId", VStr (lt_transactionId t)); ("legId", js_nullable (lt_legId t));
   ("expectedState", state_js (lt_expectedState t));
   ("nextState", VStr (enum_str (lt_nextState t))); ("reason", VStr (enum_str (lt_reason t)));
   ("effectiveAt", js_date ms)].

(** [{ actorAccountId, correlationId, ...transition }] *)
Definition transition_command_js (actor correlation : string)
    (t : ValidatedLedgerLifecycleTransition) : jsval := js_object
  [("actorAccountId", VStr actor); ("correlationId", VStr correlation);
   ("transactionId", VStr (lt_transactionId t)); ("legId", js_nullable (lt_legId t));
   ("expectedState", state_js (lt_expectedState t));
   ("nextState", VStr (enum_str (lt_nextState t))); ("reason", VStr (enum_str (lt_reason t)));
   ("effectiveAt", VStr (lt_effectiveAt t))].

Definition recovery_command_js (actor correlation : string)
    (t : ValidatedLedgerRecoveryTransition) : jsval := js_object
  [("actorAccountId", VStr actor); ("correlationId", VStr correlation);
   ("transactionId", VStr (rt_transactionId t)); ("legId", js_nullable (rt_legId t));
   ("expectedRecoveryState", VStr (enum_str (rt_expectedRecoveryState t)));
   ("nextRecoveryState", VStr (enum_str (rt_nextRecoveryState t)));
   ("reason", VStr (enum_str (rt_reason t))); ("effectiveAt", VStr (rt_effectiveAt t))].

(** The reasons recorded on the way to the states on the settlement path. *)
Definition settlement_path (s : LedgerLifecycleState) : list (list LedgerLifecycleReasonCode) :=
  let submitted := [INTENT_CREATED; QUOTE_CREATED; USER_APPROVAL_RECORDED; SUBMISSION_RECORDED] in
  match s with
  | CREATED => [[INTENT_CREATED]]
  | QUOTED => [[INTENT_CREATED; QUOTE_CREATED]]
  | USER_APPROVED => [[INTENT_CREATED; QUOTE_CREATED; USER_APPROVAL_RECORDED]]
  | SUBMITTED => [submitted]
  | PENDING => [submitted ++ [OUTCOME_PENDING]]
  | SETTLED => [submitted ++ [SETTLEMENT_RECORDED];
                submitted ++ [OUTCOME_PENDING; SETTLEMENT_RECORDED]]
  | REVERSED => [submitted ++ [SETTLEMENT_RECORDED; FULL_REVERSAL_RECORDED];
                 submitted ++ [OUTCOME_PENDING; SETTLEMENT_RECORDED; FULL_REVERSAL_RECORDED]]
  | FAILED => []
  end.

(** ** Example values *)

Definition transition_example (from : option LedgerLifecycleState) (to : LedgerLifecycleState)
    (why : LedgerLifecycleReasonCode) : ValidatedLedgerLifecycleTransition :=
  {| lt_transactionId := uuid_example "1"; lt_legId := None; lt_expectedState := from;
     lt_nextState := to; lt_reason := why; lt_effectiveAt := "2026-09-01T00:00:00.000Z" |}.

Definition recovered_example : ValidatedLedgerRecoveryTransition :=
  {| rt_transactionId := uuid_example "1"; rt_legId := None;
     rt_expectedRecoveryState := REQUIRED; rt_nextRecoveryState := RESOLVED;
     rt_reason := RECOVERY_RESOLVED; rt_effectiveAt := "2026-09-01T00:00:00.000Z" |}.

Definition settled_example : list ValidatedLedgerLifecycleTransition :=
  [transition_example None CREATED INTENT_CREATED;
   transition_example (Some CREATED) QUOTED QUOTE_CREATED;
   transition_example (Some QUOTED) USER_APPROVED USER_APPROVAL_RECORDED;
   transition_example (Some USER_APPROVED) SUBMITTED SUBMISSION_RECORDED;
   transition_example (Some SUBMITTED) SETTLED SETTLEMENT_RECORDED].

(** ** Lemmas *)

Lemma is_null_nullable s : is_null (js_nullable s) = bool_decide (s = None).
Proof. by destruct s. Qed.

Lemma parseNullableLifecycleState_js s : parseNullableLifecycleState (state_js s) = Ok s.
Proof.
  unfold parseNullableLifecycleState, state_js. destruct s as [s|]; [|done].
  cbn [fmap option_fmap option_map js_nullable is_null].
  unfold parseLifecycleState. by rewrite enum_member_str.
Qed.

Lemma parseLegId_js s : optional_uuid s -> parseLegId (js_nullable s) = Ok s.
Proof.
  unfold parseLegId. destruct s as [s|]; [|done]. intros H.
  cbn [js_nullable is_null]. unfold parseLedgerLegId.
  by rewrite (proj2 (parseUuid_ok (VStr s) s)).
Qed.

Lemma parseLegId_wf v s : parseLegId v = Ok s -> optional_uuid s.
Proof.
  unfold parseLegId. destruct (is_null v); [by intros [= <-]|].
  destruct (parseLedgerLegId v) as [l|] eqn:E; [|discriminate]. intros [= <-].
  by apply parseUuid_ok in E as [_ ?].
Qed.

Lemma parseLifecycleTimestamp_iso v s : parseLifecycleTimestamp v = Ok s -> iso_timestamp s.
Proof.
  unfold parseLifecycleTimestamp. destruct (date_time v) as [t|]; [|discriminate].
  destruct (valid_time t) eqn:E; [|discriminate]. intros [= <-]. by exists t.
Qed.

Lemma lifecycle_timestamp_input s : iso_timestamp s ->
  exists t, timestampInput (VStr s) = Ok (js_date t) /\ parseLifecycleTimestamp (js_date t) = Ok s.
Proof.
  intros (t & Ht & ->). exists t. unfold timestampInput.
  rewrite (proj2 (canonical_time_spec _ t)) by done. split; [done|].
  unfold parseLifecycleTimestamp, js_date, date_time. by rewrite Ht.
Qed.

Lemma lifecycle_uuid v s : rlift LifecycleLedgerError (parseUuid v) = Ok s ->
  v = VStr s /\ UUID_V4_PATTERN s = true.
Proof. rewrite rlift_ok. apply parseUuid_ok. Qed.

Lemma lifecycle_uuid_js s : UUID_V4_PATTERN s = true ->
  rlift LifecycleLedgerError (parseUuid (VStr s)) = Ok s.
Proof. intros. by apply rlift_ok, parseUuid_ok. Qed.

Lemma normalizeTransition_wf v t :
  normalizeLedgerLifecycleTransitionInput v = Ok t -> transition_wf t.
Proof.
  unfold normalizeLedgerLifecycleTransitionInput, ownDataRecord, parseLedgerTransactionId.
  intros H. inv_ok. subst t. apply negb_false_iff in Hg.
  apply parseUuid_ok in Hr3 as [_ ?]. apply parseLegId_wf in Hr4.
  apply parseLifecycleTimestamp_iso in Hr5. unfold transition_wf. cbn. tauto.
Qed.

Lemma normalizeTransition_js ms t :
  transition_wf t -> parseLifecycleTimestamp (js_date ms) = Ok (lt_effectiveAt t) ->
  normalizeLedgerLifecycleTransitionInput (transition_input_js ms t) = Ok t.
Proof.
  intros (Ht & Hl & _ & Ha) He.
  unfold normalizeLedgerLifecycleTransitionInput, ownDataRecord, transition_input_js,
    parseLedgerTransactionId, parseLifecycleState, parseLifecycleReason.
  read_record. rewrite parseNullableLifecycleState_js. cbn [rbind].
  rewrite !enum_member_str. cbn [or_throw rbind]. rewrite Ha. cbn [negb].
  rewrite (proj2 (parseUuid_ok (VStr (lt_transactionId t)) _)) by done. cbn [rlift rcatch rbind].
  rewrite parseLegId_js by done. cbn [rbind]. rewrite He. by destruct t.
Qed.

Lemma transition_command_js_ok a c t :
  transition_wf t -> UUID_V4_PATTERN a = true -> UUID_V4_PATTERN c = true ->
  normalizeLedgerLifecycleTransitionCommand (transition_command_js a c t)
  = Ok {| ltc_actorAccountId := a; ltc_correlationId := c; ltc_transition := t |}.
Proof.
  intros Hwf Ha Hc. pose proof Hwf as (_ & _ & Hi & _).
  apply lifecycle_timestamp_input in Hi as (ms & Hi & Hp).
  unfold normalizeLedgerLifecycleTransitionCommand, ownDataRecord, transition_command_js,
    parseLedgerActorAccountId, parseLedgerCorrelationId.
  read_record. rewrite Hi. cbn [rbind]. fold (transition_input_js ms t).
  rewrite normalizeTransition_js by done. cbn [rbind].
  by rewrite !lifecycle_uuid_js.
Qed.

Lemma normalizeRecovery_wf v t :
  normalizeLedgerRecoveryTransitionInput v = Ok t -> recovery_wf t.
Proof.
  unfold normalizeLedgerRecoveryTransitionInput, ownDataRecord, parseLedgerTransactionId.
  intros H. inv_ok. subst t. apply negb_false_iff in Hg.
  apply parseUuid_ok in Hr3 as [_ ?]. apply parseLegId_wf in Hr4.
  apply parseLifecycleTimestamp_iso in Hr5. unfold recovery_wf. cbn. tauto.
Qed.

Lemma recovery_command_js_ok a c t :
  recovery_wf t -> UUID_V4_PATTERN a = true -> UUID_V4_PATTERN c = true ->
  normalizeLedgerRecoveryTransitionCommand (recovery_command_js a c t)
  = Ok {| rtc_actorAccountId := a; rtc_correlationId := c; rtc_transition := t |}.
Proof.
  intros (Ht & Hl & Hi & Hal) Ha Hc. apply lifecycle_timestamp_input in Hi as (ms & Hi & Hp).
  unfold normalizeLedgerRecoveryTransitionCommand, normalizeLedgerRecoveryTransitionInput,
    ownDataRecord, recovery_command_js, parseLedgerActorAccountId, parseLedgerCorrelationId,
    parseLedgerTransactionId, parseRecoveryState, parseRecoveryReason.
  read_record. rewrite Hi. cbn [rbind]. read_record. rewrite !enum_member_str.
  cbn [or_throw rbind]. rewrite Hal. cbn [negb].
  rewrite lifecycle_uuid_js by done. cbn [rbind]. rewrite parseLegId_js by done. cbn [rbind].
  rewrite Hp. cbn [rbind]. rewrite !lifecycle_uuid_js by done. by destruct t.
Qed.

(** The tables, by computation over their finite domains. *)
Lemma lifecycle_rank_step from to reason :
  isAllowedLedgerLifecycleTransition from to reason = true ->
  (lifecycle_rank from < lifecycle_rank (Some to) <= 7)%nat.
Proof. destruct from as [[]|], to, reason; vm_compute; intros; lia || discriminate. Qed.

Lemma recovery_rank_step from to reason :
  isAllowedLedgerRecoveryTransition from to reason = true ->
  (recovery_rank from < recovery_rank to <= 3)%nat.
Proof. destruct from, to, reason; vm_compute; intros; lia || discriminate. Qed.

Lemma history_rank s ts s' :
  history s ts s' -> (lifecycle_rank s + length ts <= lifecycle_rank s')%nat.
Proof.
  induction 1 as [|v t ts s' Hv _ IH]; simpl; [lia|].
  apply normalizeTransition_wf in Hv as (_ & _ & _ & Hv).
  apply lifecycle_rank_step in Hv. lia.
Qed.

Lemma lifecycle_rank_max s : (lifecycle_rank s <= 7)%nat.
Proof. destruct s as [[]|]; simpl; lia. Qed.

(** Splits a non-empty history at its last transition. *)
Lemma history_last s ts s' :
  history s ts s' ->
  (ts = [] /\ s = s') \/
  exists pre t, ts = pre ++ [t] /\ s' = Some (lt_nextState t) /\ transition_wf t /\
                history s pre (lt_expectedState t).
Proof.
  induction 1 as [|v t ts s' Hv Hh IH]; [by left|]. right.
  pose proof (normalizeTransition_wf _ _ Hv) as Hwf.
  destruct IH as [[-> <-]|(pre & t' & -> & -> & Hwf' & Hp)].
  - exists [], t. split; [done|]. split; [done|]. split; [done | constructor].
  - exists (t :: pre), t'. split; [done|]. split; [done|]. split; [done|]. by apply (history_cons v).
Qed.

(** The table read backwards: which states and reasons precede a state. *)
Lemma allowed_into from to reason :
  isAllowedLedgerLifecycleTransition from to reason = true ->
  match to with
  | CREATED => from = None /\ reason = INTENT_CREATED
  | QUOTED => from = Some CREATED /\ reason = QUOTE_CREATED
  | USER_APPROVED => from = Some QUOTED /\ reason = USER_APPROVAL_RECORDED
  | SUBMITTED => from = Some USER_APPROVED /\ reason = SUBMISSION_RECORDED
  | PENDING => from = Some SUBMITTED /\ reason = OUTCOME_PENDING
  | SETTLED => (from = Some SUBMITTED \/ from = Some PENDING) /\ reason = SETTLEMENT_RECORDED
  | REVERSED => from = Some SETTLED /\ reason = FULL_REVERSAL_RECORDED
  | FAILED => from <> None /\ from <> Some SETTLED /\ from <> Some FAILED /\ from <> Some REVERSED
  end.
Proof.
  destruct from as [[]|], to, reason; vm_compute; intros; try discriminate; try tauto;
    repeat split; discriminate.
Qed.

Lemma history_into_none ts : history None ts None -> ts = [].
Proof.
  intros H%history_last. destruct H as [[-> _]|(pre & t & _ & E & _)]; [done | discriminate].
Qed.

(** One step back from a state reached from nothing. *)
Lemma history_back ts s :
  history None ts (Some s) ->
  exists pre t, ts = pre ++ [t] /\ history None pre (lt_expectedState t) /\
    isAllowedLedgerLifecycleTransition (lt_expectedState t) s (lt_reason t) = true.
Proof.
  intros H%history_last. destruct H as [[_ E]|(pre & t & -> & [= ->] & (_ & _ & _ & Ha) & Hp)];
    [discriminate|]. by exists pre, t.
Qed.

(** One more transition extends the recorded reasons along the path. *)
Lemma settlement_path_step from s reason pre :
  isAllowedLedgerLifecycleTransition from s reason = true -> s <> FAILED ->
  match from with
  | None => pre = []
  | Some f => f <> FAILED -> pre ∈ settlement_path f
  end -> pre ++ [reason] ∈ settlement_path s.
Proof.
  intros Ha Hs Hp. pose proof (allowed_into _ _ _ Ha) as Hi.
  destruct s; try done; destruct Hi as [Hf ->]; try (destruct Hf as [Hf|Hf]); subst from;
    [subst pre | specialize (Hp ltac:(done)) ..]; cbn [settlement_path] in *;
    rewrite ?elem_of_cons, ?elem_of_nil in *; naive_solver.
Qed.

Lemma history_settlement_path n ts s :
  (lifecycle_rank (Some s) <= n)%nat -> s <> FAILED -> history None ts (Some s) ->
  lt_reason <$> ts ∈ settlement_path s.
Proof.
  revert ts s. induction n as [|n IH]; intros ts s Hn Hs H; [destruct s; simpl in Hn; lia|].
  apply history_back in H as (pre & t & -> & Hp & Ha).
  rewrite fmap_app. cbn [fmap list_fmap]. pose proof (lifecycle_rank_step _ _ _ Ha) as [Hlt _].
  apply (settlement_path_step _ _ _ _ Ha Hs). destruct (lt_expectedState t) as [f|].
  - intros Hf. apply IH; [lia | done | done].
  - by apply history_into_none in Hp as ->.
Qed.

(** ** Properties *)

(** C25: every sequence of accepted transitions is finite and short: the rules
    never return to an earlier state, so at most seven transitions fit between
    the creation of a transaction and a final state. *)
Theorem lifecycle_history_bounded s ts s' :
  history s ts s' -> (length ts <= 7 - lifecycle_rank s)%nat.
Proof.
  intros H%history_rank. pose proof (lifecycle_rank_max s'). lia.
Qed.

Ltac history_example :=
  lazymatch goal with
  | |- history _ [] _ => constructor
  | |- history _ (?t :: _) _ =>
      refine (history_cons (transition_input_js 1788220800000 t) t _ _ _ _);
      [vm_compute; reflexivity | history_example]
  end.

Lemma settled_history_example : history None settled_example (Some SETTLED).
Proof. unfold settled_example. history_example. Qed.

Lemma lifecycle_history_bounded_witness :
  history None settled_example (Some SETTLED) /\ (length settled_example <= 7)%nat.
Proof.
  split; [exact settled_history_example|].
  exact (lifecycle_history_bounded _ _ _ settled_history_example).
Defined.

(** Settlement discipline: a transaction that reaches SETTLED (or
    REVERSED) went through creation, a quote, the user's approval and a
    submission, in that order and with those reasons, with at most one pending
    outcome before settlement; a reversal comes last and only after
    settlement. *)
Theorem settled_history_reasons ts s :
  history None ts (Some s) -> s = SETTLED \/ s = REVERSED ->
  exists wait final,
    lt_reason <$> ts =
      [INTENT_CREATED; QUOTE_CREATED; USER_APPROVAL_RECORDED; SUBMISSION_RECORDED]
      ++ wait ++ [SETTLEMENT_RECORDED] ++ final /\
    (wait = [] \/ wait = [OUTCOME_PENDING]) /\
    (s = SETTLED -> final = []) /\ (s = REVERSED -> final = [FULL_REVERSAL_RECORDED]).
Proof.
  intros H Hs. apply (history_settlement_path 7) in H; [| apply lifecycle_rank_max | naive_solver].
  destruct Hs as [-> | ->]; simpl in H; rewrite !elem_of_cons in H;
    destruct H as [E|[E|E]]; try (by apply not_elem_of_nil in E); rewrite E.
  - exists [], []. naive_solver.
  - exists [OUTCOME_PENDING], []. naive_solver.
  - exists [], [FULL_REVERSAL_RECORDED]. naive_solver.
  - exists [OUTCOME_PENDING], [FULL_REVERSAL_RECORDED]. naive_solver.
Qed.

Lemma settled_history_reasons_witness :
  exists wait final,
    lt_reason <$> settled_example =
      [INTENT_CREATED; QUOTE_CREATED; USER_APPROVAL_RECORDED; SUBMISSION_RECORDED]
      ++ wait ++ [SETTLEMENT_RECORDED] ++ final /\
    (wait = [] \/ wait = [OUTCOME_PENDING]) /\
    (SETTLED = SETTLED -> final = []) /\ (SETTLED = REVERSED -> final = [FULL_REVERSAL_RECORDED]).
Proof. exact (settled_history_reasons _ _ settled_history_example (or_introl eq_refl)). Defined.

(** The transition command built from a normalised transition, the actor
    and the correlation id is accepted and carries the same transition; the
    same holds for recovery transitions. *)
Theorem transition_commands_roundtrip a c :
  UUID_V4_PATTERN a = true -> UUID_V4_PATTERN c = true ->
  (forall v t, normalizeLedgerLifecycleTransitionInput v = Ok t ->
     normalizeLedgerLifecycleTransitionCommand (transition_command_js a c t)
     = Ok {| ltc_actorAccountId := a; ltc_correlationId := c; ltc_transition := t |}) /\
  (forall v t, normalizeLedgerRecoveryTransitionInput v = Ok t ->
     normalizeLedgerRecoveryTransitionCommand (recovery_command_js a c t)
     = Ok {| rtc_actorAccountId := a; rtc_correlationId := c; rtc_transition := t |}).
Proof.
  intros Ha Hc. split; intros v t H.
  - apply transition_command_js_ok; [by apply (normalizeTransition_wf v) | done | done].
  - apply recovery_command_js_ok; [by apply (normalizeRecovery_wf v) | done | done].
Qed.

Lemma transition_commands_roundtrip_witness :
  normalizeLedgerLifecycleTransitionCommand (transition_command_js (uuid_example "8")
    (uuid_example "9") (transition_example None CREATED INTENT_CREATED))
  = Ok {| ltc_actorAccountId := uuid_example "8"; ltc_correlationId := uuid_example "9";
          ltc_transition := transition_example None CREATED INTENT_CREATED |}.
Proof.
  apply (proj1 (transition_commands_roundtrip (uuid_example "8") (uuid_example "9") eq_refl eq_refl)
           (transition_input_js 1788220800000 (transition_example None CREATED INTENT_CREATED))).
  vm_compute. reflexivity.
Defined.

Lemma recovery_history_rank s ts s' :
  recovery_history s ts s' -> (recovery_rank s + length ts <= recovery_rank s')%nat.
Proof.
  induction 1 as [|v t ts s' Hv _ IH]; simpl; [lia|].
  apply normalizeRecovery_wf in Hv as (_ & _ & _ & Hv). apply recovery_rank_step in Hv. lia.
Qed.

(** Recovery is a one-way track of at most three steps, and a resolved
    recovery accepts no further transition. *)
Theorem recovery_history_bounded s ts s' :
  recovery_history s ts s' ->
  (length ts <= 3)%nat /\ (s = RESOLVED -> ts = [] /\ s' = RESOLVED).
Proof.
  intros H. pose proof (recovery_history_rank _ _ _ H) as Hr.
  assert (recovery_rank s' <= 3)%nat by (destruct s'; simpl; lia). split; [lia|].
  intros ->. simpl in Hr. inversion H; subst; [done|]. simpl in Hr. lia.
Qed.

Lemma recovery_history_bounded_witness :
  (length [recovered_example] <= 3)%nat /\
  (REQUIRED = RESOLVED -> [recovered_example] = [] /\ RESOLVED = RESOLVED).
Proof.
  apply (recovery_history_bounded REQUIRED).
  refine (recovery_history_cons (js_object
    [("transactionId", VStr (uuid_example "1")); ("legId", VNull);
     ("expectedRecoveryState", VStr "REQUIRED"); ("nextRecoveryState", VStr "RESOLVED");
     ("reason", VStr "RECOVERY_RESOLVED"); ("effectiveAt", js_date 1788220800000)])
    recovered_example _ _ _ _);
    [vm_compute; reflexivity | constructor].
Defined.
