(* ===== verification/LedgerIdempotency.v ===== *)
(** * Ledger idempotency (apps/api/src/ledger/domain/idempotency.ts)

    Idempotency keys and request fingerprints: the key is digested under one
    domain, the whole request under another, and the repository compares the
    digests.  SHA-256 is a parameter of the section. *)

From stdpp Require Import base list strings.
From Stdlib Require Import ZArith Lia Ascii.
From S2P Require Import Prelude Text JsValue Digest Ledger.

Open Scope Z_scope.

(** ** Data *)

Definition LEDGER_IDEMPOTENCY_CONTRACT_VERSION : Z := 1.
Definition LEDGER_REQUEST_FINGERPRINT_VERSION : Z := 1.
Definition MAX_LEDGER_IDEMPOTENCY_KEY_BYTES : Z := 128.

Inductive LedgerIdempotencyOperation : Type := POST_JOURNAL | REVERSE_JOURNAL.

#[export] Program Instance LEDGER_IDEMPOTENCY_OPERATIONS : JsEnum LedgerIdempotencyOperation := {
  enum_values := [POST_JOURNAL; REVERSE_JOURNAL];
  enum_str := fun o => match o with
    | POST_JOURNAL => "POST_JOURNAL" | REVERSE_JOURNAL => "REVERSE_JOURNAL" end;
}.
Next Obligation. solve_enum_all. Qed.
Next Obligation. solve_enum_inj. Qed.

Inductive LedgerIdempotencyErrorCode : Type :=
| INVALID_IDEMPOTENCY_KEY | INVALID_IDEMPOTENCY_CONTEXT | IDEMPOTENCY_CONFLICT.

(** The module's own error, or the actor parser's [LedgerValidationError]. *)
Inductive IdempotencyException : Type :=
| LedgerIdempotencyError (code : LedgerIdempotencyErrorCode)
| IdempotencyLedgerError (code : LedgerValidationCode).

Record LedgerIdempotencyContext : Type := {
  ctx_actorAccountId : string;
  ctx_operation : LedgerIdempotencyOperation;
  ctx_contractVersion : Z;
  ctx_keyDigest : string;
  ctx_fingerprintVersion : Z;
  ctx_requestFingerprint : string;
}.

Definition KEY_DIGEST_DOMAIN : string := "crypto-lending:ledger-idempotency-key:v1".
Definition REQUEST_FINGERPRINT_DOMAIN : string := "crypto-lending:ledger-request-fingerprint:v1".

(** ** Keys *)

Definition parseRawIdempotencyKey (value : jsval) : result IdempotencyException string :=
  match value with
  | VStr s =>
      let bytes := utf8_bytes s in
      if (bytes <? 1) || (MAX_LEDGER_IDEMPOTENCY_KEY_BYTES <? bytes) || negb (VISIBLE_PATTERN s)
      then Err (LedgerIdempotencyError INVALID_IDEMPOTENCY_KEY)
      else Ok s
  | _ => Err (LedgerIdempotencyError INVALID_IDEMPOTENCY_KEY)
  end.

(** ** Context normalisation *)

(** [typeof value === 'string' && DIGEST_PATTERN.test(value)] *)
Definition digest_string (value : jsval) : option string :=
  match value with
  | VStr s => if HEX64_PATTERN s then Some s else None
  | _ => None
  end.

Definition normalizeLedgerIdempotencyContext (value : jsval)
    : result IdempotencyException LedgerIdempotencyContext :=
  let invalid := LedgerIdempotencyError INVALID_IDEMPOTENCY_CONTEXT in
  let* record := or_throw (exact_data_record
    ["actorAccountId"; "operation"; "contractVersion"; "keyDigest"; "fingerprintVersion";
     "requestFingerprint"] value) invalid in
  let* operation := or_throw (enum_member enum_values (record .: "operation")) invalid in
  reject invalid when
    negb (is_int (record .: "contractVersion") LEDGER_IDEMPOTENCY_CONTRACT_VERSION)
    || negb (is_int (record .: "fingerprintVersion") LEDGER_REQUEST_FINGERPRINT_VERSION) in
  let* keyDigest := or_throw (digest_string (record .: "keyDigest")) invalid in
  let* requestFingerprint := or_throw (digest_string (record .: "requestFingerprint")) invalid in
  let* actorAccountId := rcatch (rlift IdempotencyLedgerError
    (parseLedgerActorAccountId (record .: "actorAccountId"))) (fun _ => Err invalid) in
  Ok {| ctx_actorAccountId := actorAccountId; ctx_operation := operation;
        ctx_contractVersion := LEDGER_IDEMPOTENCY_CONTRACT_VERSION; ctx_keyDigest := keyDigest;
        ctx_fingerprintVersion := LEDGER_REQUEST_FINGERPRINT_VERSION;
        ctx_requestFingerprint := requestFingerprint |}.

(** ** Fingerprints *)

Definition fingerprintHeader (actorAccountId : string) (operation : LedgerIdempotencyOperation)
    : list string :=
  [toString LEDGER_REQUEST_FINGERPRINT_VERSION; toString LEDGER_IDEMPOTENCY_CONTRACT_VERSION;
   enum_str operation; actorAccountId].

Definition posting_fields (posting : LedgerPosting) : list string :=
  [accountId posting; assetRevisionId posting; enum_str (side posting); amountAtomic posting].

Definition post_fingerprint_fields (actor : string) (journal : ValidatedPostLedgerJournal)
    : list string :=
  fingerprintHeader actor POST_JOURNAL
  ++ [bookId journal; transactionId journal; legId journal;
      enum_str (economicEventType journal); effectiveAt journal; observedAt journal;
      enum_str (reason journal); toString (Z.of_nat (length (postings journal)))]
  ++ concat (posting_fields <$> postings journal).

Definition reverse_fingerprint_fields (actor : string) (reversal : ValidatedReverseLedgerJournal)
    : list string :=
  fingerprintHeader actor REVERSE_JOURNAL
  ++ [originalJournalId reversal; enum_str (rev_reason reversal); rev_effectiveAt reversal;
      rev_observedAt reversal].

Section hashing.
(** [createHash('sha256')] from bytes to a lower-case hexadecimal digest. *)
Variable sha256 : string -> string.

Definition digest (domain : string) (values : list string) : string :=
  sha256 (frames (domain :: values)).

Definition digestLedgerIdempotencyKey (value : jsval) : result IdempotencyException string :=
  let* key := parseRawIdempotencyKey value in
  Ok (digest KEY_DIGEST_DOMAIN [key]).

Definition createPostLedgerIdempotencyContext (rawKey actorAccountId : jsval)
    (journal : ValidatedPostLedgerJournal)
    : result IdempotencyException LedgerIdempotencyContext :=
  let* actor := rlift IdempotencyLedgerError (parseLedgerActorAccountId actorAccountId) in
  let* keyDigest := digestLedgerIdempotencyKey rawKey in
  Ok {| ctx_actorAccountId := actor; ctx_operation := POST_JOURNAL;
        ctx_contractVersion := LEDGER_IDEMPOTENCY_CONTRACT_VERSION;
        ctx_keyDigest := keyDigest;
        ctx_fingerprintVersion := LEDGER_REQUEST_FINGERPRINT_VERSION;
        ctx_requestFingerprint :=
          digest REQUEST_FINGERPRINT_DOMAIN (post_fingerprint_fields actor journal) |}.

Definition createReverseLedgerIdempotencyContext (rawKey actorAccountId : jsval)
    (reversal : ValidatedReverseLedgerJournal)
    : result IdempotencyException LedgerIdempotencyContext :=
  let* actor := rlift IdempotencyLedgerError (parseLedgerActorAccountId actorAccountId) in
  let* keyDigest := digestLedgerIdempotencyKey rawKey in
  Ok {| ctx_actorAccountId := actor; ctx_operation := REVERSE_JOURNAL;
        ctx_contractVersion := LEDGER_IDEMPOTENCY_CONTRACT_VERSION;
        ctx_keyDigest := keyDigest;
        ctx_fingerprintVersion := LEDGER_REQUEST_FINGERPRINT_VERSION;
        ctx_requestFingerprint :=
          digest REQUEST_FINGERPRINT_DOMAIN (reverse_fingerprint_fields actor reversal) |}.

(** ** Specification *)

(** What a client asks for, under either operation. *)
Inductive LedgerRequest : Type :=
| PostRequest (actor : jsval) (journal : ValidatedPostLedgerJournal)
| ReverseRequest (actor : jsval) (reversal : ValidatedReverseLedgerJournal).

Definition createContext (rawKey : jsval) (request : LedgerRequest)
    : result IdempotencyException LedgerIdempotencyContext :=
  match request with
  | PostRequest actor journal => createPostLedgerIdempotencyContext rawKey actor journal
  | ReverseRequest actor reversal => createReverseLedgerIdempotencyContext rawKey actor reversal
  end.

Definition request_fields (request : LedgerRequest) (actor : string) : list string :=
  match request with
  | PostRequest _ journal => post_fingerprint_fields actor journal
  | ReverseRequest _ reversal => reverse_fingerprint_fields actor reversal
  end.

Definition request_actor (request : LedgerRequest) : jsval :=
  match request with
  | PostRequest actor _ | ReverseRequest actor _ => actor
  end.

(** The messages hashed for a key and for a request. *)
Definition key_message (rawKey : jsval) : string :=
  match rawKey with
  | VStr key => frames [KEY_DIGEST_DOMAIN; key]
  | _ => ""
  end.

Definition request_message (request : LedgerRequest) : string :=
  match request_actor request with
  | VStr actor => frames (REQUEST_FINGERPRINT_DOMAIN :: request_fields request actor)
  | _ => ""
  end.
End hashing.

(** 1 to 128 printable ASCII characters without the space. *)
Definition key_wf (key : string) : Prop :=
  1 <= strlen key <= 128 /\ all_chars is_visible key = true.

Definition context_wf (c : LedgerIdempotencyContext) : Prop :=
  UUID_V4_PATTERN (ctx_actorAccountId c) = true /\ ctx_contractVersion c = 1 /\
  ctx_fingerprintVersion c = 1 /\ HEX64_PATTERN (ctx_keyDigest c) = true /\
  HEX64_PATTERN (ctx_requestFingerprint c) = true.

(** The context as the frozen object handed to the repository. *)
Definition context_js (c : LedgerIdempotencyContext) : jsval := js_object
  [("actorAccountId", VStr (ctx_actorAccountId c)); ("operation", VStr (enum_str (ctx_operation c)));
   ("contractVersion", VNum (JInt (ctx_contractVersion c))); ("keyDigest", VStr (ctx_keyDigest c));
   ("fingerprintVersion", VNum (JInt (ctx_fingerprintVersion c)));
   ("requestFingerprint", VStr (ctx_requestFingerprint c))].

(** A stand-in for the hash in examples: 64 zeros. *)
Definition zero_digest (_ : string) : string :=
  "0000000000000000000000000000000000000000000000000000000000000000".

(** ** Lemmas *)

Lemma visible_utf8_bytes s : all_chars is_visible s = true -> utf8_bytes s = strlen s.
Proof.
  induction s as [|c s IH]; [done|]. simpl. rewrite strlen_cons. intros [Hc Hs]%andb_true_iff.
  rewrite IH by done. unfold is_visible, in_range in Hc. bsimpl.
  by rewrite (proj2 (Z.leb_le _ _)) by lia.
Qed.

Lemma parseRawIdempotencyKey_ok v k :
  parseRawIdempotencyKey v = Ok k <-> v = VStr k /\ key_wf k.
Proof.
  unfold parseRawIdempotencyKey, key_wf, VISIBLE_PATTERN, MAX_LEDGER_IDEMPOTENCY_KEY_BYTES. split.
  - destruct v as [| | | | |s| | | | | |]; try discriminate. destruct (_ || _) eqn:E; [discriminate|].
    intros [= <-]. bsimpl. pose proof (visible_utf8_bytes s ltac:(done)). split; [done|]. split; [lia | done].
  - intros (-> & Hl & Hv). rewrite visible_utf8_bytes, Hv by done.
    rewrite !(proj2 (Z.ltb_ge _ _)) by lia. destruct (String.eqb_spec k ""); [|done].
    subst k. unfold strlen in Hl. simpl in Hl. lia.
Qed.

Lemma digest_string_ok v s : digest_string v = Some s <-> v = VStr s /\ HEX64_PATTERN s = true.
Proof.
  unfold digest_string. split.
  - destruct v; try discriminate. destruct (HEX64_PATTERN _) eqn:E; [|discriminate]. by intros [= <-].
  - by intros [-> ->].
Qed.

Lemma normalizeContext_wf v c : normalizeLedgerIdempotencyContext v = Ok c -> context_wf c.
Proof.
  unfold normalizeLedgerIdempotencyContext. intros H. inv_ok. subst c.
  destruct (rlift _ _) as [a|] eqn:Ha in Hr3; [|discriminate]. injection Hr3 as <-.
  inv_ok. apply parseUuid_ok in Ha as [_ ?]. apply digest_string_ok in Hr1 as [_ ?], Hr2 as [_ ?].
  unfold context_wf. cbn. tauto.
Qed.

Lemma context_js_ok c : context_wf c -> normalizeLedgerIdempotencyContext (context_js c) = Ok c.
Proof.
  intros (Ha & Hc & Hf & Hk & Hr). unfold normalizeLedgerIdempotencyContext, context_js.
  read_record. rewrite enum_member_str. cbn [or_throw rbind]. rewrite Hc, Hf. cbn [is_int].
  rewrite (proj2 (digest_string_ok _ _) (conj eq_refl Hk)). cbn [or_throw rbind].
  rewrite (proj2 (digest_string_ok _ _) (conj eq_refl Hr)). cbn [or_throw rbind].
  unfold parseLedgerActorAccountId. rewrite (proj2 (parseUuid_ok _ _) (conj eq_refl Ha)).
  destruct c; cbn in *. by subst.
Qed.

Lemma posting_fields_inj ps qs r r' :
  length ps = length qs ->
  concat (posting_fields <$> ps) ++ r = concat (posting_fields <$> qs) ++ r' -> ps = qs /\ r = r'.
Proof.
  revert qs. induction ps as [|[a b s n] ps IH]; intros [|[a' b' s' n'] qs]; simpl; try done.
  intros [= Hl] [= -> -> Hs -> H]. assert (s = s') as -> by (by apply enum_str_inj).
  by destruct (IH qs Hl H) as [-> ->].
Qed.

Lemma post_fields_inj a j a' j' :
  post_fingerprint_fields a j = post_fingerprint_fields a' j' -> a = a' /\ j = j'.
Proof.
  unfold post_fingerprint_fields, fingerprintHeader.
  destruct j as [b t l e ef ob r ps], j' as [b' t' l' e' ef' ob' r' ps']. cbn [app].
  intros [= -> -> -> -> He -> -> Hr Hn H]. cbn in *.
  assert (e = e') as -> by (by apply enum_str_inj). assert (r = r') as -> by (by apply enum_str_inj).
  apply toString_inj in Hn; [|lia..]. destruct (posting_fields_inj ps ps' [] []) as [-> _];
    [lia | by rewrite !app_nil_r | done].
Qed.

Lemma reverse_fields_inj a r a' r' :
  reverse_fingerprint_fields a r = reverse_fingerprint_fields a' r' -> a = a' /\ r = r'.
Proof.
  unfold reverse_fingerprint_fields, fingerprintHeader.
  destruct r as [o re ef ob], r' as [o' re' ef' ob']. cbn. intros [= -> -> Hr -> ->].
  assert (re = re') as -> by (by apply enum_str_inj). done.
Qed.

Section hashing_lemmas.
Variable sha256 : string -> string.

(** What a created context holds. *)
Lemma createContext_ok k r c :
  createContext sha256 k r = Ok c ->
  exists key actor, k = VStr key /\ key_wf key /\ request_actor r = VStr actor /\
    UUID_V4_PATTERN actor = true /\ ctx_actorAccountId c = actor /\
    ctx_contractVersion c = 1 /\ ctx_fingerprintVersion c = 1 /\
    ctx_keyDigest c = digest sha256 KEY_DIGEST_DOMAIN [key] /\
    ctx_requestFingerprint c = digest sha256 REQUEST_FINGERPRINT_DOMAIN (request_fields r actor).
Proof.
  destruct r as [a j|a r]; cbn [createContext];
    unfold createPostLedgerIdempotencyContext, createReverseLedgerIdempotencyContext,
      digestLedgerIdempotencyKey, parseLedgerActorAccountId;
    intros H; inv_ok; subst; apply parseUuid_ok in Hr as [-> ?];
    apply parseRawIdempotencyKey_ok in Hr1 as [-> ?]; cbn; eexists _, _; eauto 20.
Qed.

(** The fields determine the request: header, operation and content. *)
Lemma request_fields_inj r1 r2 a1 a2 :
  request_actor r1 = VStr a1 -> request_actor r2 = VStr a2 ->
  request_fields r1 a1 = request_fields r2 a2 -> r1 = r2.
Proof.
  destruct r1 as [? j1|? r1], r2 as [? j2|? r2]; cbn; intros -> ->; try discriminate.
  - by intros [-> ->]%post_fields_inj.
  - by intros [-> ->]%reverse_fields_inj.
Qed.
End hashing_lemmas.

(** ** Properties *)

(** C28: a context is an identity: provided the hash tells the hashed messages
    apart, request fingerprints are equal exactly for the same operation,
    actor, journal and postings, key digests exactly for the same key, and a
    key digest never equals a fingerprint, because the framing of the hashed
    fields is injective and the two domains differ. *)
Theorem idempotency_context_binds_request sha256 k1 r1 c1 k2 r2 c2 :
  createContext sha256 k1 r1 = Ok c1 -> createContext sha256 k2 r2 = Ok c2 ->
  collision_free sha256 [key_message k1; request_message r1; key_message k2; request_message r2] ->
  (ctx_requestFingerprint c1 = ctx_requestFingerprint c2 <-> r1 = r2) /\
  (ctx_keyDigest c1 = ctx_keyDigest c2 <-> k1 = k2) /\
  ctx_keyDigest c1 <> ctx_requestFingerprint c2.
Proof.
  intros (key1 & a1 & -> & _ & Ha1 & _ & _ & _ & _ & Hk1 & Hf1)%createContext_ok.
  intros (key2 & a2 & -> & _ & Ha2 & _ & _ & _ & _ & Hk2 & Hf2)%createContext_ok.
  unfold request_message. rewrite Ha1, Ha2, Hk1, Hf1, Hk2, Hf2. unfold digest. intros Hc.
  split; [|split].
  - split; [|intros ->; congruence]. intros H. eapply digest_binds in H; [|exact Hc | solve_elem ..].
    injection H as H. by eapply request_fields_inj.
  - split; [|by intros [= ->]]. intros H. eapply digest_binds in H; [|exact Hc | solve_elem ..].
    by injection H as ->.
  - intros H. eapply digest_binds in H; [|exact Hc | solve_elem ..]. discriminate.
Qed.

Lemma idempotency_context_binds_request_witness :
  exists c1 c2,
    createContext id (VStr "key-1") (PostRequest (VStr (uuid_example "8")) journal_example) = Ok c1 /\
    createContext id (VStr "key-1") (PostRequest (VStr (uuid_example "9")) journal_example) = Ok c2 /\
    ctx_requestFingerprint c1 <> ctx_requestFingerprint c2.
Proof.
  eexists _, _. split; [reflexivity|]. split; [reflexivity|].
  intros H.
  apply (idempotency_context_binds_request id
           (VStr "key-1") (PostRequest (VStr (uuid_example "8")) journal_example) _
           (VStr "key-1") (PostRequest (VStr (uuid_example "9")) journal_example)) in H;
    [vm_compute in H; discriminate H | vm_compute; reflexivity | vm_compute; reflexivity
    | apply collision_free_id].
Defined.

(** A created context survives the repository's re-validation unchanged,
    given that the hash returns 64 lower-case hexadecimal digits. *)
Theorem idempotency_context_roundtrip sha256 k r c :
  (forall m, HEX64_PATTERN (sha256 m) = true) ->
  createContext sha256 k r = Ok c ->
  normalizeLedgerIdempotencyContext (context_js c) = Ok c.
Proof.
  intros Hx (key & a & _ & _ & _ & Ha & E & Hc & Hv & Hk & Hf)%createContext_ok.
  apply context_js_ok. unfold context_wf. rewrite E, Hk, Hf. unfold digest. auto.
Qed.

Lemma idempotency_context_roundtrip_witness :
  exists c, createContext zero_digest (VStr "key-1")
              (PostRequest (VStr (uuid_example "8")) journal_example) = Ok c /\
            normalizeLedgerIdempotencyContext (context_js c) = Ok c.
Proof.
  eexists. split; [vm_compute; reflexivity|].
  apply (idempotency_context_roundtrip zero_digest (VStr "key-1")
           (PostRequest (VStr (uuid_example "8")) journal_example));
    [intros m; vm_compute; reflexivity | vm_compute; reflexivity].
Defined.

(** An idempotency key is accepted exactly when it is a string of 1 to 128
    visible ASCII characters, and then its digest is the framed hash under the
    key domain; everything else is [INVALID_IDEMPOTENCY_KEY]. *)
Theorem idempotency_key_accepted sha256 v :
  (exists k, v = VStr k /\ key_wf k /\
     digestLedgerIdempotencyKey sha256 v = Ok (digest sha256 KEY_DIGEST_DOMAIN [k])) \/
  ((forall k, v = VStr k -> ~ key_wf k) /\
   digestLedgerIdempotencyKey sha256 v = Err (LedgerIdempotencyError INVALID_IDEMPOTENCY_KEY)).
Proof.
  unfold digestLedgerIdempotencyKey. destruct (parseRawIdempotencyKey v) as [k|e] eqn:E.
  - left. exists k. apply parseRawIdempotencyKey_ok in E as [-> ?]. by split.
  - right. split.
    + intros k -> Hk. by rewrite (proj2 (parseRawIdempotencyKey_ok _ _) (conj eq_refl Hk)) in E.
    + simpl. revert E. unfold parseRawIdempotencyKey. destruct v; try congruence.
      destruct (_ || _); congruence.
Qed.
