(* ===== verification/LogContext.v ===== *)
(** * Logging context (apps/api/src/infrastructure/logging/logging-context.ts)

    The diagnostic identifiers carried across asynchronous work.  A context is
    a record of optional identifiers; extending it may add identifiers and may
    never drop or replace one. *)

From stdpp Require Import base list strings gmap.
From Stdlib Require Import ZArith Lia Ascii.
From S2P Require Import Prelude Text JsValue.

Open Scope Z_scope.

(** ** Data *)

(** [/^legacy:[a-f0-9]{64}$/u] *)
Definition LEGACY_CORRELATION_PATTERN (s : string) : bool :=
  String.prefix "legacy:" s && HEX64_PATTERN (String.substring 7 (String.length s - 7) s).

(** [/^(?:job|message):[a-f0-9]{64}$/u] *)
Definition LOG_REFERENCE_PATTERN (s : string) : bool :=
  (String.prefix "job:" s && HEX64_PATTERN (String.substring 4 (String.length s - 4) s))
  || (String.prefix "message:" s && HEX64_PATTERN (String.substring 8 (String.length s - 8) s)).

Definition OPTIONAL_CONTEXT_KEYS : list string :=
  ["requestId"; "initiatorActorId"; "jobId"; "intentId"; "quoteId"; "transactionId";
   "ledgerEventId"].

Definition CONTEXT_KEYS : list string := "correlationId" :: OPTIONAL_CONTEXT_KEYS.

(** A (mutable) context: the identifiers that are set. *)
Notation LogCorrelationContext := (gmap string string).

Inductive LogContextError : Type :=
| ContextTypeError
| ContextError.

(** ** Identifiers *)

Definition isCanonicalUuidV4 (s : string) : bool := UUID_V4_PATTERN s.

Definition isSafeCorrelationId (s : string) : bool :=
  isCanonicalUuidV4 s || LEGACY_CORRELATION_PATTERN s.

Definition isSafeLogReference (s : string) : bool := LOG_REFERENCE_PATTERN s.

Definition valid_context_value (value name : string) : bool :=
  if String.eqb name "correlationId" then isSafeCorrelationId value
  else if String.eqb name "jobId" then isSafeLogReference value && String.prefix "job:" value
  else isCanonicalUuidV4 value.

Definition assertContextValue (value name : string) : result LogContextError unit :=
  reject ContextTypeError when negb (valid_context_value value name) in Ok tt.

(** ** Reading a context object *)

Definition contextDescriptors (value : jsval) : result LogContextError jsprops :=
  or_throw (plain_descriptors value) ContextTypeError.

(** [undefined] when the key is absent. *)
Definition dataValue (descriptors : jsprops) (name : string) : result LogContextError jsval :=
  match descriptor descriptors name with
  | None => Ok VUndef
  | Some (DAccessor _) => Err ContextTypeError
  | Some (DData v _) => Ok v
  end.

(** One turn of the loops over [CONTEXT_KEYS]. *)
Definition read_context_key (descriptors : jsprops) (validated : LogCorrelationContext)
    (name : string) : result LogContextError LogCorrelationContext :=
  let* value := dataValue descriptors name in
  match value with
  | VUndef => Ok validated
  | VStr s => let* _ := assertContextValue s name in Ok (<[name := s]> validated)
  | _ => Err ContextTypeError
  end.

Fixpoint read_context_keys (descriptors : jsprops) (names : list string)
    (validated : LogCorrelationContext) : result LogContextError LogCorrelationContext :=
  match names with
  | [] => Ok validated
  | name :: names =>
      let* validated := read_context_key descriptors validated name in
      read_context_keys descriptors names validated
  end.

Definition legacy_with_identifiers (context : LogCorrelationContext) : bool :=
  match context !! "correlationId" with
  | Some correlationId =>
      String.prefix "legacy:" correlationId
      && existsb (fun name => negb (String.eqb name "jobId")
                              && bool_decide (is_Some (context !! name))) OPTIONAL_CONTEXT_KEYS
  | None => false
  end.

Definition validateContext (context : jsval) : result LogContextError LogCorrelationContext :=
  let* descriptors := contextDescriptors context in
  let* value := dataValue descriptors "correlationId" in
  match value with
  | VStr correlationId =>
      let* _ := assertContextValue correlationId "correlationId" in
      let* validated := read_context_keys descriptors OPTIONAL_CONTEXT_KEYS
                          {[ "correlationId" := correlationId ]} in
      reject ContextTypeError when
        match validated !! "requestId" with
        | Some requestId => negb (String.eqb requestId correlationId)
        | None => false
        end in
      reject ContextTypeError when legacy_with_identifiers validated in
      Ok validated
  | _ => Err ContextTypeError
  end.

Definition validateExtension (extension : jsval) : result LogContextError LogCorrelationContext :=
  let* descriptors := contextDescriptors extension in
  read_context_keys descriptors CONTEXT_KEYS ∅.

(** A context as the null-prototype object the class stores. *)
Definition context_object (c : LogCorrelationContext) : jsval :=
  VObj PNull (omap (fun name => (fun v => (KStr name, DData (VStr v) true)) <$> c !! name)
                CONTEXT_KEYS).

(** ** LoggingContext

    [current] is the store of the asynchronous context, [None] outside of any;
    the results are the context the work runs under. *)

(** [run] *)
Definition LoggingContext_run (context : jsval) : result LogContextError LogCorrelationContext :=
  validateContext context.

(** The copies of the current context, then of the extension. *)
Definition copy_keys (source target : LogCorrelationContext) : LogCorrelationContext :=
  foldl (fun target name =>
           match source !! name with
           | Some v => <[name := v]> target
           | None => target
           end) target CONTEXT_KEYS.

(** An optional identifier that the extension would replace. *)
Definition replaces_identifier (current extension : LogCorrelationContext) : bool :=
  existsb (fun name => match extension !! name, current !! name with
                       | Some replacement, Some existing => negb (String.eqb replacement existing)
                       | _, _ => false
                       end) OPTIONAL_CONTEXT_KEYS.

(** [validatedExtension.correlationId ?? current?.correlationId] *)
Definition root_correlation (current : option LogCorrelationContext) (root : option string)
    : option string :=
  match root, current with
  | Some correlationId, _ => Some correlationId
  | None, Some current => current !! "correlationId"
  | None, None => None
  end.

Definition LoggingContext_runWith (current : option LogCorrelationContext) (extension : jsval)
    : result LogContextError LogCorrelationContext :=
  let* validatedExtension := validateExtension extension in
  let root := validatedExtension !! "correlationId" in
  reject ContextError when
    match current, root with
    | Some current, Some replacement =>
        negb (bool_decide (Some replacement = current !! "correlationId"))
    | _, _ => false
    end in
  reject ContextError when
    match current with
    | Some current => replaces_identifier current validatedExtension
    | None => false
    end in
  match root_correlation current root with
  | None => Err ContextError
  | Some correlationId =>
      let merged := match current with Some current => copy_keys current ∅ | None => ∅ end in
      let merged := copy_keys validatedExtension merged in
      validateContext (context_object (<["correlationId" := correlationId]> merged))
  end.

(** [bindActorId]: the mutated store and the returned flag. *)
Definition LoggingContext_bindActorId (current : option LogCorrelationContext) (actorId : string)
    : result LogContextError (bool * option LogCorrelationContext) :=
  let* _ := assertContextValue actorId "initiatorActorId" in
  match current with
  | None => Ok (false, None)
  | Some current =>
      reject ContextError when
        match current !! "correlationId" with
        | Some correlationId => String.prefix "legacy:" correlationId
        | None => false
        end in
      reject ContextError when
        match current !! "initiatorActorId" with
        | Some bound => negb (String.eqb bound "") && negb (String.eqb bound actorId)
        | None => false
        end in
      Ok (true, Some (<["initiatorActorId" := actorId]> current))
  end.

(** [clearActorId] *)
Definition LoggingContext_clearActorId (current : option LogCorrelationContext)
    : option LogCorrelationContext :=
  delete "initiatorActorId" <$> current.

(** ** Specification *)

Definition context_ok (c : LogCorrelationContext) : Prop :=
  is_Some (c !! "correlationId") /\
  (forall name v, c !! name = Some v -> name ∈ CONTEXT_KEYS /\ valid_context_value v name = true) /\
  (forall r, c !! "requestId" = Some r -> c !! "correlationId" = Some r) /\
  legacy_with_identifiers c = false.

(** One nested piece of work: an extension, or the authenticated actor bound. *)
Inductive nested_context (c : LogCorrelationContext) : LogCorrelationContext -> Prop :=
| nested_runWith extension c' :
    LoggingContext_runWith (Some c) extension = Ok c' -> nested_context c c'
| nested_bindActorId actorId bound c' :
    LoggingContext_bindActorId (Some c) actorId = Ok (bound, Some c') -> nested_context c c'.

(** ** Example values *)

Definition request_context_example : LogCorrelationContext :=
  {[ "correlationId" := "00000001-0000-4000-8000-000000000000" ]}.

Definition actor_context_example : LogCorrelationContext :=
  <["initiatorActorId" := "00000008-0000-4000-8000-000000000000"]> request_context_example.

(** ** Lemmas *)

Lemma read_context_key_ok ds c name c' :
  read_context_key ds c name = Ok c' <->
  (dataValue ds name = Ok VUndef /\ c' = c) \/
  (exists v, dataValue ds name = Ok (VStr v) /\ valid_context_value v name = true /\
     c' = <[name := v]> c).
Proof.
  unfold read_context_key, assertContextValue. split.
  - intros (v & Hv & H)%rbind_ok. destruct v; try discriminate; [left; by injection H as ->|].
    right. inv_ok. apply negb_false_iff in Hg. eauto.
  - intros [[-> ->]|(v & -> & Hv & ->)]; simpl; [done|]. by rewrite Hv.
Qed.

(** What the loop leaves in the record: each listed key that is set holds the
    valid string of the object, the rest of the record is unchanged. *)
Lemma read_context_keys_lookup ds names c c' k :
  read_context_keys ds names c = Ok c' ->
  (k ∉ names -> c' !! k = c !! k) /\
  (k ∈ names -> (exists v, c' !! k = Some v /\ valid_context_value v k = true /\
                           dataValue ds k = Ok (VStr v)) \/
                (c' !! k = c !! k /\ dataValue ds k = Ok VUndef)).
Proof.
  revert c. induction names as [|name names IH]; intros c; simpl.
  - intros [= ->]. split; [done|]. intros H. by apply not_elem_of_nil in H.
  - intros (c1 & H1 & H)%rbind_ok. apply read_context_key_ok in H1.
    destruct (IH _ H) as [Hout Hin]. split.
    + intros [Hne Hk]%not_elem_of_cons. rewrite Hout by done.
      destruct H1 as [[_ ->]|(v & _ & _ & ->)]; [done|]. by rewrite lookup_insert_ne.
    + intros Hk. destruct (decide (k ∈ names)) as [Hk'|Hk'].
      * destruct (Hin Hk') as [?|[E Hd]]; [by left|]. right. split; [|done]. rewrite E.
        destruct H1 as [[_ ->]|(v & Hv & _ & ->)]; [done|].
        destruct (decide (name = k)) as [->|]; [congruence | by rewrite lookup_insert_ne].
      * apply elem_of_cons in Hk as [->|?]; [|done]. rewrite Hout by done.
        destruct H1 as [[? ->]|(v & ? & ? & ->)]; [by right|]. left. exists v.
        by rewrite lookup_insert_eq.
Qed.

(** Reading succeeds on an object whose listed keys are valid or absent. *)
Lemma read_context_keys_total ds names c :
  Forall (fun k => dataValue ds k = Ok VUndef \/
            exists v, dataValue ds k = Ok (VStr v) /\ valid_context_value v k = true) names ->
  exists c', read_context_keys ds names c = Ok c'.
Proof.
  intros H. revert c. induction H as [|k names Hk _ IH]; intros c; simpl; [eauto|].
  destruct Hk as [Hk|(v & Hk & Hv)].
  - rewrite (proj2 (read_context_key_ok ds c k c)) by auto. apply IH.
  - rewrite (proj2 (read_context_key_ok ds c k (<[k:=v]> c))) by eauto. apply IH.
Qed.

Lemma validateContext_ok v c : validateContext v = Ok c -> context_ok c.
Proof.
  unfold validateContext. intros H. inv_ok.
  destruct r0 as [| | | | |root| | | | | |]; try discriminate. inv_ok. subst r1.
  unfold assertContextValue in Hr1. inv_ok. apply negb_false_iff in Hg1.
  pose proof (fun k => read_context_keys_lookup _ _ _ _ k Hr2) as Hk.
  assert (c !! "correlationId" = Some root) as Hroot.
  { rewrite (proj1 (Hk _)) by (apply (bool_decide_eq_true_1 _); reflexivity). apply lookup_singleton_eq. }
  split; [by rewrite Hroot|]. split; [|split; [|done]].
  - intros name s Hn. destruct (decide (name ∈ OPTIONAL_CONTEXT_KEYS)) as [Hin|Hin].
    + split; [by right|]. destruct (proj2 (Hk name) Hin) as [(s' & E & Hs & _)|[E _]].
      * rewrite Hn in E. by injection E as ->.
      * rewrite Hn in E. symmetry in E. apply lookup_singleton_Some in E as [<- <-]. done.
    + rewrite (proj1 (Hk _) Hin) in Hn. apply lookup_singleton_Some in Hn as [<- <-].
      split; [left | done].
  - intros req Er. rewrite Er in Hg. rewrite Hroot. bsimpl.
    by apply String.eqb_eq in Hg as ->.
Qed.

Lemma copy_keys_lookup (source target : LogCorrelationContext) k :
  (forall n v, source !! n = Some v -> n ∈ CONTEXT_KEYS) ->
  copy_keys source target !! k = match source !! k with Some v => Some v | None => target !! k end.
Proof.
  intros Hs. unfold copy_keys.
  assert (forall names, foldl (fun target name => match source !! name with
            | Some v => <[name := v]> target | None => target end) target names !! k =
          if decide (k ∈ names) then match source !! k with Some v => Some v | None => target !! k end
          else target !! k) as ->.
  { intros names. induction names as [|n names IH] using rev_ind; [done|].
    rewrite foldl_app. simpl. destruct (decide (n = k)) as [->|Hne].
    - rewrite decide_True by set_solver. destruct (source !! k) eqn:E; [by rewrite lookup_insert_eq|].
      rewrite IH. by destruct (decide _).
    - transitivity (foldl (fun target name => match source !! name with
            | Some v => <[name := v]> target | None => target end) target names !! k).
      + destruct (source !! n); [by rewrite lookup_insert_ne | done].
      + rewrite IH. destruct (decide (k ∈ names)), (decide (k ∈ names ++ [n])); set_solver. }
  destruct (decide _) as [|Hn]; [done|]. destruct (source !! k) eqn:E; [|done].
  destruct Hn. by eapply Hs.
Qed.

Lemma validateExtension_lookup v c n s :
  validateExtension v = Ok c -> c !! n = Some s ->
  n ∈ CONTEXT_KEYS /\ valid_context_value s n = true.
Proof.
  unfold validateExtension. intros H Hn. inv_ok.
  destruct (read_context_keys_lookup _ _ _ _ n H) as [Hout Hin].
  destruct (decide (n ∈ CONTEXT_KEYS)) as [Hk|Hk].
  - split; [done|]. destruct (Hin Hk) as [(s' & E & ? & _)|[E _]]; rewrite Hn in E; [congruence|].
    symmetry in E. by rewrite lookup_empty in E.
  - rewrite (Hout Hk) in Hn. by rewrite lookup_empty in Hn.
Qed.

(** The object with the listed identifiers that are set. *)
Lemma keyed_descriptor names (c : LogCorrelationContext) k :
  descriptor (omap (fun name => (fun v => (KStr name, DData (VStr v) true)) <$> c !! name) names) k
  = if decide (k ∈ names) then (fun v => DData (VStr v) true) <$> c !! k else None.
Proof.
  induction names as [|n names IH]; [done|]. cbn [omap list_omap].
  destruct (decide (n = k)) as [->|Hne].
  - rewrite decide_True by left. destruct (c !! k) as [v|] eqn:E; simpl; [by rewrite String.eqb_refl|].
    fold (omap (M:=list) (fun name => (fun v => (KStr name, DData (VStr v) true)) <$> c !! name) names).
    rewrite IH. by case_decide.
  - assert (k ∈ n :: names <-> k ∈ names) as Hk by (rewrite elem_of_cons; naive_solver).
    rewrite (decide_ext _ _ _ _ Hk). destruct (c !! n) as [v|]; simpl; [|exact IH].
    rewrite (proj2 (String.eqb_neq _ _)) by done. exact IH.
Qed.

Lemma context_object_descriptor (c : LogCorrelationContext) k :
  k ∈ CONTEXT_KEYS ->
  descriptor (omap (fun name => (fun v => (KStr name, DData (VStr v) true)) <$> c !! name)
                CONTEXT_KEYS) k = (fun v => DData (VStr v) true) <$> c !! k.
Proof. intros Hk. by rewrite keyed_descriptor, decide_True. Qed.

(** Reading back a stored context. *)
Lemma context_object_read (c c' : LogCorrelationContext) :
  validateContext (context_object c) = Ok c' ->
  (forall n v, c !! n = Some v -> n ∈ CONTEXT_KEYS) -> c' = c.
Proof.
  intros H Hc. unfold validateContext, contextDescriptors, context_object in H.
  cbn [plain_descriptors is_object is_array get_prototype_of own_property_descriptors
       negb or_throw rbind] in H.
  inv_ok. destruct r as [| | | | |root| | | | | |]; try discriminate. inv_ok. subst r0.
  pose proof (fun k => read_context_keys_lookup _ _ _ _ k Hr1) as Hk.
  assert (c !! "correlationId" = Some root) as Hroot.
  { unfold dataValue in Hr. rewrite context_object_descriptor in Hr by left.
    destruct (c !! "correlationId"); simpl in Hr; congruence. }
  apply map_eq. intros k. destruct (decide (k ∈ OPTIONAL_CONTEXT_KEYS)) as [Hin|Hin].
  - destruct (proj2 (Hk k) Hin) as [(v & -> & _ & E)|[-> E]]; unfold dataValue in E;
      rewrite context_object_descriptor in E by (by right); destruct (c !! k) eqn:Ek;
      simpl in E; try congruence.
    apply lookup_singleton_None. intros <-. congruence.
  - rewrite (proj1 (Hk k) Hin). destruct (decide (k = "correlationId")) as [->|Hne].
    + by rewrite lookup_singleton_eq.
    + rewrite lookup_singleton_ne by done. destruct (c !! k) eqn:Ek; [|done].
      apply Hc, elem_of_cons in Ek as [?|?]; done.
Qed.

Lemma replaces_identifier_false c e k v w :
  replaces_identifier c e = false -> k ∈ OPTIONAL_CONTEXT_KEYS ->
  e !! k = Some v -> c !! k = Some w -> v = w.
Proof.
  unfold replaces_identifier. rewrite <- not_true_iff_false, existsb_exists.
  intros H Hk Hv Hw. destruct (String.eqb_spec v w) as [|Hne]; [done|].
  destruct H. exists k. split; [by apply list_elem_of_In|].
  rewrite Hv, Hw. by apply negb_true_iff, String.eqb_neq.
Qed.

(** The context of the nested work: the current one and the extension. *)
Lemma runWith_lookup c extension c' :
  context_ok c -> LoggingContext_runWith (Some c) extension = Ok c' ->
  context_ok c' /\
  exists e, validateExtension extension = Ok e /\
    forall k, c' !! k = match e !! k with Some v => Some v | None => c !! k end /\
              (is_Some (c !! k) -> is_Some (e !! k) -> e !! k = c !! k).
Proof.
  intros ([root Hroot] & Hkeys & _) H. unfold LoggingContext_runWith in H. inv_ok.
  rename r into e. rename Hr into He. split.
  { destruct (root_correlation _ _); [by apply validateContext_ok in H | discriminate]. }
  exists e. split; [done|].
  pose proof (fun n s => validateExtension_lookup _ _ n s He) as Hext.
  assert (forall k, is_Some (c !! k) -> is_Some (e !! k) -> e !! k = c !! k) as Hsame.
  { intros k [w Hw] [v Hv]. destruct (Hkeys _ _ Hw) as [Hk _].
    apply elem_of_cons in Hk as [->|Hk].
    - rewrite Hv in Hg. apply negb_false_iff, bool_decide_eq_true in Hg. congruence.
    - rewrite Hv, Hw. f_equal. by eapply replaces_identifier_false. }
  intros k. split; [|apply Hsame].
  destruct (root_correlation _ _) as [cor|] eqn:Hcor; [|discriminate].
  assert (cor = root) as ->.
  { unfold root_correlation in Hcor. destruct (e !! "correlationId") as [v|] eqn:Ev; [|congruence].
    specialize (Hsame "correlationId" ltac:(by rewrite Hroot) ltac:(by eexists)). congruence. }
  assert (forall n v, c !! n = Some v -> n ∈ CONTEXT_KEYS) as Hc by (intros n v Hn; apply (Hkeys n v Hn)).
  assert (forall n v, e !! n = Some v -> n ∈ CONTEXT_KEYS) as Hek by (intros n v Hn; apply (Hext n v Hn)).
  assert (forall n, (<["correlationId":=root]> (copy_keys e (copy_keys c ∅)) : LogCorrelationContext) !! n
                    = match e !! n with Some v => Some v | None => c !! n end) as Hm.
  { intros n. destruct (decide (n = "correlationId")) as [->|Hne].
    - rewrite lookup_insert_eq. destruct (e !! "correlationId") as [v|] eqn:Ev; [|done].
      simpl in Hcor. congruence.
    - rewrite lookup_insert_ne, !copy_keys_lookup by done. rewrite lookup_empty.
      destruct (e !! n), (c !! n); done. }
  apply context_object_read in H as ->.
  - apply Hm.
  - intros n v Hn. rewrite Hm in Hn. destruct (e !! n) eqn:En; eauto.
Qed.

Lemma bindActorId_ok c actorId bound c' :
  context_ok c -> LoggingContext_bindActorId (Some c) actorId = Ok (bound, Some c') ->
  context_ok c' /\ c ⊆ c'.
Proof.
  intros ([root Hroot] & Hkeys & Hreq & Hleg) H. unfold LoggingContext_bindActorId, assertContextValue in H.
  inv_ok. subst. apply negb_false_iff in Hg1. rewrite Hroot in Hg. split.
  - split; [by rewrite lookup_insert_ne, Hroot|]. split; [|split].
    + intros n v. destruct (decide (n = "initiatorActorId")) as [->|Hne].
      * rewrite lookup_insert_eq. intros [= <-]. split; [|done]. by right; right; left.
      * rewrite lookup_insert_ne by done. apply Hkeys.
    + intros r'. rewrite !lookup_insert_ne by done. apply Hreq.
    + unfold legacy_with_identifiers. by rewrite lookup_insert_ne, Hroot, Hg.
  - apply map_subseteq_spec. intros k v Hk. destruct (decide (k = "initiatorActorId")) as [->|Hne];
      [|by rewrite lookup_insert_ne]. rewrite lookup_insert_eq, Hk in *. bsimpl.
    rewrite andb_false_iff, !negb_false_iff, !String.eqb_eq in Hg0.
    destruct Hg0 as [->| ->]; [|done]. apply Hkeys in Hk as [_ Hk]. discriminate.
Qed.

(** ** Properties *)

(** A nested logging context never loses or replaces an identifier: after
    any sequence of extensions and actor bindings every identifier that was
    set (the root correlation, the authenticated actor, ...) still has its
    value, and the context is still valid. *)
Theorem nested_context_extends c c' :
  context_ok c -> rtc nested_context c c' -> context_ok c' /\ c ⊆ c'.
Proof.
  intros Hc H. induction H as [c|c c1 c2 H _ IH]; [done|].
  assert (context_ok c1 /\ c ⊆ c1) as [H1 Hsub].
  { destruct H as [extension c1 H|actorId bound c1 H].
    - apply runWith_lookup in H as [? (e & _ & Hl)]; [|done]. split; [done|].
      apply map_subseteq_spec. intros k v Hk. destruct (Hl k) as [-> Hsame].
      destruct (e !! k); [|done]. rewrite <- Hk. by apply Hsame; eexists.
    - by apply bindActorId_ok in H. }
  destruct (IH H1) as [? ?]. split; [done|]. by etrans.
Qed.

Lemma nested_context_extends_witness :
  context_ok actor_context_example /\ request_context_example ⊆ actor_context_example.
Proof.
  apply (nested_context_extends request_context_example actor_context_example).
  - apply (validateContext_ok (context_object request_context_example)). vm_compute. reflexivity.
  - apply rtc_once, (nested_bindActorId _ "00000008-0000-4000-8000-000000000000" true).
    vm_compute. reflexivity.
Defined.
