(* ===== verification/LedgerCapability.v ===== *)
(** * Ledger capabilities (apps/api/src/ledger/application/ledger-capability-resolver.port.ts)

    A capability is an empty frozen object whose bearer value and purpose live
    in two module-private [WeakMap]s.  The state is the heap of objects other
    code can see and the two maps; identities are natural numbers. *)

From stdpp Require Import base list strings gmap.
From Stdlib Require Import ZArith Lia.
From S2P Require Import Prelude Text JsValue.

(** ** State *)

Inductive LedgerCapabilityPurpose : Type := POST | REVERSE.

#[export] Instance purpose_eq_dec : EqDecision LedgerCapabilityPurpose.
Proof. solve_decision. Defined.

(** What reflection sees of an object: [None] is a proxy that throws. *)
Record js_shape : Type := {
  shape_null_prototype : option bool;
  shape_frozen : option bool;
  shape_own_keys : option nat;
}.

Record capability_state : Type := {
  objects : gmap nat js_shape;
  capabilityValues : gmap nat string;
  capabilityPurposes : gmap nat LedgerCapabilityPurpose;
}.

(** [LedgerCapabilityError] *)
Notation capability_result := (result unit).

Definition CAPABILITY_PATTERN (s : string) : bool := HEX64_PATTERN s.

(** ** Operations *)

(** [Object.freeze(Object.create(null))] *)
Definition frozen_null_object : js_shape :=
  {| shape_null_prototype := Some true; shape_frozen := Some true; shape_own_keys := Some 0%nat |}.

Definition createLedgerCapability (purpose : LedgerCapabilityPurpose) (value : jsval)
    (s : capability_state) : capability_result (nat * capability_state) :=
  match value with
  | VStr v =>
      if negb (CAPABILITY_PATTERN v) then Err tt
      else
        let capability := fresh (dom (objects s)) in
        Ok (capability,
            {| objects := <[capability := frozen_null_object]> (objects s);
               capabilityValues := <[capability := v]> (capabilityValues s);
               capabilityPurposes := <[capability := purpose]> (capabilityPurposes s) |})
  | _ => Err tt
  end.

(** [None] is a capability that is not an object. *)
Definition revealLedgerCapability (capability : option nat)
    (expectedPurpose : LedgerCapabilityPurpose) (s : capability_state)
    : capability_result string :=
  match capability with
  | None => Err tt
  | Some id =>
      match objects s !! id with
      | None => Err tt
      | Some o =>
          let* null_prototype := or_throw (shape_null_prototype o) tt in
          reject tt when negb null_prototype in
          let* frozen := or_throw (shape_frozen o) tt in
          reject tt when negb frozen in
          let* own_keys := or_throw (shape_own_keys o) tt in
          reject tt when negb (Nat.eqb own_keys 0) in
          reject tt when negb (bool_decide (capabilityPurposes s !! id = Some expectedPurpose)) in
          or_throw (capabilityValues s !! id) tt
      end
  end.

(** ** Specification *)

Definition initial_state : capability_state :=
  {| objects := ∅; capabilityValues := ∅; capabilityPurposes := ∅ |}.

(** A capability that was handed out. *)
Record issued : Type := {
  issued_id : nat;
  issued_purpose : LedgerCapabilityPurpose;
  issued_value : string;
}.

(** The runs of a program that contains this module: capabilities are issued,
    other code allocates any objects, and changes any object that is not
    frozen; the two maps are not exported. *)
Inductive capability_run : list issued -> capability_state -> Prop :=
| run_init : capability_run [] initial_state
| run_issue log s purpose value v id s' :
    capability_run log s ->
    value = VStr v -> createLedgerCapability purpose value s = Ok (id, s') ->
    capability_run ({| issued_id := id; issued_purpose := purpose; issued_value := v |} :: log) s'
| run_object log s id o :
    capability_run log s ->
    match objects s !! id with
    | None => True
    | Some o' => shape_frozen o' <> Some true
    end ->
    capability_run log
      {| objects := <[id := o]> (objects s); capabilityValues := capabilityValues s;
         capabilityPurposes := capabilityPurposes s |}.

(** The state agrees with what was issued. *)
Definition agrees (log : list issued) (s : capability_state) : Prop :=
  (forall i, i ∈ log -> objects s !! issued_id i = Some frozen_null_object) /\
  (forall id p v, capabilityPurposes s !! id = Some p /\ capabilityValues s !! id = Some v <->
     {| issued_id := id; issued_purpose := p; issued_value := v |} ∈ log).

(** ** Lemmas *)

Lemma createLedgerCapability_ok purpose value s id s' :
  createLedgerCapability purpose value s = Ok (id, s') <->
  exists v, value = VStr v /\ CAPABILITY_PATTERN v = true /\ id = fresh (dom (objects s)) /\
    s' = {| objects := <[id := frozen_null_object]> (objects s);
            capabilityValues := <[id := v]> (capabilityValues s);
            capabilityPurposes := <[id := purpose]> (capabilityPurposes s) |}.
Proof.
  unfold createLedgerCapability. split.
  - destruct value as [| | | | |v| | | | | |]; try discriminate.
    destruct (CAPABILITY_PATTERN v) eqn:E; [|discriminate]. intros [= <- <-]. eauto.
  - by intros (v & -> & -> & -> & ->).
Qed.

Lemma fresh_object (m : gmap nat js_shape) : m !! fresh (dom m) = None.
Proof. apply not_elem_of_dom, is_fresh. Qed.

Lemma run_agrees log s : capability_run log s -> agrees log s.
Proof.
  induction 1 as [|log s purpose value v id s' _ [Ho Hm] -> H|log s id o _ [Ho Hm] Hf].
  - split.
    + intros i Hi. by apply not_elem_of_nil in Hi.
    + intros id p v. cbn. rewrite !lookup_empty. split; [by intros [? _]|].
      intros Hi. by apply not_elem_of_nil in Hi.
  - apply createLedgerCapability_ok in H as (v' & [= <-] & _ & -> & ->).
    assert (forall i, i ∈ log -> issued_id i <> fresh (dom (objects s))) as Hne.
    { intros i Hi E. apply Ho in Hi. by rewrite E, fresh_object in Hi. }
    split; cbn.
    + intros i [->|Hi]%elem_of_cons; cbn; [by rewrite lookup_insert_eq|].
      rewrite lookup_insert_ne by (intros E; by apply (Hne i Hi)). by apply Ho.
    + intros id p w. rewrite elem_of_cons, <- Hm.
      destruct (decide (id = fresh (dom (objects s)))) as [->|E].
      * rewrite !lookup_insert_eq. split; [intros [[= ->] [= ->]]; by left|].
        intros [[= -> ->]|Hi]; [done|]. apply Hm in Hi. by destruct (Hne _ Hi).
      * rewrite !lookup_insert_ne by done. split; [by right|]. intros [[= -> _ _]|?]; done.
  - split; cbn; [|done]. intros i Hi. rewrite lookup_insert_ne; [by apply Ho|].
    intros ->. apply Ho in Hi. rewrite Hi in Hf. by apply Hf.
Qed.

Lemma reveal_ok id p s v :
  revealLedgerCapability (Some id) p s = Ok v <->
  objects s !! id = Some frozen_null_object /\ capabilityPurposes s !! id = Some p /\
  capabilityValues s !! id = Some v.
Proof.
  unfold revealLedgerCapability. split.
  - destruct (objects s !! id) as [[o1 o2 o3]|]; [|discriminate]. intros H. cbn in H. inv_ok. subst.
    apply negb_false_iff in Hg, Hg0, Hg1, Hg2. subst. apply Nat.eqb_eq in Hg1 as ->.
    apply bool_decide_eq_true in Hg2. done.
  - intros (-> & Hp & Hv). cbn. by rewrite bool_decide_eq_true_2, Hv.
Qed.

(** ** Properties *)

(** Capabilities are unforgeable and bound to their purpose: in any run of
    the surrounding program, revealing a value for a purpose succeeds exactly
    for an object this module issued for that purpose, with exactly the value
    it was issued for, and fails for every other object. *)
Theorem capability_reveals_issued log s id p v :
  capability_run log s ->
  revealLedgerCapability (Some id) p s = Ok v <->
  {| issued_id := id; issued_purpose := p; issued_value := v |} ∈ log.
Proof.
  intros [Ho Hm]%run_agrees. rewrite reveal_ok, <- Hm. split; [tauto|].
  intros H. split; [|done]. apply (Ho {| issued_id := id; issued_purpose := p; issued_value := v |}).
  by apply Hm.
Qed.

Lemma capability_reveals_issued_witness :
  exists log s id,
    capability_run log s /\
    revealLedgerCapability (Some id) POST s
      = Ok "00000000000000000000000000000000000000000000000000000000000000ff" /\
    revealLedgerCapability (Some id) REVERSE s
      <> Ok "00000000000000000000000000000000000000000000000000000000000000ff".
Proof.
  set (v := "00000000000000000000000000000000000000000000000000000000000000ff").
  destruct (createLedgerCapability POST (VStr v) initial_state) as [[id s]|] eqn:E;
    [|vm_compute in E; discriminate].
  assert (capability_run [{| issued_id := id; issued_purpose := POST; issued_value := v |}] s) as Hr
    by (eapply run_issue; [constructor | reflexivity | exact E]).
  exists [{| issued_id := id; issued_purpose := POST; issued_value := v |}], s, id.
  split; [exact Hr|]. split; [apply (capability_reveals_issued _ _ _ _ _ Hr); left|].
  intros H. apply (capability_reveals_issued _ _ _ _ _ Hr) in H.
  apply list_elem_of_singleton in H. discriminate.
Defined.
