(* ===== verification/LedgerPorts.v ===== *)
(** * Ledger ports (apps/api/src/ledger/application/ledger.repository.port.ts,
    ledger-actor-resolver.port.ts, ledger-capability-resolver.port.ts)

    The calls the ledger application makes to the outside, what it throws, and
    the repository interface its service is written against. *)

From stdpp Require Import base list strings gmap.
From Stdlib Require Import ZArith Lia.
From S2P Require Import Prelude Text JsValue Effects Ledger LedgerLifecycle LedgerIdempotency.
From S2P Require Import LedgerCapability LogContext.

(** ** Exceptions *)

Inductive ledger_exception : Type :=
| LedgerValidationError (code : LedgerValidationCode)
| LedgerLifecycleError (code : LedgerLifecycleValidationCode)
| LedgerIdempotencyFailure (code : LedgerIdempotencyErrorCode)
| LedgerPersistenceError
| LedgerCommandContextError
| LedgerCapabilityError
| LoggingError (e : LogContextError)
| TypeErrorThrown
| Rejected (error : jsval).  (** thrown by a call, with the error value *)

Definition lifecycle_exception (e : LifecycleException) : ledger_exception :=
  match e with
  | LedgerLifecycleValidationError code => LedgerLifecycleError code
  | LifecycleLedgerError code => LedgerValidationError code
  end.

Definition idempotency_exception (e : IdempotencyException) : ledger_exception :=
  match e with
  | LedgerIdempotencyError code => LedgerIdempotencyFailure code
  | IdempotencyLedgerError code => LedgerValidationError code
  end.

(** ** Requests *)

Record LedgerPostingCapabilityRequest : Type := {
  pcr_actorAccountId : string;
  pcr_bookId : string;
  pcr_transactionId : string;
  pcr_legId : string;
  pcr_economicEventType : EconomicEventType;
  pcr_reason : PostLedgerReasonCode;
}.

Record LedgerReversalCapabilityRequest : Type := {
  rcr_actorAccountId : string;
  rcr_originalJournalId : string;
  rcr_reason : ReversalLedgerReasonCode;
}.

(** What a resolver returns: a falsy value, an object, or some other value. *)
Inductive resolved_capability : Type :=
| NoCapability
| NotAnObject
| CapabilityObject (id : nat).

Definition capability_ref (c : resolved_capability) : option nat :=
  match c with
  | CapabilityObject id => Some id
  | _ => None
  end.

(** The job written to the outbox with a journal. *)
Record EnqueueJobRequest : Type := {
  job_id : string;
  job_kind : string;
  job_version : Z;
  job_payload_journalId : string;
  job_payload_operation : LedgerIdempotencyOperation;
  job_link_commandId : string;
  job_link_journalId : string;
}.

(** The SQL functions called, with their parameters. *)
Inductive ledger_sql : Type :=
| resolve_ledger_command_idempotency (context : LedgerIdempotencyContext)
| claim_ledger_command_idempotency (context : LedgerIdempotencyContext)
| post_ledger_journal_with_lifecycle (capability : string) (command : PostLedgerJournalCommand)
    (serializedPostings : string)
| reverse_ledger_journal_with_lifecycle (capability : string)
    (command : ReverseLedgerJournalCommand)
| complete_ledger_command_idempotency (commandId journalId outboxId : string)
| transition_ledger_transaction_state (command : LedgerLifecycleTransitionCommand)
| transition_ledger_leg_state (command : LedgerLifecycleTransitionCommand) (legId : string)
| transition_ledger_recovery_state (command : LedgerRecoveryTransitionCommand).

Inductive ObservabilityQuoteState : Type :=
| QUOTE_CREATED_STATE | AVAILABLE | SELECTED | EXPIRED | REJECTED | QUOTE_FAILED.

(** ** Calls *)

Inductive ledger_call : Type :=
| ResolveActor
| ResolvePosting (request : LedgerPostingCapabilityRequest)
| ResolveReversal (request : LedgerReversalCapabilityRequest)
| PgConnect | PgBegin | PgCommit | PgRollback | PgRelease
| PgQuery (statement : ledger_sql)
| EnqueueJob (log : LogCorrelationContext) (request : EnqueueJobRequest)
| StartSpan
| EndSpan (success : bool)
| RecordExecutionState (state : LedgerLifecycleState)
| RecordQuoteState (state : ObservabilityQuoteState)
| EmitTransitioned (leg : bool) (state : LedgerLifecycleState)
    (reason : LedgerLifecycleReasonCode).

(** The answers: rows of a query, the id of an enqueued envelope, ... *)
Definition ledger_answer (c : ledger_call) : Type :=
  match c with
  | ResolveActor => jsval
  | ResolvePosting _ | ResolveReversal _ => resolved_capability
  | PgQuery _ => list jsval
  | EnqueueJob _ _ => string
  | _ => unit
  end.

Notation ledger_io := (io ledger_answer ledger_exception).
Notation ledger_event := (event ledger_answer ledger_exception).

(** A pure computation inside an [async] function. *)
Definition sync {E A} (f : E -> ledger_exception) (m : result E A) : ledger_io A :=
  Done (rlift f m).

(** Calls to the database and the outbox, the only ones of a repository. *)
Definition persistence_call (c : ledger_call) : Prop :=
  match c with
  | PgConnect | PgBegin | PgCommit | PgRollback | PgRelease | PgQuery _ | EnqueueJob _ _ => True
  | _ => False
  end.

(** ** The repository interface *)

Class LedgerRepository : Type := {
  resolveIdempotency : LedgerIdempotencyContext -> ledger_io (option string);
  postJournal : option LogCorrelationContext -> PostLedgerJournalCommand -> resolved_capability ->
    LedgerIdempotencyContext -> ledger_io string;
  reverseJournal : option LogCorrelationContext -> ReverseLedgerJournalCommand ->
    resolved_capability -> LedgerIdempotencyContext -> ledger_io string;
  transitionLifecycle : LedgerLifecycleTransitionCommand -> ledger_io unit;
  transitionRecovery : LedgerRecoveryTransitionCommand -> ledger_io unit;
}.

(** What the service relies on: a repository only talks to persistence. *)
Class LedgerRepositoryLaws (R : LedgerRepository) : Prop := {
  resolveIdempotency_calls c : only_calls persistence_call (resolveIdempotency c);
  postJournal_calls log m cap c : only_calls persistence_call (postJournal log m cap c);
  reverseJournal_calls log m cap c : only_calls persistence_call (reverseJournal log m cap c);
  transitionLifecycle_calls m : only_calls persistence_call (transitionLifecycle m);
  transitionRecovery_calls m : only_calls persistence_call (transitionRecovery m);
}.

#[export] Hint Resolve resolveIdempotency_calls postJournal_calls reverseJournal_calls
  transitionLifecycle_calls transitionRecovery_calls : lending.

Lemma only_calls_sync {E A} P (f : E -> ledger_exception) (m : result E A) :
  only_calls P (sync f m).
Proof. apply only_calls_done. Qed.

#[export] Hint Resolve only_calls_sync : lending.

Lemma executes_sync {E A} (f : E -> ledger_exception) (m : result E A) t r :
  executes (sync f m) t r <-> t = [] /\ r = rlift f m.
Proof. done. Qed.
