(* ===== verification/PostgresLedger.v ===== *)
(** * The PostgreSQL ledger repository
    (apps/api/src/ledger/infrastructure/postgres-ledger.repository.ts and
    [withTransaction] of apps/api/src/infrastructure/database/postgres.service.ts)

    Commands are re-validated, then one transaction claims the idempotency
    key, posts, writes the outbox job and completes the claim. *)

From stdpp Require Import base list strings gmap.
From Stdlib Require Import ZArith Lia Ascii.
From S2P Require Import Prelude Text JsValue Effects Ledger LedgerLifecycle LedgerIdempotency.
From S2P Require Import LedgerCapability LogContext LedgerPorts.

Open Scope Z_scope.

(** ** PostgresService.withTransaction *)

(** [try { m } finally { fin }] *)
Definition io_finally {A} (m : ledger_io A) (fin : ledger_io unit) : ledger_io A :=
  await* r := io_try (await* a := m in Done (Ok (Ok a))) (fun e => Done (Ok (Err e))) in
  await* _ := fin in
  Done r.

(** [throw error] after reading [error.code], which throws itself when there
    is no object to read from; with the default options no attempt is
    repeated, whatever the code. *)
Definition rethrow_after_rollback {A} (e : ledger_exception) : ledger_io A :=
  match e with
  | Rejected VUndef | Rejected VNull | Rejected VRevoked => Done (Err TypeErrorThrown)
  | _ => Done (Err e)
  end.

(** With the default options; [active]: called inside a transaction, which the
    work then joins. *)
Definition withTransaction {A} (active : bool) (work : ledger_io A) : ledger_io A :=
  if active then work
  else
    await* _ := call PgConnect in
    io_finally
      (await* _ := call PgBegin in
       io_try (await* r := work in await* _ := call PgCommit in Done (Ok r))
         (fun e => await* _ := call PgRollback in rethrow_after_rollback e))
      (call PgRelease).

(** ** Rows *)

Definition MAX_SERIALIZED_POSTINGS_BYTES : Z := 32768.
Definition ILLEGAL_LIFECYCLE_SQL_STATE : string := "L4201".
Definition IDEMPOTENCY_CONFLICT_SQL_STATE : string := "L4301".

Inductive claim_outcome : Type := CLAIMED | REPLAYED.

#[export] Program Instance CLAIM_OUTCOMES : JsEnum claim_outcome := {
  enum_values := [CLAIMED; REPLAYED];
  enum_str := fun o => match o with CLAIMED => "CLAIMED" | REPLAYED => "REPLAYED" end;
}.
Next Obligation. solve_enum_all. Qed.
Next Obligation. solve_enum_inj. Qed.

Record IdempotencyClaim : Type := {
  claim_commandId : string;
  claim_journalId : option string;
  claim_outboxId : string;
  claim_outcome_ : claim_outcome;
}.

Definition quote : string := String (Ascii.ascii_of_nat 34) "".

(** One posting in the JSON text; the template puts no spaces. *)
Definition serialize_posting (p : LedgerPosting) : string :=
  "{" +:+ quote +:+ "accountId" +:+ quote +:+ ":" +:+ quote +:+ accountId p +:+ quote
  +:+ "," +:+ quote +:+ "assetRevisionId" +:+ quote +:+ ":" +:+ quote +:+ assetRevisionId p +:+ quote
  +:+ "," +:+ quote +:+ "side" +:+ quote +:+ ":" +:+ quote +:+ enum_str (side p) +:+ quote
  +:+ "," +:+ quote +:+ "amountAtomic" +:+ quote +:+ ":" +:+ quote +:+ amountAtomic p +:+ quote
  +:+ "}".

Definition serializeProjectedPostings (ps : list LedgerPosting) : result ledger_exception string :=
  let serialized := "[" +:+ String.concat "," (serialize_posting <$> ps) +:+ "]" in
  let serializedBytes := utf8_bytes serialized in
  reject LedgerPersistenceError
    when (serializedBytes <? 2) || (MAX_SERIALIZED_POSTINGS_BYTES <? serializedBytes) in
  Ok serialized.

Definition returnedJournalId (rows : list jsval) : result ledger_exception string :=
  match rows with
  | [row] =>
      let* record := or_throw (exact_data_record ["journal_id"] row) LedgerPersistenceError in
      rlift LedgerValidationError (parseLedgerJournalId (record .: "journal_id"))
  | _ => Err LedgerPersistenceError
  end.

Definition assertReturnedLifecycleEvent (rows : list jsval) : result ledger_exception unit :=
  match rows with
  | [row] =>
      reject LedgerPersistenceError when negb (is_object row) in
      let* array := or_throw (is_array row) LedgerPersistenceError in
      reject LedgerPersistenceError when array in
      let* descriptors := or_throw (own_property_descriptors row) LedgerPersistenceError in
      reject LedgerPersistenceError
        when negb (length descriptors =? 1)%nat
             || existsb (fun kd => negb (key_in ["event_id"] kd.1)) descriptors in
      match data_property descriptors "event_id" with
      | Some (VStr s) => reject LedgerPersistenceError when negb (UUID_V4_PATTERN s) in Ok tt
      | _ => Err LedgerPersistenceError
      end
  | _ => Err LedgerPersistenceError
  end.

Definition optionalJournalId (rows : list jsval) : result ledger_exception (option string) :=
  reject LedgerPersistenceError when (1 <? length rows)%nat in
  match rows with
  | [] => Ok None
  | _ => rmap Some (returnedJournalId rows)
  end.

(** [typeof value === 'string' && UUID_V4_PATTERN.test(value)] *)
Definition uuid_string (value : jsval) : option string :=
  match value with
  | VStr s => if UUID_V4_PATTERN s then Some s else None
  | _ => None
  end.

Definition is_string (value : jsval) : bool :=
  match value with
  | VStr _ => true
  | _ => false
  end.

Definition returnedIdempotencyClaim (rows : list jsval) : result ledger_exception IdempotencyClaim :=
  match rows with
  | [row] =>
      let* record := or_throw
        (exact_data_record ["command_id"; "journal_id"; "outbox_id"; "outcome"] row)
        LedgerPersistenceError in
      let* commandId := or_throw (uuid_string (record .: "command_id")) LedgerPersistenceError in
      let* outboxId := or_throw (uuid_string (record .: "outbox_id")) LedgerPersistenceError in
      let* outcome := or_throw (enum_member enum_values (record .: "outcome"))
                        LedgerPersistenceError in
      reject LedgerPersistenceError
        when match outcome with
             | CLAIMED => negb (is_null (record .: "journal_id"))
             | REPLAYED => negb (is_string (record .: "journal_id"))
             end in
      let* journalId :=
        if is_null (record .: "journal_id") then Ok None
        else rmap Some (rlift LedgerValidationError (parseLedgerJournalId (record .: "journal_id"))) in
      Ok {| claim_commandId := commandId; claim_journalId := journalId;
            claim_outboxId := outboxId; claim_outcome_ := outcome |}
  | _ => Err LedgerPersistenceError
  end.

(** ** Errors *)

(** The string [code] of an error value; the application's own errors carry
    codes too, none of them a SQL state. *)
Definition postgresErrorCode (e : ledger_exception) : option string :=
  match e with
  | Rejected v =>
      if negb (is_object v) then None
      else match own_property_descriptors v with
           | Some ds => match descriptor ds "code" with
                        | Some (DData (VStr s) _) => Some s
                        | _ => None
                        end
           | None => None
           end
  | _ => None
  end.

Definition persistenceError {A} (e : ledger_exception) : ledger_io A :=
  if bool_decide (postgresErrorCode e = Some ILLEGAL_LIFECYCLE_SQL_STATE)
  then Done (Err (LedgerLifecycleError ILLEGAL_LIFECYCLE_TRANSITION))
  else if bool_decide (postgresErrorCode e = Some IDEMPOTENCY_CONFLICT_SQL_STATE)
  then Done (Err (LedgerIdempotencyFailure IDEMPOTENCY_CONFLICT))
  else Done (Err LedgerPersistenceError).

(** ** Operations *)

Definition claimIdempotency (context : LedgerIdempotencyContext) : ledger_io IdempotencyClaim :=
  await* rows := call (PgQuery (claim_ledger_command_idempotency context)) in
  Done (returnedIdempotencyClaim rows).

(** The active context must be the command's own: same root correlation and,
    if an actor is bound, the same actor. *)
Definition foreign_context (active : LogCorrelationContext) (correlationId actorAccountId : string)
    : bool :=
  negb (bool_decide (active !! "correlationId" = Some correlationId))
  || match active !! "initiatorActorId" with
     | Some actor => negb (String.eqb actor actorAccountId)
     | None => false
     end.

(** The context the job is enqueued under. *)
Definition enqueue_context (log : option LogCorrelationContext)
    (correlationId actorAccountId journalId : string)
    : result LogContextError LogCorrelationContext :=
  match log with
  | Some active =>
      LoggingContext_runWith (Some active) (js_object
        [("initiatorActorId", VStr actorAccountId); ("ledgerEventId", VStr journalId)])
  | None =>
      LoggingContext_run (js_object
        [("correlationId", VStr correlationId); ("initiatorActorId", VStr actorAccountId);
         ("ledgerEventId", VStr journalId)])
  end.

Definition enqueue_request (claim : IdempotencyClaim) (journalId : string)
    (operation : LedgerIdempotencyOperation) : EnqueueJobRequest :=
  {| job_id := claim_outboxId claim; job_kind := "ledger.journal-committed"; job_version := 1;
     job_payload_journalId := journalId; job_payload_operation := operation;
     job_link_commandId := claim_commandId claim; job_link_journalId := journalId |}.

Definition publishAndComplete (log : option LogCorrelationContext) (claim : IdempotencyClaim)
    (journalId : string) (operation : LedgerIdempotencyOperation)
    (correlationId actorAccountId : string) : ledger_io unit :=
  if negb (bool_decide (claim_outcome_ claim = CLAIMED))
     || negb (bool_decide (claim_journalId claim = None))
  then Done (Err LedgerPersistenceError)
  else if match log with
          | Some active => foreign_context active correlationId actorAccountId
          | None => false
          end
  then Done (Err LedgerPersistenceError)
  else
    await* context := sync LoggingError (enqueue_context log correlationId actorAccountId journalId) in
    await* envelopeId := call (EnqueueJob context (enqueue_request claim journalId operation)) in
    if negb (String.eqb envelopeId (claim_outboxId claim)) then Done (Err LedgerPersistenceError)
    else
      await* rows := call (PgQuery (complete_ledger_command_idempotency (claim_commandId claim)
                                      journalId (claim_outboxId claim))) in
      await* completed := Done (returnedJournalId rows) in
      if negb (String.eqb completed journalId) then Done (Err LedgerPersistenceError)
      else Done (Ok tt).

(** The transactional body shared by the two journal commands: claim, then
    replay, or reveal the capability, post, publish and complete. *)
Definition claimed_journal (log : option LogCorrelationContext) (caps : capability_state)
    (purpose : LedgerCapabilityPurpose) (capability : resolved_capability)
    (idempotency : LedgerIdempotencyContext) (correlationId : string)
    (statement : string -> ledger_sql) : ledger_io string :=
  await* claim := claimIdempotency idempotency in
  match claim_outcome_ claim with
  | REPLAYED =>
      match claim_journalId claim with
      | None => Done (Err LedgerPersistenceError)
      | Some journalId => Done (Ok journalId)
      end
  | CLAIMED =>
      await* capabilityValue := sync (fun _ => LedgerCapabilityError)
        (revealLedgerCapability (capability_ref capability) purpose caps) in
      await* rows := call (PgQuery (statement capabilityValue)) in
      await* journalId := Done (returnedJournalId rows) in
      await* _ := publishAndComplete log claim journalId (ctx_operation idempotency)
                    correlationId (ctx_actorAccountId idempotency) in
      Done (Ok journalId)
  end.

Section repository.
(** The capability module's state, and whether the request already runs in a
    transaction. *)
Variable caps : capability_state.
Variable active : bool.

Definition pg_resolveIdempotency (context : LedgerIdempotencyContext) : ledger_io (option string) :=
  io_try
    (await* normalized := sync idempotency_exception
       (normalizeLedgerIdempotencyContext (context_js context)) in
     await* rows := call (PgQuery (resolve_ledger_command_idempotency normalized)) in
     Done (optionalJournalId rows))
    persistenceError.

(** Inside the [try]. *)
Definition post_body (log : option LogCorrelationContext) (command : PostLedgerJournalCommand)
    (capability : resolved_capability) (idempotency : LedgerIdempotencyContext) : ledger_io string :=
  await* normalized := sync LedgerValidationError (normalizePostLedgerJournalCommand
    (post_command_js (correlationId command) (post_journal command))) in
  await* normalizedIdempotency := sync idempotency_exception
    (normalizeLedgerIdempotencyContext (context_js idempotency)) in
  if negb (bool_decide (ctx_operation normalizedIdempotency = POST_JOURNAL))
  then Done (Err LedgerPersistenceError)
  else
    await* serializedPostings := sync id
      (serializeProjectedPostings (postings (post_journal normalized))) in
    withTransaction active
      (claimed_journal log caps POST capability normalizedIdempotency
         (correlationId normalized)
         (fun value => post_ledger_journal_with_lifecycle value normalized serializedPostings)).

Definition pg_postJournal (log : option LogCorrelationContext) (command : PostLedgerJournalCommand)
    (capability : resolved_capability) (idempotency : LedgerIdempotencyContext) : ledger_io string :=
  io_try (post_body log command capability idempotency) persistenceError.

(** Inside the [try]. *)
Definition reverse_body (log : option LogCorrelationContext)
    (command : ReverseLedgerJournalCommand) (capability : resolved_capability)
    (idempotency : LedgerIdempotencyContext) : ledger_io string :=
  await* normalized := sync LedgerValidationError (normalizeReverseLedgerJournalCommand
    (reverse_command_js (rev_correlationId command) (rev_journal command))) in
  await* normalizedIdempotency := sync idempotency_exception
    (normalizeLedgerIdempotencyContext (context_js idempotency)) in
  if negb (bool_decide (ctx_operation normalizedIdempotency = REVERSE_JOURNAL))
  then Done (Err LedgerPersistenceError)
  else
    withTransaction active
      (claimed_journal log caps REVERSE capability normalizedIdempotency
         (rev_correlationId normalized)
         (fun value => reverse_ledger_journal_with_lifecycle value normalized)).

Definition pg_reverseJournal (log : option LogCorrelationContext)
    (command : ReverseLedgerJournalCommand) (capability : resolved_capability)
    (idempotency : LedgerIdempotencyContext) : ledger_io string :=
  io_try (reverse_body log command capability idempotency) persistenceError.

Definition pg_transitionLifecycle (command : LedgerLifecycleTransitionCommand) : ledger_io unit :=
  io_try
    (await* normalized := sync lifecycle_exception (normalizeLedgerLifecycleTransitionCommand
       (transition_command_js (ltc_actorAccountId command) (ltc_correlationId command)
          (ltc_transition command))) in
     await* rows := call (PgQuery (match lt_legId (ltc_transition normalized) with
                                   | None => transition_ledger_transaction_state normalized
                                   | Some legId => transition_ledger_leg_state normalized legId
                                   end)) in
     Done (assertReturnedLifecycleEvent rows))
    persistenceError.

Definition pg_transitionRecovery (command : LedgerRecoveryTransitionCommand) : ledger_io unit :=
  io_try
    (await* normalized := sync lifecycle_exception (normalizeLedgerRecoveryTransitionCommand
       (recovery_command_js (rtc_actorAccountId command) (rtc_correlationId command)
          (rtc_transition command))) in
     await* rows := call (PgQuery (transition_ledger_recovery_state normalized)) in
     Done (assertReturnedLifecycleEvent rows))
    persistenceError.

#[export] Instance PostgresLedgerRepository : LedgerRepository := {
  resolveIdempotency := pg_resolveIdempotency;
  postJournal := pg_postJournal;
  reverseJournal := pg_reverseJournal;
  transitionLifecycle := pg_transitionLifecycle;
  transitionRecovery := pg_transitionRecovery;
}.
End repository.

(** ** Specification *)

(** The body of a successful transaction: a replay of the claimed journal, or
    the journal posted, its job enqueued and the claim completed. *)
Inductive journal_body (log : option LogCorrelationContext) (caps : capability_state)
    (purpose : LedgerCapabilityPurpose) (capability : resolved_capability)
    (idempotency : LedgerIdempotencyContext) (correlation : string)
    (statement : string -> ledger_sql) (journalId : string) : list ledger_event -> Prop :=
| body_replayed rows claim :
    returnedIdempotencyClaim rows = Ok claim ->
    claim_outcome_ claim = REPLAYED -> claim_journalId claim = Some journalId ->
    journal_body log caps purpose capability idempotency correlation statement journalId
      [Event (PgQuery (claim_ledger_command_idempotency idempotency)) (Ok rows)]
| body_posted rows claim value posted context completed :
    returnedIdempotencyClaim rows = Ok claim ->
    claim_outcome_ claim = CLAIMED -> claim_journalId claim = None ->
    revealLedgerCapability (capability_ref capability) purpose caps = Ok value ->
    returnedJournalId posted = Ok journalId ->
    match log with
    | Some active => foreign_context active correlation (ctx_actorAccountId idempotency) = false
    | None => True
    end ->
    enqueue_context log correlation (ctx_actorAccountId idempotency) journalId = Ok context ->
    returnedJournalId completed = Ok journalId ->
    journal_body log caps purpose capability idempotency correlation statement journalId
      [Event (PgQuery (claim_ledger_command_idempotency idempotency)) (Ok rows);
       Event (PgQuery (statement value)) (Ok posted);
       Event (EnqueueJob context (enqueue_request claim journalId (ctx_operation idempotency)))
         (Ok (claim_outboxId claim));
       Event (PgQuery (complete_ledger_command_idempotency (claim_commandId claim) journalId
                         (claim_outboxId claim))) (Ok completed)].

(** A committed transaction around the calls [t]. *)
Definition committed (t : list ledger_event) : list ledger_event :=
  [Event PgConnect (Ok tt); Event PgBegin (Ok tt)] ++ t
  ++ [Event PgCommit (Ok tt); Event PgRelease (Ok tt)].

(** The exceptions the application raises itself. *)
Definition own_exception (e : ledger_exception) : Prop := forall v, e <> Rejected v.

(** What a caller of a journal command can catch: an illegal transition or an
    idempotency conflict exactly as the database reported it, or a persistence
    failure that says nothing else. *)
Definition translated_error (t : list ledger_event) (e : ledger_exception) : Prop :=
  e = LedgerPersistenceError \/
  exists c cause state, Event c (Err cause) ∈ t /\ postgresErrorCode cause = Some state /\
    (state = "L4201" /\ e = LedgerLifecycleError ILLEGAL_LIFECYCLE_TRANSITION \/
     state = "L4301" /\ e = LedgerIdempotencyFailure IDEMPOTENCY_CONFLICT).

(** ** Examples *)

Definition post_context_example : LedgerIdempotencyContext :=
  {| ctx_actorAccountId := uuid_example "8"; ctx_operation := POST_JOURNAL;
     ctx_contractVersion := 1; ctx_keyDigest := zero_digest ""; ctx_fingerprintVersion := 1;
     ctx_requestFingerprint := zero_digest "" |}.

Definition post_command_example : PostLedgerJournalCommand :=
  {| correlationId := uuid_example "7"; post_journal := journal_example |}.

Definition reverse_command_example : ReverseLedgerJournalCommand :=
  {| rev_correlationId := uuid_example "7";
     rev_journal := {| originalJournalId := uuid_example "e"; rev_reason := RECOGNITION_INVALIDATED;
                       rev_effectiveAt := "2026-09-01T00:00:00.000Z";
                       rev_observedAt := "2026-09-01T00:00:01.000Z" |} |}.

Definition claim_row_example (journal : jsval) (outcome : claim_outcome) : jsval := js_object
  [("command_id", VStr (uuid_example "c")); ("journal_id", journal);
   ("outbox_id", VStr (uuid_example "d")); ("outcome", VStr (enum_str outcome))].

(** An environment that answers every query with [rows]. *)
Definition answer_queries (rows : result ledger_exception (list jsval)) (c : ledger_call)
    : result ledger_exception (ledger_answer c) :=
  match c return result ledger_exception (ledger_answer c) with
  | PgQuery _ => rows
  | ResolveActor => Ok VNull
  | ResolvePosting _ | ResolveReversal _ => Ok NoCapability
  | EnqueueJob _ _ => Ok ""
  | PgConnect | PgBegin | PgCommit | PgRollback | PgRelease | StartSpan | EndSpan _
  | RecordExecutionState _ | RecordQuoteState _ | EmitTransitioned _ _ _ => Ok tt
  end.

(** A database on which the command was already executed. *)
Definition replay_environment (c : ledger_call) (w : unit)
    : result ledger_exception (ledger_answer c) * unit :=
  (answer_queries (Ok [claim_row_example (VStr (uuid_example "e")) REPLAYED]) c, w).

(** A database that reports an idempotency conflict. *)
Definition conflict_environment (c : ledger_call) (w : unit)
    : result ledger_exception (ledger_answer c) * unit :=
  (answer_queries (Err (Rejected (js_object [("code", VStr "L4301")]))) c, w).

(** ** Lemmas: transactions *)

Lemma rethrow_not_ok {A} e t (a : A) : ~ executes (rethrow_after_rollback e) t (Ok a).
Proof. destruct e as [| | | | | | | |[]]; by intros [_ ?]. Qed.

Lemma persistenceError_not_ok {A} e t (a : A) : ~ executes (persistenceError e) t (Ok a).
Proof. unfold persistenceError. repeat case_bool_decide; by intros [_ ?]. Qed.

Lemma executes_finally_ok {A} (m : ledger_io A) fin t a :
  executes (io_finally m fin) t (Ok a) <->
  exists t1 t2, t = t1 ++ t2 /\ executes m t1 (Ok a) /\ executes fin t2 (Ok tt).
Proof.
  unfold io_finally. rewrite executes_bind_ok. split.
  - intros (r & t1 & t2 & -> & H1 & ([] & t3 & t4 & -> & H2 & [-> <-])%executes_bind_ok).
    apply executes_try in H1 as [(b & H1 & [= ->])|(e & t5 & t6 & -> & _ & [_ [=]])].
    apply executes_bind_ok in H1 as (b' & t5 & t6 & -> & H1 & [-> [= ->]]).
    rewrite !app_nil_r. eauto.
  - intros (t1 & t2 & -> & H1 & H2). exists (Ok a), t1, t2. split; [done|]. split.
    + apply executes_try. left. exists (Ok a). split; [|done]. apply executes_bind_ok.
      exists a, t1, []. rewrite app_nil_r. done.
    + apply executes_bind_ok. exists tt, t2, []. rewrite app_nil_r. done.
Qed.

(** A transaction succeeds exactly when its work does, between BEGIN and
    COMMIT on one connection. *)
Lemma executes_withTransaction_ok {A} (work : ledger_io A) t a :
  executes (withTransaction false work) t (Ok a) <->
  exists tw, executes work tw (Ok a) /\ t = committed tw.
Proof.
  unfold withTransaction, committed. rewrite executes_call_ok. split.
  - intros ([] & t' & -> & (t1 & t2 & -> & H1 & H2)%executes_finally_ok).
    apply (executes_call (ans := ledger_answer) PgRelease) in H2 as ->.
    apply executes_call_ok in H1 as ([] & t3 & -> & H1).
    apply executes_try_ok in H1.
    2:{ intros e u b (? & u1 & u2 & _ & _ & Hr)%executes_bind_ok. by apply rethrow_not_ok in Hr. }
    apply executes_bind_ok in H1 as (a' & t4 & t5 & -> & H1 & H3).
    apply executes_call_ok in H3 as ([] & t6 & -> & [-> [= ->]]).
    exists t4. split; [done|]. simpl. by rewrite <- app_assoc.
  - intros (tw & H & ->). exists tt. eexists. split; [reflexivity|].
    apply executes_finally_ok. exists (Event PgBegin (Ok tt) :: tw ++ [Event PgCommit (Ok tt)]), [Event PgRelease (Ok tt)].
    split; [simpl; by rewrite <- app_assoc|]. split; [|by apply (executes_call (ans := ledger_answer) PgRelease)].
    apply executes_call_ok. exists tt. eexists. split; [reflexivity|]. apply executes_try. left.
    exists a. split; [|done]. apply executes_bind_ok. exists a, tw, [Event PgCommit (Ok tt)].
    split; [done|]. split; [done|]. apply executes_call_ok. by exists tt, [].
Qed.

(** ** Lemmas: serialized postings *)

Lemma utf8_bytes_bounds s : strlen s <= utf8_bytes s <= 2 * strlen s.
Proof.
  induction s as [|c s IH]; [by vm_compute|]. cbn [utf8_bytes]. rewrite strlen_cons.
  destruct (_ <=? _); lia.
Qed.

Lemma concat_strlen (l : list string) n :
  Forall (fun s => strlen s <= n) l -> 0 <= n ->
  strlen (String.concat "," l) <= Z.of_nat (length l) * (n + 1).
Proof.
  intros H Hn. induction H as [|s l Hs _ IH]; [by vm_compute|].
  destruct l as [|s' l]; [cbn [String.concat length]; lia|].
  change (String.concat "," (s :: s' :: l)) with (s +:+ "," +:+ String.concat "," (s' :: l)).
  rewrite !strlen_append. change (strlen ",") with 1. cbn [length] in *. lia.
Qed.

Lemma uuid_strlen s : UUID_V4_PATTERN s = true -> strlen s = 36.
Proof. intros H%matches_length. unfold strlen. by rewrite H. Qed.

Lemma amount_strlen n : 1 <= n <= MAX_UINT256 -> strlen (toString n) <= 78.
Proof.
  intros Hn. pose proof (toString_positive n ltac:(lia)) as Hp.
  apply positive_integer_bounds in Hp as [Hp _]. rewrite BigInt_toString in Hp by lia.
  destruct (Z.le_gt_cases (strlen (toString n)) 78) as [|Hl]; [done|].
  assert (10 ^ 78 <= 10 ^ (strlen (toString n) - 1)) by (apply Z.pow_le_mono_r; lia).
  assert (MAX_UINT256 < 10 ^ 78) by reflexivity. lia.
Qed.

Lemma serialize_posting_strlen p : posting_wf p -> strlen (serialize_posting p) <= 221.
Proof.
  intros (Ha & Hr & n & Hn & Ham). apply uuid_strlen in Ha, Hr. apply amount_strlen in Hn.
  assert (strlen (enum_str (side p)) <= 6) by (destruct (side p); vm_compute; discriminate).
  unfold serialize_posting. rewrite Ham, !strlen_append, Ha, Hr.
  repeat match goal with
  | |- context [strlen ?s] => progress (let n := eval vm_compute in (strlen s) in
      match n with Z0 => change (strlen s) with n | Zpos _ => change (strlen s) with n end)
  end. lia.
Qed.

(** 64 well-formed postings fit in the bound with room to spare. *)
Lemma serializeProjectedPostings_total ps :
  Forall posting_wf ps -> (length ps <= 64)%nat ->
  exists s, serializeProjectedPostings ps = Ok s.
Proof.
  intros Hwf Hl. unfold serializeProjectedPostings, MAX_SERIALIZED_POSTINGS_BYTES.
  pose proof (concat_strlen (serialize_posting <$> ps) 221) as Hc. rewrite length_fmap in Hc.
  specialize (Hc ltac:(apply Forall_fmap; eapply Forall_impl; [exact Hwf | apply serialize_posting_strlen])
                 ltac:(lia)).
  pose proof (strlen_nonneg (String.concat "," (serialize_posting <$> ps))) as H0.
  set (serialized := String.append "[" _). assert (strlen serialized = strlen (String.concat "," (serialize_posting <$> ps)) + 2) as Hs.
  { unfold serialized. rewrite !strlen_append. change (strlen "[") with 1. change (strlen "]") with 1. lia. }
  pose proof (utf8_bytes_bounds serialized). rewrite (proj2 (Z.ltb_ge _ _)), (proj2 (Z.ltb_ge _ _)) by lia.
  by eexists.
Qed.

(** ** Lemmas: journal commands *)

Lemma executes_publish_ok log claim journalId operation correlation actor t :
  executes (publishAndComplete log claim journalId operation correlation actor) t (Ok tt) <->
  exists context completed,
    claim_outcome_ claim = CLAIMED /\ claim_journalId claim = None /\
    match log with Some active => foreign_context active correlation actor = false | None => True end /\
    enqueue_context log correlation actor journalId = Ok context /\
    returnedJournalId completed = Ok journalId /\
    t = [Event (EnqueueJob context (enqueue_request claim journalId operation))
           (Ok (claim_outboxId claim));
         Event (PgQuery (complete_ledger_command_idempotency (claim_commandId claim) journalId
                           (claim_outboxId claim))) (Ok completed)].
Proof.
  unfold publishAndComplete. split.
  - destruct (_ || _) eqn:E1; [by intros [_ ?]|]. apply orb_false_iff in E1 as [E1 E2].
    apply negb_false_iff, bool_decide_eq_true in E1, E2.
    destruct (match log with Some _ => _ | None => _ end) eqn:E3; [by intros [_ ?]|].
    intros (context & Hc & H)%executes_pure_ok. apply rlift_ok in Hc.
    apply executes_call_ok in H as (id & t1 & -> & H).
    destruct (String.eqb_spec id (claim_outboxId claim)) as [->|]; [|by destruct H].
    apply executes_call_ok in H as (completed & t2 & -> & H).
    apply executes_pure_ok in H as (j & Hj & H).
    destruct (String.eqb_spec j journalId) as [->|]; [|by destruct H]. destruct H as [-> _].
    exists context, completed. destruct log; auto 10.
  - intros (context & completed & E1 & E2 & E3 & Hc & Hj & ->). rewrite E1, E2. cbn [negb orb].
    rewrite !bool_decide_eq_true_2 by done. cbn [negb orb].
    replace (match log with Some _ => _ | None => _ end) with false by (destruct log; by rewrite ?E3).
    apply executes_pure_ok. exists context. split; [by apply rlift_ok|].
    apply executes_call_ok. eexists _, _. split; [reflexivity|]. rewrite String.eqb_refl.
    apply executes_call_ok. eexists _, _. split; [reflexivity|].
    apply executes_pure_ok. exists journalId. split; [done|]. by rewrite String.eqb_refl.
Qed.

Lemma executes_claimed_ok log caps purpose cap idempotency correlation statement t journalId :
  executes (claimed_journal log caps purpose cap idempotency correlation statement) t (Ok journalId)
  <-> journal_body log caps purpose cap idempotency correlation statement journalId t.
Proof.
  unfold claimed_journal, claimIdempotency. split.
  - intros (claim & t1 & t2 & -> & H1 & H)%executes_bind_ok.
    apply executes_call_ok in H1 as (rows & t3 & -> & [-> Hclaim]). symmetry in Hclaim.
    destruct (claim_outcome_ claim) eqn:Ho.
    + apply executes_pure_ok in H as (value & Hv & H). apply rlift_ok in Hv.
      apply executes_call_ok in H as (posted & t4 & -> & H).
      apply executes_pure_ok in H as (j & Hj & H).
      apply executes_bind_ok in H as ([] & t5 & t6 & -> & H & [-> [= ->]]).
      apply executes_publish_ok in H as (context & completed & _ & ? & ? & ? & ? & ->).
      rewrite app_nil_r. by apply (body_posted _ _ _ _ _ _ _ _ rows claim value posted context completed).
    + destruct (claim_journalId claim) as [j|] eqn:Ej; [|by destruct H].
      destruct H as [-> [= ->]]. by eapply body_replayed.
  - intros H. apply executes_bind_ok. destruct H as [rows claim Hc Ho Hj|
      rows claim value posted context completed Hc Ho Hn Hv Hp Hl Hctx Hcomp];
      exists claim, [Event (PgQuery (claim_ledger_command_idempotency idempotency)) (Ok rows)];
      eexists; (split; [reflexivity|]); (split; [apply executes_call_ok; by exists rows, []|]);
      rewrite Ho.
    + by rewrite Hj.
    + apply executes_pure_ok. exists value. split; [by apply rlift_ok|].
      apply executes_call_ok. eexists _, _. split; [reflexivity|].
      apply executes_pure_ok. exists journalId. split; [done|].
      apply executes_bind_ok. exists tt. eexists _, []. rewrite app_nil_r. split; [reflexivity|].
      split; [|done]. apply executes_publish_ok. by exists context, completed.
Qed.

(** ** Lemmas: the interface laws, atomicity and errors *)

Lemma only_calls_finally {A} P (m : ledger_io A) fin :
  only_calls P m -> only_calls P fin -> only_calls P (io_finally m fin).
Proof. intros. unfold io_finally. only_calls_tac; assumption. Qed.

Lemma withTransaction_calls {A} (P : ledger_call -> Prop) active (work : ledger_io A) :
  P PgConnect -> P PgBegin -> P PgCommit -> P PgRollback -> P PgRelease ->
  only_calls P work -> only_calls P (withTransaction active work).
Proof.
  intros. unfold withTransaction. destruct active; [done|]. only_calls_step; [by only_calls_step|].
  intros. apply only_calls_finally; [|by apply (only_calls_call (ans := ledger_answer) P PgRelease)].
  unfold rethrow_after_rollback. repeat only_calls_step; assumption.
Qed.

Lemma persistenceError_calls {A} P e : only_calls P (persistenceError (A := A) e).
Proof. unfold persistenceError. only_calls_tac. Qed.

Lemma claimed_journal_calls (P : ledger_call -> Prop) log caps purpose cap idempotency correlation statement :
  (forall q, P (PgQuery q)) -> (forall l q, P (EnqueueJob l q)) ->
  only_calls P (claimed_journal log caps purpose cap idempotency correlation statement).
Proof.
  intros HQ HE. unfold claimed_journal, claimIdempotency, publishAndComplete, sync. only_calls_tac; auto.
Qed.

#[export] Instance PostgresLedgerRepository_laws caps active :
  LedgerRepositoryLaws (PostgresLedgerRepository caps active).
Proof.
  split; intros;
    cbn [resolveIdempotency postJournal reverseJournal transitionLifecycle transitionRecovery
         PostgresLedgerRepository];
    unfold pg_resolveIdempotency, pg_postJournal, post_body, pg_reverseJournal, reverse_body, pg_transitionLifecycle,
      pg_transitionRecovery, sync;
    (apply only_calls_try; [|intros; apply persistenceError_calls]); only_calls_tac;
    lazymatch goal with
    | |- only_calls _ (withTransaction _ _) =>
        apply withTransaction_calls; try exact I; by apply claimed_journal_calls
    | |- only_calls _ _ => idtac
    end.
Qed.

(** A commit the caller hears of as an error can only be followed by a failing
    release of the connection. *)
Lemma withTransaction_commit {A} (work : ledger_io A) t r :
  only_calls (fun c => c <> PgCommit) work ->
  executes (withTransaction false work) t r -> Event PgCommit (Ok tt) ∈ t ->
  is_ok r = true \/ exists e, Event PgRelease (Err e) ∈ t.
Proof.
  intros Hw. unfold withTransaction, io_finally.
  intros [(e & H & ->)|([] & t1 & t2 & -> & H1 & H2)]%executes_bind Hc.
  { apply (executes_call (ans := ledger_answer) PgConnect) in H as ->.
    apply list_elem_of_singleton in Hc. discriminate. }
  apply (executes_call (ans := ledger_answer) PgConnect) in H1 as ->.
  apply elem_of_cons in Hc as [Hc|Hc]; [discriminate|].
  apply executes_bind in H2 as [(e & H & ->)|(r' & t3 & t4 & -> & H1 & H2)].
  { apply executes_try in H as [(a & _ & [=])|(e' & t3 & t4 & _ & _ & [_ [=]])]. }
  apply executes_bind in H2 as [(e & H & ->)|([] & t5 & t6 & -> & H2 & [-> ->])].
  { apply (executes_call (ans := ledger_answer) PgRelease) in H as ->. right. exists e. set_solver. }
  apply (executes_call (ans := ledger_answer) PgRelease) in H2 as ->. left.
  apply elem_of_app in Hc as [Hc|Hc]; [|set_solver].
  apply executes_try in H1 as [(a & H1 & [= ->])|(e & t5 & t6 & -> & H1 & [-> [= ->]])].
  { by apply executes_bind_ok in H1 as (b & ? & ? & _ & _ & [_ [= ->]]). }
  exfalso. rewrite app_nil_r in Hc.
  apply executes_bind in H1 as [(e' & H1 & [= <-])|(a & t5' & t6 & -> & _ & [_ [=]])].
  apply executes_bind in H1 as [(e' & H1 & _)|([] & t6 & t7 & -> & H1 & H2)].
  { apply (executes_call (ans := ledger_answer) PgBegin) in H1 as ->. set_solver. }
  apply (executes_call (ans := ledger_answer) PgBegin) in H1 as ->.
  apply elem_of_cons in Hc as [Hc|Hc]; [discriminate|].
  apply executes_try in H2 as [(a & _ & [=])|(e' & t8 & t9 & -> & H1 & H2)].
  apply elem_of_app in Hc as [Hc|Hc].
  - apply executes_bind in H1 as [(e'' & H1 & _)|(a & t6 & t7 & -> & H1 & H3)].
    + by apply Hw in H1; rewrite Forall_forall in H1; specialize (H1 _ Hc).
    + apply elem_of_app in Hc as [Hc|Hc].
      { by apply Hw in H1; rewrite Forall_forall in H1; specialize (H1 _ Hc). }
      apply executes_bind in H3 as [(e'' & H3 & _)|([] & t6' & t7' & -> & H3 & [_ [=]])].
      apply (executes_call (ans := ledger_answer) PgCommit) in H3 as ->. set_solver.
  - assert (only_calls (fun c => c <> PgCommit)
      (await* _ := call PgRollback in rethrow_after_rollback (A := A) e')) as Hr.
    { unfold rethrow_after_rollback. only_calls_tac; done. }
    apply Hr in H2. rewrite Forall_forall in H2. by specialize (H2 _ Hc).
Qed.

Lemma raises_finally {A} own (m : ledger_io A) fin :
  raises own m -> raises own fin -> raises own (io_finally m fin).
Proof.
  intros Hm Hf t e. unfold io_finally.
  intros [(e' & H & [= <-])|(r & t1 & t2 & -> & H1 & H2)]%executes_bind.
  { apply executes_try in H as [(a & _ & [=])|(e' & t3 & t4 & _ & _ & [_ [=]])]. }
  apply executes_bind in H2 as [(e' & H2 & [= <-])|([] & t3 & t4 & -> & H2 & [-> <-])].
  { apply Hf in H2 as [?|(c & Hc)]; [by left|]. right. exists c. set_solver. }
  apply executes_try in H1 as [(a & H1 & [= <-])|(e' & t5 & t6 & -> & H1 & [-> [= ->]])].
  { by apply executes_bind_ok in H1 as (b & ? & ? & _ & _ & [_ [=]]). }
  apply executes_bind in H1 as [(e'' & H1 & [= <-])|(b & ? & ? & _ & _ & [_ [=]])].
  apply Hm in H1 as [?|(c & Hc)]; [by left|]. right. exists c. set_solver.
Qed.

Lemma rethrow_raises {A} e :
  raises (fun e' => own_exception e' \/ e' = e) (rethrow_after_rollback (A := A) e).
Proof.
  unfold rethrow_after_rollback.
  destruct e as [| | | | | | | |[]]; apply raises_done; auto; by left.
Qed.

Lemma withTransaction_raises {A} active (work : ledger_io A) :
  raises own_exception work -> raises own_exception (withTransaction active work).
Proof.
  intros Hw. unfold withTransaction. destruct active; [done|].
  apply raises_bind; [apply raises_call|]. intros _. apply raises_finally.
  - apply raises_bind; [apply raises_call|]. intros _. apply raises_try.
    + apply raises_bind; [done|]. intros a. apply raises_bind; [apply raises_call|].
      intros _. by apply raises_done.
    + intros e. apply raises_bind; [apply raises_call|]. intros _. apply rethrow_raises.
  - apply (raises_call (ans := ledger_answer) _ PgRelease).
Qed.

Lemma sync_raises {E A} (f : E -> ledger_exception) (m : result E A) :
  (forall e, own_exception (f e)) -> raises own_exception (sync f m).
Proof. intros H. apply raises_done. by destruct m; simpl. Qed.

Lemma returnedJournalId_own rows e : returnedJournalId rows = Err e -> own_exception e.
Proof.
  unfold returnedJournalId. destruct rows as [|row [|]]; try by intros [= <-].
  destruct (exact_data_record _ row); simpl; [|by intros [= <-]].
  by destruct (parseLedgerJournalId _); simpl; [|intros [= <-]].
Qed.

Lemma returnedIdempotencyClaim_own rows e : returnedIdempotencyClaim rows = Err e -> own_exception e.
Proof.
  unfold returnedIdempotencyClaim. destruct rows as [|row [|]]; try by intros [= <-].
  destruct (exact_data_record _ row) as [r|]; simpl; [|by intros [= <-]].
  destruct (uuid_string _); simpl; [|by intros [= <-]].
  destruct (uuid_string _); simpl; [|by intros [= <-]].
  destruct (enum_member _ _) as [o|]; simpl; [|by intros [= <-]].
  destruct (match o with CLAIMED => _ | REPLAYED => _ end); [by intros [= <-]|].
  destruct (is_null _); simpl; [done|].
  by destruct (parseLedgerJournalId _); simpl; [|intros [= <-]].
Qed.

Lemma raises_result {A} own (m : result ledger_exception A) :
  (forall e, m = Err e -> own e) -> raises own (Done (C := ledger_call) (ans := ledger_answer) m).
Proof. intros H. apply raises_done. destruct m; [done | by apply H]. Qed.

Lemma claimed_journal_raises log caps purpose cap idempotency correlation statement :
  raises own_exception (claimed_journal log caps purpose cap idempotency correlation statement).
Proof.
  unfold claimed_journal, claimIdempotency, publishAndComplete.
  repeat first
    [ apply raises_result; (apply returnedJournalId_own || apply returnedIdempotencyClaim_own)
    | apply sync_raises; by intros e v
    | raises_step ]; done.
Qed.

(** The last handler translates what the body raises. *)
Lemma persistence_translated {A} (m : ledger_io A) t e :
  raises own_exception m -> executes (io_try m persistenceError) t (Err e) -> translated_error t e.
Proof.
  intros Hm [(a & _ & [=])|(e0 & t1 & t2 & -> & H1 & H2)]%executes_try.
  apply Hm in H1. unfold persistenceError in H2.
  assert (forall s, postgresErrorCode e0 = Some s -> exists c, Event c (Err e0) ∈ t1 ++ t2) as Hc.
  { intros s Hs. destruct H1 as [H1|(c & Hc)]; [|exists c; set_solver].
    destruct e0; try discriminate. by destruct (H1 error). }
  case_bool_decide as E1; [|case_bool_decide as E2]; destruct H2 as [_ [= ->]]; [..|by left];
    right; destruct (Hc _ ltac:(eassumption)) as (c & Hin); eexists c, e0, _; eauto.
Qed.

(** An acknowledged commit followed by an error: only the release failed. *)
Definition commit_safe {A} (m : ledger_io A) : Prop :=
  forall t e, executes m t (Err e) -> Event PgCommit (Ok tt) ∈ t ->
    exists e', Event PgRelease (Err e') ∈ t.

Lemma commit_safe_pure {A B} (m : result ledger_exception A) (f : A -> ledger_io B) :
  (forall a, commit_safe (f a)) -> commit_safe (io_bind (Done m) f).
Proof.
  intros Hf t e. destruct m as [a|e']; simpl; [apply Hf|].
  intros [-> _] H. by apply not_elem_of_nil in H.
Qed.

Lemma commit_safe_done {A} (r : result ledger_exception A) : commit_safe (Done r).
Proof. intros t e [-> _] H. by apply not_elem_of_nil in H. Qed.

Lemma commit_safe_transaction log caps purpose cap idempotency correlation statement :
  commit_safe (withTransaction false
    (claimed_journal log caps purpose cap idempotency correlation statement)).
Proof.
  intros t e H Hc. apply withTransaction_commit in H as [?|?]; [done | done | | done].
  by apply claimed_journal_calls.
Qed.

Lemma persistence_commit_safe {A} (m : ledger_io A) : commit_safe m -> commit_safe (io_try m persistenceError).
Proof.
  intros Hm t e [(a & _ & [=])|(e0 & t1 & t2 & -> & H1 & H2)]%executes_try.
  assert (t2 = []) as ->.
  { unfold persistenceError in H2. repeat case_bool_decide; by destruct H2. }
  rewrite app_nil_r. by eapply Hm.
Qed.

Lemma serialize_own ps e : serializeProjectedPostings ps = Err e -> own_exception e.
Proof. unfold serializeProjectedPostings. destruct (_ || _); [by intros [= <-] v | done]. Qed.

Lemma idempotency_own e : own_exception (idempotency_exception e).
Proof. by destruct e. Qed.

Lemma post_body_raises caps active log command cap idempotency :
  raises own_exception (post_body caps active log command cap idempotency).
Proof.
  unfold post_body. apply raises_bind; [apply sync_raises; by intros e v|]. intros normalized.
  apply raises_bind; [apply sync_raises, idempotency_own|]. intros idem.
  destruct (negb _); [by apply raises_done|].
  apply raises_bind; [|intros; apply withTransaction_raises, claimed_journal_raises].
  apply raises_result. intros e [e' [He [= <-]]]%rlift_err. by apply serialize_own in He.
Qed.

Lemma reverse_body_raises caps active log command cap idempotency :
  raises own_exception (reverse_body caps active log command cap idempotency).
Proof.
  unfold reverse_body. apply raises_bind; [apply sync_raises; by intros e v|]. intros normalized.
  apply raises_bind; [apply sync_raises, idempotency_own|]. intros idem.
  destruct (negb _); [by apply raises_done|]. apply withTransaction_raises, claimed_journal_raises.
Qed.

Lemma post_body_commit_safe caps log command cap idempotency :
  commit_safe (post_body caps false log command cap idempotency).
Proof.
  unfold post_body, sync. do 2 (apply commit_safe_pure; intros).
  destruct (negb _); [apply commit_safe_done|].
  apply commit_safe_pure. intros. apply commit_safe_transaction.
Qed.

Lemma reverse_body_commit_safe caps log command cap idempotency :
  commit_safe (reverse_body caps false log command cap idempotency).
Proof.
  unfold reverse_body, sync. do 2 (apply commit_safe_pure; intros).
  destruct (negb _); [apply commit_safe_done | apply commit_safe_transaction].
Qed.

Lemma post_command_example_wf : journal_wf (post_journal post_command_example).
Proof.
  apply (normalizePost_wf (post_input_js 1788220800000 1788220801000 journal_example)).
  vm_compute. reflexivity.
Qed.

Lemma reverse_command_example_wf : reversal_wf (rev_journal reverse_command_example).
Proof.
  apply (normalizeReverse_wf (js_object
    [("originalJournalId", VStr (uuid_example "e")); ("reason", VStr "RECOGNITION_INVALIDATED");
     ("effectiveAt", js_date 1788220800000); ("observedAt", js_date 1788220801000)])).
  vm_compute. reflexivity.
Qed.

(** ** Properties *)

(** C22: posting or reversing a well-formed journal succeeds exactly by one
    committed transaction on one connection: the key is claimed first; a
    replayed claim returns its journal without posting; a fresh claim reveals
    the capability, posts the validated command once, enqueues the job under a
    context bound to the command's actor and completes the claim, and every
    returned identifier agrees. *)
Theorem journal_command_trace caps log command reversal capability idempotency t journalId :
  journal_wf (post_journal command) -> UUID_V4_PATTERN (correlationId command) = true ->
  reversal_wf (rev_journal reversal) -> UUID_V4_PATTERN (rev_correlationId reversal) = true ->
  context_wf idempotency ->
  (ctx_operation idempotency = POST_JOURNAL ->
   executes (pg_postJournal caps false log command capability idempotency) t (Ok journalId) <->
   exists serialized body,
     serializeProjectedPostings (postings (post_journal command)) = Ok serialized /\
     journal_body log caps POST capability idempotency (correlationId command)
       (fun v => post_ledger_journal_with_lifecycle v command serialized) journalId body /\
     t = committed body) /\
  (ctx_operation idempotency = REVERSE_JOURNAL ->
   executes (pg_reverseJournal caps false log reversal capability idempotency) t (Ok journalId) <->
   exists body,
     journal_body log caps REVERSE capability idempotency (rev_correlationId reversal)
       (fun v => reverse_ledger_journal_with_lifecycle v reversal) journalId body /\
     t = committed body).
Proof.
  intros Hj Hu Hr Hru Hc. split; intros Ho; unfold pg_postJournal, pg_reverseJournal, post_body, reverse_body;
    rewrite (executes_try_ok _ _ _ _ persistenceError_not_ok).
  - rewrite post_command_js_ok, context_js_ok by done.
    replace {| correlationId := correlationId command; post_journal := post_journal command |}
      with command by by destruct command.
    pose proof Hj as (_ & _ & _ & _ & _ & _ & _ & Hl & Hwf & _).
    destruct (serializeProjectedPostings_total _ Hwf ltac:(lia)) as (s & Hs).
    cbn [sync rlift rcatch io_bind]. rewrite bool_decide_eq_true_2, Hs by done.
    cbn [negb sync rlift rcatch io_bind]. rewrite executes_withTransaction_ok.
    setoid_rewrite executes_claimed_ok. naive_solver.
  - rewrite reverse_command_js_ok, context_js_ok by done.
    replace {| rev_correlationId := rev_correlationId reversal; rev_journal := rev_journal reversal |}
      with reversal by by destruct reversal.
    cbn [sync rlift rcatch io_bind]. rewrite bool_decide_eq_true_2 by done.
    cbn [negb]. rewrite executes_withTransaction_ok. by setoid_rewrite executes_claimed_ok.
Qed.

Lemma journal_command_trace_witness :
  executes (pg_postJournal initial_state false None post_command_example NoCapability
              post_context_example)
    (committed [Event (PgQuery (claim_ledger_command_idempotency post_context_example))
                  (Ok [claim_row_example (VStr (uuid_example "e")) REPLAYED])])
    (Ok (uuid_example "e")).
Proof.
  assert (context_wf post_context_example) as Hc by (repeat split).
  destruct (journal_command_trace initial_state None post_command_example reverse_command_example
    NoCapability post_context_example
    (committed [Event (PgQuery (claim_ledger_command_idempotency post_context_example))
                  (Ok [claim_row_example (VStr (uuid_example "e")) REPLAYED])]) (uuid_example "e")
    post_command_example_wf eq_refl reverse_command_example_wf eq_refl Hc) as [Hp _].
  apply (Hp eq_refl). eexists _, _. split; [vm_compute; reflexivity|]. split; [|reflexivity].
  eapply body_replayed; vm_compute; reflexivity.
Defined.

(** A failed journal command leaves nothing behind and leaks nothing: when
    the caller sees an error, COMMIT was not acknowledged (unless releasing
    the connection afterwards failed), and the error is a persistence failure,
    or the illegal transition or idempotency conflict the database reported
    by its SQL state. *)
Theorem journal_command_error caps log command reversal capability idempotency t e :
  executes (pg_postJournal caps false log command capability idempotency) t (Err e) \/
  executes (pg_reverseJournal caps false log reversal capability idempotency) t (Err e) ->
  translated_error t e /\
  (Event PgCommit (Ok tt) ∈ t -> exists e', Event PgRelease (Err e') ∈ t).
Proof.
  intros [H|H]; (split; [eapply persistence_translated; [|exact H] |
    eapply persistence_commit_safe; [|exact H]]);
    auto using post_body_raises, reverse_body_raises, post_body_commit_safe, reverse_body_commit_safe.
Qed.

Lemma journal_command_error_witness :
  translated_error
    [Event PgConnect (Ok tt); Event PgBegin (Ok tt);
     Event (PgQuery (claim_ledger_command_idempotency post_context_example))
       (Err (Rejected (js_object [("code", VStr "L4301")])));
     Event PgRollback (Ok tt); Event PgRelease (Ok tt)]
    (LedgerIdempotencyFailure IDEMPOTENCY_CONFLICT).
Proof.
  refine (proj1 (journal_command_error initial_state None post_command_example
    reverse_command_example NoCapability post_context_example _ _ (or_introl _))).
  apply (run_executes_eq conflict_environment _ tt _ _ tt). vm_compute. reflexivity.
Defined.
