(* ===== verification/LedgerService.v ===== *)
(** * The ledger service (apps/api/src/ledger/application/ledger.service.ts)

    Validates the input, resolves the acting account, replays or authorises,
    and hands the validated command to the repository. *)

From stdpp Require Import base list strings gmap.
From Stdlib Require Import ZArith Lia Ascii.
From S2P Require Import Prelude Text JsValue Effects Ledger LedgerLifecycle LedgerIdempotency.
From S2P Require Import LedgerCapability LogContext LedgerPorts PostgresLedger.

Open Scope Z_scope.

(** ** Operations *)

Section service.
Context `{Repository : LedgerRepository}.
(** [createHash('sha256')], and the logging context of the request. *)
Variable sha256 : string -> string.
Variable log : option LogCorrelationContext.

(** The resolver's answer is parsed; falsy answers are no UUID strings. *)
Definition resolveLedgerContext : ledger_io (string * string) :=
  io_try
    match log with
    | None => Done (Err LedgerCommandContextError)
    | Some context =>
        await* resolvedActor := call ResolveActor in
        await* actorAccountId := sync LedgerValidationError
          (parseLedgerActorAccountId resolvedActor) in
        if match context !! "initiatorActorId" with
           | Some initiator => negb (String.eqb initiator actorAccountId)
           | None => false
           end
        then Done (Err LedgerCommandContextError)
        else
          await* correlation := sync LedgerValidationError (parseLedgerCorrelationId
            (match context !! "correlationId" with Some c => VStr c | None => VUndef end)) in
          Done (Ok (actorAccountId, correlation))
    end
    (fun _ => Done (Err LedgerCommandContextError)).

Definition quoteStateForTransition (t : ValidatedLedgerLifecycleTransition)
    : option ObservabilityQuoteState :=
  match lt_reason t with
  | INTENT_CREATED => Some QUOTE_CREATED_STATE
  | QUOTE_CREATED => Some AVAILABLE
  | USER_APPROVAL_RECORDED => Some SELECTED
  | QUOTE_EXPIRED => Some EXPIRED
  | USER_REJECTED => Some REJECTED
  | PREFLIGHT_FAILED => Some QUOTE_FAILED
  | SUBMISSION_RECORDED | OUTCOME_PENDING | SETTLEMENT_RECORDED | PROVIDER_REJECTED
  | TERMINAL_FAILURE_CONFIRMED | FULL_REVERSAL_RECORDED => None
  end.

(** Whether a span handle was obtained. *)
Definition startDiagnosticSpan : ledger_io bool :=
  io_try (await* _ := call StartSpan in Done (Ok true)) (fun _ => Done (Ok false)).

Definition recordDiagnostic (work : ledger_io unit) : ledger_io unit :=
  io_try work (fun _ => Done (Ok tt)).

Definition endSpan (span success : bool) : ledger_io unit :=
  if span then call (EndSpan success) else Done (Ok tt).

(** A resolver call: a missing capability and every failure are one error. *)
Definition resolveCapability (request : ledger_io resolved_capability)
    : ledger_io resolved_capability :=
  io_try
    (await* capability := request in
     match capability with
     | NoCapability => Done (Err LedgerCommandContextError)
     | _ => Done (Ok capability)
     end)
    (fun _ => Done (Err LedgerCommandContextError)).

(** [if (replay) return replay] *)
Definition replayed (replay : option string) : option string :=
  match replay with
  | Some journalId => if String.eqb journalId "" then None else Some journalId
  | None => None
  end.

Definition LedgerService_postJournal (input idempotencyKey : jsval) : ledger_io string :=
  await* journal := sync LedgerValidationError (normalizePostLedgerJournalInput input) in
  await* context := resolveLedgerContext in
  await* idempotency := sync idempotency_exception
    (createPostLedgerIdempotencyContext sha256 idempotencyKey (VStr context.1) journal) in
  await* replay := resolveIdempotency idempotency in
  match replayed replay with
  | Some journalId => Done (Ok journalId)
  | None =>
      await* capability := resolveCapability (call (ResolvePosting
        {| pcr_actorAccountId := context.1; pcr_bookId := bookId journal;
           pcr_transactionId := transactionId journal; pcr_legId := legId journal;
           pcr_economicEventType := economicEventType journal; pcr_reason := reason journal |})) in
      await* command := sync LedgerValidationError (normalizePostLedgerJournalCommand
        (post_command_js context.2 journal)) in
      await* nested := sync LoggingError (LoggingContext_runWith log
        (js_object [("transactionId", VStr (transactionId journal))])) in
      postJournal (Some nested) command capability idempotency
  end.

Definition LedgerService_reverseJournal (input idempotencyKey : jsval) : ledger_io string :=
  await* reversal := sync LedgerValidationError (normalizeReverseLedgerJournalInput input) in
  await* context := resolveLedgerContext in
  await* idempotency := sync idempotency_exception
    (createReverseLedgerIdempotencyContext sha256 idempotencyKey (VStr context.1) reversal) in
  await* replay := resolveIdempotency idempotency in
  match replayed replay with
  | Some journalId => Done (Ok journalId)
  | None =>
      await* capability := resolveCapability (call (ResolveReversal
        {| rcr_actorAccountId := context.1;
           rcr_originalJournalId := originalJournalId reversal;
           rcr_reason := rev_reason reversal |})) in
      await* command := sync LedgerValidationError (normalizeReverseLedgerJournalCommand
        (reverse_command_js context.2 reversal)) in
      reverseJournal log command capability idempotency
  end.

(** The telemetry after a recorded transition. *)
Definition record_transition (span : bool) (transition : ValidatedLedgerLifecycleTransition)
    : ledger_io unit :=
  await* _ := recordDiagnostic (endSpan span true) in
  await* _ := recordDiagnostic (call (RecordExecutionState (lt_nextState transition))) in
  await* _ := match quoteStateForTransition transition with
              | Some quoteState => recordDiagnostic (call (RecordQuoteState quoteState))
              | None => Done (Ok tt)
              end in
  call (EmitTransitioned
    match lt_legId transition with Some leg => negb (String.eqb leg "") | None => false end
    (lt_nextState transition) (lt_reason transition)).

Definition LedgerService_transitionLifecycle (input : jsval) : ledger_io unit :=
  await* transition := sync lifecycle_exception (normalizeLedgerLifecycleTransitionInput input) in
  await* context := resolveLedgerContext in
  await* command := sync lifecycle_exception (normalizeLedgerLifecycleTransitionCommand
    (transition_command_js context.1 context.2 transition)) in
  await* span := startDiagnosticSpan in
  await* _ := io_try (transitionLifecycle command)
    (fun error => await* _ := recordDiagnostic (endSpan span false) in Done (Err error)) in
  record_transition span transition.

Definition LedgerService_transitionRecovery (input : jsval) : ledger_io unit :=
  await* transition := sync lifecycle_exception (normalizeLedgerRecoveryTransitionInput input) in
  await* context := resolveLedgerContext in
  await* command := sync lifecycle_exception (normalizeLedgerRecoveryTransitionCommand
    (recovery_command_js context.1 context.2 transition)) in
  transitionRecovery command.

(** ** Specification *)

(** The request context is bound to the resolved actor. *)
Definition authorised (actor correlation : string) : Prop :=
  UUID_V4_PATTERN actor = true /\ UUID_V4_PATTERN correlation = true /\
  exists context, log = Some context /\ context !! "correlationId" = Some correlation /\
    (context !! "initiatorActorId" = None \/ context !! "initiatorActorId" = Some actor).

(** The four commands of the service. *)
Inductive service_command : Type :=
| PostCommand (input key : jsval)
| ReverseCommand (input key : jsval)
| LifecycleCommand (input : jsval)
| RecoveryCommand (input : jsval).

Definition performs (c : service_command) (t : list ledger_event) : Prop :=
  match c with
  | PostCommand input key => exists r, executes (LedgerService_postJournal input key) t r
  | ReverseCommand input key => exists r, executes (LedgerService_reverseJournal input key) t r
  | LifecycleCommand input => exists r, executes (LedgerService_transitionLifecycle input) t r
  | RecoveryCommand input => exists r, executes (LedgerService_transitionRecovery input) t r
  end.
End service.

(** ** Examples *)

(** The request of account 8 under correlation 7. *)
Definition request_log_example : LogCorrelationContext :=
  <["initiatorActorId" := uuid_example "8"]> {[ "correlationId" := uuid_example "7" ]}.

(** Account 8 is authenticated, the ledger knows the command already. *)
Definition known_command_environment (c : ledger_call) (w : unit)
    : result ledger_exception (ledger_answer c) * unit :=
  (match c return result ledger_exception (ledger_answer c) with
   | ResolveActor => Ok (VStr (uuid_example "8"))
   | c => answer_queries (Ok [js_object [("journal_id", VStr (uuid_example "e"))]]) c
   end, w).

(** Every observability call fails. *)
Definition broken_telemetry_environment (c : ledger_call) (w : unit)
    : result ledger_exception (ledger_answer c) * unit :=
  (match c return result ledger_exception (ledger_answer c) with
   | ResolveActor => Ok (VStr (uuid_example "8"))
   | StartSpan | RecordExecutionState _ | RecordQuoteState _ => Err (Rejected VUndef)
   | c => answer_queries (Ok [js_object [("event_id", VStr (uuid_example "f"))]]) c
   end, w).

Definition post_input_example : jsval :=
  post_input_js 1788220800000 1788220801000 journal_example.

Definition post_example : ledger_io string :=
  LedgerService_postJournal (Repository := PostgresLedgerRepository initial_state false)
    zero_digest (Some request_log_example) post_input_example (VStr "key-1").

(** ** Lemmas *)

Section service_lemmas.
Context `{Repository : LedgerRepository}.
Variable sha256 : string -> string.
Variable log : option LogCorrelationContext.

Lemma resolveLedgerContext_ok t actor correlation :
  executes (resolveLedgerContext log) t (Ok (actor, correlation)) <->
  t = [Event ResolveActor (Ok (VStr actor))] /\ authorised log actor correlation.
Proof.
  unfold resolveLedgerContext. rewrite executes_try_ok by (by intros ? ? ? [_ ?]).
  unfold parseLedgerActorAccountId, parseLedgerCorrelationId, authorised.
  destruct log as [context|]; cycle 1.
  { split; [by intros [_ ?] | by intros (_ & _ & _ & ? & [=] & _)]. }
  split.
  - intros (v & t1 & -> & H)%executes_call_ok.
    apply executes_pure_ok in H as (a & [-> Ha]%rlift_ok%parseUuid_ok & H).
    destruct (match context !! "initiatorActorId" with Some _ => _ | None => _ end) eqn:Ei;
      [by destruct H|].
    apply executes_pure_ok in H as (c & [Hc Hu]%rlift_ok%parseUuid_ok & [-> [= -> ->]]).
    split; [done|]. split; [done|]. split; [done|]. exists context. split; [done|].
    split; [destruct (context !! "correlationId"); congruence|].
    destruct (context !! "initiatorActorId") as [i|]; [right | by left].
    apply negb_false_iff, String.eqb_eq in Ei. by subst.
  - intros (-> & Ha & Hu & context' & [= <-] & Hc & Hi). apply executes_call_ok.
    eexists _, _. split; [reflexivity|]. apply executes_pure_ok. exists actor.
    split; [by apply rlift_ok, parseUuid_ok|]. rewrite Hc.
    replace (match context !! "initiatorActorId" with Some _ => _ | None => _ end) with false
      by (destruct Hi as [-> | ->]; by rewrite ?String.eqb_refl).
    apply executes_pure_ok. exists correlation. split; [by apply rlift_ok, parseUuid_ok | done].
Qed.

Lemma resolveLedgerContext_calls : only_calls (fun c => c = ResolveActor) (resolveLedgerContext log).
Proof. unfold resolveLedgerContext, sync. only_calls_tac; done. Qed.

Lemma resolveCapability_ok m t cap :
  executes (resolveCapability m) t (Ok cap) <-> cap <> NoCapability /\ executes m t (Ok cap).
Proof.
  unfold resolveCapability. rewrite executes_try_ok by (by intros ? ? ? [_ ?]).
  rewrite executes_bind_ok. split.
  - intros (c & t1 & t2 & -> & H1 & H2). destruct c; destruct H2 as [-> [=]]; subst;
      by rewrite app_nil_r.
  - intros [Hc H]. exists cap, t, []. rewrite app_nil_r. by destruct cap.
Qed.

(** Whatever follows the resolution of the context is authorised. *)
Lemma context_guards {A} (f : string * string -> ledger_io A) t r ev :
  executes (io_bind (resolveLedgerContext log) f) t r -> ev ∈ t ->
  event_call ev <> ResolveActor ->
  exists actor correlation rest,
    t = Event ResolveActor (Ok (VStr actor)) :: rest /\ authorised log actor correlation.
Proof.
  intros [(e & H & _)|([a c] & t1 & t2 & -> & H & _)]%executes_bind Hev Hne.
  - apply resolveLedgerContext_calls in H. rewrite Forall_forall in H. by destruct (Hne (H _ Hev)).
  - apply resolveLedgerContext_ok in H as [-> H]. by exists a, c, t2.
Qed.

Lemma startDiagnosticSpan_total t r :
  executes startDiagnosticSpan t r ->
  exists span answer, r = Ok span /\ t = [Event StartSpan answer].
Proof.
  unfold startDiagnosticSpan.
  intros [(s & H & ->)|(e & t1 & t2 & -> & H & [-> ->])]%executes_try.
  - apply executes_call_ok in H as (u & t' & -> & [-> _]). eauto.
  - apply executes_bind in H as [(e' & H & _)|(u & t1' & t2 & -> & _ & [_ [=]])].
    apply (executes_call (ans := ledger_answer) StartSpan) in H as ->. rewrite app_nil_r. eauto.
Qed.

Lemma recordDiagnostic_ok m t r : executes (recordDiagnostic m) t r -> r = Ok tt.
Proof. by intros [([] & _ & ->)|(e & t1 & t2 & _ & _ & [_ ->])]%executes_try. Qed.

Lemma rethrow_recorded {A} m e t (r : result ledger_exception A) :
  executes (await* _ := recordDiagnostic m in Done (Err e)) t r -> r = Err e.
Proof.
  intros [(e' & H & _)|(u & t1 & t2 & _ & _ & [_ ->])]%executes_bind; [|done].
  by apply recordDiagnostic_ok in H.
Qed.

(** Only the structured logger can fail after a recorded transition. *)
Lemma record_transition_result span transition t r :
  executes (record_transition span transition) t r ->
  r = Ok tt \/
  exists leg state reason e, Event (EmitTransitioned leg state reason) (Err e) ∈ t.
Proof.
  unfold record_transition.
  intros [(e & H & _)|(? & t1 & t2 & -> & _ & H)]%executes_bind;
    [by apply recordDiagnostic_ok in H|].
  apply executes_bind in H as [(e & H & _)|(? & t3 & t4 & -> & _ & H)];
    [by apply recordDiagnostic_ok in H|].
  apply executes_bind in H as [(e & H & _)|(? & t5 & t6 & -> & _ & H)].
  { destruct (quoteStateForTransition _); [by apply recordDiagnostic_ok in H | by destruct H]. }
  apply (executes_call (ans := ledger_answer) (EmitTransitioned _ _ _)) in H as ->.
  destruct r as [[]|e]; [by left | right]. eexists _, _, _, e. rewrite !elem_of_app, list_elem_of_singleton. by do 3 right.
Qed.
End service_lemmas.

(** ** Properties *)

(** No command touches the database or asks for a capability before the
    acting account is resolved: its id is a version-4 UUID, it agrees with the
    actor bound to the request, and the request has a UUID correlation. *)
Theorem service_requires_actor `{Repository : LedgerRepository} sha256 log c t ev :
  performs sha256 log c t -> ev ∈ t -> event_call ev <> ResolveActor ->
  exists actor correlation rest,
    t = Event ResolveActor (Ok (VStr actor)) :: rest /\ authorised log actor correlation.
Proof.
  intros H Hev Hne. destruct c as [input key|input key|input|input]; destruct H as (r & H);
    [unfold LedgerService_postJournal in H | unfold LedgerService_reverseJournal in H
    | unfold LedgerService_transitionLifecycle in H | unfold LedgerService_transitionRecovery in H];
    apply executes_bind in H as [(e & [-> _] & _)|(j & t1 & t2 & -> & [-> _] & H)];
    try (by apply not_elem_of_nil in Hev); by eapply context_guards.
Qed.

Lemma service_requires_actor_witness :
  exists t, executes post_example t (Ok (uuid_example "e")) /\
    exists actor correlation rest,
      t = Event ResolveActor (Ok (VStr actor)) :: rest /\
      authorised (Some request_log_example) actor correlation.
Proof.
  destruct (run known_command_environment tt post_example) as [[r t] w] eqn:E.
  pose proof (run_executes_eq _ _ _ _ _ _ E) as H. vm_compute in E.
  injection E as <- <- _. eexists. split; [exact H|].
  eapply (service_requires_actor (Repository := PostgresLedgerRepository initial_state false)
    zero_digest (Some request_log_example) (PostCommand post_input_example (VStr "key-1")));
    [eexists; exact H | right; left | discriminate].
Defined.

(** C34: posting succeeds in exactly two ways, for any repository: the ledger
    already knows the idempotency context and its journal is returned without
    a capability and without posting; or it does not, the resolver grants a
    capability for exactly this actor, book, transaction, leg, event and
    reason, and the repository posts the normalised journal under the same
    context. *)
Theorem service_post_trace `{Repository : LedgerRepository} sha256 log input key t journalId :
  executes (LedgerService_postJournal sha256 log input key) t (Ok journalId) <->
  exists journal actor correlation idempotency replay t1 t2,
    normalizePostLedgerJournalInput input = Ok journal /\
    authorised log actor correlation /\
    createPostLedgerIdempotencyContext sha256 key (VStr actor) journal = Ok idempotency /\
    executes (resolveIdempotency idempotency) t1 (Ok replay) /\
    t = Event ResolveActor (Ok (VStr actor)) :: t1 ++ t2 /\
    ((replayed replay = Some journalId /\ t2 = []) \/
     (replayed replay = None /\ exists capability nested t3,
        capability <> NoCapability /\
        LoggingContext_runWith log (js_object [("transactionId", VStr (transactionId journal))])
          = Ok nested /\
        t2 = Event (ResolvePosting
               {| pcr_actorAccountId := actor; pcr_bookId := bookId journal;
                  pcr_transactionId := transactionId journal; pcr_legId := legId journal;
                  pcr_economicEventType := economicEventType journal;
                  pcr_reason := reason journal |}) (Ok capability) :: t3 /\
        executes (postJournal (Some nested)
                    {| correlationId := correlation; post_journal := journal |}
                    capability idempotency) t3 (Ok journalId))).
Proof.
  unfold LedgerService_postJournal. split.
  - intros (journal & Hj%rlift_ok & H)%executes_pure_ok. pose proof (normalizePost_wf _ _ Hj) as Hwf.
    apply executes_bind_ok in H as ([actor correlation] & ta & t2 & -> & Ha & H).
    apply resolveLedgerContext_ok in Ha as [-> Ha]. cbn [fst snd] in H.
    apply executes_pure_ok in H as (idempotency & Hi%rlift_ok & H).
    apply executes_bind_ok in H as (replay & t1 & t3 & -> & Hr & H).
    exists journal, actor, correlation, idempotency, replay, t1, t3.
    do 4 (split; [done|]). split; [done|].
    destruct (replayed replay) as [j|]; [left; by destruct H as [-> [= ->]]|]. right.
    split; [done|]. apply executes_bind_ok in H as (cap & t4 & t5 & -> & Hc & H).
    apply resolveCapability_ok in Hc as [Hne ->%(executes_call (ans := ledger_answer) (ResolvePosting _))].
    rewrite post_command_js_ok in H by (done || by destruct Ha as (_ & ? & _)).
    apply executes_pure_ok in H as (command & [= <-] & H).
    apply executes_pure_ok in H as (nested & Hn%rlift_ok & H). by exists cap, nested, t5.
  - intros (journal & actor & correlation & idempotency & replay & t1 & t2 & Hj & Ha & Hi & Hr & -> & H).
    pose proof (normalizePost_wf _ _ Hj) as Hwf.
    apply executes_pure_ok. exists journal. split; [by apply rlift_ok|]. apply executes_bind_ok.
    exists (actor, correlation), [Event ResolveActor (Ok (VStr actor))], (t1 ++ t2).
    split; [done|]. split; [by apply resolveLedgerContext_ok|]. cbn [fst snd].
    apply executes_pure_ok. exists idempotency. split; [by apply rlift_ok|].
    apply executes_bind_ok. exists replay, t1, t2. split; [done|]. split; [done|].
    destruct H as [[-> ->]|(-> & cap & nested & t3 & Hne & Hn & -> & H)]; [done|].
    apply executes_bind_ok. exists cap. eexists [_], t3. split; [reflexivity|].
    split; [apply resolveCapability_ok; split; [done|];
            by apply (executes_call (ans := ledger_answer) (ResolvePosting _))|].
    rewrite post_command_js_ok by (done || by destruct Ha as (_ & ? & _)).
    apply executes_pure_ok. eexists. split; [reflexivity|].
    apply executes_pure_ok. exists nested. split; [by apply rlift_ok | done].
Qed.

(** Telemetry never changes a transition: once the span call is reached
    the repository runs, and unless the structured logger itself throws, the
    caller gets exactly the repository's result, whatever the span, execution
    state and quote state calls answer. *)
Theorem telemetry_preserves_transition `{Repository : LedgerRepository} log input t r answer :
  executes (LedgerService_transitionLifecycle log input) t r ->
  Event StartSpan answer ∈ t ->
  (forall leg state reason e, Event (EmitTransitioned leg state reason) (Err e) ∉ t) ->
  exists command t1, executes (transitionLifecycle command) t1 r /\ forall ev, ev ∈ t1 -> ev ∈ t.
Proof.
  unfold LedgerService_transitionLifecycle.
  intros [(e & [-> _] & _)|(transition & ? & t0 & -> & [-> _] & H)]%executes_bind Hspan Hemit;
    [by apply not_elem_of_nil in Hspan|]. simpl app in Hspan, Hemit |- *.
  apply executes_bind in H as [(e & H & _)|([a c] & t1 & t2 & -> & H1 & H)].
  { apply resolveLedgerContext_calls in H. rewrite Forall_forall in H. by apply H in Hspan. }
  apply resolveLedgerContext_ok in H1 as [-> _].
  apply executes_bind in H as [(e & [-> _] & _)|(command & ? & t3 & -> & [-> _] & H)];
    [set_solver|].
  apply executes_bind in H as [(e & H & _)|(span & t4 & t5 & -> & _ & H)].
  { by apply startDiagnosticSpan_total in H as (? & ? & [=] & _). }
  exists command. apply executes_bind in H as [(e & H & ->)|([] & t6 & t7 & -> & H & Hr)].
  - apply executes_try in H as [(u & _ & [=])|(e1 & t6 & t7 & -> & H & Hh)].
    apply rethrow_recorded in Hh as [= ->]. exists t6. split; [done | set_solver].
  - apply executes_try_ok in H; [|by intros ? ? ? ?%rethrow_recorded].
    apply record_transition_result in Hr as [->|(leg & st & re & e & Hin)].
    + exists t6. split; [done | set_solver].
    + exfalso. apply (Hemit leg st re e). set_solver.
Qed.

Lemma telemetry_preserves_transition_witness :
  exists t command t1,
    executes (LedgerService_transitionLifecycle
      (Repository := PostgresLedgerRepository initial_state false)
      (Some request_log_example)
      (transition_input_js 1788220800000 (transition_example None CREATED INTENT_CREATED)))
      t (Ok tt) /\
    executes (transitionLifecycle (LedgerRepository := PostgresLedgerRepository initial_state false)
      command) t1 (Ok tt).
Proof.
  destruct (run broken_telemetry_environment tt (LedgerService_transitionLifecycle
      (Repository := PostgresLedgerRepository initial_state false)
      (Some request_log_example)
      (transition_input_js 1788220800000 (transition_example None CREATED INTENT_CREATED))))
    as [[r t] w] eqn:E.
  pose proof (run_executes_eq _ _ _ _ _ _ E) as H. vm_compute in E.
  injection E as <- <- _. eexists.
  destruct (telemetry_preserves_transition (Repository := PostgresLedgerRepository initial_state false)
    _ _ _ _ (Err (Rejected VUndef)) H) as (command & t1 & H1 & _).
  - right. left.
  - intros leg st re e. rewrite !elem_of_cons, elem_of_nil.
    intros Hin. repeat (destruct Hin as [Hin|Hin]; [discriminate|]). exact Hin.
  - exists command, t1. split; [exact H | exact H1].
Defined.
