(* ===== verification/AccountProfile.v ===== *)
(** * Account profiles
    (apps/api/src/accounts/domain/account-profile.ts and accounts/auth/profile-etag.ts)

    What an account declares about itself: an email address, a telephone number
    and a country, each accepted in one normal form, and the entity tag that names
    a version of the profile. *)

From stdpp Require Import base list strings.
From Stdlib Require Import ZArith Lia Ascii.
From S2P Require Import Prelude Text Regex JsValue.

Open Scope Z_scope.

(** ** Data *)

Definition MAX_EMAIL_LENGTH : Z := 254.
Definition MAX_EMAIL_LOCAL_PART_LENGTH : Z := 64.
Definition MAX_EMAIL_DOMAIN_LENGTH : Z := 253.
Definition MAX_PROFILE_VERSION : Z := 2147483647.

Definition ISO_3166_ALPHA_2_CODES : list string :=
  ["AD"; "AE"; "AF"; "AG"; "AI"; "AL"; "AM"; "AO"; "AQ"; "AR"; "AS"; "AT"; "AU"; "AW"; "AX"; "AZ"; "BA"; "BB";
   "BD"; "BE"; "BF"; "BG"; "BH"; "BI"; "BJ"; "BL"; "BM"; "BN"; "BO"; "BQ"; "BR"; "BS"; "BT"; "BV"; "BW"; "BY";
   "BZ"; "CA"; "CC"; "CD"; "CF"; "CG"; "CH"; "CI"; "CK"; "CL"; "CM"; "CN"; "CO"; "CR"; "CU"; "CV"; "CW"; "CX";
   "CY"; "CZ"; "DE"; "DJ"; "DK"; "DM"; "DO"; "DZ"; "EC"; "EE"; "EG"; "EH"; "ER"; "ES"; "ET"; "FI"; "FJ"; "FK";
   "FM"; "FO"; "FR"; "GA"; "GB"; "GD"; "GE"; "GF"; "GG"; "GH"; "GI"; "GL"; "GM"; "GN"; "GP"; "GQ"; "GR"; "GS";
   "GT"; "GU"; "GW"; "GY"; "HK"; "HM"; "HN"; "HR"; "HT"; "HU"; "ID"; "IE"; "IL"; "IM"; "IN"; "IO"; "IQ"; "IR";
   "IS"; "IT"; "JE"; "JM"; "JO"; "JP"; "KE"; "KG"; "KH"; "KI"; "KM"; "KN"; "KP"; "KR"; "KW"; "KY"; "KZ"; "LA";
   "LB"; "LC"; "LI"; "LK"; "LR"; "LS"; "LT"; "LU"; "LV"; "LY"; "MA"; "MC"; "MD"; "ME"; "MF"; "MG"; "MH"; "MK";
   "ML"; "MM"; "MN"; "MO"; "MP"; "MQ"; "MR"; "MS"; "MT"; "MU"; "MV"; "MW"; "MX"; "MY"; "MZ"; "NA"; "NC"; "NE";
   "NF"; "NG"; "NI"; "NL"; "NO"; "NP"; "NR"; "NU"; "NZ"; "OM"; "PA"; "PE"; "PF"; "PG"; "PH"; "PK"; "PL"; "PM";
   "PN"; "PR"; "PS"; "PT"; "PW"; "PY"; "QA"; "RE"; "RO"; "RS"; "RU"; "RW"; "SA"; "SB"; "SC"; "SD"; "SE"; "SG";
   "SH"; "SI"; "SJ"; "SK"; "SL"; "SM"; "SN"; "SO"; "SR"; "SS"; "ST"; "SV"; "SX"; "SY"; "SZ"; "TC"; "TD"; "TF";
   "TG"; "TH"; "TJ"; "TK"; "TL"; "TM"; "TN"; "TO"; "TR"; "TT"; "TV"; "TW"; "TZ"; "UA"; "UG"; "UM"; "US"; "UY";
   "UZ"; "VA"; "VC"; "VE"; "VG"; "VI"; "VN"; "VU"; "WF"; "WS"; "YE"; "YT"; "ZA"; "ZM"; "ZW"].

Inductive AccountProfileValidationCode : Type :=
| INVALID_ACCOUNT_ID | INVALID_CONTACT_EMAIL | INVALID_CONTACT_PHONE | INVALID_DECLARED_RESIDENCY
| INVALID_PROFILE_VERSION.

(** The eligibility is always [UNKNOWN]. *)
Record AccountProfile : Type := {
  ap_accountId : string;
  ap_contactEmail : string;
  ap_contactPhone : option string;
  ap_declaredResidencyCountryCode : string;
  ap_version : Z;
  ap_createdAt : Z;
  ap_updatedAt : Z;
}.

Notation profile_result := (result AccountProfileValidationCode).

(** ** Patterns *)

Definition one_of (chars : string) (c : ascii) : bool := negb (free_of c chars).

(** [[A-Za-z0-9!#$%&'*+/=?^_`{|}~.-]] *)
Definition is_local_char (c : ascii) : bool := is_alnum c || one_of "!#$%&'*+/=?^_`{|}~.-" c.

Definition EMAIL_LOCAL_PART_PATTERN : string -> bool := regex_test (plus (Class is_local_char)).

(** [ends(?:[ends-]{0,61}ends)?] *)
Definition label (ends : ascii -> bool) : regex :=
  Seq (Class ends) (optional (Seq (upto 61 (Class (fun c => ends c || is_char "-" c))) (Class ends))).

Definition EMAIL_DOMAIN_LABEL_PATTERN : string -> bool := regex_test (label is_alnum).

Definition phone_regex : regex := Seq (text "+") (Seq (Class is_digit19) (between 1 14 (Class is_digit))).

Definition E164_PHONE_PATTERN : string -> bool := regex_test phone_regex.

Definition COUNTRY_CODE_INPUT_PATTERN : string -> bool := matches (replicate 2 (in_range 65 90)).

(** ** Parsers *)

Definition parseAccountId (value : jsval) : profile_result string :=
  match value with
  | VStr s => if UUID_V4_PATTERN s then Ok s else Err INVALID_ACCOUNT_ID
  | _ => Err INVALID_ACCOUNT_ID
  end.

(** [s.indexOf(c)] and [s.lastIndexOf(c)]; [None] is -1. *)
Fixpoint indexOf (c : ascii) (s : string) : option nat :=
  match s with
  | EmptyString => None
  | String d s => if Ascii.eqb d c then Some 0%nat else S <$> indexOf c s
  end.

Fixpoint lastIndexOf (c : ascii) (s : string) : option nat :=
  match s with
  | EmptyString => None
  | String d s =>
      match lastIndexOf c s with
      | Some i => Some (S i)
      | None => if Ascii.eqb d c then Some 0%nat else None
      end
  end.

Definition splitEmail (value : string) : profile_result (string * string) :=
  match indexOf "@" value with
  | None | Some O => Err INVALID_CONTACT_EMAIL
  | Some separator =>
      reject INVALID_CONTACT_EMAIL
        when negb (bool_decide (lastIndexOf "@" value = Some separator))
             || (separator =? String.length value - 1)%nat in
      Ok (String.substring 0 separator value,
          String.substring (S separator) (String.length value - S separator) value)
  end.

Definition normalizeContactEmail (value : jsval) : profile_result string :=
  match value with
  | VStr value =>
      reject INVALID_CONTACT_EMAIL
        when (strlen value <? 3) || (MAX_EMAIL_LENGTH <? strlen value) || negb (VISIBLE_PATTERN value) in
      let* parts := splitEmail value in
      let '(localPart, domain) := parts in
      reject INVALID_CONTACT_EMAIL
        when (MAX_EMAIL_LOCAL_PART_LENGTH <? strlen localPart) || negb (EMAIL_LOCAL_PART_PATTERN localPart)
             || String.prefix "." localPart || ends_with "." localPart || includes ".." localPart
             || (MAX_EMAIL_DOMAIN_LENGTH <? strlen domain) || String.prefix "." domain || ends_with "." domain in
      reject INVALID_CONTACT_EMAIL
        when existsb (fun label => negb (EMAIL_DOMAIN_LABEL_PATTERN label)) (split_on "." domain) in
      Ok (localPart +:+ "@" +:+ toLowerCase domain)
  | _ => Err INVALID_CONTACT_EMAIL
  end.

(** [None] is [undefined], [Some None] is [null]. *)
Definition normalizeContactPhone (value : jsval) : profile_result (option (option string)) :=
  match value with
  | VUndef => Ok None
  | VNull => Ok (Some None)
  | VStr s => if E164_PHONE_PATTERN s then Ok (Some (Some s)) else Err INVALID_CONTACT_PHONE
  | _ => Err INVALID_CONTACT_PHONE
  end.

Definition normalizeDeclaredResidencyCountryCode (value : jsval) : profile_result string :=
  match value with
  | VStr s =>
      reject INVALID_DECLARED_RESIDENCY when negb (COUNTRY_CODE_INPUT_PATTERN s) in
      reject INVALID_DECLARED_RESIDENCY when negb (existsb (String.eqb s) ISO_3166_ALPHA_2_CODES) in
      Ok s
  | _ => Err INVALID_DECLARED_RESIDENCY
  end.

Definition isValidContactEmail (value : jsval) : bool := is_ok (normalizeContactEmail value).
Definition isValidContactPhone (value : jsval) : bool := is_ok (normalizeContactPhone value).
Definition isValidDeclaredResidencyCountryCode (value : jsval) : bool :=
  is_ok (normalizeDeclaredResidencyCountryCode value).

Definition assertValidProfileVersion (value : jsval) : profile_result Z :=
  match safe_integer value with
  | Some n => if (n <? 1) || (MAX_PROFILE_VERSION <? n) then Err INVALID_PROFILE_VERSION else Ok n
  | None => Err INVALID_PROFILE_VERSION
  end.

(** ** Entity tags *)

Inductive precondition_error : Type := PRECONDITION_REQUIRED | PRECONDITION_FAILED.

Definition quote_mark : string := String (ascii_of_nat 34) "".
Definition etag_head : string := quote_mark +:+ "account-profile:".

Definition etag_text (accountId version : string) : string :=
  etag_head +:+ accountId +:+ ":" +:+ version +:+ quote_mark.

Definition formatProfileEtag (accountId : string) (version : jsval) : profile_result string :=
  let* version := assertValidProfileVersion version in
  Ok (etag_text accountId (toString version)).

Definition uuid_classes : list (ascii -> bool) :=
  replicate 8 is_hex ++ [is_char "-"] ++ replicate 4 is_hex ++ [is_char "-"] ++ [is_char "4"] ++ replicate 3 is_hex
  ++ [is_char "-"] ++ [is_variant] ++ replicate 3 is_hex ++ [is_char "-"] ++ replicate 12 is_hex.

Definition PROFILE_ETAG_PATTERN : regex :=
  Seq (text etag_head) (Seq (classes uuid_classes)
    (Seq (text ":") (Seq (Seq (Class is_digit19) (upto 9 (Class is_digit))) (text quote_mark)))).

(** [PROFILE_ETAG_PATTERN.exec(value)]: its two groups, the first of which has a
    fixed place. *)
Definition etag_groups (value : string) : option (string * string) :=
  let start := String.length etag_head in
  if regex_test PROFILE_ETAG_PATTERN value
  then Some (String.substring start 36 value,
             String.substring (start + 37) (String.length value - start - 38) value)
  else None.

Definition parseRequiredProfileIfMatch (value : jsval) (accountId : string) : result precondition_error Z :=
  match value with
  | VUndef => Err PRECONDITION_REQUIRED
  | VStr s =>
      match etag_groups s with
      | Some (account, version) =>
          reject PRECONDITION_FAILED when negb (String.eqb account accountId) in
          rlift (fun _ => PRECONDITION_FAILED) (assertValidProfileVersion (VNum (JInt (BigInt version))))
      | None => Err PRECONDITION_FAILED
      end
  | _ => Err PRECONDITION_FAILED
  end.

(** ** Lemmas: email addresses *)

Lemma label_spec ends s : matched (label ends) s <->
  exists c, (s = String c "" /\ ends c = true) \/
    exists m d, s = String c (m +:+ String d "") /\ ends c = true /\ ends d = true /\
      all_chars (fun c => ends c || is_char "-" c) m = true /\ (String.length m <= 61)%nat.
Proof.
  unfold label. rewrite matched_one. setoid_rewrite matched_optional. setoid_rewrite matched_Seq.
  setoid_rewrite matched_upto. setoid_rewrite matched_Class. split.
  - intros (c & w & -> & Hc & [->|(m & e & -> & [Hm Hl] & (d & -> & Hd))]); exists c; [by left|]. right. eauto 10.
  - intros (c & [[-> Hc]|(m & d & -> & Hc & Hd & Hm & Hl)]); [by exists c, ""; auto|].
    exists c, (m +:+ String d ""). split_and!; try done. right. eauto 10.
Qed.

Lemma label_free ends s : ends "."%char = false -> matched (label ends) s -> free_of "." s = true.
Proof.
  intros He H. assert (Hc : forall c, ends c = true -> negb (Ascii.eqb c ".") = true).
  { intros c Hc. destruct (Ascii.eqb_spec c "."); [congruence | done]. }
  apply label_spec in H as (c & [[-> H1]|(m & d & -> & H1 & H2 & Hm & _)]); unfold free_of; cbn [all_chars];
    rewrite Hc by done; [done|]. rewrite all_chars_append. cbn [all_chars]. rewrite Hc by done.
  rewrite andb_true_r. eapply all_chars_impl; [|exact Hm]. intros e [?%Hc|He']%orb_true_iff; [done|].
  unfold is_char in He'. apply Ascii.eqb_eq in He'. by subst.
Qed.

(** [classes uuid_classes] is [ACCOUNT_ID_PATTERN]. *)
Lemma matched_uuid s : matched (classes uuid_classes) s <-> UUID_V4_PATTERN s = true.
Proof. apply matched_classes. Qed.

(** ** Lemmas: entity tags *)

Lemma substring_skip a n k s : String.substring (String.length a + n) k (a +:+ s) = String.substring n k s.
Proof. induction a as [|c a IH]; [done|]. exact IH. Qed.

Lemma substring_take a s : String.substring 0 (String.length a) (a +:+ s) = a.
Proof. induction a as [|c a IH]; [by destruct s|]. exact (f_equal (String c) IH). Qed.

Lemma version_shape v : matched (Seq (Class is_digit19) (upto 9 (Class is_digit))) v <->
  POSITIVE_INTEGER_PATTERN v = true /\ strlen v <= 10.
Proof.
  rewrite matched_one. setoid_rewrite matched_upto. unfold strlen. destruct v as [|c v]; cbn.
  - split; [by intros (? & ? & ? & _) | by intros []].
  - rewrite andb_true_iff. split.
    + intros (d & w & [= <- <-] & Hc & Hw & Hl). split; [done | lia].
    + intros [[Hc Hw] Hl]. exists c, v. split_and!; try done. lia.
Qed.

Lemma etag_groups_some value account version : etag_groups value = Some (account, version) <->
  value = etag_text account version /\ UUID_V4_PATTERN account = true /\
  POSITIVE_INTEGER_PATTERN version = true /\ strlen version <= 10.
Proof.
  assert (Hm : matched PROFILE_ETAG_PATTERN value <-> exists a v, value = etag_text a v /\
            UUID_V4_PATTERN a = true /\ POSITIVE_INTEGER_PATTERN v = true /\ strlen v <= 10).
  { unfold PROFILE_ETAG_PATTERN, etag_text. split.
    - intros (? & ? & -> & ->%matched_text & (a & ? & -> & Ha%matched_uuid &
        (? & ? & -> & ->%matched_text & (v & ? & -> & Hv%version_shape & ->%matched_text)
           %matched_Seq)%matched_Seq)%matched_Seq)%matched_Seq. eauto 10.
    - intros (a & v & -> & Ha & Hv). constructor; [by apply matched_text|]. constructor; [by apply matched_uuid|].
      constructor; [by apply matched_text|]. constructor; [by apply version_shape | by apply matched_text]. }
  assert (Hs : forall a v, UUID_V4_PATTERN a = true ->
            etag_groups (etag_text a v) = if regex_test PROFILE_ETAG_PATTERN (etag_text a v) then Some (a, v) else None).
  { intros a v Ha. unfold etag_groups. destruct (regex_test _ _); [|done]. f_equal.
    apply matches_length in Ha. assert (Hl : String.length a = 36%nat) by exact Ha.
    assert (Hv : (String.length (etag_text a v) - String.length etag_head - 38)%nat = String.length v).
    { unfold etag_text. rewrite !length_append, Hl. change (String.length ":") with 1%nat.
      change (String.length quote_mark) with 1%nat. lia. }
    rewrite Hv. unfold etag_text. f_equal.
    - rewrite <- (Nat.add_0_r (String.length etag_head)), substring_skip, <- Hl. apply substring_take.
    - rewrite substring_skip. change 37%nat with (36 + 1)%nat. rewrite <- Hl, substring_skip.
      change (String.substring 1 (String.length v) (":" +:+ v +:+ quote_mark))
        with (String.substring 0 (String.length v) (v +:+ quote_mark)). apply substring_take. }
  split.
  - intros H. assert (matched PROFILE_ETAG_PATTERN value) as (a & v & -> & Ha & Hv)%Hm.
    { apply regex_test_spec. unfold etag_groups in H. by destruct (regex_test _ _). }
    rewrite Hs in H by done. destruct (regex_test _ _); [|done]. injection H as <- <-. done.
  - intros (-> & Ha & Hv). rewrite Hs by done.
    assert (regex_test PROFILE_ETAG_PATTERN (etag_text account version) = true) as ->; [|done].
    apply regex_test_spec, Hm. eauto.
Qed.

Lemma valid_version n : assertValidProfileVersion (VNum (JInt n)) = Ok n <-> 1 <= n <= MAX_PROFILE_VERSION.
Proof.
  unfold assertValidProfileVersion, safe_integer, MAX_SAFE_INTEGER, MAX_PROFILE_VERSION.
  destruct (Z.leb_spec (Z.abs n) (2 ^ 53 - 1)); [|split; [done | lia]].
  destruct (Z.ltb_spec n 1), (Z.ltb_spec 2147483647 n); cbn [orb]; split; (done || lia).
Qed.

Lemma assert_version v n : assertValidProfileVersion v = Ok n -> v = VNum (JInt n) /\ 1 <= n <= MAX_PROFILE_VERSION.
Proof.
  intros H. assert (v = VNum (JInt n)) as ->; [|split; [done | by apply valid_version]].
  unfold assertValidProfileVersion in H. destruct v as [| | |[z| |]| | | | | | | |]; try done.
  cbn [safe_integer] in H. destruct (_ <=? _); [|done]. destruct (_ || _); [done|]. by injection H as ->.
Qed.

Lemma version_strlen n : 1 <= n <= MAX_PROFILE_VERSION -> strlen (toString n) <= 10.
Proof. intros H. apply toString_length_iff; unfold MAX_PROFILE_VERSION in H; lia. Qed.

(** ** Entity tags stand for versions *)

(** C16: A request that must match a version of a profile names it by the tag
    that the response carried.  Of an account, exactly the versions 1 to
    2147483647, all that the integer column of the table can hold, have a tag:
    the account and the version in decimal between quotation marks.  And the
    header is read as the version [n] exactly when it is the tag written for [n];
    any other text, a weak tag, a list, a wildcard or the tag of another account,
    is refused. *)
Theorem profile_etag_roundtrip accountId :
  UUID_V4_PATTERN accountId = true ->
  (forall n s, formatProfileEtag accountId (VNum (JInt n)) = Ok s <->
     1 <= n <= 2147483647 /\ s = etag_text accountId (toString n)) /\
  (forall s n, parseRequiredProfileIfMatch (VStr s) accountId = Ok n <->
     formatProfileEtag accountId (VNum (JInt n)) = Ok s).
Proof.
  intros Ha. split; intros x y; [|cbn [parseRequiredProfileIfMatch]]; unfold formatProfileEtag; split.
  - intros (n & Hn & [= <-])%rbind_ok. pose proof (assert_version _ _ Hn) as [[= <-] Hb]. by split.
  - intros [Hn%valid_version ->]. by rewrite Hn.
  - destruct (etag_groups x) as [[a v]|] eqn:E; [|done]. apply etag_groups_some in E as (-> & _ & Hv & Hl).
    destruct (String.eqb_spec a accountId) as [->|]; [|done]. cbn [negb]. intros H%rlift_ok.
    pose proof (assert_version _ _ H) as [[= <-] Hn]. rewrite H. cbn [rbind].
    rewrite toString_BigInt; [done|]. unfold UNSIGNED_INTEGER_PATTERN. by rewrite Hv, orb_true_r.
  - intros (n & Hn & [= <-])%rbind_ok. pose proof (assert_version _ _ Hn) as [[= <-] Hb].
    assert (etag_groups (etag_text accountId (toString y)) = Some (accountId, toString y)) as ->.
    { apply etag_groups_some. split_and!; [done.. | apply toString_positive; lia | by apply version_strlen]. }
    by rewrite String.eqb_refl, BigInt_toString, Hn by lia.
Qed.

Lemma profile_etag_roundtrip_witness :
  let id := "00000001-0000-4000-8000-000000000000" in
  parseRequiredProfileIfMatch (VStr (etag_text id "2147483647")) id = Ok 2147483647 /\
  ~ exists s, formatProfileEtag id (VNum (JInt 2147483648)) = Ok s.
Proof.
  assert (UUID_V4_PATTERN "00000001-0000-4000-8000-000000000000" = true) as Hid by (vm_compute; reflexivity).
  destruct (profile_etag_roundtrip _ Hid) as [Hf Hp]. split.
  - apply Hp, Hf. split; [lia | reflexivity].
  - intros (s & [Hb _]%Hf). lia.
Defined.
