(* ===== verification/AccountTables.v ===== *)
(** * The account tables
    (apps/api/src/infrastructure/database/migrations/0004-create-accounts-and-profiles.migration.ts)

    Accounts, their profiles and the audit of every change: three tables with
    their constraints, the trigger that numbers the versions of a profile, and the
    two functions that are the only way the application may write.  A function
    that raises ([None]) leaves the tables as they were.

    A [uuid] is its text in lower case; a [timestamptz] is a number of
    microseconds.  [now] is [statement_timestamp()], one instant for a whole
    call; [audit_id] is what [gen_random_uuid()] returns. *)

From stdpp Require Import base list strings gmap relations.
From Stdlib Require Import ZArith Lia Ascii.
From S2P Require Import Prelude Text Regex JsValue AccountProfile.

Open Scope Z_scope.

(** ** Data *)

Record account_row : Type := {
  ac_account_id : string;
  ac_eligibility_status : string;
  ac_created_at : Z;
}.

Record profile_row : Type := {
  pr_account_id : string;
  pr_contact_email : string;
  pr_contact_phone : option string;
  pr_declared_residency_country_code : string;
  pr_version : Z;
  pr_created_at : Z;
  pr_updated_at : Z;
}.

Record audit_row : Type := {
  au_audit_id : string;
  au_account_id : string;
  au_actor_account_id : string;
  au_correlation_id : string;
  au_action : string;
  au_result : string;
  au_before_version : option Z;
  au_after_version : Z;
  au_changed_fields : list string;
  au_occurred_at : Z;
}.

(** Rows of the first two tables by their primary key; the audit in the order in
    which it was written. *)
Record account_tables : Type := {
  accounts : gmap string account_row;
  account_profiles : gmap string profile_row;
  account_profile_audit : list audit_row;
}.

Definition no_accounts : account_tables :=
  {| accounts := ∅; account_profiles := ∅; account_profile_audit := [] |}.

Definition MAX_INT4 : Z := 2147483647.

(** ** Constraints *)

(** [replace(s, c, '')] for a character, [translate(s, chars, '')]. *)
Fixpoint without (p : ascii -> bool) (s : string) : string :=
  match s with
  | EmptyString => EmptyString
  | String c s => if p c then without p s else String c (without p s)
  end.

(** [split_part(s, c, n)], [left(s, 1)] and [right(s, 1)] *)
Definition split_part (s : string) (c : ascii) (n : nat) : string := default "" (split_on c s !! (n - 1)%nat).
Definition left1 (s : string) : string := String.substring 0 1 s.
Definition right1 (s : string) : string := String.substring (String.length s - 1) 1 s.

Definition octet_length : string -> Z := utf8_bytes.

(** [[a-z0-9]] *)
Definition is_lower_alnum (c : ascii) : bool := in_range 97 122 c || is_digit c.

Definition domain_regex : regex :=
  Seq (label is_lower_alnum) (Star (Seq (Class (is_char ".")) (label is_lower_alnum))).

Definition account_profiles_contact_email_check (contact_email : string) : bool :=
  (3 <=? strlen contact_email) && (strlen contact_email <=? 254)
  && (octet_length contact_email =? strlen contact_email)
  && regex_test (plus (Class is_visible)) contact_email
  && (strlen contact_email - strlen (without (is_char "@") contact_email) =? 1)
  && (1 <=? strlen (split_part contact_email "@" 1)) && (strlen (split_part contact_email "@" 1) <=? 64)
  && String.eqb (without is_local_char (split_part contact_email "@" 1)) ""
  && negb (String.eqb (left1 (split_part contact_email "@" 1)) ".")
  && negb (String.eqb (right1 (split_part contact_email "@" 1)) ".")
  && negb (includes ".." (split_part contact_email "@" 1))
  && (1 <=? strlen (split_part contact_email "@" 2)) && (strlen (split_part contact_email "@" 2) <=? 253)
  && String.eqb (split_part contact_email "@" 2) (toLowerCase (split_part contact_email "@" 2))
  && regex_test domain_regex (split_part contact_email "@" 2).

Definition account_profiles_contact_phone_check (contact_phone : option string) : bool :=
  match contact_phone with
  | None => true
  | Some contact_phone => regex_test phone_regex contact_phone
  end.

Definition account_profiles_country_check (code : string) : bool := existsb (String.eqb code) ISO_3166_ALPHA_2_CODES.

Definition uuid_v4_check (id : string) : bool :=
  String.eqb (String.substring 14 1 id) "4"
  && existsb (String.eqb (String.substring 19 1 id)) ["8"; "9"; "a"; "b"].

Definition account_profiles_checks (row : profile_row) : bool :=
  account_profiles_contact_email_check (pr_contact_email row)
  && account_profiles_contact_phone_check (pr_contact_phone row)
  && account_profiles_country_check (pr_declared_residency_country_code row)
  && (0 <? pr_version row) && (pr_created_at row <=? pr_updated_at row).

Definition is_correlation_char (c : ascii) : bool :=
  is_alnum c || is_char "." c || is_char "_" c || is_char ":" c || is_char "-" c.

(** [^[A-Za-z0-9][A-Za-z0-9._:-]{0,127}$] *)
Definition correlation_regex : regex := Seq (Class is_alnum) (upto 127 (Class is_correlation_char)).

Definition PROFILE_FIELDS : list string := ["contactEmail"; "contactPhone"; "declaredResidencyCountryCode"].

Definition version_transition_check (row : audit_row) : bool :=
  (String.eqb (au_action row) "PROVISIONED" && bool_decide (au_before_version row = None)
   && (au_after_version row =? 1))
  || (String.eqb (au_action row) "UPDATED"
      && match au_before_version row with
         | Some before => (0 <? before) && (au_after_version row =? before + 1)
         | None => false
         end).

Definition account_profile_audit_checks (row : audit_row) : bool :=
  uuid_v4_check (au_audit_id row)
  && (1 <=? strlen (au_correlation_id row)) && (strlen (au_correlation_id row) <=? 128)
  && regex_test correlation_regex (au_correlation_id row)
  && existsb (String.eqb (au_action row)) ["PROVISIONED"; "UPDATED"]
  && String.eqb (au_result row) "SUCCEEDED"
  && version_transition_check row
  && (1 <=? length (au_changed_fields row))%nat && (length (au_changed_fields row) <=? 3)%nat
  && forallb (fun f => existsb (String.eqb f) PROFILE_FIELDS) (au_changed_fields row).

(** ** Inserts and the update *)

Definition raise_when {A} (b : bool) (m : option A) : option A := if b then None else m.

Definition insert_account (db : account_tables) (row : account_row) : option account_tables :=
  raise_when (negb (uuid_v4_check (ac_account_id row)) || negb (String.eqb (ac_eligibility_status row) "UNKNOWN"))
    (raise_when (bool_decide (is_Some (accounts db !! ac_account_id row)))
       (Some {| accounts := <[ac_account_id row := row]> (accounts db);
                account_profiles := account_profiles db;
                account_profile_audit := account_profile_audit db |})).

Definition set_profile (db : account_tables) (row : profile_row) : account_tables :=
  {| accounts := accounts db;
     account_profiles := <[pr_account_id row := row]> (account_profiles db);
     account_profile_audit := account_profile_audit db |}.

Definition insert_profile (db : account_tables) (row : profile_row) : option account_tables :=
  raise_when (negb (account_profiles_checks row))
    (raise_when (bool_decide (is_Some (account_profiles db !! pr_account_id row)))
       (raise_when (bool_decide (accounts db !! pr_account_id row = None))
          (Some (set_profile db row)))).

Definition insert_audit (db : account_tables) (row : audit_row) : option account_tables :=
  raise_when (negb (account_profile_audit_checks row))
    (raise_when (existsb (fun other => String.eqb (au_audit_id other) (au_audit_id row)) (account_profile_audit db))
       (raise_when (bool_decide (accounts db !! au_account_id row = None)
                    || bool_decide (accounts db !! au_actor_account_id row = None))
          (Some {| accounts := accounts db;
                   account_profiles := account_profiles db;
                   account_profile_audit := account_profile_audit db ++ [row] |}))).

(** The trigger: the row that is stored in place of [NEW]. *)
Definition enforce_account_profile_update (now : Z) (OLD NEW : profile_row) : option profile_row :=
  raise_when (negb (String.eqb (pr_account_id NEW) (pr_account_id OLD)))
    (raise_when (negb (pr_created_at NEW =? pr_created_at OLD))
      (raise_when (negb (pr_version NEW =? pr_version OLD))
        (raise_when (negb (pr_updated_at NEW =? pr_updated_at OLD))
          (raise_when (MAX_INT4 <? pr_version OLD + 1)
            (Some {| pr_account_id := pr_account_id NEW;
                     pr_contact_email := pr_contact_email NEW;
                     pr_contact_phone := pr_contact_phone NEW;
                     pr_declared_residency_country_code := pr_declared_residency_country_code NEW;
                     pr_version := pr_version OLD + 1;
                     pr_created_at := pr_created_at NEW;
                     pr_updated_at := Z.max now (pr_updated_at OLD + 1) |}))))).

Definition update_profile (db : account_tables) (now : Z) (OLD NEW : profile_row) : option (profile_row * account_tables) :=
  row ← enforce_account_profile_update now OLD NEW;
  raise_when (negb (account_profiles_checks row)) (Some (row, set_profile db row)).

Definition eligibility (db : account_tables) (account_id : string) : option string :=
  ac_eligibility_status <$> accounts db !! account_id.

(** ** The functions *)

(** [enforce_account_immutability] rejects what no function does: no statement
    updates [accounts]. *)
Definition provision_account_profile (now : Z) (audit_id : string) (db : account_tables)
    (requested_account_id requested_contact_email requested_contact_phone requested_residency_country_code
     requested_actor_account_id requested_correlation_id : option string)
    : option (profile_row * option string * account_tables) :=
  raise_when (negb (bool_decide (requested_actor_account_id = requested_account_id)))
    (account_id ← requested_account_id;
     db ← insert_account db {| ac_account_id := account_id; ac_eligibility_status := "UNKNOWN"; ac_created_at := now |};
     contact_email ← requested_contact_email;
     country_code ← requested_residency_country_code;
     let created_profile :=
       {| pr_account_id := account_id; pr_contact_email := contact_email;
          pr_contact_phone := requested_contact_phone; pr_declared_residency_country_code := country_code;
          pr_version := 1; pr_created_at := now; pr_updated_at := now |} in
     db ← insert_profile db created_profile;
     actor ← requested_actor_account_id;
     correlation_id ← requested_correlation_id;
     db ← insert_audit db
       {| au_audit_id := audit_id; au_account_id := account_id; au_actor_account_id := actor;
          au_correlation_id := correlation_id; au_action := "PROVISIONED"; au_result := "SUCCEEDED";
          au_before_version := None; au_after_version := pr_version created_profile;
          au_changed_fields := PROFILE_FIELDS; au_occurred_at := now |};
     Some (created_profile, eligibility db account_id, db)).

Inductive update_outcome : Type :=
| UPDATE_UPDATED (profile : profile_row) (eligibility_status : option string)
| UPDATE_NOT_FOUND
| UPDATE_STALE.

(** [CASE WHEN has THEN requested ELSE current END] for a column that is not null. *)
Definition updated_column (has : bool) (requested : option string) (current : string) : option string :=
  if has then requested else Some current.

Definition update_account_profile (now : Z) (audit_id : string) (db : account_tables)
    (requested_account_id : option string) (requested_expected_version : option Z)
    (requested_has_contact_email : option bool) (requested_contact_email : option string)
    (requested_has_contact_phone : option bool) (requested_contact_phone : option string)
    (requested_has_residency_country_code : option bool) (requested_residency_country_code : option string)
    (requested_actor_account_id requested_correlation_id : option string)
    : option (update_outcome * account_tables) :=
  raise_when (negb (bool_decide (requested_actor_account_id = requested_account_id)))
    (expected_version ← requested_expected_version;
     raise_when (expected_version <? 1)
    (has_email ← requested_has_contact_email;
     has_phone ← requested_has_contact_phone;
     has_country ← requested_has_residency_country_code;
     raise_when (negb (has_email || has_phone || has_country))
    (let changed_fields := (if has_email then ["contactEmail"] else [])
       ++ (if has_phone then ["contactPhone"] else [])
       ++ (if has_country then ["declaredResidencyCountryCode"] else []) in
     match requested_account_id ≫= fun account_id => account_profiles db !! account_id with
     | None => Some (UPDATE_NOT_FOUND, db)
     | Some profile =>
         if negb (pr_version profile =? expected_version) then Some (UPDATE_STALE, db)
         else
           contact_email ← updated_column has_email requested_contact_email (pr_contact_email profile);
           country_code ← updated_column has_country requested_residency_country_code
                            (pr_declared_residency_country_code profile);
           '(updated_profile, db) ← update_profile db now profile
             {| pr_account_id := pr_account_id profile; pr_contact_email := contact_email;
                pr_contact_phone := if has_phone then requested_contact_phone else pr_contact_phone profile;
                pr_declared_residency_country_code := country_code; pr_version := pr_version profile;
                pr_created_at := pr_created_at profile; pr_updated_at := pr_updated_at profile |};
           actor ← requested_actor_account_id;
           correlation_id ← requested_correlation_id;
           db ← insert_audit db
             {| au_audit_id := audit_id; au_account_id := pr_account_id updated_profile; au_actor_account_id := actor;
                au_correlation_id := correlation_id; au_action := "UPDATED"; au_result := "SUCCEEDED";
                au_before_version := Some (pr_version updated_profile - 1);
                au_after_version := pr_version updated_profile;
                au_changed_fields := changed_fields; au_occurred_at := now |};
           Some (UPDATE_UPDATED updated_profile (eligibility db (pr_account_id updated_profile)), db)
     end))).

(** ** Histories

    The application may only call the two functions: it is granted no right to
    write the tables. *)

Inductive account_step (db db' : account_tables) : Prop :=
| step_provision now audit_id account email phone country actor correlation profile eligibility_status :
    provision_account_profile now audit_id db account email phone country actor correlation
      = Some (profile, eligibility_status, db') -> account_step db db'
| step_update now audit_id account version has_email email has_phone phone has_country country actor correlation outcome :
    update_account_profile now audit_id db account version has_email email has_phone phone has_country country
      actor correlation = Some (outcome, db') -> account_step db db'.

(** What an audit row says of a version: by what, by whom, from what, to what. *)
Definition transition (row : audit_row) : string * string * option Z * Z :=
  (au_action row, au_actor_account_id row, au_before_version row, au_after_version row).

Definition transitions (db : account_tables) (account_id : string) : list (string * string * option Z * Z) :=
  transition <$> List.filter (fun row => String.eqb (au_account_id row) account_id) (account_profile_audit db).

(** The history of a profile that reached version [n]. *)
Definition version_history (account_id : string) (n : Z) : list (string * string * option Z * Z) :=
  ("PROVISIONED", account_id, None, 1)
    :: ((fun k => ("UPDATED", account_id, Some k, k + 1)) <$> seqZ 1 (n - 1)).

Record tables_ok (db : account_tables) : Prop := {
  to_accounts : forall id a, accounts db !! id = Some a ->
    ac_account_id a = id /\ uuid_v4_check id = true /\ ac_eligibility_status a = "UNKNOWN" /\
    is_Some (account_profiles db !! id);
  to_profiles : forall id p, account_profiles db !! id = Some p ->
    pr_account_id p = id /\ account_profiles_checks p = true /\ pr_version p <= MAX_INT4 /\
    is_Some (accounts db !! id);
  to_transitions : forall id, transitions db id =
    match account_profiles db !! id with
    | Some p => version_history id (pr_version p)
    | None => []
    end;
  to_audit : forall row, row ∈ account_profile_audit db -> account_profile_audit_checks row = true;
}.

(** ** Example values *)

Definition account_id_example : string := "00000001-0000-4000-8000-000000000000".

Definition provisioned_example : option (profile_row * option string * account_tables) :=
  provision_account_profile 1000 "0000000a-0000-4000-8000-000000000000" no_accounts (Some account_id_example)
    (Some "Case.Sensitive@example.com") (Some "+14155552671") (Some "CA") (Some account_id_example)
    (Some account_id_example).

Definition provisioned_tables : account_tables := default no_accounts (snd <$> provisioned_example).

Definition updated_example : option (update_outcome * account_tables) :=
  update_account_profile 2000 "0000000b-0000-4000-8000-000000000000" provisioned_tables (Some account_id_example)
    (Some 1) (Some false) None (Some true) None (Some false) None (Some account_id_example) (Some account_id_example).

Definition updated_tables : account_tables := default no_accounts (snd <$> updated_example).

(** ** Lemmas: what a call that does not raise has done *)

Lemma raise_when_some {A} b (m : option A) a : raise_when b m = Some a <-> b = false /\ m = Some a.
Proof. destruct b; cbn; naive_solver. Qed.

Ltac inv_call :=
  repeat match goal with
  | H : raise_when _ _ = Some _ |- _ => let Hb := fresh "Hb" in apply raise_when_some in H as [Hb H]
  | H : (_ ≫= _) = Some _ |- _ =>
      let a := fresh "a" in let Ha := fresh "Ha" in apply bind_Some in H as (a & Ha & H)
  | H : Some _ = Some _ |- _ => injection H; clear H; intros
  end.

Lemma provision_some now audit_id db account email phone country actor correlation p el db' :
  provision_account_profile now audit_id db account email phone country actor correlation = Some (p, el, db') ->
  exists id e c row, account = Some id /\ email = Some e /\ country = Some c /\ actor = Some id /\
    accounts db !! id = None /\ uuid_v4_check id = true /\ account_profiles_checks p = true /\
    account_profile_audit_checks row = true /\ au_account_id row = id /\
    transition row = ("PROVISIONED", id, None, 1) /\ el = Some "UNKNOWN" /\
    p = {| pr_account_id := id; pr_contact_email := e; pr_contact_phone := phone;
           pr_declared_residency_country_code := c; pr_version := 1; pr_created_at := now; pr_updated_at := now |} /\
    db' = {| accounts := <[id := {| ac_account_id := id; ac_eligibility_status := "UNKNOWN"; ac_created_at := now |}]>
                           (accounts db);
             account_profiles := <[id := p]> (account_profiles db);
             account_profile_audit := account_profile_audit db ++ [row] |}.
Proof.
  unfold provision_account_profile, insert_account, insert_profile, insert_audit. intros H. inv_call. subst.
  apply negb_false_iff, bool_decide_eq_true in Hb. subst. cbn in *.
  apply bool_decide_eq_false, eq_None_not_Some in Hb1. apply orb_false_iff in Hb0 as [Hv _].
  injection Hb as ->. apply negb_false_iff in Hv.
  eexists a, a1, a2, _. split_and!; [..|reflexivity]; try done; try (by apply negb_false_iff).
  unfold eligibility. cbn. by rewrite lookup_insert_eq.
Qed.

Lemma update_profile_some db now OLD NEW r db' : update_profile db now OLD NEW = Some (r, db') ->
  pr_version OLD + 1 <= MAX_INT4 /\ account_profiles_checks r = true /\ db' = set_profile db r /\
  r = {| pr_account_id := pr_account_id NEW; pr_contact_email := pr_contact_email NEW;
         pr_contact_phone := pr_contact_phone NEW;
         pr_declared_residency_country_code := pr_declared_residency_country_code NEW;
         pr_version := pr_version OLD + 1; pr_created_at := pr_created_at NEW;
         pr_updated_at := Z.max now (pr_updated_at OLD + 1) |}.
Proof.
  unfold update_profile, enforce_account_profile_update. intros H.
  apply bind_Some in H as (row & Hrow & [Hc [= <- <-]]%raise_when_some). inv_call. subst.
  apply negb_false_iff in Hc. by apply Z.ltb_ge in Hb3.
Qed.

(** The row that an update writes. *)
Definition updated_row (now : Z) (p : profile_row) (e : string) (phone : option string) (c : string) : profile_row :=
  {| pr_account_id := pr_account_id p; pr_contact_email := e; pr_contact_phone := phone;
     pr_declared_residency_country_code := c; pr_version := pr_version p + 1; pr_created_at := pr_created_at p;
     pr_updated_at := Z.max now (pr_updated_at p + 1) |}.

Lemma update_some now audit_id db account version has_email email has_phone phone has_country country actor correlation
    outcome db' :
  update_account_profile now audit_id db account version has_email email has_phone phone has_country country actor
    correlation = Some (outcome, db') ->
  actor = account /\
  ((outcome = UPDATE_NOT_FOUND /\ db' = db) \/ (outcome = UPDATE_STALE /\ db' = db) \/
   exists id p p' he hp hc e c row, account = Some id /\ account_profiles db !! id = Some p /\
     version = Some (pr_version p) /\ has_email = Some he /\ has_phone = Some hp /\ has_country = Some hc /\
     updated_column he email (pr_contact_email p) = Some e /\
     updated_column hc country (pr_declared_residency_country_code p) = Some c /\
     pr_version p + 1 <= MAX_INT4 /\ p' = updated_row now p e (if hp then phone else pr_contact_phone p) c /\
     account_profiles_checks p' = true /\ account_profile_audit_checks row = true /\
     au_account_id row = pr_account_id p /\
     transition row = ("UPDATED", id, Some (pr_version p), pr_version p + 1) /\
     outcome = UPDATE_UPDATED p' (eligibility db (pr_account_id p)) /\
     db' = {| accounts := accounts db; account_profiles := <[pr_account_id p := p']> (account_profiles db);
              account_profile_audit := account_profile_audit db ++ [row] |}).
Proof.
  unfold update_account_profile. intros H. inv_call. apply negb_false_iff, bool_decide_eq_true in Hb. subst actor.
  split; [done|]. destruct (account ≫= _) as [p|] eqn:Ep; cbv beta iota zeta in H; [|left; by injection H as <- <-].
  right. destruct (Z.eqb_spec (pr_version p) a) as [<-|]; [|left; by injection H as <- <-]. cbn [negb] in H. right.
  apply bind_Some in Ep as (id & -> & Ep).
  apply bind_Some in H as (e & He & (c & Hc & ([r db1] & (Hv & Hr & -> & Er)%update_profile_some & H)%bind_Some)%bind_Some).
  unfold insert_audit in H. inv_call. subst. cbn in *. apply negb_false_iff in Hb.
  exists a, p. eexists. exists a0, a1, a2, e, c. eexists. split_and!; [..|reflexivity]; try done.
  unfold transition. cbn. by rewrite Z.add_simpl_r.
Qed.

(** ** Lemmas: the invariant *)

Lemma transitions_snoc db a p row id :
  transitions {| accounts := a; account_profiles := p; account_profile_audit := account_profile_audit db ++ [row] |} id =
  transitions db id ++ (if String.eqb (au_account_id row) id then [transition row] else []).
Proof.
  unfold transitions. cbn [account_profile_audit]. rewrite List.filter_app, fmap_app. cbn [List.filter].
  by destruct (String.eqb _ _).
Qed.

Lemma version_history_snoc id n : 1 <= n ->
  version_history id (n + 1) = version_history id n ++ [("UPDATED", id, Some n, n + 1)].
Proof.
  intros Hn. unfold version_history. cbn [app]. f_equal.
  replace (n + 1 - 1) with ((n - 1) + 1) by lia. rewrite (seqZ_app 1 (n - 1) 1), fmap_app by lia.
  f_equal. by replace (1 + (n - 1)) with n by lia.
Qed.

Lemma no_accounts_ok : tables_ok no_accounts.
Proof.
  constructor; cbn; intros id *; try (by rewrite lookup_empty).
  intros H. by apply not_elem_of_nil in H.
Qed.

Lemma profile_version p : account_profiles_checks p = true -> 1 <= pr_version p.
Proof. unfold account_profiles_checks. intros H. bsimpl. lia. Qed.

Lemma account_step_ok db db' : account_step db db' -> tables_ok db -> tables_ok db'.
Proof.
  intros Hstep [Ha Hp Ht Haudit]. destruct Hstep as [now audit_id account email phone country actor correlation p el H|
    now audit_id account version he email hp phone hc country actor correlation outcome H].
  - apply provision_some in H as (id & e & c & row & -> & -> & -> & -> & Hfresh & Hv & Hc & Hr & Eid & Etr & _ & Ep & ->).
    assert (Hnone : account_profiles db !! id = None).
    { destruct (account_profiles db !! id) as [q|] eqn:E; [|done].
      destruct (Hp _ _ E) as (_ & _ & _ & H). rewrite Hfresh in H. by destruct H. }
    constructor; cbn [accounts account_profiles account_profile_audit].
    + intros i a. destruct (decide (id = i)) as [<-|Hne].
      * rewrite !lookup_insert_eq. by intros [= <-].
      * rewrite !lookup_insert_ne by done. apply Ha.
    + intros i q. destruct (decide (id = i)) as [<-|Hne].
      * rewrite !lookup_insert_eq. intros [= <-]. subst p. by split_and!.
      * rewrite !lookup_insert_ne by done. apply Hp.
    + intros i. rewrite transitions_snoc, Eid, Ht. destruct (String.eqb_spec id i) as [<-|Hne].
      * rewrite lookup_insert_eq, Hnone, Etr. by subst p.
      * by rewrite lookup_insert_ne, app_nil_r.
    + intros r [Hin| ->%list_elem_of_singleton]%elem_of_app; auto.
  - apply update_some in H as [_ [[_ ->]|[[_ ->]|(id & p & p' & he' & hp' & hc' & e & c & row & _ & Hid & _ & _ & _ & _ & _
      & _ & Hv & Ep & Hc & Hr & Eid & Etr & _ & ->)]]]; [by constructor..|].
    destruct (Hp _ _ Hid) as (Epid & Hcp & Hvp & Hacc). rewrite Epid in *.
    constructor; cbn [accounts account_profiles account_profile_audit].
    + intros i a Hi. destruct (Ha i a Hi) as (? & ? & ? & ?). split_and!; try done.
      destruct (decide (id = i)) as [<-|Hne]; [by rewrite lookup_insert_eq | by rewrite lookup_insert_ne].
    + intros i q. destruct (decide (id = i)) as [<-|Hne].
      * rewrite lookup_insert_eq. intros [= <-]. subst p'. by split_and!.
      * rewrite lookup_insert_ne by done. apply Hp.
    + intros i. rewrite transitions_snoc, Eid, Ht. destruct (String.eqb_spec id i) as [<-|Hne].
      * rewrite lookup_insert_eq, Hid, Etr. subst p'. cbn. symmetry. apply version_history_snoc. by apply profile_version.
      * by rewrite lookup_insert_ne, app_nil_r.
    + intros r [Hin| ->%list_elem_of_singleton]%elem_of_app; auto.
Qed.

Lemma reachable_tables_ok db : rtc account_step no_accounts db -> tables_ok db.
Proof.
  revert db. apply (rtc_ind_r (R := account_step) tables_ok); [apply no_accounts_ok|].
  intros db1 db2 _ Hs Hok. by eapply account_step_ok.
Qed.

(** ** The audit trail *)

(** C14: Whatever calls are made, by whom and in any order, the audit of an account
    is the history of its profile and nothing else: it was provisioned by itself
    as version 1, every later version was made by itself from exactly the
    version before, and the last one is the version of the profile.  An account
    without a profile has no audit.  No change is lost, repeated, made by
    another account or made twice from the same version. *)
Theorem profile_versions_audited db id :
  rtc account_step no_accounts db ->
  transitions db id = match account_profiles db !! id with
                      | Some p => version_history id (pr_version p)
                      | None => []
                      end /\
  (forall p, account_profiles db !! id = Some p -> 1 <= pr_version p <= MAX_INT4).
Proof.
  intros [_ Hp Ht _]%reachable_tables_ok. split; [apply Ht|].
  intros p (_ & Hc%profile_version & Hv & _)%Hp. done.
Qed.

(** *** A provisioned and updated account *)

Lemma provisioned_reachable : rtc account_step no_accounts provisioned_tables.
Proof.
  destruct provisioned_example as [[[p el] db]|] eqn:E; [|by vm_compute in E].
  unfold provisioned_tables. rewrite E. apply rtc_once. by eapply step_provision.
Qed.

Lemma updated_reachable : rtc account_step no_accounts updated_tables.
Proof.
  etrans; [apply provisioned_reachable|]. destruct updated_example as [[o db]|] eqn:E; [|by vm_compute in E].
  unfold updated_tables. rewrite E. apply rtc_once. by eapply step_update.
Qed.

Lemma profile_versions_audited_witness :
  pr_version <$> account_profiles updated_tables !! account_id_example = Some 2 /\
  transitions updated_tables account_id_example =
    match account_profiles updated_tables !! account_id_example with
    | Some p => version_history account_id_example (pr_version p)
    | None => []
    end.
Proof. split; [by vm_compute | apply profile_versions_audited, updated_reachable]. Defined.
