(* ===== verification/AccountEmail.v ===== *)
(** * The two definitions of an email address

    The domain normalises an address by splitting it at its indices and its
    domain at its dots; the table checks the stored text with string functions
    and a regular expression.  This file shows that the table accepts exactly the
    addresses that the domain leaves as they are. *)

From stdpp Require Import base list strings.
From Stdlib Require Import ZArith Lia Ascii.
From S2P Require Import Prelude Text Regex JsValue AccountProfile AccountTables.

Open Scope Z_scope.

(** ** Lemmas: finding and counting a character *)

Lemma indexOf_free c s : indexOf c s = None <-> free_of c s = true.
Proof.
  induction s as [|d s IH]; [done|]. cbn [indexOf]. unfold free_of in *. cbn [all_chars].
  destruct (Ascii.eqb d c); cbn; [done|]. by rewrite fmap_None.
Qed.

Lemma indexOf_append c a b : free_of c a = true -> indexOf c (a +:+ String c b) = Some (String.length a).
Proof.
  induction a as [|d a IH]; intros Ha.
  - rewrite append_nil_l. cbn [indexOf]. by rewrite Ascii.eqb_refl.
  - apply andb_true_iff in Ha as [Hd Ha]. rewrite append_cons. cbn [indexOf].
    destruct (Ascii.eqb d c); [done|]. by rewrite IH.
Qed.

Lemma lastIndexOf_free c s : lastIndexOf c s = None <-> free_of c s = true.
Proof.
  induction s as [|d s IH]; [done|]. cbn [lastIndexOf]. unfold free_of in *. cbn [all_chars].
  destruct (lastIndexOf c s) as [i|].
  - split; [done|]. intros [_ H]%andb_true_iff. by apply IH in H.
  - destruct (Ascii.eqb d c); [by split | exact IH].
Qed.

Lemma lastIndexOf_append c a b : free_of c b = true -> lastIndexOf c (a +:+ String c b) = Some (String.length a).
Proof.
  intros Hb. induction a as [|d a IH].
  - rewrite append_nil_l. cbn [lastIndexOf]. apply lastIndexOf_free in Hb. by rewrite Hb, Ascii.eqb_refl.
  - rewrite append_cons. cbn [lastIndexOf]. by rewrite IH.
Qed.

Lemma indexOf_inv c s i : indexOf c s = Some i ->
  exists a b, s = a +:+ String c b /\ String.length a = i /\ free_of c a = true.
Proof.
  revert i. induction s as [|d s IH]; intros i; [done|]. cbn [indexOf].
  destruct (Ascii.eqb_spec d c) as [->|Hd]; [intros [= <-]; by exists "", s|].
  intros (j & Hj & ->)%fmap_Some. destruct (IH j Hj) as (a & b & -> & <- & Ha). exists (String d a), b.
  split_and!; [done.. | unfold free_of in *; cbn [all_chars]; by destruct (Ascii.eqb_spec d c)].
Qed.

Lemma lastIndexOf_after c a b : lastIndexOf c (a +:+ String c b) = Some (String.length a) -> free_of c b = true.
Proof.
  intros H. apply lastIndexOf_free. destruct (lastIndexOf c b) as [i|] eqn:E; [|done].
  assert (lastIndexOf c (a +:+ String c b) = Some (String.length a + S i)%nat) as H'.
  { clear H. induction a as [|d a IH]; [rewrite append_nil_l; cbn [lastIndexOf]; by rewrite E|]. rewrite append_cons. cbn [lastIndexOf]. by rewrite IH. }
  rewrite H in H'. injection H'. lia.
Qed.

(** The number of parts is one more than the number of separators. *)
Lemma count_parts c s :
  Z.of_nat (length (split_on c s)) = 1 + (strlen s - strlen (without (is_char c) s)).
Proof.
  induction s as [|d s IH]; [done|]. cbn [split_on without]. unfold is_char in *. rewrite strlen_cons, (Ascii.eqb_sym c d).
  destruct (Ascii.eqb d c); cbn [length]; [lia|]. rewrite strlen_cons.
  destruct (split_on_cons c s) as (part & parts & E). rewrite E in *. cbn [length] in *. lia.
Qed.

Lemma without_nil p s : without p s = "" <-> all_chars p s = true.
Proof. induction s as [|c s IH]; [done|]. cbn. by destruct (p c). Qed.

Lemma split_two c s : length (split_on c s) = 2%nat <->
  exists a b, s = a +:+ String c b /\ free_of c a = true /\ free_of c b = true.
Proof.
  split.
  - intros Hl. pose proof (concat_split_on c s) as Hs. pose proof (split_on_free c s) as Hf.
    destruct (split_on c s) as [|a [|b [|]]]; try done. apply Forall_cons in Hf as [Ha Hf].
    apply Forall_cons in Hf as [Hb _]. exists a, b. by rewrite <- Hs.
  - intros (a & b & -> & Ha & Hb). by rewrite split_on_append, split_on_one.
Qed.

(** ** Lemmas: the ends of a text *)

Lemma prefix_left1 c s : String.prefix (String c "") s = String.eqb (left1 s) (String c "").
Proof.
  destruct s as [|d s]; [done|]. unfold left1. cbn [String.prefix].
  assert (String.substring 0 1 (String d s) = String d "") as -> by (by destruct s).
  cbn [String.eqb]. destruct (ascii_dec c d) as [->|Hd]; [by rewrite Ascii.eqb_refl; destruct s|].
  by destruct (Ascii.eqb_spec d c).
Qed.

Lemma ends_with_right1 c s : ends_with c s = String.eqb (right1 s) (String c "").
Proof.
  induction s as [|d s IH]; [done|]. destruct s as [|e s].
  - cbn. by destruct (Ascii.eqb d c).
  - change (ends_with c (String d (String e s))) with (ends_with c (String e s)). rewrite IH. unfold right1.
    cbn [String.length]. rewrite !Nat.sub_succ, !Nat.sub_0_r. done.
Qed.

Lemma all_chars_split p c s : p c = true ->
  all_chars p s = true <-> Forall (fun part => all_chars p part = true) (split_on c s).
Proof.
  intros Hc. induction s as [|d s IH]; cbn [split_on all_chars]; [by rewrite Forall_singleton|].
  destruct (split_on_cons c s) as (part & parts & E). rewrite E in *.
  destruct (Ascii.eqb_spec d c) as [->|Hd].
  - rewrite Hc, Forall_cons, <- IH. cbn. tauto.
  - rewrite andb_true_iff, IH, !Forall_cons. cbn [all_chars]. rewrite andb_true_iff. tauto.
Qed.

(** ** Lemmas: domains in lower case *)

Definition is_lowered (c : ascii) : bool := Ascii.eqb (lower c) c.

Lemma lowered_spec s : s = toLowerCase s <-> all_chars is_lowered s = true.
Proof.
  unfold is_lowered. induction s as [|c s IH]; [done|]. cbn [toLowerCase all_chars].
  rewrite andb_true_iff, <- IH, Ascii.eqb_eq. split; [by intros [= <- <-] | by intros [-> <-]].
Qed.

Lemma lower_alnum c : is_lower_alnum c = is_alnum c && is_lowered c.
Proof. destruct c as [[] [] [] [] [] [] [] []]; by vm_compute. Qed.

Lemma lower_label_char c : is_lower_alnum c || is_char "-" c = (is_alnum c || is_char "-" c) && is_lowered c.
Proof. destruct c as [[] [] [] [] [] [] [] []]; by vm_compute. Qed.

Lemma all_chars_and p q r s : (forall c, p c = q c && r c) -> all_chars p s = all_chars q s && all_chars r s.
Proof.
  intros H. induction s as [|c s IH]; [done|]. cbn [all_chars]. rewrite H, IH.
  destruct (q c), (r c), (all_chars q s), (all_chars r s); done.
Qed.

Lemma lower_label s : matched (label is_lower_alnum) s <-> matched (label is_alnum) s /\ all_chars is_lowered s = true.
Proof.
  rewrite !label_spec. split.
  - intros (c & [[-> Hc]|(m & d & -> & Hc & Hd & Hm & Hl)]).
    + rewrite lower_alnum in Hc. apply andb_true_iff in Hc as [Hc Hc']. split; [eauto | cbn; by rewrite Hc'].
    + rewrite lower_alnum in Hc, Hd. rewrite (all_chars_and _ _ _ _ lower_label_char) in Hm.
      apply andb_true_iff in Hc as [Hc Hc'], Hd as [Hd Hd'], Hm as [Hm Hm']. split; [eauto 10|].
      cbn [all_chars]. rewrite all_chars_append. cbn [all_chars]. by rewrite Hc', Hd', Hm'.
  - intros [(c & [[-> Hc]|(m & d & -> & Hc & Hd & Hm & Hl)]) Hs].
    + exists c. left. split; [done|]. cbn in Hs. rewrite lower_alnum, Hc. by rewrite andb_true_r in Hs.
    + cbn [all_chars] in Hs. rewrite all_chars_append in Hs. cbn [all_chars] in Hs. rewrite andb_true_r in Hs.
      apply andb_true_iff in Hs as [Hs1 [Hs2 Hs3]%andb_true_iff]. exists c. right. exists m, d.
      rewrite !lower_alnum, (all_chars_and _ _ _ _ lower_label_char), Hc, Hd, Hm, Hs1, Hs2, Hs3. done.
Qed.

(** The expression of the table: labels of the domain, in lower case. *)
Lemma domain_labels s : s = toLowerCase s ->
  matched domain_regex s <-> Forall (matched (label is_alnum)) (split_on "." s).
Proof.
  intros Hs%lowered_spec. unfold domain_regex.
  rewrite matched_separated by (intros part; by apply label_free).
  rewrite (all_chars_split is_lowered "." s) in Hs by done. rewrite !Forall_forall in *.
  setoid_rewrite lower_label. split; intros H part Hp; [by apply H|]. auto.
Qed.

Lemma label_ends s : matched (label is_alnum) s -> String.prefix "." s = false /\ ends_with "." s = false /\ s <> "".
Proof.
  assert (Hdot : forall c, is_alnum c = true -> Ascii.eqb c "." = false).
  { intros c Hc. by destruct (Ascii.eqb_spec c "."); subst. }
  assert (Hend : forall m d, ends_with "." (m +:+ String d "") = Ascii.eqb d ".").
  { induction m as [|c m IH]; intros d; [done|]. rewrite append_cons, <- IH. by destruct m. }
  intros (c & [[-> Hc]|(m & d & -> & Hc & Hd & _)])%label_spec.
  - rewrite prefix_left1, ends_with_right1. cbn. by rewrite (Hdot c Hc).
  - rewrite <- append_cons, Hend, (Hdot d Hd). split_and!; [|done..].
    rewrite append_cons. cbn [String.prefix]. by destruct (ascii_dec "." c); subst.
Qed.

(** ** Lemmas: an address in parts *)

Lemma length_zero s : String.length s = 0%nat <-> s = "".
Proof. by destruct s. Qed.

Lemma splitEmail_ok s l d : splitEmail s = Ok (l, d) <->
  s = l +:+ String "@" d /\ free_of "@" l = true /\ free_of "@" d = true /\ l <> "" /\ d <> "".
Proof.
  unfold splitEmail. split.
  - destruct (indexOf "@" s) as [[|i]|] eqn:E; try done.
    apply indexOf_inv in E as (a & b & -> & Hl & Ha). rewrite <- Hl.
    destruct (bool_decide_reflect (lastIndexOf "@" (a +:+ String "@" b) = Some (String.length a))) as [Hlast|];
      [|done].
    destruct (Nat.eqb_spec (String.length a) (String.length (a +:+ String "@" b) - 1)) as [|Hne]; [done|].
    cbn [negb orb]. rewrite substring_take, <- (Nat.add_1_r (String.length a)), substring_skip.
    change (String.substring 1 ?n (String "@" b)) with (String.substring 0 n b).
    rewrite length_append. cbn [String.length].
    replace (String.length a + S (String.length b) - (String.length a + 1))%nat with (String.length b) by lia.
    rewrite <- (append_nil_r b) at 2. rewrite substring_take. intros [= <- <-].
    apply lastIndexOf_after in Hlast. rewrite length_append in Hne. cbn [String.length] in Hne.
    split_and!; try done; rewrite <- length_zero; lia.
  - intros (-> & Hl & Hd & Hl0 & Hd0). rewrite indexOf_append by done.
    destruct (String.length l) as [|k] eqn:El; [by apply length_zero in El|]. rewrite <- El.
    rewrite lastIndexOf_append, bool_decide_eq_true_2 by done. rewrite length_append. cbn [String.length negb orb].
    rewrite <- length_zero in Hd0. destruct (Nat.eqb_spec (String.length l) (String.length l + S (String.length d) - 1)); [lia|].
    rewrite substring_take, <- (Nat.add_1_r (String.length l)), substring_skip.
    change (String.substring 1 ?n (String "@" d)) with (String.substring 0 n d).
    replace (String.length l + S (String.length d) - (String.length l + 1))%nat with (String.length d) by lia.
    rewrite <- (append_nil_r d) at 2. by rewrite substring_take.
Qed.

(** What both definitions ask of the two parts of an address. *)
Record email_parts (s l d : string) : Prop := {
  ep_split : splitEmail s = Ok (l, d);
  ep_length : 3 <= strlen s <= 254;
  ep_visible : VISIBLE_PATTERN s = true;
  ep_local_length : strlen l <= 64;
  ep_local : all_chars is_local_char l = true;
  ep_local_first : String.prefix "." l = false;
  ep_local_last : ends_with "." l = false;
  ep_local_dots : includes ".." l = false;
  ep_domain_length : strlen d <= 253;
  ep_labels : Forall (matched (label is_alnum)) (split_on "." d);
}.

Lemma ends_with_append c a b : b <> "" -> ends_with c (a +:+ b) = ends_with c b.
Proof.
  intros Hb. induction a as [|x a IH]; [done|]. rewrite append_cons, <- IH.
  destruct a; [by destruct b | done].
Qed.

Lemma labels_ends d : Forall (matched (label is_alnum)) (split_on "." d) ->
  String.prefix "." d = false /\ ends_with "." d = false /\ d <> "".
Proof.
  rewrite <- (concat_split_on "." d) at 2 3 4. destruct (split_on_cons "." d) as (a & parts & ->).
  intros [(Hf & Hl & Hne)%label_ends Hp]%Forall_cons. revert a Hf Hl Hne.
  induction Hp as [|b parts (Hf' & Hl' & Hne')%label_ends _ IH]; intros a Hf Hl Hne; [done|].
  rewrite concat_cons. destruct (IH b Hf' Hl' Hne') as (IH1 & IH2 & IH3). split_and!.
  - rewrite prefix_left1 in Hf |- *. destruct a as [|c a]; [done|]. rewrite append_cons. revert Hf. unfold left1.
    cbn [String.substring]. by destruct a.
  - rewrite ends_with_append by done. by rewrite ends_with_append.
  - by destruct a.
Qed.

Lemma normalizeContactEmail_ok s s' : normalizeContactEmail (VStr s) = Ok s' <->
  exists l d, email_parts s l d /\ s' = l +:+ String "@" (toLowerCase d).
Proof.
  unfold normalizeContactEmail, MAX_EMAIL_LENGTH, MAX_EMAIL_LOCAL_PART_LENGTH, MAX_EMAIL_DOMAIN_LENGTH. split.
  - intros H. destruct (_ || _) eqn:G1 in H; [done|]. apply rbind_ok in H as ([l d] & Hs & H).
    destruct (_ || _) eqn:G2 in H; [done|]. destruct (existsb _ _) eqn:G3 in H; [done|]. injection H as <-.
    exists l, d. split; [|done]. bsimpl. rewrite existsb_false in G3. constructor; try done; try lia.
    + assert (EMAIL_LOCAL_PART_PATTERN l = true) as Hl by done.
      unfold EMAIL_LOCAL_PART_PATTERN in Hl. by apply regex_test_spec, matched_plus_class in Hl as [_ Hl].
    + apply Forall_forall. intros part Hp. by apply regex_test_spec, negb_false_iff, G3.
  - intros (l & d & [Hs Hlen Hv Hll Hl Hf Hla Hdd Hdl Hlab] & ->).
    assert (EMAIL_LOCAL_PART_PATTERN l = true) as Hlp.
    { apply regex_test_spec, matched_plus_class. split; [|done]. by apply splitEmail_ok in Hs as (_ & _ & _ & ? & _). }
    assert (existsb (fun label => negb (EMAIL_DOMAIN_LABEL_PATTERN label)) (split_on "." d) = false) as He.
    { apply existsb_false. intros part Hp. apply negb_false_iff, regex_test_spec. by eapply Forall_forall in Hlab. }
    destruct (labels_ends d Hlab) as (Hf' & Hla' & _).
    rewrite (proj2 (Z.ltb_ge _ _)), (proj2 (Z.ltb_ge _ _)), Hv, Hs by lia. cbn [negb orb rbind].
    rewrite (proj2 (Z.ltb_ge _ _) Hll), Hlp, Hf, Hla, Hdd, (proj2 (Z.ltb_ge _ _) Hdl), Hf', Hla', He. done.
Qed.

Lemma utf8_bytes_visible s : all_chars is_visible s = true -> utf8_bytes s = strlen s.
Proof.
  induction s as [|c s IH]; [done|]. cbn [all_chars utf8_bytes]. intros [Hc Hs]%andb_true_iff.
  rewrite strlen_cons, IH by done. unfold is_visible, in_range in Hc. bsimpl.
  destruct (Z.leb_spec (code c) 127); lia.
Qed.

Lemma split_part_two l d : free_of "@" l = true -> free_of "@" d = true ->
  split_part (l +:+ String "@" d) "@" 1 = l /\ split_part (l +:+ String "@" d) "@" 2 = d.
Proof. intros Hl Hd. unfold split_part. by rewrite split_on_append, split_on_one. Qed.

Lemma one_separator s : strlen s - strlen (without (is_char "@") s) =? 1 = true <->
  exists a b, s = a +:+ String "@" b /\ free_of "@" a = true /\ free_of "@" b = true.
Proof. rewrite Z.eqb_eq, <- split_two. pose proof (count_parts "@" s). lia. Qed.

Lemma contact_email_check_parts s : account_profiles_contact_email_check s = true <->
  exists l d, email_parts s l d /\ d = toLowerCase d.
Proof.
  unfold account_profiles_contact_email_check, octet_length. split.
  - intros H. do 14 (apply andb_true_iff in H as [H ?]).
    match goal with H : (_ - _ =? 1) = true |- _ => apply one_separator in H as (l & d & -> & Hl & Hd) end.
    destruct (split_part_two l d Hl Hd) as [El Ed]. rewrite El, Ed in *. exists l, d.
    assert (Hlow : d = toLowerCase d) by (by apply String.eqb_eq). split; [|done].
    assert (Hne : forall x, 1 <= strlen x -> x <> "") by (intros x Hx ->; by cbn in Hx).
    rewrite !Z.leb_le in *. constructor; try done.
    + apply splitEmail_ok. split_and!; auto.
    + match goal with H : regex_test (plus _) _ = true |- _ =>
        apply regex_test_spec, matched_plus_class in H as [Hv1 Hv2] end.
      unfold VISIBLE_PATTERN. rewrite Hv2, andb_true_r. apply negb_true_iff. by apply String.eqb_neq.
    + by apply without_nil, String.eqb_eq.
    + rewrite prefix_left1. by apply negb_true_iff.
    + rewrite ends_with_right1. by apply negb_true_iff.
    + by apply negb_true_iff.
    + apply domain_labels; [done|]. by apply regex_test_spec.
  - intros (l & d & [Hs Hlen Hv Hll Hl Hf Hla Hdd Hdl Hlab] & Hlow).
    apply splitEmail_ok in Hs as (-> & Hfl & Hfd & Hl0 & Hd0). destruct (split_part_two l d Hfl Hfd) as [-> ->].
    unfold VISIBLE_PATTERN in Hv. apply andb_true_iff in Hv as [Hv0 Hv].
    assert (Hpos : forall x, x <> "" -> 1 <= strlen x).
    { intros [|c x] Hx; [done|]. rewrite strlen_cons. pose proof (strlen_nonneg x). lia. }
    rewrite prefix_left1 in Hf. rewrite ends_with_right1 in Hla. apply without_nil in Hl. rewrite Hf, Hla, Hdd, Hl.
    rewrite (utf8_bytes_visible _ Hv), Z.eqb_refl, (proj2 (one_separator _)) by eauto.
    rewrite <- Hlow, !String.eqb_refl, (proj2 (regex_test_spec domain_regex d)) by (by apply domain_labels).
    rewrite (proj2 (regex_test_spec (plus (Class is_visible)) _)).
    2:{ apply matched_plus_class. split; [by destruct l | done]. }
    repeat (apply andb_true_iff; split); try done; apply Z.leb_le; auto; lia.
Qed.

Lemma contact_email_normal s :
  account_profiles_contact_email_check s = true <-> normalizeContactEmail (VStr s) = Ok s.
Proof.
  rewrite contact_email_check_parts, normalizeContactEmail_ok. split; intros (l & d & H & E); exists l, d; split; try done.
  - rewrite <- E. by destruct H as [(-> & _)%splitEmail_ok].
  - destruct H as [(-> & _)%splitEmail_ok]. apply (inj (String.append l)) in E. by injection E.
Qed.

Lemma phone_normal phone :
  account_profiles_contact_phone_check phone = true <-> normalizeContactPhone (js_nullable phone) = Ok (Some phone).
Proof.
  destruct phone as [s|]; [|done]. cbn. unfold E164_PHONE_PATTERN. by destruct (regex_test phone_regex s).
Qed.

Lemma country_normal c :
  account_profiles_country_check c = true <-> normalizeDeclaredResidencyCountryCode (VStr c) = Ok c.
Proof.
  cbn [normalizeDeclaredResidencyCountryCode]. unfold account_profiles_country_check. split.
  - intros H. rewrite H. apply existsb_exists in H as (c' & Hc & <-%String.eqb_eq).
    assert (Hall : forallb COUNTRY_CODE_INPUT_PATTERN ISO_3166_ALPHA_2_CODES = true) by by vm_compute.
    rewrite forallb_forall in Hall. by rewrite Hall.
  - destruct (COUNTRY_CODE_INPUT_PATTERN c); [|done]. by destruct (existsb _ _).
Qed.

(** ** Lemmas: a normal form is normal *)

Lemma lower_only (c : ascii) x : lower x = c -> is_alnum c = false -> x = c.
Proof. intros <-. destruct x as [[] [] [] [] [] [] [] []]; vm_compute; congruence. Qed.

Lemma lower_keeps (c x : ascii) : is_alnum c = false -> Ascii.eqb (lower x) c = Ascii.eqb x c.
Proof.
  intros Hc. destruct (Ascii.eqb_spec (lower x) c) as [E|E], (Ascii.eqb_spec x c) as [->|E']; try done.
  - by apply lower_only in E.
  - destruct E. revert Hc. destruct c as [[] [] [] [] [] [] [] []]; vm_compute; congruence.
Qed.

Lemma all_chars_lower p s : (forall c, p c = true -> p (lower c) = true) ->
  all_chars p s = true -> all_chars p (toLowerCase s) = true.
Proof.
  intros Hp. induction s as [|c s IH]; [done|]. cbn [all_chars toLowerCase].
  rewrite !andb_true_iff. intros [Hc Hs]. auto.
Qed.

Lemma strlen_lower s : strlen (toLowerCase s) = strlen s.
Proof. induction s as [|c s IH]; [done|]. cbn [toLowerCase]. by rewrite !strlen_cons, IH. Qed.

Lemma split_on_lower c s : is_alnum c = false -> split_on c (toLowerCase s) = toLowerCase <$> split_on c s.
Proof.
  intros Hc. induction s as [|x s IH]; [done|]. cbn [toLowerCase split_on]. rewrite lower_keeps, IH by done.
  destruct (Ascii.eqb x c); [done|]. by destruct (split_on_cons c s) as (part & parts & ->).
Qed.

Lemma toLowerCase_append a b : toLowerCase (a +:+ b) = toLowerCase a +:+ toLowerCase b.
Proof. induction a as [|c a IH]; [done|]. rewrite append_cons. cbn [toLowerCase]. by rewrite IH. Qed.

Lemma lower_keeps_classes c : (is_alnum c = true -> is_alnum (lower c) = true) /\
  (is_alnum c || is_char "-" c = true -> is_alnum (lower c) || is_char "-" (lower c) = true) /\
  (is_visible c = true -> is_visible (lower c) = true).
Proof. destruct c as [[] [] [] [] [] [] [] []]; by vm_compute. Qed.

Lemma label_lower s : matched (label is_alnum) s -> matched (label is_alnum) (toLowerCase s).
Proof.
  rewrite !label_spec. intros (c & [[-> Hc]|(m & d & -> & Hc & Hd & Hm & Hl)]); exists (lower c).
  - left. split; [done | by apply lower_keeps_classes].
  - right. exists (toLowerCase m), (lower d). cbn [toLowerCase]. rewrite toLowerCase_append.
    split_and!; [done | by apply lower_keeps_classes.. | |].
    + apply all_chars_lower; [|done]. intros x Hx. by apply lower_keeps_classes.
    + pose proof (strlen_lower m) as H. unfold strlen in H. lia.
Qed.

(** What normalisation returns is an address that the table accepts. *)
Lemma normalizeContactEmail_accepted v s :
  normalizeContactEmail v = Ok s -> account_profiles_contact_email_check s = true.
Proof.
  destruct v; try done. intros (l & d & H & ->)%normalizeContactEmail_ok. apply contact_email_check_parts.
  exists l, (toLowerCase d). split; [|by rewrite toLowerCase_idem].
  destruct H as [(-> & Hl & Hd & Hl0 & Hd0)%splitEmail_ok Hlen Hv Hll Hloc Hf Hla Hdd Hdl Hlab].
  unfold VISIBLE_PATTERN in *. apply andb_true_iff in Hv as [_ Hv]. rewrite all_chars_append in Hv.
  apply andb_true_iff in Hv as [Hv1 Hv2]. cbn [all_chars] in Hv2. apply andb_true_iff in Hv2 as [Hv2 Hv3].
  rewrite strlen_append, strlen_cons in Hlen. constructor; try done.
  - apply splitEmail_ok. split_and!; [done | done | | done | by destruct d].
    apply all_chars_lower; [|done]. intros c. by rewrite lower_keeps.
  - by rewrite strlen_append, strlen_cons, strlen_lower.
  - unfold VISIBLE_PATTERN. rewrite all_chars_append, Hv1. cbn [all_chars]. rewrite Hv2, all_chars_lower; [|intros c; by apply lower_keeps_classes|done].
    rewrite andb_true_r. apply negb_true_iff. by destruct l.
  - by rewrite strlen_lower.
  - rewrite split_on_lower by done. apply Forall_fmap. eapply Forall_impl; [exact Hlab|]. apply label_lower.
Qed.

(** ** The constraints and the normal forms *)

(** C15: The table and the application agree on what a profile is: the constraints
    of the profile table accept a row exactly when reading its email address,
    telephone number and country through the application's normalisation gives
    them back unchanged (and its version and instants are in order).  So nothing
    the application normalised can fail at the table, and nothing in the table
    can fail to be read back. *)
Theorem profile_row_checks_iff row :
  account_profiles_checks row = true <->
  normalizeContactEmail (VStr (pr_contact_email row)) = Ok (pr_contact_email row) /\
  normalizeContactPhone (js_nullable (pr_contact_phone row)) = Ok (Some (pr_contact_phone row)) /\
  normalizeDeclaredResidencyCountryCode (VStr (pr_declared_residency_country_code row))
    = Ok (pr_declared_residency_country_code row) /\
  1 <= pr_version row /\ pr_created_at row <= pr_updated_at row.
Proof.
  unfold account_profiles_checks. rewrite !andb_true_iff, contact_email_normal, phone_normal, country_normal.
  rewrite Z.ltb_lt, Z.leb_le. split; [intros [[[[? ?] ?] ?] ?] | intros (? & ? & ? & ? & ?)]; split_and!; (done || lia).
Qed.
