(* ===== verification/AccountRepository.v ===== *)
(** * The account profile repository and service
    (apps/api/src/accounts/infrastructure/postgres-account-profile.repository.ts and
    accounts/application/account-profile.service.ts)

    The repository normalises its input, makes one query and reads one row back
    without trusting it; whatever goes wrong after the query started is one error.
    The queries are calls with any answer; [account_database] answers them from
    the tables of AccountTables, as node-postgres presents their rows.  The
    abstract specification is a store of versioned profiles with a conditional
    update ([versioned_store]); the repository over the tables implements it. *)

From stdpp Require Import base list strings gmap.
From Stdlib Require Import ZArith Lia Ascii.
From S2P Require Import Prelude Text Regex JsValue Effects LogContext AccountProfile AccountTables AccountEmail.

Open Scope Z_scope.

(** ** Data *)

Definition AUDIT_CORRELATION_PATTERN : string -> bool := regex_test correlation_regex.

Record CreateAccountProfileInput : Type := {
  ci_accountId : jsval;
  ci_contactEmail : jsval;
  ci_contactPhone : jsval;
  ci_declaredResidencyCountryCode : jsval;
}.

(** A field that is absent is [undefined]. *)
Record UpdateAccountProfileInput : Type := {
  ui_contactEmail : jsval;
  ui_contactPhone : jsval;
  ui_declaredResidencyCountryCode : jsval;
}.

Record AccountProfileAuditContext : Type := {
  ax_actorAccountId : jsval;
  ax_correlationId : string;
}.

Inductive AccountProfileUpdateResult : Type :=
| RESULT_UPDATED (profile : AccountProfile)
| RESULT_NOT_FOUND
| RESULT_STALE.

(** What can be thrown, by the service too. *)
Inductive account_exception : Type :=
| AccountProfilePersistenceError
| AccountProfileValidationError (code : AccountProfileValidationCode)
| QueryRejected
| AccountProfileNotFoundError
| AccountProfileVersionConflictError.

Notation account_result := (result account_exception).

(** The three queries with their parameters. *)
Inductive account_query : Type :=
| QueryFind (accountId : string)
| QueryProvision (accountId contactEmail : string) (contactPhone : option string)
    (countryCode actorAccountId correlationId : string)
| QueryUpdate (accountId : string) (version : Z) (hasContactEmail : bool) (contactEmail : option string)
    (hasContactPhone : bool) (contactPhone : option string) (hasCountryCode : bool) (countryCode : option string)
    (actorAccountId correlationId : string).

(** [result.rows]: no array, or an array of rows, some of which may be missing. *)
Definition account_rows (q : account_query) : Type := option (list (option jsrec)).

Notation account_io := (io account_rows account_exception).

(** ** Reading rows *)

Definition validated {A} (m : result AccountProfileValidationCode A) : account_result A :=
  rlift AccountProfileValidationError m.

Definition persistence {A} (m : option A) : account_result A := or_throw m AccountProfilePersistenceError.

Definition assertAuditContext (context : AccountProfileAuditContext) : account_result (string * string) :=
  let* actorAccountId := validated (parseAccountId (ax_actorAccountId context)) in
  reject AccountProfilePersistenceError when negb (AUDIT_CORRELATION_PATTERN (ax_correlationId context)) in
  Ok (actorAccountId, ax_correlationId context).

(** [value instanceof Date && Number.isFinite(value.getTime())] *)
Definition finite_date (value : jsval) : account_result Z := persistence (date_time value).

Definition is_text (value : jsval) (s : string) : bool :=
  match value with
  | VStr t => String.eqb t s
  | _ => false
  end.

Definition mapProfile (row : jsrec) : account_result AccountProfile :=
  reject AccountProfilePersistenceError when negb (is_text (row .: "eligibility_status") "UNKNOWN") in
  let* version := persistence (safe_integer (row .: "version")) in
  reject AccountProfilePersistenceError when version <? 1 in
  let* createdAt := finite_date (row .: "created_at") in
  let* updatedAt := finite_date (row .: "updated_at") in
  let* contactEmail := validated (normalizeContactEmail (row .: "contact_email")) in
  let* contactPhone := (if is_null (row .: "contact_phone") then Ok None
                        else rmap mjoin (validated (normalizeContactPhone (row .: "contact_phone")))) in
  reject AccountProfilePersistenceError when
    negb (is_null (row .: "contact_phone")) && bool_decide (contactPhone = None) in
  let* accountId := validated (parseAccountId (row .: "account_id")) in
  let* country := validated (normalizeDeclaredResidencyCountryCode (row .: "declared_residency_country_code")) in
  Ok {| ap_accountId := accountId; ap_contactEmail := contactEmail; ap_contactPhone := contactPhone;
        ap_declaredResidencyCountryCode := country; ap_version := version; ap_createdAt := createdAt;
        ap_updatedAt := updatedAt |}.

Definition oneRow (rows : option (list (option jsrec))) : account_result jsrec :=
  match rows with
  | Some [Some row] => Ok row
  | _ => Err AccountProfilePersistenceError
  end.

Definition accountScopedProfile (row : jsrec) (expectedAccountId : string) : account_result AccountProfile :=
  let* profile := mapProfile row in
  reject AccountProfilePersistenceError when negb (String.eqb (ap_accountId profile) expectedAccountId) in
  Ok profile.

Definition mapAccountScopedProfileRead (rows : option (list (option jsrec))) (expectedAccountId : string)
    : account_result (option AccountProfile) :=
  match rows with
  | None => Err AccountProfilePersistenceError
  | Some [] => Ok None
  | rows => let* row := oneRow rows in rmap Some (accountScopedProfile row expectedAccountId)
  end.

Definition REQUIRED_COLUMNS : list string :=
  ["account_id"; "contact_email"; "declared_residency_country_code"; "eligibility_status"; "version";
   "created_at"; "updated_at"].

(** The row that is passed on has the columns of this one. *)
Definition profileFromUpdateRow (row : jsrec) (expectedAccountId : string) : account_result AccountProfile :=
  reject AccountProfilePersistenceError when existsb (fun column => is_null (row .: column)) REQUIRED_COLUMNS in
  accountScopedProfile row expectedAccountId.

Definition assertNoProfileMaterial (row : jsrec) : account_result unit :=
  reject AccountProfilePersistenceError when
    existsb (fun column => negb (is_null (row .: column))) ("contact_phone" :: REQUIRED_COLUMNS) in
  Ok tt.

(** ** The repository *)

Definition is_absent (value : jsval) : bool :=
  match value with
  | VUndef => true
  | _ => false
  end.

(** [try { ... } catch { throw new AccountProfilePersistenceError() }] *)
Definition guarded {A} (m : account_io A) : account_io A :=
  io_try m (fun _ => Done (Err AccountProfilePersistenceError)).

Definition findByAccountId (accountId : jsval) : account_io (option AccountProfile) :=
  guarded (
    await* expectedAccountId := Done (validated (parseAccountId accountId)) in
    await* rows := call (QueryFind expectedAccountId) in
    Done (mapAccountScopedProfileRead rows expectedAccountId)).

Definition provisionForAccount (input : CreateAccountProfileInput) (auditContext : AccountProfileAuditContext)
    : account_io AccountProfile :=
  await* accountId := Done (validated (parseAccountId (ci_accountId input))) in
  await* actor := Done (assertAuditContext auditContext) in
  await* contactEmail := Done (validated (normalizeContactEmail (ci_contactEmail input))) in
  await* contactPhone := Done (rmap mjoin (validated (normalizeContactPhone (ci_contactPhone input)))) in
  await* countryCode := Done (validated (normalizeDeclaredResidencyCountryCode (ci_declaredResidencyCountryCode input))) in
  guarded (
    await* rows := call (QueryProvision accountId contactEmail contactPhone countryCode actor.1 actor.2) in
    Done (let* row := oneRow rows in accountScopedProfile row accountId)).

(** [has ? f(value) : null] *)
Definition if_given {A} (f : jsval -> account_result A) (value : jsval) : account_result (option A) :=
  if is_absent value then Ok None else rmap Some (f value).

Definition update (accountId : jsval) (expectedVersion : jsval) (input : UpdateAccountProfileInput)
    (auditContext : AccountProfileAuditContext) : account_io AccountProfileUpdateResult :=
  await* normalizedAccountId := Done (validated (parseAccountId accountId)) in
  await* version := Done (validated (assertValidProfileVersion expectedVersion)) in
  await* actor := Done (assertAuditContext auditContext) in
  let hasContactEmail := negb (is_absent (ui_contactEmail input)) in
  let hasContactPhone := negb (is_absent (ui_contactPhone input)) in
  let hasCountryCode := negb (is_absent (ui_declaredResidencyCountryCode input)) in
  if negb (hasContactEmail || hasContactPhone || hasCountryCode) then Done (Err AccountProfilePersistenceError)
  else
    await* contactEmail := Done (if_given (fun v => validated (normalizeContactEmail v)) (ui_contactEmail input)) in
    await* contactPhone := Done (rmap mjoin (if_given (fun v => rmap mjoin (validated (normalizeContactPhone v)))
                                               (ui_contactPhone input))) in
    await* countryCode := Done (if_given (fun v => validated (normalizeDeclaredResidencyCountryCode v))
                                  (ui_declaredResidencyCountryCode input)) in
    guarded (
      await* rows := call (QueryUpdate normalizedAccountId version hasContactEmail contactEmail hasContactPhone
                             contactPhone hasCountryCode countryCode actor.1 actor.2) in
      Done (
        let* row := oneRow rows in
        if is_text (row .: "outcome") "stale" then rmap (fun _ => RESULT_STALE) (assertNoProfileMaterial row)
        else if is_text (row .: "outcome") "not-found"
             then rmap (fun _ => RESULT_NOT_FOUND) (assertNoProfileMaterial row)
        else
          reject AccountProfilePersistenceError when negb (is_text (row .: "outcome") "updated") in
          rmap RESULT_UPDATED (profileFromUpdateRow row normalizedAccountId))).

(** ** The service

    [active] is [loggingContext.current()]; [uuid] and [uuid'] are the values of
    [randomUUID()]. *)

Definition correlationId (active : option LogCorrelationContext) (uuid : string) : string :=
  default uuid (active ≫= fun context => context !! "correlationId").

Definition findSelf (accountId : jsval) : account_io AccountProfile :=
  await* profile := findByAccountId accountId in
  Done (or_throw profile AccountProfileNotFoundError).

Record ProvisionAccountProfileInput : Type := {
  pi_contactEmail : jsval;
  pi_contactPhone : jsval;
  pi_declaredResidencyCountryCode : jsval;
}.

Definition provisionAccount (active : option LogCorrelationContext) (uuid uuid' : string)
    (input : ProvisionAccountProfileInput) : account_io AccountProfile :=
  await* accountId := Done (validated (parseAccountId (VStr uuid))) in
  provisionForAccount
    {| ci_accountId := VStr accountId; ci_contactEmail := pi_contactEmail input;
       ci_contactPhone := pi_contactPhone input;
       ci_declaredResidencyCountryCode := pi_declaredResidencyCountryCode input |}
    {| ax_actorAccountId := VStr accountId; ax_correlationId := correlationId active uuid' |}.

Definition updateSelf (active : option LogCorrelationContext) (uuid : string) (accountId expectedVersion : jsval)
    (input : UpdateAccountProfileInput) : account_io AccountProfile :=
  await* result := update accountId expectedVersion input
                     {| ax_actorAccountId := accountId; ax_correlationId := correlationId active uuid |} in
  Done match result with
       | RESULT_NOT_FOUND => Err AccountProfileNotFoundError
       | RESULT_STALE => Err AccountProfileVersionConflictError
       | RESULT_UPDATED profile => Ok profile
       end.

(** ** The queries on the tables *)

Section database.
(** node-postgres's conversion of a [timestamptz] to the milliseconds of a
    [Date]. *)
Variable date_of : Z -> Z.

Definition profile_columns (p : profile_row) (eligibility_status : option string) : jsrec :=
  [("account_id", VStr (pr_account_id p)); ("contact_email", VStr (pr_contact_email p));
   ("contact_phone", js_nullable (pr_contact_phone p));
   ("declared_residency_country_code", VStr (pr_declared_residency_country_code p));
   ("eligibility_status", js_nullable eligibility_status); ("version", VNum (JInt (pr_version p)));
   ("created_at", js_date (date_of (pr_created_at p))); ("updated_at", js_date (date_of (pr_updated_at p)))].

Definition no_columns : jsrec :=
  [("account_id", VNull); ("contact_email", VNull); ("contact_phone", VNull);
   ("declared_residency_country_code", VNull); ("eligibility_status", VNull); ("version", VNull);
   ("created_at", VNull); ("updated_at", VNull)].

Definition outcome_columns (outcome : update_outcome) : jsrec :=
  match outcome with
  | UPDATE_UPDATED p eligibility_status => ("outcome", VStr "updated") :: profile_columns p eligibility_status
  | UPDATE_NOT_FOUND => ("outcome", VStr "not-found") :: no_columns
  | UPDATE_STALE => ("outcome", VStr "stale") :: no_columns
  end.

Definition account_database (now : Z) (audit_id : string) (q : account_query) (db : account_tables)
    : account_result (account_rows q) * account_tables :=
  match q with
  | QueryFind id =>
      (Ok (Some match account_profiles db !! id, accounts db !! id with
                | Some p, Some account => [Some (profile_columns p (Some (ac_eligibility_status account)))]
                | _, _ => []
                end), db)
  | QueryProvision id email phone country actor correlation =>
      match provision_account_profile now audit_id db (Some id) (Some email) phone (Some country) (Some actor)
              (Some correlation) with
      | Some (p, eligibility_status, db') => (Ok (Some [Some (profile_columns p eligibility_status)]), db')
      | None => (Err QueryRejected, db)
      end
  | QueryUpdate id version hasEmail email hasPhone phone hasCountry country actor correlation =>
      match update_account_profile now audit_id db (Some id) (Some version) (Some hasEmail) email (Some hasPhone) phone
              (Some hasCountry) country (Some actor) (Some correlation) with
      | Some (outcome, db') => (Ok (Some [Some (outcome_columns outcome)]), db')
      | None => (Err QueryRejected, db)
      end
  end.

(** ** Specification: a store of versioned profiles *)

(** What a caller sees of a row. *)
Definition presented (p : profile_row) : AccountProfile :=
  {| ap_accountId := pr_account_id p; ap_contactEmail := pr_contact_email p; ap_contactPhone := pr_contact_phone p;
     ap_declaredResidencyCountryCode := pr_declared_residency_country_code p; ap_version := pr_version p;
     ap_createdAt := date_of (pr_created_at p); ap_updatedAt := date_of (pr_updated_at p) |}.

Inductive store_request : Type :=
| RequestFind (accountId : jsval)
| RequestProvision (input : CreateAccountProfileInput) (context : AccountProfileAuditContext)
| RequestUpdate (accountId expectedVersion : jsval) (input : UpdateAccountProfileInput)
    (context : AccountProfileAuditContext).

Inductive store_answer : Type :=
| AnswerFound (profile : option AccountProfile)
| AnswerProvisioned (profile : AccountProfile)
| AnswerUpdated (result : AccountProfileUpdateResult).

Definition repository (request : store_request) : account_io store_answer :=
  match request with
  | RequestFind accountId => await* a := findByAccountId accountId in Done (Ok (AnswerFound a))
  | RequestProvision input context => await* a := provisionForAccount input context in Done (Ok (AnswerProvisioned a))
  | RequestUpdate accountId expectedVersion input context =>
      await* a := update accountId expectedVersion input context in Done (Ok (AnswerUpdated a))
  end.

(** A new profile, and the changes to one. *)
Record creation : Type := {
  cr_accountId : string;
  cr_actorAccountId : string;
  cr_contactEmail : string;
  cr_contactPhone : option string;
  cr_countryCode : string;
}.

Record changes : Type := {
  ch_accountId : string;
  ch_actorAccountId : string;
  ch_version : Z;
  ch_contactEmail : option string;
  ch_contactPhone : option (option string);
  ch_countryCode : option string;
}.

Definition checked_creation (input : CreateAccountProfileInput) (context : AccountProfileAuditContext)
    : account_result creation :=
  let* accountId := validated (parseAccountId (ci_accountId input)) in
  let* actor := assertAuditContext context in
  let* contactEmail := validated (normalizeContactEmail (ci_contactEmail input)) in
  let* contactPhone := validated (normalizeContactPhone (ci_contactPhone input)) in
  let* countryCode := validated (normalizeDeclaredResidencyCountryCode (ci_declaredResidencyCountryCode input)) in
  Ok {| cr_accountId := accountId; cr_actorAccountId := actor.1; cr_contactEmail := contactEmail;
        cr_contactPhone := mjoin contactPhone; cr_countryCode := countryCode |}.

Definition checked_changes (accountId expectedVersion : jsval) (input : UpdateAccountProfileInput)
    (context : AccountProfileAuditContext) : account_result changes :=
  let* accountId := validated (parseAccountId accountId) in
  let* version := validated (assertValidProfileVersion expectedVersion) in
  let* actor := assertAuditContext context in
  reject AccountProfilePersistenceError when
    is_absent (ui_contactEmail input) && is_absent (ui_contactPhone input)
    && is_absent (ui_declaredResidencyCountryCode input) in
  let* contactEmail := if_given (fun v => validated (normalizeContactEmail v)) (ui_contactEmail input) in
  let* contactPhone := if_given (fun v => rmap mjoin (validated (normalizeContactPhone v))) (ui_contactPhone input) in
  let* countryCode := if_given (fun v => validated (normalizeDeclaredResidencyCountryCode v))
                        (ui_declaredResidencyCountryCode input) in
  Ok {| ch_accountId := accountId; ch_actorAccountId := actor.1; ch_version := version;
        ch_contactEmail := contactEmail; ch_contactPhone := contactPhone; ch_countryCode := countryCode |}.

Definition created (now : Z) (c : creation) : profile_row :=
  {| pr_account_id := cr_accountId c; pr_contact_email := cr_contactEmail c; pr_contact_phone := cr_contactPhone c;
     pr_declared_residency_country_code := cr_countryCode c; pr_version := 1; pr_created_at := now;
     pr_updated_at := now |}.

Definition changed (now : Z) (p : profile_row) (c : changes) : profile_row :=
  updated_row now p (default (pr_contact_email p) (ch_contactEmail c))
    (default (pr_contact_phone p) (ch_contactPhone c))
    (default (pr_declared_residency_country_code p) (ch_countryCode c)).

Definition versioned_store (now : Z) (request : store_request) (store : gmap string profile_row)
    : account_result store_answer * gmap string profile_row :=
  match request with
  | RequestFind accountId =>
      match parseAccountId accountId with
      | Ok id => (Ok (AnswerFound (presented <$> store !! id)), store)
      | Err _ => (Err AccountProfilePersistenceError, store)
      end
  | RequestProvision input context =>
      match checked_creation input context with
      | Err e => (Err e, store)
      | Ok c =>
          if String.eqb (cr_actorAccountId c) (cr_accountId c) && bool_decide (store !! cr_accountId c = None)
          then (Ok (AnswerProvisioned (presented (created now c))), <[cr_accountId c := created now c]> store)
          else (Err AccountProfilePersistenceError, store)
      end
  | RequestUpdate accountId expectedVersion input context =>
      match checked_changes accountId expectedVersion input context with
      | Err e => (Err e, store)
      | Ok c =>
          if negb (String.eqb (ch_actorAccountId c) (ch_accountId c)) then (Err AccountProfilePersistenceError, store)
          else match store !! ch_accountId c with
               | None => (Ok (AnswerUpdated RESULT_NOT_FOUND), store)
               | Some p =>
                   if negb (pr_version p =? ch_version c) then (Ok (AnswerUpdated RESULT_STALE), store)
                   else if pr_version p =? MAX_PROFILE_VERSION then (Err AccountProfilePersistenceError, store)
                   else (Ok (AnswerUpdated (RESULT_UPDATED (presented (changed now p c)))),
                         <[ch_accountId c := changed now p c]> store)
               end
      end
  end.

(** ** Lemmas: reading back *)

Lemma checks_normal p : account_profiles_checks p = true ->
  normalizeContactEmail (VStr (pr_contact_email p)) = Ok (pr_contact_email p) /\
  normalizeContactPhone (js_nullable (pr_contact_phone p)) = Ok (Some (pr_contact_phone p)) /\
  normalizeDeclaredResidencyCountryCode (VStr (pr_declared_residency_country_code p))
    = Ok (pr_declared_residency_country_code p) /\ 1 <= pr_version p.
Proof.
  unfold account_profiles_checks. intros H. bsimpl. split_and!; [by apply contact_email_normal | by apply phone_normal |
    by apply country_normal | lia].
Qed.

Lemma read_profile p id : account_profiles_checks p = true -> pr_version p <= MAX_INT4 -> pr_account_id p = id ->
  UUID_V4_PATTERN id = true ->
  accountScopedProfile (profile_columns p (Some "UNKNOWN")) id = Ok (presented p).
Proof.
  intros (He & Hp & Hc & Hv)%checks_normal Hmax <- Hid. unfold accountScopedProfile, mapProfile.
  cbn [profile_columns field String.eqb Ascii.eqb Bool.eqb js_nullable is_text negb].
  change (String.eqb "UNKNOWN" "UNKNOWN") with true. cbn [negb safe_integer].
  rewrite (proj2 (Z.leb_le _ _)) by (unfold MAX_SAFE_INTEGER, MAX_INT4 in *; lia).
  cbn [persistence or_throw rbind]. rewrite (proj2 (Z.ltb_ge _ _)) by lia.
  unfold finite_date, validated. cbn [js_date date_time persistence or_throw rbind]. rewrite He. cbn [rlift rcatch rbind].
  rewrite Hp, Hc. unfold parseAccountId. rewrite Hid. destruct (pr_contact_phone p) eqn:Ep; cbn;
    rewrite String.eqb_refl; unfold presented; by rewrite Ep.
Qed.

(** ** Lemmas: what the tables accept *)

Lemma matches_nth ps s i p : matches ps s = true -> ps !! i = Some p ->
  exists c, String.substring i 1 s = String c "" /\ p c = true.
Proof.
  revert s i. induction ps as [|q ps IH]; intros [|c s] [|i]; cbn [matches]; try done.
  - intros [Hc _]%andb_true_iff [= <-]. exists c. split; [by destruct s | done].
  - intros [_ Hs]%andb_true_iff Hp. by apply (IH s i).
Qed.

Lemma variant_char c : is_variant c = true -> existsb (String.eqb (String c "")) ["8"; "9"; "a"; "b"] = true.
Proof. destruct c as [[] [] [] [] [] [] [] []]; by vm_compute. Qed.

Lemma uuid_v4_accepted s : UUID_V4_PATTERN s = true -> uuid_v4_check s = true.
Proof.
  intros H. unfold uuid_v4_check.
  destruct (matches_nth _ s 14 (is_char "4"%char) H) as (c & -> & Hc); [done|].
  destruct (matches_nth _ s 19 is_variant H) as (d & -> & Hd); [done|].
  rewrite (variant_char d Hd). unfold is_char in Hc. apply Ascii.eqb_eq in Hc. by subst.
Qed.

Lemma correlation_length s : AUDIT_CORRELATION_PATTERN s = true -> 1 <= strlen s <= 128.
Proof.
  intros H%regex_test_spec. apply matched_one in H as (c & w & -> & _ & [_ Hl]%matched_upto).
  rewrite strlen_cons. unfold strlen. lia.
Qed.

Lemma insert_audit_ok db row account actor :
  account_profile_audit_checks row = true -> (forall r, r ∈ account_profile_audit db -> au_audit_id r <> au_audit_id row) ->
  accounts db !! au_account_id row = Some account -> accounts db !! au_actor_account_id row = Some actor ->
  insert_audit db row = Some {| accounts := accounts db; account_profiles := account_profiles db;
                                account_profile_audit := account_profile_audit db ++ [row] |}.
Proof.
  intros Hc Hf Ha Hb. unfold insert_audit. rewrite Hc, Ha, Hb.
  assert (existsb (fun other => String.eqb (au_audit_id other) (au_audit_id row)) (account_profile_audit db) = false) as ->;
    [|done].
  apply existsb_false. intros r Hr. apply String.eqb_neq. by apply Hf.
Qed.

Lemma insert_account_ok db id now : uuid_v4_check id = true -> accounts db !! id = None ->
  let row := {| ac_account_id := id; ac_eligibility_status := "UNKNOWN"; ac_created_at := now |} in
  insert_account db row = Some {| accounts := <[id := row]> (accounts db); account_profiles := account_profiles db;
                                  account_profile_audit := account_profile_audit db |}.
Proof.
  intros Hv Hn row. unfold insert_account. cbn [ac_account_id ac_eligibility_status row]. by rewrite Hv, Hn.
Qed.

Lemma insert_profile_ok db row account : account_profiles_checks row = true ->
  account_profiles db !! pr_account_id row = None -> accounts db !! pr_account_id row = Some account ->
  insert_profile db row = Some (set_profile db row).
Proof. intros Hc Hn Ha. unfold insert_profile. by rewrite Hc, Hn, Ha. Qed.

Lemma parseAccountId_ok v id : parseAccountId v = Ok id -> v = VStr id /\ UUID_V4_PATTERN id = true.
Proof. destruct v; try done. cbn [parseAccountId]. destruct (UUID_V4_PATTERN s) eqn:E; [intros [= ->] | ]; done. Qed.

Lemma normalizeContactPhone_accepted v phone :
  normalizeContactPhone v = Ok phone -> account_profiles_contact_phone_check (mjoin phone) = true.
Proof.
  destruct v; cbn; try done; try (by intros [= <-]).
  destruct (E164_PHONE_PATTERN s) eqn:E; [intros [= <-] |]; done.
Qed.

Lemma normalizeCountry_accepted v c :
  normalizeDeclaredResidencyCountryCode v = Ok c -> account_profiles_country_check c = true.
Proof.
  destruct v; try done. cbn [normalizeDeclaredResidencyCountryCode].
  destruct (COUNTRY_CODE_INPUT_PATTERN s); [|done].
  unfold account_profiles_country_check. destruct (existsb (String.eqb s) _) eqn:E; [intros [= <-] |]; done.
Qed.

Lemma assertAuditContext_ok context actor : assertAuditContext context = Ok actor ->
  UUID_V4_PATTERN actor.1 = true /\ AUDIT_CORRELATION_PATTERN actor.2 = true.
Proof.
  unfold assertAuditContext, validated. intros H. inv_ok. subst. apply negb_false_iff in Hg.
  by apply parseAccountId_ok in Hr as [_ ?].
Qed.

(** The audit identifier that the database draws is fresh. *)
Definition fresh_audit (db : account_tables) (audit_id : string) : Prop :=
  uuid_v4_check audit_id = true /\ forall row, row ∈ account_profile_audit db -> au_audit_id row <> audit_id.

Lemma provision_accepts now audit_id db id email phone country correlation :
  tables_ok db -> fresh_audit db audit_id -> UUID_V4_PATTERN id = true ->
  account_profiles_contact_email_check email = true -> account_profiles_contact_phone_check phone = true ->
  account_profiles_country_check country = true -> AUDIT_CORRELATION_PATTERN correlation = true ->
  account_profiles db !! id = None ->
  exists db', let p := {| pr_account_id := id; pr_contact_email := email; pr_contact_phone := phone;
      pr_declared_residency_country_code := country; pr_version := 1; pr_created_at := now; pr_updated_at := now |} in
    provision_account_profile now audit_id db (Some id) (Some email) phone (Some country) (Some id) (Some correlation)
      = Some (p, Some "UNKNOWN", db') /\ account_profiles db' = <[id := p]> (account_profiles db).
Proof.
  intros Hok [Hv Hf] Hid He Hp Hc Hcorr Hnone.
  assert (Hacc : accounts db !! id = None).
  { destruct (accounts db !! id) as [a|] eqn:E; [|done].
    destruct (to_accounts _ Hok _ _ E) as (_ & _ & _ & [q Hq]). congruence. }
  eexists. intros p. unfold provision_account_profile. rewrite bool_decide_eq_true_2 by done. cbn [negb raise_when mbind option_bind].
  rewrite insert_account_ok by (done || by apply uuid_v4_accepted). cbn [mbind option_bind].
  erewrite insert_profile_ok; [| | done | apply lookup_insert_eq].
  2:{ unfold account_profiles_checks.
      cbn -[account_profiles_contact_email_check account_profiles_contact_phone_check account_profiles_country_check].
      by rewrite He, Hp, Hc, Z.leb_refl. }
  pose proof (correlation_length _ Hcorr) as Hl. unfold AUDIT_CORRELATION_PATTERN in Hcorr. cbn [mbind option_bind].
  erewrite insert_audit_ok; [| | | cbn; apply lookup_insert_eq | cbn; apply lookup_insert_eq].
  - cbn [mbind option_bind]. unfold eligibility. cbn. rewrite lookup_insert_eq. done.
  - unfold account_profile_audit_checks. cbn [au_audit_id au_correlation_id au_action au_result au_changed_fields].
    rewrite Hv, Hcorr, !(proj2 (Z.leb_le _ _)) by lia. done.
  - exact Hf.
Qed.

Lemma update_accepts now audit_id db id p he hp hc email phone country e c correlation :
  tables_ok db -> fresh_audit db audit_id -> account_profiles db !! id = Some p -> pr_version p < MAX_INT4 ->
  he || hp || hc = true -> updated_column he email (pr_contact_email p) = Some e ->
  updated_column hc country (pr_declared_residency_country_code p) = Some c ->
  account_profiles_contact_email_check e = true ->
  account_profiles_contact_phone_check (if hp then phone else pr_contact_phone p) = true ->
  account_profiles_country_check c = true -> AUDIT_CORRELATION_PATTERN correlation = true ->
  exists db', let p' := updated_row now p e (if hp then phone else pr_contact_phone p) c in
    update_account_profile now audit_id db (Some id) (Some (pr_version p)) (Some he) email (Some hp) phone (Some hc) country
      (Some id) (Some correlation) = Some (UPDATE_UPDATED p' (Some "UNKNOWN"), db') /\
    account_profiles db' = <[id := p']> (account_profiles db).
Proof.
  intros Hok [Hv Hf] Hp Hmax Hsome He Hc Hec Hpc Hcc Hcorr.
  destruct (to_profiles _ Hok _ _ Hp) as (Hid & Hchecks & _ & [a Ha]).
  destruct (to_accounts _ Hok _ _ Ha) as (_ & _ & Hel & _).
  pose proof (profile_version _ Hchecks) as Hver. pose proof (correlation_length _ Hcorr) as Hl.
  assert (Htimes : pr_created_at p <= pr_updated_at p) by (unfold account_profiles_checks in Hchecks; by bsimpl).
  eexists. intros p'. unfold update_account_profile. rewrite bool_decide_eq_true_2 by done. cbn [negb raise_when mbind option_bind].
  rewrite (proj2 (Z.ltb_ge _ _)), Hsome by lia. cbn [negb raise_when]. rewrite Hp, Z.eqb_refl. cbn [negb].
  rewrite He. cbn [mbind option_bind]. rewrite Hc. cbn [mbind option_bind].
  unfold update_profile, enforce_account_profile_update.
  cbn [pr_account_id pr_created_at pr_version pr_updated_at pr_contact_email pr_contact_phone pr_declared_residency_country_code].
  rewrite String.eqb_refl, !Z.eqb_refl, (proj2 (Z.ltb_ge _ _)) by lia. cbn [negb raise_when mbind option_bind].
  assert (Hp' : account_profiles_checks p' = true).
  { unfold account_profiles_checks, p', updated_row.
    cbn [pr_contact_email pr_contact_phone pr_declared_residency_country_code pr_version pr_created_at pr_updated_at].
    by rewrite Hec, Hpc, Hcc, (proj2 (Z.ltb_lt _ _)), (proj2 (Z.leb_le _ _)) by lia. }
  change (account_profiles_checks _) with (account_profiles_checks p'). rewrite Hp'. cbn [negb raise_when mbind option_bind].
  rewrite (insert_audit_ok _ _ a a); [| | exact Hf | cbn; by rewrite ?Hid..].
  - cbn [mbind option_bind]. unfold eligibility. cbn [accounts account_profiles account_profile_audit set_profile pr_account_id].
    rewrite Hid, Ha. cbn [fmap option_fmap option_map]. rewrite Hel, <- Hid. by split.
  - unfold account_profile_audit_checks, version_transition_check. unfold AUDIT_CORRELATION_PATTERN in Hcorr.
    cbn [au_audit_id au_correlation_id au_action au_result au_changed_fields au_before_version au_after_version pr_version].
    rewrite Hv, Hcorr, !(proj2 (Z.leb_le _ _)) by lia. rewrite Z.add_simpl_r, Z.eqb_refl, (proj2 (Z.ltb_lt _ _)) by lia.
    by destruct he, hp, hc.
Qed.

(** ** Lemmas: runs *)

Definition on_tables {A} (now : Z) (audit_id : string) (db : account_tables) (m : account_io A)
    : account_result A * account_tables :=
  let '(r, _, db') := run (account_database now audit_id) db m in (r, db').

Lemma on_tables_bind {A B} now audit_id db (m : account_io A) (f : A -> account_io B) :
  on_tables now audit_id db (io_bind m f) =
  match on_tables now audit_id db m with
  | (Ok a, db') => on_tables now audit_id db' (f a)
  | (Err e, db') => (Err e, db')
  end.
Proof.
  unfold on_tables. revert db. induction m as [[a|e]|c k IH]; intros db; cbn [io_bind run]; [done | done|].
  destruct (account_database now audit_id c db) as [a db']. specialize (IH a db').
  destruct (run (account_database now audit_id) db' (io_bind (k a) f)) as [[r t] w].
  by destruct (run (account_database now audit_id) db' (k a)) as [[[b|e] t'] w'].
Qed.

(** A query and what is made of its rows. *)
Lemma on_tables_guarded {A} now audit_id db q (f : account_rows q -> account_result A) :
  on_tables now audit_id db (guarded (io_bind (call q) (fun rows => Done (f rows)))) =
  let '(rows, db') := account_database now audit_id q db in
  (match rows with
   | Ok rows => rcatch (f rows) (fun _ => Err AccountProfilePersistenceError)
   | Err _ => Err AccountProfilePersistenceError
   end, db').
Proof.
  unfold on_tables, guarded. cbn. destruct (account_database now audit_id q db) as [[rows|e] db']; cbn; [|done].
  by destruct (f rows).
Qed.

Lemma on_tables_steps {A} now audit_id db (m : account_io A) r db' :
  on_tables now audit_id db m = (r, db') -> rtc account_step db db'.
Proof.
  assert (Hq : forall q db r db', account_database now audit_id q db = (r, db') -> rtc account_step db db').
  { intros [id|id e ph c a k|id v he e hp ph hc c a k] db0 r0 db0'; cbn [account_database].
    - intros [= _ <-]. apply rtc_refl.
    - destruct (provision_account_profile _ _ _ _ _ _ _ _ _) as [[[p el] db1]|] eqn:E; intros [= _ <-]; [|apply rtc_refl].
      apply rtc_once. by eapply step_provision.
    - destruct (update_account_profile _ _ _ _ _ _ _ _ _ _ _ _ _) as [[o db1]|] eqn:E; intros [= _ <-]; [|apply rtc_refl].
      apply rtc_once. by eapply step_update. }
  unfold on_tables. revert db. induction m as [r'|q k IH]; intros db; cbn [run]; [intros [= _ <-]; apply rtc_refl|].
  destruct (account_database now audit_id q db) as [a db1] eqn:E. intros H. etrans; [by eapply Hq|]. apply (IH a db1).
  destruct (run (account_database now audit_id) db1 (k a)) as [[r2 t2] w2]. by injection H as <- <-.
Qed.

(** ** Lemmas: each method on the tables *)

Definition answered {A} (f : A -> store_answer) (p : account_result A * account_tables)
    : account_result store_answer * gmap string profile_row := (rmap f p.1, account_profiles p.2).

Lemma find_on_tables now audit_id db accountId : tables_ok db ->
  answered AnswerFound (on_tables now audit_id db (findByAccountId accountId)) =
  versioned_store now (RequestFind accountId) (account_profiles db).
Proof.
  intros Hok. cbn [versioned_store]. unfold findByAccountId. destruct (parseAccountId accountId) as [id|e] eqn:E; [|done].
  cbn [validated rlift rcatch]. change (io_bind (Done (Ok id)) ?f) with (f id). cbv beta.
  rewrite on_tables_guarded. cbn [account_database]. apply parseAccountId_ok in E as [_ Hid].
  destruct (account_profiles db !! id) as [p|] eqn:Ep; [|done].
  destruct (to_profiles _ Hok _ _ Ep) as (Epid & Hc & Hv & [a Ha]).
  destruct (to_accounts _ Hok _ _ Ha) as (_ & _ & Hel & _). rewrite Ha, Hel.
  unfold answered. cbn [mapAccountScopedProfileRead oneRow rbind fst snd].
  by rewrite read_profile.
Qed.

Lemma provision_on_tables now audit_id db input context : tables_ok db -> fresh_audit db audit_id ->
  answered AnswerProvisioned (on_tables now audit_id db (provisionForAccount input context)) =
  versioned_store now (RequestProvision input context) (account_profiles db).
Proof.
  intros Hok Hf. cbn [versioned_store]. unfold provisionForAccount, checked_creation.
  destruct (validated (parseAccountId (ci_accountId input))) as [id|e] eqn:E1; [|done].
  change (io_bind (Done (Ok id)) ?f) with (f id). cbv beta. cbn [rbind].
  destruct (assertAuditContext context) as [actor|e] eqn:E2; [|done].
  change (io_bind (Done (Ok actor)) ?f) with (f actor). cbv beta. cbn [rbind].
  destruct (validated (normalizeContactEmail _)) as [email|e] eqn:E3; [|done].
  change (io_bind (Done (Ok email)) ?f) with (f email). cbv beta. cbn [rbind].
  destruct (validated (normalizeContactPhone _)) as [phone|e] eqn:E4; [|done]. cbn [rmap].
  change (io_bind (Done (Ok (mjoin phone))) ?f) with (f (mjoin phone)). cbv beta. cbn [rbind].
  destruct (validated (normalizeDeclaredResidencyCountryCode _)) as [country|e] eqn:E5; [|done].
  change (io_bind (Done (Ok country)) ?f) with (f country). cbv beta. cbn [rbind].
  cbn [cr_actorAccountId cr_accountId].
  unfold validated in *. apply rlift_ok, parseAccountId_ok in E1 as [_ Hid].
  apply rlift_ok, normalizeContactEmail_accepted in E3. apply rlift_ok, normalizeContactPhone_accepted in E4.
  apply rlift_ok, normalizeCountry_accepted in E5. apply assertAuditContext_ok in E2 as [_ Hcorr].
  rewrite on_tables_guarded. cbn [account_database].
  destruct (String.eqb_spec actor.1 id) as [Ea|Hne]; [|].
  - rewrite Ea. destruct (account_profiles db !! id) as [q|] eqn:Eq; cbn [andb].
    + destruct (provision_account_profile _ _ _ _ _ _ _ _ _) as [[[p el] db']|] eqn:Ep; [|by rewrite bool_decide_eq_false_2].
      apply provision_some in Ep as (id' & ? & ? & ? & [= <-] & _ & _ & _ & Hn & _).
      destruct (to_profiles _ Hok _ _ Eq) as (_ & _ & _ & [a Ha]). congruence.
    + destruct (provision_accepts now audit_id db id email (mjoin phone) country actor.2) as (db' & -> & Hdb'); try done.
      rewrite bool_decide_eq_true_2 by done. cbn [oneRow rbind fst snd answered]. unfold answered. cbn [fst snd].
      rewrite read_profile, Hdb'; [done| | done | done | done].
      unfold account_profiles_checks. cbn -[account_profiles_contact_email_check account_profiles_contact_phone_check account_profiles_country_check].
      by rewrite E3, E4, E5, Z.leb_refl.
  - cbn [andb]. unfold provision_account_profile. rewrite bool_decide_eq_false_2 by congruence. done.
Qed.

Lemma if_given_some {A} (f : jsval -> account_result A) v o : if_given f v = Ok o ->
  is_Some o <-> is_absent v = false.
Proof.
  unfold if_given. destruct (is_absent v); [intros [= <-]; split; [by intros []|done]|].
  destruct (f v); cbn; [|done]. intros [= <-]. by split.
Qed.

Lemma if_given_accepted {A} (f : jsval -> account_result A) (P : A -> Prop) v o :
  (forall v a, f v = Ok a -> P a) -> if_given f v = Ok o -> forall a, o = Some a -> P a.
Proof.
  intros Hf. unfold if_given. destruct (is_absent v); [by intros [= <-]|].
  destruct (f v) eqn:E; cbn; [|done]. intros [= <-] a' [= <-]. by eapply Hf.
Qed.

(** The checked query: its flags are given fields, its values what normalisation
    returned. *)
Definition changes_query (c : changes) (correlation : string) : account_query :=
  QueryUpdate (ch_accountId c) (ch_version c) (bool_decide (is_Some (ch_contactEmail c))) (ch_contactEmail c)
    (bool_decide (is_Some (ch_contactPhone c))) (mjoin (ch_contactPhone c)) (bool_decide (is_Some (ch_countryCode c)))
    (ch_countryCode c) (ch_actorAccountId c) correlation.

Record changes_ok (c : changes) : Prop := {
  co_account : UUID_V4_PATTERN (ch_accountId c) = true;
  co_version : 1 <= ch_version c <= MAX_PROFILE_VERSION;
  co_some : bool_decide (is_Some (ch_contactEmail c)) || bool_decide (is_Some (ch_contactPhone c))
            || bool_decide (is_Some (ch_countryCode c)) = true;
  co_email : forall e, ch_contactEmail c = Some e -> account_profiles_contact_email_check e = true;
  co_phone : forall p, ch_contactPhone c = Some p -> account_profiles_contact_phone_check p = true;
  co_country : forall c', ch_countryCode c = Some c' -> account_profiles_country_check c' = true;
}.

(** What the rows of the update query become. *)
Definition update_answer (id : string) (rows : option (list (option jsrec))) : account_result AccountProfileUpdateResult :=
  let* row := oneRow rows in
  if is_text (row .: "outcome") "stale" then rmap (fun _ => RESULT_STALE) (assertNoProfileMaterial row)
  else if is_text (row .: "outcome") "not-found" then rmap (fun _ => RESULT_NOT_FOUND) (assertNoProfileMaterial row)
  else
    reject AccountProfilePersistenceError when negb (is_text (row .: "outcome") "updated") in
    rmap RESULT_UPDATED (profileFromUpdateRow row id).

Lemma given_flag {A} (f : jsval -> account_result A) v o : if_given f v = Ok o ->
  negb (is_absent v) = bool_decide (is_Some o).
Proof.
  intros H%if_given_some. destruct (is_absent v); cbn; symmetry;
    [rewrite bool_decide_eq_false | rewrite bool_decide_eq_true]; naive_solver.
Qed.

Lemma none_given a b c : negb (negb a || negb b || negb c) = a && b && c.
Proof. by destruct a, b, c. Qed.

(** An update is a refusal, or one checked query. *)
Lemma update_query accountId expectedVersion input context :
  match checked_changes accountId expectedVersion input context with
  | Err e => update accountId expectedVersion input context = Done (Err e)
  | Ok c => changes_ok c /\ exists correlation, AUDIT_CORRELATION_PATTERN correlation = true /\
      update accountId expectedVersion input context =
      guarded (io_bind (call (changes_query c correlation)) (fun rows => Done (update_answer (ch_accountId c) rows)))
  end.
Proof.
  unfold checked_changes, update.
  destruct (validated (parseAccountId accountId)) as [id|e] eqn:E1; [|done].
  destruct (validated (assertValidProfileVersion expectedVersion)) as [version|e] eqn:E2; [|done].
  destruct (assertAuditContext context) as [actor|e] eqn:E3; [|done].
  change (io_bind (Done (Ok ?x)) ?f) with (f x). cbv beta zeta. cbn [rbind]. rewrite none_given.
  destruct (_ && _ && _) eqn:Ga; [done|].
  destruct (if_given _ (ui_contactEmail input)) as [email|e] eqn:E4; [|done].
  destruct (if_given _ (ui_contactPhone input)) as [phone|e] eqn:E5; [|done].
  destruct (if_given _ (ui_declaredResidencyCountryCode input)) as [country|e] eqn:E6; [|done].
  apply assertAuditContext_ok in E3 as [_ Hcorr]. unfold validated in *.
  apply rlift_ok, parseAccountId_ok in E1 as [_ Hid]. apply rlift_ok, assert_version in E2 as [_ Hv].
  pose proof (given_flag _ _ _ E4) as F4. pose proof (given_flag _ _ _ E5) as F5. pose proof (given_flag _ _ _ E6) as F6.
  split.
  - constructor; cbn [ch_accountId ch_version ch_contactEmail ch_contactPhone ch_countryCode]; [done | done | | | |].
    + rewrite <- F4, <- F5, <- F6. apply negb_false_iff. by rewrite none_given.
    + eapply if_given_accepted; [|exact E4]. intros v a Ha. apply rlift_ok in Ha. by eapply normalizeContactEmail_accepted.
    + eapply if_given_accepted; [|exact E5]. intros v a Ha. cbn in Ha.
      destruct (normalizeContactPhone v) as [ph|] eqn:En; [|done]. injection Ha as <-.
      by eapply normalizeContactPhone_accepted.
    + eapply if_given_accepted; [|exact E6]. intros v a Ha. apply rlift_ok in Ha. by eapply normalizeCountry_accepted.
  - exists actor.2. split; [done|]. rewrite F4, F5, F6. done.
Qed.

Lemma update_answer_updated p id : account_profiles_checks p = true -> pr_version p <= MAX_INT4 -> pr_account_id p = id ->
  UUID_V4_PATTERN id = true ->
  update_answer id (Some [Some (outcome_columns (UPDATE_UPDATED p (Some "UNKNOWN")))]) = Ok (RESULT_UPDATED (presented p)).
Proof.
  intros Hc Hv Hp Hid.
  change (update_answer id _) with (rmap RESULT_UPDATED (accountScopedProfile (profile_columns p (Some "UNKNOWN")) id)).
  by rewrite read_profile.
Qed.

(** An update that changes nothing: no profile, another version, or no next
    version. *)
Lemma update_refused now audit_id db id v he hp hc email phone country correlation : 1 <= v ->
  he || hp || hc = true ->
  let result := update_account_profile now audit_id db (Some id) (Some v) (Some he) email (Some hp) phone (Some hc) country
                  (Some id) (Some correlation) in
  match account_profiles db !! id with
  | None => result = Some (UPDATE_NOT_FOUND, db)
  | Some p =>
      if negb (pr_version p =? v) then result = Some (UPDATE_STALE, db)
      else MAX_INT4 <= pr_version p -> result = None
  end.
Proof.
  intros Hv Hsome result. unfold result, update_account_profile. rewrite bool_decide_eq_true_2 by done.
  cbn [negb raise_when mbind option_bind]. rewrite (proj2 (Z.ltb_ge _ _)), Hsome by lia. cbn [negb raise_when].
  destruct (account_profiles db !! id) as [p|]; [|done]. destruct (pr_version p =? v); [|done]. cbn [negb]. intros Hmax.
  destruct (updated_column he _ _) as [e|]; [|done]. cbn [mbind option_bind].
  destruct (updated_column hc _ _) as [c|]; [|done]. cbn [mbind option_bind].
  unfold update_profile, enforce_account_profile_update.
  cbn [pr_account_id pr_created_at pr_version pr_updated_at]. rewrite String.eqb_refl, !Z.eqb_refl.
  by rewrite (proj2 (Z.ltb_lt _ _)) by lia.
Qed.

Lemma updated_given o current : updated_column (bool_decide (is_Some o)) o current = Some (default current o).
Proof. by destruct o. Qed.

Lemma default_ok {A} (P : A -> Prop) (o : option A) current :
  (forall a, o = Some a -> P a) -> P current -> P (default current o).
Proof. destruct o; cbn; auto. Qed.

Lemma update_on_tables now audit_id db accountId expectedVersion input context : tables_ok db -> fresh_audit db audit_id ->
  answered AnswerUpdated (on_tables now audit_id db (update accountId expectedVersion input context)) =
  versioned_store now (RequestUpdate accountId expectedVersion input context) (account_profiles db).
Proof.
  intros Hok Hf. cbn [versioned_store]. pose proof (update_query accountId expectedVersion input context) as H.
  destruct (checked_changes accountId expectedVersion input context) as [c|e]; [|by rewrite H].
  destruct H as ([Hid Hv Hs He Hp Hc] & correlation & Hcorr & ->). rewrite on_tables_guarded.
  cbn [account_database changes_query].
  destruct (String.eqb_spec (ch_actorAccountId c) (ch_accountId c)) as [Ea|Hne]; cbn [negb].
  2:{ unfold update_account_profile. by rewrite bool_decide_eq_false_2 by congruence. }
  rewrite Ea. pose proof (update_refused now audit_id db (ch_accountId c) (ch_version c) _ _ _ (ch_contactEmail c)
    (mjoin (ch_contactPhone c)) (ch_countryCode c) correlation (proj1 Hv) Hs) as Hr. cbv zeta in Hr.
  destruct (account_profiles db !! ch_accountId c) as [p|] eqn:Ep; [|by rewrite Hr].
  destruct (to_profiles _ Hok _ _ Ep) as (Epid & Hchecks & Hmax & _).
  destruct (Z.eqb_spec (pr_version p) (ch_version c)) as [Ev|Hne]; cbn [negb] in *; [|by rewrite Hr].
  destruct (Z.eqb_spec (pr_version p) MAX_PROFILE_VERSION) as [Em|Hnm].
  { rewrite Hr; [done|]. rewrite Em. done. }
  assert (Hp0 : account_profiles_checks p = true) by done. unfold account_profiles_checks in Hp0. bsimpl.
  assert (Hphone : (if bool_decide (is_Some (ch_contactPhone c)) then mjoin (ch_contactPhone c) else pr_contact_phone p) =
                   default (pr_contact_phone p) (ch_contactPhone c)) by by destruct (ch_contactPhone c).
  assert (Hlt : pr_version p < MAX_INT4) by (unfold MAX_INT4, MAX_PROFILE_VERSION in *; lia).
  assert (He' : account_profiles_contact_email_check (default (pr_contact_email p) (ch_contactEmail c)) = true)
    by (by apply (default_ok (fun e => account_profiles_contact_email_check e = true))).
  assert (Hp' : account_profiles_contact_phone_check (default (pr_contact_phone p) (ch_contactPhone c)) = true)
    by (by apply (default_ok (fun e => account_profiles_contact_phone_check e = true))).
  assert (Hc' : account_profiles_country_check (default (pr_declared_residency_country_code p) (ch_countryCode c)) = true)
    by (by apply (default_ok (fun e => account_profiles_country_check e = true))).
  rewrite <- Hphone in Hp'.
  pose proof (update_accepts now audit_id db (ch_accountId c) p _ _ _ (ch_contactEmail c) (mjoin (ch_contactPhone c))
    (ch_countryCode c) _ _ correlation Hok Hf Ep Hlt Hs (updated_given _ (pr_contact_email p))
    (updated_given _ (pr_declared_residency_country_code p)) He' Hp' Hc' Hcorr) as (db' & Hu & Hdb').
  rewrite Ev, Hphone in *. fold (changed now p c) in Hu, Hdb'. rewrite Hu.
  assert (Hok' : tables_ok db') by (eapply account_step_ok; [by eapply step_update | done]).
  destruct (to_profiles _ Hok' (ch_accountId c) (changed now p c)) as (Hi & Hk & Hm & _); [by rewrite Hdb', lookup_insert_eq|].
  unfold answered. cbn [fst snd]. rewrite Hdb', update_answer_updated by done. done.
Qed.

(** ** The repository is a store of versioned profiles *)

(** C13: Over tables that only its functions have written, every method of the
    repository answers as the store of versioned profiles does, and leaves the
    profiles as the store leaves its own: reading finds the profile as it was
    last written; provisioning creates version 1 of an account that has none, and
    only for itself; an update whose request is acceptable is applied exactly when
    its version is the current one and not the last, makes the next version with
    the given fields and no other changed, and otherwise says so and changes
    nothing.  Each refusal is the documented error. *)
Theorem repository_is_versioned_store now audit_id db request :
  rtc account_step no_accounts db -> fresh_audit db audit_id ->
  let '(answer, db') := on_tables now audit_id db (repository request) in
  (answer, account_profiles db') = versioned_store now request (account_profiles db) /\
  rtc account_step no_accounts db'.
Proof.
  intros Hreach Hf. pose proof (reachable_tables_ok db Hreach) as Hok.
  destruct (on_tables now audit_id db (repository request)) as [answer db'] eqn:E. split.
  2:{ etrans; [exact Hreach | by eapply on_tables_steps]. }
  assert (Hbind : forall A (m : account_io A) f,
    on_tables now audit_id db (io_bind m (fun a => Done (Ok (f a)))) = (answer, db') ->
    (answer, account_profiles db') = answered f (on_tables now audit_id db m)).
  { intros A m f. rewrite on_tables_bind. destruct (on_tables now audit_id db m) as [[a|e] db1]; by intros [= <- <-]. }
  destruct request; cbn [repository] in E; apply Hbind in E; rewrite E.
  - by apply find_on_tables.
  - by apply provision_on_tables.
  - by apply update_on_tables.
Qed.
End database.

Definition update_example : store_request := RequestUpdate (VStr account_id_example) (VNum (JInt 2))
  {| ui_contactEmail := VStr "New@Example.COM"; ui_contactPhone := VUndef; ui_declaredResidencyCountryCode := VUndef |}
  {| ax_actorAccountId := VStr account_id_example; ax_correlationId := account_id_example |}.

Lemma repository_is_versioned_store_witness :
  (versioned_store (fun t => t / 1000) 3000 update_example (account_profiles updated_tables)).1 =
    Ok (AnswerUpdated (RESULT_UPDATED
       {| ap_accountId := account_id_example; ap_contactEmail := "New@example.com"; ap_contactPhone := None;
          ap_declaredResidencyCountryCode := "CA"; ap_version := 3; ap_createdAt := 1; ap_updatedAt := 3 |})) /\
  let '(answer, db') := on_tables (fun t => t / 1000) 3000 "0000000c-0000-4000-8000-000000000000" updated_tables
                          (repository update_example) in
  (answer, account_profiles db') = versioned_store (fun t => t / 1000) 3000 update_example (account_profiles updated_tables) /\
  rtc account_step no_accounts db'.
Proof.
  split; [by vm_compute|]. apply repository_is_versioned_store; [apply updated_reachable|]. split; [by vm_compute|].
  intros row Hrow. assert (Hall : Forall (fun r => au_audit_id r <> "0000000c-0000-4000-8000-000000000000")
                                    (account_profile_audit updated_tables)) by by vm_compute; repeat constructor.
  rewrite Forall_forall in Hall. by apply Hall.
Defined.
