(* ===== verification/AccountHttp.v ===== *)
(** * The account profile over HTTP
    (apps/api/src/accounts/auth/ and accounts/http/)

    A request to [accounts/me]: the guard resolves who is asking and binds the
    principal to the request; two interceptors set the caching headers and refuse
    a body of the wrong shape; the body becomes a validated object; the handler
    reads or conditionally updates the profile.  The framework runs these in the
    order guard, interceptors, pipes and parameters, handler, and answers 500 to
    an exception that is no HTTP exception.

    A request is its identity as a key of a [WeakMap], [None] when it is no
    object.  What the resolver of principals does is an argument.  Only property
    values are read from a body, which JSON.parse or a decoder made of data
    properties. *)

From stdpp Require Import base list strings gmap relations.
From Stdlib Require Import ZArith Lia Ascii.
From S2P Require Import Prelude Text Regex JsValue JsDate Effects LogContext AccountProfile AccountTables AccountEmail.
From S2P Require Import AccountRepository.

Open Scope Z_scope.

(** ** Data *)

(** The status of an error response. *)
Inductive http_error : Type :=
| HTTP_400_BAD_REQUEST
| HTTP_401_UNAUTHORIZED
| HTTP_404_NOT_FOUND
| HTTP_412_PRECONDITION_FAILED
| HTTP_428_PRECONDITION_REQUIRED
| HTTP_429_TOO_MANY_REQUESTS
| HTTP_500_INTERNAL_SERVER_ERROR
| HTTP_503_SERVICE_UNAVAILABLE.

Record AccountProfileResponseDto : Type := {
  rd_accountId : string;
  rd_contactEmail : string;
  rd_contactPhone : option string;
  rd_declaredResidencyCountryCode : string;
  rd_version : Z;
  rd_createdAt : string;
  rd_updatedAt : string;
}.

Record profile_response : Type := {
  rs_etag : string;
  rs_body : AccountProfileResponseDto;
}.

(** What [resolver.resolve(request)] does; a principal by its account id. *)
Inductive resolution : Type :=
| RESOLVED (principal : option jsval)
| RATE_LIMITED (retryAfterSeconds : Z)
| UNAVAILABLE
| RESOLVER_FAILED.

(** [principalsByRequest], the logging context of the request and the headers of
    its response. *)
Record request_state : Type := {
  st_principals : gmap nat string;
  st_context : option LogCorrelationContext;
  st_headers : gmap string string;
}.

(** ** Principals *)

Definition with_principals (f : gmap nat string -> gmap nat string) (st : request_state) : request_state :=
  {| st_principals := f (st_principals st); st_context := st_context st; st_headers := st_headers st |}.

Definition with_context (f : option LogCorrelationContext -> option LogCorrelationContext) (st : request_state)
    : request_state :=
  {| st_principals := st_principals st; st_context := f (st_context st); st_headers := st_headers st |}.

Definition setHeader (name value : string) (st : request_state) : request_state :=
  {| st_principals := st_principals st; st_context := st_context st; st_headers := <[name := value]> (st_headers st) |}.

Definition bindCurrentPrincipal (request : option nat) (accountId : string) (st : request_state) : option request_state :=
  request ← request;
  Some (with_principals (<[request := accountId]>) st).

Definition readCurrentPrincipal (request : option nat) (st : request_state) : option string :=
  request ← request;
  st_principals st !! request.

Definition clearCurrentPrincipal (request : option nat) (st : request_state) : request_state :=
  match request with
  | Some request => with_principals (delete request) st
  | None => st
  end.

Definition requireCurrentPrincipal (request : option nat) (st : request_state) : result http_error string :=
  or_throw (readCurrentPrincipal request st) HTTP_401_UNAUTHORIZED.

(** ** The guard *)

Definition setAuthenticationFailureHeaders (retryAfterSeconds : option Z) (st : request_state) : request_state :=
  let st := setHeader "Cache-Control" "private, no-store" st in
  let st := setHeader "Vary" "Cookie, Origin" st in
  match retryAfterSeconds with
  | Some seconds => setHeader "Retry-After" (toString seconds) st
  | None => st
  end.

(** The [try] of [canActivate] past the resolver: the principal bound to the
    request, then to the logging context. *)
Definition bind_principal (request : option nat) (accountId : jsval) (st : request_state) : option request_state :=
  accountId ← to_option (parseAccountId accountId);
  st ← bindCurrentPrincipal request accountId st;
  '(_, context) ← to_option (LoggingContext_bindActorId (st_context st) accountId);
  Some (with_context (fun _ => context) st).

(** The [catch]. *)
Definition authentication_failed (request : option nat) (res : resolution) (st : request_state)
    : result http_error unit * request_state :=
  let st := clearCurrentPrincipal request st in
  let st := with_context LoggingContext_clearActorId st in
  match res with
  | RATE_LIMITED seconds => (Err HTTP_429_TOO_MANY_REQUESTS, setAuthenticationFailureHeaders (Some seconds) st)
  | UNAVAILABLE => (Err HTTP_503_SERVICE_UNAVAILABLE, setAuthenticationFailureHeaders (Some 1) st)
  | _ => (Err HTTP_401_UNAUTHORIZED, setAuthenticationFailureHeaders None st)
  end.

Definition canActivate (request : option nat) (res : resolution) (st : request_state)
    : result http_error unit * request_state :=
  let st := clearCurrentPrincipal request st in
  match res with
  | RESOLVED (Some accountId) =>
      match bind_principal request accountId st with
      | Some st => (Ok tt, st)
      | None => authentication_failed request res st
      end
  | _ => authentication_failed request res st
  end.

(** ** Interceptors *)

Definition setPrivacyHeaders (st : request_state) : request_state :=
  setHeader "Vary" "Cookie, Origin" (setHeader "Cache-Control" "private, no-store" st).

Definition PERMITTED_UPDATE_FIELDS : list string := ["contactEmail"; "contactPhone"; "declaredResidencyCountryCode"].

(** [Object.keys(value)] of a plain record: the enumerable string keys. *)
Definition enumerable_keys (ds : jsprops) : list string :=
  omap (fun kd => match kd with (KStr k, d) => if is_enumerable d then Some k else None | _ => None end) ds.

Definition checkBodyShape (body : jsval) : result http_error unit :=
  match plain_descriptors body with
  | None => Err HTTP_400_BAD_REQUEST
  | Some ds =>
      let fields := enumerable_keys ds in
      reject HTTP_400_BAD_REQUEST when
        (length fields =? 0)%nat || existsb (fun f => negb (existsb (String.eqb f) PERMITTED_UPDATE_FIELDS)) fields in
      Ok tt
  end.

(** ** The request body as a validated object *)

Definition normalizeIfValid {A} (value : jsval) (normalize : jsval -> profile_result A) (as_value : A -> jsval) : jsval :=
  match normalize value with
  | Ok a => as_value a
  | Err _ => value
  end.

(** [normalizeContactPhone] returns [undefined], [null] or a string. *)
Definition phone_value (phone : option (option string)) : jsval :=
  match phone with
  | None => VUndef
  | Some phone => js_nullable phone
  end.

(** The object class-transformer makes of a body: each field through its
    [Transform]. *)
Definition body_dto (body : jsval) : UpdateAccountProfileInput :=
  let value k := default VUndef (ds ← plain_descriptors body; data_property ds k) in
  {| ui_contactEmail := normalizeIfValid (value "contactEmail") normalizeContactEmail VStr;
     ui_contactPhone := normalizeIfValid (value "contactPhone") normalizeContactPhone phone_value;
     ui_declaredResidencyCountryCode :=
       normalizeIfValid (value "declaredResidencyCountryCode") normalizeDeclaredResidencyCountryCode VStr |}.

(** [ValidateIf(value !== undefined)] *)
Definition validate_if_given (valid : jsval -> bool) (value : jsval) : bool := is_absent value || valid value.

Definition isCanonicalE164Phone (value : jsval) : bool :=
  match value with
  | VNull => true
  | VStr _ => isValidContactPhone value
  | _ => false
  end.

Definition hasProfileUpdate (dto : UpdateAccountProfileInput) : bool :=
  negb (is_absent (ui_contactEmail dto)) || negb (is_absent (ui_contactPhone dto))
  || negb (is_absent (ui_declaredResidencyCountryCode dto)).

(** The validation pipe, then [toInput]. *)
Definition validated_input (body : jsval) : result http_error UpdateAccountProfileInput :=
  let dto := body_dto body in
  reject HTTP_400_BAD_REQUEST when
    negb (hasProfileUpdate dto && validate_if_given isValidContactEmail (ui_contactEmail dto)
          && validate_if_given isCanonicalE164Phone (ui_contactPhone dto)
          && validate_if_given isValidDeclaredResidencyCountryCode (ui_declaredResidencyCountryCode dto)) in
  reject HTTP_400_BAD_REQUEST when negb (hasProfileUpdate dto) in
  Ok dto.

(** ** The controller *)

Definition rethrowKnownError (error : account_exception) : http_error :=
  match error with
  | AccountProfileNotFoundError => HTTP_404_NOT_FOUND
  | AccountProfileVersionConflictError => HTTP_412_PRECONDITION_FAILED
  | _ => HTTP_500_INTERNAL_SERVER_ERROR
  end.

Definition precondition_status (error : precondition_error) : http_error :=
  match error with
  | PRECONDITION_REQUIRED => HTTP_428_PRECONDITION_REQUIRED
  | PRECONDITION_FAILED => HTTP_412_PRECONDITION_FAILED
  end.

Definition response_dto (profile : AccountProfile) : AccountProfileResponseDto :=
  {| rd_accountId := ap_accountId profile; rd_contactEmail := ap_contactEmail profile;
     rd_contactPhone := ap_contactPhone profile;
     rd_declaredResidencyCountryCode := ap_declaredResidencyCountryCode profile; rd_version := ap_version profile;
     rd_createdAt := toISOString (ap_createdAt profile); rd_updatedAt := toISOString (ap_updatedAt profile) |}.

Definition profile_result_response (profile : AccountProfile) : account_result profile_response :=
  let* etag := validated (formatProfileEtag (ap_accountId profile) (VNum (JInt (ap_version profile)))) in
  Ok {| rs_etag := etag; rs_body := response_dto profile |}.

(** [try { const profile = await m; ... } catch (error) { this.rethrowKnownError(error); }] *)
Definition responding (m : account_io AccountProfile) : account_io (result http_error profile_response) :=
  await* outcome := attempt (await* profile := m in Done (profile_result_response profile)) in
  Done (Ok (rlift rethrowKnownError outcome)).

Definition getSelf (principal : string) : account_io (result http_error profile_response) :=
  responding (findSelf (VStr principal)).

Definition patchSelf (active : option LogCorrelationContext) (uuid principal : string) (ifMatch : jsval)
    (input : UpdateAccountProfileInput) : account_io (result http_error profile_response) :=
  match parseRequiredProfileIfMatch ifMatch principal with
  | Err e => Done (Ok (Err (precondition_status e)))
  | Ok expectedVersion => responding (updateSelf active uuid (VStr principal) (VNum (JInt expectedVersion)) input)
  end.

(** ** The two routes

    The request with its state before the guard; the state after the response. *)

Definition get_me (request : option nat) (res : resolution) (st : request_state)
    : account_io (result http_error profile_response * request_state) :=
  match canActivate request res st with
  | (Err e, st) => Done (Ok (Err e, st))
  | (Ok _, st) =>
      let st := setPrivacyHeaders st in
      match requireCurrentPrincipal request st with
      | Err e => Done (Ok (Err e, st))
      | Ok principal => await* response := getSelf principal in Done (Ok (response, st))
      end
  end.

(** [rbind] over the statuses of the steps before the handler. *)
Definition patch_parameters (request : option nat) (body : jsval) (st : request_state)
    : result http_error (string * UpdateAccountProfileInput) :=
  let* _ := checkBodyShape body in
  let* principal := requireCurrentPrincipal request st in
  let* input := validated_input body in
  Ok (principal, input).

Definition patch_me (uuid : string) (request : option nat) (res : resolution) (ifMatch body : jsval) (st : request_state)
    : account_io (result http_error profile_response * request_state) :=
  match canActivate request res st with
  | (Err e, st) => Done (Ok (Err e, st))
  | (Ok _, st) =>
      let st := setPrivacyHeaders st in
      match patch_parameters request body st with
      | Err e => Done (Ok (Err e, st))
      | Ok (principal, input) =>
          await* response := patchSelf (st_context st) uuid principal ifMatch input in Done (Ok (response, st))
      end
  end.

(** ** Specification: a conditional update

    One normalisation of the body, one comparison of the tag, one change. *)

Definition requested_field {A} (normalize : jsval -> profile_result A) (v : jsval) : option (option A) :=
  if is_absent v then Some None else Some <$> to_option (normalize v).

(** The value of a field of the body. *)
Definition body_value (body : jsval) (k : string) : jsval :=
  default VUndef (ds ← plain_descriptors body; data_property ds k).

Definition given_phone (v : jsval) : profile_result (option string) := rmap mjoin (normalizeContactPhone v).

Record requested_fields : Type := {
  rf_contactEmail : option string;
  rf_contactPhone : option (option string);
  rf_countryCode : option string;
}.

Definition some_field (f : requested_fields) : bool :=
  bool_decide (is_Some (rf_contactEmail f)) || bool_decide (is_Some (rf_contactPhone f))
  || bool_decide (is_Some (rf_countryCode f)).

Definition body_fields (body : jsval) : option requested_fields :=
  _ ← to_option (checkBodyShape body);
  email ← requested_field normalizeContactEmail (body_value body "contactEmail");
  phone ← requested_field given_phone (body_value body "contactPhone");
  country ← requested_field normalizeDeclaredResidencyCountryCode (body_value body "declaredResidencyCountryCode");
  let f := {| rf_contactEmail := email; rf_contactPhone := phone; rf_countryCode := country |} in
  if some_field f then Some f else None.

(** The row with the given fields, as its next version. *)
Definition patched (now : Z) (p : profile_row) (f : requested_fields) : profile_row :=
  updated_row now p (default (pr_contact_email p) (rf_contactEmail f)) (default (pr_contact_phone p) (rf_contactPhone f))
    (default (pr_declared_residency_country_code p) (rf_countryCode f)).

Section specification.
Variable date_of : Z -> Z.

(** The tag of a row, and the row. *)
Definition row_response (p : profile_row) : profile_response :=
  {| rs_etag := etag_text (pr_account_id p) (toString (pr_version p)); rs_body := response_dto (presented date_of p) |}.

(** The update of acceptable fields. *)
Definition fields_update (now : Z) (principal : string) (ifMatch : jsval) (f : requested_fields)
    (store : gmap string profile_row) : result http_error profile_response * gmap string profile_row :=
  match parseRequiredProfileIfMatch ifMatch principal with
  | Err e => (Err (precondition_status e), store)
  | Ok version =>
      match store !! principal with
      | None => (Err HTTP_404_NOT_FOUND, store)
      | Some p =>
          if negb (pr_version p =? version) then (Err HTTP_412_PRECONDITION_FAILED, store)
          else if pr_version p =? MAX_PROFILE_VERSION then (Err HTTP_500_INTERNAL_SERVER_ERROR, store)
          else (Ok (row_response (patched now p f)), <[principal := patched now p f]> store)
      end
  end.

Definition conditional_update (now : Z) (principal : string) (ifMatch body : jsval) (store : gmap string profile_row)
    : result http_error profile_response * gmap string profile_row :=
  match body_fields body with
  | None => (Err HTTP_400_BAD_REQUEST, store)
  | Some f => fields_update now principal ifMatch f store
  end.

(** ** Lemmas: the guard *)

Lemma canActivate_ok request res st u st' : canActivate request res st = (Ok u, st') ->
  exists principal, res = RESOLVED (Some (VStr principal)) /\ UUID_V4_PATTERN principal = true /\
    readCurrentPrincipal request st' = Some principal /\
    forall uuid, correlationId (st_context st') uuid = correlationId (st_context st) uuid.
Proof.
  unfold canActivate, authentication_failed. destruct res as [[v|]|n| |]; try done.
  destruct (bind_principal request v _) as [st1|] eqn:E; [|done]. intros [= _ ->].
  apply bind_Some in E as (principal & Ep & (st2 & E2 & ([b context] & Hc & [= <-])%bind_Some)%bind_Some).
  destruct (parseAccountId v) as [id|] eqn:Ev; [|done]. injection Ep as ->.
  apply parseAccountId_ok in Ev as [-> Hid]. exists principal. split_and!; try done.
  - destruct request as [r|]; [|done]. injection E2 as <-. cbn. by rewrite lookup_insert_eq.
  - destruct request as [r|]; [|done]. injection E2 as <-. cbn in Hc |- *.
    destruct (LoggingContext_bindActorId (st_context st) principal) as [[b' c']|] eqn:El; [|done]. injection Hc as -> ->.
    unfold LoggingContext_bindActorId in El. inv_ok. destruct (st_context st) as [c|]; [|by injection El as _ <-].
    intros uuid. inv_ok. subst. unfold correlationId. cbn. by rewrite lookup_insert_ne.
Qed.

(** The guard fails closed: a request it refuses has no principal, not even one
    bound before, its work has no actor, and the answer may not be cached. *)
Lemma canActivate_closed request res st e st' : canActivate request res st = (Err e, st') ->
  readCurrentPrincipal request st' = None /\
  (st_context st' = None \/ exists context, st_context st' = Some context /\ context !! "initiatorActorId" = None) /\
  st_headers st' !! "Cache-Control" = Some "private, no-store".
Proof.
  assert (Hfail : forall st0, authentication_failed request res st0 = (Err e, st') ->
    readCurrentPrincipal request st' = None /\
    (st_context st' = None \/ exists context, st_context st' = Some context /\ context !! "initiatorActorId" = None) /\
    st_headers st' !! "Cache-Control" = Some "private, no-store").
  { intros st0 H. unfold authentication_failed in H.
    assert (exists s, st' = setAuthenticationFailureHeaders s
              (with_context LoggingContext_clearActorId (clearCurrentPrincipal request st0))) as (s & ->).
    { exists match res with RATE_LIMITED n => Some n | UNAVAILABLE => Some 1 | _ => None end.
      by destruct res; injection H. }
    split_and!.
    - destruct request as [r|], s; cbn; rewrite ?lookup_delete_eq; done.
    - destruct request as [r|], s; cbn; destruct (st_context st0) as [c|]; cbn; try (by left);
        right; eexists; (split; [done | apply lookup_delete_eq]).
    - destruct s; cbn; rewrite !lookup_insert_ne by done; apply lookup_insert_eq. }
  unfold canActivate. destruct res as [[v|]|n| |]; try apply Hfail.
  destruct (bind_principal request v _) as [st1|]; [done | apply Hfail].
Qed.

(** Every identifier of a logging context can be audited. *)
Lemma hex_correlation c : is_hex c = true -> is_correlation_char c = true /\ is_alnum c = true.
Proof. destruct c as [[] [] [] [] [] [] [] []]; by vm_compute. Qed.

Lemma matches_all_chars ps q s : matches ps s = true -> Forall (fun p => forall c, p c = true -> q c = true) ps ->
  all_chars q s = true.
Proof.
  intros H Hps. revert s H. induction Hps as [|p ps Hp _ IH]; intros [|c s]; cbn [matches all_chars]; try done.
  intros [Hc Hs]%andb_true_iff. by rewrite (Hp c Hc), IH.
Qed.

Lemma prefix_append p s : String.prefix p s = true -> exists r, s = p +:+ r.
Proof.
  revert s. induction p as [|c p IH]; intros s; [by exists s|]. destruct s as [|d s]; [done|]. cbn [String.prefix].
  destruct (ascii_dec c d) as [->|]; [|done]. intros (r & ->)%IH. by exists r.
Qed.

Lemma correlation_of_chars s c w : s = String c w -> is_alnum c = true -> all_chars is_correlation_char w = true ->
  (String.length w <= 127)%nat -> AUDIT_CORRELATION_PATTERN s = true.
Proof.
  intros -> Hc Hw Hl. apply regex_test_spec, matched_one. exists c, w. split_and!; try done. by apply matched_upto.
Qed.

Lemma safe_correlation s : isSafeCorrelationId s = true -> AUDIT_CORRELATION_PATTERN s = true.
Proof.
  unfold isSafeCorrelationId, isCanonicalUuidV4, LEGACY_CORRELATION_PATTERN. intros [H|[Hp Hh]%andb_true_iff]%orb_true_iff.
  - assert (Hall : all_chars is_correlation_char s = true).
    { eapply matches_all_chars; [exact H|]. assert (Hd : forall c, is_char "-" c = true -> is_correlation_char c = true).
      { intros c Hc. unfold is_correlation_char. by rewrite Hc, !orb_true_r. }
      assert (H4 : forall c, is_char "4" c = true -> is_correlation_char c = true).
      { intros c. unfold is_char. by intros <-%Ascii.eqb_eq. }
      assert (Hv : forall c, is_variant c = true -> is_correlation_char c = true).
      { intros c. destruct c as [[] [] [] [] [] [] [] []]; by vm_compute. }
      repeat first [apply Forall_nil | apply Forall_cons; split]; try done; intros c Hc; by apply hex_correlation. }
    pose proof (matches_length _ _ H) as Hlen. destruct s as [|c w]; [done|].
    apply (correlation_of_chars _ c w); [done | | |].
    + unfold UUID_V4_PATTERN in H. cbn [replicate app matches] in H. apply andb_true_iff in H as [Hc _].
      by apply hex_correlation.
    + by apply andb_true_iff in Hall as [_ Hall].
    + cbn in Hlen. lia.
  - apply prefix_append in Hp as (h & ->).
    assert (E : String.substring 7 (String.length ("legacy:" +:+ h) - 7) ("legacy:" +:+ h) = h).
    { rewrite length_append. change (String.length "legacy:") with 7%nat. rewrite Nat.add_comm, Nat.add_sub.
      change (String.substring 7 ?n ("legacy:" +:+ h)) with (String.substring 0 n h).
      rewrite <- (append_nil_r h) at 2. apply substring_take. }
    rewrite E in Hh. apply matches_all in Hh as [Hlen Hh]. apply (correlation_of_chars _ "l" ("egacy:" +:+ h)); [done | done | |].
    + rewrite all_chars_append. eapply all_chars_impl in Hh; [by rewrite Hh|]. intros c Hc. by apply hex_correlation.
    + rewrite length_append, Hlen. cbn. lia.
Qed.

(** ** Lemmas: the body *)

Lemma requested_email v :
  match requested_field normalizeContactEmail v with
  | Some o => let w := normalizeIfValid v normalizeContactEmail VStr in
      validate_if_given isValidContactEmail w = true /\ if_given (fun v => validated (normalizeContactEmail v)) w = Ok o
  | None => validate_if_given isValidContactEmail (normalizeIfValid v normalizeContactEmail VStr) = false
  end.
Proof.
  unfold requested_field, normalizeIfValid, validate_if_given, isValidContactEmail, if_given, validated.
  destruct (is_absent v) eqn:Ea; [by destruct v|].
  destruct (normalizeContactEmail v) as [s|e] eqn:E; cbn [to_option fmap option_fmap option_map].
  - assert (Hs : normalizeContactEmail (VStr s) = Ok s).
    { apply contact_email_normal. by eapply normalizeContactEmail_accepted. }
    cbn [is_absent]. by rewrite Hs.
  - by rewrite Ea, E.
Qed.

Lemma requested_country v :
  match requested_field normalizeDeclaredResidencyCountryCode v with
  | Some o => let w := normalizeIfValid v normalizeDeclaredResidencyCountryCode VStr in
      validate_if_given isValidDeclaredResidencyCountryCode w = true /\
      if_given (fun v => validated (normalizeDeclaredResidencyCountryCode v)) w = Ok o
  | None => validate_if_given isValidDeclaredResidencyCountryCode
              (normalizeIfValid v normalizeDeclaredResidencyCountryCode VStr) = false
  end.
Proof.
  unfold requested_field, normalizeIfValid, validate_if_given, isValidDeclaredResidencyCountryCode, if_given, validated.
  destruct (is_absent v) eqn:Ea; [by destruct v|].
  destruct (normalizeDeclaredResidencyCountryCode v) as [s|e] eqn:E; cbn [to_option fmap option_fmap option_map].
  - assert (Hs : normalizeDeclaredResidencyCountryCode (VStr s) = Ok s).
    { apply country_normal. by eapply normalizeCountry_accepted. }
    cbn [is_absent]. by rewrite Hs.
  - by rewrite Ea, E.
Qed.

Lemma requested_phone v :
  match requested_field given_phone v with
  | Some o => let w := normalizeIfValid v normalizeContactPhone phone_value in
      validate_if_given isCanonicalE164Phone w = true /\
      if_given (fun v => rmap mjoin (validated (normalizeContactPhone v))) w = Ok o
  | None => validate_if_given isCanonicalE164Phone (normalizeIfValid v normalizeContactPhone phone_value) = false
  end.
Proof.
  unfold requested_field, given_phone, normalizeIfValid, validate_if_given, if_given, validated.
  destruct v; try done. cbn [is_absent normalizeContactPhone].
  destruct (E164_PHONE_PATTERN s) eqn:E; cbn [rmap to_option fmap option_fmap option_map phone_value js_nullable is_absent orb
    isCanonicalE164Phone]; unfold isValidContactPhone; cbn [normalizeContactPhone]; by rewrite E.
Qed.

(** A body passes the interceptor, the transformation and the validation exactly
    when it has requested fields; the object holds them in normal form. *)
Lemma body_parameters request body st principal : readCurrentPrincipal request st = Some principal ->
  match body_fields body with
  | None => patch_parameters request body st = Err HTTP_400_BAD_REQUEST
  | Some f => exists input, patch_parameters request body st = Ok (principal, input) /\ some_field f = true /\
      if_given (fun v => validated (normalizeContactEmail v)) (ui_contactEmail input) = Ok (rf_contactEmail f) /\
      if_given (fun v => rmap mjoin (validated (normalizeContactPhone v))) (ui_contactPhone input) = Ok (rf_contactPhone f) /\
      if_given (fun v => validated (normalizeDeclaredResidencyCountryCode v)) (ui_declaredResidencyCountryCode input)
        = Ok (rf_countryCode f)
  end.
Proof.
  intros Hp. unfold body_fields, patch_parameters, requireCurrentPrincipal. rewrite Hp.
  destruct (checkBodyShape body) as [u|e] eqn:Es.
  2:{ unfold checkBodyShape in Es. cbn. destruct (plain_descriptors body); [|by injection Es as <-].
      destruct (_ || _); [by injection Es as <- | done]. }
  cbn [to_option rbind or_throw mbind option_bind].
  unfold validated_input. set (dto := body_dto body).
  pose proof (requested_email (body_value body "contactEmail")) as He.
  pose proof (requested_phone (body_value body "contactPhone")) as Hph.
  pose proof (requested_country (body_value body "declaredResidencyCountryCode")) as Hc.
  change (normalizeIfValid (body_value body "contactEmail") normalizeContactEmail VStr) with (ui_contactEmail dto) in He.
  change (normalizeIfValid (body_value body "contactPhone") normalizeContactPhone phone_value) with (ui_contactPhone dto) in Hph.
  change (normalizeIfValid (body_value body "declaredResidencyCountryCode") normalizeDeclaredResidencyCountryCode VStr)
    with (ui_declaredResidencyCountryCode dto) in Hc.
  destruct (requested_field normalizeContactEmail _) as [email|]; cbn [mbind option_bind]; [|by rewrite He, andb_false_r].
  destruct (requested_field given_phone _) as [phone|]; cbn [mbind option_bind]; [|by rewrite Hph, andb_false_r].
  destruct (requested_field normalizeDeclaredResidencyCountryCode _) as [country|]; cbn [mbind option_bind];
    [|by rewrite Hc, andb_false_r].
  destruct He as [Ve He], Hph as [Vp Hph], Hc as [Vc Hc]. rewrite Ve, Vp, Vc, !andb_true_r.
  assert (Hh : hasProfileUpdate dto = some_field {| rf_contactEmail := email; rf_contactPhone := phone; rf_countryCode := country |}).
  { unfold hasProfileUpdate, some_field. by rewrite (given_flag _ _ _ He), (given_flag _ _ _ Hph), (given_flag _ _ _ Hc). }
  rewrite Hh. destruct (some_field _) eqn:Ef; cbn [negb rbind]; [|done]. exists dto. done.
Qed.

(** ** Lemmas: the handler *)

Lemma on_tables_attempt {A} now audit_id db (m : account_io A) :
  on_tables date_of now audit_id db (attempt m) =
  let '(r, db') := on_tables date_of now audit_id db m in (Ok r, db').
Proof.
  unfold on_tables, attempt. revert db. induction m as [[a|e]|c k IH]; intros db; cbn [io_bind io_try run]; [done | done|].
  destruct (account_database date_of now audit_id c db) as [a db']. specialize (IH a db').
  destruct (run (account_database date_of now audit_id) db'
    (io_try (io_bind (k a) (fun a => Done (Ok (Ok a)))) (fun e => Done (Ok (Err e))))) as [[r t] w].
  by destruct (run (account_database date_of now audit_id) db' (k a)) as [[r' t'] w'].
Qed.

Lemma on_tables_responding now audit_id db (m : account_io AccountProfile) :
  on_tables date_of now audit_id db (responding m) =
  let '(r, db') := on_tables date_of now audit_id db m in
  (Ok (rlift rethrowKnownError (rbind r profile_result_response)), db').
Proof.
  unfold responding. rewrite on_tables_bind, on_tables_attempt, on_tables_bind.
  by destruct (on_tables date_of now audit_id db m) as [[a|e] db'].
Qed.

Lemma presented_response p : 1 <= pr_version p <= MAX_PROFILE_VERSION ->
  profile_result_response (presented date_of p) = Ok (row_response p).
Proof. intros H. unfold profile_result_response, formatProfileEtag. cbn [presented ap_version]. by rewrite (proj2 (valid_version _) H). Qed.

(** The request that the handler passes on is acceptable. *)
Lemma self_changes principal version input f correlation :
  UUID_V4_PATTERN principal = true -> 1 <= version <= MAX_PROFILE_VERSION -> AUDIT_CORRELATION_PATTERN correlation = true ->
  some_field f = true ->
  if_given (fun v => validated (normalizeContactEmail v)) (ui_contactEmail input) = Ok (rf_contactEmail f) ->
  if_given (fun v => rmap mjoin (validated (normalizeContactPhone v))) (ui_contactPhone input) = Ok (rf_contactPhone f) ->
  if_given (fun v => validated (normalizeDeclaredResidencyCountryCode v)) (ui_declaredResidencyCountryCode input)
    = Ok (rf_countryCode f) ->
  checked_changes (VStr principal) (VNum (JInt version)) input
    {| ax_actorAccountId := VStr principal; ax_correlationId := correlation |} =
  Ok {| ch_accountId := principal; ch_actorAccountId := principal; ch_version := version;
        ch_contactEmail := rf_contactEmail f; ch_contactPhone := rf_contactPhone f; ch_countryCode := rf_countryCode f |}.
Proof.
  intros Hid Hv Hcorr Hsome He Hp Hc. unfold checked_changes, assertAuditContext.
  cbn [parseAccountId ax_actorAccountId ax_correlationId]. rewrite Hid, (proj2 (valid_version _) Hv), Hcorr.
  cbn [validated rlift rcatch rbind negb]. rewrite <- none_given.
  rewrite (given_flag _ _ _ He), (given_flag _ _ _ Hp), (given_flag _ _ _ Hc). fold (some_field f). rewrite Hsome.
  cbn [negb]. by rewrite He, Hp, Hc.
Qed.

Lemma if_match_version v principal n : parseRequiredProfileIfMatch v principal = Ok n -> 1 <= n <= MAX_PROFILE_VERSION.
Proof.
  destruct v; try done. cbn [parseRequiredProfileIfMatch]. destruct (etag_groups s) as [[a w]|]; [|done].
  destruct (negb _); [done|]. intros H%rlift_ok. by apply assert_version in H as [[= <-] Hn].
Qed.

Lemma current_correlation active uuid : UUID_V4_PATTERN uuid = true ->
  (forall context, active = Some context -> context_ok context) -> AUDIT_CORRELATION_PATTERN (correlationId active uuid) = true.
Proof.
  intros Huuid Hctx. apply safe_correlation. unfold correlationId, isSafeCorrelationId, isCanonicalUuidV4.
  destruct active as [context|]; [|apply orb_true_iff; by left].
  destruct (Hctx context eq_refl) as ([c Hc] & Hvals & _). cbn [mbind option_bind]. rewrite Hc.
  by destruct (Hvals _ _ Hc) as [_ Hv].
Qed.

(** What the handler answers and leaves. *)
Lemma patchSelf_on_tables now audit_id db active uuid principal ifMatch input f :
  tables_ok db -> fresh_audit db audit_id -> UUID_V4_PATTERN principal = true ->
  AUDIT_CORRELATION_PATTERN (correlationId active uuid) = true -> some_field f = true ->
  if_given (fun v => validated (normalizeContactEmail v)) (ui_contactEmail input) = Ok (rf_contactEmail f) ->
  if_given (fun v => rmap mjoin (validated (normalizeContactPhone v))) (ui_contactPhone input) = Ok (rf_contactPhone f) ->
  if_given (fun v => validated (normalizeDeclaredResidencyCountryCode v)) (ui_declaredResidencyCountryCode input)
    = Ok (rf_countryCode f) ->
  exists response db',
    on_tables date_of now audit_id db (patchSelf active uuid principal ifMatch input) = (Ok response, db') /\
    (response, account_profiles db') = fields_update now principal ifMatch f (account_profiles db).
Proof.
  intros Hok Hf Hid Hcorr Hsome He Hp Hc. unfold patchSelf, fields_update.
  destruct (parseRequiredProfileIfMatch ifMatch principal) as [version|e] eqn:Eif; [|by eexists _, _].
  apply if_match_version in Eif. rewrite on_tables_responding. unfold updateSelf. rewrite on_tables_bind.
  set (context := {| ax_actorAccountId := VStr principal; ax_correlationId := correlationId active uuid |}).
  pose proof (update_on_tables date_of now audit_id db (VStr principal) (VNum (JInt version)) input context Hok Hf) as Hu.
  pose proof (self_changes principal version input f _ Hid Eif Hcorr Hsome He Hp Hc) as Hs. fold context in Hs.
  cbn [versioned_store] in Hu. rewrite Hs in Hu.
  cbn [ch_actorAccountId ch_accountId ch_version] in Hu. rewrite String.eqb_refl in Hu. cbn [negb] in Hu.
  destruct (on_tables date_of now audit_id db (update (VStr principal) (VNum (JInt version)) input context)) as [r db'].
  unfold answered in Hu. cbn [fst snd] in Hu.
  destruct (account_profiles db !! principal) as [p|] eqn:Ep.
  2:{ injection Hu as Hr Hd. destruct r; [injection Hr as ->|done]. eexists _, _. split; [done|]. by rewrite Hd. }
  destruct (pr_version p =? version) eqn:Ev; cbn [negb] in Hu |- *.
  2:{ injection Hu as Hr Hd. destruct r; [injection Hr as ->|done]. eexists _, _. split; [done|]. by rewrite Hd. }
  destruct (Z.eqb_spec (pr_version p) MAX_PROFILE_VERSION) as [Em|Hm].
  { injection Hu as Hr Hd. destruct r; [done|injection Hr as ->]. eexists _, _. split; [done|]. by rewrite Hd. }
  injection Hu as Hr Hd. destruct r; [injection Hr as ->|done].
  destruct (to_profiles _ Hok _ _ Ep) as (_ & Hchecks & Hmax & _). apply profile_version in Hchecks.
  change (on_tables date_of now audit_id db' (Done ?x)) with (x, db'). cbn [rbind].
  rewrite presented_response by (cbn; unfold MAX_PROFILE_VERSION, MAX_INT4 in *; lia).
  eexists _, _. split; [done|]. by rewrite Hd.
Qed.

(** ** Reading and updating one's profile *)

(** C12: An authenticated request to update one's profile is a conditional update:
    from the guard through the interceptors, the transformation and validation of
    the body, the handler, the service, the repository and the database functions,
    its response and its effect are those of one normalisation of the body, one
    comparison of the entity tag with the current version, and one change.  It
    succeeds exactly when the tag is the one of the current version and that is
    not the last one, 2147483647, and then the response carries the next version's
    tag; a stale or foreign tag is 412, a missing one 428, an unacceptable body 400,
    and in each of these cases, as at the last version, nothing changes.  The
    response may never be cached. *)
Theorem patch_is_conditional_update now audit_id db uuid request res ifMatch body st principal st1 :
  rtc account_step no_accounts db -> fresh_audit db audit_id ->
  UUID_V4_PATTERN uuid = true ->
  (forall context, st_context st = Some context -> context_ok context) ->
  canActivate request res st = (Ok tt, st1) -> readCurrentPrincipal request st1 = Some principal ->
  exists response st' db',
    on_tables date_of now audit_id db (patch_me uuid request res ifMatch body st) = (Ok (response, st'), db') /\
    (response, account_profiles db') = conditional_update now principal ifMatch body (account_profiles db) /\
    st_headers st' !! "Cache-Control" = Some "private, no-store".
Proof.
  intros Hreach Hf Huuid Hctx Hguard Hread. unfold patch_me, conditional_update. rewrite Hguard.
  pose proof (canActivate_ok _ _ _ _ _ Hguard) as (principal' & _ & Hid & Hread' & Hcorr).
  rewrite Hread in Hread'. injection Hread' as <-.
  set (st2 := setPrivacyHeaders st1). assert (Hcache : st_headers st2 !! "Cache-Control" = Some "private, no-store").
  { cbn. by rewrite lookup_insert_ne, lookup_insert_eq. }
  pose proof (body_parameters request body st2 principal Hread) as Hbody.
  destruct (body_fields body) as [f|]; [|rewrite Hbody; by eexists _, _, _].
  destruct Hbody as (input & -> & Hsome & He & Hp & Hc). cbn beta iota. rewrite on_tables_bind.
  destruct (patchSelf_on_tables now audit_id db (st_context st2) uuid principal ifMatch input f) as (response & db' & -> & H);
    [by apply reachable_tables_ok | done..| | done | done | done | done | by eexists _, _, _].
  change (st_context st2) with (st_context st1). rewrite Hcorr. by apply current_correlation.
Qed.
End specification.

(** ** Example values *)

Definition request_example : request_state :=
  {| st_principals := ∅; st_context := Some request_context_example; st_headers := ∅ |}.

Definition body_example : jsval := js_object [("contactEmail", VStr "New@Example.COM")].

Definition guarded_example : request_state :=
  (canActivate (Some 7%nat) (RESOLVED (Some (VStr account_id_example))) request_example).2.

Lemma request_context_example_ok : context_ok request_context_example.
Proof. apply (validateContext_ok (context_object request_context_example)). by vm_compute. Qed.

Lemma patch_is_conditional_update_witness :
  (rs_etag <$> to_option (conditional_update (fun t => t / 1000) 3000 account_id_example (VStr (etag_text account_id_example "2"))
                            body_example (account_profiles updated_tables)).1) = Some (etag_text account_id_example "3") /\
  exists response st' db',
    on_tables (fun t => t / 1000) 3000 "0000000c-0000-4000-8000-000000000000" updated_tables
      (patch_me account_id_example (Some 7%nat) (RESOLVED (Some (VStr account_id_example)))
         (VStr (etag_text account_id_example "2")) body_example request_example) = (Ok (response, st'), db') /\
    (response, account_profiles db') =
      conditional_update (fun t => t / 1000) 3000 account_id_example (VStr (etag_text account_id_example "2")) body_example
        (account_profiles updated_tables) /\
    st_headers st' !! "Cache-Control" = Some "private, no-store".
Proof.
  split; [by vm_compute|]. apply (patch_is_conditional_update (fun t => t / 1000) 3000 _ _ _ _ _ _ _ _ _ guarded_example).
  - apply updated_reachable.
  - split; [by vm_compute|]. intros row Hrow.
    assert (Hall : Forall (fun r => au_audit_id r <> "0000000c-0000-4000-8000-000000000000")
                     (account_profile_audit updated_tables)) by by vm_compute; repeat constructor.
    rewrite Forall_forall in Hall. by apply Hall.
  - by vm_compute.
  - intros context [= <-]. apply request_context_example_ok.
  - by vm_compute.
  - by vm_compute.
Defined.
