(* ===== verification/YieldOperation.v ===== *)
(** * Yield operations (apps/api/src/yield-operations/domain/yield-operation.ts)

    Operations that allocate, withdraw or rebalance funds.  They reuse the
    ledger's lifecycle table, and a transition names a ledger journal exactly
    when it settles or reverses. *)

From stdpp Require Import base list strings.
From Stdlib Require Import ZArith Lia Ascii.
From S2P Require Import Prelude Text JsValue JsDate Ledger LedgerLifecycle.

Open Scope Z_scope.

(** ** Data *)

Inductive YieldOperationType : Type := ALLOCATE | WITHDRAW | REBALANCE.

#[export] Program Instance YIELD_OPERATION_TYPES : JsEnum YieldOperationType := {
  enum_values := [ALLOCATE; WITHDRAW; REBALANCE];
  enum_str := fun t => match t with
    | ALLOCATE => "ALLOCATE" | WITHDRAW => "WITHDRAW" | REBALANCE => "REBALANCE" end;
}.
Next Obligation. solve_enum_all. Qed.
Next Obligation. solve_enum_inj. Qed.

Inductive YieldOperationValidationCode : Type :=
| INVALID_YIELD_OPERATION_INPUT | INVALID_YIELD_OPERATION_ID | INVALID_YIELD_OPERATION_TYPE
| INVALID_YIELD_REFERENCE | INVALID_YIELD_LEDGER_REFERENCE.

(** The module's own error, the lifecycle table's or the identifier parsers'. *)
Inductive YieldException : Type :=
| YieldOperationValidationError (code : YieldOperationValidationCode)
| YieldLifecycleError (e : LifecycleException)
| YieldLedgerError (code : LedgerValidationCode).

Notation yield_result := (result YieldException).

Record ValidatedCreateYieldOperation : Type := {
  yo_operationId : string;
  yo_operationType : YieldOperationType;
  yo_ledgerTransactionId : string;
  yo_planReferenceId : string;
  yo_quoteReferenceId : string;
  yo_effectiveAt : string;
}.

Record CreateYieldOperationCommand : Type := {
  yoc_actorAccountId : string;
  yoc_correlationId : string;
  yoc_operation : ValidatedCreateYieldOperation;
}.

Record ValidatedTransitionYieldOperation : Type := {
  yt_operationId : string;
  yt_expectedState : LedgerLifecycleState;
  yt_nextState : LedgerLifecycleState;
  yt_reason : LedgerLifecycleReasonCode;
  yt_effectiveAt : string;
  yt_ledgerJournalId : option string;
}.

Record TransitionYieldOperationCommand : Type := {
  ytc_actorAccountId : string;
  ytc_correlationId : string;
  ytc_transition : ValidatedTransitionYieldOperation;
}.

(** ** Parsers *)

Definition ownDataRecord (value : jsval) (expectedKeys : list string) : yield_result jsrec :=
  or_throw (exact_data_record expectedKeys value)
    (YieldOperationValidationError INVALID_YIELD_OPERATION_INPUT).

Definition uuid (value : jsval) (code : YieldOperationValidationCode) : yield_result string :=
  match value with
  | VStr s => if UUID_V4_PATTERN s then Ok s else Err (YieldOperationValidationError code)
  | _ => Err (YieldOperationValidationError code)
  end.

Definition parseYieldOperationId (value : jsval) := uuid value INVALID_YIELD_OPERATION_ID.
Definition parseYieldPlanReferenceId (value : jsval) := uuid value INVALID_YIELD_REFERENCE.
Definition parseYieldQuoteReferenceId (value : jsval) := uuid value INVALID_YIELD_REFERENCE.
Definition parseYieldTransitionEventId (value : jsval) := uuid value INVALID_YIELD_OPERATION_ID.
Definition parseYieldSubmissionId (value : jsval) := uuid value INVALID_YIELD_OPERATION_ID.

Definition parseOperationType (value : jsval) : yield_result YieldOperationType :=
  or_throw (enum_member enum_values value)
    (YieldOperationValidationError INVALID_YIELD_OPERATION_TYPE).

(** A genuine, finite [Date], copied. *)
Definition canonicalDate (value : jsval) : yield_result jsval :=
  match date_time value with
  | None => Err (YieldOperationValidationError INVALID_YIELD_OPERATION_INPUT)
  | Some milliseconds =>
      if valid_time milliseconds then Ok (js_date milliseconds)
      else Err (YieldOperationValidationError INVALID_YIELD_OPERATION_INPUT)
  end.

Definition timestampInput (value : jsval) : yield_result jsval :=
  match value with
  | VStr s =>
      match canonical_time s with
      | Some t => Ok (js_date t)
      | None => Err (YieldOperationValidationError INVALID_YIELD_OPERATION_INPUT)
      end
  | _ => Err (YieldOperationValidationError INVALID_YIELD_OPERATION_INPUT)
  end.

Definition requiresJournal (nextState : LedgerLifecycleState) : bool :=
  match nextState with
  | SETTLED | REVERSED => true
  | _ => false
  end.

Definition parseJournalReference (value : jsval) (nextState : LedgerLifecycleState)
    : yield_result (option string) :=
  reject (YieldOperationValidationError INVALID_YIELD_LEDGER_REFERENCE)
    when negb (Bool.eqb (negb (is_null value)) (requiresJournal nextState)) in
  if is_null value then Ok None
  else rcatch (rmap Some (rlift YieldLedgerError (parseLedgerJournalId value)))
         (fun _ => Err (YieldOperationValidationError INVALID_YIELD_LEDGER_REFERENCE)).

(** ** Normalisers *)

Definition normalizeCreateYieldOperationInput (value : jsval)
    : yield_result ValidatedCreateYieldOperation :=
  let* record := ownDataRecord value
    ["operationId"; "operationType"; "ledgerTransactionId"; "planReferenceId";
     "quoteReferenceId"; "effectiveAt"] in
  let* effectiveAt := canonicalDate (record .: "effectiveAt") in
  let* lifecycle := rlift YieldLifecycleError (normalizeLedgerLifecycleTransitionInput (js_object
    [("transactionId", record .: "ledgerTransactionId"); ("legId", VNull);
     ("expectedState", VNull); ("nextState", VStr "CREATED"); ("reason", VStr "INTENT_CREATED");
     ("effectiveAt", effectiveAt)])) in
  let* operationId := parseYieldOperationId (record .: "operationId") in
  let* operationType := parseOperationType (record .: "operationType") in
  let* planReferenceId := parseYieldPlanReferenceId (record .: "planReferenceId") in
  let* quoteReferenceId := parseYieldQuoteReferenceId (record .: "quoteReferenceId") in
  Ok {| yo_operationId := operationId; yo_operationType := operationType;
        yo_ledgerTransactionId := lt_transactionId lifecycle;
        yo_planReferenceId := planReferenceId; yo_quoteReferenceId := quoteReferenceId;
        yo_effectiveAt := lt_effectiveAt lifecycle |}.

Definition normalizeCreateYieldOperationCommand (value : jsval)
    : yield_result CreateYieldOperationCommand :=
  let* record := ownDataRecord value
    ["actorAccountId"; "correlationId"; "operationId"; "operationType"; "ledgerTransactionId";
     "planReferenceId"; "quoteReferenceId"; "effectiveAt"] in
  let* effectiveAt := timestampInput (record .: "effectiveAt") in
  let* operation := normalizeCreateYieldOperationInput (js_object
    [("operationId", record .: "operationId"); ("operationType", record .: "operationType");
     ("ledgerTransactionId", record .: "ledgerTransactionId");
     ("planReferenceId", record .: "planReferenceId");
     ("quoteReferenceId", record .: "quoteReferenceId"); ("effectiveAt", effectiveAt)]) in
  let* actorAccountId := rlift YieldLedgerError
                           (parseLedgerActorAccountId (record .: "actorAccountId")) in
  let* correlationId := rlift YieldLedgerError
                          (parseLedgerCorrelationId (record .: "correlationId")) in
  Ok {| yoc_actorAccountId := actorAccountId; yoc_correlationId := correlationId;
        yoc_operation := operation |}.

(** The transaction id the shared table is given; the result drops it. *)
Definition placeholder_transaction : string := "00000000-0000-4000-8000-000000000000".

Definition normalizeTransitionYieldOperationInput (value : jsval)
    : yield_result ValidatedTransitionYieldOperation :=
  let* record := ownDataRecord value
    ["operationId"; "expectedState"; "nextState"; "reason"; "effectiveAt"; "ledgerJournalId"] in
  let* effectiveAt := canonicalDate (record .: "effectiveAt") in
  let* lifecycle := rlift YieldLifecycleError (normalizeLedgerLifecycleTransitionInput (js_object
    [("transactionId", VStr placeholder_transaction); ("legId", VNull);
     ("expectedState", record .: "expectedState"); ("nextState", record .: "nextState");
     ("reason", record .: "reason"); ("effectiveAt", effectiveAt)])) in
  let* expectedState := or_throw (lt_expectedState lifecycle)
    (YieldOperationValidationError INVALID_YIELD_OPERATION_INPUT) in
  let* operationId := parseYieldOperationId (record .: "operationId") in
  let* ledgerJournalId := parseJournalReference (record .: "ledgerJournalId")
                            (lt_nextState lifecycle) in
  Ok {| yt_operationId := operationId; yt_expectedState := expectedState;
        yt_nextState := lt_nextState lifecycle; yt_reason := lt_reason lifecycle;
        yt_effectiveAt := lt_effectiveAt lifecycle; yt_ledgerJournalId := ledgerJournalId |}.

Definition normalizeTransitionYieldOperationCommand (value : jsval)
    : yield_result TransitionYieldOperationCommand :=
  let* record := ownDataRecord value
    ["actorAccountId"; "correlationId"; "operationId"; "expectedState"; "nextState"; "reason";
     "effectiveAt"; "ledgerJournalId"] in
  let* effectiveAt := timestampInput (record .: "effectiveAt") in
  let* transition := normalizeTransitionYieldOperationInput (js_object
    [("operationId", record .: "operationId"); ("expectedState", record .: "expectedState");
     ("nextState", record .: "nextState"); ("reason", record .: "reason");
     ("effectiveAt", effectiveAt); ("ledgerJournalId", record .: "ledgerJournalId")]) in
  let* actorAccountId := rlift YieldLedgerError
                           (parseLedgerActorAccountId (record .: "actorAccountId")) in
  let* correlationId := rlift YieldLedgerError
                          (parseLedgerCorrelationId (record .: "correlationId")) in
  Ok {| ytc_actorAccountId := actorAccountId; ytc_correlationId := correlationId;
        ytc_transition := transition |}.

Definition createYieldOperationCommand (operation : ValidatedCreateYieldOperation)
    (actorAccountId correlationId : jsval) : yield_result CreateYieldOperationCommand :=
  normalizeCreateYieldOperationCommand (js_object
    [("actorAccountId", actorAccountId); ("correlationId", correlationId);
     ("operationId", VStr (yo_operationId operation));
     ("operationType", VStr (enum_str (yo_operationType operation)));
     ("ledgerTransactionId", VStr (yo_ledgerTransactionId operation));
     ("planReferenceId", VStr (yo_planReferenceId operation));
     ("quoteReferenceId", VStr (yo_quoteReferenceId operation));
     ("effectiveAt", VStr (yo_effectiveAt operation))]).

Definition createTransitionYieldOperationCommand (transition : ValidatedTransitionYieldOperation)
    (actorAccountId correlationId : jsval) : yield_result TransitionYieldOperationCommand :=
  normalizeTransitionYieldOperationCommand (js_object
    [("actorAccountId", actorAccountId); ("correlationId", correlationId);
     ("operationId", VStr (yt_operationId transition));
     ("expectedState", VStr (enum_str (yt_expectedState transition)));
     ("nextState", VStr (enum_str (yt_nextState transition)));
     ("reason", VStr (enum_str (yt_reason transition)));
     ("effectiveAt", VStr (yt_effectiveAt transition));
     ("ledgerJournalId", js_nullable (yt_ledgerJournalId transition))]).

(** ** Specification *)

Definition create_wf (o : ValidatedCreateYieldOperation) : Prop :=
  UUID_V4_PATTERN (yo_operationId o) = true /\ UUID_V4_PATTERN (yo_ledgerTransactionId o) = true /\
  UUID_V4_PATTERN (yo_planReferenceId o) = true /\
  UUID_V4_PATTERN (yo_quoteReferenceId o) = true /\ iso_timestamp (yo_effectiveAt o).

(** Allowed by the ledger's table from an existing state; a journal is named
    exactly on settlement and on reversal. *)
Definition yield_transition_wf (t : ValidatedTransitionYieldOperation) : Prop :=
  UUID_V4_PATTERN (yt_operationId t) = true /\ iso_timestamp (yt_effectiveAt t) /\
  isAllowedLedgerLifecycleTransition (Some (yt_expectedState t)) (yt_nextState t) (yt_reason t)
    = true /\
  optional_uuid (yt_ledgerJournalId t) /\
  (is_Some (yt_ledgerJournalId t) <-> yt_nextState t = SETTLED \/ yt_nextState t = REVERSED).

(** The transitions of one operation after its creation. *)
Inductive yield_history : LedgerLifecycleState -> list ValidatedTransitionYieldOperation ->
    LedgerLifecycleState -> Prop :=
| yield_history_nil s : yield_history s [] s
| yield_history_cons v t ts s' :
    normalizeTransitionYieldOperationInput v = Ok t ->
    yield_history (yt_nextState t) ts s' ->
    yield_history (yt_expectedState t) (t :: ts) s'.

(** The journals an operation in a state has been given. *)
Definition journals_in (s : LedgerLifecycleState) : nat :=
  match s with
  | SETTLED => 1
  | REVERSED => 2
  | _ => 0
  end.

Definition create_input_js (ms : Z) (o : ValidatedCreateYieldOperation) : jsval := js_object
  [("operationId", VStr (yo_operationId o));
   ("operationType", VStr (enum_str (yo_operationType o)));
   ("ledgerTransactionId", VStr (yo_ledgerTransactionId o));
   ("planReferenceId", VStr (yo_planReferenceId o));
   ("quoteReferenceId", VStr (yo_quoteReferenceId o)); ("effectiveAt", js_date ms)].

Definition yield_transition_input_js (ms : Z) (t : ValidatedTransitionYieldOperation) : jsval :=
  js_object
  [("operationId", VStr (yt_operationId t));
   ("expectedState", VStr (enum_str (yt_expectedState t)));
   ("nextState", VStr (enum_str (yt_nextState t))); ("reason", VStr (enum_str (yt_reason t)));
   ("effectiveAt", js_date ms); ("ledgerJournalId", js_nullable (yt_ledgerJournalId t))].

(** ** Examples *)

Definition create_operation_example : ValidatedCreateYieldOperation :=
  {| yo_operationId := uuid_example "1"; yo_operationType := ALLOCATE;
     yo_ledgerTransactionId := uuid_example "2"; yo_planReferenceId := uuid_example "3";
     yo_quoteReferenceId := uuid_example "4"; yo_effectiveAt := "2026-09-01T00:00:00.000Z" |}.

Definition yield_transition_example (from to : LedgerLifecycleState)
    (why : LedgerLifecycleReasonCode) (journal : option string)
    : ValidatedTransitionYieldOperation :=
  {| yt_operationId := uuid_example "1"; yt_expectedState := from; yt_nextState := to;
     yt_reason := why; yt_effectiveAt := "2026-09-01T00:00:00.000Z";
     yt_ledgerJournalId := journal |}.

Definition settled_operation_example : list ValidatedTransitionYieldOperation :=
  [yield_transition_example CREATED QUOTED QUOTE_CREATED None;
   yield_transition_example QUOTED USER_APPROVED USER_APPROVAL_RECORDED None;
   yield_transition_example USER_APPROVED SUBMITTED SUBMISSION_RECORDED None;
   yield_transition_example SUBMITTED SETTLED SETTLEMENT_RECORDED (Some (uuid_example "e"))].

(** ** Lemmas *)

Lemma uuid_ok v code s : uuid v code = Ok s <-> v = VStr s /\ UUID_V4_PATTERN s = true.
Proof.
  unfold uuid. split.
  - destruct v; try discriminate. destruct (UUID_V4_PATTERN _) eqn:E; [|discriminate]. by intros [= <-].
  - by intros [-> ->].
Qed.

Lemma canonicalDate_ok v d :
  canonicalDate v = Ok d <-> exists t, date_time v = Some t /\ valid_time t = true /\ d = js_date t.
Proof.
  unfold canonicalDate. destruct (date_time v) as [t|]; [|split; [done | by intros (? & [=] & _)]].
  destruct (valid_time t) eqn:E; split.
  - intros [= <-]. eauto.
  - by intros (? & [= <-] & _ & ->).
  - done.
  - intros (? & [= <-] & H & _). congruence.
Qed.

Lemma yield_timestamp_input s : iso_timestamp s ->
  exists t, timestampInput (VStr s) = Ok (js_date t) /\ canonicalDate (js_date t) = Ok (js_date t) /\
            parseLifecycleTimestamp (js_date t) = Ok s.
Proof.
  intros (t & Ht & ->). exists t. unfold timestampInput.
  rewrite (proj2 (canonical_time_spec _ t)) by done. split; [done|].
  unfold canonicalDate, parseLifecycleTimestamp, js_date, date_time. by rewrite Ht.
Qed.

Lemma parseJournalReference_ok v s j :
  parseJournalReference v s = Ok j <->
  v = js_nullable j /\ optional_uuid j /\ (is_Some j <-> s = SETTLED \/ s = REVERSED).
Proof.
  assert (requiresJournal s = true <-> s = SETTLED \/ s = REVERSED) as Hs
    by (destruct s; naive_solver).
  unfold parseJournalReference. split.
  - destruct (negb (Bool.eqb _ _)) eqn:E; [discriminate|].
    apply negb_false_iff, Bool.eqb_prop in E. destruct (is_null v) eqn:Hn.
    + intros [= <-]. destruct v; try discriminate. split; [done|]. split; [done|].
      rewrite <- Hs, <- E. split; [by intros [? ?] | discriminate].
    + destruct (parseLedgerJournalId v) as [x|] eqn:Ep; [|discriminate]. intros [= <-].
      apply parseUuid_ok in Ep as [-> Hx]. split; [done|]. split; [done|].
      rewrite <- Hs, <- E. by split.
  - intros (-> & Hu & Hj). destruct j as [x|]; cbn [js_nullable is_null negb].
    + rewrite (proj2 Hs) by (apply Hj; eauto). cbn [Bool.eqb negb].
      unfold parseLedgerJournalId. by rewrite (proj2 (parseUuid_ok (VStr x) x)).
    + destruct (requiresJournal s) eqn:E; [|done]. by destruct (proj2 Hj (proj1 Hs eq_refl)).
Qed.

Lemma normalizeCreate_wf v o : normalizeCreateYieldOperationInput v = Ok o -> create_wf o.
Proof.
  unfold normalizeCreateYieldOperationInput, ownDataRecord, parseYieldOperationId,
    parseYieldPlanReferenceId, parseYieldQuoteReferenceId.
  intros H. inv_ok. subst o. apply normalizeTransition_wf in Hr1 as (? & _ & ? & _).
  apply uuid_ok in Hr2 as [_ ?], Hr4 as [_ ?], Hr5 as [_ ?]. unfold create_wf. cbn. tauto.
Qed.

(** The lifecycle table is consulted for the creation of its transaction. *)
Lemma creation_transition_ok ms tx at_ :
  UUID_V4_PATTERN tx = true -> parseLifecycleTimestamp (js_date ms) = Ok at_ ->
  normalizeLedgerLifecycleTransitionInput (js_object
    [("transactionId", VStr tx); ("legId", VNull); ("expectedState", VNull);
     ("nextState", VStr "CREATED"); ("reason", VStr "INTENT_CREATED"); ("effectiveAt", js_date ms)])
  = Ok {| lt_transactionId := tx; lt_legId := None; lt_expectedState := None;
          lt_nextState := CREATED; lt_reason := INTENT_CREATED; lt_effectiveAt := at_ |}.
Proof.
  intros Ht Hp. apply (normalizeTransition_js ms
    {| lt_transactionId := tx; lt_legId := None; lt_expectedState := None;
       lt_nextState := CREATED; lt_reason := INTENT_CREATED; lt_effectiveAt := at_ |}); [|done].
  split; [done|]. split; [done|]. split; [by eapply parseLifecycleTimestamp_iso | done].
Qed.

Lemma normalizeCreate_js ms o :
  create_wf o -> canonicalDate (js_date ms) = Ok (js_date ms) ->
  parseLifecycleTimestamp (js_date ms) = Ok (yo_effectiveAt o) ->
  normalizeCreateYieldOperationInput (create_input_js ms o) = Ok o.
Proof.
  intros (Ho & Ht & Hp & Hq & _) Hd Hl.
  unfold normalizeCreateYieldOperationInput, ownDataRecord, create_input_js, parseYieldOperationId,
    parseYieldPlanReferenceId, parseYieldQuoteReferenceId, parseOperationType.
  read_record. rewrite Hd. cbn [rbind]. rewrite (creation_transition_ok _ _ _ Ht Hl).
  cbn [rlift rcatch rbind]. rewrite (proj2 (uuid_ok (VStr (yo_operationId o)) _ _)) by done.
  cbn [rbind]. rewrite enum_member_str. cbn [or_throw rbind].
  rewrite (proj2 (uuid_ok (VStr (yo_planReferenceId o)) _ _)) by done. cbn [rbind].
  rewrite (proj2 (uuid_ok (VStr (yo_quoteReferenceId o)) _ _)) by done. by destruct o.
Qed.

Lemma yield_uuid_js s : UUID_V4_PATTERN s = true ->
  rlift YieldLedgerError (parseUuid (VStr s)) = Ok s.
Proof. intros. by apply rlift_ok, parseUuid_ok. Qed.

Lemma createYieldOperationCommand_ok o a c :
  create_wf o -> UUID_V4_PATTERN a = true -> UUID_V4_PATTERN c = true ->
  createYieldOperationCommand o (VStr a) (VStr c)
  = Ok {| yoc_actorAccountId := a; yoc_correlationId := c; yoc_operation := o |}.
Proof.
  intros Ho Ha Hc. pose proof Ho as (_ & _ & _ & _ & Hi).
  apply yield_timestamp_input in Hi as (ms & Hi & Hd & Hp).
  unfold createYieldOperationCommand, normalizeCreateYieldOperationCommand, ownDataRecord,
    parseLedgerActorAccountId, parseLedgerCorrelationId.
  read_record. rewrite Hi. cbn [rbind]. fold (create_input_js ms o).
  rewrite normalizeCreate_js by done. cbn [rbind]. by rewrite !yield_uuid_js.
Qed.

Lemma normalizeYieldTransition_wf v t :
  normalizeTransitionYieldOperationInput v = Ok t -> yield_transition_wf t.
Proof.
  unfold normalizeTransitionYieldOperationInput, ownDataRecord, parseYieldOperationId.
  intros H. inv_ok. subst t. apply normalizeTransition_wf in Hr1 as (_ & _ & ? & Ha).
  apply uuid_ok in Hr3 as [_ ?]. apply parseJournalReference_ok in Hr4 as (_ & ? & ?).
  rewrite Hr2 in Ha. unfold yield_transition_wf. cbn. tauto.
Qed.

Lemma normalizeYieldTransition_js ms t :
  yield_transition_wf t -> canonicalDate (js_date ms) = Ok (js_date ms) ->
  parseLifecycleTimestamp (js_date ms) = Ok (yt_effectiveAt t) ->
  normalizeTransitionYieldOperationInput (yield_transition_input_js ms t) = Ok t.
Proof.
  intros (Ho & Hi & Ha & Hu & Hj) Hd Hl.
  unfold normalizeTransitionYieldOperationInput, ownDataRecord, yield_transition_input_js,
    parseYieldOperationId.
  read_record. rewrite Hd. cbn [rbind].
  pose proof (normalizeTransition_js ms
    {| lt_transactionId := placeholder_transaction; lt_legId := None;
       lt_expectedState := Some (yt_expectedState t); lt_nextState := yt_nextState t;
       lt_reason := yt_reason t; lt_effectiveAt := yt_effectiveAt t |}) as Hn.
  unfold transition_input_js in Hn.
  cbn [lt_transactionId lt_legId lt_expectedState lt_nextState lt_reason lt_effectiveAt
       js_nullable state_js fmap option_fmap option_map] in Hn.
  rewrite Hn; [|by repeat split | done]. cbn [rlift rcatch rbind or_throw lt_expectedState
    lt_nextState lt_reason lt_effectiveAt].
  rewrite (proj2 (uuid_ok (VStr (yt_operationId t)) _ _)) by done. cbn [rbind].
  rewrite (proj2 (parseJournalReference_ok _ _ (yt_ledgerJournalId t))) by done. by destruct t.
Qed.

Lemma createTransitionYieldOperationCommand_ok t a c :
  yield_transition_wf t -> UUID_V4_PATTERN a = true -> UUID_V4_PATTERN c = true ->
  createTransitionYieldOperationCommand t (VStr a) (VStr c)
  = Ok {| ytc_actorAccountId := a; ytc_correlationId := c; ytc_transition := t |}.
Proof.
  intros Ht Ha Hc. pose proof Ht as (_ & Hi & _).
  apply yield_timestamp_input in Hi as (ms & Hi & Hd & Hp).
  unfold createTransitionYieldOperationCommand, normalizeTransitionYieldOperationCommand,
    ownDataRecord, parseLedgerActorAccountId, parseLedgerCorrelationId.
  read_record. rewrite Hi. cbn [rbind]. fold (yield_transition_input_js ms t).
  rewrite normalizeYieldTransition_js by done. cbn [rbind]. by rewrite !yield_uuid_js.
Qed.

(** One transition adds a journal exactly when it settles or reverses. *)
Lemma journals_step from to reason :
  isAllowedLedgerLifecycleTransition (Some from) to reason = true ->
  journals_in to = (journals_in from + if requiresJournal to then 1 else 0)%nat /\
  (lifecycle_rank (Some from) < lifecycle_rank (Some to) <= 7)%nat.
Proof.
  intros H. split; [|by apply (lifecycle_rank_step _ _ reason)]. revert H.
  destruct from, to, reason; vm_compute; intros; reflexivity || discriminate.
Qed.

Lemma yield_history_journals s ts s' :
  yield_history s ts s' ->
  (journals_in s' = journals_in s + length (omap yt_ledgerJournalId ts))%nat /\
  (lifecycle_rank (Some s) + length ts <= lifecycle_rank (Some s'))%nat.
Proof.
  induction 1 as [|v t ts s' Hv _ [IH1 IH2]]; [simpl; lia|].
  apply normalizeYieldTransition_wf in Hv as (_ & _ & Ha & _ & Hj).
  apply journals_step in Ha as [Hn Hr]. cbn [length omap list_omap]. split; [|lia].
  rewrite IH1, Hn. destruct (yt_ledgerJournalId t) as [j|]; simpl.
  - assert (requiresJournal (yt_nextState t) = true) as ->; [|lia].
    destruct (proj1 Hj ltac:(eauto)) as [-> | ->]; done.
  - assert (requiresJournal (yt_nextState t) = false) as ->; [|lia].
    destruct (yt_nextState t); try done; by destruct (proj2 Hj ltac:(auto)).
Qed.

(** ** Properties *)

(** The accepted transitions are exactly those of the ledger's table from
    an existing state that name a journal on settlement and reversal and only
    there, with UUID identifiers and a printed instant. *)
Theorem yield_transition_range t :
  (exists v, normalizeTransitionYieldOperationInput v = Ok t) <-> yield_transition_wf t.
Proof.
  split; [intros (v & H); by apply (normalizeYieldTransition_wf v)|].
  intros Ht. pose proof Ht as (_ & Hi & _). apply yield_timestamp_input in Hi as (ms & _ & Hd & Hp).
  exists (yield_transition_input_js ms t). by apply normalizeYieldTransition_js.
Qed.

(** C39: accounting of an operation: over any history of accepted transitions
    from its creation, the number of journals named is one when it is settled,
    two when it is reversed and none otherwise, and there are at most six
    transitions. *)
Theorem yield_operation_journals ts s :
  yield_history CREATED ts s ->
  length (omap yt_ledgerJournalId ts) = journals_in s /\ (length ts <= 6)%nat.
Proof.
  intros [H1 H2]%yield_history_journals. pose proof (lifecycle_rank_max (Some s)).
  change (journals_in CREATED) with 0%nat in H1. change (lifecycle_rank (Some CREATED)) with 1%nat in H2. lia.
Qed.

Ltac yield_history_example :=
  lazymatch goal with
  | |- yield_history _ [] _ => constructor
  | |- yield_history _ (?t :: _) _ =>
      refine (yield_history_cons (yield_transition_input_js 1788220800000 t) t _ _ _ _);
      [vm_compute; reflexivity | yield_history_example]
  end.

Lemma yield_operation_journals_witness :
  length (omap yt_ledgerJournalId settled_operation_example) = 1%nat /\
  (length settled_operation_example <= 6)%nat.
Proof.
  apply (yield_operation_journals settled_operation_example SETTLED).
  unfold settled_operation_example. yield_history_example.
Defined.

(** The commands built from normalised operations and transitions are
    accepted by the command normalisers and carry them unchanged. *)
Theorem yield_commands_roundtrip a c :
  UUID_V4_PATTERN a = true -> UUID_V4_PATTERN c = true ->
  (forall v o, normalizeCreateYieldOperationInput v = Ok o ->
     createYieldOperationCommand o (VStr a) (VStr c)
     = Ok {| yoc_actorAccountId := a; yoc_correlationId := c; yoc_operation := o |}) /\
  (forall v t, normalizeTransitionYieldOperationInput v = Ok t ->
     createTransitionYieldOperationCommand t (VStr a) (VStr c)
     = Ok {| ytc_actorAccountId := a; ytc_correlationId := c; ytc_transition := t |}).
Proof.
  intros Ha Hc. split; intros v x H.
  - apply createYieldOperationCommand_ok; [by apply (normalizeCreate_wf v) | done | done].
  - apply createTransitionYieldOperationCommand_ok;
      [by apply (normalizeYieldTransition_wf v) | done | done].
Qed.

Lemma yield_commands_roundtrip_witness :
  createYieldOperationCommand create_operation_example (VStr (uuid_example "8"))
    (VStr (uuid_example "7"))
  = Ok {| yoc_actorAccountId := uuid_example "8"; yoc_correlationId := uuid_example "7";
          yoc_operation := create_operation_example |}.
Proof.
  apply (proj1 (yield_commands_roundtrip (uuid_example "8") (uuid_example "7") eq_refl eq_refl)
           (create_input_js 1788220800000 create_operation_example)).
  vm_compute. reflexivity.
Defined.
