(* ===== verification/YieldService.v ===== *)
(** * Yield operation idempotency and service
    (apps/api/src/yield-operations/domain/yield-operation-idempotency.ts and
    application/yield-operation.service.ts)

    The contexts under which yield commands are stored, and the service that
    builds them and hands the commands to the repository. *)

From stdpp Require Import base list strings gmap.
From Stdlib Require Import ZArith Lia Ascii.
From S2P Require Import Prelude Text JsValue Digest Effects Ledger LedgerLifecycle LedgerIdempotency.
From S2P Require Import LogContext YieldOperation.

Open Scope Z_scope.

(** ** Data *)

Definition YIELD_OPERATION_IDEMPOTENCY_CONTRACT_VERSION : Z := 1.
Definition YIELD_OPERATION_FINGERPRINT_VERSION : Z := 1.
Definition MAX_YIELD_OPERATION_IDEMPOTENCY_KEY_BYTES : Z := 128.

Inductive YieldOperationCommandKind : Type := CREATE | TRANSITION.

#[export] Program Instance YIELD_OPERATION_COMMAND_KINDS : JsEnum YieldOperationCommandKind := {
  enum_values := [CREATE; TRANSITION];
  enum_str := fun k => match k with CREATE => "CREATE" | TRANSITION => "TRANSITION" end;
}.
Next Obligation. solve_enum_all. Qed.
Next Obligation. solve_enum_inj. Qed.

Inductive YieldOperationIdempotencyErrorCode : Type :=
| INVALID_YIELD_IDEMPOTENCY_KEY | INVALID_YIELD_IDEMPOTENCY_CONTEXT | YIELD_IDEMPOTENCY_CONFLICT.

Inductive YieldIdempotencyException : Type :=
| YieldOperationIdempotencyError (code : YieldOperationIdempotencyErrorCode)
| YieldActorError (code : LedgerValidationCode).

Record YieldOperationIdempotencyContext : Type := {
  yic_actorAccountId : string;
  yic_commandKind : YieldOperationCommandKind;
  yic_contractVersion : Z;
  yic_keyDigest : string;
  yic_fingerprintVersion : Z;
  yic_requestFingerprint : string;
}.

Definition YIELD_KEY_DIGEST_DOMAIN : string := "crypto-lending:yield-operation-idempotency-key:v1".
Definition YIELD_REQUEST_FINGERPRINT_DOMAIN : string := "crypto-lending:yield-operation-request:v1".

(** ** Contexts *)

Definition create_fields (o : ValidatedCreateYieldOperation) : list string :=
  [yo_operationId o; enum_str (yo_operationType o); yo_ledgerTransactionId o;
   yo_planReferenceId o; yo_quoteReferenceId o; yo_effectiveAt o].

Definition transition_fields (t : ValidatedTransitionYieldOperation) : list string :=
  [yt_operationId t; enum_str (yt_expectedState t); enum_str (yt_nextState t);
   enum_str (yt_reason t); yt_effectiveAt t; default "" (yt_ledgerJournalId t)].

Definition yield_fingerprint_fields (actor : string) (kind : YieldOperationCommandKind)
    (fields : list string) : list string :=
  [toString YIELD_OPERATION_FINGERPRINT_VERSION;
   toString YIELD_OPERATION_IDEMPOTENCY_CONTRACT_VERSION; actor; enum_str kind] ++ fields.

Section hashing.
(** [createHash('sha256')] from bytes to a lower-case hexadecimal digest. *)
Variable sha256 : string -> string.

Definition yield_digest (domain : string) (fields : list string) : string :=
  sha256 (frames (domain :: fields)).

Definition digestYieldOperationIdempotencyKey (value : jsval)
    : result YieldIdempotencyException string :=
  match value with
  | VStr s =>
      let bytes := utf8_bytes s in
      if (bytes <? 1) || (MAX_YIELD_OPERATION_IDEMPOTENCY_KEY_BYTES <? bytes)
         || negb (VISIBLE_PATTERN s)
      then Err (YieldOperationIdempotencyError INVALID_YIELD_IDEMPOTENCY_KEY)
      else Ok (yield_digest YIELD_KEY_DIGEST_DOMAIN [s])
  | _ => Err (YieldOperationIdempotencyError INVALID_YIELD_IDEMPOTENCY_KEY)
  end.

Definition createContext (rawKey actorAccountId : jsval) (kind : YieldOperationCommandKind)
    (fields : list string) : result YieldIdempotencyException YieldOperationIdempotencyContext :=
  let* actor := rlift YieldActorError (parseLedgerActorAccountId actorAccountId) in
  let* keyDigest := digestYieldOperationIdempotencyKey rawKey in
  Ok {| yic_actorAccountId := actor; yic_commandKind := kind;
        yic_contractVersion := YIELD_OPERATION_IDEMPOTENCY_CONTRACT_VERSION;
        yic_keyDigest := keyDigest;
        yic_fingerprintVersion := YIELD_OPERATION_FINGERPRINT_VERSION;
        yic_requestFingerprint := yield_digest YIELD_REQUEST_FINGERPRINT_DOMAIN
          (yield_fingerprint_fields actor kind fields) |}.

Definition createYieldOperationIdempotencyContext (rawKey : jsval)
    (command : CreateYieldOperationCommand) :=
  createContext rawKey (VStr (yoc_actorAccountId command)) CREATE
    (create_fields (yoc_operation command)).

Definition createYieldTransitionIdempotencyContext (rawKey : jsval)
    (command : TransitionYieldOperationCommand) :=
  createContext rawKey (VStr (ytc_actorAccountId command)) TRANSITION
    (transition_fields (ytc_transition command)).
End hashing.

Definition normalizeYieldOperationIdempotencyContext (value : jsval)
    : result YieldIdempotencyException YieldOperationIdempotencyContext :=
  let invalid := YieldOperationIdempotencyError INVALID_YIELD_IDEMPOTENCY_CONTEXT in
  let* record := or_throw (exact_data_record
    ["actorAccountId"; "commandKind"; "contractVersion"; "keyDigest"; "fingerprintVersion";
     "requestFingerprint"] value) invalid in
  let* commandKind := or_throw (enum_member enum_values (record .: "commandKind")) invalid in
  reject invalid when
    negb (is_int (record .: "contractVersion") YIELD_OPERATION_IDEMPOTENCY_CONTRACT_VERSION)
    || negb (is_int (record .: "fingerprintVersion") YIELD_OPERATION_FINGERPRINT_VERSION) in
  let* keyDigest := or_throw (digest_string (record .: "keyDigest")) invalid in
  let* requestFingerprint := or_throw (digest_string (record .: "requestFingerprint")) invalid in
  let* actorAccountId := rcatch (rlift YieldActorError
    (parseLedgerActorAccountId (record .: "actorAccountId"))) (fun _ => Err invalid) in
  Ok {| yic_actorAccountId := actorAccountId; yic_commandKind := commandKind;
        yic_contractVersion := YIELD_OPERATION_IDEMPOTENCY_CONTRACT_VERSION;
        yic_keyDigest := keyDigest;
        yic_fingerprintVersion := YIELD_OPERATION_FINGERPRINT_VERSION;
        yic_requestFingerprint := requestFingerprint |}.

(** ** The service *)

Inductive yield_service_exception : Type :=
| YieldDomainError (e : YieldException)
| YieldIdempotencyFailure (e : YieldIdempotencyException)
| YieldOperationCommandContextError
| YieldLoggingError (e : LogContextError)
| YieldRejected (error : jsval).

Inductive yield_call : Type :=
| YieldResolveActor
| YieldCreate (log : LogCorrelationContext) (command : CreateYieldOperationCommand)
    (idempotency : YieldOperationIdempotencyContext)
| YieldTransition (log : option LogCorrelationContext) (command : TransitionYieldOperationCommand)
    (idempotency : YieldOperationIdempotencyContext).

(** The repository is a port of this service; its result is passed through. *)
Definition yield_answer (c : yield_call) : Type := jsval.

Notation yield_io := (io yield_answer yield_service_exception).

Section service.
Variable sha256 : string -> string.
Variable log : option LogCorrelationContext.

Definition resolveCommandContext : yield_io (string * string) :=
  io_try
    match log with
    | None => Done (Err YieldOperationCommandContextError)
    | Some context =>
        await* resolvedActor := call (ans := yield_answer) YieldResolveActor in
        await* actorAccountId := Done (rlift (fun e => YieldDomainError (YieldLedgerError e))
          (parseLedgerActorAccountId resolvedActor)) in
        if match context !! "initiatorActorId" with
           | Some initiator => negb (String.eqb initiator actorAccountId)
           | None => false
           end
        then Done (Err YieldOperationCommandContextError)
        else
          await* correlation := Done (rlift (fun e => YieldDomainError (YieldLedgerError e))
            (parseLedgerCorrelationId
              (match context !! "correlationId" with Some c => VStr c | None => VUndef end))) in
          Done (Ok (actorAccountId, correlation))
    end
    (fun _ => Done (Err YieldOperationCommandContextError)).

Definition YieldOperationService_create (input idempotencyKey : jsval) : yield_io jsval :=
  await* operation := Done (rlift YieldDomainError (normalizeCreateYieldOperationInput input)) in
  await* context := resolveCommandContext in
  await* command := Done (rlift YieldDomainError
    (createYieldOperationCommand operation (VStr context.1) (VStr context.2))) in
  await* idempotency := Done (rlift YieldIdempotencyFailure
    (createYieldOperationIdempotencyContext sha256 idempotencyKey command)) in
  await* nested := Done (rlift YieldLoggingError (LoggingContext_runWith log
    (js_object [("transactionId", VStr (yo_ledgerTransactionId operation))]))) in
  call (ans := yield_answer) (YieldCreate nested command idempotency).

Definition YieldOperationService_transition (input idempotencyKey : jsval) : yield_io jsval :=
  await* transition := Done (rlift YieldDomainError
    (normalizeTransitionYieldOperationInput input)) in
  await* context := resolveCommandContext in
  await* command := Done (rlift YieldDomainError
    (createTransitionYieldOperationCommand transition (VStr context.1) (VStr context.2))) in
  await* idempotency := Done (rlift YieldIdempotencyFailure
    (createYieldTransitionIdempotencyContext sha256 idempotencyKey command)) in
  call (ans := yield_answer) (YieldTransition log command idempotency).
End service.

(** ** Specification *)

Definition yield_context_wf (c : YieldOperationIdempotencyContext) : Prop :=
  UUID_V4_PATTERN (yic_actorAccountId c) = true /\ yic_contractVersion c = 1 /\
  yic_fingerprintVersion c = 1 /\ HEX64_PATTERN (yic_keyDigest c) = true /\
  HEX64_PATTERN (yic_requestFingerprint c) = true.

Definition yield_context_js (c : YieldOperationIdempotencyContext) : jsval := js_object
  [("actorAccountId", VStr (yic_actorAccountId c));
   ("commandKind", VStr (enum_str (yic_commandKind c)));
   ("contractVersion", VNum (JInt (yic_contractVersion c))); ("keyDigest", VStr (yic_keyDigest c));
   ("fingerprintVersion", VNum (JInt (yic_fingerprintVersion c)));
   ("requestFingerprint", VStr (yic_requestFingerprint c))].

(** A yield command of either kind; the fingerprint covers all of it except
    the correlation id. *)
Inductive YieldCommand : Type :=
| CreateCommand (actor : string) (operation : ValidatedCreateYieldOperation)
| TransitionCommand (actor : string) (transition : ValidatedTransitionYieldOperation).

Definition yield_command_context (sha256 : string -> string) (key : jsval) (correlation : string)
    (c : YieldCommand) : result YieldIdempotencyException YieldOperationIdempotencyContext :=
  match c with
  | CreateCommand actor operation => createYieldOperationIdempotencyContext sha256 key
      {| yoc_actorAccountId := actor; yoc_correlationId := correlation; yoc_operation := operation |}
  | TransitionCommand actor transition => createYieldTransitionIdempotencyContext sha256 key
      {| ytc_actorAccountId := actor; ytc_correlationId := correlation;
         ytc_transition := transition |}
  end.

(** The fields hashed for a command, and the messages of key and command. *)
Definition command_fields (m : YieldCommand) : list string :=
  match m with
  | CreateCommand a o => yield_fingerprint_fields a CREATE (create_fields o)
  | TransitionCommand a t => yield_fingerprint_fields a TRANSITION (transition_fields t)
  end.

Definition yield_key_message (rawKey : jsval) : string :=
  match rawKey with
  | VStr key => frames [YIELD_KEY_DIGEST_DOMAIN; key]
  | _ => ""
  end.

Definition yield_command_message (m : YieldCommand) : string :=
  frames (YIELD_REQUEST_FINGERPRINT_DOMAIN :: command_fields m).

Definition yield_command_wf (c : YieldCommand) : Prop :=
  match c with
  | CreateCommand _ operation => create_wf operation
  | TransitionCommand _ transition => yield_transition_wf transition
  end.

Definition yield_authorised (log : option LogCorrelationContext) (actor correlation : string)
    : Prop :=
  UUID_V4_PATTERN actor = true /\ UUID_V4_PATTERN correlation = true /\
  exists context, log = Some context /\ context !! "correlationId" = Some correlation /\
    (context !! "initiatorActorId" = None \/ context !! "initiatorActorId" = Some actor).

(** ** Lemmas *)

Lemma yield_key_ok sha256 v d :
  digestYieldOperationIdempotencyKey sha256 v = Ok d <->
  exists k, v = VStr k /\ key_wf k /\ d = yield_digest sha256 YIELD_KEY_DIGEST_DOMAIN [k].
Proof.
  assert (forall e, digestYieldOperationIdempotencyKey sha256 v =
    match parseRawIdempotencyKey v with
    | Ok k => Ok (yield_digest sha256 YIELD_KEY_DIGEST_DOMAIN [k])
    | Err _ => Err (YieldOperationIdempotencyError e)
    end \/ e <> INVALID_YIELD_IDEMPOTENCY_KEY) as H.
  { intros []; [left | by right ..].
    unfold digestYieldOperationIdempotencyKey, parseRawIdempotencyKey.
    destruct v; try done. by destruct (_ || _ || _). }
  destruct (H INVALID_YIELD_IDEMPOTENCY_KEY) as [->|]; [|done]. split.
  - destruct (parseRawIdempotencyKey v) as [k|] eqn:E; [|discriminate]. intros [= <-].
    apply parseRawIdempotencyKey_ok in E as [-> ?]. eauto.
  - intros (k & -> & Hk & ->). by rewrite (proj2 (parseRawIdempotencyKey_ok _ _) (conj eq_refl Hk)).
Qed.

Lemma createYieldContext_ok sha256 key actor kind fields c :
  createContext sha256 key (VStr actor) kind fields = Ok c ->
  exists k, key = VStr k /\ key_wf k /\ UUID_V4_PATTERN actor = true /\
    c = {| yic_actorAccountId := actor; yic_commandKind := kind; yic_contractVersion := 1;
           yic_keyDigest := yield_digest sha256 YIELD_KEY_DIGEST_DOMAIN [k];
           yic_fingerprintVersion := 1;
           yic_requestFingerprint := yield_digest sha256 YIELD_REQUEST_FINGERPRINT_DOMAIN
             (yield_fingerprint_fields actor kind fields) |}.
Proof.
  unfold createContext, parseLedgerActorAccountId. intros H. inv_ok. subst c.
  apply parseUuid_ok in Hr as [[= <-] ?]. apply yield_key_ok in Hr0 as (k & -> & ? & ->). eauto.
Qed.

Lemma create_fields_inj o o' : create_fields o = create_fields o' -> o = o'.
Proof.
  destruct o as [a b c d e f], o' as [a' b' c' d' e' f']. unfold create_fields. cbn.
  intros [= -> Hb -> -> -> ->]. assert (b = b') as -> by (by apply enum_str_inj). done.
Qed.

Lemma transition_fields_inj t t' :
  yield_transition_wf t -> yield_transition_wf t' ->
  transition_fields t = transition_fields t' -> t = t'.
Proof.
  intros (_ & _ & _ & Hj & _) (_ & _ & _ & Hj' & _). revert Hj Hj'.
  destruct t as [a b c d e j], t' as [a' b' c' d' e' j']. unfold transition_fields. cbn.
  intros Hj Hj' [= -> Hb Hc Hd -> H].
  assert (b = b') as -> by (by apply enum_str_inj).
  assert (c = c') as -> by (by apply enum_str_inj).
  assert (d = d') as -> by (by apply enum_str_inj).
  destruct j as [j|], j' as [j'|]; simpl in H; subst; done.
Qed.

Lemma yield_fields_inj a k f a' k' f' :
  yield_fingerprint_fields a k f = yield_fingerprint_fields a' k' f' -> a = a' /\ k = k' /\ f = f'.
Proof.
  unfold yield_fingerprint_fields. cbn [app]. intros [= -> Hk ->].
  assert (k = k') as -> by (by apply enum_str_inj). done.
Qed.

Lemma command_fields_inj m1 m2 :
  yield_command_wf m1 -> yield_command_wf m2 -> command_fields m1 = command_fields m2 -> m1 = m2.
Proof.
  destruct m1 as [a1 o1|a1 t1], m2 as [a2 o2|a2 t2]; cbn [command_fields yield_command_wf];
    intros H1 H2 (-> & Hk & Hf)%yield_fields_inj; try discriminate; f_equal.
  - by apply create_fields_inj.
  - by apply transition_fields_inj.
Qed.

Lemma yield_command_context_ok sha256 key cor m c :
  yield_command_context sha256 key cor m = Ok c ->
  exists k, key = VStr k /\
    UUID_V4_PATTERN (match m with CreateCommand a _ | TransitionCommand a _ => a end) = true /\
    c = {| yic_actorAccountId := match m with CreateCommand a _ | TransitionCommand a _ => a end;
           yic_commandKind := match m with CreateCommand _ _ => CREATE | _ => TRANSITION end;
           yic_contractVersion := 1;
           yic_keyDigest := yield_digest sha256 YIELD_KEY_DIGEST_DOMAIN [k];
           yic_fingerprintVersion := 1;
           yic_requestFingerprint :=
             yield_digest sha256 YIELD_REQUEST_FINGERPRINT_DOMAIN (command_fields m) |}.
Proof. destruct m; intros (k & -> & _ & ? & ->)%createYieldContext_ok; eauto. Qed.

Lemma yield_context_js_ok c :
  yield_context_wf c -> normalizeYieldOperationIdempotencyContext (yield_context_js c) = Ok c.
Proof.
  intros (Ha & Hc & Hf & Hk & Hr).
  unfold normalizeYieldOperationIdempotencyContext, yield_context_js.
  read_record. rewrite enum_member_str. cbn [or_throw rbind]. rewrite Hc, Hf. cbn [is_int].
  rewrite (proj2 (digest_string_ok _ _) (conj eq_refl Hk)). cbn [or_throw rbind].
  rewrite (proj2 (digest_string_ok _ _) (conj eq_refl Hr)). cbn [or_throw rbind].
  unfold parseLedgerActorAccountId. rewrite (proj2 (parseUuid_ok _ _) (conj eq_refl Ha)).
  destruct c; cbn in *. by subst.
Qed.

Lemma resolveCommandContext_ok log t actor correlation :
  executes (resolveCommandContext log) t (Ok (actor, correlation)) <->
  t = [Event YieldResolveActor (Ok (VStr actor))] /\ yield_authorised log actor correlation.
Proof.
  unfold resolveCommandContext. rewrite executes_try_ok by (by intros ? ? ? [_ ?]).
  unfold parseLedgerActorAccountId, parseLedgerCorrelationId, yield_authorised.
  destruct log as [context|]; cycle 1.
  { split; [by intros [_ ?] | by intros (_ & _ & _ & ? & [=] & _)]. }
  split.
  - intros (v & t1 & -> & H)%executes_call_ok.
    apply executes_pure_ok in H as (a & [-> Ha]%rlift_ok%parseUuid_ok & H).
    destruct (match context !! "initiatorActorId" with Some _ => _ | None => _ end) eqn:Ei;
      [by destruct H|].
    apply executes_pure_ok in H as (c & [Hc Hu]%rlift_ok%parseUuid_ok & [-> [= -> ->]]).
    split; [done|]. split; [done|]. split; [done|]. exists context. split; [done|].
    split; [destruct (context !! "correlationId"); congruence|].
    destruct (context !! "initiatorActorId") as [i|]; [right | by left].
    apply negb_false_iff, String.eqb_eq in Ei. by subst.
  - intros (-> & Ha & Hu & context' & [= <-] & Hc & Hi). apply executes_call_ok.
    eexists _, _. split; [reflexivity|]. apply executes_pure_ok. exists actor.
    split; [by apply rlift_ok, parseUuid_ok|]. rewrite Hc.
    replace (match context !! "initiatorActorId" with Some _ => _ | None => _ end) with false
      by (destruct Hi as [-> | ->]; by rewrite ?String.eqb_refl).
    apply executes_pure_ok. exists correlation. split; [by apply rlift_ok, parseUuid_ok | done].
Qed.

(** ** Properties *)

(** A yield idempotency context identifies its command: provided the hash
    tells the hashed messages apart, request fingerprints are equal exactly for
    the same kind, actor and content, although the correlation id may differ,
    and key digests exactly for the same key; and the stored context passes
    its own validation. *)
Theorem yield_context_binds_command sha256 k1 cor1 m1 c1 k2 cor2 m2 c2 :
  yield_command_wf m1 -> yield_command_wf m2 ->
  yield_command_context sha256 k1 cor1 m1 = Ok c1 ->
  yield_command_context sha256 k2 cor2 m2 = Ok c2 ->
  collision_free sha256 [yield_key_message k1; yield_command_message m1;
                         yield_key_message k2; yield_command_message m2] ->
  (yic_requestFingerprint c1 = yic_requestFingerprint c2 <-> m1 = m2) /\
  (yic_keyDigest c1 = yic_keyDigest c2 <-> k1 = k2) /\
  ((forall m, HEX64_PATTERN (sha256 m) = true) ->
   normalizeYieldOperationIdempotencyContext (yield_context_js c1) = Ok c1).
Proof.
  intros Hw1 Hw2 (x1 & -> & Ha & ->)%yield_command_context_ok (x2 & -> & _ & ->)%yield_command_context_ok.
  cbn [yic_requestFingerprint yic_keyDigest]. unfold yield_digest, yield_command_message.
  cbn [yield_key_message]. intros Hc. split; [|split].
  - split; [|by intros ->]. intros H. eapply digest_binds in H; [|exact Hc | solve_elem ..].
    apply (f_equal tail) in H. by apply command_fields_inj in H.
  - split; [|by intros [= ->]]. intros H. eapply digest_binds in H; [|exact Hc | solve_elem ..].
    by injection H as ->.
  - intros H. apply yield_context_js_ok. split; [done|]. split; [done|]. split; [done|].
    by split; apply H.
Qed.

Lemma yield_context_binds_command_witness :
  exists c1 c2,
    yield_command_context id (VStr "key-1") (uuid_example "7")
      (CreateCommand (uuid_example "8") create_operation_example) = Ok c1 /\
    yield_command_context id (VStr "key-2") (uuid_example "7")
      (CreateCommand (uuid_example "8") create_operation_example) = Ok c2 /\
    yic_requestFingerprint c1 = yic_requestFingerprint c2 /\ yic_keyDigest c1 <> yic_keyDigest c2.
Proof.
  assert (yield_command_wf (CreateCommand (uuid_example "8") create_operation_example)) as Hw.
  { apply (normalizeCreate_wf (create_input_js 1788220800000 create_operation_example)).
    vm_compute. reflexivity. }
  destruct (yield_command_context id (VStr "key-1") (uuid_example "7")
    (CreateCommand (uuid_example "8") create_operation_example)) as [c1|] eqn:E1;
    [|vm_compute in E1; discriminate E1].
  destruct (yield_command_context id (VStr "key-2") (uuid_example "7")
    (CreateCommand (uuid_example "8") create_operation_example)) as [c2|] eqn:E2;
    [|vm_compute in E2; discriminate E2].
  destruct (yield_context_binds_command id _ _ _ _ _ _ _ _ Hw Hw E1 E2) as (Hr & Hk & _);
    [apply collision_free_id|].
  exists c1, c2. split; [done|]. split; [done|]. split; [by apply Hr|].
  intros H. apply Hk in H. discriminate H.
Defined.

(** A yield command reaches the repository exactly when the input is
    accepted, the acting account is the one bound to the request and the key
    is valid; the command and context handed over are those of the normalised
    input, and the caller gets the repository's answer. *)
Theorem yield_create_trace sha256 log input key t answer :
  executes (YieldOperationService_create sha256 log input key) t (Ok answer) <->
  exists operation actor correlation idempotency nested,
    normalizeCreateYieldOperationInput input = Ok operation /\
    yield_authorised log actor correlation /\
    createYieldOperationIdempotencyContext sha256 key
      {| yoc_actorAccountId := actor; yoc_correlationId := correlation;
         yoc_operation := operation |} = Ok idempotency /\
    LoggingContext_runWith log
      (js_object [("transactionId", VStr (yo_ledgerTransactionId operation))]) = Ok nested /\
    t = [Event YieldResolveActor (Ok (VStr actor));
         Event (YieldCreate nested
           {| yoc_actorAccountId := actor; yoc_correlationId := correlation;
              yoc_operation := operation |} idempotency) (Ok answer)].
Proof.
  unfold YieldOperationService_create. split.
  - intros (o & Ho%rlift_ok & H)%executes_pure_ok.
    apply executes_bind_ok in H as ([a c] & t1 & t2 & -> & Ha & H).
    apply resolveCommandContext_ok in Ha as [-> Ha]. cbn [fst snd] in H.
    rewrite createYieldOperationCommand_ok in H
      by (by eapply normalizeCreate_wf || by destruct Ha as (? & ? & _)).
    apply executes_pure_ok in H as (command & [= <-] & H).
    apply executes_pure_ok in H as (i & Hi%rlift_ok & H).
    apply executes_pure_ok in H as (n & Hn%rlift_ok & H).
    apply (executes_call (ans := yield_answer) (YieldCreate _ _ _)) in H as ->. eauto 10.
  - intros (o & a & c & i & n & Ho & Ha & Hi & Hn & ->). apply executes_pure_ok. exists o.
    split; [by apply rlift_ok|]. apply executes_bind_ok.
    eexists (a, c), [_], [_]. split; [reflexivity|].
    split; [by apply resolveCommandContext_ok|]. cbn [fst snd].
    rewrite createYieldOperationCommand_ok
      by (by eapply normalizeCreate_wf || by destruct Ha as (? & ? & _)).
    apply executes_pure_ok. eexists. split; [reflexivity|].
    apply executes_pure_ok. exists i. split; [by apply rlift_ok|].
    apply executes_pure_ok. exists n. split; [by apply rlift_ok|].
    by apply (executes_call (ans := yield_answer) (YieldCreate _ _ _)).
Qed.
