(* ===== verification/JobEnvelope.v ===== *)
(** * Job envelopes (apps/api/src/infrastructure/outbox/job-envelope.ts)

    The immutable message a transaction hands to the outbox: an id, a kind with
    its version, an instant, the correlation identifiers of the operation that
    created it, and a payload the outbox does not look into.  The active logging
    context, the clock and [randomUUID] are arguments. *)

From stdpp Require Import base list strings gmap.
From Stdlib Require Import ZArith Lia Ascii.
From S2P Require Import Prelude Text JsValue JsDate Digest LogContext.

Open Scope Z_scope.

(** ** Data *)

Definition MAX_JOB_ID_LENGTH : Z := 128.
Definition MAX_JOB_KIND_LENGTH : Z := 128.
Definition MAX_OPAQUE_REFERENCE_INPUT_LENGTH : Z := 4096.

Definition OPTIONAL_CORRELATION_KEYS : list string :=
  ["requestId"; "initiatorActorId"; "intentId"; "quoteId"; "transactionId"; "ledgerEventId"].

Definition CORRELATION_KEYS : list string := "correlationId" :: OPTIONAL_CORRELATION_KEYS.

Definition JOB_OPTION_KEYS : list string := ["id"; "version"; "occurredAt"; "correlation"].

Definition JOB_ENVELOPE_KEYS : list string :=
  ["id"; "kind"; "version"; "occurredAt"; "correlation"; "payload"].

Definition REQUIRED_JOB_ENVELOPE_KEYS : list string := ["id"; "kind"; "version"; "occurredAt"; "payload"].

(** The identifiers that are set. *)
Notation JobCorrelationContext := (gmap string string).

Record JobEnvelope : Type := {
  env_id : string;
  env_kind : string;
  env_version : Z;
  env_occurredAt : string;
  env_correlation : JobCorrelationContext;
  env_payload : jsval;
}.

(** The errors of [createJobEnvelope], by what they name. *)
Inductive envelope_error : Type :=
| INVALID_OPTIONS | EMPTY_KIND | LONG_KIND | INVALID_VERSION | INVALID_ID | INVALID_OCCURRED_AT
| INVALID_CORRELATION | CORRELATION_MISMATCH.

(** ** Fields *)

Definition isValidOpaqueId (value : jsval) : option string :=
  match value with
  | VStr s =>
      if (1 <=? strlen s) && (strlen s <=? MAX_JOB_ID_LENGTH) && String.eqb (trim s) s
      then Some s else None
  | _ => None
  end.

Definition isValidKind (value : jsval) : option string :=
  match value with
  | VStr s =>
      if (1 <=? strlen s) && (strlen s <=? MAX_JOB_KIND_LENGTH) && String.eqb (trim s) s
      then Some s else None
  | _ => None
  end.

Definition isCanonicalIsoTimestamp (value : jsval) : option string :=
  match value with
  | VStr s => match canonical_time s with Some _ => Some s | None => None end
  | _ => None
  end.

(** [Number.isSafeInteger(version) && version >= 1] *)
Definition valid_version (value : jsval) : option Z :=
  match safe_integer value with
  | Some n => if n <? 1 then None else Some n
  | None => None
  end.

(** ** Correlation *)

Definition safe_correlation (value : jsval) : option string :=
  match value with
  | VStr s => if isSafeCorrelationId s then Some s else None
  | _ => None
  end.

Definition canonical_uuid (value : jsval) : option string :=
  match value with
  | VStr s => if isCanonicalUuidV4 s then Some s else None
  | _ => None
  end.

(** The optional identifiers: absent, or a data property with a UUID. *)
Fixpoint read_optional (descriptors : jsprops) (keys : list string) : option JobCorrelationContext :=
  match keys with
  | [] => Some ∅
  | key :: keys =>
      match descriptor descriptors key with
      | None => read_optional descriptors keys
      | Some (DAccessor _) => None
      | Some (DData v _) =>
          s ← canonical_uuid v;
          rest ← read_optional descriptors keys;
          Some (<[key := s]> rest)
      end
  end.

Definition parseCorrelationContext (value : jsval) : option JobCorrelationContext :=
  descriptors ← plain_descriptors value;
  if existsb (fun kd => negb (key_in CORRELATION_KEYS kd.1)) descriptors then None
  else
    match descriptor descriptors "correlationId" with
    | Some (DData v _) =>
        correlationId ← safe_correlation v;
        optional ← read_optional descriptors OPTIONAL_CORRELATION_KEYS;
        if match optional !! "requestId" with
           | Some requestId => negb (String.eqb requestId correlationId)
           | None => false
           end then None
        else if String.prefix "legacy:" correlationId && negb (bool_decide (optional = ∅)) then None
        else Some (<["correlationId" := correlationId]> optional)
    | _ => None
    end.

Section digest.
(** SHA-256 of bytes, in lowercase hexadecimal. *)
Context (sha256 : string -> string).

(** [createSafeLegacyCorrelationId('job', value)] *)
Definition createSafeLegacyCorrelationId (value : string) : option string :=
  if (strlen value <? 1) || (MAX_OPAQUE_REFERENCE_INPUT_LENGTH <? strlen value) then None
  else Some ("legacy:" +:+ sha256 (utf8 "crypto-lending:legacy-correlation:job:" +:+ utf8 value)).

(** [createSafeLogReference('job', value)] *)
Definition createSafeLogReference (value : string) : option string :=
  if (strlen value <? 1) || (MAX_OPAQUE_REFERENCE_INPUT_LENGTH <? strlen value) then None
  else Some ("job:" +:+ sha256 (utf8 "crypto-lending:log-reference:job:" +:+ utf8 value)).

Definition legacyCorrelationContext (jobId : string) : option JobCorrelationContext :=
  correlationId ← createSafeLegacyCorrelationId jobId;
  Some {[ "correlationId" := correlationId ]}.

(** ** Reading an envelope *)

(** [descriptor && 'value' in descriptor ? descriptor.value : undefined] *)
Definition value_of (descriptors : jsprops) (key : string) : jsval :=
  match descriptor descriptors key with
  | Some (DData v _) => v
  | _ => VUndef
  end.

Definition parseJobEnvelope (value : jsval) : option JobEnvelope :=
  descriptors ← plain_descriptors value;
  if existsb (fun kd => negb (key_in JOB_ENVELOPE_KEYS kd.1)) descriptors
     || existsb (fun key => negb (bool_decide (is_Some (descriptor descriptors key))))
          REQUIRED_JOB_ENVELOPE_KEYS then None
  else
    id ← isValidOpaqueId (value_of descriptors "id");
    kind ← isValidKind (value_of descriptors "kind");
    version ← valid_version (value_of descriptors "version");
    occurredAt ← isCanonicalIsoTimestamp (value_of descriptors "occurredAt");
    payload ← match descriptor descriptors "payload" with Some (DData v _) => Some v | _ => None end;
    correlation ← match descriptor descriptors "correlation" with
                  | None => legacyCorrelationContext id
                  | Some (DAccessor _) => None
                  | Some (DData v _) => parseCorrelationContext v
                  end;
    Some {| env_id := id; env_kind := kind; env_version := version; env_occurredAt := occurredAt;
            env_correlation := correlation; env_payload := payload |}.
End digest.

(** ** Creating an envelope *)

(** The values of the options; an absent one is [undefined]. *)
Record job_options : Type := {
  opt_id : jsval;
  opt_version : jsval;
  opt_occurredAt : jsval;
  opt_correlation : jsval;
}.

Definition parseCreateOptions (value : jsval) : option job_options :=
  descriptors ← plain_descriptors value;
  if existsb (fun kd => negb (key_in JOB_OPTION_KEYS kd.1)) descriptors
     || existsb (fun kd => match kd.2 with DAccessor _ => true | DData _ _ => false end) descriptors
  then None
  else Some {| opt_id := value_of descriptors "id"; opt_version := value_of descriptors "version";
               opt_occurredAt := value_of descriptors "occurredAt";
               opt_correlation := value_of descriptors "correlation" |}.

(** The null-prototype object with the identifiers that are set, in the order of
    [CORRELATION_KEYS]. *)
Definition correlation_object (c : JobCorrelationContext) : jsval :=
  VObj PNull (omap (fun key => (fun v => (KStr key, DData (VStr v) true)) <$> c !! key) CORRELATION_KEYS).

(** The correlation of the active logging context, if there is one. *)
Definition currentJobCorrelationContext (active : option LogCorrelationContext)
    : result envelope_error (option JobCorrelationContext) :=
  match active with
  | None => Ok None
  | Some active =>
      let* c := or_throw (parseCorrelationContext (correlation_object active)) INVALID_CORRELATION in
      Ok (Some c)
  end.

Definition correlationContextsEqual (left right : JobCorrelationContext) : bool :=
  forallb (fun key => bool_decide (left !! key = right !! key)) CORRELATION_KEYS.

Definition is_undefined (v : jsval) : bool :=
  match v with
  | VUndef => true
  | _ => false
  end.

(** [uuid] is the first [randomUUID()] of the call, [uuid'] the one for a fresh
    correlation, [now] the clock. *)
Definition createJobEnvelope (active : option LogCorrelationContext) (uuid uuid' : string) (now : Z)
    (kind : string) (payload options : jsval) : result envelope_error JobEnvelope :=
  let* options := or_throw (parseCreateOptions options) INVALID_OPTIONS in
  let normalizedKind := trim kind in
  reject EMPTY_KIND when String.eqb normalizedKind "" in
  reject LONG_KIND when MAX_JOB_KIND_LENGTH <? strlen normalizedKind in
  let* version :=
    if is_undefined (opt_version options) then Ok 1
    else or_throw (valid_version (opt_version options)) INVALID_VERSION in
  let* id :=
    or_throw (isValidOpaqueId (if is_undefined (opt_id options) then VStr uuid else opt_id options))
      INVALID_ID in
  let* occurredAt :=
    or_throw (isCanonicalIsoTimestamp
      (if is_undefined (opt_occurredAt options) then VStr (toISOString now) else opt_occurredAt options))
      INVALID_OCCURRED_AT in
  let* inherited := currentJobCorrelationContext active in
  let* correlation :=
    match inherited with
    | Some inherited =>
        let* correlation :=
          or_throw (parseCorrelationContext (correlation_object inherited)) INVALID_CORRELATION in
        if is_undefined (opt_correlation options) then Ok correlation
        else
          let* explicit := or_throw (parseCorrelationContext (opt_correlation options)) INVALID_CORRELATION in
          reject CORRELATION_MISMATCH when negb (correlationContextsEqual correlation explicit) in
          Ok correlation
    | None =>
        or_throw (parseCorrelationContext
          (if is_undefined (opt_correlation options) then js_object [("correlationId", VStr uuid')]
           else opt_correlation options)) INVALID_CORRELATION
    end in
  Ok {| env_id := id; env_kind := normalizedKind; env_version := version; env_occurredAt := occurredAt;
        env_correlation := correlation; env_payload := payload |}.

(** The frozen object the code returns. *)
Definition envelope_js (e : JobEnvelope) : jsval :=
  js_object [("id", VStr (env_id e)); ("kind", VStr (env_kind e));
    ("version", VNum (JInt (env_version e))); ("occurredAt", VStr (env_occurredAt e));
    ("correlation", correlation_object (env_correlation e)); ("payload", env_payload e)].

(** ** Specification *)

Definition correlation_ok (c : JobCorrelationContext) : Prop :=
  exists root, c !! "correlationId" = Some root /\ isSafeCorrelationId root = true /\
    (forall key v, c !! key = Some v ->
       key = "correlationId" \/ (key ∈ OPTIONAL_CORRELATION_KEYS /\ isCanonicalUuidV4 v = true)) /\
    (forall requestId, c !! "requestId" = Some requestId -> requestId = root) /\
    (String.prefix "legacy:" root = true -> c = {[ "correlationId" := root ]}).

Definition envelope_wf (e : JobEnvelope) : Prop :=
  isValidOpaqueId (VStr (env_id e)) = Some (env_id e) /\
  isValidKind (VStr (env_kind e)) = Some (env_kind e) /\
  1 <= env_version e <= MAX_SAFE_INTEGER /\
  is_Some (canonical_time (env_occurredAt e)) /\
  correlation_ok (env_correlation e).

(** ** Lemmas: correlation *)

Lemma safe_correlation_ok v s : safe_correlation v = Some s <-> v = VStr s /\ isSafeCorrelationId s = true.
Proof.
  split.
  - destruct v; try done. unfold safe_correlation. destruct (isSafeCorrelationId s0) eqn:E; [by intros [= ->] | done].
  - intros [-> H]. unfold safe_correlation. by rewrite H.
Qed.

Lemma canonical_uuid_ok v s : canonical_uuid v = Some s <-> v = VStr s /\ isCanonicalUuidV4 s = true.
Proof.
  split.
  - destruct v; try done. unfold canonical_uuid. destruct (isCanonicalUuidV4 s0) eqn:E; [by intros [= ->] | done].
  - intros [-> H]. unfold canonical_uuid. by rewrite H.
Qed.

Lemma correlationId_not_optional : "correlationId" ∉ OPTIONAL_CORRELATION_KEYS.
Proof. apply (bool_decide_eq_true_1 _). vm_compute. reflexivity. Qed.

(** What the loop reads, and that it reads back the object of a context. *)
Lemma read_optional_lookup ds keys c k v :
  read_optional ds keys = Some c -> c !! k = Some v -> k ∈ keys /\ isCanonicalUuidV4 v = true.
Proof.
  revert c. induction keys as [|key keys IH]; intros c; cbn [read_optional].
  { intros [= <-]. by rewrite lookup_empty. }
  intros H Hk. destruct (descriptor ds key) as [[w e|e]|]; [|done|].
  - apply bind_Some in H as (s & Hs & H). apply bind_Some in H as (rest & Hrest & [= <-]).
    apply canonical_uuid_ok in Hs as [_ Hs]. destruct (decide (key = k)) as [->|Hne].
    + rewrite lookup_insert_eq in Hk. injection Hk as <-. split; [left | done].
    + rewrite lookup_insert_ne in Hk by done. apply IH in Hk as [? ?]; [|done]. split; [by right | done].
  - apply IH in Hk as [? ?]; [|done]. split; [by right | done].
Qed.

Lemma cons_other {A} (x k : A) l : k <> x -> k ∈ x :: l <-> k ∈ l.
Proof. rewrite elem_of_cons. naive_solver. Qed.

Lemma read_optional_object (c : JobCorrelationContext) keys :
  (forall k, k ∈ keys -> k ∈ CORRELATION_KEYS) -> NoDup keys ->
  (forall k v, k ∈ keys -> c !! k = Some v -> isCanonicalUuidV4 v = true) ->
  exists c', read_optional
    (omap (fun key => (fun v => (KStr key, DData (VStr v) true)) <$> c !! key) CORRELATION_KEYS) keys = Some c' /\
    forall k, c' !! k = if decide (k ∈ keys) then c !! k else None.
Proof.
  intros Hsub Hnd Hv. induction Hnd as [|key keys Hkey _ IH].
  { exists ∅. split; [done|]. intros k. by rewrite lookup_empty. }
  destruct IH as (c' & Hc' & Hl); [intros; apply Hsub; by right | intros k v Hk; apply Hv; by right|].
  cbn [read_optional]. rewrite keyed_descriptor, decide_True by (apply Hsub; left).
  destruct (c !! key) as [v|] eqn:E; cbn [fmap option_fmap option_map].
  - rewrite (proj2 (canonical_uuid_ok (VStr v) v)) by (split; [done | eapply Hv; [left | done]]).
    rewrite Hc'. exists (<[key := v]> c'). split; [done|]. intros k.
    destruct (decide (k = key)) as [->|Hne].
    + rewrite lookup_insert_eq, decide_True by left. done.
    + rewrite lookup_insert_ne, Hl by done. by rewrite (decide_ext _ _ _ _ (cons_other key k keys Hne)).
  - exists c'. split; [done|]. intros k. rewrite Hl. destruct (decide (k = key)) as [->|Hne].
    + rewrite decide_False, decide_True by (done || left). done.
    + by rewrite (decide_ext _ _ _ _ (cons_other key k keys Hne)).
Qed.

(** Every listed identifier of the object was valid. *)
Lemma read_optional_valid (c : JobCorrelationContext) keys c' k v :
  (forall k, k ∈ keys -> k ∈ CORRELATION_KEYS) ->
  read_optional
    (omap (fun key => (fun v => (KStr key, DData (VStr v) true)) <$> c !! key) CORRELATION_KEYS) keys = Some c' ->
  k ∈ keys -> c !! k = Some v -> isCanonicalUuidV4 v = true.
Proof.
  revert c'. induction keys as [|key keys IH]; intros c' Hsub H Hk Hv; [by apply not_elem_of_nil in Hk|].
  cbn [read_optional] in H. rewrite keyed_descriptor, decide_True in H by (apply Hsub; left).
  apply elem_of_cons in Hk as [->|Hk].
  - rewrite Hv in H. cbn [fmap option_fmap option_map] in H. by apply bind_Some in H as (s & [[= <-] ?]%canonical_uuid_ok & _).
  - destruct (c !! key) as [w|]; cbn [fmap option_fmap option_map] in H.
    + apply bind_Some in H as (s & _ & H). apply bind_Some in H as (rest & Hr & _).
      eapply IH; try done. intros; apply Hsub; by right.
    + eapply IH; try done. intros; apply Hsub; by right.
Qed.

Lemma parseCorrelation_ok v c : parseCorrelationContext v = Some c -> correlation_ok c.
Proof.
  unfold parseCorrelationContext. intros H. apply bind_Some in H as (ds & _ & H).
  destruct (existsb _ ds); [done|]. destruct (descriptor ds "correlationId") as [[w e|e]|]; try done.
  apply bind_Some in H as (root & Hroot & H). apply bind_Some in H as (optional & Hopt & H).
  apply safe_correlation_ok in Hroot as [_ Hroot].
  pose proof (fun k v => read_optional_lookup _ _ _ k v Hopt) as Hl.
  assert (optional !! "correlationId" = None) as Hn.
  { destruct (optional !! "correlationId") eqn:E; [|done]. apply Hl in E as [E _].
    by apply correlationId_not_optional in E. }
  destruct (match optional !! "requestId" with Some _ => _ | None => _ end) eqn:Hreq; [done|].
  destruct (_ && _) eqn:Hleg; [done|]. injection H as <-. exists root.
  split; [apply lookup_insert_eq|]. split; [done|]. split; [|split].
  - intros key s. destruct (decide (key = "correlationId")) as [->|Hne]; [by left|].
    rewrite lookup_insert_ne by done. intros Hk. right. by apply Hl.
  - intros r. rewrite lookup_insert_ne by done. intros Hr. rewrite Hr in Hreq.
    by apply negb_false_iff, String.eqb_eq in Hreq.
  - intros Hp. rewrite Hp in Hleg. cbn in Hleg. apply negb_false_iff, bool_decide_eq_true in Hleg.
    by rewrite Hleg, insert_empty.
Qed.

(** A valid correlation is read back from its object. *)
Lemma parseCorrelation_object c : correlation_ok c -> parseCorrelationContext (correlation_object c) = Some c.
Proof.
  intros (root & Hroot & Hsafe & Hkeys & Hreq & Hleg). unfold parseCorrelationContext, correlation_object.
  cbn [plain_descriptors is_object is_array get_prototype_of own_property_descriptors negb].
  cbn [mbind option_bind].
  destruct (existsb _ _) eqn:Ex.
  { exfalso. apply existsb_exists in Ex as ([k d] & Hin & Hk). apply list_elem_of_In, list_elem_of_omap in Hin as (key & Hkey & E).
    destruct (c !! key); [|done]. injection E as <- <-. cbn [fst] in Hk.
    apply negb_true_iff in Hk. rewrite (proj2 (key_in_spec _ _) Hkey) in Hk. done. }
  rewrite keyed_descriptor, decide_True, Hroot by left. cbn [fmap option_fmap option_map].
  rewrite (proj2 (safe_correlation_ok (VStr root) root)) by done. cbn [mbind option_bind].
  destruct (read_optional_object c OPTIONAL_CORRELATION_KEYS) as (c' & -> & Hl).
  { intros k Hk. by right. }
  { apply (bool_decide_eq_true_1 _). vm_compute. reflexivity. }
  { intros k v Hk Hv. apply Hkeys in Hv as [->|[_ ?]]; [|done].
    by apply correlationId_not_optional in Hk. }
  cbn [mbind option_bind].
  assert (<["correlationId" := root]> c' = c) as Hc.
  { apply map_eq. intros k. destruct (decide (k = "correlationId")) as [->|Hne].
    - by rewrite lookup_insert_eq.
    - rewrite lookup_insert_ne, Hl by done. destruct (decide (k ∈ OPTIONAL_CORRELATION_KEYS)) as [Hin|Hin]; [done|].
      destruct (c !! k) eqn:E; [|done]. apply Hkeys in E as [?|[? _]]; done. }
  assert (c' !! "requestId" = c !! "requestId") as -> by (by rewrite <- Hc, lookup_insert_ne).
  assert (match c !! "requestId" with Some requestId => negb (String.eqb requestId root) | None => false end = false) as ->.
  { destruct (c !! "requestId") as [r|] eqn:E; [|done]. rewrite (Hreq r eq_refl), String.eqb_refl. done. }
  destruct (String.prefix "legacy:" root) eqn:Hp; cbn [andb]; [|by rewrite Hc].
  rewrite bool_decide_eq_true_2; [by rewrite Hc|]. apply map_eq. intros k. rewrite lookup_empty, Hl.
  case_decide as Hk; [|done]. rewrite (Hleg eq_refl). apply lookup_singleton_ne. intros <-.
  by apply correlationId_not_optional in Hk.
Qed.

Lemma read_optional_ext ds ds' keys : (forall k, k ∈ keys -> descriptor ds k = descriptor ds' k) ->
  read_optional ds keys = read_optional ds' keys.
Proof.
  induction keys as [|key keys IH]; intros H; [done|]. cbn [read_optional].
  rewrite (H key), IH by (intros; apply H; by right) || left. done.
Qed.

(** It is read back from any object with the same entries, in whatever order. *)
Lemma parseCorrelation_lookup p ps c : p = PNull \/ p = PObject -> correlation_ok c ->
  (forall kd, kd ∈ ps -> key_in CORRELATION_KEYS kd.1 = true) ->
  (forall key, key ∈ CORRELATION_KEYS -> descriptor ps key = (fun v => DData (VStr v) true) <$> c !! key) ->
  parseCorrelationContext (VObj p ps) = Some c.
Proof.
  intros Hp Hc Hin Hl. rewrite <- (parseCorrelation_object c Hc).
  set (ds := omap (fun key => (fun v => (KStr key, DData (VStr v) true)) <$> c !! key) CORRELATION_KEYS).
  assert (forall key, key ∈ CORRELATION_KEYS -> descriptor ps key = descriptor ds key) as E.
  { intros key Hk. unfold ds. by rewrite Hl, keyed_descriptor, decide_True by done. }
  assert (forall q ds', q = PNull \/ q = PObject -> (forall kd, kd ∈ ds' -> key_in CORRELATION_KEYS kd.1 = true) ->
    parseCorrelationContext (VObj q ds') =
    match descriptor ds' "correlationId" with
    | Some (DData v _) =>
        correlationId ← safe_correlation v;
        optional ← read_optional ds' OPTIONAL_CORRELATION_KEYS;
        if match optional !! "requestId" with
           | Some requestId => negb (String.eqb requestId correlationId)
           | None => false
           end then None
        else if String.prefix "legacy:" correlationId && negb (bool_decide (optional = ∅)) then None
        else Some (<["correlationId" := correlationId]> optional)
    | _ => None
    end) as Hunfold.
  { intros q ds' Hq Hk. unfold parseCorrelationContext.
    assert (plain_descriptors (VObj q ds') = Some ds') as -> by (by destruct Hq as [-> | ->]).
    cbn [mbind option_bind]. rewrite (proj2 (existsb_false _ _)); [done|]. intros kd Hkd. by rewrite Hk. }
  unfold correlation_object. fold ds. rewrite !Hunfold; [|by left| |done|done].
  - rewrite (E "correlationId") by left. rewrite (read_optional_ext ps ds); [done|].
    intros k Hk. apply E. by right.
  - intros kd (key & Hkey & Hkd)%list_elem_of_omap. destruct (c !! key); [|done]. injection Hkd as <-.
    by apply key_in_spec.
Qed.

(** Parsing the object of any context keeps exactly its correlation identifiers. *)
Lemma parse_object_lookup c c' key :
  parseCorrelationContext (correlation_object c) = Some c' ->
  c' !! key = if decide (key ∈ CORRELATION_KEYS) then c !! key else None.
Proof.
  unfold parseCorrelationContext, correlation_object.
  cbn [plain_descriptors is_object is_array get_prototype_of own_property_descriptors negb mbind option_bind].
  destruct (existsb _ _); [done|]. rewrite keyed_descriptor, decide_True by left.
  destruct (c !! "correlationId") as [root|] eqn:Hroot; [|done]. cbn [fmap option_fmap option_map].
  intros H. apply bind_Some in H as (root' & [[= <-] _]%safe_correlation_ok & H).
  apply bind_Some in H as (optional & Hopt & H).
  destruct (match optional !! "requestId" with Some _ => _ | None => _ end); [done|].
  destruct (_ && _); [done|]. injection H as <-.
  assert (forall k v, k ∈ OPTIONAL_CORRELATION_KEYS -> c !! k = Some v -> isCanonicalUuidV4 v = true) as Hv.
  { intros k v Hk Hv. refine (read_optional_valid c _ _ k v _ Hopt Hk Hv). intros ? ?. by right. }
  destruct (read_optional_object c OPTIONAL_CORRELATION_KEYS) as (c' & Hc' & Hl); [|by apply (bool_decide_eq_true_1 _); vm_compute|exact Hv|].
  { intros k Hk. by right. }
  rewrite Hopt in Hc'. injection Hc' as <-. destruct (decide (key = "correlationId")) as [->|Hne].
  - by rewrite lookup_insert_eq, decide_True by left.
  - rewrite lookup_insert_ne, Hl by done.
    pose proof (cons_other "correlationId" key OPTIONAL_CORRELATION_KEYS Hne) as Hk.
    case_decide as H1; case_decide as H2; try done; exfalso; by apply H2, Hk || by apply H1, Hk.
Qed.

Lemma fresh_correlation uuid c :
  parseCorrelationContext (js_object [("correlationId", VStr uuid)]) = Some c -> c = {[ "correlationId" := uuid ]}.
Proof.
  unfold parseCorrelationContext, js_object.
  cbn [plain_descriptors is_object is_array get_prototype_of own_property_descriptors negb mbind option_bind fmap list_fmap].
  destruct (existsb _ _); [done|]. intros H.
  apply bind_Some in H as (root' & [[= <-] _]%safe_correlation_ok & H).
  cbn in H. destruct (_ && _); [done|]. by injection H as <-.
Qed.

(** ** Lemmas: envelopes *)

Lemma opaque_id_ok v s : isValidOpaqueId v = Some s <-> v = VStr s /\ isValidOpaqueId (VStr s) = Some s.
Proof.
  split; [|by intros [-> ?]]. destruct v; try done. cbn. intros H. destruct (_ && _) eqn:E; [|done].
  injection H as ->. by rewrite E.
Qed.

Lemma kind_ok v s : isValidKind v = Some s <-> v = VStr s /\ isValidKind (VStr s) = Some s.
Proof.
  split; [|by intros [-> ?]]. destruct v; try done. cbn. intros H. destruct (_ && _) eqn:E; [|done].
  injection H as ->. by rewrite E.
Qed.

Lemma version_ok v n : valid_version v = Some n <-> v = VNum (JInt n) /\ 1 <= n <= MAX_SAFE_INTEGER.
Proof.
  unfold valid_version, safe_integer. split.
  - destruct v as [| | |[z| |]| | | | | | | |]; try done. destruct (Z.leb_spec (Z.abs z) MAX_SAFE_INTEGER); [|done].
    destruct (Z.ltb_spec z 1); [done|]. intros [= <-]. split; [done | lia].
  - intros [-> H]. rewrite (proj2 (Z.leb_le _ _)), (proj2 (Z.ltb_ge _ _)) by lia. done.
Qed.

Lemma iso_timestamp_ok v s :
  isCanonicalIsoTimestamp v = Some s <-> v = VStr s /\ is_Some (canonical_time s).
Proof.
  split.
  - destruct v; try done. cbn. destruct (canonical_time s0) eqn:E; [|done]. intros [= <-]. by rewrite E.
  - intros [-> [t E]]. cbn. by rewrite E.
Qed.

(** A trimmed kind is a valid one. *)
Lemma trimmed_kind s :
  trim s <> "" -> strlen (trim s) <= MAX_JOB_KIND_LENGTH -> isValidKind (VStr (trim s)) = Some (trim s).
Proof.
  intros Hne Hl. cbn. rewrite trim_idem, String.eqb_refl, (proj2 (Z.leb_le _ _) Hl).
  rewrite (proj2 (Z.leb_le 1 _)); [done|]. destruct (trim s); [done|]. rewrite strlen_cons.
  pose proof (strlen_nonneg s0). lia.
Qed.

Lemma hex_legacy_safe digest : HEX64_PATTERN digest = true ->
  isSafeCorrelationId ("legacy:" +:+ digest) = true /\ String.prefix "legacy:" ("legacy:" +:+ digest) = true.
Proof.
  intros H. assert (String.prefix "legacy:" ("legacy:" +:+ digest) = true) as Hp by (by destruct digest).
  split; [|done]. unfold isSafeCorrelationId, LEGACY_CORRELATION_PATTERN. rewrite Hp.
  assert (String.substring 7 (String.length ("legacy:" +:+ digest) - 7) ("legacy:" +:+ digest) = digest) as E.
  { replace (String.length ("legacy:" +:+ digest) - 7)%nat with (String.length digest)
      by (rewrite length_append; cbn [String.length]; lia).
    change (String.substring 0 (String.length digest) digest = digest). clear.
    induction digest as [|c digest IH]; [done|]. cbn. by rewrite IH. }
  by rewrite E, H, orb_true_r.
Qed.

Lemma legacy_correlation_ok sha256 id c :
  (forall m, HEX64_PATTERN (sha256 m) = true) -> legacyCorrelationContext sha256 id = Some c -> correlation_ok c.
Proof.
  intros Hhex H. unfold legacyCorrelationContext, createSafeLegacyCorrelationId in H.
  destruct (_ || _); [done|]. cbn [mbind option_bind] in H. injection H as <-.
  destruct (hex_legacy_safe _ (Hhex (utf8 "crypto-lending:legacy-correlation:job:" +:+ utf8 id))) as [H1 H2].
  eexists. split; [apply lookup_singleton_eq|]. split; [done|]. split; [|split; [|done]].
  - intros key v [-> _]%lookup_singleton_Some. by left.
  - intros r [[=] _]%lookup_singleton_Some.
Qed.

Lemma parseJobEnvelope_wf sha256 v e :
  (forall m, HEX64_PATTERN (sha256 m) = true) -> parseJobEnvelope sha256 v = Some e -> envelope_wf e.
Proof.
  intros Hhex. unfold parseJobEnvelope. intros H. apply bind_Some in H as (ds & _ & H).
  destruct (_ || _); [done|].
  apply bind_Some in H as (id & [_ Hid]%opaque_id_ok & H). apply bind_Some in H as (kind & [_ Hkind]%kind_ok & H).
  apply bind_Some in H as (version & [_ Hversion]%version_ok & H).
  apply bind_Some in H as (at_ & [_ Hat]%iso_timestamp_ok & H). apply bind_Some in H as (payload & _ & H).
  apply bind_Some in H as (c & Hc & H). injection H as <-. split_and!; cbn; try done; try lia.
  destruct (descriptor ds "correlation") as [[w en|en]|]; try done;
    [by apply parseCorrelation_ok in Hc | by eapply legacy_correlation_ok].
Qed.

(** An envelope is read back from any object with its fields, in whatever order
    and whatever object the correlation is. *)
Lemma parse_envelope_lookup sha256 ps cv e :
  envelope_wf e -> parseCorrelationContext cv = Some (env_correlation e) ->
  existsb (fun kd => negb (key_in JOB_ENVELOPE_KEYS kd.1)) ps
  || existsb (fun key => negb (bool_decide (is_Some (descriptor ps key)))) REQUIRED_JOB_ENVELOPE_KEYS = false ->
  descriptor ps "id" = Some (DData (VStr (env_id e)) true) ->
  descriptor ps "kind" = Some (DData (VStr (env_kind e)) true) ->
  descriptor ps "version" = Some (DData (VNum (JInt (env_version e))) true) ->
  descriptor ps "occurredAt" = Some (DData (VStr (env_occurredAt e)) true) ->
  descriptor ps "correlation" = Some (DData cv true) ->
  descriptor ps "payload" = Some (DData (env_payload e) true) ->
  parseJobEnvelope sha256 (VObj PObject ps) = Some e.
Proof.
  intros (Hid & Hk & Hv & Ht & _) Hc Hkeys H1 H2 H3 H4 H5 H6. unfold parseJobEnvelope.
  cbn [plain_descriptors is_object is_array get_prototype_of own_property_descriptors negb mbind option_bind].
  rewrite Hkeys. unfold value_of. rewrite H1, H2, H3, H4, H5, H6. rewrite Hid. cbn [mbind option_bind].
  rewrite Hk. cbn [mbind option_bind].
  rewrite (proj2 (version_ok _ (env_version e))) by done. cbn [mbind option_bind].
  rewrite (proj2 (iso_timestamp_ok _ (env_occurredAt e))) by done. cbn [mbind option_bind].
  rewrite Hc. by destruct e.
Qed.

Lemma parse_envelope_js sha256 e : envelope_wf e -> parseJobEnvelope sha256 (envelope_js e) = Some e.
Proof.
  intros He. apply (parse_envelope_lookup sha256 _ (correlation_object (env_correlation e))); try done.
  apply parseCorrelation_object, He.
Qed.

(** A created envelope is well formed. *)
Lemma createJobEnvelope_wf active uuid uuid' now kind payload options e :
  createJobEnvelope active uuid uuid' now kind payload options = Ok e -> envelope_wf e.
Proof.
  unfold createJobEnvelope. intros H. inv_ok. subst e.
  apply String.eqb_neq in Hg. apply Z.ltb_ge in Hg0.
  apply opaque_id_ok in Hr1 as [_ Hid]. apply iso_timestamp_ok in Hr2 as [_ Ht].
  split_and!; cbn [env_id env_kind env_version env_occurredAt env_correlation]; try done.
  - by apply trimmed_kind.
  - destruct (is_undefined (opt_version _)); [by injection Hr0 as <-|]. apply or_throw_ok, version_ok in Hr0. lia.
  - destruct (is_undefined (opt_version _)); [injection Hr0 as <-; by vm_compute|]. apply or_throw_ok, version_ok in Hr0. lia.
  - destruct r3 as [inherited|].
    + apply rbind_ok in Hr4 as (c & Hc & Hr4). apply or_throw_ok, parseCorrelation_ok in Hc.
      destruct (is_undefined (opt_correlation _)); [by injection Hr4 as <-|]. inv_ok. by subst.
    + by apply or_throw_ok, parseCorrelation_ok in Hr4.
Qed.

(** ** Theorems *)

(** Envelopes survive storage: whatever envelope the code creates, or reads
    from any value, is read back unchanged from the object that represents it. *)
Theorem job_envelope_roundtrip sha256 e :
  (forall m, HEX64_PATTERN (sha256 m) = true) ->
  (exists active uuid uuid' now kind payload options,
     createJobEnvelope active uuid uuid' now kind payload options = Ok e) \/
  (exists v, parseJobEnvelope sha256 v = Some e) ->
  parseJobEnvelope sha256 (envelope_js e) = Some e.
Proof.
  intros Hhex [(? & ? & ? & ? & ? & ? & ? & H)|(v & H)]; apply parse_envelope_js;
    [by eapply createJobEnvelope_wf | by eapply parseJobEnvelope_wf].
Qed.

(** A job created inside an operation carries exactly the operation's
    identifiers; naming others is refused, and outside of any operation the
    correlation is the caller's or a fresh one. *)
Theorem created_envelope_correlated active uuid uuid' now kind payload options e :
  createJobEnvelope active uuid uuid' now kind payload options = Ok e ->
  match active with
  | Some context => forall key, env_correlation e !! key = if decide (key ∈ CORRELATION_KEYS) then context !! key else None
  | None => exists o, parseCreateOptions options = Some o /\
      if is_undefined (opt_correlation o) then env_correlation e = {[ "correlationId" := uuid' ]}
      else parseCorrelationContext (opt_correlation o) = Some (env_correlation e)
  end.
Proof.
  unfold createJobEnvelope. intros H. inv_ok. subst e. cbn [env_correlation].
  destruct active as [context|]; cbn [currentJobCorrelationContext] in Hr3.
  - apply rbind_ok in Hr3 as (c & Hc%or_throw_ok & [= <-]).
    pose proof (parseCorrelation_object _ (parseCorrelation_ok _ _ Hc)) as Hre.
    rewrite Hre in Hr4. cbn [or_throw rbind] in Hr4.
    assert (c = r4) as <-.
    { destruct (is_undefined (opt_correlation _)); [by injection Hr4|]. by inv_ok. }
    intros key. by eapply parse_object_lookup.
  - injection Hr3 as <-. exists r. split; [done|]. destruct (is_undefined (opt_correlation r)).
    + apply or_throw_ok in Hr4. by apply fresh_correlation.
    + by apply or_throw_ok in Hr4.
Qed.

(** ** Witnesses *)

Definition job_uuid (c : ascii) : string := "00000000-0000-4000-8000-00000000000" +:+ String c "".

Definition job_envelope_example : JobEnvelope :=
  {| env_id := job_uuid "1"; env_kind := "ledger.journal-committed"; env_version := 1;
     env_occurredAt := "2026-09-01T00:00:00.000Z";
     env_correlation := {[ "correlationId" := job_uuid "2"; "ledgerEventId" := job_uuid "3" ]};
     env_payload := js_object [("journalId", VStr (job_uuid "3"))] |}.

(** A stand-in of the right shape for the hash. *)
Definition job_sha256_example (_ : string) : string :=
  "0000000000000000000000000000000000000000000000000000000000000000".

Definition job_context_example : LogCorrelationContext :=
  {[ "correlationId" := job_uuid "2"; "ledgerEventId" := job_uuid "3"; "jobId" := "job:ignored" ]}.

Definition job_options_example : jsval := js_object [("id", VStr (job_uuid "1"))].

Lemma job_envelope_roundtrip_witness :
  parseJobEnvelope job_sha256_example (envelope_js job_envelope_example) = Some job_envelope_example.
Proof.
  apply (job_envelope_roundtrip job_sha256_example job_envelope_example); [by intros m|].
  left. exists (Some job_context_example), "", "", 1788220800000, " ledger.journal-committed ",
    (js_object [("journalId", VStr (job_uuid "3"))]), job_options_example.
  vm_compute. reflexivity.
Defined.

Lemma created_envelope_correlated_witness :
  env_correlation job_envelope_example !! "ledgerEventId" = Some (job_uuid "3").
Proof.
  pose proof (created_envelope_correlated (Some job_context_example) "" "" 1788220800000
    " ledger.journal-committed " (js_object [("journalId", VStr (job_uuid "3"))]) job_options_example
    job_envelope_example ltac:(vm_compute; reflexivity) "ledgerEventId") as H.
  exact H.
Defined.
