(* ===== verification/JobMessage.v ===== *)
(** * Job messages (apps/api/src/infrastructure/outbox/job-message-policy.ts)

    The text a job travels as: its envelope in JSON with a few string attributes,
    at most one mebibyte in total.  The size is counted while the envelope is
    copied, so a value that is too large is refused before it is printed.

    A value is a finite tree, so the guard against cycles never fires.  Code
    units are below 256: a surrogate or a noncharacter cannot occur, and every
    character from U+0020 on is acceptable. *)

From stdpp Require Import base list strings.
From Stdlib Require Import ZArith Lia Ascii.
From S2P Require Import Prelude Text JsValue JsDate Digest Json JsonParse LogContext JobEnvelope.

Open Scope Z_scope.

Definition MAX_JOB_MESSAGE_BYTES : Z := 1048576.
Definition MAX_CUSTOM_JOB_ATTRIBUTES : Z := 6.
Definition MAX_JOB_JSON_DEPTH : nat := 64.
Definition MAX_JOB_JSON_NODES : Z := 100000.

Definition RESERVED_JOB_MESSAGE_ATTRIBUTE_NAMES : list string :=
  ["correlationId"; "jobId"; "jobKind"; "jobVersion"].

(** What is thrown, by what it names. *)
Inductive message_error : Type :=
| MESSAGE_TOO_LARGE
| INVALID_ATTRIBUTES
| UNACCEPTABLE_TEXT
| INVALID_ENVELOPE
| UNSUPPORTED_JSON.

Notation attributes := (list (string * string)).

Record SerializedJobMessage : Type := {
  msg_body : string;
  msg_bytes : Z;
  msg_attributes : attributes;
}.

(** ** Attribute names *)

Definition is_name_char (c : ascii) : bool :=
  is_alnum c || is_char "_" c || is_char "." c || is_char "-" c.

Definition RESERVED_ATTRIBUTE_NAMES : list string := toLowerCase <$> RESERVED_JOB_MESSAGE_ATTRIBUTE_NAMES.

Definition isValidAttributeName (name : string) : bool :=
  let normalized := toLowerCase name in
  (1 <=? strlen name) && (strlen name <=? 256) && negb (String.eqb name "") && all_chars is_name_char name
  && negb (String.prefix "." name) && negb (ends_with "." name) && negb (includes ".." name)
  && negb (String.prefix "aws." normalized) && negb (String.prefix "amazon." normalized)
  && negb (existsb (String.eqb normalized) RESERVED_ATTRIBUTE_NAMES).

(** ** The byte budget *)

(** Bytes counted so far. *)
Definition addMessageBytes (budget bytes : Z) : result message_error Z :=
  reject MESSAGE_TOO_LARGE when MAX_JOB_MESSAGE_BYTES - budget <? bytes in
  Ok (budget + bytes).

Definition utf8CodePointBytes (c : ascii) : Z := if code c <=? 127 then 1 else 2.

Definition sqs_char (c : ascii) : bool :=
  (code c =? 9) || (code c =? 10) || (code c =? 13) || (32 <=? code c).

(** The budget is optional: without one, the text is only checked. *)
Fixpoint sqs_text (value : string) (budget : option Z) : result message_error (option Z) :=
  match value with
  | EmptyString => Ok budget
  | String c value =>
      reject UNACCEPTABLE_TEXT when negb (sqs_char c) in
      match budget with
      | None => sqs_text value None
      | Some b => let* b := addMessageBytes b (utf8CodePointBytes c) in sqs_text value (Some b)
      end
  end.

Definition assertSqsText (value : string) (allowEmpty : bool) (budget : option Z)
    : result message_error (option Z) :=
  reject UNACCEPTABLE_TEXT when negb allowEmpty && String.eqb value "" in
  sqs_text value budget.

(** [Buffer.byteLength(name) + Buffer.byteLength(dataType)], then the value. *)
Definition addAttributeToBudget (budget : Z) (name dataType value : string) : result message_error Z :=
  let* b := addMessageBytes budget (utf8_bytes name + utf8_bytes dataType) in
  let* b := assertSqsText value false (Some b) in
  Ok (default 0 b).

(** ** Attributes *)

(** The entries of an object whose own properties are all string data. *)
Fixpoint attribute_entries (descriptors : jsprops) : option attributes :=
  match descriptors with
  | [] => Some []
  | (KStr name, DData (VStr value) _) :: descriptors => cons (name, value) <$> attribute_entries descriptors
  | _ :: _ => None
  end.

Fixpoint check_attributes (entries : attributes) (budget : option Z) : result message_error (option Z) :=
  match entries with
  | [] => Ok budget
  | (name, value) :: entries =>
      reject INVALID_ATTRIBUTES when negb (isValidAttributeName name) in
      match budget with
      | Some b =>
          let* b := addAttributeToBudget b name "String" value in
          check_attributes entries (Some b)
      | None =>
          let* _ := assertSqsText value false None in
          check_attributes entries None
      end
  end.

Definition parseJobMessageAttributesWithBudget (value : jsval) (budget : option Z)
    : result message_error (attributes * option Z) :=
  let* descriptors := or_throw (plain_descriptors value) INVALID_ATTRIBUTES in
  let* entries := or_throw (attribute_entries descriptors) INVALID_ATTRIBUTES in
  reject INVALID_ATTRIBUTES when MAX_CUSTOM_JOB_ATTRIBUTES <? Z.of_nat (length entries) in
  let* budget := check_attributes entries budget in
  Ok (entries, budget).

Definition parseJobMessageAttributes (value : jsval) : result message_error attributes :=
  let* parsed := parseJobMessageAttributesWithBudget value None in
  Ok parsed.1.

(** ** Copying a value *)

(** [String(value)] of a finite number *)
Definition num_text (n : jsnum) : option string :=
  match n with
  | JInt z => Some (if z <? 0 then "-" +:+ toString (- z) else toString z)
  | JDouble text => Some text
  | JNonFinite => None
  end.

(** The bytes [JSON.stringify] prints for a character of a string. *)
Definition json_char_bytes (c : ascii) : Z :=
  if Ascii.eqb c dquote || Ascii.eqb c backslash then 2
  else if code c <=? 31
  then if (code c =? 8) || (code c =? 9) || (code c =? 10) || (code c =? 12) || (code c =? 13) then 2 else 6
  else if code c <=? 127 then 1
  else 2.

Fixpoint add_json_chars (value : string) (budget : Z) : result message_error Z :=
  match value with
  | EmptyString => Ok budget
  | String c value =>
      let* b := addMessageBytes budget (json_char_bytes c) in
      add_json_chars value b
  end.

Definition addJsonStringBytes (value : string) (budget : Z) : result message_error Z :=
  let* b := addMessageBytes budget 2 in
  add_json_chars value b.

(** Nodes and bytes counted so far. *)
Notation clone_state := (Z * Z)%type.

Definition count_bytes (j : json) (st : clone_state) (bytes : Z) : result message_error (json * clone_state) :=
  let* b := addMessageBytes st.2 bytes in
  Ok (j, (st.1, b)).

Section clone.
Context (clone : jsval -> clone_state -> result message_error (json * clone_state)).

(** The elements of an array, in index order. *)
Fixpoint clone_elements (descriptors : jsprops) (indices : list string) (st : clone_state)
    : result message_error (list json * clone_state) :=
  match indices with
  | [] => Ok ([], st)
  | index :: indices =>
      let* value := or_throw (data_property descriptors index) UNSUPPORTED_JSON in
      let* r := clone value st in
      let* rs := clone_elements descriptors indices r.2 in
      Ok (r.1 :: rs.1, rs.2)
  end.

(** The members of an object, in the order of its keys. *)
Fixpoint clone_members (descriptors : jsprops) (keys : list jskey) (st : clone_state)
    : result message_error (list (string * json) * clone_state) :=
  match keys with
  | [] => Ok ([], st)
  | KSym _ :: _ => Err UNSUPPORTED_JSON
  | KStr key :: keys =>
      let* value := or_throw (data_property descriptors key) UNSUPPORTED_JSON in
      let* b := addJsonStringBytes key st.2 in
      let* b := addMessageBytes b 1 in
      let* r := clone value (st.1, b) in
      let* rs := clone_members descriptors keys r.2 in
      Ok ((key, r.1) :: rs.1, rs.2)
  end.
End clone.

(** A symbol, or a string that is neither [length] nor a canonical integer. *)
Definition foreign_array_key (k : jskey) : bool :=
  match k with
  | KStr s => negb (String.eqb s "length") && negb (UNSIGNED_INTEGER_PATTERN s)
  | KSym _ => true
  end.

(** The length of an array without foreign or missing keys. *)
Definition dense_length (value : jsval) (descriptors : jsprops) : option Z :=
  match get_prototype_of value with
  | Some PArray | Some PNull =>
      match descriptor descriptors "length" with
      | Some (DData n _) =>
          len ← safe_integer n;
          if (len <? 0) || existsb (fun kd => foreign_array_key kd.1) descriptors
             || negb (Z.of_nat (length descriptors) =? len + 1)
          then None else Some len
      | _ => None
      end
  | _ => None
  end.

(** [levels] is what is left of the depth limit. *)
Fixpoint cloneSupportedJson (levels : nat) (value : jsval) (st : clone_state)
    : result message_error (json * clone_state) :=
  match levels with
  | O => Err UNSUPPORTED_JSON
  | S levels =>
      let st := (st.1 + 1, st.2) in
      reject UNSUPPORTED_JSON when MAX_JOB_JSON_NODES <? st.1 in
      match value with
      | VNull => count_bytes JNull st 4
      | VStr s => let* b := addJsonStringBytes s st.2 in Ok (JString s, (st.1, b))
      | VBool b => count_bytes (JBool b) st (if b then 4 else 5)
      | VNum n =>
          let* text := or_throw (num_text n) UNSUPPORTED_JSON in
          count_bytes (JNumeral text) st (strlen text)
      | VUndef | VBig _ | VSym _ | VFun => Err UNSUPPORTED_JSON
      | VDate _ _ | VArr _ _ _ | VObj _ _ | VRevoked =>
          let* descriptors := or_throw (own_property_descriptors value) UNSUPPORTED_JSON in
          let* array := or_throw (is_array value) UNSUPPORTED_JSON in
          if array then
            let* len := or_throw (dense_length value descriptors) UNSUPPORTED_JSON in
            let* b := addMessageBytes st.2 (2 + Z.max 0 (len - 1)) in
            let* rs := clone_elements (cloneSupportedJson levels) descriptors (index_keys len) (st.1, b) in
            Ok (JArray rs.1, rs.2)
          else
            let* _ := or_throw (plain_descriptors value) UNSUPPORTED_JSON in
            let* b := addMessageBytes st.2 (2 + Z.max 0 (Z.of_nat (length descriptors) - 1)) in
            let* rs := clone_members (cloneSupportedJson levels) descriptors (descriptors.*1) (st.1, b) in
            Ok (JObject rs.1, rs.2)
      end
  end.

(** ** Serialising *)

Definition attributeBytes (name dataType value : string) : Z :=
  utf8_bytes name + utf8_bytes dataType + utf8_bytes value.

Section serialize.
Context (sha256 : string -> string) (double_of : string -> jsnum).

Definition correlation_root (e : JobEnvelope) : string := default "" (env_correlation e !! "correlationId").

(** The attributes every message has. *)
Definition standard_attributes (e : JobEnvelope) : list (string * string * string) :=
  [("jobKind", "String", env_kind e); ("jobVersion", "Number", toString (env_version e));
   ("jobId", "String", env_id e); ("correlationId", "String", correlation_root e)].

Fixpoint add_standard (entries : list (string * string * string)) (budget : Z) : result message_error Z :=
  match entries with
  | [] => Ok budget
  | (name, dataType, value) :: entries =>
      let* b := addAttributeToBudget budget name dataType value in
      add_standard entries b
  end.

Definition message_bytes (body : string) (e : JobEnvelope) (custom : attributes) : Z :=
  let standard := foldl (fun bytes '(name, dataType, value) => bytes + attributeBytes name dataType value)
    (utf8_bytes body) (standard_attributes e) in
  foldl (fun bytes '(name, value) => bytes + attributeBytes name "String" value) standard custom.

(** What is there when the body is about to be printed. *)
Record CopiedMessage : Type := {
  copied_envelope : JobEnvelope;
  copied_attributes : attributes;
  copied_json : json;
  copied_bytes : Z;
}.

(** The first half of [serializeJobMessage]: everything is checked and copied,
    counting the bytes it will take. *)
Definition copyJobMessage (envelope messageAttributes : jsval) : result message_error CopiedMessage :=
  let* parsed := parseJobMessageAttributesWithBudget messageAttributes (Some 0) in
  let* normalized := or_throw (parseJobEnvelope sha256 envelope) INVALID_ENVELOPE in
  let* budget := add_standard (standard_attributes normalized) (default 0 parsed.2) in
  let* cloned := cloneSupportedJson (S MAX_JOB_JSON_DEPTH) (envelope_js normalized) (0, budget) in
  Ok {| copied_envelope := normalized; copied_attributes := parsed.1; copied_json := cloned.1;
        copied_bytes := cloned.2.2 |}.

Definition serializeJobMessage (envelope messageAttributes : jsval) : result message_error SerializedJobMessage :=
  let* copied := copyJobMessage envelope messageAttributes in
  let normalized := copied_envelope copied in
  let body := stringify (copied_json copied) in
  let* reread := or_throw (JSON_PARSE double_of body) UNSUPPORTED_JSON in
  let* _ := or_throw (parseJobEnvelope sha256 reread) UNSUPPORTED_JSON in
  let* _ := assertSqsText body false None in
  let bytes := message_bytes body normalized (copied_attributes copied) in
  reject MESSAGE_TOO_LARGE when MAX_JOB_MESSAGE_BYTES <? bytes in
  Ok {| msg_body := body; msg_bytes := bytes; msg_attributes := copied_attributes copied |}.
End serialize.

(** ** Reference: which values are data, and how large they are *)

Section reference.
Context (plain_json : jsval -> option json).

Fixpoint plain_elements (descriptors : jsprops) (indices : list string) : option (list json) :=
  match indices with
  | [] => Some []
  | index :: indices =>
      value ← data_property descriptors index;
      j ← plain_json value;
      js ← plain_elements descriptors indices;
      Some (j :: js)
  end.

Fixpoint plain_members (descriptors : jsprops) (keys : list jskey) : option (list (string * json)) :=
  match keys with
  | [] => Some []
  | KSym _ :: _ => None
  | KStr key :: keys =>
      value ← data_property descriptors key;
      j ← plain_json value;
      js ← plain_members descriptors keys;
      Some ((key, j) :: js)
  end.
End reference.

(** The JSON of a value of at most [levels] levels, without any budget. *)
Fixpoint plain_json (levels : nat) (value : jsval) : option json :=
  match levels with
  | O => None
  | S levels =>
      match value with
      | VNull => Some JNull
      | VStr s => Some (JString s)
      | VBool b => Some (JBool b)
      | VNum n => JNumeral <$> num_text n
      | VUndef | VBig _ | VSym _ | VFun => None
      | VDate _ _ | VArr _ _ _ | VObj _ _ | VRevoked =>
          descriptors ← own_property_descriptors value;
          array ← is_array value;
          if array : bool then
            len ← dense_length value descriptors;
            JArray <$> plain_elements (plain_json levels) descriptors (index_keys len)
          else
            _ ← plain_descriptors value;
            JObject <$> plain_members (plain_json levels) descriptors (descriptors.*1)
      end
  end.

Fixpoint json_nodes (j : json) : Z :=
  match j with
  | JArray l => 1 + foldr (fun v n => json_nodes v + n) 0 l
  | JObject l => 1 + foldr (fun kv n => json_nodes kv.2 + n) 0 l
  | _ => 1
  end.

Definition json_size (j : json) : Z := utf8_bytes (stringify j).

Definition elements_nodes (l : list json) : Z := foldr (fun v n => json_nodes v + n) 0 l.
Definition members_nodes (l : list (string * json)) : Z := foldr (fun kv n => json_nodes kv.2 + n) 0 l.

(** The text between the brackets, commas apart. *)
Definition elements_size (l : list json) : Z := foldr (fun v n => json_size v + n) 0 l.
Definition members_size (l : list (string * json)) : Z :=
  foldr (fun kv n => utf8_bytes (quoted kv.1) + 1 + json_size kv.2 + n) 0 l.

(** The budgeted copy of something of [nodes] nodes and [size] bytes. *)
Definition budgeted {A} (a : A) (nodes size : Z) (st : clone_state) : result message_error (A * clone_state) :=
  reject MESSAGE_TOO_LARGE when MAX_JOB_MESSAGE_BYTES <? st.2 + size in
  Ok (a, (st.1 + nodes, st.2 + size)).

(** ** Lemmas: sizes *)

Lemma utf8_bytes_append a b : utf8_bytes (a +:+ b) = utf8_bytes a + utf8_bytes b.
Proof. induction a as [|c a IH]; [done|]. rewrite append_cons. cbn [utf8_bytes]. rewrite IH. lia. Qed.

Lemma utf8_bytes_nonneg s : 0 <= utf8_bytes s.
Proof. induction s as [|c s IH]; [done|]. cbn [utf8_bytes]. destruct (_ <=? _); lia. Qed.

Lemma escape_char_bytes c : utf8_bytes (escape_char c) = json_char_bytes c.
Proof. destruct c as [[] [] [] [] [] [] [] []]; reflexivity. Qed.

Lemma escape_bytes c s : utf8_bytes (escape (String c s)) = json_char_bytes c + utf8_bytes (escape s).
Proof. cbn [escape]. by rewrite utf8_bytes_append, escape_char_bytes. Qed.

Lemma quoted_bytes s : utf8_bytes (quoted s) = 2 + utf8_bytes (escape s).
Proof.
  unfold quoted. cbn [utf8_bytes]. rewrite utf8_bytes_append.
  change (utf8_bytes (String dquote "")) with 1. change (if code dquote <=? 127 then 1 else 2) with 1. lia.
Qed.

Lemma elements_bytes l : utf8_bytes (elements l) = elements_size l + Z.max 0 (Z.of_nat (length l) - 1) + 1.
Proof.
  induction l as [|v l IH]; [done|]. destruct l as [|w l].
  - cbn [elements]. rewrite utf8_bytes_append. cbn [elements_size foldr length]. unfold json_size.
    change (utf8_bytes "]") with 1. lia.
  - change (elements (v :: w :: l)) with (stringify v +:+ "," +:+ elements (w :: l)).
    rewrite !utf8_bytes_append, IH. change (utf8_bytes ",") with 1.
    change (elements_size (v :: w :: l)) with (json_size v + elements_size (w :: l)).
    unfold json_size. cbn [length]. lia.
Qed.

Lemma members_bytes l : utf8_bytes (members l) = members_size l + Z.max 0 (Z.of_nat (length l) - 1) + 1.
Proof.
  induction l as [|[k v] l IH]; [done|]. destruct l as [|[k' w] l].
  - cbn [members]. rewrite !utf8_bytes_append. cbn [members_size foldr length fst snd]. unfold json_size.
    change (utf8_bytes "}") with 1. change (utf8_bytes ":") with 1. lia.
  - change (members ((k, v) :: (k', w) :: l))
      with (quoted k +:+ ":" +:+ stringify v +:+ "," +:+ members ((k', w) :: l)).
    rewrite !utf8_bytes_append, IH. change (utf8_bytes ",") with 1. change (utf8_bytes ":") with 1.
    change (members_size ((k, v) :: (k', w) :: l))
      with (utf8_bytes (quoted k) + 1 + json_size v + members_size ((k', w) :: l)).
    unfold json_size. cbn [length]. lia.
Qed.

Lemma json_size_array l :
  json_size (JArray l) = 2 + Z.max 0 (Z.of_nat (length l) - 1) + elements_size l.
Proof.
  unfold json_size. rewrite stringify_array.
  change (utf8_bytes (String "[" (elements l))) with (1 + utf8_bytes (elements l)). rewrite elements_bytes. lia.
Qed.

Lemma json_size_object l :
  json_size (JObject l) = 2 + Z.max 0 (Z.of_nat (length l) - 1) + members_size l.
Proof.
  unfold json_size. rewrite stringify_object.
  change (utf8_bytes (String "{" (members l))) with (1 + utf8_bytes (members l)). rewrite members_bytes. lia.
Qed.

Lemma json_size_nonneg j : 0 <= json_size j.
Proof. apply utf8_bytes_nonneg. Qed.

Lemma elements_size_nonneg l : 0 <= elements_size l.
Proof.
  induction l as [|v l IH]; [done|]. change (elements_size (v :: l)) with (json_size v + elements_size l).
  pose proof (json_size_nonneg v). lia.
Qed.

Lemma members_size_cons k v l :
  members_size ((k, v) :: l) = utf8_bytes (quoted k) + 1 + json_size v + members_size l.
Proof. done. Qed.

Lemma members_size_nonneg l : 0 <= members_size l.
Proof.
  induction l as [|[k v] l IH]; [done|]. rewrite members_size_cons. pose proof (json_size_nonneg v).
  pose proof (utf8_bytes_nonneg (quoted k)). lia.
Qed.

Lemma json_nodes_array l : json_nodes (JArray l) = 1 + elements_nodes l.
Proof. done. Qed.

Lemma json_nodes_object l : json_nodes (JObject l) = 1 + members_nodes l.
Proof. done. Qed.

(** ** Lemmas: the budget *)

Lemma addMessageBytes_budgeted b n :
  addMessageBytes b n = if MAX_JOB_MESSAGE_BYTES <? b + n then Err MESSAGE_TOO_LARGE else Ok (b + n).
Proof.
  unfold addMessageBytes. destruct (Z.ltb_spec (MAX_JOB_MESSAGE_BYTES - b) n);
    destruct (Z.ltb_spec MAX_JOB_MESSAGE_BYTES (b + n)); done || lia.
Qed.

(** Counting in two steps is counting at once. *)
Lemma budget_steps {A} b m n (f : Z -> result message_error A) : 0 <= n ->
  (forall x, MAX_JOB_MESSAGE_BYTES < x + n -> f x = Err MESSAGE_TOO_LARGE) ->
  rbind (addMessageBytes b m) f =
  if MAX_JOB_MESSAGE_BYTES <? b + m + n then Err MESSAGE_TOO_LARGE else f (b + m).
Proof.
  intros Hn Hf. rewrite addMessageBytes_budgeted.
  destruct (Z.ltb_spec MAX_JOB_MESSAGE_BYTES (b + m)); cbn [rbind].
  - by rewrite (proj2 (Z.ltb_lt _ _)) by lia.
  - destruct (Z.ltb_spec MAX_JOB_MESSAGE_BYTES (b + m + n)); [apply Hf; lia | done].
Qed.

Lemma json_char_bytes_pos c : 1 <= json_char_bytes c.
Proof. unfold json_char_bytes. repeat (destruct (_ || _) || destruct (_ <=? _)); lia. Qed.

Lemma add_json_chars_budgeted s b :
  b + utf8_bytes (escape s) <= MAX_JOB_MESSAGE_BYTES \/ s <> "" ->
  add_json_chars s b =
  if MAX_JOB_MESSAGE_BYTES <? b + utf8_bytes (escape s) then Err MESSAGE_TOO_LARGE
  else Ok (b + utf8_bytes (escape s)).
Proof.
  revert b. induction s as [|c s IH]; intros b H.
  - cbn in *. destruct H as [H|H]; [|done]. rewrite (proj2 (Z.ltb_ge _ _)) by lia. f_equal; lia.
  - clear H. cbn [add_json_chars]. rewrite escape_bytes, addMessageBytes_budgeted.
    pose proof (json_char_bytes_pos c). pose proof (utf8_bytes_nonneg (escape s)).
    destruct (Z.ltb_spec MAX_JOB_MESSAGE_BYTES (b + json_char_bytes c)); cbn [rbind].
    + by rewrite (proj2 (Z.ltb_lt _ _)) by lia.
    + rewrite IH; [|destruct s; [left; cbn; lia | by right]]. by rewrite !Z.add_assoc.
Qed.

Lemma addJsonStringBytes_budgeted s b :
  addJsonStringBytes s b =
  if MAX_JOB_MESSAGE_BYTES <? b + utf8_bytes (quoted s) then Err MESSAGE_TOO_LARGE
  else Ok (b + utf8_bytes (quoted s)).
Proof.
  unfold addJsonStringBytes. rewrite quoted_bytes, addMessageBytes_budgeted.
  pose proof (utf8_bytes_nonneg (escape s)).
  destruct (Z.ltb_spec MAX_JOB_MESSAGE_BYTES (b + 2)); cbn [rbind].
  - by rewrite (proj2 (Z.ltb_lt _ _)) by lia.
  - rewrite add_json_chars_budgeted; [|destruct s; [left; cbn; lia | by right]]. by rewrite !Z.add_assoc.
Qed.

(** ** Lemmas: copying *)

Lemma json_nodes_pos j : 1 <= json_nodes j.
Proof.
  induction j as [| | | | |l IH|l IH] using json_nested_ind; try done.
  - rewrite json_nodes_array. unfold elements_nodes. induction IH as [|v l Hv _ IH]; cbn [foldr]; lia.
  - rewrite json_nodes_object. unfold members_nodes. induction IH as [|v l Hv _ IH]; cbn [foldr]; lia.
Qed.

Lemma elements_nodes_nonneg l : 0 <= elements_nodes l.
Proof. unfold elements_nodes. induction l as [|v l IH]; cbn [foldr]; [lia|]. pose proof (json_nodes_pos v). lia. Qed.

Lemma members_nodes_nonneg l : 0 <= members_nodes l.
Proof. unfold members_nodes. induction l as [|v l IH]; cbn [foldr]; [lia|]. pose proof (json_nodes_pos v.2). lia. Qed.

(** Decides whether a count exceeds the limit. *)
Ltac budget :=
  repeat match goal with
  | |- context [MAX_JOB_MESSAGE_BYTES <? ?x] => destruct (Z.ltb_spec MAX_JOB_MESSAGE_BYTES x); cbn [rbind fst snd]; try lia
  end.

(** The first count: past the limit, the whole is too. *)
Ltac budget_step :=
  match goal with
  | |- context [MAX_JOB_MESSAGE_BYTES <? ?x] =>
      destruct (Z.ltb_spec MAX_JOB_MESSAGE_BYTES x); cbn [rbind fst snd];
      [rewrite (proj2 (Z.ltb_lt MAX_JOB_MESSAGE_BYTES _)) by lia; reflexivity|]
  end.

Section copies.
Context (clone : jsval -> clone_state -> result message_error (json * clone_state)) (plain : jsval -> option json).

Definition copies : Prop := forall v j st, plain v = Some j -> printable j -> st.1 + json_nodes j <= MAX_JOB_JSON_NODES ->
  clone v st = budgeted j (json_nodes j) (json_size j) st.

Lemma clone_elements_plain ds indices l st : copies ->
  plain_elements plain ds indices = Some l -> Forall printable l -> st.1 + elements_nodes l <= MAX_JOB_JSON_NODES ->
  st.2 <= MAX_JOB_MESSAGE_BYTES ->
  clone_elements clone ds indices st = budgeted l (elements_nodes l) (elements_size l) st.
Proof.
  intros Hc. revert l st. induction indices as [|k ks IH]; intros l st; cbn [plain_elements clone_elements].
  { intros [= <-] _ Hn Hb. unfold budgeted. cbn. budget. destruct st as [n b]. cbn. do 3 f_equal; lia. }
  intros H Hp Hn Hb. apply bind_Some in H as (v & -> & H). apply bind_Some in H as (j & Hj & H).
  apply bind_Some in H as (js & Hjs & [= <-]). apply Forall_cons in Hp as [Hpj Hp]. cbn [or_throw rbind].
  change (elements_nodes (j :: js)) with (json_nodes j + elements_nodes js) in *.
  change (elements_size (j :: js)) with (json_size j + elements_size js).
  pose proof (elements_nodes_nonneg js). pose proof (elements_size_nonneg js).
  rewrite (Hc v j st Hj Hpj) by lia. unfold budgeted at 1. budget; [unfold budgeted; by budget|].
  rewrite (IH js) by (done || (cbn [fst snd]; lia)). unfold budgeted. cbn [fst snd]. budget; [done|].
  do 3 f_equal; lia.
Qed.

Lemma clone_members_plain ds keys l st : copies ->
  plain_members plain ds keys = Some l -> Forall (fun kv => printable kv.2) l -> st.1 + members_nodes l <= MAX_JOB_JSON_NODES ->
  st.2 <= MAX_JOB_MESSAGE_BYTES ->
  clone_members clone ds keys st = budgeted l (members_nodes l) (members_size l) st.
Proof.
  intros Hc. revert l st. induction keys as [|[k|] ks IH]; intros l st; cbn [plain_members clone_members]; [| |done].
  { intros [= <-] _ Hn Hb. unfold budgeted. cbn. budget. destruct st as [n b]. cbn. do 3 f_equal; lia. }
  intros H Hp Hn Hb. apply bind_Some in H as (v & -> & H). apply bind_Some in H as (j & Hj & H).
  apply bind_Some in H as (js & Hjs & [= <-]). apply Forall_cons in Hp as [Hpj Hp]. cbn [or_throw rbind].
  change (members_nodes ((k, j) :: js)) with (json_nodes j + members_nodes js) in *.
  rewrite members_size_cons.
  pose proof (members_nodes_nonneg js). pose proof (members_size_nonneg js). pose proof (json_size_nonneg j).
  rewrite addJsonStringBytes_budgeted. budget; [unfold budgeted; by budget|].
  rewrite addMessageBytes_budgeted. budget; [unfold budgeted; by budget|].
  rewrite (Hc v j _ Hj Hpj) by (cbn [fst snd]; lia). unfold budgeted at 1. cbn [fst snd].
  budget; [unfold budgeted; by budget|].
  rewrite (IH js) by (done || (cbn [fst snd]; lia)). unfold budgeted. cbn [fst snd]. budget; [done|].
  do 3 f_equal; lia.
Qed.

Definition copies_only : Prop := forall v st j st', clone v st = Ok (j, st') ->
  plain v = Some j /\ st'.1 = st.1 + json_nodes j /\ st'.1 <= MAX_JOB_JSON_NODES.

Lemma clone_elements_sound ds indices st l st' : copies_only -> st.1 <= MAX_JOB_JSON_NODES ->
  clone_elements clone ds indices st = Ok (l, st') ->
  plain_elements plain ds indices = Some l /\ st'.1 = st.1 + elements_nodes l /\ st'.1 <= MAX_JOB_JSON_NODES.
Proof.
  intros Hc. revert st l. induction indices as [|k ks IH]; intros st l Hst; cbn [plain_elements clone_elements].
  { intros [= <- <-]. cbn. split; [done | lia]. }
  intros H. inv_ok. destruct r0 as [j st1], r1 as [js st2]. cbn [fst snd] in *. subst.
  apply Hc in Hr0 as (Hj & E & Hle). rewrite Hr. cbn [mbind option_bind]. rewrite Hj. cbn [mbind option_bind].
  apply IH in Hr1 as (-> & E2 & ?); [|done]. split; [done|]. cbn. unfold elements_nodes in E2. lia.
Qed.

Lemma clone_members_sound ds keys st l st' : copies_only -> st.1 <= MAX_JOB_JSON_NODES ->
  clone_members clone ds keys st = Ok (l, st') ->
  plain_members plain ds keys = Some l /\ st'.1 = st.1 + members_nodes l /\ st'.1 <= MAX_JOB_JSON_NODES.
Proof.
  intros Hc. revert st l. induction keys as [|[k|] ks IH]; intros st l Hst; cbn [plain_members clone_members]; [| |done].
  { intros [= <- <-]. cbn. split; [done | lia]. }
  intros H. inv_ok. destruct r2 as [j st1], r3 as [js st2]. cbn [fst snd] in *. subst.
  apply Hc in Hr2 as (Hj & E & Hle). rewrite Hr. cbn [mbind option_bind]. rewrite Hj. cbn [mbind option_bind].
  apply IH in Hr3 as (-> & E2 & ?); [|done]. split; [done|]. cbn in *. unfold members_nodes in E2. lia.
Qed.
End copies.

Lemma numeral_bytes text : json_numeral text = true -> utf8_bytes text = strlen text.
Proof.
  intros H%numeral_chars. induction text as [|c s IH]; [done|]. cbn [all_chars] in H.
  apply andb_true_iff in H as [Hc H]. rewrite strlen_cons. cbn [utf8_bytes]. rewrite IH by done.
  assert ((code c <=? 127) = true) as ->; [|done].
  clear -Hc. revert Hc. destruct c as [[] [] [] [] [] [] [] []]; done.
Qed.

Lemma count_bytes_budgeted j st n :
  json_nodes j = 1 -> json_size j = n -> count_bytes j (st.1 + 1, st.2) n = budgeted j (json_nodes j) (json_size j) st.
Proof.
  intros -> ->. unfold count_bytes, budgeted. cbn [fst snd]. rewrite addMessageBytes_budgeted.
  by destruct (_ <? _).
Qed.

Lemma clone_array levels ds len l st : copies (cloneSupportedJson levels) (plain_json levels) ->
  plain_elements (plain_json levels) ds (index_keys len) = Some l -> Z.of_nat (length l) = len ->
  Forall printable l -> st.1 + json_nodes (JArray l) <= MAX_JOB_JSON_NODES ->
  (let* b := addMessageBytes st.2 (2 + Z.max 0 (len - 1)) in
   let* rs := clone_elements (cloneSupportedJson levels) ds (index_keys len) (st.1 + 1, b) in
   Ok (JArray rs.1, rs.2)) = budgeted (JArray l) (json_nodes (JArray l)) (json_size (JArray l)) st.
Proof.
  intros Hc Hpe Hlen Hpl Hn. rewrite json_nodes_array in *. rewrite json_size_array, Hlen.
  pose proof (elements_size_nonneg l). rewrite addMessageBytes_budgeted. budget; [unfold budgeted; by budget|].
  rewrite (clone_elements_plain _ _ _ _ l _ Hc Hpe Hpl) by (cbn [fst snd]; lia).
  unfold budgeted. cbn [fst snd]. budget; [done|]. do 3 f_equal; lia.
Qed.

Lemma clone_object levels ds l st : copies (cloneSupportedJson levels) (plain_json levels) ->
  plain_members (plain_json levels) ds (ds.*1) = Some l -> length l = length ds ->
  Forall (fun kv => printable kv.2) l -> st.1 + json_nodes (JObject l) <= MAX_JOB_JSON_NODES ->
  (let* b := addMessageBytes st.2 (2 + Z.max 0 (Z.of_nat (length ds) - 1)) in
   let* rs := clone_members (cloneSupportedJson levels) ds (ds.*1) (st.1 + 1, b) in
   Ok (JObject rs.1, rs.2)) = budgeted (JObject l) (json_nodes (JObject l)) (json_size (JObject l)) st.
Proof.
  intros Hc Hpe Hlen Hpl Hn. rewrite json_nodes_object in *. rewrite json_size_object, Hlen.
  pose proof (members_size_nonneg l). rewrite addMessageBytes_budgeted. budget; [unfold budgeted; by budget|].
  rewrite (clone_members_plain _ _ _ _ l _ Hc Hpe Hpl) by (cbn [fst snd]; lia).
  unfold budgeted. cbn [fst snd]. budget; [done|]. do 3 f_equal; lia.
Qed.

Lemma plain_elements_length plain ds ks l : plain_elements plain ds ks = Some l -> length l = length ks.
Proof.
  revert l. induction ks as [|k ks IH]; intros l; cbn [plain_elements]; [by intros [= <-]|].
  intros H. do 2 (apply bind_Some in H as (? & _ & H)). apply bind_Some in H as (js & Hjs & [= <-]).
  cbn. by rewrite (IH js).
Qed.

Lemma plain_members_length plain ds ks l : plain_members plain ds ks = Some l -> length l = length ks.
Proof.
  revert l. induction ks as [|[k|] ks IH]; intros l; cbn [plain_members]; [by intros [= <-]| |done].
  intros H. do 2 (apply bind_Some in H as (? & _ & H)). apply bind_Some in H as (js & Hjs & [= <-]).
  cbn. by rewrite (IH js).
Qed.

Lemma dense_length_nonneg v ds len : dense_length v ds = Some len -> 0 <= len.
Proof.
  unfold dense_length. intros H. destruct (get_prototype_of v) as [[]|]; try done;
    (destruct (descriptor ds "length") as [[n e|]|]; [|done..]);
    apply bind_Some in H as (n' & _ & H); destruct (_ || _ || _) eqn:E; try done;
    injection H as ->; bsimpl; lia.
Qed.

(** Within the limit on nodes, copying a value that is data fails exactly when
    its text would not fit the budget, and counts the length of that text. *)
Lemma clone_plain levels : copies (cloneSupportedJson levels) (plain_json levels).
Proof.
  induction levels as [|levels IH]; intros v j st Hj Hp Hn; [done|]. cbn [cloneSupportedJson plain_json fst] in *.
  pose proof (json_nodes_pos j). rewrite (proj2 (Z.ltb_ge _ _)) by lia.
  assert (forall w ds,
    (len ← dense_length w ds; JArray <$> plain_elements (plain_json levels) ds (index_keys len)) = Some j ->
    (let* len := or_throw (dense_length w ds) UNSUPPORTED_JSON in
     let* b := addMessageBytes st.2 (2 + Z.max 0 (len - 1)) in
     let* rs := clone_elements (cloneSupportedJson levels) ds (index_keys len) (st.1 + 1, b) in
     Ok (JArray rs.1, rs.2)) = budgeted j (json_nodes j) (json_size j) st) as Harray.
  { intros w ds H'. apply bind_Some in H' as (len & Hlen & (l & Hl & ->)%fmap_Some). rewrite Hlen. cbn [or_throw rbind].
    apply clone_array; [done | done | | by apply printable_array | done].
    by rewrite (plain_elements_length _ _ _ _ Hl), index_keys_length by (by eapply dense_length_nonneg). }
  assert (forall w ds,
    (_ ← plain_descriptors w; JObject <$> plain_members (plain_json levels) ds (ds.*1)) = Some j ->
    (let* _ := or_throw (plain_descriptors w) UNSUPPORTED_JSON in
     let* b := addMessageBytes st.2 (2 + Z.max 0 (Z.of_nat (length ds) - 1)) in
     let* rs := clone_members (cloneSupportedJson levels) ds (ds.*1) (st.1 + 1, b) in
     Ok (JObject rs.1, rs.2)) = budgeted j (json_nodes j) (json_size j) st) as Hobject.
  { intros w ds H'. apply bind_Some in H' as (x & -> & (l & Hl & ->)%fmap_Some). cbn [or_throw rbind].
    apply clone_object; [done | done | | by apply printable_object | done].
    by rewrite (plain_members_length _ _ _ _ Hl), length_fmap. }
  destruct v as [| |b|n| |s| | | | | |]; try discriminate.
  - injection Hj as <-. by apply count_bytes_budgeted.
  - injection Hj as <-. apply count_bytes_budgeted; by destruct b.
  - apply fmap_Some in Hj as (text & -> & ->). cbn [or_throw rbind].
    apply count_bytes_budgeted; [done | by apply numeral_bytes].
  - injection Hj as <-. cbn [snd]. rewrite addJsonStringBytes_budgeted. unfold budgeted, json_size. cbn [stringify].
    by destruct (_ <? _).
  - cbn [own_property_descriptors is_array or_throw rbind mbind option_bind] in *. by apply Hobject.
  - cbn [own_property_descriptors is_array or_throw rbind mbind option_bind] in *. by apply Harray.
  - cbn [own_property_descriptors is_array or_throw rbind mbind option_bind] in *. by apply Hobject.
Qed.

(** What is copied is data of the text it gives. *)
Lemma clone_sound levels : copies_only (cloneSupportedJson levels) (plain_json levels).
Proof.
  induction levels as [|levels IH]; intros v st j st' H; [done|]. cbn [cloneSupportedJson plain_json fst snd] in *.
  destruct (Z.ltb_spec MAX_JOB_JSON_NODES (st.1 + 1)) as [|Hn]; [done|].
  assert (forall k n, count_bytes k (st.1 + 1, st.2) n = Ok (j, st') -> json_nodes k = 1 ->
    k = j /\ st'.1 = st.1 + json_nodes j /\ st'.1 <= MAX_JOB_JSON_NODES) as Hcount.
  { intros k n Hk E. unfold count_bytes in Hk. inv_ok. subst. split; [done|]. cbn [fst]. lia. }
  destruct v as [| |b|n| |s| | | | | |]; try discriminate.
  - by apply Hcount in H as (<- & ? & ?).
  - by apply Hcount in H as (<- & ? & ?).
  - inv_ok. rewrite Hr. by apply Hcount in H as (<- & ? & ?).
  - inv_ok. subst. cbn [fst json_nodes]. done.
  - cbn [own_property_descriptors is_array or_throw rbind mbind option_bind] in *. inv_ok. rewrite Hr. subst.
    destruct r1 as [l st2]. apply (clone_members_sound _ (plain_json levels)) in Hr1 as (-> & E & ?); [|done..].
    cbn [fst snd] in *. rewrite json_nodes_object. split; [done|]. lia.
  - cbn [own_property_descriptors is_array or_throw rbind mbind option_bind] in *. inv_ok. rewrite Hr. subst.
    destruct r1 as [l st2]. apply (clone_elements_sound _ (plain_json levels)) in Hr1 as (E0 & E & ?); [|done..].
    cbn [fst snd mbind option_bind] in *. rewrite E0, json_nodes_array. split; [done|]. lia.
  - cbn [own_property_descriptors is_array or_throw rbind mbind option_bind] in *. inv_ok. rewrite Hr. subst.
    destruct r1 as [l st2]. apply (clone_members_sound _ (plain_json levels)) in Hr1 as (E0 & E & ?); [|done..].
    cbn [fst snd mbind option_bind] in *. rewrite E0, json_nodes_object. split; [done|]. lia.
Qed.

(** ** Lemmas: objects in JSON *)

Definition literal_props (kvs : list (string * jsval)) : jsprops :=
  (fun kv => (KStr kv.1, DData kv.2 true)) <$> kvs.

Lemma literal_descriptor kvs k v : NoDup kvs.*1 -> (k, v) ∈ kvs ->
  descriptor (literal_props kvs) k = Some (DData v true).
Proof.
  induction kvs as [|[k' v'] kvs IH]; intros Hnd Hin; [by apply not_elem_of_nil in Hin|].
  apply NoDup_cons in Hnd as [Hk Hnd]. cbn. destruct (String.eqb_spec k k') as [->|Hne].
  - apply elem_of_cons in Hin as [[= <-]|Hin]; [done|]. destruct Hk. by apply (list_elem_of_fmap_2 fst) in Hin.
  - apply elem_of_cons in Hin as [[= -> _]|Hin]; [done|]. by apply IH.
Qed.

Lemma plain_members_read plain ds kvs : (forall k v, (k, v) ∈ kvs -> data_property ds k = Some v) ->
  plain_members plain ds (KStr <$> kvs.*1) = mapM (fun kv => pair kv.1 <$> plain kv.2) kvs.
Proof.
  induction kvs as [|[k v] kvs IH]; intros H; [done|].
  cbn [fmap list_fmap plain_members fst snd mapM]. rewrite (H k v) by left. cbn [mbind option_bind].
  destruct (plain v) as [j|]; [|done]. cbn [mbind option_bind fmap option_fmap option_map].
  fold (fmap (M:=list) (@fst string jsval) kvs). fold (fmap (M:=list) KStr (kvs.*1)).
  rewrite IH by (intros; apply H; by right). done.
Qed.

Lemma plain_object levels p kvs : p = PNull \/ p = PObject -> NoDup kvs.*1 ->
  plain_json (S levels) (VObj p (literal_props kvs)) =
  JObject <$> mapM (fun kv => pair kv.1 <$> plain_json levels kv.2) kvs.
Proof.
  intros Hp Hnd. cbn [plain_json own_property_descriptors is_array mbind option_bind].
  assert (plain_descriptors (VObj p (literal_props kvs)) = Some (literal_props kvs)) as ->
    by (by destruct Hp as [-> | ->]).
  cbn [mbind option_bind]. rewrite <- (plain_members_read _ (literal_props kvs)).
  - do 2 f_equal. unfold literal_props. rewrite <- !list_fmap_compose. done.
  - intros k v Hin. unfold data_property. by rewrite (literal_descriptor kvs k v).
Qed.

(** An object without array indices keeps the order of its properties. *)
Lemma set_property_append k d ps :
  (forall kd, kd ∈ ps -> key_eqb (KStr k) kd.1 = false) -> array_index k = None ->
  set_property k d ps = ps ++ [(KStr k, d)].
Proof.
  intros H Hi. induction ps as [|[k' d'] ps IH]; [done|]. cbn [set_property].
  pose proof (H (k', d') ltac:(left)) as E. cbn [fst] in E. rewrite E. unfold key_before.
  rewrite Hi, IH; [done|]. intros kd Hkd. apply H. by right.
Qed.

Lemma set_properties_literal kvs : NoDup kvs.*1 -> Forall (fun kv => array_index kv.1 = None) kvs ->
  set_properties kvs = literal_props kvs.
Proof.
  unfold set_properties. induction kvs as [|[k v] kvs IH] using rev_ind; intros Hnd Hi; [done|].
  rewrite fmap_app in Hnd. apply NoDup_app in Hnd as (Hnd & Hk & _). apply Forall_app in Hi as [Hi Hik].
  rewrite foldl_app, IH by done. cbn [foldl fst snd]. unfold literal_props. rewrite fmap_app.
  apply set_property_append; [|by inversion Hik].
  intros kd ([k' v'] & -> & Hin)%list_elem_of_fmap. cbn [fst]. rewrite key_eqb_str. apply String.eqb_neq.
  intros ->. apply (Hk k'); [by apply (list_elem_of_fmap_2 fst) in Hin | left].
Qed.

Lemma keyed_pairs (c : JobCorrelationContext) names :
  omap (fun key => (fun v => (KStr key, DData (VStr v) true)) <$> c !! key) names
  = literal_props (omap (fun key => (fun v => (key, VStr v)) <$> c !! key) names).
Proof.
  induction names as [|n names IH]; [done|]. cbn [omap list_omap].
  destruct (c !! n); cbn [fmap option_fmap option_map]; cbn [literal_props fmap list_fmap fst snd]; [f_equal|]; exact IH.
Qed.

Lemma keyed_names_in (c : JobCorrelationContext) {A} (f : string -> A) names k :
  k ∈ (omap (fun key => (fun v => (key, f v)) <$> c !! key) names).*1 -> k ∈ names.
Proof.
  intros ([k' v] & -> & (n & Hn & E)%list_elem_of_omap)%list_elem_of_fmap.
  destruct (c !! n); [|done]. by injection E as <- <-.
Qed.

Lemma keyed_names_NoDup (c : JobCorrelationContext) {A} (f : string -> A) names :
  NoDup names -> NoDup (omap (fun key => (fun v => (key, f v)) <$> c !! key) names).*1.
Proof.
  induction 1 as [|n names Hn Hnd IH]; [constructor|]. cbn [omap list_omap].
  destruct (c !! n); [|exact IH]. apply NoDup_cons. split; [|exact IH].
  intros Hin. by apply Hn, (keyed_names_in c f).
Qed.

(** ** Lemmas: texts *)

Definition sqs_ok (s : string) : bool := all_chars sqs_char s.

Lemma sqs_text_free s : sqs_text s None = if sqs_ok s then Ok None else Err UNACCEPTABLE_TEXT.
Proof.
  induction s as [|c s IH]; [done|]. cbn [sqs_text]. unfold sqs_ok in *. cbn [all_chars].
  by destruct (sqs_char c).
Qed.

Lemma sqs_text_budgeted s b : sqs_ok s = true -> b <= MAX_JOB_MESSAGE_BYTES \/ s <> "" ->
  sqs_text s (Some b) =
  if MAX_JOB_MESSAGE_BYTES <? b + utf8_bytes s then Err MESSAGE_TOO_LARGE else Ok (Some (b + utf8_bytes s)).
Proof.
  revert b. induction s as [|c s IH]; intros b Hs Hb.
  - destruct Hb as [Hb|]; [|done]. cbn. rewrite Z.add_0_r. by rewrite (proj2 (Z.ltb_ge _ _)) by lia.
  - unfold sqs_ok in Hs. cbn [all_chars] in Hs. apply andb_true_iff in Hs as [Hc Hs].
    cbn [sqs_text utf8_bytes]. rewrite Hc. cbn [negb]. rewrite addMessageBytes_budgeted.
    change (if code c <=? 127 then 1 else 2) with (utf8CodePointBytes c).
    pose proof (utf8_bytes_nonneg s). budget_step.
    rewrite IH by (done || (left; lia)). by rewrite Z.add_assoc.
Qed.

Lemma sqs_text_sound s b b' : sqs_text s b = Ok b' -> sqs_ok s = true.
Proof.
  revert b. induction s as [|c s IH]; intros b; [done|]. cbn [sqs_text]. unfold sqs_ok in *. cbn [all_chars].
  destruct (sqs_char c); [|done]. cbn [negb]. destruct b as [b|]; [|apply IH].
  destruct (addMessageBytes b _); [apply IH | done].
Qed.

Definition attribute_text (s : string) : bool := negb (String.eqb s "") && sqs_ok s.

Lemma addAttribute_budgeted b name dataType value : attribute_text value = true ->
  addAttributeToBudget b name dataType value =
  if MAX_JOB_MESSAGE_BYTES <? b + attributeBytes name dataType value then Err MESSAGE_TOO_LARGE
  else Ok (b + attributeBytes name dataType value).
Proof.
  intros [Hne Hs]%andb_true_iff. unfold addAttributeToBudget, assertSqsText, attributeBytes.
  apply negb_true_iff in Hne. rewrite Hne, addMessageBytes_budgeted. cbn [negb andb].
  pose proof (utf8_bytes_nonneg value). apply String.eqb_neq in Hne.
  budget_step. rewrite sqs_text_budgeted by (done || by right). rewrite <- !Z.add_assoc. by destruct (_ <? _).
Qed.

Lemma addAttribute_sound b name dataType value b' :
  addAttributeToBudget b name dataType value = Ok b' -> attribute_text value = true.
Proof.
  unfold addAttributeToBudget, assertSqsText. intros H. inv_ok. unfold attribute_text.
  cbn [negb andb] in Hg. rewrite Hg. by apply sqs_text_sound in Hr0.
Qed.

Definition custom_size (entries : attributes) : Z :=
  foldr (fun kv n => attributeBytes kv.1 "String" kv.2 + n) 0 entries.

Definition standard_size (entries : list (string * string * string)) : Z :=
  foldr (fun kv n => attributeBytes kv.1.1 kv.1.2 kv.2 + n) 0 entries.

Lemma attributeBytes_nonneg name dataType value : 0 <= attributeBytes name dataType value.
Proof.
  unfold attributeBytes. pose proof (utf8_bytes_nonneg name). pose proof (utf8_bytes_nonneg dataType).
  pose proof (utf8_bytes_nonneg value). lia.
Qed.

Lemma custom_size_nonneg entries : 0 <= custom_size entries.
Proof.
  unfold custom_size. induction entries as [|[k v] l IH]; cbn [foldr fst snd]; [lia|].
  pose proof (attributeBytes_nonneg k "String" v). lia.
Qed.

Lemma standard_size_nonneg entries : 0 <= standard_size entries.
Proof.
  unfold standard_size. induction entries as [|[[k d] v] l IH]; cbn [foldr fst snd]; [lia|].
  pose proof (attributeBytes_nonneg k d v). lia.
Qed.

Lemma message_bytes_sum body e custom :
  message_bytes body e custom = utf8_bytes body + standard_size (standard_attributes e) + custom_size custom.
Proof.
  unfold message_bytes.
  assert (forall l b, foldl (fun bytes '(name, dataType, value) => bytes + attributeBytes name dataType value) b l
    = b + standard_size l) as ->.
  { induction l as [|[[k d] v] l IH]; intros b; cbn; [lia|]. rewrite IH. unfold standard_size. lia. }
  generalize (utf8_bytes body + standard_size (standard_attributes e)).
  induction custom as [|[k v] l IH]; intros b; cbn; [lia|]. rewrite IH. unfold custom_size. lia.
Qed.

Definition standard_texts (entries : list (string * string * string)) : bool :=
  forallb (fun kv => attribute_text kv.2) entries.

Lemma add_standard_budgeted entries b : standard_texts entries = true -> b <= MAX_JOB_MESSAGE_BYTES ->
  add_standard entries b =
  if MAX_JOB_MESSAGE_BYTES <? b + standard_size entries then Err MESSAGE_TOO_LARGE
  else Ok (b + standard_size entries).
Proof.
  revert b. induction entries as [|[[k d] v] l IH]; intros b Ht Hb.
  - cbn. rewrite Z.add_0_r. by rewrite (proj2 (Z.ltb_ge _ _)) by lia.
  - cbn [standard_texts forallb snd] in Ht. apply andb_true_iff in Ht as [Hv Ht]. cbn [add_standard].
    change (standard_size ((k, d, v) :: l)) with (attributeBytes k d v + standard_size l).
    pose proof (standard_size_nonneg l). rewrite addAttribute_budgeted by done. budget_step.
    rewrite IH by (done || lia). by rewrite Z.add_assoc.
Qed.

Lemma add_standard_sound entries b b' : add_standard entries b = Ok b' -> standard_texts entries = true.
Proof.
  revert b. induction entries as [|[[k d] v] l IH]; intros b; cbn [add_standard standard_texts forallb snd]; [done|].
  intros H. inv_ok. apply addAttribute_sound in Hr as ->. by eapply IH.
Qed.

Lemma check_attributes_budgeted entries b :
  check_attributes entries None = Ok None -> b <= MAX_JOB_MESSAGE_BYTES ->
  check_attributes entries (Some b) =
  if MAX_JOB_MESSAGE_BYTES <? b + custom_size entries then Err MESSAGE_TOO_LARGE
  else Ok (Some (b + custom_size entries)).
Proof.
  revert b. induction entries as [|[k v] l IH]; intros b Hc Hb; cbn [check_attributes] in *.
  - cbn. rewrite Z.add_0_r. by rewrite (proj2 (Z.ltb_ge _ _)) by lia.
  - inv_ok. change (custom_size ((k, v) :: l)) with (attributeBytes k "String" v + custom_size l).
    assert (attribute_text v = true) as Hv.
    { unfold assertSqsText in Hr. cbn [negb andb] in Hr. unfold attribute_text.
      destruct (String.eqb v ""); [done|]. by apply sqs_text_sound in Hr. }
    pose proof (custom_size_nonneg l). rewrite addAttribute_budgeted by done. budget_step.
    rewrite IH by (done || lia). by rewrite Z.add_assoc.
Qed.

Lemma check_attributes_free entries r : check_attributes entries None = Ok r -> r = None.
Proof.
  induction entries as [|[k v] l IH]; cbn [check_attributes]; [by intros [= <-]|]. intros H. inv_ok. by apply IH.
Qed.

Lemma check_attributes_sound entries b b' : check_attributes entries (Some b) = Ok b' ->
  check_attributes entries None = Ok None.
Proof.
  revert b. induction entries as [|[k v] l IH]; intros b; [done|]. cbn [check_attributes]. intros H. inv_ok.
  apply addAttribute_sound in Hr as [Hne Hs]%andb_true_iff. unfold assertSqsText.
  apply negb_true_iff in Hne. rewrite Hne. cbn [negb andb]. rewrite sqs_text_free, Hs. cbn [rbind]. by eapply IH.
Qed.

(** Attributes that are accepted without a budget are accepted with one exactly
    when they fit, and cost their size. *)
Lemma attributes_budgeted value entries : parseJobMessageAttributes value = Ok entries ->
  parseJobMessageAttributesWithBudget value (Some 0) =
  if MAX_JOB_MESSAGE_BYTES <? custom_size entries then Err MESSAGE_TOO_LARGE
  else Ok (entries, Some (custom_size entries)).
Proof.
  unfold parseJobMessageAttributes, parseJobMessageAttributesWithBudget. intros H. inv_ok. subst. cbn [fst] in *.
  rewrite Hr0. cbn [or_throw rbind]. rewrite Hr1. cbn [or_throw rbind].
  rewrite Hg. pose proof (check_attributes_free _ _ Hr2) as ->. rewrite check_attributes_budgeted by done.
  rewrite Z.add_0_l. by destruct (MAX_JOB_MESSAGE_BYTES <? _).
Qed.

Lemma attributes_sound value b entries b' :
  parseJobMessageAttributesWithBudget value (Some b) = Ok (entries, b') -> parseJobMessageAttributes value = Ok entries.
Proof.
  unfold parseJobMessageAttributes, parseJobMessageAttributesWithBudget. intros H. inv_ok. subst.
  rewrite Hr. cbn [or_throw rbind]. rewrite Hr0. cbn [or_throw rbind].
  by rewrite Hg, (check_attributes_sound _ _ _ Hr1).
Qed.

(** ** Lemmas: envelopes *)

Definition correlation_json (c : JobCorrelationContext) : json :=
  JObject (omap (fun key => (fun v => (key, JString v)) <$> c !! key) CORRELATION_KEYS).

(** The JSON of an envelope with the payload [payload]. *)
Definition envelope_json (e : JobEnvelope) (payload : json) : json :=
  JObject [("id", JString (env_id e)); ("kind", JString (env_kind e));
    ("version", JNumeral (toString (env_version e))); ("occurredAt", JString (env_occurredAt e));
    ("correlation", correlation_json (env_correlation e)); ("payload", payload)].

Definition with_payload (e : JobEnvelope) (payload : jsval) : JobEnvelope :=
  {| env_id := env_id e; env_kind := env_kind e; env_version := env_version e;
     env_occurredAt := env_occurredAt e; env_correlation := env_correlation e; env_payload := payload |}.

Lemma CORRELATION_KEYS_NoDup : NoDup CORRELATION_KEYS.
Proof. apply (bool_decide_eq_true_1 _). vm_compute. reflexivity. Qed.

Lemma mapM_keyed (f : string * jsval -> option (string * json)) (c : JobCorrelationContext) names :
  (forall k v, f (k, VStr v) = Some (k, JString v)) ->
  mapM f (omap (fun key => (fun v => (key, VStr v)) <$> c !! key) names) =
  Some (omap (fun key => (fun v => (key, JString v)) <$> c !! key) names).
Proof.
  intros Hf. induction names as [|n names IH]; [done|]. cbn [omap list_omap].
  destruct (c !! n); cbn [fmap option_fmap option_map]; [|exact IH].
  cbn [mapM]. rewrite Hf. cbn [mbind option_bind].
  fold (omap (M:=list) (fun key => (fun v => (key, VStr v)) <$> c !! key) names).
  by rewrite IH.
Qed.

Lemma plain_correlation levels c :
  plain_json (S (S levels)) (correlation_object c) = Some (correlation_json c).
Proof.
  unfold correlation_object. rewrite keyed_pairs, plain_object;
    [|by left | apply keyed_names_NoDup, CORRELATION_KEYS_NoDup].
  by rewrite mapM_keyed.
Qed.

Lemma plain_envelope levels e : 1 <= env_version e ->
  plain_json (S (S (S levels))) (envelope_js e) = envelope_json e <$> plain_json (S (S levels)) (env_payload e).
Proof.
  intros Hv. unfold envelope_js, js_object. fold literal_props.
  match goal with |- context [VObj PObject (fmap _ ?kvs)] => change (VObj PObject (fmap _ kvs)) with (VObj PObject (literal_props kvs)) end.
  rewrite plain_object; [|by right | apply (bool_decide_eq_true_1 _); vm_compute; reflexivity].
  pose proof (plain_correlation levels (env_correlation e)) as Hc.
  assert (forall s, plain_json (S (S levels)) (VStr s) = Some (JString s)) as Hs by done.
  assert (plain_json (S (S levels)) (VNum (JInt (env_version e))) = Some (JNumeral (toString (env_version e)))) as Hn.
  { cbn [plain_json num_text]. by rewrite (proj2 (Z.ltb_ge _ _)) by lia. }
  revert Hc Hs Hn. generalize (plain_json (S (S levels))). intros plain Hc Hs Hn.
  cbn [mapM fst snd]. rewrite !Hs, Hn, Hc. cbn [fmap option_fmap option_map mbind option_bind].
  by destruct (plain (env_payload e)).
Qed.

Lemma plain_message e : 1 <= env_version e ->
  plain_json (S MAX_JOB_JSON_DEPTH) (envelope_js e) =
  envelope_json e <$> plain_json MAX_JOB_JSON_DEPTH (env_payload e).
Proof. exact (plain_envelope 62 e). Qed.

Lemma printable_correlation c : printable (correlation_json c).
Proof.
  apply printable_object, Forall_forall. intros kv (key & _ & E)%list_elem_of_omap.
  destruct (c !! key); [|done]. by injection E as <-.
Qed.

Lemma printable_envelope e payload : 1 <= env_version e -> printable payload -> printable (envelope_json e payload).
Proof.
  intros Hv Hp. apply printable_object. repeat constructor; try done; cbn [snd].
  - cbn. apply numeral_integer, toString_unsigned. lia.
  - apply printable_correlation.
Qed.

Lemma integer_text_toString n : 0 <= n <= MAX_SAFE_INTEGER -> integer_text (toString n) = Some n.
Proof.
  intros Hn. unfold integer_text. pose proof (toString_unsigned n ltac:(lia)) as Hu.
  assert (minus_part (toString n) = toString n) as ->.
  { apply unsigned_integer_digits in Hu. destruct (toString n) as [|c s]; [done|]. cbn in Hu.
    apply andb_true_iff in Hu as [Hc _]. unfold minus_part. by rewrite (proj1 (digit_no_numeral_mark c Hc)). }
  rewrite Hu, String.eqb_refl, BigInt_toString by lia. by rewrite (proj2 (Z.leb_le _ _)) by lia.
Qed.

(** The envelope as it is read from its text. *)
Lemma reread_envelope double_of e payload : 1 <= env_version e <= MAX_SAFE_INTEGER ->
  js_of_json double_of (numerals (envelope_json e payload)) =
  js_object [("id", VStr (env_id e)); ("kind", VStr (env_kind e));
    ("version", VNum (JInt (env_version e))); ("occurredAt", VStr (env_occurredAt e));
    ("correlation", VObj PObject (omap (fun key => (fun v => (KStr key, DData (VStr v) true)) <$>
       env_correlation e !! key) CORRELATION_KEYS));
    ("payload", js_of_json double_of (numerals payload))].
Proof.
  intros Hv. unfold envelope_json. cbn [numerals fmap list_fmap fst snd js_of_json].
  unfold number_of_text. rewrite integer_text_toString by lia.
  rewrite set_properties_literal;
    [|apply (bool_decide_eq_true_1 _); vm_compute; reflexivity | repeat constructor].
  unfold correlation_json. cbn [numerals js_of_json]. rewrite keyed_pairs.
  match goal with |- context [set_properties ?kvs] =>
    assert (kvs = omap (fun key => (fun v => (key, VStr v)) <$> env_correlation e !! key) CORRELATION_KEYS) as -> end.
  { generalize CORRELATION_KEYS. intros names. induction names as [|n names IH]; [done|]. cbn [omap list_omap].
    destruct (env_correlation e !! n); cbn [fmap option_fmap option_map list_fmap fst snd numerals js_of_json];
      [f_equal|]; exact IH. }
  rewrite set_properties_literal; [done | apply keyed_names_NoDup, CORRELATION_KEYS_NoDup|].
  apply Forall_forall. intros kv Hkv.
  assert (kv.1 ∈ CORRELATION_KEYS) as Hk by (eapply keyed_names_in; by apply (list_elem_of_fmap_2 fst)).
  revert Hk. generalize (kv.1). intros k Hk.
  assert (Forall (fun k => array_index k = None) CORRELATION_KEYS) as H by (repeat constructor).
  by eapply Forall_forall in H.
Qed.

Lemma parse_reread sha256 double_of e payload : envelope_wf e ->
  parseJobEnvelope sha256 (js_of_json double_of (numerals (envelope_json e payload)))
  = Some (with_payload e (js_of_json double_of (numerals payload))).
Proof.
  intros He. rewrite reread_envelope by apply He.
  eapply (parse_envelope_lookup sha256 _ _ (with_payload e _)); try done.
  cbn [env_correlation with_payload]. destruct He as (_ & _ & _ & _ & Hc).
  apply parseCorrelation_lookup; [by right | done | |].
  - intros kd (key & Hkey & Hkd)%list_elem_of_omap. destruct (env_correlation e !! key); [|done].
    injection Hkd as <-. by apply key_in_spec.
  - intros key Hk. by rewrite keyed_descriptor, decide_True by done.
Qed.

(** Printed JSON is acceptable text. *)
Lemma sqs_append a b : sqs_ok (a +:+ b) = sqs_ok a && sqs_ok b.
Proof. apply all_chars_append. Qed.

Lemma sqs_quoted s : sqs_ok (quoted s) = true.
Proof.
  assert (sqs_ok (escape s) = true) as H.
  { induction s as [|c s IH]; [done|]. cbn [escape]. rewrite sqs_append, IH, andb_true_r.
    destruct c as [[] [] [] [] [] [] [] []]; reflexivity. }
  unfold quoted. change (sqs_ok (String dquote (escape s +:+ String dquote "")))
    with (sqs_ok (escape s +:+ String dquote "")). by rewrite sqs_append, H.
Qed.

Lemma sqs_numeral text : json_numeral text = true -> sqs_ok text = true.
Proof.
  intros H%numeral_chars. eapply all_chars_impl; [|exact H].
  intros c. destruct c as [[] [] [] [] [] [] [] []]; done.
Qed.

Lemma sqs_stringify j : printable j -> sqs_ok (stringify j) = true.
Proof.
  induction j as [|[]|n|text|s|l IH|l IH] using json_nested_ind; intros Hp; try done.
  - by apply sqs_numeral, numeral_integer, toString_unsigned.
  - by apply sqs_numeral.
  - apply sqs_quoted.
  - rewrite stringify_array. change (sqs_ok (elements l) = true). apply printable_array in Hp.
    induction IH as [|v l Hv IHl IH]; [done|]. apply Forall_cons in Hp as [Hpv Hp].
    destruct l as [|w l]; [cbn [elements]; by rewrite sqs_append, Hv|].
    change (elements (v :: w :: l)) with (stringify v +:+ "," +:+ elements (w :: l)).
    by rewrite !sqs_append, Hv, IH.
  - rewrite stringify_object. change (sqs_ok (members l) = true). apply printable_object in Hp.
    induction IH as [|[k v] l Hv IHl IH]; [done|]. apply Forall_cons in Hp as [Hpv Hp]. cbn [snd] in *.
    destruct l as [|[k' w] l]; [cbn [members]; by rewrite !sqs_append, sqs_quoted, Hv|].
    change (members ((k, v) :: (k', w) :: l))
      with (quoted k +:+ ":" +:+ stringify v +:+ "," +:+ members ((k', w) :: l)).
    by rewrite !sqs_append, sqs_quoted, Hv, IH.
Qed.

(** ** Theorems *)

(** What a message needs, its size apart: valid attributes and envelope,
    acceptable identifiers, and a payload of data within the structural limits. *)
Definition serializable (sha256 : string -> string) (envelope messageAttributes : jsval)
    (e : JobEnvelope) (custom : attributes) (payload : json) : Prop :=
  parseJobMessageAttributes messageAttributes = Ok custom /\
  parseJobEnvelope sha256 envelope = Some e /\
  standard_texts (standard_attributes e) = true /\
  plain_json MAX_JOB_JSON_DEPTH (env_payload e) = Some payload /\
  json_nodes (envelope_json e payload) <= MAX_JOB_JSON_NODES.

(** The count of a serialisable message is the size of what is sent. *)
Lemma copy_serializable sha256 envelope messageAttributes e custom payload :
  (forall m, HEX64_PATTERN (sha256 m) = true) ->
  serializable sha256 envelope messageAttributes e custom payload -> printable payload ->
  let bytes := message_bytes (stringify (envelope_json e payload)) e custom in
  copyJobMessage sha256 envelope messageAttributes =
  if MAX_JOB_MESSAGE_BYTES <? bytes then Err MESSAGE_TOO_LARGE
  else Ok {| copied_envelope := e; copied_attributes := custom; copied_json := envelope_json e payload;
             copied_bytes := bytes |}.
Proof.
  intros Hhex (Ha & He & Ht & Hpl & Hn) Hp bytes. pose proof (parseJobEnvelope_wf _ _ _ Hhex He) as Hwf.
  assert (1 <= env_version e) as Hv by apply Hwf.
  pose proof (printable_envelope e payload Hv Hp) as Hpe.
  subst bytes. unfold copyJobMessage. rewrite (attributes_budgeted _ _ Ha), message_bytes_sum.
  pose proof (custom_size_nonneg custom). pose proof (standard_size_nonneg (standard_attributes e)).
  pose proof (json_size_nonneg (envelope_json e payload)) as Hs. unfold json_size in Hs.
  budget_step. rewrite He. cbn [or_throw rbind from_option id].
  rewrite add_standard_budgeted by done. budget_step.
  rewrite (clone_plain (S MAX_JOB_JSON_DEPTH) _ (envelope_json e payload)); [|by rewrite plain_message, Hpl | done | cbn [fst]; lia].
  unfold budgeted. cbn [fst snd]. change (json_size (envelope_json e payload)) with (utf8_bytes (stringify (envelope_json e payload))).
  budget_step. rewrite (proj2 (Z.ltb_ge _ _)) by lia. do 2 f_equal. lia.
Qed.

Lemma serialize_serializable sha256 double_of envelope messageAttributes e custom payload :
  (forall m, HEX64_PATTERN (sha256 m) = true) ->
  serializable sha256 envelope messageAttributes e custom payload -> printable payload ->
  let body := stringify (envelope_json e payload) in
  serializeJobMessage sha256 double_of envelope messageAttributes =
  if MAX_JOB_MESSAGE_BYTES <? message_bytes body e custom then Err MESSAGE_TOO_LARGE
  else Ok {| msg_body := body; msg_bytes := message_bytes body e custom; msg_attributes := custom |}.
Proof.
  intros Hhex Hser Hp body. unfold serializeJobMessage.
  rewrite (copy_serializable _ _ _ _ _ _ Hhex Hser Hp). fold body.
  destruct Hser as (_ & He & _). pose proof (parseJobEnvelope_wf _ _ _ Hhex He) as Hwf.
  assert (1 <= env_version e) as Hv by apply Hwf.
  pose proof (printable_envelope e payload Hv Hp) as Hpe.
  destruct (_ <? _) eqn:El; cbn [rbind copied_envelope copied_attributes copied_json]; [done|].
  unfold JSON_PARSE. fold body. unfold body at 1. rewrite parse_stringify by done. cbn [fmap option_fmap option_map or_throw rbind].
  rewrite parse_reread by done. cbn [or_throw rbind]. unfold assertSqsText.
  rewrite sqs_text_free, (sqs_stringify _ Hpe : sqs_ok body = true). cbn [negb andb].
  destruct (String.eqb body "") eqn:E; [by apply String.eqb_eq in E|]. cbn [rbind]. by rewrite El.
Qed.

Definition attributes_js (custom : attributes) : jsval :=
  js_object ((fun kv => (kv.1, VStr kv.2)) <$> custom).

Lemma attribute_entries_literal custom :
  attribute_entries ((fun kv => (KStr kv.1, DData kv.2 true)) <$> ((fun kv => (kv.1, VStr kv.2)) <$> custom)) = Some custom.
Proof. induction custom as [|[k v] l IH]; [done|]. cbn. by rewrite IH. Qed.

(** Accepted attributes are accepted again. *)
Lemma attributes_again value custom : parseJobMessageAttributes value = Ok custom ->
  parseJobMessageAttributes (attributes_js custom) = Ok custom.
Proof.
  unfold parseJobMessageAttributes, parseJobMessageAttributesWithBudget, attributes_js, js_object. intros H.
  inv_ok. subst. cbn [fst] in *.
  cbn [plain_descriptors is_object is_array get_prototype_of own_property_descriptors negb or_throw rbind].
  rewrite attribute_entries_literal. cbn [or_throw rbind]. by rewrite Hg, Hr2.
Qed.

Lemma serialize_ok sha256 double_of envelope messageAttributes m :
  (forall m, HEX64_PATTERN (sha256 m) = true) ->
  (forall e payload, parseJobEnvelope sha256 envelope = Some e ->
     plain_json MAX_JOB_JSON_DEPTH (env_payload e) = Some payload -> printable payload) ->
  serializeJobMessage sha256 double_of envelope messageAttributes = Ok m ->
  exists e custom payload, serializable sha256 envelope messageAttributes e custom payload /\
    msg_body m = stringify (envelope_json e payload) /\ msg_attributes m = custom /\
    msg_bytes m = utf8_bytes (msg_body m) + standard_size (standard_attributes e) + custom_size custom /\
    msg_bytes m <= MAX_JOB_MESSAGE_BYTES.
Proof.
  intros Hhex Hp H. pose proof H as Hm. unfold serializeJobMessage, copyJobMessage in H.
  apply rbind_ok in H as (copied & H & _). inv_ok.
  destruct r as [custom budget]. cbn [fst snd] in *.
  assert (exists b', parseJobMessageAttributesWithBudget messageAttributes (Some 0) = Ok (custom, b')) as (b' & Hb) by eauto.
  apply attributes_sound in Hb. apply add_standard_sound in Hr1. destruct r2 as [j st].
  apply (clone_sound (S MAX_JOB_JSON_DEPTH)) in Hr2 as (Hj & E & Hle). cbn [fst] in E.
  pose proof (parseJobEnvelope_wf _ _ _ Hhex Hr0) as Hwf.
  rewrite plain_message in Hj by apply Hwf. apply fmap_Some in Hj as (payload & Hpl & ->).
  assert (serializable sha256 envelope messageAttributes r0 custom payload) as Hs by (split_and!; try done; lia).
  rewrite (serialize_serializable _ double_of _ _ _ _ _ Hhex Hs) in Hm by (by eapply Hp).
  destruct (Z.ltb_spec MAX_JOB_MESSAGE_BYTES (message_bytes (stringify (envelope_json r0 payload)) r0 custom)); [done|].
  injection Hm as <-. exists r0, custom, payload. cbn [msg_body msg_bytes msg_attributes].
  rewrite message_bytes_sum in *. split; [exact Hs | done].
Qed.

(** C17: a job message is refused exactly when its attributes or its envelope are
    invalid, its kind or an identifier holds a character the queue does not take,
    its payload is not plain data within the limits on depth and nodes, or its
    text with all attributes exceeds one mebibyte.  A message without these
    faults fails for its size only, and before it is printed: the count kept
    while copying is then exactly the size of what is sent, and once the copy is
    made nothing fails any more. *)
Theorem serialize_exact sha256 double_of envelope messageAttributes :
  (forall m, HEX64_PATTERN (sha256 m) = true) ->
  (forall e payload, parseJobEnvelope sha256 envelope = Some e ->
     plain_json MAX_JOB_JSON_DEPTH (env_payload e) = Some payload -> printable payload) ->
  (forall m, serializeJobMessage sha256 double_of envelope messageAttributes = Ok m <->
     exists e custom payload, serializable sha256 envelope messageAttributes e custom payload /\
       msg_body m = stringify (envelope_json e payload) /\ msg_attributes m = custom /\
       msg_bytes m = utf8_bytes (msg_body m) + standard_size (standard_attributes e) + custom_size custom /\
       msg_bytes m <= MAX_JOB_MESSAGE_BYTES) /\
  (forall e custom payload, serializable sha256 envelope messageAttributes e custom payload ->
     let bytes := utf8_bytes (stringify (envelope_json e payload))
                  + standard_size (standard_attributes e) + custom_size custom in
     copyJobMessage sha256 envelope messageAttributes =
       (if MAX_JOB_MESSAGE_BYTES <? bytes then Err MESSAGE_TOO_LARGE
        else Ok {| copied_envelope := e; copied_attributes := custom;
                   copied_json := envelope_json e payload; copied_bytes := bytes |}) /\
     forall err, serializeJobMessage sha256 double_of envelope messageAttributes = Err err ->
       err = MESSAGE_TOO_LARGE /\ copyJobMessage sha256 envelope messageAttributes = Err MESSAGE_TOO_LARGE).
Proof.
  intros Hhex Hp. assert (forall e custom payload,
    serializable sha256 envelope messageAttributes e custom payload -> printable payload) as Hprint.
  { intros e custom payload (_ & He & _ & Hpl & _). by eapply Hp. }
  split; [|intros e custom payload Hs bytes].
  - intros m. split; [by apply serialize_ok|]. intros (e & custom & payload & Hs & Hb & Hc & Hn & Hle).
    rewrite (serialize_serializable _ _ _ _ _ _ _ Hhex Hs) by (by eapply Hprint).
    destruct m as [body size attributes]. cbn [msg_body msg_bytes msg_attributes] in *. subst body attributes.
    rewrite message_bytes_sum, <- Hn, (proj2 (Z.ltb_ge _ _)) by exact Hle. reflexivity.
  - rewrite (serialize_serializable _ _ _ _ _ _ _ Hhex Hs), (copy_serializable _ _ _ _ _ _ Hhex Hs) by (by eapply Hprint).
    rewrite message_bytes_sum. fold bytes. split; [done|].
    destruct (_ <? _); [by intros err [= <-] | done].
Qed.

(** C18: what is sent reads back as what was enqueued: parsing the body gives an
    envelope with the same identity, kind, version, instant and correlation,
    whose payload is the JSON of the original one, and the attributes are
    accepted again. *)
Theorem message_roundtrip sha256 double_of envelope messageAttributes m :
  (forall m, HEX64_PATTERN (sha256 m) = true) ->
  (forall e payload, parseJobEnvelope sha256 envelope = Some e ->
     plain_json MAX_JOB_JSON_DEPTH (env_payload e) = Some payload -> printable payload) ->
  serializeJobMessage sha256 double_of envelope messageAttributes = Ok m ->
  exists e payload v,
    parseJobEnvelope sha256 envelope = Some e /\
    plain_json MAX_JOB_JSON_DEPTH (env_payload e) = Some payload /\
    JSON_PARSE double_of (msg_body m) = Some v /\
    parseJobEnvelope sha256 v = Some (with_payload e (js_of_json double_of (numerals payload))) /\
    parseJobMessageAttributes (attributes_js (msg_attributes m)) = Ok (msg_attributes m).
Proof.
  intros Hhex Hp H. pose proof (serialize_ok _ double_of _ _ _ Hhex Hp H) as (e & custom & payload & Hs & Hb & Hc & _).
  destruct Hs as (Ha & He & _ & Hpl & _). pose proof (parseJobEnvelope_wf _ _ _ Hhex He) as Hwf.
  exists e, payload, (js_of_json double_of (numerals (envelope_json e payload))).
  split; [done|]. split; [done|]. split; [|split; [by apply parse_reread | rewrite Hc; by eapply attributes_again]].
  unfold JSON_PARSE. rewrite Hb, parse_stringify; [done|].
  apply printable_envelope; [apply Hwf | by eapply Hp].
Qed.

(** ** Examples *)

Definition message_double_example (_ : string) : jsnum := JNonFinite.

Definition message_payload_example : jsval :=
  js_object [("submissionId", VStr (job_uuid "1")); ("operationType", VStr "ALLOCATE");
             ("note", VStr ("caf" +:+ String (byte 233) "")); ("steps", js_array [VNum (JInt 1); VNum (JInt (-2)); VNull])].

Definition message_envelope_example : JobEnvelope := with_payload job_envelope_example message_payload_example.

Definition message_attributes_example : jsval := js_object [("operationType", VStr "ALLOCATE")].

Definition message_json_example : json :=
  JObject [("submissionId", JString (job_uuid "1")); ("operationType", JString "ALLOCATE");
           ("note", JString ("caf" +:+ String (byte 233) ""));
           ("steps", JArray [JNumeral "1"; JNumeral "-2"; JNull])].

Example serialize_example :
  msg_bytes <$> to_option (serializeJobMessage job_sha256_example message_double_example
    (envelope_js message_envelope_example) message_attributes_example) = Some 568.
Proof. vm_compute. reflexivity. Qed.

(** The empty string is no attribute value, and reserved names are refused in any case. *)
Example serialize_refused :
  serializeJobMessage job_sha256_example message_double_example (envelope_js message_envelope_example)
    (js_object [("JobID", VStr "x")]) = Err INVALID_ATTRIBUTES /\
  serializeJobMessage job_sha256_example message_double_example (envelope_js message_envelope_example)
    (js_object [("x", VStr "")]) = Err UNACCEPTABLE_TEXT /\
  serializeJobMessage job_sha256_example message_double_example
    (envelope_js (with_payload job_envelope_example (VDate PDate (Some 0)))) (js_object []) = Err UNSUPPORTED_JSON.
Proof. vm_compute. done. Qed.

Lemma serialize_exact_witness :
  exists m, serializeJobMessage job_sha256_example message_double_example
    (envelope_js message_envelope_example) message_attributes_example = Ok m /\
  msg_body m = stringify (envelope_json message_envelope_example message_json_example) /\
  copied_bytes <$> to_option (copyJobMessage job_sha256_example (envelope_js message_envelope_example)
    message_attributes_example) = Some (msg_bytes m).
Proof.
  assert (forall e payload, parseJobEnvelope job_sha256_example (envelope_js message_envelope_example) = Some e ->
     plain_json MAX_JOB_JSON_DEPTH (env_payload e) = Some payload -> printable payload) as Hp.
  { intros e payload He Hpl. vm_compute in He. injection He as <-. vm_compute in Hpl. injection Hpl as <-.
    vm_compute. repeat split. }
  exists {| msg_body := stringify (envelope_json message_envelope_example message_json_example);
            msg_bytes := 568; msg_attributes := [("operationType", "ALLOCATE")] |}.
  destruct (serialize_exact job_sha256_example message_double_example (envelope_js message_envelope_example)
    message_attributes_example ltac:(intros m; reflexivity) Hp) as [Hser Hcopy].
  assert (serializable job_sha256_example (envelope_js message_envelope_example) message_attributes_example
    message_envelope_example [("operationType", "ALLOCATE")] message_json_example) as Hs
    by (vm_compute; repeat split; discriminate).
  split; [|split; [reflexivity | rewrite (proj1 (Hcopy _ _ _ Hs)); vm_compute; reflexivity]].
  apply Hser. exists message_envelope_example, [("operationType", "ALLOCATE")], message_json_example.
  split; [exact Hs|]. vm_compute. repeat split; discriminate.
Defined.

Lemma message_roundtrip_witness :
  exists m e payload v,
    serializeJobMessage job_sha256_example message_double_example
      (envelope_js message_envelope_example) message_attributes_example = Ok m /\
    JSON_PARSE message_double_example (msg_body m) = Some v /\
    parseJobEnvelope job_sha256_example v = Some (with_payload e (js_of_json message_double_example (numerals payload))).
Proof.
  assert (forall e payload, parseJobEnvelope job_sha256_example (envelope_js message_envelope_example) = Some e ->
     plain_json MAX_JOB_JSON_DEPTH (env_payload e) = Some payload -> printable payload) as Hp.
  { intros e payload He Hpl. vm_compute in He. injection He as <-. vm_compute in Hpl. injection Hpl as <-.
    vm_compute. repeat split. }
  set (m := {| msg_body := stringify (envelope_json message_envelope_example message_json_example);
            msg_bytes := 568; msg_attributes := [("operationType", "ALLOCATE")] |}).
  assert (serializeJobMessage job_sha256_example message_double_example
    (envelope_js message_envelope_example) message_attributes_example = Ok m) as Hm by (vm_compute; reflexivity).
  destruct (message_roundtrip job_sha256_example message_double_example (envelope_js message_envelope_example)
    message_attributes_example m ltac:(intros x; reflexivity) Hp Hm) as (e & payload & v & _ & _ & H1 & H2 & _).
  exists m, e, payload, v. exact (conj Hm (conj H1 H2)).
Defined.
