(* ===== verification/Jsonb.v ===== *)
(** * jsonb columns

    What PostgreSQL keeps of a JSON text cast to [jsonb], and what node-postgres
    makes of the column when it is read: of the members of one name the last is
    kept, members are ordered by the length and the bytes of their names, numbers
    are [numeric]s and U+0000 is refused.  [numeric] is the type's input and
    output, [numeric_eqb] its equality. *)

From stdpp Require Import base list strings gmap sorting.
From Stdlib Require Import ZArith Lia Ascii.
From S2P Require Import Prelude Text JsValue JsDate JsCollections Digest Json JsonParse LogContext JobEnvelope JobMessage.

Open Scope Z_scope.

(** ** Values *)

Definition key_lt (a b : string) : bool :=
  (utf8_bytes a <? utf8_bytes b) || ((utf8_bytes a =? utf8_bytes b) && str_lt (utf8 a) (utf8 b)).

Fixpoint jsonb_set (k : string) (v : json) (members : list (string * json)) : list (string * json) :=
  match members with
  | [] => [(k, v)]
  | (k', v') :: rest =>
      if String.eqb k k' then (k, v) :: rest
      else if key_lt k k' then (k, v) :: members
      else (k', v') :: jsonb_set k v rest
  end.

Definition jsonb_members (kvs : list (string * json)) : list (string * json) :=
  foldl (fun members kv => jsonb_set kv.1 kv.2 members) [] kvs.

Definition has_nul (s : string) : bool := negb (all_chars (fun c => negb (code c =? 0)) s).

Section jsonb.
Context (numeric : string -> option string) (numeric_eqb : string -> string -> bool).

Fixpoint jsonb_of (j : json) : option json :=
  match j with
  | JNull => Some JNull
  | JBool b => Some (JBool b)
  | JNumber n => JNumeral <$> numeric (toString n)
  | JNumeral text => JNumeral <$> numeric text
  | JString s => if has_nul s then None else Some (JString s)
  | JArray l => JArray <$> mapM jsonb_of l
  | JObject l =>
      (fun kvs => JObject (jsonb_members kvs))
      <$> mapM (fun kv => if has_nul kv.1 then None else pair kv.1 <$> jsonb_of kv.2) l
  end.

(** [text::jsonb] *)
Definition jsonb_in (text : string) : option json :=
  j ← parse_json text; jsonb_of j.

(** [a = b] *)
Fixpoint jsonb_eqb (a b : json) : bool :=
  match a, b with
  | JNull, JNull => true
  | JNumber m, JNumber n => m =? n
  | JBool x, JBool y => Bool.eqb x y
  | JNumeral s, JNumeral t => numeric_eqb s t
  | JString s, JString t => String.eqb s t
  | JArray l, JArray m =>
      (fix go l m := match l, m with
       | [], [] => true
       | x :: l, y :: m => jsonb_eqb x y && go l m
       | _, _ => false end) l m
  | JObject l, JObject m =>
      (fix go l m := match l, m with
       | [], [] => true
       | (k, x) :: l, (k', y) :: m => String.eqb k k' && jsonb_eqb x y && go l m
       | _, _ => false end) l m
  | _, _ => false
  end.

(** The column as node-postgres returns it. *)
Definition jsonb_out (double_of : string -> jsnum) (j : json) : jsval := js_of_json double_of j.
End jsonb.

(** Safe integers without sign print as themselves. *)
Definition numeric_ok (numeric : string -> option string) : Prop :=
  forall n, 0 <= n <= MAX_SAFE_INTEGER -> numeric (toString n) = Some (toString n).

(** Equality of columns is reflexive when that of numbers is. *)
Lemma jsonb_eqb_refl numeric_eqb j : (forall text, numeric_eqb text text = true) -> jsonb_eqb numeric_eqb j j = true.
Proof.
  intros Hn. induction j as [|b|n|text|s|l IH|l IH] using json_nested_ind; cbn.
  - done.
  - apply eqb_reflx.
  - apply Z.eqb_refl.
  - apply Hn.
  - apply String.eqb_refl.
  - induction IH as [|x l Hx IH IHl]; [done|]. by rewrite Hx.
  - induction IH as [|[k x] l Hx IH IHl]; [done|]. cbn in Hx. by rewrite String.eqb_refl, Hx.
Qed.

(** ** Lemmas: members *)

Lemma jsonb_set_perm k v members : k ∉ members.*1 -> jsonb_set k v members ≡ₚ (k, v) :: members.
Proof.
  induction members as [|[k' v'] members IH]; intros Hk; [done|]. cbn [jsonb_set]. rewrite fmap_cons in Hk.
  apply not_elem_of_cons in Hk as [Hne Hk]. cbn [fst] in Hne. rewrite (proj2 (String.eqb_neq _ _)) by done.
  destruct (key_lt k k'); [done|]. rewrite IH by done. apply Permutation_swap.
Qed.

(** Distinct names are all kept. *)
Lemma jsonb_members_perm kvs : NoDup kvs.*1 -> jsonb_members kvs ≡ₚ kvs.
Proof.
  unfold jsonb_members. induction kvs as [|[k v] kvs IH] using rev_ind; intros Hnd; [done|].
  rewrite fmap_app in Hnd. apply NoDup_app in Hnd as (Hnd & Hk & _). rewrite foldl_app. cbn [foldl fst snd].
  rewrite jsonb_set_perm, IH by (done || (rewrite IH by done; intros Hin; apply (Hk k Hin); left)).
  apply Permutation_cons_append.
Qed.

Lemma literal_props_keys kvs : (literal_props kvs).*1 = KStr <$> kvs.*1.
Proof. unfold literal_props. by rewrite <- !list_fmap_compose. Qed.

Lemma literal_key kvs k d : descriptor (literal_props kvs) k = Some d -> k ∈ kvs.*1.
Proof.
  induction kvs as [|[k' v] kvs IH]; [done|]. cbn. destruct (String.eqb_spec k k') as [->|]; [left|].
  intros H. right. by apply IH.
Qed.

Section objects.
Context (numeric : string -> option string) (double_of : string -> jsnum).
Notation stored := (jsonb_of numeric).
Notation js := (jsonb_out double_of).

(** An object with distinct names, none an array index, is read back as an object
    with the same members in some order. *)
Lemma jsonb_object l j : stored (JObject l) = Some j -> NoDup l.*1 -> Forall (fun kv => array_index kv.1 = None) l ->
  exists kvs, js j = VObj PObject (literal_props kvs) /\ kvs.*1 ≡ₚ l.*1 /\ NoDup kvs.*1 /\
    forall k v, (k, v) ∈ l -> exists v', stored v = Some v' /\ (k, js v') ∈ kvs.
Proof.
  cbn [jsonb_of]. destruct (mapM _ l) as [m|] eqn:Hm; [|done]. intros [= <-] Hnd Hidx.
  apply mapM_Some_1 in Hm.
  assert (m.*1 = l.*1 /\ forall k v, (k, v) ∈ l -> exists v', stored v = Some v' /\ (k, v') ∈ m) as [Hkeys Hval].
  { clear Hnd Hidx. induction Hm as [|[k v] kv' l m Hkv Hm [IHk IHv]]; [by split; [|intros ? ? ?%not_elem_of_nil]|].
    cbn [fst snd] in Hkv. destruct (has_nul k); [done|]. destruct (stored v) as [v'|] eqn:Hv; [|done].
    injection Hkv as <-. split; [by rewrite !fmap_cons, IHk|].
    intros k0 v0 [[= -> ->]|Hin]%elem_of_cons; [exists v'; by split; [|left]|].
    destruct (IHv _ _ Hin) as (w & ? & ?). exists w. by split; [|right]. }
  pose proof (jsonb_members_perm m ltac:(by rewrite Hkeys)) as Hperm.
  exists ((fun kv => (kv.1, js kv.2)) <$> jsonb_members m).
  assert (((fun kv => (kv.1, js kv.2)) <$> jsonb_members m).*1 = (jsonb_members m).*1) as Hfst
    by (by rewrite <- list_fmap_compose).
  rewrite !Hfst. assert (NoDup (jsonb_members m).*1) as Hnd' by (by rewrite Hperm, Hkeys). split_and!; try done.
  - unfold jsonb_out in *. cbn [js_of_json]. rewrite set_properties_literal; [done | by rewrite Hfst|].
    apply Forall_forall. intros kv ([k v] & -> & Hin)%list_elem_of_fmap. cbn [fst].
    rewrite Hperm in Hin. apply (list_elem_of_fmap_2 fst) in Hin. rewrite Hkeys in Hin.
    apply list_elem_of_fmap in Hin as ([k' v'] & [= ->] & Hin). rewrite Forall_forall in Hidx. by apply (Hidx _ Hin).
  - by rewrite Hperm, Hkeys.
  - intros k v Hin. destruct (Hval _ _ Hin) as (v' & Hv' & Hm'). exists v'. split; [done|].
    apply list_elem_of_fmap. exists (k, v'). split; [done|]. by rewrite Hperm.
Qed.

(** ** Lemmas: envelopes *)

Lemma stored_string s j : stored (JString s) = Some j -> js j = VStr s.
Proof. cbn. destruct (has_nul s); [done|]. by intros [= <-]. Qed.

Lemma stored_integer n j : numeric_ok numeric -> 0 <= n <= MAX_SAFE_INTEGER ->
  stored (JNumeral (toString n)) = Some j -> js j = VNum (JInt n).
Proof.
  intros Hn Hr. cbn [jsonb_of]. rewrite Hn by done. intros [= <-]. unfold jsonb_out. cbn [js_of_json].
  unfold number_of_text. by rewrite integer_text_toString.
Qed.

Lemma correlation_members c :
  numerals (correlation_json c) =
  JObject (omap (fun key => (fun v => (key, JString v)) <$> c !! key) CORRELATION_KEYS).
Proof.
  unfold correlation_json. cbn [numerals]. f_equal. generalize CORRELATION_KEYS as names. intros names.
  induction names as [|n names IH]; [done|]. cbn [omap list_omap]. destruct (c !! n); cbn; [by f_equal | done].
Qed.

Lemma correlation_keys_plain : Forall (fun key => array_index key = None) CORRELATION_KEYS.
Proof. repeat constructor. Qed.

(** A correlation is read back from the column. *)
Lemma correlation_stored c j : correlation_ok c -> stored (numerals (correlation_json c)) = Some j ->
  parseCorrelationContext (js j) = Some c.
Proof.
  intros Hc. rewrite correlation_members. set (l := omap _ CORRELATION_KEYS). intros H.
  assert (NoDup l.*1) as Hnd by apply keyed_names_NoDup, CORRELATION_KEYS_NoDup.
  assert (forall k v, (k, v) ∈ l <-> k ∈ CORRELATION_KEYS /\ exists s, c !! k = Some s /\ v = JString s) as Hl.
  { intros k v. unfold l. rewrite list_elem_of_omap. split.
    - intros (key & Hkey & E). destruct (c !! key) eqn:Ek; [|done]. injection E as <- <-. eauto.
    - intros (Hk & s & Hs & ->). exists k. by rewrite Hs. }
  destruct (jsonb_object l j H Hnd) as (kvs & Hj & Hperm & Hnd' & Hval).
  { apply Forall_forall. intros [k v] (Hk & _)%Hl. pose proof correlation_keys_plain as Hp.
    rewrite Forall_forall in Hp. by apply Hp. }
  rewrite Hj. apply parseCorrelation_lookup; [by right | done | |].
  - intros kd Hin. apply (list_elem_of_fmap_2 fst) in Hin. rewrite literal_props_keys in Hin.
    apply list_elem_of_fmap in Hin as (k & -> & Hin). apply key_in_spec. rewrite Hperm in Hin.
    by apply list_elem_of_fmap in Hin as ([k' v'] & -> & (? & _)%Hl).
  - intros key Hkey. destruct (c !! key) as [s|] eqn:Es; cbn.
    + assert ((key, JString s) ∈ l) as Hin by (apply Hl; eauto). destruct (Hval _ _ Hin) as (v' & Hv & Hin').
      rewrite (stored_string _ _ Hv) in Hin'. by apply literal_descriptor.
    + apply eq_None_not_Some. intros [d Hd]. apply literal_key in Hd. rewrite Hperm in Hd.
      apply list_elem_of_fmap in Hd as ([k' v'] & -> & (_ & s & Hs & _)%Hl). cbn in Es. congruence.
Qed.

(** An envelope is read back from the column, its payload as the column has it. *)
Lemma envelope_stored sha256 e payload j : numeric_ok numeric -> envelope_wf e ->
  stored (numerals (envelope_json e payload)) = Some j ->
  exists pj, stored (numerals payload) = Some pj /\
    parseJobEnvelope sha256 (js j) = Some (with_payload e (js pj)).
Proof.
  intros Hn He. unfold envelope_json. cbn [numerals fmap list_fmap fst snd]. set (l := [_; _; _; _; _; _]). intros H.
  destruct (jsonb_object l j H) as (kvs & Hj & Hperm & Hnd & Hval).
  { apply (bool_decide_eq_true_1 _). vm_compute. reflexivity. } { repeat constructor. }
  assert (forall k v, (k, v) ∈ l -> exists v', stored v = Some v' /\
    descriptor (literal_props kvs) k = Some (DData (js v') true)) as Hd.
  { intros k v Hin. destruct (Hval _ _ Hin) as (v' & Hv & Hin'). exists v'. split; [done|]. by apply literal_descriptor. }
  assert (forall k s, (k, JString s) ∈ l -> descriptor (literal_props kvs) k = Some (DData (VStr s) true)) as Hs.
  { intros k s Hin. destruct (Hd _ _ Hin) as (v' & Hv & ->). by rewrite (stored_string _ _ Hv). }
  destruct (Hd "payload" (numerals payload) ltac:(unfold l; solve_elem)) as (pj & Hp & Hdp).
  destruct (Hd "version" (JNumeral (toString (env_version e))) ltac:(unfold l; solve_elem)) as (vj & Hv & Hdv).
  destruct (Hd "correlation" (numerals (correlation_json (env_correlation e))) ltac:(unfold l; solve_elem)) as (cj & Hc & Hdc).
  exists pj. split; [done|]. rewrite Hj. pose proof He as (_ & _ & Hver & _ & Hcorr).
  assert (0 <= env_version e <= MAX_SAFE_INTEGER) as Hver' by lia. rewrite (stored_integer _ _ Hn Hver' Hv) in Hdv.
  eapply (parse_envelope_lookup sha256 _ (js cj) (with_payload e (js pj))); try done;
    [by apply correlation_stored | | by apply Hs; unfold l; solve_elem ..].
  apply orb_false_iff. split.
  - apply existsb_false. intros kd Hin. apply (list_elem_of_fmap_2 fst) in Hin. rewrite literal_props_keys in Hin.
    apply list_elem_of_fmap in Hin as (k & -> & Hin). rewrite Hperm in Hin.
    assert (key_in JOB_ENVELOPE_KEYS (KStr k) = true) as ->; [|done].
    apply key_in_spec. unfold l in Hin. cbn [fmap list_fmap fst] in Hin. unfold JOB_ENVELOPE_KEYS. by repeat (apply elem_of_cons in Hin as [-> | Hin]; [solve_elem|]); apply not_elem_of_nil in Hin.
  - apply existsb_false. intros k Hin.
    assert (exists v, (k, v) ∈ l) as (v & Hkv).
    { unfold REQUIRED_JOB_ENVELOPE_KEYS in Hin. unfold l.
      repeat (apply elem_of_cons in Hin as [-> | Hin]; [eexists; solve_elem|]). by apply not_elem_of_nil in Hin. }
    destruct (Hd _ _ Hkv) as (v' & _ & ->). by rewrite bool_decide_eq_true_2.
Qed.

(** ** Lemmas: records of plain values *)

(** Texts, null and integers: what the column gives back as it got it. *)
Definition flat (v : jsval) : Prop :=
  match v with
  | VStr _ | VNull => True
  | VNum (JInt n) => 0 <= n <= MAX_SAFE_INTEGER
  | _ => False
  end.

Lemma flat_stored levels v j pj : numeric_ok numeric -> flat v -> plain_json levels v = Some j ->
  stored (numerals j) = Some pj -> js pj = v.
Proof.
  intros Hn Hv Hj. destruct levels; [done|]. destruct v as [| | |[n| |]| |s| | | | | |]; try done; cbn in Hj.
  - injection Hj as <-. by intros [= <-].
  - injection Hj as <-. rewrite (proj2 (Z.ltb_ge n 0)) by apply Hv. by apply stored_integer.
  - injection Hj as <-. apply stored_string.
Qed.
End objects.

(** ** Lemmas: objects in general *)

Lemma key_lt_irrefl k : key_lt k k = false.
Proof. unfold key_lt. by rewrite Z.ltb_irrefl, str_lt_irrefl, andb_false_r. Qed.

Lemma key_lt_trans a b c : key_lt a b = true -> key_lt b c = true -> key_lt a c = true.
Proof.
  unfold key_lt. rewrite !orb_true_iff, !andb_true_iff, !Z.ltb_lt, !Z.eqb_eq.
  intros [H1|[H1 H1']] [H2|[H2 H2']]; [left; lia | left; lia | left; lia |]. right. split; [lia|]. by eapply str_lt_trans.
Qed.

Lemma key_lt_total a b : a <> b -> key_lt a b = false -> key_lt b a = true.
Proof.
  unfold key_lt. rewrite !orb_false_iff, orb_true_iff, !andb_true_iff, Z.ltb_ge, !Z.ltb_lt, Z.eqb_eq.
  intros Hne [H1 H2]. destruct (Z.eq_dec (utf8_bytes a) (utf8_bytes b)) as [E|]; [|left; lia]. right. split; [done|].
  rewrite E, Z.eqb_refl in H2. cbn [andb] in H2. destruct (str_lt (utf8 b) (utf8 a)) eqn:E'; [done|].
  by destruct Hne; apply utf8_inj, str_lt_total.
Qed.

Definition sorted_members : list (string * json) -> Prop := StronglySorted (fun a b => key_lt a.1 b.1 = true).

Lemma sorted_distinct_names l : sorted_members l -> NoDup l.*1.
Proof.
  induction 1 as [|kv l Hl IH Hkv]; [constructor|]. rewrite fmap_cons. apply NoDup_cons. split; [|done].
  intros (kv' & E & Hin)%list_elem_of_fmap. rewrite Forall_forall in Hkv. apply Hkv in Hin. rewrite E in Hin.
  by rewrite key_lt_irrefl in Hin.
Qed.

Lemma jsonb_set_in k v l k' v' : sorted_members l ->
  (k', v') ∈ jsonb_set k v l <-> (k' = k /\ v' = v) \/ (k' <> k /\ (k', v') ∈ l).
Proof.
  intros Hs. pose proof (sorted_distinct_names _ Hs) as Hnd. induction Hs as [|[k0 v0] l Hl IH Hall]; cbn [jsonb_set].
  { rewrite list_elem_of_singleton. split; [intros [= -> ->]; by left | intros [[-> ->]|[_ H]]; [done | by apply not_elem_of_nil in H]]. }
  rewrite fmap_cons in Hnd. apply NoDup_cons in Hnd as [Hk0 Hnd]. cbn [fst] in Hk0.
  assert (forall w, (k0, w) ∉ l) as Hfresh by (intros w Hw; apply Hk0; by apply (list_elem_of_fmap_2 fst) in Hw).
  destruct (String.eqb_spec k k0) as [->|Hne].
  { rewrite !elem_of_cons. split.
    - intros [[= -> ->]|H]; [by left|]. right. split; [|by right]. intros ->. by apply Hfresh in H.
    - intros [[-> ->]|[Hne [[= -> _]|H]]]; [by left | done | by right]. }
  destruct (key_lt k k0) eqn:Ek.
  - rewrite !elem_of_cons. split.
    + intros [[= -> ->]|H]; [by left|]. right. split; [|by destruct H; [left|right]].
      intros ->. destruct H as [[= -> _]|H]; [done|]. rewrite Forall_forall in Hall. apply Hall in H. cbn in H.
      pose proof (key_lt_trans _ _ _ Ek H) as Hc. by rewrite key_lt_irrefl in Hc.
    + intros [[-> ->]|[_ H]]; [by left | by right].
  - rewrite !elem_of_cons, IH by done. split.
    + intros [[= -> ->]|[H|[H1 H2]]]; [right; split; [done | by left] | by left | right; split; [done | by right]].
    + intros [H|[H1 [[= -> ->]|H2]]]; [right; by left | by left | right; right; by split].
Qed.

Lemma jsonb_set_sorted k v l : sorted_members l -> sorted_members (jsonb_set k v l).
Proof.
  induction 1 as [|[k0 v0] l Hl IH Hall]; cbn [jsonb_set]; [repeat constructor|].
  destruct (String.eqb_spec k k0) as [->|Hne]; [by constructor|].
  destruct (key_lt k k0) eqn:Ek.
  - constructor; [by constructor|]. constructor; [done|]. rewrite Forall_forall in *. intros kv Hkv.
    eapply key_lt_trans; [exact Ek | by apply (Hall kv)].
  - constructor; [done|]. rewrite Forall_forall in *. intros [k' v'] Hin. apply jsonb_set_in in Hin; [|done].
    destruct Hin as [[-> ->]|[_ Hin]]; [by apply key_lt_total | by apply (Hall (k', v'))].
Qed.

(** The value a later member of the name does not replace. *)
Definition last_member {A} (k : string) (l : list (string * A)) : option A :=
  foldl (fun found kv => if String.eqb k kv.1 then Some kv.2 else found) None l.

Lemma last_member_snoc {A} k k' (v : A) l :
  last_member k (l ++ [(k', v)]) = if String.eqb k k' then Some v else last_member k l.
Proof. unfold last_member. by rewrite foldl_app. Qed.

Lemma last_member_elem {A} k (v : A) l : last_member k l = Some v -> (k, v) ∈ l.
Proof.
  induction l as [|[k' v'] l IH] using rev_ind; [done|]. rewrite last_member_snoc, elem_of_app, list_elem_of_singleton.
  destruct (String.eqb_spec k k') as [->|]; [intros [= ->]; by right | intros H; left; by apply IH].
Qed.

Lemma last_member_in {A} k (l : list (string * A)) : is_Some (last_member k l) <-> k ∈ l.*1.
Proof.
  induction l as [|[k' v] l IH] using rev_ind; [split; [by intros [? ?] | by intros ?%not_elem_of_nil]|].
  rewrite last_member_snoc, fmap_app, elem_of_app, <- IH. cbn. rewrite list_elem_of_singleton.
  destruct (String.eqb_spec k k'); [by split; [right | eauto]|]. tauto.
Qed.

Lemma jsonb_members_spec l : sorted_members (jsonb_members l) /\
  forall k v, (k, v) ∈ jsonb_members l <-> last_member k l = Some v.
Proof.
  unfold jsonb_members. induction l as [|[k' v'] l [IHs IH]] using rev_ind.
  { split; [constructor|]. intros k v. split; [by intros ?%not_elem_of_nil | done]. }
  rewrite foldl_app. cbn [foldl fst snd]. split; [by apply jsonb_set_sorted|]. intros k v.
  rewrite jsonb_set_in, last_member_snoc, IH by done. destruct (String.eqb_spec k k') as [->|Hne]; [|tauto].
  split; [by intros [[_ ->]|[? _]] | intros [= ->]; by left].
Qed.

Lemma set_property_descriptor k d ps k' :
  descriptor (set_property k d ps) k' = if String.eqb k' k then Some d else descriptor ps k'.
Proof.
  induction ps as [|[k0 d0] ps IH]; cbn [set_property]; [cbn; by rewrite String.eqb_sym|].
  destruct (key_eqb (KStr k) k0) eqn:E.
  - destruct k0 as [s|]; [|done]. rewrite key_eqb_str in E. apply String.eqb_eq in E as <-. cbn.
    by destruct (String.eqb k' k).
  - destruct (key_before k k0); cbn [descriptor]; [cbn; done|]. rewrite IH.
    destruct (String.eqb_spec k' k) as [E'|]; [by rewrite E', E | done].
Qed.

(** The last member of a name is the property. *)
Lemma set_properties_descriptor kvs k :
  descriptor (set_properties kvs) k = (fun v => DData v true) <$> last_member k kvs.
Proof.
  unfold set_properties. induction kvs as [|[k' v] kvs IH] using rev_ind; [done|].
  rewrite foldl_app, last_member_snoc. cbn [foldl fst snd]. rewrite set_property_descriptor, IH.
  by destruct (String.eqb k k').
Qed.

Lemma last_member_map {A B} (f : A -> B) k l :
  last_member k ((fun kv => (kv.1, f kv.2)) <$> l) = f <$> last_member k l.
Proof.
  induction l as [|[k' v] l IH] using rev_ind; [done|]. rewrite fmap_app. cbn [fmap list_fmap fst snd].
  rewrite !last_member_snoc, IH. by destruct (String.eqb k k').
Qed.

Lemma last_member_NoDup {A} k (v : A) l : NoDup l.*1 -> (k, v) ∈ l -> last_member k l = Some v.
Proof.
  induction l as [|[k' v'] l IH] using rev_ind; intros Hnd Hin; [by apply not_elem_of_nil in Hin|].
  rewrite fmap_app in Hnd. apply NoDup_app in Hnd as (Hnd & Hd & _). rewrite last_member_snoc.
  apply elem_of_app in Hin as [Hin|Hin].
  - destruct (String.eqb_spec k k') as [E|]; [|by apply IH]. destruct (Hd k); [by apply (list_elem_of_fmap_2 fst) in Hin|].
    rewrite E. left.
  - apply list_elem_of_singleton in Hin as [= -> ->]. by rewrite String.eqb_refl.
Qed.

(** The numerals are those JavaScript prints: each is what the number it reads as
    prints as. *)
Fixpoint as_printed (double_of : string -> jsnum) (j : json) : Prop :=
  match j with
  | JNumber n => 0 <= n <= MAX_SAFE_INTEGER
  | JNumeral text => json_numeral text = true /\ num_text (number_of_text double_of text) = Some text
  | JArray l => (fix all l := match l with [] => True | v :: l => as_printed double_of v /\ all l end) l
  | JObject l => (fix all l := match l with [] => True | (_, v) :: l => as_printed double_of v /\ all l end) l
  | _ => True
  end.

Lemma as_printed_array double_of l : as_printed double_of (JArray l) <-> Forall (as_printed double_of) l.
Proof. cbn. induction l as [|v l IH]; [done|]. by rewrite Forall_cons, <- IH. Qed.

Lemma as_printed_object double_of l : as_printed double_of (JObject l) <-> Forall (fun kv => as_printed double_of kv.2) l.
Proof. cbn. induction l as [|[k v] l IH]; [done|]. by rewrite Forall_cons, <- IH. Qed.

Lemma as_printed_printable double_of j : as_printed double_of j -> printable j.
Proof.
  induction j as [|b|n|text|s|l IH|l IH] using json_nested_ind; intros Hp; try done.
  - cbn in *. lia.
  - by destruct Hp.
  - apply as_printed_array in Hp. apply printable_array. rewrite Forall_forall in *. auto.
  - apply as_printed_object in Hp. apply printable_object. rewrite Forall_forall in *. auto.
Qed.

Lemma as_printed_numerals double_of j : as_printed double_of j -> as_printed double_of (numerals j).
Proof.
  induction j as [|b|n|text|s|l IH|l IH] using json_nested_ind; intros Hp; try done; cbn [numerals].
  - cbn [as_printed] in *. split; [apply numeral_integer, toString_unsigned; lia|]. unfold number_of_text.
    rewrite integer_text_toString by done. cbn [num_text]. by rewrite (proj2 (Z.ltb_ge n 0)) by lia.
  - apply as_printed_array in Hp. apply as_printed_array. rewrite Forall_fmap. rewrite !Forall_forall in *. cbn. auto.
  - apply as_printed_object in Hp. apply as_printed_object. rewrite Forall_fmap. rewrite !Forall_forall in *. cbn. auto.
Qed.

(** What the column has of a plain value. *)
Definition flat_json (v : jsval) : json :=
  match v with
  | VStr s => JString s
  | VNum (JInt n) => JNumeral (toString n)
  | _ => JNull
  end.

Lemma flat_json_out double_of v : flat v -> jsonb_out double_of (flat_json v) = v.
Proof.
  destruct v as [| | |[n| |]| |s| | | | | |]; try done. intros Hn. unfold jsonb_out. cbn [flat_json js_of_json]. unfold number_of_text.
  by rewrite integer_text_toString.
Qed.

Section columns.
Context (numeric : string -> option string) (double_of : string -> jsnum) (Hnumeric : numeric_ok numeric).

Lemma flat_column j j' : as_printed double_of j -> flat (js_of_json double_of j) -> jsonb_of numeric j = Some j' ->
  j' = flat_json (js_of_json double_of j).
Proof.
  intros Hp Hf H. destruct j as [|b|n|text|s|l|l]; cbn [jsonb_of js_of_json flat] in *; try done.
  - by injection H as <-.
  - rewrite Hnumeric in H by done. by injection H as <-.
  - destruct Hp as [_ Hp]. destruct (number_of_text double_of text) as [n| |]; try done. cbn [num_text] in Hp.
    rewrite (proj2 (Z.ltb_ge n 0)) in Hp by lia. injection Hp as <-. rewrite Hnumeric in H by done. by injection H as <-.
  - destruct (has_nul s); [done|]. by injection H as <-.
Qed.

(** Storing the members one by one stores the last of each name. *)
Lemma last_member_column k l m :
  Forall2 (fun kv kv' => (if has_nul kv.1 then None else pair kv.1 <$> jsonb_of numeric kv.2) = Some kv') l m ->
  match last_member k l with
  | Some v => exists v', jsonb_of numeric v = Some v' /\ last_member k m = Some v'
  | None => last_member k m = None
  end.
Proof.
  induction l as [|[k' v] l IH] in m |- * using rev_ind; intros Hm; [by apply Forall2_nil_inv_l in Hm as ->|].
  apply Forall2_app_inv_l in Hm as (m1 & m2 & Hm & Hkv & ->). apply Forall2_cons_inv_l in Hkv as ([k'' w] & ? & Hkv & Hnil & ->).
  apply Forall2_nil_inv_l in Hnil as ->. cbn [fst snd] in Hkv. destruct (has_nul k'); [done|].
  apply fmap_Some in Hkv as (w' & Hw & [= -> ->]). rewrite !last_member_snoc.
  destruct (String.eqb k k'); [by exists w' | by apply IH].
Qed.

(** The column of an object: the same names, and of each the value JavaScript reads. *)
Lemma object_column l pj : jsonb_of numeric (JObject l) = Some pj ->
  exists members, pj = JObject members /\ NoDup members.*1 /\ (forall k, k ∈ members.*1 <-> k ∈ l.*1) /\
    forall k v, last_member k l = Some v -> exists v', jsonb_of numeric v = Some v' /\ (k, v') ∈ members.
Proof.
  cbn [jsonb_of]. destruct (mapM _ l) as [m|] eqn:Hm; [|done]. intros [= <-]. apply mapM_Some_1 in Hm.
  pose proof (fun k => last_member_column k l m Hm) as Hlast.
  destruct (jsonb_members_spec m) as [Hs Hin]. exists (jsonb_members m). split; [done|].
  split; [by apply sorted_distinct_names|]. split.
  - intros k. specialize (Hlast k). rewrite <- (last_member_in k l). rewrite list_elem_of_fmap. split.
    + intros ([k' v] & -> & Hkv). cbn [fst] in *. apply Hin in Hkv. destruct (last_member k' l); [eauto | congruence].
    + intros [v Hv]. rewrite Hv in Hlast. destruct Hlast as (v' & _ & Hv'). exists (k, v'). split; [done|]. by apply Hin.
  - intros k v Hv. specialize (Hlast k). rewrite Hv in Hlast. destruct Hlast as (v' & ? & ?). exists v'. split; [done|].
    by apply Hin.
Qed.
End columns.
