(* ===== verification/BalanceSync.v ===== *)
(** * Balance synchronisation jobs
    (apps/api/src/blockchain-sync/domain/balance-sync.ts)

    The payload of a job that reads a wallet's balances, the envelope it travels
    in, when a failed job is retried and as what, and the identifier of an
    observation.  SHA-256, the active logging context, [randomUUID] and the clock
    are arguments, as in JobEnvelope. *)

From stdpp Require Import base list strings gmap.
From Stdlib Require Import ZArith Lia Ascii.
From S2P Require Import Prelude Text JsValue JsDate JsCollections Digest Json AssetRegistry ChainObservation LogContext JobEnvelope.

Open Scope Z_scope.

(** ** Data *)

Definition BALANCE_SYNC_JOB_KIND : string := "blockchain.balance-sync".
Definition BALANCE_SYNC_JOB_VERSION : Z := 1.
Definition BALANCE_SYNC_PAYLOAD_VERSION : Z := 1.

(** [BALANCE_SYNC_POLICY] *)
Definition SYNC_MAX_ATTEMPTS : Z := READS_MAX_ATTEMPTS.
Definition RETRY_BASE_DELAY_SECONDS : Z := 5.
Definition RETRY_MAXIMUM_DELAY_SECONDS : Z := 60.
Definition MAXIMUM_POSITIONS_PER_OBSERVATION : Z := 64.
Definition LOCAL_EXECUTABLE_TIER : ChainObservationTier := PROVISIONAL.

Definition MAX_UINT256_TEXT : string :=
  "115792089237316195423570985008687907853269984665640564039457584007913129639935".

Inductive BalanceSyncJobCause : Type := SCHEDULED | RETRY_CAUSE | MANUAL_RECOVERY.

#[export] Program Instance BALANCE_SYNC_JOB_CAUSES : JsEnum BalanceSyncJobCause := {
  enum_values := [SCHEDULED; RETRY_CAUSE; MANUAL_RECOVERY];
  enum_str := fun c => match c with
    | SCHEDULED => "SCHEDULED" | RETRY_CAUSE => "RETRY" | MANUAL_RECOVERY => "MANUAL_RECOVERY" end;
}.
Next Obligation. solve_enum_all. Qed.
Next Obligation. solve_enum_inj. Qed.

Record BalanceSyncJobPayload : Type := {
  bs_accountId : string;
  bs_walletId : string;
  bs_networkId : string;
  bs_requiredTier : ChainObservationTier;
  bs_cause : BalanceSyncJobCause;
  bs_attempt : Z;
  bs_rescanFromPosition : option string;
}.

Inductive BalanceSyncFailureCode : Type :=
| RATE_LIMITED | PROVIDER_TIMEOUT | PROVIDER_UNAVAILABLE | PROVIDER_INVALID_DATA
| PERMANENT_PROVIDER_FAILURE | REORG_RECOVERY_FAILED | UNCLASSIFIED_FAILURE.

#[export] Program Instance BALANCE_SYNC_FAILURE_CODES : JsEnum BalanceSyncFailureCode := {
  enum_values := [RATE_LIMITED; PROVIDER_TIMEOUT; PROVIDER_UNAVAILABLE; PROVIDER_INVALID_DATA;
    PERMANENT_PROVIDER_FAILURE; REORG_RECOVERY_FAILED; UNCLASSIFIED_FAILURE];
  enum_str := fun c => match c with
    | RATE_LIMITED => "RATE_LIMITED" | PROVIDER_TIMEOUT => "PROVIDER_TIMEOUT"
    | PROVIDER_UNAVAILABLE => "PROVIDER_UNAVAILABLE" | PROVIDER_INVALID_DATA => "PROVIDER_INVALID_DATA"
    | PERMANENT_PROVIDER_FAILURE => "PERMANENT_PROVIDER_FAILURE"
    | REORG_RECOVERY_FAILED => "REORG_RECOVERY_FAILED" | UNCLASSIFIED_FAILURE => "UNCLASSIFIED_FAILURE" end;
}.
Next Obligation. solve_enum_all. Qed.
Next Obligation. solve_enum_inj. Qed.

Inductive dead_letter_reason : Type := ATTEMPTS_EXHAUSTED | NON_RETRYABLE_FAILURE | RETRY_AFTER_EXCEEDS_BOUND.

Inductive BalanceSyncFailureDisposition : Type :=
| Retry (delaySeconds : Z)
| DeadLetter (reason : dead_letter_reason).

Record BalanceSyncTierThreshold : Type := {
  th_networkId : string;
  th_tier : ChainObservationTier;
  th_selector : ChainObservationSelector;
  th_state : ChainObservationTierState;
  th_locallyExecutable : bool;
}.

Inductive BalanceSyncDomainError : Type :=
| INVALID_BALANCE_SYNC_JOB | INVALID_BALANCE_SYNC_POSITION | INVALID_BALANCE_SYNC_OBSERVATION
| ENVELOPE_ERROR (e : envelope_error).

(** ** Payloads *)

(** At most 78 digits without leading zeros, not above the largest 256-bit integer. *)
Definition normalizeBalanceSyncPosition (value : string) : option string :=
  if negb (UNSIGNED_INTEGER_PATTERN value) || (78 <? strlen value)
     || exceeds_decimal MAX_UINT256_TEXT value
  then None else Some value.

Definition PAYLOAD_KEYS : list string :=
  ["schemaVersion"; "accountId"; "walletId"; "networkId"; "requiredTier"; "cause"; "attempt"; "rescanFromPosition"].

Definition uuid_text (v : jsval) : option string :=
  match v with
  | VStr s => if UUID_V4_PATTERN s then Some s else None
  | _ => None
  end.

(** [null], or a position. *)
Definition rescan_position (v : jsval) : result BalanceSyncDomainError (option string) :=
  match v with
  | VNull => Ok None
  | VStr s => rmap Some (or_throw (normalizeBalanceSyncPosition s) INVALID_BALANCE_SYNC_POSITION)
  | _ => Err INVALID_BALANCE_SYNC_JOB
  end.

(** What the cause demands of the attempt and the position. *)
Definition cause_consistent (cause : BalanceSyncJobCause) (attempt : Z) (rescan : option string) : bool :=
  match cause with
  | SCHEDULED => (attempt =? 1) && bool_decide (rescan = None)
  | RETRY_CAUSE => 2 <=? attempt
  | MANUAL_RECOVERY => negb (bool_decide (rescan = None))
  end.

(** The fields apart from the position. *)
Definition payload_fields (record : jsrec) : option (option string -> BalanceSyncJobPayload) :=
  if negb (is_int (record .: "schemaVersion") BALANCE_SYNC_PAYLOAD_VERSION) then None
  else
    accountId ← uuid_text (record .: "accountId");
    walletId ← uuid_text (record .: "walletId");
    networkPolicy ← match record .: "networkId" with
                    | VStr networkId => chainObservationPolicyForNetwork networkId
                    | _ => None
                    end;
    requiredTier ← enum_member (A := ChainObservationTier) enum_values (record .: "requiredTier");
    cause ← enum_member (A := BalanceSyncJobCause) enum_values (record .: "cause");
    attempt ← safe_integer (record .: "attempt");
    if (attempt <? 1) || (SYNC_MAX_ATTEMPTS <? attempt) then None
    else Some (fun rescan =>
      {| bs_accountId := accountId; bs_walletId := walletId; bs_networkId := pol_networkId networkPolicy;
         bs_requiredTier := requiredTier; bs_cause := cause; bs_attempt := attempt;
         bs_rescanFromPosition := rescan |}).

Definition parseBalanceSyncPayload (value : jsval) : result BalanceSyncDomainError BalanceSyncJobPayload :=
  let* record := or_throw (exact_data_record PAYLOAD_KEYS value) INVALID_BALANCE_SYNC_JOB in
  let* fields := or_throw (payload_fields record) INVALID_BALANCE_SYNC_JOB in
  let* rescan := rescan_position (record .: "rescanFromPosition") in
  let payload := fields rescan in
  reject INVALID_BALANCE_SYNC_JOB
    when negb (cause_consistent (bs_cause payload) (bs_attempt payload) rescan) in
  Ok payload.

(** The frozen payload. *)
Definition payload_js (p : BalanceSyncJobPayload) : jsval :=
  js_object [("schemaVersion", VNum (JInt BALANCE_SYNC_PAYLOAD_VERSION)); ("accountId", VStr (bs_accountId p));
    ("walletId", VStr (bs_walletId p)); ("networkId", VStr (bs_networkId p));
    ("requiredTier", VStr (enum_str (bs_requiredTier p))); ("cause", VStr (enum_str (bs_cause p)));
    ("attempt", VNum (JInt (bs_attempt p))); ("rescanFromPosition", js_nullable (bs_rescanFromPosition p))].

(** ** Envelopes *)

(** An envelope whose payload is a balance sync payload. *)
Record BalanceSyncJobEnvelope : Type := {
  bse_envelope : JobEnvelope;
  bse_payload : BalanceSyncJobPayload;
}.

Section envelopes.
Context (sha256 : string -> string).

Definition parseBalanceSyncJobEnvelope (value : jsval) : option BalanceSyncJobEnvelope :=
  envelope ← parseJobEnvelope sha256 value;
  if negb (String.eqb (env_kind envelope) BALANCE_SYNC_JOB_KIND)
     || negb (env_version envelope =? BALANCE_SYNC_JOB_VERSION) then None
  else
    payload ← to_option (parseBalanceSyncPayload (env_payload envelope));
    Some {| bse_envelope := {| env_id := env_id envelope; env_kind := env_kind envelope;
              env_version := env_version envelope; env_occurredAt := env_occurredAt envelope;
              env_correlation := env_correlation envelope; env_payload := payload_js payload |};
            bse_payload := payload |}.

(** [JSON.stringify([domain, ...parts])], hashed *)
Definition digest (domain : string) (parts : list json) : string :=
  sha256 (utf8 (stringify (JArray (JString domain :: parts)))).

Section create.
Context (active : option LogCorrelationContext) (uuid uuid' : string) (now : Z).

Definition createDeterministicBalanceSyncJobEnvelope (payload : jsval) (id occurredAt : string)
    (correlation : JobCorrelationContext) : result BalanceSyncDomainError BalanceSyncJobEnvelope :=
  let* parsed := parseBalanceSyncPayload payload in
  let* envelope := rlift ENVELOPE_ERROR
    (createJobEnvelope active uuid uuid' now BALANCE_SYNC_JOB_KIND (payload_js parsed)
       (js_object [("id", VStr id); ("version", VNum (JInt BALANCE_SYNC_JOB_VERSION));
                   ("occurredAt", VStr occurredAt); ("correlation", correlation_object correlation)])) in
  Ok {| bse_envelope := envelope; bse_payload := parsed |}.

Definition retry_id (parentId : string) (attempt : Z) : string :=
  "balance-sync:" +:+ digest "crypto-lending:balance-sync-retry-job:v1"
    [JString parentId; JString (toString attempt)].

Definition retry_payload (p : BalanceSyncJobPayload) : BalanceSyncJobPayload :=
  {| bs_accountId := bs_accountId p; bs_walletId := bs_walletId p; bs_networkId := bs_networkId p;
     bs_requiredTier := bs_requiredTier p; bs_cause := RETRY_CAUSE; bs_attempt := bs_attempt p + 1;
     bs_rescanFromPosition := bs_rescanFromPosition p |}.

Definition createBalanceSyncRetryEnvelope (parent : jsval) (occurredAt : string)
    : result BalanceSyncDomainError BalanceSyncJobEnvelope :=
  let* parsedParent := or_throw (parseBalanceSyncJobEnvelope parent) INVALID_BALANCE_SYNC_JOB in
  let nextAttempt := bs_attempt (bse_payload parsedParent) + 1 in
  reject INVALID_BALANCE_SYNC_JOB when SYNC_MAX_ATTEMPTS <? nextAttempt in
  createDeterministicBalanceSyncJobEnvelope (payload_js (retry_payload (bse_payload parsedParent)))
    (retry_id (env_id (bse_envelope parsedParent)) nextAttempt) occurredAt
    (env_correlation (bse_envelope parsedParent)).
End create.

(** ** Failures *)

Definition retryable (code : BalanceSyncFailureCode) : bool :=
  match code with
  | RATE_LIMITED | PROVIDER_TIMEOUT | PROVIDER_UNAVAILABLE | REORG_RECOVERY_FAILED => true
  | _ => false
  end.

(** [retryAfterSeconds] is absent, or any number. *)
Definition decideBalanceSyncFailureDisposition (failureCode : BalanceSyncFailureCode) (attempt : jsval)
    (retryAfterSeconds : option jsval) : BalanceSyncFailureDisposition :=
  match safe_integer attempt with
  | None => DeadLetter NON_RETRYABLE_FAILURE
  | Some attempt =>
      if (attempt <? 1) || (SYNC_MAX_ATTEMPTS <? attempt) then DeadLetter NON_RETRYABLE_FAILURE
      else if negb (retryable failureCode) then DeadLetter NON_RETRYABLE_FAILURE
      else if SYNC_MAX_ATTEMPTS <=? attempt then DeadLetter ATTEMPTS_EXHAUSTED
      else
        let exponentialDelay :=
          Z.min (RETRY_BASE_DELAY_SECONDS * 2 ^ (attempt - 1)) RETRY_MAXIMUM_DELAY_SECONDS in
        match retryAfterSeconds with
        | None => Retry (Z.max exponentialDelay 0)
        | Some after =>
            match safe_integer after with
            | None => DeadLetter RETRY_AFTER_EXCEEDS_BOUND
            | Some after =>
                if (after <? 0) || (RETRY_MAXIMUM_DELAY_SECONDS <? after)
                then DeadLetter RETRY_AFTER_EXCEEDS_BOUND
                else Retry (Z.max exponentialDelay after)
            end
        end
  end.

Definition balanceSyncTierThreshold (networkId t : string) : option BalanceSyncTierThreshold :=
  policy ← chainObservationPolicyForNetwork networkId;
  rule ← observationTierRule networkId t;
  Some {| th_networkId := pol_networkId policy; th_tier := rule_tier rule; th_selector := rule_selector rule;
          th_state := rule_state rule;
          th_locallyExecutable :=
            String.eqb (enum_str (rule_tier rule)) (enum_str LOCAL_EXECUTABLE_TIER)
            && match rule_state rule with ALLOWED => true | _ => false end |}.

(** The indexer's own failures: what the constructor of [BalanceSyncIndexerFailure]
    accepts; [options] is a value of any kind, no proxy. *)
Definition INDEXER_FAILURE_CODES : list BalanceSyncFailureCode :=
  [RATE_LIMITED; PROVIDER_TIMEOUT; PROVIDER_UNAVAILABLE; PROVIDER_INVALID_DATA; PERMANENT_PROVIDER_FAILURE;
   REORG_RECOVERY_FAILED].

Definition snapshotBalanceSyncIndexerFailureConstruction (code options : jsval)
    : option (BalanceSyncFailureCode * option Z) :=
  code ← enum_member INDEXER_FAILURE_CODES code;
  descriptors ← plain_descriptors options;
  match descriptors with
  | [] => Some (code, None)
  | [(KStr key, DData value true)] =>
      if negb (String.eqb key "retryAfterSeconds") then None
      else
        match value with
        | VUndef => Some (code, None)
        | _ =>
            seconds ← safe_integer value;
            if seconds <? 0 then None else Some (code, Some seconds)
        end
  | _ => None
  end.

(** ** Observations *)

Record BalanceSyncPosition : Type := {
  pos_positionId : string;
  pos_stablecoin : string;
  pos_assetIdentity : string;
  pos_amountAtomic : string;
}.

Record observation_source : Type := {
  src_position : string;
  src_hash : string;
  src_parentHash : string;
  src_selector : string;
}.

Definition between (lo hi : Z) (s : string) : bool := (lo <=? strlen s) && (strlen s <=? hi).

Definition canonical_position (p : BalanceSyncPosition) : option (list string) :=
  if negb (HEX64_PATTERN (pos_positionId p)) || negb (between 16 64 (pos_assetIdentity p))
     || negb (existsb (String.eqb (pos_stablecoin p)) ["USDC"; "USDT"; "PYUSD"])
  then None
  else
    amount ← normalizeBalanceSyncPosition (pos_amountAtomic p);
    Some [pos_positionId p; pos_stablecoin p; pos_assetIdentity p; amount].

(** [fields.join('\0')] *)
Definition join0 (fields : list string) : string := String.concat (String zero "") fields.

Definition compare_positions (a b : list string) : Z := compareCanonical (join0 a) (join0 b).

Definition position_json (fields : list string) : json := JArray (JString <$> fields).

(** The positions in canonical order; no two of one identifier or one asset. *)
Definition canonical_positions (positions : list BalanceSyncPosition) : option (list (list string)) :=
  if MAXIMUM_POSITIONS_PER_OBSERVATION <? Z.of_nat (length positions) then None
  else
    mapped ← mapM canonical_position positions;
    let canonicalPositions := js_sort compare_positions mapped in
    if negb (set_size ((fun fields => nth 0 fields "") <$> canonicalPositions) =? length canonicalPositions)%nat
       || negb (set_size ((fun fields => nth 2 fields "") <$> canonicalPositions) =? length canonicalPositions)%nat
    then None
    else Some canonicalPositions.

Definition observation_parts (accountId walletId networkId t sourcePosition : string) (source : observation_source)
    (canonicalPositions : list (list string)) : list string :=
  [accountId; walletId; networkId; t; sourcePosition; src_hash source; src_parentHash source;
   src_selector source; stringify (JArray (position_json <$> canonicalPositions))].

Definition OBSERVATION_DOMAIN : string := "crypto-lending:balance-sync-observation:v1".

Definition createBalanceSyncObservationId (accountId walletId networkId t : string) (source : observation_source)
    (positions : list BalanceSyncPosition) : option string :=
  if negb (UUID_V4_PATTERN accountId) || negb (UUID_V4_PATTERN walletId) then None
  else
    threshold ← balanceSyncTierThreshold networkId t;
    if negb (String.eqb (enum_str (th_selector threshold)) (src_selector source)) then None
    else
      sourcePosition ← normalizeBalanceSyncPosition (src_position source);
      if negb (between 16 128 (src_hash source)) || negb (between 16 128 (src_parentHash source))
      then None
      else
        canonicalPositions ← canonical_positions positions;
        Some (digest OBSERVATION_DOMAIN
          (JString <$> observation_parts accountId walletId networkId t sourcePosition source canonicalPositions)).
End envelopes.

(** ** Lemmas: payloads *)

Lemma enum_member_all {A} `{JsEnum A} v (a : A) : enum_member enum_values v = Some a <-> v = VStr (enum_str a).
Proof.
  rewrite enum_member_spec. split; [by intros [_ ?]|]. intros ->. split; [apply enum_values_all | done].
Qed.

Lemma uuid_text_ok v s : uuid_text v = Some s <-> v = VStr s /\ UUID_V4_PATTERN s = true.
Proof.
  split.
  - destruct v; try done. unfold uuid_text. destruct (UUID_V4_PATTERN s0) eqn:E; [by intros [= ->] | done].
  - intros [-> H]. unfold uuid_text. by rewrite H.
Qed.

(** The positions are the canonical numerals of the 256-bit integers. *)
Lemma sync_position_ok s t : normalizeBalanceSyncPosition s = Some t <->
  t = s /\ UNSIGNED_INTEGER_PATTERN s = true /\ BigInt s <= MAX_UINT256.
Proof.
  assert (POSITIVE_INTEGER_PATTERN MAX_UINT256_TEXT = true) as Hmax by reflexivity.
  assert (BigInt MAX_UINT256_TEXT = MAX_UINT256) as Hval by (vm_compute; reflexivity).
  unfold normalizeBalanceSyncPosition.
  destruct (UNSIGNED_INTEGER_PATTERN s) eqn:Hp; cbn [negb orb]; [|by split; [|intros (_ & ? & _)]].
  pose proof (exceeds_decimal_spec MAX_UINT256_TEXT s Hmax Hp) as He. rewrite Hval in He.
  destruct (exceeds_decimal MAX_UINT256_TEXT s) eqn:E.
  - rewrite orb_true_r. split; [done|]. intros (_ & _ & Hle). by apply He in Hle.
  - rewrite orb_false_r. assert ((78 <? strlen s) = false) as ->.
    { unfold exceeds_decimal in E. apply orb_false_iff in E as [E _]. exact E. }
    split; [intros [= <-]; by split_and!; [..|apply He] | by intros (-> & _)].
Qed.

Definition payload_wf (p : BalanceSyncJobPayload) : Prop :=
  UUID_V4_PATTERN (bs_accountId p) = true /\ UUID_V4_PATTERN (bs_walletId p) = true /\
  is_Some (chainObservationPolicyForNetwork (bs_networkId p)) /\
  1 <= bs_attempt p <= SYNC_MAX_ATTEMPTS /\
  (forall s, bs_rescanFromPosition p = Some s -> normalizeBalanceSyncPosition s = Some s) /\
  cause_consistent (bs_cause p) (bs_attempt p) (bs_rescanFromPosition p) = true.

Lemma rescan_position_ok v r : rescan_position v = Ok r <->
  v = js_nullable r /\ forall s, r = Some s -> normalizeBalanceSyncPosition s = Some s.
Proof.
  split.
  - destruct v; try done; cbn [rescan_position]; [by intros [= <-]|].
    destruct (normalizeBalanceSyncPosition s) as [t|] eqn:E; [|done]. intros [= <-].
    pose proof E as E'. apply sync_position_ok in E' as (-> & _). split; [done|]. by intros ? [= <-].
  - intros [-> H]. destruct r as [s|]; [|done]. cbn. by rewrite (H s).
Qed.

Lemma payload_fields_ok record fields rescan : payload_fields record = Some fields ->
  record .: "schemaVersion" = VNum (JInt BALANCE_SYNC_PAYLOAD_VERSION) /\
  record .: "accountId" = VStr (bs_accountId (fields rescan)) /\ UUID_V4_PATTERN (bs_accountId (fields rescan)) = true /\
  record .: "walletId" = VStr (bs_walletId (fields rescan)) /\ UUID_V4_PATTERN (bs_walletId (fields rescan)) = true /\
  record .: "networkId" = VStr (bs_networkId (fields rescan)) /\
  is_Some (chainObservationPolicyForNetwork (bs_networkId (fields rescan))) /\
  record .: "requiredTier" = VStr (enum_str (bs_requiredTier (fields rescan))) /\
  record .: "cause" = VStr (enum_str (bs_cause (fields rescan))) /\
  record .: "attempt" = VNum (JInt (bs_attempt (fields rescan))) /\
  1 <= bs_attempt (fields rescan) <= SYNC_MAX_ATTEMPTS /\
  bs_rescanFromPosition (fields rescan) = rescan.
Proof.
  unfold payload_fields. destruct (is_int _ _) eqn:Ev; [|done]. cbn [negb]. intros H.
  apply bind_Some in H as (a & [Ea Ha]%uuid_text_ok & H). apply bind_Some in H as (w & [Ew Hw]%uuid_text_ok & H).
  apply bind_Some in H as (policy & Hpol & H). apply bind_Some in H as (t & Et%enum_member_all & H).
  apply bind_Some in H as (c & Ec%enum_member_all & H). apply bind_Some in H as (n & En & H).
  destruct (_ || _) eqn:Eb; [done|]. injection H as <-. bsimpl. cbn.
  destruct (record .: "networkId") as [| | | | |networkId| | | | | |]; try done.
  pose proof (policy_of_network _ _ Hpol) as [<- _].
  assert (record .: "attempt" = VNum (JInt n)) as ->.
  { unfold safe_integer in En. destruct (record .: "attempt") as [| | |[z| |]| | | | | | | |]; try done.
    destruct (_ <=? _); [by injection En as ->|done]. }
  split_and!; try done.
  destruct (record .: "schemaVersion") as [| | |[z| |]| | | | | | | |]; try done. cbn in Ev. by apply Z.eqb_eq in Ev as ->.
Qed.

Lemma parse_payload_wf v p : parseBalanceSyncPayload v = Ok p -> payload_wf p.
Proof.
  unfold parseBalanceSyncPayload. intros H. inv_ok. subst.
  destruct (payload_fields_ok _ _ r1 Hr0) as (_ & _ & ? & _ & ? & _ & ? & _ & _ & _ & ? & E).
  apply rescan_position_ok in Hr1 as [_ Hr1]. apply negb_false_iff in Hg.
  split_and!; rewrite ?E; try done; lia.
Qed.

(** A payload is read back from its object. *)
Lemma parse_payload_js p : payload_wf p -> parseBalanceSyncPayload (payload_js p) = Ok p.
Proof.
  intros (Ha & Hw & [policy Hn] & Hat & Hr & Hc). unfold parseBalanceSyncPayload, PAYLOAD_KEYS, payload_js. read_record.
  unfold payload_fields. read_fields. cbn [is_int]. rewrite Z.eqb_refl. cbn [negb uuid_text].
  rewrite Ha, Hw, Hn. cbn [mbind option_bind]. rewrite !enum_member_str. cbn [mbind option_bind].
  assert (safe_integer (VNum (JInt (bs_attempt p))) = Some (bs_attempt p)) as ->.
  { unfold safe_integer. rewrite (proj2 (Z.leb_le _ _)); [done|]. unfold SYNC_MAX_ATTEMPTS, READS_MAX_ATTEMPTS in Hat.
    unfold MAX_SAFE_INTEGER. lia. }
  cbn [mbind option_bind]. rewrite (proj2 (Z.ltb_ge _ _)), (proj2 (Z.ltb_ge _ _)) by lia. cbn [orb or_throw rbind].
  rewrite (proj2 (rescan_position_ok _ (bs_rescanFromPosition p))) by done. cbn [rbind bs_cause bs_attempt].
  rewrite Hc. cbn [negb]. pose proof (policy_of_network _ _ Hn) as [-> _]. by destruct p.
Qed.

(** ** Lemmas: envelopes *)

Lemma trim_no_space s : all_chars (fun c => negb (is_js_space c)) s = true -> trim s = s.
Proof.
  intros H. unfold trim. assert (trim_start s = s) as ->.
  { destruct s as [|c s]; [done|]. cbn in *. apply andb_true_iff in H as [H _]. apply negb_true_iff in H. by rewrite H. }
  induction s as [|c s IH]; [done|]. cbn [trim_end all_chars] in *. apply andb_true_iff in H as [Hc H].
  rewrite IH by done. destruct s; [|done]. apply negb_true_iff in Hc. by rewrite Hc.
Qed.

Lemma hex_no_space s : all_chars is_hex s = true -> all_chars (fun c => negb (is_js_space c)) s = true.
Proof. apply all_chars_impl. intros c. destruct c as [[] [] [] [] [] [] [] []]; done. Qed.

Section retries.
Context (sha256 : string -> string) (Hhex : forall m, HEX64_PATTERN (sha256 m) = true).

Lemma retry_id_valid parentId attempt :
  isValidOpaqueId (VStr (retry_id sha256 parentId attempt)) = Some (retry_id sha256 parentId attempt).
Proof.
  unfold retry_id, digest. set (hash := sha256 _). assert (HEX64_PATTERN hash = true) as Hm by apply Hhex.
  apply matches_all in Hm as [Hl Hm]. unfold isValidOpaqueId.
  assert (strlen ("balance-sync:" +:+ hash) = 77) as ->.
  { rewrite strlen_append. unfold strlen at 2. by rewrite Hl. }
  rewrite trim_no_space, String.eqb_refl; [done|].
  by rewrite all_chars_append, (hex_no_space hash).
Qed.

(** What the options of a deterministic job give. *)
Lemma create_explicit active uuid uuid' now p id occurredAt c e :
  payload_wf p -> isValidOpaqueId (VStr id) = Some id -> is_Some (canonical_time occurredAt) -> correlation_ok c ->
  match active with
  | None => True
  | Some context => parseCorrelationContext (correlation_object context) = Some c
  end ->
  createDeterministicBalanceSyncJobEnvelope active uuid uuid' now (payload_js p) id occurredAt c = Ok e <->
  e = {| bse_envelope := {| env_id := id; env_kind := BALANCE_SYNC_JOB_KIND; env_version := BALANCE_SYNC_JOB_VERSION;
           env_occurredAt := occurredAt; env_correlation := c; env_payload := payload_js p |};
         bse_payload := p |}.
Proof.
  intros Hp Hid Ht Hc Hactive. unfold createDeterministicBalanceSyncJobEnvelope. rewrite parse_payload_js by done.
  cbn [rbind]. unfold createJobEnvelope.
  match goal with |- context [parseCreateOptions (js_object ?kvs)] => change (parseCreateOptions (js_object kvs))
    with (Some {| opt_id := VStr id; opt_version := VNum (JInt BALANCE_SYNC_JOB_VERSION);
                  opt_occurredAt := VStr occurredAt; opt_correlation := correlation_object c |}) end.
  cbn [or_throw rbind opt_id opt_version opt_occurredAt opt_correlation is_undefined].
  change (trim BALANCE_SYNC_JOB_KIND) with BALANCE_SYNC_JOB_KIND. cbn [String.eqb Ascii.eqb Bool.eqb].
  change (MAX_JOB_KIND_LENGTH <? strlen BALANCE_SYNC_JOB_KIND) with false.
  change (valid_version (VNum (JInt BALANCE_SYNC_JOB_VERSION))) with (Some 1). cbn [or_throw rbind].
  rewrite Hid. cbn [or_throw rbind]. rewrite (proj2 (iso_timestamp_ok _ occurredAt)) by done. cbn [or_throw rbind].
  change (is_undefined (correlation_object c)) with false. cbv iota.
  assert ((let* inherited := currentJobCorrelationContext active in
    match inherited with
    | Some inherited =>
        let* correlation := or_throw (parseCorrelationContext (correlation_object inherited)) INVALID_CORRELATION in
        let* explicit := or_throw (parseCorrelationContext (correlation_object c)) INVALID_CORRELATION in
        reject CORRELATION_MISMATCH when negb (correlationContextsEqual correlation explicit) in Ok correlation
    | None => or_throw (parseCorrelationContext (correlation_object c)) INVALID_CORRELATION
    end) = Ok c) as Hcorr.
  { rewrite parseCorrelation_object by done. destruct active as [context|]; [|done].
    unfold currentJobCorrelationContext. rewrite Hactive. cbn [or_throw rbind].
    rewrite parseCorrelation_object by done. cbn [or_throw rbind].
    assert (correlationContextsEqual c c = true) as ->; [|done].
    apply forallb_forall. intros k _. by apply bool_decide_eq_true_2. }
  destruct (currentJobCorrelationContext active) as [inherited|]; [|done]. cbn [rbind] in *. rewrite Hcorr.
  cbn [rbind rlift rcatch]. split; [by intros [= <-] | by intros ->].
Qed.

Lemma parse_sync_envelope v e : parseBalanceSyncJobEnvelope sha256 v = Some e ->
  payload_wf (bse_payload e) /\ envelope_wf (bse_envelope e) /\
  env_kind (bse_envelope e) = BALANCE_SYNC_JOB_KIND /\ env_version (bse_envelope e) = BALANCE_SYNC_JOB_VERSION /\
  env_payload (bse_envelope e) = payload_js (bse_payload e).
Proof.
  unfold parseBalanceSyncJobEnvelope. intros H. apply bind_Some in H as (env & He & H).
  destruct (_ || _) eqn:Eb; [done|]. apply bind_Some in H as (p & Hp & [= <-]). bsimpl.
  apply String.eqb_eq in H. destruct (parseBalanceSyncPayload _) as [p'|] eqn:Epp; [|done]. injection Hp as <-.
  apply parse_payload_wf in Epp. apply parseJobEnvelope_wf in He; [|done]. destruct He as (? & ? & ? & ? & ?).
  by split_and!.
Qed.

(** A synchronisation envelope is read back from its object. *)
Lemma parse_sync_envelope_js e : payload_wf (bse_payload e) -> envelope_wf (bse_envelope e) ->
  env_kind (bse_envelope e) = BALANCE_SYNC_JOB_KIND -> env_version (bse_envelope e) = BALANCE_SYNC_JOB_VERSION ->
  env_payload (bse_envelope e) = payload_js (bse_payload e) ->
  parseBalanceSyncJobEnvelope sha256 (envelope_js (bse_envelope e)) = Some e.
Proof.
  intros Hp He Hk Hv Hpl. unfold parseBalanceSyncJobEnvelope. rewrite parse_envelope_js by done. cbn [mbind option_bind].
  rewrite Hk, Hv, String.eqb_refl, Z.eqb_refl. cbn [negb orb]. rewrite Hpl, parse_payload_js by done.
  cbn [to_option mbind option_bind]. rewrite <- Hk, <- Hv, <- Hpl. by destruct e as [[] ?].
Qed.

Lemma retry_payload_wf p : payload_wf p -> bs_attempt p + 1 <= SYNC_MAX_ATTEMPTS -> payload_wf (retry_payload p).
Proof.
  intros (? & ? & ? & ? & ? & ?) Hle. split_and!; cbn; try done; [lia|]. apply Z.leb_le. lia.
Qed.

(** The retry of a job whose attempts are not exhausted. *)
Lemma retry_envelope active uuid uuid' now parent pe occurredAt :
  parseBalanceSyncJobEnvelope sha256 parent = Some pe -> bs_attempt (bse_payload pe) < SYNC_MAX_ATTEMPTS ->
  is_Some (canonical_time occurredAt) ->
  match active with
  | None => True
  | Some context => parseCorrelationContext (correlation_object context) = Some (env_correlation (bse_envelope pe))
  end ->
  exists e, createBalanceSyncRetryEnvelope sha256 active uuid uuid' now parent occurredAt = Ok e /\
    bse_payload e = retry_payload (bse_payload pe) /\
    env_id (bse_envelope e) = retry_id sha256 (env_id (bse_envelope pe)) (bs_attempt (bse_payload pe) + 1) /\
    env_occurredAt (bse_envelope e) = occurredAt /\
    env_correlation (bse_envelope e) = env_correlation (bse_envelope pe) /\
    parseBalanceSyncJobEnvelope sha256 (envelope_js (bse_envelope e)) = Some e.
Proof.
  intros Hpe Hlt Ht Hactive. pose proof (parse_sync_envelope _ _ Hpe) as (Hp & He & _ & _ & _).
  unfold createBalanceSyncRetryEnvelope. rewrite Hpe. cbn [or_throw rbind].
  rewrite (proj2 (Z.ltb_ge _ _)) by lia.
  pose proof (retry_payload_wf _ Hp ltac:(lia)) as Hrp.
  pose proof (retry_id_valid (env_id (bse_envelope pe)) (bs_attempt (bse_payload pe) + 1)) as Hid.
  assert (correlation_ok (env_correlation (bse_envelope pe))) as Hc by apply He.
  eexists. split; [by apply create_explicit|]. cbn [bse_payload bse_envelope env_id env_occurredAt env_correlation].
  split_and!; try done. apply (parse_sync_envelope_js {| bse_envelope := _; bse_payload := _ |}); try done.
Qed.
End retries.

(** ** Retries *)

(** The disposition is a retry exactly in these circumstances. *)
Lemma decide_retry code attempt after d :
  decideBalanceSyncFailureDisposition code (VNum (JInt attempt)) after = Retry d <->
  retryable code = true /\ 1 <= attempt < SYNC_MAX_ATTEMPTS /\
  exists wait, (after = None /\ wait = 0 \/ after = Some (VNum (JInt wait)) /\ 0 <= wait <= RETRY_MAXIMUM_DELAY_SECONDS) /\
    d = Z.max (RETRY_BASE_DELAY_SECONDS * 2 ^ (attempt - 1)) wait.
Proof.
  assert (forall a, 1 <= a < SYNC_MAX_ATTEMPTS -> Z.min (RETRY_BASE_DELAY_SECONDS * 2 ^ (a - 1)) RETRY_MAXIMUM_DELAY_SECONDS
    = RETRY_BASE_DELAY_SECONDS * 2 ^ (a - 1)) as Hmin.
  { intros a Ha. unfold SYNC_MAX_ATTEMPTS, READS_MAX_ATTEMPTS in Ha. assert (a = 1 \/ a = 2) as [-> | ->] by lia; done. }
  unfold decideBalanceSyncFailureDisposition. split.
  - destruct (safe_integer (VNum (JInt attempt))) as [n|] eqn:En; [|done].
    assert (n = attempt) as -> by (unfold safe_integer in En; destruct (_ <=? _); congruence).
    destruct (_ || _) eqn:Eb; [done|]. destruct (retryable code); [|done]. cbn [negb].
    destruct (Z.leb_spec SYNC_MAX_ATTEMPTS attempt); [done|]. bsimpl. rewrite Hmin by lia.
    intros H'. split; [done|]. split; [lia|]. destruct after as [v|]; [|injection H' as <-; exists 0; auto].
    destruct (safe_integer v) as [w|] eqn:Ew; [|done]. destruct (_ || _) eqn:Eb'; [done|]. injection H' as <-. bsimpl.
    exists w. split; [|done]. right. split; [|done].
    unfold safe_integer in Ew. destruct v as [| | |[z| |]| | | | | | | |]; try done. destruct (_ <=? _); congruence.
  - intros (Hr & Ha & wait & Hw & ->). pose proof Ha as Ha'. unfold SYNC_MAX_ATTEMPTS, READS_MAX_ATTEMPTS in Ha'.
    assert (safe_integer (VNum (JInt attempt)) = Some attempt) as ->.
    { unfold safe_integer. rewrite (proj2 (Z.leb_le _ _)); [done|]. unfold MAX_SAFE_INTEGER. lia. }
    rewrite (proj2 (Z.ltb_ge _ _)), (proj2 (Z.ltb_ge _ _)), (proj2 (Z.leb_gt SYNC_MAX_ATTEMPTS _)), Hr, Hmin by lia.
    cbn [orb negb]. destruct Hw as [[-> ->] | [-> Hw]]; [done|].
    assert (safe_integer (VNum (JInt wait)) = Some wait) as ->.
    { unfold safe_integer. rewrite (proj2 (Z.leb_le _ _)); [done|]. unfold MAX_SAFE_INTEGER, RETRY_MAXIMUM_DELAY_SECONDS in *. lia. }
    by rewrite (proj2 (Z.ltb_ge _ _)), (proj2 (Z.ltb_ge _ _)) by lia.
Qed.

(** What became of a job: it ran, failed with a code and was answered by a
    retry that runs in turn. *)
Inductive retried (sha256 : string -> string) : jsval -> list (BalanceSyncFailureCode * Z) -> jsval -> Prop :=
| retried_none parent : retried sha256 parent [] parent
| retried_step parent pe code after d active uuid uuid' now occurredAt e failures last :
    parseBalanceSyncJobEnvelope sha256 parent = Some pe ->
    decideBalanceSyncFailureDisposition code (VNum (JInt (bs_attempt (bse_payload pe)))) after = Retry d ->
    createBalanceSyncRetryEnvelope sha256 active uuid uuid' now parent occurredAt = Ok e ->
    retried sha256 (envelope_js (bse_envelope e)) failures last ->
    retried sha256 parent ((code, d) :: failures) last.

(** A job made from a well-formed payload reads back. *)
Lemma create_reads_back sha256 active uuid uuid' now p id occurredAt c e :
  (forall m, HEX64_PATTERN (sha256 m) = true) -> payload_wf p ->
  createDeterministicBalanceSyncJobEnvelope active uuid uuid' now (payload_js p) id occurredAt c = Ok e ->
  bse_payload e = p /\ parseBalanceSyncJobEnvelope sha256 (envelope_js (bse_envelope e)) = Some e.
Proof.
  intros Hhex Hp. unfold createDeterministicBalanceSyncJobEnvelope. rewrite parse_payload_js by done. cbn [rbind].
  destruct (createJobEnvelope _ _ _ _ _ _ _) as [env|] eqn:Ee; [|done]. cbn [rlift rcatch rbind]. intros [= <-].
  split; [done|]. pose proof (createJobEnvelope_wf _ _ _ _ _ _ _ _ Ee) as Hwf.
  unfold createJobEnvelope in Ee.
  match type of Ee with context [parseCreateOptions (js_object ?kvs)] => change (parseCreateOptions (js_object kvs))
    with (Some {| opt_id := VStr id; opt_version := VNum (JInt BALANCE_SYNC_JOB_VERSION);
                  opt_occurredAt := VStr occurredAt; opt_correlation := correlation_object c |}) in Ee end.
  cbn [or_throw rbind opt_id opt_version opt_occurredAt opt_correlation is_undefined] in Ee.
  change (trim BALANCE_SYNC_JOB_KIND) with BALANCE_SYNC_JOB_KIND in Ee.
  change (valid_version (VNum (JInt BALANCE_SYNC_JOB_VERSION))) with (Some 1) in Ee. cbn [or_throw rbind] in Ee.
  inv_ok. subst env. by apply parse_sync_envelope_js.
Qed.

(** Creating a retry parses its parent and counts one attempt more. *)
Lemma retry_created sha256 active uuid uuid' now parent occurredAt e :
  (forall m, HEX64_PATTERN (sha256 m) = true) ->
  createBalanceSyncRetryEnvelope sha256 active uuid uuid' now parent occurredAt = Ok e ->
  exists pe, parseBalanceSyncJobEnvelope sha256 parent = Some pe /\
    bs_attempt (bse_payload pe) < SYNC_MAX_ATTEMPTS /\
    bse_payload e = retry_payload (bse_payload pe) /\
    parseBalanceSyncJobEnvelope sha256 (envelope_js (bse_envelope e)) = Some e.
Proof.
  intros Hhex H. unfold createBalanceSyncRetryEnvelope in H.
  destruct (parseBalanceSyncJobEnvelope sha256 parent) as [pe|] eqn:Hpe; [|done]. cbn [or_throw rbind] in H.
  destruct (Z.ltb_spec SYNC_MAX_ATTEMPTS (bs_attempt (bse_payload pe) + 1)); [done|].
  pose proof (parse_sync_envelope _ Hhex _ _ Hpe) as (Hp & _). exists pe. split; [done|]. split; [lia|].
  by eapply create_reads_back; [| apply retry_payload_wf |].
Qed.

(** A failure the policy answers with a retry has one: under any clock and in the
    correlation of its parent (or no active context) the retry envelope is created,
    for the same account, wallet, network, tier and rescan position, one attempt
    later, and a worker parses it back from the message; the delay is within
    5 and 60 seconds.  Every other disposition of a parsed job is final. *)
Theorem retry_carried_out sha256 active uuid uuid' now parent pe code after occurredAt :
  (forall m, HEX64_PATTERN (sha256 m) = true) -> parseBalanceSyncJobEnvelope sha256 parent = Some pe ->
  is_Some (canonical_time occurredAt) ->
  match active with
  | None => True
  | Some context => parseCorrelationContext (correlation_object context) = Some (env_correlation (bse_envelope pe))
  end ->
  match decideBalanceSyncFailureDisposition code (VNum (JInt (bs_attempt (bse_payload pe)))) after with
  | Retry d => RETRY_BASE_DELAY_SECONDS <= d <= RETRY_MAXIMUM_DELAY_SECONDS /\ exists e,
      createBalanceSyncRetryEnvelope sha256 active uuid uuid' now parent occurredAt = Ok e /\
      bse_payload e = retry_payload (bse_payload pe) /\
      env_correlation (bse_envelope e) = env_correlation (bse_envelope pe) /\
      parseBalanceSyncJobEnvelope sha256 (envelope_js (bse_envelope e)) = Some e
  | DeadLetter ATTEMPTS_EXHAUSTED => createBalanceSyncRetryEnvelope sha256 active uuid uuid' now parent occurredAt
      = Err INVALID_BALANCE_SYNC_JOB
  | DeadLetter NON_RETRYABLE_FAILURE => retryable code = false
  | DeadLetter RETRY_AFTER_EXCEEDS_BOUND => exists v, after = Some v /\
      forall s, safe_integer v = Some s -> s < 0 \/ RETRY_MAXIMUM_DELAY_SECONDS < s
  end.
Proof.
  intros Hhex Hpe Ht Ha. destruct (decideBalanceSyncFailureDisposition _ _ _) as [d|reason] eqn:E.
  - apply decide_retry in E as (_ & Hn & wait & Hw & ->). unfold SYNC_MAX_ATTEMPTS, READS_MAX_ATTEMPTS in Hn. split.
    + unfold RETRY_BASE_DELAY_SECONDS, RETRY_MAXIMUM_DELAY_SECONDS in *.
      assert (bs_attempt (bse_payload pe) = 1 \/ bs_attempt (bse_payload pe) = 2) as [-> | ->] by lia; cbn; lia.
    + destruct (retry_envelope sha256 Hhex active uuid uuid' now parent pe occurredAt Hpe) as (e & ? & ? & _ & _ & ? & ?);
        try done; [|by exists e]. unfold SYNC_MAX_ATTEMPTS, READS_MAX_ATTEMPTS. lia.
  - pose proof (parse_sync_envelope _ Hhex _ _ Hpe) as ((_ & _ & _ & Hat & _) & _).
    assert (safe_integer (VNum (JInt (bs_attempt (bse_payload pe)))) = Some (bs_attempt (bse_payload pe))) as Hs.
    { unfold safe_integer. rewrite (proj2 (Z.leb_le _ _)); [done|].
      unfold MAX_SAFE_INTEGER, SYNC_MAX_ATTEMPTS, READS_MAX_ATTEMPTS in *. lia. }
    unfold decideBalanceSyncFailureDisposition in E. rewrite Hs in E.
    rewrite (proj2 (Z.ltb_ge _ _)), (proj2 (Z.ltb_ge _ _)) in E by lia. cbn [orb] in E.
    destruct (retryable code); [|by injection E as <-]. cbn [negb] in E.
    destruct (Z.leb_spec SYNC_MAX_ATTEMPTS (bs_attempt (bse_payload pe))).
    { injection E as <-. unfold createBalanceSyncRetryEnvelope. rewrite Hpe. cbn [or_throw rbind].
      by rewrite (proj2 (Z.ltb_lt _ _)) by lia. }
    destruct after as [v|]; [|done]. destruct (safe_integer v) as [w|] eqn:Ew.
    + destruct (_ || _) eqn:Eb; [|done]. injection E as <-. exists v. split; [done|]. intros s.
      rewrite Ew. intros [= <-]. bsimpl. lia.
    + injection E as <-. exists v. split; [done|]. by rewrite Ew.
Qed.

(** C20: a job is retried at most twice: however its failures are answered, the
    attempts left bound the chain, and what runs last still belongs to the wallet
    and the network of the first. *)
Theorem retries_bounded sha256 parent failures last :
  (forall m, HEX64_PATTERN (sha256 m) = true) -> retried sha256 parent failures last ->
  forall pe, parseBalanceSyncJobEnvelope sha256 parent = Some pe ->
  Forall (fun fd => retryable fd.1 = true) failures /\
  exists le, parseBalanceSyncJobEnvelope sha256 last = Some le /\
    bs_attempt (bse_payload le) = bs_attempt (bse_payload pe) + Z.of_nat (length failures) /\
    Z.of_nat (length failures) <= SYNC_MAX_ATTEMPTS - bs_attempt (bse_payload pe) /\
    bs_accountId (bse_payload le) = bs_accountId (bse_payload pe) /\
    bs_walletId (bse_payload le) = bs_walletId (bse_payload pe) /\
    bs_networkId (bse_payload le) = bs_networkId (bse_payload pe) /\
    bs_requiredTier (bse_payload le) = bs_requiredTier (bse_payload pe) /\
    bs_rescanFromPosition (bse_payload le) = bs_rescanFromPosition (bse_payload pe).
Proof.
  intros Hhex H. induction H as [parent|parent pe' code after d active uuid uuid' now occurredAt e failures last Hpe' Hd He H IH];
    intros pe Hpe.
  - split; [done|]. exists pe. pose proof (parse_sync_envelope _ Hhex _ _ Hpe) as ((_ & _ & _ & Hat & _) & _).
    cbn [length]. split_and!; try done; lia.
  - pose proof He as He'. apply retry_created in He' as (pe'' & Hpe'' & Hlt & Hp & Hback); [|done].
    rewrite Hpe in Hpe', Hpe''. injection Hpe' as <-. injection Hpe'' as <-.
    destruct (IH e Hback) as (Hf & le & Hle & Hn & Hb & Hrest). rewrite Hp in *. cbn in Hn, Hb, Hrest.
    split; [constructor; [|done]; by apply decide_retry in Hd as (? & _)|]. exists le. split; [done|].
    cbn [length]. split_and!; try apply Hrest; lia.
Qed.

(** ** Observation identifiers *)

Definition position_fields (p : BalanceSyncPosition) : list string :=
  [pos_positionId p; pos_stablecoin p; pos_assetIdentity p; pos_amountAtomic p].

Lemma canonical_position_ok p fields : canonical_position p = Some fields ->
  fields = position_fields p /\ HEX64_PATTERN (pos_positionId p) = true.
Proof.
  unfold canonical_position. destruct (_ || _) eqn:E; [done|]. bsimpl. intros Hc.
  apply bind_Some in Hc as (amount & (-> & _)%sync_position_ok & [= <-]). done.
Qed.

Lemma canonical_positions_ok ps cps : canonical_positions ps = Some cps ->
  cps = js_sort compare_positions (position_fields <$> ps) /\
  Forall (fun p => HEX64_PATTERN (pos_positionId p) = true) ps /\ NoDup (pos_positionId <$> ps).
Proof.
  unfold canonical_positions. destruct (_ <? _); [done|]. intros H. apply bind_Some in H as (mapped & Hm & H).
  assert (mapped = position_fields <$> ps /\ Forall (fun p => HEX64_PATTERN (pos_positionId p) = true) ps) as [-> Hhex].
  { apply mapM_Some_1 in Hm. clear H. induction Hm as [|p fields ps mapped Hp Hm IH]; [by split; [|constructor]|].
    apply canonical_position_ok in Hp as [-> ?]. destruct IH as [-> ?]. by split; [|constructor]. }
  destruct (_ || _) eqn:E; [done|]. injection H as <-. bsimpl. split; [done|]. split; [done|].
  apply Nat.eqb_eq in H. rewrite <- (length_fmap (fun fields => nth 0 fields "")) in H.
  apply set_size_NoDup in H. rewrite js_sort_perm in H. by rewrite <- list_fmap_compose in H.
Qed.

Lemma join0_first p q : HEX64_PATTERN (pos_positionId p) = true -> HEX64_PATTERN (pos_positionId q) = true ->
  join0 (position_fields p) = join0 (position_fields q) -> pos_positionId p = pos_positionId q.
Proof.
  intros Hp Hq H. apply matches_all in Hp as [Hp _], Hq as [Hq _]. unfold join0, position_fields in H. cbn [String.concat] in H.
  apply string_app_inj in H as [H _]; [done|]. unfold strlen. by rewrite Hp, Hq.
Qed.

(** The canonical order forgets the order the positions came in. *)
Lemma canonical_positions_perm ps ps' cps cps' :
  canonical_positions ps = Some cps -> canonical_positions ps' = Some cps' -> ps ≡ₚ ps' -> cps = cps'.
Proof.
  intros (-> & Hhex & Hnd)%canonical_positions_ok (-> & _)%canonical_positions_ok Hperm.
  apply (canonical_sort_perm join0); [by rewrite Hperm|]. rewrite Forall_forall in Hhex.
  intros fa fb (a & -> & Ha)%list_elem_of_fmap_1 (b & -> & Hb)%list_elem_of_fmap_1 H. f_equal.
  eapply NoDup_fmap_inj; [exact Hnd | done | done |]. by apply join0_first; [apply Hhex .. |].
Qed.

Lemma canonical_positions_inj ps ps' cps :
  canonical_positions ps = Some cps -> canonical_positions ps' = Some cps -> ps ≡ₚ ps'.
Proof.
  intros (-> & _)%canonical_positions_ok (H & _)%canonical_positions_ok.
  assert (position_fields <$> ps ≡ₚ position_fields <$> ps') as Hperm
    by (rewrite <- (js_sort_perm compare_positions), H; apply js_sort_perm).
  apply (fmap_Permutation (fun fields => {| pos_positionId := nth 0 fields ""; pos_stablecoin := nth 1 fields "";
    pos_assetIdentity := nth 2 fields ""; pos_amountAtomic := nth 3 fields "" |})) in Hperm.
  rewrite <- !list_fmap_compose in Hperm. rewrite (list_fmap_ext _ id ps), (list_fmap_ext _ id ps'), !list_fmap_id in Hperm;
    [done | by intros _ [] _ ..].
Qed.

(** The bytes an observation's identifier is the hash of. *)
Definition observation_message (parts : list string) : string :=
  utf8 (stringify (JArray (JString <$> (OBSERVATION_DOMAIN :: parts)))).

Lemma strings_wf l : json_wf (JArray (JString <$> l)).
Proof. induction l; cbn in *; tauto. Qed.

Lemma strings_inj l l' : JArray (JString <$> l) = JArray (JString <$> l') -> l = l'.
Proof. intros [= H]. eapply list_fmap_eq_inj; [|exact H]. by intros ? ? [= ->]. Qed.

Lemma observation_message_inj parts parts' : observation_message parts = observation_message parts' -> parts = parts'.
Proof.
  intros H. apply utf8_inj, stringify_inj in H; [|apply strings_wf ..]. apply strings_inj in H. by injection H.
Qed.

Lemma positions_json_inj cps cps' :
  stringify (JArray (position_json <$> cps)) = stringify (JArray (position_json <$> cps')) -> cps = cps'.
Proof.
  assert (forall l, json_wf (JArray (position_json <$> l))) as Hwf.
  { intros l. induction l as [|fields l IH]; cbn in *; [done|]. split; [|apply IH]. apply (strings_wf fields). }
  intros [= H]%stringify_inj; [|apply Hwf ..]. eapply list_fmap_eq_inj; [|exact H].
  intros a b Hab. by apply strings_inj.
Qed.

Lemma observation_id_ok sha256 a w n t s ps h : createBalanceSyncObservationId sha256 a w n t s ps = Some h ->
  exists cps, canonical_positions ps = Some cps /\
    h = sha256 (observation_message (observation_parts a w n t (src_position s) s cps)).
Proof.
  unfold createBalanceSyncObservationId. destruct (_ || _); [done|]. intros H. apply bind_Some in H as (th & _ & H).
  destruct (negb _); [done|]. apply bind_Some in H as (p & (-> & _)%sync_position_ok & H). destruct (_ || _); [done|].
  apply bind_Some in H as (cps & Hcps & [= <-]). by exists cps.
Qed.

Lemma observation_id_hash sha256 a w n t s ps :
  createBalanceSyncObservationId sha256 a w n t s ps = sha256 <$> createBalanceSyncObservationId id a w n t s ps.
Proof.
  unfold createBalanceSyncObservationId. destruct (_ || _); [done|]. destruct (balanceSyncTierThreshold _ _); [|done]. cbn.
  destruct (negb _); [done|]. destruct (normalizeBalanceSyncPosition _); [|done]. cbn. destruct (_ || _); [done|].
  by destruct (canonical_positions ps).
Qed.

(** C21: an observation's identifier stands for its content: two accepted observations
    whose hashed texts the hash tells apart have one identifier exactly when they
    are of one account, wallet, network, tier and source point and hold the same
    positions, in whatever order each came. *)
Theorem observation_id_identifies sha256 a w n t s ps a' w' n' t' s' ps' m m' :
  createBalanceSyncObservationId id a w n t s ps = Some m ->
  createBalanceSyncObservationId id a' w' n' t' s' ps' = Some m' ->
  collision_free sha256 [m; m'] ->
  createBalanceSyncObservationId sha256 a w n t s ps = createBalanceSyncObservationId sha256 a' w' n' t' s' ps' <->
  a = a' /\ w = w' /\ n = n' /\ t = t' /\ s = s' /\ ps ≡ₚ ps'.
Proof.
  intros Hm Hm' Hcf. rewrite (observation_id_hash _ a), (observation_id_hash _ a'), Hm, Hm'. cbn.
  apply observation_id_ok in Hm as (cps & Hc & ->), Hm' as (cps' & Hc' & ->). unfold id in *. split.
  - intros [= H]. apply Hcf in H; [|set_solver ..]. apply observation_message_inj in H.
    pose proof (f_equal (fun l => nth 8 l "") H) as Hps. apply positions_json_inj in Hps as ->.
    unfold observation_parts in H. injection H as -> -> -> -> Hp Hh Hph Hs.
    split_and!; try done; [destruct s, s'; cbn in *; congruence | by eapply canonical_positions_inj].
  - intros (-> & -> & -> & -> & -> & Hperm). by rewrite (canonical_positions_perm _ _ _ _ Hc Hc' Hperm).
Qed.

(** ** Examples *)

Definition sync_payload_example : BalanceSyncJobPayload :=
  {| bs_accountId := job_uuid "1"; bs_walletId := job_uuid "2"; bs_networkId := "eip155:1";
     bs_requiredTier := PROVISIONAL; bs_cause := SCHEDULED; bs_attempt := 1; bs_rescanFromPosition := None |}.

Definition sync_envelope_example : BalanceSyncJobEnvelope :=
  {| bse_envelope := {| env_id := job_uuid "4"; env_kind := BALANCE_SYNC_JOB_KIND; env_version := 1;
       env_occurredAt := "2026-09-01T00:00:00.000Z"; env_correlation := {[ "correlationId" := job_uuid "5" ]};
       env_payload := payload_js sync_payload_example |};
     bse_payload := sync_payload_example |}.

Definition position_example (digit : ascii) (coin asset amount : string) : BalanceSyncPosition :=
  {| pos_positionId := "000000000000000000000000000000000000000000000000000000000000000" +:+ String digit "";
     pos_stablecoin := coin; pos_assetIdentity := asset; pos_amountAtomic := amount |}.

Definition source_example : observation_source :=
  {| src_position := "19000000"; src_hash := "0x00000000000000aa"; src_parentHash := "0x00000000000000bb";
     src_selector := "latest" |}.

Example sync_envelope_read :
  parseBalanceSyncJobEnvelope job_sha256_example (envelope_js (bse_envelope sync_envelope_example))
  = Some sync_envelope_example.
Proof. vm_compute. reflexivity. Qed.

Example retry_delays :
  decideBalanceSyncFailureDisposition RATE_LIMITED (VNum (JInt 1)) None = Retry 5 /\
  decideBalanceSyncFailureDisposition RATE_LIMITED (VNum (JInt 2)) (Some (VNum (JInt 30))) = Retry 30 /\
  decideBalanceSyncFailureDisposition RATE_LIMITED (VNum (JInt 3)) None = DeadLetter ATTEMPTS_EXHAUSTED /\
  decideBalanceSyncFailureDisposition RATE_LIMITED (VNum (JInt 1)) (Some (VNum (JInt 61)))
    = DeadLetter RETRY_AFTER_EXCEEDS_BOUND /\
  decideBalanceSyncFailureDisposition PROVIDER_INVALID_DATA (VNum (JInt 1)) None = DeadLetter NON_RETRYABLE_FAILURE.
Proof. vm_compute. by split_and!. Qed.

Example observation_rejects_duplicates :
  createBalanceSyncObservationId id (job_uuid "1") (job_uuid "2") "eip155:1" "PROVISIONAL" source_example
    [position_example "1" "USDC" "0x00000000000000cc" "5"; position_example "2" "USDT" "0x00000000000000cc" "7"] = None.
Proof. vm_compute. reflexivity. Qed.

Lemma retry_carried_out_witness : exists e,
  createBalanceSyncRetryEnvelope job_sha256_example None "" "" 0 (envelope_js (bse_envelope sync_envelope_example))
    "2026-09-01T00:00:05.000Z" = Ok e /\ bs_attempt (bse_payload e) = 2 /\
  parseBalanceSyncJobEnvelope job_sha256_example (envelope_js (bse_envelope e)) = Some e.
Proof.
  assert (parseBalanceSyncJobEnvelope job_sha256_example (envelope_js (bse_envelope sync_envelope_example))
    = Some sync_envelope_example) as Hpe by (vm_compute; reflexivity).
  assert (is_Some (canonical_time "2026-09-01T00:00:05.000Z")) as Ht by (vm_compute; eauto).
  destruct (retry_carried_out job_sha256_example None "" "" 0 _ _ PROVIDER_TIMEOUT None "2026-09-01T00:00:05.000Z"
    ltac:(by intros) Hpe Ht I) as (_ & e & He & Hp & _ & Hback).
  exists e. split; [exact He|]. split; [by rewrite Hp | exact Hback].
Defined.

Definition first_retry_example : BalanceSyncJobEnvelope :=
  match createBalanceSyncRetryEnvelope job_sha256_example None "" "" 0
    (envelope_js (bse_envelope sync_envelope_example)) "2026-09-01T00:00:05.000Z" with
  | Ok e => e
  | Err _ => sync_envelope_example
  end.

Lemma retries_bounded_witness :
  exists le, parseBalanceSyncJobEnvelope job_sha256_example (envelope_js (bse_envelope first_retry_example)) = Some le /\
    bs_attempt (bse_payload le) = 2.
Proof.
  assert (parseBalanceSyncJobEnvelope job_sha256_example (envelope_js (bse_envelope sync_envelope_example))
    = Some sync_envelope_example) as Hpe by (vm_compute; reflexivity).
  assert (createBalanceSyncRetryEnvelope job_sha256_example None "" "" 0
    (envelope_js (bse_envelope sync_envelope_example)) "2026-09-01T00:00:05.000Z" = Ok first_retry_example) as He
    by (vm_compute; reflexivity).
  assert (retried job_sha256_example (envelope_js (bse_envelope sync_envelope_example)) [(RATE_LIMITED, 5)]
    (envelope_js (bse_envelope first_retry_example))) as Hr.
  { apply (retried_step _ _ _ RATE_LIMITED None 5 _ _ _ _ _ _ _ _ Hpe eq_refl He). apply retried_none. }
  assert (forall m, HEX64_PATTERN (job_sha256_example m) = true) as Hhex by (intros m; vm_compute; reflexivity).
  pose proof (retries_bounded _ _ _ _ Hhex Hr _ Hpe) as (_ & le & Hle & Hn & _).
  exists le. split; [exact Hle | exact Hn].
Defined.

Lemma observation_id_identifies_witness :
  let ps := [position_example "1" "USDC" "0x00000000000000cc" "5"; position_example "2" "USDT" "0x00000000000000dd" "7"] in
  createBalanceSyncObservationId id (job_uuid "1") (job_uuid "2") "eip155:1" "PROVISIONAL" source_example ps
  = createBalanceSyncObservationId id (job_uuid "1") (job_uuid "2") "eip155:1" "PROVISIONAL" source_example
      (rev ps).
Proof.
  intros ps. eapply (observation_id_identifies id (job_uuid "1") (job_uuid "2") "eip155:1" "PROVISIONAL"
    source_example ps (job_uuid "1") (job_uuid "2") "eip155:1" "PROVISIONAL" source_example (rev ps));
    [vm_compute; reflexivity | vm_compute; reflexivity | apply collision_free_id |].
  split_and!; try reflexivity. apply Permutation_rev.
Defined.
