(* ===== verification/ReviewedJob.v ===== *)
(** * Reviewed job contracts
    (apps/api/src/infrastructure/outbox/reviewed-job-contract-policy.ts)

    The three kinds of job the outbox admits, and the policy that checks a job
    against them: on its way into the outbox, and again when the consumer of the
    queue has read it back.  The lemmas show that a job the policy accepts is
    accepted again after it went through the message and a jsonb column. *)

From stdpp Require Import base list strings gmap.
From Stdlib Require Import ZArith Lia Ascii.
From S2P Require Import Prelude Text JsValue JsDate JsCollections Digest Json JsonParse AssetRegistry ChainObservation LogContext LedgerIdempotency YieldOperation JobEnvelope JobMessage Jsonb BalanceSync.

Open Scope Z_scope.

(** ** Data *)

Inductive ReviewedJobContractPolicyErrorCode : Type :=
| UNREVIEWED_JOB_CONTRACT | INVALID_REVIEWED_JOB_SHAPE | INVALID_REVIEWED_JOB_DESTINATION
| INVALID_REVIEWED_JOB_PAYLOAD | INVALID_REVIEWED_JOB_ATTRIBUTES | INVALID_REVIEWED_JOB_LEDGER_LINK.

Notation reviewed := (result ReviewedJobContractPolicyErrorCode).

(** The kind and version of a contract in REVIEWED_JOB_CONTRACTS. *)
Inductive ReviewedJobKind : Type := LEDGER_JOURNAL_COMMITTED | YIELD_OPERATION_SUBMIT | BALANCE_SYNC.

#[export] Program Instance REVIEWED_JOB_CONTRACTS : JsEnum ReviewedJobKind := {
  enum_values := [LEDGER_JOURNAL_COMMITTED; YIELD_OPERATION_SUBMIT; BALANCE_SYNC];
  enum_str := fun k => match k with
    | LEDGER_JOURNAL_COMMITTED => "ledger.journal-committed"
    | YIELD_OPERATION_SUBMIT => "yield.operation.submit"
    | BALANCE_SYNC => BALANCE_SYNC_JOB_KIND end;
}.
Next Obligation. solve_enum_all. Qed.
Next Obligation. solve_enum_inj. Qed.

Definition MAINNET_LAUNCH_NETWORK_IDS : list string :=
  ["eip155:1"; "solana:5eykt4UsFv8P8NJdTREpY1vzqKqZKvdp"].

Definition isMainnetLaunchNetwork (networkId : string) : bool :=
  existsb (String.eqb networkId) MAINNET_LAUNCH_NETWORK_IDS.

Definition LEDGER_PAYLOAD_KEYS : list string := ["journalId"; "operation"].
Definition YIELD_PAYLOAD_KEYS : list string :=
  ["submissionId"; "operationId"; "operationType"; "ledgerTransactionId"; "planReferenceId"; "quoteReferenceId"].
Definition LINK_KEYS : list string := ["commandId"; "journalId"].

Record LedgerPayload : Type := { lp_journalId : string; lp_operation : LedgerIdempotencyOperation }.

Record YieldPayload : Type := {
  yp_submissionId : string;
  yp_operationType : YieldOperationType;
  yp_ledgerTransactionId : string;
  yp_quoteReferenceId : string;
}.

(** ** The policy *)

(** Three or four own properties: [ledgerLink] may be left out. *)
Definition reviewedOutboxJob (value : jsval) : reviewed jsrec :=
  or_throw (descriptors ← plain_descriptors value;
            if (length descriptors <? 3)%nat || (4 <? length descriptors)%nat then None
            else data_record ["destination"; "envelope"; "messageAttributes"] ["ledgerLink"] value)
    INVALID_REVIEWED_JOB_SHAPE.

Definition exactDataRecord (value : jsval) (expectedKeys : list string) : reviewed jsrec :=
  or_throw (exact_data_record expectedKeys value) INVALID_REVIEWED_JOB_PAYLOAD.

Definition attribute (attrs : attributes) (name : string) : option string :=
  snd <$> List.find (fun kv => String.eqb kv.1 name) attrs.

Definition exactAttributes (value : jsval) (expected : attributes) : reviewed attributes :=
  let* attrs := or_throw (to_option (parseJobMessageAttributes value)) INVALID_REVIEWED_JOB_ATTRIBUTES in
  reject INVALID_REVIEWED_JOB_ATTRIBUTES
    when negb (length attrs =? length expected)%nat
         || existsb (fun kv => negb (bool_decide (attribute attrs kv.1 = Some kv.2))) expected in
  Ok attrs.

Definition ledgerPayload (value : jsval) : reviewed LedgerPayload :=
  let* record := exactDataRecord value LEDGER_PAYLOAD_KEYS in
  or_throw (journalId ← canonical_uuid (record .: "journalId");
            operation ← enum_member enum_values (record .: "operation");
            Some {| lp_journalId := journalId; lp_operation := operation |}) INVALID_REVIEWED_JOB_PAYLOAD.

Definition yieldPayload (value : jsval) : reviewed YieldPayload :=
  let* record := exactDataRecord value YIELD_PAYLOAD_KEYS in
  or_throw (submissionId ← canonical_uuid (record .: "submissionId");
            _ ← canonical_uuid (record .: "operationId");
            ledgerTransactionId ← canonical_uuid (record .: "ledgerTransactionId");
            _ ← canonical_uuid (record .: "planReferenceId");
            quoteReferenceId ← canonical_uuid (record .: "quoteReferenceId");
            operationType ← enum_member enum_values (record .: "operationType");
            Some {| yp_submissionId := submissionId; yp_operationType := operationType;
                    yp_ledgerTransactionId := ledgerTransactionId; yp_quoteReferenceId := quoteReferenceId |})
    INVALID_REVIEWED_JOB_PAYLOAD.

Definition ledgerLink (value : jsval) (journalId : string) : reviewed unit :=
  or_throw (record ← exact_data_record LINK_KEYS value;
            _ ← canonical_uuid (record .: "commandId");
            match record .: "journalId" with
            | VStr linked => if String.eqb linked journalId then Some tt else None
            | _ => None
            end) INVALID_REVIEWED_JOB_LEDGER_LINK.

Section policy.
Context (sha256 : string -> string).

Definition is_contract (e : JobEnvelope) (k : ReviewedJobKind) : bool :=
  String.eqb (env_kind e) (enum_str k) && (env_version e =? 1).

Definition correlated (e : JobEnvelope) (key value : string) : bool :=
  bool_decide (env_correlation e !! key = Some value).

(** The contract of the envelope's kind. *)
Definition review_contract (envelope : JobEnvelope) (messageAttributes link : jsval) : reviewed unit :=
  if is_contract envelope LEDGER_JOURNAL_COMMITTED then
    let* payload := ledgerPayload (env_payload envelope) in
    reject INVALID_REVIEWED_JOB_PAYLOAD
      when negb (correlated envelope "ledgerEventId" (lp_journalId payload)) in
    let* _ := exactAttributes messageAttributes [] in
    ledgerLink link (lp_journalId payload)
  else if is_contract envelope YIELD_OPERATION_SUBMIT then
    let* payload := yieldPayload (env_payload envelope) in
    reject INVALID_REVIEWED_JOB_PAYLOAD
      when negb (String.eqb (env_id envelope) (yp_submissionId payload))
           || negb (correlated envelope "transactionId" (yp_ledgerTransactionId payload))
           || negb (correlated envelope "quoteId" (yp_quoteReferenceId payload)) in
    let* _ := exactAttributes messageAttributes [("operationType", enum_str (yp_operationType payload))] in
    reject INVALID_REVIEWED_JOB_LEDGER_LINK when negb (is_undefined link) in
    Ok tt
  else if is_contract envelope BALANCE_SYNC then
    let* balanceSync :=
      or_throw (parseBalanceSyncJobEnvelope sha256 (envelope_js envelope)) INVALID_REVIEWED_JOB_PAYLOAD in
    reject INVALID_REVIEWED_JOB_PAYLOAD
      when negb (isMainnetLaunchNetwork (bs_networkId (bse_payload balanceSync))) in
    let* _ := exactAttributes messageAttributes [] in
    reject INVALID_REVIEWED_JOB_LEDGER_LINK when negb (is_undefined link) in
    Ok tt
  else Err UNREVIEWED_JOB_CONTRACT.

Definition assertReviewedOutboxJob (value : jsval) : reviewed unit :=
  let* job := reviewedOutboxJob value in
  reject INVALID_REVIEWED_JOB_DESTINATION
    when negb match job .: "destination" with VStr s => String.eqb s "jobs" | _ => false end in
  let* envelope := or_throw (parseJobEnvelope sha256 (job .: "envelope")) UNREVIEWED_JOB_CONTRACT in
  review_contract envelope (job .: "messageAttributes") (job .: "ledgerLink").
End policy.

(** ** Lemmas: records read back *)

Lemma data_property_descriptor ds k v : data_property ds k = Some v -> descriptor ds k = Some (DData v true).
Proof. unfold data_property. destruct (descriptor ds k) as [[w []|]|]; try done. by intros [= ->]. Qed.

Lemma descriptor_key ds k d : descriptor ds k = Some d -> KStr k ∈ ds.*1.
Proof.
  induction ds as [|[k' d'] ds IH]; [done|]. cbn [descriptor fst]. destruct (key_eqb (KStr k) k') eqn:E.
  - intros _. destruct k'; [|done]. rewrite key_eqb_str in E. apply String.eqb_eq in E as ->. left.
  - intros H. right. by apply IH.
Qed.

Lemma plain_members_spec plain ds ks l : plain_members plain ds ks = Some l ->
  ks = KStr <$> l.*1 /\ forall k j, (k, j) ∈ l -> exists v, data_property ds k = Some v /\ plain v = Some j.
Proof.
  revert l. induction ks as [|[k|] ks IH]; intros l; cbn [plain_members]; [| |done].
  - intros [= <-]. split; [done|]. by intros k j ?%not_elem_of_nil.
  - intros H. apply bind_Some in H as (v & Hv & H). apply bind_Some in H as (j & Hj & H).
    apply bind_Some in H as (js & Hjs & [= <-]). destruct (IH _ Hjs) as [-> Hin]. split; [done|].
    intros k' j' [[= -> ->]|H]%elem_of_cons; [eauto | by apply Hin].
Qed.

Lemma read_keys_lookup ds keys r k : read_keys ds keys = Some r -> k ∈ keys ->
  exists v, data_property ds k = Some v /\ (k, v) ∈ r.
Proof.
  revert r. induction keys as [|k' keys IH]; intros r; [by intros _ ?%not_elem_of_nil|]. cbn [read_keys].
  destruct (data_property ds k') as [v|] eqn:Ev; [|done]. destruct (read_keys ds keys) as [r'|]; [|done].
  intros [= <-] [->|Hin]%elem_of_cons; [exists v; by split; [|left]|].
  destruct (IH r' eq_refl Hin) as (w & ? & ?). exists w. by split; [|right].
Qed.

Lemma read_keys_field ds keys r k : read_keys ds keys = Some r -> k ∈ keys -> data_property ds k = Some (r .: k).
Proof.
  revert r. induction keys as [|k' keys IH]; intros r Hr Hk; [by apply not_elem_of_nil in Hk|].
  cbn [read_keys] in Hr. destruct (data_property ds k') as [v'|] eqn:E; [|done].
  destruct (read_keys ds keys) as [r'|] eqn:Er; [|done]. injection Hr as <-. cbn [field].
  destruct (String.eqb_spec k k') as [->|Hne]; [done|]. apply elem_of_cons in Hk as [->|Hk]; [done | by apply IH].
Qed.

Lemma read_keys_all ds keys r : NoDup keys -> r.*1 = keys -> (forall k, k ∈ keys -> data_property ds k = Some (r .: k)) ->
  read_keys ds keys = Some r.
Proof.
  intros Hnd <-. induction r as [|[k v] r IH]; intros H; [done|]. rewrite fmap_cons in *. cbn [read_keys fst] in *.
  apply NoDup_cons in Hnd as [Hk Hnd]. rewrite (H k) by left. cbn [field]. rewrite String.eqb_refl, IH; [done|done|].
  intros k' Hk'. rewrite H by (by right). cbn [field]. by destruct (String.eqb_spec k' k) as [->|].
Qed.

Lemma read_keys_ext ds ds' keys : (forall k, k ∈ keys -> data_property ds k = data_property ds' k) ->
  read_keys ds keys = read_keys ds' keys.
Proof.
  induction keys as [|k keys IH]; intros H; [done|]. cbn [read_keys].
  rewrite (H k) by left. rewrite IH; [done|]. intros k' Hk'. apply H. by right.
Qed.

Section stored.
Context (numeric : string -> option string) (double_of : string -> jsnum) (Hnumeric : numeric_ok numeric).

(** A record of plain values, read through the column. *)
Lemma record_stored keys v r levels j pj : keys <> [] -> NoDup keys -> Forall (fun k => array_index k = None) keys ->
  exact_data_record keys v = Some r -> Forall (fun kv => flat kv.2) r -> plain_json levels v = Some j ->
  jsonb_of numeric (numerals j) = Some pj -> exact_data_record keys (jsonb_out double_of pj) = Some r.
Proof.
  intros Hne Hnd Hidx Hr Hflat Hj Hpj. destruct levels as [|levels]; [done|].
  destruct (exact_data_record_plain _ _ _ Hne Hr) as (p & ds & -> & Hp & Hlen).
  assert (plain_descriptors (VObj p ds) = Some ds) as Hds by (by destruct Hp as [-> | ->]).
  unfold exact_data_record in Hr. rewrite Hds in Hr. destruct (_ || _) in Hr; [done|].
  cbn [plain_json own_property_descriptors is_array mbind option_bind] in Hj. rewrite Hds in Hj. cbn [mbind option_bind] in Hj.
  destruct (plain_members _ ds _) as [l|] eqn:Hl; [|done]. injection Hj as <-.
  pose proof (plain_members_length _ _ _ _ Hl) as Hll. rewrite length_fmap in Hll.
  apply plain_members_spec in Hl as [Hks Hl].
  assert (keys ≡ₚ l.*1) as Hperm.
  { apply submseteq_length_Permutation; [|rewrite length_fmap; lia]. apply NoDup_submseteq; [done|].
    intros k Hk. destruct (read_keys_lookup _ _ _ _ Hr Hk) as (w & Hw & _).
    apply data_property_descriptor, descriptor_key in Hw. rewrite Hks in Hw.
    by apply list_elem_of_fmap in Hw as (k' & [= ->] & ?). }
  cbn [numerals] in Hpj. set (l' := (fun kv => (kv.1, numerals kv.2)) <$> l) in *.
  assert (l'.*1 = l.*1) as Hl' by (unfold l'; by rewrite <- list_fmap_compose).
  destruct (jsonb_object numeric double_of l' pj Hpj) as (kvs & -> & Hkp & Hknd & Hval).
  { by rewrite Hl', <- Hperm. }
  { apply Forall_forall. intros kv Hkv. apply (list_elem_of_fmap_2 fst) in Hkv. rewrite Hl', <- Hperm in Hkv.
    rewrite Forall_forall in Hidx. by apply Hidx. }
  rewrite Hl', <- Hperm in Hkp. unfold exact_data_record. cbn [plain_descriptors is_object is_array get_prototype_of own_property_descriptors negb].
  assert (length (literal_props kvs) = length keys) as ->.
  { unfold literal_props. by rewrite length_fmap, <- (length_fmap fst), Hkp. }
  rewrite Nat.eqb_refl. cbn [negb orb]. rewrite (proj2 (existsb_false _ _)).
  2:{ intros kd Hkd. apply (list_elem_of_fmap_2 fst) in Hkd. rewrite literal_props_keys in Hkd.
      apply list_elem_of_fmap in Hkd as (k & -> & Hk). rewrite Hkp in Hk. by rewrite (proj2 (key_in_spec _ _)). }
  rewrite <- Hr. apply read_keys_ext. intros k Hk. destruct (read_keys_lookup _ _ _ _ Hr Hk) as (w & Hw & Hwr).
  rewrite Hw. rewrite Hperm in Hk. apply list_elem_of_fmap in Hk as ([k' jv] & -> & Hin). cbn [fst] in *.
  destruct (Hl _ _ Hin) as (w' & Hw' & Hjv). rewrite Hw in Hw'. injection Hw' as <-.
  assert ((k', numerals jv) ∈ l') as Hin' by (apply list_elem_of_fmap; by exists (k', jv)).
  destruct (Hval _ _ Hin') as (v' & Hv' & Hkv). unfold data_property. rewrite (literal_descriptor kvs k' _ Hknd Hkv).
  rewrite Forall_forall in Hflat. by rewrite (flat_stored numeric double_of levels w jv v' Hnumeric (Hflat _ Hwr) Hjv Hv').
Qed.

Lemma record_flat r : NoDup r.*1 -> (forall k, k ∈ r.*1 -> flat (r .: k)) -> Forall (fun kv => flat kv.2) r.
Proof.
  induction r as [|[k v] r IH]; intros Hnd H; [constructor|]. rewrite fmap_cons in *. apply NoDup_cons in Hnd as [Hk Hnd].
  constructor.
  - specialize (H k ltac:(left)). cbn [field] in H. by rewrite String.eqb_refl in H.
  - apply IH; [done|]. intros k' Hk'. specialize (H k' ltac:(by right)). cbn [field] in H.
    destruct (String.eqb_spec k' k) as [E|]; [by rewrite E in Hk' | done].
Qed.

(** ** Lemmas: contracts read back *)

Definition read_back (v v' : jsval) : Prop := exists levels j pj,
  plain_json levels v = Some j /\ jsonb_of numeric (numerals j) = Some pj /\ v' = jsonb_out double_of pj.

(** [v'] reads as the same record of plain values as [v]. *)
Definition same_records (v v' : jsval) : Prop := forall keys r,
  keys <> [] -> NoDup keys -> Forall (fun k => array_index k = None) keys ->
  exact_data_record keys v = Some r -> (forall k, k ∈ keys -> flat (r .: k)) -> exact_data_record keys v' = Some r.

Lemma read_back_same v v' : read_back v v' -> same_records v v'.
Proof.
  intros (levels & j & pj & Hj & Hpj & ->) keys r Hne Hnd Hidx Hr Hflat. pose proof (exact_data_record_keys _ _ _ Hr) as Hk.
  eapply record_stored; try done. apply record_flat; by rewrite Hk.
Qed.

Ltac each_key := let k := fresh "k" in let Hk := fresh "Hk" in intros k Hk;
  repeat (apply elem_of_cons in Hk as [-> | Hk]); [.. | by apply not_elem_of_nil in Hk].

(** What the three readers of payloads accept is a record of plain values. *)
Definition flat_record (keys : list string) (v : jsval) : Prop :=
  exists r, exact_data_record keys v = Some r /\ forall k, k ∈ keys -> flat (r .: k).

Lemma ledger_payload_flat v p : ledgerPayload v = Ok p -> flat_record LEDGER_PAYLOAD_KEYS v.
Proof.
  unfold ledgerPayload, exactDataRecord. intros H. apply rbind_ok in H as (r & Hr%or_throw_ok & H%or_throw_ok).
  apply bind_Some in H as (j & [Hj _]%canonical_uuid_ok & H). apply bind_Some in H as (op & Hop%enum_member_all & _).
  exists r. split; [done|]. each_key; by rewrite ?Hj, ?Hop.
Qed.

Lemma yield_payload_flat v p : yieldPayload v = Ok p -> flat_record YIELD_PAYLOAD_KEYS v.
Proof.
  unfold yieldPayload, exactDataRecord. intros H. apply rbind_ok in H as (r & Hr%or_throw_ok & H%or_throw_ok).
  apply bind_Some in H as (a & [Ha _]%canonical_uuid_ok & H). apply bind_Some in H as (b & [Hb _]%canonical_uuid_ok & H).
  apply bind_Some in H as (c & [Hc _]%canonical_uuid_ok & H). apply bind_Some in H as (d & [Hd _]%canonical_uuid_ok & H).
  apply bind_Some in H as (e & [He _]%canonical_uuid_ok & H). apply bind_Some in H as (t & Ht%enum_member_all & _).
  exists r. split; [done|]. each_key; by rewrite ?Ha, ?Hb, ?Hc, ?Hd, ?He, ?Ht.
Qed.

Lemma sync_payload_flat v p : parseBalanceSyncPayload v = Ok p -> flat_record PAYLOAD_KEYS v.
Proof.
  unfold parseBalanceSyncPayload. intros H. apply rbind_ok in H as (r & Hr%or_throw_ok & H).
  apply rbind_ok in H as (fields & Hf%or_throw_ok & H). apply rbind_ok in H as (rescan & Hre & _).
  destruct (payload_fields_ok _ _ rescan Hf) as (H1 & H2 & _ & H3 & _ & H4 & _ & H5 & H6 & H7 & H8 & _).
  apply rescan_position_ok in Hre as [H9 _].
  exists r. split; [done|]. each_key; rewrite ?H1, ?H2, ?H3, ?H4, ?H5, ?H6, ?H7, ?H9; try done;
    cbn [flat]; try (unfold SYNC_MAX_ATTEMPTS, READS_MAX_ATTEMPTS, BALANCE_SYNC_PAYLOAD_VERSION, MAX_SAFE_INTEGER in *; lia).
  by destruct rescan.
Qed.

Lemma flat_record_again keys v v' : same_records v v' -> keys <> [] -> NoDup keys ->
  Forall (fun k => array_index k = None) keys -> flat_record keys v -> exact_data_record keys v' = exact_data_record keys v.
Proof. intros Hb Hne Hnd Hidx (r & Hr & Hf). rewrite Hr. by apply Hb. Qed.

Ltac plain_keys := first [done | apply (bool_decide_eq_true_1 _); vm_compute; reflexivity | by repeat constructor].

Lemma ledger_payload_again v v' p : same_records v v' -> ledgerPayload v = Ok p -> ledgerPayload v' = Ok p.
Proof.
  intros Hb H. pose proof (ledger_payload_flat _ _ H) as Hf. unfold ledgerPayload, exactDataRecord in *.
  rewrite (flat_record_again LEDGER_PAYLOAD_KEYS v v'); [exact H | exact Hb | plain_keys ..| done].
Qed.

Lemma yield_payload_again v v' p : same_records v v' -> yieldPayload v = Ok p -> yieldPayload v' = Ok p.
Proof.
  intros Hb H. pose proof (yield_payload_flat _ _ H) as Hf. unfold yieldPayload, exactDataRecord in *.
  rewrite (flat_record_again YIELD_PAYLOAD_KEYS v v'); [exact H | exact Hb | plain_keys ..| done].
Qed.

Lemma sync_payload_again v v' p : same_records v v' -> parseBalanceSyncPayload v = Ok p -> parseBalanceSyncPayload v' = Ok p.
Proof.
  intros Hb H. pose proof (sync_payload_flat _ _ H) as Hf. unfold parseBalanceSyncPayload in *.
  rewrite (flat_record_again PAYLOAD_KEYS v v'); [exact H | exact Hb | plain_keys ..| done].
Qed.

Lemma sync_envelope_again sha256 e v' b : (forall m, HEX64_PATTERN (sha256 m) = true) -> envelope_wf e ->
  same_records (env_payload e) v' -> parseBalanceSyncJobEnvelope sha256 (envelope_js e) = Some b ->
  parseBalanceSyncJobEnvelope sha256 (envelope_js (with_payload e v')) = Some b.
Proof.
  intros Hhex He Hb. unfold parseBalanceSyncJobEnvelope.
  rewrite !parse_envelope_js by (done || exact He). cbn [mbind option_bind with_payload env_kind env_version env_payload].
  destruct (_ || _); [done|]. intros H. apply bind_Some in H as (p & Hp & H).
  destruct (parseBalanceSyncPayload (env_payload e)) as [p'|] eqn:E; [|done]. injection Hp as ->.
  by rewrite (sync_payload_again _ _ _ Hb E).
Qed.

(** A job that passed review passes it again with the payload the column gives
    back and attributes that parse to the same. *)
Lemma contract_again sha256 e v' a a' l : (forall m, HEX64_PATTERN (sha256 m) = true) -> envelope_wf e ->
  same_records (env_payload e) v' -> parseJobMessageAttributes a = parseJobMessageAttributes a' ->
  review_contract sha256 e a l = Ok tt -> review_contract sha256 (with_payload e v') a' l = Ok tt.
Proof.
  intros Hhex He Hb Ha. unfold review_contract, exactAttributes.
  assert (forall k, is_contract (with_payload e v') k = is_contract e k) as Hk by done. rewrite !Hk, Ha.
  cbn [with_payload env_payload env_id env_correlation]. unfold correlated. cbn [with_payload env_correlation].
  destruct (is_contract e LEDGER_JOURNAL_COMMITTED).
  { destruct (ledgerPayload _) as [p|] eqn:E; [|done]. by rewrite (ledger_payload_again _ _ _ Hb E). }
  destruct (is_contract e YIELD_OPERATION_SUBMIT).
  { destruct (yieldPayload _) as [p|] eqn:E; [|done]. by rewrite (yield_payload_again _ _ _ Hb E). }
  destruct (is_contract e BALANCE_SYNC); [|done].
  destruct (parseBalanceSyncJobEnvelope _ (envelope_js e)) as [b|] eqn:E; [|done].
  by rewrite (sync_envelope_again _ _ _ _ Hhex He Hb E).
Qed.
End stored.

(** ** Lemmas: jobs written out *)

Definition link_fields (commandId journalId : string) : list (string * jsval) :=
  [("ledgerLink", js_object [("commandId", VStr commandId); ("journalId", VStr journalId)])].

(** A job of the three fields, with or without a link. *)
Lemma review_literal sha256 d e a l : envelope_wf e -> l = [] \/ (exists v, l = [("ledgerLink", v)]) ->
  assertReviewedOutboxJob sha256
    (js_object ([("destination", d); ("envelope", envelope_js e); ("messageAttributes", a)] ++ l))
  = reject INVALID_REVIEWED_JOB_DESTINATION when negb match d with VStr s => String.eqb s "jobs" | _ => false end in
    review_contract sha256 e a (l .: "ledgerLink").
Proof.
  intros He [-> | [v ->]]; unfold assertReviewedOutboxJob, reviewedOutboxJob.
  - cbn [app]. rewrite (data_record_literal ["destination"; "envelope"; "messageAttributes"] ["ledgerLink"]
      [("destination", d); ("envelope", envelope_js e); ("messageAttributes", a)]);
      [|apply (bool_decide_eq_true_1 _); vm_compute; reflexivity ..].
    cbn -[envelope_js]. rewrite parse_envelope_js by done. by destruct (match d with VStr s => String.eqb s "jobs" | _ => false end).
  - cbn [app]. rewrite (data_record_literal ["destination"; "envelope"; "messageAttributes"] ["ledgerLink"]
      [("destination", d); ("envelope", envelope_js e); ("messageAttributes", a); ("ledgerLink", v)]);
      [|apply (bool_decide_eq_true_1 _); vm_compute; reflexivity ..].
    cbn -[envelope_js]. rewrite parse_envelope_js by done. by destruct (match d with VStr s => String.eqb s "jobs" | _ => false end).
Qed.

(** A link that passed is made of two identifiers. *)
Lemma reviewed_link sha256 e a commandId journalId :
  review_contract sha256 e a ((link_fields commandId journalId) .: "ledgerLink") = Ok tt ->
  isCanonicalUuidV4 commandId = true /\ isCanonicalUuidV4 journalId = true.
Proof.
  unfold review_contract, link_fields. cbn [field String.eqb Ascii.eqb Bool.eqb]. destruct (is_contract e LEDGER_JOURNAL_COMMITTED).
  - intros H. apply rbind_ok in H as (p & Hp & H). destruct (negb _); [done|]. apply rbind_ok in H as (attrs & _ & H).
    unfold ledgerLink in H.
    pose proof (exact_data_record_literal [("commandId", VStr commandId); ("journalId", VStr journalId)]) as Hr.
    cbn [fmap list_fmap fst] in Hr. unfold LINK_KEYS in H. rewrite Hr in H; [|apply (bool_decide_eq_true_1 _); vm_compute; reflexivity].
    apply or_throw_ok in H. apply bind_Some in H as (r & [= <-] & H). apply bind_Some in H as (c & Hc & H).
    change ([("commandId", VStr commandId); ("journalId", VStr journalId)] .: "commandId") with (VStr commandId) in Hc.
    change ([("commandId", VStr commandId); ("journalId", VStr journalId)] .: "journalId") with (VStr journalId) in H.
    apply canonical_uuid_ok in Hc as [[= ->] Hc]. cbn beta iota in H. destruct (String.eqb journalId (lp_journalId p)) eqn:E in H; [|done].
    apply String.eqb_eq in E as ->. split; [done|]. unfold ledgerPayload in Hp. apply rbind_ok in Hp as (r & _ & Hp%or_throw_ok).
    apply bind_Some in Hp as (j & [_ Hj]%canonical_uuid_ok & Hp). by apply bind_Some in Hp as (op & _ & [= <-]).
  - destruct (is_contract e YIELD_OPERATION_SUBMIT).
    + intros H. apply rbind_ok in H as (p & _ & H). destruct (_ || _); [done|]. by apply rbind_ok in H as (attrs & _ & H).
    + destruct (is_contract e BALANCE_SYNC); [|done]. intros H. apply rbind_ok in H as (p & _ & H).
      destruct (negb _); [done|]. by apply rbind_ok in H as (attrs & _ & H).
Qed.

(** The attributes of a reviewed job: at most one, the operation's type. *)
Lemma reviewed_attributes sha256 e a l : review_contract sha256 e a l = Ok tt ->
  exists attrs, parseJobMessageAttributes a = Ok attrs /\ (attrs = [] \/ exists v, attrs = [("operationType", v)]).
Proof.
  assert (forall expected, is_ok (exactAttributes a expected) = true -> exists attrs,
    parseJobMessageAttributes a = Ok attrs /\ length attrs = length expected /\
    forall k v, (k, v) ∈ expected -> attribute attrs k = Some v) as Hex.
  { intros expected (attrs & H)%is_ok_true. unfold exactAttributes in H. apply rbind_ok in H as (attrs' & Hp & H).
    destruct (parseJobMessageAttributes a) as [x|]; [|done]. injection Hp as ->. destruct (_ || _) eqn:E; [done|].
    bsimpl. exists attrs'. apply Nat.eqb_eq in H0. split; [done|]. split; [done|]. intros k v Hkv.
    apply (proj1 (existsb_false _ _) H1) in Hkv. by apply negb_false_iff, bool_decide_eq_true in Hkv. }
  assert (forall {B} expected (f : attributes -> reviewed B) b, rbind (exactAttributes a expected) f = Ok b ->
    is_ok (exactAttributes a expected) = true) as Hok.
  { intros B expected f b H. by destruct (exactAttributes a expected). }
  unfold review_contract. destruct (is_contract e LEDGER_JOURNAL_COMMITTED);
    [|destruct (is_contract e YIELD_OPERATION_SUBMIT); [|destruct (is_contract e BALANCE_SYNC); [|done]]];
    intros H; apply rbind_ok in H as (p & _ & H).
  - destruct (negb _); [done|]. destruct (Hex _ (Hok _ _ _ _ H)) as (attrs & Hp & Hl & _). exists attrs. split; [done|].
    left. by apply nil_length_inv.
  - destruct (_ || _); [done|]. destruct (Hex _ (Hok _ _ _ _ H)) as (attrs & Hp & Hl & Hv). exists attrs. split; [done|].
    right. destruct attrs as [|[k v] [|]]; try done. exists v. specialize (Hv "operationType" _ ltac:(left)).
    unfold attribute in Hv. cbn in Hv. destruct (String.eqb_spec k "operationType") as [->|]; done.
  - destruct (negb _); [done|]. destruct (Hex _ (Hok _ _ _ _ H)) as (attrs & Hp & Hl & _). exists attrs. split; [done|].
    left. by apply nil_length_inv.
Qed.

(** The payload of a reviewed job is a record of plain values. *)
Lemma contract_flat sha256 e a l : envelope_wf e -> review_contract sha256 e a l = Ok tt ->
  exists keys, keys <> [] /\ flat_record keys (env_payload e).
Proof.
  intros He H. unfold review_contract in H.
  destruct (is_contract e LEDGER_JOURNAL_COMMITTED);
    [|destruct (is_contract e YIELD_OPERATION_SUBMIT); [|destruct (is_contract e BALANCE_SYNC); [|done]]];
    apply rbind_ok in H as (p & Hp & H).
  - exists LEDGER_PAYLOAD_KEYS. split; [done|]. by eapply ledger_payload_flat.
  - exists YIELD_PAYLOAD_KEYS. split; [done|]. by eapply yield_payload_flat.
  - exists PAYLOAD_KEYS. split; [done|]. apply or_throw_ok in Hp. unfold parseBalanceSyncJobEnvelope in Hp.
    rewrite parse_envelope_js in Hp by done. cbn [mbind option_bind] in Hp. destruct (_ || _) in Hp; [done|].
    apply bind_Some in Hp as (p' & Hp' & _). destruct (parseBalanceSyncPayload _) as [x|] eqn:E; [|done].
    by eapply sync_payload_flat.
Qed.

Lemma flat_printable levels v j : flat v -> plain_json levels v = Some j -> printable j.
Proof.
  destruct levels; [done|]. intros Hv Hj. destruct v as [| | |[n| |]| |s| | | | | |]; try done; cbn in Hj.
  - by injection Hj as <-.
  - injection Hj as <-. cbn [flat] in Hv. rewrite (proj2 (Z.ltb_ge n 0)) by lia. cbn [printable].
    apply numeral_integer, toString_unsigned. lia.
  - by injection Hj as <-.
Qed.

Lemma flat_record_printable keys v levels j : keys <> [] -> flat_record keys v -> plain_json levels v = Some j -> printable j.
Proof.
  intros Hne (r & Hr & Hflat) Hj. destruct levels as [|levels]; [done|].
  destruct (exact_data_record_plain _ _ _ Hne Hr) as (p & ds & -> & Hp & Hlen).
  assert (plain_descriptors (VObj p ds) = Some ds) as Hds by (by destruct Hp as [-> | ->]).
  unfold exact_data_record in Hr. rewrite Hds in Hr. destruct (_ || _) eqn:E in Hr; [done|].
  cbn [plain_json own_property_descriptors is_array mbind option_bind] in Hj. rewrite Hds in Hj. cbn [mbind option_bind] in Hj.
  destruct (plain_members _ ds _) as [l|] eqn:Hl; [|done]. injection Hj as <-.
  apply plain_members_spec in Hl as [Hks Hl]. apply printable_object, Forall_forall. intros [k j] Hin. cbn [snd].
  destruct (Hl _ _ Hin) as (w & Hw & Hwj). apply orb_false_iff in E as [_ E].
  assert (k ∈ keys) as Hk.
  { apply key_in_spec. apply (proj1 (existsb_false _ _)) with (a := (KStr k, DData w true)) in E; [by apply negb_false_iff in E|].
    apply data_property_descriptor in Hw. clear -Hw. induction ds as [|[k' d'] ds IH]; [done|]. cbn [descriptor fst] in Hw.
    destruct (key_eqb (KStr k) k') eqn:Ek; [|right; by apply IH]. destruct k'; [|done].
    rewrite key_eqb_str in Ek. apply String.eqb_eq in Ek as ->. injection Hw as ->. left. }
  apply (flat_printable levels w); [|done]. specialize (Hflat k Hk).
  pose proof (read_keys_field _ _ _ _ Hr Hk) as Hf. rewrite Hw in Hf. by injection Hf as ->.
Qed.
