(* ===== verification/OutboxTable.v ===== *)
(** * The outbox table (apps/api/src/infrastructure/outbox/job-outbox.repository.ts,
    database/migrations/0001, 0005, 0006, 0009 and the INSERT of 0018)

    Rows of job_outbox and the statements the repository runs on them: a job is
    enqueued as a pending row, claimed under a lease by a dispatch pass, settled
    as published, as failed or for a later retry, and deleted some time after it
    settled.  A statement runs atomically on the rows its role may see: the table
    has row-level security, and a row locked by [FOR UPDATE] must pass the UPDATE
    policy too.

    Instants are microseconds.  [clock id n] is the [n]-th reading of
    [clock_timestamp()] for the row [id] within a statement; [locked] are the rows
    other transactions hold, which SKIP LOCKED passes over; [collate] is the
    database's collation, which only breaks ties.  [jsonb_out] is what
    node-postgres returns for a jsonb value. *)

From stdpp Require Import base list strings gmap sorting.
From Stdlib Require Import ZArith Lia Ascii.
From S2P Require Import Prelude Text JsValue JsCollections LogContext JobEnvelope.

Open Scope Z_scope.

(** ** Data *)

Inductive job_status : Type := PENDING | PUBLISHED | FAILED.

#[export] Instance job_status_eq_dec : EqDecision job_status.
Proof. solve_decision. Defined.

Inductive OutboxFailureCode : Type := OUTBOX_TRANSPORT_FAILED | OUTBOX_TRANSPORT_TIMEOUT.

#[export] Program Instance OUTBOX_FAILURE_CODES : JsEnum OutboxFailureCode := {
  enum_values := [OUTBOX_TRANSPORT_FAILED; OUTBOX_TRANSPORT_TIMEOUT];
  enum_str := fun c => match c with
    | OUTBOX_TRANSPORT_FAILED => "OUTBOX_TRANSPORT_FAILED"
    | OUTBOX_TRANSPORT_TIMEOUT => "OUTBOX_TRANSPORT_TIMEOUT" end;
}.
Next Obligation. solve_enum_all. Qed.
Next Obligation. solve_enum_inj. Qed.

(** The roles that reach the table: its owner (the admission function runs as
    the owner) and the worker. *)
Inductive db_role : Type := SCHEMA_OWNER | WORKER_RUNTIME.

Inductive sql_failure : Type := UNIQUE_VIOLATION | CHECK_VIOLATION | POLICY_VIOLATION.

(** What the repository throws. *)
Inductive outbox_error : Type :=
| InvalidOptions
| InvalidRow
| Sql (e : sql_failure).

Record ClaimOutboxJobsOptions : Type := {
  dispatcherId : string;
  batchSize : Z;
  leaseMs : Z;
  maxAttempts : Z;
}.

Record CleanupOutboxJobsOptions : Type := {
  cleanup_batchSize : Z;
  failedRetentionMs : Z;
  publishedRetentionMs : Z;
}.

Record LedgerOutboxLink : Type := {
  link_commandId : string;
  link_journalId : string;
}.

Record ClaimedOutboxJob : Type := {
  job_id : string;
  job_destination : string;
  job_envelope : JobEnvelope;
  job_messageAttributes : list (string * string);
  job_ledgerLink : option LedgerOutboxLink;
  job_attempts : Z;
}.

Inductive OutboxFailureTransition : Type := RETRY | TERMINAL_FAILURE | LEASE_LOST.

Definition MAX_INTEGER : Z := 2147483647.
Definition MICROSECONDS : Z := 1000.

Definition option_string_eqb (a b : option string) : bool := bool_decide (a = b).

Section table.
Context {jsonb : Type} (jsonb_out : jsonb -> jsval) (sha256 : string -> string).
Context (collate : string -> string -> Z).

Record job_row : Type := {
  row_id : string;
  queue_name : string;
  payload : jsonb;
  message_attributes : jsonb;
  status : job_status;
  attempts : Z;
  available_at : Z;
  last_error : option string;
  locked_by : option string;
  locked_until : option Z;
  created_at : Z;
  published_at : option Z;
  failed_at : option Z;
  ledger_command_id : option string;
  ledger_journal_id : option string;
}.

Notation outbox := (gmap string job_row).

(** ** Constraints and policies *)

(** The CHECK constraints and the range of [integer]. *)
Definition row_checks (r : job_row) : bool :=
  (0 <=? attempts r) && (attempts r <=? MAX_INTEGER)
  && Bool.eqb (bool_decide (locked_by r = None)) (bool_decide (locked_until r = None))
  && (bool_decide (status r = PENDING)
      || (bool_decide (locked_by r = None) && bool_decide (locked_until r = None)))
  && Bool.eqb (bool_decide (status r = PUBLISHED)) (bool_decide (published_at r <> None))
  && Bool.eqb (bool_decide (status r = FAILED)) (bool_decide (failed_at r <> None))
  && match last_error r with
     | None => true
     | Some code => existsb (fun c => String.eqb (enum_str c) code) (enum_values (A := OutboxFailureCode))
     end
  && Bool.eqb (bool_decide (ledger_command_id r = None)) (bool_decide (ledger_journal_id r = None)).

(** [USING] of the UPDATE policies *)
Definition may_update (role : db_role) (r : job_row) : bool :=
  match role with
  | SCHEMA_OWNER => true
  | WORKER_RUNTIME => bool_decide (status r = PENDING)
  end.

(** [WITH CHECK] of the UPDATE policies: every status is listed. *)
Definition may_become (role : db_role) (r : job_row) : bool :=
  match role with
  | SCHEMA_OWNER => true
  | WORKER_RUNTIME =>
      bool_decide (status r = PENDING) || bool_decide (status r = PUBLISHED) || bool_decide (status r = FAILED)
  end.

(** [USING] of the DELETE policies *)
Definition may_delete (role : db_role) (r : job_row) : bool :=
  match role with
  | SCHEMA_OWNER => true
  | WORKER_RUNTIME => bool_decide (status r = PUBLISHED) || bool_decide (status r = FAILED)
  end.

(** The rows a [SELECT ... FOR UPDATE] returns: every role may SELECT every row,
    and locking a row also applies the UPDATE policy. *)
Definition may_lock (role : db_role) (r : job_row) : bool := may_update role r.

(** Writes new versions of rows, checking each. *)
Fixpoint write_rows (role : db_role) (rows : outbox) (news : list job_row) : result sql_failure outbox :=
  match news with
  | [] => Ok rows
  | r :: news =>
      reject CHECK_VIOLATION when negb (row_checks r) in
      reject POLICY_VIOLATION when negb (may_become role r) in
      write_rows role (<[row_id r := r]> rows) news
  end.

(** [ORDER BY keys, id] *)
Fixpoint compare_keys (ka kb : list Z) (tie : Z) : Z :=
  match ka, kb with
  | x :: ka, y :: kb => if x <? y then -1 else if y <? x then 1 else compare_keys ka kb tie
  | _, _ => tie
  end.

Definition order_by (keys : job_row -> list Z) (a b : job_row) : Z :=
  compare_keys (keys a) (keys b) (collate (row_id a) (row_id b)).

(** [ORDER BY ... LIMIT n FOR UPDATE SKIP LOCKED] over the rows that satisfy a
    condition. *)
Definition select_for_update (role : db_role) (rows : outbox) (locked : gset string)
    (keys : job_row -> list Z) (limit : Z) (condition : job_row -> bool) : list job_row :=
  take (Z.to_nat limit)
    (js_sort (order_by keys)
       (List.filter (fun r => may_lock role r && condition r && negb (bool_decide (row_id r ∈ locked)))
          ((map_to_list rows).*2))).

(** ** Enqueueing (the INSERT of enqueue_reviewed_job_v1) *)

Definition new_row (now : Z) (id : string) (envelope attributes : jsonb) (link : option LedgerOutboxLink)
    : job_row :=
  {| row_id := id; queue_name := "jobs"; payload := envelope; message_attributes := attributes;
     status := PENDING; attempts := 0; available_at := now; last_error := None; locked_by := None;
     locked_until := None; created_at := now; published_at := None; failed_at := None;
     ledger_command_id := link_commandId <$> link; ledger_journal_id := link_journalId <$> link |}.

(** The primary key, and the unique index on the ledger command. *)
Definition insert_job (rows : outbox) (r : job_row) : result sql_failure outbox :=
  reject UNIQUE_VIOLATION
    when bool_decide (is_Some (rows !! row_id r))
         || existsb (fun r' => negb (bool_decide (ledger_command_id r = None))
                               && option_string_eqb (ledger_command_id r) (ledger_command_id r'))
              ((map_to_list rows).*2) in
  write_rows SCHEMA_OWNER rows [r].

(** ** Claiming *)

Definition claimable (clock : string -> nat -> Z) (maxAttempts : Z) (r : job_row) : bool :=
  bool_decide (status r = PENDING) && (available_at r <=? clock (row_id r) 0%nat)
  && match locked_until r with
     | None => true
     | Some until => until <=? clock (row_id r) 1%nat
     end
  && (attempts r <? maxAttempts).

Definition leased (token : string) (until : Z) (r : job_row) : job_row :=
  {| row_id := row_id r; queue_name := queue_name r; payload := payload r;
     message_attributes := message_attributes r; status := status r; attempts := attempts r;
     available_at := available_at r; last_error := last_error r; locked_by := Some token;
     locked_until := Some until; created_at := created_at r; published_at := published_at r;
     failed_at := failed_at r; ledger_command_id := ledger_command_id r;
     ledger_journal_id := ledger_journal_id r |}.

(** The statement of [claimBatch]: the rows it returns and the table. *)
Definition claim_rows (role : db_role) (rows : outbox) (locked : gset string) (clock : string -> nat -> Z)
    (options : ClaimOutboxJobsOptions) : result sql_failure (list job_row * outbox) :=
  let picked :=
    select_for_update role rows locked (fun r => [available_at r; created_at r]) (batchSize options)
      (claimable clock (maxAttempts options)) in
  let claimed :=
    (fun r => leased (dispatcherId options) (clock (row_id r) 2%nat + leaseMs options * MICROSECONDS) r)
      <$> picked in
  let* rows' := write_rows role rows claimed in
  Ok (claimed, rows').

Definition validateClaimOptions (options : ClaimOutboxJobsOptions) : result outbox_error unit :=
  reject InvalidOptions when String.eqb (trim (dispatcherId options)) "" in
  reject InvalidOptions when (batchSize options <? 1) || (100 <? batchSize options) in
  reject InvalidOptions when (leaseMs options <? 1000) || (900000 <? leaseMs options) in
  reject InvalidOptions when (maxAttempts options <? 1) || (100 <? maxAttempts options) in
  Ok tt.

(** [Object.entries(value)] of a value read from JSON, all strings. *)
Fixpoint string_entries (props : jsprops) : option (list (string * string)) :=
  match props with
  | [] => Some []
  | (KStr k, DData (VStr s) true) :: props => cons (k, s) <$> string_entries props
  | (KStr _, DData _ false) :: props | (KSym _, _) :: props => string_entries props
  | _ :: _ => None
  end.

Definition parseStoredMessageAttributes (value : jsval) : option (list (string * string)) :=
  match value with
  | VObj _ props => string_entries props
  | _ => None
  end.

Definition row_link (r : job_row) : option (option LedgerOutboxLink) :=
  match ledger_command_id r, ledger_journal_id r with
  | None, None => Some None
  | Some commandId, Some journalId =>
      if isCanonicalUuidV4 commandId && isCanonicalUuidV4 journalId
      then Some (Some {| link_commandId := commandId; link_journalId := journalId |}) else None
  | _, _ => None
  end.

Definition claimed_job (r : job_row) : option ClaimedOutboxJob :=
  link ← row_link r;
  envelope ← parseJobEnvelope sha256 (jsonb_out (payload r));
  attributes ← parseStoredMessageAttributes (jsonb_out (message_attributes r));
  Some {| job_id := row_id r; job_destination := queue_name r; job_envelope := envelope;
          job_messageAttributes := attributes; job_ledgerLink := link; job_attempts := attempts r |}.

(** A row that does not parse rolls the transaction back. *)
Definition claimBatch (role : db_role) (rows : outbox) (locked : gset string) (clock : string -> nat -> Z)
    (options : ClaimOutboxJobsOptions) : result outbox_error (list ClaimedOutboxJob) * outbox :=
  match validateClaimOptions options with
  | Err e => (Err e, rows)
  | Ok _ =>
      match claim_rows role rows locked clock options with
      | Err e => (Err (Sql e), rows)
      | Ok (claimed, rows') =>
          match mapM claimed_job claimed with
          | None => (Err InvalidRow, rows)
          | Some jobs => (Ok jobs, rows')
          end
      end
  end.

(** ** Settling *)

Definition published_row (now : Z) (r : job_row) : job_row :=
  {| row_id := row_id r; queue_name := queue_name r; payload := payload r;
     message_attributes := message_attributes r; status := PUBLISHED; attempts := attempts r;
     available_at := available_at r; last_error := None; locked_by := None; locked_until := None;
     created_at := created_at r; published_at := Some now; failed_at := None;
     ledger_command_id := ledger_command_id r; ledger_journal_id := ledger_journal_id r |}.

(** [available_at] and [failed_at] read the clock in turn. *)
Definition failed_row (clock : nat -> Z) (code : string) (terminal : bool) (retryDelayMs : Z) (r : job_row)
    : job_row :=
  {| row_id := row_id r; queue_name := queue_name r; payload := payload r;
     message_attributes := message_attributes r; status := if terminal then FAILED else PENDING;
     attempts := attempts r + 1;
     available_at := if terminal then available_at r else clock 0%nat + retryDelayMs * MICROSECONDS;
     last_error := Some code; locked_by := None; locked_until := None; created_at := created_at r;
     published_at := published_at r; failed_at := if terminal then Some (clock 1%nat) else None;
     ledger_command_id := ledger_command_id r; ledger_journal_id := ledger_journal_id r |}.

(** [WHERE id = $1 AND status = 'pending' AND locked_by = $2] *)
Definition leased_row (role : db_role) (rows : outbox) (id token : string) : option job_row :=
  match rows !! id with
  | Some r =>
      if may_update role r && bool_decide (status r = PENDING) && option_string_eqb (locked_by r) (Some token)
      then Some r else None
  | None => None
  end.

Definition markPublished (role : db_role) (rows : outbox) (now : Z) (id token : string)
    : result outbox_error (bool * outbox) :=
  match leased_row role rows id token with
  | None => Ok (false, rows)
  | Some r =>
      let* rows' := rlift Sql (write_rows role rows [published_row now r]) in
      Ok (true, rows')
  end.

Definition recordFailure (role : db_role) (rows : outbox) (clock : nat -> Z) (id token errorCode : string)
    (terminal : bool) (retryDelayMs : Z) : result outbox_error (OutboxFailureTransition * outbox) :=
  reject InvalidOptions when (retryDelayMs <? 0) || (900000 <? retryDelayMs) in
  reject InvalidOptions
    when negb (existsb (fun c => String.eqb (enum_str c) errorCode) (enum_values (A := OutboxFailureCode))) in
  match leased_row role rows id token with
  | None => Ok (LEASE_LOST, rows)
  | Some r =>
      let r' := failed_row clock errorCode terminal retryDelayMs r in
      let* rows' := rlift Sql (write_rows role rows [r']) in
      Ok (if bool_decide (status r' = FAILED) then TERMINAL_FAILURE else RETRY, rows')
  end.

(** ** Retention *)

Definition validateCleanupOptions (options : CleanupOutboxJobsOptions) : result outbox_error unit :=
  reject InvalidOptions when (cleanup_batchSize options <? 1) || (1000 <? cleanup_batchSize options) in
  reject InvalidOptions
    when existsb (fun value => (value <? 60000) || (315360000000 <? value))
           [failedRetentionMs options; publishedRetentionMs options] in
  Ok tt.

(** [at + retention < now] of a settled row *)
Definition expires_at (options : CleanupOutboxJobsOptions) (r : job_row) : Z :=
  match published_at r, failed_at r with
  | Some at_, _ => at_ + publishedRetentionMs options * MICROSECONDS
  | None, Some at_ => at_ + failedRetentionMs options * MICROSECONDS
  | None, None => 0
  end.

Definition published_expired (options : CleanupOutboxJobsOptions) (now : Z) (r : job_row) : bool :=
  bool_decide (status r = PUBLISHED)
  && match published_at r with
     | Some at_ => at_ <? now - publishedRetentionMs options * MICROSECONDS
     | None => false
     end.

Definition failed_expired (options : CleanupOutboxJobsOptions) (now : Z) (r : job_row) : bool :=
  bool_decide (status r = FAILED)
  && match failed_at r with
     | Some at_ => at_ <? now - failedRetentionMs options * MICROSECONDS
     | None => false
     end.

(** The three common table expressions of the DELETE. *)
Definition terminal_candidates (role : db_role) (rows : outbox) (locked : gset string) (now : Z)
    (options : CleanupOutboxJobsOptions) : list job_row :=
  let published :=
    select_for_update role rows locked (fun r => [from_option id 0 (published_at r)])
      (cleanup_batchSize options) (published_expired options now) in
  let failed :=
    select_for_update role rows locked (fun r => [from_option id 0 (failed_at r)])
      (cleanup_batchSize options) (failed_expired options now) in
  take (Z.to_nat (cleanup_batchSize options))
    (js_sort (order_by (fun r => [expires_at options r])) (published ++ failed)).

Definition deletable (role : db_role) (rows : outbox) (r : job_row) : bool :=
  may_delete role r && (bool_decide (status r = PUBLISHED) || bool_decide (status r = FAILED)).

(** The number of deleted rows and the table. *)
Definition deleteExpired (role : db_role) (rows : outbox) (locked : gset string) (now : Z)
    (options : CleanupOutboxJobsOptions) : result outbox_error (nat * outbox) :=
  let* _ := validateCleanupOptions options in
  let deleted := List.filter (deletable role rows) (terminal_candidates role rows locked now options) in
  Ok (length deleted, foldr (fun r rows => delete (row_id r) rows) rows deleted).
End table.

Arguments job_row jsonb : clear implicits.
Notation outbox jsonb := (gmap string (job_row jsonb)).

(** ** Specification *)

(** The table: rows under their primary key, all constraints satisfied. *)
Definition table_ok {jsonb} (rows : outbox jsonb) : Prop :=
  forall id r, rows !! id = Some r -> row_id r = id /\ row_checks r = true.

(** A consistent collation. *)
Notation Collation collate := (Comparator (fun _ : string => True) collate).

(** ** Lemmas: ordering *)

Lemma compare_keys_sym ka kb t t' :
  length ka = length kb -> (t < 0 <-> 0 < t') ->
  (compare_keys ka kb t < 0 <-> 0 < compare_keys kb ka t').
Proof.
  revert kb. induction ka as [|x ka IH]; intros [|y kb] Hl Ht; cbn [compare_keys]; try done.
  injection Hl as Hl. destruct (Z.ltb_spec x y), (Z.ltb_spec y x); try lia. by apply IH.
Qed.

Lemma compare_keys_trans ka kb kc t1 t2 t3 :
  length ka = length kb -> length kb = length kc -> (t1 <= 0 -> t2 <= 0 -> t3 <= 0) ->
  compare_keys ka kb t1 <= 0 -> compare_keys kb kc t2 <= 0 -> compare_keys ka kc t3 <= 0.
Proof.
  revert kb kc. induction ka as [|x ka IH]; intros [|y kb] [|z kc] Hl Hl' Ht; cbn [compare_keys]; try done.
  injection Hl as Hl. injection Hl' as Hl'.
  destruct (Z.ltb_spec x y), (Z.ltb_spec y x), (Z.ltb_spec y z), (Z.ltb_spec z y), (Z.ltb_spec x z),
    (Z.ltb_spec z x); try lia. by apply IH.
Qed.

Lemma order_by_comparator {jsonb} (collate : string -> string -> Z) (keys : job_row jsonb -> list Z) n :
  Collation collate -> (forall r, length (keys r) = n) ->
  Comparator (fun _ => True) (order_by collate keys).
Proof.
  intros [Hsym Htrans] Hn. split; unfold order_by.
  - intros a b _ _. apply compare_keys_sym; [by rewrite !Hn | by apply Hsym].
  - intros a b c _ _ _. apply compare_keys_trans; [by rewrite !Hn..|]. by apply Htrans.
Qed.

(** ** Lemmas: statements *)

Section lemmas.
Context {jsonb : Type}.
Implicit Types (rows : outbox jsonb) (r : job_row jsonb).

Definition write_all rows (news : list (job_row jsonb)) : outbox jsonb :=
  foldl (fun rows r => <[row_id r := r]> rows) rows news.

Lemma write_rows_eq role rows news :
  Forall (fun r => row_checks r = true /\ may_become role r = true) news ->
  write_rows role rows news = Ok (write_all rows news).
Proof.
  revert rows. induction news as [|r news IH]; intros rows H; [done|].
  apply Forall_cons in H as [[H1 H2] H]. cbn. rewrite H1, H2. by apply IH.
Qed.

Lemma may_become_any role r : may_become role r = true.
Proof. unfold may_become. by destruct role, (status r). Qed.

Lemma write_all_notin rows news id : id ∉ row_id <$> news -> write_all rows news !! id = rows !! id.
Proof.
  revert rows. induction news as [|r news IH]; intros rows H; [done|].
  cbn. unfold write_all in IH. rewrite IH by set_solver. apply lookup_insert_ne. set_solver.
Qed.

Lemma write_all_in rows news r :
  NoDup (row_id <$> news) -> r ∈ news -> write_all rows news !! row_id r = Some r.
Proof.
  revert rows. induction news as [|r' news IH]; intros rows Hn Hr; [by apply not_elem_of_nil in Hr|].
  rewrite fmap_cons in Hn. apply NoDup_cons in Hn as [Hx Hn].
  apply elem_of_cons in Hr as [->|Hr]; cbn.
  - rewrite write_all_notin by done. apply lookup_insert_eq.
  - by apply IH.
Qed.

Lemma table_row rows id r : table_ok rows -> rows !! id = Some r -> rows !! row_id r = Some r /\ row_checks r = true.
Proof. intros H Hr. destruct (H id r Hr) as [<- ?]. done. Qed.

Lemma table_ids rows : table_ok rows -> row_id <$> (map_to_list rows).*2 = (map_to_list rows).*1.
Proof.
  intros H. rewrite <- list_fmap_compose. apply list_fmap_ext. intros i [id r] Hi.
  apply list_elem_of_lookup_2, elem_of_map_to_list in Hi. by apply H in Hi as [? _].
Qed.

Lemma elem_of_rows rows r : table_ok rows -> r ∈ (map_to_list rows).*2 <-> rows !! row_id r = Some r.
Proof.
  intros H. rewrite list_elem_of_fmap. split.
  - intros ([id r'] & -> & Hr%elem_of_map_to_list). cbn. by destruct (H _ _ Hr) as [-> _].
  - intros Hr. exists (row_id r, r). split; [done|]. by apply elem_of_map_to_list.
Qed.

Lemma filter_In_elem {A} (f : A -> bool) l x : x ∈ List.filter f l <-> x ∈ l /\ f x = true.
Proof. rewrite !list_elem_of_In. apply filter_In. Qed.

Lemma filter_none {A} (f : A -> bool) l : (forall x, f x = false) -> List.filter f l = [].
Proof. intros H. induction l as [|x l IH]; [done|]. cbn. by rewrite H. Qed.

Lemma filter_all {A} (f : A -> bool) l : (forall x, x ∈ l -> f x = true) -> List.filter f l = l.
Proof.
  induction l as [|x l IH]; intros H; [done|]. cbn. rewrite (H x) by left. f_equal. apply IH. intros y Hy.
  apply H. by right.
Qed.

Lemma NoDup_filter_ids (f : job_row jsonb -> bool) l :
  NoDup (row_id <$> l) -> NoDup (row_id <$> List.filter f l).
Proof.
  induction l as [|r l IH]; [done|]. rewrite fmap_cons, NoDup_cons. intros [Hr Hl]. cbn.
  destruct (f r); [|by apply IH]. rewrite fmap_cons, NoDup_cons. split; [|by apply IH].
  intros (r' & E & [Hin _]%filter_In_elem)%list_elem_of_fmap. apply Hr. rewrite E.
  by apply list_elem_of_fmap_2.
Qed.

(** The rows a statement may lock. *)
Definition eligible role rows (locked : gset string) (condition : job_row jsonb -> bool) r : Prop :=
  rows !! row_id r = Some r /\ may_lock role r = true /\ condition r = true /\ row_id r ∉ locked.

Lemma select_split (collate : string -> string -> Z) role rows locked keys limit condition :
  table_ok rows ->
  exists rest, let picked := select_for_update collate role rows locked keys limit condition in
    (forall r, r ∈ picked ++ rest <-> eligible role rows locked condition r) /\
    NoDup (row_id <$> picked ++ rest) /\
    length picked = Nat.min (Z.to_nat limit) (length (picked ++ rest)) /\
    (forall n, Collation collate -> (forall r, length (keys r) = n) ->
       forall a b, a ∈ picked -> b ∈ rest -> order_by collate keys a b <= 0).
Proof.
  intros Hok. unfold select_for_update. cbn zeta.
  set (l := List.filter _ _). set (sorted := js_sort (order_by collate keys) l).
  exists (drop (Z.to_nat limit) sorted). rewrite take_drop.
  split; [|split; [|split]].
  - intros r. unfold sorted, l. rewrite js_sort_perm, filter_In_elem, elem_of_rows by done.
    unfold eligible. rewrite !andb_true_iff, negb_true_iff, bool_decide_eq_false. tauto.
  - unfold sorted. rewrite js_sort_perm. apply NoDup_filter_ids. rewrite table_ids by done.
    apply NoDup_fst_map_to_list.
  - by rewrite length_take.
  - intros n Hc Hn a b Ha Hb. pose proof (order_by_comparator collate keys n Hc Hn) as Hcmp.
    eapply (StronglySorted_app_1_elem_of (fun a b => order_by collate keys a b <= 0)); [|exact Ha|exact Hb].
    rewrite take_drop. apply (js_sort_sorted (fun _ => True)); [exact Hcmp | by apply Forall_forall].
Qed.

(** The statements keep every constraint. *)

Lemma eqb_decide (P Q : Prop) `{Decision P, Decision Q} :
  Bool.eqb (bool_decide P) (bool_decide Q) = true <-> (P <-> Q).
Proof. rewrite Bool.eqb_true_iff. split; [intros E; by rewrite <- (bool_decide_eq_true P), E, bool_decide_eq_true | by apply bool_decide_ext]. Qed.

Lemma row_checks_iff r :
  row_checks r = true <->
  0 <= attempts r <= MAX_INTEGER /\ (locked_by r = None <-> locked_until r = None) /\
  (status r = PENDING \/ locked_by r = None) /\
  (status r = PUBLISHED <-> published_at r <> None) /\ (status r = FAILED <-> failed_at r <> None) /\
  (forall code, last_error r = Some code ->
     existsb (fun c : OutboxFailureCode => String.eqb (enum_str c) code) enum_values = true) /\
  (ledger_command_id r = None <-> ledger_journal_id r = None).
Proof.
  unfold row_checks. rewrite !andb_true_iff, !orb_true_iff, !andb_true_iff, !eqb_decide, !bool_decide_eq_true,
    !Z.leb_le.
  assert (match last_error r with
          | None => true
          | Some code => existsb (fun c : OutboxFailureCode => String.eqb (enum_str c) code) enum_values
          end = true <->
          (forall code, last_error r = Some code ->
             existsb (fun c : OutboxFailureCode => String.eqb (enum_str c) code) enum_values = true)) as ->.
  { destruct (last_error r); [|done]. split; [by intros ? ? [= <-] | auto]. }
  tauto.
Qed.

Lemma leased_checks token until r :
  row_checks r = true -> status r = PENDING -> row_checks (leased token until r) = true.
Proof.
  rewrite !row_checks_iff. cbn. intros (? & _ & _ & ? & ? & ? & ?) E.
  split_and!; try done; try lia. by left.
Qed.

Lemma published_checks now r : row_checks r = true -> row_checks (published_row now r) = true.
Proof. rewrite !row_checks_iff. cbn. intros (? & _ & _ & _ & _ & _ & ?). split_and!; try done; try lia. by right. Qed.

Lemma failed_checks clock code terminal delay r :
  row_checks r = true -> status r = PENDING -> attempts r < MAX_INTEGER ->
  existsb (fun c : OutboxFailureCode => String.eqb (enum_str c) code) enum_values = true ->
  row_checks (failed_row clock code terminal delay r) = true.
Proof.
  rewrite !row_checks_iff. cbn. intros (? & _ & _ & Hp & _ & _ & ?) E Ha Hc.
  rewrite E in Hp. split_and!; try done; try lia; [by right| | |by intros ? [= <-]].
  - rewrite <- Hp. by destruct terminal.
  - by destruct terminal.
Qed.

Lemma new_row_checks now id envelope attributes link :
  row_checks (new_row (jsonb := jsonb) now id envelope attributes link) = true.
Proof. destruct link; vm_compute; reflexivity. Qed.

Lemma write_all_ok rows news :
  table_ok rows -> Forall (fun r => row_checks r = true) news -> table_ok (write_all rows news).
Proof.
  revert rows. induction news as [|r news IH]; intros rows H Hn; [done|].
  apply Forall_cons in Hn as [Hr Hn]. apply IH; [|done]. intros id r'.
  rewrite lookup_insert_Some. intros [[<- <-]|[_ ?]]; [done | by apply H].
Qed.

Lemma claimable_pending clock maxAttempts r :
  claimable clock maxAttempts r = true ->
  status r = PENDING /\ attempts r < maxAttempts /\ available_at r <= clock (row_id r) 0%nat /\
  (forall until, locked_until r = Some until -> until <= clock (row_id r) 1%nat).
Proof.
  unfold claimable. rewrite !andb_true_iff, bool_decide_eq_true, Z.ltb_lt, Z.leb_le.
  intros [[[-> ?] Hu] ?]. split_and!; try done. intros lease E. rewrite E in Hu. by apply Z.leb_le.
Qed.

Lemma may_lock_pending role r : status r = PENDING -> may_lock role r = true.
Proof. unfold may_lock, may_update. destruct role; [done|]. intros ->. done. Qed.

(** The rows of [claimBatch] under their new lease. *)
Definition lease_of (clock : string -> nat -> Z) (options : ClaimOutboxJobsOptions) r : job_row jsonb :=
  leased (dispatcherId options) (clock (row_id r) 2%nat + leaseMs options * MICROSECONDS) r.

Lemma lease_of_ids clock options (l : list (job_row jsonb)) : row_id <$> (lease_of clock options <$> l) = row_id <$> l.
Proof. rewrite <- list_fmap_compose. by apply list_fmap_ext. Qed.

Lemma claim_rows_spec (collate : string -> string -> Z) role rows locked clock options :
  table_ok rows ->
  exists picked rest,
    (forall r, r ∈ picked ++ rest <->
       rows !! row_id r = Some r /\ claimable clock (maxAttempts options) r = true /\ row_id r ∉ locked) /\
    NoDup (row_id <$> picked ++ rest) /\
    length picked = Nat.min (Z.to_nat (batchSize options)) (length (picked ++ rest)) /\
    (Collation collate -> forall a b, a ∈ picked -> b ∈ rest ->
       order_by collate (fun r => [available_at r; created_at r]) a b <= 0) /\
    claim_rows collate role rows locked clock options =
      Ok (lease_of clock options <$> picked, write_all rows (lease_of clock options <$> picked)) /\
    table_ok (write_all rows (lease_of clock options <$> picked)).
Proof.
  intros Hok.
  destruct (select_split collate role rows locked (fun r => [available_at r; created_at r]) (batchSize options)
              (claimable clock (maxAttempts options)) Hok) as (rest & Hel & Hnd & Hlen & Hord).
  cbn zeta in *. set (picked := select_for_update _ _ _ _ _ _ _) in *.
  exists picked, rest.
  assert (Hleased : Forall (fun r => row_checks r = true) (lease_of clock options <$> picked)).
  { apply Forall_fmap, Forall_forall. intros r Hr.
    destruct (proj1 (Hel r)) as (Hrow & _ & Hc & _); [apply elem_of_app; by left|].
    apply leased_checks; [by apply (table_row rows (row_id r)) | by eapply claimable_pending]. }
  split; [|split; [done|split; [done|split; [|split]]]].
  - intros r. rewrite Hel. unfold eligible. split; [tauto|]. intros (H1 & H2 & H3). split_and!; try done.
    apply may_lock_pending. by eapply claimable_pending.
  - intros Hc. by apply (Hord 2%nat).
  - unfold claim_rows. fold picked. fold (lease_of clock options). rewrite write_rows_eq; [done|].
    eapply Forall_impl; [exact Hleased|]. intros r Hr. split; [done | apply may_become_any].
  - by apply write_all_ok.
Qed.

(** A row under a token. *)
Lemma leased_row_some role rows id token r :
  leased_row role rows id token = Some r <->
  rows !! id = Some r /\ status r = PENDING /\ locked_by r = Some token.
Proof.
  unfold leased_row, option_string_eqb. destruct (rows !! id) as [r'|]; [|by split; [|intros [? _]]].
  destruct (may_update role r' && _ && _) eqn:E.
  - rewrite !andb_true_iff, !bool_decide_eq_true in E. destruct E as [[_ ?] ?].
    split; [by intros [= <-] | by intros ([= <-] & _)].
  - split; [done|]. intros ([= <-] & Hs & Hl). rewrite !andb_false_iff, !bool_decide_eq_false in E.
    pose proof (may_lock_pending role r' Hs) as Hm. unfold may_lock in Hm.
    destruct E as [[E|E]|E]; congruence.
Qed.

Lemma markPublished_eq role rows now id token :
  table_ok rows ->
  markPublished role rows now id token =
    Ok (match leased_row role rows id token with
        | Some r => (true, <[id := published_row now r]> rows)
        | None => (false, rows)
        end).
Proof.
  intros Hok. unfold markPublished. destruct (leased_row role rows id token) as [r|] eqn:E; [|done].
  apply leased_row_some in E as (Hr & _ & _). destruct (Hok _ _ Hr) as [<- Hc].
  rewrite write_rows_eq; [done|]. apply Forall_singleton. split; [by apply published_checks | apply may_become_any].
Qed.

Definition failure_code_ok (code : string) : Prop :=
  existsb (fun c : OutboxFailureCode => String.eqb (enum_str c) code) enum_values = true.

Lemma recordFailure_eq role rows clock id token code terminal delay :
  table_ok rows -> 0 <= delay <= 900000 -> failure_code_ok code ->
  (forall r, leased_row role rows id token = Some r -> attempts r < MAX_INTEGER) ->
  recordFailure role rows clock id token code terminal delay =
    Ok (match leased_row role rows id token with
        | Some r => (if terminal then TERMINAL_FAILURE else RETRY,
                     <[id := failed_row clock code terminal delay r]> rows)
        | None => (LEASE_LOST, rows)
        end).
Proof.
  intros Hok Hd Hc Hmax. unfold recordFailure.
  replace ((delay <? 0) || (900000 <? delay)) with false by lia.
  rewrite Hc. cbn [negb]. destruct (leased_row role rows id token) as [r|] eqn:E; [|done].
  specialize (Hmax r eq_refl). apply leased_row_some in E as (Hr & Hp & _).
  destruct (Hok _ _ Hr) as [<- Hk]. rewrite write_rows_eq; [by destruct terminal|].
  apply Forall_singleton. split; [by apply failed_checks | apply may_become_any].
Qed.

Definition delete_all rows (deleted : list (job_row jsonb)) : outbox jsonb :=
  foldr (fun r rows => delete (row_id r) rows) rows deleted.

Lemma delete_all_in rows deleted id : id ∈ row_id <$> deleted -> delete_all rows deleted !! id = None.
Proof.
  induction deleted as [|r deleted IH]; [by intros ?%not_elem_of_nil|]. rewrite fmap_cons, elem_of_cons. cbn.
  destruct (decide (id = row_id r)) as [->|Hne]; [intros _; apply lookup_delete_eq|].
  intros [?|Hid]; [done|]. rewrite lookup_delete_ne by done. by apply IH.
Qed.

Lemma delete_all_notin rows deleted id :
  id ∉ row_id <$> deleted -> delete_all rows deleted !! id = rows !! id.
Proof.
  induction deleted as [|r deleted IH]; [done|]. rewrite fmap_cons, not_elem_of_cons. cbn. intros [Hne Hid].
  rewrite lookup_delete_ne by done. by apply IH.
Qed.

Lemma delete_all_ok rows deleted : table_ok rows -> table_ok (delete_all rows deleted).
Proof.
  intros Hok id r Hr. apply Hok. destruct (decide (id ∈ row_id <$> deleted)) as [Hid|Hid].
  - by rewrite delete_all_in in Hr.
  - by rewrite delete_all_notin in Hr.
Qed.

(** What retention is about: settled rows past their age. *)
Definition expired (options : CleanupOutboxJobsOptions) (now : Z) r : bool :=
  published_expired options now r || failed_expired options now r.

Lemma published_expired_status options now r : published_expired options now r = true -> status r = PUBLISHED.
Proof. unfold published_expired. rewrite andb_true_iff, bool_decide_eq_true. tauto. Qed.

Lemma failed_expired_status options now r : failed_expired options now r = true -> status r = FAILED.
Proof. unfold failed_expired. rewrite andb_true_iff, bool_decide_eq_true. tauto. Qed.

Lemma expired_deletable role options now r : expired options now r = true -> deletable role (∅ : outbox jsonb) r = true.
Proof.
  intros [E%published_expired_status | E%failed_expired_status]%orb_true_iff;
    unfold deletable, may_delete; rewrite E; by destruct role.
Qed.

Lemma worker_locks_nothing options now r :
  expired options now r = true -> may_lock WORKER_RUNTIME r = false.
Proof.
  intros [E%published_expired_status | E%failed_expired_status]%orb_true_iff;
    unfold may_lock, may_update; by rewrite E.
Qed.

Lemma select_none (collate : string -> string -> Z) role rows locked keys limit (condition : job_row jsonb -> bool) :
  (forall r, condition r = true -> may_lock role r = false) ->
  select_for_update collate role rows locked keys limit condition = [].
Proof.
  intros H. unfold select_for_update. rewrite filter_none; [apply take_nil|].
  intros r. destruct (condition r) eqn:E; [by rewrite (H r E)|]. by rewrite andb_false_r.
Qed.
Lemma claimBatch_ok (jsonb_out : jsonb -> jsval) sha256 collate role rows locked clock options claimed rows' :
  table_ok rows ->
  claimBatch jsonb_out sha256 collate role rows locked clock options = (Ok claimed, rows') ->
  exists picked,
    NoDup (row_id <$> picked) /\
    (forall r, r ∈ picked -> rows !! row_id r = Some r /\ claimable clock (maxAttempts options) r = true) /\
    Forall2 (fun r job => claimed_job jsonb_out sha256 r = Some job) picked claimed /\
    rows' = write_all rows (lease_of clock options <$> picked) /\ table_ok rows'.
Proof.
  intros Hok. destruct (claim_rows_spec collate role rows locked clock options Hok)
    as (picked & rest & Hel & Hnd & _ & _ & E & Hok').
  unfold claimBatch. destruct (validateClaimOptions options); [|done]. rewrite E.
  destruct (mapM _ _) as [jobs|] eqn:Em; [|done]. intros [= -> <-]. exists picked.
  rewrite fmap_app in Hnd. apply NoDup_app in Hnd as [Hnd _]. split_and!; [done| | |done|done].
  - intros r Hr. destruct (proj1 (Hel r)) as (? & ? & _); [apply elem_of_app; by left | done].
  - apply mapM_Some, Forall2_fmap_l in Em. done.
Qed.

(** The table after a claim. *)
Lemma claimed_rows_lookup clock options rows (picked : list (job_row jsonb)) id r :
  NoDup (row_id <$> picked) -> write_all rows (lease_of clock options <$> picked) !! id = Some r ->
  (exists r0, r0 ∈ picked /\ row_id r0 = id /\ r = lease_of clock options r0) \/
  (id ∉ row_id <$> picked /\ rows !! id = Some r).
Proof.
  intros Hnd Hr. destruct (decide (id ∈ row_id <$> picked)) as [Hid|Hid].
  - left. apply list_elem_of_fmap in Hid as (r0 & -> & Hr0). exists r0. split_and!; [done..|].
    pose proof (write_all_in rows (lease_of clock options <$> picked) (lease_of clock options r0)) as Hw.
    rewrite lease_of_ids in Hw. specialize (Hw Hnd (list_elem_of_fmap_2 _ _ _ Hr0)).
    change (row_id (lease_of clock options r0)) with (row_id r0) in Hw. congruence.
  - right. by rewrite write_all_notin in Hr by (by rewrite lease_of_ids).
Qed.

Lemma select_row role rows locked keys limit condition (collate : string -> string -> Z) r :
  table_ok rows -> r ∈ select_for_update collate role rows locked keys limit condition ->
  rows !! row_id r = Some r.
Proof.
  intros Hok Hr. destruct (select_split collate role rows locked keys limit condition Hok) as (rest & Hel & _).
  apply Hel. apply elem_of_app. by left.
Qed.

(** Whoever runs it, retention deletes settled rows of the table. *)
Lemma deleteExpired_rows collate role rows locked now options n rows' :
  table_ok rows -> deleteExpired collate role rows locked now options = Ok (n, rows') ->
  exists deleted, rows' = delete_all rows deleted /\
    forall r, r ∈ deleted -> rows !! row_id r = Some r /\ status r <> PENDING.
Proof.
  intros Hok. unfold deleteExpired. destruct (validateCleanupOptions options); [|done]. cbn [rbind].
  intros [= _ <-]. eexists. split; [done|]. intros r [Hr Hd]%filter_In_elem. split.
  - unfold terminal_candidates in Hr.
    assert (Hin : forall (l : list (job_row jsonb)) k, r ∈ take k l -> r ∈ l).
    { intros l k H. rewrite <- (take_drop k l). apply elem_of_app. by left. }
    apply Hin in Hr. rewrite js_sort_perm in Hr. apply elem_of_app in Hr as [Hr|Hr]; by eapply select_row.
  - unfold deletable in Hd. apply andb_true_iff in Hd as [_ Hd]. rewrite orb_true_iff, !bool_decide_eq_true in Hd.
    intros E. rewrite E in Hd. by destruct Hd.
Qed.

Lemma insert_job_ok rows now id envelope attributes link rows' :
  insert_job rows (new_row (jsonb := jsonb) now id envelope attributes link) = Ok rows' ->
  rows !! id = None /\ rows' = <[id := new_row now id envelope attributes link]> rows.
Proof.
  unfold insert_job. destruct (_ || _) eqn:E; [done|]. apply orb_false_iff in E as [E _].
  rewrite write_rows_eq.
  - intros [= <-]. split; [|done]. apply bool_decide_eq_false in E. cbn in E. by apply eq_None_not_Some.
  - apply Forall_singleton. split; [apply new_row_checks | apply may_become_any].
Qed.

(** What the owner's DELETE picks. *)
Lemma owner_candidates (collate : string -> string -> Z) rows locked now options :
  table_ok rows ->
  let deleted := terminal_candidates collate SCHEMA_OWNER rows locked now options in
  List.filter (deletable SCHEMA_OWNER rows) deleted = deleted /\ NoDup (row_id <$> deleted) /\
  (length deleted <= Z.to_nat (cleanup_batchSize options))%nat /\
  (forall r, r ∈ deleted -> rows !! row_id r = Some r /\ expired options now r = true /\ row_id r ∉ locked) /\
  ((length deleted < Z.to_nat (cleanup_batchSize options))%nat ->
     forall r, rows !! row_id r = Some r -> expired options now r = true -> row_id r ∉ locked -> r ∈ deleted).
Proof.
  intros Hok. unfold terminal_candidates. cbn zeta.
  destruct (select_split collate SCHEMA_OWNER rows locked (fun r => [from_option id 0 (published_at r)])
              (cleanup_batchSize options) (published_expired options now) Hok) as (prest & Hpel & Hpnd & Hplen & _).
  destruct (select_split collate SCHEMA_OWNER rows locked (fun r => [from_option id 0 (failed_at r)])
              (cleanup_batchSize options) (failed_expired options now) Hok) as (frest & Hfel & Hfnd & Hflen & _).
  cbn zeta in *.
  set (published := select_for_update _ _ _ _ _ _ (published_expired _ _)) in *.
  set (failed := select_for_update _ _ _ _ _ _ (failed_expired _ _)) in *.
  set (n := Z.to_nat (cleanup_batchSize options)) in *.
  set (candidates := js_sort _ (published ++ failed)).
  assert (Hp : candidates ≡ₚ published ++ failed) by apply js_sort_perm.
  assert (Hexp : forall r, r ∈ published ++ prest \/ r ∈ failed ++ frest <->
            rows !! row_id r = Some r /\ expired options now r = true /\ row_id r ∉ locked).
  { intros r. rewrite Hpel, Hfel. unfold eligible, expired. rewrite orb_true_iff. cbn. tauto. }
  assert (Hin : forall r, r ∈ take n candidates ->
            rows !! row_id r = Some r /\ expired options now r = true /\ row_id r ∉ locked).
  { intros r Hr. apply Hexp. assert (r ∈ candidates) as Hc by (rewrite <- (take_drop n); apply elem_of_app; by left).
    rewrite Hp in Hc. apply elem_of_app in Hc as [?|?]; [left|right]; apply elem_of_app; by left. }
  split; [|split; [|split; [|split]]].
  - apply filter_all. intros r Hr. apply Hin in Hr as (_ & H & _). by apply (expired_deletable SCHEMA_OWNER) in H.
  - apply NoDup_app with (k := row_id <$> drop n candidates). rewrite <- fmap_app, take_drop, Hp, fmap_app.
    rewrite fmap_app in Hpnd, Hfnd. apply NoDup_app in Hpnd as [Hpnd _], Hfnd as [Hfnd _].
    apply NoDup_app. split; [done|]. split; [|done]. intros id (r & -> & Hr)%list_elem_of_fmap.
    intros (r' & E & Hr')%list_elem_of_fmap.
    destruct (proj1 (Hpel r)) as (H1 & _ & Hs & _); [apply elem_of_app; by left|].
    destruct (proj1 (Hfel r')) as (H2 & _ & Hs' & _); [apply elem_of_app; by left|].
    rewrite E in H1. rewrite H1 in H2. injection H2 as ->.
    apply published_expired_status in Hs. apply failed_expired_status in Hs'. congruence.
  - rewrite length_take. lia.
  - exact Hin.
  - rewrite length_take. intros Hlt r H1 H2 H3.
    assert (Hc : length candidates = (length published + length failed)%nat) by (rewrite Hp; apply length_app).
    rewrite take_ge by lia. rewrite Hp.
    rewrite length_app in Hplen, Hflen.
    destruct prest as [|? prest]; [|cbn [length] in *; lia]. destruct frest as [|? frest]; [|cbn [length] in *; lia].
    rewrite !app_nil_r in *. apply elem_of_app. by apply Hexp.
Qed.
End lemmas.

(** ** Theorems *)

(** A dispatch pass claims the oldest due work and nothing else.  The rows
    [claimBatch] takes are pending, due, unleased (or with an expired lease),
    below the attempt limit and not locked by another transaction; they are as
    many as the batch allows, and none is younger than a row left behind.  Each
    gets the pass's token and a lease until its reading of the clock plus
    [leaseMs], every other row is untouched, and all constraints still hold.
    When one of the rows cannot be read back, nothing is claimed at all. *)
Theorem claim_exact {jsonb} (jsonb_out : jsonb -> jsval) sha256 collate role rows locked clock options :
  Collation collate -> table_ok rows -> validateClaimOptions options = Ok tt ->
  exists picked rest,
    (forall r, r ∈ picked ++ rest <->
       rows !! row_id r = Some r /\ claimable clock (maxAttempts options) r = true /\ row_id r ∉ locked) /\
    NoDup (row_id <$> picked ++ rest) /\
    length picked = Nat.min (Z.to_nat (batchSize options)) (length (picked ++ rest)) /\
    (forall a b, a ∈ picked -> b ∈ rest -> order_by collate (fun r => [available_at r; created_at r]) a b <= 0) /\
    match mapM (claimed_job jsonb_out sha256) (lease_of clock options <$> picked) with
    | None => claimBatch jsonb_out sha256 collate role rows locked clock options = (Err InvalidRow, rows)
    | Some jobs =>
        exists rows', claimBatch jsonb_out sha256 collate role rows locked clock options = (Ok jobs, rows') /\
          table_ok rows' /\
          (forall r, r ∈ picked -> rows' !! row_id r = Some (lease_of clock options r)) /\
          (forall id, id ∉ row_id <$> picked -> rows' !! id = rows !! id)
    end.
Proof.
  intros Hc Hok Ho.
  destruct (claim_rows_spec collate role rows locked clock options Hok)
    as (picked & rest & Hel & Hnd & Hlen & Hord & E & Hok').
  exists picked, rest. split; [done|]. split; [done|]. split; [done|]. split; [by apply Hord|].
  assert (forall jobs, mapM (claimed_job jsonb_out sha256) (lease_of clock options <$> picked) = jobs ->
    claimBatch jsonb_out sha256 collate role rows locked clock options =
      match jobs with
      | Some jobs => (Ok jobs, write_all rows (lease_of clock options <$> picked))
      | None => (Err InvalidRow, rows)
      end) as Hclaim.
  { intros jobs <-. unfold claimBatch. by rewrite Ho, E. }
  destruct (mapM _ _) as [jobs|]; specialize (Hclaim _ eq_refl); [|exact Hclaim].
  eexists. split; [exact Hclaim|]. split; [done|]. rewrite fmap_app in Hnd. apply NoDup_app in Hnd as [Hnd _].
  split.
  - intros r Hr. apply (write_all_in rows _ (lease_of clock options r)); [by rewrite lease_of_ids|].
    by apply list_elem_of_fmap_2.
  - intros id Hid. apply write_all_notin. by rewrite lease_of_ids.
Qed.

(** C37: Retention.  Run by the owner of the table, [deleteExpired] deletes at
    most a batch of settled rows past their retention and leaves every other row;
    when it deletes less than a batch, no expired row is left that another
    transaction does not hold.  Run by the worker it deletes nothing: locking a
    row needs the UPDATE policy, which shows the worker pending rows only. *)
Theorem cleanup_exact {jsonb} collate (rows : outbox jsonb) locked now options :
  table_ok rows -> validateCleanupOptions options = Ok tt ->
  deleteExpired collate WORKER_RUNTIME rows locked now options = Ok (0%nat, rows) /\
  exists deleted,
    deleteExpired collate SCHEMA_OWNER rows locked now options = Ok (length deleted, delete_all rows deleted) /\
    NoDup (row_id <$> deleted) /\ (length deleted <= Z.to_nat (cleanup_batchSize options))%nat /\
    (forall r, r ∈ deleted ->
       rows !! row_id r = Some r /\ expired options now r = true /\ row_id r ∉ locked) /\
    (forall id r, rows !! id = Some r -> expired options now r = false -> delete_all rows deleted !! id = Some r) /\
    ((length deleted < Z.to_nat (cleanup_batchSize options))%nat ->
       forall id r, delete_all rows deleted !! id = Some r -> expired options now r = true -> id ∈ locked).
Proof.
  intros Hok Ho. unfold deleteExpired. rewrite Ho. cbn [rbind]. split.
  { unfold terminal_candidates. rewrite !select_none; [cbn; by rewrite take_nil| |];
      intros r E; apply (worker_locks_nothing options now); unfold expired; rewrite E; by rewrite ?orb_true_r. }
  destruct (owner_candidates collate rows locked now options Hok) as (E & Hnd & Hlen & Hin & Hall).
  cbn zeta in *. set (deleted := terminal_candidates _ _ _ _ _ _) in *. exists deleted. rewrite E.
  split; [done|]. split; [done|]. split; [done|]. split; [done|]. split.
  - intros id r Hr Hexp. rewrite delete_all_notin; [done|]. intros (r' & -> & H')%list_elem_of_fmap.
    apply Hin in H' as (Hr' & Hexp' & _). congruence.
  - intros Hlt id r Hr Hexp. destruct (decide (id ∈ locked)) as [|Hl]; [done|]. exfalso.
    destruct (decide (id ∈ row_id <$> deleted)) as [Hid|Hid]; [by rewrite delete_all_in in Hr|].
    rewrite delete_all_notin in Hr by done. destruct (Hok _ _ Hr) as [<- _]. apply Hid.
    apply list_elem_of_fmap_2. by apply Hall.
Qed.

(** ** Examples: a table with a waiting and a published job *)

Definition collate_example (a b : string) : Z :=
  if String.eqb a b then 0 else if str_lt a b then -1 else 1.

#[export] Instance collation_example : Collation collate_example.
Proof.
  apply (lexical_comparator (fun _ : string => True) id (fun _ _ => 0)). by split.
Qed.

(** A jsonb value read back as it is. *)
Definition attributes_example : jsval := js_object [("kind", VStr "account.updated")].

Definition waiting_row : job_row jsval :=
  new_row 1000 (env_id job_envelope_example) (envelope_js job_envelope_example) attributes_example None.

Definition settled_row : job_row jsval :=
  published_row 2000 (new_row 1000 (job_uuid "9"%char) (envelope_js job_envelope_example) attributes_example None).

Definition outbox_example : outbox jsval :=
  {[ row_id waiting_row := waiting_row; row_id settled_row := settled_row ]}.

Definition claim_options_example : ClaimOutboxJobsOptions :=
  {| dispatcherId := "worker-1:pass-1"; batchSize := 25; leaseMs := 30000; maxAttempts := 5 |}.

Definition cleanup_options_example : CleanupOutboxJobsOptions :=
  {| cleanup_batchSize := 100; failedRetentionMs := 60000; publishedRetentionMs := 60000 |}.

Definition clock_example (_ : string) (_ : nat) : Z := 5000.

Lemma outbox_example_ok : table_ok outbox_example.
Proof.
  intros id r. unfold outbox_example. rewrite lookup_insert_Some, lookup_singleton_Some.
  by intros [[<- <-]|[_ [<- <-]]].
Qed.

Example claim_example :
  claimBatch id job_sha256_example collate_example WORKER_RUNTIME outbox_example ∅ clock_example
    claim_options_example =
  (Ok [{| job_id := env_id job_envelope_example; job_destination := "jobs"; job_envelope := job_envelope_example;
          job_messageAttributes := [("kind", "account.updated")]; job_ledgerLink := None; job_attempts := 0 |}],
   <[row_id waiting_row := lease_of clock_example claim_options_example waiting_row]> outbox_example).
Proof. vm_compute. reflexivity. Qed.

Example cleanup_example :
  deleteExpired collate_example SCHEMA_OWNER outbox_example ∅ 100000000000 cleanup_options_example =
  Ok (1%nat, {[ row_id waiting_row := waiting_row ]}).
Proof. vm_compute. reflexivity. Qed.

Lemma claim_exact_witness :
  exists picked rest : list (job_row jsval), NoDup (row_id <$> picked ++ rest) /\ length picked = 1%nat.
Proof.
  destruct (claim_exact id job_sha256_example collate_example WORKER_RUNTIME outbox_example ∅ clock_example
              claim_options_example collation_example outbox_example_ok eq_refl)
    as (picked & rest & Hel & Hnd & Hlen & _).
  exists picked, rest. split; [exact Hnd|].
  assert (Hw : waiting_row ∈ picked ++ rest) by (apply Hel; split_and!; [reflexivity | reflexivity | set_solver]).
  assert (Hall : forall r, r ∈ picked ++ rest -> r = waiting_row).
  { intros r (Hr & Hc & _)%Hel. unfold outbox_example in Hr.
    rewrite lookup_insert_Some, lookup_singleton_Some in Hr. destruct Hr as [[_ <-]|[_ [_ <-]]]; [done|].
    vm_compute in Hc. discriminate. }
  destruct (picked ++ rest) as [|a [|b l]]; [by apply not_elem_of_nil in Hw | exact Hlen |].
  rewrite (Hall a), (Hall b) in Hnd by (repeat (left || right)). inversion Hnd as [|? ? Hx]; subst.
  exfalso. apply Hx. left.
Defined.

Lemma cleanup_exact_witness :
  deleteExpired collate_example WORKER_RUNTIME outbox_example ∅ 100000000000 cleanup_options_example =
  Ok (0%nat, outbox_example).
Proof.
  exact (proj1 (cleanup_exact collate_example outbox_example ∅ 100000000000 cleanup_options_example
                  outbox_example_ok eq_refl)).
Defined.
