(* ===== verification/OutboxDispatcher.v ===== *)
(** * The outbox dispatcher (apps/api/src/infrastructure/outbox/outbox-dispatcher.service.ts)

    One pass claims a batch of jobs, hands each to the transport and settles it
    in the table.  [dispatchOne], [dispatchMany] and the two settlements are
    trees of calls; what a pass awaits with [Promise.all] are lists of such
    trees, which OutboxSystem interleaves.  A read of [shutdownSignal?.aborted],
    of [timedOut] and an update of the shared summary are calls too, for other
    work may run before them.

    Telemetry (spans, metrics, log lines) is left out: it is caught where it is
    called, and [runWithDiagnosticSpan] runs the operation exactly once whatever
    the span does.  The logging context each job runs under is not left out,
    since entering an invalid one throws.  A context that throws inside
    [jobs.map] would also keep the later jobs of the batch from starting; here
    only its own job fails.  No claimed job has such a context
    ([job_context_total]). *)

From stdpp Require Import base list strings gmap.
From Stdlib Require Import ZArith Lia Ascii.
From S2P Require Import Prelude Text Effects JsValue JsCollections LogContext JobEnvelope OutboxTable.

Open Scope Z_scope.

(** ** Data *)

Record OutboxDispatcherOptions : Type := {
  dispatch_batchSize : Z;
  cleanupBatchSize : Z;
  cleanupIntervalMs : Z;
  concurrency : Z;
  dispatch_failedRetentionMs : Z;
  dispatch_leaseMs : Z;
  dispatch_maxAttempts : Z;
  publishTimeoutMs : Z;
  dispatch_publishedRetentionMs : Z;
  retryBaseDelayMs : Z;
  retryMaxDelayMs : Z;
}.

(** The ranges that [loadOutboxDispatcherOptions] (outbox-dispatcher.options.ts) enforces. *)
Definition options_in_range (o : OutboxDispatcherOptions) : bool :=
  (1 <=? dispatch_batchSize o) && (dispatch_batchSize o <=? 100)
  && (1000 <=? dispatch_leaseMs o) && (dispatch_leaseMs o <=? 900000)
  && (1 <=? retryBaseDelayMs o) && (retryBaseDelayMs o <=? 900000)
  && (retryBaseDelayMs o <=? retryMaxDelayMs o) && (retryMaxDelayMs o <=? 900000)
  && (1 <=? cleanupBatchSize o) && (cleanupBatchSize o <=? 1000)
  && (10000 <=? cleanupIntervalMs o) && (cleanupIntervalMs o <=? 86400000)
  && (1 <=? concurrency o) && (concurrency o <=? dispatch_batchSize o)
  && (60000 <=? dispatch_failedRetentionMs o) && (dispatch_failedRetentionMs o <=? 315360000000)
  && (1 <=? dispatch_maxAttempts o) && (dispatch_maxAttempts o <=? 100)
  && (100 <=? publishTimeoutMs o) && (publishTimeoutMs o <=? Z.max 100 (dispatch_leaseMs o - 500))
  && (60000 <=? dispatch_publishedRetentionMs o) && (dispatch_publishedRetentionMs o <=? 315360000000).

Record OutboxTransportMessage : Type := {
  msg_destination : string;
  msg_envelope : JobEnvelope;
  msg_messageAttributes : list (string * string);
  msg_ledgerLink : option LedgerOutboxLink;
}.

Inductive dispatch_error : Type :=
| TransportTimeout
| TransportRejected
| InvalidBatchResult
| OmittedResult
| Repository (e : outbox_error)
| Disconnected
| InvalidContext.

Inductive OutboxTransportBatchResult : Type :=
| PublishedResult
| FailedResult (error : dispatch_error).

(** What the dispatcher reads of the transport: is [publishBatch] there, and the
    safe integer [maxBatchSize], if it is one. *)
Record OutboxTransport : Type := {
  has_publishBatch : bool;
  maxBatchSize : option Z;
}.

Record OutboxDispatchSummary : Type := {
  sum_claimed : Z;
  sum_published : Z;
  sum_retried : Z;
  sum_failed : Z;
  sum_leaseLost : Z;
}.

Inductive summary_field : Type := PublishedField | RetriedField | FailedField | LeaseLostField.

Definition count_in (f : summary_field) (n : Z) (s : OutboxDispatchSummary) : OutboxDispatchSummary :=
  {| sum_claimed := sum_claimed s;
     sum_published := sum_published s + match f with PublishedField => n | _ => 0 end;
     sum_retried := sum_retried s + match f with RetriedField => n | _ => 0 end;
     sum_failed := sum_failed s + match f with FailedField => n | _ => 0 end;
     sum_leaseLost := sum_leaseLost s + match f with LeaseLostField => n | _ => 0 end |}.

(** ** Calls *)

Inductive dispatch_call : Type :=
| Aborted
| TimedOut
| Publish (message : OutboxTransportMessage)
| PublishBatch (messages : list OutboxTransportMessage)
| MarkPublished (id token : string)
| RecordFailure (id token code : string) (terminal : bool) (retryDelayMs : Z)
| Count (f : summary_field) (n : nat).

Definition dispatch_answer (c : dispatch_call) : Type :=
  match c with
  | Aborted | TimedOut | MarkPublished _ _ => bool
  | Publish _ | Count _ _ => unit
  | PublishBatch _ => list (option OutboxTransportBatchResult)
  | RecordFailure _ _ _ _ _ => OutboxFailureTransition
  end.

Notation job_io := (io dispatch_answer dispatch_error).
Notation dcall := (call (ans := dispatch_answer) (X := dispatch_error)).

Section dispatcher.
Context (sha256 : string -> string) (options : OutboxDispatcherOptions) (transport : OutboxTransport).

(** ** Contexts *)

(** [{ ...job.envelope.correlation, ...(diagnosticJobId ? { jobId } : {}) }] *)
Definition job_context_object (job : ClaimedOutboxJob) : jsval :=
  let correlation := env_correlation (job_envelope job) in
  let context := match createSafeLogReference sha256 (job_id job) with
                 | Some diagnosticJobId => <["jobId" := diagnosticJobId]> correlation
                 | None => correlation
                 end in
  VObj PObject (omap (fun key => (fun v => (KStr key, DData (VStr v) true)) <$> context !! key) CONTEXT_KEYS).

(** [loggingContext.run(context, work)] *)
Definition in_job_context {A} (job : ClaimedOutboxJob) (work : job_io A) : job_io A :=
  match LoggingContext_run (job_context_object job) with
  | Ok _ => work
  | Err _ => Done (Err InvalidContext)
  end.

(** ** Settlements *)

Definition failureCode (error : dispatch_error) : OutboxFailureCode :=
  match error with
  | TransportTimeout => OUTBOX_TRANSPORT_TIMEOUT
  | _ => OUTBOX_TRANSPORT_FAILED
  end.

Definition retry_delay (attempts : Z) (terminal : bool) : Z :=
  if terminal then 0 else Z.min (retryBaseDelayMs options * 2 ^ attempts) (retryMaxDelayMs options).

Definition markTransportPublished (job : ClaimedOutboxJob) (claimToken : string) : job_io unit :=
  in_job_context job
    (await* marked := dcall (MarkPublished (job_id job) claimToken) in
     dcall (Count (if marked then PublishedField else LeaseLostField) 1)).

Definition recordTransportFailure (job : ClaimedOutboxJob) (claimToken : string) (error : dispatch_error)
    : job_io unit :=
  in_job_context job
    (let nextAttempt := job_attempts job + 1 in
     let terminal := dispatch_maxAttempts options <=? nextAttempt in
     await* transition :=
       dcall (RecordFailure (job_id job) claimToken (enum_str (failureCode error)) terminal
                (retry_delay (job_attempts job) terminal)) in
     dcall (Count (match transition with
                   | RETRY => RetriedField
                   | TERMINAL_FAILURE => FailedField
                   | LEASE_LOST => LeaseLostField
                   end) 1)).

(** ** Publishing *)

Definition message_of (job : ClaimedOutboxJob) : OutboxTransportMessage :=
  {| msg_destination := job_destination job; msg_envelope := job_envelope job;
     msg_messageAttributes := job_messageAttributes job; msg_ledgerLink := job_ledgerLink job |}.

(** The operation, with a rejection after the deadline replaced by the timeout
    error. *)
Definition withTransportDeadline {A} (operation : job_io A) : job_io A :=
  io_try operation
    (fun error => await* timedOut := dcall TimedOut in
                  Done (Err (if timedOut then TransportTimeout else error))).

Definition dispatchOne (job : ClaimedOutboxJob) (claimToken : string) : job_io unit :=
  in_job_context job
    (await* aborted := dcall Aborted in
     if aborted then dcall (Count LeaseLostField 1)
     else
       in_job_context job (
       await* outcome := attempt (withTransportDeadline (dcall (Publish (message_of job)))) in
       match outcome with
       | Err error =>
           await* aborted := dcall Aborted in
           if aborted then dcall (Count LeaseLostField 1)
           else recordTransportFailure job claimToken error
       | Ok _ => markTransportPublished job claimToken
       end)).

(** [jobs.map((job) => this.startPublishSpan(job))] throws where a context does. *)
Definition start_spans {A} (jobs : list ClaimedOutboxJob) (work : job_io A) : job_io A :=
  foldr in_job_context work jobs.

(** A batch up to its last [Promise.all]: the trees awaited there. *)
Definition dispatchMany (jobs : list ClaimedOutboxJob) (claimToken : string) : job_io (list (job_io unit)) :=
  await* aborted := dcall Aborted in
  if aborted then await* _ := dcall (Count LeaseLostField (length jobs)) in Done (Ok [])
  else if (length jobs =? 1)%nat || negb (has_publishBatch transport) then
    Done (Ok ((fun job => dispatchOne job claimToken) <$> jobs))
  else
    start_spans jobs (
    await* outcome :=
      attempt (await* results := withTransportDeadline (dcall (PublishBatch (message_of <$> jobs))) in
               Done (reject InvalidBatchResult when negb (length results =? length jobs)%nat in Ok results)) in
    match outcome with
    | Err error =>
        await* aborted := dcall Aborted in
        if aborted then await* _ := dcall (Count LeaseLostField (length jobs)) in Done (Ok [])
        else Done (Ok ((fun job => recordTransportFailure job claimToken error) <$> jobs))
    | Ok results =>
        await* aborted := dcall Aborted in
        Done (Ok (zip_with
          (fun job result =>
             match result with
             | Some PublishedResult => markTransportPublished job claimToken
             | _ =>
                 if (aborted : bool) then dcall (Count LeaseLostField 1)
                 else recordTransportFailure job claimToken
                        (match result with Some (FailedResult error) => error | _ => OmittedResult end)
             end) jobs results))
    end).

(** ** A pass *)

(** The options of [claimBatch]. *)
Definition claim_options (claimToken : string) : ClaimOutboxJobsOptions :=
  {| dispatcherId := claimToken; batchSize := dispatch_batchSize options; leaseMs := dispatch_leaseMs options;
     maxAttempts := dispatch_maxAttempts options |}.

Definition cleanup_options : CleanupOutboxJobsOptions :=
  {| cleanup_batchSize := cleanupBatchSize options; failedRetentionMs := dispatch_failedRetentionMs options;
     publishedRetentionMs := dispatch_publishedRetentionMs options |}.

Definition transportBatchSize : nat :=
  match maxBatchSize transport with
  | Some n => if has_publishBatch transport && (1 <? n) then Z.to_nat n else 1
  | None => 1
  end.

(** [for (index = 0; index < jobs.length; index += size) batches.push(jobs.slice(index, index + size))];
    the length of the list is fuel enough, for a slice takes one job at least. *)
Fixpoint slices (fuel size : nat) (jobs : list ClaimedOutboxJob) : list (list ClaimedOutboxJob) :=
  match fuel, jobs with
  | S fuel, _ :: _ => take size jobs :: slices fuel size (drop size jobs)
  | _, _ => []
  end.

Definition batches (jobs : list ClaimedOutboxJob) : list (list ClaimedOutboxJob) :=
  slices (length jobs) transportBatchSize jobs.

Definition initial_summary (jobs : list ClaimedOutboxJob) : OutboxDispatchSummary :=
  {| sum_claimed := Z.of_nat (length jobs); sum_published := 0; sum_retried := 0; sum_failed := 0;
     sum_leaseLost := 0 |}.

(** [Math.min(this.options.concurrency, batches.length)] *)
Definition worker_count (jobs : list ClaimedOutboxJob) : nat :=
  Nat.min (Z.to_nat (concurrency options)) (length (batches jobs)).
End dispatcher.

(** ** Lemmas: contexts *)

Section contexts.
Context (sha256 : string -> string) (Hhex : forall m, HEX64_PATTERN (sha256 m) = true).

Lemma job_reference_valid id s :
  createSafeLogReference sha256 id = Some s -> valid_context_value s "jobId" = true.
Proof.
  unfold createSafeLogReference. destruct (_ || _); [done|]. intros [= <-].
  set (digest := sha256 _). assert (HEX64_PATTERN digest = true) as H by apply Hhex. clearbody digest.
  change (valid_context_value ("job:" +:+ digest) "jobId")
    with (isSafeLogReference ("job:" +:+ digest) && String.prefix "job:" ("job:" +:+ digest)).
  assert (String.prefix "job:" ("job:" +:+ digest) = true) as Hp by (by destruct digest).
  rewrite Hp, andb_true_r. unfold isSafeLogReference, LOG_REFERENCE_PATTERN. rewrite Hp.
  assert (String.substring 4 (String.length ("job:" +:+ digest) - 4) ("job:" +:+ digest) = digest) as E.
  { replace (String.length ("job:" +:+ digest) - 4)%nat with (String.length digest)
      by (rewrite length_append; cbn [String.length]; lia).
    change (String.substring 0 (String.length digest) digest = digest). clear.
    induction digest as [|c digest IH]; [done|]. cbn. by rewrite IH. }
  by rewrite E, H.
Qed.

Lemma plain_context_object (c : gmap string string) k :
  k ∈ CONTEXT_KEYS ->
  dataValue (omap (fun key => (fun v => (KStr key, DData (VStr v) true)) <$> c !! key) CONTEXT_KEYS) k =
  Ok (match c !! k with Some v => VStr v | None => VUndef end).
Proof.
  intros Hk. unfold dataValue. rewrite keyed_descriptor, decide_True by done. by destruct (c !! k).
Qed.

Lemma correlationId_not_context : "correlationId" ∉ OPTIONAL_CONTEXT_KEYS.
Proof. apply (bool_decide_eq_true_1 _). vm_compute. reflexivity. Qed.

Lemma context_keys_split k : k ∈ CONTEXT_KEYS <-> k = "correlationId" \/ k ∈ OPTIONAL_CONTEXT_KEYS.
Proof. unfold CONTEXT_KEYS. by rewrite elem_of_cons. Qed.

(** Any context whose identifiers are valid, with [requestId] the root and no
    identifier beside a legacy root but the job, is accepted. *)
Lemma valid_context_accepted (c : gmap string string) root :
  c !! "correlationId" = Some root ->
  (forall k v, c !! k = Some v -> valid_context_value v k = true) ->
  (forall r, c !! "requestId" = Some r -> r = root) ->
  (String.prefix "legacy:" root = true -> forall k, is_Some (c !! k) -> k = "correlationId" \/ k = "jobId") ->
  is_ok (LoggingContext_run (VObj PObject
    (omap (fun key => (fun v => (KStr key, DData (VStr v) true)) <$> c !! key) CONTEXT_KEYS))) = true.
Proof.
  intros Hroot Hval Hreq Hleg. unfold LoggingContext_run, validateContext, contextDescriptors.
  cbn [plain_descriptors is_object is_array get_prototype_of own_property_descriptors negb or_throw rbind].
  set (ds := omap _ _).
  assert (Hd : forall k, k ∈ CONTEXT_KEYS ->
            dataValue ds k = Ok (match c !! k with Some v => VStr v | None => VUndef end))
    by (intros k; apply plain_context_object).
  rewrite (Hd "correlationId"), Hroot by left. cbn [rbind]. unfold assertContextValue.
  rewrite (Hval _ _ Hroot). cbn [negb rbind].
  destruct (read_context_keys_total ds OPTIONAL_CONTEXT_KEYS {[ "correlationId" := root ]}) as [c' Hc'].
  { apply Forall_forall. intros k Hk. rewrite Hd by (apply context_keys_split; auto).
    destruct (c !! k) eqn:E; [right | by left]. eauto. }
  rewrite Hc'. cbn [rbind].
  assert (Hl : forall k, c' !! k = if decide (k = "correlationId") then Some root
                                   else if decide (k ∈ OPTIONAL_CONTEXT_KEYS) then c !! k else None).
  { intros k. destruct (read_context_keys_lookup _ _ _ _ k Hc') as [Hout Hin].
    case_decide as Hk; [subst k; rewrite Hout by (apply (bool_decide_eq_true_1 _); reflexivity);
                        apply lookup_singleton_eq|].
    case_decide as Ho; [|rewrite Hout by done; by apply lookup_singleton_ne].
    rewrite Hd in Hin by (apply context_keys_split; auto).
    destruct (Hin Ho) as [(v & -> & _ & E)|[E1 E2]].
    - destruct (c !! k); congruence.
    - rewrite E1, lookup_singleton_ne by done. destruct (c !! k); congruence. }
  assert (legacy_with_identifiers c' = false) as ->.
  { unfold legacy_with_identifiers. rewrite Hl, decide_True by done.
    destruct (String.prefix "legacy:" root) eqn:Hp; [|done]. cbn [andb]. apply existsb_false. intros k Hk.
    destruct (String.eqb_spec k "jobId") as [|Hne]; [done|]. cbn [negb andb]. apply bool_decide_eq_false.
    rewrite Hl. intros [v Hv]. case_decide as Hk1; [subst k; by apply correlationId_not_context in Hk|].
    rewrite decide_True in Hv by done. destruct (Hleg eq_refl k) as [?|?]; [eauto|done..]. }
  destruct (c' !! "requestId") as [r|] eqn:Er; [|done].
  rewrite Hl in Er. cbn in Er. by rewrite (Hreq r Er), String.eqb_refl.
Qed.

(** The context of a claimed job is always accepted. *)
Lemma job_context_total job :
  envelope_wf (job_envelope job) -> is_ok (LoggingContext_run (job_context_object sha256 job)) = true.
Proof.
  intros (_ & _ & _ & _ & root & Hroot & Hsafe & Hkeys & Hreq & Hleg). unfold job_context_object.
  set (c := env_correlation _) in *. set (c' := match _ with Some _ => _ | None => _ end).
  assert (Hc' : forall k, k <> "jobId" -> c' !! k = c !! k).
  { intros k Hk. unfold c'. destruct (createSafeLogReference _ _); [by rewrite lookup_insert_ne | done]. }
  apply (valid_context_accepted c' root).
  - by rewrite Hc'.
  - intros k v Hv. destruct (decide (k = "jobId")) as [->|Hk].
    + unfold c' in Hv. destruct (createSafeLogReference _ _) as [ref|] eqn:E.
      * rewrite lookup_insert_eq in Hv. injection Hv as <-. by apply job_reference_valid in E.
      * apply Hkeys in Hv as [?|[H _]]; [done|]. exfalso. revert H. apply (bool_decide_eq_false_1 _). reflexivity.
    + rewrite Hc' in Hv by done. pose proof Hv as Hv'. unfold valid_context_value.
      apply Hkeys in Hv as [->|[Hin Hv]].
      * rewrite Hroot in Hv'. by injection Hv' as <-.
      * rewrite (proj2 (String.eqb_neq k "correlationId")), (proj2 (String.eqb_neq k "jobId")); [done|done|].
        intros ->. by apply correlationId_not_optional in Hin.
  - intros r Hr. rewrite Hc' in Hr by done. by apply Hreq.
  - intros Hp k [v Hk]. destruct (decide (k = "jobId")) as [?|Hne]; [by right|]. left.
    rewrite Hc', (Hleg Hp) in Hk by done. by apply lookup_singleton_Some in Hk as [<- _].
Qed.
End contexts.

(** ** Lemmas: slices *)

Lemma slices_concat fuel size jobs :
  (length jobs <= fuel)%nat -> (0 < size)%nat -> concat (slices fuel size jobs) = jobs.
Proof.
  revert jobs. induction fuel as [|fuel IH]; intros [|job jobs] Hl Hs; cbn in *; try done; [lia|].
  rewrite IH by (rewrite ?length_drop; cbn in *; lia || done). by rewrite take_drop.
Qed.

Lemma transportBatchSize_positive transport : (0 < transportBatchSize transport)%nat.
Proof.
  unfold transportBatchSize. destruct (maxBatchSize transport) as [n|]; [|lia].
  destruct (has_publishBatch transport && (1 <? n)) eqn:E; [|lia].
  apply andb_true_iff in E as [_ E%Z.ltb_lt]. lia.
Qed.

Lemma batches_concat transport jobs : concat (batches transport jobs) = jobs.
Proof. apply slices_concat; [lia | apply transportBatchSize_positive]. Qed.

Lemma slices_length fuel size jobs : (length (slices fuel size jobs) <= fuel)%nat.
Proof.
  revert jobs. induction fuel as [|fuel IH]; intros [|job jobs]; cbn; try lia.
  specialize (IH (drop size (job :: jobs))). lia.
Qed.

Lemma batches_length transport jobs : (length (batches transport jobs) <= length jobs)%nat.
Proof. apply slices_length. Qed.

(** ** What the trees promise *)

Section promises.
Context (sha256 : string -> string) (options : OutboxDispatcherOptions) (transport : OutboxTransport).
Context (token : string).

(** What the transport has accepted grows, and holds what it confirms. *)
Definition delivers (c : dispatch_call) (D : list OutboxTransportMessage)
    (a : result dispatch_error (dispatch_answer c)) (D' : list OutboxTransportMessage) : Prop :=
  D ⊆ D' /\
  match c return result dispatch_error (dispatch_answer c) -> Prop with
  | Publish m => fun a => is_ok a = true -> m ∈ D'
  | PublishBatch ms => fun a =>
      match a with
      | Ok results => forall i m, ms !! i = Some m -> results !! i = Some (Some PublishedResult) -> m ∈ D'
      | Err _ => True
      end
  | _ => fun _ => True
  end a.

(** The calls a pass may make for its jobs: publish them, mark those the
    transport accepted, and record failures as the attempts made so far say. *)
Definition allowed (jobs : list ClaimedOutboxJob) (D : list OutboxTransportMessage) (c : dispatch_call) : Prop :=
  match c with
  | Publish m => m ∈ message_of <$> jobs
  | PublishBatch ms => ms ⊆ message_of <$> jobs
  | MarkPublished id t => t = token /\ exists job, job ∈ jobs /\ job_id job = id /\ message_of job ∈ D
  | RecordFailure id t code terminal delay =>
      t = token /\ exists job, job ∈ jobs /\ job_id job = id /\ failure_code_ok code /\
        terminal = (dispatch_maxAttempts options <=? job_attempts job + 1) /\
        (options_in_range options = true -> 0 <= job_attempts job -> 0 <= delay <= 900000)
  | _ => True
  end.

Notation safe jobs := (obeys (allowed jobs) delivers (fun _ _ => True)).

(** Each settled or given-up job is counted once. *)
Definition counted (left : nat) (c : dispatch_call) : Prop :=
  match c with Count _ n => (n <= left)%nat | _ => True end.

Definition counts (c : dispatch_call) (left : nat) (a : result dispatch_error (dispatch_answer c))
    (left' : nat) : Prop :=
  left' = match c with Count _ n => (left - n)%nat | _ => left end.

Notation owes := (obeys (X := dispatch_error) counted counts
  (fun left r => match r with Ok _ => left = 0%nat | Err _ => True end)).

(** A bound on the calls left. *)
Definition fuel_left (n : nat) (c : dispatch_call) : Prop := (0 < n)%nat.

Definition burns (c : dispatch_call) (n : nat) (a : result dispatch_error (dispatch_answer c)) (n' : nat) : Prop :=
  n' = pred n.

Notation within := (obeys (X := dispatch_error) fuel_left burns (fun _ _ => True)).

Lemma in_job_context_obeys {G A} pre R (post : G -> result dispatch_error A -> Prop) g job (work : job_io A) :
  post g (Err InvalidContext) -> obeys pre R post g work -> obeys pre R post g (in_job_context sha256 job work).
Proof. intros H1 H2. unfold in_job_context. by destruct (LoggingContext_run _). Qed.

Lemma start_spans_obeys {G A} pre R (post : G -> result dispatch_error A -> Prop) g jobs (work : job_io A) :
  post g (Err InvalidContext) -> obeys pre R post g work -> obeys pre R post g (start_spans sha256 jobs work).
Proof. intros H1 H2. induction jobs as [|job jobs IH]; [done|]. cbn. by apply in_job_context_obeys. Qed.

Lemma allowed_mono jobs D D' c : D ⊆ D' -> allowed jobs D c -> allowed jobs D' c.
Proof using Type. destruct c; cbn; try done. intros HD (-> & job & ? & ? & ?). split; [done|]. exists job. auto. Qed.

Lemma obeys_delivered_mono {A} jobs (post : _ -> result dispatch_error A -> Prop) D D' (m : job_io A) :
  (forall D D' a, D ⊆ D' -> post D a -> post D' a) -> D ⊆ D' ->
  obeys (allowed jobs) delivers post D m -> obeys (allowed jobs) delivers post D' m.
Proof using Type.
  intros Hpost. revert D D'. induction m as [r|c k IH]; intros D D' HD; cbn; [by apply Hpost|]. intros [Hc Hk].
  split; [by eapply allowed_mono|]. intros a D'' [H1 H2]. apply Hk. split; [|done]. intros x Hx. by apply H1, HD.
Qed.

Lemma safe_mono jobs D D' (m : job_io unit) : D ⊆ D' -> safe jobs D m -> safe jobs D' m.
Proof using Type. by apply obeys_delivered_mono. Qed.

Lemma failureCode_ok error : failure_code_ok (enum_str (failureCode error)).
Proof using Type. by destruct error. Qed.

Lemma retry_delay_range job :
  options_in_range options = true -> 0 <= job_attempts job ->
  0 <= retry_delay options (job_attempts job) (dispatch_maxAttempts options <=? job_attempts job + 1) <= 900000.
Proof using Type.
  unfold options_in_range, retry_delay. intros H Ha. rewrite !andb_true_iff, !Z.leb_le in H.
  destruct (_ <=? _); [lia|]. pose proof (Z.pow_nonneg 2 (job_attempts job)). nia.
Qed.

Lemma mark_safe jobs job D : job ∈ jobs -> message_of job ∈ D -> safe jobs D (markTransportPublished sha256 job token).
Proof.
  intros Hj HD. apply in_job_context_obeys; [done|]. cbn. split; [eauto|].
  intros [a|e] D' [HD' _]; cbn; [|done]. done.
Qed.

Lemma record_safe jobs job D error :
  job ∈ jobs -> safe jobs D (recordTransportFailure sha256 options job token error).
Proof.
  intros Hj. apply in_job_context_obeys; [done|]. cbn. split.
  - split; [done|]. exists job. pose proof (failureCode_ok error). pose proof (retry_delay_range job). auto.
  - intros [a|e] D' _; cbn; [|done]. done.
Qed.

Lemma dispatchOne_safe jobs job D : job ∈ jobs -> safe jobs D (dispatchOne sha256 options job token).
Proof.
  intros Hj. apply in_job_context_obeys; [done|]. cbn. split; [done|].
  intros [[]|e] D1 _; cbn; [done| |done]. apply in_job_context_obeys; [done|]. cbn.
  split; [by apply list_elem_of_fmap_2|]. intros [[]|e] D2 [_ H2]; cbn.
  - apply mark_safe; [done | by apply H2].
  - split; [done|]. intros [to|e'] D3 _; cbn; (split; [done|]; intros [[]|e''] D4 _; cbn; [done| |done]);
      by apply record_safe.
Qed.

Lemma owes_one_mark job : owes 1%nat (markTransportPublished sha256 job token).
Proof.
  apply in_job_context_obeys; [done|]. cbn. split; [done|]. intros [a|e] g ->; cbn; [|done].
  split; [lia|]. by intros [[]|e] g ->.
Qed.

Lemma owes_one_record job error : owes 1%nat (recordTransportFailure sha256 options job token error).
Proof.
  apply in_job_context_obeys; [done|]. cbn. split; [done|]. intros [a|e] g ->; cbn; [|done].
  split; [lia|]. by intros [[]|e] g ->.
Qed.
Lemma owes_one_dispatch job : owes 1%nat (dispatchOne sha256 options job token).
Proof.
  apply in_job_context_obeys; [done|]. cbn. split; [done|].
  intros [[]|e] g ->; cbn; [split; [lia|]; by intros [[]|e] g -> | |done].
  apply in_job_context_obeys; [done|]. cbn. split; [done|]. intros [[]|e] g ->; cbn.
  - apply owes_one_mark.
  - split; [done|]. intros [to|e'] g ->; cbn; (split; [done|]; intros [[]|e''] g ->; cbn;
      [split; [lia|]; by intros [[]|e3] g -> | apply owes_one_record | done]).
Qed.

Lemma within_mark job n : (2 <= n)%nat -> within n (markTransportPublished sha256 job token).
Proof.
  intros Hn. apply in_job_context_obeys; [done|]. cbn. split; [unfold fuel_left; lia|].
  intros [a|e] g ->; cbn; [|done]. split; [unfold fuel_left; lia|]. by intros [[]|e] g ->.
Qed.

Lemma within_record job error n : (2 <= n)%nat -> within n (recordTransportFailure sha256 options job token error).
Proof.
  intros Hn. apply in_job_context_obeys; [done|]. cbn. split; [unfold fuel_left; lia|].
  intros [a|e] g ->; cbn; [|done]. split; [unfold fuel_left; lia|]. by intros [[]|e] g ->.
Qed.

Lemma within_dispatch job : within 6%nat (dispatchOne sha256 options job token).
Proof.
  apply in_job_context_obeys; [done|]. cbn. split; [unfold fuel_left; lia|].
  intros [[]|e] g ->; cbn; [split; [unfold fuel_left; lia|]; by intros [[]|e] g -> | |done].
  apply in_job_context_obeys; [done|]. cbn. split; [unfold fuel_left; lia|]. intros [[]|e] g ->; cbn.
  - apply within_mark. lia.
  - split; [unfold fuel_left; lia|]. intros [to|e'] g ->; cbn; (split; [unfold fuel_left; lia|];
      intros [[]|e''] g ->; cbn; [split; [unfold fuel_left; lia|]; by intros [[]|e3] g ->
                                 | apply within_record; lia | done]).
Qed.

(** A batch keeps the promises, and so does everything it forks. *)
Lemma dispatchMany_safe jobs batch D :
  batch ⊆ jobs ->
  obeys (allowed jobs) delivers
    (fun D r => match r with Ok ps => Forall (safe jobs D) ps | Err _ => True end) D
    (dispatchMany sha256 options transport batch token).
Proof.
  intros Hb. unfold dispatchMany. cbn. split; [done|]. intros [[]|e] D1 _; cbn; [| |done].
  { split; [done|]. by intros [[]|e] D2 _; cbn. }
  destruct (_ || _).
  { cbn. apply Forall_fmap, Forall_forall. intros job Hj.
    exact (dispatchOne_safe jobs job D1 (Hb job Hj)). }
  assert (Hrec : forall D e, Forall (safe jobs D)
            ((fun job => recordTransportFailure sha256 options job token e) <$> batch)).
  { intros D' e. apply Forall_fmap, Forall_forall. intros job Hj.
    exact (record_safe jobs job D' e (Hb job Hj)). }
  apply start_spans_obeys; [done|]. cbn. split; [intros m (job & -> & Hj)%list_elem_of_fmap; apply list_elem_of_fmap_2; by apply Hb|].
  intros [results|e] D2 [_ H2]; cbn.
  - destruct (negb _); cbn.
    + split; [done|]. intros [[]|e] D3 _; cbn; [| |done]; [|apply Hrec].
      split; [done|]. by intros [[]|e] D4 _; cbn.
    + split; [done|]. intros [ab|e] D3 [HD _]; cbn; [|done].
      apply Forall_forall. intros p (i & Hi)%list_elem_of_lookup_1.
      rewrite lookup_zip_with_Some in Hi. destruct Hi as (job & result & -> & Hj & Hr).
      assert (job ∈ jobs) by (apply Hb; by eapply list_elem_of_lookup_2).
      destruct result as [[|e]|]; [|destruct ab; [by split; [|intros [[]|?] ? _] | by apply record_safe]..].
      apply mark_safe; [done|]. apply HD, (H2 i); [by rewrite list_lookup_fmap, Hj | done].
  - split; [done|]. intros [to|e'] D3 _; cbn; (split; [done|]; intros [[]|e''] D4 _; cbn;
      [split; [done|]; by intros [[]|e3] D5 _; cbn | apply Hrec | done]).
Qed.

Lemma forks_forall {A B} (P : B -> Prop) (f : A -> B) l : (forall x, P (f x)) -> Forall P (f <$> l).
Proof. intros H. apply Forall_fmap, Forall_forall. intros x _. apply H. Qed.

Lemma settlements_forall {A B D} (P : D -> Prop) (f : A -> B -> D) l k :
  (forall a b, P (f a b)) -> Forall P (zip_with f l k).
Proof.
  intros H. apply Forall_forall. intros p (i & Hi)%list_elem_of_lookup_1.
  rewrite lookup_zip_with_Some in Hi. by destruct Hi as (a & b & -> & _).
Qed.

Lemma dispatchMany_owes batch :
  obeys (X := dispatch_error) counted counts
    (fun left r => match r with Ok ps => left = length ps /\ Forall (owes 1%nat) ps | Err _ => True end)
    (length batch) (dispatchMany sha256 options transport batch token).
Proof.
  unfold dispatchMany. cbn. split; [done|]. intros [[]|e] g ->; cbn; [| |done].
  { split; [lia|]. intros [[]|e] g ->; cbn; [|done]. split; [lia | constructor]. }
  destruct (_ || _).
  { cbn. rewrite length_fmap. split; [done|]. apply forks_forall, owes_one_dispatch. }
  apply start_spans_obeys; [done|]. cbn. split; [done|]. intros [results|e] g ->; cbn.
  - destruct (negb _) eqn:El; cbn.
    + split; [done|]. intros [[]|e] g ->; cbn; [| |done].
      * split; [lia|]. intros [[]|e] g ->; cbn; [|done]. split; [lia | constructor].
      * rewrite length_fmap. split; [done|]. apply forks_forall. intros job. apply owes_one_record.
    + apply negb_false_iff, Nat.eqb_eq in El. split; [done|]. intros [ab|e] g ->; cbn; [|done].
      rewrite length_zip_with_l_eq by done. split; [done|]. apply settlements_forall.
      intros job [[|e]|]; [apply owes_one_mark|destruct ab; [|apply owes_one_record]..];
        (split; [cbn; lia|]; by intros [[]|e'] g ->).
  - split; [done|]. intros [to|e'] g ->; cbn; (split; [done|]; intros [[]|e''] g ->; cbn; [| |done];
      [split; [lia|]; intros [[]|e3] g ->; cbn; [split; [lia | constructor]|done]
      | rewrite length_fmap; split; [done|]; apply forks_forall; intros job; apply owes_one_record]).
Qed.

Lemma dispatchMany_within batch :
  obeys (X := dispatch_error) fuel_left burns
    (fun _ r => match r with Ok ps => (length ps <= length batch)%nat /\ Forall (within 6%nat) ps | Err _ => True end)
    5%nat (dispatchMany sha256 options transport batch token).
Proof.
  assert (Hrec : forall e, (length ((fun job => recordTransportFailure sha256 options job token e) <$> batch)
                             <= length batch)%nat /\
            Forall (within 6%nat) ((fun job => recordTransportFailure sha256 options job token e) <$> batch)).
  { intros e. rewrite length_fmap. split; [done|]. apply forks_forall. intros job. apply within_record. lia. }
  unfold dispatchMany. cbn. split; [unfold fuel_left; lia|]. intros [[]|e] g ->; cbn; [| |done].
  { split; [unfold fuel_left; lia|]. intros [[]|e] g ->; cbn; [|done]. split; [lia | constructor]. }
  destruct (_ || _).
  { cbn. rewrite length_fmap. split; [done|]. apply forks_forall, within_dispatch. }
  apply start_spans_obeys; [done|]. cbn. split; [unfold fuel_left; lia|]. intros [results|e] g ->; cbn.
  - destruct (negb _); cbn.
    + split; [unfold fuel_left; lia|]. intros [[]|e] g ->; cbn; [| |done]; [|apply Hrec].
      split; [unfold fuel_left; lia|]. intros [[]|e] g ->; cbn; [|done]. split; [lia | constructor].
    + split; [unfold fuel_left; lia|]. intros [ab|e] g ->; cbn; [|done]. rewrite length_zip_with.
      split; [lia|]. apply settlements_forall.
      intros job [[|e]|]; [apply within_mark; lia|destruct ab; [|apply within_record; lia]..];
        (split; [unfold fuel_left; lia|]; by intros [[]|e'] g ->).
  - split; [unfold fuel_left; lia|]. intros [to|e'] g ->; cbn; (split; [unfold fuel_left; lia|];
      intros [[]|e''] g ->; cbn; [|apply Hrec|done];
      split; [unfold fuel_left; lia|]; intros [[]|e3] g ->; cbn; [split; [lia | constructor] | done]).
Qed.
(** With a transport that accepts everything, a table that answers, held leases
    and no shutdown, a job is marked published and counted as such.  [todo] is
    the job still to be marked. *)
Definition smooth_call (todo : option string) (c : dispatch_call) : Prop :=
  match c with
  | MarkPublished id t => t = token /\ todo = Some id
  | RecordFailure _ _ _ _ _ => False
  | Count f _ => f = PublishedField
  | _ => True
  end.

Definition smooth_answer (c : dispatch_call) : result dispatch_error (dispatch_answer c) -> Prop :=
  match c return result dispatch_error (dispatch_answer c) -> Prop with
  | Aborted => fun a => a = Ok false
  | TimedOut => fun a => a = Ok false
  | Publish _ => fun a => a = Ok tt
  | PublishBatch ms => fun a => a = Ok (replicate (length ms) (Some PublishedResult))
  | MarkPublished _ _ => fun a => a = Ok true
  | RecordFailure _ _ _ _ _ => fun _ => False
  | Count _ _ => fun a => a = Ok tt
  end.

Definition smooth (c : dispatch_call) (todo : option string) (a : result dispatch_error (dispatch_answer c))
    (todo' : option string) : Prop :=
  smooth_answer c a /\ todo' = match c with MarkPublished _ _ => None | _ => todo end.

Notation publishes := (obeys smooth_call smooth
  (fun todo r => match r with Ok _ => todo = None | Err _ => False end)).

Definition context_accepted (job : ClaimedOutboxJob) : Prop :=
  is_ok (LoggingContext_run (job_context_object sha256 job)) = true.

Lemma in_accepted_context {A} job (work : job_io A) : context_accepted job -> in_job_context sha256 job work = work.
Proof. unfold context_accepted, in_job_context. by destruct (LoggingContext_run _). Qed.

Lemma mark_publishes job :
  context_accepted job -> publishes (Some (job_id job)) (markTransportPublished sha256 job token).
Proof.
  intros Hc. unfold markTransportPublished. rewrite in_accepted_context by done. cbn.
  split; [done|]. intros a g [-> ->]; cbn. split; [done|]. by intros a g [-> ->].
Qed.

Lemma dispatchOne_publishes job :
  context_accepted job -> publishes (Some (job_id job)) (dispatchOne sha256 options job token).
Proof.
  intros Hc. unfold dispatchOne. rewrite !in_accepted_context by done. cbn.
  split; [done|]. intros a g [-> ->]; cbn. split; [done|]. intros a g [-> ->]; cbn. by apply mark_publishes.
Qed.

Lemma start_spans_accepted {A} jobs (work : job_io A) :
  Forall context_accepted jobs -> start_spans sha256 jobs work = work.
Proof.
  induction 1 as [|job jobs Hj _ IH]; [done|]. unfold start_spans in *. cbn. rewrite IH.
  by apply in_accepted_context.
Qed.

Lemma dispatchMany_publishes batch :
  Forall context_accepted batch ->
  obeys smooth_call smooth
    (fun todo r => match r with
       | Ok ps => todo = None /\ Forall2 (fun job p => publishes (Some (job_id job)) p) batch ps
       | Err _ => False
       end) None (dispatchMany sha256 options transport batch token).
Proof.
  intros Hb. unfold dispatchMany. cbn. split; [done|]. intros a g [-> ->]; cbn.
  destruct (_ || _); cbn.
  { split; [done|]. apply Forall2_fmap_r, Forall_Forall2_diag. eapply Forall_impl; [exact Hb|].
    apply dispatchOne_publishes. }
  rewrite start_spans_accepted by done. cbn. split; [done|]. intros a g [-> ->]; cbn.
  rewrite length_replicate, length_fmap, Nat.eqb_refl. cbn. split; [done|]. intros a g [-> ->]; cbn.
  split; [done|]. clear -Hb. induction Hb as [|job batch Hj _ IH]; cbn; constructor; [|done].
  by apply mark_publishes.
Qed.
End promises.
