(* ===== verification/OutboxSystem.v ===== *)
(** * Dispatching the outbox: passes, crashes and the table together

    The tree of a batch, the trees it forks, and the loop of the workers of
    [dispatchBatch] run interleaved: a step of a pass is one call and its
    answer, or a move of a worker.  A system is the table, what the transport
    has accepted, and any number of passes, of any number of processes; jobs are
    enqueued, passes begin and crash, and cleanup runs in between.

    A call may fail after it took effect: the transport may have accepted a
    message it did not confirm, and the connection may be lost after the
    statement committed.  Instants are whatever the database says.  Claim tokens
    are fresh, as [randomUUID] makes them.

    [delivery] is what the outbox promises, without leases, passes or clocks;
    [system_refines] is that it keeps it. *)

From stdpp Require Import base list strings gmap relations.
From Stdlib Require Import ZArith Lia Ascii.
From S2P Require Import Prelude Text Effects JsValue JsCollections LogContext JobEnvelope OutboxTable OutboxDispatcher.

Open Scope Z_scope.

(** ** The promise *)

Inductive job_state : Type := Queued (attempts : Z) | Sent | Dead.

Record delivery : Type := {
  known : list OutboxTransportMessage;
  job_states : gmap string (OutboxTransportMessage * job_state);
  accepted : list OutboxTransportMessage;
}.

Definition set_job (id : string) (m : OutboxTransportMessage) (st : job_state) (d : delivery) : delivery :=
  {| known := known d; job_states := <[id := (m, st)]> (job_states d); accepted := accepted d |}.

(** A job is enqueued, delivered (at least once, and never made up), sent only
    after it was accepted, and dead after [max] failures; a settled job may be
    forgotten. *)
Inductive delivery_step (max : Z) (d : delivery) : delivery -> Prop :=
| Enqueue id m :
    job_states d !! id = None ->
    delivery_step max d
      {| known := m :: known d; job_states := <[id := (m, Queued 0)]> (job_states d); accepted := accepted d |}
| Deliver ms :
    ms ⊆ known d ->
    delivery_step max d {| known := known d; job_states := job_states d; accepted := ms ++ accepted d |}
| Settle id m n :
    job_states d !! id = Some (m, Queued n) -> m ∈ accepted d ->
    delivery_step max d (set_job id m Sent d)
| FailOnce id m n :
    job_states d !! id = Some (m, Queued n) -> n + 1 < max ->
    delivery_step max d (set_job id m (Queued (n + 1)) d)
| FailForever id m n :
    job_states d !! id = Some (m, Queued n) -> n + 1 = max ->
    delivery_step max d (set_job id m Dead d)
| Forget id m st :
    job_states d !! id = Some (m, st) -> st = Sent \/ st = Dead ->
    delivery_step max d {| known := known d; job_states := delete id (job_states d); accepted := accepted d |}.

Definition no_jobs : delivery := {| known := []; job_states := ∅; accepted := [] |}.

(** ** The machine *)

Section system.
Context {jsonb : Type} (jsonb_out : jsonb -> jsval) (sha256 : string -> string).
Context (collate : string -> string -> Z) (options : OutboxDispatcherOptions) (transport : OutboxTransport).

(** [w_enqueued] is every message ever enqueued; nothing reads it. *)
Record world : Type := {
  w_rows : outbox jsonb;
  w_delivered : list OutboxTransportMessage;
  w_enqueued : list OutboxTransportMessage;
}.

Definition with_rows (w : world) (rows : outbox jsonb) : world :=
  {| w_rows := rows; w_delivered := w_delivered w; w_enqueued := w_enqueued w |}.

Definition deliver (ms : list OutboxTransportMessage) (w : world) : world :=
  {| w_rows := w_rows w; w_delivered := ms ++ w_delivered w; w_enqueued := w_enqueued w |}.

(** A statement answers, or fails before or after it committed. *)
Definition statement_answer {A} (statement : result outbox_error (A * outbox jsonb)) (w : world)
    (a : result dispatch_error A) (w' : world) : Prop :=
  match statement with
  | Ok (b, rows) =>
      (a = Ok b /\ w' = with_rows w rows) \/ (a = Err Disconnected /\ (w' = w \/ w' = with_rows w rows))
  | Err e => w' = w /\ (a = Err (Repository e) \/ a = Err Disconnected)
  end.

(** The transport confirms only what it accepted. *)
Definition transport_answer (ms confirmed : list OutboxTransportMessage) (w w' : world) : Prop :=
  exists ds, ds ⊆ ms /\ confirmed ⊆ ds /\ w' = deliver ds w.

Definition confirmed_of (ms : list OutboxTransportMessage)
    (results : list (option OutboxTransportBatchResult)) : list OutboxTransportMessage :=
  (List.filter (fun mr => match mr.2 with Some PublishedResult => true | _ => false end) (zip ms results)).*1.

Definition answers (w : world) (c : dispatch_call) :
    result dispatch_error (dispatch_answer c) -> world -> Prop :=
  match c return result dispatch_error (dispatch_answer c) -> world -> Prop with
  | Aborted => fun a w' => is_ok a = true /\ w' = w
  | TimedOut => fun a w' => is_ok a = true /\ w' = w
  | Count _ _ => fun a w' => a = Ok tt /\ w' = w
  | Publish m => fun a w' => transport_answer [m] (if is_ok a then [m] else []) w w'
  | PublishBatch ms => fun a w' =>
      transport_answer ms (match a with Ok results => confirmed_of ms results | Err _ => [] end) w w'
  | MarkPublished id token => fun a w' =>
      exists now, statement_answer (markPublished WORKER_RUNTIME (w_rows w) now id token) w a w'
  | RecordFailure id token code terminal delay => fun a w' =>
      exists clock,
        statement_answer (recordFailure WORKER_RUNTIME (w_rows w) clock id token code terminal delay) w a w'
  end.

(** ** A pass *)

(** A worker of [dispatchBatch]: between batches, in a batch, at its
    [Promise.all], or settled. *)
Inductive worker : Type :=
| Idle
| Working (m : job_io (list (job_io unit)))
| Joining (ps : list (job_io unit))
| Stopped (r : result dispatch_error unit).

(** [pass_queue] are the batches from the cursor on; [pass_detached] is what
    still runs of a [Promise.all] that has rejected. *)
Record pass : Type := {
  pass_token : string;
  pass_jobs : list ClaimedOutboxJob;
  pass_queue : list (list ClaimedOutboxJob);
  pass_summary : OutboxDispatchSummary;
  pass_workers : list worker;
  pass_detached : list (job_io unit);
}.

Definition start_pass (token : string) (jobs : list ClaimedOutboxJob) : pass :=
  {| pass_token := token; pass_jobs := jobs; pass_queue := batches transport jobs;
     pass_summary := initial_summary jobs; pass_workers := replicate (worker_count options transport jobs) Idle;
     pass_detached := [] |}.

Definition set_worker (i : nat) (t : worker) (p : pass) : pass :=
  {| pass_token := pass_token p; pass_jobs := pass_jobs p; pass_queue := pass_queue p;
     pass_summary := pass_summary p; pass_workers := <[i := t]> (pass_workers p);
     pass_detached := pass_detached p |}.

Definition with_queue (queue : list (list ClaimedOutboxJob)) (p : pass) : pass :=
  {| pass_token := pass_token p; pass_jobs := pass_jobs p; pass_queue := queue;
     pass_summary := pass_summary p; pass_workers := pass_workers p; pass_detached := pass_detached p |}.

Definition with_detached (ps : list (job_io unit)) (p : pass) : pass :=
  {| pass_token := pass_token p; pass_jobs := pass_jobs p; pass_queue := pass_queue p;
     pass_summary := pass_summary p; pass_workers := pass_workers p; pass_detached := ps |}.

(** The shared summary, after a call. *)
Definition note (c : dispatch_call) (p : pass) : pass :=
  {| pass_token := pass_token p; pass_jobs := pass_jobs p; pass_queue := pass_queue p;
     pass_summary := match c with
                     | Count f n => count_in f (Z.of_nat n) (pass_summary p)
                     | _ => pass_summary p
                     end;
     pass_workers := pass_workers p; pass_detached := pass_detached p |}.

(** One move, with the calls answered by [env]. *)
Inductive pass_step (env : world -> forall c, result dispatch_error (dispatch_answer c) -> world -> Prop)
    (w : world) (p : pass) : world -> pass -> Prop :=
| take_batch i batch queue :
    pass_workers p !! i = Some Idle -> pass_queue p = batch :: queue ->
    pass_step env w p w
      (set_worker i (Working (dispatchMany sha256 options transport batch (pass_token p))) (with_queue queue p))
| no_more_batches i :
    pass_workers p !! i = Some Idle -> pass_queue p = [] ->
    pass_step env w p w (set_worker i (Stopped (Ok tt)) p)
| batch_call i c k a w' :
    pass_workers p !! i = Some (Working (Ask c k)) -> env w c a w' ->
    pass_step env w p w' (set_worker i (Working (k a)) (note c p))
| batch_forks i ps :
    pass_workers p !! i = Some (Working (Done (Ok ps))) ->
    pass_step env w p w (set_worker i (Joining ps) p)
| batch_throws i e :
    pass_workers p !! i = Some (Working (Done (Err e))) ->
    pass_step env w p w (set_worker i (Stopped (Err e)) p)
| fork_call i ps j c k a w' :
    pass_workers p !! i = Some (Joining ps) -> ps !! j = Some (Ask c k) -> env w c a w' ->
    pass_step env w p w' (set_worker i (Joining (<[j := k a]> ps)) (note c p))
| join i ps :
    pass_workers p !! i = Some (Joining ps) -> Forall (fun m => m = Done (Ok tt)) ps ->
    pass_step env w p w (set_worker i Idle p)
| join_throws i ps j e :
    pass_workers p !! i = Some (Joining ps) -> ps !! j = Some (Done (Err e)) ->
    pass_step env w p w (set_worker i (Stopped (Err e)) (with_detached (ps ++ pass_detached p) p))
| detached_call j c k a w' :
    pass_detached p !! j = Some (Ask c k) -> env w c a w' ->
    pass_step env w p w' (with_detached (<[j := k a]> (pass_detached p)) (note c p)).

(** ** The system *)

Record system : Type := {
  sys_world : world;
  sys_passes : list pass;
  sys_tokens : list string;
}.

Inductive system_step (s : system) : system -> Prop :=
| enqueue_job now id envelope attributes link rows job :
    let r := new_row now id envelope attributes link in
    insert_job (w_rows (sys_world s)) r = Ok rows ->
    claimed_job jsonb_out sha256 r = Some job ->
    system_step s
      {| sys_world := {| w_rows := rows; w_delivered := w_delivered (sys_world s);
                         w_enqueued := message_of job :: w_enqueued (sys_world s) |};
         sys_passes := sys_passes s; sys_tokens := sys_tokens s |}
| begin_pass token locked clock claimed rows :
    token ∉ sys_tokens s ->
    claimBatch jsonb_out sha256 collate WORKER_RUNTIME (w_rows (sys_world s)) locked clock
      (claim_options options token) = (Ok claimed, rows) ->
    system_step s
      {| sys_world := with_rows (sys_world s) rows;
         sys_passes := sys_passes s ++ [start_pass token claimed];
         sys_tokens := token :: sys_tokens s |}
| claim_unanswered token locked clock claimed rows :
    token ∉ sys_tokens s ->
    claimBatch jsonb_out sha256 collate WORKER_RUNTIME (w_rows (sys_world s)) locked clock
      (claim_options options token) = (Ok claimed, rows) ->
    system_step s
      {| sys_world := with_rows (sys_world s) rows; sys_passes := sys_passes s;
         sys_tokens := token :: sys_tokens s |}
| run_pass i p w p' :
    sys_passes s !! i = Some p -> pass_step answers (sys_world s) p w p' ->
    system_step s
      {| sys_world := w; sys_passes := <[i := p']> (sys_passes s); sys_tokens := sys_tokens s |}
| crash i :
    system_step s
      {| sys_world := sys_world s; sys_passes := delete i (sys_passes s); sys_tokens := sys_tokens s |}
| cleanup role locked now n rows :
    deleteExpired collate role (w_rows (sys_world s)) locked now (cleanup_options options) = Ok (n, rows) ->
    system_step s
      {| sys_world := with_rows (sys_world s) rows; sys_passes := sys_passes s; sys_tokens := sys_tokens s |}.

Definition empty_system : system :=
  {| sys_world := {| w_rows := ∅; w_delivered := []; w_enqueued := [] |}; sys_passes := []; sys_tokens := [] |}.

(** ** The promise a table stands for *)

Definition row_state (r : job_row jsonb) : job_state :=
  match status r with
  | PENDING => Queued (attempts r)
  | PUBLISHED => Sent
  | FAILED => Dead
  end.

Definition row_message (r : job_row jsonb) : option OutboxTransportMessage :=
  message_of <$> claimed_job jsonb_out sha256 r.

Definition row_job (r : job_row jsonb) : option (OutboxTransportMessage * job_state) :=
  (fun m => (m, row_state r)) <$> row_message r.

Definition abstract (w : world) : delivery :=
  {| known := w_enqueued w; job_states := omap row_job (w_rows w); accepted := w_delivered w |}.
End system.

Arguments world jsonb : clear implicits.
Arguments system jsonb : clear implicits.

(** ** Invariants *)

Section invariants.
Context {jsonb : Type} (jsonb_out : jsonb -> jsval) (sha256 : string -> string).
Context (collate : string -> string -> Z) (options : OutboxDispatcherOptions) (transport : OutboxTransport).
Context (Hoptions : options_in_range options = true).
Implicit Types (w : world jsonb) (p : pass) (r : job_row jsonb) (rows : outbox jsonb).

Notation max := (dispatch_maxAttempts options).
Notation claimed_job := (claimed_job jsonb_out sha256).
Notation row_message := (row_message jsonb_out sha256).
Notation abstract := (abstract jsonb_out sha256).
Notation safe token jobs := (obeys (allowed options token jobs) delivers (fun _ _ => True)).

(** A row: it reads back as an enqueued job, has failed less often than allowed
    while it waits and exactly as often when it is given up, and is published
    only when the transport has accepted it. *)
Definition row_inv w (tokens : list string) r : Prop :=
  exists job, claimed_job r = Some job /\ message_of job ∈ w_enqueued w /\ 0 <= attempts r /\
    match status r with
    | PENDING => attempts r < max
    | FAILED => attempts r = max
    | PUBLISHED => attempts r < max /\ message_of job ∈ w_delivered w
    end /\
    (forall t, locked_by r = Some t -> t ∈ tokens).

Definition world_inv w (tokens : list string) : Prop :=
  table_ok (w_rows w) /\ w_delivered w ⊆ w_enqueued w /\
  forall id r, w_rows w !! id = Some r -> row_inv w tokens r.

Definition worker_inv token jobs (D : list OutboxTransportMessage) (t : worker) : Prop :=
  match t with
  | Working m =>
      obeys (allowed options token jobs) delivers
        (fun D a => match a with Ok ps => Forall (safe token jobs D) ps | Err _ => True end) D m
  | Joining ps => Forall (safe token jobs D) ps
  | Idle | Stopped _ => True
  end.

(** A pass: while it holds a lease, the row is the job it claimed; what runs
    makes allowed calls only. *)
Definition pass_inv w (tokens : list string) p : Prop :=
  pass_token p ∈ tokens /\
  (forall job, job ∈ pass_jobs p -> message_of job ∈ w_enqueued w /\ 0 <= job_attempts job) /\
  (forall job r, job ∈ pass_jobs p -> w_rows w !! job_id job = Some r ->
     locked_by r = Some (pass_token p) -> claimed_job r = Some job) /\
  Forall (fun batch => batch ⊆ pass_jobs p) (pass_queue p) /\
  Forall (worker_inv (pass_token p) (pass_jobs p) (w_delivered w)) (pass_workers p) /\
  Forall (safe (pass_token p) (pass_jobs p) (w_delivered w)) (pass_detached p).

Definition system_inv (s : system jsonb) : Prop :=
  world_inv (sys_world s) (sys_tokens s) /\ Forall (pass_inv (sys_world s) (sys_tokens s)) (sys_passes s).

(** *** Rows *)

Lemma claimed_job_fields r job :
  claimed_job r = Some job -> job_id job = row_id r /\ job_attempts job = attempts r.
Proof.
  unfold OutboxTable.claimed_job. intros H. repeat (apply bind_Some in H as (? & _ & H)). by injection H as <-.
Qed.

Lemma row_message_fields r r' :
  row_id r = row_id r' -> queue_name r = queue_name r' -> payload r = payload r' ->
  message_attributes r = message_attributes r' -> ledger_command_id r = ledger_command_id r' ->
  ledger_journal_id r = ledger_journal_id r' -> row_message r = row_message r'.
Proof.
  intros E1 E2 E3 E4 E5 E6. unfold OutboxSystem.row_message, OutboxTable.claimed_job, row_link.
  rewrite E1, E2, E3, E4, E5, E6. destruct (match ledger_command_id r' with Some _ => _ | None => _ end); [|done].
  cbn [mbind option_bind]. destruct (parseJobEnvelope _ _); [|done]. cbn [mbind option_bind].
  by destruct (parseStoredMessageAttributes _).
Qed.

(** Another version of a row that reads back reads back as the same message. *)
Lemma claimed_job_again r r' job :
  claimed_job r = Some job -> row_message r' = row_message r ->
  exists job', claimed_job r' = Some job' /\ message_of job' = message_of job.
Proof.
  intros H E. unfold OutboxSystem.row_message in E. rewrite H in E. cbn in E.
  apply fmap_Some in E as (job' & ? & ?). eauto.
Qed.

Lemma row_inv_mono w w' tokens tokens' r :
  w_delivered w ⊆ w_delivered w' -> w_enqueued w ⊆ w_enqueued w' -> tokens ⊆ tokens' ->
  row_inv w tokens r -> row_inv w' tokens' r.
Proof.
  intros HD HE HT (job & H1 & H2 & H3 & H4 & H5). exists job. split_and!; auto.
  destruct (status r); [done| |done]. split; [tauto|]. apply HD. tauto.
Qed.

(** *** The table and its promise *)

Lemma abstract_lookup w id r job :
  w_rows w !! id = Some r -> claimed_job r = Some job ->
  job_states (abstract w) !! id = Some (message_of job, row_state r).
Proof.
  intros Hr Hj. cbn. rewrite lookup_omap, Hr. cbn. unfold row_job, OutboxSystem.row_message. by rewrite Hj.
Qed.

Lemma abstract_insert w id r job :
  claimed_job r = Some job ->
  abstract (with_rows w (<[id := r]> (w_rows w))) = set_job id (message_of job) (row_state r) (abstract w).
Proof.
  intros Hj. unfold OutboxSystem.abstract, set_job. cbn. f_equal.
  apply omap_insert_Some. unfold row_job, OutboxSystem.row_message. by rewrite Hj.
Qed.
(** Replacing a row by a later version that reads back. *)
Lemma world_inv_update w tokens id r :
  world_inv w tokens -> row_id r = id -> row_checks r = true -> row_inv w tokens r ->
  world_inv (with_rows w (<[id := r]> (w_rows w))) tokens.
Proof.
  intros (Hok & HD & Hrows) Hid Hc Hr. split_and!; [|done|].
  - intros id' r'. cbn. rewrite lookup_insert_Some. intros [[<- <-]|[_ ?]]; [done | by apply Hok].
  - intros id' r'. cbn. rewrite lookup_insert_Some. intros [[<- <-]|[_ H]]; [done | by apply (Hrows id')].
Qed.

(** Leases are only given up, except to a fresh token. *)
Definition leases_from (rows rows' : outbox jsonb) (fresh : option string) : Prop :=
  forall id r t, rows' !! id = Some r -> locked_by r = Some t -> fresh = Some t \/ rows !! id = Some r.

Lemma leases_from_refl rows fresh : leases_from rows rows fresh.
Proof. intros id r t H _. by right. Qed.

Lemma leases_from_insert rows id r : locked_by r = None -> leases_from rows (<[id := r]> rows) None.
Proof.
  intros Hl id' r' t. rewrite lookup_insert_Some. intros [[<- <-]|[_ H]] Ht; [congruence | by right].
Qed.

(** *** One call *)

(** What a call an honest pass makes does to the world. *)
Definition call_effect w tokens (c : dispatch_call) (a : result dispatch_error (dispatch_answer c)) w' : Prop :=
  world_inv w' tokens /\ leases_from (w_rows w) (w_rows w') None /\ w_enqueued w' = w_enqueued w /\
  delivers c (w_delivered w) a (w_delivered w') /\ rtc (delivery_step max) (abstract w) (abstract w').

Lemma call_effect_none w tokens c a :
  world_inv w tokens ->
  match c with Publish _ | PublishBatch _ => False | _ => True end -> call_effect w tokens c a w.
Proof.
  intros Hw Hc. split_and!; [done|apply leases_from_refl|done| |done]. split; [done|]. by destruct c.
Qed.

Lemma deliver_inv w tokens ds : ds ⊆ w_enqueued w -> world_inv w tokens -> world_inv (deliver ds w) tokens.
Proof.
  intros Hds (Hok & HD & Hrows). split_and!; [done| |].
  - intros m [?|?]%elem_of_app; auto.
  - intros id r Hr. apply (row_inv_mono w _ tokens _); [|done..|by apply (Hrows id)].
    intros m ?. apply elem_of_app. by right.
Qed.

Lemma deliver_effect w tokens c a ds :
  world_inv w tokens -> ds ⊆ w_enqueued w ->
  delivers c (w_delivered w) a (ds ++ w_delivered w) -> call_effect w tokens c a (deliver ds w).
Proof.
  intros Hw Hds Hc. split_and!; [by apply deliver_inv|apply leases_from_refl|done|done|].
  apply rtc_once. by apply (Deliver max (abstract w) ds).
Qed.

(** A settled row. *)
Lemma settle_effect w tokens c a id token r r' job :
  world_inv w tokens -> match c with MarkPublished _ _ | RecordFailure _ _ _ _ _ => True | _ => False end ->
  leased_row WORKER_RUNTIME (w_rows w) id token = Some r -> claimed_job r = Some job ->
  row_id r' = id -> row_checks r' = true -> row_inv w tokens r' -> locked_by r' = None ->
  row_message r' = row_message r ->
  delivery_step max (abstract w) (set_job id (message_of job) (row_state r') (abstract w)) ->
  call_effect w tokens c a (with_rows w (<[id := r']> (w_rows w))).
Proof.
  intros Hw Hc Hl Hj Hid Hk Hr' Hlock Hm Hstep.
  destruct (claimed_job_again r r' job Hj Hm) as (job' & Hj' & Em).
  split_and!; [by apply world_inv_update|by apply leases_from_insert|done| |].
  - split; [done|]. by destruct c.
  - rewrite (abstract_insert w id r' job') by done. rewrite Em. by apply rtc_once.
Qed.

Lemma with_rows_same w : with_rows w (w_rows w) = w.
Proof. by destruct w. Qed.

Lemma statement_world {A} w (b : A) rows a w' :
  statement_answer (Ok (b, rows)) w a w' -> w' = w \/ w' = with_rows w rows.
Proof. intros [[_ ->]|[_ [-> | ->]]]; auto. Qed.

Lemma confirmed_of_delivers ms results w w' ds :
  confirmed_of ms results ⊆ ds -> w' = deliver ds w ->
  delivers (PublishBatch ms) (w_delivered w) (Ok results) (w_delivered w').
Proof.
  intros H ->. split; [intros m ?; apply elem_of_app; by right|]. intros i m Hm Hr. cbn.
  apply elem_of_app. left. apply H. unfold confirmed_of. apply list_elem_of_fmap. exists (m, Some PublishedResult).
  split; [done|]. apply filter_In_elem. split; [|done]. apply list_elem_of_lookup. exists i.
  apply lookup_zip_with_Some. eauto.
Qed.

Definition max_small : max <= 100.
Proof. unfold options_in_range in Hoptions. rewrite !andb_true_iff, !Z.leb_le in Hoptions. lia. Qed.

Lemma allowed_effect w tokens p c a w' :
  world_inv w tokens -> pass_inv w tokens p ->
  allowed options (pass_token p) (pass_jobs p) (w_delivered w) c -> answers w c a w' ->
  call_effect w tokens c a w'.
Proof.
  intros Hw (_ & Hjobs & Hlease & _) Hc Ha. destruct c as [| |m|ms|id t|id t code terminal delay|f n]; cbn in Ha.
  - destruct Ha as [_ ->]. by apply call_effect_none.
  - destruct Ha as [_ ->]. by apply call_effect_none.
  - destruct Ha as (ds & Hds & Hconf & ->). apply deliver_effect; [done| |].
    + intros m' Hm'%Hds. apply list_elem_of_singleton in Hm' as ->. cbn in Hc.
      apply list_elem_of_fmap in Hc as (job & -> & Hj). by apply Hjobs.
    + split; [intros m' ?; apply elem_of_app; by right|]. intros Hok. destruct a; [|done].
      apply elem_of_app. left. apply Hconf. by left.
  - destruct Ha as (ds & Hds & Hconf & ->). apply deliver_effect; [done| |].
    + intros m' Hm'%Hds%Hc. apply list_elem_of_fmap in Hm' as (job & -> & Hj). by apply Hjobs.
    + destruct a as [results|e]; [exact (confirmed_of_delivers ms results w (deliver ds w) ds Hconf eq_refl)|].
      split; [intros m' ?; apply elem_of_app; by right | done].
  - destruct Ha as (now & Ha). destruct Hc as (-> & job & Hj & <- & HD).
    rewrite markPublished_eq in Ha by apply Hw.
    destruct (leased_row _ _ _ _) as [r|] eqn:El.
    2:{ apply statement_world in Ha as [-> | ->]; rewrite ?with_rows_same; by apply call_effect_none. }
    apply statement_world in Ha as [-> | ->]; [by apply call_effect_none|].
    pose proof El as El'. apply leased_row_some in El as (Hr & Hp & Hl).
    pose proof (Hlease job r Hj Hr Hl) as Hjob. pose proof Hw as (Hok & Hsub & Hrows).
    destruct (Hok _ _ Hr) as [Hid Hk]. destruct (Hrows _ _ Hr) as (job0 & Hj0 & He & Hn & Hst & Ht).
    rewrite Hp in Hst. rewrite Hjob in Hj0. injection Hj0 as <-.
    apply (settle_effect w tokens _ a (job_id job) (pass_token p) r (published_row now r) job); try done.
    + by apply published_checks.
    + destruct (claimed_job_again r (published_row now r) job Hjob) as (job' & Hj' & Em); [by apply row_message_fields|].
      exists job'. rewrite Em. cbn. split_and!; try done. 
    + change (row_state (published_row now r)) with Sent.
      apply (Settle max _ _ _ (attempts r)); [|done]. rewrite (abstract_lookup w _ r job) by done.
      unfold row_state. by rewrite Hp.
  - destruct Ha as (clock & Ha). destruct Hc as (-> & job & Hj & <- & Hcode & Hterm & Hdelay).
    destruct (Hjobs job Hj) as [Hknown Hnn]. specialize (Hdelay Hoptions Hnn).
    pose proof Hw as (Hok & Hsub & Hrows).
    assert (Hrow : forall r, leased_row WORKER_RUNTIME (w_rows w) (job_id job) (pass_token p) = Some r ->
              w_rows w !! job_id job = Some r /\ status r = PENDING /\ claimed_job r = Some job /\
              job_attempts job = attempts r /\ attempts r < max /\ row_id r = job_id job /\ row_checks r = true).
    { intros r (Hr & Hp & Hl)%leased_row_some. pose proof (Hlease job r Hj Hr Hl) as Hjob.
      destruct (claimed_job_fields _ _ Hjob) as [E1 E2]. destruct (Hok _ _ Hr) as [_ Hk].
      destruct (Hrows _ _ Hr) as (job0 & _ & _ & _ & Hst & _). rewrite Hp in Hst. done. }
    pose proof max_small as Hmax.
    rewrite recordFailure_eq in Ha; [|done..|].
    2:{ intros r Hr%Hrow. unfold MAX_INTEGER. lia. }
    destruct (leased_row _ _ _ _) as [r|] eqn:El.
    2:{ apply statement_world in Ha as [-> | ->]; rewrite ?with_rows_same; by apply call_effect_none. }
    apply statement_world in Ha as [-> | ->]; [by apply call_effect_none|].
    destruct (Hrow r eq_refl) as (Hr & Hp & Hjob & Hatt & Hlt & Hid & Hk).
    destruct (Hrows _ _ Hr) as (job0 & Hj0 & He & Hn & _ & Ht). rewrite Hjob in Hj0. injection Hj0 as <-.
    set (r' := failed_row clock code terminal delay r).
    destruct (claimed_job_again r r' job Hjob) as (job' & Hj' & Em); [by apply row_message_fields|].
    apply (settle_effect w tokens _ a (job_id job) (pass_token p) r r' job); try done.
    + apply failed_checks; [done..| |done]. unfold MAX_INTEGER. lia.
    + exists job'. rewrite Em. cbn. split_and!; try done; [lia|]. rewrite Hatt in Hterm.
      destruct terminal; symmetry in Hterm; [apply Z.leb_le in Hterm | apply Z.leb_gt in Hterm]; lia.
    + by apply row_message_fields.
    + assert (Hq : job_states (abstract w) !! job_id job = Some (message_of job, Queued (attempts r))).
      { rewrite (abstract_lookup w _ r job) by done. unfold row_state. by rewrite Hp. }
      unfold row_state, r'. cbn. rewrite Hatt in Hterm.
      destruct terminal; symmetry in Hterm; [apply Z.leb_le in Hterm | apply Z.leb_gt in Hterm].
      * apply (FailForever max _ _ _ (attempts r)); [done|lia].
      * by apply (FailOnce max _ _ _ (attempts r)).
  - destruct Ha as [_ ->]. by apply call_effect_none.
Qed.
(** *** Passes *)

Lemma worker_inv_mono token jobs D D' t : D ⊆ D' -> worker_inv token jobs D t -> worker_inv token jobs D' t.
Proof.
  intros HD. assert (Hps : forall D D' (ps : list (job_io unit)), D ⊆ D' -> Forall (safe token jobs D) ps -> Forall (safe token jobs D') ps).
  { intros D1 D2 ps H Hps. eapply Forall_impl; [exact Hps|]. intros m. by apply safe_mono. }
  destruct t as [|m|ps|a]; cbn; try done; [|by apply Hps].
  apply obeys_delivered_mono; [|done]. intros D1 D2 [ps|e] H; [by apply Hps | done].
Qed.

Lemma pass_inv_world w w' tokens tokens' fresh p :
  leases_from (w_rows w) (w_rows w') fresh -> fresh <> Some (pass_token p) ->
  w_delivered w ⊆ w_delivered w' -> w_enqueued w ⊆ w_enqueued w' -> tokens ⊆ tokens' ->
  pass_inv w tokens p -> pass_inv w' tokens' p.
Proof.
  intros Hl Hf HD HE HT (H1 & H2 & H3 & H4 & H5 & H6). split_and!; auto.
  - intros job Hj. destruct (H2 job Hj). auto.
  - intros job r Hj Hr Ht. destruct (Hl _ _ _ Hr Ht) as [?|Hr']; [done|]. by apply H3.
  - eapply Forall_impl; [exact H5|]. intros t. by apply worker_inv_mono.
  - eapply Forall_impl; [exact H6|]. intros m. by apply safe_mono.
Qed.

(** A pass whose worker moves. *)
Lemma set_worker_inv w tokens p i t :
  pass_inv w tokens p -> worker_inv (pass_token p) (pass_jobs p) (w_delivered w) t ->
  pass_inv w tokens (set_worker i t p).
Proof. intros (H1 & H2 & H3 & H4 & H5 & H6) Ht. split_and!; auto. by apply Forall_insert. Qed.

Lemma note_inv w tokens p c : pass_inv w tokens p -> pass_inv w tokens (note c p).
Proof. done. Qed.

(** A step of a pass: its effect on the world, and that the pass stays honest. *)
Definition step_effect w tokens w' : Prop :=
  world_inv w' tokens /\ leases_from (w_rows w) (w_rows w') None /\ w_enqueued w' = w_enqueued w /\
  w_delivered w ⊆ w_delivered w' /\ rtc (delivery_step max) (abstract w) (abstract w').

Lemma step_effect_refl w tokens : world_inv w tokens -> step_effect w tokens w.
Proof. intros Hw. split_and!; try done. apply leases_from_refl. Qed.

Lemma call_step_effect w tokens c a w' : call_effect w tokens c a w' -> step_effect w tokens w'.
Proof. intros (H1 & H2 & H3 & [H4 _] & H5). done. Qed.

Lemma step_effect_pass w tokens w' p : step_effect w tokens w' -> pass_inv w tokens p -> pass_inv w' tokens p.
Proof. intros (_ & Hl & E & HD & _). apply (pass_inv_world w w' tokens tokens None p Hl); try done. by rewrite E. Qed.

(** A call of a tree of the pass. *)
Lemma ask_step {A} w tokens p (post : _ -> result dispatch_error A -> Prop) c k a w' :
  world_inv w tokens -> pass_inv w tokens p ->
  obeys (allowed options (pass_token p) (pass_jobs p)) delivers post (w_delivered w) (Ask c k) ->
  answers w c a w' ->
  step_effect w tokens w' /\
  obeys (allowed options (pass_token p) (pass_jobs p)) delivers post (w_delivered w') (k a).
Proof.
  intros Hw Hp [Hc Hk] Ha. pose proof (allowed_effect w tokens p c a w' Hw Hp Hc Ha) as He.
  split; [by eapply call_step_effect|]. apply Hk. apply He.
Qed.

Lemma pass_step_inv w tokens p w' p' :
  world_inv w tokens -> pass_inv w tokens p -> pass_step sha256 options transport answers w p w' p' ->
  step_effect w tokens w' /\ pass_inv w' tokens p'.
Proof.
  intros Hw Hp Hstep. pose proof Hp as (H1 & H2 & H3 & H4 & H5 & H6). pose proof (proj1 (Forall_lookup _ _) H5) as Hwork.
  pose proof (step_effect_refl w tokens Hw) as Hrefl.
  destruct Hstep as [i batch queue Hi Hq|i Hi Hq|i c k a w' Hi Ha|i ps Hi|i e Hi|i ps j c k a w' Hi Hj Ha|i ps Hi _|
                     i ps j e Hi _|j c k a w' Hj Ha].
  - split; [done|]. rewrite Hq in H4. apply Forall_cons in H4 as [Hb H4].
    apply (set_worker_inv w tokens (with_queue queue p)); [by split_and!|]. cbn. by apply dispatchMany_safe.
  - split; [done|]. by apply set_worker_inv.
  - pose proof (Hwork _ _ Hi) as Hm. destruct (ask_step w tokens p _ c k a w' Hw Hp Hm Ha) as [He Hk].
    split; [done|]. apply (set_worker_inv w' tokens (note c p)); [|done]. by apply (step_effect_pass w).
  - split; [done|]. apply set_worker_inv; [done|]. exact (Hwork _ _ Hi).
  - split; [done|]. by apply set_worker_inv.
  - pose proof (Hwork _ _ Hi) as Hps. cbn in Hps. rewrite Forall_lookup in Hps.
    destruct (ask_step w tokens p _ c k a w' Hw Hp (Hps _ _ Hj) Ha) as [He Hk].
    split; [done|]. pose proof (step_effect_pass _ _ _ _ He Hp) as Hp'.
    apply (set_worker_inv w' tokens (note c p)); [done|]. cbn. apply Forall_insert; [|done].
    apply Forall_lookup. intros j' m Hm. apply (safe_mono _ _ _ (w_delivered w)); [apply He | by eapply Hps].
  - split; [done|]. by apply set_worker_inv.
  - split; [done|]. apply (set_worker_inv w tokens (with_detached (ps ++ pass_detached p) p)); [|done].
    split_and!; try done. cbn. apply Forall_app. split; [exact (Hwork _ _ Hi) | done].
  - pose proof (proj1 (Forall_lookup _ _) H6) as Hdet.
    destruct (ask_step w tokens p _ c k a w' Hw Hp (Hdet _ _ Hj) Ha) as [He Hk].
    split; [done|]. pose proof (step_effect_pass _ _ _ _ He Hp) as (G1 & G2 & G3 & G4 & G5 & G6).
    split_and!; try done. cbn. by apply Forall_insert.
Qed.
(** *** Claims, enqueueing and cleanup *)

Lemma abstract_ext w rows :
  (forall id, mbind (row_job jsonb_out sha256) (w_rows w !! id) = mbind (row_job jsonb_out sha256) (rows !! id)) ->
  abstract (with_rows w rows) = abstract w.
Proof.
  intros H. unfold OutboxSystem.abstract. cbn. f_equal. apply map_eq. intros id. by rewrite !lookup_omap, H.
Qed.

(** The world after a claim under a fresh token, and the pass that begins. *)
Lemma claim_effect w tokens token locked clock claimed rows :
  world_inv w tokens -> token ∉ tokens ->
  claimBatch jsonb_out sha256 collate WORKER_RUNTIME (w_rows w) locked clock (claim_options options token) =
    (Ok claimed, rows) ->
  world_inv (with_rows w rows) (token :: tokens) /\ leases_from (w_rows w) rows (Some token) /\
  abstract (with_rows w rows) = abstract w /\
  pass_inv (with_rows w rows) (token :: tokens) (start_pass options transport token claimed).
Proof.
  intros (Hok & HD & Hrows) Hfresh Hclaim.
  destruct (claimBatch_ok _ _ _ _ _ _ _ _ _ _ Hok Hclaim) as (picked & Hnd & Hpick & Hjobs & -> & Hok').
  set (o := claim_options options token) in *.
  set (rows := write_all (w_rows w) (lease_of clock o <$> picked)) in *.
  assert (Hlook : forall id r, rows !! id = Some r ->
            (exists r0, r0 ∈ picked /\ row_id r0 = id /\ r = lease_of clock o r0) \/
            (id ∉ row_id <$> picked /\ w_rows w !! id = Some r)) by (intros; by apply claimed_rows_lookup).
  split; [|split; [|split]].
  - split; [done|]. split; [done|]. intros id r Hr. destruct (Hlook id r Hr) as [(r0 & Hr0 & <- & ->)|[_ Hr']].
    + destruct (Hpick r0 Hr0) as [Hr1 _]. destruct (Hrows _ _ Hr1) as (job & H1 & H2 & H3 & H4 & H5).
      exists job. split_and!; try done. intros t [= <-]. left.
    + apply (row_inv_mono w _ tokens); try done; [set_solver|]. by apply (Hrows id).
  - intros id r t Hr Ht. destruct (Hlook id r Hr) as [(r0 & _ & _ & ->)|[_ Hr']]; [left | by right].
    by injection Ht as <-.
  - apply abstract_ext. intros id. destruct (decide (id ∈ row_id <$> picked)) as [Hid|Hid].
    + apply list_elem_of_fmap in Hid as (r0 & -> & Hr0). destruct (Hpick r0 Hr0) as [-> _].
      pose proof (write_all_in (w_rows w) (lease_of clock o <$> picked) (lease_of clock o r0)) as Hw.
      rewrite lease_of_ids in Hw. specialize (Hw Hnd (list_elem_of_fmap_2 _ _ _ Hr0)).
      change (row_id (lease_of clock o r0)) with (row_id r0) in Hw. fold rows in Hw. by rewrite Hw.
    + unfold rows. by rewrite write_all_notin by (by rewrite lease_of_ids).
  - assert (Hjob : forall job, job ∈ claimed -> exists r, r ∈ picked /\ claimed_job r = Some job).
    { intros job Hj. by apply (Forall2_elem_r _ _ _ _ Hjobs). }
    split_and!; cbn; [left| | | | |done].
    + intros job Hj. destruct (Hjob job Hj) as (r & Hr & E). destruct (Hpick r Hr) as [Hr1 _].
      destruct (Hrows _ _ Hr1) as (job' & E' & He & Hn & _). rewrite E in E'. injection E' as <-.
      destruct (claimed_job_fields _ _ E) as [_ ->]. done.
    + intros job r Hj Hr Ht. destruct (Hjob job Hj) as (r0 & Hr0 & E).
      destruct (claimed_job_fields _ _ E) as [Hid _].
      destruct (Hlook _ _ Hr) as [(r1 & Hr1 & Hid1 & ->)|[Hout _]].
      * change (claimed_job (lease_of clock o r1)) with (claimed_job r1). assert (r1 = r0) as -> by (apply (NoDup_fmap_inj row_id picked); congruence). done.
      * destruct Hout. rewrite Hid. by apply list_elem_of_fmap_2.
    + apply Forall_forall. intros batch Hb job Hj. rewrite <- (batches_concat transport claimed).
      apply list_elem_of_In, in_concat. exists batch. by rewrite <- !list_elem_of_In.
    + apply Forall_replicate. done.
Qed.

Lemma enqueue_effect w tokens now id envelope attributes link rows job :
  let r := new_row now id envelope attributes link in
  world_inv w tokens -> insert_job (w_rows w) r = Ok rows -> claimed_job r = Some job ->
  let w' := {| w_rows := rows; w_delivered := w_delivered w; w_enqueued := message_of job :: w_enqueued w |} in
  world_inv w' tokens /\ leases_from (w_rows w) rows None /\ delivery_step max (abstract w) (abstract w').
Proof.
  intros r (Hok & HD & Hrows) Hins Hjob w'. destruct (insert_job_ok _ _ _ _ _ _ _ Hins) as [Hid ->].
  split; [|split].
  - split_and!; cbn; [|set_solver|].
    + intros id' r'. rewrite lookup_insert_Some. intros [[<- <-]|[_ ?]]; [|by apply Hok].
      split; [done | apply new_row_checks].
    + intros id' r'. rewrite lookup_insert_Some. intros [[<- <-]|[_ Hr]].
      * exists job. cbn. split_and!; try done; [by left|]. unfold options_in_range in Hoptions.
        rewrite !andb_true_iff, !Z.leb_le in Hoptions. lia.
      * apply (row_inv_mono w _ tokens); try done; [cbn; set_solver|]. by apply (Hrows id').
  - by apply leases_from_insert.
  - assert (abstract w' = {| known := message_of job :: known (abstract w);
              job_states := <[id := (message_of job, Queued 0)]> (job_states (abstract w));
              accepted := accepted (abstract w) |}) as ->.
    { unfold OutboxSystem.abstract. cbn. f_equal. apply omap_insert_Some. unfold row_job, OutboxSystem.row_message.
      fold r. by rewrite Hjob. }
    apply Enqueue. cbn. by rewrite lookup_omap, Hid.
Qed.

Lemma cleanup_effect w tokens role locked now n rows :
  world_inv w tokens ->
  deleteExpired collate role (w_rows w) locked now (cleanup_options options) = Ok (n, rows) ->
  world_inv (with_rows w rows) tokens /\ leases_from (w_rows w) rows None /\
  rtc (delivery_step max) (abstract w) (abstract (with_rows w rows)).
Proof.
  intros Hw Hdel. pose proof Hw as (Hok & HD & Hrows).
  destruct (deleteExpired_rows _ _ _ _ _ _ _ _ Hok Hdel) as (deleted & -> & Hdeleted).
  assert (Hsub : forall l id r, delete_all (w_rows w) l !! id = Some r -> w_rows w !! id = Some r).
  { intros l id r Hr. destruct (decide (id ∈ row_id <$> l)) as [Hid|Hid].
    - by rewrite delete_all_in in Hr.
    - by rewrite delete_all_notin in Hr. }
  split; [|split].
  - split; [by apply delete_all_ok|]. split; [done|]. intros id r Hr%Hsub. by apply (Hrows id).
  - intros id r t Hr%Hsub _. by right.
  - clear Hdel. induction deleted as [|r deleted IH]; [cbn; by rewrite with_rows_same|].
    etrans; [apply IH; intros r' Hr'; apply Hdeleted; by right|].
    destruct (Hdeleted r) as [Hr Hs]; [left|].
    assert (Hdelete : abstract (with_rows w (delete_all (w_rows w) (r :: deleted))) =
              {| known := known (abstract w);
                 job_states := delete (row_id r) (job_states (abstract (with_rows w (delete_all (w_rows w) deleted))));
                 accepted := accepted (abstract w) |}).
    { unfold OutboxSystem.abstract. cbn. f_equal. apply omap_delete. }
    rewrite Hdelete.
    destruct (job_states (abstract (with_rows w (delete_all (w_rows w) deleted))) !! row_id r) as [[m st]|] eqn:E.
    + apply rtc_once. apply (Forget max (abstract (with_rows w (delete_all (w_rows w) deleted))) _ m st); [done|].
      cbn in E. rewrite lookup_omap in E. destruct (delete_all _ _ !! _) as [r'|] eqn:E'; [|done]. cbn in E.
      apply Hsub in E'. rewrite Hr in E'. injection E' as <-. unfold row_job in E.
      destruct (row_message r); [|done]. injection E as _ <-. unfold row_state. destruct (status r); auto; done.
    + cbn in E |- *. by rewrite delete_id.
Qed.
(** *** The system *)

Lemma empty_system_inv : system_inv empty_system.
Proof.
  split; [|constructor]. split_and!; [|done|]; intros id r; cbn; by rewrite lookup_empty.
Qed.

Lemma system_step_inv s s' :
  system_inv s -> system_step jsonb_out sha256 collate options transport s s' ->
  system_inv s' /\ rtc (delivery_step max) (abstract (sys_world s)) (abstract (sys_world s')).
Proof.
  intros [Hw Hps] Hstep.
  assert (Hothers : forall w' tokens fresh, leases_from (w_rows (sys_world s)) (w_rows w') fresh ->
            (forall t, fresh = Some t -> t ∉ sys_tokens s) -> w_delivered (sys_world s) ⊆ w_delivered w' ->
            w_enqueued (sys_world s) ⊆ w_enqueued w' -> sys_tokens s ⊆ tokens ->
            Forall (pass_inv w' tokens) (sys_passes s)).
  { intros w' tokens fresh Hl Hf HD HE HT. eapply Forall_impl; [exact Hps|]. intros p Hp.
    apply (pass_inv_world (sys_world s) w' (sys_tokens s) tokens fresh); try done.
    intros ->. destruct Hp as [Hp _]. by apply (Hf (pass_token p)). }
  destruct Hstep as [now id envelope attributes link rows job r Hins Hjob|token locked clock claimed rows Hfresh Hc|
                     token locked clock claimed rows Hfresh Hc|i p w p' Hi Hp|i|role locked now n rows Hd].
  - destruct (enqueue_effect _ _ _ _ _ _ _ _ _ Hw Hins Hjob) as (H1 & H2 & H3).
    split; [|by apply rtc_once]. split; [done|]. cbn. apply (Hothers _ _ None); try done. cbn. set_solver.
  - destruct (claim_effect _ _ _ _ _ _ _ Hw Hfresh Hc) as (H1 & H2 & H3 & H4).
    split; [|cbn; by rewrite H3]. split; [done|]. apply Forall_app. split; [|by apply Forall_singleton].
    apply (Hothers _ _ (Some token)); try done; [by intros t [= ->]|cbn; set_solver].
  - destruct (claim_effect _ _ _ _ _ _ _ Hw Hfresh Hc) as (H1 & H2 & H3 & _).
    split; [|cbn; by rewrite H3]. split; [done|].
    apply (Hothers _ _ (Some token)); try done; [by intros t [= ->]|cbn; set_solver].
  - pose proof (proj1 (Forall_lookup _ _) Hps i p Hi) as Hpi.
    destruct (pass_step_inv _ _ _ _ _ Hw Hpi Hp) as [(H1 & H2 & H3 & H4 & H5) H6].
    split; [|done]. split; [done|]. cbn. apply Forall_insert; [|done].
    apply (Hothers _ _ None); try done. by rewrite H3.
  - split; [|done]. split; [done|]. cbn. by apply Forall_delete.
  - destruct (cleanup_effect _ _ _ _ _ _ _ Hw Hd) as (H1 & H2 & H3).
    split; [|done]. split; [done|]. by apply (Hothers _ _ None).
Qed.

Lemma system_run_inv s s' :
  rtc (system_step jsonb_out sha256 collate options transport) s s' -> system_inv s ->
  system_inv s' /\ rtc (delivery_step max) (abstract (sys_world s)) (abstract (sys_world s')).
Proof.
  induction 1 as [s|s s1 s' Hstep _ IH]; [done|]. intros Hs.
  destruct (system_step_inv _ _ Hs Hstep) as [H1 H2]. destruct (IH H1) as [H3 H4]. split; [done|]. by etrans.
Qed.

Lemma reachable_inv s :
  rtc (system_step jsonb_out sha256 collate options transport) empty_system s ->
  system_inv s /\ rtc (delivery_step max) no_jobs (abstract (sys_world s)).
Proof. intros H. by apply (system_run_inv empty_system s H), empty_system_inv. Qed.
End invariants.
