(* ===== verification/OutboxPass.v ===== *)
(** * A dispatch pass from its claim to its summary

    Whatever the calls answer, and whatever else happens to the table meanwhile,
    a pass takes a bounded number of steps, is never stuck before all its
    workers have settled, and counts every claimed job once.  When the transport
    accepts, nobody shuts down and the leases hold, every claimed job ends as
    published. *)

From stdpp Require Import base list strings gmap relations.
From Stdlib Require Import ZArith Lia Ascii.
From S2P Require Import Prelude Text Effects JsValue JsCollections LogContext JobEnvelope OutboxTable OutboxDispatcher OutboxSystem.

Open Scope Z_scope.

(** ** Sums over the workers *)

Fixpoint total (ns : list nat) : nat :=
  match ns with
  | [] => 0
  | n :: ns => n + total ns
  end.

Lemma total_app ns ns' : total (ns ++ ns') = (total ns + total ns')%nat.
Proof. induction ns as [|n ns IH]; cbn; [done|]. lia. Qed.

Lemma total_insert ns i n n' :
  ns !! i = Some n -> (total (<[i := n']> ns) + n = total ns + n')%nat.
Proof.
  revert i. induction ns as [|m ns IH]; intros [|i] Hi; try done.
  - injection Hi as ->. cbn. lia.
  - change (<[S i := n']> (m :: ns)) with (m :: <[i := n']> ns). specialize (IH i Hi). cbn. lia.
Qed.

Lemma total_zero ns : Forall (fun n => n = 0%nat) ns -> total ns = 0%nat.
Proof. induction 1 as [|n ns -> _ IH]; cbn; [done|]. exact IH. Qed.

Lemma total_replicate k n : total (replicate k n) = (k * n)%nat.
Proof. induction k as [|k IH]; cbn; [done|]. lia. Qed.

(** One element of two related lists changes. *)
Lemma Forall2_change {A B} (R : A -> B -> Prop) l k i a :
  Forall2 R l k -> l !! i = Some a -> exists b, k !! i = Some b /\ R a b.
Proof. intros H Hi. by apply (Forall2_lookup_l R l k i a). Qed.

Section passes.
Context {jsonb : Type} (sha256 : string -> string).
Context (options : OutboxDispatcherOptions) (transport : OutboxTransport).
Implicit Types (w : world jsonb) (p : pass).

Notation start_pass := (start_pass options transport).

(** A move of a pass in whatever world: between its steps anything may happen. *)
Definition pass_moves p p' : Prop :=
  exists w w', pass_step (jsonb := jsonb) sha256 options transport answers w p w' p'.

(** ** The summary *)

Notation owes := (obeys (X := dispatch_error) counted counts
  (fun left r => match r with Ok _ => left = 0%nat | Err _ => True end)).

Definition worker_owes (t : worker) (n : nat) : Prop :=
  match t with
  | Idle => n = 0%nat
  | Stopped r => r = Ok tt /\ n = 0%nat
  | Working m =>
      obeys (X := dispatch_error) counted counts
        (fun left r => match r with Ok ps => left = length ps /\ Forall (owes 1%nat) ps | Err _ => True end) n m
  | Joining ps => exists ks, Forall2 (fun m k => owes k m) ps ks /\ n = total ks
  end.

Definition settled_count (s : OutboxDispatchSummary) : Z :=
  sum_published s + sum_retried s + sum_failed s + sum_leaseLost s.

Definition queued (queue : list (list ClaimedOutboxJob)) : nat := total (length <$> queue).

(** While no worker has thrown: what is counted and what is owed are the claim. *)
Definition adds_up p : Prop :=
  sum_claimed (pass_summary p) = Z.of_nat (length (pass_jobs p)) /\
  (Exists (fun t => exists e, t = Stopped (Err e)) (pass_workers p) \/
   pass_detached p = [] /\
   (pass_queue p = [] \/ ~ Exists (fun t => t = Stopped (Ok tt)) (pass_workers p) /\ pass_workers p <> []) /\
   exists ns, Forall2 worker_owes (pass_workers p) ns /\
     settled_count (pass_summary p) + Z.of_nat (queued (pass_queue p) + total ns)%nat =
     Z.of_nat (length (pass_jobs p))).

Lemma count_in_settled f n s : settled_count (count_in f n s) = settled_count s + n.
Proof. unfold settled_count. destruct f; cbn; lia. Qed.

Lemma note_claimed c p : sum_claimed (pass_summary (note c p)) = sum_claimed (pass_summary p).
Proof. by destruct c. Qed.

(** A call moves what it counts from what is owed to the summary. *)
Lemma note_settled {A} (post : nat -> result dispatch_error A -> Prop) c k n a p :
  obeys (X := dispatch_error) counted counts post n (Ask c k) ->
  exists n', obeys (X := dispatch_error) counted counts post n' (k a) /\
    settled_count (pass_summary (note c p)) + Z.of_nat n' = settled_count (pass_summary p) + Z.of_nat n.
Proof.
  intros [Hc Hk]. exists (match c with Count _ m => (n - m)%nat | _ => n end). split; [by apply Hk|].
  destruct c; cbn in *; try lia. rewrite count_in_settled. lia.
Qed.

Lemma queued_batches jobs : queued (batches transport jobs) = length jobs.
Proof.
  rewrite <- (batches_concat transport jobs) at 2. unfold queued. generalize (batches transport jobs) as ls.
  induction ls as [|l ls IH]; [done|]. cbn. rewrite length_app. by rewrite IH.
Qed.

Lemma start_adds_up token jobs : 1 <= concurrency options -> adds_up (start_pass token jobs).
Proof.
  intros Hc. split; [done|]. right. split; [done|]. split.
  - cbn. destruct (batches transport jobs) as [|b bs] eqn:E; [by left|right]. split.
    + rewrite Exists_exists. intros (t & Ht%elem_of_replicate & ->). by destruct Ht.
    + unfold worker_count. rewrite E. intros Hr. apply (f_equal length) in Hr. rewrite length_replicate in Hr.
      cbn in Hr. lia.
  - exists (replicate (worker_count options transport jobs) 0%nat). split.
    + cbn. by apply Forall2_replicate.
    + change (pass_queue (start_pass token jobs)) with (batches transport jobs).
      rewrite queued_batches, total_replicate. unfold settled_count. cbn. lia.
Qed.
(** Worker [i], owing [n], becomes [t], owing [n']. *)
Lemma workers_change (P : worker -> nat -> Prop) (ts : list worker) ns i t0 t n' :
  Forall2 P ts ns -> ts !! i = Some t0 -> P t n' ->
  exists n, P t0 n /\ Forall2 P (<[i := t]> ts) (<[i := n']> ns) /\
    (total (<[i := n']> ns) + n = total ns + n')%nat.
Proof.
  intros H Hi Ht. destruct (Forall2_lookup_l _ _ _ _ _ H Hi) as (n & Hn & HP).
  exists n. split; [done|]. split; [by apply Forall2_insert | by apply total_insert].
Qed.

Lemma not_stopped_insert i t (ts : list worker) :
  t <> Stopped (Ok tt) -> ~ Exists (fun t => t = Stopped (Ok tt)) ts /\ ts <> [] ->
  ~ Exists (fun t => t = Stopped (Ok tt)) (<[i := t]> ts) /\ <[i := t]> ts <> [].
Proof.
  intros Ht [H1 H2]. split.
  - rewrite Exists_exists. intros (t' & (j & Hj)%list_elem_of_lookup_1 & ->).
    apply list_lookup_insert_Some in Hj as [(_ & ? & _)|[_ Hj]]; [done|]. apply H1.
    apply Exists_exists. exists (Stopped (Ok tt)). split; [by eapply list_elem_of_lookup_2 | done].
  - intros E. apply H2. apply (f_equal length) in E. rewrite length_insert in E. by destruct ts.
Qed.

Lemma thrown_insert i t0 t (ts : list worker) :
  ts !! i = Some t0 -> (forall a, t0 <> Stopped a) ->
  Exists (fun t => exists e, t = Stopped (Err e)) ts -> Exists (fun t => exists e, t = Stopped (Err e)) (<[i := t]> ts).
Proof.
  intros Hi Ht (t' & (j & Hj)%list_elem_of_lookup_1 & e & ->)%Exists_exists.
  apply Exists_exists. exists (Stopped (Err e)). split; [|eauto]. apply (list_elem_of_lookup_2 _ j).
  rewrite list_lookup_insert_ne; [done|]. intros ->. rewrite Hi in Hj. injection Hj as ->. by eapply Ht.
Qed.

Lemma throws_insert i t0 e (ts : list worker) :
  ts !! i = Some t0 -> Exists (fun t => exists e, t = Stopped (Err e)) (<[i := Stopped (Err e)]> ts).
Proof.
  intros Hi. apply Exists_exists. exists (Stopped (Err e)). split; [|eauto]. apply (list_elem_of_lookup_2 _ i).
  apply list_lookup_insert_eq. by eapply lookup_lt_Some.
Qed.

Ltac sums := unfold queued, settled_count in *; cbn in *; lia.

Lemma adds_up_step p p' : pass_moves p p' -> adds_up p -> adds_up p'.
Proof.
  intros (w & w' & Hstep) [Hcl Hp].
  destruct Hstep as [i batch queue Hi Hq|i Hi Hq|i c k a w' Hi Ha|i ps Hi|i e Hi|i ps j c k a w' Hi Hj Ha|i ps Hi Hps|
                     i ps j e Hi Hj|j c k a w' Hj Ha]; 
    (split; [first [exact Hcl | transitivity (sum_claimed (pass_summary p)); [exact (note_claimed c p) | exact Hcl]]|]).
  - destruct Hp as [Hp|(Hd & Hs & ns & Hns & Hsum)]; [left; by apply (thrown_insert _ _ _ _ Hi)|right].
    split; [done|]. split; [destruct Hs as [?|Hs]; [congruence|right; by apply not_stopped_insert]|].
    destruct (workers_change _ _ _ _ _ (Working (dispatchMany sha256 options transport batch (pass_token p)))
                (length batch) Hns Hi) as (n & Hn & Hns' & Ht); [by apply dispatchMany_owes|].
    cbn in Hn. subst n. eexists. split; [exact Hns'|]. rewrite Hq in Hsum. sums.
  - destruct Hp as [Hp|(Hd & Hs & ns & Hns & Hsum)]; [left; by apply (thrown_insert _ _ _ _ Hi)|right].
    split; [done|]. split; [by left|].
    destruct (workers_change _ _ _ _ _ (Stopped (Ok tt)) 0%nat Hns Hi) as (n & Hn & Hns' & Ht); [done|].
    cbn in Hn. subst n. eexists. split; [exact Hns'|]. sums.
  - destruct Hp as [Hp|(Hd & Hs & ns & Hns & Hsum)]; [left; by apply (thrown_insert _ _ _ _ Hi)|right].
    split; [done|]. split; [destruct Hs as [?|Hs]; [by left|right; by apply not_stopped_insert]|].
    destruct (Forall2_lookup_l _ _ _ _ _ Hns Hi) as (n & Hn & Hm).
    destruct (note_settled _ c k n a p Hm) as (n' & Hm' & Hsum').
    eexists. split; [by apply Forall2_insert|]. pose proof (total_insert ns i n n' Hn). sums.
  - destruct Hp as [Hp|(Hd & Hs & ns & Hns & Hsum)]; [left; by apply (thrown_insert _ _ _ _ Hi)|right].
    split; [done|]. split; [destruct Hs as [?|Hs]; [by left|right; by apply not_stopped_insert]|].
    destruct (Forall2_lookup_l _ _ _ _ _ Hns Hi) as (n & Hn & [-> Hps]).
    exists ns. split; [|done]. rewrite <- (list_insert_id ns i (length ps)) by done.
    apply Forall2_insert; [done|]. exists (replicate (length ps) 1%nat). rewrite total_replicate.
    split; [|lia]. clear -Hps. induction Hps; constructor; done.
  - left. by apply (throws_insert _ _ _ _ Hi).
  - destruct Hp as [Hp|(Hd & Hs & ns & Hns & Hsum)]; [left; by apply (thrown_insert _ _ _ _ Hi)|right].
    split; [done|]. split; [destruct Hs as [?|Hs]; [by left|right; by apply not_stopped_insert]|].
    destruct (Forall2_lookup_l _ _ _ _ _ Hns Hi) as (n & Hn & ks & Hks & ->).
    destruct (Forall2_lookup_l _ _ _ _ _ Hks Hj) as (n & Hkn & Hm).
    destruct (note_settled _ c k n a p Hm) as (n' & Hm' & Hsum').
    eexists. split; [apply Forall2_insert; [done|]; exists (<[j := n']> ks); split; [by apply Forall2_insert | reflexivity]|].
    pose proof (total_insert ks j n n' Hkn). pose proof (total_insert ns i _ (total (<[j := n']> ks)) Hn).
    sums.
  - destruct Hp as [Hp|(Hd & Hs & ns & Hns & Hsum)]; [left; by apply (thrown_insert _ _ _ _ Hi)|right].
    split; [done|]. split; [destruct Hs as [?|Hs]; [by left|right; by apply not_stopped_insert]|].
    destruct (Forall2_lookup_l _ _ _ _ _ Hns Hi) as (n & Hn & ks & Hks & ->).
    assert (total ks = 0%nat) as Hz.
    { apply total_zero, Forall_forall. intros n' (j & Hj)%list_elem_of_lookup_1.
      destruct (Forall2_lookup_r _ _ _ _ _ Hks Hj) as (m & Hm & Ho).
      by rewrite (proj1 (Forall_lookup _ _) Hps _ _ Hm) in Ho. }
    exists (<[i := 0%nat]> ns). split; [by apply Forall2_insert|].
    pose proof (total_insert ns i _ 0%nat Hn). sums.
  - left. by apply (throws_insert _ _ _ _ Hi).
  - destruct Hp as [Hp|(Hd & _)]; [by left|]. by rewrite Hd in Hj.
Qed.
(** ** Termination *)

Notation within := (obeys (X := dispatch_error) fuel_left burns (fun _ _ => True)).

(** A worker that settles within [n] moves, the batches ahead not counted. *)
Definition worker_within (t : worker) (n : nat) : Prop :=
  match t with
  | Idle => (1 <= n)%nat
  | Stopped _ => True
  | Working m =>
      exists fuel forks, (fuel + 6 * forks + 3 <= n)%nat /\
        obeys (X := dispatch_error) fuel_left burns
          (fun _ r => match r with
             | Ok ps => (length ps <= forks)%nat /\ Forall (within 6%nat) ps
             | Err _ => True
             end) fuel m
  | Joining ps => exists ks, Forall2 (fun m k => within k m) ps ks /\ (total ks + 2 <= n)%nat
  end.

Definition queue_cost (queue : list (list ClaimedOutboxJob)) : nat :=
  total ((fun batch => (8 + 6 * length batch)%nat) <$> queue).

Definition pass_within p (n : nat) : Prop :=
  exists ns ds, Forall2 worker_within (pass_workers p) ns /\
    Forall2 (fun m k => within k m) (pass_detached p) ds /\
    (queue_cost (pass_queue p) + total ns + total ds <= n)%nat.

Lemma within_call {A} (post : nat -> result dispatch_error A -> Prop) c k n a :
  obeys (X := dispatch_error) fuel_left burns post n (Ask c k) ->
  (0 < n)%nat /\ obeys (X := dispatch_error) fuel_left burns post (pred n) (k a).
Proof. intros [Hc Hk]. split; [done | by apply Hk]. Qed.

(** Worker [i] moves on within [n'] moves, fewer than it had. *)
Lemma pass_within_worker p n i t0 t :
  pass_within p n -> pass_workers p !! i = Some t0 ->
  (forall n, worker_within t0 n -> exists n', (n' < n)%nat /\ worker_within t n') ->
  exists n', (n' < n)%nat /\ pass_within (set_worker i t p) n'.
Proof.
  intros (ns & ds & Hns & Hds & Hsum) Hi Ht. destruct (Forall2_lookup_l _ _ _ _ _ Hns Hi) as (m & Hm & Hw).
  destruct (Ht m Hw) as (m' & Hlt & Hw'). pose proof (total_insert ns i m m' Hm).
  exists (n - 1)%nat. split.
  - destruct n; [|lia]. pose proof (total_insert ns i m 0%nat Hm). lia.
  - exists (<[i := m']> ns), ds. split; [by apply Forall2_insert|]. split; [done|].
    unfold queue_cost in *. cbn in *. lia.
Qed.

Lemma pass_within_step p p' n :
  pass_moves p p' -> pass_within p n -> exists n', (n' < n)%nat /\ pass_within p' n'.
Proof.
  intros (w & w' & Hstep) Hp.
  destruct Hstep as [i batch queue Hi Hq|i Hi Hq|i c k a w' Hi Ha|i ps Hi|i e Hi|i ps j c k a w' Hi Hj Ha|i ps Hi Hps|
                     i ps j e Hi Hj|j c k a w' Hj Ha].
  - destruct Hp as (ns & ds & Hns & Hds & Hsum). destruct (Forall2_lookup_l _ _ _ _ _ Hns Hi) as (m & Hm & Hw).
    cbn in Hw. rewrite Hq in Hsum. unfold queue_cost in Hsum. cbn in Hsum.
    pose proof (total_insert ns i m (8 + 6 * length batch) Hm). exists (n - 1)%nat. split; [lia|].
    exists (<[i := (8 + 6 * length batch)%nat]> ns), ds. split; [|split; [done|unfold queue_cost in *; cbn in *; lia]].
    apply Forall2_insert; [done|]. exists 5%nat, (length batch). split; [lia | apply dispatchMany_within].
  - apply (pass_within_worker p n i Idle); [done..|]. intros m Hm. exists 0%nat. cbn in *. split; [lia | done].
  - apply (pass_within_worker (note c p) n i (Working (Ask c k))); [done..|]. intros m (f & ks & Hle & Hm).
    destruct (within_call _ c k f a Hm) as [Hf Hm']. exists (m - 1)%nat. split; [lia|].
    exists (pred f), ks. split; [lia | done].
  - apply (pass_within_worker p n i (Working (Done (Ok ps)))); [done..|]. intros m (f & ks & Hle & Hlen & Hps).
    exists (m - 1)%nat. split; [lia|]. exists (replicate (length ps) 6%nat). rewrite total_replicate. split; [|lia].
    clear -Hps. induction Hps; constructor; done.
  - apply (pass_within_worker p n i (Working (Done (Err e)))); [done..|]. intros m (f & ks & Hle & _).
    exists 0%nat. split; [lia | done].
  - apply (pass_within_worker (note c p) n i (Joining ps)); [done..|]. intros m (ks & Hks & Hle).
    destruct (Forall2_lookup_l _ _ _ _ _ Hks Hj) as (f & Hf & Hm).
    destruct (within_call _ c k f a Hm) as [Hpos Hm']. pose proof (total_insert ks j f (pred f) Hf).
    exists (m - 1)%nat. split; [lia|]. exists (<[j := pred f]> ks). split; [by apply Forall2_insert | lia].
  - apply (pass_within_worker p n i (Joining ps)); [done..|]. intros m (ks & Hks & Hle).
    exists 1%nat. split; [lia|]. cbn. lia.
  - destruct Hp as (ns & ds & Hns & Hds & Hsum).
    destruct (Forall2_lookup_l _ _ _ _ _ Hns Hi) as (m & Hm & ks & Hks & Hle).
    pose proof (total_insert ns i m 0%nat Hm). exists (n - 1)%nat. split; [lia|].
    exists (<[i := 0%nat]> ns), (ks ++ ds). split; [by apply Forall2_insert|]. split; [by apply Forall2_app|].
    rewrite total_app. unfold queue_cost in *. cbn in *. lia.
  - destruct Hp as (ns & ds & Hns & Hds & Hsum). destruct (Forall2_lookup_l _ _ _ _ _ Hds Hj) as (f & Hf & Hm).
    destruct (within_call _ c k f a Hm) as [Hpos Hm']. pose proof (total_insert ds j f (pred f) Hf).
    exists (n - 1)%nat. split; [lia|]. exists ns, (<[j := pred f]> ds). split; [done|].
    split; [by apply Forall2_insert | unfold queue_cost in *; cbn in *; lia].
Qed.

Lemma queue_cost_batches jobs : (queue_cost (batches transport jobs) <= 14 * length jobs)%nat.
Proof.
  assert (queue_cost (batches transport jobs) =
          8 * length (batches transport jobs) + 6 * queued (batches transport jobs))%nat as ->.
  { unfold queue_cost, queued. generalize (batches transport jobs) as ls. intros ls.
    induction ls as [|l ls IH]; [done|]. cbn in *. lia. }
  rewrite queued_batches. pose proof (batches_length transport jobs). lia.
Qed.

Lemma start_within token jobs : pass_within (start_pass token jobs) (15 * length jobs)%nat.
Proof.
  exists (replicate (worker_count options transport jobs) 1%nat), []. split; [apply Forall2_replicate; cbn; lia|].
  split; [constructor|]. rewrite total_replicate.
  change (pass_queue (start_pass token jobs)) with (batches transport jobs).
  pose proof (queue_cost_batches jobs). pose proof (batches_length transport jobs).
  unfold worker_count. cbn [total]. lia.
Qed.

Lemma nsteps_within k p p' n : nsteps pass_moves k p p' -> pass_within p n -> (k <= n)%nat.
Proof.
  intros H. revert n. induction H as [p|k p p1 p2 Hstep _ IH]; intros n Hp; [lia|].
  destruct (pass_within_step _ _ _ Hstep Hp) as (n' & Hlt & Hp1). specialize (IH n' Hp1). lia.
Qed.

(** ** Progress *)

Definition settled_pass p : Prop :=
  Forall (fun t => exists r, t = Stopped r) (pass_workers p) /\
  Forall (fun m => exists r, m = Done r) (pass_detached p).

Lemma call_answered w c : exists a w', answers w c a w'.
Proof.
  assert (Hst : forall A (statement : result outbox_error (A * outbox jsonb)), exists a w', statement_answer statement w a w').
  { intros A [[b rows]|e]; [exists (Ok b), (with_rows w rows) | exists (Err (Repository e)), w]; cbn; auto. }
  destruct c as [| |m|ms|id t|id t code terminal delay|f n]; cbn.
  - by exists (Ok false), w.
  - by exists (Ok false), w.
  - exists (Ok tt), (deliver [m] w), [m]. done.
  - exists (Err TransportRejected), (deliver [] w), []. split_and!; [apply list_subseteq_nil|done|done].
  - destruct (Hst _ (markPublished WORKER_RUNTIME (w_rows w) 0 id t)) as (a & w' & H). eauto.
  - destruct (Hst _ (recordFailure WORKER_RUNTIME (w_rows w) (fun _ => 0) id t code terminal delay)) as (a & w' & H).
    eauto.
  - by exists (Ok tt), w.
Qed.

(** A list of trees: one calls, one has thrown, or all have returned. *)
Lemma forks_cases (ps : list (job_io unit)) :
  (exists j c k, ps !! j = Some (Ask c k)) \/ (exists j e, ps !! j = Some (Done (Err e))) \/
  Forall (fun m => m = Done (Ok tt)) ps.
Proof.
  induction ps as [|[[[]|e]|c k] ps IH]; [right; right; constructor| | |].
  - destruct IH as [(j & c & k & H)|[(j & e & H)|H]].
    + left. by exists (S j), c, k.
    + right. left. by exists (S j), e.
    + right. right. by constructor.
  - right. left. by exists 0%nat, e.
  - left. by exists 0%nat, c, k.
Qed.

Lemma all_or_not {A} (f : A -> bool) l :
  Forall (fun x => f x = true) l \/ exists i x, l !! i = Some x /\ f x = false.
Proof.
  induction l as [|x l IH]; [left; constructor|]. destruct (f x) eqn:E.
  - destruct IH as [H|(i & y & Hi & Hy)]; [left; by constructor|]. right. by exists (S i), y.
  - right. by exists 0%nat, x.
Qed.

Lemma pass_progress w p : ~ settled_pass p -> exists w' p', pass_step sha256 options transport answers w p w' p'.
Proof.
  intros Hp.
  destruct (all_or_not (fun m : job_io unit => match m with Done _ => true | Ask _ _ => false end) (pass_detached p))
    as [Hd|(j & m & Hj & Hm)].
  - destruct (all_or_not (fun t => match t with Stopped _ => true | _ => false end) (pass_workers p))
      as [Ht|(i & t & Hi & Ht)].
    { destruct Hp. split; (eapply Forall_impl; [eassumption|]); [intros [| | |r]|intros [r|c k]]; try done; eauto. }
    destruct t as [|[[ps|e]|c k]|ps|r]; [| | | | |done].
    + destruct (pass_queue p) as [|batch queue] eqn:Hq; do 2 eexists; [by eapply no_more_batches | by eapply take_batch].
    + do 2 eexists. by eapply batch_forks.
    + do 2 eexists. by eapply batch_throws.
    + destruct (call_answered w c) as (a & w' & Ha). do 2 eexists. by eapply batch_call.
    + destruct (forks_cases ps) as [(j & c & k & Hj)|[(j & e & Hj)|Hall]].
      * destruct (call_answered w c) as (a & w' & Ha). do 2 eexists. by eapply fork_call.
      * do 2 eexists. by eapply join_throws.
      * do 2 eexists. by eapply join.
  - destruct m as [r|c k]; [done|]. destruct (call_answered w c) as (a & w' & Ha). do 2 eexists. by eapply detached_call.
Qed.
(** ** Smooth runs *)

(** The calls are answered as they are when nothing goes wrong. *)
Definition smooth_env w c (a : result dispatch_error (dispatch_answer c)) w' : Prop :=
  answers w c a w' /\ smooth_answer c a.

Notation publishes token := (obeys (smooth_call token) smooth
  (fun todo r => match r with Ok _ => todo = None | Err _ => False end)).

(** The jobs a worker has still to mark. *)
Definition worker_todo (token : string) (t : worker) (ids : list string) : Prop :=
  match t with
  | Idle => ids = []
  | Stopped r => r = Ok tt /\ ids = []
  | Working m =>
      exists batch : list ClaimedOutboxJob, ids = job_id <$> batch /\
        obeys (smooth_call token) smooth
          (fun todo r => match r with
             | Ok ps => todo = None /\ Forall2 (fun job m => publishes token (Some (job_id job)) m) batch ps
             | Err _ => False
             end) None m
  | Joining ps => exists os, Forall2 (fun m o => publishes token o m) ps os /\ ids = omap id os
  end.

Definition queue_ids (queue : list (list ClaimedOutboxJob)) : list string := job_id <$> concat queue.

Definition is_published w (id : string) : Prop := exists r, w_rows w !! id = Some r /\ status r = PUBLISHED.

Definition holds_lease w (token id : string) : Prop :=
  is_Some (leased_row WORKER_RUNTIME (w_rows w) id token).

Definition smooth_inv w p : Prop :=
  table_ok (w_rows w) /\ pass_detached p = [] /\
  Forall (Forall (context_accepted sha256)) (pass_queue p) /\
  sum_retried (pass_summary p) = 0 /\ sum_failed (pass_summary p) = 0 /\ sum_leaseLost (pass_summary p) = 0 /\
  exists idss, Forall2 (worker_todo (pass_token p)) (pass_workers p) idss /\
    NoDup (queue_ids (pass_queue p) ++ concat idss) /\
    (forall id, id ∈ queue_ids (pass_queue p) ++ concat idss -> holds_lease w (pass_token p) id) /\
    forall job, job ∈ pass_jobs p ->
      job_id job ∈ queue_ids (pass_queue p) ++ concat idss \/ is_published w (job_id job).

Lemma omap_mark (os : list (option string)) j x :
  os !! j = Some (Some x) -> omap id os ≡ₚ x :: omap id (<[j := None]> os).
Proof.
  revert j. induction os as [|o os IH]; intros [|j] Hj; try done.
  - injection Hj as ->. done.
  - change (<[S j := None]> (o :: os)) with (o :: <[j := None]> os). cbn in Hj |- *.
    destruct o as [y|]; cbn; rewrite (IH j Hj); [apply Permutation_swap | done].
Qed.

Lemma concat_take_out {A} (ls : list (list A)) i l :
  ls !! i = Some l -> concat ls ≡ₚ l ++ concat (delete i ls).
Proof.
  revert i. induction ls as [|l0 ls IH]; intros [|i] Hi; try done; cbn in *.
  - by injection Hi as ->.
  - rewrite (IH i Hi). change (delete (S i) (l0 :: ls)) with (l0 :: delete i ls). cbn.
    rewrite !app_assoc. apply Permutation_app; [apply Permutation_app_comm | done].
Qed.

Lemma delete_insert_same {A} (ls : list A) i x : delete i (<[i := x]> ls) = delete i ls.
Proof. revert i. induction ls as [|y ls IH]; intros [|i]; cbn; try done. f_equal. apply IH. Qed.

Lemma concat_change {A} (ls : list (list A)) i l l' :
  ls !! i = Some l -> concat (<[i := l']> ls) ≡ₚ l' ++ concat (delete i ls).
Proof.
  intros Hi. rewrite (concat_take_out _ i l'); [by rewrite delete_insert_same|].
  apply list_lookup_insert_eq. by eapply lookup_lt_Some.
Qed.

(** Answers other than a mark leave the table alone. *)
Lemma smooth_rows w c a w' :
  smooth_env w c a w' ->
  match c with MarkPublished _ _ | RecordFailure _ _ _ _ _ => False | _ => True end -> w_rows w' = w_rows w.
Proof.
  intros [Ha _] Hc. destruct c; cbn in *; try done.
  - by destruct Ha as [_ ->].
  - by destruct Ha as [_ ->].
  - by destruct Ha as (ds & _ & _ & ->).
  - by destruct Ha as (ds & _ & _ & ->).
  - by destruct Ha as [_ ->].
Qed.
Definition no_losses p : Prop :=
  sum_retried (pass_summary p) = 0 /\ sum_failed (pass_summary p) = 0 /\ sum_leaseLost (pass_summary p) = 0.

Lemma note_no_losses token todo c p : smooth_call token todo c -> no_losses p -> no_losses (note c p).
Proof.
  intros Hc (H1 & H2 & H3). unfold no_losses. destruct c; cbn in *; try done. subst f. cbn. lia.
Qed.

(** Worker [i] moves; what is to do and the table stay as they are. *)
Lemma smooth_inv_move w w' p p' i t0 t :
  smooth_inv w p -> pass_workers p !! i = Some t0 ->
  pass_token p' = pass_token p -> pass_jobs p' = pass_jobs p -> pass_detached p' = pass_detached p ->
  pass_workers p' = <[i := t]> (pass_workers p) -> Forall (Forall (context_accepted sha256)) (pass_queue p') ->
  no_losses p' -> w_rows w' = w_rows w ->
  (forall ids, worker_todo (pass_token p) t0 ids -> exists ids', worker_todo (pass_token p) t ids' /\
     queue_ids (pass_queue p') ++ ids' ≡ₚ queue_ids (pass_queue p) ++ ids) ->
  smooth_inv w' p'.
Proof.
  intros (Hok & Hd & _ & _ & _ & _ & idss & Hids & Hnd & Hleases & Hjobs) Hi Et Ej Ed Ew Hq (L1 & L2 & L3) Er Ht.
  destruct (Forall2_lookup_l _ _ _ _ _ Hids Hi) as (ids & Hl & Hto). destruct (Ht ids Hto) as (ids' & Hto' & Hp).
  assert (Hperm : queue_ids (pass_queue p') ++ concat (<[i := ids']> idss) ≡ₚ
                  queue_ids (pass_queue p) ++ concat idss).
  { rewrite (concat_change _ _ _ _ Hl), (concat_take_out _ _ _ Hl), !app_assoc. by rewrite Hp. }
  split; [by rewrite Er|]. split; [by rewrite Ed|]. split; [done|]. split_and!; [done..|].
  exists (<[i := ids']> idss). rewrite Et, Ew. split; [by apply Forall2_insert|]. rewrite Hperm.
  split; [done|]. rewrite Ej. unfold holds_lease, is_published. rewrite Er. split.
  - intros id Hin. rewrite Hperm in Hin. by apply Hleases.
  - intros job Hj. rewrite Hperm. by apply Hjobs.
Qed.

(** A fork marks its job. *)
Lemma smooth_inv_mark w w' p i ps j id t k a :
  smooth_inv w p -> pass_workers p !! i = Some (Joining ps) -> ps !! j = Some (Ask (MarkPublished id t) k) ->
  smooth_env w (MarkPublished id t) a w' ->
  smooth_inv w' (set_worker i (Joining (<[j := k a]> ps)) p).
Proof.
  intros (Hok & Hd & Hq & L1 & L2 & L3 & idss & Hids & Hnd & Hleases & Hjobs) Hi Hj [(now & Ha) Hsm].
  destruct (Forall2_lookup_l _ _ _ _ _ Hids Hi) as (ids & Hl & os & Hos & ->).
  destruct (Forall2_lookup_l _ _ _ _ _ Hos Hj) as (o & Ho & [[-> ->] Hk]).
  cbn in Hsm. subst a. rewrite markPublished_eq in Ha by done.
  destruct (leased_row _ _ _ _) as [r|] eqn:El; [|by destruct Ha as [[? _]|[? _]]].
  destruct Ha as [[_ ->]|[? _]]; [|done]. apply leased_row_some in El as (Hr & Hpend & Hlock).
  destruct (Hok _ _ Hr) as [Hid Hc].
  set (ids' := omap (fun o : option string => o) (<[j := None]> os)).
  assert (Hperm : queue_ids (pass_queue p) ++ concat idss ≡ₚ
                  id :: queue_ids (pass_queue p) ++ concat (<[i := ids']> idss)).
  { rewrite (concat_change _ _ _ _ Hl), (concat_take_out _ _ _ Hl).
    change (omap Datatypes.id os) with (omap (fun o : option string => o) os).
    pose proof (omap_mark os j id Ho) as Hm. change (omap Datatypes.id os) with (omap (fun o : option string => o) os) in Hm.
    rewrite Hm. cbn. symmetry. apply Permutation_middle. }
  rewrite Hperm in Hnd. apply NoDup_cons in Hnd as [Hout Hnd].
  split; [|split; [done|split; [done|split_and!; [done..|]]]].
  - intros id' r'. cbn. rewrite lookup_insert_Some. intros [[<- <-]|[_ ?]]; [|by apply Hok].
    split; [done | by apply published_checks].
  - exists (<[i := ids']> idss). split.
    + apply Forall2_insert; [done|]. exists (<[j := None]> os). split; [|done].
      apply Forall2_insert; [done|]. by apply Hk.
    + split; [done|]. split.
      * intros id' Hin. assert (id' <> id) as Hne by (intros ->; done). unfold holds_lease, leased_row. cbn.
        rewrite lookup_insert_ne by done. apply Hleases. rewrite Hperm. by right.
      * intros job Hjob. unfold is_published. cbn. destruct (decide (job_id job = id)) as [->|Hne].
        { right. eexists. by rewrite lookup_insert_eq. }
        rewrite lookup_insert_ne by done. destruct (Hjobs job Hjob) as [Hin|Hpub]; [left|by right].
        rewrite Hperm in Hin. by apply elem_of_cons in Hin as [?|?].
Qed.
Lemma smooth_no_losses w p : smooth_inv w p -> no_losses p.
Proof. intros (_ & _ & _ & H1 & H2 & H3 & _). done. Qed.

Lemma smooth_queue w p : smooth_inv w p -> Forall (Forall (context_accepted sha256)) (pass_queue p).
Proof. intros (_ & _ & H & _). done. Qed.

Lemma smooth_worker w p i t :
  smooth_inv w p -> pass_workers p !! i = Some t -> exists ids, worker_todo (pass_token p) t ids.
Proof.
  intros (_ & _ & _ & _ & _ & _ & idss & Hids & _) Hi.
  destruct (Forall2_lookup_l _ _ _ _ _ Hids Hi) as (ids & _ & H). eauto.
Qed.

Lemma todo_of_batch (batch : list ClaimedOutboxJob) :
  omap Datatypes.id ((fun job => Some (job_id job)) <$> batch) = job_id <$> batch.
Proof. induction batch as [|job batch IH]; [done|]. cbn. by f_equal. Qed.

Lemma smooth_step_inv w p w' p' :
  smooth_inv w p -> pass_step sha256 options transport smooth_env w p w' p' -> smooth_inv w' p'.
Proof.
  intros Hp Hstep. pose proof (smooth_no_losses _ _ Hp) as HL. pose proof (smooth_queue _ _ Hp) as HQ.
  destruct Hstep as [i batch queue Hi Hq|i Hi Hq|i c k a w' Hi Ha|i ps Hi|i e Hi|i ps j c k a w' Hi Hj Ha|i ps Hi Hps|
                     i ps j e Hi Hj|j c k a w' Hj Ha].
  - rewrite Hq in HQ. apply Forall_cons in HQ as [Hb HQ].
    eapply (smooth_inv_move w w p _ i _ _ Hp Hi); try done. intros ids ->. exists (job_id <$> batch). split.
    + exists batch. split; [done|]. by apply dispatchMany_publishes.
    + cbn. rewrite Hq, app_nil_r. unfold queue_ids. cbn. rewrite fmap_app. apply Permutation_app_comm.
  - eapply (smooth_inv_move w w p _ i _ _ Hp Hi); try done. intros ids ->. by exists [].
  - destruct (smooth_worker _ _ _ _ Hp Hi) as (ids0 & batch0 & _ & Hm0). destruct Hm0 as [Hc _].
    assert (Hrows : w_rows w' = w_rows w).
    { apply (smooth_rows w c a w' Ha). destruct c; try done. cbn in Hc. by destruct Hc. }
    eapply (smooth_inv_move w w' p _ i _ (Working (k a)) Hp Hi); try done.
    + by apply (note_no_losses _ _ _ _ Hc).
    + intros ids (batch & -> & [Hc' Hk]). exists (job_id <$> batch). split; [|done]. exists batch. split; [done|].
      apply Hk. split; [by destruct Ha|]. by destruct c.
  - eapply (smooth_inv_move w w p _ i _ _ Hp Hi); try done. intros ids (batch & -> & _ & Hps).
    exists (job_id <$> batch). split; [|done]. exists ((fun job => Some (job_id job)) <$> batch).
    split; [|by rewrite todo_of_batch]. apply Forall2_fmap_r. by apply Forall2_flip.
  - destruct (smooth_worker _ _ _ _ Hp Hi) as (ids0 & batch0 & _ & []).
  - assert ({match c with MarkPublished _ _ => True | _ => False end} +
            {~ match c with MarkPublished _ _ => True | _ => False end}) as [Hmark|Hmark] by (destruct c; auto).
    { destruct c; try done. by apply (smooth_inv_mark w). }
    destruct (smooth_worker _ _ _ _ Hp Hi) as (ids0 & os0 & Hos0 & _).
    destruct (Forall2_lookup_l _ _ _ _ _ Hos0 Hj) as (o0 & _ & [Hc _]).
    assert (Hrows : w_rows w' = w_rows w) by (apply (smooth_rows w c a w' Ha); by destruct c).
    eapply (smooth_inv_move w w' p _ i _ (Joining (<[j := k a]> ps)) Hp Hi); try done.
    + by apply (note_no_losses _ _ _ _ Hc).
    + intros ids (os & Hos & ->). exists (omap Datatypes.id os). split; [|done]. exists os. split; [|done].
      destruct (Forall2_lookup_l _ _ _ _ _ Hos Hj) as (o & Ho & [_ Hk]).
      rewrite <- (list_insert_id os j o) by done. apply Forall2_insert; [done|]. apply Hk.
      split; [by destruct Ha|]. by destruct c.
  - eapply (smooth_inv_move w w p _ i _ _ Hp Hi); try done. intros ids (os & Hos & ->). exists []. split; [done|].
    assert (omap Datatypes.id os = []) as ->; [|done]. clear -Hos Hps.
    induction Hos as [|m o ps os Hm _ IH]; [done|]. apply Forall_cons in Hps as [-> Hps]. cbn in Hm. subst o.
    cbn. by apply IH.
  - destruct (smooth_worker _ _ _ _ Hp Hi) as (ids0 & os0 & Hos0 & _).
    by destruct (Forall2_lookup_l _ _ _ _ _ Hos0 Hj) as (o0 & _ & []).
  - destruct Hp as (_ & Hd & _). by rewrite Hd in Hj.
Qed.

(** Every call of a smooth pass can be answered smoothly. *)
Lemma smooth_call_answered w token todo c :
  table_ok (w_rows w) -> smooth_call token todo c ->
  (forall id, todo = Some id -> holds_lease w token id) -> exists a w', smooth_env w c a w'.
Proof.
  intros Hok Hc Hl. destruct c as [| |m|ms|id t|id t code terminal delay|f n]; cbn in Hc; try done.
  - by exists (Ok false), w.
  - by exists (Ok false), w.
  - exists (Ok tt), (deliver [m] w). split; [|done]. exists [m]. done.
  - exists (Ok (replicate (length ms) (Some PublishedResult))), (deliver ms w). split; [|done].
    exists ms. split_and!; [done| |done]. unfold confirmed_of. intros m Hm.
    apply list_elem_of_fmap in Hm as ([m' o] & -> & Hm%filter_In_elem). destruct Hm as [Hm _].
    apply list_elem_of_lookup in Hm as (i & Hi). apply lookup_zip_with_Some in Hi as (x & y & [= -> ->] & Hx & _).
    by eapply list_elem_of_lookup_2.
  - destruct Hc as [-> ->]. destruct (Hl id eq_refl) as [r Hr].
    exists (Ok true), (with_rows w (<[id := published_row 0 r]> (w_rows w))). split; [|done].
    exists 0. rewrite markPublished_eq, Hr by done. by left.
  - by exists (Ok tt), w.
Qed.

Definition all_stopped p : Prop := Forall (fun t => t = Stopped (Ok tt)) (pass_workers p).

Lemma all_stopped_settled w p : smooth_inv w p -> settled_pass p -> all_stopped p.
Proof.
  intros Hp [Hs _]. apply Forall_lookup. intros i t Hi.
  destruct (proj1 (Forall_lookup _ _) Hs i t Hi) as [r ->].
  destruct (smooth_worker _ _ _ _ Hp Hi) as (ids & -> & _). done.
Qed.

Lemma smooth_progress w p :
  smooth_inv w p -> ~ settled_pass p -> exists w' p', pass_step sha256 options transport smooth_env w p w' p'.
Proof.
  intros Hp Hn. pose proof Hp as (Hok & Hd & _ & _ & _ & _ & idss & Hids & _ & Hleases & _).
  destruct (all_or_not (fun t => match t with Stopped _ => true | _ => false end) (pass_workers p))
    as [Ht|(i & t & Hi & Ht)].
  { destruct Hn. split; [|rewrite Hd; constructor]. eapply Forall_impl; [eassumption|]. intros [| | |r]; try done; eauto. }
  destruct (Forall2_lookup_l _ _ _ _ _ Hids Hi) as (ids & Hl & Hto).
  destruct t as [|[[ps|e]|c k]|ps|r]; [| | | | |done].
  - destruct (pass_queue p) as [|batch queue] eqn:Hq; do 2 eexists; [by eapply no_more_batches | by eapply take_batch].
  - do 2 eexists. by eapply batch_forks.
  - do 2 eexists. by eapply batch_throws.
  - destruct Hto as (batch & _ & [Hc _]).
    destruct (smooth_call_answered w (pass_token p) None c Hok Hc) as (a & w' & Ha); [done|].
    do 2 eexists. by eapply batch_call.
  - destruct (forks_cases ps) as [(j & c & k & Hj)|[(j & e & Hj)|Hall]].
    + destruct Hto as (os & Hos & ->). destruct (Forall2_lookup_l _ _ _ _ _ Hos Hj) as (o & Ho & [Hc _]).
      destruct (smooth_call_answered w (pass_token p) o c Hok Hc) as (a & w' & Ha).
      { intros id ->. apply Hleases, elem_of_app. right. apply list_elem_of_In, in_concat.
        exists (omap Datatypes.id os). rewrite <- !list_elem_of_In. split; [by eapply list_elem_of_lookup_2|].
        rewrite (omap_mark os j id Ho). by left. }
      do 2 eexists. by eapply fork_call.
    + do 2 eexists. by eapply join_throws.
    + do 2 eexists. by eapply join.
Qed.

(** One smooth move, as a relation on pairs. *)
Definition smooth_moves (x y : world jsonb * pass) : Prop :=
  pass_step sha256 options transport smooth_env x.1 x.2 y.1 y.2.

Lemma pass_step_env (env env' : world jsonb -> forall c, result dispatch_error (dispatch_answer c) -> world jsonb -> Prop)
    w p w' p' :
  (forall w c a w', env w c a w' -> env' w c a w') ->
  pass_step sha256 options transport env w p w' p' -> pass_step sha256 options transport env' w p w' p'.
Proof. intros He Hstep. destruct Hstep; econstructor; eauto. Qed.

Lemma smooth_is_move w p w' p' : pass_step sha256 options transport smooth_env w p w' p' -> pass_moves p p'.
Proof. intros H. exists w, w'. eapply pass_step_env; [|exact H]. by intros ? ? ? ? []. Qed.

(** A smooth pass runs to its end. *)
Lemma smooth_run n w p :
  pass_within p n -> smooth_inv w p ->
  exists w' p', rtc smooth_moves (w, p) (w', p') /\ smooth_inv w' p' /\ all_stopped p'.
Proof.
  revert w p. induction n as [n IH] using lt_wf_ind. intros w p Hn Hp.
  destruct (all_or_not (fun t => match t with Stopped _ => true | _ => false end) (pass_workers p)) as [Ht|(i & t & Hi & Ht)].
  - exists w, p. split; [done|]. split; [done|]. apply (all_stopped_settled w); [done|].
    split; [|destruct Hp as (_ & -> & _); constructor].
    eapply Forall_impl; [exact Ht|]. intros [| | |r]; try done; eauto.
  - destruct (smooth_progress w p Hp) as (w1 & p1 & Hstep).
    { intros [Hs _]. destruct (proj1 (Forall_lookup _ _) Hs i t Hi) as [r ->]. done. }
    destruct (pass_within_step p p1 n) as (n1 & Hlt & Hn1); [by eapply smooth_is_move|done|].
    destruct (IH n1 Hlt w1 p1 Hn1) as (w' & p' & Hrun & H'); [by eapply smooth_step_inv|].
    exists w', p'. split; [|done]. by apply (rtc_l _ _ (w1, p1)).
Qed.

(** At the end every claimed job is published. *)
Lemma smooth_end w p :
  smooth_inv w p -> all_stopped p -> pass_queue p = [] ->
  forall job, job ∈ pass_jobs p -> is_published w (job_id job).
Proof.
  intros (_ & _ & _ & _ & _ & _ & idss & Hids & _ & _ & Hjobs) Hs Hq job Hj.
  destruct (Hjobs job Hj) as [Hin|?]; [|done]. exfalso. rewrite Hq in Hin. cbn in Hin.
  assert (concat idss = []) as E; [|rewrite E in Hin; by apply not_elem_of_nil in Hin].
  apply concat_nil. apply Forall_forall. intros ids (i & Hi)%list_elem_of_lookup_1.
  destruct (Forall2_lookup_r _ _ _ _ _ Hids Hi) as (t & Ht & Hto).
  rewrite (proj1 (Forall_lookup _ _) Hs i t Ht) in Hto. by destruct Hto.
Qed.
End passes.

(** ** A pass in the system *)

Section live.
Context {jsonb : Type} (jsonb_out : jsonb -> jsval) (sha256 : string -> string).
Context (collate : string -> string -> Z) (options : OutboxDispatcherOptions) (transport : OutboxTransport).
Context (Hhex : forall m, HEX64_PATTERN (sha256 m) = true) (Hoptions : options_in_range options = true).
Implicit Types (w : world jsonb) (p : pass) (s : system jsonb).

Lemma claimed_job_accepted (r : job_row jsonb) job :
  claimed_job jsonb_out sha256 r = Some job -> context_accepted sha256 job.
Proof using Hhex.
  intros H. apply job_context_total; [done|]. unfold claimed_job in H.
  apply bind_Some in H as (link & _ & H). apply bind_Some in H as (envelope & He & H).
  apply bind_Some in H as (attributes & _ & H). injection H as <-. cbn. by eapply parseJobEnvelope_wf.
Qed.

Lemma options_concurrency : 1 <= concurrency options.
Proof using Hoptions. unfold options_in_range in Hoptions. rewrite !andb_true_iff, !Z.leb_le in Hoptions. lia. Qed.

(** What the claim leaves is a pass that can go smoothly. *)
Lemma start_smooth w token locked clock claimed rows :
  table_ok (w_rows w) ->
  claimBatch jsonb_out sha256 collate WORKER_RUNTIME (w_rows w) locked clock (claim_options options token) =
    (Ok claimed, rows) ->
  smooth_inv sha256 (with_rows w rows) (start_pass options transport token claimed).
Proof using Hhex.
  intros Hok Hclaim. destruct (claimBatch_ok _ _ _ _ _ _ _ _ _ _ Hok Hclaim) as (picked & Hnd & Hpick & Hjobs & -> & Hok').
  set (o := claim_options options token) in *.
  assert (Hjob : forall job, job ∈ claimed -> exists r, r ∈ picked /\ claimed_job jsonb_out sha256 r = Some job)
    by (intros job Hj; by apply (Forall2_elem_r _ _ _ _ Hjobs)).
  assert (Hids : job_id <$> claimed = row_id <$> picked).
  { clear -Hjobs. induction Hjobs as [|r job rs js H _ IH]; [done|]. cbn. rewrite IH. f_equal.
    by apply claimed_job_fields in H as [-> _]. }
  assert (Hqueue : queue_ids (batches transport claimed) = job_id <$> claimed)
    by (unfold queue_ids; by rewrite batches_concat).
  split; [done|]. split; [done|]. split.
  { apply Forall_forall. intros batch Hb. apply Forall_forall. intros job Hj.
    destruct (Hjob job) as (r & _ & Hr); [|by eapply claimed_job_accepted].
    rewrite <- (batches_concat transport claimed). apply list_elem_of_In, in_concat. exists batch.
    by rewrite <- !list_elem_of_In. }
  split_and!; [done..|]. exists (replicate (worker_count options transport claimed) []).
  assert (Htodo : queue_ids (pass_queue (start_pass options transport token claimed)) ++
                  concat (replicate (worker_count options transport claimed) []) = job_id <$> claimed).
  { change (pass_queue _) with (batches transport claimed). rewrite Hqueue.
    rewrite (proj2 (concat_nil _)); [apply app_nil_r | by apply Forall_replicate]. }
  rewrite Htodo. split; [by apply Forall2_replicate|]. split; [by rewrite Hids|]. split.
  - intros id Hin. rewrite Hids in Hin. apply list_elem_of_fmap in Hin as (r & -> & Hr).
    exists (lease_of clock o r). apply leased_row_some. split_and!;
      [|exact (proj1 (claimable_pending _ _ _ (proj2 (Hpick r Hr))))|done].
    pose proof (write_all_in (w_rows w) (lease_of clock o <$> picked) (lease_of clock o r)) as Hw.
    rewrite lease_of_ids in Hw. by apply Hw, list_elem_of_fmap_2.
  - intros job Hj. left. by apply list_elem_of_fmap_2.
Qed.

Lemma pass_jobs_step w p w' p' env :
  pass_step sha256 options transport env w p w' p' -> pass_jobs p' = pass_jobs p.
Proof. by destruct 1. Qed.

Notation smooth_moves := (smooth_moves sha256 options transport).

Lemma smooth_run_jobs (x y : world jsonb * pass) : rtc smooth_moves x y -> pass_jobs y.2 = pass_jobs x.2.
Proof. induction 1 as [x|x y z H _ IH]; [done|]. rewrite IH. by eapply pass_jobs_step. Qed.

Lemma smooth_run_adds_up (x y : world jsonb * pass) :
  rtc smooth_moves x y -> adds_up x.2 -> adds_up y.2.
Proof.
  induction 1 as [x|x y z H _ IH]; [done|]. intros Hx. apply IH. eapply adds_up_step; [|exact Hx].
  by eapply smooth_is_move.
Qed.

Lemma smooth_run_moves (x y : world jsonb * pass) :
  rtc smooth_moves x y -> rtc (pass_moves (jsonb := jsonb) sha256 options transport) x.2 y.2.
Proof.
  induction 1 as [x|x y z H _ IH]; [done|]. eapply rtc_l; [|exact IH]. by eapply smooth_is_move.
Qed.

Lemma adds_up_end p : adds_up p -> all_stopped p -> pass_queue p = [] /\
  Z.of_nat (length (pass_jobs p)) = settled_count (pass_summary p).
Proof.
  intros [_ [Hx|(_ & Hq & ns & Hns & Hsum)]] Hs.
  - exfalso. apply Exists_exists in Hx as (t & (i & Hi)%list_elem_of_lookup_1 & e & ->).
    by pose proof (proj1 (Forall_lookup _ _) Hs i _ Hi).
  - assert (pass_queue p = []) as Eq.
    { destruct Hq as [?|[Hx Hne]]; [done|]. exfalso. destruct (pass_workers p) as [|t ts] eqn:E; [done|].
      apply Hx. left. unfold all_stopped in Hs. rewrite E in Hs. by apply Forall_cons in Hs as [? _]. }
    split; [done|]. rewrite Eq in Hsum. rewrite <- Hsum. unfold queued. cbn.
    rewrite total_zero; [lia|]. apply Forall_forall. intros n (i & Hi)%list_elem_of_lookup_1.
    destruct (Forall2_lookup_r _ _ _ _ _ Hns Hi) as (t & Ht & Ho).
    rewrite (proj1 (Forall_lookup _ _) Hs i t Ht) in Ho. by destruct Ho.
Qed.

Definition with_pass s (x : world jsonb * pass) : system jsonb :=
  {| sys_world := x.1; sys_passes := sys_passes s ++ [x.2]; sys_tokens := sys_tokens s |}.

Lemma smooth_run_system s (x y : world jsonb * pass) :
  rtc smooth_moves x y ->
  rtc (system_step jsonb_out sha256 collate options transport) (with_pass s x) (with_pass s y).
Proof.
  induction 1 as [x|x y z H _ IH]; [done|]. eapply rtc_l; [|exact IH].
  pose proof (run_pass jsonb_out sha256 collate options transport (with_pass s x) (length (sys_passes s)) x.2 y.1 y.2) as Hr.
  unfold with_pass in *. cbn [sys_world sys_passes sys_tokens] in Hr.
  rewrite list_lookup_middle in Hr by done. specialize (Hr eq_refl).
  assert (Hi : <[length (sys_passes s) := y.2]> (sys_passes s ++ [x.2]) = sys_passes s ++ [y.2]).
  { rewrite <- (Nat.add_0_r (length (sys_passes s))), insert_app_r. done. }
  rewrite Hi in Hr. apply Hr. eapply pass_step_env; [|exact H]. by intros ? ? ? ? [].
Qed.

(** A pass that begins can be run until everything it claimed is published. *)
Lemma pass_can_finish s token locked clock claimed rows :
  system_inv jsonb_out sha256 options s -> token ∉ sys_tokens s ->
  claimBatch jsonb_out sha256 collate WORKER_RUNTIME (w_rows (sys_world s)) locked clock (claim_options options token) =
    (Ok claimed, rows) ->
  exists s' p, rtc (system_step jsonb_out sha256 collate options transport) s s' /\
    system_inv jsonb_out sha256 options s' /\ p ∈ sys_passes s' /\ pass_token p = token /\ all_stopped p /\
    sum_published (pass_summary p) = Z.of_nat (length claimed) /\
    forall job, job ∈ claimed -> is_published (sys_world s') (job_id job).
Proof using Hhex Hoptions.
  intros Hs Hfresh Hclaim. pose proof Hs as [(Hok & _) _].
  pose proof (start_smooth _ _ _ _ _ _ Hok Hclaim) as Hstart.
  destruct (smooth_run sha256 options transport _ _ _ (start_within options transport token claimed) Hstart)
    as (w' & p' & Hrun & Hinv & Hstop).
  pose proof (smooth_run_jobs _ _ Hrun) as Hj. cbn [snd] in Hj.
  pose proof (smooth_run_adds_up _ _ Hrun (start_adds_up options transport token claimed options_concurrency)) as Hadd.
  cbn [snd] in Hadd. destruct (adds_up_end p' Hadd Hstop) as [Hq Hcount].
  set (s1 := {| sys_world := sys_world s; sys_passes := sys_passes s; sys_tokens := token :: sys_tokens s |}).
  assert (Hsteps : rtc (system_step jsonb_out sha256 collate options transport) s (with_pass s1 (w', p'))).
  { apply (rtc_l _ _ (with_pass s1 (with_rows (sys_world s) rows, start_pass options transport token claimed)));
      [|by apply smooth_run_system].
    exact (begin_pass jsonb_out sha256 collate options transport s token locked clock claimed rows Hfresh Hclaim). }
  exists (with_pass s1 (w', p')), p'. split; [done|]. split; [by eapply system_run_inv|].
  split; [cbn; apply elem_of_app; right; by left|].
  destruct Hinv as (H1 & H2 & H3 & L1 & L2 & L3 & H4). split_and!.
  - clear -Hrun. assert (forall x y : world jsonb * pass, rtc smooth_moves x y -> pass_token y.2 = pass_token x.2) as Ht.
    { induction 1 as [x|x y z H _ IH]; [done|]. rewrite IH. unfold OutboxPass.smooth_moves in H. by destruct H. }
    exact (Ht _ _ Hrun).
  - done.
  - rewrite Hj in Hcount. cbn in Hcount. unfold settled_count in Hcount. lia.
  - intros job Hin. apply (smooth_end sha256 w' p'); [by split_and!|done|done|]. by rewrite Hj.
Qed.
End live.

(** ** Theorems *)

(** C3: The outbox keeps its promise.  In every state reachable from an empty
    system - passes of any number of workers interleaved with enqueueing,
    cleanup, crashes and lost replies - the table, read without leases and
    clocks, has evolved as [delivery_step] allows: nothing is delivered that was
    not enqueued, a job is sent only after the transport accepted it, it is given
    up after exactly the allowed number of failures, and only settled jobs are
    forgotten. *)
Theorem outbox_refines_delivery {jsonb} (jsonb_out : jsonb -> jsval) sha256 collate options transport s :
  options_in_range options = true ->
  rtc (system_step jsonb_out sha256 collate options transport) empty_system s ->
  rtc (delivery_step (dispatch_maxAttempts options)) no_jobs (abstract jsonb_out sha256 (sys_world s)).
Proof. intros Ho Hs. by apply (reachable_inv _ _ _ _ _ Ho s Hs). Qed.

(** C4: In every reachable state the table satisfies its constraints, and each
    row reads back as a job that was enqueued: waiting, it has failed less often
    than allowed; published, the transport has accepted it; failed, it has failed
    exactly as often as allowed.  A pass that holds the row's lease is working on
    that very job, attempts included. *)
Theorem outbox_rows_sound {jsonb} (jsonb_out : jsonb -> jsval) sha256 collate options transport s :
  options_in_range options = true ->
  rtc (system_step jsonb_out sha256 collate options transport) empty_system s ->
  table_ok (w_rows (sys_world s)) /\
  forall id r, w_rows (sys_world s) !! id = Some r ->
    exists job, claimed_job jsonb_out sha256 r = Some job /\ job_id job = id /\
      message_of job ∈ w_enqueued (sys_world s) /\ 0 <= attempts r /\
      match status r with
      | PENDING => attempts r < dispatch_maxAttempts options
      | PUBLISHED => attempts r < dispatch_maxAttempts options /\ message_of job ∈ w_delivered (sys_world s)
      | FAILED => attempts r = dispatch_maxAttempts options
      end /\
      forall p job', p ∈ sys_passes s -> job' ∈ pass_jobs p -> job_id job' = id ->
        locked_by r = Some (pass_token p) -> job' = job.
Proof.
  intros Ho Hs. destruct (reachable_inv _ _ _ _ _ Ho s Hs) as [[(Hok & _ & Hrows) Hps] _].
  split; [done|]. intros id r Hr. destruct (Hrows id r Hr) as (job & Hj & He & Hn & Hst & _).
  destruct (claimed_job_fields _ _ _ _ Hj) as [Hid _]. destruct (Hok id r Hr) as [Hid' _].
  exists job. split_and!; [done|congruence|done|done|done|]. intros p job' Hp Hjob' Eid Hl.
  rewrite Forall_forall in Hps. destruct (Hps p Hp) as (_ & _ & Hlease & _).
  rewrite <- Eid in Hr. pose proof (Hlease job' r Hjob' Hr Hl) as Hj'. congruence.
Qed.

(** C30: A pass ends.  Whatever is answered and whatever else happens, it makes
    at most fifteen moves for each claimed job, and until all of its workers have
    settled it can always make one. *)
Theorem dispatch_pass_terminates {jsonb} sha256 options transport token jobs k (p : pass) :
  nsteps (pass_moves (jsonb := jsonb) sha256 options transport) k (start_pass options transport token jobs) p ->
  (k <= 15 * length jobs)%nat /\
  (~ settled_pass p -> forall w : world jsonb, exists w' p', pass_step sha256 options transport answers w p w' p').
Proof.
  intros Hk. split; [|intros Hp w; by apply pass_progress].
  by apply (nsteps_within sha256 options transport _ _ _ _ Hk), start_within.
Qed.

(** The summary of a pass that did not throw accounts for every claimed job
    exactly once: published, retried, failed or lost. *)
Theorem dispatch_summary_adds_up {jsonb} sha256 options transport token jobs (p : pass) :
  1 <= concurrency options ->
  rtc (pass_moves (jsonb := jsonb) sha256 options transport) (start_pass options transport token jobs) p ->
  all_stopped p ->
  sum_claimed (pass_summary p) = Z.of_nat (length jobs) /\
  sum_published (pass_summary p) + sum_retried (pass_summary p) + sum_failed (pass_summary p)
    + sum_leaseLost (pass_summary p) = Z.of_nat (length jobs).
Proof.
  intros Hc Hrun Hs.
  assert (Hinv : adds_up p /\ pass_jobs p = jobs).
  { pose proof (start_adds_up options transport token jobs Hc) as H0.
    assert (E : pass_jobs (start_pass options transport token jobs) = jobs) by done. revert H0 E. clear Hs.
    generalize dependent (start_pass options transport token jobs). intros p0 Hrun.
    induction Hrun as [p0|p0 p1 p2 Hstep _ IH]; [done|]. intros H0 E. apply IH; [by eapply adds_up_step|].
    destruct Hstep as (w & w' & Hstep). by rewrite (pass_jobs_step _ _ _ _ _ _ _ _ Hstep). }
  destruct Hinv as [Hadd <-]. destruct (adds_up_end p Hadd Hs) as [_ Hsum].
  split; [apply Hadd|]. by rewrite Hsum.
Qed.

(** C29: What a pass claims can always be delivered.  From every reachable state
    in which a pass begins, the pass can be run until every job it claimed is
    published, accepted by the transport, and counted as published. *)
Theorem outbox_claims_deliverable {jsonb} (jsonb_out : jsonb -> jsval) sha256 collate options transport s token
    locked clock claimed rows :
  options_in_range options = true -> (forall m, HEX64_PATTERN (sha256 m) = true) ->
  rtc (system_step jsonb_out sha256 collate options transport) empty_system s ->
  token ∉ sys_tokens s ->
  claimBatch jsonb_out sha256 collate WORKER_RUNTIME (w_rows (sys_world s)) locked clock (claim_options options token) =
    (Ok claimed, rows) ->
  exists s' p, rtc (system_step jsonb_out sha256 collate options transport) s s' /\
    p ∈ sys_passes s' /\ all_stopped p /\ sum_published (pass_summary p) = Z.of_nat (length claimed) /\
    forall job, job ∈ claimed ->
      exists r, w_rows (sys_world s') !! job_id job = Some r /\ status r = PUBLISHED /\
        exists m, row_message jsonb_out sha256 r = Some m /\ m ∈ w_delivered (sys_world s').
Proof.
  intros Ho Hhex Hs Hfresh Hclaim. destruct (reachable_inv _ _ _ _ _ Ho s Hs) as [Hinv _].
  destruct (pass_can_finish _ _ _ _ transport Hhex Ho _ _ _ _ _ _ Hinv Hfresh Hclaim)
    as (s' & p & Hrun & [(_ & _ & Hrows) _] & Hp & _ & Hstop & Hsum & Hpub).
  exists s', p. split_and!; [done..|]. intros job Hj. destruct (Hpub job Hj) as (r & Hr & Hst).
  exists r. split_and!; [done..|]. destruct (Hrows _ _ Hr) as (job' & Hj' & _ & _ & Hm & _).
  rewrite Hst in Hm. exists (message_of job'). unfold row_message. rewrite Hj'. split; [done | apply Hm].
Qed.

(** ** Witnesses: one job from its enqueueing *)

Definition dispatch_options_example : OutboxDispatcherOptions :=
  {| dispatch_batchSize := 25; cleanupBatchSize := 100; cleanupIntervalMs := 60000; concurrency := 5; dispatch_failedRetentionMs := 60000;
     dispatch_leaseMs := 30000; dispatch_maxAttempts := 5; publishTimeoutMs := 10000;
     dispatch_publishedRetentionMs := 60000; retryBaseDelayMs := 1000; retryMaxDelayMs := 60000 |}.

Definition transport_example : OutboxTransport := {| has_publishBatch := true; maxBatchSize := Some 10 |}.

Definition waiting_job : ClaimedOutboxJob :=
  {| job_id := env_id job_envelope_example; job_destination := "jobs"; job_envelope := job_envelope_example;
     job_messageAttributes := [("kind", "account.updated")]; job_ledgerLink := None; job_attempts := 0 |}.

Definition waiting_system : system jsval :=
  {| sys_world := {| w_rows := {[ row_id waiting_row := waiting_row ]}; w_delivered := [];
                     w_enqueued := [message_of waiting_job] |};
     sys_passes := []; sys_tokens := [] |}.

Notation steps_example :=
  (rtc (system_step (jsonb := jsval) Datatypes.id job_sha256_example collate_example dispatch_options_example
          transport_example)).

Lemma waiting_reachable : steps_example empty_system waiting_system.
Proof.
  apply rtc_once.
  refine (enqueue_job Datatypes.id job_sha256_example collate_example dispatch_options_example transport_example
            empty_system 1000 (env_id job_envelope_example) (envelope_js job_envelope_example)
            attributes_example None _ waiting_job _ _); vm_compute; reflexivity.
Qed.

Lemma waiting_claim :
  claimBatch Datatypes.id job_sha256_example collate_example WORKER_RUNTIME (w_rows (sys_world waiting_system)) ∅
    clock_example (claim_options dispatch_options_example "worker-1:pass-1") =
  (Ok [waiting_job],
   {[ row_id waiting_row := lease_of clock_example (claim_options dispatch_options_example "worker-1:pass-1") waiting_row ]}).
Proof. vm_compute. reflexivity. Qed.

Lemma example_hex (m : string) : HEX64_PATTERN (job_sha256_example m) = true.
Proof. vm_compute. reflexivity. Qed.

(** A run that publishes the job. *)
Lemma published_reachable :
  exists s r, steps_example empty_system s /\ w_rows (sys_world s) !! job_id waiting_job = Some r /\ status r = PUBLISHED.
Proof.
  destruct (reachable_inv Datatypes.id job_sha256_example collate_example dispatch_options_example transport_example
              eq_refl _ waiting_reachable) as [Hinv _].
  destruct (pass_can_finish Datatypes.id job_sha256_example collate_example dispatch_options_example transport_example
              example_hex eq_refl waiting_system "worker-1:pass-1" ∅ clock_example _ _ Hinv
              (not_elem_of_nil _) waiting_claim) as (s & p & Hrun & _ & _ & _ & _ & _ & Hpub).
  destruct (Hpub waiting_job) as (r & Hr & Hst); [by left|].
  exists s, r. split_and!; [|done..]. etrans; [apply waiting_reachable | exact Hrun].
Qed.

Definition pass_example : pass :=
  start_pass dispatch_options_example transport_example "worker-1:pass-1" [waiting_job].

(** The pass over the job, run to its end. *)
Lemma pass_example_run :
  exists p, rtc (pass_moves (jsonb := jsval) job_sha256_example dispatch_options_example transport_example) pass_example p /\
    all_stopped p.
Proof.
  destruct (reachable_inv Datatypes.id job_sha256_example collate_example dispatch_options_example transport_example
              eq_refl _ waiting_reachable) as [[[Hok _] _] _].
  pose proof (start_smooth Datatypes.id job_sha256_example collate_example dispatch_options_example transport_example
                example_hex _ _ _ _ _ _ Hok waiting_claim) as Hstart.
  destruct (smooth_run job_sha256_example dispatch_options_example transport_example _ _ _
              (start_within dispatch_options_example transport_example _ _) Hstart) as (w & p & Hrun & _ & Hs).
  exists p. split; [|exact Hs]. exact (smooth_run_moves job_sha256_example dispatch_options_example transport_example _ _ Hrun).
Qed.

Lemma outbox_refines_delivery_witness :
  exists s, steps_example empty_system s /\
    rtc (delivery_step 5) no_jobs (abstract Datatypes.id job_sha256_example (sys_world s)).
Proof.
  destruct published_reachable as (s & r & Hs & _). exists s. split; [exact Hs|].
  exact (outbox_refines_delivery Datatypes.id job_sha256_example collate_example dispatch_options_example
           transport_example s eq_refl Hs).
Defined.

Lemma outbox_rows_sound_witness :
  exists (s : system jsval) r job, steps_example empty_system s /\ status r = PUBLISHED /\
    claimed_job Datatypes.id job_sha256_example r = Some job /\ message_of job ∈ w_delivered (sys_world s).
Proof.
  destruct published_reachable as (s & r & Hs & Hr & Hst).
  destruct (proj2 (outbox_rows_sound Datatypes.id job_sha256_example collate_example dispatch_options_example
              transport_example s eq_refl Hs) _ r Hr) as (job & Hj & _ & _ & _ & Hm & _).
  rewrite Hst in Hm. exists s, r, job. split; [exact Hs|]. split; [exact Hst|]. split; [exact Hj | apply Hm].
Defined.

Lemma dispatch_pass_terminates_witness :
  exists p, nsteps (pass_moves (jsonb := jsval) job_sha256_example dispatch_options_example transport_example) 1
              pass_example p /\ (1 <= 15 * 1)%nat.
Proof.
  assert (H : nsteps (pass_moves (jsonb := jsval) job_sha256_example dispatch_options_example transport_example) 1
            pass_example
            (set_worker 0 (Working (dispatchMany job_sha256_example dispatch_options_example transport_example
                                      [waiting_job] "worker-1:pass-1")) (with_queue [] pass_example))).
  { eapply nsteps_l; [|apply nsteps_O]. exists (sys_world waiting_system), (sys_world waiting_system).
    apply (take_batch job_sha256_example dispatch_options_example transport_example answers _ pass_example 0); reflexivity. }
  eexists. split; [exact H|].
  exact (proj1 (dispatch_pass_terminates job_sha256_example dispatch_options_example transport_example
                  "worker-1:pass-1" [waiting_job] 1 _ H)).
Defined.

Lemma dispatch_summary_adds_up_witness :
  exists p, all_stopped p /\ sum_claimed (pass_summary p) = 1.
Proof.
  destruct pass_example_run as (p & Hrun & Hs). exists p. split; [exact Hs|].
  exact (proj1 (dispatch_summary_adds_up job_sha256_example dispatch_options_example transport_example
                  "worker-1:pass-1" [waiting_job] p ltac:(vm_compute; discriminate) Hrun Hs)).
Defined.

Lemma outbox_claims_deliverable_witness :
  exists (s' : system jsval) r, steps_example waiting_system s' /\
    w_rows (sys_world s') !! job_id waiting_job = Some r /\ status r = PUBLISHED.
Proof.
  destruct (outbox_claims_deliverable Datatypes.id job_sha256_example collate_example dispatch_options_example
              transport_example waiting_system "worker-1:pass-1" ∅ clock_example _ _ eq_refl example_hex
              waiting_reachable (not_elem_of_nil _) waiting_claim) as (s' & p & Hrun & _ & _ & _ & Hpub).
  destruct (Hpub waiting_job) as (r & Hr & Hst & _); [left|].
  exists s', r. split; [exact Hrun|]. split; [exact Hr | exact Hst].
Defined.
