(* ===== verification/JobQueue.v ===== *)
(** * The job queue
    (database/migrations/9001-create-railway-job-queue.migration.ts,
    infrastructure/outbox/postgres-outbox-transport.service.ts and
    postgres-job-queue-consumer.service.ts)

    The transport that hands an outbox message to a table, and the consumer of
    that table: it claims jobs under a lease, checks each against the reviewed
    contracts and, no handler being approved, puts it back with a delay until its
    attempts are used up.  Consumers, publishers and cleanup run interleaved, and
    a consumer may die at any point.

    Instants, [clock], [locked] and [collate] are those of OutboxTable; [numeric],
    [numeric_eqb] and [double_of] those of Jsonb and JsonParse. *)

From stdpp Require Import base list strings gmap relations.
From Stdlib Require Import ZArith Lia Ascii.
From S2P Require Import Prelude Text JsValue JsDate JsCollections Digest Json JsonParse LogContext JobEnvelope JobMessage Jsonb BalanceSync ReviewedJob OutboxTable OutboxDispatcher.

Open Scope Z_scope.

(** ** Data *)

(** [FAILED_STATUS] is ['failed']; no statement sets ['complete']. *)
Inductive queue_status : Type := QUEUED | PROCESSING | COMPLETE | FAILED_STATUS.

#[export] Instance queue_status_eq_dec : EqDecision queue_status.
Proof. solve_decision. Defined.

Inductive queue_error_code : Type := RAILWAY_JOB_HANDLER_DORMANT | RAILWAY_JOB_INVALID.

#[export] Instance queue_error_code_eq_dec : EqDecision queue_error_code.
Proof. solve_decision. Defined.

Record queue_row : Type := {
  q_id : string;
  q_queue_name : string;
  q_payload : json;
  q_message_attributes : json;
  q_ledger_command_id : option string;
  q_ledger_journal_id : option string;
  q_status : queue_status;
  q_attempts : Z;
  q_available_at : Z;
  q_locked_by : option string;
  q_locked_until : option Z;
  q_enqueued_at : Z;
  q_completed_at : option Z;
  q_failed_at : option Z;
  q_last_error : option queue_error_code;
}.

Notation job_queue := (gmap string queue_row).

Inductive transport_error : Type :=
| TransportAborted
| InvalidMessage (e : message_error)
| StatementFailed
| IdempotencyConflict.

Record RailwayQueueSettlementSummary : Type := { qs_claimed : Z; qs_failed : Z; qs_retried : Z }.

Definition QUEUE_MAX_ATTEMPTS : Z := 5.
Definition CLAIM_LIMIT : Z := 25.
Definition LEASE_SECONDS : Z := 30.
Definition FAILED_RETENTION_DAYS : Z := 30.
Definition CLEANUP_LIMIT : Z := 100.
Definition SECOND : Z := 1000000.
Definition DAY : Z := 86400 * SECOND.

(** The CHECK constraints that depend on the row; [last_error] is typed. *)
Definition queue_checks (r : queue_row) : bool :=
  String.eqb (q_queue_name r) "jobs" && (0 <=? q_attempts r)
  && Bool.eqb (bool_decide (q_ledger_command_id r = None)) (bool_decide (q_ledger_journal_id r = None))
  && Bool.eqb (bool_decide (q_locked_by r = None)) (bool_decide (q_locked_until r = None)).

(** ** The transport *)

Section queue.
Context (sha256 : string -> string) (double_of : string -> jsnum).
Context (numeric : string -> option string) (numeric_eqb : string -> string -> bool).
Context (collate : string -> string -> Z).

(** [JSON.stringify(serialized.messageAttributes)] *)
Definition attributes_json (attrs : attributes) : json := JObject ((fun kv => (kv.1, JString kv.2)) <$> attrs).

(** The row the INSERT makes, with the defaults of the other columns. *)
Definition queued_row (now : Z) (id destination : string) (body attrs : json) (link : option LedgerOutboxLink)
    : queue_row :=
  {| q_id := id; q_queue_name := destination; q_payload := body; q_message_attributes := attrs;
     q_ledger_command_id := link_commandId <$> link; q_ledger_journal_id := link_journalId <$> link;
     q_status := QUEUED; q_attempts := 0; q_available_at := now; q_locked_by := None; q_locked_until := None;
     q_enqueued_at := now; q_completed_at := None; q_failed_at := None; q_last_error := None |}.

(** The existing row against the parameters. *)
Definition row_matches (wanted r : queue_row) : bool :=
  jsonb_eqb numeric_eqb (q_payload r) (q_payload wanted)
  && jsonb_eqb numeric_eqb (q_message_attributes r) (q_message_attributes wanted)
  && String.eqb (q_queue_name r) (q_queue_name wanted)
  && bool_decide (q_ledger_command_id r = q_ledger_command_id wanted)
  && bool_decide (q_ledger_journal_id r = q_ledger_journal_id wanted).

(** The statement.  [visible] is what its snapshot sees; [rows] is what the
    unique index sees, where another transaction may have inserted meanwhile. *)
Definition insert_or_match (visible rows : job_queue) (wanted : queue_row) : option (option bool * job_queue) :=
  if negb (queue_checks wanted) then None
  else
    match rows !! q_id wanted with
    | None => Some (Some true, <[q_id wanted := wanted]> rows)
    | Some _ => Some (row_matches wanted <$> visible !! q_id wanted, rows)
    end.

(** What the parameters of the statement hold. *)
Definition message_row (now : Z) (message : OutboxTransportMessage) : result transport_error queue_row :=
  let* serialized := rlift InvalidMessage
    (serializeJobMessage sha256 double_of (envelope_js (msg_envelope message))
       (attributes_js (msg_messageAttributes message))) in
  let* body := or_throw (jsonb_in numeric (msg_body serialized)) StatementFailed in
  let* attrs := or_throw (jsonb_in numeric (stringify (attributes_json (msg_attributes serialized)))) StatementFailed in
  Ok (queued_row now (env_id (msg_envelope message)) (msg_destination message) body attrs (msg_ledgerLink message)).

Definition publish (aborted : bool) (visible rows : job_queue) (now : Z) (message : OutboxTransportMessage)
    : result transport_error (string * job_queue) :=
  reject TransportAborted when aborted in
  let* wanted := message_row now message in
  let* answer := or_throw (insert_or_match visible rows wanted) StatementFailed in
  match answer with
  | (Some true, rows') => Ok (env_id (msg_envelope message), rows')
  | (_, _) => Err IdempotencyConflict
  end.

(** ** The consumer *)

Definition queue_claimable (clock : string -> nat -> Z) (r : queue_row) : bool :=
  (q_available_at r <=? clock (q_id r) 0%nat)
  && ((bool_decide (q_status r = QUEUED) && (q_attempts r <? QUEUE_MAX_ATTEMPTS))
      || (bool_decide (q_status r = PROCESSING)
          && match q_locked_until r with Some until => until <=? clock (q_id r) 1%nat | None => false end
          && (q_attempts r <? QUEUE_MAX_ATTEMPTS))).

(** [SELECT id ... ORDER BY keys, id FOR UPDATE SKIP LOCKED LIMIT n] *)
Definition pick_rows (rows : job_queue) (locked : gset string) (keys : queue_row -> list Z) (limit : Z)
    (condition : queue_row -> bool) : list queue_row :=
  take (Z.to_nat limit)
    (js_sort (fun a b => compare_keys (keys a) (keys b) (collate (q_id a) (q_id b)))
       (List.filter (fun r => condition r && negb (bool_decide (q_id r ∈ locked))) ((map_to_list rows).*2))).

Definition claimed_queue_row (consumerId : string) (until : Z) (r : queue_row) : queue_row :=
  {| q_id := q_id r; q_queue_name := q_queue_name r; q_payload := q_payload r;
     q_message_attributes := q_message_attributes r; q_ledger_command_id := q_ledger_command_id r;
     q_ledger_journal_id := q_ledger_journal_id r; q_status := PROCESSING; q_attempts := q_attempts r + 1;
     q_available_at := q_available_at r; q_locked_by := Some consumerId; q_locked_until := Some until;
     q_enqueued_at := q_enqueued_at r; q_completed_at := q_completed_at r; q_failed_at := q_failed_at r;
     q_last_error := q_last_error r |}.

Definition update_rows (rows : job_queue) (news : list queue_row) : job_queue :=
  foldl (fun rows r => <[q_id r := r]> rows) rows news.

Definition claimQueueBatch (rows : job_queue) (locked : gset string) (clock : string -> nat -> Z)
    (consumerId : string) : list queue_row * job_queue :=
  let picked := pick_rows rows locked (fun r => [q_available_at r; q_enqueued_at r]) CLAIM_LIMIT
                  (queue_claimable clock) in
  let claimed :=
    (fun r => claimed_queue_row consumerId (clock (q_id r) 2%nat + LEASE_SECONDS * SECOND) r) <$> picked in
  (claimed, update_rows rows claimed).

(** [job.ledger_command_id && job.ledger_journal_id]: empty texts are falsy. *)
Definition queue_link (r : queue_row) : list (string * jsval) :=
  match q_ledger_command_id r, q_ledger_journal_id r with
  | Some commandId, Some journalId =>
      if String.eqb commandId "" || String.eqb journalId "" then []
      else [("ledgerLink", js_object [("commandId", VStr commandId); ("journalId", VStr journalId)])]
  | _, _ => []
  end.

(** Everything in the [try]. *)
Definition job_valid (r : queue_row) : bool :=
  match parseJobEnvelope sha256 (jsonb_out double_of (q_payload r)),
        parseJobMessageAttributes (jsonb_out double_of (q_message_attributes r)) with
  | Some envelope, Ok attrs =>
      is_ok (assertReviewedOutboxJob sha256 (js_object
        ([("destination", VStr (q_queue_name r)); ("envelope", envelope_js envelope);
          ("messageAttributes", attributes_js attrs)] ++ queue_link r)))
  | _, _ => false
  end.

Definition error_code (r : queue_row) : queue_error_code :=
  if job_valid r then RAILWAY_JOB_HANDLER_DORMANT else RAILWAY_JOB_INVALID.

Definition terminal (job : queue_row) : bool := QUEUE_MAX_ATTEMPTS <=? q_attempts job.

Definition delay_seconds (job : queue_row) : Z :=
  if terminal job then 0 else Z.min 60 (2 ^ Z.max 0 (q_attempts job - 1)).

(** The row the settling UPDATE makes of [r] for the claimed [job]. *)
Definition settled_queue_row (clock : nat -> Z) (job r : queue_row) : queue_row :=
  {| q_id := q_id r; q_queue_name := q_queue_name r; q_payload := q_payload r;
     q_message_attributes := q_message_attributes r; q_ledger_command_id := q_ledger_command_id r;
     q_ledger_journal_id := q_ledger_journal_id r;
     q_status := if terminal job then FAILED_STATUS else QUEUED; q_attempts := q_attempts r;
     q_available_at := if terminal job then q_available_at r else clock 0%nat + delay_seconds job * SECOND;
     q_locked_by := None; q_locked_until := None; q_enqueued_at := q_enqueued_at r;
     q_completed_at := q_completed_at r;
     q_failed_at := if terminal job then Some (clock 1%nat) else None;
     q_last_error := Some (error_code job) |}.

(** [WHERE id = $1 AND status = 'processing' AND locked_by = $2] *)
Definition held_row (rows : job_queue) (id consumerId : string) : option queue_row :=
  r ← rows !! id;
  if bool_decide (q_status r = PROCESSING) && bool_decide (q_locked_by r = Some consumerId) then Some r else None.

(** One iteration of the loop: whether a row was updated, and the table. *)
Definition settle_job (rows : job_queue) (clock : nat -> Z) (consumerId : string) (job : queue_row)
    : bool * job_queue :=
  match held_row rows (q_id job) consumerId with
  | Some r => (true, <[q_id r := settled_queue_row clock job r]> rows)
  | None => (false, rows)
  end.

Definition count_settled (job : queue_row) (updated : bool) (s : RailwayQueueSettlementSummary)
    : RailwayQueueSettlementSummary :=
  if updated then
    if terminal job
    then {| qs_claimed := qs_claimed s; qs_failed := qs_failed s + 1; qs_retried := qs_retried s |}
    else {| qs_claimed := qs_claimed s; qs_failed := qs_failed s; qs_retried := qs_retried s + 1 |}
  else s.

Fixpoint settle_jobs (rows : job_queue) (clock : string -> nat -> Z) (consumerId : string) (jobs : list queue_row)
    (summary : RailwayQueueSettlementSummary) : RailwayQueueSettlementSummary * job_queue :=
  match jobs with
  | [] => (summary, rows)
  | job :: jobs =>
      let '(updated, rows) := settle_job rows (clock (q_id job)) consumerId job in
      settle_jobs rows clock consumerId jobs (count_settled job updated summary)
  end.

(** [processBatch], nothing else running in between: [claim_clock] and [clock]
    are the readings of the claim and of the settlements. *)
Definition processBatch (rows : job_queue) (locked : gset string) (claim_clock clock : string -> nat -> Z)
    (consumerId : string) : RailwayQueueSettlementSummary * job_queue :=
  let '(jobs, rows) := claimQueueBatch rows locked claim_clock consumerId in
  settle_jobs rows clock consumerId jobs
    {| qs_claimed := Z.of_nat (length jobs); qs_failed := 0; qs_retried := 0 |}.

Definition queue_expired (clock : string -> nat -> Z) (r : queue_row) : bool :=
  bool_decide (q_status r = FAILED_STATUS)
  && match q_failed_at r with
     | Some failed_at => failed_at <? clock (q_id r) 0%nat - FAILED_RETENTION_DAYS * DAY
     | None => false
     end.

Definition cleanupExpired (rows : job_queue) (locked : gset string) (clock : string -> nat -> Z) : Z * job_queue :=
  let expired := pick_rows rows locked (fun r => [default 0 (q_failed_at r)]) CLEANUP_LIMIT (queue_expired clock) in
  (Z.of_nat (length expired), foldl (fun rows r => delete (q_id r) rows) rows expired).
End queue.

(** ** The system *)

Section system.
Context (sha256 : string -> string) (double_of : string -> jsnum).
Context (numeric : string -> option string) (numeric_eqb : string -> string -> bool).
Context (collate : string -> string -> Z).
(** What the dispatchers hand to the transport. *)
Context (admitted : OutboxTransportMessage -> Prop).

(** The table, and for each consumer in a batch the jobs it has yet to settle. *)
Record queue_state : Type := {
  qst_rows : job_queue;
  qst_flight : gmap string (list queue_row);
}.

Definition with_queue_rows (rows : job_queue) (s : queue_state) : queue_state :=
  {| qst_rows := rows; qst_flight := qst_flight s |}.

(** A batch ends after its last job, when a statement fails or when its process
    dies; the connection may be lost after a statement committed, so that a claim
    nobody heard of ([ClaimUnheard]) keeps its lease. *)
Inductive queue_step (s : queue_state) : queue_state -> Prop :=
| Publishes aborted visible now message id rows :
    admitted message ->
    publish sha256 double_of numeric numeric_eqb aborted visible (qst_rows s) now message = Ok (id, rows) ->
    queue_step s (with_queue_rows rows s)
| Claims consumerId locked clock claimed rows :
    qst_flight s !! consumerId = None ->
    claimQueueBatch collate (qst_rows s) locked clock consumerId = (claimed, rows) ->
    queue_step s {| qst_rows := rows; qst_flight := <[consumerId := claimed]> (qst_flight s) |}
| ClaimUnheard consumerId locked clock claimed rows :
    qst_flight s !! consumerId = None ->
    claimQueueBatch collate (qst_rows s) locked clock consumerId = (claimed, rows) ->
    queue_step s (with_queue_rows rows s)
| Settles consumerId clock job jobs updated rows :
    qst_flight s !! consumerId = Some (job :: jobs) ->
    settle_job sha256 double_of (qst_rows s) clock consumerId job = (updated, rows) ->
    queue_step s {| qst_rows := rows; qst_flight := <[consumerId := jobs]> (qst_flight s) |}
| BatchEnds consumerId :
    queue_step s {| qst_rows := qst_rows s; qst_flight := delete consumerId (qst_flight s) |}
| CleansUp locked clock n rows :
    cleanupExpired collate (qst_rows s) locked clock = (n, rows) ->
    queue_step s (with_queue_rows rows s).

Definition empty_queue : queue_state := {| qst_rows := ∅; qst_flight := ∅ |}.
End system.

(** ** Lemmas: statements *)

Definition ids_ok (rows : job_queue) : Prop := forall id r, rows !! id = Some r -> q_id r = id.

Lemma update_rows_notin rows news id : id ∉ q_id <$> news -> update_rows rows news !! id = rows !! id.
Proof.
  revert rows. unfold update_rows. induction news as [|r news IH]; intros rows H; [done|].
  cbn [foldl]. rewrite IH by set_solver. apply lookup_insert_ne. set_solver.
Qed.

Lemma update_rows_in rows news r : NoDup (q_id <$> news) -> r ∈ news -> update_rows rows news !! q_id r = Some r.
Proof.
  revert rows. unfold update_rows. induction news as [|r' news IH]; intros rows Hn Hr; [by apply not_elem_of_nil in Hr|].
  rewrite fmap_cons in Hn. apply NoDup_cons in Hn as [Hx Hn]. cbn [foldl].
  apply elem_of_cons in Hr as [->|Hr]; [|by apply IH].
  rewrite (update_rows_notin _ news) by done. apply lookup_insert_eq.
Qed.

Lemma delete_rows_lookup (rows : job_queue) deleted id :
  foldl (fun (rows : job_queue) r => delete (q_id r) rows) rows deleted !! id
  = if decide (id ∈ q_id <$> deleted) then None else rows !! id.
Proof.
  revert rows. induction deleted as [|r deleted IH]; intros rows; [done|]. cbn [foldl]. rewrite IH, fmap_cons.
  destruct (decide (id ∈ q_id <$> deleted)).
  - by rewrite decide_True by (by right).
  - destruct (decide (id = q_id r)) as [->|Hne]; [rewrite decide_True by left; apply lookup_delete_eq|].
    rewrite decide_False by set_solver. by apply lookup_delete_ne.
Qed.

Lemma NoDup_filter_queue (f : queue_row -> bool) l : NoDup (q_id <$> l) -> NoDup (q_id <$> List.filter f l).
Proof.
  induction l as [|r l IH]; [done|]. rewrite fmap_cons. intros [Hr Hn]%NoDup_cons. cbn.
  destruct (f r); [|by apply IH]. rewrite fmap_cons. apply NoDup_cons. split; [|by apply IH].
  intros (r' & E & [Hin _]%filter_In_elem)%list_elem_of_fmap. apply Hr. rewrite E. by apply list_elem_of_fmap_2.
Qed.

Lemma pick_rows_ok collate rows locked keys limit condition : ids_ok rows ->
  let picked := pick_rows collate rows locked keys limit condition in
  NoDup (q_id <$> picked) /\ (length picked <= Z.to_nat limit)%nat /\
  forall r, r ∈ picked -> rows !! q_id r = Some r /\ condition r = true /\ q_id r ∉ locked.
Proof.
  intros Hids. unfold pick_rows. cbn zeta.
  set (l := List.filter _ _). set (sorted := js_sort _ l).
  assert (NoDup (q_id <$> l) /\ forall r, r ∈ l -> rows !! q_id r = Some r /\ condition r = true /\ q_id r ∉ locked)
    as [Hnd Hl].
  { split.
    - assert (q_id <$> (map_to_list rows).*2 = (map_to_list rows).*1) as Hk.
      { rewrite <- list_fmap_compose. apply list_fmap_ext. intros i [id r] Hi.
        apply list_elem_of_lookup_2, elem_of_map_to_list in Hi. by apply Hids in Hi. }
      assert (NoDup (q_id <$> (map_to_list rows).*2)) as Hn by (rewrite Hk; apply NoDup_fst_map_to_list).
      unfold l. by apply NoDup_filter_queue.
    - intros r [Hin Hc]%filter_In_elem. apply list_elem_of_fmap in Hin as ([id r'] & -> & Hin%elem_of_map_to_list).
      cbn [snd] in *. apply andb_true_iff in Hc as [Hc Hk]. apply negb_true_iff, bool_decide_eq_false in Hk.
      by rewrite (Hids _ _ Hin) in *. }
  assert (take (Z.to_nat limit) sorted ⊆ l) as Hsub.
  { intros r Hr. apply elem_of_take in Hr as (i & Hi & _). apply list_elem_of_lookup_2 in Hi. unfold sorted in Hi.
    by rewrite elem_of_js_sort in Hi. }
  split_and!.
  - rewrite <- (js_sort_perm (fun a b => compare_keys (keys a) (keys b) (collate (q_id a) (q_id b)))) in Hnd.
    fold sorted in Hnd. rewrite <- (take_drop (Z.to_nat limit) sorted), fmap_app in Hnd. by apply NoDup_app in Hnd as [? _].
  - rewrite length_take. lia.
  - intros r Hr. by apply Hl, Hsub.
Qed.

(** A claim leases rows nobody holds, at most 25, and touches no other. *)
Lemma claim_queue_ok collate rows locked clock consumerId claimed rows' : ids_ok rows ->
  claimQueueBatch collate rows locked clock consumerId = (claimed, rows') ->
  NoDup (q_id <$> claimed) /\ (length claimed <= 25)%nat /\
  (forall c, c ∈ claimed -> rows' !! q_id c = Some c /\ exists r until, rows !! q_id c = Some r /\
     queue_claimable clock r = true /\ c = claimed_queue_row consumerId until r) /\
  (forall id, id ∉ q_id <$> claimed -> rows' !! id = rows !! id).
Proof.
  intros Hids H. unfold claimQueueBatch in H. injection H as <- <-.
  destruct (pick_rows_ok collate rows locked (fun r => [q_available_at r; q_enqueued_at r]) CLAIM_LIMIT
    (queue_claimable clock) Hids) as (Hnd & Hlen & Hp).
  set (picked := pick_rows _ _ _ _ _ _) in *. set (f := fun r => claimed_queue_row _ _ _).
  assert (q_id <$> (f <$> picked) = q_id <$> picked) as Hq by (by rewrite <- list_fmap_compose).
  split_and!.
  - by rewrite Hq.
  - by rewrite length_fmap.
  - intros c Hc. split; [apply update_rows_in; [by rewrite Hq | done]|].
    apply list_elem_of_fmap in Hc as (r & -> & Hr). destruct (Hp _ Hr) as (? & ? & _). unfold f. eauto.
  - intros id Hid. by apply update_rows_notin.
Qed.

Lemma held_row_spec rows id consumerId r : held_row rows id consumerId = Some r <->
  rows !! id = Some r /\ q_status r = PROCESSING /\ q_locked_by r = Some consumerId.
Proof.
  unfold held_row. rewrite bind_Some. split.
  - intros (r' & Hr & H). destruct (_ && _) eqn:E; [|done]. injection H as ->. apply andb_true_iff in E as [E1%bool_decide_eq_true E2%bool_decide_eq_true]. by split_and!.
  - intros (Hr & Hs & Hl). exists r. split; [done|]. by rewrite !bool_decide_eq_true_2.
Qed.

Lemma cleanup_queue_ok collate rows locked clock n rows' : ids_ok rows ->
  cleanupExpired collate rows locked clock = (n, rows') -> exists deleted,
  n = Z.of_nat (length deleted) /\
  (forall r, r ∈ deleted -> rows !! q_id r = Some r /\ queue_expired clock r = true) /\
  forall id, rows' !! id = if decide (id ∈ q_id <$> deleted) then None else rows !! id.
Proof.
  intros Hids [= <- <-].
  destruct (pick_rows_ok collate rows locked (fun r => [default 0 (q_failed_at r)]) CLEANUP_LIMIT
    (queue_expired clock) Hids) as (_ & _ & Hp).
  eexists. split; [done|]. split; [|intros id; apply delete_rows_lookup].
  intros r Hr. by destruct (Hp _ Hr) as (? & ? & _).
Qed.

(** ** Lemmas: the invariant *)

(** What the status of a row says of the rest. *)
Definition queue_row_ok (r : queue_row) : Prop :=
  queue_checks r = true /\
  match q_status r with
  | QUEUED => 0 <= q_attempts r < QUEUE_MAX_ATTEMPTS /\ q_locked_by r = None /\ q_failed_at r = None
  | PROCESSING => 1 <= q_attempts r <= QUEUE_MAX_ATTEMPTS /\ is_Some (q_locked_by r) /\ q_failed_at r = None
  | COMPLETE => False
  | FAILED_STATUS => q_attempts r = QUEUE_MAX_ATTEMPTS /\ q_locked_by r = None /\ is_Some (q_failed_at r) /\
      is_Some (q_last_error r)
  end.

(** A consumer still holds only what it claimed last. *)
Definition flight_ok (rows : job_queue) (flight : gmap string (list queue_row)) : Prop :=
  forall c jobs job r, flight !! c = Some jobs -> job ∈ jobs -> held_row rows (q_id job) c = Some r -> r = job.

Definition queue_inv (s : queue_state) : Prop :=
  (forall id r, qst_rows s !! id = Some r -> q_id r = id /\ queue_row_ok r) /\
  flight_ok (qst_rows s) (qst_flight s).

Lemma queue_checks_iff r : queue_checks r = true <->
  q_queue_name r = "jobs" /\ 0 <= q_attempts r /\
  (q_ledger_command_id r = None <-> q_ledger_journal_id r = None) /\ (q_locked_by r = None <-> q_locked_until r = None).
Proof.
  unfold queue_checks. rewrite !andb_true_iff, String.eqb_eq, Z.leb_le, !eqb_decide. tauto.
Qed.

Lemma claimed_row_ok clock consumerId until r : queue_row_ok r -> queue_claimable clock r = true ->
  queue_row_ok (claimed_queue_row consumerId until r).
Proof.
  intros [Hc Hs] Hcl. apply queue_checks_iff in Hc as (H1 & H2 & H3 & H4). unfold queue_claimable in Hcl.
  apply andb_true_iff in Hcl as [_ Hcl]. apply orb_true_iff in Hcl.
  assert (0 <= q_attempts r < QUEUE_MAX_ATTEMPTS /\ q_failed_at r = None) as [Ha Hf].
  { destruct Hcl as [Hcl | Hcl]; bsimpl;
      repeat match goal with H : bool_decide _ = true |- _ => apply bool_decide_eq_true in H; rewrite H in Hs end;
      destruct Hs as (? & ? & ?); by split; [lia|]. }
  split; cbn; [|unfold QUEUE_MAX_ATTEMPTS in *; split_and!; try done; lia].
  apply queue_checks_iff. cbn. split_and!; try done; lia.
Qed.

Lemma settled_row_ok sha256 double_of clock r : queue_row_ok r -> q_status r = PROCESSING ->
  queue_row_ok (settled_queue_row sha256 double_of clock r r).
Proof.
  intros [Hc Hs] E. rewrite E in Hs. apply queue_checks_iff in Hc as (H1 & H2 & H3 & H4). destruct Hs as (Ha & _ & _).
  split; [by apply queue_checks_iff|]. unfold settled_queue_row, terminal. cbn.
  destruct (Z.leb_spec QUEUE_MAX_ATTEMPTS (q_attempts r)); cbn; split_and!; try done; try lia.
Qed.

Lemma message_row_fields sha256 double_of numeric now m wanted :
  message_row sha256 double_of numeric now m = Ok wanted ->
  q_id wanted = env_id (msg_envelope m) /\ q_status wanted = QUEUED /\ q_attempts wanted = 0 /\
  q_locked_by wanted = None /\ q_failed_at wanted = None.
Proof. unfold message_row. intros H. inv_ok. by subst. Qed.

(** A message is accepted when its row is inserted, or is there already. *)
Lemma publish_ok sha256 double_of numeric numeric_eqb aborted visible rows now m id rows' :
  publish sha256 double_of numeric numeric_eqb aborted visible rows now m = Ok (id, rows') <->
  aborted = false /\ id = env_id (msg_envelope m) /\ exists wanted,
    message_row sha256 double_of numeric now m = Ok wanted /\ queue_checks wanted = true /\
    match rows !! id with
    | None => rows' = <[id := wanted]> rows
    | Some _ => rows' = rows /\ exists r, visible !! id = Some r /\ row_matches numeric_eqb wanted r = true
    end.
Proof.
  unfold publish. destruct aborted; [by split; [|intros (? & _)]|].
  destruct (message_row _ _ _ now m) as [wanted|] eqn:E; cbn [rbind]; [|by split; [|intros (_ & _ & ? & ? & _)]].
  pose proof (message_row_fields _ _ _ _ _ _ E) as (Hid & _). unfold insert_or_match. rewrite Hid.
  destruct (queue_checks wanted) eqn:Hc; cbn [negb or_throw rbind];
    [|split; [done | intros (_ & _ & w & [= <-] & Hw & _); congruence]].
  split.
  - destruct (rows !! env_id (msg_envelope m)) as [old|] eqn:Eo; cbn [or_throw rbind].
    + destruct (visible !! env_id (msg_envelope m)) as [r|] eqn:Ev; cbn; [|done].
      destruct (row_matches _ _ _) eqn:Em; [|done]. intros [= <- <-]. split; [done|]. split; [done|].
      exists wanted. split; [done|]. split; [done|]. rewrite Eo. split; [done|]. by exists r.
    + intros [= <- <-]. split; [done|]. split; [done|]. exists wanted. by rewrite Eo.
  - intros (_ & -> & w & [= <-] & _ & Hm). destruct (rows !! env_id (msg_envelope m)) as [old|]; cbn [or_throw rbind].
    + destruct Hm as (-> & r & -> & Hr). cbn. by rewrite Hr.
    + by subst.
Qed.

Section runs.
Context (sha256 : string -> string) (double_of : string -> jsnum).
Context (numeric : string -> option string) (numeric_eqb : string -> string -> bool).
Context (collate : string -> string -> Z) (admitted : OutboxTransportMessage -> Prop).
Notation steps := (queue_step sha256 double_of numeric numeric_eqb collate admitted).

(** Rows change only as the statements change them. *)
Inductive row_change (s : queue_state) (id : string) : option queue_row -> option queue_row -> Prop :=
| RowSame r : row_change s id r r
| RowQueued now m wanted :
    admitted m -> message_row sha256 double_of numeric now m = Ok wanted -> queue_checks wanted = true -> q_id wanted = id ->
    row_change s id None (Some wanted)
| RowClaimed clock consumerId until r :
    queue_claimable clock r = true -> row_change s id (Some r) (Some (claimed_queue_row consumerId until r))
| RowSettled clock consumerId jobs r :
    q_status r = PROCESSING -> q_locked_by r = Some consumerId ->
    qst_flight s !! consumerId = Some (r :: jobs) ->
    row_change s id (Some r) (Some (settled_queue_row sha256 double_of clock r r))
| RowDeleted clock r : queue_expired clock r = true -> row_change s id (Some r) None.

Lemma claim_changes s c locked clock claimed rows id : ids_ok (qst_rows s) ->
  claimQueueBatch collate (qst_rows s) locked clock c = (claimed, rows) ->
  row_change s id (qst_rows s !! id) (rows !! id).
Proof.
  intros Hids (_ & _ & Hin & Hout)%claim_queue_ok; [|done].
  destruct (decide (id ∈ q_id <$> claimed)) as [Hi|Hi]; [|rewrite Hout by done; constructor].
  apply list_elem_of_fmap in Hi as (r & -> & Hr). destruct (Hin _ Hr) as (-> & r0 & u & H0 & Hcl & ->).
  cbn [q_id claimed_queue_row] in *. rewrite H0. by econstructor.
Qed.

Lemma inv_ids s : queue_inv s -> ids_ok (qst_rows s).
Proof. intros [H _] id r Hr. by apply H. Qed.

Lemma step_changes s s' id : queue_inv s -> steps s s' -> row_change s id (qst_rows s !! id) (qst_rows s' !! id).
Proof.
  intros Hinv H. pose proof (inv_ids _ Hinv) as Hids.
  destruct H as [aborted visible now m i rows Ha Hp|c locked clock claimed rows _ Hc|
    c locked clock claimed rows _ Hc|c clock job jobs updated rows Hf Hs|c|locked clock n rows Hc]; cbn.
  - apply publish_ok in Hp as (_ & -> & wanted & Hw & Hk & H).
    destruct (decide (id = env_id (msg_envelope m))) as [->|Hne].
    + destruct (qst_rows s !! _) as [r|] eqn:E; [destruct H as [-> _]; rewrite E; constructor|].
      rewrite H, lookup_insert_eq. econstructor; try done. by apply message_row_fields in Hw as [? _].
    + destruct (qst_rows s !! env_id _); [destruct H as [-> _]|rewrite H, lookup_insert_ne by done]; constructor.
  - by eapply claim_changes.
  - by eapply claim_changes.
  - unfold settle_job in Hs. destruct (held_row _ _ _) as [r|] eqn:Eh; injection Hs as <- <-; [|constructor].
    pose proof (proj2 Hinv _ _ _ _ Hf ltac:(left) Eh) as ->. apply held_row_spec in Eh as (Hr & Hst & Hl).
    destruct (decide (id = q_id job)) as [->|Hne]; [|rewrite lookup_insert_ne by done; constructor].
    rewrite lookup_insert_eq, Hr. by econstructor.
  - constructor.
  - apply cleanup_queue_ok in Hc as (deleted & _ & Hd & Hl); [|done]. rewrite Hl.
    destruct (decide _) as [Hi|Hi]; [|constructor].
    apply list_elem_of_fmap in Hi as (r & -> & Hr). destruct (Hd _ Hr) as (-> & He). by econstructor.
Qed.

Lemma changed_row_ok s old r id : row_change s id old (Some r) ->
  (forall r0, old = Some r0 -> q_id r0 = id /\ queue_row_ok r0) ->
  queue_row_ok r /\ q_id r = id.
Proof.
  intros H Hold. inversion H; subst.
  - split; by apply Hold.
  - match goal with Hw : message_row _ _ _ _ _ = Ok r |- _ => destruct (message_row_fields _ _ _ _ _ _ Hw) as (_ & Hs & Ha & Hl & Hf) end.
    split; [|done]. split; [done|]. rewrite Hs, Ha, Hl, Hf. by unfold QUEUE_MAX_ATTEMPTS.
  - destruct (Hold _ eq_refl) as [<- Hok]. split; [by eapply claimed_row_ok | done].
  - destruct (Hold _ eq_refl) as [<- Hok]. split; [by apply settled_row_ok | done].
Qed.

Lemma settled_not_held clock job r : q_status (settled_queue_row sha256 double_of clock job r) <> PROCESSING.
Proof. cbn. by destruct (terminal job). Qed.

(** A row held after a step was held before it, unless the step claimed it. *)
Lemma held_before s s' id c r : queue_inv s -> steps s s' -> held_row (qst_rows s') id c = Some r ->
  held_row (qst_rows s) id c = Some r \/
  qst_flight s !! c = None.
Proof.
  intros Hinv Hstep (Hr & Hst & Hl)%held_row_spec. rewrite (held_row_spec (qst_rows s)). pose proof (inv_ids _ Hinv) as Hids.
  destruct Hstep as [aborted visible now m i rows Ha Hp|c' locked clock claimed rows Hf Hc|
    c' locked clock claimed rows Hf Hc|c' clock job jobs updated rows Hf Hs|c'|locked clock n rows Hc]; cbn in *.
  - left. apply publish_ok in Hp as (_ & -> & wanted & Hw & Hk & H). pose proof (message_row_fields _ _ _ _ _ _ Hw) as (_ & Hq & _).
    destruct (qst_rows s !! env_id (msg_envelope m)) as [old|]; [by destruct H as [-> _]|]. subst rows.
    apply lookup_insert_Some in Hr as [[_ <-]|[_ Hr]]; [congruence | done].
  - apply claim_queue_ok in Hc as (_ & _ & Hin & Hout); [|done].
    destruct (decide (id ∈ q_id <$> claimed)) as [Hi|Hi]; [|left; by rewrite <- Hout].
    apply list_elem_of_fmap in Hi as (x & -> & Hx). destruct (Hin _ Hx) as (Hx' & r0 & u & _ & _ & E).
    rewrite Hr in Hx'. injection Hx' as ->. rewrite E in Hl. injection Hl as <-. by right.
  - apply claim_queue_ok in Hc as (_ & _ & Hin & Hout); [|done].
    destruct (decide (id ∈ q_id <$> claimed)) as [Hi|Hi]; [|left; by rewrite <- Hout].
    apply list_elem_of_fmap in Hi as (x & -> & Hx). destruct (Hin _ Hx) as (Hx' & r0 & u & _ & _ & E).
    rewrite Hr in Hx'. injection Hx' as ->. rewrite E in Hl. injection Hl as <-. by right.
  - left. unfold settle_job in Hs. destruct (held_row _ _ _) as [r0|]; injection Hs as _ <-; [|done].
    apply lookup_insert_Some in Hr as [[_ <-]|[_ Hr]]; [by destruct (settled_not_held clock job r0) | done].
  - by left.
  - left. apply cleanup_queue_ok in Hc as (deleted & _ & _ & Hd); [|done]. rewrite Hd in Hr. by destruct (decide _).
Qed.

Lemma step_flight s s' c jobs : steps s s' -> qst_flight s' !! c = Some jobs ->
  (exists locked clock, claimQueueBatch collate (qst_rows s) locked clock c = (jobs, qst_rows s')) \/
  exists jobs0, qst_flight s !! c = Some jobs0 /\ jobs ⊆ jobs0.
Proof.
  intros Hstep H.
  destruct Hstep as [| c' locked clock ? ? Hf Hc| |c' ? job jobs0 ? ? Hf _|c'|]; cbn in *; try (right; by exists jobs).
  - destruct (decide (c = c')) as [->|]; [|rewrite lookup_insert_ne in H by done; right; by exists jobs].
    rewrite lookup_insert_eq in H. injection H as <-. left. by exists locked, clock.
  - destruct (decide (c = c')) as [->|].
    + rewrite lookup_insert_eq in H. injection H as <-. right. exists (job :: jobs0). split; [done|]. by apply list_subseteq_cons.
    + rewrite lookup_insert_ne in H by done. right. by exists jobs.
  - apply lookup_delete_Some in H as [_ H]. right. by exists jobs.
Qed.

Lemma queue_step_inv s s' : queue_inv s -> steps s s' -> queue_inv s'.
Proof.
  intros Hinv Hstep. pose proof (inv_ids _ Hinv) as Hids. split.
  - intros id r Hr. pose proof (step_changes _ _ id Hinv Hstep) as Hch. rewrite Hr in Hch.
    destruct (changed_row_ok _ _ _ id Hch) as [Hok Hid]; [intros r0 H0; by apply Hinv | done].
  - intros c jobs job r Hf Hj Hh. destruct (step_flight _ _ _ _ Hstep Hf) as [(locked & clock & Hc)|(jobs0 & Hf0 & Hsub)].
    + apply claim_queue_ok in Hc as (_ & _ & Hin & _); [|done]. destruct (Hin _ Hj) as (Hr & _).
      apply held_row_spec in Hh as (Hr' & _). congruence.
    + destruct (held_before _ _ _ _ _ Hinv Hstep Hh) as [Hh'|Hnone]; [|congruence]. eapply Hinv; eauto.
Qed.

Lemma empty_queue_inv : queue_inv empty_queue.
Proof. split; [intros id r Hr|intros c jobs job r Hr]; cbn in Hr; by rewrite lookup_empty in Hr. Qed.

Lemma queue_run_inv s s' : queue_inv s -> rtc steps s s' -> queue_inv s'.
Proof. intros Hinv. induction 1; eauto using queue_step_inv. Qed.

Lemma queue_reachable_inv s : rtc steps empty_queue s -> queue_inv s.
Proof. apply queue_run_inv, empty_queue_inv. Qed.

(** A property of single rows that publishing establishes and that says nothing
    of the columns the consumer writes. *)
Lemma rows_keep (P : queue_row -> Prop) s s' :
  (forall now m r, admitted m -> message_row sha256 double_of numeric now m = Ok r -> P r) ->
  (forall c until r, P r -> P (claimed_queue_row c until r)) ->
  (forall clock r, P r -> P (settled_queue_row sha256 double_of clock r r)) ->
  queue_inv s -> rtc steps s s' -> (forall id r, qst_rows s !! id = Some r -> P r) ->
  forall id r, qst_rows s' !! id = Some r -> P r.
Proof.
  intros Hnew Hclaim Hsettle Hinv H. induction H as [s|s s1 s2 Hstep H IH]; intros HP; [done|].
  apply IH; [by eapply queue_step_inv|]. intros id r Hr. pose proof (step_changes _ _ id Hinv Hstep) as Hch.
  rewrite Hr in Hch. inversion Hch; subst; eauto.
Qed.
End runs.

(** ** Lemmas: what the consumer reads back *)

(** The job a dispatched message stands for, as the policy is given it. *)
Definition message_job (m : OutboxTransportMessage) : jsval :=
  js_object ([("destination", VStr (msg_destination m)); ("envelope", envelope_js (msg_envelope m));
              ("messageAttributes", attributes_js (msg_messageAttributes m))]
             ++ match msg_ledgerLink m with
                | Some link => link_fields (link_commandId link) (link_journalId link)
                | None => []
                end).

(** The outbox holds, and dispatches, only such messages. *)
Definition reviewed_message (sha256 : string -> string) (m : OutboxTransportMessage) : Prop :=
  envelope_wf (msg_envelope m) /\ assertReviewedOutboxJob sha256 (message_job m) = Ok tt.

Lemma attributes_numerals attrs : numerals (attributes_json attrs) = attributes_json attrs.
Proof. unfold attributes_json. cbn [numerals]. f_equal. induction attrs as [|kv attrs IH]; [done|]. cbn. by f_equal. Qed.

Lemma attributes_printable attrs : printable (attributes_json attrs).
Proof. apply printable_object, Forall_forall. by intros kv ([k v] & -> & _)%list_elem_of_fmap. Qed.

(** At most one attribute is read back as it was. *)
Lemma attributes_stored numeric double_of attrs j :
  attrs = [] \/ (exists v, attrs = [("operationType", v)]) ->
  jsonb_in numeric (stringify (attributes_json attrs)) = Some j -> jsonb_out double_of j = attributes_js attrs.
Proof.
  intros Ha H. unfold jsonb_in in H. rewrite parse_stringify in H by apply attributes_printable.
  cbn [mbind option_bind] in H. rewrite attributes_numerals in H.
  destruct Ha as [-> | [v ->]]; cbn in H; [by injection H as <-|].
  destruct (has_nul v); [done|]. by injection H as <-.
Qed.

Lemma attributes_parse_same attrs custom : parseJobMessageAttributes (attributes_js attrs) = Ok custom -> custom = attrs.
Proof.
  unfold parseJobMessageAttributes, parseJobMessageAttributesWithBudget, attributes_js, js_object. intros H.
  cbn [plain_descriptors is_object is_array get_prototype_of own_property_descriptors negb or_throw rbind] in H.
  rewrite attribute_entries_literal in H. inv_ok. subst. cbn [fst] in *. congruence.
Qed.

Lemma canonical_not_empty s : isCanonicalUuidV4 s = true -> String.eqb s "" = false.
Proof. by destruct s. Qed.

(** The consumer accepts every reviewed message it is handed. *)
Lemma reviewed_row_valid sha256 double_of numeric now m r :
  (forall m, HEX64_PATTERN (sha256 m) = true) -> numeric_ok numeric -> reviewed_message sha256 m ->
  message_row sha256 double_of numeric now m = Ok r -> job_valid sha256 double_of r = true.
Proof.
  intros Hhex Hn [He Hrev] Hrow. unfold message_job in Hrev.
  set (l := match msg_ledgerLink m with Some _ => _ | None => _ end) in Hrev.
  assert (l = [] \/ exists v, l = [("ledgerLink", v)]) as Hl by (unfold l; destruct (msg_ledgerLink m); eauto).
  rewrite review_literal in Hrev by done. destruct (String.eqb_spec (msg_destination m) "jobs") as [Hd|]; [|done]. cbn [negb] in Hrev.
  destruct (reviewed_attributes _ _ _ _ Hrev) as (attrs & Hattrs & Hshape).
  pose proof (attributes_parse_same _ _ Hattrs) as ->.
  destruct (contract_flat _ _ _ _ He Hrev) as (keys & Hne & Hflat).
  unfold message_row in Hrow. apply rbind_ok in Hrow as (ser & Hser & Hrow).
  apply rbind_ok in Hrow as (body & Hbody%or_throw_ok & Hrow). apply rbind_ok in Hrow as (aj & Haj%or_throw_ok & [= <-]).
  destruct (serializeJobMessage _ _ _ _) as [ser'|] eqn:Es in Hser; [|done]. injection Hser as ->.
  assert (forall e payload, parseJobEnvelope sha256 (envelope_js (msg_envelope m)) = Some e ->
    plain_json MAX_JOB_JSON_DEPTH (env_payload e) = Some payload -> printable payload) as Hp.
  { intros e payload Hpe. rewrite parse_envelope_js in Hpe by done. injection Hpe as <-.
    by apply (flat_record_printable keys). }
  pose proof (serialize_ok _ double_of _ _ _ Hhex Hp Es) as (e & custom & payload & Hs & Hb & Hc & _).
  destruct Hs as (Hca & Hpe & _ & Hpl & _). rewrite Hattrs in Hca. injection Hca as <-.
  pose proof (Hp _ _ Hpe Hpl) as Hpp. rewrite parse_envelope_js in Hpe by done. injection Hpe as <-.
  rewrite Hc in Haj. pose proof (attributes_stored numeric double_of _ _ Hshape Haj) as Hout.
  rewrite Hb in Hbody. unfold jsonb_in in Hbody. rewrite parse_stringify in Hbody
    by (apply printable_envelope; [apply He | done]). cbn [mbind option_bind] in Hbody.
  destruct (envelope_stored numeric double_of sha256 _ _ _ Hn He Hbody) as (pj & Hpj & Hback).
  unfold job_valid, queued_row. cbn [q_payload q_message_attributes q_queue_name]. rewrite Hback, Hout, Hattrs.
  assert (queue_link (queued_row now (env_id (msg_envelope m)) (msg_destination m) body aj (msg_ledgerLink m)) = l) as Hql.
  { unfold l, queue_link. cbn. destruct (msg_ledgerLink m) as [link|] eqn:Elink; [|done]. cbn.
    pose proof (reviewed_link sha256 _ _ (link_commandId link) (link_journalId link) Hrev) as [H1 H2].
    by rewrite !canonical_not_empty. }
  unfold queued_row in Hql. rewrite Hql.
  rewrite review_literal; [|exact He | done]. rewrite Hd. cbn [negb String.eqb Ascii.eqb Bool.eqb].
  assert (review_contract sha256 (with_payload (msg_envelope m) (jsonb_out double_of pj))
    (attributes_js (msg_messageAttributes m)) (l .: "ledgerLink") = Ok tt) as ->; [|done].
  eapply contract_again; try done. apply (read_back_same numeric double_of Hn).
  exists MAX_JOB_JSON_DEPTH, payload, pj. by split_and!.
Qed.

(** ** Lemmas: a batch without interference *)

Lemma settle_jobs_ok sha256 double_of clock consumerId jobs rows summary summary' rows' :
  NoDup (q_id <$> jobs) -> ids_ok rows ->
  (forall job, job ∈ jobs -> held_row rows (q_id job) consumerId = Some job) ->
  settle_jobs sha256 double_of rows clock consumerId jobs summary = (summary', rows') ->
  qs_claimed summary' = qs_claimed summary /\
  qs_failed summary' = qs_failed summary + Z.of_nat (length (List.filter terminal jobs)) /\
  qs_retried summary' = qs_retried summary + Z.of_nat (length (List.filter (fun job => negb (terminal job)) jobs)) /\
  (forall job, job ∈ jobs ->
     rows' !! q_id job = Some (settled_queue_row sha256 double_of (clock (q_id job)) job job)) /\
  (forall id, id ∉ q_id <$> jobs -> rows' !! id = rows !! id).
Proof.
  revert rows summary. induction jobs as [|job jobs IH]; intros rows summary Hnd Hids Hheld H.
  { injection H as <- <-. cbn. split_and!; try lia; try done. by intros job ?%not_elem_of_nil. }
  rewrite fmap_cons in Hnd. apply NoDup_cons in Hnd as [Hj Hnd]. cbn [settle_jobs] in H.
  unfold settle_job in H. rewrite (Hheld job) in H by left.
  set (rows1 := <[_ := _]> rows) in H.
  assert (forall id, id <> q_id job -> rows1 !! id = rows !! id) as Hother by (intros id Hne; by apply lookup_insert_ne).
  assert (ids_ok rows1) as Hids1.
  { intros id r Hr. unfold rows1 in Hr. apply lookup_insert_Some in Hr as [[<- <-]|[_ Hr]]; [done | by apply Hids]. }
  apply IH in H as (H1 & H2 & H3 & H4 & H5); [|done|done|].
  2:{ intros job' Hin. unfold held_row. rewrite Hother; [by apply Hheld; right|].
      intros E. apply Hj. rewrite <- E. by apply list_elem_of_fmap_2. }
  rewrite H1, H2, H3. cbn [List.filter]. unfold count_settled. destruct (terminal job); cbn [negb qs_claimed qs_failed qs_retried length].
  all: split_and!; try lia; [|intros id Hid; rewrite H5 by set_solver; apply Hother; set_solver].
  all: intros job' [->|Hin]%elem_of_cons; [|by apply H4]; rewrite H5 by done; apply lookup_insert_eq.
Qed.

Lemma filter_split {A} (f : A -> bool) l :
  (length (List.filter f l) + length (List.filter (fun x => negb (f x)) l) = length l)%nat.
Proof. induction l as [|x l IH]; [done|]. cbn. destruct (f x); cbn; lia. Qed.

(** The columns no statement changes. *)
Definition fixed_columns (r : queue_row) : string * string * json * json * option string * option string :=
  (q_id r, q_queue_name r, q_payload r, q_message_attributes r, q_ledger_command_id r, q_ledger_journal_id r).

(** The row holds an admitted message. *)
Definition came_from sha256 double_of numeric (admitted : OutboxTransportMessage -> Prop) (r : queue_row) : Prop :=
  exists m now w, admitted m /\ message_row sha256 double_of numeric now m = Ok w /\ fixed_columns r = fixed_columns w.

Lemma message_row_now sha256 double_of numeric now now' m w :
  message_row sha256 double_of numeric now m = Ok w -> exists w',
  message_row sha256 double_of numeric now' m = Ok w' /\ fixed_columns w = fixed_columns w' /\
  queue_checks w = queue_checks w'.
Proof.
  unfold message_row. destruct (serializeJobMessage _ _ _ _) as [ser|]; [|done]. cbn [rlift rcatch rbind].
  destruct (jsonb_in _ _); [|done]. cbn [or_throw rbind]. destruct (jsonb_in _ _); [|done]. intros [= <-].
  by eexists.
Qed.

Lemma row_matches_columns numeric_eqb w r : (forall text, numeric_eqb text text = true) ->
  fixed_columns r = fixed_columns w -> row_matches numeric_eqb w r = true.
Proof.
  intros Hrefl [= _ Hq Hp Ha Hc Hj]. unfold row_matches. rewrite Hq, Hp, Ha, Hc, Hj.
  rewrite !jsonb_eqb_refl, String.eqb_refl by done. by rewrite !bool_decide_eq_true_2.
Qed.

(** ** Theorems *)

(** C9: every row the queue ever holds is in a lawful state: a job waits with
    attempts to spare and no lock, is leased on one of its first five attempts,
    or has failed on exactly its fifth with its time and reason recorded; its
    id, queue and ledger pair are intact, and no job is ever marked complete. *)
Theorem queue_rows_sound sha256 double_of numeric numeric_eqb collate admitted s :
  rtc (queue_step sha256 double_of numeric numeric_eqb collate admitted) empty_queue s ->
  forall id r, qst_rows s !! id = Some r ->
  q_id r = id /\ queue_checks r = true /\ 0 <= q_attempts r <= QUEUE_MAX_ATTEMPTS /\
  match q_status r with
  | QUEUED => q_attempts r < QUEUE_MAX_ATTEMPTS /\ q_locked_by r = None /\ q_failed_at r = None
  | PROCESSING => 1 <= q_attempts r /\ is_Some (q_locked_by r) /\ q_failed_at r = None
  | COMPLETE => False
  | FAILED_STATUS => q_attempts r = QUEUE_MAX_ATTEMPTS /\ q_locked_by r = None /\ is_Some (q_failed_at r) /\
      is_Some (q_last_error r)
  end.
Proof.
  intros Hs%queue_reachable_inv id r Hr. destruct (proj1 Hs _ _ Hr) as [Hid [Hc H]].
  split; [done|]. split; [done|]. destruct (q_status r); [| | done |]; unfold QUEUE_MAX_ATTEMPTS in *;
    split; try lia; tauto.
Qed.

(** C8: what was reviewed on its way into the outbox is never found invalid by the
    consumer: through the message, the jsonb columns, any number of claims, crashes
    and retries, a queue fed only reviewed messages never records
    RAILWAY_JOB_INVALID. *)
Theorem reviewed_jobs_never_invalid sha256 double_of numeric numeric_eqb collate s :
  (forall m, HEX64_PATTERN (sha256 m) = true) -> numeric_ok numeric ->
  rtc (queue_step sha256 double_of numeric numeric_eqb collate (reviewed_message sha256)) empty_queue s ->
  forall id r, qst_rows s !! id = Some r ->
  job_valid sha256 double_of r = true /\ q_last_error r <> Some RAILWAY_JOB_INVALID.
Proof.
  intros Hhex Hn Hs. revert Hs.
  set (P := fun r => job_valid sha256 double_of r = true /\ q_last_error r <> Some RAILWAY_JOB_INVALID).
  intros Hs. apply (rows_keep sha256 double_of numeric numeric_eqb collate (reviewed_message sha256) P empty_queue s);
    [| | | apply empty_queue_inv | done |].
  - intros now m r Hm Hr. split; [by eapply reviewed_row_valid|]. unfold message_row in Hr. inv_ok. by subst.
  - intros c until r [Hv He]. by split.
  - intros clock r [Hv He]. split; [exact Hv|]. cbn. unfold error_code. by rewrite Hv.
  - intros id r Hr. cbn in Hr. by rewrite lookup_empty in Hr.
Qed.

(** C10: publishing is idempotent: where a message's id stands for the message, a
    message whose job is in the queue - waiting, leased or failed - is accepted
    again with the same receipt and changes nothing, so that a worker that died
    before it marked the outbox row loses nothing by publishing again. *)
Theorem publish_idempotent sha256 double_of numeric numeric_eqb collate (admitted : OutboxTransportMessage -> Prop) s m r now :
  (forall text, numeric_eqb text text = true) ->
  (forall m m', admitted m -> admitted m' -> env_id (msg_envelope m) = env_id (msg_envelope m') -> m = m') ->
  rtc (queue_step sha256 double_of numeric numeric_eqb collate admitted) empty_queue s ->
  admitted m -> qst_rows s !! env_id (msg_envelope m) = Some r ->
  publish sha256 double_of numeric numeric_eqb false (qst_rows s) (qst_rows s) now m
  = Ok (env_id (msg_envelope m), qst_rows s).
Proof.
  intros Hrefl Huniq Hs Hm Hr. pose proof (queue_reachable_inv _ _ _ _ _ _ _ Hs) as Hinv.
  pose proof (rows_keep sha256 double_of numeric numeric_eqb collate admitted
    (came_from sha256 double_of numeric admitted) empty_queue s) as Hkeep.
  destruct (Hkeep) with (id := env_id (msg_envelope m)) (r := r) as (m' & now' & w & Hm' & Hw & Hcols);
    [| by intros ? ? ? ? | by intros ? ? ? | apply empty_queue_inv | done | | done |].
  - intros now' m' w Hm' Hw. by exists m', now', w.
  - intros id r' Hr'. cbn in Hr'. by rewrite lookup_empty in Hr'.
  - destruct (message_row_fields _ _ _ _ _ _ Hw) as (Hid & _). destruct (proj1 Hinv _ _ Hr) as [Hrid [Hchecks _]].
    assert (m' = m) as -> by (apply Huniq; [done | done | injection Hcols; congruence]).
    destruct (message_row_now sha256 double_of numeric now' now m w Hw) as (w' & Hw' & Hc' & Hk).
    rewrite Hc' in Hcols. apply publish_ok. split; [done|]. split; [done|]. exists w'. split; [done|]. rewrite Hr.
    split; [|split; [done|]; exists r; split; [done | by apply row_matches_columns]].
    apply queue_checks_iff in Hchecks as (C1 & C2 & C3 & C4). apply queue_checks_iff.
    destruct (message_row_fields _ _ _ _ _ _ Hw') as (_ & _ & Ha & _). injection Hcols as _ G2 _ _ G5 G6.
    rewrite <- G2, <- G5, <- G6, Ha. unfold message_row in Hw'. inv_ok. by subst w'.
Qed.

(** C11: a job whose worker dies during its fifth attempt is lost: leased with its
    attempts used up and no live batch holding it, the row is never claimed,
    failed, cleaned up or changed again, whatever the consumers, publishers and
    cleanups do from then on. *)
Theorem lost_last_attempt_stuck sha256 double_of numeric numeric_eqb collate admitted s s' id r :
  rtc (queue_step sha256 double_of numeric numeric_eqb collate admitted) empty_queue s ->
  qst_rows s !! id = Some r -> q_status r = PROCESSING -> q_attempts r = QUEUE_MAX_ATTEMPTS ->
  (forall c jobs, qst_flight s !! c = Some jobs -> id ∉ q_id <$> jobs) ->
  rtc (queue_step sha256 double_of numeric numeric_eqb collate admitted) s s' ->
  qst_rows s' !! id = Some r.
Proof.
  intros Hs%queue_reachable_inv Hr Hst Ha Hf Hrun. induction Hrun as [s|s s1 s2 Hstep _ IH]; [done|].
  pose proof (inv_ids _ Hs) as Hids.
  apply IH; [by eapply queue_step_inv| |].
  - pose proof (step_changes _ _ _ _ _ _ s s1 id Hs Hstep) as Hch. rewrite Hr in Hch. inversion Hch; subst.
    + congruence.
    + unfold queue_claimable in *. bsimpl. rewrite Ha, andb_false_r in *. by rewrite andb_false_r in *.
    + destruct (Hf consumerId (r :: jobs)) as []; [done|]. rewrite fmap_cons, <- (Hids _ _ Hr). left.
    + unfold queue_expired in *. rewrite Hst in *. done.
  - intros c jobs Hj Hin. destruct (step_flight _ _ _ _ _ _ _ _ _ _ Hstep Hj) as [(locked & clock & Hc)|(jobs0 & Hj0 & Hsub)].
    + apply claim_queue_ok in Hc as (_ & _ & Hc & _); [|done]. apply list_elem_of_fmap in Hin as (x & -> & Hx).
      destruct (Hc _ Hx) as (_ & r0 & u & Hr0 & Hcl & _). rewrite Hr in Hr0. injection Hr0 as <-.
      unfold queue_claimable in Hcl. rewrite Ha in Hcl. cbn in Hcl. rewrite !andb_false_r in Hcl. done.
    + apply (Hf c jobs0 Hj0). apply list_elem_of_fmap in Hin as (x & -> & Hx). by apply list_elem_of_fmap_2, Hsub.
Qed.

(** A batch that runs to its end settles everything it claimed: at most 25
    claimable jobs, each counted once as failed or retried; a job on its fifth
    attempt fails, any other waits 1, 2, 4 or 8 seconds for the next; all
    are released and no other row changes. *)
Theorem process_batch_settles sha256 double_of numeric numeric_eqb collate admitted s locked claim_clock clock consumerId
    summary rows' :
  rtc (queue_step sha256 double_of numeric numeric_eqb collate admitted) empty_queue s ->
  processBatch sha256 double_of collate (qst_rows s) locked claim_clock clock consumerId = (summary, rows') ->
  exists ids : list string, NoDup ids /\ Z.of_nat (length ids) <= CLAIM_LIMIT /\
  qs_claimed summary = Z.of_nat (length ids) /\ qs_failed summary + qs_retried summary = qs_claimed summary /\
  (forall id, id ∉ ids -> rows' !! id = qst_rows s !! id) /\
  forall id, id ∈ ids -> exists r r', qst_rows s !! id = Some r /\ queue_claimable claim_clock r = true /\
    rows' !! id = Some r' /\ q_attempts r' = q_attempts r + 1 /\ q_locked_by r' = None /\
    (q_status r' = FAILED_STATUS <-> q_attempts r' = QUEUE_MAX_ATTEMPTS) /\
    (q_attempts r' < QUEUE_MAX_ATTEMPTS -> q_status r' = QUEUED /\
       q_available_at r' = clock id 0%nat + 2 ^ (q_attempts r' - 1) * SECOND /\ 1 <= 2 ^ (q_attempts r' - 1) <= 8).
Proof.
  intros Hs%queue_reachable_inv H. pose proof (inv_ids _ Hs) as Hids. unfold processBatch in H.
  destruct (claimQueueBatch _ _ _ _ _) as [jobs rows1] eqn:Ec. apply claim_queue_ok in Ec as (Hnd & Hlen & Hin & Hout); [|done].
  assert (ids_ok rows1) as Hids1.
  { intros id r Hr. destruct (decide (id ∈ q_id <$> jobs)) as [Hi|Hi]; [|rewrite Hout in Hr by done; by apply Hids].
    apply list_elem_of_fmap in Hi as (x & -> & Hx). destruct (Hin _ Hx) as (Hx' & _). congruence. }
  apply settle_jobs_ok in H as (H1 & H2 & H3 & H4 & H5); [|done|done|].
  2:{ intros job Hj. destruct (Hin _ Hj) as (Hr & r0 & u & _ & _ & E). apply held_row_spec. rewrite E in *. by split_and!. }
  cbn [qs_claimed qs_failed qs_retried] in *. pose proof (filter_split terminal jobs) as Hsplit.
  exists (q_id <$> jobs). rewrite length_fmap. split; [done|]. split; [unfold CLAIM_LIMIT; lia|]. split; [done|].
  split; [lia|]. split; [intros id Hid; rewrite H5 by done; by apply Hout|].
  intros id (job & -> & Hj)%list_elem_of_fmap. destruct (Hin _ Hj) as (_ & r & u & Hr & Hcl & E).
  exists r, (settled_queue_row sha256 double_of (clock (q_id job)) job job).
  assert (q_attempts job = q_attempts r + 1) as Ha by (by rewrite E).
  destruct (proj1 Hs _ _ Hr) as [_ [Hc _]]. apply queue_checks_iff in Hc as (_ & Hpos & _).
  assert (q_attempts r < QUEUE_MAX_ATTEMPTS) as Hlt.
  { unfold queue_claimable in Hcl. apply andb_true_iff in Hcl as [_ Hcl]. apply orb_true_iff in Hcl as [Hcl|Hcl]; bsimpl; lia. }
  split; [done|]. split; [done|]. split; [by rewrite H4|]. split; [done|]. split; [done|].
  split; cbn; unfold delay_seconds, terminal, QUEUE_MAX_ATTEMPTS in *.
  - destruct (Z.leb_spec 5 (q_attempts job)); split; intros ?; first [done | lia | exfalso; lia].
  - intros Hlt'. rewrite (proj2 (Z.leb_gt 5 (q_attempts job))) by lia. split; [done|].
    assert (q_attempts job = 1 \/ q_attempts job = 2 \/ q_attempts job = 3 \/ q_attempts job = 4) as Hcase by lia.
    destruct Hcase as [-> | [-> | [-> | ->]]]; (split; [reflexivity|]; split; apply Z.leb_le; reflexivity).
Qed.

(** ** Examples *)

Definition queue_message_example : OutboxTransportMessage :=
  {| msg_destination := "jobs"; msg_envelope := bse_envelope sync_envelope_example; msg_messageAttributes := [];
     msg_ledgerLink := None |}.

Definition numeric_example (text : string) : option string := Some text.

Definition queue_row_example : queue_row :=
  match message_row job_sha256_example message_double_example numeric_example 1000 queue_message_example with
  | Ok r => r
  | Err _ => queued_row 0 "" "" JNull JNull None
  end.

Definition queue_clock_example (t : Z) (_ : string) (_ : nat) : Z := t.

(** The only message dispatched. *)
Definition only_example (m : OutboxTransportMessage) : Prop := m = queue_message_example.

Notation queue_steps_example admitted :=
  (queue_step job_sha256_example message_double_example numeric_example String.eqb collate_example admitted).

Definition published_queue_example : job_queue := {[ job_uuid "4"%char := queue_row_example ]}.

Lemma message_row_example :
  message_row job_sha256_example message_double_example numeric_example 1000 queue_message_example = Ok queue_row_example.
Proof. vm_compute. reflexivity. Qed.

Lemma published_queue_reachable (admitted : OutboxTransportMessage -> Prop) : admitted queue_message_example ->
  rtc (queue_steps_example admitted) empty_queue {| qst_rows := published_queue_example; qst_flight := ∅ |}.
Proof.
  intros Ha. eapply rtc_l; [|apply rtc_refl].
  apply (Publishes _ _ _ _ _ _ empty_queue false ∅ 1000 queue_message_example (job_uuid "4"%char)); [done|].
  apply publish_ok. split; [done|]. split; [done|]. exists queue_row_example. split; [apply message_row_example|].
  split; [vm_compute; reflexivity|]. cbn [qst_rows empty_queue]. rewrite lookup_empty. done.
Qed.

Lemma example_sha256_hex m : HEX64_PATTERN (job_sha256_example m) = true.
Proof. vm_compute. reflexivity. Qed.

Lemma reviewed_message_example : reviewed_message job_sha256_example queue_message_example.
Proof.
  split; [|vm_compute; reflexivity].
  assert (parseJobEnvelope job_sha256_example (envelope_js (bse_envelope sync_envelope_example))
    = Some (bse_envelope sync_envelope_example)) as H by (vm_compute; reflexivity).
  exact (parseJobEnvelope_wf _ _ _ example_sha256_hex H).
Qed.

Lemma numeric_example_ok : numeric_ok numeric_example.
Proof. by intros n _. Qed.

Lemma published_lookup : published_queue_example !! job_uuid "4"%char = Some queue_row_example.
Proof. apply lookup_singleton_eq. Qed.

Lemma queue_rows_sound_witness : q_id queue_row_example = job_uuid "4"%char /\ q_attempts queue_row_example <= 5.
Proof.
  destruct (queue_rows_sound job_sha256_example message_double_example numeric_example String.eqb collate_example
    only_example _ (published_queue_reachable only_example eq_refl) _ _ published_lookup) as (Hid & _ & Ha & _).
  split; [exact Hid | apply Ha].
Defined.

Lemma reviewed_jobs_never_invalid_witness :
  error_code job_sha256_example message_double_example queue_row_example = RAILWAY_JOB_HANDLER_DORMANT.
Proof.
  destruct (reviewed_jobs_never_invalid job_sha256_example message_double_example numeric_example String.eqb
    collate_example _ example_sha256_hex numeric_example_ok
    (published_queue_reachable (reviewed_message job_sha256_example) reviewed_message_example) _ _ published_lookup)
    as [Hv _].
  unfold error_code. rewrite Hv. reflexivity.
Defined.

Lemma publish_idempotent_witness :
  publish job_sha256_example message_double_example numeric_example String.eqb false published_queue_example
    published_queue_example 9000 queue_message_example = Ok (job_uuid "4"%char, published_queue_example).
Proof.
  apply (publish_idempotent job_sha256_example message_double_example numeric_example String.eqb collate_example
    only_example {| qst_rows := published_queue_example; qst_flight := ∅ |} queue_message_example queue_row_example 9000).
  - apply String.eqb_refl.
  - intros m m' -> ->. reflexivity.
  - exact (published_queue_reachable only_example eq_refl).
  - reflexivity.
  - exact published_lookup.
Defined.

(** Five claims, each by a worker that dies before it settles. *)
Definition claim_unheard (t : Z) (rows : job_queue) : job_queue :=
  (claimQueueBatch collate_example rows ∅ (queue_clock_example t) "worker").2.

Definition abandoned_queue : job_queue :=
  foldl (fun rows t => claim_unheard t rows) published_queue_example
    [1000; 40000000; 80000000; 120000000; 160000000].

Lemma unheard_run (admitted : OutboxTransportMessage -> Prop) ts rows :
  rtc (queue_steps_example admitted) {| qst_rows := rows; qst_flight := ∅ |}
    {| qst_rows := foldl (fun rows t => claim_unheard t rows) rows ts; qst_flight := ∅ |}.
Proof.
  revert rows. induction ts as [|t ts IH]; intros rows; [apply rtc_refl|]. cbn [foldl]. eapply rtc_l; [|apply IH].
  eapply (ClaimUnheard _ _ _ _ _ _ {| qst_rows := rows; qst_flight := ∅ |} "worker" ∅ (queue_clock_example t));
    [apply lookup_empty | apply surjective_pairing].
Qed.

Definition abandoned_state : queue_state := {| qst_rows := abandoned_queue; qst_flight := ∅ |}.

(** More than three years later, after another attempt to claim. *)
Definition later_state : queue_state :=
  {| qst_rows := claim_unheard 99000000000000 abandoned_queue; qst_flight := ∅ |}.

Lemma abandoned_reachable : rtc (queue_steps_example only_example) empty_queue abandoned_state.
Proof. etransitivity; [by apply published_queue_reachable | apply unheard_run]. Qed.

Lemma later_reachable : rtc (queue_steps_example only_example) abandoned_state later_state.
Proof.
  eapply rtc_l; [|apply rtc_refl].
  eapply (ClaimUnheard _ _ _ _ _ _ abandoned_state "worker" ∅ (queue_clock_example 99000000000000));
    [apply lookup_empty | apply surjective_pairing].
Qed.

Lemma abandoned_row : exists r, qst_rows abandoned_state !! job_uuid "4"%char = Some r /\ q_status r = PROCESSING /\
  q_attempts r = QUEUE_MAX_ATTEMPTS.
Proof. eexists. vm_compute. split; [reflexivity|]. split; reflexivity. Qed.

Lemma no_flight c jobs : qst_flight abandoned_state !! c = Some jobs -> job_uuid "4"%char ∉ q_id <$> jobs.
Proof. intros H. cbn in H. by rewrite lookup_empty in H. Qed.

Lemma lost_last_attempt_stuck_witness : exists r,
  qst_rows abandoned_state !! job_uuid "4"%char = Some r /\ q_status r = PROCESSING /\
  qst_rows later_state !! job_uuid "4"%char = Some r.
Proof.
  destruct abandoned_row as (r & Hr & Hs & Ha). exists r. split; [exact Hr|]. split; [exact Hs|].
  exact (lost_last_attempt_stuck _ _ _ _ _ _ _ _ _ _ abandoned_reachable Hr Hs Ha no_flight later_reachable).
Defined.

Lemma process_batch_settles_witness :
  exists summary rows', processBatch job_sha256_example message_double_example collate_example published_queue_example ∅
    (queue_clock_example 2000) (queue_clock_example 3000) "worker" = (summary, rows') /\
  qs_claimed summary = 1 /\ qs_failed summary + qs_retried summary = 1.
Proof.
  destruct (processBatch job_sha256_example message_double_example collate_example published_queue_example ∅
    (queue_clock_example 2000) (queue_clock_example 3000) "worker") as [summary rows'] eqn:E.
  exists summary, rows'. split; [reflexivity|].
  destruct (process_batch_settles _ _ numeric_example String.eqb _ only_example _ _ _ _ _ _ _
    (published_queue_reachable only_example eq_refl) E) as (ids & _ & _ & _ & H & _).
  assert (qs_claimed summary = 1) as Hc.
  { change summary with (summary, rows').1. rewrite <- E. vm_compute. reflexivity. }
  split; [exact Hc|]. rewrite H. exact Hc.
Defined.
