(* ===== verification/JobAdmission.v ===== *)
(** * Admission of jobs to the outbox
    (infrastructure/outbox/job-outbox.repository.ts, [insert];
    transactional-job-publisher.service.ts; and the function
    [enqueue_reviewed_job_v1] of
    database/migrations/0018-enforce-reviewed-job-outbox-admission.migration.ts)

    A job is checked twice on its way into the table: by the repository, on what
    the serialized message reads back as, and by the function, on the columns and
    on the rows the job refers to.  The theorems show that an admitted row is
    claimed again as a reviewed message, and that the function's checks of the
    columns refuse nothing the repository let through but timestamps outside the
    years 1 to 9999.

    [timestamptz] is the cast of a text, [utc_text] prints an instant as [to_char]
    does, [collate] compares texts and [jsonb_text] prints a column. *)

From stdpp Require Import base list strings gmap.
From Stdlib Require Import ZArith Lia Ascii.
From S2P Require Import Prelude Text JsValue JsDate JsCollections Digest Json JsonParse AssetRegistry ChainObservation LogContext LedgerIdempotency YieldOperation JobEnvelope JobMessage Jsonb BalanceSync ReviewedJob OutboxTable OutboxDispatcher JobQueue.

Open Scope Z_scope.

(** ** Conditions of SQL *)

(** [None] is unknown. *)
Notation sqlbool := (option bool).

Definition sql_and (a b : sqlbool) : sqlbool :=
  match a, b with
  | Some false, _ | _, Some false => Some false
  | Some true, Some true => Some true
  | _, _ => None
  end.

Definition sql_or (a b : sqlbool) : sqlbool :=
  match a, b with
  | Some true, _ | _, Some true => Some true
  | Some false, Some false => Some false
  | _, _ => None
  end.

(** [IF c1 OR c2 OR ... THEN RAISE]: raised when the condition is true. *)
Definition raises (conditions : list sqlbool) : bool :=
  match foldr sql_or (Some false) conditions with Some true => true | _ => false end.

(** [a IS DISTINCT FROM b] *)
Definition distinct_from {A} `{EqDecision A} (a b : A) : sqlbool := Some (negb (bool_decide (a = b))).

Definition sql_eq (a b : option string) : sqlbool := a ← a; b ← b; Some (String.eqb a b).
(** [text !~ pattern] and [text NOT IN texts] *)
Definition unlike (pattern : string -> bool) (text : option string) : sqlbool := (fun s => negb (pattern s)) <$> text.
Definition not_in (texts : list string) (text : option string) : sqlbool :=
  unlike (fun s => existsb (String.eqb s) texts) text.
Definition null {A} (a : option A) : sqlbool := Some (match a with None => true | Some _ => false end).
Definition sql_not_null {A} (a : option A) : sqlbool := Some (match a with None => false | Some _ => true end).
Definition holds (c : sqlbool) : bool := match c with Some b => b | None => false end.

(** ** Rows the function reads *)

(** uuids as text, instants in microseconds. *)
Record ledger_command_row : Type := {
  lcr_command_id : string;
  lcr_actor_account_id : string;
  lcr_outbox_id : string;
  lcr_operation : string;
}.

Record ledger_journal_row : Type := {
  ljr_journal_id : string;
  ljr_actor_account_id : string;
  ljr_economic_event_type : string;
}.

Record submission_row : Type := {
  sub_submission_id : string;
  sub_command_id : string;
  sub_operation_id : string;
  sub_outbox_id : string;
  sub_submission_target : string;
  sub_requested_at : Z;
}.

Record yield_command_row : Type := {
  ycr_command_id : string;
  ycr_actor_account_id : string;
  ycr_outbox_id : option string;
  ycr_command_kind : string;
  ycr_contract_version : Z;
}.

Record yield_result_row : Type := {
  yrr_command_id : string;
  yrr_operation_id : string;
  yrr_transition_event_id : string;
}.

Record yield_operation_row : Type := {
  yor_operation_id : string;
  yor_actor_account_id : string;
  yor_operation_type : string;
  yor_current_state : string;
  yor_ledger_transaction_id : string;
  yor_ledger_book_id : string;
  yor_plan_reference_id : string;
  yor_quote_reference_id : string;
}.

Record yield_transition_row : Type := {
  ytr_transition_event_id : string;
  ytr_operation_id : string;
  ytr_actor_account_id : string;
  ytr_ledger_transaction_id : string;
  ytr_ledger_book_id : string;
  ytr_previous_state : option string;
  ytr_next_state : string;
  ytr_reason_code : string;
  ytr_event_sequence : Z;
  ytr_ledger_journal_id : option string;
  ytr_correlation_id : string;
  ytr_recorded_at : Z;
}.

Record wallet_row : Type := {
  wal_wallet_id : string;
  wal_account_id : string;
  wal_status : string;
  wal_revoked_at : option Z;
  wal_registry_environment : string;
  wal_chain_namespace : string;
  wal_chain_reference : string;
}.

Record referenced_tables : Type := {
  ledger_command_idempotency : list ledger_command_row;
  ledger_journals : list ledger_journal_row;
  yield_operation_submissions : list submission_row;
  yield_operation_commands : list yield_command_row;
  yield_operation_command_results : list yield_result_row;
  yield_operations : list yield_operation_row;
  yield_operation_transition_events : list yield_transition_row;
  registered_wallets : list wallet_row;
}.

(** ** The function *)

(** Its parameters; the two columns have been cast. *)
Record admission_call : Type := {
  requested_id : string;
  requested_destination : string;
  requested_envelope : json;
  requested_message_attributes : json;
  requested_ledger_command_id : option string;
  requested_ledger_journal_id : option string;
}.

Section function.
Context (numeric_eqb : string -> string -> bool) (jsonb_text : json -> string).
Context (timestamptz : string -> option Z) (utc_text : Z -> string) (collate : string -> string -> Z).

(** [j -> k] *)
Definition member (k : string) (j : option json) : option json :=
  match j with
  | Some (JObject l) => snd <$> List.find (fun kv => String.eqb k kv.1) l
  | _ => None
  end.

(** [j #>> '{}'] *)
Definition json_text (j : json) : option string :=
  match j with
  | JNull => None
  | JString s => Some s
  | JNumeral text => Some text
  | _ => Some (jsonb_text j)
  end.

(** [j ->> k] *)
Definition member_text (k : string) (j : option json) : option string := v ← member k j; json_text v.

Definition jsonb_typeof (j : option json) : option string :=
  (fun j => match j with
            | JNull => "null" | JBool _ => "boolean" | JNumber _ | JNumeral _ => "number"
            | JString _ => "string" | JArray _ => "array" | JObject _ => "object"
            end) <$> j.

(** [jsonb_object_keys(j)], [j ? k] and [j ?& ks] of an object *)
Definition object_keys (j : option json) : list string :=
  match j with
  | Some (JObject l) => l.*1
  | _ => []
  end.
Definition has_key (k : string) (j : option json) : bool := bool_decide (k ∈ object_keys j).
Definition count_keys (j : option json) : Z := Z.of_nat (length (object_keys j)).
Definition lacks_keys (ks : list string) (j : option json) : sqlbool := Some (negb (forallb (fun k => has_key k j) ks)).

Definition not_type (t : string) (j : option json) : sqlbool := distinct_from (jsonb_typeof j) (Some t).
(** [j IS DISTINCT FROM k::jsonb] *)
Definition not_json (k : json) (j : option json) : sqlbool :=
  Some (match j with Some j => negb (jsonb_eqb numeric_eqb j k) | None => true end).

Fixpoint ltrim (s : string) : string :=
  match s with
  | String c s' => if Ascii.eqb c " " then ltrim s' else s
  | EmptyString => EmptyString
  end.

(** Without trailing spaces. *)
Fixpoint rtrim (s : string) : string :=
  match s with
  | String c s' =>
      match rtrim s' with
      | EmptyString => if Ascii.eqb c " " then EmptyString else String c EmptyString
      | t => String c t
      end
  | EmptyString => EmptyString
  end.

Definition btrim (s : string) : string := ltrim (rtrim s).

Section call.
Context (c : admission_call).
Notation envelope := (Some (requested_envelope c)).
Notation contract_payload := (member "payload" envelope).
Notation correlation_state := (member "correlation" envelope).
Notation envelope_correlation_id := (member_text "correlationId" correlation_state).

Definition shape_rejected : bool := raises [
  distinct_from (requested_destination c) "jobs";
  not_type "object" envelope;
  not_type "object" (Some (requested_message_attributes c));
  distinct_from (count_keys envelope) 6;
  lacks_keys ["id"; "kind"; "version"; "occurredAt"; "correlation"; "payload"] envelope;
  not_type "string" (member "id" envelope);
  distinct_from (member_text "id" envelope) (Some (requested_id c));
  Some (negb ((1 <=? strlen (requested_id c)) && (strlen (requested_id c) <=? 128)));
  distinct_from (btrim (requested_id c)) (requested_id c);
  not_type "string" (member "kind" envelope);
  not_type "number" (member "version" envelope);
  not_json (JNumeral "1") (member "version" envelope);
  not_type "string" (member "occurredAt" envelope);
  not_type "object" correlation_state;
  not_type "object" contract_payload].

(** [occurred_at::timestamptz]; an error is caught, and raises too. *)
Definition occurred_at : option Z := s ← member_text "occurredAt" envelope; timestamptz s.

Definition envelope_rejected : bool := raises [
  not_in ["ledger.journal-committed"; "yield.operation.submit"; "blockchain.balance-sync"] (member_text "kind" envelope);
  unlike TIMESTAMP_PATTERN (member_text "occurredAt" envelope);
  null occurred_at;
  distinct_from (utc_text <$> occurred_at) (member_text "occurredAt" envelope);
  Some (negb (has_key "correlationId" correlation_state));
  Some (negb ((1 <=? count_keys correlation_state) && (count_keys correlation_state <=? 7)));
  Some (existsb (fun name => negb (existsb (String.eqb name) CORRELATION_KEYS)) (object_keys correlation_state));
  not_type "string" (member "correlationId" correlation_state)].

Definition correlation_rejected : bool :=
  raises [unlike isSafeCorrelationId envelope_correlation_id]
  || existsb (fun optional_key => raises [
       sql_and (Some (has_key optional_key correlation_state))
         (sql_or (not_type "string" (member optional_key correlation_state))
                 (unlike UUID_V4_PATTERN (member_text optional_key correlation_state)))]) OPTIONAL_CORRELATION_KEYS
  || raises [
       sql_and (Some (has_key "requestId" correlation_state))
         (distinct_from (member_text "requestId" correlation_state) envelope_correlation_id);
       sql_and (String.prefix "legacy:" <$> envelope_correlation_id) (distinct_from (count_keys correlation_state) 1)].

(** *** ledger.journal-committed *)

Definition ledger_rejected : bool := raises [
  distinct_from (count_keys contract_payload) 2;
  lacks_keys ["journalId"; "operation"] contract_payload;
  not_type "string" (member "journalId" contract_payload);
  unlike UUID_V4_PATTERN (member_text "journalId" contract_payload);
  not_type "string" (member "operation" contract_payload);
  not_in ["POST_JOURNAL"; "REVERSE_JOURNAL"] (member_text "operation" contract_payload);
  distinct_from (member_text "ledgerEventId" correlation_state) (member_text "journalId" contract_payload);
  not_json (JObject []) (Some (requested_message_attributes c));
  null (requested_ledger_command_id c);
  null (requested_ledger_journal_id c);
  unlike UUID_V4_PATTERN (requested_ledger_command_id c);
  unlike UUID_V4_PATTERN (requested_ledger_journal_id c);
  distinct_from (requested_ledger_journal_id c) (member_text "journalId" contract_payload)].

Definition ledger_referenced (db : referenced_tables) : bool :=
  existsb (fun command => existsb (fun journal =>
      bool_decide (requested_ledger_journal_id c = Some (ljr_journal_id journal))
      && String.eqb (ljr_actor_account_id journal) (lcr_actor_account_id command)
      && bool_decide (requested_ledger_command_id c = Some (lcr_command_id command))
      && String.eqb (lcr_outbox_id command) (requested_id c)
      && bool_decide (member_text "operation" contract_payload = Some (lcr_operation command))
      && ((String.eqb (lcr_operation command) "POST_JOURNAL"
           && negb (String.eqb (ljr_economic_event_type journal) "REVERSAL"))
          || (String.eqb (lcr_operation command) "REVERSE_JOURNAL"
              && String.eqb (ljr_economic_event_type journal) "REVERSAL")))
    (ledger_journals db)) (ledger_command_idempotency db).

(** *** yield.operation.submit *)

Definition YIELD_UUID_KEYS : list string :=
  ["submissionId"; "operationId"; "ledgerTransactionId"; "planReferenceId"; "quoteReferenceId"].

Definition yield_rejected : bool := raises [
  distinct_from (count_keys contract_payload) 6;
  lacks_keys YIELD_PAYLOAD_KEYS contract_payload;
  Some (existsb (fun k => holds (sql_or (not_type "string" (member k contract_payload))
                                        (unlike UUID_V4_PATTERN (member_text k contract_payload))))
          (List.filter (fun k => existsb (String.eqb k) YIELD_UUID_KEYS) (object_keys contract_payload)));
  not_type "string" (member "operationType" contract_payload);
  not_in ["ALLOCATE"; "WITHDRAW"; "REBALANCE"] (member_text "operationType" contract_payload);
  distinct_from (Some (requested_id c)) (member_text "submissionId" contract_payload);
  distinct_from (member_text "transactionId" correlation_state) (member_text "ledgerTransactionId" contract_payload);
  distinct_from (member_text "quoteId" correlation_state) (member_text "quoteReferenceId" contract_payload);
  not_json (JObject [("operationType",
      match member_text "operationType" contract_payload with Some s => JString s | None => JNull end)])
    (Some (requested_message_attributes c));
  sql_not_null (requested_ledger_command_id c);
  sql_not_null (requested_ledger_journal_id c)].

Definition latest_sequence (db : referenced_tables) (operationId : string) : option Z :=
  foldr (fun t latest => if String.eqb (ytr_operation_id t) operationId
                         then Some (Z.max (ytr_event_sequence t) (default (ytr_event_sequence t) latest)) else latest)
    None (yield_operation_transition_events db).

Definition submission_matches (db : referenced_tables) (s : submission_row) (command : yield_command_row)
    (r : yield_result_row) (operation : yield_operation_row) (transition : yield_transition_row) : bool :=
  String.eqb (ycr_command_id command) (sub_command_id s)
  && String.eqb (yrr_command_id r) (ycr_command_id command) && String.eqb (yrr_operation_id r) (sub_operation_id s)
  && String.eqb (yor_operation_id operation) (sub_operation_id s)
  && String.eqb (ytr_transition_event_id transition) (yrr_transition_event_id r)
  && String.eqb (ytr_operation_id transition) (yor_operation_id operation)
  && String.eqb (ytr_actor_account_id transition) (yor_actor_account_id operation)
  && String.eqb (ytr_ledger_transaction_id transition) (yor_ledger_transaction_id operation)
  && String.eqb (ytr_ledger_book_id transition) (yor_ledger_book_id operation)
  && String.eqb (sub_submission_id s) (requested_id c) && String.eqb (sub_outbox_id s) (requested_id c)
  && String.eqb (sub_submission_target s) "PROVIDER_OR_CHAIN_ADAPTER"
  && bool_decide (ycr_outbox_id command = Some (requested_id c))
  && String.eqb (ycr_actor_account_id command) (yor_actor_account_id operation)
  && String.eqb (ycr_command_kind command) "TRANSITION" && (ycr_contract_version command =? 1)
  && holds (sql_eq (Some (yor_operation_id operation)) (member_text "operationId" contract_payload))
  && String.eqb (yor_current_state operation) "SUBMITTED"
  && holds (sql_eq (Some (yor_operation_type operation)) (member_text "operationType" contract_payload))
  && holds (sql_eq (Some (yor_ledger_transaction_id operation)) (member_text "ledgerTransactionId" contract_payload))
  && holds (sql_eq (Some (yor_plan_reference_id operation)) (member_text "planReferenceId" contract_payload))
  && holds (sql_eq (Some (yor_quote_reference_id operation)) (member_text "quoteReferenceId" contract_payload))
  && bool_decide (ytr_previous_state transition = Some "USER_APPROVED")
  && String.eqb (ytr_next_state transition) "SUBMITTED"
  && String.eqb (ytr_reason_code transition) "SUBMISSION_RECORDED"
  && bool_decide (latest_sequence db (yor_operation_id operation) = Some (ytr_event_sequence transition))
  && bool_decide (ytr_ledger_journal_id transition = None)
  && holds (sql_eq (Some (ytr_correlation_id transition)) envelope_correlation_id)
  && holds (sql_eq (member_text "initiatorActorId" correlation_state) (Some (yor_actor_account_id operation)))
  && (sub_requested_at s =? ytr_recorded_at transition)
  && bool_decide (Some (ytr_recorded_at transition / 1000 * 1000) = occurred_at).

Definition yield_referenced (db : referenced_tables) : bool :=
  existsb (fun s => existsb (fun command => existsb (fun r => existsb (fun operation => existsb (fun transition =>
      submission_matches db s command r operation transition)
    (yield_operation_transition_events db)) (yield_operations db)) (yield_operation_command_results db))
    (yield_operation_commands db)) (yield_operation_submissions db).

(** *** blockchain.balance-sync *)

Definition attempt_pattern (s : string) : bool := existsb (String.eqb s) ["1"; "2"; "3"].

Definition sync_payload_rejected : bool := raises [
  distinct_from (count_keys contract_payload) 8;
  lacks_keys PAYLOAD_KEYS contract_payload;
  not_type "number" (member "schemaVersion" contract_payload);
  not_json (JNumeral "1") (member "schemaVersion" contract_payload);
  not_type "string" (member "accountId" contract_payload);
  unlike UUID_V4_PATTERN (member_text "accountId" contract_payload);
  not_type "string" (member "walletId" contract_payload);
  unlike UUID_V4_PATTERN (member_text "walletId" contract_payload);
  not_type "string" (member "networkId" contract_payload);
  not_in MAINNET_LAUNCH_NETWORK_IDS (member_text "networkId" contract_payload);
  not_type "string" (member "requiredTier" contract_payload);
  not_in ["PROVISIONAL"; "CANONICAL"; "FINANCIAL"] (member_text "requiredTier" contract_payload);
  not_type "string" (member "cause" contract_payload);
  not_in ["SCHEDULED"; "RETRY"; "MANUAL_RECOVERY"] (member_text "cause" contract_payload);
  not_type "number" (member "attempt" contract_payload);
  unlike attempt_pattern (member_text "attempt" contract_payload);
  not_in ["null"; "string"] (jsonb_typeof (member "rescanFromPosition" contract_payload));
  not_json (JObject []) (Some (requested_message_attributes c));
  sql_not_null (requested_ledger_command_id c);
  sql_not_null (requested_ledger_journal_id c)].

Definition rescan_text : option string := member_text "rescanFromPosition" contract_payload.

(** [^(?:0|[1-9][0-9]{0,77})$] *)
Definition POSITION_PATTERN (s : string) : bool := UNSIGNED_INTEGER_PATTERN s && (strlen s <=? 78).

Definition rescan_rejected : bool := raises [
  sql_and (sql_not_null rescan_text)
    (sql_or (unlike POSITION_PATTERN rescan_text)
      (sql_or ((fun s => 78 <? strlen s) <$> rescan_text)
         (sql_and ((fun s => strlen s =? 78) <$> rescan_text)
                  ((fun s => 0 <? collate s MAX_UINT256_TEXT) <$> rescan_text))))].

Definition cause_rejected : bool := raises [
  sql_and (sql_eq (member_text "cause" contract_payload) (Some "SCHEDULED"))
    (sql_or (unlike (String.eqb "1") (member_text "attempt" contract_payload)) (sql_not_null rescan_text));
  sql_and (sql_eq (member_text "cause" contract_payload) (Some "RETRY"))
    ((fun s => BigInt s <? 2) <$> member_text "attempt" contract_payload);
  sql_and (sql_eq (member_text "cause" contract_payload) (Some "MANUAL_RECOVERY")) (null rescan_text)].

Definition wallet_referenced (db : referenced_tables) : bool :=
  existsb (fun wallet =>
      holds (sql_eq (Some (wal_wallet_id wallet)) (member_text "walletId" contract_payload))
      && holds (sql_eq (Some (wal_account_id wallet)) (member_text "accountId" contract_payload))
      && String.eqb (wal_status wallet) "ACTIVE" && bool_decide (wal_revoked_at wallet = None)
      && String.eqb (wal_registry_environment wallet) "MAINNET"
      && ((holds (sql_eq (member_text "networkId" contract_payload) (Some "eip155:1"))
           && String.eqb (wal_chain_namespace wallet) "eip155" && String.eqb (wal_chain_reference wallet) "1")
          || (holds (sql_eq (member_text "networkId" contract_payload) (Some "solana:5eykt4UsFv8P8NJdTREpY1vzqKqZKvdp"))
              && String.eqb (wal_chain_namespace wallet) "solana"
              && String.eqb (wal_chain_reference wallet) "5eykt4UsFv8P8NJdTREpY1vzqKqZKvdp")))
    (registered_wallets db).

(** *** The checks together *)

Definition envelope_kind : option string := member_text "kind" envelope.

(** What the columns say. *)
Definition columns_accepted : bool :=
  negb shape_rejected && negb envelope_rejected && negb correlation_rejected
  && if bool_decide (envelope_kind = Some "ledger.journal-committed") then negb ledger_rejected
     else if bool_decide (envelope_kind = Some "yield.operation.submit") then negb yield_rejected
     else negb sync_payload_rejected && negb rescan_rejected && negb cause_rejected.

(** What other tables say. *)
Definition referenced (db : referenced_tables) : bool :=
  if bool_decide (envelope_kind = Some "ledger.journal-committed") then ledger_referenced db
  else if bool_decide (envelope_kind = Some "yield.operation.submit") then yield_referenced db
  else wallet_referenced db.

(** The link is written for journals only. *)
Definition admitted_link : option LedgerOutboxLink :=
  if bool_decide (envelope_kind = Some "ledger.journal-committed") then
    commandId ← requested_ledger_command_id c;
    journalId ← requested_ledger_journal_id c;
    Some {| link_commandId := commandId; link_journalId := journalId |}
  else None.

(** [None]: the function raised. *)
Definition enqueue_reviewed_job_v1 (db : referenced_tables) (rows : gmap string (job_row json)) (now : Z)
    : option (gmap string (job_row json)) :=
  if columns_accepted && referenced db then
    to_option (insert_job rows
      (new_row now (requested_id c) (requested_envelope c) (requested_message_attributes c) admitted_link))
  else None.
End call.
End function.

(** ** The repository *)

Inductive insert_error : Type :=
| NO_TRANSACTION
| INVALID_JOB (code : option ReviewedJobContractPolicyErrorCode)
| PERSISTENCE_FAILED.

(** The values of the statement: the two columns as the texts that are cast. *)
Record insert_parameters : Type := {
  ip_id : string;
  ip_destination : string;
  ip_envelope : string;
  ip_attributes : string;
  ip_link : option LedgerOutboxLink;
}.

Definition NEW_OUTBOX_JOB_KEYS : list string := ["destination"; "envelope"; "messageAttributes"; "ledgerLink"].

(** The record of the fields; an absent link is [undefined]. *)
Definition parseNewOutboxJob (value : jsval) : option jsrec :=
  descriptors ← plain_descriptors value;
  if (length descriptors <? 3)%nat || (4 <? length descriptors)%nat then None
  else data_record ["destination"; "envelope"; "messageAttributes"] ["ledgerLink"] value.

(** Two own properties of any enumerability, both data. *)
Definition parseLedgerOutboxLink (value : jsval) : option (option LedgerOutboxLink) :=
  match value with
  | VUndef => Some None
  | _ =>
      descriptors ← plain_descriptors value;
      if negb (length descriptors =? 2)%nat
         || negb (bool_decide (is_Some (descriptor descriptors "commandId")))
         || negb (bool_decide (is_Some (descriptor descriptors "journalId"))) then None
      else
        commandId ← canonical_uuid (value_of descriptors "commandId");
        journalId ← canonical_uuid (value_of descriptors "journalId");
        Some (Some {| link_commandId := commandId; link_journalId := journalId |})
  end.

Definition link_field (link : option LedgerOutboxLink) : list (string * jsval) :=
  match link with
  | Some link => link_fields (link_commandId link) (link_journalId link)
  | None => []
  end.

Section insert.
Context (sha256 : string -> string) (double_of : string -> jsnum) (numeric : string -> option string).
Context (numeric_eqb : string -> string -> bool) (jsonb_text : json -> string).
Context (timestamptz : string -> option Z) (utc_text : Z -> string) (collate : string -> string -> Z).

(** Everything in the first [try]; only a code of the policy leaves it. *)
Definition checked_parameters (job : jsval) : result (option ReviewedJobContractPolicyErrorCode) insert_parameters :=
  let* parsedJob := or_throw (parseNewOutboxJob job) None in
  let* ledgerLink := or_throw (parseLedgerOutboxLink (parsedJob .: "ledgerLink")) None in
  let* serialized := or_throw (to_option (serializeJobMessage sha256 double_of (parsedJob .: "envelope")
                                (parsedJob .: "messageAttributes"))) None in
  let* body := or_throw (JSON_PARSE double_of (msg_body serialized)) None in
  let* persistedEnvelope := or_throw (parseJobEnvelope sha256 body) None in
  let* _ := rlift Some (assertReviewedOutboxJob sha256 (js_object
      ([("destination", parsedJob .: "destination"); ("envelope", envelope_js persistedEnvelope);
        ("messageAttributes", attributes_js (msg_attributes serialized))] ++ link_field ledgerLink))) in
  Ok {| ip_id := env_id persistedEnvelope; ip_destination := "jobs"; ip_envelope := msg_body serialized;
        ip_attributes := stringify (attributes_json (msg_attributes serialized)); ip_link := ledgerLink |}.

(** The casts of the statement. *)
Definition statement_call (p : insert_parameters) : option admission_call :=
  envelope ← jsonb_in numeric (ip_envelope p);
  attrs ← jsonb_in numeric (ip_attributes p);
  Some {| requested_id := ip_id p; requested_destination := ip_destination p; requested_envelope := envelope;
          requested_message_attributes := attrs; requested_ledger_command_id := link_commandId <$> ip_link p;
          requested_ledger_journal_id := link_journalId <$> ip_link p |}.

Definition insert (hasActiveTransaction : bool) (db : referenced_tables) (rows : gmap string (job_row json)) (now : Z)
    (job : jsval) : result insert_error (gmap string (job_row json)) :=
  reject NO_TRANSACTION when negb hasActiveTransaction in
  let* p := rlift INVALID_JOB (checked_parameters job) in
  or_throw (c ← statement_call p;
            enqueue_reviewed_job_v1 numeric_eqb jsonb_text timestamptz utc_text collate c db rows now)
    PERSISTENCE_FAILED.

(** ** The publisher *)

(** A request of plain properties; [ledgerLink] may be an accessor. *)
Record EnqueueRequest : Type := {
  rq_kind : string;
  rq_payload : jsval;
  rq_id : option string;
  rq_version : jsval;
  rq_occurredAt : option string;
  rq_correlation : jsval;
  rq_destination : jsval;
  rq_messageAttributes : jsval;
  rq_ledgerLink : option jsdesc;
}.

Inductive enqueue_error : Type :=
| INVALID_LINK
| ENVELOPE_FAILED (e : envelope_error)
| INSERT_FAILED (e : insert_error).

(** [value ? { key: value } : {}] and [value === undefined ? {} : { key: value }] *)
Definition truthy_field (key : string) (value : option string) : list (string * jsval) :=
  match value with
  | Some s => if String.eqb s "" then [] else [(key, VStr s)]
  | None => []
  end.
Definition defined_field (key : string) (value : jsval) : list (string * jsval) :=
  if is_undefined value then [] else [(key, value)].
(** [value ?? default] *)
Definition nullish (value default : jsval) : jsval :=
  match value with
  | VUndef | VNull => default
  | _ => value
  end.

Definition request_options (request : EnqueueRequest) : jsval :=
  js_object (truthy_field "id" (rq_id request) ++ defined_field "version" (rq_version request)
             ++ truthy_field "occurredAt" (rq_occurredAt request)
             ++ defined_field "correlation" (rq_correlation request)).

Definition new_job (request : EnqueueRequest) (envelope : JobEnvelope) (ledgerLink : jsval) : jsval :=
  js_object ([("destination", nullish (rq_destination request) (VStr "jobs")); ("envelope", envelope_js envelope);
              ("messageAttributes", nullish (rq_messageAttributes request) (js_object []))]
             ++ defined_field "ledgerLink" ledgerLink).

(** [active], [uuid], [uuid'] and [now] are those of [createJobEnvelope]; [now]
    is in milliseconds, [clock] is the database's. *)
Definition enqueue (active : option LogCorrelationContext) (uuid uuid' : string) (now : Z)
    (hasActiveTransaction : bool) (db : referenced_tables) (rows : gmap string (job_row json)) (clock : Z)
    (request : EnqueueRequest) : result enqueue_error (JobEnvelope * gmap string (job_row json)) :=
  let* ledgerLink := match rq_ledgerLink request with
                     | Some (DAccessor _) => Err INVALID_LINK
                     | Some (DData v _) => Ok v
                     | None => Ok VUndef
                     end in
  let* envelope := rlift ENVELOPE_FAILED
    (createJobEnvelope active uuid uuid' now (rq_kind request) (rq_payload request) (request_options request)) in
  let* rows := rlift INSERT_FAILED
    (insert hasActiveTransaction db rows clock (new_job request envelope ledgerLink)) in
  Ok (envelope, rows).
End insert.

(** ** Lemmas: payloads as records *)

Lemma ledger_record v p : ledgerPayload v = Ok p -> exists r, exact_data_record LEDGER_PAYLOAD_KEYS v = Some r /\
  r .: "journalId" = VStr (lp_journalId p) /\ UUID_V4_PATTERN (lp_journalId p) = true /\
  r .: "operation" = VStr (enum_str (lp_operation p)).
Proof.
  unfold ledgerPayload, exactDataRecord. intros H. apply rbind_ok in H as (r & Hr%or_throw_ok & H%or_throw_ok).
  apply bind_Some in H as (j & [Hj Hu]%canonical_uuid_ok & H). apply bind_Some in H as (op & Hop%enum_member_all & [= <-]).
  by exists r.
Qed.

Record yield_fields (r : jsrec) (p : YieldPayload) : Prop := {
  yf_uuids : forall k, k ∈ YIELD_UUID_KEYS -> exists s, r .: k = VStr s /\ UUID_V4_PATTERN s = true;
  yf_submission : r .: "submissionId" = VStr (yp_submissionId p);
  yf_transaction : r .: "ledgerTransactionId" = VStr (yp_ledgerTransactionId p);
  yf_quote : r .: "quoteReferenceId" = VStr (yp_quoteReferenceId p);
  yf_type : r .: "operationType" = VStr (enum_str (yp_operationType p));
}.

Lemma yield_record v p : yieldPayload v = Ok p ->
  exists r, exact_data_record YIELD_PAYLOAD_KEYS v = Some r /\ yield_fields r p.
Proof.
  unfold yieldPayload, exactDataRecord. intros H. apply rbind_ok in H as (r & Hr%or_throw_ok & H%or_throw_ok).
  apply bind_Some in H as (a & [Ha Ha']%canonical_uuid_ok & H). apply bind_Some in H as (b & [Hb Hb']%canonical_uuid_ok & H).
  apply bind_Some in H as (c & [Hc Hc']%canonical_uuid_ok & H). apply bind_Some in H as (d & [Hd Hd']%canonical_uuid_ok & H).
  apply bind_Some in H as (e & [He He']%canonical_uuid_ok & H). apply bind_Some in H as (t & Ht%enum_member_all & [= <-]).
  exists r. split; [done|]. split; cbn; try done. intros k Hk. unfold YIELD_UUID_KEYS in Hk.
  repeat (apply elem_of_cons in Hk as [-> | Hk]; [eauto|]). by apply not_elem_of_nil in Hk.
Qed.

(** The members of a payload all read as [flat] values. *)
Lemma ledger_keys_flat r p : r .: "journalId" = VStr (lp_journalId p) -> r .: "operation" = VStr (enum_str (lp_operation p)) ->
  forall k, k ∈ LEDGER_PAYLOAD_KEYS -> flat (r .: k).
Proof.
  intros H1 H2 k Hk. unfold LEDGER_PAYLOAD_KEYS in Hk.
  repeat (apply elem_of_cons in Hk as [-> | Hk]; [by rewrite ?H1, ?H2|]). by apply not_elem_of_nil in Hk.
Qed.

Lemma yield_keys_flat r p : yield_fields r p -> forall k, k ∈ YIELD_PAYLOAD_KEYS -> flat (r .: k).
Proof.
  intros [Hu _ _ _ Ht] k Hk. destruct (decide (k = "operationType")) as [->|Hne]; [by rewrite Ht|].
  destruct (Hu k) as (s & -> & _); [|done]. unfold YIELD_PAYLOAD_KEYS in Hk. unfold YIELD_UUID_KEYS. set_solver.
Qed.

(** ** Lemmas: conditions *)

Lemma raises_false l : raises l = false <-> Forall (fun c => c <> Some true) l.
Proof.
  unfold raises. induction l as [|c l IH]; [by split|]. rewrite Forall_cons, <- IH. cbn [foldr].
  destruct c as [[]|], (foldr sql_or (Some false) l) as [[]|]; cbn; intuition congruence.
Qed.

Lemma not_distinct {A} `{EqDecision A} (a b : A) : a = b -> distinct_from a b <> Some true.
Proof. intros ->. unfold distinct_from. by rewrite bool_decide_eq_true_2. Qed.

Lemma like_not_unlike (pattern : string -> bool) text s : text = Some s -> pattern s = true -> unlike pattern text <> Some true.
Proof. intros -> H. cbn. by rewrite H. Qed.

Lemma in_not_not_in texts text s : text = Some s -> s ∈ texts -> not_in texts text <> Some true.
Proof.
  intros -> H. apply (like_not_unlike _ _ s); [done|]. apply existsb_exists. exists s. split; [by apply list_elem_of_In | apply String.eqb_refl].
Qed.

Lemma not_raised (b : bool) : b = false -> Some b <> Some true.
Proof. by intros ->. Qed.

Lemma trimmed s : trim s = s -> trim_start s = s /\ trim_end s = s.
Proof.
  intros H. assert (trim_start s = s) as Hs.
  { unfold trim in H. rewrite <- H at 1. rewrite trim_end_start, H; [done | apply trim_start_idem]. }
  split; [done|]. unfold trim in H. by rewrite Hs in H.
Qed.

Lemma trim_start_length s : (String.length (trim_start s) <= String.length s)%nat.
Proof. induction s as [|c s IH]; cbn; [lia|]. destruct (is_js_space c); cbn; lia. Qed.

Lemma ltrim_fixed s : trim_start s = s -> ltrim s = s.
Proof.
  destruct s as [|c s]; [done|]. cbn [trim_start ltrim]. destruct (is_js_space c) eqn:Ec.
  - intros H. pose proof (trim_start_length s) as Hl. rewrite H in Hl. cbn in Hl. lia.
  - intros _. destruct (Ascii.eqb_spec c " ") as [->|]; [by vm_compute in Ec | done].
Qed.

Lemma rtrim_fixed s : trim_end s = s -> rtrim s = s.
Proof.
  induction s as [|c s IH]; [done|]. cbn [trim_end rtrim]. destruct (trim_end s) as [|d r] eqn:E.
  - destruct (is_js_space c) eqn:Ec; [done|]. intros [= <-]. cbn.
    destruct (Ascii.eqb_spec c " ") as [->|]; [by vm_compute in Ec | done].
  - intros [= <-]. by rewrite IH.
Qed.

(** The spaces of SQL are spaces of JavaScript. *)
Lemma btrim_fixed s : trim s = s -> btrim s = s.
Proof. intros [H1 H2]%trimmed. unfold btrim. by rewrite rtrim_fixed, ltrim_fixed. Qed.

(** ** Lemmas: records and their columns *)

Lemma member_in ms k v : NoDup ms.*1 -> (k, v) ∈ ms -> member k (Some (JObject ms)) = Some v.
Proof.
  intros Hnd Hin. cbn [member]. induction ms as [|[k' v'] ms IH]; [by apply not_elem_of_nil in Hin|].
  rewrite fmap_cons in Hnd. apply NoDup_cons in Hnd as [Hk Hnd]. cbn [List.find fst] in *.
  destruct (String.eqb_spec k k') as [->|Hne].
  - apply elem_of_cons in Hin as [[= ->]|Hin]; [done|]. destruct Hk. by apply (list_elem_of_fmap_2 fst) in Hin.
  - apply elem_of_cons in Hin as [[= -> _]|Hin]; [done | by apply IH].
Qed.

Section columns.
Context (numeric : string -> option string) (double_of : string -> jsnum) (Hnumeric : numeric_ok numeric).
Notation js := (js_of_json double_of).

(** A record read from JSON is an object with those members. *)
Lemma record_members keys j r : keys <> [] -> exact_data_record keys (js j) = Some r ->
  exists l, j = JObject l /\ (forall k, k ∈ l.*1 <-> k ∈ keys) /\
    forall k, k ∈ keys -> exists v, last_member k l = Some v /\ js v = r .: k.
Proof.
  intros Hne Hr. destruct (exact_data_record_plain _ _ _ Hne Hr) as (p & ds & E & Hp & _).
  destruct j as [| | | | | |l]; try done. cbn [js_of_json] in E. injection E as <- E. exists l. split; [done|].
  unfold exact_data_record in Hr. cbn [js_of_json plain_descriptors is_object is_array get_prototype_of own_property_descriptors negb] in Hr.
  rewrite E in Hr. destruct (_ || _) eqn:Ek in Hr; [done|]. apply orb_false_iff in Ek as [_ Ek].
  assert (forall k, descriptor ds k = (fun v => DData v true) <$> (js <$> last_member k l)) as Hd.
  { intros k. by rewrite <- E, set_properties_descriptor, last_member_map. }
  assert (forall k, k ∈ keys -> exists v, last_member k l = Some v /\ js v = r .: k) as Hv.
  { intros k Hk. pose proof (read_keys_field _ _ _ _ Hr Hk) as Hf. unfold data_property in Hf. rewrite Hd in Hf.
    destruct (last_member k l) as [v|]; [|done]. cbn in Hf. injection Hf as Hf. by exists v. }
  split; [|done]. intros k. split.
  - intros Hk. apply last_member_in in Hk as [v Hkv]. specialize (Hd k). rewrite Hkv in Hd. cbn in Hd.
    apply descriptor_key, list_elem_of_fmap in Hd as (kd & Hkd & Hin).
    pose proof (proj1 (existsb_false _ _) Ek _ Hin) as Hk. cbn beta in Hk. rewrite <- Hkd in Hk. apply negb_false_iff in Hk. by apply key_in_spec.
  - intros Hk. destruct (Hv _ Hk) as (v & Hl & _). apply last_member_in. by rewrite Hl.
Qed.

(** The members of an object as a column. *)
Definition column_has (keys : list string) (r : jsrec) (pj : json) : Prop :=
  exists ms, pj = JObject ms /\ NoDup ms.*1 /\ ms.*1 ≡ₚ keys /\
    forall k, k ∈ keys -> (k, flat_json (r .: k)) ∈ ms.

Lemma record_column keys j r pj : keys <> [] -> NoDup keys -> as_printed double_of j ->
  exact_data_record keys (js j) = Some r -> (forall k, k ∈ keys -> flat (r .: k)) ->
  jsonb_of numeric j = Some pj -> column_has keys r pj.
Proof.
  intros Hne Hnd Hp Hr Hflat Hpj. destruct (record_members _ _ _ Hne Hr) as (l & -> & Hkeys & Hval).
  destruct (object_column _ _ _ Hpj) as (ms & -> & Hms & Hmk & Hmv). exists ms. split; [done|]. split; [done|]. split.
  - apply NoDup_Permutation; [done..|]. intros k. by rewrite Hmk, Hkeys.
  - intros k Hk. destruct (Hval _ Hk) as (v & Hl & Hjv). destruct (Hmv _ _ Hl) as (v' & Hv' & Hin).
    rewrite <- Hjv. erewrite <- flat_column; [exact Hin | exact Hnumeric | | by rewrite Hjv; apply Hflat | exact Hv'].
    apply as_printed_object in Hp. rewrite Forall_forall in Hp. apply (Hp (k, v)). by apply last_member_elem.
Qed.

(** Such a column is read back as the record. *)
Lemma column_record keys r pj : NoDup keys -> Forall (fun k => array_index k = None) keys -> r.*1 = keys ->
  (forall k, k ∈ keys -> flat (r .: k)) -> column_has keys r pj ->
  exact_data_record keys (jsonb_out double_of pj) = Some r.
Proof.
  intros Hnd Hidx Hrk Hflat (ms & -> & Hms & Hperm & Hval). unfold jsonb_out. cbn [js_of_json].
  set (kvs := (fun kv => (kv.1, js kv.2)) <$> ms).
  assert (kvs.*1 = ms.*1) as Hk by (unfold kvs; by rewrite <- list_fmap_compose).
  rewrite set_properties_literal.
  2:{ by rewrite Hk. }
  2:{ apply Forall_forall. intros kv Hin. apply (list_elem_of_fmap_2 fst) in Hin. rewrite Hk, Hperm in Hin.
      rewrite Forall_forall in Hidx. by apply Hidx. }
  assert (forall k, k ∈ keys -> (k, r .: k) ∈ kvs) as Hin.
  { intros k Hkk. apply list_elem_of_fmap. exists (k, flat_json (r .: k)). split; [|by apply Hval].
    cbn [fst snd]. f_equal. symmetry. apply flat_json_out. by apply Hflat. }
  unfold exact_data_record. cbn [plain_descriptors is_object is_array get_prototype_of own_property_descriptors negb].
  assert (length (literal_props kvs) = length keys) as ->.
  { unfold literal_props. by rewrite length_fmap, <- (length_fmap fst), Hk, Hperm. }
  rewrite Nat.eqb_refl. cbn [negb orb]. rewrite (proj2 (existsb_false _ _)).
  2:{ intros kd Hkd. apply (list_elem_of_fmap_2 fst) in Hkd. rewrite literal_props_keys, Hk in Hkd.
      apply list_elem_of_fmap in Hkd as (k & -> & Hkk). rewrite Hperm in Hkk. by rewrite (proj2 (key_in_spec _ _)). }
  assert (forall k, k ∈ keys -> data_property (literal_props kvs) k = Some (r .: k)) as Hd.
  { intros k Hkk. unfold data_property. rewrite (literal_descriptor kvs k (r .: k)); [done | by rewrite Hk | by apply Hin]. }
  by apply read_keys_all.
Qed.

Lemma column_members keys r pj : column_has keys r pj ->
  jsonb_typeof (Some pj) = Some "object" /\ object_keys (Some pj) ≡ₚ keys /\
  forall k, k ∈ keys -> member k (Some pj) = Some (flat_json (r .: k)).
Proof.
  intros (ms & -> & Hms & Hperm & Hval). split; [done|]. split; [done|]. intros k Hk. apply member_in; [done|]. by apply Hval.
Qed.

Lemma member_column l pj k v : jsonb_of numeric (JObject l) = Some pj -> NoDup l.*1 -> (k, v) ∈ l ->
  exists v', jsonb_of numeric v = Some v' /\ member k (Some pj) = Some v'.
Proof.
  intros Hpj Hnd Hin. destruct (object_column _ _ _ Hpj) as (ms & -> & Hms & _ & Hv).
  destruct (Hv _ _ (last_member_NoDup _ _ _ Hnd Hin)) as (v' & Hv' & Hm). exists v'. split; [done|]. by apply member_in.
Qed.

Lemma keys_column l pj : jsonb_of numeric (JObject l) = Some pj -> NoDup l.*1 ->
  jsonb_typeof (Some pj) = Some "object" /\ object_keys (Some pj) ≡ₚ l.*1.
Proof.
  intros Hpj Hnd. destruct (object_column _ _ _ Hpj) as (ms & -> & Hms & Hk & _). split; [done|].
  by apply NoDup_Permutation.
Qed.

(** The columns of an envelope. *)
Definition ENVELOPE_COLUMN_KEYS : list string := ["id"; "kind"; "version"; "occurredAt"; "correlation"; "payload"].

Record envelope_columns (e : JobEnvelope) (ej cj pj : json) : Prop := {
  col_object : jsonb_typeof (Some ej) = Some "object";
  col_keys : object_keys (Some ej) ≡ₚ ENVELOPE_COLUMN_KEYS;
  col_id : member "id" (Some ej) = Some (JString (env_id e));
  col_kind : member "kind" (Some ej) = Some (JString (env_kind e));
  col_version : member "version" (Some ej) = Some (JNumeral (toString (env_version e)));
  col_occurredAt : member "occurredAt" (Some ej) = Some (JString (env_occurredAt e));
  col_correlation : member "correlation" (Some ej) = Some cj;
  col_payload : member "payload" (Some ej) = Some pj;
}.

Lemma string_column s j : jsonb_of numeric (JString s) = Some j -> j = JString s.
Proof. cbn. destruct (has_nul s); [done|]. by intros [= <-]. Qed.

Lemma envelope_column e payload ej : envelope_wf e -> jsonb_of numeric (numerals (envelope_json e payload)) = Some ej ->
  exists cj pj, jsonb_of numeric (numerals (correlation_json (env_correlation e))) = Some cj /\
    jsonb_of numeric (numerals payload) = Some pj /\ envelope_columns e ej cj pj.
Proof.
  intros He. unfold envelope_json. cbn [numerals fmap list_fmap fst snd]. set (l := [_; _; _; _; _; _]). intros H.
  assert (NoDup l.*1) as Hnd by (apply (bool_decide_eq_true_1 _); vm_compute; reflexivity).
  assert (forall k s, (k, JString s) ∈ l -> member k (Some ej) = Some (JString s)) as Hs.
  { intros k s Hin. destruct (member_column _ _ _ _ H Hnd Hin) as (v & Hv & ->). by rewrite (string_column _ _ Hv). }
  destruct (member_column l ej "payload" (numerals payload) H Hnd ltac:(unfold l; solve_elem)) as (pj & Hp & Hmp).
  destruct (member_column l ej "version" (JNumeral (toString (env_version e))) H Hnd ltac:(unfold l; solve_elem)) as (vj & Hv & Hmv).
  destruct (member_column l ej "correlation" (numerals (correlation_json (env_correlation e))) H Hnd ltac:(unfold l; solve_elem)) as (cj & Hc & Hmc).
  exists cj, pj. split; [done|]. split; [done|]. destruct (keys_column _ _ H Hnd) as [Ht Hk].
  destruct He as (_ & _ & Hver & _). cbn [jsonb_of] in Hv. rewrite Hnumeric in Hv by lia. injection Hv as <-.
  split; try done; apply Hs; unfold l; solve_elem.
Qed.

(** The columns of a correlation: the identifiers that are set. *)
Lemma correlation_column c cj : correlation_ok c -> jsonb_of numeric (numerals (correlation_json c)) = Some cj ->
  jsonb_typeof (Some cj) = Some "object" /\
  NoDup (object_keys (Some cj)) /\
  (forall k, k ∈ object_keys (Some cj) <-> is_Some (c !! k)) /\
  forall k, member k (Some cj) = JString <$> c !! k.
Proof.
  intros Hc. rewrite correlation_members. set (l := omap _ CORRELATION_KEYS). intros H.
  assert (NoDup l.*1) as Hnd by apply keyed_names_NoDup, CORRELATION_KEYS_NoDup.
  assert (forall k, is_Some (c !! k) -> k ∈ CORRELATION_KEYS) as Hin.
  { destruct Hc as (root & _ & _ & Hk & _). intros k [v Hv]. destruct (Hk _ _ Hv) as [->|[Hk' _]]; [left | by right]. }
  assert (forall k v, (k, v) ∈ l <-> exists s, c !! k = Some s /\ v = JString s) as Hl.
  { intros k v. unfold l. rewrite list_elem_of_omap. split.
    - intros (key & Hkey & E). destruct (c !! key) eqn:Ek; [|done]. injection E as <- <-. eauto.
    - intros (s & Hs & ->). exists k. split; [apply Hin; eauto | by rewrite Hs]. }
  destruct (keys_column _ _ H Hnd) as [Ht Hk]. split; [done|]. split; [by rewrite Hk|].
  assert (forall k, k ∈ object_keys (Some cj) <-> is_Some (c !! k)) as Hkeys.
  { intros k. rewrite Hk. split.
    - intros ([k' v] & -> & (s & Hs & _)%Hl)%list_elem_of_fmap. eauto.
    - intros [s Hs]. assert ((k, JString s) ∈ l) as Hkl by (apply Hl; eauto). by apply (list_elem_of_fmap_2 fst) in Hkl. }
  split; [done|]. intros k. destruct (c !! k) as [s|] eqn:Es; cbn [fmap option_fmap option_map].
  - destruct (member_column _ _ k (JString s) H Hnd) as (v & Hv & ->); [apply Hl; eauto|].
    by rewrite (string_column _ _ Hv).
  - destruct (member k (Some cj)) as [v|] eqn:Em; [|done]. unfold member in Em. destruct cj as [| | | | | |ms]; try done.
    destruct (List.find _ ms) as [[k' v']|] eqn:Ef; [|done]. apply find_some in Ef as [Hms Eq].
    cbn [fst] in Eq. apply String.eqb_eq in Eq as <-. apply list_elem_of_In, (list_elem_of_fmap_2 fst) in Hms.
    apply Hkeys in Hms as [s Hs]. cbn in Hs. congruence.
Qed.
End columns.

(** ** Lemmas: what the repository sends *)

(** The numbers of the payload are printed as JavaScript prints numbers. *)
Definition payload_as_printed (sha256 : string -> string) (double_of : string -> jsnum) (job : jsval) : Prop :=
  forall record e payload, parseNewOutboxJob job = Some record ->
    parseJobEnvelope sha256 (record .: "envelope") = Some e ->
    plain_json MAX_JOB_JSON_DEPTH (env_payload e) = Some payload -> as_printed double_of payload.

(** A job that passed: the envelope [e] with its payload in JSON, reviewed as the
    message reads back. *)
Record sent_job (sha256 : string -> string) (double_of : string -> jsnum) (p : insert_parameters) (e : JobEnvelope)
    (payload : json) (attrs : attributes) : Prop := {
  sent_wf : envelope_wf e;
  sent_printed : as_printed double_of payload;
  sent_review : review_contract sha256 (with_payload e (js_of_json double_of payload)) (attributes_js attrs)
                  ((link_field (ip_link p)) .: "ledgerLink") = Ok tt;
  sent_payload : numerals payload = payload;
  sent_id : ip_id p = env_id e;
  sent_destination : ip_destination p = "jobs";
  sent_envelope : parse_json (ip_envelope p) = Some (numerals (envelope_json e payload));
  sent_attributes : ip_attributes p = stringify (attributes_json attrs);
  sent_link : forall link, ip_link p = Some link ->
    isCanonicalUuidV4 (link_commandId link) = true /\ isCanonicalUuidV4 (link_journalId link) = true;
}.

Lemma numerals_twice j : numerals (numerals j) = numerals j.
Proof.
  induction j as [|b|n|text|s|l IH|l IH] using json_nested_ind; try done; cbn [numerals].
  - f_equal. rewrite <- list_fmap_compose. apply Forall_fmap_ext_1. exact IH.
  - f_equal. rewrite <- list_fmap_compose. apply Forall_fmap_ext_1. eapply Forall_impl; [exact IH|].
    intros [k v] Hv. cbn in *. by rewrite Hv.
Qed.

Lemma parse_link_ok v link : parseLedgerOutboxLink v = Some (Some link) ->
  isCanonicalUuidV4 (link_commandId link) = true /\ isCanonicalUuidV4 (link_journalId link) = true.
Proof.
  unfold parseLedgerOutboxLink. destruct v; try done; intros H; apply bind_Some in H as (ds & _ & H);
    destruct (_ || _) in H; try done; apply bind_Some in H as (a & [_ Ha]%canonical_uuid_ok & H);
    apply bind_Some in H as (b & [_ Hb]%canonical_uuid_ok & [= <-]); done.
Qed.

Lemma checked_parameters_ok sha256 double_of job p : (forall m, HEX64_PATTERN (sha256 m) = true) ->
  payload_as_printed sha256 double_of job -> checked_parameters sha256 double_of job = Ok p ->
  exists record e payload attrs, parseNewOutboxJob job = Some record /\
    parseJobEnvelope sha256 (record .: "envelope") = Some e /\
    numerals <$> plain_json MAX_JOB_JSON_DEPTH (env_payload e) = Some payload /\
    parseJobMessageAttributes (record .: "messageAttributes") = Ok attrs /\
    parseLedgerOutboxLink (record .: "ledgerLink") = Some (ip_link p) /\
    sent_job sha256 double_of p e payload attrs.
Proof.
  intros Hhex Hprinted H. unfold checked_parameters in H. apply rbind_ok in H as (record & Hrec%or_throw_ok & H).
  apply rbind_ok in H as (link & Hlink%or_throw_ok & H). apply rbind_ok in H as (ser & Hser%or_throw_ok & H).
  apply rbind_ok in H as (body & Hbody%or_throw_ok & H). apply rbind_ok in H as (e' & He'%or_throw_ok & H).
  apply rbind_ok in H as ([] & Hrev%rlift_ok & [= <-]).
  destruct (serializeJobMessage _ _ _ _) as [ser'|] eqn:Es; [|done]. injection Hser as ->.
  assert (forall e payload, parseJobEnvelope sha256 (record .: "envelope") = Some e ->
    plain_json MAX_JOB_JSON_DEPTH (env_payload e) = Some payload -> printable payload) as Hp.
  { intros e payload He Hpl. eapply as_printed_printable, Hprinted; done. }
  destruct (serialize_ok _ double_of _ _ _ Hhex Hp Es) as (e & custom & payload & Hs & Hb & Hc & _).
  destruct Hs as (Hca & Hpe & _ & Hpl & _). pose proof (parseJobEnvelope_wf _ _ _ Hhex Hpe) as Hwf.
  assert (parse_json (msg_body ser) = Some (numerals (envelope_json e payload))) as Hparse.
  { rewrite Hb. apply parse_stringify, printable_envelope; [apply Hwf | by eapply Hp]. }
  unfold JSON_PARSE in Hbody. rewrite Hparse in Hbody. cbn [fmap option_fmap option_map] in Hbody.
  assert (body = js_of_json double_of (numerals (envelope_json e payload))) as -> by congruence.
  rewrite parse_reread in He' by done.
  assert (e' = with_payload e (js_of_json double_of (numerals payload))) as -> by congruence. exists record, e, (numerals payload), custom.
  split; [done|]. split; [done|]. split; [by rewrite Hpl|]. split; [done|]. split; [done|].
  assert (link_field link = [] \/ exists v, link_field link = [("ledgerLink", v)]) as Hl by (destruct link; cbn; eauto).
  rewrite review_literal in Hrev by done. destruct (negb _) in Hrev; [done|]. rewrite Hc in Hrev.
  split; cbn [ip_id ip_destination ip_envelope ip_attributes ip_link].
  - exact Hwf.
  - by eapply as_printed_numerals, Hprinted.
  - exact Hrev.
  - apply numerals_twice.
  - reflexivity.
  - reflexivity.
  - rewrite Hparse. unfold envelope_json. cbn [numerals fmap list_fmap fst snd]. by rewrite numerals_twice.
  - by rewrite Hc.
  - intros link' ->. by eapply parse_link_ok.
Qed.

(** The three ways through the review. *)
Inductive reviewed_as (sha256 : string -> string) (e : JobEnvelope) (attrs : attributes) (link : jsval) : Prop :=
| AsLedger payload :
    env_kind e = "ledger.journal-committed" -> ledgerPayload (env_payload e) = Ok payload ->
    env_correlation e !! "ledgerEventId" = Some (lp_journalId payload) -> attrs = [] ->
    ledgerLink link (lp_journalId payload) = Ok tt -> reviewed_as sha256 e attrs link
| AsYield payload :
    env_kind e = "yield.operation.submit" -> yieldPayload (env_payload e) = Ok payload ->
    env_id e = yp_submissionId payload ->
    env_correlation e !! "transactionId" = Some (yp_ledgerTransactionId payload) ->
    env_correlation e !! "quoteId" = Some (yp_quoteReferenceId payload) ->
    attrs = [("operationType", enum_str (yp_operationType payload))] -> link = VUndef ->
    reviewed_as sha256 e attrs link
| AsSync payload :
    env_kind e = "blockchain.balance-sync" -> parseBalanceSyncPayload (env_payload e) = Ok payload ->
    isMainnetLaunchNetwork (bs_networkId payload) = true -> attrs = [] -> link = VUndef ->
    reviewed_as sha256 e attrs link.

Lemma exact_attributes_ok a expected attrs custom : exactAttributes a expected = Ok attrs ->
  parseJobMessageAttributes a = Ok custom -> NoDup expected.*1 -> (length expected <= 1)%nat -> custom = expected.
Proof.
  unfold exactAttributes. intros H Hp Hnd Hlen. rewrite Hp in H. cbn [to_option or_throw rbind] in H.
  destruct (_ || _) eqn:E in H; [done|]. apply orb_false_iff in E as [El Ee].
  apply negb_false_iff, Nat.eqb_eq in El. destruct expected as [|[k v] [|]]; cbn in *; [by apply nil_length_inv | | lia].
  destruct custom as [|[k' v'] [|]]; try done. rewrite orb_false_r in Ee. apply negb_false_iff, bool_decide_eq_true in Ee.
  unfold attribute in Ee. cbn in Ee. destruct (String.eqb_spec k' k) as [->|]; [|done]. cbn in Ee. by injection Ee as ->.
Qed.

Lemma is_undefined_true v : is_undefined v = true -> v = VUndef.
Proof. by destruct v. Qed.

Lemma is_contract_true e k : is_contract e k = true -> env_kind e = enum_str k /\ env_version e = 1.
Proof. unfold is_contract. intros [H1%String.eqb_eq H2%Z.eqb_eq]%andb_true_iff. done. Qed.

Lemma review_cases sha256 e attrs link : (forall m, HEX64_PATTERN (sha256 m) = true) -> envelope_wf e ->
  review_contract sha256 e (attributes_js attrs) link = Ok tt -> env_version e = 1 /\ reviewed_as sha256 e attrs link.
Proof.
  intros Hhex He H. destruct (reviewed_attributes _ _ _ _ H) as (attrs' & Hp & _).
  pose proof (attributes_parse_same _ _ Hp) as ->. unfold review_contract in H.
  assert (forall expected x, exactAttributes (attributes_js attrs) expected = Ok x -> NoDup expected.*1 ->
    (length expected <= 1)%nat -> attrs = expected) as Hexact by (intros; eapply exact_attributes_ok; done).
  destruct (is_contract e LEDGER_JOURNAL_COMMITTED) eqn:E1; [|destruct (is_contract e YIELD_OPERATION_SUBMIT) eqn:E2;
    [|destruct (is_contract e BALANCE_SYNC) eqn:E3; [|done]]]; apply rbind_ok in H as (payload & Hpay & H).
  - destruct (negb _) eqn:Ec in H; [done|]. apply rbind_ok in H as (x & Hx & H). apply is_contract_true in E1 as [Hk Hv]. split; [done|]. apply negb_false_iff, bool_decide_eq_true in Ec.
    apply (AsLedger _ _ _ _ payload); try done. apply (Hexact _ _ Hx); [constructor | cbn; lia].
  - destruct (_ || _) eqn:Ec in H; [done|]. apply rbind_ok in H as (x & Hx & H). apply is_contract_true in E2 as [Hk Hv]. split; [done|]. bsimpl. destruct (is_undefined link) eqn:El; [|done].
    unfold correlated in *. repeat match goal with H : bool_decide _ = true |- _ => apply bool_decide_eq_true in H end.
    apply (AsYield _ _ _ _ payload); try done; [.. | by apply is_undefined_true].
    + by apply String.eqb_eq.
    + apply (Hexact _ _ Hx); [apply NoDup_singleton | cbn; lia].
  - destruct (negb _) eqn:Ec in H; [done|]. apply rbind_ok in H as (x & Hx & H). apply is_contract_true in E3 as [Hk Hv]. split; [done|]. apply negb_false_iff in Ec. destruct (is_undefined link) eqn:El; [|done].
    apply or_throw_ok in Hpay. unfold parseBalanceSyncJobEnvelope in Hpay. rewrite parse_envelope_js in Hpay by done.
    cbn [mbind option_bind] in Hpay. destruct (_ || _) in Hpay; [done|]. apply bind_Some in Hpay as (b & Hb & [= <-]).
    destruct (parseBalanceSyncPayload _) as [b'|] eqn:Eb; [|done]. injection Hb as ->. cbn [bse_payload] in Ec.
    apply (AsSync _ _ _ _ b); try done; [|by apply is_undefined_true].
    apply (Hexact _ _ Hx); [constructor | cbn; lia].
Qed.

(** ** Lemmas: what the statement stores *)

Section stored.
Context (sha256 : string -> string) (double_of : string -> jsnum) (numeric : string -> option string).
Context (Hhex : forall m, HEX64_PATTERN (sha256 m) = true) (Hnumeric : numeric_ok numeric).

Lemma column_same payload pj : as_printed double_of payload -> jsonb_of numeric payload = Some pj ->
  same_records (js_of_json double_of payload) (jsonb_out double_of pj).
Proof.
  intros Hp Hpj keys r Hne Hnd Hidx Hr Hflat. pose proof (exact_data_record_keys _ _ _ Hr) as Hk.
  apply column_record; try done. by apply (record_column numeric double_of Hnumeric keys payload).
Qed.

(** The call a job leads to. *)
Record sent_call (p : insert_parameters) (c : admission_call) (e : JobEnvelope) (payload : json) (attrs : attributes) : Prop := {
  call_id : requested_id c = env_id e;
  call_destination : requested_destination c = "jobs";
  call_command : requested_ledger_command_id c = link_commandId <$> ip_link p;
  call_journal : requested_ledger_journal_id c = link_journalId <$> ip_link p;
  call_envelope : jsonb_of numeric (numerals (envelope_json e payload)) = Some (requested_envelope c);
  call_attributes : requested_message_attributes c = attributes_json attrs;
  call_version : env_version e = 1;
  call_review : reviewed_as sha256 (with_payload e (js_of_json double_of payload)) attrs
                  ((link_field (ip_link p)) .: "ledgerLink");
}.

Lemma attributes_column attrs j : attrs = [] \/ (exists v, attrs = [("operationType", v)]) ->
  jsonb_in numeric (stringify (attributes_json attrs)) = Some j -> j = attributes_json attrs.
Proof.
  intros Ha H. unfold jsonb_in in H. rewrite parse_stringify in H by apply attributes_printable.
  cbn [mbind option_bind] in H. rewrite attributes_numerals in H.
  destruct Ha as [-> | [v ->]]; cbn in H; [by injection H as <-|].
  destruct (has_nul v); [done|]. by injection H as <-.
Qed.

Lemma statement_call_ok p e payload attrs c : sent_job sha256 double_of p e payload attrs ->
  statement_call numeric p = Some c -> sent_call p c e payload attrs.
Proof.
  intros Hs H. unfold statement_call in H. apply bind_Some in H as (ej & Hej & H). apply bind_Some in H as (aj & Haj & [= <-]).
  unfold jsonb_in in Hej. rewrite (sent_envelope _ _ _ _ _ _ Hs) in Hej. cbn [mbind option_bind] in Hej.
  pose proof (sent_review _ _ _ _ _ _ Hs) as Hrev.
  destruct (reviewed_attributes _ _ _ _ Hrev) as (attrs' & Hp & Hshape). pose proof (attributes_parse_same _ _ Hp) as ->.
  rewrite (sent_attributes _ _ _ _ _ _ Hs) in Haj.
  destruct (review_cases sha256 (with_payload e _) attrs _ Hhex (sent_wf _ _ _ _ _ _ Hs) Hrev) as [Hv Hr].
  split; cbn [requested_id requested_destination requested_ledger_command_id requested_ledger_journal_id
    requested_envelope requested_message_attributes].
  - apply (sent_id _ _ _ _ _ _ Hs).
  - apply (sent_destination _ _ _ _ _ _ Hs).
  - reflexivity.
  - reflexivity.
  - exact Hej.
  - by apply attributes_column.
  - exact Hv.
  - exact Hr.
Qed.

Lemma link_field_undefined link : (link_field link) .: "ledgerLink" = VUndef -> link = None.
Proof. by destruct link. Qed.

Lemma ledger_link_some link journalId : ledgerLink ((link_field link) .: "ledgerLink") journalId = Ok tt ->
  exists l, link = Some l /\ link_journalId l = journalId.
Proof.
  destruct link as [l|]; [|done]. cbn [link_field]. intros H. exists l. split; [done|]. unfold ledgerLink, link_fields in H.
  cbn [field String.eqb Ascii.eqb Bool.eqb] in H.
  pose proof (exact_data_record_literal [("commandId", VStr (link_commandId l)); ("journalId", VStr (link_journalId l))]) as Hr.
  cbn [fmap list_fmap fst] in Hr. unfold LINK_KEYS in H. rewrite Hr in H; [|apply (bool_decide_eq_true_1 _); vm_compute; reflexivity].
  apply or_throw_ok in H. apply bind_Some in H as (r & [= <-] & H). apply bind_Some in H as (c & _ & H).
  change ([("commandId", VStr (link_commandId l)); ("journalId", VStr (link_journalId l))] .: "journalId")
    with (VStr (link_journalId l)) in H. cbn beta iota in H.
  by destruct (String.eqb_spec (link_journalId l) journalId).
Qed.

(** The envelope's own columns. *)
Lemma sent_columns p c e payload attrs : envelope_wf e -> numerals payload = payload -> sent_call p c e payload attrs ->
  exists cj pj, jsonb_of numeric (numerals (correlation_json (env_correlation e))) = Some cj /\
    jsonb_of numeric payload = Some pj /\ envelope_columns e (requested_envelope c) cj pj.
Proof.
  intros He Hp Hc. destruct (envelope_column numeric Hnumeric e payload _ He (call_envelope _ _ _ _ _ Hc)) as (cj & pj & Hcj & Hpj & H).
  rewrite Hp in Hpj. eauto.
Qed.

Lemma kind_column jsonb_text p c e payload attrs : envelope_wf e -> numerals payload = payload -> sent_call p c e payload attrs ->
  envelope_kind jsonb_text c = Some (env_kind e).
Proof.
  intros He Hp Hc. destruct (sent_columns _ _ _ _ _ He Hp Hc) as (cj & pj & _ & _ & H). unfold envelope_kind, member_text.
  by rewrite (col_kind _ _ _ _ H).
Qed.
End stored.

Section theorems.
Context (sha256 : string -> string) (double_of : string -> jsnum) (numeric : string -> option string).
Context (numeric_eqb : string -> string -> bool) (jsonb_text : json -> string).
Context (timestamptz : string -> option Z) (utc_text : Z -> string) (collate : string -> string -> Z).

Lemma stored_attributes attrs : attrs = [] \/ (exists v, attrs = [("operationType", v)]) ->
  parseStoredMessageAttributes (jsonb_out double_of (attributes_json attrs)) = Some attrs /\
  jsonb_out double_of (attributes_json attrs) = attributes_js attrs.
Proof. by intros [-> | [v ->]]. Qed.

Lemma admitted_link_ok p c e payload attrs : numeric_ok numeric -> sent_job sha256 double_of p e payload attrs ->
  sent_call sha256 double_of numeric p c e payload attrs -> admitted_link jsonb_text c = ip_link p.
Proof.
  intros Hn Hs Hc. unfold admitted_link.
  rewrite (kind_column sha256 double_of numeric Hn jsonb_text p c e payload attrs)
    by first [apply (sent_wf _ _ _ _ _ _ Hs) | apply (sent_payload _ _ _ _ _ _ Hs) | exact Hc].
  destruct (call_review _ _ _ _ _ _ _ _ Hc) as [pay Hk _ _ _ Hl | pay Hk _ _ _ _ _ Hl | pay Hk _ _ _ Hl]; cbn [env_kind with_payload] in Hk;
    rewrite Hk; cbn.
  - rewrite (call_command _ _ _ _ _ _ _ _ Hc), (call_journal _ _ _ _ _ _ _ _ Hc).
    destruct (ledger_link_some _ _ Hl) as ([commandId journalId] & -> & _). done.
  - symmetry. by apply link_field_undefined.
  - symmetry. by apply link_field_undefined.
Qed.

(** The row of a checked job is claimed as a reviewed message. *)
Lemma sent_row_reviewed p c e payload attrs now : (forall m, HEX64_PATTERN (sha256 m) = true) -> numeric_ok numeric ->
  sent_job sha256 double_of p e payload attrs -> sent_call sha256 double_of numeric p c e payload attrs ->
  exists job pj, claimed_job (jsonb_out double_of) sha256
      (new_row now (requested_id c) (requested_envelope c) (requested_message_attributes c) (ip_link p)) = Some job /\
    jsonb_of numeric payload = Some pj /\
    job_envelope job = with_payload e (jsonb_out double_of pj) /\
    job_messageAttributes job = attrs /\ job_ledgerLink job = ip_link p /\
    reviewed_message sha256 (message_of job).
Proof.
  intros Hhex Hn Hs Hc. pose proof (sent_wf _ _ _ _ _ _ Hs) as He. pose proof (sent_review _ _ _ _ _ _ Hs) as Hrev.
  destruct (envelope_stored numeric double_of sha256 e payload _ Hn He (call_envelope _ _ _ _ _ _ _ _ Hc)) as (pj & Hpj & Hback).
  rewrite (sent_payload _ _ _ _ _ _ Hs) in Hpj.
  destruct (reviewed_attributes _ _ _ _ Hrev) as (attrs' & Hp & Hshape). pose proof (attributes_parse_same _ _ Hp) as ->.
  destruct (stored_attributes attrs Hshape) as [Hst Hout].
  unfold claimed_job, new_row. cbn [OutboxTable.payload OutboxTable.message_attributes].
  rewrite Hback, (call_attributes _ _ _ _ _ _ _ _ Hc), Hst.
  assert (row_link (new_row now (requested_id c) (requested_envelope c) (attributes_json attrs) (ip_link p)) = Some (ip_link p)) as Hlink.
  { unfold row_link, new_row. cbn. destruct (ip_link p) as [[commandId journalId]|] eqn:El; [|done]. cbn.
    destruct (sent_link _ _ _ _ _ _ Hs _ El) as [H1 H2]. cbn in H1, H2. by rewrite H1, H2. }
  unfold new_row in Hlink. rewrite Hlink. cbn [mbind option_bind]. eexists _, pj. split; [reflexivity|].
  split; [exact Hpj|]. split; [reflexivity|]. split; [reflexivity|]. split; [reflexivity|]. split; [exact He|]. unfold message_job, message_of. cbn [msg_destination msg_envelope msg_messageAttributes msg_ledgerLink
    OutboxTable.job_destination OutboxTable.job_envelope OutboxTable.job_messageAttributes OutboxTable.job_ledgerLink].
  assert (forall link, match link with Some link => link_fields (link_commandId link) (link_journalId link) | None => [] end
    = link_field link) as -> by done.
  rewrite review_literal; [|exact He | destruct (ip_link p); cbn; eauto]. cbn [negb String.eqb Ascii.eqb Bool.eqb].
  apply (contract_again sha256 (with_payload e (js_of_json double_of payload)) (jsonb_out double_of pj) (attributes_js attrs)
    (attributes_js attrs) _ Hhex He); [|done|done].
  apply (column_same double_of numeric Hn); [apply (sent_printed _ _ _ _ _ _ Hs) | exact Hpj].
Qed.

(** ** Lemmas: the function accepts what the repository sends *)

Context (Hrefl : forall text, numeric_eqb text text = true).

Lemma not_type_ok t j : jsonb_typeof j = Some t -> not_type t j <> Some true.
Proof. apply not_distinct. Qed.

Lemma same_json k : not_json numeric_eqb k (Some k) <> Some true.
Proof. unfold not_json. by rewrite jsonb_eqb_refl. Qed.

Lemma keys_present keys j : object_keys j ≡ₚ keys -> lacks_keys keys j <> Some true.
Proof.
  intros Hk. apply not_raised, negb_false_iff, forallb_forall. intros k Hin%list_elem_of_In.
  unfold has_key. by rewrite bool_decide_eq_true_2 by (by rewrite Hk).
Qed.

Lemma keys_counted keys j n : object_keys j ≡ₚ keys -> n = Z.of_nat (length keys) -> distinct_from (count_keys j) n <> Some true.
Proof. intros Hk ->. apply not_distinct. unfold count_keys. by rewrite Hk. Qed.

Lemma member_text_string k j s : member k j = Some (JString s) -> member_text jsonb_text k j = Some s.
Proof. intros H. unfold member_text. by rewrite H. Qed.

(** The text of a plain member. *)
Lemma flat_text k j v s : member k j = Some (flat_json v) -> v = VStr s -> member_text jsonb_text k j = Some s.
Proof. intros H ->. by apply member_text_string. Qed.

Lemma flat_type k j v s : member k j = Some (flat_json v) -> v = VStr s -> jsonb_typeof (member k j) = Some "string".
Proof. by intros -> ->. Qed.

Ltac each_condition := apply raises_false; repeat (apply Forall_cons; split); [..| by apply Forall_nil].

Section sent.
Context (p : insert_parameters) (c : admission_call) (e : JobEnvelope) (payload : json) (attrs : attributes) (cj pj : json).
Context (Hwf : envelope_wf e) (Hc : sent_call sha256 double_of numeric p c e payload attrs).
Context (Hcols : envelope_columns e (requested_envelope c) cj pj).
Notation call_of f := (f _ _ _ _ _ _ _ _ Hc).
Notation col f := (f _ _ _ _ Hcols).

Lemma shape_accepted : jsonb_typeof (Some cj) = Some "object" -> jsonb_typeof (Some pj) = Some "object" ->
  shape_rejected numeric_eqb jsonb_text c = false.
Proof.
  intros Htc Htp. destruct Hwf as (Hid & _). unfold isValidOpaqueId in Hid. destruct (_ && _) eqn:E in Hid; [|done].
  apply andb_true_iff in E as [E Et]. apply String.eqb_eq in Et.
  each_condition.
  - apply not_distinct, (call_of call_destination).
  - apply not_type_ok, (col col_object).
  - apply not_type_ok. by rewrite (call_of call_attributes).
  - by eapply keys_counted; [apply (col col_keys)|].
  - apply keys_present, (col col_keys).
  - apply not_type_ok. by rewrite (col col_id).
  - apply not_distinct. by rewrite (member_text_string _ _ _ (col col_id)), (call_of call_id).
  - rewrite (call_of call_id). by apply not_raised, negb_false_iff.
  - rewrite (call_of call_id). by apply not_distinct, btrim_fixed.
  - apply not_type_ok. by rewrite (col col_kind).
  - apply not_type_ok. by rewrite (col col_version).
  - rewrite (col col_version), (call_of call_version). apply same_json.
  - apply not_type_ok. by rewrite (col col_occurredAt).
  - apply not_type_ok. by rewrite (col col_correlation).
  - apply not_type_ok. by rewrite (col col_payload).
Qed.

Context (Hcj : jsonb_of numeric (numerals (correlation_json (env_correlation e))) = Some cj).

Lemma correlation_keys_in k : is_Some (env_correlation e !! k) -> k ∈ CORRELATION_KEYS.
Proof.
  destruct Hwf as (_ & _ & _ & _ & root & _ & _ & Hk & _). intros [v Hv]. destruct (Hk _ _ Hv) as [->|[Hk' _]]; [left | by right].
Qed.

Lemma correlation_text k v : env_correlation e !! k = Some v -> member_text jsonb_text k (Some cj) = Some v.
Proof.
  intros Hv. destruct (correlation_column numeric _ _ (proj2 (proj2 (proj2 (proj2 Hwf)))) Hcj) as (_ & _ & _ & Hm).
  apply member_text_string. by rewrite Hm, Hv.
Qed.

(** Timestamps of four-digit years cast, but for the year 0. *)
Definition casts_times : Prop := forall t, four_digit_time t ->
  if c_year (civil_of_time t) =? 0 then timestamptz (toISOString t) = None
  else timestamptz (toISOString t) = Some (t * 1000) /\ utc_text (t * 1000) = toISOString t.

Lemma envelope_accepted t : casts_times -> env_occurredAt e = toISOString t -> valid_time t = true ->
  envelope_rejected jsonb_text timestamptz utc_text c = false <-> 1 <= c_year (civil_of_time t) <= 9999.
Proof.
  intros Hcast Ht Hvt.
  destruct (correlation_column numeric _ _ (proj2 (proj2 (proj2 (proj2 Hwf)))) Hcj) as (Hto & Hnd & Hkeys & Hm).
  assert (member_text jsonb_text "occurredAt" (Some (requested_envelope c)) = Some (toISOString t)) as Hocc.
  { apply member_text_string. by rewrite (col col_occurredAt), Ht. }
  assert (occurred_at jsonb_text timestamptz c = timestamptz (toISOString t)) as Hat by (unfold occurred_at; by rewrite Hocc).
  assert (TIMESTAMP_PATTERN (toISOString t) = true <-> four_digit_time t) as Hpat.
  { pose proof (canonical_timestamp_spec (toISOString t) t) as Hs. split.
    - intros Hp. apply Hs. unfold canonical_timestamp. rewrite Hp. by apply canonical_time_spec.
    - intros Hf. assert (canonical_timestamp (toISOString t) = Some t) as Hct by (by apply Hs).
      unfold canonical_timestamp in Hct. by destruct (TIMESTAMP_PATTERN _). }
  split.
  - intros Hr. unfold envelope_rejected in Hr. apply raises_false in Hr. rewrite !Forall_cons in Hr. destruct Hr as (_ & Hp & Hnull & _).
    rewrite Hocc in Hp. unfold unlike in Hp. cbn [fmap option_fmap option_map] in Hp. destruct (TIMESTAMP_PATTERN (toISOString t)) eqn:Ep; [|done].
    destruct (proj1 Hpat eq_refl) as [H1 H2]. pose proof (proj1 (four_digit_year t) (conj H1 H2)) as Hy. rewrite Hat in Hnull.
    pose proof (Hcast t (conj H1 H2)) as Hct. destruct (Z.eqb_spec (c_year (civil_of_time t)) 0); [|lia]. by rewrite Hct in Hnull.
  - intros Hy. assert (four_digit_time t) as Hf by (apply four_digit_year; lia).
    pose proof (Hcast t Hf) as Hct. rewrite (proj2 (Z.eqb_neq _ _)) in Hct by lia. destruct Hct as [Hct Hut].
    destruct Hwf as (_ & _ & _ & _ & root & Hroot & _).
    each_condition.
    + eapply in_not_not_in; [apply member_text_string, (col col_kind)|].
      destruct (call_of call_review) as [pay Hk _ _ _ _ | pay Hk _ _ _ _ _ _ | pay Hk _ _ _ _]; cbn in Hk; rewrite Hk; solve_elem.
    + rewrite Hocc. apply (like_not_unlike _ _ (toISOString t)); [done|]. by apply Hpat.
    + by rewrite Hat, Hct.
    + rewrite Hat, Hct, Hocc. apply not_distinct. cbn. by rewrite Hut.
    + rewrite (col col_correlation). apply not_raised, negb_false_iff. unfold has_key. apply bool_decide_eq_true, Hkeys. eauto.
    + rewrite (col col_correlation). apply not_raised, negb_false_iff, andb_true_iff. rewrite !Z.leb_le.
      assert (object_keys (Some cj) ⊆+ CORRELATION_KEYS) as Hsub.
      { apply NoDup_submseteq; [done|]. intros k Hk. apply correlation_keys_in. by apply Hkeys. }
      apply submseteq_length in Hsub. assert ("correlationId" ∈ object_keys (Some cj)) as Hin by (apply Hkeys; eauto).
      unfold count_keys. destruct (object_keys (Some cj)); [by apply not_elem_of_nil in Hin|]. cbn [length] in *.
      change (length CORRELATION_KEYS) with 7%nat in Hsub. lia.
    + rewrite (col col_correlation). apply not_raised, existsb_false. intros k Hk. apply negb_false_iff, existsb_exists.
      exists k. split; [apply list_elem_of_In, correlation_keys_in; by apply Hkeys | apply String.eqb_refl].
    + rewrite (col col_correlation). apply not_type_ok. by rewrite Hm, Hroot.
Qed.

Lemma correlation_accepted : correlation_rejected jsonb_text c = false.
Proof.
  destruct (correlation_column numeric _ _ (proj2 (proj2 (proj2 (proj2 Hwf)))) Hcj) as (Hto & Hnd & Hkeys & Hm).
  destruct Hwf as (_ & _ & _ & _ & root & Hroot & Hsafe & Hk & Hreq & Hleg).
  pose proof (correlation_text _ _ Hroot) as Hrt. unfold correlation_rejected. rewrite (col col_correlation), Hrt.
  apply orb_false_iff. split; [apply orb_false_iff; split|].
  - each_condition. by apply (like_not_unlike _ _ root).
  - apply existsb_false. intros k Hin. each_condition. destruct (env_correlation e !! k) as [v|] eqn:Ev.
    + assert (isCanonicalUuidV4 v = true) as Hv.
      { destruct (Hk _ _ Ev) as [->|[_ ?]]; [|done]. by destruct (correlationId_not_optional). }
      rewrite (correlation_text _ _ Ev). unfold unlike. cbn [fmap option_fmap option_map].
      change UUID_V4_PATTERN with isCanonicalUuidV4. rewrite Hv. unfold not_type. rewrite Hm, Ev. by destruct (has_key _ _).
    + unfold has_key. rewrite bool_decide_eq_false_2; [done|]. rewrite Hkeys, Ev. by intros [? ?].
  - each_condition.
    + destruct (env_correlation e !! "requestId") as [v|] eqn:Ev.
      * rewrite (correlation_text _ _ Ev), (Hreq _ eq_refl). unfold distinct_from. rewrite bool_decide_eq_true_2 by done.
        by destruct (has_key _ _).
      * unfold has_key. rewrite bool_decide_eq_false_2; [done|]. rewrite Hkeys, Ev. by intros [? ?].
    + cbn [fmap option_fmap option_map]. destruct (String.prefix "legacy:" root) eqn:El; [|done]. rewrite (Hleg eq_refl) in Hkeys.
      assert (object_keys (Some cj) ≡ₚ ["correlationId"]) as Hone.
      { apply NoDup_Permutation; [done | apply NoDup_singleton|]. intros k. rewrite Hkeys, list_elem_of_singleton.
        rewrite lookup_singleton. case_decide as Hd; [by split; [|eauto]|]. split; [by intros [? ?] | intros ->; by destruct Hd]. }
      unfold count_keys. by rewrite Hone.
Qed.

(** A payload read as a record of plain values is the column with those members. *)
Lemma payload_column keys r : keys <> [] -> NoDup keys -> numeric_ok numeric -> as_printed double_of payload ->
  jsonb_of numeric payload = Some pj -> exact_data_record keys (js_of_json double_of payload) = Some r ->
  (forall k, k ∈ keys -> flat (r .: k)) ->
  jsonb_typeof (Some pj) = Some "object" /\ object_keys (Some pj) ≡ₚ keys /\
  forall k, k ∈ keys -> member k (Some pj) = Some (flat_json (r .: k)).
Proof.
  intros Hne Hnd Hn Hp Hpj Hr Hf. exact (column_members _ _ _ (record_column numeric double_of Hn _ _ _ _ Hne Hnd Hp Hr Hf Hpj)).
Qed.

Section payload.
Context (r : jsrec) (keys : list string) (Hkeys : object_keys (Some pj) ≡ₚ keys).
Context (Hmem : forall k, k ∈ keys -> member k (Some pj) = Some (flat_json (r .: k))).

Lemma payload_type k s : k ∈ keys -> r .: k = VStr s -> not_type "string" (member k (Some pj)) <> Some true.
Proof. intros Hk E. apply not_type_ok. by rewrite (Hmem _ Hk), E. Qed.

Lemma payload_text k s : k ∈ keys -> r .: k = VStr s -> member_text jsonb_text k (Some pj) = Some s.
Proof. intros Hk E. apply member_text_string. by rewrite (Hmem _ Hk), E. Qed.

Lemma payload_like k s pattern : k ∈ keys -> r .: k = VStr s -> pattern s = true ->
  unlike pattern (member_text jsonb_text k (Some pj)) <> Some true.
Proof. intros Hk E. by apply like_not_unlike, payload_text. Qed.

Lemma payload_in k s texts : k ∈ keys -> r .: k = VStr s -> s ∈ texts ->
  not_in texts (member_text jsonb_text k (Some pj)) <> Some true.
Proof. intros Hk E. by apply in_not_not_in, payload_text. Qed.
End payload.

Ltac in_keys := unfold LEDGER_PAYLOAD_KEYS, YIELD_PAYLOAD_KEYS, PAYLOAD_KEYS; solve_elem.

Lemma ledger_accepted pay link : numeric_ok numeric -> as_printed double_of payload -> jsonb_of numeric payload = Some pj ->
  ledgerPayload (js_of_json double_of payload) = Ok pay ->
  env_correlation e !! "ledgerEventId" = Some (lp_journalId pay) -> attrs = [] ->
  ip_link p = Some link -> link_journalId link = lp_journalId pay -> isCanonicalUuidV4 (link_commandId link) = true ->
  jsonb_typeof (Some pj) = Some "object" /\ ledger_rejected numeric_eqb jsonb_text c = false.
Proof.
  intros Hn Hp Hpj Hpay Hev Ha Hl Hlj Hlc. destruct (ledger_record _ _ Hpay) as (r & Hr & Hj & Hu & Ho).
  destruct (payload_column LEDGER_PAYLOAD_KEYS r) as (Hto & Hkeys & Hmem); try done; [by repeat constructor; set_solver | by eapply ledger_keys_flat|].
  split; [done|].
  assert (requested_ledger_command_id c = Some (link_commandId link)) as Hcmd by (by rewrite (call_of call_command), Hl).
  assert (requested_ledger_journal_id c = Some (lp_journalId pay)) as Hjou by (by rewrite (call_of call_journal), Hl, <- Hlj).
  each_condition; rewrite ?(col col_payload), ?(col col_correlation), ?Hcmd, ?Hjou.
  - by eapply keys_counted.
  - by apply keys_present.
  - eapply (payload_type r LEDGER_PAYLOAD_KEYS); [done | in_keys | exact Hj].
  - eapply (payload_like r LEDGER_PAYLOAD_KEYS); [done | in_keys | exact Hj | exact Hu].
  - eapply (payload_type r LEDGER_PAYLOAD_KEYS); [done | in_keys | exact Ho].
  - eapply (payload_in r LEDGER_PAYLOAD_KEYS); [done | in_keys | exact Ho |]. destruct (lp_operation pay); cbn; solve_elem.
  - rewrite (correlation_text _ _ Hev), (payload_text r LEDGER_PAYLOAD_KEYS Hmem "journalId" _ ltac:(in_keys) Hj). by apply not_distinct.
  - rewrite (call_of call_attributes), Ha. apply same_json.
  - done.
  - done.
  - by apply (like_not_unlike _ _ (link_commandId link)).
  - by apply (like_not_unlike _ _ (lp_journalId pay)).
  - rewrite (payload_text r LEDGER_PAYLOAD_KEYS Hmem "journalId" _ ltac:(in_keys) Hj). by apply not_distinct.
Qed.

Lemma yield_accepted pay : numeric_ok numeric -> as_printed double_of payload -> jsonb_of numeric payload = Some pj ->
  yieldPayload (js_of_json double_of payload) = Ok pay -> env_id e = yp_submissionId pay ->
  env_correlation e !! "transactionId" = Some (yp_ledgerTransactionId pay) ->
  env_correlation e !! "quoteId" = Some (yp_quoteReferenceId pay) ->
  attrs = [("operationType", enum_str (yp_operationType pay))] -> ip_link p = None ->
  jsonb_typeof (Some pj) = Some "object" /\ yield_rejected numeric_eqb jsonb_text c = false.
Proof.
  intros Hn Hp Hpj Hpay Hid Htx Hq Ha Hl. destruct (yield_record _ _ Hpay) as (r & Hr & Hf).
  destruct (payload_column YIELD_PAYLOAD_KEYS r) as (Hto & Hkeys & Hmem); try done;
    [by apply (bool_decide_eq_true_1 _); vm_compute | by eapply yield_keys_flat|].
  split; [done|].
  each_condition; rewrite ?(col col_payload), ?(col col_correlation).
  - by eapply keys_counted.
  - by apply keys_present.
  - apply not_raised, existsb_false. intros k [Hk Hku]%filter_In_elem. apply existsb_exists in Hku as (k' & Hk' & <-%String.eqb_eq).
    apply list_elem_of_In in Hk'. destruct (yf_uuids _ _ Hf _ Hk') as (s & Es & Hs). rewrite Hkeys in Hk.
    rewrite (payload_text r YIELD_PAYLOAD_KEYS Hmem _ _ Hk Es), (Hmem _ Hk), Es. unfold unlike. cbn [fmap option_fmap option_map]. by rewrite Hs.
  - eapply (payload_type r YIELD_PAYLOAD_KEYS); [done | in_keys | apply (yf_type _ _ Hf)].
  - eapply (payload_in r YIELD_PAYLOAD_KEYS); [done | in_keys | apply (yf_type _ _ Hf) |]. destruct (yp_operationType pay); cbn; solve_elem.
  - rewrite (payload_text r YIELD_PAYLOAD_KEYS Hmem "submissionId" _ ltac:(in_keys) (yf_submission _ _ Hf)), (call_of call_id), Hid. by apply not_distinct.
  - rewrite (payload_text r YIELD_PAYLOAD_KEYS Hmem "ledgerTransactionId" _ ltac:(in_keys) (yf_transaction _ _ Hf)), (correlation_text _ _ Htx). by apply not_distinct.
  - rewrite (payload_text r YIELD_PAYLOAD_KEYS Hmem "quoteReferenceId" _ ltac:(in_keys) (yf_quote _ _ Hf)), (correlation_text _ _ Hq). by apply not_distinct.
  - rewrite (payload_text r YIELD_PAYLOAD_KEYS Hmem "operationType" _ ltac:(in_keys) (yf_type _ _ Hf)), (call_of call_attributes), Ha. apply same_json.
  - by rewrite (call_of call_command), Hl.
  - by rewrite (call_of call_journal), Hl.
Qed.

(** Digits compare as they do in JavaScript, under any collation. *)
Definition collates_digits : Prop := forall a b, all_chars is_digit a = true -> all_chars is_digit b = true ->
  strlen a = strlen b -> str_lt b a = false -> collate a b <= 0.

Section sync.
Context (r : jsrec) (pay : BalanceSyncJobPayload).
Context (Hkeys : object_keys (Some pj) ≡ₚ PAYLOAD_KEYS).
Context (Hmem : forall k, k ∈ PAYLOAD_KEYS -> member k (Some pj) = Some (flat_json (r .: k))).
Context (Hre : r .: "rescanFromPosition" = js_nullable (bs_rescanFromPosition pay)).
Context (Hpos : forall s, bs_rescanFromPosition pay = Some s -> normalizeBalanceSyncPosition s = Some s).
Context (Hcause : r .: "cause" = VStr (enum_str (bs_cause pay))).
Context (Hattempt : r .: "attempt" = VNum (JInt (bs_attempt pay))).
Context (Hbound : 1 <= bs_attempt pay <= 3).
Context (Hcons : cause_consistent (bs_cause pay) (bs_attempt pay) (bs_rescanFromPosition pay) = true).

Lemma rescan_column : rescan_text jsonb_text c = bs_rescanFromPosition pay.
Proof.
  unfold rescan_text, member_text. rewrite (col col_payload), (Hmem "rescanFromPosition") by in_keys. rewrite Hre.
  by destruct (bs_rescanFromPosition pay).
Qed.

Lemma rescan_accepted : collates_digits -> rescan_rejected jsonb_text collate c = false.
Proof.
  intros Hd. each_condition. rewrite rescan_column. destruct (bs_rescanFromPosition pay) as [s|] eqn:Es; [|done].
  specialize (Hpos _ eq_refl). unfold normalizeBalanceSyncPosition in Hpos. destruct (_ || _) eqn:E in Hpos; [done|]. bsimpl.
  unfold POSITION_PATTERN, unlike. cbn [fmap option_fmap option_map sql_not_null].
  assert ((strlen s <=? 78) = true) as -> by lia. assert ((78 <? strlen s) = false) as -> by lia.
  match goal with H : UNSIGNED_INTEGER_PATTERN s = true |- _ => rewrite H; rename H into Hu end.
  destruct (Z.eqb_spec (strlen s) 78) as [Hl|]; [|by destruct (0 <? _)].
  match goal with H : exceeds_decimal _ s = false |- _ => unfold exceeds_decimal in H; apply orb_false_iff in H as [_ He] end.
  change (strlen MAX_UINT256_TEXT) with 78 in He. rewrite Hl in He. cbn [Z.eqb Pos.eqb andb] in He.
  assert (collate s MAX_UINT256_TEXT <= 0) as Hle.
  { apply Hd; [by apply unsigned_integer_digits | vm_compute; reflexivity | by rewrite Hl | exact He]. }
  rewrite (proj2 (Z.ltb_ge _ _)) by lia. done.
Qed.

Lemma attempt_column : member "attempt" (Some pj) = Some (JNumeral (toString (bs_attempt pay))).
Proof. rewrite (Hmem "attempt") by in_keys. by rewrite Hattempt. Qed.

Lemma cause_accepted : cause_rejected jsonb_text c = false.
Proof.
  pose proof (payload_text r PAYLOAD_KEYS Hmem "cause" _ ltac:(in_keys) Hcause) as Hct.
  assert (member_text jsonb_text "attempt" (Some pj) = Some (toString (bs_attempt pay))) as Hat
    by (unfold member_text; by rewrite attempt_column).
  each_condition; rewrite ?rescan_column, ?(col col_payload), Hct, ?Hat.
  all: assert (bs_attempt pay = 1 \/ bs_attempt pay = 2 \/ bs_attempt pay = 3) as [E | [E | E]] by lia; rewrite E in Hcons; rewrite ?E.
  all: destruct (bs_cause pay), (bs_rescanFromPosition pay); vm_compute in Hcons |- *; congruence.
Qed.
End sync.

Lemma sync_accepted pay : numeric_ok numeric -> as_printed double_of payload -> jsonb_of numeric payload = Some pj ->
  collates_digits -> parseBalanceSyncPayload (js_of_json double_of payload) = Ok pay ->
  isMainnetLaunchNetwork (bs_networkId pay) = true -> attrs = [] -> ip_link p = None ->
  jsonb_typeof (Some pj) = Some "object" /\ sync_payload_rejected numeric_eqb jsonb_text c = false /\
  rescan_rejected jsonb_text collate c = false /\
  cause_rejected jsonb_text c = false.
Proof.
  intros Hn Hp Hpj Hd Hpay Hnet Ha Hl. pose proof (sync_payload_flat _ _ Hpay) as (r0 & Hr0 & Hflat).
  unfold parseBalanceSyncPayload in Hpay. apply rbind_ok in Hpay as (r & Hr%or_throw_ok & H).
  rewrite Hr in Hr0. injection Hr0 as <-. apply rbind_ok in H as (fields & Hf%or_throw_ok & H).
  apply rbind_ok in H as (rescan & Hre & H). destruct (negb _) eqn:Hcons in H; [done|]. injection H as <-.
  apply negb_false_iff in Hcons. apply rescan_position_ok in Hre as [Hre Hpos].
  destruct (payload_fields_ok _ _ rescan Hf) as (Hver & Hacc & Hacc' & Hwal & Hwal' & Hnw & _ & Htier & Hcau & Hatt & Hb & Hrescan).
  rewrite <- Hrescan in Hre, Hpos. rewrite <- Hrescan in Hcons at 3.
  destruct (payload_column PAYLOAD_KEYS r) as (Hto & Hkeys & Hmem); try done; [by apply (bool_decide_eq_true_1 _); vm_compute|].
  set (pay := fields rescan) in *. change SYNC_MAX_ATTEMPTS with 3 in Hb.
  split; [done|]. split; [|split; [by eapply rescan_accepted | by eapply cause_accepted]].
  pose proof (attempt_column r pay Hmem Hatt) as Hat. assert (In (bs_networkId pay) MAINNET_LAUNCH_NETWORK_IDS) as Hni.
  { apply existsb_exists in Hnet as (n & Hin & E). by apply String.eqb_eq in E as ->. }
  each_condition; rewrite ?(col col_payload).
  - by eapply keys_counted.
  - by apply keys_present.
  - apply not_type_ok. rewrite (Hmem "schemaVersion") by in_keys. by rewrite Hver.
  - rewrite (Hmem "schemaVersion") by in_keys. rewrite Hver. apply (same_json (JNumeral "1")).
  - eapply (payload_type r PAYLOAD_KEYS); [done | in_keys | exact Hacc].
  - eapply (payload_like r PAYLOAD_KEYS); [done | in_keys | exact Hacc | exact Hacc'].
  - eapply (payload_type r PAYLOAD_KEYS); [done | in_keys | exact Hwal].
  - eapply (payload_like r PAYLOAD_KEYS); [done | in_keys | exact Hwal | exact Hwal'].
  - eapply (payload_type r PAYLOAD_KEYS); [done | in_keys | exact Hnw].
  - eapply (payload_in r PAYLOAD_KEYS); [done | in_keys | exact Hnw | by apply list_elem_of_In].
  - eapply (payload_type r PAYLOAD_KEYS); [done | in_keys | exact Htier].
  - eapply (payload_in r PAYLOAD_KEYS); [done | in_keys | exact Htier |]. destruct (bs_requiredTier pay); cbn; solve_elem.
  - eapply (payload_type r PAYLOAD_KEYS); [done | in_keys | exact Hcau].
  - eapply (payload_in r PAYLOAD_KEYS); [done | in_keys | exact Hcau |]. destruct (bs_cause pay); cbn; solve_elem.
  - apply not_type_ok. by rewrite Hat.
  - apply (like_not_unlike _ _ (toString (bs_attempt pay))); [unfold member_text; by rewrite Hat|].
    assert (bs_attempt pay = 1 \/ bs_attempt pay = 2 \/ bs_attempt pay = 3) as [-> | [-> | ->]] by lia; reflexivity.
  - rewrite (Hmem "rescanFromPosition") by in_keys. rewrite Hre. by destruct (bs_rescanFromPosition pay).
  - rewrite (call_of call_attributes), Ha. apply same_json.
  - by rewrite (call_of call_command), Hl.
  - by rewrite (call_of call_journal), Hl.
Qed.
End sent.

(** The columns of a checked job are refused for their timestamp only. *)
Lemma accepted_years p c e payload attrs : numeric_ok numeric -> sent_job sha256 double_of p e payload attrs ->
  sent_call sha256 double_of numeric p c e payload attrs -> casts_times -> collates_digits ->
  exists t, member_text jsonb_text "occurredAt" (Some (requested_envelope c)) = Some (toISOString t) /\ valid_time t = true /\
    (columns_accepted numeric_eqb jsonb_text timestamptz utc_text collate c = true <-> 1 <= c_year (civil_of_time t) <= 9999).
Proof.
  intros Hn Hs Hc Hcast Hcoll. pose proof (sent_wf _ _ _ _ _ _ Hs) as Hwf. pose proof (sent_printed _ _ _ _ _ _ Hs) as Hp.
  destruct (sent_columns sha256 double_of numeric Hn _ _ _ _ _ Hwf (sent_payload _ _ _ _ _ _ Hs) Hc) as (cj & pj & Hcj & Hpj & Hcols).
  destruct (proj1 (proj2 (proj2 (proj2 Hwf)))) as [t Ht]. apply canonical_time_spec in Ht as [Hvt Ht].
  exists t. split; [apply member_text_string; by rewrite (col_occurredAt _ _ _ _ Hcols), Ht|]. split; [done|].
  pose proof (envelope_accepted p c e payload attrs cj pj Hwf Hc Hcols Hcj t Hcast Ht Hvt) as Henv.
  pose proof (correlation_accepted c e cj pj Hwf Hcols Hcj) as Hcorr.
  assert (jsonb_typeof (Some cj) = Some "object") as Hto
    by apply (correlation_column numeric _ _ (proj2 (proj2 (proj2 (proj2 Hwf)))) Hcj).
  unfold columns_accepted. rewrite Hcorr, <- Henv.
  rewrite (kind_column sha256 double_of numeric Hn jsonb_text p c e payload attrs Hwf (sent_payload _ _ _ _ _ _ Hs) Hc).
  assert (jsonb_typeof (Some pj) = Some "object" /\
    (if bool_decide (Some (env_kind e) = Some "ledger.journal-committed") then negb (ledger_rejected numeric_eqb jsonb_text c)
     else if bool_decide (Some (env_kind e) = Some "yield.operation.submit") then negb (yield_rejected numeric_eqb jsonb_text c)
     else negb (sync_payload_rejected numeric_eqb jsonb_text c) && negb (rescan_rejected jsonb_text collate c)
          && negb (cause_rejected jsonb_text c)) = true) as [Htp ->].
  - destruct (call_review _ _ _ _ _ _ _ _ Hc) as [pay Hk Hpay Hev Ha Hl | pay Hk Hpay Hid Htx Hq Ha Hl | pay Hk Hpay Hnet Ha Hl];
      cbn [env_kind env_payload env_correlation env_id with_payload] in *; rewrite Hk.
    + destruct (ledger_link_some _ _ Hl) as (link & Hlink & Hlj). destruct (sent_link _ _ _ _ _ _ Hs _ Hlink) as [Hlc _].
      by destruct (ledger_accepted p c e payload attrs cj pj Hwf Hc Hcols Hcj pay link) as [-> ->].
    + apply link_field_undefined in Hl. by destruct (yield_accepted p c e payload attrs cj pj Hwf Hc Hcols Hcj pay) as [-> ->].
    + apply link_field_undefined in Hl. by destruct (sync_accepted p c e payload attrs cj pj Hc Hcols pay) as (-> & -> & -> & ->).
  - rewrite (shape_accepted p c e payload attrs cj pj Hwf Hc Hcols Hto Htp). cbn [negb andb]. rewrite !andb_true_r. apply negb_true_iff.
Qed.
End theorems.

(** ** Theorems *)

Lemma created_request active uuid uuid' now kind payload options e :
  createJobEnvelope active uuid uuid' now kind payload options = Ok e ->
  env_kind e = trim kind /\ env_payload e = payload.
Proof. unfold createJobEnvelope. intros H. inv_ok. by subst. Qed.

(** The link of a request that is no accessor. *)
Definition requested_link (request : EnqueueRequest) : jsval :=
  match rq_ledgerLink request with
  | Some (DData v _) => v
  | _ => VUndef
  end.

Lemma new_job_parsed request envelope link :
  exists record, parseNewOutboxJob (new_job request envelope link) = Some record /\
    record .: "envelope" = envelope_js envelope /\
    record .: "messageAttributes" = nullish (rq_messageAttributes request) (js_object []) /\
    record .: "ledgerLink" = link.
Proof.
  unfold new_job, defined_field, parseNewOutboxJob. destruct (is_undefined link) eqn:El.
  - apply is_undefined_true in El as ->.
    rewrite app_nil_r. rewrite (data_record_literal ["destination"; "envelope"; "messageAttributes"] ["ledgerLink"]);
      [|apply (bool_decide_eq_true_1 _); vm_compute; reflexivity ..]. eexists. split; [reflexivity|]. done.
  - cbn [app]. rewrite (data_record_literal ["destination"; "envelope"; "messageAttributes"] ["ledgerLink"]);
      [|apply (bool_decide_eq_true_1 _); vm_compute; reflexivity ..]. eexists. split; [reflexivity|]. done.
Qed.

(** C6: an enqueued job is stored as it was requested, the dispatcher claims it and
    the consumer of the queue accepts it: within a transaction, [enqueue] adds one
    waiting row whose columns hold the JSON of the envelope its caller gets back,
    with the trimmed kind and the payload of the request, and the requested attributes and
    ledger link; the row reads back as a job with that envelope, the stored payload,
    those attributes and that link, whose message passes the review - what
    OutboxSystem asks of the rows it starts from and JobQueue of the messages it is
    handed. *)
Theorem enqueued_job_reviewed sha256 double_of numeric numeric_eqb jsonb_text timestamptz utc_text collate
    active uuid uuid' now transaction db rows clock request envelope rows' :
  (forall m, HEX64_PATTERN (sha256 m) = true) -> numeric_ok numeric ->
  (forall payload, plain_json MAX_JOB_JSON_DEPTH (rq_payload request) = Some payload -> as_printed double_of payload) ->
  enqueue sha256 double_of numeric numeric_eqb jsonb_text timestamptz utc_text collate
    active uuid uuid' now transaction db rows clock request = Ok (envelope, rows') ->
  transaction = true /\ env_kind envelope = trim (rq_kind request) /\
  exists payload column stored attrs link claimed,
    numerals <$> plain_json MAX_JOB_JSON_DEPTH (rq_payload request) = Some payload /\
    jsonb_of numeric (numerals (envelope_json envelope payload)) = Some column /\
    jsonb_of numeric payload = Some stored /\
    same_records (js_of_json double_of payload) (jsonb_out double_of stored) /\
    parseJobMessageAttributes (nullish (rq_messageAttributes request) (js_object [])) = Ok attrs /\
    parseLedgerOutboxLink (requested_link request) = Some link /\
    insert_job rows (new_row clock (env_id envelope) column (attributes_json attrs) link) = Ok rows' /\
    claimed_job (jsonb_out double_of) sha256 (new_row clock (env_id envelope) column (attributes_json attrs) link)
      = Some claimed /\
    job_envelope claimed = with_payload envelope (jsonb_out double_of stored) /\
    job_messageAttributes claimed = attrs /\ job_ledgerLink claimed = link /\
    reviewed_message sha256 (message_of claimed).
Proof.
  intros Hhex Hn Hp H. unfold enqueue in H. apply rbind_ok in H as (link & Hlink & H).
  assert (link = requested_link request) as ->.
  { unfold requested_link. by destruct (rq_ledgerLink request) as [[]|]; simplify_eq. }
  apply rbind_ok in H as (e & He%rlift_ok & H). apply rbind_ok in H as (rows1 & H%rlift_ok & [= <- <-]).
  pose proof (created_request _ _ _ _ _ _ _ _ He) as [Hkind Hpayload].
  destruct (new_job_parsed request e (requested_link request)) as (record & Hrec & Henv & Hatt & Hreq).
  assert (forall e0, parseJobEnvelope sha256 (record .: "envelope") = Some e0 -> e0 = e) as Hsame.
  { intros e0. rewrite Henv, parse_envelope_js by (by eapply createJobEnvelope_wf). by intros [= ->]. }
  unfold insert in H. destruct transaction; [|done]. split; [done|]. split; [done|]. cbn [negb] in H.
  apply rbind_ok in H as (p & Hcp%rlift_ok & H%or_throw_ok). apply bind_Some in H as (c & Hsc & H).
  assert (payload_as_printed sha256 double_of (new_job request e (requested_link request))) as Hprinted.
  { intros record' e0 payload Hr Hpe Hpl. rewrite Hrec in Hr. injection Hr as <-. rewrite (Hsame _ Hpe), Hpayload in Hpl.
    by apply Hp. }
  destruct (checked_parameters_ok _ _ _ _ Hhex Hprinted Hcp) as (record' & e0 & payload & attrs & Hr & Hpe & Hpl & Ha & Hl & Hs).
  rewrite Hrec in Hr. injection Hr as <-. pose proof (Hsame _ Hpe) as ->. rewrite Hpayload in Hpl. rewrite Hatt in Ha. rewrite Hreq in Hl.
  pose proof (statement_call_ok sha256 double_of numeric Hhex p e payload attrs c Hs Hsc) as Hc.
  unfold enqueue_reviewed_job_v1 in H. destruct (_ && _) in H; [|done].
  rewrite (admitted_link_ok sha256 double_of numeric jsonb_text p c e payload attrs Hn Hs Hc) in H.
  destruct (insert_job rows _) as [rows2|] eqn:Ei in H; [|done]. injection H as ->.
  destruct (sent_row_reviewed sha256 double_of numeric p c e payload attrs clock Hhex Hn Hs Hc)
    as (claimed & stored & Hcl & Hpj & Hce & Hca & Hclk & Hrev).
  rewrite (call_id _ _ _ _ _ _ _ _ Hc), (call_attributes _ _ _ _ _ _ _ _ Hc) in Ei, Hcl.
  exists payload, (requested_envelope c), stored, attrs, (ip_link p), claimed.
  pose proof (column_same double_of numeric Hn payload stored (sent_printed _ _ _ _ _ _ Hs) Hpj) as Hsr.
  split_and!; try done. apply (call_envelope _ _ _ _ _ _ _ _ Hc).
Qed.

(** C7: the two admission checks agree: of a job the repository lets through, the
    function refuses the columns only when the job occurred outside the years 1 to
    9999; otherwise it is the rows the job refers to, and the table's own keys,
    that decide. *)
Theorem function_agrees sha256 double_of numeric numeric_eqb jsonb_text timestamptz utc_text collate job p c :
  (forall m, HEX64_PATTERN (sha256 m) = true) -> numeric_ok numeric -> (forall text, numeric_eqb text text = true) ->
  casts_times timestamptz utc_text -> collates_digits collate -> payload_as_printed sha256 double_of job ->
  checked_parameters sha256 double_of job = Ok p -> statement_call numeric p = Some c ->
  exists t, member_text jsonb_text "occurredAt" (Some (requested_envelope c)) = Some (toISOString t) /\
    valid_time t = true /\
    forall db rows now,
      insert sha256 double_of numeric numeric_eqb jsonb_text timestamptz utc_text collate true db rows now job =
      if bool_decide (1 <= c_year (civil_of_time t) <= 9999) && referenced jsonb_text timestamptz c db
      then or_throw (to_option (insert_job rows (new_row now (ip_id p) (requested_envelope c)
             (requested_message_attributes c) (ip_link p)))) PERSISTENCE_FAILED
      else Err PERSISTENCE_FAILED.
Proof.
  intros Hhex Hn Hrefl Hcast Hcoll Hp Hcp Hsc.
  destruct (checked_parameters_ok _ _ _ _ Hhex Hp Hcp) as (_ & e & payload & attrs & _ & _ & _ & _ & _ & Hs).
  pose proof (statement_call_ok sha256 double_of numeric Hhex p e payload attrs c Hs Hsc) as Hc.
  destruct (accepted_years sha256 double_of numeric numeric_eqb jsonb_text timestamptz utc_text collate Hrefl p c e payload attrs
    Hn Hs Hc Hcast Hcoll) as (t & Ht & Hvt & Hacc).
  exists t. split; [done|]. split; [done|]. intros db rows now. unfold insert. cbn [negb]. rewrite Hcp. cbn [rlift rcatch rbind].
  rewrite Hsc. cbn [mbind option_bind]. unfold enqueue_reviewed_job_v1.
  rewrite (admitted_link_ok sha256 double_of numeric jsonb_text p c e payload attrs Hn Hs Hc).
  assert (requested_id c = ip_id p) as -> by (rewrite (call_id _ _ _ _ _ _ _ _ Hc); symmetry; apply (sent_id _ _ _ _ _ _ Hs)).
  destruct (columns_accepted _ _ _ _ _ c).
  - rewrite bool_decide_eq_true_2 by (by apply Hacc). by destruct (referenced _ _ _ _).
  - rewrite bool_decide_eq_false_2; [done|]. intros Hy. by apply Hacc in Hy.
Qed.

(** ** Examples *)

Definition admission_payload_example : BalanceSyncJobPayload :=
  {| bs_accountId := job_uuid "5"; bs_walletId := job_uuid "6"; bs_networkId := "eip155:1";
     bs_requiredTier := PROVISIONAL; bs_cause := MANUAL_RECOVERY; bs_attempt := 2;
     bs_rescanFromPosition := Some "21000000" |}.

Definition admission_envelope_example (occurredAt : string) : JobEnvelope :=
  {| env_id := job_uuid "1"; env_kind := BALANCE_SYNC_JOB_KIND; env_version := 1; env_occurredAt := occurredAt;
     env_correlation := {[ "correlationId" := job_uuid "2"; "requestId" := job_uuid "2" ]};
     env_payload := payload_js admission_payload_example |}.

Definition admission_job_example (occurredAt : string) : jsval :=
  js_object [("destination", VStr "jobs"); ("envelope", envelope_js (admission_envelope_example occurredAt));
             ("messageAttributes", js_object [])].

Definition wallet_example (status : string) : wallet_row :=
  {| wal_wallet_id := job_uuid "6"; wal_account_id := job_uuid "5"; wal_status := status; wal_revoked_at := None;
     wal_registry_environment := "MAINNET"; wal_chain_namespace := "eip155"; wal_chain_reference := "1" |}.

Definition tables_example (status : string) : referenced_tables :=
  {| ledger_command_idempotency := []; ledger_journals := []; yield_operation_submissions := [];
     yield_operation_commands := []; yield_operation_command_results := []; yield_operations := [];
     yield_operation_transition_events := []; registered_wallets := [wallet_example status] |}.

Definition timestamptz_example (s : string) : option Z :=
  t ← canonical_timestamp s; if c_year (civil_of_time t) =? 0 then None else Some (t * 1000).
Definition utc_text_example (microseconds : Z) : string := toISOString (microseconds / 1000).
Definition jsonb_text_example (_ : json) : string := "".

Notation insert_example := (insert job_sha256_example message_double_example numeric_example String.eqb
  jsonb_text_example timestamptz_example utc_text_example collate_example).

(** Admitted; refused for its year, its wallet, its transaction, its kind. *)
Example insert_examples :
  let now := "2026-09-01T00:00:00.000Z" in
  size <$> to_option (insert_example true (tables_example "ACTIVE") ∅ 1000 (admission_job_example now)) = Some 1%nat /\
  to_option (insert_example true (tables_example "ACTIVE") ∅ 1000 (admission_job_example "0000-09-01T00:00:00.000Z")) = None /\
  insert_example true (tables_example "ACTIVE") ∅ 1000 (admission_job_example "+012026-09-01T00:00:00.000Z")
    = Err PERSISTENCE_FAILED /\
  insert_example true (tables_example "REVOKED") ∅ 1000 (admission_job_example now) = Err PERSISTENCE_FAILED /\
  insert_example false (tables_example "ACTIVE") ∅ 1000 (admission_job_example now) = Err NO_TRANSACTION /\
  insert_example true (tables_example "ACTIVE") ∅ 1000 (js_object [("destination", VStr "jobs");
      ("envelope", envelope_js {| env_id := "1"; env_kind := "unreviewed"; env_version := 1; env_occurredAt := now;
         env_correlation := {[ "correlationId" := job_uuid "2" ]}; env_payload := VNull |});
      ("messageAttributes", js_object [])]) = Err (INVALID_JOB (Some UNREVIEWED_JOB_CONTRACT)).
Proof. vm_compute. done. Qed.

Definition admission_date_example : string := "2026-09-01T00:00:00.000Z".

Definition insert_parameters_example : insert_parameters :=
  match checked_parameters job_sha256_example message_double_example (admission_job_example admission_date_example) with
  | Ok p => p
  | Err _ => {| ip_id := ""; ip_destination := ""; ip_envelope := ""; ip_attributes := ""; ip_link := None |}
  end.

Definition admission_call_example : admission_call :=
  match statement_call numeric_example insert_parameters_example with
  | Some c => c
  | None => {| requested_id := ""; requested_destination := ""; requested_envelope := JNull;
               requested_message_attributes := JNull; requested_ledger_command_id := None;
               requested_ledger_journal_id := None |}
  end.

Definition admitted_rows_example : gmap string (job_row json) :=
  {[ job_uuid "1"%char := new_row 1000 (job_uuid "1"%char) (requested_envelope admission_call_example) (JObject []) None ]}.

Lemma checked_example : checked_parameters job_sha256_example message_double_example
  (admission_job_example admission_date_example) = Ok insert_parameters_example.
Proof. vm_compute. reflexivity. Qed.

Lemma called_example : statement_call numeric_example insert_parameters_example = Some admission_call_example.
Proof. vm_compute. reflexivity. Qed.

Lemma inserted_example : insert_example true (tables_example "ACTIVE") ∅ 1000 (admission_job_example admission_date_example)
  = Ok admitted_rows_example.
Proof. vm_compute. reflexivity. Qed.

Lemma payload_printed_example payload :
  plain_json MAX_JOB_JSON_DEPTH (payload_js admission_payload_example) = Some payload -> as_printed message_double_example payload.
Proof.
  assert (plain_json MAX_JOB_JSON_DEPTH (payload_js admission_payload_example) =
    Some (JObject [("schemaVersion", JNumeral "1"); ("accountId", JString (job_uuid "5"%char));
      ("walletId", JString (job_uuid "6"%char)); ("networkId", JString "eip155:1"); ("requiredTier", JString "PROVISIONAL");
      ("cause", JString "MANUAL_RECOVERY"); ("attempt", JNumeral "2"); ("rescanFromPosition", JString "21000000")])) as ->
    by (vm_compute; reflexivity).
  intros [= <-]. apply as_printed_object. repeat (apply Forall_cons; split); try apply Forall_nil; cbn [snd as_printed];
    first [exact I | split; vm_compute; reflexivity].
Qed.

Lemma printed_example : payload_as_printed job_sha256_example message_double_example (admission_job_example admission_date_example).
Proof.
  intros record e payload Hr He Hp.
  assert (parseNewOutboxJob (admission_job_example admission_date_example) =
    Some [("destination", VStr "jobs"); ("envelope", envelope_js (admission_envelope_example admission_date_example));
          ("messageAttributes", js_object [])]) as Hr' by (vm_compute; reflexivity).
  rewrite Hr' in Hr. injection Hr as <-.
  assert (parseJobEnvelope job_sha256_example (envelope_js (admission_envelope_example admission_date_example))
    = Some (admission_envelope_example admission_date_example)) as He' by (vm_compute; reflexivity).
  cbn [field String.eqb Ascii.eqb Bool.eqb] in He. rewrite He' in He. injection He as <-. by apply payload_printed_example.
Qed.

Lemma casts_times_example : casts_times timestamptz_example utc_text_example.
Proof.
  intros t Ht. unfold timestamptz_example, utc_text_example.
  assert (canonical_timestamp (toISOString t) = Some t) as Hc by (by apply canonical_timestamp_spec). rewrite Hc.
  cbn [mbind option_bind]. destruct (_ =? 0); [done|]. split; [done|]. by rewrite Z.div_mul by lia.
Qed.

Lemma collates_digits_example : collates_digits collate_example.
Proof.
  intros a b _ _ _ H. unfold collate_example. destruct (String.eqb_spec a b) as [|Hne]; [lia|].
  destruct (str_lt a b) eqn:E; [lia|]. destruct Hne. by apply str_lt_total.
Qed.

Definition request_example : EnqueueRequest :=
  {| rq_kind := BALANCE_SYNC_JOB_KIND; rq_payload := payload_js admission_payload_example; rq_id := Some (job_uuid "1"%char);
     rq_version := VUndef; rq_occurredAt := Some admission_date_example;
     rq_correlation := correlation_object {[ "correlationId" := job_uuid "2"%char; "requestId" := job_uuid "2"%char ]};
     rq_destination := VUndef; rq_messageAttributes := VUndef; rq_ledgerLink := None |}.

Lemma enqueued_example : enqueue job_sha256_example message_double_example numeric_example String.eqb jsonb_text_example
  timestamptz_example utc_text_example collate_example None "" "" 0 true (tables_example "ACTIVE") ∅ 1000 request_example
  = Ok (admission_envelope_example admission_date_example, admitted_rows_example).
Proof. vm_compute. reflexivity. Qed.

Lemma enqueued_job_reviewed_witness : exists column attributes link claimed,
  insert_job ∅ (new_row 1000 (job_uuid "1"%char) column attributes link) = Ok admitted_rows_example /\
  parseBalanceSyncPayload (env_payload (job_envelope claimed)) = Ok admission_payload_example /\
  reviewed_message job_sha256_example (message_of claimed).
Proof.
  destruct (enqueued_job_reviewed job_sha256_example message_double_example numeric_example String.eqb jsonb_text_example
    timestamptz_example utc_text_example collate_example None "" "" 0 true (tables_example "ACTIVE") ∅ 1000 request_example
    (admission_envelope_example admission_date_example) admitted_rows_example example_sha256_hex numeric_example_ok
    payload_printed_example enqueued_example)
    as (_ & _ & payload & column & stored & attrs & link & claimed & Hpl & _ & Hst & _ & _ & _ & H1 & _ & H2 & _ & _ & H3).
  exists column, (attributes_json attrs), link, claimed. split; [exact H1|]. split; [|exact H3].
  rewrite H2. vm_compute in Hpl. injection Hpl as <-. vm_compute in Hst. injection Hst as <-. vm_compute. reflexivity.
Defined.

Lemma function_agrees_witness : exists t, valid_time t = true /\
  insert_example true (tables_example "REVOKED") ∅ 1000 (admission_job_example admission_date_example)
  = if bool_decide (1 <= c_year (civil_of_time t) <= 9999)
       && referenced jsonb_text_example timestamptz_example admission_call_example (tables_example "REVOKED")
    then or_throw (to_option (insert_job ∅ (new_row 1000 (ip_id insert_parameters_example)
           (requested_envelope admission_call_example) (requested_message_attributes admission_call_example)
           (ip_link insert_parameters_example)))) PERSISTENCE_FAILED
    else Err PERSISTENCE_FAILED.
Proof.
  destruct (function_agrees job_sha256_example message_double_example numeric_example String.eqb jsonb_text_example
    timestamptz_example utc_text_example collate_example (admission_job_example admission_date_example)
    insert_parameters_example admission_call_example example_sha256_hex numeric_example_ok String.eqb_refl
    casts_times_example collates_digits_example printed_example checked_example called_example) as (t & _ & Hv & H).
  exists t. split; [exact Hv | exact (H (tables_example "REVOKED") ∅ 1000)].
Defined.
