(* ===== verification/RoutingFee.v ===== *)
(** * Routing fees (apps/api/src/routing-fees/domain/routing-fee.ts)

    Versioned fee rules, route classification and the fee snapshot of a quote:
    exact decimal rates, explicit rounding, totals per asset and a fingerprint
    of the whole snapshot. *)

From stdpp Require Import base list strings sets sorting.
From Stdlib Require Import ZArith Lia Sorted Ascii.
From S2P Require Import Prelude Text JsValue JsDate JsCollections Digest Json.

Open Scope Z_scope.

(** ** Data *)

Definition MAX_DECIMAL_DIGITS : Z := 78.
Definition MAX_DECIMAL_SCALE : Z := 77.
Definition MAX_REFERENCE_LENGTH : Z := 192.
Definition MAX_ROUTE_LEGS : Z := 32.
Definition MAX_FEE_COMPONENTS : Z := 32.

Definition MAX_ROUTING_FEE_ATOMIC_AMOUNT : string :=
  "115792089237316195423570985008687907853269984665640564039457584007913129639935".

Inductive RoutingFeeTier : Type := FREE | INDIVIDUAL | PRO.
Inductive RoutingFeeCategory : Type := PLATFORM | NETWORK | DEX | BRIDGE_FEE | PROVIDER.
Inductive RoutingFeeDeductionMode : Type :=
| ADDED_ON_TOP | DEDUCTED_FROM_INPUT | DEDUCTED_FROM_OUTPUT.
Inductive RoutingFeeRoundingMode : Type := DOWN | UP | HALF_EVEN.
Inductive RoutingFeeRouteLegKind : Type := DIRECT_SETTLEMENT | SWAP | BRIDGE.
Inductive RoutingFeeRouteClassificationKind : Type := DIRECT_COMPATIBLE | MATERIAL_ORCHESTRATION.
Inductive RoutingFeeClassificationReason : Type :=
| SINGLE_DIRECT_COMPATIBLE_LEG | MULTI_LEG_ROUTE | SWAP_REQUIRED | BRIDGE_REQUIRED.
Inductive RoutingFeeComponentSource : Type := PLATFORM_RULE | PASS_THROUGH_QUOTE.

#[export] Program Instance ROUTING_FEE_TIERS : JsEnum RoutingFeeTier := {
  enum_values := [FREE; INDIVIDUAL; PRO];
  enum_str := fun t => match t with FREE => "FREE" | INDIVIDUAL => "INDIVIDUAL" | PRO => "PRO" end;
}.
Next Obligation. solve_enum_all. Qed.
Next Obligation. solve_enum_inj. Qed.

#[export] Program Instance ROUTING_FEE_CATEGORIES : JsEnum RoutingFeeCategory := {
  enum_values := [PLATFORM; NETWORK; DEX; BRIDGE_FEE; PROVIDER];
  enum_str := fun c => match c with
    | PLATFORM => "PLATFORM" | NETWORK => "NETWORK" | DEX => "DEX"
    | BRIDGE_FEE => "BRIDGE" | PROVIDER => "PROVIDER" end;
}.
Next Obligation. solve_enum_all. Qed.
Next Obligation. solve_enum_inj. Qed.

Definition ROUTING_FEE_PASS_THROUGH_CATEGORIES : list RoutingFeeCategory :=
  [NETWORK; DEX; BRIDGE_FEE; PROVIDER].

#[export] Program Instance ROUTING_FEE_DEDUCTION_MODES : JsEnum RoutingFeeDeductionMode := {
  enum_values := [ADDED_ON_TOP; DEDUCTED_FROM_INPUT; DEDUCTED_FROM_OUTPUT];
  enum_str := fun m => match m with
    | ADDED_ON_TOP => "ADDED_ON_TOP" | DEDUCTED_FROM_INPUT => "DEDUCTED_FROM_INPUT"
    | DEDUCTED_FROM_OUTPUT => "DEDUCTED_FROM_OUTPUT" end;
}.
Next Obligation. solve_enum_all. Qed.
Next Obligation. solve_enum_inj. Qed.

#[export] Program Instance ROUTING_FEE_ROUNDING_MODES : JsEnum RoutingFeeRoundingMode := {
  enum_values := [DOWN; UP; HALF_EVEN];
  enum_str := fun m => match m with DOWN => "DOWN" | UP => "UP" | HALF_EVEN => "HALF_EVEN" end;
}.
Next Obligation. solve_enum_all. Qed.
Next Obligation. solve_enum_inj. Qed.

#[export] Program Instance ROUTING_FEE_ROUTE_LEG_KINDS : JsEnum RoutingFeeRouteLegKind := {
  enum_values := [DIRECT_SETTLEMENT; SWAP; BRIDGE];
  enum_str := fun k => match k with
    | DIRECT_SETTLEMENT => "DIRECT_SETTLEMENT" | SWAP => "SWAP" | BRIDGE => "BRIDGE" end;
}.
Next Obligation. solve_enum_all. Qed.
Next Obligation. solve_enum_inj. Qed.

#[export] Program Instance ROUTING_FEE_ROUTE_CLASSIFICATIONS
    : JsEnum RoutingFeeRouteClassificationKind := {
  enum_values := [DIRECT_COMPATIBLE; MATERIAL_ORCHESTRATION];
  enum_str := fun k => match k with
    | DIRECT_COMPATIBLE => "DIRECT_COMPATIBLE"
    | MATERIAL_ORCHESTRATION => "MATERIAL_ORCHESTRATION" end;
}.
Next Obligation. solve_enum_all. Qed.
Next Obligation. solve_enum_inj. Qed.

#[export] Program Instance ROUTING_FEE_CLASSIFICATION_REASONS
    : JsEnum RoutingFeeClassificationReason := {
  enum_values := [SINGLE_DIRECT_COMPATIBLE_LEG; MULTI_LEG_ROUTE; SWAP_REQUIRED; BRIDGE_REQUIRED];
  enum_str := fun r => match r with
    | SINGLE_DIRECT_COMPATIBLE_LEG => "SINGLE_DIRECT_COMPATIBLE_LEG"
    | MULTI_LEG_ROUTE => "MULTI_LEG_ROUTE" | SWAP_REQUIRED => "SWAP_REQUIRED"
    | BRIDGE_REQUIRED => "BRIDGE_REQUIRED" end;
}.
Next Obligation. solve_enum_all. Qed.
Next Obligation. solve_enum_inj. Qed.

#[export] Program Instance ROUTING_FEE_COMPONENT_SOURCES : JsEnum RoutingFeeComponentSource := {
  enum_values := [PLATFORM_RULE; PASS_THROUGH_QUOTE];
  enum_str := fun s => match s with
    | PLATFORM_RULE => "PLATFORM_RULE" | PASS_THROUGH_QUOTE => "PASS_THROUGH_QUOTE" end;
}.
Next Obligation. solve_enum_all. Qed.
Next Obligation. solve_enum_inj. Qed.

Definition ROUTING_FEE_V1_BASIS_POINTS (t : RoutingFeeTier) : Z :=
  match t with
  | FREE => 20
  | INDIVIDUAL => 12
  | PRO => 8
  end.

Record RoutingFeeDecimalV1 : Type := {
  mantissa : string;
  scale : Z;
}.

Record RoutingFeeTierRates : Type := {
  FREE_rate : RoutingFeeDecimalV1;
  INDIVIDUAL_rate : RoutingFeeDecimalV1;
  PRO_rate : RoutingFeeDecimalV1;
}.

Record RoutingFeeRuleVersionV1 : Type := {
  ruleReferenceId : string;
  version : Z;
  effectiveFrom : string;
  effectiveUntil : option string;
  roundingMode : RoutingFeeRoundingMode;
  directCompatible : RoutingFeeDecimalV1;
  materialOrchestration : RoutingFeeTierRates;
}.

Record RoutingFeeRouteEndpointV1 : Type := {
  networkId : string;
  assetId : string;
}.

Record RoutingFeeRouteLegV1 : Type := {
  leg_kind : RoutingFeeRouteLegKind;
  leg_source : RoutingFeeRouteEndpointV1;
  leg_destination : RoutingFeeRouteEndpointV1;
}.

Record RoutingFeeRouteV1 : Type := {
  route_source : RoutingFeeRouteEndpointV1;
  route_destination : RoutingFeeRouteEndpointV1;
  legs : list RoutingFeeRouteLegV1;
}.

Record RoutingFeeRouteClassificationV1 : Type := {
  classification_kind : RoutingFeeRouteClassificationKind;
  reasons : list RoutingFeeClassificationReason;
}.

Record RoutingFeeAtomicAmountInput : Type := {
  assetRevisionId : string;
  amountAtomic : string;
}.

Record RoutingFeePassThroughComponentInput : Type := {
  pass_category : RoutingFeeCategory;
  pass_amount : RoutingFeeAtomicAmountInput;
  pass_deductionMode : RoutingFeeDeductionMode;
  pass_sourceReferenceId : string;
}.

Record RoutingFeeComponentV1 : Type := {
  lineNumber : Z;
  category : RoutingFeeCategory;
  component_amount : RoutingFeeAtomicAmountInput;
  deductionMode : RoutingFeeDeductionMode;
  source : RoutingFeeComponentSource;
  sourceReferenceId : string;
}.

(** The snapshot, without its fingerprint. *)
Record RoutingFeeSnapshotV1 : Type := {
  quoteReferenceId : string;
  routeReferenceId : string;
  quotedAt : string;
  snapshot_tier : RoutingFeeTier;
  rule : RoutingFeeRuleVersionV1;
  route : RoutingFeeRouteV1;
  routeClassification : RoutingFeeRouteClassificationV1;
  feeBase : RoutingFeeAtomicAmountInput;
  components : list RoutingFeeComponentV1;
  totals : list RoutingFeeAtomicAmountInput;
}.

Inductive RoutingFeeValidationCode : Type :=
| INVALID_RULE | INVALID_RULE_CATALOG | NO_EFFECTIVE_RULE | INVALID_ROUTE
| INVALID_CALCULATION_INPUT | INVALID_FEE_COMPONENT | INVALID_ATOMIC_AMOUNT
| NUMERIC_LIMIT_EXCEEDED.

Notation fee_result := (result RoutingFeeValidationCode).

(** ** Parsers *)

Definition ownDataRecord (value : jsval) (requiredKeys optionalKeys : list string)
    (code : RoutingFeeValidationCode) : fee_result jsrec :=
  or_throw (data_record requiredKeys optionalKeys value) code.

Definition exactDataRecord (value : jsval) (keys : list string) (code : RoutingFeeValidationCode)
    : fee_result jsrec :=
  ownDataRecord value keys [] code.

Definition ownDataArray (value : jsval) (minimumLength maximumLength : Z)
    (code : RoutingFeeValidationCode) : fee_result (list jsval) :=
  or_throw (data_array minimumLength maximumLength value) code.

Definition enumMember {A} `{JsEnum A} (value : jsval) (allowed : list A)
    (code : RoutingFeeValidationCode) : fee_result A :=
  or_throw (enum_member allowed value) code.

Definition uuidV4 (value : jsval) (code : RoutingFeeValidationCode) : fee_result string :=
  match value with
  | VStr s => if UUID_V4_PATTERN s then Ok s else Err code
  | _ => Err code
  end.

Definition safeReference (value : jsval) (code : RoutingFeeValidationCode) : fee_result string :=
  match value with
  | VStr s =>
      if (strlen s =? 0) || (MAX_REFERENCE_LENGTH <? strlen s) || negb (REFERENCE_PATTERN s)
      then Err code else Ok s
  | _ => Err code
  end.

Definition positiveVersion (value : jsval) (code : RoutingFeeValidationCode) : fee_result Z :=
  match safe_integer value with
  | Some n => if n <? 1 then Err code else Ok n
  | None => Err code
  end.

Definition canonicalTimestamp (value : jsval) (code : RoutingFeeValidationCode)
    : fee_result string :=
  match value with
  | VStr s => match canonical_timestamp s with Some _ => Ok s | None => Err code end
  | _ => Err code
  end.

Definition parseDecimal (value : jsval) (code : RoutingFeeValidationCode)
    : fee_result RoutingFeeDecimalV1 :=
  let* record := exactDataRecord value ["mantissa"; "scale"] code in
  match record .: "mantissa", safe_integer (record .: "scale") with
  | VStr m, Some s =>
      if negb (UNSIGNED_INTEGER_PATTERN m) || (MAX_DECIMAL_DIGITS <? strlen m)
         || (s <? 0) || (MAX_DECIMAL_SCALE <? s) || (10 ^ s <? BigInt m)
      then Err code
      else Ok {| mantissa := m; scale := s |}
  | _, _ => Err code
  end.

Definition isZeroDecimal (d : RoutingFeeDecimalV1) : bool := String.eqb (mantissa d) "0".

Definition parseAtomicAmount (value : jsval) (allowZero : bool) (code : RoutingFeeValidationCode)
    : fee_result string :=
  match value with
  | VStr s =>
      if negb (if allowZero then UNSIGNED_INTEGER_PATTERN s else POSITIVE_INTEGER_PATTERN s)
         || exceeds_decimal MAX_ROUTING_FEE_ATOMIC_AMOUNT s
      then Err code
      else Ok s
  | _ => Err code
  end.

Definition parseRates (value : jsval) : fee_result RoutingFeeTierRates :=
  let* record := exactDataRecord value ["FREE"; "INDIVIDUAL"; "PRO"] INVALID_RULE in
  let* free := parseDecimal (record .: "FREE") INVALID_RULE in
  let* individual := parseDecimal (record .: "INDIVIDUAL") INVALID_RULE in
  let* pro := parseDecimal (record .: "PRO") INVALID_RULE in
  Ok {| FREE_rate := free; INDIVIDUAL_rate := individual; PRO_rate := pro |}.

(** ** Rules *)

Definition normalizeRoutingFeeRuleVersionV1 (value : jsval) : fee_result RoutingFeeRuleVersionV1 :=
  let* record := exactDataRecord value
    ["schemaVersion"; "ruleReferenceId"; "version"; "effectiveFrom"; "effectiveUntil";
     "routeClassificationVersion"; "roundingMode"; "platformRates"] INVALID_RULE in
  reject INVALID_RULE when negb (is_int (record .: "schemaVersion") 1)
                           || negb (is_int (record .: "routeClassificationVersion") 1) in
  let* effectiveFrom := canonicalTimestamp (record .: "effectiveFrom") INVALID_RULE in
  let* effectiveUntil :=
    if is_null (record .: "effectiveUntil") then Ok None
    else rmap Some (canonicalTimestamp (record .: "effectiveUntil") INVALID_RULE) in
  reject INVALID_RULE when
    match effectiveUntil with
    | Some until => negb (str_lt effectiveFrom until)
    | None => false
    end in
  let* platformRates := exactDataRecord (record .: "platformRates")
    ["directCompatible"; "materialOrchestration"] INVALID_RULE in
  let* directCompatible := parseDecimal (platformRates .: "directCompatible") INVALID_RULE in
  reject INVALID_RULE when negb (isZeroDecimal directCompatible) in
  let* ruleReferenceId := uuidV4 (record .: "ruleReferenceId") INVALID_RULE in
  let* version := positiveVersion (record .: "version") INVALID_RULE in
  let* roundingMode := enumMember (record .: "roundingMode") enum_values INVALID_RULE in
  let* materialOrchestration := parseRates (platformRates .: "materialOrchestration") in
  Ok {| ruleReferenceId := ruleReferenceId; version := version; effectiveFrom := effectiveFrom;
        effectiveUntil := effectiveUntil; roundingMode := roundingMode;
        directCompatible := directCompatible; materialOrchestration := materialOrchestration |}.

(** The comparator of the catalog's [sort]. *)
Definition compare_rules (left right : RoutingFeeRuleVersionV1) : Z :=
  if String.eqb (effectiveFrom left) (effectiveFrom right) then version left - version right
  else if str_lt (effectiveFrom left) (effectiveFrom right) then -1 else 1.

(** The check on neighbours in the sorted catalog. *)
Definition follows (current next : RoutingFeeRuleVersionV1) : bool :=
  negb ((version next <=? version current)
        || match effectiveUntil current with
           | None => true
           | Some until => str_lt (effectiveFrom next) until
           end).

Fixpoint chained (rules : list RoutingFeeRuleVersionV1) : bool :=
  match rules with
  | current :: (next :: _) as rest => follows current next && chained rest
  | _ => true
  end.

Definition catalog_error {A} (m : fee_result A) : fee_result A :=
  rcatch m (fun _ => Err INVALID_RULE_CATALOG).

(** The sorted rules of an accepted catalog. *)
Definition normalizeRoutingFeeRuleCatalogV1 (value : jsval)
    : fee_result (list RoutingFeeRuleVersionV1) :=
  let* record := exactDataRecord value ["schemaVersion"; "rules"] INVALID_RULE_CATALOG in
  reject INVALID_RULE_CATALOG when negb (is_int (record .: "schemaVersion") 1) in
  let* rawRules := catalog_error (ownDataArray (record .: "rules") 1 128 INVALID_RULE_CATALOG) in
  let* rules := catalog_error (mapr normalizeRoutingFeeRuleVersionV1 rawRules) in
  let sorted := js_sort compare_rules rules in
  reject INVALID_RULE_CATALOG when
    negb (set_size (ruleReferenceId <$> sorted) =? length sorted)%nat
    || negb (set_size (version <$> sorted) =? length sorted)%nat in
  reject INVALID_RULE_CATALOG when negb (chained sorted) in
  Ok sorted.

(** In force at [at_]: from the start (inclusive) until the end (exclusive). *)
Definition in_force (at_ : string) (r : RoutingFeeRuleVersionV1) : bool :=
  negb (str_lt at_ (effectiveFrom r))
  && match effectiveUntil r with
     | None => true
     | Some until => str_lt at_ until
     end.

Definition resolveRoutingFeeRuleV1 (catalogValue atValue : jsval)
    : fee_result RoutingFeeRuleVersionV1 :=
  let* catalog := normalizeRoutingFeeRuleCatalogV1 catalogValue in
  let* at_ := canonicalTimestamp atValue NO_EFFECTIVE_RULE in
  match List.filter (in_force at_) catalog with
  | [matching] => Ok matching
  | _ => Err NO_EFFECTIVE_RULE
  end.

(** ** Routes *)

Definition parseEndpoint (value : jsval) : fee_result RoutingFeeRouteEndpointV1 :=
  let* record := exactDataRecord value ["networkId"; "assetId"] INVALID_ROUTE in
  let* networkId := safeReference (record .: "networkId") INVALID_ROUTE in
  let* assetId := safeReference (record .: "assetId") INVALID_ROUTE in
  Ok {| networkId := networkId; assetId := assetId |}.

Definition sameEndpoint (left right : RoutingFeeRouteEndpointV1) : bool :=
  String.eqb (networkId left) (networkId right) && String.eqb (assetId left) (assetId right).

Definition parseLeg (value : jsval) : fee_result RoutingFeeRouteLegV1 :=
  let* record := exactDataRecord value ["kind"; "source"; "destination"] INVALID_ROUTE in
  let* kind := enumMember (record .: "kind") enum_values INVALID_ROUTE in
  let* source := parseEndpoint (record .: "source") in
  let* destination := parseEndpoint (record .: "destination") in
  reject INVALID_ROUTE when
    match kind with
    | DIRECT_SETTLEMENT => negb (sameEndpoint source destination)
    | SWAP => negb (String.eqb (networkId source) (networkId destination))
              || String.eqb (assetId source) (assetId destination)
    | BRIDGE => String.eqb (networkId source) (networkId destination)
    end in
  Ok {| leg_kind := kind; leg_source := source; leg_destination := destination |}.

(** The loop over neighbouring legs. *)
Fixpoint connected (legs : list RoutingFeeRouteLegV1) : bool :=
  match legs with
  | previous :: (next :: _) as rest =>
      sameEndpoint (leg_destination previous) (leg_source next) && connected rest
  | _ => true
  end.

Definition normalizeRoutingFeeRouteV1 (value : jsval) : fee_result RoutingFeeRouteV1 :=
  let* record := exactDataRecord value ["schemaVersion"; "source"; "destination"; "legs"]
                   INVALID_ROUTE in
  reject INVALID_ROUTE when negb (is_int (record .: "schemaVersion") 1) in
  let* source := parseEndpoint (record .: "source") in
  let* destination := parseEndpoint (record .: "destination") in
  let* values := ownDataArray (record .: "legs") 1 MAX_ROUTE_LEGS INVALID_ROUTE in
  let* legs := mapr parseLeg values in
  reject INVALID_ROUTE when
    match head legs, last legs with
    | Some first, Some final =>
        negb (sameEndpoint source (leg_source first))
        || negb (sameEndpoint destination (leg_destination final))
    | _, _ => true
    end in
  reject INVALID_ROUTE when negb (connected legs) in
  Ok {| route_source := source; route_destination := destination; legs := legs |}.

Definition leg_kind_eqb (a b : RoutingFeeRouteLegKind) : bool := bool_decide (a = b).

Definition classifyNormalizedRoute (route : RoutingFeeRouteV1) : RoutingFeeRouteClassificationV1 :=
  let swapRequired := existsb (fun l => leg_kind_eqb (leg_kind l) SWAP) (legs route) in
  let bridgeRequired := existsb (fun l => leg_kind_eqb (leg_kind l) BRIDGE) (legs route) in
  let multiLeg := (1 <? length (legs route))%nat in
  if negb swapRequired && negb bridgeRequired && negb multiLeg
  then {| classification_kind := DIRECT_COMPATIBLE; reasons := [SINGLE_DIRECT_COMPATIBLE_LEG] |}
  else {| classification_kind := MATERIAL_ORCHESTRATION;
          reasons := (if multiLeg then [MULTI_LEG_ROUTE] else [])
                     ++ (if swapRequired then [SWAP_REQUIRED] else [])
                     ++ (if bridgeRequired then [BRIDGE_REQUIRED] else []) |}.

Definition classifyRoutingFeeRouteV1 (value : jsval) : fee_result RoutingFeeRouteClassificationV1 :=
  rmap classifyNormalizedRoute (normalizeRoutingFeeRouteV1 value).

(** ** Amounts *)

Definition parseFeeBase (value : jsval) : fee_result RoutingFeeAtomicAmountInput :=
  let* record := exactDataRecord value ["assetRevisionId"; "amountAtomic"]
                   INVALID_CALCULATION_INPUT in
  let* asset := uuidV4 (record .: "assetRevisionId") INVALID_CALCULATION_INPUT in
  let* amount := parseAtomicAmount (record .: "amountAtomic") false INVALID_ATOMIC_AMOUNT in
  Ok {| assetRevisionId := asset; amountAtomic := amount |}.

Definition parsePassThroughComponent (value : jsval)
    : fee_result RoutingFeePassThroughComponentInput :=
  let* record := exactDataRecord value
    ["category"; "assetRevisionId"; "amountAtomic"; "deductionMode"; "sourceReferenceId"]
    INVALID_FEE_COMPONENT in
  let* category := enumMember (record .: "category") ROUTING_FEE_PASS_THROUGH_CATEGORIES
                     INVALID_FEE_COMPONENT in
  let* asset := uuidV4 (record .: "assetRevisionId") INVALID_FEE_COMPONENT in
  let* amount := parseAtomicAmount (record .: "amountAtomic") true INVALID_ATOMIC_AMOUNT in
  let* deductionMode := enumMember (record .: "deductionMode") enum_values INVALID_FEE_COMPONENT in
  let* sourceReferenceId := uuidV4 (record .: "sourceReferenceId") INVALID_FEE_COMPONENT in
  Ok {| pass_category := category;
        pass_amount := {| assetRevisionId := asset; amountAtomic := amount |};
        pass_deductionMode := deductionMode; pass_sourceReferenceId := sourceReferenceId |}.

Definition effectiveTier (value : jsval) : fee_result RoutingFeeTier :=
  match value with
  | VUndef | VNull => Ok FREE
  | _ => enumMember value enum_values INVALID_CALCULATION_INPUT
  end.

(** Division of non-negative bigints. *)
Definition roundRatio (numerator denominator : Z) (roundingMode : RoutingFeeRoundingMode) : Z :=
  let quotient := numerator / denominator in
  let remainder := numerator mod denominator in
  if remainder =? 0 then quotient
  else match roundingMode with
       | DOWN => quotient
       | UP => quotient + 1
       | HALF_EVEN =>
           let doubledRemainder := remainder * 2 in
           if doubledRemainder <? denominator then quotient
           else if denominator <? doubledRemainder then quotient + 1
           else if quotient mod 2 =? 0 then quotient else quotient + 1
       end.

Definition calculateRoutingFeeAtomicAmount (amountAtomicValue rateValue roundingModeValue : jsval)
    : fee_result string :=
  let* amount := parseAtomicAmount amountAtomicValue true INVALID_ATOMIC_AMOUNT in
  let* rate := parseDecimal rateValue INVALID_RULE in
  let* mode := enumMember roundingModeValue enum_values INVALID_RULE in
  let result := roundRatio (BigInt amount * BigInt (mantissa rate)) (10 ^ scale rate) mode in
  reject NUMERIC_LIMIT_EXCEEDED when BigInt MAX_ROUTING_FEE_ATOMIC_AMOUNT <? result in
  Ok (toString result).

(** The loop of [totalsByAsset], then the entries in asset order. *)
Fixpoint add_totals (components : list RoutingFeeComponentV1) (totals : list (string * Z))
    : fee_result (list (string * Z)) :=
  match components with
  | [] => Ok totals
  | component :: components =>
      let asset := assetRevisionId (component_amount component) in
      let next := default 0 (mget asset totals) + BigInt (amountAtomic (component_amount component)) in
      reject NUMERIC_LIMIT_EXCEEDED when BigInt MAX_ROUTING_FEE_ATOMIC_AMOUNT <? next in
      add_totals components (mset asset next totals)
  end.

Definition compare_keys (left right : string * Z) : Z :=
  if String.eqb left.1 right.1 then 0 else if str_lt left.1 right.1 then -1 else 1.

Definition totalsByAsset (components : list RoutingFeeComponentV1)
    : fee_result (list RoutingFeeAtomicAmountInput) :=
  let* totals := add_totals components [] in
  Ok ((fun kv => {| assetRevisionId := kv.1; amountAtomic := toString kv.2 |})
        <$> js_sort compare_keys totals).

(** ** Snapshots *)

Definition decimal_js (d : RoutingFeeDecimalV1) : jsval := js_object
  [("mantissa", VStr (mantissa d)); ("scale", VNum (JInt (scale d)))].

Definition decimal_json (d : RoutingFeeDecimalV1) : json :=
  JObject [("mantissa", JString (mantissa d)); ("scale", JNumber (scale d))].

Definition rule_json (r : RoutingFeeRuleVersionV1) : json := JObject
  [("schemaVersion", JNumber 1); ("ruleReferenceId", JString (ruleReferenceId r));
   ("version", JNumber (version r)); ("effectiveFrom", JString (effectiveFrom r));
   ("effectiveUntil", match effectiveUntil r with Some t => JString t | None => JNull end);
   ("routeClassificationVersion", JNumber 1);
   ("roundingMode", JString (enum_str (roundingMode r)));
   ("platformRates", JObject
      [("directCompatible", decimal_json (directCompatible r));
       ("materialOrchestration", JObject
          [("FREE", decimal_json (FREE_rate (materialOrchestration r)));
           ("INDIVIDUAL", decimal_json (INDIVIDUAL_rate (materialOrchestration r)));
           ("PRO", decimal_json (PRO_rate (materialOrchestration r)))])])].

Definition endpoint_json (e : RoutingFeeRouteEndpointV1) : json := JObject
  [("networkId", JString (networkId e)); ("assetId", JString (assetId e))].

Definition leg_json (l : RoutingFeeRouteLegV1) : json := JObject
  [("kind", JString (enum_str (leg_kind l))); ("source", endpoint_json (leg_source l));
   ("destination", endpoint_json (leg_destination l))].

Definition route_json (r : RoutingFeeRouteV1) : json := JObject
  [("schemaVersion", JNumber 1); ("source", endpoint_json (route_source r));
   ("destination", endpoint_json (route_destination r)); ("legs", JArray (leg_json <$> legs r))].

Definition classification_json (c : RoutingFeeRouteClassificationV1) : json := JObject
  [("version", JNumber 1); ("kind", JString (enum_str (classification_kind c)));
   ("reasons", JArray ((fun r => JString (enum_str r)) <$> reasons c))].

Definition amount_json (a : RoutingFeeAtomicAmountInput) : json := JObject
  [("assetRevisionId", JString (assetRevisionId a)); ("amountAtomic", JString (amountAtomic a))].

Definition component_json (c : RoutingFeeComponentV1) : json := JObject
  [("lineNumber", JNumber (lineNumber c)); ("category", JString (enum_str (category c)));
   ("assetRevisionId", JString (assetRevisionId (component_amount c)));
   ("amountAtomic", JString (amountAtomic (component_amount c)));
   ("deductionMode", JString (enum_str (deductionMode c)));
   ("source", JString (enum_str (source c)));
   ("sourceReferenceId", JString (sourceReferenceId c))].

(** The snapshot as [JSON.stringify] sees it. *)
Definition snapshot_json (s : RoutingFeeSnapshotV1) : json := JObject
  [("schemaVersion", JNumber 1); ("quoteReferenceId", JString (quoteReferenceId s));
   ("routeReferenceId", JString (routeReferenceId s)); ("quotedAt", JString (quotedAt s));
   ("effectiveTier", JString (enum_str (snapshot_tier s))); ("rule", rule_json (rule s));
   ("route", route_json (route s));
   ("routeClassification", classification_json (routeClassification s));
   ("feeBase", amount_json (feeBase s)); ("components", JArray (component_json <$> components s));
   ("totalsByAsset", JArray (amount_json <$> totals s))].

(** The rate the rule asks for on this route. *)
Definition platform_rate (r : RoutingFeeRuleVersionV1) (kind : RoutingFeeRouteClassificationKind)
    (tier : RoutingFeeTier) : RoutingFeeDecimalV1 :=
  match kind with
  | DIRECT_COMPATIBLE => directCompatible r
  | MATERIAL_ORCHESTRATION =>
      match tier with
      | FREE => FREE_rate (materialOrchestration r)
      | INDIVIDUAL => INDIVIDUAL_rate (materialOrchestration r)
      | PRO => PRO_rate (materialOrchestration r)
      end
  end.

Definition platform_component (base : RoutingFeeAtomicAmountInput) (amount ruleId : string)
    : RoutingFeeComponentV1 :=
  {| lineNumber := 1; category := PLATFORM;
     component_amount := {| assetRevisionId := assetRevisionId base; amountAtomic := amount |};
     deductionMode := ADDED_ON_TOP; source := PLATFORM_RULE; sourceReferenceId := ruleId |}.

Definition pass_through_component (index : nat) (c : RoutingFeePassThroughComponentInput)
    : RoutingFeeComponentV1 :=
  {| lineNumber := Z.of_nat index + 2; category := pass_category c;
     component_amount := pass_amount c; deductionMode := pass_deductionMode c;
     source := PASS_THROUGH_QUOTE; sourceReferenceId := pass_sourceReferenceId c |}.

Section snapshots.
(** [createHash('sha256')] from bytes to a lower-case hexadecimal digest. *)
Variable sha256 : string -> string.

Definition fingerprint (value : json) : string :=
  sha256 (utf8 ("crypto-lending:routing-fee-snapshot:v1" +:+ String Ascii.zero "")
          +:+ utf8 (stringify value)).

Definition calculateRoutingFeeSnapshotV1 (inputValue catalogValue : jsval)
    : fee_result (RoutingFeeSnapshotV1 * string) :=
  let* record := ownDataRecord inputValue
    ["schemaVersion"; "quoteReferenceId"; "routeReferenceId"; "quotedAt"; "route"; "feeBase";
     "passThroughComponents"] ["tier"] INVALID_CALCULATION_INPUT in
  reject INVALID_CALCULATION_INPUT when negb (is_int (record .: "schemaVersion") 1) in
  let* quoteReferenceId := uuidV4 (record .: "quoteReferenceId") INVALID_CALCULATION_INPUT in
  let* routeReferenceId := uuidV4 (record .: "routeReferenceId") INVALID_CALCULATION_INPUT in
  let* quotedAt := canonicalTimestamp (record .: "quotedAt") INVALID_CALCULATION_INPUT in
  let* tier := effectiveTier (record .: "tier") in
  let* route := normalizeRoutingFeeRouteV1 (record .: "route") in
  let routeClassification := classifyNormalizedRoute route in
  let* feeBase := parseFeeBase (record .: "feeBase") in
  let* values := ownDataArray (record .: "passThroughComponents") 0 (MAX_FEE_COMPONENTS - 1)
                   INVALID_FEE_COMPONENT in
  let* passThroughComponents := mapr parsePassThroughComponent values in
  let* rule := resolveRoutingFeeRuleV1 catalogValue (VStr quotedAt) in
  let* platformAmount := calculateRoutingFeeAtomicAmount (VStr (amountAtomic feeBase))
    (decimal_js (platform_rate rule (classification_kind routeClassification) tier))
    (VStr (enum_str (roundingMode rule))) in
  let components := platform_component feeBase platformAmount (ruleReferenceId rule)
                    :: imap pass_through_component passThroughComponents in
  let* totals := totalsByAsset components in
  let snapshot := {| quoteReferenceId := quoteReferenceId; routeReferenceId := routeReferenceId;
    quotedAt := quotedAt; snapshot_tier := tier; rule := rule; route := route;
    routeClassification := routeClassification; feeBase := feeBase; components := components;
    totals := totals |} in
  let fingerprintSha256 := fingerprint (snapshot_json snapshot) in
  reject INVALID_CALCULATION_INPUT when negb (HEX64_PATTERN fingerprintSha256) in
  Ok (snapshot, fingerprintSha256).
End snapshots.

(** ** The shipped rule *)

Definition ROUTING_FEE_RULE_V1_literal : jsval := js_object
  [("schemaVersion", VNum (JInt 1));
   ("ruleReferenceId", VStr "76000000-0000-4000-8000-000000000001"); ("version", VNum (JInt 1));
   ("effectiveFrom", VStr "2026-08-25T00:00:00.000Z"); ("effectiveUntil", VNull);
   ("routeClassificationVersion", VNum (JInt 1)); ("roundingMode", VStr "HALF_EVEN");
   ("platformRates", js_object
      [("directCompatible", js_object [("mantissa", VStr "0"); ("scale", VNum (JInt 0))]);
       ("materialOrchestration", js_object
          ((fun t => (enum_str t, js_object
              [("mantissa", VStr (toString (ROUTING_FEE_V1_BASIS_POINTS t)));
               ("scale", VNum (JInt 4))])) <$> [FREE; INDIVIDUAL; PRO]))])].

Definition ROUTING_FEE_RULE_V1 : fee_result RoutingFeeRuleVersionV1 :=
  normalizeRoutingFeeRuleVersionV1 ROUTING_FEE_RULE_V1_literal.

(** A rule as the object the catalog is built from. *)
Definition rule_js (r : RoutingFeeRuleVersionV1) : jsval := js_object
  [("schemaVersion", VNum (JInt 1)); ("ruleReferenceId", VStr (ruleReferenceId r));
   ("version", VNum (JInt (version r))); ("effectiveFrom", VStr (effectiveFrom r));
   ("effectiveUntil", js_nullable (effectiveUntil r));
   ("routeClassificationVersion", VNum (JInt 1));
   ("roundingMode", VStr (enum_str (roundingMode r)));
   ("platformRates", js_object
      [("directCompatible", decimal_js (directCompatible r));
       ("materialOrchestration", js_object
          [("FREE", decimal_js (FREE_rate (materialOrchestration r)));
           ("INDIVIDUAL", decimal_js (INDIVIDUAL_rate (materialOrchestration r)));
           ("PRO", decimal_js (PRO_rate (materialOrchestration r)))])])].

Definition catalog_js (rules : list jsval) : jsval := js_object
  [("schemaVersion", VNum (JInt 1)); ("rules", js_array rules)].

Definition ROUTING_FEE_RULE_CATALOG_V1 : fee_result (list RoutingFeeRuleVersionV1) :=
  let* rule := ROUTING_FEE_RULE_V1 in
  normalizeRoutingFeeRuleCatalogV1 (catalog_js [rule_js rule]).

(** ** Specification *)

(** The rounding modes on the exact quotient [x / d]. *)
Definition rounds (mode : RoutingFeeRoundingMode) (x d n : Z) : Prop :=
  match mode with
  | DOWN => n * d <= x < (n + 1) * d
  | UP => (n - 1) * d < x <= n * d
  | HALF_EVEN => half_even x d n
  end.

(** A rate between 0 and 1. *)
Definition decimal_wf (d : RoutingFeeDecimalV1) : Prop :=
  UNSIGNED_INTEGER_PATTERN (mantissa d) = true /\ strlen (mantissa d) <= 78 /\
  0 <= scale d <= 77 /\ BigInt (mantissa d) <= 10 ^ scale d.

Definition uint256 (s : string) : Prop := exists n, 0 <= n <= MAX_UINT256 /\ s = toString n.

(** One rule ends before the next one starts. *)
Definition before (r1 r2 : RoutingFeeRuleVersionV1) : Prop :=
  version r1 < version r2 /\
  exists until, effectiveUntil r1 = Some until /\ str_lt (effectiveFrom r2) until = false.

(** Canonical instants, and the start before the end. *)
Definition rule_times (r : RoutingFeeRuleVersionV1) : Prop :=
  exists from, four_digit_time from /\ effectiveFrom r = toISOString from /\
    match effectiveUntil r with
    | None => True
    | Some s => exists until, four_digit_time until /\ s = toISOString until /\ from < until
    end.

(** A rule covers an instant of its half-open interval. *)
Definition covers (r : RoutingFeeRuleVersionV1) (t : Z) : Prop :=
  exists from, effectiveFrom r = toISOString from /\ four_digit_time from /\ from <= t /\
    match effectiveUntil r with
    | None => True
    | Some s => exists until, s = toISOString until /\ four_digit_time until /\ t < until
    end.

(** A way from one endpoint to another, leg by leg. *)
Inductive path : RoutingFeeRouteEndpointV1 -> list RoutingFeeRouteLegV1 ->
    RoutingFeeRouteEndpointV1 -> Prop :=
| path_leg l : path (leg_source l) [l] (leg_destination l)
| path_cons l ls e : path (leg_destination l) ls e -> path (leg_source l) (l :: ls) e.

Definition leg_wf (l : RoutingFeeRouteLegV1) : Prop :=
  match leg_kind l with
  | DIRECT_SETTLEMENT => leg_source l = leg_destination l
  | SWAP => networkId (leg_source l) = networkId (leg_destination l) /\
            assetId (leg_source l) <> assetId (leg_destination l)
  | BRIDGE => networkId (leg_source l) <> networkId (leg_destination l)
  end.

(** The exact total of one asset. *)
Definition asset_total (asset : string) (cs : list RoutingFeeComponentV1) : Z :=
  foldr Z.add 0 ((fun c => BigInt (amountAtomic (component_amount c)))
                   <$> filter (fun c => assetRevisionId (component_amount c) = asset) cs).

Definition component_assets (cs : list RoutingFeeComponentV1) : list string :=
  (fun c => assetRevisionId (component_amount c)) <$> cs.

Definition endpoint_js (e : RoutingFeeRouteEndpointV1) : jsval := js_object
  [("networkId", VStr (networkId e)); ("assetId", VStr (assetId e))].

Definition leg_js (l : RoutingFeeRouteLegV1) : jsval := js_object
  [("kind", VStr (enum_str (leg_kind l))); ("source", endpoint_js (leg_source l));
   ("destination", endpoint_js (leg_destination l))].

Definition route_js (r : RoutingFeeRouteV1) : jsval := js_object
  [("schemaVersion", VNum (JInt 1)); ("source", endpoint_js (route_source r));
   ("destination", endpoint_js (route_destination r)); ("legs", js_array (leg_js <$> legs r))].

Definition reference (s : string) : Prop :=
  1 <= strlen s <= 192 /\ REFERENCE_PATTERN s = true.

Definition endpoint_wf (e : RoutingFeeRouteEndpointV1) : Prop :=
  reference (networkId e) /\ reference (assetId e).

(** What the module accepts as a route. *)
Definition route_wf (r : RoutingFeeRouteV1) : Prop :=
  path (route_source r) (legs r) (route_destination r) /\
  Forall (fun l => leg_wf l /\ endpoint_wf (leg_source l) /\ endpoint_wf (leg_destination l)) (legs r) /\
  Z.of_nat (length (legs r)) <= MAX_ROUTE_LEGS.

Definition atomic_components (cs : list RoutingFeeComponentV1) : Prop :=
  Forall (fun c => uint256 (amountAtomic (component_amount c))) cs.

(** One entry per asset in asset order, each with the exact sum. *)
Definition totals_exact (cs : list RoutingFeeComponentV1)
    (ts : list RoutingFeeAtomicAmountInput) : Prop :=
  StronglySorted (fun a b => str_lt (assetRevisionId a) (assetRevisionId b) = true) ts /\
  (forall a, a ∈ (assetRevisionId <$> ts) <-> a ∈ component_assets cs) /\
  Forall (fun t => amountAtomic t = toString (asset_total (assetRevisionId t) cs) /\
                   asset_total (assetRevisionId t) cs <= MAX_UINT256) ts.

(** A pass-through line: never the platform's, and a uint256. *)
Definition pass_wf (c : RoutingFeePassThroughComponentInput) : Prop :=
  pass_category c <> PLATFORM /\ uint256 (amountAtomic (pass_amount c)).

(** The message hashed for a snapshot. *)
Definition snapshot_message (s : RoutingFeeSnapshotV1) : string :=
  utf8 ("crypto-lending:routing-fee-snapshot:v1" +:+ String Ascii.zero "")
  +:+ utf8 (stringify (snapshot_json s)).

(** What a computed snapshot is. *)
Definition snapshot_wf (s : RoutingFeeSnapshotV1) : Prop :=
  exists base n pass,
    route_wf (route s) /\
    routeClassification s = classifyNormalizedRoute (route s) /\
    1 <= base <= MAX_UINT256 /\ amountAtomic (feeBase s) = toString base /\
    0 <= n <= base /\
    (let rate := platform_rate (rule s) (classification_kind (routeClassification s)) (snapshot_tier s) in
     rounds (roundingMode (rule s)) (base * BigInt (mantissa rate)) (10 ^ scale rate) n) /\
    components s = platform_component (feeBase s) (toString n) (ruleReferenceId (rule s))
                   :: imap pass_through_component pass /\
    Forall pass_wf pass /\ Z.of_nat (length (components s)) <= MAX_FEE_COMPONENTS /\
    totals_exact (components s) (totals s).

(** ** Lemmas: rounding *)

Lemma roundRatio_rounds x d mode : 0 < d -> rounds mode x d (roundRatio x d mode).
Proof.
  intros Hd. unfold roundRatio, rounds. pose proof (half_even_division x d Hd) as Hh.
  pose proof (Z.div_mod x d ltac:(lia)) as E. pose proof (Z.mod_pos_bound x d Hd) as B.
  destruct (Z.eqb_spec (x mod d) 0) as [Hm|Hm]; [|destruct mode; [nia | nia | exact Hh]].
  destruct mode; [nia | nia |]. rewrite Hm, Z.mul_0_l in Hh.
  by rewrite (proj2 (Z.ltb_lt 0 d) Hd) in Hh.
Qed.

(** The specification leaves no choice. *)
Lemma rounds_unique mode x d n n' : 0 < d -> rounds mode x d n -> rounds mode x d n' -> n = n'.
Proof. intros Hd. unfold rounds. destruct mode; [nia | nia |]. by apply half_even_unique. Qed.

(** A rate of at most one never rounds above the amount. *)
Lemma rounds_le mode a m d n :
  0 <= a -> 0 <= m <= d -> 0 < d -> rounds mode (a * m) d n -> 0 <= n <= a.
Proof.
  intros Ha Hm Hd H. assert (0 <= a * m <= a * d) as Hb by nia.
  destruct mode; cbn in H.
  - split; [nia|]. destruct (Z.le_gt_cases n a); [done | nia].
  - split; [nia|]. destruct (Z.le_gt_cases n a); [done | nia].
  - destruct H as [H Ht]. split.
    + destruct (Z.le_gt_cases 0 n) as [|L]; [done|]. exfalso.
      assert (n * d <= - d) by nia. lia.
    + destruct (Z.le_gt_cases n a) as [|L]; [done|]. exfalso.
      assert (a * d + d <= n * d) by nia. lia.
Qed.

(** ** Lemmas: decimals and amounts *)

Lemma MAX_ROUTING_FEE_value : BigInt MAX_ROUTING_FEE_ATOMIC_AMOUNT = MAX_UINT256.
Proof. reflexivity. Qed.

Lemma uuidV4_ok v code s : uuidV4 v code = Ok s <-> v = VStr s /\ UUID_V4_PATTERN s = true.
Proof.
  unfold uuidV4. split.
  - destruct v; try discriminate. destruct (UUID_V4_PATTERN _) eqn:E; [|discriminate]. by intros [= <-].
  - by intros [-> ->].
Qed.

Lemma canonicalTimestamp_ok v code s :
  canonicalTimestamp v code = Ok s <->
  v = VStr s /\ exists t, four_digit_time t /\ s = toISOString t.
Proof.
  unfold canonicalTimestamp. split.
  - destruct v; try discriminate. destruct (canonical_timestamp _) as [t|] eqn:E; [|discriminate].
    intros [= <-]. split; [done|]. exists t. by apply canonical_timestamp_spec.
  - intros (-> & t & Ht & ->). by rewrite (proj2 (canonical_timestamp_spec _ t)).
Qed.

Lemma positiveVersion_ok v code n :
  positiveVersion v code = Ok n <-> v = VNum (JInt n) /\ 1 <= n <= MAX_SAFE_INTEGER.
Proof.
  unfold positiveVersion, safe_integer. split.
  - destruct v as [| | |[z| |]| | | | | | | |]; try discriminate.
    destruct (Z.leb_spec (Z.abs z) MAX_SAFE_INTEGER); [|discriminate].
    destruct (Z.ltb_spec z 1); [discriminate|]. intros [= <-]. split; [done|]. lia.
  - intros [-> Hn]. rewrite (proj2 (Z.leb_le _ _)), (proj2 (Z.ltb_ge _ _)); [done | lia | lia].
Qed.

Lemma parseDecimal_wf v code d : parseDecimal v code = Ok d -> decimal_wf d.
Proof.
  unfold parseDecimal, MAX_DECIMAL_DIGITS, MAX_DECIMAL_SCALE. intros H. inv_ok.
  destruct (r .: "mantissa"); try discriminate.
  destruct (safe_integer _) as [n|] eqn:E; [|discriminate]. inv_ok. bsimpl. subst d.
  by repeat split.
Qed.

Lemma parseDecimal_code v code e : parseDecimal v code = Err e -> e = code.
Proof.
  unfold parseDecimal, exactDataRecord, ownDataRecord, or_throw.
  destruct (data_record _ _ _) as [r|]; cbn [rbind]; [|congruence].
  destruct (r .: "mantissa"), (safe_integer (r .: "scale")); try congruence. destruct (_ || _); congruence.
Qed.

Lemma parseDecimal_js code d : decimal_wf d -> parseDecimal (decimal_js d) code = Ok d.
Proof.
  intros (Hu & Hl & Hs & Hb). unfold parseDecimal, exactDataRecord, ownDataRecord, decimal_js.
  read_data_record. unfold safe_integer, MAX_DECIMAL_DIGITS, MAX_DECIMAL_SCALE.
  rewrite (proj2 (Z.leb_le _ _)) by (unfold MAX_SAFE_INTEGER; lia). rewrite Hu.
  rewrite !(proj2 (Z.ltb_ge _ _)) by lia. by destruct d.
Qed.

Lemma feeAtomicAmount_ok v (zero : bool) code s :
  parseAtomicAmount v zero code = Ok s <->
  v = VStr s /\ exists n, (if zero then 0 else 1) <= n <= MAX_UINT256 /\ s = toString n.
Proof.
  assert (POSITIVE_INTEGER_PATTERN MAX_ROUTING_FEE_ATOMIC_AMOUNT = true) as HM by reflexivity.
  assert (forall s, POSITIVE_INTEGER_PATTERN s = true -> UNSIGNED_INTEGER_PATTERN s = true) as HU.
  { intros x Hx. unfold UNSIGNED_INTEGER_PATTERN. by rewrite Hx, orb_true_r. }
  unfold parseAtomicAmount. split.
  - destruct v as [| | | | |x| | | | | |]; try discriminate.
    destruct (_ || _) eqn:E; [discriminate|]. intros [= <-]. split; [done|].
    apply orb_false_iff in E as [E1 E2]. apply negb_false_iff in E1.
    assert (UNSIGNED_INTEGER_PATTERN x = true) as Hx by (destruct zero; auto).
    apply exceeds_decimal_spec in E2; [|done|done]. rewrite MAX_ROUTING_FEE_value in E2.
    exists (BigInt x). split; [|symmetry; by apply toString_BigInt].
    split; [|done]. destruct zero; [by apply unsigned_integer_nonneg|].
    apply positive_integer_pos in E1. lia.
  - intros (-> & n & Hn & ->).
    assert (UNSIGNED_INTEGER_PATTERN (toString n) = true) as Hu
      by (apply toString_unsigned; destruct zero; lia).
    rewrite (proj2 (exceeds_decimal_spec _ _ HM Hu)).
    2:{ rewrite BigInt_toString, MAX_ROUTING_FEE_value by (destruct zero; lia). lia. }
    destruct zero; [by rewrite Hu|]. by rewrite toString_positive by lia.
Qed.

(** ** Lemmas: the fee amount *)

Lemma scale_pos d : decimal_wf d -> 0 < 10 ^ scale d.
Proof. intros (_ & _ & H & _). apply pow10_pos. lia. Qed.

(** The result on valid inputs: the rounded product, never above the amount. *)
Lemma fee_amount_ok a rate d mode :
  0 <= a <= MAX_UINT256 -> parseDecimal rate INVALID_RULE = Ok d ->
  exists n, 0 <= n <= a /\ rounds mode (a * BigInt (mantissa d)) (10 ^ scale d) n /\
    calculateRoutingFeeAtomicAmount (VStr (toString a)) rate (VStr (enum_str mode))
    = Ok (toString n).
Proof.
  intros Ha Er. pose proof (parseDecimal_wf _ _ _ Er) as Hd. pose proof (scale_pos d Hd) as Hs.
  pose proof (roundRatio_rounds (a * BigInt (mantissa d)) (10 ^ scale d) mode Hs) as Hr.
  pose proof Hd as (Hu & _ & _ & Hb). apply unsigned_integer_nonneg in Hu.
  pose proof (rounds_le _ a _ _ _ ltac:(lia) ltac:(split; [exact Hu | exact Hb]) Hs Hr) as Hle.
  eexists. split; [exact Hle|]. split; [exact Hr|].
  unfold calculateRoutingFeeAtomicAmount, enumMember.
  rewrite (proj2 (feeAtomicAmount_ok _ true _ (toString a))) by eauto. cbn [rbind].
  rewrite Er. cbn [rbind]. rewrite enum_member_str. cbn [or_throw rbind].
  rewrite BigInt_toString, MAX_ROUTING_FEE_value by lia.
  by rewrite (proj2 (Z.ltb_ge _ _)) by lia.
Qed.

(** ** Lemmas: rules and catalogs *)

Lemma normalizeRule_wf v r : normalizeRoutingFeeRuleVersionV1 v = Ok r ->
  rule_times r /\ decimal_wf (directCompatible r) /\ mantissa (directCompatible r) = "0" /\
  decimal_wf (FREE_rate (materialOrchestration r)) /\
  decimal_wf (INDIVIDUAL_rate (materialOrchestration r)) /\
  decimal_wf (PRO_rate (materialOrchestration r)) /\ 1 <= version r.
Proof.
  unfold normalizeRoutingFeeRuleVersionV1, parseRates. intros H. inv_ok. subst r.
  cbn [directCompatible materialOrchestration version]. subst.
  cbn [FREE_rate INDIVIDUAL_rate PRO_rate].
  apply canonicalTimestamp_ok in Hr0 as (_ & from & Hf & E).
  split.
  2:{ apply parseDecimal_wf in Hr3, Hr9, Hr10, Hr11. apply positiveVersion_ok in Hr5 as [_ Hv].
      bsimpl. apply String.eqb_eq in Hg1. repeat (split; [done|]). lia. }
  exists from. split; [done|]. split; [done|]. cbn [effectiveUntil].
  destruct (is_null _); [by injection Hr1 as <-|].
  destruct (canonicalTimestamp (r0 .: "effectiveUntil") INVALID_RULE) as [u|] eqn:Eu; [|discriminate].
  injection Hr1 as <-. apply canonicalTimestamp_ok in Eu as (_ & until & Hu & ->).
  exists until. split; [done|]. split; [done|]. apply negb_false_iff in Hg0.
  rewrite E, toISOString_lt in Hg0 by done. by apply Z.ltb_lt in Hg0.
Qed.

Lemma in_force_covers r t :
  rule_times r -> four_digit_time t -> in_force (toISOString t) r = true <-> covers r t.
Proof.
  intros (from & Hf & E & Hu) Ht. unfold in_force, covers. rewrite andb_true_iff, negb_true_iff, E.
  rewrite toISOString_lt, Z.ltb_ge by done.
  destruct (effectiveUntil r) as [s|].
  - destruct Hu as (until & Hu & -> & _). rewrite toISOString_lt, Z.ltb_lt by done. split.
    + intros [H1 H2]. exists from. split; [done|]. split; [done|]. split; [done|]. by exists until.
    + intros (from' & E1 & Hf' & H1 & until' & E2 & Hu' & H2).
      apply toISOString_inj in E1 as ->; [|by apply four_digit_valid ..].
      apply toISOString_inj in E2 as ->; [done | by apply four_digit_valid ..].
  - split.
    + intros [H1 _]. exists from. done.
    + intros (from' & E1 & Hf' & H1 & _). split; [|done].
      apply toISOString_inj in E1 as ->; [done | by apply four_digit_valid ..].
Qed.

Lemma follows_before r1 r2 : follows r1 r2 = true <-> before r1 r2.
Proof.
  unfold follows, before. rewrite negb_true_iff, orb_false_iff, Z.leb_gt.
  destruct (effectiveUntil r1) as [u|]; split; intros [H1 H2]; (split; [done|]).
  - by exists u.
  - by destruct H2 as (u' & [= <-] & H2).
  - done.
  - by destruct H2 as (u' & [=] & _).
Qed.

(** In times: the first rule ends no later than the second starts. *)
Lemma before_times r1 r2 : rule_times r1 -> rule_times r2 -> before r1 r2 <->
  version r1 < version r2 /\ exists u f, effectiveUntil r1 = Some (toISOString u) /\
    effectiveFrom r2 = toISOString f /\ four_digit_time u /\ four_digit_time f /\ u <= f.
Proof.
  intros (f1 & Hf1 & E1 & Hu1) (f2 & Hf2 & E2 & Hu2). unfold before.
  split; intros [Hv H]; (split; [done|]).
  - destruct H as (s & Es & H). rewrite Es in Hu1. destruct Hu1 as (u & Hu & -> & _).
    rewrite E2, toISOString_lt, Z.ltb_ge in H by done. by exists u, f2.
  - destruct H as (u & f & Eu & Ef & Hu & Hf & Hle). exists (toISOString u). split; [done|].
    rewrite Ef, toISOString_lt by done. by apply Z.ltb_ge.
Qed.

Lemma before_trans r1 r2 r3 : rule_times r1 -> rule_times r2 -> rule_times r3 ->
  before r1 r2 -> before r2 r3 -> before r1 r3.
Proof.
  intros H1 H2 H3. rewrite !before_times by done.
  intros (Hv & u1 & f2 & Eu1 & Ef2 & Hu1 & Hf2 & Hle) (Hv' & u2 & f3 & Eu2 & Ef3 & Hu2 & Hf3 & Hle').
  split; [lia|]. exists u1, f3. do 4 (split; [done|]).
  destruct H2 as (f & Hf & Ef & Hu). rewrite Eu2 in Hu. destruct Hu as (u & Hu & E & Hlt).
  rewrite Ef2 in Ef. apply toISOString_inj in Ef as ->; [|by apply four_digit_valid ..].
  apply toISOString_inj in E as ->; [lia | by apply four_digit_valid ..].
Qed.

Lemma chained_sorted rules :
  Forall rule_times rules -> chained rules = true -> StronglySorted before rules.
Proof.
  induction rules as [|r rules IH]; intros Ht Hc; [constructor|].
  apply Forall_cons in Ht as [Hr Ht]. destruct rules as [|r' rules]; [repeat constructor|].
  cbn [chained] in Hc. apply andb_true_iff in Hc as [Hf Hc]. apply follows_before in Hf.
  specialize (IH Ht Hc). constructor; [done|]. apply StronglySorted_inv in IH as [_ IH].
  pose proof Ht as [Hr' Ht']%Forall_cons. constructor; [done|].
  rewrite Forall_forall in *. intros x Hx. apply (before_trans _ r'); auto.
Qed.

(** Rules in sequence are never in force together. *)
Lemma before_disjoint r1 r2 t : rule_times r1 -> rule_times r2 -> before r1 r2 ->
  covers r1 t -> covers r2 t -> False.
Proof.
  intros H1 H2 (_ & u & f & Eu & Ef & Hu & Hf & Hle)%before_times; [|done|done].
  intros (f1 & _ & _ & _ & H) (f2 & E2 & Hf2 & Hle2 & _). rewrite Eu in H.
  destruct H as (u' & E & Hu' & Hlt). rewrite Ef in E2.
  apply toISOString_inj in E as ->; [|by apply four_digit_valid ..].
  apply toISOString_inj in E2 as ->; [lia | by apply four_digit_valid ..].
Qed.

Lemma filter_at_most_one {A} (R : A -> A -> Prop) (p : A -> bool) l :
  StronglySorted R l -> (forall a b, a ∈ l -> b ∈ l -> R a b -> p a = true -> p b = true -> False) ->
  forall a, a ∈ l -> p a = true -> List.filter p l = [a].
Proof.
  intros Hs. induction Hs as [|x l Hs IH Hx]; intros Hd a Ha Hp; [by apply not_elem_of_nil in Ha|].
  rewrite Forall_forall in Hx. cbn [List.filter].
  apply elem_of_cons in Ha as [->|Ha].
  - rewrite Hp. f_equal. destruct (List.filter p l) as [|y l'] eqn:E; [done|].
    assert (y ∈ List.filter p l) as Hy by (rewrite E; left).
    apply list_elem_of_In, filter_In in Hy as [Hy Hpy]. apply list_elem_of_In in Hy.
    exfalso. apply (Hd x y); auto; [left | by right].
  - destruct (p x) eqn:Hpx.
    + exfalso. apply (Hd x a); auto; [left | by right].
    + apply IH; auto. intros b c Hb Hc. apply Hd; by right.
Qed.

(** What an accepted catalog is. *)
Lemma normalizeCatalog_ok v rules :
  normalizeRoutingFeeRuleCatalogV1 v = Ok rules ->
  Forall rule_times rules /\ StronglySorted before rules /\
  NoDup (ruleReferenceId <$> rules) /\ NoDup (version <$> rules) /\
  exists raw values, mapr normalizeRoutingFeeRuleVersionV1 values = Ok raw /\
    rules = js_sort compare_rules raw.
Proof.
  unfold normalizeRoutingFeeRuleCatalogV1, catalog_error. intros H. inv_ok.
  destruct (mapr _ _) as [raw|] eqn:Em in Hr1; [|discriminate]. injection Hr1 as <-.
  assert (Forall rule_times raw) as Ht.
  { apply mapr_ok in Em. clear -Em. induction Em as [|w r ws rs Hw _ IH]; constructor; auto.
    by apply normalizeRule_wf in Hw as [? _]. }
  subst rules. assert (Forall rule_times (js_sort compare_rules raw)) as Hts by by rewrite js_sort_perm.
  split; [done|]. split; [apply chained_sorted; [done | by apply negb_false_iff]|].
  apply orb_false_iff in Hg0 as [Hg1' Hg2']. apply negb_false_iff, Nat.eqb_eq in Hg1', Hg2'.
  split; [apply set_size_NoDup; by rewrite length_fmap|].
  split; [apply set_size_NoDup; by rewrite length_fmap|]. by eexists _, _.
Qed.

Lemma sorted_total {A} (R : A -> A -> Prop) l : StronglySorted R l ->
  forall a b, a ∈ l -> b ∈ l -> a = b \/ R a b \/ R b a.
Proof.
  induction 1 as [|x l Hs IH Hx]; intros a b Ha Hb; [by apply not_elem_of_nil in Ha|].
  rewrite Forall_forall in Hx. apply elem_of_cons in Ha as [->|Ha], Hb as [->|Hb]; auto.
Qed.

(** The rules of an accepted catalog do not overlap. *)
Lemma covering_unique v rules r r' t : normalizeRoutingFeeRuleCatalogV1 v = Ok rules ->
  r ∈ rules -> r' ∈ rules -> covers r t -> covers r' t -> r' = r.
Proof.
  intros Hc Hr Hr' H H'. destruct (normalizeCatalog_ok _ _ Hc) as (Hts & Hs & _).
  rewrite Forall_forall in Hts.
  destruct (sorted_total before rules Hs r r' Hr Hr') as [->|[Hb|Hb]]; [done | |];
    exfalso; [apply (before_disjoint r r' t) | apply (before_disjoint r' r t)]; auto.
Qed.

#[export] Instance compare_rules_comparator : Comparator (fun _ => True) compare_rules.
Proof. apply (lexical_comparator _ effectiveFrom (fun a b => version a - version b)). split; lia. Qed.

Lemma compare_rules_tie a b : compare_rules a b <= 0 -> compare_rules b a <= 0 -> version a = version b.
Proof.
  unfold compare_rules. rewrite (String.eqb_sym (effectiveFrom b)).
  destruct (String.eqb_spec (effectiveFrom a) (effectiveFrom b)); [lia|].
  destruct (str_lt (effectiveFrom a) _) eqn:E1, (str_lt (effectiveFrom b) _) eqn:E2; try lia.
  by rewrite (str_lt_asym _ _ E1) in E2.
Qed.

#[export] Instance compare_keys_comparator : Comparator (fun _ => True) compare_keys.
Proof. apply (lexical_comparator _ fst (fun _ _ => 0)). split; lia. Qed.

(** ** Lemmas: routes *)

Lemma sameEndpoint_eq a b : sameEndpoint a b = true <-> a = b.
Proof.
  unfold sameEndpoint. rewrite andb_true_iff, !String.eqb_eq.
  destruct a, b; cbn. split; [intros [-> ->]; done | by intros [= -> ->]].
Qed.

Lemma safeReference_ok v code s : safeReference v code = Ok s <-> v = VStr s /\ reference s.
Proof.
  unfold safeReference, reference, MAX_REFERENCE_LENGTH. split.
  - destruct v; try discriminate. destruct (_ || _) eqn:E; [discriminate|]. intros [= <-].
    bsimpl. pose proof (strlen_nonneg s0). repeat split; [lia | lia | done].
  - intros (-> & Hl & ->). rewrite (proj2 (Z.eqb_neq _ _)), (proj2 (Z.ltb_ge _ _)) by lia. done.
Qed.

Lemma parseEndpoint_wf v e : parseEndpoint v = Ok e -> endpoint_wf e.
Proof.
  unfold parseEndpoint. intros H. inv_ok. subst e.
  apply safeReference_ok in Hr0 as [_ ?], Hr1 as [_ ?]. by split.
Qed.

Lemma parseEndpoint_js e : parseEndpoint (endpoint_js e) = Ok e <-> endpoint_wf e.
Proof.
  split; [apply parseEndpoint_wf|]. intros [Hn Ha]. unfold parseEndpoint, exactDataRecord,
    ownDataRecord, endpoint_js. read_data_record. cbn [or_throw rbind].
  rewrite (proj2 (safeReference_ok _ _ (networkId e))) by done. cbn [rbind].
  rewrite (proj2 (safeReference_ok _ _ (assetId e))) by done. by destruct e.
Qed.

(** The three shape checks of a leg. *)
Lemma leg_guard l :
  match leg_kind l with
  | DIRECT_SETTLEMENT => negb (sameEndpoint (leg_source l) (leg_destination l))
  | SWAP => negb (String.eqb (networkId (leg_source l)) (networkId (leg_destination l)))
            || String.eqb (assetId (leg_source l)) (assetId (leg_destination l))
  | BRIDGE => String.eqb (networkId (leg_source l)) (networkId (leg_destination l))
  end = false <-> leg_wf l.
Proof.
  unfold leg_wf. destruct (leg_kind l).
  - by rewrite negb_false_iff, sameEndpoint_eq.
  - by rewrite orb_false_iff, negb_false_iff, String.eqb_eq, String.eqb_neq.
  - by rewrite String.eqb_neq.
Qed.

Lemma parseLeg_wf v l : parseLeg v = Ok l ->
  leg_wf l /\ endpoint_wf (leg_source l) /\ endpoint_wf (leg_destination l).
Proof.
  unfold parseLeg. intros H. inv_ok. subst l. apply parseEndpoint_wf in Hr1, Hr2.
  split; [by apply leg_guard | done].
Qed.

Lemma parseLeg_js l :
  leg_wf l /\ endpoint_wf (leg_source l) /\ endpoint_wf (leg_destination l) ->
  parseLeg (leg_js l) = Ok l.
Proof.
  intros (Hl & Hs%parseEndpoint_js & Hd%parseEndpoint_js). apply leg_guard in Hl.
  unfold parseLeg, exactDataRecord, ownDataRecord, leg_js. read_data_record. cbn [or_throw rbind].
  unfold enumMember. rewrite enum_member_str. cbn [or_throw rbind]. rewrite Hs. cbn [rbind].
  rewrite Hd. cbn [rbind]. rewrite Hl. by destruct l.
Qed.

Lemma connected_path ls first final :
  connected ls = true -> head ls = Some first -> last ls = Some final ->
  path (leg_source first) ls (leg_destination final).
Proof.
  revert first. induction ls as [|l ls IH]; intros first Hc Hh Hl; [done|].
  injection Hh as <-. destruct ls as [|l' ls].
  - injection Hl as <-. constructor.
  - cbn [connected] in Hc. apply andb_true_iff in Hc as [Hs%sameEndpoint_eq Hc].
    apply path_cons. rewrite Hs. by apply IH.
Qed.

Lemma path_connected s ls d : path s ls d ->
  connected ls = true /\ exists first final, head ls = Some first /\ last ls = Some final /\
    s = leg_source first /\ d = leg_destination final.
Proof.
  induction 1 as [l|l ls e H (Hc & first & final & Hh & Hl & Hs & Hd)]; [eauto 10|].
  destruct ls as [|l' ls]; [done|]. injection Hh as <-. split.
  - apply sameEndpoint_eq in Hs. cbn [connected]. cbn [connected] in Hc. by rewrite Hs, Hc.
  - exists l, final. by repeat split.
Qed.

Lemma normalizeRoute_wf v r : normalizeRoutingFeeRouteV1 v = Ok r -> route_wf r.
Proof.
  unfold normalizeRoutingFeeRouteV1. intros H. inv_ok.
  destruct (head _) as [first|] eqn:Eh; [|discriminate].
  destruct (last _) as [final|] eqn:El; [|discriminate].
  apply orb_false_iff in Hg0 as [Hs%negb_false_iff%sameEndpoint_eq Hd%negb_false_iff%sameEndpoint_eq].
  apply negb_false_iff in Hg1. subst. unfold route_wf. cbn [legs route_source route_destination].
  split; [by apply connected_path|].
  unfold ownDataArray in Hr2. inv_ok. apply data_array_bounds in Hr2; [|lia].
  split; [|rewrite (mapr_length _ _ _ Hr3); lia].
  apply mapr_ok in Hr3. clear -Hr3. induction Hr3; constructor; [by eapply parseLeg_wf | done].
Qed.

Lemma normalizeRoute_js r : route_wf r -> normalizeRoutingFeeRouteV1 (route_js r) = Ok r.
Proof.
  intros (Hp & Hl & Hn). apply path_connected in Hp as (Hc & first & final & Hh & Hf & Hs & Hd).
  assert (endpoint_wf (route_source r) /\ endpoint_wf (route_destination r)) as [Hs' Hd'].
  { rewrite Forall_forall in Hl. rewrite Hs, Hd. split.
    - apply (Hl first). by apply head_Some_elem_of.
    - apply (Hl final). by apply last_Some_elem_of. }
  apply parseEndpoint_js in Hs', Hd'.
  unfold normalizeRoutingFeeRouteV1, exactDataRecord, ownDataRecord, route_js. read_data_record.
  cbn [is_int Z.eqb Pos.eqb negb]. rewrite Hs', Hd'. cbn [rbind].
  unfold ownDataArray, MAX_ROUTE_LEGS in *. rewrite data_array_literal.
  2:{ rewrite length_fmap. split; [|done]. destruct (legs r); [done|]. cbn [length]. lia. }
  2:{ unfold MAX_SAFE_INTEGER. lia. }
  cbn [or_throw rbind]. rewrite (mapr_decode leg_js parseLeg).
  2:{ intros l Hin. rewrite Forall_forall in Hl. by apply parseLeg_js, Hl. }
  cbn [rbind]. rewrite Hh, Hf, Hs, Hd, !(proj2 (sameEndpoint_eq _ _) eq_refl), Hc.
  cbn [negb orb]. rewrite <- Hs, <- Hd. by destruct r.
Qed.

(** ** Lemmas: totals *)

Lemma asset_total_cons a c cs :
  asset_total a (c :: cs) =
  (if decide (assetRevisionId (component_amount c) = a)
   then BigInt (amountAtomic (component_amount c)) else 0) + asset_total a cs.
Proof. unfold asset_total. rewrite filter_cons. by case_decide. Qed.

Lemma uint256_bounds s : uint256 s -> 0 <= BigInt s <= MAX_UINT256.
Proof. intros (n & Hn & ->). by rewrite BigInt_toString by lia. Qed.

Lemma asset_total_nonneg a cs : atomic_components cs -> 0 <= asset_total a cs.
Proof.
  induction 1 as [|c cs Hc _ IH]; [done|]. rewrite asset_total_cons.
  apply uint256_bounds in Hc. case_decide; lia.
Qed.

(** The loop adds the exact total of each asset to what it was given. *)
Lemma add_totals_spec cs m : atomic_components cs ->
  match add_totals cs m with
  | Ok m' => (forall a, a ∈ m'.*1 <-> a ∈ m.*1 \/ a ∈ component_assets cs) /\
             (NoDup m.*1 -> NoDup m'.*1) /\
             (forall a, default 0 (mget a m') = default 0 (mget a m) + asset_total a cs) /\
             (Forall (fun kv => kv.2 <= MAX_UINT256) m -> Forall (fun kv => kv.2 <= MAX_UINT256) m')
  | Err e => e = NUMERIC_LIMIT_EXCEEDED /\
             exists a, MAX_UINT256 < default 0 (mget a m) + asset_total a cs
  end.
Proof.
  intros Hcs. revert m. induction Hcs as [|c cs Hc Hcs IH]; intros m; cbn [add_totals].
  { split; [intros; cbn; set_solver|]. split; [done|]. split; [|done].
    intros a. change (asset_total a []) with 0. lia. }
  set (x := assetRevisionId (component_amount c)). rewrite MAX_ROUTING_FEE_value.
  set (n := default 0 (mget x m) + BigInt (amountAtomic (component_amount c))).
  destruct (Z.ltb_spec MAX_UINT256 n) as [L|L].
  { split; [done|]. exists x. rewrite asset_total_cons, decide_True by done.
    pose proof (asset_total_nonneg x cs Hcs). lia. }
  specialize (IH (mset x n m)).
  assert (forall a, default 0 (mget a (mset x n m)) + asset_total a cs
                    = default 0 (mget a m) + asset_total a (c :: cs)) as Hstep.
  { intros a. rewrite mget_mset, asset_total_cons. fold x. unfold n.
    destruct (decide (a = x)) as [->|Hne]; [rewrite decide_True by done|rewrite decide_False by done];
      cbn; lia. }
  destruct (add_totals cs (mset x n m)) as [m'|e].
  - destruct IH as (Hk & Hnd & Hv & Hmax). split; [|split; [|split]].
    + intros a. rewrite Hk, mset_keys. unfold component_assets. rewrite fmap_cons. fold x. set_solver.
    + intros H. by apply Hnd, mset_NoDup.
    + intros a. by rewrite Hv.
    + intros H. apply Hmax. by apply mset_Forall.
  - destruct IH as (-> & a & Ha). split; [done|]. exists a. by rewrite <- Hstep.
Qed.

Lemma totals_spec cs : atomic_components cs ->
  match totalsByAsset cs with
  | Ok ts => totals_exact cs ts
  | Err e => e = NUMERIC_LIMIT_EXCEEDED /\ exists a, MAX_UINT256 < asset_total a cs
  end.
Proof.
  intros Hcs. unfold totalsByAsset. pose proof (add_totals_spec cs [] Hcs) as H.
  destruct (add_totals cs []) as [m|e]; cbn [rbind]; [|exact H].
  destruct H as (Hk & Hnd & Hv & Hmax). specialize (Hnd (NoDup_nil_2)). specialize (Hmax (Forall_nil_2 _)).
  split; [|split].
  - apply (StronglySorted_fmap _ (fun a b : string * Z => str_lt a.1 b.1 = true)); [done|].
    eapply (sorted_distinct fst), (js_sort_sorted (fun _ => True) compare_keys).
    + by rewrite js_sort_perm.
    + intros a b Hne. unfold compare_keys. rewrite (proj2 (String.eqb_neq _ _) Hne).
      by destruct (str_lt a.1 b.1).
    + by apply Forall_true.
  - intros a. rewrite <- list_fmap_compose. change (assetRevisionId ∘ _) with (@fst string Z).
    rewrite js_sort_perm, Hk. set_solver.
  - apply Forall_fmap. rewrite js_sort_perm. apply Forall_forall. intros [a n] Hin.
    cbn. specialize (Hv a). rewrite (elem_mget a n) in Hv by done. cbn in Hv.
    rewrite Forall_forall in Hmax. specialize (Hmax _ Hin). cbn in Hmax. subst n. split; [done | lia].
Qed.

(** ** Lemmas: snapshots *)

Lemma parsePassThrough_wf v c : parsePassThroughComponent v = Ok c -> pass_wf c.
Proof.
  unfold parsePassThroughComponent, enumMember. intros H. inv_ok. subst c.
  apply enum_member_spec in Hr0 as [Hc _]. apply feeAtomicAmount_ok in Hr2 as (_ & n & Hn & ->).
  split; cbn; [|by exists n]. intros ->. revert Hc. by apply (bool_decide_eq_true_1 _).
Qed.

Lemma mapr_Forall {E A B} (f : A -> result E B) (P : B -> Prop) l bs :
  (forall a b, f a = Ok b -> P b) -> mapr f l = Ok bs -> Forall P bs.
Proof. intros Hf H%mapr_ok. induction H; constructor; eauto. Qed.

Lemma parseFeeBase_ok v b : parseFeeBase v = Ok b ->
  exists n, 1 <= n <= MAX_UINT256 /\ amountAtomic b = toString n.
Proof.
  unfold parseFeeBase. intros H. inv_ok. subst b. by apply feeAtomicAmount_ok in Hr1 as [_ ?].
Qed.

(** The rules of an accepted catalog have well-formed rates. *)
Definition rates_wf (r : RoutingFeeRuleVersionV1) : Prop :=
  forall kind tier, decimal_wf (platform_rate r kind tier).

Lemma normalizeRule_rates v r : normalizeRoutingFeeRuleVersionV1 v = Ok r -> rates_wf r.
Proof.
  intros (_ & H & _ & H1 & H2 & H3 & _)%normalizeRule_wf [] []; assumption.
Qed.

Lemma resolve_inv cv av r : resolveRoutingFeeRuleV1 cv av = Ok r ->
  exists rules at_, normalizeRoutingFeeRuleCatalogV1 cv = Ok rules /\
    canonicalTimestamp av NO_EFFECTIVE_RULE = Ok at_ /\ List.filter (in_force at_) rules = [r].
Proof.
  unfold resolveRoutingFeeRuleV1. intros H. inv_ok. exists r0, r1.
  destruct (List.filter _ _) as [|x [|]]; try discriminate. by injection H as ->.
Qed.

Lemma normalizeCatalog_rates cv rules :
  normalizeRoutingFeeRuleCatalogV1 cv = Ok rules -> Forall rates_wf rules.
Proof.
  intros (_ & _ & _ & _ & raw & values & Hm & ->)%normalizeCatalog_ok.
  rewrite js_sort_perm. eapply mapr_Forall; [apply normalizeRule_rates | exact Hm].
Qed.

Lemma decimal_parse_js d : decimal_wf d -> parseDecimal (decimal_js d) INVALID_RULE = Ok d.
Proof. apply parseDecimal_js. Qed.

Lemma imap_Forall {A B} (f : nat -> A -> B) (P : A -> Prop) (Q : B -> Prop) l :
  (forall i a, P a -> Q (f i a)) -> Forall P l -> Forall Q (imap f l).
Proof.
  intros Hf H. revert f Hf. induction H; intros f Hf; [constructor|].
  rewrite imap_cons. constructor; [by apply Hf|]. apply IHForall. intros i a. by apply Hf.
Qed.

Lemma component_atomic b n id pass :
  uint256 n -> Forall pass_wf pass ->
  atomic_components (platform_component b n id :: imap pass_through_component pass).
Proof.
  intros Hn Hp. constructor; [done|]. eapply imap_Forall; [|exact Hp]. intros i a [_ H]. exact H.
Qed.

Lemma snapshot_ok sha256 iv cv s fp :
  calculateRoutingFeeSnapshotV1 sha256 iv cv = Ok (s, fp) ->
  snapshot_wf s /\ resolveRoutingFeeRuleV1 cv (VStr (quotedAt s)) = Ok (rule s) /\
  fp = fingerprint sha256 (snapshot_json s).
Proof.
  unfold calculateRoutingFeeSnapshotV1. intros H. inv_ok. subst s fp.
  cbn [quotedAt rule]. split; [|done].
  apply normalizeRoute_wf in Hr4. apply parseFeeBase_ok in Hr5 as (base & Hb & Eb).
  unfold ownDataArray in Hr6. inv_ok. apply data_array_bounds in Hr6; [|lia].
  pose proof (mapr_length _ _ _ Hr7) as Hlen. apply (mapr_Forall _ pass_wf) in Hr7;
    [|intros; by eapply parsePassThrough_wf].
  apply resolve_inv in Hr8 as (rules & at_ & Hc%normalizeCatalog_rates & _ & Hf).
  set (rate := platform_rate _ _ _) in *. rewrite Eb in Hr9.
  assert (decimal_wf rate) as Hrate.
  { rewrite Forall_forall in Hc. apply Hc. apply list_elem_of_In.
    eapply (proj1 (filter_In _ _ _)). rewrite Hf. by left. }
  edestruct (fee_amount_ok base (decimal_js rate) rate) as (n & Hn & Hround & Eq);
    [lia | by apply decimal_parse_js |].
  rewrite Eq in Hr9. injection Hr9 as <-.
  assert (uint256 (toString n)) as Hu by (exists n; split; [lia | done]).
  pose proof (totals_spec _ (component_atomic r5 _ (ruleReferenceId r8) _ Hu Hr7)) as Ht.
  rewrite Hr10 in Ht. eexists base, n, r7. cbn. repeat (split; [done|]).
  split; [|done]. rewrite length_imap. unfold MAX_FEE_COMPONENTS in *. lia.
Qed.

(** The JSON of a snapshot determines it. *)
Lemma fmap_inj {A B} (f : A -> B) (l l' : list A) :
  (forall a b, f a = f b -> a = b) -> f <$> l = f <$> l' -> l = l'.
Proof. intros Hf. apply list_fmap_eq_inj. intros a b. apply Hf. Qed.

Lemma object_field k k' v v' l l' :
  JObject ((k, v) :: l) = JObject ((k', v') :: l') -> v = v' /\ JObject l = JObject l'.
Proof. by intros [= -> -> ->]. Qed.

Lemma string_value a b : JString a = JString b -> a = b.
Proof. by intros [= ->]. Qed.

Lemma number_value a b : JNumber a = JNumber b -> a = b.
Proof. by intros [= ->]. Qed.

Lemma array_value a b : JArray a = JArray b -> a = b.
Proof. by intros [= ->]. Qed.

(** Takes an equation of objects apart into one equation per field. *)
Ltac json_fields :=
  repeat match goal with
  | H : JObject (_ :: _) = JObject (_ :: _) |- _ => apply object_field in H as [? H]
  | H : JObject [] = JObject [] |- _ => clear H
  | H : JString _ = JString _ |- _ => apply string_value in H
  | H : JNumber _ = JNumber _ |- _ => apply number_value in H
  | H : JArray _ = JArray _ |- _ => apply array_value in H
  | H : enum_str _ = enum_str _ |- _ => apply enum_str_inj in H
  end.

Lemma decimal_json_inj a b : decimal_json a = decimal_json b -> a = b.
Proof. destruct a, b. by intros [= -> ->]. Qed.

Lemma until_json_inj (a b : option string) :
  match a with Some t => JString t | None => JNull end
  = match b with Some t => JString t | None => JNull end -> a = b.
Proof. destruct a, b; congruence. Qed.

Lemma rule_json_inj a b : rule_json a = rule_json b -> a = b.
Proof.
  unfold rule_json. intros H. json_fields.
  repeat match goal with
  | H : decimal_json _ = decimal_json _ |- _ => apply decimal_json_inj in H
  | H : _ = match effectiveUntil b with _ => _ end |- _ => apply until_json_inj in H
  end.
  destruct a as [? ? ? ? ? ? []], b as [? ? ? ? ? ? []]; cbn in *; congruence.
Qed.

Lemma endpoint_json_inj a b : endpoint_json a = endpoint_json b -> a = b.
Proof. destruct a, b. by intros [= -> ->]. Qed.

Lemma leg_json_inj a b : leg_json a = leg_json b -> a = b.
Proof.
  unfold leg_json. intros H. json_fields.
  repeat match goal with H : endpoint_json _ = _ |- _ => apply endpoint_json_inj in H end.
  destruct a, b; cbn in *; congruence.
Qed.

Lemma route_json_inj a b : route_json a = route_json b -> a = b.
Proof.
  unfold route_json. intros H. json_fields.
  repeat match goal with
  | H : endpoint_json _ = _ |- _ => apply endpoint_json_inj in H
  | H : leg_json <$> _ = _ |- _ => apply fmap_inj in H; [|apply leg_json_inj]
  end.
  destruct a, b; cbn in *; congruence.
Qed.

Lemma classification_json_inj a b : classification_json a = classification_json b -> a = b.
Proof.
  unfold classification_json. intros H. json_fields.
  match goal with H : _ <$> _ = _ |- _ =>
    apply fmap_inj in H; [|by intros ?? ?%string_value%enum_str_inj] end.
  destruct a, b; cbn in *; congruence.
Qed.

Lemma amount_json_inj a b : amount_json a = amount_json b -> a = b.
Proof. destruct a, b. by intros [= -> ->]. Qed.

Lemma component_json_inj a b : component_json a = component_json b -> a = b.
Proof.
  unfold component_json. intros H. json_fields.
  destruct a as [? ? [] ? ? ?], b as [? ? [] ? ? ?]; cbn in *; congruence.
Qed.

Lemma snapshot_json_inj a b : snapshot_json a = snapshot_json b -> a = b.
Proof.
  unfold snapshot_json. intros H. json_fields.
  repeat match goal with
  | H : rule_json _ = _ |- _ => apply rule_json_inj in H
  | H : route_json _ = _ |- _ => apply route_json_inj in H
  | H : classification_json _ = _ |- _ => apply classification_json_inj in H
  | H : amount_json _ = _ |- _ => apply amount_json_inj in H
  | H : component_json <$> _ = _ |- _ => apply fmap_inj in H; [|apply component_json_inj]
  | H : amount_json <$> _ = _ |- _ => apply fmap_inj in H; [|apply amount_json_inj]
  end.
  destruct a, b; cbn in *; congruence.
Qed.

(** Every number of a snapshot is non-negative, so its text is unambiguous. *)
Ltac json_wf_fields :=
  apply json_wf_object; repeat (apply Forall_cons; split); cbn [snd];
  try exact I; try (by apply Forall_nil); try (cbn; lia).

Lemma decimal_json_wf d : decimal_wf d -> json_wf (decimal_json d).
Proof. intros (_ & _ & H & _). json_wf_fields. Qed.

Lemma normalizeRule_json v r : normalizeRoutingFeeRuleVersionV1 v = Ok r -> json_wf (rule_json r).
Proof.
  intros (_ & H & _ & H1 & H2 & H3 & Hv)%normalizeRule_wf.
  json_wf_fields; [by destruct (effectiveUntil r)|].
  json_wf_fields; [by apply decimal_json_wf|]. json_wf_fields; by apply decimal_json_wf.
Qed.

Lemma array_json_wf {A} (f : A -> json) l : Forall (fun a => json_wf (f a)) l -> json_wf (JArray (f <$> l)).
Proof. intros H. apply json_wf_array. by apply Forall_fmap. Qed.

Lemma route_json_wf r : json_wf (route_json r).
Proof.
  json_wf_fields. apply array_json_wf, Forall_forall. intros l _. cbn. tauto.
Qed.

Lemma component_json_wf c : 0 <= lineNumber c -> json_wf (component_json c).
Proof. intros H. json_wf_fields. Qed.

Lemma snapshot_json_wf s :
  json_wf (rule_json (rule s)) -> Forall (fun c => 0 <= lineNumber c) (components s) ->
  json_wf (snapshot_json s).
Proof.
  intros Hr Hc. json_wf_fields; [done | apply route_json_wf | | |].
  - json_wf_fields. apply array_json_wf, Forall_forall. by intros.
  - apply array_json_wf. eapply Forall_impl; [exact Hc|]. intros c. apply component_json_wf.
  - apply array_json_wf, Forall_forall. intros x _. cbn. tauto.
Qed.

Lemma computed_json_wf sha256 iv cv s fp :
  calculateRoutingFeeSnapshotV1 sha256 iv cv = Ok (s, fp) -> json_wf (snapshot_json s).
Proof.
  intros (Hs & Hr & _)%snapshot_ok. apply snapshot_json_wf.
  - apply resolve_inv in Hr as (rules & at_ & Hc & _ & Hf).
    apply normalizeCatalog_ok in Hc as (_ & _ & _ & _ & raw & values & Hm & ->).
    apply (mapr_Forall _ (fun r => json_wf (rule_json r))) in Hm; [|apply normalizeRule_json].
    rewrite Forall_forall in Hm. apply Hm. rewrite <- (js_sort_perm compare_rules raw).
    apply list_elem_of_In. eapply (proj1 (filter_In _ _ _)). rewrite Hf. by left.
  - destruct Hs as (b & n & pass & _ & _ & _ & _ & _ & _ & -> & _). constructor; [done|].
    eapply (imap_Forall _ (fun _ => True)); [|by apply Forall_true]. intros i a _. cbn. lia.
Qed.

(** ** Lemmas: order of a catalog's rules *)

Lemma set_size_perm {A B} `{EqDecision B} (f : A -> B) l l' :
  l ≡ₚ l' -> (set_size (f <$> l) =? length l)%nat = (set_size (f <$> l') =? length l')%nat.
Proof.
  intros Hp. apply eq_iff_eq_true. rewrite !Nat.eqb_eq, <- !(length_fmap f), !set_size_NoDup.
  by rewrite Hp.
Qed.

Lemma normalizeCatalog_code v e : normalizeRoutingFeeRuleCatalogV1 v = Err e -> e = INVALID_RULE_CATALOG.
Proof.
  unfold normalizeRoutingFeeRuleCatalogV1, catalog_error, exactDataRecord, ownDataRecord, ownDataArray, or_throw.
  destruct (data_record _ _ _) as [r|]; cbn [rbind rcatch]; [|congruence].
  destruct (negb _); [congruence|].
  destruct (data_array _ _ _) as [vs|]; cbn [rbind rcatch]; [|congruence].
  destruct (mapr _ _) as [rs|]; cbn [rbind rcatch]; [|congruence].
  destruct (_ || _); [congruence|]. destruct (negb _); congruence.
Qed.

Lemma normalizeCatalog_perm rules rules' c : rules ≡ₚ rules' ->
  normalizeRoutingFeeRuleCatalogV1 (catalog_js rules) = Ok c ->
  normalizeRoutingFeeRuleCatalogV1 (catalog_js rules') = Ok c.
Proof.
  intros Hp. unfold normalizeRoutingFeeRuleCatalogV1, exactDataRecord, ownDataRecord, catalog_js.
  read_data_record. read_data_record. cbn [is_int Z.eqb Pos.eqb negb].
  unfold ownDataArray, catalog_error. intros H. inv_ok.
  destruct (data_array 1 128 (js_array rules)) as [vs|] eqn:Ev; [|discriminate].
  injection Hr as <-. pose proof (data_array_js_array 1 128 _ _ ltac:(done) Ev) as (-> & Hb).
  rewrite data_array_literal by (rewrite <- ?Hp; done). cbn [or_throw rcatch rbind].
  destruct (mapr _ rules) as [rs|] eqn:Em; [|discriminate]. injection Hr0 as <-.
  destruct (mapr_perm _ _ _ _ Hp Em) as (rs' & -> & Hrs). cbn [rcatch rbind].
  assert (js_sort compare_rules rs = js_sort compare_rules rs') as Es.
  { apply orb_false_iff in Hg as [_ Hv]. apply negb_false_iff, Nat.eqb_eq in Hv.
    rewrite <- (length_fmap version) in Hv. apply set_size_NoDup in Hv.
    rewrite js_sort_perm in Hv. apply (js_sort_unique (fun _ => True)); [apply _ | by apply Forall_true | done|].
    intros a b Ha Hb' H1 H2. apply (NoDup_fmap_inj version rs); auto.
    by apply compare_rules_tie. }
  rewrite <- Es, Hg, Hg0. by subst.
Qed.

(** ** Lemmas: classification *)

Lemma existsb_kind k ls :
  existsb (fun l => leg_kind_eqb (leg_kind l) k) ls = true <-> exists l, l ∈ ls /\ leg_kind l = k.
Proof.
  rewrite existsb_exists. unfold leg_kind_eqb. split; intros (l & H1 & H2); exists l.
  - by apply list_elem_of_In in H1; apply bool_decide_eq_true in H2.
  - split; [by apply list_elem_of_In | by apply bool_decide_eq_true].
Qed.

Lemma existsb_kind_false k ls :
  existsb (fun l => leg_kind_eqb (leg_kind l) k) ls = false <-> forall l, l ∈ ls -> leg_kind l <> k.
Proof.
  rewrite <- not_true_iff_false, existsb_kind. split; [naive_solver|]. intros H (l & Hl & E). by apply (H l).
Qed.

Lemma classify_direct r : legs r <> [] ->
  classification_kind (classifyNormalizedRoute r) = DIRECT_COMPATIBLE <->
  exists l, legs r = [l] /\ leg_kind l = DIRECT_SETTLEMENT.
Proof.
  intros Hne. unfold classifyNormalizedRoute. split.
  - destruct (_ && _) eqn:E; [|discriminate]. intros _.
    apply andb_true_iff in E as [[Hs%negb_true_iff Hb%negb_true_iff]%andb_true_iff Hm%negb_true_iff].
    rewrite existsb_kind_false in Hs, Hb. apply Nat.ltb_ge in Hm.
    destruct (legs r) as [|l [|]]; [done | | cbn in Hm; lia]. exists l. split; [done|].
    specialize (Hs l ltac:(left)). specialize (Hb l ltac:(left)). by destruct (leg_kind l).
  - intros (l & -> & Hl). cbn. unfold leg_kind_eqb. by rewrite Hl.
Qed.

Lemma classify_reasons r :
  let c := classifyNormalizedRoute r in
  (MULTI_LEG_ROUTE ∈ reasons c <-> (2 <= length (legs r))%nat) /\
  (SWAP_REQUIRED ∈ reasons c <-> exists l, l ∈ legs r /\ leg_kind l = SWAP) /\
  (BRIDGE_REQUIRED ∈ reasons c <-> exists l, l ∈ legs r /\ leg_kind l = BRIDGE).
Proof.
  cbv zeta. rewrite <- !existsb_kind.
  assert ((2 <= length (legs r))%nat <-> (1 <? length (legs r))%nat = true) as ->
    by (rewrite Nat.ltb_lt; lia).
  unfold classifyNormalizedRoute.
  destruct (existsb _ _), (existsb _ _), (_ <? _)%nat; cbn [negb andb reasons app]; set_solver.
Qed.

(** ** Properties *)

(** C33: the fee of an amount is the exact product with the rate, rounded the
    way the mode says (down, up, or to the nearest with ties to even), and so
    never more than the amount; every other input is refused, and never for
    exceeding 256 bits. *)
Theorem fee_amount_exact amountValue rateValue modeValue s :
  (calculateRoutingFeeAtomicAmount amountValue rateValue modeValue = Ok s <->
   exists a rate mode n, 0 <= a <= MAX_UINT256 /\ amountValue = VStr (toString a) /\
     parseDecimal rateValue INVALID_RULE = Ok rate /\ modeValue = VStr (enum_str mode) /\
     rounds mode (a * BigInt (mantissa rate)) (10 ^ scale rate) n /\ n <= a /\ s = toString n) /\
  calculateRoutingFeeAtomicAmount amountValue rateValue modeValue <> Err NUMERIC_LIMIT_EXCEEDED.
Proof.
  split; [split|].
  - intros H. pose proof H as H'. unfold calculateRoutingFeeAtomicAmount, enumMember in H. inv_ok.
    apply feeAtomicAmount_ok in Hr as (-> & a & Ha & ->).
    apply enum_member_spec in Hr1 as [_ ->].
    destruct (fee_amount_ok a rateValue r0 r1 Ha Hr0) as (n & Hn & Hround & E).
    rewrite E in H'. injection H' as <-. exists a, r0, r1, n. repeat (split; [done || lia|]). done.
  - intros (a & rate & mode & n & Ha & -> & Hr & -> & Hround & Hn & ->).
    destruct (fee_amount_ok a rateValue rate mode Ha Hr) as (n' & Hn' & Hround' & ->).
    apply parseDecimal_wf, scale_pos in Hr. by rewrite (rounds_unique _ _ _ _ _ Hr Hround Hround').
  - intros H. pose proof H as H'. unfold calculateRoutingFeeAtomicAmount in H.
    apply rbind_err in H as [H|(x & Hx & H)].
    { unfold parseAtomicAmount in H. destruct amountValue; try discriminate. by destruct (_ || _). }
    apply feeAtomicAmount_ok in Hx as (-> & a & Ha & ->).
    apply rbind_err in H as [H|(rate & Hr & H)]; [by apply parseDecimal_code in H|].
    apply rbind_err in H as [H|(mode & Hm & _)].
    { unfold enumMember, or_throw in H. by destruct (enum_member _ _). }
    unfold enumMember in Hm. inv_ok. apply enum_member_spec in Hm as [_ ->].
    destruct (fee_amount_ok a rateValue rate mode Ha Hr) as (n & _ & _ & E). congruence.
Qed.

(** C24: resolving a rule succeeds exactly when the catalog is accepted, the
    instant is canonical and some rule of the catalog covers it, start
    inclusive and end exclusive; the rule returned is that rule.  No two rules
    of an accepted catalog cover the same instant, so it is the only one. *)
Theorem resolve_iff_covering catalogValue atValue r :
  (resolveRoutingFeeRuleV1 catalogValue atValue = Ok r <->
   exists rules t, normalizeRoutingFeeRuleCatalogV1 catalogValue = Ok rules /\
     four_digit_time t /\ atValue = VStr (toISOString t) /\ r ∈ rules /\ covers r t) /\
  (forall rules t r', normalizeRoutingFeeRuleCatalogV1 catalogValue = Ok rules ->
     r ∈ rules -> r' ∈ rules -> covers r t -> covers r' t -> r' = r).
Proof.
  split; [split|].
  - intros (rules & at_ & Hc & Ha & Hf)%resolve_inv.
    apply canonicalTimestamp_ok in Ha as (-> & t & Ht & ->). exists rules, t.
    pose proof (normalizeCatalog_ok _ _ Hc) as (Hts & _). rewrite Forall_forall in Hts.
    assert (In r (List.filter (in_force (toISOString t)) rules)) as [Hin Hp]%filter_In
      by (rewrite Hf; by left).
    apply list_elem_of_In in Hin. apply in_force_covers in Hp; auto 10.
  - intros (rules & t & Hc & Ht & -> & Hin & Hcov). unfold resolveRoutingFeeRuleV1.
    rewrite Hc. cbn [rbind]. rewrite (proj2 (canonicalTimestamp_ok _ _ (toISOString t))) by eauto.
    cbn [rbind]. destruct (normalizeCatalog_ok _ _ Hc) as (Hts & Hs & _). rewrite Forall_forall in Hts.
    rewrite (filter_at_most_one before _ rules Hs) with (a := r); [done | | done |].
    + intros a b Ha Hb Hab Hpa Hpb. apply in_force_covers in Hpa, Hpb; auto.
      eapply before_disjoint with (r1 := a) (r2 := b); eauto.
    + apply in_force_covers; auto.
  - intros rules t r' Hc Hr Hr' Hcov Hcov'. eapply covering_unique; eauto.
Qed.

(** An accepted catalog does not depend on the order its rules are listed
    in: permuted lists of rules are both refused or give the same catalog. *)
Theorem catalog_order_irrelevant rules rules' :
  rules ≡ₚ rules' ->
  normalizeRoutingFeeRuleCatalogV1 (catalog_js rules)
  = normalizeRoutingFeeRuleCatalogV1 (catalog_js rules').
Proof.
  intros Hp. destruct (normalizeRoutingFeeRuleCatalogV1 (catalog_js rules)) as [c|e] eqn:E.
  - symmetry. by eapply normalizeCatalog_perm.
  - destruct (normalizeRoutingFeeRuleCatalogV1 (catalog_js rules')) as [c'|e'] eqn:E'.
    + apply (normalizeCatalog_perm rules' rules) in E'; [congruence | done].
    + apply normalizeCatalog_code in E, E'. by subst.
Qed.

(** A route is accepted exactly when its legs (at most 32) form a way from
    its source to its destination, a settlement leg staying in place, a swap
    changing the asset on one network, a bridge changing the network; and the
    accepted route is the one given. *)
Theorem route_accepted_iff_path r :
  (normalizeRoutingFeeRouteV1 (route_js r) = Ok r <-> route_wf r) /\
  (forall value r', normalizeRoutingFeeRouteV1 value = Ok r' -> route_wf r').
Proof.
  split; [|apply normalizeRoute_wf]. split; [apply normalizeRoute_wf | apply normalizeRoute_js].
Qed.

(** An accepted route is free of platform fees (DIRECT_COMPATIBLE) exactly
    when it is one settlement leg, so only when it ends where it starts;
    otherwise the reasons name every ground there is. *)
Theorem route_classification value r :
  normalizeRoutingFeeRouteV1 value = Ok r ->
  let c := classifyNormalizedRoute r in
  classifyRoutingFeeRouteV1 value = Ok c /\
  (classification_kind c = DIRECT_COMPATIBLE <->
   exists l, legs r = [l] /\ leg_kind l = DIRECT_SETTLEMENT) /\
  (classification_kind c = DIRECT_COMPATIBLE -> route_source r = route_destination r) /\
  (MULTI_LEG_ROUTE ∈ reasons c <-> (2 <= length (legs r))%nat) /\
  (SWAP_REQUIRED ∈ reasons c <-> exists l, l ∈ legs r /\ leg_kind l = SWAP) /\
  (BRIDGE_REQUIRED ∈ reasons c <-> exists l, l ∈ legs r /\ leg_kind l = BRIDGE).
Proof.
  intros H c. split; [unfold classifyRoutingFeeRouteV1; by rewrite H|].
  apply normalizeRoute_wf in H as (Hp & Hl & _).
  assert (classification_kind c = DIRECT_COMPATIBLE <->
          exists l, legs r = [l] /\ leg_kind l = DIRECT_SETTLEMENT) as Hk
    by (apply classify_direct; intros E; rewrite E in Hp; inversion Hp).
  split; [done|]. split.
  - intros (l & E & Hd)%Hk. rewrite E in Hp, Hl. apply Forall_inv in Hl as [Hw _].
    unfold leg_wf in Hw. rewrite Hd in Hw. apply path_connected in Hp as (_ & a & b & [= ->] & [= ->] & -> & ->).
    exact Hw.
  - apply classify_reasons.
Qed.

(** The totals of a list of components hold one entry per asset, in asset
    order, each the exact sum of that asset's amounts; the only refusal is a
    sum above 2^256 - 1. *)
Theorem totals_by_asset_exact cs :
  atomic_components cs ->
  match totalsByAsset cs with
  | Ok ts => totals_exact cs ts
  | Err e => e = NUMERIC_LIMIT_EXCEEDED /\ exists asset, MAX_UINT256 < asset_total asset cs
  end.
Proof. apply totals_spec. Qed.

(** A computed snapshot applies the one rule in force at its quote time:
    its first line is the platform fee, the rounded product of the base and
    the rate of the route's class and the tier (so at most the base), the
    other lines (32 in all) are the quoted pass-through fees, and the totals
    are exact. *)
Theorem snapshot_sound sha256 inputValue catalogValue s digest :
  calculateRoutingFeeSnapshotV1 sha256 inputValue catalogValue = Ok (s, digest) ->
  snapshot_wf s /\ resolveRoutingFeeRuleV1 catalogValue (VStr (quotedAt s)) = Ok (rule s).
Proof. by intros (Hs & Hr & _)%snapshot_ok. Qed.

(** The fingerprint commits to the whole snapshot: two computed snapshots
    have one fingerprint exactly when they are equal, provided the hash tells
    their canonical texts apart. *)
Theorem fingerprint_binds_snapshot sha256 inputValue catalogValue inputValue' catalogValue'
    s s' digest digest' :
  calculateRoutingFeeSnapshotV1 sha256 inputValue catalogValue = Ok (s, digest) ->
  calculateRoutingFeeSnapshotV1 sha256 inputValue' catalogValue' = Ok (s', digest') ->
  collision_free sha256 [snapshot_message s; snapshot_message s'] ->
  digest = digest' <-> s = s'.
Proof.
  intros H H' Hc. pose proof (computed_json_wf _ _ _ _ _ H) as Hw.
  pose proof (computed_json_wf _ _ _ _ _ H') as Hw'.
  apply snapshot_ok in H as (_ & _ & ->), H' as (_ & _ & ->).
  unfold fingerprint. split; [|by intros ->]. unfold snapshot_message in Hc. intros E.
  apply Hc in E; [|apply list_elem_of_here | apply list_elem_of_further, list_elem_of_here].
  apply snapshot_json_inj, stringify_inj; [done | done |]. by apply append_inj_l, utf8_inj in E.
Qed.

(** The shipped rule and catalog are accepted: 20, 12 and 8 basis points by
    tier on material routes, nothing on direct ones, from 2026-08-25 on. *)
Theorem shipped_catalog_accepted :
  exists r, ROUTING_FEE_RULE_V1 = Ok r /\ ROUTING_FEE_RULE_CATALOG_V1 = Ok [r] /\
    effectiveUntil r = None /\
    forall tier, platform_rate r DIRECT_COMPATIBLE tier = {| mantissa := "0"; scale := 0 |} /\
      10000 * BigInt (mantissa (platform_rate r MATERIAL_ORCHESTRATION tier))
      = ROUTING_FEE_V1_BASIS_POINTS tier * 10 ^ scale (platform_rate r MATERIAL_ORCHESTRATION tier).
Proof.
  eexists. split; [vm_compute; reflexivity|]. split; [vm_compute; reflexivity|].
  split; [reflexivity|]. by intros [].
Qed.

(** ** Witnesses *)

Definition fee_uuid (c : Ascii.ascii) : string :=
  "00000000-0000-4000-8000-00000000000" +:+ String c "".

Definition rate_example (bps : string) : RoutingFeeDecimalV1 := {| mantissa := bps; scale := 4 |}.

Definition rule_example (c : Ascii.ascii) (v : Z) (from : string) (until : option string)
    : RoutingFeeRuleVersionV1 :=
  {| ruleReferenceId := fee_uuid c; version := v; effectiveFrom := from; effectiveUntil := until;
     roundingMode := HALF_EVEN; directCompatible := {| mantissa := "0"; scale := 0 |};
     materialOrchestration := {| FREE_rate := rate_example "20"; INDIVIDUAL_rate := rate_example "12";
                                 PRO_rate := rate_example "8" |} |}.

Definition rules_example : list RoutingFeeRuleVersionV1 :=
  [rule_example "1" 1 "2026-01-01T00:00:00.000Z" (Some "2026-06-01T00:00:00.000Z");
   rule_example "2" 2 "2026-06-01T00:00:00.000Z" None].

Lemma resolve_iff_covering_witness :
  let r := rule_example "2" 2 "2026-06-01T00:00:00.000Z" None in
  exists t, r ∈ rules_example /\ covers r t /\ toISOString t = "2026-07-01T00:00:00.000Z" /\
    forall r', r' ∈ rules_example -> covers r' t -> r' = r.
Proof.
  intros r. assert (normalizeRoutingFeeRuleCatalogV1 (catalog_js (rule_js <$> rules_example)) = Ok rules_example)
    as Hn by (vm_compute; reflexivity).
  assert (resolveRoutingFeeRuleV1 (catalog_js (rule_js <$> rules_example)) (VStr "2026-07-01T00:00:00.000Z") = Ok r)
    as H by (vm_compute; reflexivity).
  destruct (resolve_iff_covering (catalog_js (rule_js <$> rules_example)) (VStr "2026-07-01T00:00:00.000Z") r)
    as [Hr Hu].
  apply Hr in H as (rules & t & Hn' & _ & [= Ht] & Hin & Hcov). rewrite Hn in Hn'. injection Hn' as <-.
  exists t. split; [exact Hin|]. split; [exact Hcov|]. split; [by symmetry|].
  intros r' Hin' Hcov'. by apply (Hu rules_example t r').
Defined.

Lemma catalog_order_irrelevant_witness :
  normalizeRoutingFeeRuleCatalogV1 (catalog_js (rule_js <$> rules_example)) = Ok rules_example /\
  normalizeRoutingFeeRuleCatalogV1 (catalog_js (rule_js <$> rules_example))
  = normalizeRoutingFeeRuleCatalogV1 (catalog_js (reverse (rule_js <$> rules_example))).
Proof.
  split; [vm_compute; reflexivity|].
  apply (catalog_order_irrelevant _ (reverse (rule_js <$> rules_example))). symmetry. apply reverse_Permutation.
Defined.

Definition endpoint_example (n a : string) : RoutingFeeRouteEndpointV1 :=
  {| networkId := n; assetId := a |}.

Definition route_example : RoutingFeeRouteV1 :=
  {| route_source := endpoint_example "arbitrum-one" "usdc";
     route_destination := endpoint_example "base" "usdt";
     legs := [{| leg_kind := SWAP; leg_source := endpoint_example "arbitrum-one" "usdc";
                 leg_destination := endpoint_example "arbitrum-one" "usdt" |};
              {| leg_kind := BRIDGE; leg_source := endpoint_example "arbitrum-one" "usdt";
                 leg_destination := endpoint_example "base" "usdt" |}] |}.

Lemma route_classification_witness :
  normalizeRoutingFeeRouteV1 (route_js route_example) = Ok route_example /\
  (MULTI_LEG_ROUTE ∈ reasons (classifyNormalizedRoute route_example)
   <-> (2 <= length (legs route_example))%nat).
Proof.
  split; [vm_compute; reflexivity|].
  apply (route_classification (route_js route_example) route_example). vm_compute. reflexivity.
Defined.

Definition passes_example : list RoutingFeePassThroughComponentInput :=
  [{| pass_category := NETWORK; pass_amount := {| assetRevisionId := fee_uuid "b"; amountAtomic := "7" |};
      pass_deductionMode := ADDED_ON_TOP; pass_sourceReferenceId := fee_uuid "c" |};
   {| pass_category := BRIDGE_FEE; pass_amount := {| assetRevisionId := fee_uuid "a"; amountAtomic := "5" |};
      pass_deductionMode := DEDUCTED_FROM_INPUT; pass_sourceReferenceId := fee_uuid "d" |}].

Definition components_example : list RoutingFeeComponentV1 :=
  platform_component {| assetRevisionId := fee_uuid "a"; amountAtomic := "1000000" |} "2000" (fee_uuid "2")
  :: imap pass_through_component passes_example.

Lemma totals_by_asset_exact_witness :
  atomic_components components_example /\
  match totalsByAsset components_example with
  | Ok ts => totals_exact components_example ts
  | Err e => e = NUMERIC_LIMIT_EXCEEDED /\ exists asset, MAX_UINT256 < asset_total asset components_example
  end.
Proof.
  assert (atomic_components components_example) as H.
  { apply Forall_cons. split; [exists 2000; by split|].
    repeat (apply Forall_cons; split); [exists 7; by split | exists 5; by split | by apply Forall_nil]. }
  split; [exact H | exact (totals_by_asset_exact _ H)].
Defined.

Definition pass_js (c : RoutingFeePassThroughComponentInput) : jsval := js_object
  [("category", VStr (enum_str (pass_category c)));
   ("assetRevisionId", VStr (assetRevisionId (pass_amount c)));
   ("amountAtomic", VStr (amountAtomic (pass_amount c)));
   ("deductionMode", VStr (enum_str (pass_deductionMode c)));
   ("sourceReferenceId", VStr (pass_sourceReferenceId c))].

Definition snapshot_input_of (quote : ascii) : jsval := js_object
  [("schemaVersion", VNum (JInt 1)); ("quoteReferenceId", VStr (fee_uuid quote));
   ("routeReferenceId", VStr (fee_uuid "f")); ("quotedAt", VStr "2026-07-01T00:00:00.000Z");
   ("route", route_js route_example);
   ("feeBase", js_object [("assetRevisionId", VStr (fee_uuid "a")); ("amountAtomic", VStr "1000000")]);
   ("passThroughComponents", js_array (pass_js <$> passes_example))].

Definition snapshot_input_example : jsval := snapshot_input_of "e".

(** A stand-in of the right shape for the hash. *)
Definition sha256_example (_ : string) : string :=
  "0000000000000000000000000000000000000000000000000000000000000000".

Definition snapshot_example : RoutingFeeSnapshotV1 :=
  {| quoteReferenceId := fee_uuid "e"; routeReferenceId := fee_uuid "f";
     quotedAt := "2026-07-01T00:00:00.000Z"; snapshot_tier := FREE;
     rule := rule_example "2" 2 "2026-06-01T00:00:00.000Z" None; route := route_example;
     routeClassification := {| classification_kind := MATERIAL_ORCHESTRATION;
                               reasons := [MULTI_LEG_ROUTE; SWAP_REQUIRED; BRIDGE_REQUIRED] |};
     feeBase := {| assetRevisionId := fee_uuid "a"; amountAtomic := "1000000" |};
     components := components_example;
     totals := [{| assetRevisionId := fee_uuid "a"; amountAtomic := "2005" |};
                {| assetRevisionId := fee_uuid "b"; amountAtomic := "7" |}] |}.

Lemma snapshot_sound_witness :
  calculateRoutingFeeSnapshotV1 sha256_example snapshot_input_example
    (catalog_js (rule_js <$> rules_example)) = Ok (snapshot_example, sha256_example "") /\
  snapshot_wf snapshot_example.
Proof.
  split; [vm_compute; reflexivity|].
  apply (snapshot_sound sha256_example snapshot_input_example
    (catalog_js (rule_js <$> rules_example)) snapshot_example (sha256_example "")).
  vm_compute. reflexivity.
Defined.

(** A hash that tells the example's text apart from every other. *)
Definition sha256_of_example (message : string) : string :=
  if String.eqb message (snapshot_message snapshot_example) then sha256_example message
  else "1111111111111111111111111111111111111111111111111111111111111111".

Definition other_snapshot_example : RoutingFeeSnapshotV1 :=
  {| quoteReferenceId := fee_uuid "9"; routeReferenceId := fee_uuid "f";
     quotedAt := quotedAt snapshot_example; snapshot_tier := FREE;
     rule := rule snapshot_example; route := route_example;
     routeClassification := routeClassification snapshot_example;
     feeBase := feeBase snapshot_example; components := components_example;
     totals := totals snapshot_example |}.

Lemma fingerprint_binds_snapshot_witness :
  exists digest digest',
    calculateRoutingFeeSnapshotV1 sha256_of_example snapshot_input_example
      (catalog_js (rule_js <$> rules_example)) = Ok (snapshot_example, digest) /\
    calculateRoutingFeeSnapshotV1 sha256_of_example (snapshot_input_of "9")
      (catalog_js (rule_js <$> rules_example)) = Ok (other_snapshot_example, digest') /\
    (digest = digest' -> snapshot_example = other_snapshot_example).
Proof.
  eexists _, _. split; [vm_compute; reflexivity|]. split; [vm_compute; reflexivity|].
  eapply (fingerprint_binds_snapshot sha256_of_example snapshot_input_example
           (catalog_js (rule_js <$> rules_example))
           (snapshot_input_of "9") (catalog_js (rule_js <$> rules_example)));
    [vm_compute; reflexivity | vm_compute; reflexivity |].
  apply collision_free_pair. vm_compute. discriminate.
Defined.
