(* ===== verification/FeeAwareReturn.v ===== *)
(** * Returns after fees (apps/api/src/smart-lending/domain/fee-aware-return.ts)

    What a deposit yields after every lifecycle cost, in USD mantissas at scale
    18, and the order in which candidates are preferred. *)

From stdpp Require Import base list strings sets.
From Stdlib Require Import ZArith Lia.
From S2P Require Import Prelude Text JsCollections.

Open Scope Z_scope.

(** ** Data *)

Record FeeAwareAllocationCostsUsdMantissa : Type := {
  entrySourceNetwork : Z;
  entrySourceSwap : Z;
  entryBridge : Z;
  entryDestinationNetwork : Z;
  entryDestinationSwap : Z;
  providerEntry : Z;
  providerExit : Z;
  exitDestinationNetwork : Z;
  exitDestinationSwap : Z;
  exitBridge : Z;
  exitSourceNetwork : Z;
  platformRouting : Z;
  exitPlatformRouting : option Z;
  riskBuffer : Z;
}.

Record FeeAwareCandidateCalculation : Type := {
  grossApy : Z;
  recurringFee : Z;
  riskPenalty : Z;
  conservativeApy : Z;
  principal : Z;
  deployedPrincipal : Z;
  entryCost : Z;
  anticipatedExitCost : Z;
  totalLifecycleCost : Z;
  calculationCosts : FeeAwareAllocationCostsUsdMantissa;
  projectedGrossYield : Z;
  projectedConservativeYield : Z;
  netBenefit : Z;
  breakEvenDays : option Z;
  improvementOverSameChain : option Z;
}.

Inductive ReturnReason : Type :=
| NUMERIC_LIMIT_EXCEEDED | TOTAL_COST_EXCEEDS_PRINCIPAL | NON_POSITIVE_NET_BENEFIT
| MINIMUM_NET_BENEFIT_NOT_MET.

Inductive RouteKind : Type := SAME_CHAIN | CROSS_CHAIN.

(** The argument of [calculateFeeAwareReturn]. *)
Record ReturnInput : Type := {
  in_principal : Z;
  in_grossApy : Z;
  in_recurringFee : Z;
  in_riskPenalty : Z;
  in_holdingPeriodDays : Z;
  in_minimumNetBenefit : Z;
  in_costs : FeeAwareAllocationCostsUsdMantissa;
}.

Record RankedCandidate : Type := {
  ranked_id : string;
  ranked_routeKind : RouteKind;
  ranked_calculation : option FeeAwareCandidateCalculation;
}.

Definition MAX : Z := MAX_UINT256.

(** ** Operations *)

(** [Object.values(costs)] *)
Definition cost_values (c : FeeAwareAllocationCostsUsdMantissa) : list Z :=
  [entrySourceNetwork c; entrySourceSwap c; entryBridge c; entryDestinationNetwork c;
   entryDestinationSwap c; providerEntry c; providerExit c; exitDestinationNetwork c;
   exitDestinationSwap c; exitBridge c; exitSourceNetwork c; platformRouting c]
  ++ match exitPlatformRouting c with Some x => [x] | None => [] end
  ++ [riskBuffer c].

Definition entry_cost (c : FeeAwareAllocationCostsUsdMantissa) : Z :=
  entrySourceNetwork c + entrySourceSwap c + entryBridge c + entryDestinationNetwork c
  + entryDestinationSwap c + providerEntry c + platformRouting c + riskBuffer c.

Definition exit_cost (c : FeeAwareAllocationCostsUsdMantissa) : Z :=
  providerExit c + exitDestinationNetwork c + exitDestinationSwap c + exitBridge c
  + exitSourceNetwork c + default 0 (exitPlatformRouting c).

Definition calculateFeeAwareReturn (input : ReturnInput)
    : option FeeAwareCandidateCalculation * list ReturnReason :=
  let costs := in_costs input in
  let values := [in_principal input; in_grossApy input; in_recurringFee input;
                 in_riskPenalty input; in_holdingPeriodDays input; in_minimumNetBenefit input]
                ++ cost_values costs in
  if existsb (fun v => (v <? 0) || (MAX <? v)) values then (None, [NUMERIC_LIMIT_EXCEEDED])
  else
    let entry := entry_cost costs in
    let exit := exit_cost costs in
    let total := entry + exit in
    if MAX <? total then (None, [NUMERIC_LIMIT_EXCEEDED])
    else
      let gross := in_grossApy input in
      let deductions := in_recurringFee input + in_riskPenalty input in
      let deployed := if entry <? in_principal input then in_principal input - entry else 0 in
      let conservative := if deductions <? gross
                          then gross - in_recurringFee input - in_riskPenalty input else 0 in
      let grossYield := deployed * gross * in_holdingPeriodDays input / (10000 * 365) in
      let yieldAfterDeductions :=
        deployed * conservative * in_holdingPeriodDays input / (10000 * 365) in
      if (MAX <? grossYield) || (MAX <? yieldAfterDeductions) then (None, [NUMERIC_LIMIT_EXCEEDED])
      else
        let net := yieldAfterDeductions - total in
        let dailyNumerator := deployed * conservative in
        let breakEven :=
          if total =? 0 then Some 0
          else if dailyNumerator =? 0 then None
          else Some ((total * 10000 * 365 + dailyNumerator - 1) / dailyNumerator) in
        (Some {| grossApy := gross; recurringFee := in_recurringFee input;
                 riskPenalty := in_riskPenalty input; conservativeApy := conservative;
                 principal := in_principal input; deployedPrincipal := deployed;
                 entryCost := entry; anticipatedExitCost := exit; totalLifecycleCost := total;
                 calculationCosts := costs; projectedGrossYield := grossYield;
                 projectedConservativeYield := yieldAfterDeductions; netBenefit := net;
                 breakEvenDays := breakEven; improvementOverSameChain := None |},
         (if in_principal input <=? total then [TOTAL_COST_EXCEEDS_PRINCIPAL] else [])
         ++ (if net <=? 0 then [NON_POSITIVE_NET_BENEFIT] else [])
         ++ (if net <? in_minimumNetBenefit input then [MINIMUM_NET_BENEFIT_NOT_MET] else [])).

Definition route_kind_eqb (a b : RouteKind) : bool :=
  match a, b with
  | SAME_CHAIN, SAME_CHAIN | CROSS_CHAIN, CROSS_CHAIN => true
  | _, _ => false
  end.

Definition compareFeeAwareReturns (left right : RankedCandidate) : Z :=
  match ranked_calculation left, ranked_calculation right with
  | None, None => 0
  | None, Some _ => 1
  | Some _, None => -1
  | Some a, Some b =>
      if negb (netBenefit a =? netBenefit b) then (if netBenefit b <? netBenefit a then -1 else 1)
      else if negb (route_kind_eqb (ranked_routeKind left) (ranked_routeKind right))
      then (if route_kind_eqb (ranked_routeKind left) SAME_CHAIN then -1 else 1)
      else if negb (totalLifecycleCost a =? totalLifecycleCost b)
      then (if totalLifecycleCost a <? totalLifecycleCost b then -1 else 1)
      else if String.eqb (ranked_id left) (ranked_id right) then 0
      else if str_lt (ranked_id left) (ranked_id right) then -1 else 1
  end.

(** ** Specification *)

Definition uint256_value (v : Z) : Prop := 0 <= v <= MAX_UINT256.

(** The yield of [d] days, before it is rounded down, in parts of 10,000 * 365. *)
Definition unrounded_yield (c : FeeAwareCandidateCalculation) (days : Z) : Z :=
  deployedPrincipal c * conservativeApy c * days.

(** What a calculation is, for any input. *)
Definition calculation_wf (input : ReturnInput) (c : FeeAwareCandidateCalculation) : Prop :=
  totalLifecycleCost c = foldr Z.add 0 (cost_values (in_costs input)) /\
  deployedPrincipal c = Z.max 0 (in_principal input - entryCost c) /\
  conservativeApy c = Z.max 0 (in_grossApy input - in_recurringFee input - in_riskPenalty input) /\
  netBenefit c = projectedConservativeYield c - totalLifecycleCost c /\
  projectedConservativeYield c * (10000 * 365) <= unrounded_yield c (in_holdingPeriodDays input)
    < (projectedConservativeYield c + 1) * (10000 * 365) /\
  projectedConservativeYield c <= projectedGrossYield c /\
  Forall uint256_value [deployedPrincipal c; conservativeApy c; totalLifecycleCost c;
                        projectedGrossYield c; projectedConservativeYield c].

(** [n] is the least number of days whose yield covers the costs. *)
Definition least_covering (c : FeeAwareCandidateCalculation) (n : Z) : Prop :=
  0 <= n /\ totalLifecycleCost c * (10000 * 365) <= unrounded_yield c n /\
  forall d, 0 <= d -> totalLifecycleCost c * (10000 * 365) <= unrounded_yield c d -> n <= d.

(** Strict preference of one candidate with a calculation over another. *)
Definition preferred (l r : RankedCandidate) (a b : FeeAwareCandidateCalculation) : Prop :=
  netBenefit b < netBenefit a \/
  netBenefit a = netBenefit b /\
  (ranked_routeKind l = SAME_CHAIN /\ ranked_routeKind r = CROSS_CHAIN \/
   ranked_routeKind l = ranked_routeKind r /\
   (totalLifecycleCost a < totalLifecycleCost b \/
    totalLifecycleCost a = totalLifecycleCost b /\ str_lt (ranked_id l) (ranked_id r) = true)).

(** ** Lemmas *)

Lemma values_in_range vs :
  existsb (fun v => (v <? 0) || (MAX <? v)) vs = false <-> Forall uint256_value vs.
Proof.
  unfold uint256_value, MAX. induction vs as [|v vs IH]; [split; [constructor | done]|].
  cbn [existsb]. rewrite Forall_cons, <- IH, !orb_false_iff, Z.ltb_ge, Z.ltb_ge. tauto.
Qed.

Lemma total_cost c : entry_cost c + exit_cost c = foldr Z.add 0 (cost_values c).
Proof. unfold entry_cost, exit_cost, cost_values. destruct (exitPlatformRouting c); cbn; lia. Qed.

Lemma costs_nonneg c :
  Forall uint256_value (cost_values c) -> 0 <= entry_cost c /\ 0 <= exit_cost c.
Proof.
  unfold cost_values, uint256_value, entry_cost, exit_cost. rewrite !Forall_app, !Forall_cons.
  intros H. destruct (exitPlatformRouting c); rewrite ?Forall_cons in H; cbn; lia.
Qed.

(** Division by a positive number, as bounds. *)
Lemma div_bounds x d : 0 < d -> x / d * d <= x < (x / d + 1) * d.
Proof. intros Hd. pose proof (Z.div_mod x d). pose proof (Z.mod_pos_bound x d Hd). nia. Qed.

(** The calculation and the reasons of the successful case. *)
Lemma calculate_ok input c reasons :
  calculateFeeAwareReturn input = (Some c, reasons) ->
  calculation_wf input c /\ entryCost c = entry_cost (in_costs input) /\
  reasons = (if in_principal input <=? totalLifecycleCost c then [TOTAL_COST_EXCEEDS_PRINCIPAL] else [])
            ++ (if netBenefit c <=? 0 then [NON_POSITIVE_NET_BENEFIT] else [])
            ++ (if netBenefit c <? in_minimumNetBenefit input then [MINIMUM_NET_BENEFIT_NOT_MET] else []) /\
  breakEvenDays c
  = (if totalLifecycleCost c =? 0 then Some 0
     else if deployedPrincipal c * conservativeApy c =? 0 then None
     else Some ((totalLifecycleCost c * 10000 * 365 + deployedPrincipal c * conservativeApy c - 1)
                / (deployedPrincipal c * conservativeApy c))).
Proof.
  unfold calculateFeeAwareReturn. destruct (existsb _ _) eqn:Hv; [discriminate|].
  destruct (MAX <? _) eqn:Ht; [discriminate|]. destruct (_ || _) eqn:Hy; [discriminate|].
  intros [= <- <-]. cbn. split; [|done].
  apply values_in_range, Forall_app in Hv as [Hi Hc]. pose proof (costs_nonneg _ Hc) as [He Hx].
  rewrite !Forall_cons in Hi. destruct Hi as ([Hp Hp'] & [Hg Hg'] & [Hr Hr'] & [Hk Hk'] & [Hd Hd'] & _).
  apply Z.ltb_ge in Ht. apply orb_false_iff in Hy as [Hy1%Z.ltb_ge Hy2%Z.ltb_ge].
  unfold MAX in *.
  set (entry := entry_cost _) in *. set (exit := exit_cost _) in *.
  set (deployed := if entry <? _ then _ else 0) in *.
  set (conservative := if _ <? in_grossApy input then _ else 0) in *.
  assert (deployed = Z.max 0 (in_principal input - entry)) as Edep
    by (unfold deployed; destruct (Z.ltb_spec entry (in_principal input)); lia).
  assert (conservative = Z.max 0 (in_grossApy input - in_recurringFee input - in_riskPenalty input))
    as Econ by (unfold conservative; destruct (Z.ltb_spec (in_recurringFee input + in_riskPenalty input)
                 (in_grossApy input)); lia).
  clearbody deployed conservative.
  assert (0 <= deployed * conservative * in_holdingPeriodDays input
            <= deployed * in_grossApy input * in_holdingPeriodDays input) as Hle.
  { assert (0 <= deployed * conservative <= deployed * in_grossApy input) by nia. nia. }
  unfold calculation_wf, unrounded_yield. cbn.
  split; [apply total_cost|]. split; [done|]. split; [done|]. split; [done|].
  split; [apply div_bounds; lia|]. split; [apply Z.div_le_mono; lia|].
  rewrite !Forall_cons. unfold uint256_value.
  pose proof (Z.div_pos (deployed * conservative * in_holdingPeriodDays input) 3650000).
  pose proof (Z.div_pos (deployed * in_grossApy input * in_holdingPeriodDays input) 3650000).
  change (10000 * 365) with 3650000 in *. repeat split; try done; lia.
Qed.

Lemma least_covering_ceiling t n :
  0 <= t -> 0 < n -> let b := (t + n - 1) / n in
  t <= n * b /\ forall d, t <= n * d -> b <= d.
Proof.
  intros Ht Hn b. pose proof (div_bounds (t + n - 1) n Hn) as Hb. fold b in Hb.
  split; [nia|]. intros d Hd. nia.
Qed.

Lemma route_kind_eqb_eq a b : route_kind_eqb a b = true <-> a = b.
Proof. destruct a, b; split; done. Qed.

Lemma compare_negative l r a b :
  ranked_calculation l = Some a -> ranked_calculation r = Some b ->
  compareFeeAwareReturns l r < 0 <-> preferred l r a b.
Proof.
  intros Hl Hr. unfold compareFeeAwareReturns, preferred. rewrite Hl, Hr.
  destruct (Z.eqb_spec (netBenefit a) (netBenefit b)) as [E|E]; cbn [negb].
  2:{ destruct (Z.ltb_spec (netBenefit b) (netBenefit a)); lia. }
  destruct (route_kind_eqb (ranked_routeKind l) (ranked_routeKind r)) eqn:Ek; cbn [negb].
  2:{ destruct (ranked_routeKind l), (ranked_routeKind r); try discriminate; cbn [route_kind_eqb]; split.
      - intros _. right. split; [done|]. by left.
      - lia.
      - lia.
      - intros [?|[_ [[? ?]|[? _]]]]; [lia | discriminate | discriminate]. }
  apply route_kind_eqb_eq in Ek.
  destruct (Z.eqb_spec (totalLifecycleCost a) (totalLifecycleCost b)) as [Et|Et]; cbn [negb].
  2:{ destruct (Z.ltb_spec (totalLifecycleCost a) (totalLifecycleCost b)); split; try lia.
      - intros _. right. split; [done|]. right. split; [done|]. by left.
      - intros [?|[_ [[H1 H2]|[_ [?|[? _]]]]]]; try lia. congruence. }
  destruct (String.eqb_spec (ranked_id l) (ranked_id r)) as [Ei|Ei].
  { split; [lia|]. intros [?|[_ [[H1 H2]|[_ [?|[_ H]]]]]]; try lia; [congruence|].
    rewrite Ei, str_lt_irrefl in H. discriminate. }
  destruct (str_lt (ranked_id l) (ranked_id r)); split; try lia.
  - intros _. right. split; [done|]. right. split; [done|]. by right.
  - intros [?|[_ [[H1 H2]|[_ [?|[_ H]]]]]]; try lia; congruence.
Qed.

Lemma compare_zero l r a b :
  ranked_calculation l = Some a -> ranked_calculation r = Some b ->
  compareFeeAwareReturns l r = 0 <->
  netBenefit a = netBenefit b /\ ranked_routeKind l = ranked_routeKind r /\
  totalLifecycleCost a = totalLifecycleCost b /\ ranked_id l = ranked_id r.
Proof.
  intros Hl Hr. unfold compareFeeAwareReturns. rewrite Hl, Hr.
  destruct (Z.eqb_spec (netBenefit a) (netBenefit b)); cbn [negb].
  2:{ destruct (_ <? _); split; (lia || tauto). }
  destruct (route_kind_eqb _ _) eqn:Ek; cbn [negb].
  2:{ assert (ranked_routeKind l <> ranked_routeKind r) by (intros E; apply route_kind_eqb_eq in E; congruence).
      destruct (route_kind_eqb _ SAME_CHAIN); split; (lia || tauto). }
  apply route_kind_eqb_eq in Ek.
  destruct (Z.eqb_spec (totalLifecycleCost a) (totalLifecycleCost b)); cbn [negb].
  2:{ destruct (_ <? _); split; (lia || tauto). }
  destruct (String.eqb_spec (ranked_id l) (ranked_id r)); [tauto|].
  destruct (str_lt _ _); split; (lia || tauto).
Qed.

Lemma preferred_asym l r a b : preferred l r a b -> preferred r l b a -> False.
Proof.
  unfold preferred. intros [?|[? P]] [?|[? Q]]; try lia.
  destruct P as [[P1 P2]|[P1 P2]], Q as [[Q1 Q2]|[Q1 Q2]]; try congruence.
  destruct P2 as [?|[? P2]], Q2 as [?|[? Q2]]; try lia.
  apply str_lt_asym in P2. congruence.
Qed.

Lemma preferred_total l r a b :
  preferred l r a b \/ preferred r l b a \/
  netBenefit a = netBenefit b /\ ranked_routeKind l = ranked_routeKind r /\
  totalLifecycleCost a = totalLifecycleCost b /\ ranked_id l = ranked_id r.
Proof.
  unfold preferred. destruct (Z.lt_trichotomy (netBenefit a) (netBenefit b)) as [?|[E|?]]; [auto | | auto].
  destruct (ranked_routeKind l) eqn:Kl, (ranked_routeKind r) eqn:Kr; auto 10;
    destruct (Z.lt_trichotomy (totalLifecycleCost a) (totalLifecycleCost b)) as [?|[Et|?]]; auto 10;
    destruct (str_lt (ranked_id l) (ranked_id r)) eqn:S1, (str_lt (ranked_id r) (ranked_id l)) eqn:S2;
    auto 10; do 2 right; repeat (split; [done|]); by apply str_lt_total.
Qed.

Lemma preferred_trans l m r a b c :
  preferred l m a b -> preferred m r b c -> preferred l r a c.
Proof.
  unfold preferred. intros [?|[E P]] [?|[E' Q]]; [left; lia | left; lia | left; lia |].
  right. split; [lia|].
  destruct P as [[P1 P2]|[P1 P2]], Q as [[Q1 Q2]|[Q1 Q2]]; try congruence.
  - left. split; congruence.
  - left. split; congruence.
  - right. split; [congruence|]. destruct P2 as [?|[? P2]], Q2 as [?|[? Q2]];
      [left; lia | left; lia | left; lia |]. right. split; [lia|]. by eapply str_lt_trans.
Qed.

(** No candidate is preferred, in this direction, to one it ties with or follows. *)
Lemma compare_nonpositive l r a b :
  ranked_calculation l = Some a -> ranked_calculation r = Some b ->
  compareFeeAwareReturns l r <= 0 <-> ~ preferred r l b a.
Proof.
  intros Hl Hr. rewrite Z.le_lteq, (compare_negative _ _ a b), (compare_zero _ _ a b) by done. split.
  - intros [H|(E1 & E2 & E3 & E4)] H'; [by eapply preferred_asym|].
    unfold preferred in H'. rewrite E1, E2, E3, E4 in H'.
    destruct H' as [?|[_ [[? ?]|[_ [?|[_ H]]]]]]; try lia; [congruence|].
    rewrite str_lt_irrefl in H. discriminate.
  - intros H. destruct (preferred_total l r a b) as [?|[?|?]]; [by left | done | by right].
Qed.

#[export] Instance compareFeeAwareReturns_comparator : Comparator (fun _ => True) compareFeeAwareReturns.
Proof.
  split.
  - intros l r _ _. destruct (ranked_calculation l) as [a|] eqn:Hl, (ranked_calculation r) as [b|] eqn:Hr.
    + rewrite (compare_negative l r a b) by done. pose proof (compare_nonpositive r l b a Hr Hl) as H.
      destruct (Z.lt_ge_cases 0 (compareFeeAwareReturns r l)).
      * split; [done|]. intros _. destruct (preferred_total l r a b) as [?|[?|?]]; [done | |].
        -- apply (compare_negative r l b a) in H1; [lia | done | done].
        -- destruct H1 as (? & ? & ? & ?).
           assert (compareFeeAwareReturns r l = 0) by (apply (compare_zero r l b a); auto). lia.
      * split; [|lia]. intros Hp. destruct (proj1 H ltac:(assumption) Hp).
    + unfold compareFeeAwareReturns. rewrite Hl, Hr. lia.
    + unfold compareFeeAwareReturns. rewrite Hl, Hr. lia.
    + unfold compareFeeAwareReturns. rewrite Hl, Hr. lia.
  - intros l m r _ _ _.
    destruct (ranked_calculation l) as [a|] eqn:Hl, (ranked_calculation m) as [b|] eqn:Hm,
      (ranked_calculation r) as [c|] eqn:Hr;
      try (unfold compareFeeAwareReturns; rewrite ?Hl, ?Hm, ?Hr; lia).
    rewrite (compare_nonpositive l m a b), (compare_nonpositive m r b c), (compare_nonpositive l r a c) by done.
    intros H1 H2 H3. destruct (preferred_total l m a b) as [H|[H|H]]; [| by apply H1 |].
    + apply H2. by eapply preferred_trans.
    + apply H2. destruct H as (E1 & E2 & E3 & E4). unfold preferred in *.
      by rewrite <- E1, <- E2, <- E3, <- E4.
Qed.

(** ** Properties *)

(** A return calculation is exact: the total cost is the sum of every
    lifecycle cost, the yield after deductions is the deployed principal at the
    conservative rate rounded down, every figure fits 256 bits, and the reasons
    against the candidate are exactly its shortfalls; the only other outcome is
    a figure outside 256 bits. *)
Theorem fee_return_exact input :
  match calculateFeeAwareReturn input with
  | (Some c, reasons) =>
      calculation_wf input c /\
      (reasons = [] <-> totalLifecycleCost c < in_principal input /\ 0 < netBenefit c /\
                        in_minimumNetBenefit input <= netBenefit c) /\
      (in_principal input <= totalLifecycleCost c <-> TOTAL_COST_EXCEEDS_PRINCIPAL ∈ reasons) /\
      (netBenefit c <= 0 <-> NON_POSITIVE_NET_BENEFIT ∈ reasons) /\
      (netBenefit c < in_minimumNetBenefit input <-> MINIMUM_NET_BENEFIT_NOT_MET ∈ reasons)
  | (None, reasons) => reasons = [NUMERIC_LIMIT_EXCEEDED]
  end.
Proof.
  destruct (calculateFeeAwareReturn input) as [[c|] reasons] eqn:E.
  - apply calculate_ok in E as (Hc & _ & -> & _). split; [done|].
    destruct (Z.leb_spec (in_principal input) (totalLifecycleCost c)),
      (Z.leb_spec (netBenefit c) 0), (Z.ltb_spec (netBenefit c) (in_minimumNetBenefit input));
      cbn [app]; repeat split; intros; try set_solver; try lia; try discriminate.
  - unfold calculateFeeAwareReturn in E. destruct (existsb _ _); [by injection E|].
    destruct (_ <? _); [by injection E|]. destruct (_ || _); [by injection E | discriminate].
Qed.

(** The break-even figure is the least whole number of days whose
    conservative yield covers the lifecycle costs, absent exactly when no
    number of days does; so a candidate does not lose money over the holding
    period exactly when it breaks even within it. *)
Theorem break_even_least input c reasons :
  calculateFeeAwareReturn input = (Some c, reasons) ->
  match breakEvenDays c with
  | Some n => least_covering c n
  | None => forall d, 0 <= d -> unrounded_yield c d < totalLifecycleCost c * (10000 * 365)
  end /\
  (0 <= netBenefit c <-> exists n, breakEvenDays c = Some n /\ n <= in_holdingPeriodDays input).
Proof.
  intros H. assert (0 <= in_holdingPeriodDays input) as Hdays.
  { unfold calculateFeeAwareReturn in H. destruct (existsb _ _) eqn:Hv; [discriminate|].
    apply values_in_range, Forall_app in Hv as [Hi _]. rewrite !Forall_cons in Hi. apply Hi. }
  apply calculate_ok in H as ((_ & _ & _ & Hn & Hy & _ & Hr) & _ & _ & Hb).
  rewrite !Forall_cons in Hr. destruct Hr as ([Hd _] & [Hcons _] & [Ht _] & _ & [Hy0 _] & _).
  rewrite Hb. unfold least_covering, unrounded_yield in *. clear Hb.
  set (n := deployedPrincipal c * conservativeApy c) in *. set (t := totalLifecycleCost c) in *.
  set (y := projectedConservativeYield c) in *. set (h := in_holdingPeriodDays input) in *.
  assert (0 <= n) as Hn0 by (unfold n; nia).
  assert (0 <= netBenefit c <-> t * (10000 * 365) <= n * h) as Hnet by (rewrite Hn; nia).
  destruct (Z.eqb_spec t 0) as [Et|Et].
  { split; [split; [lia|]; split; [nia|]; intros; lia|]. rewrite Hnet. split; [by exists 0 | nia]. }
  destruct (Z.eqb_spec n 0) as [En|En].
  { split; [intros; nia|]. rewrite Hnet. split; [nia | by intros (? & [=] & _)]. }
  replace (t * 10000 * 365) with (t * (10000 * 365)) by lia.
  destruct (least_covering_ceiling (t * (10000 * 365)) n) as [H1 H2]; [lia | lia |].
  set (b := (t * (10000 * 365) + n - 1) / n) in *.
  split; [split; [nia|]; split; [done | intros; by apply H2]|].
  rewrite Hnet. split; [intros H; exists b; split; [done | by apply H2]|].
  intros (x & [= <-] & Hx). nia.
Qed.

(** Candidates are compared by a total order: more net benefit first, then
    the same-chain route, then the cheaper lifecycle, then the identifier; two
    candidates tie only when they have one identifier, and a candidate without
    a calculation comes last. *)
Theorem preference_total_order :
  Comparator (fun _ => True) compareFeeAwareReturns /\
  (forall l r a b, ranked_calculation l = Some a -> ranked_calculation r = Some b ->
     (compareFeeAwareReturns l r < 0 <-> preferred l r a b) /\
     (compareFeeAwareReturns l r = 0 -> ranked_id l = ranked_id r)) /\
  (forall l r a, ranked_calculation l = Some a -> ranked_calculation r = None ->
     compareFeeAwareReturns l r < 0).
Proof.
  split; [apply _|]. split.
  - intros l r a b Hl Hr. split; [by apply compare_negative|].
    intros H%(compare_zero l r a b Hl Hr). tauto.
  - intros l r a Hl Hr. unfold compareFeeAwareReturns. rewrite Hl, Hr. lia.
Qed.

(** ** Witnesses *)

Definition costs_example : FeeAwareAllocationCostsUsdMantissa :=
  {| entrySourceNetwork := 10; entrySourceSwap := 0; entryBridge := 0; entryDestinationNetwork := 0;
     entryDestinationSwap := 0; providerEntry := 0; providerExit := 10; exitDestinationNetwork := 0;
     exitDestinationSwap := 0; exitBridge := 0; exitSourceNetwork := 0; platformRouting := 0;
     exitPlatformRouting := None; riskBuffer := 0 |}.

Definition return_input_example : ReturnInput :=
  {| in_principal := 365010; in_grossApy := 600; in_recurringFee := 50; in_riskPenalty := 50;
     in_holdingPeriodDays := 30; in_minimumNetBenefit := 100; in_costs := costs_example |}.

Lemma break_even_least_witness :
  exists c, calculateFeeAwareReturn return_input_example = (Some c, []) /\
    breakEvenDays c = Some 1 /\ least_covering c 1.
Proof.
  eexists. split; [vm_compute; reflexivity|]. split; [vm_compute; reflexivity|].
  exact (proj1 (break_even_least return_input_example _ [] ltac:(vm_compute; reflexivity))).
Defined.
