(* ===== verification/FeeAwareRequest.v ===== *)
(** * Allocation requests (apps/api/src/smart-lending/domain/fee-aware-allocation.ts)

    The data of a fee-aware allocation request and the parsers that accept it.
    A malformed request is refused as a whole, except that a malformed cost
    quote only makes its own candidate ineligible. *)

From stdpp Require Import base list strings sets.
From Stdlib Require Import ZArith Lia.
From S2P Require Import Prelude Text JsValue JsDate JsCollections FeeAwareReturn.

Open Scope Z_scope.

(** ** Data *)

Definition MAX_RATE_BASIS_POINTS : Z := 1000000.
Definition MAX_HOLDING_PERIOD_DAYS : Z := 36500.
Definition MAX_FRESHNESS_SECONDS : Z := 86400.
Definition FEE_AWARE_ALLOCATION_USD_SCALE : Z := 18.

Inductive MainnetLaunchNetworkId : Type := ETHEREUM | SOLANA.
Inductive Availability : Type := AVAILABLE | UNAVAILABLE.
Inductive RecommendationEligibility : Type := ELIGIBLE | INELIGIBLE.

#[export] Program Instance MAINNET_LAUNCH_NETWORK_IDS : JsEnum MainnetLaunchNetworkId := {
  enum_values := [ETHEREUM; SOLANA];
  enum_str := fun n => match n with
    | ETHEREUM => "eip155:1" | SOLANA => "solana:5eykt4UsFv8P8NJdTREpY1vzqKqZKvdp" end;
}.
Next Obligation. solve_enum_all. Qed.
Next Obligation. solve_enum_inj. Qed.

#[export] Program Instance AVAILABILITIES : JsEnum Availability := {
  enum_values := [AVAILABLE; UNAVAILABLE];
  enum_str := fun a => match a with AVAILABLE => "AVAILABLE" | UNAVAILABLE => "UNAVAILABLE" end;
}.
Next Obligation. solve_enum_all. Qed.
Next Obligation. solve_enum_inj. Qed.

#[export] Program Instance RECOMMENDATION_ELIGIBILITIES : JsEnum RecommendationEligibility := {
  enum_values := [ELIGIBLE; INELIGIBLE];
  enum_str := fun e => match e with ELIGIBLE => "ELIGIBLE" | INELIGIBLE => "INELIGIBLE" end;
}.
Next Obligation. solve_enum_all. Qed.
Next Obligation. solve_enum_inj. Qed.

(** The keys of a cost quote; [exitPlatformRouting] is not one of them. *)
Definition FEE_AWARE_ALLOCATION_COST_KINDS : list string :=
  ["entrySourceNetwork"; "entrySourceSwap"; "entryBridge"; "entryDestinationNetwork";
   "entryDestinationSwap"; "providerEntry"; "providerExit"; "exitDestinationNetwork";
   "exitDestinationSwap"; "exitBridge"; "exitSourceNetwork"; "platformRouting"; "riskBuffer"].

Record FeeAwareCapitalPosition : Type := {
  positionId : string;
  walletId : string;
  position_networkId : MainnetLaunchNetworkId;
  position_assetId : string;
  amountAtomic : Z;
  amountUsdMantissa : Z;
}.

Record FeeAwareOpportunityEvidence : Type := {
  evidenceReferenceId : string;
  adapterId : string;
  observedAt : string;
  evidence_validUntil : string;
}.

Record FeeAwareRiskAssessment : Type := {
  assessmentReferenceId : string;
  assessedAt : string;
  risk_validUntil : string;
  penaltyBasisPoints : Z;
}.

Record ParsedOpportunity : Type := {
  opportunityId : string;
  providerId : string;
  opportunity_networkId : MainnetLaunchNetworkId;
  opportunity_assetId : string;
  availability : Availability;
  recommendationEligibility : RecommendationEligibility;
  grossApyBasisPoints : Z;
  recurringFeeBasisPoints : Z;
  availableCapacityUsdMantissa : Z;
  evidence : FeeAwareOpportunityEvidence;
  riskAssessment : option FeeAwareRiskAssessment;
  evidenceObservedAtMs : Z;
  evidenceValidUntilMs : Z;
  riskAssessedAtMs : option Z;
  riskValidUntilMs : option Z;
}.

Record FeeAwareBridgeEstimate : Type := {
  entryBridgeProviderId : string;
  exitBridgeProviderId : string;
  entryEstimateReferenceId : string;
  exitEstimateReferenceId : string;
  entryMinimumOutputAtomic : Z;
  exitMinimumOutputAtomic : Z;
}.

Inductive CostIssue : Type := INCOMPLETE_COST_QUOTE | INVALID_COST_QUOTE.

Record ParsedCostQuote : Type := {
  quoteReferenceId : string;
  routeReferenceId : string;
  quote_positionId : string;
  quote_opportunityId : string;
  verifiedByAdapterId : string;
  quotedAt : string;
  quote_validUntil : string;
  quotedAtMs : Z;
  validUntilMs : Z;
  sourceNetworkId : MainnetLaunchNetworkId;
  destinationNetworkId : MainnetLaunchNetworkId;
  sourceAssetId : string;
  destinationAssetId : string;
  sourceAmountAtomic : Z;
  minimumDestinationAmountAtomic : Z;
  costsUsdMantissa : option FeeAwareAllocationCostsUsdMantissa;
  costIssue : option CostIssue;
  bridge : option FeeAwareBridgeEstimate;
}.

(** [quoteIssue] is set exactly when [costQuote] is [null]. *)
Record ParsedCandidate : Type := {
  candidateId : string;
  candidate_positionId : string;
  candidate_opportunityId : string;
  costQuote : option ParsedCostQuote;
  quoteIssue : option CostIssue;
}.

Record ParsedOptIn : Type := {
  consentReferenceId : string;
  grantedAt : string;
  expiresAt : string;
  grantedAtMs : Z;
  expiresAtMs : Z;
}.

Record FeeAwareCrossChainPolicy : Type := {
  optIn : option ParsedOptIn;
  allowedBridgeProviderIds : list string;
  maximumLifecycleCostUsdMantissa : Z;
  minimumNetImprovementUsdMantissa : Z;
}.

Record FeeAwareAllocationExposurePolicy : Type := {
  maximumCrossChainPrincipalUsdMantissa : Z;
  maximumProviderPrincipalUsdMantissa : Z;
}.

Record ParsedRequest : Type := {
  evaluatedAt : string;
  evaluatedAtMs : Z;
  holdingPeriodDays : Z;
  maximumQuoteAgeSeconds : Z;
  maximumOpportunityAgeSeconds : Z;
  minimumNetBenefitUsdMantissa : Z;
  crossChainPolicy : FeeAwareCrossChainPolicy;
  exposurePolicy : FeeAwareAllocationExposurePolicy;
  positions : list FeeAwareCapitalPosition;
  opportunities : list ParsedOpportunity;
  candidates : list ParsedCandidate;
}.

Inductive InvalidInput : Type := INVALID_INPUT.

Notation allocation_result := (result InvalidInput).

(** ** Parsers *)

Definition exactRecord (value : jsval) (expectedKeys : list string) : allocation_result jsrec :=
  or_throw (exact_data_record expectedKeys value) INVALID_INPUT.

Definition exactArray (value : jsval) (minimum maximum : Z) : allocation_result (list jsval) :=
  or_throw (data_array minimum maximum value) INVALID_INPUT.

(** The text with its milliseconds. *)
Definition timestamp (value : jsval) : allocation_result (string * Z) :=
  match value with
  | VStr s =>
      match canonical_timestamp s with
      | Some t => Ok (s, t)
      | None => Err INVALID_INPUT
      end
  | _ => Err INVALID_INPUT
  end.

Definition SAFE_REFERENCE_PATTERN (s : string) : bool :=
  VISIBLE_PATTERN s && (strlen s <=? 192).

Definition reference (value : jsval) : allocation_result string :=
  match value with
  | VStr s => if negb (SAFE_REFERENCE_PATTERN s) then Err INVALID_INPUT else Ok s
  | _ => Err INVALID_INPUT
  end.

Definition networkId (value : jsval) : allocation_result MainnetLaunchNetworkId :=
  or_throw (enum_member enum_values value) INVALID_INPUT.

Definition enumValue {A} `{JsEnum A} (value : jsval) : allocation_result A :=
  or_throw (enum_member enum_values value) INVALID_INPUT.

Definition unsignedBigInt (value : jsval) (maximum : Z) : allocation_result Z :=
  match value with
  | VBig n => if (n <? 0) || (maximum <? n) then Err INVALID_INPUT else Ok n
  | _ => Err INVALID_INPUT
  end.

Definition positiveBigInt (value : jsval) (maximum : Z) : allocation_result Z :=
  let* parsed := unsignedBigInt value maximum in
  reject INVALID_INPUT when parsed =? 0 in
  Ok parsed.

Definition unique (values : list string) : allocation_result unit :=
  reject INVALID_INPUT when negb (set_size values =? length values)%nat in
  Ok tt.

Definition parsePosition (value : jsval) : allocation_result FeeAwareCapitalPosition :=
  let* record := exactRecord value
    ["positionId"; "walletId"; "networkId"; "assetId"; "amountAtomic"; "amountUsdMantissa"] in
  let* positionId := reference (record .: "positionId") in
  let* walletId := reference (record .: "walletId") in
  let* network := networkId (record .: "networkId") in
  let* assetId := reference (record .: "assetId") in
  let* amountAtomic := positiveBigInt (record .: "amountAtomic") MAX_UINT256 in
  let* amountUsdMantissa := positiveBigInt (record .: "amountUsdMantissa") MAX_UINT256 in
  Ok {| positionId := positionId; walletId := walletId; position_networkId := network;
        position_assetId := assetId; amountAtomic := amountAtomic;
        amountUsdMantissa := amountUsdMantissa |}.

(** The assessment with its two instants. *)
Definition parseRiskAssessment (value : jsval)
    : allocation_result (option (FeeAwareRiskAssessment * Z * Z)) :=
  match value with
  | VNull => Ok None
  | _ =>
      let* record := exactRecord value
        ["status"; "assessmentReferenceId"; "assessedAt"; "validUntil"; "penaltyBasisPoints"] in
      reject INVALID_INPUT when
        match record .: "status" with
        | VStr s => negb (String.eqb s "APPROVED_FOR_RECOMMENDATION")
        | _ => true
        end in
      let* assessedAt := timestamp (record .: "assessedAt") in
      let* validUntil := timestamp (record .: "validUntil") in
      reject INVALID_INPUT when validUntil.2 <=? assessedAt.2 in
      let* assessmentReferenceId := reference (record .: "assessmentReferenceId") in
      let* penalty := unsignedBigInt (record .: "penaltyBasisPoints") MAX_RATE_BASIS_POINTS in
      Ok (Some ({| assessmentReferenceId := assessmentReferenceId; assessedAt := assessedAt.1;
                   risk_validUntil := validUntil.1; penaltyBasisPoints := penalty |},
                assessedAt.2, validUntil.2))
  end.

Definition parseOpportunity (value : jsval) : allocation_result ParsedOpportunity :=
  let* record := exactRecord value
    ["opportunityId"; "providerId"; "networkId"; "assetId"; "availability";
     "recommendationEligibility"; "grossApyBasisPoints"; "recurringFeeBasisPoints";
     "availableCapacityUsdMantissa"; "evidence"; "riskAssessment"] in
  let* evidenceRecord := exactRecord (record .: "evidence")
    ["evidenceReferenceId"; "adapterId"; "observedAt"; "validUntil"] in
  let* observedAt := timestamp (evidenceRecord .: "observedAt") in
  let* evidenceValidUntil := timestamp (evidenceRecord .: "validUntil") in
  reject INVALID_INPUT when evidenceValidUntil.2 <=? observedAt.2 in
  let* risk := parseRiskAssessment (record .: "riskAssessment") in
  let* opportunityId := reference (record .: "opportunityId") in
  let* providerId := reference (record .: "providerId") in
  let* network := networkId (record .: "networkId") in
  let* assetId := reference (record .: "assetId") in
  let* availability := enumValue (record .: "availability") in
  let* recommendationEligibility := enumValue (record .: "recommendationEligibility") in
  let* gross := unsignedBigInt (record .: "grossApyBasisPoints") MAX_RATE_BASIS_POINTS in
  let* recurring := unsignedBigInt (record .: "recurringFeeBasisPoints") MAX_RATE_BASIS_POINTS in
  let* capacity := unsignedBigInt (record .: "availableCapacityUsdMantissa") MAX_UINT256 in
  let* evidenceReferenceId := reference (evidenceRecord .: "evidenceReferenceId") in
  let* adapterId := reference (evidenceRecord .: "adapterId") in
  Ok {| opportunityId := opportunityId; providerId := providerId;
        opportunity_networkId := network; opportunity_assetId := assetId;
        availability := availability; recommendationEligibility := recommendationEligibility;
        grossApyBasisPoints := gross; recurringFeeBasisPoints := recurring;
        availableCapacityUsdMantissa := capacity;
        evidence := {| evidenceReferenceId := evidenceReferenceId; adapterId := adapterId;
                       observedAt := observedAt.1; evidence_validUntil := evidenceValidUntil.1 |};
        riskAssessment := (fun r => r.1.1) <$> risk;
        evidenceObservedAtMs := observedAt.2; evidenceValidUntilMs := evidenceValidUntil.2;
        riskAssessedAtMs := (fun r => r.1.2) <$> risk; riskValidUntilMs := snd <$> risk |}.

(** The costs of a quote, or what is wrong with them. *)
Definition parseCosts (value : jsval)
    : option FeeAwareAllocationCostsUsdMantissa * option CostIssue :=
  match plain_descriptors value with
  | None => (None, Some INVALID_COST_QUOTE)
  | Some ds =>
      if negb (length ds =? length FEE_AWARE_ALLOCATION_COST_KINDS)%nat
         || existsb (fun kd => negb (key_in FEE_AWARE_ALLOCATION_COST_KINDS kd.1)) ds
      then (None, Some INCOMPLETE_COST_QUOTE)
      else
        match read_keys ds FEE_AWARE_ALLOCATION_COST_KINDS with
        | None => (None, Some INVALID_COST_QUOTE)
        | Some r =>
            match mapr (fun kv => unsignedBigInt kv.2 MAX_UINT256) r with
            | Ok [a; b; c; d; e; f; g; h; i; j; k; l; m] =>
                (Some {| entrySourceNetwork := a; entrySourceSwap := b; entryBridge := c;
                         entryDestinationNetwork := d; entryDestinationSwap := e;
                         providerEntry := f; providerExit := g; exitDestinationNetwork := h;
                         exitDestinationSwap := i; exitBridge := j; exitSourceNetwork := k;
                         platformRouting := l; exitPlatformRouting := None; riskBuffer := m |}, None)
            | _ => (None, Some INVALID_COST_QUOTE)
            end
        end
  end.

Definition parseBridge (value : jsval) : allocation_result (option FeeAwareBridgeEstimate) :=
  match value with
  | VNull => Ok None
  | _ =>
      let* record := exactRecord value
        ["entryBridgeProviderId"; "exitBridgeProviderId"; "entryEstimateReferenceId";
         "exitEstimateReferenceId"; "entryMinimumOutputAtomic"; "exitMinimumOutputAtomic"] in
      let* entryProvider := reference (record .: "entryBridgeProviderId") in
      let* exitProvider := reference (record .: "exitBridgeProviderId") in
      let* entryReference := reference (record .: "entryEstimateReferenceId") in
      let* exitReference := reference (record .: "exitEstimateReferenceId") in
      let* entryMinimum := positiveBigInt (record .: "entryMinimumOutputAtomic") MAX_UINT256 in
      let* exitMinimum := positiveBigInt (record .: "exitMinimumOutputAtomic") MAX_UINT256 in
      Ok (Some {| entryBridgeProviderId := entryProvider; exitBridgeProviderId := exitProvider;
                  entryEstimateReferenceId := entryReference;
                  exitEstimateReferenceId := exitReference;
                  entryMinimumOutputAtomic := entryMinimum; exitMinimumOutputAtomic := exitMinimum |})
  end.

Definition parseCostQuote (value : jsval) : allocation_result ParsedCostQuote :=
  let* record := exactRecord value
    ["quoteReferenceId"; "routeReferenceId"; "positionId"; "opportunityId"; "verifiedByAdapterId";
     "quotedAt"; "validUntil"; "sourceNetworkId"; "destinationNetworkId"; "sourceAssetId";
     "destinationAssetId"; "sourceAmountAtomic"; "minimumDestinationAmountAtomic";
     "costsUsdMantissa"; "bridge"] in
  let* quotedAt := timestamp (record .: "quotedAt") in
  let* validUntil := timestamp (record .: "validUntil") in
  reject INVALID_INPUT when validUntil.2 <=? quotedAt.2 in
  let parsedCosts := parseCosts (record .: "costsUsdMantissa") in
  let* sourceAmount := positiveBigInt (record .: "sourceAmountAtomic") MAX_UINT256 in
  let* minimumDestination :=
    positiveBigInt (record .: "minimumDestinationAmountAtomic") MAX_UINT256 in
  let* bridge := parseBridge (record .: "bridge") in
  reject INVALID_INPUT when
    match bridge with
    | Some b => negb (entryMinimumOutputAtomic b =? minimumDestination)
                || (sourceAmount <? entryMinimumOutputAtomic b)
                || (entryMinimumOutputAtomic b <? exitMinimumOutputAtomic b)
    | None => false
    end in
  let* quoteReferenceId := reference (record .: "quoteReferenceId") in
  let* routeReferenceId := reference (record .: "routeReferenceId") in
  let* positionId := reference (record .: "positionId") in
  let* opportunityId := reference (record .: "opportunityId") in
  let* verifiedByAdapterId := reference (record .: "verifiedByAdapterId") in
  let* sourceNetwork := networkId (record .: "sourceNetworkId") in
  let* destinationNetwork := networkId (record .: "destinationNetworkId") in
  let* sourceAsset := reference (record .: "sourceAssetId") in
  let* destinationAsset := reference (record .: "destinationAssetId") in
  Ok {| quoteReferenceId := quoteReferenceId; routeReferenceId := routeReferenceId;
        quote_positionId := positionId; quote_opportunityId := opportunityId;
        verifiedByAdapterId := verifiedByAdapterId; quotedAt := quotedAt.1;
        quote_validUntil := validUntil.1; quotedAtMs := quotedAt.2; validUntilMs := validUntil.2;
        sourceNetworkId := sourceNetwork; destinationNetworkId := destinationNetwork;
        sourceAssetId := sourceAsset; destinationAssetId := destinationAsset;
        sourceAmountAtomic := sourceAmount;
        minimumDestinationAmountAtomic := minimumDestination;
        costsUsdMantissa := parsedCosts.1; costIssue := parsedCosts.2; bridge := bridge |}.

Definition parseCandidate (value : jsval) : allocation_result ParsedCandidate :=
  let* record := exactRecord value ["candidateId"; "positionId"; "opportunityId"; "costQuote"] in
  let quote := match parseCostQuote (record .: "costQuote") with
               | Ok q => (Some q, None)
               | Err _ => (None, Some INVALID_COST_QUOTE)
               end in
  let* candidateId := reference (record .: "candidateId") in
  let* positionId := reference (record .: "positionId") in
  let* opportunityId := reference (record .: "opportunityId") in
  Ok {| candidateId := candidateId; candidate_positionId := positionId;
        candidate_opportunityId := opportunityId; costQuote := quote.1; quoteIssue := quote.2 |}.

Definition parseOptIn (value : jsval) : allocation_result (option ParsedOptIn) :=
  match value with
  | VNull => Ok None
  | _ =>
      let* record := exactRecord value ["scope"; "consentReferenceId"; "grantedAt"; "expiresAt"] in
      reject INVALID_INPUT when
        match record .: "scope" with
        | VStr s => negb (String.eqb s "CONSIDER_CROSS_CHAIN_RECOMMENDATIONS")
        | _ => true
        end in
      let* grantedAt := timestamp (record .: "grantedAt") in
      let* expiresAt := timestamp (record .: "expiresAt") in
      reject INVALID_INPUT when expiresAt.2 <=? grantedAt.2 in
      let* consentReferenceId := reference (record .: "consentReferenceId") in
      Ok (Some {| consentReferenceId := consentReferenceId; grantedAt := grantedAt.1;
                  expiresAt := expiresAt.1; grantedAtMs := grantedAt.2; expiresAtMs := expiresAt.2 |})
  end.

Definition parseCrossChainPolicy (value : jsval) : allocation_result FeeAwareCrossChainPolicy :=
  let* record := exactRecord value
    ["optIn"; "allowedBridgeProviderIds"; "maximumLifecycleCostUsdMantissa";
     "minimumNetImprovementUsdMantissa"] in
  let* values := exactArray (record .: "allowedBridgeProviderIds") 0 32 in
  let* allowed := mapr reference values in
  let* _ := unique allowed in
  let* optIn := parseOptIn (record .: "optIn") in
  let* maximumCost := unsignedBigInt (record .: "maximumLifecycleCostUsdMantissa") MAX_UINT256 in
  let* minimumImprovement :=
    unsignedBigInt (record .: "minimumNetImprovementUsdMantissa") MAX_UINT256 in
  Ok {| optIn := optIn; allowedBridgeProviderIds := allowed;
        maximumLifecycleCostUsdMantissa := maximumCost;
        minimumNetImprovementUsdMantissa := minimumImprovement |}.

Definition parseExposurePolicy (value : jsval) : allocation_result FeeAwareAllocationExposurePolicy :=
  let* record := exactRecord value
    ["maximumCrossChainPrincipalUsdMantissa"; "maximumProviderPrincipalUsdMantissa"] in
  let* crossChain :=
    unsignedBigInt (record .: "maximumCrossChainPrincipalUsdMantissa") MAX_UINT256 in
  let* provider := unsignedBigInt (record .: "maximumProviderPrincipalUsdMantissa") MAX_UINT256 in
  Ok {| maximumCrossChainPrincipalUsdMantissa := crossChain;
        maximumProviderPrincipalUsdMantissa := provider |}.

Definition parseRequest (value : jsval) : allocation_result ParsedRequest :=
  let* record := exactRecord value
    ["usdScale"; "evaluatedAt"; "holdingPeriodDays"; "maximumQuoteAgeSeconds";
     "maximumOpportunityAgeSeconds"; "minimumNetBenefitUsdMantissa"; "crossChainPolicy";
     "exposurePolicy"; "positions"; "opportunities"; "candidates"] in
  reject INVALID_INPUT when negb (is_int (record .: "usdScale") FEE_AWARE_ALLOCATION_USD_SCALE) in
  let* evaluatedAt := timestamp (record .: "evaluatedAt") in
  let* days := positiveBigInt (record .: "holdingPeriodDays") MAX_HOLDING_PERIOD_DAYS in
  let* quoteAge := positiveBigInt (record .: "maximumQuoteAgeSeconds") MAX_FRESHNESS_SECONDS in
  let* opportunityAge :=
    positiveBigInt (record .: "maximumOpportunityAgeSeconds") MAX_FRESHNESS_SECONDS in
  let* minimumBenefit := unsignedBigInt (record .: "minimumNetBenefitUsdMantissa") MAX_UINT256 in
  let* positionValues := exactArray (record .: "positions") 1 64 in
  let* positions := mapr parsePosition positionValues in
  let* opportunityValues := exactArray (record .: "opportunities") 1 256 in
  let* opportunities := mapr parseOpportunity opportunityValues in
  let* candidateValues := exactArray (record .: "candidates") 0 1024 in
  let* candidates := mapr parseCandidate candidateValues in
  let* _ := unique (positionId <$> positions) in
  let* _ := unique (opportunityId <$> opportunities) in
  let* _ := unique (candidateId <$> candidates) in
  let* crossChainPolicy := parseCrossChainPolicy (record .: "crossChainPolicy") in
  let* exposurePolicy := parseExposurePolicy (record .: "exposurePolicy") in
  Ok {| evaluatedAt := evaluatedAt.1; evaluatedAtMs := evaluatedAt.2; holdingPeriodDays := days;
        maximumQuoteAgeSeconds := quoteAge; maximumOpportunityAgeSeconds := opportunityAge;
        minimumNetBenefitUsdMantissa := minimumBenefit; crossChainPolicy := crossChainPolicy;
        exposurePolicy := exposurePolicy; positions := positions; opportunities := opportunities;
        candidates := candidates |}.

(** ** Specification *)

(** What the parsers guarantee of a request. *)
Definition request_wf (request : ParsedRequest) : Prop :=
  NoDup (positionId <$> positions request) /\ NoDup (opportunityId <$> opportunities request) /\
  NoDup (candidateId <$> candidates request) /\
  Forall (fun p => 1 <= amountUsdMantissa p <= MAX_UINT256 /\ 1 <= amountAtomic p <= MAX_UINT256)
         (positions request) /\
  Forall (fun o => 0 <= availableCapacityUsdMantissa o <= MAX_UINT256) (opportunities request) /\
  0 <= maximumCrossChainPrincipalUsdMantissa (exposurePolicy request) <= MAX_UINT256 /\
  0 <= maximumProviderPrincipalUsdMantissa (exposurePolicy request) <= MAX_UINT256.

(** A quote that can be assessed: a proper validity interval, positive amounts,
    no bridge output above its input, and every lifecycle cost or a named
    defect. *)
Definition quote_wf (q : ParsedCostQuote) : Prop :=
  quotedAtMs q < validUntilMs q /\ 1 <= sourceAmountAtomic q <= MAX_UINT256 /\
  1 <= minimumDestinationAmountAtomic q <= MAX_UINT256 /\
  match bridge q with
  | Some b => 1 <= exitMinimumOutputAtomic b <= entryMinimumOutputAtomic b /\
              entryMinimumOutputAtomic b = minimumDestinationAmountAtomic q /\
              entryMinimumOutputAtomic b <= sourceAmountAtomic q
  | None => True
  end /\
  match costsUsdMantissa q with
  | Some costs => costIssue q = None /\ exitPlatformRouting costs = None /\
                  Forall uint256_value (cost_values costs)
  | None => exists i, costIssue q = Some i
  end.

(** A validity interval the code accepts. *)
Definition interval (from until : Z) : Prop := from < until.

Definition opportunity_wf (o : ParsedOpportunity) : Prop :=
  0 <= grossApyBasisPoints o <= MAX_RATE_BASIS_POINTS /\
  0 <= recurringFeeBasisPoints o <= MAX_RATE_BASIS_POINTS /\
  interval (evidenceObservedAtMs o) (evidenceValidUntilMs o) /\
  match riskAssessment o, riskAssessedAtMs o, riskValidUntilMs o with
  | Some risk, Some from, Some until =>
      interval from until /\ 0 <= penaltyBasisPoints risk <= MAX_RATE_BASIS_POINTS
  | None, None, None => True
  | _, _, _ => False
  end.

(** ** Lemmas *)

Lemma unsignedBigInt_ok v m n : unsignedBigInt v m = Ok n <-> v = VBig n /\ 0 <= n <= m.
Proof.
  unfold unsignedBigInt. split.
  - destruct v; try discriminate. destruct (_ || _) eqn:E; [discriminate|]. intros [= <-].
    apply orb_false_iff in E as [E1%Z.ltb_ge E2%Z.ltb_ge]. done.
  - intros [-> [H1 H2]]. by rewrite (proj2 (Z.ltb_ge _ _) H1), (proj2 (Z.ltb_ge _ _) H2).
Qed.

Lemma positiveBigInt_ok v m n : positiveBigInt v m = Ok n -> 1 <= n <= m.
Proof. unfold positiveBigInt. intros H. inv_ok. apply unsignedBigInt_ok in Hr as [_ Hr]. bsimpl. lia. Qed.

Lemma unique_ok l : unique l = Ok tt <-> NoDup l.
Proof.
  unfold unique. rewrite <- set_size_NoDup. destruct (Nat.eqb_spec (set_size l) (length l)); cbn; split; done.
Qed.

Lemma parsePosition_wf v p : parsePosition v = Ok p ->
  1 <= amountUsdMantissa p <= MAX_UINT256 /\ 1 <= amountAtomic p <= MAX_UINT256.
Proof.
  unfold parsePosition. intros H. inv_ok. subst p. apply positiveBigInt_ok in Hr4, Hr5. done.
Qed.

Lemma parseOpportunity_wf v o : parseOpportunity v = Ok o ->
  0 <= availableCapacityUsdMantissa o <= MAX_UINT256.
Proof.
  unfold parseOpportunity. intros H. inv_ok. subst o. cbn.
  repeat match goal with H : unsignedBigInt _ _ = Ok _ |- _ => apply unsignedBigInt_ok in H as [_ H] end.
  assumption.
Qed.

Lemma fee_request_wf v request : parseRequest v = Ok request -> request_wf request.
Proof.
  unfold parseRequest. intros H. inv_ok. subst request. unfold request_wf.
  cbn [positions opportunities candidates exposurePolicy].
  repeat match goal with H : unique _ = Ok ?u |- _ => destruct u; apply unique_ok in H end.
  repeat (split; [assumption|]).
  split; [eapply mapr_forall; [|eassumption]; intros a b _; apply parsePosition_wf|].
  split; [eapply mapr_forall; [|eassumption]; intros a b _; apply parseOpportunity_wf|].
  match goal with H : parseExposurePolicy _ = Ok _ |- _ => unfold parseExposurePolicy in H; inv_ok end.
  subst. by apply unsignedBigInt_ok in Hr17 as [_ ?], Hr18 as [_ ?].
Qed.

Lemma positions_nonempty input request :
  parseRequest input = Ok request -> length (positions request) <> 0%nat.
Proof.
  unfold parseRequest, exactArray. intros H. inv_ok. subst request. cbn [positions].
  match goal with H : mapr parsePosition _ = Ok ?l |- length ?l <> _ => rewrite (mapr_length _ _ _ H) end.
  match goal with H : data_array 1 64 _ = Some _ |- _ => apply data_array_bounds in H; lia end.
Qed.


Lemma parseRiskAssessment_wf v risk from until :
  parseRiskAssessment v = Ok (Some (risk, from, until)) ->
  interval from until /\ 0 <= penaltyBasisPoints risk <= MAX_RATE_BASIS_POINTS.
Proof.
  unfold parseRiskAssessment, interval. intros H. assert (v <> VNull) as Hv by (by intros ->).
  destruct v; try done; inv_ok; subst; cbn;
    match goal with H : unsignedBigInt _ _ = Ok _ |- _ => apply unsignedBigInt_ok in H as [_ H] end;
    (split; [by apply Z.leb_gt | done]).
Qed.

Lemma parseOpportunity_full v o : parseOpportunity v = Ok o -> opportunity_wf o.
Proof.
  unfold parseOpportunity, opportunity_wf, interval. intros H. inv_ok. subst o. cbn.
  repeat match goal with H : unsignedBigInt _ _ = Ok _ |- _ => apply unsignedBigInt_ok in H as [_ H] end.
  split; [done|]. split; [done|]. split; [by apply Z.leb_gt|].
  match goal with H : parseRiskAssessment _ = Ok ?x |- _ =>
    destruct x as [[[risk from] until]|]; [by apply parseRiskAssessment_wf in H | done] end.
Qed.

Lemma parseCosts_wf v : match parseCosts v with
  | (Some costs, i) => i = None /\ exitPlatformRouting costs = None /\
                       Forall uint256_value (cost_values costs)
  | (None, i) => exists x, i = Some x
  end.
Proof.
  unfold parseCosts. destruct (plain_descriptors v) as [ds|]; [|by eexists].
  destruct (_ || _); [by eexists|]. destruct (read_keys _ _) as [r|]; [|by eexists].
  destruct (mapr _ r) as [vs|] eqn:E; [|by eexists].
  apply (mapr_forall _ uint256_value) in E.
  2:{ intros kv n _ Hn. by apply unsignedBigInt_ok in Hn as [_ ?]. }
  do 13 (destruct vs as [|? vs]; [by eexists|]). destruct vs; [|by eexists].
  split; [done|]. split; [done|]. rewrite !Forall_cons in E. unfold cost_values. cbn.
  rewrite !Forall_cons. tauto.
Qed.

Lemma parseBridge_wf v b : parseBridge v = Ok (Some b) ->
  1 <= entryMinimumOutputAtomic b <= MAX_UINT256 /\ 1 <= exitMinimumOutputAtomic b <= MAX_UINT256.
Proof.
  unfold parseBridge. intros H. assert (v <> VNull) as Hv by (by intros ->).
  destruct v; try done; inv_ok; subst b; cbn;
    repeat match goal with H : positiveBigInt _ _ = Ok _ |- _ => apply positiveBigInt_ok in H end; done.
Qed.

(** ** Properties *)

(** An accepted cost quote is valid for some time, its amounts are positive
    256-bit integers, a bridge never promises more than goes in (in either
    direction) and exactly the destination amount, and its costs are complete,
    each a 256-bit amount, unless a defect is recorded. *)
Theorem accepted_quote_wf value q : parseCostQuote value = Ok q -> quote_wf q.
Proof.
  unfold parseCostQuote. intros H. inv_ok. subst q. unfold quote_wf. cbn.
  apply Z.leb_gt in Hg. apply positiveBigInt_ok in Hr2, Hr3. split; [done|]. split; [done|]. split; [done|].
  split.
  - destruct r4 as [b|]; [|done]. apply parseBridge_wf in Hr4.
    apply orb_false_iff in Hg0 as [[Hg1 Hg2]%orb_false_iff Hg3].
    apply negb_false_iff, Z.eqb_eq in Hg1. apply Z.ltb_ge in Hg2, Hg3. lia.
  - pose proof (parseCosts_wf (r .: "costsUsdMantissa")) as Hc. by destruct (parseCosts _) as [[costs|] i].
Qed.

(** An accepted request names every position, opportunity and candidate
    once, values every position, and bounds every amount, rate, age and
    holding period; every opportunity's evidence and risk approval is valid
    for some time. *)
Theorem accepted_request_bounded value request :
  parseRequest value = Ok request ->
  request_wf request /\ Forall opportunity_wf (opportunities request) /\
  1 <= Z.of_nat (length (positions request)) <= 64 /\
  1 <= Z.of_nat (length (opportunities request)) <= 256 /\
  Z.of_nat (length (candidates request)) <= 1024 /\
  1 <= holdingPeriodDays request <= MAX_HOLDING_PERIOD_DAYS /\
  1 <= maximumQuoteAgeSeconds request <= MAX_FRESHNESS_SECONDS /\
  1 <= maximumOpportunityAgeSeconds request <= MAX_FRESHNESS_SECONDS.
Proof.
  intros H. split; [by eapply fee_request_wf|]. unfold parseRequest, exactArray in H. inv_ok. subst request.
  cbn [positions opportunities candidates holdingPeriodDays maximumQuoteAgeSeconds
       maximumOpportunityAgeSeconds].
  apply positiveBigInt_ok in Hr1, Hr2, Hr3.
  apply data_array_bounds in Hr5, Hr7, Hr9; [|lia..].
  rewrite (mapr_length _ _ _ Hr6), (mapr_length _ _ _ Hr8), (mapr_length _ _ _ Hr10).
  split; [|repeat split; lia]. eapply mapr_forall; [|exact Hr8]. intros a b _. apply parseOpportunity_full.
Qed.

(** ** Witnesses *)

Definition position_js (id amount : string) (usd : Z) : jsval := js_object
  [("positionId", VStr id); ("walletId", VStr "wallet-1"); ("networkId", VStr "eip155:1");
   ("assetId", VStr "usdc"); ("amountAtomic", VBig (BigInt amount)); ("amountUsdMantissa", VBig usd)].

Definition opportunity_js (id network : string) (apy capacity : Z) : jsval := js_object
  [("opportunityId", VStr id); ("providerId", VStr "aave"); ("networkId", VStr network);
   ("assetId", VStr "usdc"); ("availability", VStr "AVAILABLE");
   ("recommendationEligibility", VStr "ELIGIBLE"); ("grossApyBasisPoints", VBig apy);
   ("recurringFeeBasisPoints", VBig 10); ("availableCapacityUsdMantissa", VBig capacity);
   ("evidence", js_object [("evidenceReferenceId", VStr "evidence-1"); ("adapterId", VStr "adapter-1");
      ("observedAt", VStr "2026-07-01T00:00:00.000Z"); ("validUntil", VStr "2026-07-02T00:00:00.000Z")]);
   ("riskAssessment", js_object [("status", VStr "APPROVED_FOR_RECOMMENDATION");
      ("assessmentReferenceId", VStr "risk-1"); ("assessedAt", VStr "2026-07-01T00:00:00.000Z");
      ("validUntil", VStr "2026-07-02T00:00:00.000Z"); ("penaltyBasisPoints", VBig 20)])].

Definition candidate_js (id position opportunity destination : string) (amount : Z) (bridge : jsval) : jsval :=
  js_object
  [("candidateId", VStr id); ("positionId", VStr position); ("opportunityId", VStr opportunity);
   ("costQuote", js_object
     [("quoteReferenceId", VStr "quote-1"); ("routeReferenceId", VStr "route-1");
      ("positionId", VStr position); ("opportunityId", VStr opportunity);
      ("verifiedByAdapterId", VStr "adapter-1"); ("quotedAt", VStr "2026-07-01T00:00:00.000Z");
      ("validUntil", VStr "2026-07-01T00:10:00.000Z"); ("sourceNetworkId", VStr "eip155:1");
      ("destinationNetworkId", VStr destination); ("sourceAssetId", VStr "usdc");
      ("destinationAssetId", VStr "usdc"); ("sourceAmountAtomic", VBig amount);
      ("minimumDestinationAmountAtomic", VBig amount);
      ("costsUsdMantissa", js_object ((fun k => (k, VBig 0)) <$> FEE_AWARE_ALLOCATION_COST_KINDS));
      ("bridge", bridge)])].

Definition bridge_js (amount : Z) : jsval := js_object
  [("entryBridgeProviderId", VStr "cctp"); ("exitBridgeProviderId", VStr "cctp");
   ("entryEstimateReferenceId", VStr "entry-1"); ("exitEstimateReferenceId", VStr "exit-1");
   ("entryMinimumOutputAtomic", VBig amount); ("exitMinimumOutputAtomic", VBig amount)].

(** Two positions of 1,000,000 and 500,000; the same-chain pool takes only the
    first, and the cross-chain pool improves on it for the second. *)
Definition allocation_example : jsval := js_object
  [("usdScale", VNum (JInt 18)); ("evaluatedAt", VStr "2026-07-01T00:05:00.000Z");
   ("holdingPeriodDays", VBig 365); ("maximumQuoteAgeSeconds", VBig 600);
   ("maximumOpportunityAgeSeconds", VBig 3600); ("minimumNetBenefitUsdMantissa", VBig 100);
   ("crossChainPolicy", js_object
     [("optIn", js_object [("scope", VStr "CONSIDER_CROSS_CHAIN_RECOMMENDATIONS");
        ("consentReferenceId", VStr "consent-1"); ("grantedAt", VStr "2026-06-01T00:00:00.000Z");
        ("expiresAt", VStr "2026-08-01T00:00:00.000Z")]);
      ("allowedBridgeProviderIds", js_array [VStr "cctp"]);
      ("maximumLifecycleCostUsdMantissa", VBig 1000); ("minimumNetImprovementUsdMantissa", VBig 10)]);
   ("exposurePolicy", js_object [("maximumCrossChainPrincipalUsdMantissa", VBig 600000);
      ("maximumProviderPrincipalUsdMantissa", VBig 2000000)]);
   ("positions", js_array [position_js "position-1" "1000000" 1000000; position_js "position-2" "500000" 500000]);
   ("opportunities", js_array [opportunity_js "pool-1" "eip155:1" 600 1200000;
      opportunity_js "pool-2" "solana:5eykt4UsFv8P8NJdTREpY1vzqKqZKvdp" 900 5000000]);
   ("candidates", js_array [candidate_js "candidate-1" "position-1" "pool-1" "eip155:1" 1000000 VNull;
      candidate_js "candidate-2" "position-2" "pool-1" "eip155:1" 500000 VNull;
      candidate_js "candidate-3" "position-2" "pool-2" "solana:5eykt4UsFv8P8NJdTREpY1vzqKqZKvdp" 500000
        (bridge_js 500000);
      candidate_js "candidate-4" "position-1" "pool-2" "solana:5eykt4UsFv8P8NJdTREpY1vzqKqZKvdp" 1000000
        (bridge_js 1000000)])].

Definition request_example : ParsedRequest := Eval vm_compute in
  match parseRequest allocation_example with
  | Ok r => r
  | Err _ => Build_ParsedRequest "" 0 0 0 0 0 (Build_FeeAwareCrossChainPolicy None [] 0 0)
               (Build_FeeAwareAllocationExposurePolicy 0 0) [] [] []
  end.

Lemma request_example_ok : parseRequest allocation_example = Ok request_example.
Proof. vm_compute. reflexivity. Qed.

Lemma accepted_request_bounded_witness :
  request_wf request_example /\ Forall opportunity_wf (opportunities request_example).
Proof.
  destruct (accepted_request_bounded allocation_example request_example
              ltac:(vm_compute; reflexivity)) as (H1 & H2 & _). split; [exact H1 | exact H2].
Defined.

Definition quote_js_example : jsval := js_object
  [("quoteReferenceId", VStr "quote-1"); ("routeReferenceId", VStr "route-1");
   ("positionId", VStr "position-1"); ("opportunityId", VStr "pool-2");
   ("verifiedByAdapterId", VStr "adapter-1"); ("quotedAt", VStr "2026-07-01T00:00:00.000Z");
   ("validUntil", VStr "2026-07-01T00:10:00.000Z"); ("sourceNetworkId", VStr "eip155:1");
   ("destinationNetworkId", VStr "solana:5eykt4UsFv8P8NJdTREpY1vzqKqZKvdp"); ("sourceAssetId", VStr "usdc");
   ("destinationAssetId", VStr "usdc"); ("sourceAmountAtomic", VBig 100);
   ("minimumDestinationAmountAtomic", VBig 90); ("costsUsdMantissa", VNull); ("bridge", bridge_js 90)].

Lemma accepted_quote_wf_witness :
  exists q, parseCostQuote quote_js_example = Ok q /\ costIssue q = Some INVALID_COST_QUOTE /\ quote_wf q.
Proof.
  eexists. split; [vm_compute; reflexivity|]. split; [reflexivity|].
  apply (accepted_quote_wf quote_js_example). vm_compute. reflexivity.
Defined.
