(* ===== verification/FeeAwareAllocation.v ===== *)
(** * Fee-aware allocation (apps/api/src/smart-lending/domain/fee-aware-allocation.ts)

    A pure recommendation: which lending opportunity each capital position
    could move to, after every cost, within capacity and exposure limits.  The
    assessments are shared objects that three passes mutate in turn; the model
    keeps them in one store, a list whose indices are the object identities,
    and every pass returns the changed store. *)

From stdpp Require Import base list strings sets sorting.
From Stdlib Require Import ZArith Lia Sorted.
From S2P Require Import Prelude Text JsValue JsDate JsCollections FeeAwareReturn FeeAwareRequest.

Open Scope Z_scope.

(** ** Data *)

(** The reasons, the four of a return calculation among them. *)
Inductive FeeAwareCandidateReason : Type :=
| COST_ISSUE (i : CostIssue)
| COST_QUOTE_FROM_FUTURE | COST_QUOTE_EXPIRED | COST_QUOTE_STALE
| COST_QUOTE_POSITION_MISMATCH | COST_QUOTE_OPPORTUNITY_MISMATCH
| ROUTE_NETWORK_MISMATCH | ROUTE_ASSET_MISMATCH | SOURCE_AMOUNT_MISMATCH
| OPPORTUNITY_UNAVAILABLE | OPPORTUNITY_INELIGIBLE
| OPPORTUNITY_EVIDENCE_FROM_FUTURE | OPPORTUNITY_EVIDENCE_EXPIRED | OPPORTUNITY_EVIDENCE_STALE
| RISK_ASSESSMENT_REQUIRED | RISK_ASSESSMENT_FROM_FUTURE | RISK_ASSESSMENT_EXPIRED
| RISK_ASSESSMENT_STALE
| INSUFFICIENT_OPPORTUNITY_CAPACITY
| CROSS_CHAIN_OPT_IN_REQUIRED | CROSS_CHAIN_OPT_IN_NOT_ACTIVE | CROSS_CHAIN_OPT_IN_EXPIRED
| BRIDGE_ESTIMATE_REQUIRED | BRIDGE_PROVIDER_NOT_ALLOWED
| UNEXPECTED_BRIDGE_ESTIMATE | UNEXPECTED_BRIDGE_COST
| RETURN_REASON (r : ReturnReason)
| CROSS_CHAIN_COST_LIMIT_EXCEEDED
| NO_ELIGIBLE_SAME_CHAIN_BASELINE | CROSS_CHAIN_IMPROVEMENT_BELOW_THRESHOLD
| AGGREGATE_CAPACITY_EXCEEDED | AGGREGATE_CROSS_CHAIN_PRINCIPAL_EXCEEDED
| AGGREGATE_PROVIDER_PRINCIPAL_EXCEEDED.

Record InternalAssessment : Type := {
  candidate : ParsedCandidate;
  position : FeeAwareCapitalPosition;
  opportunity : ParsedOpportunity;
  routeKind : RouteKind;
  reasons : list FeeAwareCandidateReason;
  calculation : option FeeAwareCandidateCalculation;
  selected : bool;
}.

Record FeeAwareCandidateAssessment : Type := {
  assessment_candidateId : string;
  assessment_positionId : string;
  assessment_opportunityId : string;
  assessment_routeKind : RouteKind;
  eligibility : bool;
  assessment_selected : bool;
  assessment_reasons : list FeeAwareCandidateReason;
  assessment_calculation : option FeeAwareCandidateCalculation;
}.

Record FeeAwarePositionDecision : Type := {
  decision_position : FeeAwareCapitalPosition;
  selectedCandidateId : option string;
  selectedOpportunityId : option string;
  selectedProviderId : option string;
  selectedQuoteReferenceId : option string;
  selectedRouteReferenceId : option string;
  selectedOpportunityEvidenceReferenceId : option string;
  selectedRiskAssessmentReferenceId : option string;
  selectedRouteKind : option RouteKind;
  requiresSeparateTransactionApproval : bool;
  decision_assessments : list FeeAwareCandidateAssessment;
}.

Inductive RecommendationStatus : Type :=
| RECOMMENDED | PARTIAL_RECOMMENDATION | NO_ELIGIBLE_ROUTE.

(** A recommendation for a valid request; the constant fields of the code
    ([policyVersion], [usdScale], [use] and the four [may*] refusals) are left
    out, and an [INVALID_INPUT] answer is the error of the result. *)
Record FeeAwareAllocationRecommendation : Type := {
  recommendation_status : RecommendationStatus;
  recommendation_evaluatedAt : string;
  recommendation_holdingPeriodDays : Z;
  totalPrincipalUsdMantissa : Z;
  recommendedPrincipalUsdMantissa : Z;
  projectedNetBenefitUsdMantissa : Z;
  decisions : list FeeAwarePositionDecision;
}.


(** ** Assessing one candidate *)

(** [reasons.push(r)] when [b]. *)
Notation "'push' r 'if' b" := (if b then [r] else []) (at level 11, r at level 9, b at level 10).

Definition network_eqb (a b : MainnetLaunchNetworkId) : bool := bool_decide (a = b).

Definition assessQuoteFreshness (request : ParsedRequest) (quote : ParsedCostQuote)
    : list FeeAwareCandidateReason :=
  push COST_QUOTE_FROM_FUTURE if (evaluatedAtMs request <? quotedAtMs quote)
  ++ push COST_QUOTE_EXPIRED if (validUntilMs quote <=? evaluatedAtMs request)
  ++ push COST_QUOTE_STALE if ((quotedAtMs quote <=? evaluatedAtMs request)
        && (maximumQuoteAgeSeconds request * 1000 <=? evaluatedAtMs request - quotedAtMs quote)).

Definition assessOpportunity (request : ParsedRequest) (o : ParsedOpportunity)
    : list FeeAwareCandidateReason :=
  push OPPORTUNITY_UNAVAILABLE if negb (bool_decide (availability o = AVAILABLE))
  ++ push OPPORTUNITY_INELIGIBLE if negb (bool_decide (recommendationEligibility o = ELIGIBLE))
  ++ push OPPORTUNITY_EVIDENCE_FROM_FUTURE if (evaluatedAtMs request <? evidenceObservedAtMs o)
  ++ push OPPORTUNITY_EVIDENCE_EXPIRED if (evidenceValidUntilMs o <=? evaluatedAtMs request)
  ++ push OPPORTUNITY_EVIDENCE_STALE if ((evidenceObservedAtMs o <=? evaluatedAtMs request)
        && (maximumOpportunityAgeSeconds request * 1000
            <=? evaluatedAtMs request - evidenceObservedAtMs o))
  ++ match riskAssessment o with
     | None => [RISK_ASSESSMENT_REQUIRED]
     | Some _ =>
         push RISK_ASSESSMENT_FROM_FUTURE if
              match riskAssessedAtMs o with
              | Some t => evaluatedAtMs request <? t
              | None => true
              end
         ++ push RISK_ASSESSMENT_EXPIRED if
              match riskValidUntilMs o with
              | Some t => t <=? evaluatedAtMs request
              | None => true
              end
         ++ push RISK_ASSESSMENT_STALE if
              match riskAssessedAtMs o with
              | Some t => (t <=? evaluatedAtMs request)
                          && (maximumOpportunityAgeSeconds request * 1000 <=? evaluatedAtMs request - t)
              | None => false
              end
     end.

Definition allowed_bridge (policy : FeeAwareCrossChainPolicy) (id : string) : bool :=
  existsb (String.eqb id) (allowedBridgeProviderIds policy).

Definition assessRouteKind (request : ParsedRequest) (kind : RouteKind) (quote : ParsedCostQuote)
    : list FeeAwareCandidateReason :=
  match kind with
  | SAME_CHAIN =>
      push UNEXPECTED_BRIDGE_ESTIMATE if match bridge quote with Some _ => true | None => false end
      ++ push UNEXPECTED_BRIDGE_COST if
           match costsUsdMantissa quote with
           | Some costs => negb (entryBridge costs =? 0) || negb (exitBridge costs =? 0)
           | None => false
           end
  | CROSS_CHAIN =>
      match optIn (crossChainPolicy request) with
      | None => [CROSS_CHAIN_OPT_IN_REQUIRED]
      | Some o =>
          push CROSS_CHAIN_OPT_IN_NOT_ACTIVE if (evaluatedAtMs request <? grantedAtMs o)
          ++ push CROSS_CHAIN_OPT_IN_EXPIRED if (expiresAtMs o <=? evaluatedAtMs request)
      end
      ++ match bridge quote with
         | None => [BRIDGE_ESTIMATE_REQUIRED]
         | Some b =>
             push BRIDGE_PROVIDER_NOT_ALLOWED if
               (negb (allowed_bridge (crossChainPolicy request) (entryBridgeProviderId b))
                || negb (allowed_bridge (crossChainPolicy request) (exitBridgeProviderId b)))
         end
  end.

Definition return_input (request : ParsedRequest) (p : FeeAwareCapitalPosition)
    (o : ParsedOpportunity) (costs : FeeAwareAllocationCostsUsdMantissa) : ReturnInput :=
  {| in_principal := amountUsdMantissa p; in_grossApy := grossApyBasisPoints o;
     in_recurringFee := recurringFeeBasisPoints o;
     in_riskPenalty := default 0 (penaltyBasisPoints <$> riskAssessment o);
     in_holdingPeriodDays := holdingPeriodDays request;
     in_minimumNetBenefit := minimumNetBenefitUsdMantissa request; in_costs := costs |}.

(** The calculation and the reasons it pushes. *)
Definition calculateCandidate (request : ParsedRequest) (p : FeeAwareCapitalPosition)
    (o : ParsedOpportunity) (costs : FeeAwareAllocationCostsUsdMantissa)
    : option FeeAwareCandidateCalculation * list FeeAwareCandidateReason :=
  let result := calculateFeeAwareReturn (return_input request p o costs) in
  (result.1, RETURN_REASON <$> result.2).

Definition route_kind_of (p : FeeAwareCapitalPosition) (o : ParsedOpportunity) : RouteKind :=
  if network_eqb (position_networkId p) (opportunity_networkId o) then SAME_CHAIN else CROSS_CHAIN.

(** The five checks that bind a quote to its position and opportunity. *)
Definition binding_reasons (p : FeeAwareCapitalPosition) (o : ParsedOpportunity)
    (quote : ParsedCostQuote) : list FeeAwareCandidateReason :=
  push COST_QUOTE_POSITION_MISMATCH if negb (String.eqb (quote_positionId quote) (positionId p))
  ++ push COST_QUOTE_OPPORTUNITY_MISMATCH if
       negb (String.eqb (quote_opportunityId quote) (opportunityId o))
  ++ push ROUTE_NETWORK_MISMATCH if
       (negb (network_eqb (sourceNetworkId quote) (position_networkId p))
        || negb (network_eqb (destinationNetworkId quote) (opportunity_networkId o)))
  ++ push ROUTE_ASSET_MISMATCH if
       (negb (String.eqb (sourceAssetId quote) (position_assetId p))
        || negb (String.eqb (destinationAssetId quote) (opportunity_assetId o)))
  ++ push SOURCE_AMOUNT_MISMATCH if negb (sourceAmountAtomic quote =? amountAtomic p).

Definition assessCandidate (request : ParsedRequest) (c : ParsedCandidate)
    (p : FeeAwareCapitalPosition) (o : ParsedOpportunity) : InternalAssessment :=
  let kind := route_kind_of p o in
  let assessed rs calc :=
    {| candidate := c; position := p; opportunity := o; routeKind := kind; reasons := rs;
       calculation := calc; selected := false |} in
  match quoteIssue c, costQuote c with
  | None, Some quote =>
      let bindings := binding_reasons p o quote in
      let issue := match costIssue quote, costsUsdMantissa quote with
                   | None, Some _ => []
                   | i, _ => [COST_ISSUE (default INVALID_COST_QUOTE i)]
                   end in
      let calc := match costsUsdMantissa quote, bindings with
                  | Some costs, [] => calculateCandidate request p o costs
                  | _, _ => (None, [])
                  end in
      assessed (issue ++ assessQuoteFreshness request quote ++ bindings
                ++ assessOpportunity request o
                ++ push INSUFFICIENT_OPPORTUNITY_CAPACITY if
                     (availableCapacityUsdMantissa o <? amountUsdMantissa p)
                ++ assessRouteKind request kind quote ++ calc.2) calc.1
  | i, _ => assessed [COST_ISSUE (default INVALID_COST_QUOTE i)] None
  end.

(** ** Comparing and filtering assessments *)

Definition isEligibleInternal (a : InternalAssessment) : bool :=
  match reasons a, calculation a with
  | [], Some _ => true
  | _, _ => false
  end.

Definition ranked (a : InternalAssessment) : RankedCandidate :=
  {| ranked_id := candidateId (candidate a); ranked_routeKind := routeKind a;
     ranked_calculation := calculation a |}.

Definition compareAssessments (left right : InternalAssessment) : Z :=
  compareFeeAwareReturns (ranked left) (ranked right).

Definition net_benefit (a : option InternalAssessment) : option Z :=
  a ← a; c ← calculation a; Some (netBenefit c).

Definition compareOptionalNetBenefit (left right : option InternalAssessment) : Z :=
  match net_benefit left, net_benefit right with
  | None, None => 0
  | None, Some _ => 1
  | Some _, None => -1
  | Some l, Some r => if l =? r then 0 else if r <? l then -1 else 1
  end.

Definition compareText (left right : string) : Z :=
  if String.eqb left right then 0 else if str_lt left right then -1 else 1.

(** ** The store of assessments and its passes *)

Notation store := (list InternalAssessment).

Definition push_reason (r : FeeAwareCandidateReason) (a : InternalAssessment) : InternalAssessment :=
  {| candidate := candidate a; position := position a; opportunity := opportunity a;
     routeKind := routeKind a; reasons := reasons a ++ [r]; calculation := calculation a;
     selected := selected a |}.

Definition mark_selected (a : InternalAssessment) : InternalAssessment :=
  {| candidate := candidate a; position := position a; opportunity := opportunity a;
     routeKind := routeKind a; reasons := reasons a; calculation := calculation a;
     selected := true |}.

Definition of_position (id : string) (a : InternalAssessment) : bool :=
  String.eqb (positionId (position a)) id.

(** The best eligible same-chain net benefit of a position. *)
Definition baseline (id : string) (s : store) : option Z :=
  net_benefit (head (js_sort compareAssessments
    (List.filter (fun a => of_position id a && route_kind_eqb (routeKind a) SAME_CHAIN
                           && isEligibleInternal a) s))).

Definition with_improvement (i : Z) (c : FeeAwareCandidateCalculation)
    : FeeAwareCandidateCalculation :=
  {| grossApy := grossApy c; recurringFee := recurringFee c; riskPenalty := riskPenalty c;
     conservativeApy := conservativeApy c; principal := principal c;
     deployedPrincipal := deployedPrincipal c; entryCost := entryCost c;
     anticipatedExitCost := anticipatedExitCost c; totalLifecycleCost := totalLifecycleCost c;
     calculationCosts := calculationCosts c; projectedGrossYield := projectedGrossYield c;
     projectedConservativeYield := projectedConservativeYield c; netBenefit := netBenefit c;
     breakEvenDays := breakEvenDays c; improvementOverSameChain := Some i |}.

(** The body of the inner loop for one position. *)
Definition compare_with_baseline (policy : FeeAwareCrossChainPolicy) (id : string) (b : option Z)
    (a : InternalAssessment) : InternalAssessment :=
  if negb (of_position id a) || negb (route_kind_eqb (routeKind a) CROSS_CHAIN) then a
  else
    match calculation a, b with
    | None, _ => a
    | Some _, None => push_reason NO_ELIGIBLE_SAME_CHAIN_BASELINE a
    | Some c, Some b =>
        let improvement := netBenefit c - b in
        {| candidate := candidate a; position := position a; opportunity := opportunity a;
           routeKind := routeKind a;
           reasons := reasons a
             ++ push CROSS_CHAIN_COST_LIMIT_EXCEEDED if
                  (maximumLifecycleCostUsdMantissa policy <? totalLifecycleCost c)
             ++ push CROSS_CHAIN_IMPROVEMENT_BELOW_THRESHOLD if
                  (improvement <? minimumNetImprovementUsdMantissa policy);
           calculation := Some (with_improvement improvement c); selected := selected a |}
    end.

Definition applyCrossChainComparisonPolicy (request : ParsedRequest) (s : store) : store :=
  foldl (fun s p => compare_with_baseline (crossChainPolicy request) (positionId p)
                      (baseline (positionId p) s) <$> s) s (positions request).

(** What is left of the capacities and the exposure limits. *)
Record limits : Type := {
  remainingCapacity : list (string * Z);
  remainingProviderPrincipal : list (string * Z);
  remainingCrossChainPrincipal : Z;
}.

(** The guards of one iteration of the selection, then its updates. *)
Definition take_capacity (policy : FeeAwareAllocationExposurePolicy) (a : InternalAssessment)
    (l : limits) : result FeeAwareCandidateReason limits :=
  let amount := amountUsdMantissa (position a) in
  let o := opportunityId (opportunity a) in
  let capacity := default 0 (mget o (remainingCapacity l)) in
  let p := providerId (opportunity a) in
  let providerCapacity := default (maximumProviderPrincipalUsdMantissa policy)
                            (mget p (remainingProviderPrincipal l)) in
  let cross := route_kind_eqb (routeKind a) CROSS_CHAIN in
  reject AGGREGATE_CAPACITY_EXCEEDED when capacity <? amount in
  reject AGGREGATE_CROSS_CHAIN_PRINCIPAL_EXCEEDED when
    cross && (remainingCrossChainPrincipal l <? amount) in
  reject AGGREGATE_PROVIDER_PRINCIPAL_EXCEEDED when providerCapacity <? amount in
  Ok {| remainingCapacity := mset o (capacity - amount) (remainingCapacity l);
        remainingProviderPrincipal := mset p (providerCapacity - amount) (remainingProviderPrincipal l);
        remainingCrossChainPrincipal :=
          if cross then remainingCrossChainPrincipal l - amount else remainingCrossChainPrincipal l |}.

(** The loop over one position's eligible candidates, best first, until one fits. *)
Fixpoint select_group (policy : FeeAwareAllocationExposurePolicy) (ids : list nat)
    (s : store) (l : limits) : store * limits :=
  match ids with
  | [] => (s, l)
  | i :: ids =>
      match s !! i with
      | None => select_group policy ids s l
      | Some a =>
          match take_capacity policy a l with
          | Err r => select_group policy ids (<[i := push_reason r a]> s) l
          | Ok l => (<[i := mark_selected a]> s, l)
          end
      end
  end.

(** The objects behind a list of identities. *)
Definition entries (s : store) (ids : list nat) : list (nat * InternalAssessment) :=
  omap (fun i => a ← s !! i; Some (i, a)) ids.

(** The comparator, on objects with their identities. *)
Definition by_preference (x y : nat * InternalAssessment) : Z := compareAssessments x.2 y.2.

Definition eligible_sorted (s : store) (ids : list nat) : list (nat * InternalAssessment) :=
  js_sort by_preference (List.filter (fun x => isEligibleInternal x.2) (entries s ids)).

Definition group_best (s : store) (ids : list nat) : option InternalAssessment :=
  snd <$> head (eligible_sorted s ids).

(** The position of the first assessment of a group, or the empty text. *)
Definition group_position (s : store) (ids : list nat) : string :=
  default "" (i ← head ids; a ← s !! i; Some (positionId (position a))).

Definition compare_groups (s : store) (left right : list nat) : Z :=
  let c := compareOptionalNetBenefit (group_best s left) (group_best s right) in
  if negb (c =? 0) then c else compareText (group_position s left) (group_position s right).

(** The map from position to the identities of its assessments. *)
Definition position_groups (s : store) : list (string * list nat) :=
  foldl (fun groups ia => let id := positionId (position ia.2) in
           mset id (default [] (mget id groups) ++ [ia.1]) groups)
        [] (imap pair s).

Definition initial_limits (os : list ParsedOpportunity) (policy : FeeAwareAllocationExposurePolicy)
    : limits :=
  {| remainingCapacity :=
       mofl ((fun o => (opportunityId o, availableCapacityUsdMantissa o)) <$> os);
     remainingProviderPrincipal := [];
     remainingCrossChainPrincipal := maximumCrossChainPrincipalUsdMantissa policy |}.

Definition selectCandidatesWithinLimits (s : store) (os : list ParsedOpportunity)
    (policy : FeeAwareAllocationExposurePolicy) : store :=
  (foldl (fun sl group => select_group policy ((eligible_sorted sl.1 group).*1) sl.1 sl.2)
         (s, initial_limits os policy)
         (js_sort (compare_groups s) ((position_groups s).*2))).1.

(** ** The answer *)

Definition publicAssessment (a : InternalAssessment) : FeeAwareCandidateAssessment :=
  {| assessment_candidateId := candidateId (candidate a);
     assessment_positionId := positionId (position a);
     assessment_opportunityId := opportunityId (opportunity a);
     assessment_routeKind := routeKind a;
     eligibility := match reasons a with [] => true | _ => false end;
     assessment_selected := selected a; assessment_reasons := reasons a;
     assessment_calculation := calculation a |}.

Definition matching (s : store) (p : FeeAwareCapitalPosition) : list InternalAssessment :=
  js_sort (fun l r => compareText (candidateId (candidate l)) (candidateId (candidate r)))
    (List.filter (of_position (positionId p)) s).

Definition selected_of (s : store) (p : FeeAwareCapitalPosition) : option InternalAssessment :=
  List.find selected (matching s p).

Definition positionDecision (s : store) (p : FeeAwareCapitalPosition) : FeeAwarePositionDecision :=
  let a := selected_of s p in
  {| decision_position := p;
     selectedCandidateId := (fun a => candidateId (candidate a)) <$> a;
     selectedOpportunityId := (fun a => opportunityId (opportunity a)) <$> a;
     selectedProviderId := (fun a => providerId (opportunity a)) <$> a;
     selectedQuoteReferenceId := a ← a; q ← costQuote (candidate a); Some (quoteReferenceId q);
     selectedRouteReferenceId := a ← a; q ← costQuote (candidate a); Some (routeReferenceId q);
     selectedOpportunityEvidenceReferenceId :=
       (fun a => evidenceReferenceId (evidence (opportunity a))) <$> a;
     selectedRiskAssessmentReferenceId :=
       a ← a; r ← riskAssessment (opportunity a); Some (assessmentReferenceId r);
     selectedRouteKind := routeKind <$> a;
     requiresSeparateTransactionApproval := bool_decide (is_Some a);
     decision_assessments := publicAssessment <$> matching s p |}.

(** The sum, or [None] as soon as it exceeds 256 bits. *)
Fixpoint bounded_sum_from (total : Z) (values : list Z) : option Z :=
  match values with
  | [] => Some total
  | v :: values => if MAX_UINT256 <? total + v then None else bounded_sum_from (total + v) values
  end.

Definition boundedSum (values : list Z) : option Z := bounded_sum_from 0 values.

(** The loop that pairs each candidate with its position and opportunity. *)
Definition assess_all (request : ParsedRequest) : allocation_result store :=
  let positionById := mofl ((fun p => (positionId p, p)) <$> positions request) in
  let opportunityById := mofl ((fun o => (opportunityId o, o)) <$> opportunities request) in
  mapr (fun c =>
    match mget (candidate_positionId c) positionById,
          mget (candidate_opportunityId c) opportunityById with
    | Some p, Some o => Ok (assessCandidate request c p o)
    | _, _ => Err INVALID_INPUT
    end) (candidates request).

(** The three passes, in order. *)
Definition allocate (request : ParsedRequest) : allocation_result store :=
  let* assessed := assess_all request in
  let compared := applyCrossChainComparisonPolicy request assessed in
  Ok (selectCandidatesWithinLimits compared (opportunities request) (exposurePolicy request)).

Definition recommend_request (request : ParsedRequest)
    : allocation_result FeeAwareAllocationRecommendation :=
  let* s := allocate request in
  let decisions := js_sort (fun l r => compareText (positionId (decision_position l))
                                         (positionId (decision_position r)))
                     (positionDecision s <$> positions request) in
  let chosen := List.filter selected s in
  let net := foldl (fun total a => total + default 0 (net_benefit (Some a))) 0 chosen in
  match boundedSum (amountUsdMantissa <$> positions request),
        boundedSum ((fun a => amountUsdMantissa (position a)) <$> chosen) with
  | Some total, Some recommended =>
      reject INVALID_INPUT when MAX_UINT256 <? net in
      Ok {| recommendation_status :=
              if (length chosen =? length (positions request))%nat then RECOMMENDED
              else if (length chosen =? 0)%nat then NO_ELIGIBLE_ROUTE
              else PARTIAL_RECOMMENDATION;
            recommendation_evaluatedAt := evaluatedAt request;
            recommendation_holdingPeriodDays := holdingPeriodDays request;
            totalPrincipalUsdMantissa := total; recommendedPrincipalUsdMantissa := recommended;
            projectedNetBenefitUsdMantissa := net; decisions := decisions |}
  | _, _ => Err INVALID_INPUT
  end.

Definition recommendFeeAwareAllocation (input : jsval)
    : allocation_result FeeAwareAllocationRecommendation :=
  let* request := parseRequest input in
  recommend_request request.

(** ** Specification: acceptable candidates *)

(** Observed in the past, not yet expired and younger than the limit. *)
Definition fresh (now observed until maximumAgeSeconds : Z) : Prop :=
  observed <= now < until /\ now - observed < maximumAgeSeconds * 1000.

Definition bound_to (q : ParsedCostQuote) (p : FeeAwareCapitalPosition) (o : ParsedOpportunity) : Prop :=
  quote_positionId q = positionId p /\ quote_opportunityId q = opportunityId o /\
  sourceNetworkId q = position_networkId p /\ destinationNetworkId q = opportunity_networkId o /\
  sourceAssetId q = position_assetId p /\ destinationAssetId q = opportunity_assetId o /\
  sourceAmountAtomic q = amountAtomic p.

Definition opportunity_acceptable (request : ParsedRequest) (o : ParsedOpportunity) : Prop :=
  availability o = AVAILABLE /\ recommendationEligibility o = ELIGIBLE /\
  fresh (evaluatedAtMs request) (evidenceObservedAtMs o) (evidenceValidUntilMs o)
        (maximumOpportunityAgeSeconds request) /\
  exists risk from until, riskAssessment o = Some risk /\ riskAssessedAtMs o = Some from /\
    riskValidUntilMs o = Some until /\
    fresh (evaluatedAtMs request) from until (maximumOpportunityAgeSeconds request).

(** Same-chain routes use no bridge; cross-chain routes need an active consent
    and two allowed bridges. *)
Definition route_acceptable (request : ParsedRequest) (kind : RouteKind) (q : ParsedCostQuote)
    (costs : FeeAwareAllocationCostsUsdMantissa) : Prop :=
  match kind with
  | SAME_CHAIN => bridge q = None /\ entryBridge costs = 0 /\ exitBridge costs = 0
  | CROSS_CHAIN =>
      (exists c, optIn (crossChainPolicy request) = Some c /\
         grantedAtMs c <= evaluatedAtMs request < expiresAtMs c) /\
      exists b, bridge q = Some b /\
        entryBridgeProviderId b ∈ allowedBridgeProviderIds (crossChainPolicy request) /\
        exitBridgeProviderId b ∈ allowedBridgeProviderIds (crossChainPolicy request)
  end.

Definition candidate_acceptable (request : ParsedRequest) (c : ParsedCandidate)
    (p : FeeAwareCapitalPosition) (o : ParsedOpportunity) : Prop :=
  exists q costs calc,
    quoteIssue c = None /\ costQuote c = Some q /\
    costIssue q = None /\ costsUsdMantissa q = Some costs /\
    fresh (evaluatedAtMs request) (quotedAtMs q) (validUntilMs q) (maximumQuoteAgeSeconds request) /\
    bound_to q p o /\ opportunity_acceptable request o /\
    amountUsdMantissa p <= availableCapacityUsdMantissa o /\
    route_acceptable request (route_kind_of p o) q costs /\
    calculateFeeAwareReturn (return_input request p o costs) = (Some calc, []).

(** ** Specification: selections *)

(** Nothing but the reasons and the mark of an assessment changed. *)
Definition same_case (a b : InternalAssessment) : Prop :=
  candidate a = candidate b /\ position a = position b /\ opportunity a = opportunity b /\
  routeKind a = routeKind b /\ calculation a = calculation b.

Definition same_cases (s s' : store) : Prop :=
  forall i, match s !! i, s' !! i with
            | Some a, Some b => same_case a b
            | None, None => True
            | _, _ => False
            end.

Definition at_position (s : store) (i : nat) (k : string) : Prop :=
  exists a, s !! i = Some a /\ positionId (position a) = k.

Definition peers (a b : InternalAssessment) : Prop :=
  positionId (position a) = positionId (position b).

(** A selection: of eligible candidates only, at most one per position, the
    most preferred of those still eligible, and none only where no candidate is. *)
Definition selection_ok (s : store) : Prop :=
  (forall i a, s !! i = Some a -> selected a = true -> isEligibleInternal a = true) /\
  (forall i j a b, s !! i = Some a -> s !! j = Some b -> selected a = true -> selected b = true ->
     peers a b -> i = j) /\
  (forall i j a b, s !! i = Some a -> s !! j = Some b -> selected a = true ->
     isEligibleInternal b = true -> peers a b -> compareAssessments a b <= 0) /\
  (forall j b, s !! j = Some b -> isEligibleInternal b = true ->
     exists i a, s !! i = Some a /\ selected a = true /\ peers a b).

(** The principal of the selected assessments with a property. *)
Definition principal_where (P : InternalAssessment -> bool) (s : store) : Z :=
  foldr (fun a total => (if selected a && P a then amountUsdMantissa (position a) else 0) + total) 0 s.

Definition in_opportunity (o : string) (a : InternalAssessment) : bool :=
  String.eqb (opportunityId (opportunity a)) o.

Definition of_provider (p : string) (a : InternalAssessment) : bool :=
  String.eqb (providerId (opportunity a)) p.

Definition is_cross_chain (a : InternalAssessment) : bool := route_kind_eqb (routeKind a) CROSS_CHAIN.

(** What is left of a limit. *)
Definition capacity_left (o : string) (l : limits) : Z := default 0 (mget o (remainingCapacity l)).

Definition provider_left (policy : FeeAwareAllocationExposurePolicy) (p : string) (l : limits) : Z :=
  default (maximumProviderPrincipalUsdMantissa policy) (mget p (remainingProviderPrincipal l)).

(** Spent plus left is the limit, and nothing left is negative. *)
Definition limits_hold (policy : FeeAwareAllocationExposurePolicy) (l0 : limits) (s : store)
    (l : limits) : Prop :=
  (forall o, principal_where (in_opportunity o) s + capacity_left o l = capacity_left o l0 /\
             0 <= capacity_left o l) /\
  (forall p, principal_where (of_provider p) s + provider_left policy p l
             = maximumProviderPrincipalUsdMantissa policy /\ 0 <= provider_left policy p l) /\
  principal_where is_cross_chain s + remainingCrossChainPrincipal l
  = maximumCrossChainPrincipalUsdMantissa policy /\ 0 <= remainingCrossChainPrincipal l.

(** The state between two groups, with the identities still to be visited. *)
Definition selecting (s0 : store) (rest : list nat) (s : store) : Prop :=
  same_cases s0 s /\ (forall i, i ∈ rest -> s !! i = s0 !! i) /\
  (forall i a, s !! i = Some a -> selected a = true -> isEligibleInternal a = true) /\
  (forall i j a b, s !! i = Some a -> s !! j = Some b -> selected a = true -> selected b = true ->
     peers a b -> i = j) /\
  (forall i j a b, s !! i = Some a -> s !! j = Some b -> selected a = true ->
     isEligibleInternal b = true -> peers a b -> compareAssessments a b <= 0) /\
  (forall j b, j ∉ rest -> s !! j = Some b -> isEligibleInternal b = true ->
     exists i a, s !! i = Some a /\ selected a = true /\ peers a b).

(** The groups partition the store by position. *)
Definition partitions (s : store) (gs : list (list nat)) : Prop :=
  NoDup (concat gs) /\ (forall g, g ∈ gs -> exists k, forall i, i ∈ g <-> at_position s i k) /\
  (forall i a, s !! i = Some a -> i ∈ concat gs).

(** An assessment of one of the request's candidates, for its own position and
    opportunity. *)
Definition assessed_for (request : ParsedRequest) (a : InternalAssessment) : Prop :=
  candidate a ∈ candidates request /\ position a ∈ positions request /\
  opportunity a ∈ opportunities request /\
  candidate_positionId (candidate a) = positionId (position a) /\
  candidate_opportunityId (candidate a) = opportunityId (opportunity a).

(** The principal of the decisions whose selection has a property. *)
Definition decided_principal (P : FeeAwarePositionDecision -> bool)
    (ds : list FeeAwarePositionDecision) : Z :=
  foldr (fun d total => (if P d then amountUsdMantissa (decision_position d) else 0) + total) 0 ds.

Definition decided_for (o : option string) (id : string) : bool := bool_decide (o = Some id).

(** ** Lemmas: assessments *)

Lemma push_nil (r : FeeAwareCandidateReason) (b : bool) : (push r if b) = [] <-> b = false.
Proof. by destruct b. Qed.

Lemma network_eqb_eq a b : network_eqb a b = true <-> a = b.
Proof. unfold network_eqb. by rewrite bool_decide_eq_true. Qed.

Lemma fresh_reasons (now observed until age : Z) (r1 r2 r3 : FeeAwareCandidateReason) :
  (push r1 if (now <? observed)) ++ (push r2 if (until <=? now))
  ++ (push r3 if ((observed <=? now) && (age * 1000 <=? now - observed))) = [] <->
  fresh now observed until age.
Proof.
  unfold fresh. rewrite !app_nil, !push_nil, Z.ltb_ge, Z.leb_gt, andb_false_iff, !Z.leb_gt. lia.
Qed.

Lemma assessOpportunity_nil request o :
  assessOpportunity request o = [] <-> opportunity_acceptable request o.
Proof.
  unfold assessOpportunity, opportunity_acceptable, fresh.
  rewrite !app_nil, !push_nil, !negb_false_iff, !bool_decide_eq_true, Z.ltb_ge, Z.leb_gt,
    andb_false_iff, !Z.leb_gt.
  destruct (riskAssessment o) as [risk|].
  2:{ split; [intros (_ & _ & _ & _ & _ & H); discriminate|]. by intros (_ & _ & _ & ? & ? & ? & [=] & _). }
  rewrite !app_nil, !push_nil.
  destruct (riskAssessedAtMs o) as [from|]; [|split; [intros H; by destruct H as (_ & _ & _ & _ & _ & H & _)
    | by intros (_ & _ & _ & ? & ? & ? & _ & [=] & _)]].
  destruct (riskValidUntilMs o) as [until|]; [|split; [intros H; by destruct H as (_ & _ & _ & _ & _ & _ & H & _)
    | by intros (_ & _ & _ & ? & ? & ? & _ & _ & [=] & _)]].
  rewrite Z.ltb_ge, Z.leb_gt, andb_false_iff, !Z.leb_gt. split.
  - intros (H1 & H2 & H3 & H4 & H5 & H6 & H7 & H8). split; [done|]. split; [done|].
    split; [lia|]. exists risk, from, until. repeat (split; [done|]). lia.
  - intros (H1 & H2 & H3 & r & f & u & [= <-] & [= <-] & [= <-] & H4). repeat (split; [done || lia|]). lia.
Qed.

Lemma allowed_bridge_elem policy id :
  allowed_bridge policy id = true <-> id ∈ allowedBridgeProviderIds policy.
Proof.
  unfold allowed_bridge. rewrite existsb_exists. split.
  - intros (x & H & E). apply String.eqb_eq in E. subst. by apply list_elem_of_In.
  - intros H. exists id. split; [by apply list_elem_of_In | by apply String.eqb_eq].
Qed.

Lemma assessRouteKind_nil request kind q costs :
  costsUsdMantissa q = Some costs ->
  assessRouteKind request kind q = [] <-> route_acceptable request kind q costs.
Proof.
  intros Hc. unfold assessRouteKind, route_acceptable. rewrite Hc. destruct kind.
  - rewrite app_nil, !push_nil, orb_false_iff, !negb_false_iff, !Z.eqb_eq.
    destruct (bridge q); [split; [by intros [? _] | by intros [? _]] | tauto].
  - rewrite app_nil. f_equiv.
    + destruct (optIn _) as [c|]; [|split; [done | by intros (? & ? & _)]].
      rewrite app_nil, !push_nil, Z.ltb_ge, Z.leb_gt. split; [intros; by exists c|].
      by intros (x & [= <-] & H).
    + destruct (bridge q) as [b|]; [|split; [done | by intros (? & ? & _)]].
      rewrite push_nil, orb_false_iff, !negb_false_iff, !allowed_bridge_elem.
      split; [intros; by exists b|]. by intros (x & [= <-] & H).
Qed.

Lemma binding_nil p o q : binding_reasons p o q = [] <-> bound_to q p o.
Proof.
  unfold binding_reasons, bound_to.
  rewrite !app_nil, !push_nil, !orb_false_iff, !negb_false_iff, !String.eqb_eq, !network_eqb_eq, Z.eqb_eq.
  tauto.
Qed.

Lemma eligible_iff a :
  isEligibleInternal a = true <-> reasons a = [] /\ exists c, calculation a = Some c.
Proof.
  unfold isEligibleInternal. destruct (reasons a), (calculation a) as [c|]; split; try done.
  - intros _. split; [done | by exists c].
  - by intros (_ & ? & ?).
  - by intros [? _].
  - by intros [? _].
Qed.

Lemma assess_fixed request c p o :
  let a := assessCandidate request c p o in
  candidate a = c /\ position a = p /\ opportunity a = o /\ routeKind a = route_kind_of p o /\
  selected a = false.
Proof. unfold assessCandidate. by destruct (quoteIssue c), (costQuote c). Qed.

Lemma assess_eligible request c p o :
  isEligibleInternal (assessCandidate request c p o) = true <-> candidate_acceptable request c p o.
Proof.
  rewrite eligible_iff. unfold assessCandidate, candidate_acceptable.
  destruct (quoteIssue c) as [i|]; [split; [by intros [? _] | by intros (? & ? & ? & ? & _)]|].
  destruct (costQuote c) as [q|]; [|split; [by intros [? _] | by intros (? & ? & ? & _ & ? & _)]].
  cbn [reasons calculation].
  destruct (costsUsdMantissa q) as [costs|] eqn:Ec.
  2:{ split; [|by intros (x & ? & ? & _ & [= <-] & _ & E & _); rewrite E in Ec].
      by intros (_ & ? & ?). }
  destruct (costIssue q) as [i|] eqn:Ei.
  { split; [by intros [? _]|]. intros (x & ? & ? & _ & [= <-] & E & _). congruence. }
  rewrite app_nil_l, !app_nil, push_nil, Z.ltb_ge. unfold assessQuoteFreshness.
  rewrite fresh_reasons, binding_nil, assessOpportunity_nil, (assessRouteKind_nil _ _ _ costs) by done.
  unfold calculateCandidate. split.
  - intros [(H1 & H2 & H3 & H4 & H5 & H6) (calc & H7)]. pose proof H2 as H2'. apply binding_nil in H2'.
    rewrite H2' in H6, H7. cbn [fst snd] in H6, H7. apply fmap_nil_inv in H6.
    exists q, costs, calc. rewrite Ec, Ei. repeat (split; [done|]).
    destruct (calculateFeeAwareReturn _); cbn in *; congruence.
  - intros (q' & costs' & calc & _ & [= <-] & _ & E & H1 & H2 & H3 & H4 & H5 & H6).
    rewrite Ec in E. injection E as <-. pose proof H2 as H2'. apply binding_nil in H2'.
    rewrite H2'. cbn [fst snd]. rewrite H6. cbn. split; [done|]. by exists calc.
Qed.

(** ** Lemmas: the cross-chain comparison *)

Lemma compare_with_baseline_fixed policy id b a :
  let a' := compare_with_baseline policy id b a in
  candidate a' = candidate a /\ position a' = position a /\ opportunity a' = opportunity a /\
  routeKind a' = routeKind a /\ selected a' = selected a.
Proof.
  unfold compare_with_baseline. destruct (_ || _); [done|].
  destruct (calculation a); [|done]. by destruct b.
Qed.

Lemma compare_with_baseline_same policy id b a :
  routeKind a = SAME_CHAIN -> compare_with_baseline policy id b a = a.
Proof. intros H. unfold compare_with_baseline. rewrite H, orb_true_r. done. Qed.

Lemma compare_with_baseline_other policy id b a :
  positionId (position a) <> id -> compare_with_baseline policy id b a = a.
Proof. intros H. unfold compare_with_baseline, of_position. by rewrite (proj2 (String.eqb_neq _ _) H). Qed.

(** A pass that leaves the same-chain assessments alone keeps the baselines. *)
Lemma baseline_stable f s id :
  (forall a, position (f a) = position a /\ routeKind (f a) = routeKind a) ->
  (forall a, routeKind a = SAME_CHAIN -> f a = a) ->
  baseline id (f <$> s) = baseline id s.
Proof.
  intros Hf Hs. unfold baseline. do 3 f_equal. induction s as [|a s IH]; [done|].
  rewrite fmap_cons. cbn [List.filter]. rewrite IH. unfold of_position.
  destruct (Hf a) as [-> ->]. destruct (routeKind a) eqn:E; cbn [route_kind_eqb].
  - by rewrite (Hs a E).
  - by rewrite andb_false_r.
Qed.

(** The whole pass as one simultaneous change. *)
Definition compared (policy : FeeAwareCrossChainPolicy) (ids : list string) (s : store)
    (a : InternalAssessment) : InternalAssessment :=
  let id := positionId (position a) in
  if bool_decide (id ∈ ids) then compare_with_baseline policy id (baseline id s) a else a.

Lemma compared_fixed policy ids s a :
  let a' := compared policy ids s a in
  candidate a' = candidate a /\ position a' = position a /\ opportunity a' = opportunity a /\
  routeKind a' = routeKind a /\ selected a' = selected a.
Proof. unfold compared. case_bool_decide; [apply compare_with_baseline_fixed | done]. Qed.

Lemma compared_snoc policy ids id s a :
  id ∉ ids ->
  compare_with_baseline policy id (baseline id s) (compared policy ids s a)
  = compared policy (ids ++ [id]) s a.
Proof.
  intros Hid. unfold compared. destruct (decide (positionId (position a) = id)) as [<-|Hne].
  - rewrite bool_decide_eq_false_2 by done. rewrite bool_decide_eq_true_2; [done|].
    apply elem_of_app. right. by left.
  - rewrite (bool_decide_ext (_ ∈ ids ++ [id]) (positionId (position a) ∈ ids)) by set_solver.
    apply compare_with_baseline_other. case_bool_decide; [|done].
    by destruct (compare_with_baseline_fixed policy (positionId (position a))
                   (baseline (positionId (position a)) s) a) as (_ & -> & _).
Qed.

Lemma apply_comparison policy ps s :
  NoDup (positionId <$> ps) ->
  foldl (fun s p => compare_with_baseline policy (positionId p) (baseline (positionId p) s) <$> s) s ps
  = compared policy (positionId <$> ps) s <$> s.
Proof.
  induction ps as [|p ps IH] using rev_ind; intros Hnd.
  - cbn. rewrite <- (list_fmap_id s) at 1. apply list_fmap_ext. intros i a _. unfold compared.
    by rewrite bool_decide_eq_false_2 by set_solver.
  - rewrite fmap_app in Hnd. apply NoDup_app in Hnd as (Hnd & Hdis & _).
    rewrite foldl_app, IH by done. cbn [foldl].
    rewrite baseline_stable.
    + rewrite <- list_fmap_compose. apply list_fmap_ext. intros i a _. cbn [compose].
      rewrite fmap_app. apply compared_snoc. intros Hin. apply (Hdis _ Hin). by left.
    + intros a. by destruct (compared_fixed policy (positionId <$> ps) s a) as (_ & -> & _ & -> & _).
    + intros a Ha. unfold compared. case_bool_decide; [by apply compare_with_baseline_same | done].
Qed.

(** ** Lemmas: capacities *)

Lemma principal_cons P a s :
  principal_where P (a :: s)
  = (if selected a && P a then amountUsdMantissa (position a) else 0) + principal_where P s.
Proof. done. Qed.

Lemma principal_insert P s i a b :
  s !! i = Some a ->
  principal_where P (<[i := b]> s)
  = principal_where P s
    - (if selected a && P a then amountUsdMantissa (position a) else 0)
    + (if selected b && P b then amountUsdMantissa (position b) else 0).
Proof.
  revert i. induction s as [|x s IH]; intros [|i] H; try discriminate.
  - injection H as ->. change (<[0%nat:=b]> (a :: s)) with (b :: s). rewrite !principal_cons. lia.
  - change (<[S i:=b]> (x :: s)) with (x :: <[i:=b]> s). rewrite !principal_cons, (IH i H). lia.
Qed.

(** A rejection spends nothing. *)
Lemma principal_push P s i a r :
  (forall r a, P (push_reason r a) = P a) -> s !! i = Some a ->
  principal_where P (<[i := push_reason r a]> s) = principal_where P s.
Proof. intros HP H. rewrite (principal_insert P s i a) by done. rewrite HP. cbn. lia. Qed.

(** A selection spends its principal. *)
Lemma principal_mark P s i a :
  (forall a, P (mark_selected a) = P a) -> s !! i = Some a -> selected a = false ->
  principal_where P (<[i := mark_selected a]> s)
  = principal_where P s + (if P a then amountUsdMantissa (position a) else 0).
Proof. intros HP H Hs. rewrite (principal_insert P s i a) by done. rewrite HP, Hs. cbn. lia. Qed.

Lemma limits_push policy l0 s l i a r :
  s !! i = Some a -> limits_hold policy l0 s l -> limits_hold policy l0 (<[i := push_reason r a]> s) l.
Proof.
  intros H (H1 & H2 & H3 & H4). split; [|split; [|split]]; intros; rewrite ?principal_push by done; auto.
Qed.

Lemma take_capacity_limits policy l0 s l l' i a :
  s !! i = Some a -> selected a = false -> take_capacity policy a l = Ok l' ->
  limits_hold policy l0 s l -> limits_hold policy l0 (<[i := mark_selected a]> s) l'.
Proof.
  intros Hi Hs Ht (H1 & H2 & H3 & H4). unfold take_capacity in Ht. inv_ok. subst l'.
  apply Z.ltb_ge in Hg, Hg1. unfold limits_hold, capacity_left, provider_left in *. cbn.
  split; [|split].
  - intros o. rewrite principal_mark by done. rewrite mget_mset. specialize (H1 o).
    destruct (in_opportunity o a) eqn:E; [apply String.eqb_eq in E as <- | apply String.eqb_neq in E].
    + rewrite decide_True by done. cbn in *. lia.
    + rewrite decide_False by congruence. lia.
  - intros p. rewrite principal_mark by done. rewrite mget_mset. specialize (H2 p).
    destruct (of_provider p a) eqn:E; [apply String.eqb_eq in E as <- | apply String.eqb_neq in E].
    + rewrite decide_True by done. cbn in *. lia.
    + rewrite decide_False by congruence. lia.
  - rewrite principal_mark by done. unfold is_cross_chain in *.
    destruct (route_kind_eqb (routeKind a) CROSS_CHAIN); [apply Z.ltb_ge in Hg0 | ]; lia.
Qed.

(** ** Lemmas: one group *)

Lemma same_case_refl a : same_case a a.
Proof. done. Qed.

Lemma same_case_trans a b c : same_case a b -> same_case b c -> same_case a c.
Proof. unfold same_case. intuition congruence. Qed.

(** What visiting a list of eligible, unselected identities does. *)
Definition group_outcome (ids : list nat) (s s' : store) : Prop :=
  exists rejected chosen rest,
    ids = rejected ++ chosen ++ rest /\
    (chosen = [] /\ rest = [] \/ exists i, chosen = [i]) /\
    (forall i, i ∈ rejected -> exists a r, s !! i = Some a /\ s' !! i = Some (push_reason r a)) /\
    (forall i, i ∈ chosen -> exists a, s !! i = Some a /\ s' !! i = Some (mark_selected a)) /\
    (forall i, i ∉ rejected -> i ∉ chosen -> s' !! i = s !! i).

Lemma select_group_outcome policy l0 ids s l s' l' :
  select_group policy ids s l = (s', l') -> NoDup ids ->
  (forall i, i ∈ ids -> exists a, s !! i = Some a /\ selected a = false) ->
  group_outcome ids s s' /\ (limits_hold policy l0 s l -> limits_hold policy l0 s' l').
Proof.
  revert s l. induction ids as [|i ids IH]; intros s l H Hnd Hids; cbn [select_group] in H.
  - injection H as <- <-. split; [|done]. exists [], [], []. split; [done|]. split; [by left|].
    split; [set_solver|]. split; [set_solver | done].
  - apply NoDup_cons in Hnd as [Hi Hnd]. destruct (Hids i ltac:(left)) as (a & Ha & Hs).
    rewrite Ha in H. destruct (take_capacity policy a l) as [l1|r] eqn:Ht.
    + injection H as <- <-. split; [|by intros Hl; eapply take_capacity_limits].
      exists [], [i], ids. split; [done|]. split; [right; by exists i|]. split; [set_solver|].
      split; [|intros j _ Hj; apply list_lookup_insert_ne; set_solver].
      intros j ->%list_elem_of_singleton. exists a. split; [done|].
      apply list_lookup_insert_eq. by eapply lookup_lt_Some.
    + assert (forall j, j ∈ ids -> (<[i := push_reason r a]> s) !! j = s !! j) as Hj
        by (intros j Hj; apply list_lookup_insert_ne; congruence).
      destruct (IH _ _ H Hnd) as [(rej & cho & rest & -> & Hc & Hr & Hm & Ho) Hl].
      { intros j Hin. rewrite Hj by done. apply Hids. by right. }
      split; [|intros; apply Hl; by apply limits_push].
      exists (i :: rej), cho, rest. split; [done|]. split; [done|]. split; [|split].
      * intros j [->|Hin]%elem_of_cons.
        -- exists a, r. split; [done|]. rewrite Ho by set_solver.
           apply list_lookup_insert_eq. by eapply lookup_lt_Some.
        -- destruct (Hr j Hin) as (b & r' & Hb & Hb'). rewrite Hj in Hb by set_solver. eauto.
      * intros j Hin. destruct (Hm j Hin) as (b & Hb & Hb'). rewrite Hj in Hb by set_solver. eauto.
      * intros j H1 H2. rewrite Ho by set_solver. apply list_lookup_insert_ne. set_solver.
Qed.

(** ** Lemmas: the eligible candidates of a group, best first *)

#[export] Instance compareAssessments_comparator : Comparator (fun _ => True) compareAssessments.
Proof.
  split.
  - intros x y _ _. apply (cmp_sym (cmp := compareFeeAwareReturns) (P := fun _ => True)); done.
  - intros x y z _ _ _.
    apply (cmp_trans (cmp := compareFeeAwareReturns) (P := fun _ => True)); done.
Qed.

#[export] Instance by_preference_comparator : Comparator (fun _ => True) by_preference.
Proof.
  split.
  - intros x y _ _. apply (cmp_sym (cmp := compareAssessments) (P := fun _ => True)); done.
  - intros x y z _ _ _.
    apply (cmp_trans (cmp := compareAssessments) (P := fun _ => True)); done.
Qed.

Lemma elem_of_entries s ids i a : (i, a) ∈ entries s ids <-> i ∈ ids /\ s !! i = Some a.
Proof.
  unfold entries. rewrite list_elem_of_omap. split.
  - intros (j & Hj & H). destruct (s !! j) as [b|] eqn:E; [|discriminate].
    cbn in H. injection H as -> ->. done.
  - intros [Hi Ha]. exists i. split; [done|]. by rewrite Ha.
Qed.

Lemma entries_keys s ids : (entries s ids).*1 `sublist_of` ids.
Proof.
  unfold entries. induction ids as [|i ids IH]; [constructor|]. cbn.
  destruct (s !! i); cbn; by constructor.
Qed.

Lemma filter_sublist {A} (p : A -> bool) l : List.filter p l `sublist_of` l.
Proof. induction l as [|a l IH]; cbn; [constructor|]. destruct (p a); by constructor. Qed.

Lemma elem_of_eligible s ids i a :
  (i, a) ∈ eligible_sorted s ids <-> i ∈ ids /\ s !! i = Some a /\ isEligibleInternal a = true.
Proof.
  unfold eligible_sorted. rewrite elem_of_js_sort, list_elem_of_In, filter_In, <- list_elem_of_In,
    elem_of_entries. tauto.
Qed.

Lemma eligible_NoDup s ids : NoDup ids -> NoDup ((eligible_sorted s ids).*1).
Proof.
  intros H. unfold eligible_sorted. rewrite js_sort_perm.
  eapply sublist_NoDup; [exact H|]. etrans; [|apply entries_keys].
  apply fmap_sublist, filter_sublist.
Qed.

Lemma sorted_keys {A} (R : nat * A -> nat * A -> Prop) L l1 i l2 j :
  StronglySorted R L -> L.*1 = l1 ++ i :: l2 -> j ∈ l2 ->
  exists x y, (i, x) ∈ L /\ (j, y) ∈ L /\ R (i, x) (j, y).
Proof.
  intros HS. revert l1. induction HS as [|[n a] L HS IH Hx]; intros l1 E Hj; [by destruct l1|].
  destruct l1 as [|m l1]; cbn in E; injection E as -> E.
  - rewrite <- E in Hj. apply list_elem_of_fmap in Hj as ([j' y] & -> & Hy). exists a, y.
    split; [left|]. split; [by right|]. rewrite Forall_forall in Hx. by apply Hx.
  - destruct (IH l1 E Hj) as (x & y & H1 & H2 & H3). exists x, y.
    split; [by right|]. split; [by right | done].
Qed.

Lemma compareAssessments_refl a : compareAssessments a a <= 0.
Proof.
  pose proof (cmp_sym (cmp := compareFeeAwareReturns) (P := fun _ => True) (ranked a) (ranked a) I I).
  unfold compareAssessments. lia.
Qed.

Lemma compare_same_case a a' b b' :
  same_case a a' -> same_case b b' -> compareAssessments a b = compareAssessments a' b'.
Proof.
  unfold compareAssessments, ranked. by intros (-> & _ & _ & -> & ->) (-> & _ & _ & -> & ->).
Qed.

Lemma same_case_push r a : same_case a (push_reason r a).
Proof. done. Qed.

Lemma same_case_mark a : same_case a (mark_selected a).
Proof. done. Qed.

Lemma push_ineligible r a : isEligibleInternal (push_reason r a) = false.
Proof. unfold isEligibleInternal. cbn. by destruct (reasons a). Qed.

Lemma at_position_same s s' i k : same_cases s s' -> at_position s i k <-> at_position s' i k.
Proof.
  intros H. specialize (H i). unfold at_position.
  destruct (s !! i) as [a|], (s' !! i) as [b|]; try done.
  destruct H as (_ & E & _). split; intros (x & [= <-] & Hk); eexists; (split; [done|]); congruence.
Qed.

Lemma group_outcome_cases ids s s' i b :
  group_outcome ids s s' -> s' !! i = Some b ->
  (exists a r, i ∈ ids /\ s !! i = Some a /\ b = push_reason r a) \/
  (exists a, i ∈ ids /\ s !! i = Some a /\ b = mark_selected a) \/
  s !! i = Some b.
Proof.
  intros (rej & cho & rest & -> & _ & Hr & Hc & Ho) Hb.
  destruct (decide (i ∈ rej)) as [Hi|Hi].
  - left. destruct (Hr i Hi) as (a & r & Ha & E). exists a, r. split; [set_solver|]. split; congruence.
  - destruct (decide (i ∈ cho)) as [Hi'|Hi'].
    + right. left. destruct (Hc i Hi') as (a & Ha & E). exists a. split; [set_solver|]. split; congruence.
    + right. right. rewrite <- Ho; done.
Qed.

Lemma group_outcome_same ids s s' : group_outcome ids s s' -> same_cases s s'.
Proof.
  intros (rej & cho & rest & -> & _ & Hr & Hc & Ho) i.
  destruct (decide (i ∈ rej)) as [Hi|Hi]; [by destruct (Hr i Hi) as (a & r & -> & ->)|].
  destruct (decide (i ∈ cho)) as [Hi'|Hi']; [by destruct (Hc i Hi') as (a & -> & ->)|].
  rewrite Ho by done. by destruct (s !! i).
Qed.

Lemma same_cases_trans s1 s2 s3 : same_cases s1 s2 -> same_cases s2 s3 -> same_cases s1 s3.
Proof.
  intros H1 H2 i. specialize (H1 i). specialize (H2 i).
  destruct (s1 !! i), (s2 !! i), (s3 !! i); try done. by eapply same_case_trans.
Qed.

(** ** Lemmas: the selection, group by group *)

Lemma step_ids s g i : i ∈ (eligible_sorted s g).*1 <->
  i ∈ g /\ exists a, s !! i = Some a /\ isEligibleInternal a = true.
Proof.
  rewrite list_elem_of_fmap. split.
  - intros ([j a] & -> & H%elem_of_eligible). cbn. destruct H as (? & ? & ?). eauto.
  - intros (Hi & a & Ha & He). exists (i, a). split; [done|]. by apply elem_of_eligible.
Qed.

Lemma selecting_unselected s0 s g rest i a :
  (forall i a, s0 !! i = Some a -> selected a = false) -> selecting s0 (g ++ rest) s ->
  i ∈ g -> s !! i = Some a -> selected a = false.
Proof.
  intros H0 (_ & Hu & _) Hi Ha. rewrite Hu in Ha by set_solver. by eapply H0.
Qed.

Section selection_step.
Context (s0 s s' : store) (g rest : list nat) (k : string).
Hypothesis Hunselected : forall i a, s0 !! i = Some a -> selected a = false.
Hypothesis Hgroup : forall i, i ∈ g <-> at_position s0 i k.
Hypothesis Hdisjoint : NoDup (g ++ rest).
Hypothesis Hs : selecting s0 (g ++ rest) s.
Hypothesis Hout : group_outcome ((eligible_sorted s g).*1) s s'.

Lemma step_unselected i a : i ∈ g -> s !! i = Some a -> selected a = false.
Proof. exact (selecting_unselected s0 s g rest i a Hunselected Hs). Qed.

Lemma step_peer i j a b :
  i ∈ g -> s !! i = Some a -> s !! j = Some b -> peers a b -> j ∈ g.
Proof.
  destruct Hs as (Hc & _). intros Hi Ha Hb Hp. apply Hgroup.
  apply (at_position_same _ _ _ _ Hc). apply Hgroup, (at_position_same _ _ _ _ Hc) in Hi.
  destruct Hi as (a' & E & Hk). exists b. split; [done|]. unfold peers in Hp. congruence.
Qed.

(** A selected assessment afterwards: just marked, or selected before. *)
Lemma step_selected i b : s' !! i = Some b -> selected b = true ->
  (exists a, i ∈ (eligible_sorted s g).*1 /\ s !! i = Some a /\ b = mark_selected a) \/
  i ∉ g /\ s !! i = Some b.
Proof.
  intros Hb Hsel. destruct (group_outcome_cases _ _ _ _ _ Hout Hb) as [(a & r & Hi & Ha & ->)|[H|H]].
  - apply step_ids in Hi as [Hi _]. apply step_unselected in Ha; [|done]. cbn in Hsel. congruence.
  - by left.
  - right. split; [|done]. intros Hi. apply step_unselected in H; [congruence | done].
Qed.

(** An eligible one afterwards: just marked, or eligible and untouched. *)
Lemma step_eligible i b : s' !! i = Some b -> isEligibleInternal b = true ->
  (exists a, i ∈ (eligible_sorted s g).*1 /\ s !! i = Some a /\ b = mark_selected a) \/
  s !! i = Some b.
Proof.
  intros Hb He. destruct (group_outcome_cases _ _ _ _ _ Hout Hb) as [(a & r & _ & _ & ->)|[H|H]].
  - by rewrite push_ineligible in He.
  - by left.
  - by right.
Qed.

(** A marked identity is the chosen one. *)
Lemma step_chosen (rej cho : list nat) n x :
  (forall i, i ∈ rej -> exists a r, s !! i = Some a /\ s' !! i = Some (push_reason r a)) ->
  (forall i, i ∉ rej -> i ∉ cho -> s' !! i = s !! i) ->
  n ∈ (eligible_sorted s g).*1 -> s !! n = Some x -> s' !! n = Some (mark_selected x) -> n ∈ cho.
Proof.
  intros Hr Ho (Hn & y & Hy & Hye)%step_ids Hx Hx'. rewrite Hx in Hy. injection Hy as <-.
  destruct (decide (n ∈ cho)) as [|Hnc]; [done|]. exfalso.
  destruct (decide (n ∈ rej)) as [Hnr|Hnr].
  - destruct (Hr n Hnr) as (z & r & _ & Hz). rewrite Hx' in Hz. injection Hz as Ez.
    apply eligible_iff in Hye as [Hnil _]. cbn in *. rewrite Hnil in *. by destruct (reasons z).
  - rewrite Ho, Hx in Hx' by done. injection Hx' as Ex.
    pose proof (step_unselected n x Hn Hx) as Hu. rewrite Ex in Hu. cbn in Hu. discriminate.
Qed.

Lemma step_one i j a b :
  i ∈ (eligible_sorted s g).*1 -> j ∈ (eligible_sorted s g).*1 -> s !! i = Some a -> s !! j = Some b ->
  s' !! i = Some (mark_selected a) -> s' !! j = Some (mark_selected b) -> i = j.
Proof.
  intros Hi Hj Ha Hb Ha' Hb'.
  destruct Hout as (rej & cho & after & E & Hone & Hr & Hm & Ho).
  apply (step_chosen rej cho i a Hr Ho Hi Ha) in Ha'. apply (step_chosen rej cho j b Hr Ho Hj Hb) in Hb'.
  destruct Hone as [[-> _]|(c & ->)]; set_solver.
Qed.

(** Someone of the group marked: everyone else still eligible comes after. *)
Lemma step_marked i j a b :
  i ∈ (eligible_sorted s g).*1 -> s !! i = Some a -> s' !! i = Some (mark_selected a) ->
  j ∈ g -> s !! j = Some b -> s' !! j = Some b -> isEligibleInternal b = true ->
  compareAssessments a b <= 0.
Proof.
  intros Hi Ha Ha' Hj Hb Hb' He. destruct Hout as (rej & cho & after & E & Hone & Hr & Hm & Ho).
  assert (j ∈ (eligible_sorted s g).*1) as Hj' by (apply step_ids; eauto).
  assert (j ∉ rej) as Hjr.
  { intros H. destruct (Hr j H) as (x & r & _ & Hx). rewrite Hb' in Hx. injection Hx as ->.
    by rewrite push_ineligible in He. }
  pose proof (step_chosen rej cho i a Hr Ho Hi Ha Ha') as Hic.
  destruct Hone as [[-> _]|(c & ->)]; [by apply not_elem_of_nil in Hic|].
  apply list_elem_of_singleton in Hic as <-.
  destruct (decide (j = i)) as [->|Hne].
  { rewrite Ha in Hb. injection Hb as <-. apply compareAssessments_refl. }
  rewrite E in Hj'. assert (j ∈ after) as Haft by set_solver.
  pose proof (js_sort_sorted (fun _ => True) by_preference
    (List.filter (fun x => isEligibleInternal x.2) (entries s g)) ltac:(by apply Forall_true)) as Hsorted.
  destruct (sorted_keys _ _ rej i after j Hsorted E Haft) as (x & y & Hx & Hy & HR).
  apply elem_of_eligible in Hx as (_ & Hx & _), Hy as (_ & Hy & _).
  rewrite Ha in Hx. rewrite Hb in Hy. injection Hx as <-. injection Hy as <-. exact HR.
Qed.

(** Someone of the group is still eligible: someone of it is marked. *)
Lemma step_settled j b : j ∈ g -> s' !! j = Some b -> isEligibleInternal b = true ->
  exists i a, i ∈ (eligible_sorted s g).*1 /\ s !! i = Some a /\ s' !! i = Some (mark_selected a).
Proof.
  intros Hj Hb He. destruct (step_eligible j b Hb He) as [(a & Hi & Ha & ->)|Hb'].
  { by exists j, a. }
  assert (j ∈ (eligible_sorted s g).*1) as Hid by (apply step_ids; eauto).
  destruct Hout as (rej & cho & after & E & Hone & Hr & Hm & Ho).
  destruct Hone as [[-> ->]|(c & ->)].
  - rewrite E in Hid. assert (j ∈ rej) as Hjr by set_solver.
    destruct (Hr j Hjr) as (x & r & _ & Hx). rewrite Hb in Hx. injection Hx as ->.
    by rewrite push_ineligible in He.
  - destruct (Hm c ltac:(by left)) as (a & Ha & Ha'). exists c, a. split; [|done].
    rewrite E. set_solver.
Qed.

Lemma selecting_step : selecting s0 rest s'.
Proof.
  pose proof Hs as (Hc & Hu & He & Hone & Hpref & Hset).
  assert (forall i, i ∈ (eligible_sorted s g).*1 -> i ∈ g) as Hg by (intros i [H _]%step_ids; done).
  assert (forall i a, s !! i = Some a -> selected a = true -> i ∉ g) as Hout_g.
  { intros i a Ha Hsel Hi. apply step_unselected in Ha; [congruence | done]. }
  pose proof Hdisjoint as (_ & Hdis & _)%NoDup_app.
  split; [by eapply same_cases_trans, group_outcome_same|]. split; [|split; [|split; [|split]]].
  - intros i Hi. rewrite <- Hu by set_solver. destruct Hout as (rej & cho & after & E & _ & _ & _ & Ho).
    apply Ho; intros Hin; apply (Hdis i); auto; apply Hg; rewrite E; set_solver.
  - intros i b Hb Hsel. destruct (step_selected i b Hb Hsel) as [(a & Hi & Ha & ->)|[_ H]]; [|by eauto].
    apply step_ids in Hi as (_ & x & Hx & Hxe). by simplify_eq.
  - intros i j a b Ha Hb Hsa Hsb Hp.
    destruct (step_selected i a Ha Hsa) as [(x & Hi & Hx & ->)|[Hi Hx]],
      (step_selected j b Hb Hsb) as [(y & Hj & Hy & ->)|[Hj Hy]]; [| | |by eauto].
    + eapply step_one; eauto.
    + destruct Hj. by eapply (step_peer i j); eauto.
    + destruct Hi. by eapply (step_peer j i); eauto.
  - intros i j a b Ha Hb Hsa Heb Hp.
    destruct (step_selected i a Ha Hsa) as [(x & Hi & Hx & ->)|[Hi Hx]].
    + assert (j ∈ g) as Hj.
      { destruct (step_eligible j b Hb Heb) as [(y & Hj & _ & _)|Hy]; [by apply Hg|].
        by eapply (step_peer i j x b); eauto. }
      destruct (step_eligible j b Hb Heb) as [(y & Hj' & Hy & ->)|Hy].
      * assert (i = j) as <- by (eapply step_one; eauto). simplify_eq. apply compareAssessments_refl.
      * change (compareAssessments x b <= 0). by eapply (step_marked i j).
    + destruct (step_eligible j b Hb Heb) as [(y & Hj & Hy & ->)|Hy]; [|by eauto].
      destruct Hi. eapply (step_peer j i y a); eauto. by symmetry.
  - intros j b Hj Hb Heb. destruct (decide (j ∈ g)) as [Hjg|Hjg].
    + destruct (step_settled j b Hjg Hb Heb) as (i & a & Hi & Ha & Ha').
      exists i, (mark_selected a). split; [done|]. split; [done|].
      apply Hg, Hgroup, (at_position_same _ _ _ _ Hc) in Hi as (x & Hx & Ek).
      assert (same_cases s0 s') as Hc' by (by eapply same_cases_trans, group_outcome_same).
      apply Hgroup, (at_position_same _ _ _ _ Hc') in Hjg as (y & Hy & Ek'). unfold peers. cbn. congruence.
    + destruct (step_eligible j b Hb Heb) as [(y & Hj' & _)|Hy]; [by apply Hg in Hj'|].
      destruct (Hset j b ltac:(set_solver) Hy Heb) as (i & a & Ha & Hsa & Hp).
      exists i, a. split; [|done]. destruct Hout as (rej & cho & after & E & _ & _ & _ & Ho).
      rewrite Ho; [done | |]; intros Hin; apply (Hout_g i a Ha Hsa), Hg; rewrite E; set_solver.
Qed.
End selection_step.

Lemma select_all policy l0 s0 gs s l :
  (forall i a, s0 !! i = Some a -> selected a = false) ->
  NoDup (concat gs) -> (forall g, g ∈ gs -> exists k, forall i, i ∈ g <-> at_position s0 i k) ->
  selecting s0 (concat gs) s -> limits_hold policy l0 s l ->
  let sl := foldl (fun sl group => select_group policy ((eligible_sorted sl.1 group).*1) sl.1 sl.2)
                  (s, l) gs in
  selecting s0 [] sl.1 /\ limits_hold policy l0 sl.1 sl.2.
Proof.
  intros Hun. revert s l. induction gs as [|g gs IH]; intros s l Hnd Hg Hs Hl; [done|].
  cbn [foldl fst snd]. destruct (select_group _ _ _ _) as [s' l'] eqn:E. cbn [concat] in *.
  destruct (Hg g ltac:(left)) as (k & Hk). pose proof Hnd as (Hg1 & _ & Hrest)%NoDup_app.
  destruct (select_group_outcome policy l0 _ _ _ _ _ E) as [Hout Hl'].
  - by apply eligible_NoDup.
  - intros i (Hi & a & Ha & _)%step_ids. exists a. split; [done|].
    by eapply (selecting_unselected s0 s g (concat gs)).
  - refine (IH s' l' Hrest _ _ _); [intros g' Hin; apply Hg; by right | | by apply Hl'].
    eapply selecting_step; eauto.
Qed.

(** ** Lemmas: the groups *)

Definition key_of (s : store) (i : nat) : option string := (fun a => positionId (position a)) <$> s !! i.

Lemma at_position_key s i k : at_position s i k <-> key_of s i = Some k.
Proof.
  unfold at_position, key_of. destruct (s !! i) as [a|]; cbn.
  - split; [intros (x & [= <-] & <-); done | intros [= <-]; eauto].
  - split; [intros (x & [=] & _) | done].
Qed.

Lemma concat_NoDup (key : nat -> option string) (m : list (string * list nat)) :
  NoDup m.*1 -> (forall k g, (k, g) ∈ m -> NoDup g /\ forall i, i ∈ g -> key i = Some k) ->
  NoDup (concat m.*2).
Proof.
  induction m as [|[k g] m IH]; intros Hnd H; [constructor|]. cbn in *.
  apply NoDup_cons in Hnd as [Hk Hnd]. destruct (H k g ltac:(left)) as [Hg Hkey].
  apply NoDup_app. split; [done|]. split; [|apply IH; [done|]; intros k' g' Hin; apply H; by right].
  intros i Hi Hc. apply list_elem_of_In, in_concat in Hc as (g' & Hg' & Hig').
  apply list_elem_of_In, list_elem_of_fmap in Hg' as ([k' g''] & -> & Hin). cbn in *.
  apply list_elem_of_In in Hig'.
  destruct (H k' g'' ltac:(by right)) as [_ Hkey']. specialize (Hkey i Hi). specialize (Hkey' i Hig').
  apply Hk. rewrite Hkey in Hkey'. injection Hkey' as ->. by apply (list_elem_of_fmap_2 fst) in Hin.
Qed.

Lemma position_groups_snoc s a :
  position_groups (s ++ [a])
  = mset (positionId (position a))
      (default [] (mget (positionId (position a)) (position_groups s)) ++ [length s]) (position_groups s).
Proof. unfold position_groups. rewrite imap_app, foldl_app. cbn. by rewrite Nat.add_0_r. Qed.

Lemma key_of_snoc s a i :
  key_of (s ++ [a]) i = if decide (i = length s) then Some (positionId (position a)) else key_of s i.
Proof.
  unfold key_of. destruct (decide (i = length s)) as [->|Hne].
  - rewrite lookup_app_r, Nat.sub_diag by done. done.
  - destruct (decide (i < length s)%nat); [by rewrite lookup_app_l|].
    rewrite lookup_ge_None_2 by (rewrite length_app; cbn; lia). by rewrite lookup_ge_None_2 by lia.
Qed.

Lemma position_groups_spec s :
  NoDup (position_groups s).*1 /\
  forall k, NoDup (default [] (mget k (position_groups s))) /\
    forall i, i ∈ default [] (mget k (position_groups s)) <-> key_of s i = Some k.
Proof.
  induction s as [|a s [IH1 IH2]] using rev_ind.
  - split; [constructor|]. intros k. split; [constructor|]. intros i. cbn. split; [|done].
    by intros ?%not_elem_of_nil.
  - rewrite position_groups_snoc. split; [by apply mset_NoDup|]. intros k. rewrite mget_mset.
    set (id := positionId (position a)).
    assert (key_of s (length s) = None) as Hlen by (unfold key_of; by rewrite lookup_ge_None_2).
    destruct (decide (k = id)) as [->|Hne].
    + change (default [] (Some ?x)) with x. destruct (IH2 id) as [Hnd Hin]. split.
      * apply NoDup_app. split; [done|]. split; [|repeat constructor; apply not_elem_of_nil].
        intros i Hi ->%list_elem_of_singleton. apply Hin in Hi. congruence.
      * intros i. rewrite elem_of_app, list_elem_of_singleton, Hin, key_of_snoc.
        case_decide; [|naive_solver]. split; [done | by right].
    + destruct (IH2 k) as [Hnd Hin]. split; [done|]. intros i. rewrite Hin, key_of_snoc.
      case_decide as E; [|done]. subst i. rewrite Hlen. split; [done|]. intros [= E]. by destruct Hne.
Qed.

Lemma position_groups_partition s : partitions s ((position_groups s).*2).
Proof.
  destruct (position_groups_spec s) as [Hnd Hk].
  assert (forall k g, (k, g) ∈ position_groups s -> mget k (position_groups s) = Some g) as Hget
    by (intros k g Hin; by apply elem_mget).
  split; [|split].
  - apply (concat_NoDup (key_of s)); [done|]. intros k g Hin. specialize (Hk k).
    rewrite (Hget k g Hin) in Hk. cbn in Hk. destruct Hk as [H1 H2]. split; [done|]. intros i. apply H2.
  - intros g ([k g'] & -> & Hin)%list_elem_of_fmap. exists k. intros i. rewrite at_position_key.
    specialize (Hk k). rewrite (Hget k g' Hin) in Hk. apply Hk.
  - intros i a Ha. destruct (Hk (positionId (position a))) as [_ H].
    assert (key_of s i = Some (positionId (position a))) as Hi by (unfold key_of; by rewrite Ha).
    apply H in Hi. destruct (mget _ _) as [g|] eqn:E; [|by apply not_elem_of_nil in Hi].
    apply list_elem_of_In, in_concat. exists g. split; [|by apply list_elem_of_In].
    apply list_elem_of_In. apply mget_Some_elem in E. by apply (list_elem_of_fmap_2 snd) in E.
Qed.

Lemma partitions_perm s gs gs' : gs ≡ₚ gs' -> partitions s gs -> partitions s gs'.
Proof.
  intros Hp (H1 & H2 & H3). assert (concat gs ≡ₚ concat gs') as Hc by by rewrite Hp.
  split; [by rewrite <- Hc|]. split; intros; [apply H2; by rewrite Hp|]. rewrite <- Hc. by eapply H3.
Qed.

(** ** Lemmas: a whole allocation *)

Lemma assess_all_ok request s : request_wf request -> assess_all request = Ok s ->
  candidate <$> s = candidates request /\
  Forall (fun a => assessed_for request a /\
            a = assessCandidate request (candidate a) (position a) (opportunity a)) s.
Proof.
  intros (Hp & Ho & _) H. unfold assess_all in H. pose proof H as Hc. apply mapr_ok in Hc.
  assert (forall c a, c ∈ candidates request ->
          match mget (candidate_positionId c) (mofl ((fun p => (positionId p, p)) <$> positions request)),
            mget (candidate_opportunityId c) (mofl ((fun o => (opportunityId o, o)) <$> opportunities request)) with
          | Some p, Some o => Ok (assessCandidate request c p o)
          | _, _ => Err INVALID_INPUT end = Ok a ->
          candidate a = c /\ assessed_for request a /\
          a = assessCandidate request (candidate a) (position a) (opportunity a)) as Hone.
  { intros c a Hin Ha. destruct (mget _ _) as [p|] eqn:Ep; [|discriminate].
    destruct (mget (candidate_opportunityId c) _) as [o|] eqn:Eo; [|discriminate]. injection Ha as <-.
    apply mget_mofl in Ep; [|by rewrite <- list_fmap_compose].
    apply mget_mofl in Eo; [|by rewrite <- list_fmap_compose].
    apply list_elem_of_fmap in Ep as (p' & [= E1 ->] & Hp'), Eo as (o' & [= E2 ->] & Ho').
    destruct (assess_fixed request c p' o') as (F1 & F2 & F3 & _). unfold assessed_for.
    by rewrite F1, F2, F3. }
  split; [|by eapply mapr_forall, H; intros c a Hin Ha; by apply (Hone c a)].
  remember (candidates request) as cs eqn:E in Hc |- *.
  assert (forall c, c ∈ cs -> c ∈ candidates request) as Hsub by by subst. clear E H.
  induction Hc as [|c a cs s Ha Hc IH]; [done|]. rewrite fmap_cons, IH by (intros; apply Hsub; by right).
  f_equal. by apply (Hone c a); [apply Hsub; left|].
Qed.

(** After the comparison pass: the same cases, still unselected. *)
Lemma compared_for policy ids s request a :
  assessed_for request a -> assessed_for request (compared policy ids s a).
Proof.
  unfold assessed_for. by destruct (compared_fixed policy ids s a) as (-> & -> & -> & _).
Qed.

Lemma initial_limits_hold os policy s :
  NoDup (opportunityId <$> os) -> Forall (fun o => 0 <= availableCapacityUsdMantissa o) os ->
  0 <= maximumCrossChainPrincipalUsdMantissa policy -> 0 <= maximumProviderPrincipalUsdMantissa policy ->
  (forall i a, s !! i = Some a -> selected a = false) ->
  limits_hold policy (initial_limits os policy) s (initial_limits os policy).
Proof.
  intros Hnd Hc Hx Hp Hs.
  assert (forall P, principal_where P s = 0) as H0.
  { intros P. clear -Hs. induction s as [|a s IH]; [done|]. rewrite principal_cons.
    rewrite (Hs 0%nat a eq_refl), IH; [done|]. intros i b. apply (Hs (S i)). }
  split; [|split; [|split]].
  - intros o. rewrite H0. split; [done|]. unfold capacity_left, initial_limits. cbn.
    destruct (mget _ _) as [c|] eqn:E; [|done]. apply mget_mofl in E; [|by rewrite <- list_fmap_compose].
    apply list_elem_of_fmap in E as (x & [= _ ->] & Hx'). rewrite Forall_forall in Hc. by apply Hc.
  - intros p. rewrite H0. done.
  - rewrite H0. done.
  - done.
Qed.

Lemma selecting_start s : (forall i a, s !! i = Some a -> selected a = false) ->
  selecting s (concat (position_groups s).*2) s.
Proof.
  intros Hs. split; [intros i; by destruct (s !! i)|]. split; [done|].
  repeat (split; [intros; exfalso; match goal with H : selected _ = true, H' : _ !! _ = Some _ |- _ =>
    apply Hs in H'; congruence end|]).
  intros j b Hj Hb _. destruct Hj. destruct (position_groups_partition s) as (_ & _ & H). by eapply H.
Qed.

Lemma select_ok s os policy :
  (forall i a, s !! i = Some a -> selected a = false) ->
  NoDup (opportunityId <$> os) -> Forall (fun o => 0 <= availableCapacityUsdMantissa o) os ->
  0 <= maximumCrossChainPrincipalUsdMantissa policy -> 0 <= maximumProviderPrincipalUsdMantissa policy ->
  let s' := selectCandidatesWithinLimits s os policy in
  same_cases s s' /\ selection_ok s' /\
  exists l, limits_hold policy (initial_limits os policy) s' l.
Proof.
  intros Hs Hnd Hc Hx Hp. unfold selectCandidatesWithinLimits.
  set (gs := js_sort (compare_groups s) _).
  assert (partitions s gs) as (P1 & P2 & P3).
  { eapply partitions_perm, position_groups_partition. symmetry. apply js_sort_perm. }
  destruct (select_all policy (initial_limits os policy) s gs s (initial_limits os policy) Hs P1 P2)
    as [(H1 & _ & H2 & H3 & H4 & H5) Hl].
  - pose proof (selecting_start s Hs) as (Q1 & Q2 & Q3 & Q4 & Q5 & Q6).
    split; [done|]. split; [done|]. split; [done|]. split; [done|]. split; [done|].
    intros j b Hj Hb. destruct Hj. by eapply P3.
  - by apply initial_limits_hold.
  - split; [exact H1|]. split; [|by eexists]. split; [exact H2|]. split; [exact H3|]. split; [exact H4|].
    intros j b. apply H5, not_elem_of_nil.
Qed.

Lemma same_cases_lookup s s' i b : same_cases s s' -> s' !! i = Some b ->
  exists a, s !! i = Some a /\ same_case a b.
Proof. intros H Hb. specialize (H i). rewrite Hb in H. destruct (s !! i) as [a|]; [eauto | done]. Qed.

(** Everything about the final store. *)
Lemma allocate_ok request s : request_wf request -> allocate request = Ok s ->
  selection_ok s /\ Forall (assessed_for request) s /\
  exists l, limits_hold (exposurePolicy request)
              (initial_limits (opportunities request) (exposurePolicy request)) s l.
Proof.
  intros Hw H. unfold allocate in H. inv_ok. rename r into s0.
  destruct (assess_all_ok _ _ Hw Hr) as [_ Hall]. destruct Hw as (Hp & Ho & _ & _ & Hc & Hx & Hv).
  set (s1 := applyCrossChainComparisonPolicy request s0) in *.
  assert (s1 = compared (crossChainPolicy request) (positionId <$> positions request) s0 <$> s0) as E1
    by (by apply apply_comparison).
  assert (forall i a, s1 !! i = Some a -> assessed_for request a /\ selected a = false) as H1.
  { intros i a. rewrite E1, list_lookup_fmap. destruct (s0 !! i) as [a0|] eqn:Ea; [|discriminate].
    intros [= <-]. rewrite Forall_lookup in Hall. destruct (Hall i a0 Ea) as [Hf Heq]. split; [by apply compared_for|].
    destruct (compared_fixed (crossChainPolicy request) (positionId <$> positions request) s0 a0)
      as (_ & _ & _ & _ & ->). rewrite Heq.
    by destruct (assess_fixed request (candidate a0) (position a0) (opportunity a0)) as (_ & _ & _ & _ & ->). }
  destruct (select_ok s1 (opportunities request) (exposurePolicy request)) as (Hsame & Hsel & Hl);
    [intros i a Ha; by apply (H1 i a) | done | eapply Forall_impl; [exact Hc|]; cbn; tauto | tauto | tauto |].
  rewrite H in Hsame, Hsel, Hl. split; [done|]. split; [|done].
  apply Forall_lookup. intros i b Hb. destruct (same_cases_lookup _ _ _ _ Hsame Hb) as (a & Ha & E).
  destruct (H1 i a Ha) as [Hf _]. unfold assessed_for in *. by destruct E as (<- & <- & <- & _).
Qed.

(** ** Lemmas: decisions *)

Definition position_key (a : InternalAssessment) : string := positionId (position a).

Lemma selected_NoDup s :
  (forall i j a b, s !! i = Some a -> s !! j = Some b -> selected a = true -> selected b = true ->
     peers a b -> i = j) ->
  NoDup (position_key <$> List.filter selected s).
Proof.
  induction s as [|x s IH]; intros H; [constructor|]. cbn [List.filter].
  assert (NoDup (position_key <$> List.filter selected s)) as Hs.
  { apply IH. intros i j a b Ha Hb Hsa Hsb Hp. specialize (H (S i) (S j) a b Ha Hb Hsa Hsb Hp). lia. }
  destruct (selected x) eqn:Hx; [|done]. rewrite fmap_cons. apply NoDup_cons. split; [|done].
  intros (b & Hk & Hb)%list_elem_of_fmap. apply list_elem_of_In, filter_In in Hb as [Hb Hsb].
  apply list_elem_of_In, list_elem_of_lookup in Hb as [j Hj].
  assert (0%nat = S j) by (by apply (H 0%nat (S j) x b)). lia.
Qed.

Lemma selected_of_spec s p a : selected_of s p = Some a ->
  a ∈ List.filter selected s /\ position_key a = positionId p.
Proof.
  unfold selected_of, matching. intros [Hin Hs]%List.find_some.
  apply list_elem_of_In in Hin. rewrite elem_of_js_sort, list_elem_of_In, filter_In in Hin.
  destruct Hin as [Hin Hp%String.eqb_eq]. split; [|done].
  by apply list_elem_of_In, filter_In.
Qed.

(** The selections of the decisions are the selected assessments. *)
Lemma selections_perm request s :
  NoDup (positionId <$> positions request) -> Forall (assessed_for request) s -> selection_ok s ->
  omap (selected_of s) (positions request) ≡ₚ List.filter selected s.
Proof.
  intros Hnd Hfor (_ & Hone & _). pose proof (selected_NoDup s Hone) as Hs.
  assert (NoDup (List.filter selected s)) as Hs' by (by eapply NoDup_fmap_1).
  apply NoDup_Permutation; [|done|].
  - apply (NoDup_fmap_1 position_key). eapply sublist_NoDup; [exact Hnd|].
    generalize (positions request). intros ps. induction ps as [|p ps IH]; [constructor|].
    cbn. destruct (selected_of s p) as [a|] eqn:E; [|by constructor].
    apply selected_of_spec in E as [_ E]. rewrite !fmap_cons, E. by constructor.
  - intros a. rewrite list_elem_of_omap. split.
    + intros (p & _ & H). by apply selected_of_spec in H as [? _].
    + intros Ha. exists (position a). pose proof Ha as Ha'.
      apply list_elem_of_In, filter_In in Ha' as [Hin Hsel]. apply list_elem_of_In in Hin.
      rewrite Forall_forall in Hfor. destruct (Hfor a Hin) as (_ & Hp & _). split; [done|].
      destruct (selected_of s (position a)) as [b|] eqn:E.
      * apply selected_of_spec in E as [Hb Hk]. f_equal. by apply (NoDup_fmap_inj position_key _ _ _ Hs).
      * exfalso. unfold selected_of in E.
        assert (In a (matching s (position a))) as Hm.
        { apply list_elem_of_In. unfold matching. rewrite elem_of_js_sort, list_elem_of_In, filter_In.
          split; [by apply list_elem_of_In | apply String.eqb_refl]. }
        apply (List.find_none _ _ E) in Hm. congruence.
Qed.

Lemma selected_position request s p a :
  NoDup (positionId <$> positions request) -> Forall (assessed_for request) s ->
  p ∈ positions request -> selected_of s p = Some a -> position a = p.
Proof.
  intros Hnd Hfor Hp (Ha & Hk)%selected_of_spec. apply list_elem_of_In, filter_In in Ha as [Ha _].
  apply list_elem_of_In in Ha. rewrite Forall_forall in Hfor. destruct (Hfor a Ha) as (_ & Hpa & _).
  by apply (NoDup_fmap_inj positionId (positions request)).
Qed.

Definition sum_of (f : InternalAssessment -> Z) (l : list InternalAssessment) : Z :=
  foldr (fun a t => f a + t) 0 l.

Lemma sum_of_perm f l l' : l ≡ₚ l' -> sum_of f l = sum_of f l'.
Proof. unfold sum_of. induction 1; cbn; lia. Qed.

Lemma principal_sum P s :
  principal_where P s
  = sum_of (fun a => if P a then amountUsdMantissa (position a) else 0) (List.filter selected s).
Proof.
  induction s as [|a s IH]; [done|]. rewrite principal_cons, IH. cbn [List.filter].
  destruct (selected a); [done|]. cbn [andb]. lia.
Qed.

Lemma decided_perm P ds ds' : ds ≡ₚ ds' -> decided_principal P ds = decided_principal P ds'.
Proof. unfold decided_principal. induction 1; cbn; lia. Qed.

(** What the decisions commit is what the store has selected. *)
Lemma decided_principal_store request s Q P :
  NoDup (positionId <$> positions request) -> Forall (assessed_for request) s -> selection_ok s ->
  (forall p, Q (positionDecision s p) = match selected_of s p with Some a => P a | None => false end) ->
  decided_principal Q (positionDecision s <$> positions request) = principal_where P s.
Proof.
  intros Hnd Hfor Hsel HQ. rewrite principal_sum, <- (sum_of_perm _ _ _ (selections_perm _ _ Hnd Hfor Hsel)).
  pose proof (fun p a => selected_position request s p a Hnd Hfor) as Hpos. clear -HQ Hpos.
  induction (positions request) as [|p ps IH]; [done|]. rewrite fmap_cons. unfold decided_principal.
  cbn [foldr]. fold (decided_principal Q (positionDecision s <$> ps)).
  rewrite IH by (intros q a Hq; apply Hpos; by right). rewrite HQ.
  cbn [omap list_omap]. destruct (selected_of s p) as [a|] eqn:E; [|done].
  cbn. rewrite (Hpos p a) by (done || by left). done.
Qed.

Lemma recommend_inv input r : recommendFeeAwareAllocation input = Ok r ->
  exists request s, parseRequest input = Ok request /\ request_wf request /\ allocate request = Ok s /\
    decisions r ≡ₚ positionDecision s <$> positions request /\
    boundedSum ((fun a => amountUsdMantissa (position a)) <$> List.filter selected s)
    = Some (recommendedPrincipalUsdMantissa r) /\
    recommendation_status r = (if (length (List.filter selected s) =? length (positions request))%nat then RECOMMENDED
              else if (length (List.filter selected s) =? 0)%nat then NO_ELIGIBLE_ROUTE
              else PARTIAL_RECOMMENDATION).
Proof.
  unfold recommendFeeAwareAllocation, recommend_request. intros H. inv_ok. exists r0, r1.
  destruct (boundedSum (amountUsdMantissa <$> _)) as [total|]; [|discriminate].
  destruct (boundedSum _) as [recommended|]; [|discriminate]. inv_ok. subst r. cbn.
  pose proof (fee_request_wf _ _ Hr) as Hw. repeat (split; [done|]). split; [apply js_sort_perm | done].
Qed.

Lemma bounded_sum_from_ok t l n : bounded_sum_from t l = Some n -> n = t + foldr Z.add 0 l.
Proof.
  revert t. induction l as [|v l IH]; intros t; cbn; [intros [= ->]; lia|].
  destruct (_ <? _); [discriminate|]. intros ->%IH. lia.
Qed.

Lemma decided_for_fmap {A} (f : A -> string) (o : option A) id :
  decided_for (f <$> o) id = match o with Some a => String.eqb (f a) id | None => false end.
Proof.
  unfold decided_for. destruct o as [a|]; cbn; [|done].
  destruct (String.eqb_spec (f a) id) as [->|Hne]; [by rewrite bool_decide_eq_true_2|].
  rewrite bool_decide_eq_false_2; [done|]. congruence.
Qed.

(** A candidate leaves the comparison pass eligible only with an improvement. *)
Lemma compared_eligible policy b a :
  routeKind a = CROSS_CHAIN ->
  isEligibleInternal (compare_with_baseline policy (position_key a) b a) = true <->
  isEligibleInternal a = true /\ exists c base, calculation a = Some c /\ b = Some base /\
    totalLifecycleCost c <= maximumLifecycleCostUsdMantissa policy /\
    minimumNetImprovementUsdMantissa policy <= netBenefit c - base.
Proof.
  intros Hk. unfold compare_with_baseline, of_position, position_key.
  rewrite Hk, String.eqb_refl. cbn [negb orb route_kind_eqb].
  destruct (calculation a) as [c|] eqn:Ec.
  2:{ split; [|by intros (_ & c & _ & [=] & _)]. intros (_ & c & E)%eligible_iff. congruence. }
  destruct b as [base|].
  2:{ rewrite push_ineligible. split; [done|]. by intros (_ & ? & ? & _ & [=] & _). }
  rewrite !eligible_iff, Ec. cbn [reasons calculation].
  rewrite !app_nil, !push_nil, !Z.ltb_ge. split.
  - intros [(Hn & H1 & H2) _]. split; [split; [done | by exists c]|]. by exists c, base.
  - intros [[Hn _] (c' & base' & [= <-] & [= <-] & H1 & H2)]. split; [done | by eexists].
Qed.

Lemma baseline_best s id :
  match baseline id s with
  | Some b => exists a c, a ∈ s /\ position_key a = id /\ routeKind a = SAME_CHAIN /\
      isEligibleInternal a = true /\ calculation a = Some c /\ netBenefit c = b /\
      forall a' c', a' ∈ s -> position_key a' = id -> routeKind a' = SAME_CHAIN ->
        isEligibleInternal a' = true -> calculation a' = Some c' -> netBenefit c' <= b
  | None => forall a, a ∈ s -> position_key a = id -> routeKind a = SAME_CHAIN ->
      isEligibleInternal a = false
  end.
Proof.
  unfold baseline. set (p := fun a => of_position id a && route_kind_eqb (routeKind a) SAME_CHAIN && isEligibleInternal a).
  assert (forall a, a ∈ List.filter p s <-> a ∈ s /\ position_key a = id /\ routeKind a = SAME_CHAIN /\
            isEligibleInternal a = true) as Hf.
  { intros a. rewrite !list_elem_of_In, filter_In. unfold p, of_position, position_key.
    rewrite !andb_true_iff, String.eqb_eq, route_kind_eqb_eq. tauto. }
  destruct (js_sort compareAssessments (List.filter p s)) as [|x rest] eqn:E.
  - cbn. intros a Ha Hk Hr. destruct (isEligibleInternal a) eqn:He; [|done].
    assert (a ∈ List.filter p s) as Hin by (by apply Hf).
    rewrite <- (js_sort_perm compareAssessments), E in Hin. by apply not_elem_of_nil in Hin.
  - assert (x ∈ List.filter p s) as Hx by (rewrite <- (js_sort_perm compareAssessments), E; left).
    apply Hf in Hx as (Hx & Hk & Hr & He). pose proof He as (_ & c & Hc)%eligible_iff.
    cbn. rewrite Hc. cbn. exists x, c. repeat (split; [done|]).
    intros a' c' Ha' Hk' Hr' He' Hc'. assert (a' ∈ List.filter p s) as Hin by (by apply Hf).
    destruct (js_sort_head (fun _ => True) compareAssessments _ x rest ltac:(by apply Forall_true) E a' Hin)
      as [->|Hle]; [rewrite Hc in Hc'; by injection Hc' as ->|].
    eapply compare_nonpositive in Hle; [|exact Hc | exact Hc'].
    destruct (Z.le_gt_cases (netBenefit c') (netBenefit c)); [done|]. destruct Hle. by left.
Qed.

Lemma capacity_left_initial os policy o :
  NoDup (opportunityId <$> os) -> o ∈ os ->
  capacity_left (opportunityId o) (initial_limits os policy) = availableCapacityUsdMantissa o.
Proof.
  intros Hnd Ho. unfold capacity_left, initial_limits. cbn [remainingCapacity].
  assert (mget (opportunityId o) (mofl ((fun o => (opportunityId o, availableCapacityUsdMantissa o)) <$> os))
          = Some (availableCapacityUsdMantissa o)) as ->; [|done].
  apply mget_mofl; [by rewrite <- list_fmap_compose|]. apply list_elem_of_fmap. by exists o.
Qed.

Lemma filter_length_perm {A} (P : A -> bool) l l' :
  l ≡ₚ l' -> length (List.filter P l) = length (List.filter P l').
Proof.
  induction 1 as [|x l l' _ IH|x y l|l1 l2 l3 _ IH1 _ IH2]; cbn; try (destruct (P x)); try (destruct (P y)); cbn; congruence.
Qed.

(** ** Properties *)

(** C35: an assessed candidate is eligible exactly when its quote is complete,
    fresh and bound to its position and opportunity, the opportunity is
    available with current evidence and a current risk approval, the capacity
    and the route rules (consent and allowed bridges across chains, no bridge
    within one) are met, and the return calculation has no objection. *)
Theorem assessment_eligible_iff request c p o :
  isEligibleInternal (assessCandidate request c p o) = true <-> candidate_acceptable request c p o.
Proof. apply assess_eligible. Qed.

(** The comparison pass leaves same-chain candidates alone and keeps a
    cross-chain candidate eligible exactly when its lifecycle cost is within
    the policy and it improves by the policy's minimum on the best eligible
    same-chain candidate of its position; without such a baseline none is. *)
Theorem cross_chain_needs_improvement request s i a :
  NoDup (positionId <$> positions request) -> s !! i = Some a -> position a ∈ positions request ->
  exists a', applyCrossChainComparisonPolicy request s !! i = Some a' /\
    match routeKind a with
    | SAME_CHAIN => a' = a
    | CROSS_CHAIN =>
        isEligibleInternal a' = true <->
        isEligibleInternal a = true /\ exists c base, calculation a = Some c /\
          baseline (position_key a) s = Some base /\
          totalLifecycleCost c <= maximumLifecycleCostUsdMantissa (crossChainPolicy request) /\
          minimumNetImprovementUsdMantissa (crossChainPolicy request) <= netBenefit c - base
    end /\
    match baseline (position_key a) s with
    | Some b => exists best c, best ∈ s /\ position_key best = position_key a /\
        routeKind best = SAME_CHAIN /\ isEligibleInternal best = true /\
        calculation best = Some c /\ netBenefit c = b
    | None => forall x, x ∈ s -> position_key x = position_key a -> routeKind x = SAME_CHAIN ->
        isEligibleInternal x = false
    end.
Proof.
  intros Hnd Ha Hp. eexists. split.
  - unfold applyCrossChainComparisonPolicy. rewrite apply_comparison by done.
    rewrite list_lookup_fmap, Ha. reflexivity.
  - split.
    + unfold compared. rewrite bool_decide_eq_true_2 by (by apply list_elem_of_fmap_2).
      destruct (routeKind a) eqn:Hk; [by apply compare_with_baseline_same|].
      by apply compared_eligible.
    + pose proof (baseline_best s (position_key a)) as H. destruct (baseline _ s); [|done].
      destruct H as (x & c & H). exists x, c. tauto.
Qed.

(** The selection is of eligible candidates only, at most one per position,
    always the most preferred of the position's candidates that are still
    eligible at the end, and a position goes without one only when none of its
    candidates is. *)
Theorem selection_greedy request s :
  request_wf request -> allocate request = Ok s -> selection_ok s.
Proof. intros Hw H. by destruct (allocate_ok _ _ Hw H) as (? & _). Qed.

(** C5: a recommendation stays within every limit of its request: the
    principal decided for an opportunity is within its available capacity,
    the principal decided for a provider and the principal moved across chains
    are within the exposure policy. *)
Theorem recommendation_within_limits input r :
  recommendFeeAwareAllocation input = Ok r ->
  exists request, parseRequest input = Ok request /\
    (forall o, o ∈ opportunities request ->
       decided_principal (fun d => decided_for (selectedOpportunityId d) (opportunityId o)) (decisions r)
       <= availableCapacityUsdMantissa o) /\
    (forall provider,
       decided_principal (fun d => decided_for (selectedProviderId d) provider) (decisions r)
       <= maximumProviderPrincipalUsdMantissa (exposurePolicy request)) /\
    decided_principal (fun d => match selectedRouteKind d with Some CROSS_CHAIN => true | _ => false end)
      (decisions r)
    <= maximumCrossChainPrincipalUsdMantissa (exposurePolicy request).
Proof.
  intros (request & s & Hr & Hw & Ha & Hd & _)%recommend_inv. exists request. split; [done|].
  destruct (allocate_ok _ _ Hw Ha) as (Hsel & Hfor & l & H1 & H2 & H3 & H4).
  destruct Hw as (Hp & Ho & _). split; [|split].
  - intros o Hin. rewrite (decided_perm _ _ _ Hd).
    rewrite (decided_principal_store _ _ _ (in_opportunity (opportunityId o)) Hp Hfor Hsel)
      by (intros p; apply (decided_for_fmap (fun a => opportunityId (opportunity a)))).
    destruct (H1 (opportunityId o)) as [E Hn]. rewrite capacity_left_initial in E by done. lia.
  - intros provider. rewrite (decided_perm _ _ _ Hd).
    rewrite (decided_principal_store _ _ _ (of_provider provider) Hp Hfor Hsel)
      by (intros p; apply (decided_for_fmap (fun a => providerId (opportunity a)))).
    destruct (H2 provider). lia.
  - rewrite (decided_perm _ _ _ Hd).
    rewrite (decided_principal_store _ _ _ is_cross_chain Hp Hfor Hsel); [lia|].
    intros p. cbn. unfold is_cross_chain. destruct (selected_of s p) as [a|]; [|done]. cbn. by destruct (routeKind a).
Qed.

(** A recommendation decides every position of the request once; the
    recommended principal is the sum over the decisions with a selection, each
    of which still asks for a separate transaction approval; the status tells
    whether all, some or none of the positions have one. *)
Theorem recommendation_accounts_for_positions input r :
  recommendFeeAwareAllocation input = Ok r ->
  let chosen := List.filter requiresSeparateTransactionApproval (decisions r) in
  exists request, parseRequest input = Ok request /\
    (decision_position <$> decisions r) ≡ₚ positions request /\
    recommendedPrincipalUsdMantissa r = decided_principal requiresSeparateTransactionApproval (decisions r) /\
    (forall d, d ∈ decisions r -> requiresSeparateTransactionApproval d = true <-> is_Some (selectedCandidateId d)) /\
    (recommendation_status r = RECOMMENDED <-> length chosen = length (positions request)) /\
    (recommendation_status r = NO_ELIGIBLE_ROUTE <-> chosen = []).
Proof.
  intros (request & s & Hr & Hw & Ha & Hd & Hsum & Hst)%recommend_inv chosen. exists request. split; [done|].
  destruct (allocate_ok _ _ Hw Ha) as (Hsel & Hfor & _). destruct Hw as (Hp & _ & _ & Hpos & _).
  assert (forall p, requiresSeparateTransactionApproval (positionDecision s p)
          = match selected_of s p with Some a => true | None => false end) as Hreq
    by (intros p; cbn; by destruct (selected_of s p)).
  assert (length chosen = length (List.filter selected s)) as Hlen.
  { unfold chosen. rewrite (filter_length_perm _ _ _ Hd), <- (selections_perm _ _ Hp Hfor Hsel).
    clear -Hreq. induction (positions request) as [|p ps IH]; [done|]. rewrite fmap_cons. cbn [List.filter omap list_omap].
    rewrite Hreq. destruct (selected_of s p); cbn; by rewrite IH. }
  split; [|split; [|split; [|split]]].
  - rewrite Hd, <- list_fmap_compose. by rewrite list_fmap_id.
  - rewrite (decided_perm _ _ _ Hd). rewrite (decided_principal_store _ _ _ (fun _ => true) Hp Hfor Hsel) by done.
    apply bounded_sum_from_ok in Hsum. rewrite Hsum, principal_sum. unfold sum_of. cbn.
    clear. induction (List.filter selected s) as [|a l IH]; [done|]. rewrite fmap_cons. cbn [foldr]. lia.
  - intros d. rewrite Hd. intros (p & -> & _)%list_elem_of_fmap. rewrite Hreq. cbn.
    destruct (selected_of s p); cbn; split; try done; by intros [? ?].
  - rewrite Hst, <- Hlen. destruct (Nat.eqb_spec (length chosen) (length (positions request))); [by split|].
    destruct (length chosen =? 0)%nat; split; (discriminate || congruence).
  - rewrite Hst, <- Hlen. assert (length (positions request) <> 0%nat) as Hne by (by eapply positions_nonempty).
    rewrite <- length_zero_iff_nil.
    destruct (Nat.eqb_spec (length chosen) (length (positions request))); [split; [discriminate | lia]|].
    destruct (Nat.eqb_spec (length chosen) 0); split; (discriminate || congruence).
Qed.

(** ** Witnesses *)

(** The stages on the example request. *)
Definition assessed_example : store := Eval vm_compute in
  match assess_all request_example with Ok s => s | Err _ => [] end.

Definition store_example : store := Eval vm_compute in
  match allocate request_example with Ok s => s | Err _ => [] end.

Definition recommendation_example : FeeAwareAllocationRecommendation := Eval vm_compute in
  match recommendFeeAwareAllocation allocation_example with
  | Ok r => r
  | Err _ => Build_FeeAwareAllocationRecommendation RECOMMENDED "" 0 0 0 0 []
  end.

Lemma recommendation_within_limits_witness :
  recommendFeeAwareAllocation allocation_example = Ok recommendation_example /\
  exists request, parseRequest allocation_example = Ok request /\
    decided_principal (fun d => match selectedRouteKind d with Some CROSS_CHAIN => true | _ => false end)
      (decisions recommendation_example)
    <= maximumCrossChainPrincipalUsdMantissa (exposurePolicy request).
Proof.
  split; [vm_compute; reflexivity|].
  destruct (recommendation_within_limits allocation_example recommendation_example
              ltac:(vm_compute; reflexivity)) as (request & Hr & _ & _ & H).
  exists request. split; [exact Hr | exact H].
Defined.

Lemma recommendation_accounts_for_positions_witness :
  recommendFeeAwareAllocation allocation_example = Ok recommendation_example /\
  recommendation_status recommendation_example = RECOMMENDED /\
  1500000 = decided_principal requiresSeparateTransactionApproval (decisions recommendation_example).
Proof.
  split; [vm_compute; reflexivity|]. split; [reflexivity|].
  destruct (recommendation_accounts_for_positions allocation_example recommendation_example
              ltac:(vm_compute; reflexivity)) as (request & _ & _ & H & _). exact H.
Defined.

Lemma selection_greedy_witness :
  allocate request_example = Ok store_example /\ (selected <$> store_example) = [true; false; true; false] /\
  selection_ok store_example.
Proof.
  split; [vm_compute; reflexivity|]. split; [reflexivity|].
  exact (selection_greedy request_example store_example (fee_request_wf _ _ request_example_ok)
           ltac:(vm_compute; reflexivity)).
Defined.

Lemma cross_chain_needs_improvement_witness :
  exists a a', assessed_example !! 2%nat = Some a /\ routeKind a = CROSS_CHAIN /\
    applyCrossChainComparisonPolicy request_example assessed_example !! 2%nat = Some a'.
Proof.
  eexists. pose proof (fee_request_wf _ _ request_example_ok) as (Hnd & _).
  destruct (cross_chain_needs_improvement request_example assessed_example 2 _ Hnd eq_refl
              (list_elem_of_further _ _ _ (list_elem_of_here _ _))) as (a' & Ha' & _).
  exists a'. split; [reflexivity|]. split; [reflexivity | exact Ha'].
Defined.
